(* ===== verification/_CoqProject ===== *)
-Q . S2P
Prelude.v
Strconv.v
OAuth2.v
Http.v
NefModel.v
NefSouth.v
NefCore.v
NefTi.v
NefPfd.v
NefPfdApi.v
NefSpec.v
NefTiFacts.v
NefPfdFacts.v
NefPfdRefine.v
NefInv.v
NefSouthInv.v
NefRouter.v
NefService.v
NefTiProps.v
NefPfdProps.v
Eaa.v
EaaFacts.v
EaaInv.v
EaaSpec.v
EaaProps.v
EdgeDns.v
EdgeDnsProps.v
GoNet.v
Json.v
JsonWire.v
NefJson.v
AfModel.v
AfWire.v
AfCommon.v
AfClient.v
AfTi.v
AfPfd.v
AfRouter.v
AfRegistry.v
AfNef.v
AfProps.v
AfNefProps.v
Logging.v
Oam.v
CceModel.v
CcePolicy.v
CcePersist.v
CceNode.v
ElaRules.v
Eda.v
ElaNts.v
ElaProps.v
CceCtl.v
CceRest.v
CceRouter.v
CceServer.v
CcePersistFacts.v
CceInv.v
CceFacts.v
CceK8s.v
CceProps.v
CcePolicyProps.v
GoPath.v
EvaMeta.v
EvaEnv.v
EvaDeploy.v
EvaLife.v
EvaInv.v
EvaFiles.v
EvaGood.v
EvaSettle.v
EvaStored.v
EvaProps.v
EvaLimits.v
Ovn.v
Proxy.v
Certs.v
CertsProps.v
Telemetry.v
Services.v
