(* ===== verification/Prelude.v ===== *)
(** * Verification of the OpenNESS on-premises network functions

    The repository holds the Go services of an edge platform: the 5G network
    functions of [epcforedge/ngc] (the Network Exposure Function NEF, the
    Application Function AF, OAM), the services of an edge node ([edgenode]:
    application agent EAA, DNS, life-cycle, virtualisation and data-plane
    agents) and the controller that manages nodes ([edgecontroller]).  This
    library models the services that keep state and decide by themselves, and
    proves what makes them correct.  Names are those of the sources.

    ** How the code is modelled

    A handler is a function of the monad [GoM] of this file: it takes the state
    of its service and yields a result or a run-time panic, and the new state
    in both cases, because [net/http] recovers a panicking handler and serves
    the next request.  [error] is an optional text, pointers that may be nil
    are options, integers are [Z] with the wrap-around of their width where it
    matters ([wrap_int], [int_incr], [wrap_uint8]).  Go's unspecified order of
    [range] over a map is a parameter: [GoEnv] gives each loop some order that
    visits every entry once, every theorem holds for all of them, and
    [canonical_env] is used to run examples.  [Http] models the parts of
    [net/http] that decide what a client receives, [Strconv] the number and
    string functions.  Libraries outside the repository are classes that the
    theorems quantify over ([Jwt], [WebSocket], [Bolt], [Gob], [DnsLib], [Rand],
    [CceDB], [NodeNet], [KubeApi], [Jose], [Pki], [EvaWorld], [ElaWorld],
    [NesApi], [NefMux], [AfEnv], [X509], [CredentialsClient], [EvaLookup],
    [LogLib], [OvnWorld], [ConfigFiles], [Durations]), with their documented behaviour as named laws where it is needed.

    ** The NEF (epcforedge/ngc/pkg/nef)

    State: the registry of AFs, each with its traffic-influence subscriptions
    and PFD transactions, and the clients of the PCF and UDR.
    - [NefModel]: the structures of model_nef_*.go and nef_server.go.
    - [NefSouth]: the client interfaces as classes, the stub clients
      (nef_pcf_pa_client.go, nef_udr_*_client.go) as instances, and what the
      northbound side relies on ([PcfSessions], [Production], [UdrPfdStore]).
    - [NefCore]: contexts and the registry (nef_hdlr.go, nef_common.go).
    - [NefTi], [NefPfd], [NefPfdApi]: the handlers of nef_nb_ti_handler.go and
      nef_nb_pfd_handler.go; [serve] dispatches a request ([NEFRoutes]), and
      [nef_reach] is the states that sequences of requests lead to.
    - [NefRouter] with [OAuth2]: the route table and access control
      (nef_router.go, oauth2_token.go).
    - [NefSpec]: the abstract NEF, a transition system [nef_effect] in which a
      change of the registry and its southbound call are one step.
    - [NefTiFacts], [NefPfdFacts], [NefPfdRefine]: the handlers
      step by step, and that each is at most three steps of [nef_effect].
    - [NefInv], [NefSouthInv]: the registry as one table of
      subscriptions and one of transactions, and the invariants, proved of the
      abstract NEF.
    - [NefService]: the refinement and the invariants of the service.
      [NefTiProps], [NefPfdProps]: what each request does, on
      every branch; Module [NefObservations] of the last: behaviour that a
      caller may not expect.  Module [NefScenario] of [NefPfdApi]: a concrete
      run, for the witnesses.

    ** The Application Function (epcforedge/ngc/pkg/af)

    State: the transaction numbers in use, the subscriptions to notifications
    stored under them, and one access token for the NEF.  Every handler passes
    its request on to the NEF.
    - [JsonWire]: struct tags as functions to and from documents, and what one
      program reads of a structure that another writes ([Wire]); [NefJson]: the
      tags of the NEF's structures.
    - [AfModel]: the structures of model_*.go with their tags, configuration and
      context; [AfCommon]: bodies, URLs, the other side of the network as a
      class ([Network]), and common.go; [AfClient]: the services of
      af_client.go and api_*.go; [AfTi], [AfPfd]: the handlers; [AfRouter]: the
      routes, the start and the states reached ([af_reach]).
    - [AfRegistry]: the search for a free number ends and what it finds; the
      registry without control flow ([af_effect]); the handlers implement it
      whatever the NEF answers; its invariant.  [AfProps]: the theorems, and
      what the invariant means for notifications.
      Module [AfLinks] of [AfRegistry]: the rewriting of links.
    - [AfWire]: messages between the two
      programs, there and back.
    - [AfNef]: the NEF of [NefRouter] as the network of the AF, with mux as a
      parameter ([NefMux]), requests and answers through both programs, and the
      client that posts the NEF's notifications (nef_af_notif_client.go);
      [AfNefProps]: creation and deletion of subscriptions, expiry of tokens
      and reading of PFDs from end to end.  Module [AfScenario] of [AfNef]:
      both programs on a concrete configuration.

    ** The Edge Application Agent (edgenode/pkg/eaa)

    State: registered services, the table of subscriptions, the consumers'
    websocket connections.  [Eaa] has the operations and handlers, [EaaFacts]
    and [EaaInv] compute them as functions of the table and prove the invariant,
    [EaaSpec] is the abstract state (who is subscribed to what), [EaaProps] the
    theorems: the refinement, exact answers without panics, delivery of a
    notification exactly once to exactly the subscribers, exact listing.

    ** EdgeDNS (edgenode/pkg/edgedns)

    State: the records, kept by a storage behind an interface.  [EdgeDns] has
    the database backend, the control API and the query handler; the interface
    [Storage] of the sources is a class.  [EdgeDnsProps] states its contract
    ([StorageSpec], a map from names to addresses), proves that [BoltDB]
    implements it on any key-value store and encoder that behave as documented
    ([BoltLaws], [GobLaws]), and proves the control API and the handler against
    the contract alone: exact answers, set and delete against queries, fair
    shuffling of answers.

    ** The controller (edgecontroller)

    State: the tables of the database and what the managed nodes and Kubernetes
    hold.  [GoNet] models the parsing of addresses and prefixes of package [net],
    [Json] documents and the encoding of entities.
    - [CceModel], [CcePolicy]: the entities (node.go, app.go, traffic_policy.go
      and so on) as instances of [Persistable], [Filterable], [Validatable], with
      validation and the translation of policies to gRPC and Kubernetes.
    - [CcePersist]: the persistence service of mysql/ on a database that keeps
      the constraints of schema.sql ([CceDB]), and an in-memory instance.
    - [CceNode], [CceCtl]: the clients of the nodes (grpc/) and the checks and
      remote operations of the handlers; [CceRest]: the handlers
      of gorilla/; [CceRouter]: routes, login, tokens and middleware;
      [CceServer]: enrolment, container lookup and feature reports.
    - [CceK8s]: the client of k8s/ as an instance of the class [K8sClient] that
      the handlers use, on an API server [KubeApi] with the laws [KubeLaws] (a
      deployment stays while it is being deleted, a call that fails may have
      been carried out), and that it implements a table of applications.
    - [CcePersistFacts], [CceInv], [CceFacts]: what the service and each handler
      do; Module [CceScenario] of [CceServer]: a concrete controller.
    - [CceProps], [CcePolicyProps]: every row is always the document of an
      entity of its table, validated but for DNS configurations, creation is
      exact, no request to a route but the login whose token is not accepted
      changes anything, only approved keys are enrolled, a
      node reports features only for itself, and stored policies can be sent as
      they are.

    ** The virtualization agent (edgenode/pkg/eva, app-metadata, cni)

    State: the files of the image directory, the tasks (goroutines) that calls
    have started and the programs the agent drives.
    - [GoPath]: paths and a file system whose every call may fail, a failing
      write leaving part of its bytes and a failing removal part of its tree.
    - [EvaMeta]: app_metadata.go; [EvaEnv]: the configuration and every call of
      Docker, libvirt, Open vSwitch, OVN and CNI as an event [ext] that the world
      [EvaWorld] answers as it likes, and pkg/cni; [EvaDeploy]:
      eva_deploy.go; [EvaLife]: application_lifecycle_service.go,
      appid_provider.go and the agent as a transition system [eva_step] of calls,
      tasks and crashes, each a whole step.  Goroutines that save at the same time
      are interleaved call by call in [saves_run] of [EvaMeta].
    - [EvaInv]: a property of the files that the five file operations keep is
      kept by every step ([kept]); [EvaFiles]: metadata stays intact whatever
      fails; [EvaGood], [EvaSettle], [EvaStored]: what operations, tasks and calls
      do on a disk that works; Module [EvaScenario] of [EvaStored]: a concrete
      world.
    - [EvaProps]: metadata is intact under any failure and crash, and under
      goroutines that save different applications at the same time (two that save the
      same one can leave it empty: [same_application_loses_metadata]), saving is
      atomic, commands follow the table of transitions, tasks end without a panic
      and leave no application between two states, and what a crash leaves there
      stays there.  [EvaLimits]: resources asked for are those of the request and
      within the limits.

    ** The lifecycle and dataplane agents (edgenode/pkg/ela, eda, edants)

    State of the lifecycle agent: the policies stored for interfaces and the
    interfaces of the update in progress; of the dataplane agent: the policy of
    each application with the routes added for it.  The messages are those of
    [CceNode].
    - [ElaRules]: traffic rules as texts and back (ini/routing_rules.go) and the
      checks of policies and interfaces (helpers/data_verification_helpers.go),
      with the proof of the round trip.
    - [Eda]: eda_traffic_policy_service.go on the wrapper edants.go; the NTS
      library is the class [NesApi], its table of routes [NesLaws], in which a
      call that fails may have changed the route it names.  Facts:
      what removing, adding and setting rules does ([removed], [set_result]).
    - [ElaNts]: the configuration of the traffic service (ini/nts_config.go),
      the devices of the host (helpers/network_interfaces.go), and the services
      (nts_interface_management.go, interface_service.go and so on) on a world
      of events [ElaWorld] with a trace.  Facts about ports and their egress.
    - [ElaProps]: round trips of rules and of the configuration, exact ports in
      any order of the map, the order of events of an update, no route leaks
      unnoticed, the table mirrors the memory, and a policy from the lifecycle
      agent through the dataplane agent to the routes, the call between the
      two being lost, answered, or handled without a reply.

    ** The OAM (epcforedge/ngc/pkg/oam)

    State: the list of AF services of the stub that stands for the 5G core.
    [Oam] has the stub, the proxy in front of it, the routes and the decoding
    of a body into a record that already holds values, and the abstract OAM, a
    finite map of services, that every run of the stub implements.

    ** Keys, certificates and enrolment (edgenode/pkg/auth, edgecontroller/pki,
       edgenode/pkg/eaa)

    State: files with permissions on a disk whose every call may fail, random
    numbers and the clock.  [Certs] has the loading and storing of keys and
    certificates, the enrolment of a node, the certificate authority of the
    controller (an instance of [Pki] of [CceServer]), the certificate of the
    server of feature discovery and the authority of the EAA with its handler
    of credentials, on the class [X509] with the laws [X509Laws].
    [CertsProps]: an enrolment that reports success has left on the disk a key
    and a verified certificate for it, whatever fails on the way; the authority
    is made in at most two rounds; and the node enrolled against the controller
    of [CceServer], end to end.

    ** Logging and the gRPC proxy (common)

    - [Logging]: the priority of the logger, printers, verbosity by signals, the
      adapter for gRPC and the connection to syslog.  The bits of the priority
      implement a level and a facility kept apart; a line is delivered to the
      local writer and to syslog with at most one retry.
    - [Proxy]: [PrefaceListener] and [DialListener] as the atomic steps of their
      goroutines, in any order.  The counters tell exactly which connections
      are in use, and every connection accepted is in one place at a time, a
      dialer reading the map and waiting on the channel in two steps.

    ** Telemetry (edgecontroller/telemetry) and services (edgenode/pkg/service)

    - [Telemetry]: connections whose lines are copied to a file.  The channel
      between the goroutines holds slices of the scanners' buffers, so the model
      has arrays and slices of them, and the scanner of [bufio] with its moving
      and growing buffer.  If no buffer is moved while the channel or the goroutine
      that writes holds a slice of it, what is written is exactly what the reference [lines_of] makes of
      the bytes received, and the goroutines come to rest; examples show what
      happens otherwise.
    - [Services]: the goroutines of [RunServices] and the loop that waits for
      them: it ends after all services have, and tells whether one failed.
      Configuration, the enrolment loop of the appliance, durations, heartbeats.

    ** The OVN plugin (edgenode/pkg/ovncni, edgenode/cmd/ovncni)

    State: ports and routes of the logical network, the bridge and the links,
    seen through the programs that change them ([OvnWorld], [OvnLaws]).  [Ovn]
    has the client of ovn-nbctl and the commands ADD, DEL and CHECK: making a
    port and deleting it restores the network, and so do ADD and DEL.

    ** Bounds and fuel

    Identifiers are decimal texts of counters that wrap at 64 bits.  [cfg_room
    cf n] says that [n] more steps do not wrap them; a request takes at most
    three steps, so the theorems on [n] requests assume [cfg_room cf (3 * n)],
    which for the configured offsets holds for more than 10^18 requests.
    [gen_loop] runs for as many rounds as the loop of [genAppSessionID] (the
    number of sessions), [split_at] for the length of the text; both are proved
    to be enough where they are used, as is the fuel of [search_free] (one round
    more than there are numbers in use).  A poll of a domain runs as often as the
    world lets it before the timer fires ([TimeAfter]), a poll of the traffic
    service as often as the context of the request is found alive ([CtxAlive]).
    [InitRootCA] calls itself after it has removed what it could not load; two
    rounds are proved to be enough.  Decoding a file of PEM blocks takes at most
    one round for each byte ([decode_blocks_enough]).

    ** What is not modelled

    Requests are served one after the other; the NEF and the EAA have no locks,
    and interleavings of handlers inside a request are not modelled, except
    that a consumer's connection may be set up while a notification waits for
    it ([WsPolls]).  In the virtualization agent each call and each task is one
    step, and tasks run in any order between calls; that two tasks of one
    application write its files at the same time is not modelled.  JSON texts
    are the values they decode to ([Body], [Doc]), or documents where two
    programs exchange them ([text]); keys are compared exactly, and a key that
    occurs twice or an unknown key is not sent by either program.  The map of
    the dataplane agent and the list of the OAM have no lock either, and their
    requests are served one after the other.

    Left out because there is nothing of the program's own to decide: the start
    of processes (flags, the configuration files of the other programs,
    listeners, TLS settings, and the [main] packages other than the appliance's
    and the OVN plugin's), SQL texts and collations, the String methods of entities, which only logs use, path
    matching of the mux library, and the log lines of the services.  Left out because they are not Go or not part of the services:
    generated protocol buffers, the C and C++ data planes, user interfaces,
    playbooks, the command line of the CNCA, mocks, test nodes and samples. *)

From stdpp Require Import prelude gmap strings pretty list sorting.
From Stdlib Require Import ZArith.

(** Scope of the notations of this development. *)
Declare Scope go_scope.
Delimit Scope go_scope with go.

(** ** Go errors and outcomes *)

(** A Go [error] value: [None] is [nil], [Some msg] is [errors.New(msg)]. *)
Abbreviation error := (option string).
Abbreviation nil_err := (@None string) (only parsing).

(** [errors.New]. *)
Definition errors_New (msg : string) : error := Some msg.

(** What a call yields: a value, or a run-time panic. *)
Inductive outcome (A : Type) : Type :=
| Ret (a : A)
| Panic (msg : string).
Arguments Ret {A} a.
Arguments Panic {A} msg.

(** State-passing computations.  A panic keeps the state reached so far,
    because [net/http] recovers a panicking handler and keeps serving. *)
Definition GoM (S A : Type) : Type := S → outcome A * S.

#[export] Instance GoM_ret {S} : MRet (GoM S) := λ A a s, (Ret a, s).
#[export] Instance GoM_bind {S} : MBind (GoM S) := λ A B k m s,
  match m s with
  | (Ret a, s') => k a s'
  | (Panic e, s') => (Panic e, s')
  end.

Definition go_get {S} : GoM S S := λ s, (Ret s, s).
Definition go_put {S} (s : S) : GoM S unit := λ _, (Ret tt, s).
Definition go_modify {S} (f : S → S) : GoM S unit := λ s, (Ret tt, f s).
Definition go_panic {S A} (msg : string) : GoM S A := λ s, (Panic msg, s).

(** A [for ... range] loop whose body may return early from the enclosing
    function: [inl b] goes on with the loop variables [b], [inr r] returns. *)
Fixpoint for_acc {S A B R} (l : list A) (body : A → B → GoM S (B + R))
    (b : B) : GoM S (B + R) :=
  match l with
  | [] => mret (inl b)
  | x :: l' => r ← body x b;
      match r with
      | inl b' => for_acc l' body b'
      | inr out => mret (inr out)
      end
  end.

(** The same for bodies without effects on the state. *)
Fixpoint loop_acc {A B R} (l : list A) (body : A → B → B + R) (b : B) : B + R :=
  match l with
  | [] => inl b
  | x :: l' =>
      match body x b with
      | inl b' => loop_acc l' body b'
      | inr out => inr out
      end
  end.

(** ** Machine integers *)

(** Go's [int] and [uint] are 64 bits wide on the supported targets. *)
Definition max_int : Z := 2 ^ 63 - 1.
Definition wrap_int (z : Z) : Z := (z + 2 ^ 63) mod 2 ^ 64 - 2 ^ 63.
Definition wrap_uint (z : Z) : Z := z mod 2 ^ 64.
Definition wrap_uint8 (z : Z) : Z := z mod 2 ^ 8.

(** [x++] on an [int] and on a [uint]. *)
Definition int_incr (z : Z) : Z := wrap_int (z + 1).
Definition uint_incr (z : Z) : Z := wrap_uint (z + 1).

(** [len(s)] of a string, and the comparison [s == ""]. *)
Definition str_len (s : string) : Z := Z.of_nat (String.length s).
Definition str_empty (s : string) : bool := bool_decide (s = "").

(** ** The run-time environment *)

(** Go leaves the order of [range] over a map unspecified and varies it from
    one loop to the next.  [map_range site m] is the order taken by the loop
    called [site] (the function, and the keys of the enclosing loops); all
    that is known of it is that it visits every entry exactly once.
    [now_plus d] is the text of [time.Now().Add(d * time.Second)]. *)
Class GoEnv := {
  map_range : ∀ `{Countable K} {V : Type}, list string → gmap K V → list (K * V);
  map_range_perm : ∀ `{Countable K} {V : Type} (site : list string) (m : gmap K V),
    map_range site m ≡ₚ map_to_list m;
  now_plus : Z → string;
}.

(** One possible environment, used to evaluate the model. *)
#[export] Program Instance canonical_env : GoEnv | 100 := {|
  map_range := λ _ _ _ _ _ m, map_to_list m;
  now_plus := λ d, "now+" +:+ pretty d;
|}.
Next Obligation. done. Qed.

(** ** Reasoning about computations *)

(** [triple P m Q]: from a state satisfying [P], [m] returns normally and its
    value and final state satisfy [Q]. *)
Definition triple {S A} (P : S → Prop) (m : GoM S A) (Q : A → S → Prop) : Prop :=
  ∀ s, P s → ∃ a s', m s = (Ret a, s') ∧ Q a s'.

(** [preserves I m]: [I] holds after [m], whether or not it panicked. *)
Definition preserves {S A} (I : S → Prop) (m : GoM S A) : Prop :=
  ∀ s, I s → I (m s).2.

(** [m] never panics. *)
Definition returns {S A} (m : GoM S A) : Prop := ∀ s, ∃ a s', m s = (Ret a, s').

(** The final state of a computation. *)
Definition exec {S A} (m : GoM S A) (s : S) : S := (m s).2.

Section computations.
Context {S : Type}.
Implicit Types (s : S).

Lemma bind_ret {A B} (m : GoM S A) (k : A → GoM S B) s a s' :
  m s = (Ret a, s') → (m ≫= k) s = k a s'.
Proof. unfold mbind, GoM_bind. by intros ->. Qed.

Lemma bind_panic {A B} (m : GoM S A) (k : A → GoM S B) s e s' :
  m s = (Panic e, s') → (m ≫= k) s = (Panic e, s').
Proof. unfold mbind, GoM_bind. by intros ->. Qed.

Lemma bind_get {B} (k : S → GoM S B) s : (go_get ≫= k) s = k s s.
Proof. done. Qed.

Lemma bind_modify {B} (f : S → S) (k : unit → GoM S B) s : (go_modify f ≫= k) s = k tt (f s).
Proof. done. Qed.

Lemma bind_mret {A B} (a : A) (k : A → GoM S B) s : (mret a ≫= k) s = k a s.
Proof. done. Qed.

Lemma bind_assoc {A B C} (m : GoM S A) (k : A → GoM S B) (h : B → GoM S C) s :
  ((m ≫= k) ≫= h) s = (m ≫= (λ a, k a ≫= h)) s.
Proof. unfold mbind, GoM_bind. by destruct (m s) as [[a|e] s']. Qed.

Lemma triple_ret {A} (P : S → Prop) (a : A) (Q : A → S → Prop) :
  (∀ s, P s → Q a s) → triple P (mret a) Q.
Proof. intros H s Hs. exists a, s. split; [done|auto]. Qed.

Lemma triple_bind {A B} (P : S → Prop) (m : GoM S A) (Q : A → S → Prop)
    (k : A → GoM S B) (R : B → S → Prop) :
  triple P m Q → (∀ a, triple (Q a) (k a) R) → triple P (m ≫= k) R.
Proof.
  intros Hm Hk s Hs. destruct (Hm s Hs) as (a & s' & Heq & HQ).
  rewrite (bind_ret _ _ _ _ _ Heq). by apply Hk.
Qed.

Lemma triple_conseq {A} (P P' : S → Prop) (m : GoM S A) (Q Q' : A → S → Prop) :
  triple P' m Q' → (∀ s, P s → P' s) → (∀ a s, Q' a s → Q a s) →
  triple P m Q.
Proof.
  intros Hm HP HQ s Hs. destruct (Hm s (HP s Hs)) as (a & s' & ? & ?). eauto.
Qed.

Lemma triple_for_acc {A B R} (l : list A) (body : A → B → GoM S (B + R))
    (I : B → S → Prop) (Q : R → S → Prop) b :
  (∀ x b', x ∈ l → triple (I b') (body x b')
     (λ r s, match r with inl b'' => I b'' s | inr out => Q out s end)) →
  triple (I b) (for_acc l body b)
    (λ r s, match r with inl b'' => I b'' s | inr out => Q out s end).
Proof.
  revert b. induction l as [|x l IH]; intros b Hbody; simpl.
  { apply triple_ret; auto. }
  eapply triple_bind; [apply Hbody; set_solver|].
  intros [b'|out]; [apply IH; set_solver|apply triple_ret; auto].
Qed.

Lemma preserves_ret {A} (I : S → Prop) (a : A) : preserves I (mret a).
Proof. by intros s. Qed.

Lemma preserves_get (I : S → Prop) : preserves I go_get.
Proof. by intros s. Qed.

Lemma preserves_panic {A} (I : S → Prop) e : preserves I (go_panic (A:=A) e).
Proof. by intros s. Qed.

Lemma preserves_modify (I : S → Prop) f :
  (∀ s, I s → I (f s)) → preserves I (go_modify f).
Proof. intros H s; apply H. Qed.

Lemma preserves_bind {A B} (I : S → Prop) (m : GoM S A) (k : A → GoM S B) :
  preserves I m → (∀ a, preserves I (k a)) → preserves I (m ≫= k).
Proof.
  intros Hm Hk s Hs. specialize (Hm s Hs). unfold mbind, GoM_bind.
  destruct (m s) as [[a|e] s']; simpl in *; [by apply Hk|done].
Qed.

Lemma returns_ret {A} (a : A) : returns (S:=S) (mret a).
Proof. intros s. by do 2 eexists. Qed.

Lemma returns_bind {A B} (m : GoM S A) (k : A → GoM S B) :
  returns m → (∀ a, returns (k a)) → returns (m ≫= k).
Proof. intros Hm Hk s. destruct (Hm s) as (a & s' & E). rewrite (bind_ret _ _ _ _ _ E). apply Hk. Qed.

Lemma triple_returns {A} (I : S → Prop) (m : GoM S A) :
  returns m → preserves I m → triple I m (λ _, I).
Proof.
  intros Hm Hp s Hs. destruct (Hm s) as (a & s' & E). exists a, s'. split; [done|].
  specialize (Hp s Hs). by rewrite E in Hp.
Qed.

Lemma preserves_for_acc {A B R} (I : S → Prop) (l : list A)
    (body : A → B → GoM S (B + R)) b :
  (∀ x b', preserves I (body x b')) → preserves I (for_acc l body b).
Proof.
  intros Hbody. revert b. induction l as [|x l IH]; intros b; simpl.
  { apply preserves_ret. }
  apply preserves_bind; [done|]. intros [b'|out]; [done|apply preserves_ret].
Qed.
End computations.

Section yields.
Context {S : Type}.

(** What a computation returns satisfies [Q]. *)
Definition yields {A} (m : GoM S A) (Q : A → Prop) : Prop :=
  ∀ s a s', m s = (Ret a, s') → Q a.

Lemma preserves_bind_yields {A B} (I : S → Prop) (m : GoM S A) (Q : A → Prop)
    (k : A → GoM S B) :
  yields m Q → preserves I m → (∀ a, Q a → preserves I (k a)) → preserves I (m ≫= k).
Proof.
  intros Hy Hm Hk s Hs. specialize (Hm s Hs). unfold mbind, GoM_bind.
  destruct (m s) as [[a|e] s'] eqn:E; simpl in *; [|done]. apply Hk; [|done]. by eapply Hy.
Qed.

Lemma yields_bind {A B} (m : GoM S A) (k : A → GoM S B) (Q : B → Prop) :
  (∀ a, yields (k a) Q) → yields (m ≫= k) Q.
Proof.
  intros Hk s b s'. unfold mbind, GoM_bind. destruct (m s) as [[a|e] s1]; [|done]. apply Hk.
Qed.

Lemma yields_ret {A} (a : A) (Q : A → Prop) : Q a → yields (mret a) Q.
Proof. by intros HQ s ?? [= <- <-]. Qed.

Lemma yields_panic {A} e (Q : A → Prop) : yields (go_panic e) Q.
Proof. by intros s a s'. Qed.

Lemma yields_for_acc {A B R} (l : list A) (body : A → B → GoM S (B + R)) (Q : B → Prop) b :
  Q b → (∀ x b, Q b → yields (body x b) (λ r, ∀ b', r = inl b' → Q b')) →
  yields (for_acc l body b) (λ r, ∀ b', r = inl b' → Q b').
Proof.
  intros Hb Hbody. revert b Hb. induction l as [|x l IH]; intros b Hb; simpl.
  { apply yields_ret. by intros ? [= <-]. }
  intros s r s'. unfold mbind, GoM_bind.
  destruct (body x b s) as [[[b1|out]|e] s1] eqn:E; [| |done].
  - apply IH. by apply (Hbody x b Hb _ _ _ E).
  - by intros [= <- <-].
Qed.
End yields.

(** Unfolds the primitives of the computation monad. *)
Ltac go_unfold :=
  cbv [mbind GoM_bind mret GoM_ret go_get go_put go_modify go_panic] in *.

(** Runs a computation up to its first step that is not primitive. *)
Ltac go_run :=
  repeat first [rewrite bind_get | rewrite bind_modify | rewrite bind_mret | rewrite bind_assoc].

(** A computation that leaves every state as it was. *)
Definition read_only {S A} (m : GoM S A) : Prop := ∀ I : S → Prop, preserves I m.

Create HintDb preserves discriminated.
#[export] Hint Resolve preserves_ret preserves_get preserves_panic : preserves.

(** Splits a computation along its structure and closes the leaves. *)
Ltac solve_preserves :=
  repeat first
    [ progress intros
    | solve [eauto with preserves]
    | apply preserves_bind
    | apply preserves_for_acc
    | case_match ].

Lemma read_only_state {S A} (m : GoM S A) (s : S) : read_only m → (m s).2 = s.
Proof. intros Hm. by apply (Hm (λ s', s' = s)). Qed.

Lemma read_only_run {S A} (m : GoM S A) (s : S) :
  read_only m → (∃ a, m s = (Ret a, s)) ∨ (∃ e, m s = (Panic e, s)).
Proof.
  intros Hm. pose proof (read_only_state m s Hm) as Hs.
  destruct (m s) as [[a|e] s'] eqn:E; simpl in Hs; subst; eauto.
Qed.

(** A loop that never leaves early computes a fold. *)
Lemma loop_acc_fold {A B R} (l : list A) (body : A → B → B + R) (f : B → A → B) b :
  (∀ x b', x ∈ l → body x b' = inl (f b' x)) →
  loop_acc l body b = inl (fold_left f l b).
Proof.
  revert b. induction l as [|x l IH]; intros b Hbody; simpl; [done|].
  rewrite Hbody by set_solver. apply IH. set_solver.
Qed.

(** Loops that only search. *)
Lemma loop_acc_inl {A R} (l : list A) (body : A → unit → unit + R) :
  loop_acc l body tt = inl tt ↔ ∀ x, x ∈ l → body x tt = inl tt.
Proof.
  induction l as [|x l IH]; simpl.
  { split; [intros _ x Hx; by apply not_elem_of_nil in Hx|done]. }
  split.
  - intros Hl y Hy. destruct (body x tt) as [[]|r] eqn:E; [|done].
    apply elem_of_cons in Hy as [->|Hy]; [done|]. by apply IH.
  - intros Hall. rewrite Hall by set_solver. apply IH. set_solver.
Qed.

Lemma loop_acc_inr {A R} (l : list A) (body : A → unit → unit + R) r :
  loop_acc l body tt = inr r → ∃ x, x ∈ l ∧ body x tt = inr r.
Proof.
  induction l as [|x l IH]; simpl; [done|].
  destruct (body x tt) as [[]|r'] eqn:E.
  - intros (y & ? & ?)%IH. set_solver.
  - intros [= ->]. set_solver.
Qed.

(** ** Facts on iteration orders *)
Section map_range.
Context `{E : GoEnv} `{Countable K} {V : Type}.
Implicit Types (m : gmap K V) (k : K).

Lemma elem_of_map_range site m k v :
  (k, v) ∈ map_range site m ↔ m !! k = Some v.
Proof. rewrite (map_range_perm site m). apply elem_of_map_to_list. Qed.

Lemma NoDup_map_range_fst site m : NoDup (map_range site m).*1.
Proof. rewrite (map_range_perm site m). apply NoDup_fst_map_to_list. Qed.

Lemma map_range_empty site : map_range site (∅ : gmap K V) = [].
Proof.
  apply Permutation_nil_r. rewrite (map_range_perm site). by rewrite map_to_list_empty.
Qed.

Lemma list_to_map_map_range site m : list_to_map (map_range site m) = m.
Proof.
  rewrite (list_to_map_proper _ (map_to_list m)); [apply list_to_map_to_list|..].
  - apply NoDup_map_range_fst.
  - apply map_range_perm.
Qed.

(** [for k, v := range m { m[k] = f(k, v) }] maps every entry. *)
Lemma range_update site (f : K → V → V) m :
  fold_left (λ acc kv, <[kv.1 := f kv.1 kv.2]> acc) (map_range site m) m
  = map_imap (λ k v, Some (f k v)) m.
Proof.
  apply map_eq. intros k. rewrite map_lookup_imap.
  assert (∀ (l : list (K * V)) (acc : gmap K V), NoDup l.*1 →
    fold_left (λ acc kv, <[kv.1 := f kv.1 kv.2]> acc) l acc !! k
    = match (list_to_map l : gmap K V) !! k with
      | Some v => Some (f k v) | None => acc !! k end) as Hl.
  { induction l as [|[k' v] l IH]; intros acc Hnd; [done|].
    apply NoDup_cons in Hnd as [Hni Hnd]. cbn [fold_left]. rewrite IH by done. simpl.
    rewrite !lookup_insert. destruct (decide (k' = k)) as [->|]; [|done].
    by rewrite (not_elem_of_list_to_map_1 (M:=gmap K) l k). }
  rewrite Hl by apply NoDup_map_range_fst. rewrite list_to_map_map_range.
  by destruct (m !! k).
Qed.

Lemma length_map_range site m : length (map_range site m) = size m.
Proof.
  rewrite (Permutation_length (map_range_perm site m)).
  by rewrite length_map_to_list.
Qed.

End map_range.

(** ** Facts on machine integers *)

Lemma wrap_int_small z : (- 2 ^ 63 ≤ z ≤ max_int)%Z → wrap_int z = z.
Proof. unfold wrap_int, max_int. intros. rewrite Z.mod_small; lia. Qed.

Lemma int_incr_small z : (- 2 ^ 63 ≤ z < max_int)%Z → int_incr z = (z + 1)%Z.
Proof. intros. unfold int_incr. apply wrap_int_small. unfold max_int in *. lia. Qed.

Lemma wrap_uint_range z : (0 ≤ wrap_uint z < 2 ^ 64)%Z.
Proof. unfold wrap_uint. apply Z.mod_pos_bound. lia. Qed.

(** ** Numbers in use *)

(** The [n] identifiers from [sid] on, and how many of them a map may hold. *)
Lemma interval_fills_map {V} (db : gmap Z V) (sid : Z) (n : nat) :
  (∀ i, (sid ≤ i < sid + Z.of_nat n)%Z → is_Some (db !! i)) →
  (n ≤ size db)%nat ∧
  ((size db ≤ n)%nat → db !! (sid + Z.of_nat n)%Z = None).
Proof.
  intros Hall.
  set (ids := list_to_set (seqZ sid (Z.of_nat n)) : gset Z).
  assert (size ids = n) as Hsz.
  { unfold ids. rewrite size_list_to_set by apply NoDup_seqZ.
    rewrite length_seqZ. lia. }
  assert (ids ⊆ dom db) as Hsub.
  { intros i Hi. apply elem_of_list_to_set, elem_of_seqZ in Hi.
    apply elem_of_dom, Hall. lia. }
  split.
  { rewrite <- Hsz, <- (size_dom db). by apply subseteq_size. }
  intros Hle. apply not_elem_of_dom. intros Hin.
  assert (ids ∪ {[(sid + Z.of_nat n)%Z]} ⊆ dom db) as Hsub2.
  { apply union_subseteq. split; [done|]. by apply singleton_subseteq_l. }
  apply subseteq_size in Hsub2. rewrite size_union, size_singleton, size_dom in Hsub2.
  - lia.
  - intros i Hi Hj. apply elem_of_list_to_set, elem_of_seqZ in Hi.
    apply elem_of_singleton in Hj. lia.
Qed.
