(* ===== verification/Strconv.v ===== *)
(** * [strconv] and [strings]

    The functions of Go's standard library that the sources use to turn
    numbers into identifiers and back: [strconv.Itoa], [strconv.Atoi], and the
    few operations on strings shared by the components.  [Atoi] follows
    [strconv.ParseInt] in base ten: an optional sign, decimal digits, [0] on a
    syntax error and the nearest bound on overflow. *)

From S2P Require Import Prelude.
From stdpp Require Import prelude strings pretty list.
From Stdlib Require Import ZArith Ascii.

Local Open Scope Z_scope.

(** [strconv.Itoa]. *)
Definition Itoa (z : Z) : string := pretty z.

(** The value of a decimal digit. *)
Definition digit_of (c : ascii) : option Z :=
  let n := Z.of_nat (nat_of_ascii c) in
  if bool_decide (48 ≤ n ≤ 57) then Some (n - 48) else None.

Inductive parse_error := ErrSyntax | ErrRange.

Definition max_uint : Z := 2 ^ 64 - 1.

(** The digit loop of [ParseUint], which stops at the first overflow. *)
Fixpoint parse_uint (s : string) (acc : Z) : Z + parse_error :=
  match s with
  | EmptyString => inl acc
  | String c s' =>
      match digit_of c with
      | None => inr ErrSyntax
      | Some d =>
          if bool_decide (max_uint < acc * 10 + d) then inr ErrRange
          else parse_uint s' (acc * 10 + d)
      end
  end.

(** The sign and the digits of a number. *)
Definition split_sign (s : string) : bool * string :=
  match s with
  | String "-" s' => (true, s')
  | String "+" s' => (false, s')
  | _ => (false, s)
  end.

(** [strconv.Atoi]. *)
Definition Atoi (s : string) : Z * error :=
  let '(neg, digits) := split_sign s in
  if bool_decide (digits = "") then (0, errors_New "invalid syntax") else
  match parse_uint digits 0 with
  | inr ErrSyntax => (0, errors_New "invalid syntax")
  | inr ErrRange =>
      (if neg then - 2 ^ 63 else max_int, errors_New "value out of range")
  | inl u =>
      if negb neg && bool_decide (2 ^ 63 ≤ u)
      then (max_int, errors_New "value out of range")
      else if neg && bool_decide (2 ^ 63 < u)
      then (- 2 ^ 63, errors_New "value out of range")
      else (if neg then - u else u, nil_err)
  end.

(** [strings.HasSuffix]. *)
Fixpoint has_suffix (s suf : string) : bool :=
  bool_decide (s = suf) ||
  match s with
  | EmptyString => false
  | String _ s' => has_suffix s' suf
  end.

(** [strings.HasPrefix], returning what follows the prefix. *)
Fixpoint strip_prefix (p s : string) : option string :=
  match p, s with
  | EmptyString, _ => Some s
  | String a p', String b s' =>
      if bool_decide (a = b) then strip_prefix p' s' else None
  | String _ _, EmptyString => None
  end.

(** [strings.Split] at a non-empty separator: cut at its leftmost
    occurrence, then go on behind it.  [fuel] bounds the length of the text. *)
Fixpoint split_at (fuel : nat) (sep s cur : string) : list string :=
  match fuel with
  | O => [cur +:+ s]
  | S fuel' =>
      match strip_prefix sep s with
      | Some rest => cur :: split_at fuel' sep rest ""
      | None =>
          match s with
          | EmptyString => [cur]
          | String c s' => split_at fuel' sep s' (cur +:+ String c "")
          end
      end
  end.

Definition strings_Split (s sep : string) : list string :=
  split_at (S (String.length s)) sep s "".

(** [strings.Index(s, sub)], [None] for -1. *)
Fixpoint str_index (s sub : string) : option nat :=
  match strip_prefix sub s with
  | Some _ => Some 0%nat
  | None => match s with
            | EmptyString => None
            | String _ s' => S <$> str_index s' sub
            end
  end.

(** [strings.Contains]. *)
Definition str_contains (s sub : string) : bool := bool_decide (str_index s sub ≠ None).

(** [strings.ToLower] on ASCII. *)
Definition ascii_lower (c : ascii) : ascii :=
  let n := nat_of_ascii c in
  if bool_decide (65 ≤ n ≤ 90)%nat then ascii_of_nat (n + 32) else c.

Fixpoint ToLower (s : string) : string :=
  match s with
  | EmptyString => EmptyString
  | String c s' => String (ascii_lower c) (ToLower s')
  end.

(** ** Numbers and their texts *)

#[export] Instance Itoa_inj : Inj (=) (=) Itoa.
Proof. unfold Itoa. apply _. Qed.

Lemma digit_of_pretty (d : N) :
  (d < 10)%N → digit_of (pretty_N_char d) = Some (Z.of_N d).
Proof.
  intros Hd.
  assert (d = 0 ∨ d = 1 ∨ d = 2 ∨ d = 3 ∨ d = 4 ∨ d = 5 ∨ d = 6 ∨ d = 7 ∨
          d = 8 ∨ d = 9)%N as Hc by lia.
  by destruct_or! Hc; subst.
Qed.

Lemma parse_uint_pretty_go (n : N) (s : string) :
  Z.of_N n ≤ max_uint → parse_uint (pretty_N_go n s) 0 = parse_uint s (Z.of_N n).
Proof.
  revert s. induction (N.lt_wf_0 n) as [n _ IH]; intros s Hn.
  destruct (decide (n = 0)%N) as [->|Hnz]; [done|].
  rewrite pretty_N_go_step by lia.
  pose proof (N.div_mod n 10 ltac:(lia)) as Hdm.
  pose proof (N.mod_lt n 10 ltac:(lia)) as Hmod.
  assert (Z.of_N (n `div` 10) * 10 + Z.of_N (n `mod` 10) = Z.of_N n) as Heq
    by (rewrite Hdm at 3; rewrite N2Z.inj_add, N2Z.inj_mul; lia).
  rewrite IH; [|apply N.div_lt; lia|]. 
  2: { trans (Z.of_N n); [|done]. apply N2Z.inj_le, N.Div0.div_le_upper_bound. lia. }
  simpl.
  rewrite digit_of_pretty by done.
  rewrite Heq. by rewrite bool_decide_eq_false_2 by lia.
Qed.

Lemma parse_uint_pretty (n : N) :
  Z.of_N n ≤ max_uint → parse_uint (pretty n) 0 = inl (Z.of_N n).
Proof.
  intros Hn. unfold pretty, pretty_N. case_decide; subst; [done|].
  by rewrite parse_uint_pretty_go.
Qed.

(** The text of a natural number starts with a digit. *)
Lemma pretty_N_head (n : N) :
  ∃ c s d, pretty n = String c s ∧ digit_of c = Some d.
Proof.
  assert (∀ m s, (0 < m)%N →
    ∃ c s' d, pretty_N_go m s = String c s' ∧ digit_of c = Some d) as Hgo.
  { intros m. induction (N.lt_wf_0 m) as [m _ IH]; intros s Hm.
    rewrite pretty_N_go_step by done.
    destruct (decide (m `div` 10 = 0)%N) as [->|Hd].
    - rewrite pretty_N_go_0. do 3 eexists. split; [done|].
      apply digit_of_pretty, N.mod_lt. lia.
    - apply IH; [apply N.div_lt; lia|by apply N.neq_0_lt_0]. }
  unfold pretty, pretty_N. case_decide; [by exists "0"%char, "", 0|apply Hgo; lia].
Qed.

Lemma split_sign_pretty_N (n : N) : split_sign (pretty n) = (false, pretty n).
Proof.
  destruct (pretty_N_head n) as (c & s & d & -> & Hc).
  destruct c as [[][][][][][][][]]; try done; vm_compute in Hc; done.
Qed.

Lemma pretty_N_nonempty (n : N) : pretty n ≠ "".
Proof. destruct (pretty_N_head n) as (c & s & d & -> & _). done. Qed.

Lemma pretty_Z_nonneg (z : Z) : 0 ≤ z → pretty z = pretty (Z.to_N z).
Proof. destruct z; [done|done|lia]. Qed.

Lemma Itoa_nonempty (z : Z) : Itoa z ≠ "".
Proof.
  unfold Itoa. destruct z as [|p|p]; [done| |done].
  change (pretty (Z.pos p)) with (pretty (N.pos p)). apply pretty_N_nonempty.
Qed.

Lemma Atoi_pretty_N (n : N) :
  Z.of_N n ≤ max_int → Atoi (pretty n) = (Z.of_N n, nil_err).
Proof.
  intros Hn. unfold Atoi, max_int in *. rewrite split_sign_pretty_N.
  rewrite bool_decide_eq_false_2 by apply pretty_N_nonempty.
  rewrite parse_uint_pretty by (unfold max_uint; lia). simpl.
  by rewrite bool_decide_eq_false_2 by lia.
Qed.

(** [Atoi] reads back what [Itoa] writes, for every 64-bit integer. *)
Lemma Atoi_Itoa (z : Z) : - 2 ^ 63 ≤ z ≤ max_int → Atoi (Itoa z) = (z, nil_err).
Proof.
  intros Hz. destruct z as [|p|p]; [done|apply (Atoi_pretty_N (N.pos p)); lia|].
  change (Itoa (Z.neg p)) with (String "-" (pretty (N.pos p))).
  unfold Atoi; cbn [split_sign].
  rewrite bool_decide_eq_false_2 by apply pretty_N_nonempty.
  unfold max_int in *. rewrite parse_uint_pretty by (unfold max_uint; lia). simpl.
  by rewrite bool_decide_eq_false_2 by lia.
Qed.

(** The characters of a printed number. *)
Definition all_chars (p : ascii → bool) (s : string) : bool :=
  forallb p (String.list_ascii_of_string s).
Definition is_digit (c : ascii) : bool :=
  let n := nat_of_ascii c in bool_decide (48 ≤ n ≤ 57)%nat.

Lemma pretty_N_char_digit (d : N) : (d < 10)%N → is_digit (pretty_N_char d) = true.
Proof.
  intros Hd.
  assert (d = 0 ∨ d = 1 ∨ d = 2 ∨ d = 3 ∨ d = 4 ∨ d = 5 ∨ d = 6 ∨ d = 7 ∨
          d = 8 ∨ d = 9)%N as Hc by lia.
  by destruct_or! Hc; subst.
Qed.

Lemma pretty_N_go_digits (n : N) (s : string) :
  all_chars is_digit s = true → all_chars is_digit (pretty_N_go n s) = true.
Proof.
  revert s. induction (N.lt_wf_0 n) as [n _ IH]; intros s Hs.
  destruct (decide (n = 0)%N) as [->|Hnz]; [done|].
  rewrite pretty_N_go_step by lia. apply IH; [apply N.div_lt; lia|].
  unfold all_chars in *. cbn [String.list_ascii_of_string forallb].
  rewrite Hs, pretty_N_char_digit; [done|]. apply N.mod_lt. lia.
Qed.

Lemma pretty_N_digits (n : N) : all_chars is_digit (pretty n) = true.
Proof. unfold pretty, pretty_N. case_decide; [done|]. by apply pretty_N_go_digits. Qed.

Lemma all_chars_impl (p q : ascii → bool) s :
  (∀ c, p c = true → q c = true) → all_chars p s = true → all_chars q s = true.
Proof.
  intros Hpq. unfold all_chars. induction (String.list_ascii_of_string s) as [|c l IH]; [done|].
  simpl. intros [Hc Hl]%andb_prop. rewrite (Hpq c Hc). by apply IH.
Qed.

Lemma all_chars_app p s1 s2 : all_chars p (s1 +:+ s2) = all_chars p s1 && all_chars p s2.
Proof.
  unfold all_chars. induction s1 as [|c s1 IH]; [done|]. simpl in *. by rewrite IH, andb_assoc.
Qed.

Lemma Itoa_chars (p : ascii → bool) (z : Z) :
  (∀ c, is_digit c = true → p c = true) → p "-"%char = true → all_chars p (Itoa z) = true.
Proof.
  intros Hd Hm. unfold Itoa. destruct z as [|q|q].
  - by apply (all_chars_impl is_digit).
  - change (pretty (Z.pos q)) with (pretty (N.pos q)).
    apply (all_chars_impl is_digit); [done|]. apply pretty_N_digits.
  - change (pretty (Z.neg q)) with (String "-" (pretty (N.pos q))). unfold all_chars. simpl.
    rewrite Hm. apply (all_chars_impl is_digit); [done|]. apply pretty_N_digits.
Qed.

(** ** Splitting *)

Lemma str_app_nil_r (s : string) : s +:+ "" = s.
Proof.
  induction s as [|c s IH]; [done|].
  change (String c s +:+ "") with (String c (s +:+ "")). by rewrite IH.
Qed.

Lemma str_app_assoc (s1 s2 s3 : string) : (s1 +:+ s2) +:+ s3 = s1 +:+ s2 +:+ s3.
Proof.
  induction s1 as [|c s1 IH]; [done|].
  change (String c ((s1 +:+ s2) +:+ s3) = String c (s1 +:+ s2 +:+ s3)). by rewrite IH.
Qed.

Lemma str_length_app (s1 s2 : string) :
  String.length (s1 +:+ s2) = (String.length s1 + String.length s2)%nat.
Proof.
  induction s1 as [|c s1 IH]; [done|].
  change (S (String.length (s1 +:+ s2)) = S (String.length s1 + String.length s2)).
  by rewrite IH.
Qed.

(** [strings.Contains(s, sep)]. *)
Definition contains (s sep : string) : Prop := ∃ a b, s = a +:+ sep +:+ b.

Lemma strip_prefix_Some p s rest : strip_prefix p s = Some rest ↔ s = p +:+ rest.
Proof.
  revert s. induction p as [|a p IH]; intros s; simpl.
  { split; [by intros [= ->]|by intros ->]. }
  destruct s as [|b s]; [done|]. case_bool_decide as Hab; subst.
  - rewrite IH. split; [by intros ->|by intros [= ->]].
  - split; [done|]. intros [= -> _]. done.
Qed.

(** A text is cut exactly when it contains the separator. *)
Lemma split_at_single fuel sep s cur :
  (String.length s < fuel)%nat → sep ≠ "" →
  (split_at fuel sep s cur = [cur +:+ s] ∧ ¬ contains s sep) ∨
  ((∃ t1 t2 l, split_at fuel sep s cur = t1 :: t2 :: l) ∧ contains s sep).
Proof.
  intros Hlen Hsep. revert s cur Hlen.
  induction fuel as [|fuel IH]; intros s cur Hlen; [lia|]. cbn [split_at].
  destruct (strip_prefix sep s) as [rest|] eqn:Hs.
  - right. apply strip_prefix_Some in Hs as ->. split; [|by exists "", rest].
    assert (String.length rest < fuel)%nat as Hr.
    { rewrite str_length_app in Hlen. destruct sep; [done|]. simpl in Hlen. lia. }
    destruct (IH rest "" Hr) as [[-> _]|[(t1 & t2 & l & ->) _]]; by do 3 eexists.
  - assert (∀ b, s ≠ sep +:+ b) as Hno.
    { intros b Hb. apply strip_prefix_Some in Hb. congruence. }
    destruct s as [|c s].
    { left. split; [by rewrite str_app_nil_r|]. intros (a & b & Hab).
      destruct a; [|done]. by apply (Hno b). }
    simpl in Hlen. destruct (IH s (cur +:+ String c "") ltac:(lia)) as [[-> Hc]|[Hl Hc]].
    + left. split; [by rewrite str_app_assoc|]. intros (a & b & Hab).
      destruct a as [|c' a]; [by apply (Hno b)|]. injection Hab as -> ->. apply Hc. by exists a, b.
    + right. split; [done|]. destruct Hc as (a & b & ->). by exists (String c a), b.
Qed.

Lemma strings_Split_single s sep :
  sep ≠ "" → ¬ contains s sep → strings_Split s sep = [s].
Proof.
  intros Hsep Hc. unfold strings_Split.
  by destruct (split_at_single (S (String.length s)) sep s "") as [[-> _]|[_ ?]]; [lia|..].
Qed.

Lemma strings_Split_many s sep :
  sep ≠ "" → contains s sep → ∃ t1 t2 l, strings_Split s sep = t1 :: t2 :: l.
Proof.
  intros Hsep Hc. unfold strings_Split.
  by destruct (split_at_single (S (String.length s)) sep s "") as [[_ ?]|[? _]]; [lia|..].
Qed.

(** The second part follows a separator. *)
Lemma split_at_head fuel sep s cur t l :
  split_at fuel sep s cur = t :: l → ∃ r, cur +:+ s = t +:+ r.
Proof.
  revert s cur. induction fuel as [|fuel IH]; intros s cur; cbn [split_at].
  { intros [= <- _]. exists "". by rewrite str_app_nil_r. }
  destruct (strip_prefix sep s) as [rest|]; [intros [= -> _]; eauto|].
  destruct s as [|c s]; [intros [= -> _]; eauto|].
  intros [r Hr]%IH. exists r. by rewrite <- Hr, str_app_assoc.
Qed.

Lemma split_at_second fuel sep s cur t1 t2 l :
  split_at fuel sep s cur = t1 :: t2 :: l → contains s (sep +:+ t2).
Proof.
  revert s cur. induction fuel as [|fuel IH]; intros s cur; cbn [split_at]; [done|].
  destruct (strip_prefix sep s) as [rest|] eqn:Hs.
  - intros [= -> Hrest]. apply strip_prefix_Some in Hs as ->.
    apply split_at_head in Hrest as [r Hr]. exists "", r. rewrite str_app_assoc.
    by rewrite <- Hr.
  - destruct s as [|c s]; [done|]. intros (a & b & ->)%IH. by exists (String c a), b.
Qed.

Lemma strings_Split_second s sep t1 t2 l :
  strings_Split s sep = t1 :: t2 :: l → contains s (sep +:+ t2).
Proof. apply split_at_second. Qed.

(** What follows a leading separator, when there is no other. *)
Lemma strings_Split_after s sep :
  sep ≠ "" → ¬ contains s sep → strings_Split (sep +:+ s) sep = [""; s].
Proof.
  intros Hsep Hc. unfold strings_Split. cbn [split_at].
  rewrite (proj2 (strip_prefix_Some sep (sep +:+ s) s) eq_refl). f_equal.
  destruct (split_at_single (String.length (sep +:+ s)) sep s "") as [[-> _]|[_ ?]]; try done.
  rewrite str_length_app. destruct sep; [done|]. simpl. lia.
Qed.

(** ** The first separator *)

(** The character occurs in the text. *)
Definition has_char (c : ascii) (s : string) : bool :=
  existsb (Ascii.eqb c) (String.list_ascii_of_string s).

Lemma has_char_all (p : ascii → bool) c s :
  all_chars p s = true → p c = false → has_char c s = false.
Proof.
  intros Hs Hc. unfold has_char, all_chars in *.
  induction (String.list_ascii_of_string s) as [|a l IH]; [done|]. simpl in *.
  apply andb_prop in Hs as [Ha Hl]. rewrite (IH Hl), orb_false_r.
  destruct (Ascii.eqb_spec c a); congruence.
Qed.

Lemma has_char_app c s1 s2 : has_char c (s1 +:+ s2) = has_char c s1 || has_char c s2.
Proof.
  unfold has_char. induction s1 as [|a s1 IH]; [done|]. simpl in *. by rewrite IH, orb_assoc.
Qed.

Lemma not_contains_char c sep s :
  has_char c sep = true → has_char c s = false → ¬ contains s sep.
Proof.
  intros Hc Hs (a & b & ->). rewrite !has_char_app, Hc in Hs. by destruct (has_char c a).
Qed.

Lemma not_contains_app_l s1 s2 sep : ¬ contains (s1 +:+ s2) sep → ¬ contains s2 sep.
Proof. intros Hno (a & b & ->). apply Hno. exists (s1 +:+ a), b. by rewrite !str_app_assoc. Qed.

(** Of two beginnings of a text, the shorter begins the longer. *)
Lemma str_prefix_of x y r z :
  x +:+ r = y +:+ z → (String.length x ≤ String.length y)%nat → ∃ v, y = x +:+ v.
Proof.
  revert y. induction x as [|c x IH]; intros y Heq Hlen; [by exists y|].
  destruct y as [|d y]; [simpl in Hlen; lia|].
  change (String c (x +:+ r) = String d (y +:+ z)) in Heq. injection Heq as -> Heq.
  destruct (IH y Heq) as [v ->]; [simpl in Hlen; lia|]. by exists v.
Qed.

Lemma split_at_fuel f1 f2 sep s cur :
  sep ≠ "" → (String.length s < f1)%nat → (String.length s < f2)%nat →
  split_at f1 sep s cur = split_at f2 sep s cur.
Proof.
  intros Hsep. revert f2 s cur. induction f1 as [|f1 IH]; intros [|f2] s cur H1 H2; try lia.
  cbn [split_at]. destruct (strip_prefix sep s) as [rest|] eqn:Hs.
  - apply strip_prefix_Some in Hs as ->. rewrite str_length_app in H1, H2.
    destruct sep as [|c sep]; [done|]. simpl in H1, H2. f_equal. apply IH; lia.
  - destruct s as [|c s]; [done|]. simpl in H1, H2. apply IH; lia.
Qed.

(** No separator begins in [a], not even one that ends in the separator that
    follows it. *)
Definition first_sep (a sep : string) : Prop :=
  ∃ i l, sep = i +:+ String l "" ∧ ¬ contains (a +:+ i) sep.

Lemma split_at_first fuel sep a b cur :
  first_sep a sep → (String.length (a +:+ sep +:+ b) < fuel)%nat →
  split_at fuel sep (a +:+ sep +:+ b) cur = (cur +:+ a) :: strings_Split b sep.
Proof.
  intros (i & l & Hi & Hno). revert cur fuel.
  assert (sep ≠ "") as Hsep by (rewrite Hi; by destruct i).
  induction a as [|c a IH]; intros cur [|fuel] Hlen; try lia; cbn [split_at].
  - change ("" +:+ sep +:+ b) with (sep +:+ b) in *.
    rewrite (proj2 (strip_prefix_Some sep (sep +:+ b) b) eq_refl), str_app_nil_r. f_equal.
    apply split_at_fuel; [done| |lia]. rewrite str_length_app in Hlen.
    destruct sep; [done|]. simpl in Hlen. lia.
  - change (String c a +:+ sep +:+ b) with (String c (a +:+ sep +:+ b)) in *.
    destruct (strip_prefix sep (String c (a +:+ sep +:+ b))) as [r|] eqn:Hs.
    + exfalso. apply strip_prefix_Some in Hs. apply Hno.
      assert (sep +:+ r = (String c a +:+ i) +:+ String l b) as Heq.
      { rewrite <- Hs, Hi. by rewrite !str_app_assoc. }
      apply str_prefix_of in Heq as [v Hv]; [by exists "", v|].
      rewrite Hi, !str_length_app. simpl. lia.
    + rewrite IH; [by rewrite str_app_assoc| |simpl in Hlen; lia].
      intros Hc. apply Hno. destruct Hc as (x & y & Hxy). exists (String c x), y.
      change (String c (a +:+ i) = String c (x +:+ sep +:+ y)). by rewrite Hxy.
Qed.

Lemma strings_Split_first a sep b :
  first_sep a sep → strings_Split (a +:+ sep +:+ b) sep = a :: strings_Split b sep.
Proof. intros Hf. unfold strings_Split. rewrite split_at_first by (done || lia). done. Qed.


(** A separator that does not occur, by computation. *)
Lemma not_contains_split s sep : sep ≠ "" → strings_Split s sep = [s] → ¬ contains s sep.
Proof.
  intros Hsep Hs Hc. destruct (strings_Split_many s sep Hsep Hc) as (t1 & t2 & l & Hl).
  rewrite Hl in Hs. done.
Qed.

(** Texts that share a prefix are equal when their rests are. *)
Lemma string_app_inj_l (p s1 s2 : string) : p +:+ s1 = p +:+ s2 → s1 = s2.
Proof. apply (inj (String.append p)). Qed.

(** ** Any countable value as a text

    A text of two letters for a positive number, used with [encode] by the
    examples that need some encoding. *)
Fixpoint letters (p : positive) : string :=
  match p with
  | xH => ""
  | xO p' => String "a" (letters p')
  | xI p' => String "b" (letters p')
  end.
Fixpoint unletters (s : string) : positive :=
  match s with
  | EmptyString => xH
  | String "a" s' => xO (unletters s')
  | String _ s' => xI (unletters s')
  end.

Lemma unletters_letters p : unletters (letters p) = p.
Proof. induction p; simpl; congruence. Qed.

Lemma letters_no_space p :
  Forall (λ c, c ≠ " "%char) (String.list_ascii_of_string (letters p)).
Proof. induction p; simpl; by repeat constructor. Qed.

(** ** Texts joined by a byte *)

(** A separator of one byte. *)
Lemma split_one c a b :
  has_char c a = false →
  strings_Split (a +:+ String c "" +:+ b) (String c "") = a :: strings_Split b (String c "").
Proof.
  intros Ha. apply strings_Split_first. exists "", c. split; [done|]. rewrite str_app_nil_r.
  apply (not_contains_char c); [|done]. unfold has_char. simpl. by rewrite Ascii.eqb_refl.
Qed.

Lemma split_none c a : has_char c a = false → strings_Split a (String c "") = [a].
Proof.
  intros Ha. apply strings_Split_single; [done|]. apply (not_contains_char c); [|done].
  unfold has_char. simpl. by rewrite Ascii.eqb_refl.
Qed.

Lemma split_pair c a b :
  has_char c a = false → has_char c b = false →
  strings_Split (a +:+ String c "" +:+ b) (String c "") = [a; b].
Proof. intros Ha Hb. by rewrite split_one, split_none. Qed.

(** Texts joined by a byte that none of them has are found again. *)
Lemma split_concat c (l : list string) :
  l ≠ [] → Forall (λ f, has_char c f = false) l →
  strings_Split (String.concat (String c "") l) (String c "") = l.
Proof.
  intros Hne Hl. induction Hl as [|f l Hf Hl IH]; [done|].
  destruct l as [|g l]; [by apply split_none|]. cbn [String.concat] in *.
  by rewrite split_one, IH.
Qed.

Lemma str_concat_app (sep : string) (l1 l2 : list string) :
  l1 ≠ [] → l2 ≠ [] →
  String.concat sep (l1 ++ l2) = String.concat sep l1 +:+ sep +:+ String.concat sep l2.
Proof.
  intros H1 H2. induction l1 as [|a [|b l1] IH]; [done| |].
  - destruct l2; [done|]. done.
  - cbn [app String.concat] in *. rewrite IH by done. by rewrite !str_app_assoc.
Qed.
