(* ===== verification/OAuth2.v ===== *)
(** * Access tokens (pkg/oauth2)

    [GetAccessToken] issues a signed token for the NEF and
    [ValidateAccessToken] checks one.  The JSON Web Token library is a
    parameter ([Jwt]) with its documented behaviour as laws ([JwtLaws]); the
    configuration file is read by each call, so its outcome is an argument. *)

From S2P Require Import Prelude Strconv.
From stdpp Require Import prelude gmap strings pretty.
From Stdlib Require Import ZArith Ascii.

Local Open Scope Z_scope.

Record OAuth2Config := mkOAuth2Config {
  SigningKey : string;
  Expiration : Z;
}.

(** The constants of type [TokenVerificationResult]. *)
Inductive TokenVerificationResult :=
| StatusBadRequest
| StatusInvalidToken
| StatusSuccess
| StatusConfigErr.

Record AccessTokenReq := mkAccessTokenReq {
  GrantType : string;
  NfInstanceID : string;
  NfType : string;
  TargetNfType : string;
  atr_Scope : string;
  TargetNfInstanceID : string;
}.

(** [AccessTokenClaims] with the embedded [jwt.StandardClaims.ExpiresAt]. *)
Record AccessTokenClaims := mkAccessTokenClaims {
  Issuer : string;
  Subject : string;
  Audience : string;
  atc_Scope : string;
  atc_Expiration : Z;
  ExpiresAt : Z;
}.

(** The errors of [jwt.ParseWithClaims] that the code tells apart. *)
Inductive jwtError :=
| ErrSignatureInvalid
| ValidationError (errors : Z)
| OtherJwtError.

(** The token library: signing with HS256, and parsing at a given time (in
    seconds) with a given key, which tells whether the token is valid. *)
Class Jwt := {
  jwt_sign : string → AccessTokenClaims → string * error;
  jwt_parse : Z → string → string → bool + jwtError;
  ValidationErrorExpired : Z;
}.

(** Signing succeeds with a text without spaces; what was signed with a key is
    accepted with that key until it expires. *)
Class JwtLaws `{Jwt} : Prop := {
  jwt_sign_ok : ∀ key claims, ∃ tok, jwt_sign key claims = (tok, nil_err) ∧
    Forall (λ c, c ≠ " "%char) (String.list_ascii_of_string tok);
  jwt_accepts : ∀ key claims tok now, jwt_sign key claims = (tok, nil_err) →
    now ≤ ExpiresAt claims → jwt_parse now tok key = inl true;
  jwt_expires : ∀ key claims tok now, jwt_sign key claims = (tok, nil_err) →
    ExpiresAt claims < now → jwt_parse now tok key = inr (ValidationError ValidationErrorExpired);
}.

Definition second_ns : Z := 10 ^ 9.

(** The Unix time, in seconds, of a time in nanoseconds. *)
Definition unix (t : Z) : Z := t / second_ns.

Section oauth2.
Context `{Jwt}.

(** [GetNEFAccessTokenFromNRF] at time [now] in nanoseconds; the product
    [time.Second * time.Duration(Expiration)] is an [int64].  A signing error
    is only logged. *)
Definition GetNEFAccessTokenFromNRF (now : Z) (file : OAuth2Config + string)
    (req : AccessTokenReq) : string * error :=
  match file with
  | inr e => ("", errors_New e)
  | inl cfg =>
      let expiration := unix (now + wrap_int (second_ns * Expiration cfg)) in
      let claims := mkAccessTokenClaims "OpenNESS" "NEF Validation token" "AF-NEF"
        (atr_Scope req) (Expiration cfg) expiration in
      ((jwt_sign (SigningKey cfg) claims).1, nil_err)
  end.

Definition fetchNEFAccessTokenFromNRF (now : Z) (file : OAuth2Config + string)
    : string * error :=
  GetNEFAccessTokenFromNRF now file
    (mkAccessTokenReq "client_credentials" "0" "AF" "NEF" "nnrf-nfm" "0").

Definition GetAccessToken (now : Z) (file : OAuth2Config + string) : string * error :=
  fetchNEFAccessTokenFromNRF now file.

(** [ValidateAccessToken] at time [now]. *)
Definition ValidateAccessToken (now : Z) (file : OAuth2Config + string) (reqToken : string)
    : TokenVerificationResult * error :=
  match file with
  | inr e => (StatusConfigErr, errors_New e)
  | inl cfg =>
      match jwt_parse (unix now) reqToken (SigningKey cfg) with
      | inr ErrSignatureInvalid => (StatusInvalidToken, errors_New "signature is invalid")
      | inr (ValidationError errs) =>
          if bool_decide (errs = ValidationErrorExpired)
          then (StatusInvalidToken, errors_New "validation error")
          else (StatusBadRequest, errors_New "validation error")
      | inr OtherJwtError => (StatusInvalidToken, errors_New "error")
      | inl valid =>
          if valid then (StatusSuccess, nil_err)
          else (StatusInvalidToken, errors_New "Token is Invalid")
      end
  end.

(** A status other than success goes with an error, and conversely. *)
Lemma validate_status now file tok :
  (ValidateAccessToken now file tok).1 = StatusSuccess ↔
  (ValidateAccessToken now file tok).2 = nil_err.
Proof.
  unfold ValidateAccessToken. destruct file as [cfg|e]; [|done].
  destruct (jwt_parse _ _ _) as [[]|[| |]]; try done. by case_bool_decide.
Qed.

Context `{!JwtLaws}.

(** An issued token is accepted until the configured time has passed, and
    reported as expired afterwards. *)
Lemma issued_token_lifetime cfg issued now :
  0 ≤ issued → 0 ≤ Expiration cfg → second_ns * Expiration cfg ≤ max_int →
  ∃ tok, GetAccessToken issued (inl cfg) = (tok, nil_err) ∧
    Forall (λ c, c ≠ " "%char) (String.list_ascii_of_string tok) ∧
    ValidateAccessToken now (inl cfg) tok =
      (if bool_decide (unix now ≤ unix issued + Expiration cfg)
       then (StatusSuccess, nil_err)
       else (StatusInvalidToken, errors_New "validation error")).
Proof.
  intros Hi He Hmax.
  unfold GetAccessToken, fetchNEFAccessTokenFromNRF, GetNEFAccessTokenFromNRF.
  assert (0 ≤ second_ns * Expiration cfg) by (unfold second_ns; lia).
  rewrite wrap_int_small by lia.
  set (claims := mkAccessTokenClaims _ _ _ _ _ _).
  assert (ExpiresAt claims = unix issued + Expiration cfg) as Hexp.
  { unfold claims; simpl. unfold unix.
    rewrite Z.mul_comm. apply Z.div_add. unfold second_ns. lia. }
  destruct (jwt_sign_ok (SigningKey cfg) claims) as (tok & Hs & Hsp).
  exists tok. rewrite Hs. split_and!; [done|done|]. unfold ValidateAccessToken.
  case_bool_decide as Hnow.
  - by rewrite (jwt_accepts _ _ _ _ Hs) by lia.
  - rewrite (jwt_expires _ _ _ _ Hs) by lia. by rewrite bool_decide_eq_true_2.
Qed.
End oauth2.
