(* ===== verification/Http.v ===== *)
(** * [net/http]

    The part of [net/http] the handlers talk to: the state of a
    [ResponseWriter] and the body of a request.  The first call of
    [WriteHeader] fixes the status line and the header; later calls of
    [WriteHeader] and later changes of the header map have no effect on what
    is sent, and [Write] before any [WriteHeader] sends status 200.

    Bodies are the values handed to [json.Marshal] or to an encoder: the
    types the sources marshal hold only strings, numbers, booleans, slices,
    maps and structures of these, for which [json.Marshal] returns no error. *)

From S2P Require Import Prelude.
From stdpp Require Import prelude gmap strings.
From Stdlib Require Import ZArith.

Local Open Scope Z_scope.

(** Status codes of [net/http]. *)
Definition StatusOK : Z := 200.
Definition StatusCreated : Z := 201.
Definition StatusAccepted : Z := 202.
Definition StatusNoContent : Z := 204.
Definition StatusBadRequest : Z := 400.
Definition StatusUnauthorized : Z := 401.
Definition StatusForbidden : Z := 403.
Definition StatusNotFound : Z := 404.
Definition StatusInternalServerError : Z := 500.

(** A request body as the handlers see it: reading fails, or the bytes are
    not the JSON of the expected structure, or they decode to a value. *)
Inductive Body (A : Type) : Type :=
| BodyReadErr
| BodyBadJSON
| BodyOf (a : A).
Arguments BodyReadErr {A}.
Arguments BodyBadJSON {A}.
Arguments BodyOf {A} a.

(** [http.ResponseWriter]: the header map, what [WriteHeader] committed, and
    the values written to the body. *)
Record ResponseWriter (B : Type) : Type := mkResponseWriter {
  rw_header : gmap string string;
  rw_sent : option (Z * gmap string string);
  rw_body : list B;
}.
Arguments mkResponseWriter {B} _ _ _.
Arguments rw_header {B} _.
Arguments rw_sent {B} _.
Arguments rw_body {B} _.

(** A fresh writer. *)
Definition new_writer {B} : ResponseWriter B := mkResponseWriter ∅ None [].

(** [w.Header().Set(k, v)]. *)
Definition Header_Set {B} (k v : string) (w : ResponseWriter B) : ResponseWriter B :=
  mkResponseWriter (<[k := v]> (rw_header w)) (rw_sent w) (rw_body w).

(** [w.WriteHeader(code)]. *)
Definition WriteHeader {B} (code : Z) (w : ResponseWriter B) : ResponseWriter B :=
  match rw_sent w with
  | Some _ => w
  | None => mkResponseWriter (rw_header w) (Some (code, rw_header w)) (rw_body w)
  end.

(** [w.Write(b)]; the connection is up, so it reports no error. *)
Definition Write {B} (b : B) (w : ResponseWriter B) : ResponseWriter B :=
  let w' := WriteHeader StatusOK w in
  mkResponseWriter (rw_header w') (rw_sent w') (rw_body w' ++ [b]).

(** What the client receives: a handler that writes nothing yields 200. *)
Definition status_of {B} (w : ResponseWriter B) : Z :=
  match rw_sent w with Some (c, _) => c | None => StatusOK end.

(** The header fields the client receives. *)
Definition header_of {B} (w : ResponseWriter B) : gmap string string :=
  match rw_sent w with Some (_, h) => h | None => rw_header w end.

Definition content_type : string := "Content-Type".
Definition json_utf8 : string := "application/json; charset=UTF-8".

(** ** What is sent *)
Section writer.
Context {B : Type}.
Implicit Types (w : ResponseWriter B).

Lemma status_WriteHeader_new code w :
  rw_sent w = None → status_of (WriteHeader code w) = code.
Proof. unfold status_of, WriteHeader. by intros ->. Qed.

(** A second status is ignored. *)
Lemma WriteHeader_twice c1 c2 w :
  WriteHeader c2 (WriteHeader c1 w) = WriteHeader c1 w.
Proof. unfold WriteHeader. by destruct (rw_sent w) eqn:E; simpl; rewrite ?E. Qed.

Lemma sent_Header_Set k v w : rw_sent (Header_Set k v w) = rw_sent w.
Proof. done. Qed.

Lemma sent_Write b w : rw_sent (Write b w) = rw_sent (WriteHeader StatusOK w).
Proof. done. Qed.

Lemma sent_WriteHeader_Some code w p :
  rw_sent w = Some p → rw_sent (WriteHeader code w) = Some p.
Proof. unfold WriteHeader. intros E. by rewrite E. Qed.

(** Once the status is sent, the header the client sees no longer changes. *)
Lemma header_Set_after_send k v w p :
  rw_sent w = Some p → header_of (Header_Set k v w) = header_of w.
Proof. unfold header_of; simpl. by intros ->. Qed.
End writer.

Create Rewrite HintDb http.
#[export] Hint Rewrite @WriteHeader_twice @sent_Header_Set @sent_Write : http.
