(* ===== verification/NefModel.v ===== *)
(** * Data model of the NEF

    The structures of [epcforedge/ngc/pkg/nef/model_nef_*.go] and the
    configuration of [nef_server.go], field by field.  String-like Go types
    ([Link], [URI], [Dnn], ...) are strings; a slice that the code compares
    with [nil] is an [option (list _)], with [None] for the nil slice; a
    pointer to a value is an [option]. *)

From S2P Require Import Prelude.
From stdpp Require Import prelude gmap strings.
From Stdlib Require Import ZArith.

Local Open Scope Z_scope.

(** ** Common structures (model_nef_common.go) *)

Record FlowInfo := mkFlowInfo {
  FlowID : Z;
  fi_FlowDescriptions : list string;
}.

Record RouteInformation := mkRouteInformation {
  ri_Ipv4Addr : string;
  ri_Ipv6Addr : string;
  ri_PortNumber : Z;
}.

Record RouteToLocation := mkRouteToLocation {
  rl_Dnai : string;
  rl_RouteInfo : RouteInformation;
  rl_RouteProfID : string;
}.

Record Snssai := mkSnssai {
  Sst : Z;
  Sd : string;
}.

Record WebsockNotifConfig := mkWebsockNotifConfig {
  WebsocketURI : string;
  RequestWebsocketURI : bool;
}.

Record InvalidParam := mkInvalidParam {
  ip_Param : string;
  ip_Reason : string;
}.

Record ProblemDetails := mkProblemDetails {
  pd_Type : string;
  pd_Title : string;
  pd_Detail : string;
  pd_Instance : string;
  pd_Cause : string;
  pd_InvalidParams : list InvalidParam;
  pd_Status : Z;
}.

(** [ProblemDetails{}] and [ProblemDetails{Title: t}]. *)
Definition zero_ProblemDetails : ProblemDetails := mkProblemDetails "" "" "" "" "" [] 0.
Definition pd_of_title (t : string) : ProblemDetails := mkProblemDetails "" t "" "" "" [] 0.

Record PlmnID := mkPlmnID { Mcc : string; Mnc : string }.
Record Tai := mkTai { tai_PlmnID : PlmnID; tai_Tac : string }.
Record Ecgi := mkEcgi { EutraCellID : string; ecgi_PlmnID : PlmnID }.
Record Ncgi := mkNcgi { NrCellID : string; ncgi_PlmnID : PlmnID }.
Record GNbID := mkGNbID { BitLength : Z; GNBValue : string }.

Record GlobalRanNodeID := mkGlobalRanNodeID {
  gr_PlmnID : PlmnID;
  gr_N3IwfID : string;
  gr_GNbID : GNbID;
  gr_NgeNbID : string;
}.

Record PresenceInfo := mkPresenceInfo {
  PraID : string;
  PresenceState : string;
  EcgiList : list Ecgi;
  NcgiList : list Ncgi;
  GlobalRanNodeIDList : list GlobalRanNodeID;
}.

Record SpatialValidity := mkSpatialValidity { PresenceInfoList : PresenceInfo }.

(** ** Traffic influence (model_nef_af_tif.go) *)

Record TemporalValidity := mkTemporalValidity {
  StartTime : string;
  StopTime : string;
}.

Record EthFlowDescription := mkEthFlowDescription {
  DestMacAddr : string;
  EthType : string;
  FDesc : string;
  FDir : string;
  SourceMacAddr : string;
  VlanTags : list string;
}.

Record TrafficInfluSub := mkTrafficInfluSub {
  ti_AfServiceID : string;
  ti_AfAppID : string;
  ti_AfTransID : string;
  ti_Dnn : string;
  ti_Snssai : Snssai;
  ti_ExternalGroupID : string;
  ti_SubscribedEvents : list string;
  ti_Gpsi : string;
  ti_Ipv4Addr : string;
  ti_Ipv6Addr : string;
  ti_MacAddr : string;
  ti_DnaiChgType : string;
  ti_NotificationDestination : string;
  ti_WebsockNotifConfig : WebsockNotifConfig;
  ti_Self : string;
  ti_TrafficFilters : option (list FlowInfo);
  ti_EthTrafficFilters : option (list EthFlowDescription);
  ti_TrafficRoutes : option (list RouteToLocation);
  ti_TempValidities : option (list TemporalValidity);
  ti_ValidGeoZoneIDs : option (list string);
  ti_SuppFeat : string;
  ti_AppReloInd : bool;
  ti_AnyUeInd : bool;
  ti_RequestTestNotification : bool;
}.

(** [TrafficInfluSub{}]. *)
Definition zero_TrafficInfluSub : TrafficInfluSub :=
  mkTrafficInfluSub "" "" "" "" (mkSnssai 0 "") "" [] "" "" "" "" "" ""
    (mkWebsockNotifConfig "" false) "" None None None None None "" false false false.

(** [ti.Self = l]. *)
Definition ti_set_Self (l : string) (t : TrafficInfluSub) : TrafficInfluSub :=
  mkTrafficInfluSub (ti_AfServiceID t) (ti_AfAppID t) (ti_AfTransID t) (ti_Dnn t)
    (ti_Snssai t) (ti_ExternalGroupID t) (ti_SubscribedEvents t) (ti_Gpsi t)
    (ti_Ipv4Addr t) (ti_Ipv6Addr t) (ti_MacAddr t) (ti_DnaiChgType t)
    (ti_NotificationDestination t) (ti_WebsockNotifConfig t) l
    (ti_TrafficFilters t) (ti_EthTrafficFilters t) (ti_TrafficRoutes t)
    (ti_TempValidities t) (ti_ValidGeoZoneIDs t) (ti_SuppFeat t) (ti_AppReloInd t)
    (ti_AnyUeInd t) (ti_RequestTestNotification t).

Record TrafficInfluSubPatch := mkTrafficInfluSubPatch {
  tisp_AppReloInd : bool;
  tisp_TrafficFilters : option (list FlowInfo);
  tisp_EthTrafficFilters : option (list EthFlowDescription);
  tisp_TrafficRoutes : option (list RouteToLocation);
  tisp_TempValidities : option (list TemporalValidity);
  tisp_ValidGeoZoneIDs : option (list string);
}.

Record EventNotification := mkEventNotification {
  ev_AfTransID : string;
  ev_DnaiChgType : string;
  ev_SourceTrafficRoute : RouteToLocation;
  ev_SubscribedEvent : string;
  ev_TargetTrafficRoute : RouteToLocation;
  ev_Gpsi : string;
  ev_SrcUeIpv4Addr : string;
  ev_SrcUeIpv6Prefix : string;
  ev_TgtUeIpv4Addr : string;
  ev_TgtUeIpv6Prefix : string;
  ev_UeMac : string;
}.

(** ** SMF event exposure (model_nef_smf.go) *)

Record NsmEventNotification := mkNsmEventNotification {
  nsm_Event : string;
  nsm_TimeStamp : string;
  nsm_Supi : string;
  nsm_Gpsi : string;
  nsm_SourceDnai : string;
  nsm_TargetDnai : string;
  nsm_DnaiChgType : string;
  nsm_SourceUeIpv4Addr : string;
  nsm_SourceUeIpv6Prefix : string;
  nsm_TargetUeIpv4Addr : string;
  nsm_TargetUeIpv6Prefix : string;
  nsm_SourceTraRouting : RouteToLocation;
  nsm_TargetTraRouting : RouteToLocation;
  nsm_UeMac : string;
  nsm_AdIpv4Addr : string;
  nsm_AdIpv6Prefix : string;
  nsm_ReIpv4Addr : string;
  nsm_ReIpv6Prefix : string;
  nsm_PlmnID : PlmnID;
  nsm_AccType : string;
  nsm_PduSeID : Z;
}.

Record NsmfEventExposureNotification := mkNsmfEventExposureNotification {
  smf_NotifID : string;
  smf_EventNotifs : list NsmEventNotification;
}.

(** ** PCF policy authorization (model_nef_pcf_pa.go) *)

Record UpPathChgEvent := mkUpPathChgEvent {
  up_NotificationURI : string;
  up_NotifCorreID : string;
  up_DnaiChgType : string;
}.

Record AfRoutingRequirement := mkAfRoutingRequirement {
  rr_RouteToLocs : list RouteToLocation;
  rr_SpVal : SpatialValidity;
  rr_TempVals : list TemporalValidity;
  rr_UpPathChgSub : UpPathChgEvent;
  rr_AppReloc : bool;
  rr_AddrPreserInd : bool;
}.

Record AppSessionContextReqData := mkAppSessionContextReqData {
  asc_AfAppID : string;
  asc_AfRoutReq : AfRoutingRequirement;
  asc_Dnn : string;
  asc_SliceInfo : Snssai;
  asc_Supi : string;
  asc_Gpsi : string;
  asc_SuppFeat : string;
  asc_UeIpv4 : string;
  asc_UeIpv6 : string;
  asc_UeMac : string;
}.

Record AppSessionContext := mkAppSessionContext {
  AscReqData : AppSessionContextReqData;
}.

Record AppSessionContextUpdateData := mkAppSessionContextUpdateData {
  ascu_AfAppID : string;
  ascu_AfRoutReq : AfRoutingRequirement;
}.

(** ** UDR influence data (model_nef_udr_id.go) *)

Record NetworkAreaInfo := mkNetworkAreaInfo {
  Ecgis : list Ecgi;
  Ncgis : list Ncgi;
  GRanNodeIds : list GlobalRanNodeID;
  Tais : list Tai;
}.

Record TrafficInfluData := mkTrafficInfluData {
  tid_UpPathChgNotifURI : string;
  tid_AppReloInd : bool;
  tid_AfAppID : string;
  tid_Dnn : string;
  tid_EthTrafficFilters : list EthFlowDescription;
  tid_Snssai : Snssai;
  tid_InterGroupID : string;
  tid_Supi : string;
  tid_TrafficFilters : list FlowInfo;
  tid_TrafficRoutes : list RouteToLocation;
  tid_ValidEndTime : string;
  tid_ValidStartTime : string;
  tid_NwAreaInfo : NetworkAreaInfo;
  tid_UpPathChgNotifCorreID : string;
}.

Record TrafficInfluDataPatch := mkTrafficInfluDataPatch {
  tidp_UpPathChgNotifCorreID : string;
  tidp_AppReloInd : bool;
  tidp_Dnn : string;
  tidp_Snssai : Snssai;
  tidp_InternalGroupID : string;
  tidp_EthTrafficFilters : list EthFlowDescription;
  tidp_Supi : string;
  tidp_TrafficFilters : list FlowInfo;
  tidp_TrafficRoutes : list RouteToLocation;
  tidp_ValidEndTime : string;
  tidp_ValidStartTime : string;
  tidp_NwAreaInfo : NetworkAreaInfo;
  tidp_UpPathChgNotifURI : string;
}.

(** ** PFD management (model_nef_af_pfd.go, model_nef_udr_pfd.go) *)

Record Pfd := mkPfd {
  PfdID : string;
  FlowDescriptions : list string;
  Urls : list string;
  DomainNames : list string;
}.

Record PfdData := mkPfdData {
  ExternalAppID : string;
  pfdd_Self : string;
  Pfds : gmap string Pfd;
  AllowedDelay : option Z;
  CachingTime : option Z;
}.

(** [PfdData{}] and [v.Self = l]. *)
Definition zero_PfdData : PfdData := mkPfdData "" "" ∅ None None.
Definition pfdd_set_Self (l : string) (d : PfdData) : PfdData :=
  mkPfdData (ExternalAppID d) l (Pfds d) (AllowedDelay d) (CachingTime d).

(** [FailureCode] and its constants. *)
Abbreviation FailureCode := string (only parsing).
Definition Malfunction : FailureCode := "MALFUNCTION".
Definition ResourceLimitation : FailureCode := "RESOURCE_LIMITATION".
Definition ShortDelay : FailureCode := "SHORT_DELAY".
Definition AppIDDuplicated : FailureCode := "APP_ID_DUPLICATED".
Definition OtherReason : FailureCode := "OTHER_REASON".

Record PfdReport := mkPfdReport {
  ExternalAppIds : list string;
  rep_FailureCode : FailureCode;
  rep_CachingTime : option Z;
}.

Record PfdManagement := mkPfdManagement {
  pfdm_Self : string;
  SuppFeat : option string;
  PfdDatas : gmap string PfdData;
  PfdReports : gmap string PfdReport;
}.

(** [PfdManagement{}] and the assignments to its fields. *)
Definition zero_PfdManagement : PfdManagement := mkPfdManagement "" None ∅ ∅.
Definition pfdm_set_Self (l : string) (m : PfdManagement) : PfdManagement :=
  mkPfdManagement l (SuppFeat m) (PfdDatas m) (PfdReports m).
Definition pfdm_set_PfdDatas (d : gmap string PfdData) (m : PfdManagement) : PfdManagement :=
  mkPfdManagement (pfdm_Self m) (SuppFeat m) d (PfdReports m).
Definition pfdm_set_PfdReports (r : gmap string PfdReport) (m : PfdManagement) : PfdManagement :=
  mkPfdManagement (pfdm_Self m) (SuppFeat m) (PfdDatas m) r.

Record PfdContent := mkPfdContent {
  pc_PfdID : string;
  pc_FlowDescriptions : list string;
  pc_Urls : list string;
  pc_DomainNames : list string;
}.

Record PfdDataForApp := mkPfdDataForApp {
  pa_AppID : string;
  pa_Pfds : list PfdContent;
  pa_CachingTime : option string;
}.

(** ** Configuration (nef_server.go) *)

(** An entry of [AfServiceIDs []interface{}]: a decoded JSON object, whose
    members are strings or something else, or another JSON value. *)
Inductive cfgValue := CfgString (s : string) | CfgOther.
Inductive cfgEntry := CfgMap (m : gmap string cfgValue) | CfgNotMap.

Record HTTP2Config_t := mkHTTP2Config {
  h2_Endpoint : string;
  h2_NefServerCert : string;
  h2_NefServerKey : string;
  h2_AfClientCert : string;
}.

Record Config := mkConfig {
  NefAPIRoot : string;
  LocationPrefix : string;
  LocationPrefixPfd : string;
  MaxSubSupport : Z;
  MaxPfdTransSupport : Z;
  MaxAFSupport : Z;
  SubStartID : Z;
  PfdTransStartID : Z;
  UpfNotificationResURIPath : string;
  UserAgent : string;
  HTTPConfig_Endpoint : string;
  HTTP2Config : HTTP2Config_t;
  AfServiceIDs : list cfgEntry;
  OAuth2Support : bool;
}.

(** ** Responses of the southbound interfaces and of the NEF *)

Record nefSBRspData := mkNefSBRspData {
  errorCode : Z;
  pd : ProblemDetails;
}.

Record nefPFDSBRspData := mkNefPFDSBRspData {
  result : nefSBRspData;
  fc : option FailureCode;
}.

Definition zero_rsp : nefSBRspData := mkNefSBRspData 0 zero_ProblemDetails.
Definition zero_pfd_rsp : nefPFDSBRspData := mkNefPFDSBRspData zero_rsp None.

(** [nefSBRspData{errorCode: c, pd: ProblemDetails{Title: t}}]. *)
Definition rsp_err (c : Z) (t : string) : nefSBRspData := mkNefSBRspData c (pd_of_title t).
Definition pfd_rsp_err (c : Z) (t : string) : nefPFDSBRspData :=
  mkNefPFDSBRspData (rsp_err c t) None.

Record PcfPolicyResponse := mkPcfPolicyResponse {
  pcf_ResponseCode : Z;
  pcf_Asc : option AppSessionContext;
  pcf_Pd : option ProblemDetails;
}.

Record UdrInfluenceResponse := mkUdrInfluenceResponse {
  udr_ResponseCode : Z;
  udr_Tid : option TrafficInfluData;
  udr_Pd : option ProblemDetails;
}.

Record UdrPfdResponse := mkUdrPfdResponse {
  udrpfd_ResponseCode : Z;
  AppPfd : option PfdDataForApp;
  udrpfd_Pd : option ProblemDetails;
}.
