(* ===== verification/NefSouth.v ===== *)
(** * Southbound interfaces of the NEF and their stub clients

    The Go interfaces [PcfPolicyAuthorization], [UdrInfluenceData] and
    [UdrPfdData] (nef_pcf_pa_sb_api.go, nef_udr_id_sb_api.go,
    nef_udr_pfd_sb_api.go) are type classes over the state of the peer, and
    the stubs of nef_pcf_pa_client.go, nef_udr_id_client.go and
    nef_udr_pfd_client.go are their instances.

    [PcfSessions] states what the NEF relies on: the PCF keeps a map from
    session identifiers to contexts, hands out fresh identifiers, and deletes
    exactly what it is asked to.  The stub satisfies it. *)

From S2P Require Import Prelude Strconv NefModel.
From stdpp Require Import prelude gmap strings pretty.
From Stdlib Require Import ZArith.

Local Open Scope Z_scope.

(** The package variables that tests set to inject failures. *)
Class NefHooks := {
  TestNEFSB : bool;
  TestClient : bool;
}.

(** Their value outside of tests. *)
Definition production_hooks : NefHooks := {| TestNEFSB := false; TestClient := false |}.

(** ** The interfaces *)

Class PcfPolicyAuthorization (P : Type) := {
  PolicyAuthorizationCreate :
    AppSessionContext → P → (string * PcfPolicyResponse * error) * P;
  PolicyAuthorizationUpdate :
    AppSessionContextUpdateData → string → P → (PcfPolicyResponse * error) * P;
  PolicyAuthorizationDelete : string → P → (PcfPolicyResponse * error) * P;
  PolicyAuthorizationGet : string → P → (PcfPolicyResponse * error) * P;
}.

Class UdrInfluenceData (U : Type) := {
  UdrInfluenceDataCreate :
    TrafficInfluData → string → U → (UdrInfluenceResponse * error) * U;
  UdrInfluenceDataUpdate :
    TrafficInfluDataPatch → string → U → (UdrInfluenceResponse * error) * U;
  UdrInfluenceDataDelete : string → U → (UdrInfluenceResponse * error) * U;
  UdrInfluenceDataGet : U → (UdrInfluenceResponse * error) * U;
}.

Class UdrPfdData (D : Type) := {
  UdrPfdDataCreate : PfdDataForApp → D → (UdrPfdResponse * error) * D;
  UdrPfdDataGet : string → D → (UdrPfdResponse * error) * D;
  UdrPfdDataDelete : string → D → (UdrPfdResponse * error) * D;
}.

(** ** The PCF stub *)

Record PcfClientStub := mkPcfClientStub {
  pcf_name : string;
  initialID : Z;
  paDb : gmap Z AppSessionContext;
}.

(** [NewPCFClient], with the value of [rand.Intn(10000)]. *)
Definition NewPCFClient (rnd : Z) : PcfClientStub := mkPcfClientStub "PCF Stub" rnd ∅.

(** The loop of [genAppSessionID]: at most [fuel] identifiers are skipped. *)
Fixpoint gen_loop (fuel : nat) (db : gmap Z AppSessionContext) (sessid : Z) : Z :=
  match fuel with
  | O => sessid
  | S fuel' =>
      match db !! sessid with
      | None => sessid
      | Some _ => gen_loop fuel' db (sessid + 1)
      end
  end.

Definition genAppSessionID (pcf : PcfClientStub) : Z :=
  gen_loop (size (paDb pcf)) (paDb pcf) (initialID pcf).

Definition pcf_set_db (db : gmap Z AppSessionContext) (pcf : PcfClientStub) : PcfClientStub :=
  mkPcfClientStub (pcf_name pcf) (initialID pcf) db.

Definition stub_PolicyAuthorizationCreate (body : AppSessionContext)
    (pcf : PcfClientStub) : (string * PcfPolicyResponse * error) * PcfClientStub :=
  let sessid := genAppSessionID pcf in
  let pcfPr := mkPcfPolicyResponse 201 (Some body) None in
  ((Itoa sessid, pcfPr, nil_err), pcf_set_db (<[sessid := body]> (paDb pcf)) pcf).

(** [asc.AscReqData.AfAppID = ...; asc.AscReqData.AfRoutReq = ...]. *)
Definition asc_update (body : AppSessionContextUpdateData) (asc : AppSessionContext)
    : AppSessionContext :=
  let d := AscReqData asc in
  mkAppSessionContext (mkAppSessionContextReqData (ascu_AfAppID body)
    (ascu_AfRoutReq body) (asc_Dnn d) (asc_SliceInfo d) (asc_Supi d) (asc_Gpsi d)
    (asc_SuppFeat d) (asc_UeIpv4 d) (asc_UeIpv6 d) (asc_UeMac d)).

Definition stub_PolicyAuthorizationUpdate (body : AppSessionContextUpdateData)
    (appSessionID : string) (pcf : PcfClientStub)
    : (PcfPolicyResponse * error) * PcfClientStub :=
  let sessid := (Atoi appSessionID).1 in
  match paDb pcf !! sessid with
  | None => ((mkPcfPolicyResponse 404 None None, nil_err), pcf)
  | Some asc =>
      let asc' := asc_update body asc in
      ((mkPcfPolicyResponse 204 (Some asc') None, nil_err),
       pcf_set_db (<[sessid := asc']> (paDb pcf)) pcf)
  end.

Definition stub_PolicyAuthorizationDelete (appSessionID : string)
    (pcf : PcfClientStub) : (PcfPolicyResponse * error) * PcfClientStub :=
  let sessid := (Atoi appSessionID).1 in
  match paDb pcf !! sessid with
  | None => ((mkPcfPolicyResponse 404 None None, nil_err), pcf)
  | Some _ =>
      ((mkPcfPolicyResponse 204 None None, nil_err),
       pcf_set_db (delete sessid (paDb pcf)) pcf)
  end.

Definition stub_PolicyAuthorizationGet (appSessionID : string)
    (pcf : PcfClientStub) : (PcfPolicyResponse * error) * PcfClientStub :=
  let sessid := (Atoi appSessionID).1 in
  match paDb pcf !! sessid with
  | None => ((mkPcfPolicyResponse 404 None None, nil_err), pcf)
  | Some asc => ((mkPcfPolicyResponse 200 (Some asc) None, nil_err), pcf)
  end.

#[export] Instance PcfClientStub_PolicyAuthorization :
    PcfPolicyAuthorization PcfClientStub := {|
  PolicyAuthorizationCreate := stub_PolicyAuthorizationCreate;
  PolicyAuthorizationUpdate := stub_PolicyAuthorizationUpdate;
  PolicyAuthorizationDelete := stub_PolicyAuthorizationDelete;
  PolicyAuthorizationGet := stub_PolicyAuthorizationGet;
|}.

(** ** The UDR stub for influence data *)

Record UdrClientStub := mkUdrClientStub {
  udr_name : string;
  tidDb : gmap string TrafficInfluData;
}.

Definition NewUDRClient : UdrClientStub := mkUdrClientStub "UDR Stub" ∅.

Definition udr_set_db (db : gmap string TrafficInfluData) (udr : UdrClientStub) : UdrClientStub :=
  mkUdrClientStub (udr_name udr) db.

Definition stub_UdrInfluenceDataCreate (body : TrafficInfluData) (iid : string)
    (udr : UdrClientStub) : (UdrInfluenceResponse * error) * UdrClientStub :=
  let code := match tidDb udr !! iid with None => 201 | Some _ => 200 end in
  ((mkUdrInfluenceResponse code (Some body) None, nil_err),
   udr_set_db (<[iid := body]> (tidDb udr)) udr).

(** The field updates of [updateTidWithTidPatch]. *)
Definition updateTidWithTidPatch (tid : TrafficInfluData)
    (body : TrafficInfluDataPatch) : TrafficInfluData :=
  let pick (new old : string) := if str_empty new then old else new in
  mkTrafficInfluData
    (pick (tidp_UpPathChgNotifURI body) (tid_UpPathChgNotifURI tid))
    (tidp_AppReloInd body)
    (tid_AfAppID tid)
    (pick (tidp_Dnn body) (tid_Dnn tid))
    (match tidp_EthTrafficFilters body with
     | [] => tid_EthTrafficFilters tid | l => l end)
    (if str_empty (Sd (tidp_Snssai body)) then tid_Snssai tid else tidp_Snssai body)
    (pick (tidp_InternalGroupID body) (tid_InterGroupID tid))
    (pick (tidp_Supi body) (tid_Supi tid))
    (match tidp_TrafficFilters body with [] => tid_TrafficFilters tid | l => l end)
    (match tidp_TrafficRoutes body with [] => tid_TrafficRoutes tid | l => l end)
    (pick (tidp_ValidEndTime body) (tid_ValidEndTime tid))
    (pick (tidp_ValidStartTime body) (tid_ValidStartTime tid))
    (tidp_NwAreaInfo body)
    (pick (tidp_UpPathChgNotifCorreID body) (tid_UpPathChgNotifCorreID tid)).

Definition stub_UdrInfluenceDataUpdate (body : TrafficInfluDataPatch) (iid : string)
    (udr : UdrClientStub) : (UdrInfluenceResponse * error) * UdrClientStub :=
  match tidDb udr !! iid with
  | None => ((mkUdrInfluenceResponse 404 None None, nil_err), udr)
  | Some tid =>
      let tid' := updateTidWithTidPatch tid body in
      ((mkUdrInfluenceResponse 204 (Some tid') None, nil_err),
       udr_set_db (<[iid := tid']> (tidDb udr)) udr)
  end.

Definition stub_UdrInfluenceDataDelete (iid : string) (udr : UdrClientStub)
    : (UdrInfluenceResponse * error) * UdrClientStub :=
  match tidDb udr !! iid with
  | None => ((mkUdrInfluenceResponse 404 None None, nil_err), udr)
  | Some _ =>
      ((mkUdrInfluenceResponse 204 None None, nil_err),
       udr_set_db (delete iid (tidDb udr)) udr)
  end.

Definition stub_UdrInfluenceDataGet (udr : UdrClientStub)
    : (UdrInfluenceResponse * error) * UdrClientStub :=
  ((mkUdrInfluenceResponse 0 None None, nil_err), udr).

#[export] Instance UdrClientStub_InfluenceData : UdrInfluenceData UdrClientStub := {|
  UdrInfluenceDataCreate := stub_UdrInfluenceDataCreate;
  UdrInfluenceDataUpdate := stub_UdrInfluenceDataUpdate;
  UdrInfluenceDataDelete := stub_UdrInfluenceDataDelete;
  UdrInfluenceDataGet := stub_UdrInfluenceDataGet;
|}.

(** ** The UDR stub for PFD data *)

Record UdrPfdClientStub := mkUdrPfdClientStub {
  udrpfd_name : string;
  appPfd : gmap string PfdDataForApp;
}.

Definition NewUDRPfdClient : UdrPfdClientStub := mkUdrPfdClientStub "UDR Pfd Stub" ∅.

Definition stub_UdrPfdDataCreate `{NefHooks} (body : PfdDataForApp)
    (udr : UdrPfdClientStub) : (UdrPfdResponse * error) * UdrPfdClientStub :=
  let udr' := mkUdrPfdClientStub (udrpfd_name udr)
                (<[pa_AppID body := body]> (appPfd udr)) in
  if TestClient
  then ((mkUdrPfdResponse 400 None None, errors_New "Error in UDR SB PUT"), udr')
  else ((mkUdrPfdResponse 0 None None, nil_err), udr').

Definition stub_UdrPfdDataGet `{NefHooks} (appID : string) (udr : UdrPfdClientStub)
    : (UdrPfdResponse * error) * UdrPfdClientStub :=
  let app := appPfd udr !! appID in
  if TestClient
  then ((mkUdrPfdResponse 404 app None, errors_New "Error in UDR SB GET"), udr)
  else ((mkUdrPfdResponse 0 app None, nil_err), udr).

Definition stub_UdrPfdDataDelete `{NefHooks} (appID : string) (udr : UdrPfdClientStub)
    : (UdrPfdResponse * error) * UdrPfdClientStub :=
  let udr' := mkUdrPfdClientStub (udrpfd_name udr) (delete appID (appPfd udr)) in
  if TestClient
  then ((mkUdrPfdResponse 400 None None, errors_New "Error in UDR SB DELETE"), udr')
  else ((mkUdrPfdResponse 0 None None, nil_err), udr').

#[export] Instance UdrPfdClientStub_PfdData `{NefHooks} : UdrPfdData UdrPfdClientStub := {|
  UdrPfdDataCreate := stub_UdrPfdDataCreate;
  UdrPfdDataGet := stub_UdrPfdDataGet;
  UdrPfdDataDelete := stub_UdrPfdDataDelete;
|}.

(** ** What the NEF relies on *)

(** A PCF as a map of sessions.  [pcf_wf n p] says that the state [p] is one
    reached with at most [n] creations; identifiers stay machine integers as
    long as fewer than [2^62] sessions are created. *)
Class PcfSessions (P : Type) `{PcfPolicyAuthorization P} := {
  sessions : P → gmap string AppSessionContext;
  pcf_wf : nat → P → Prop;
  pcf_wf_mono : ∀ n m p, (n ≤ m)%nat → pcf_wf n p → pcf_wf m p;
  pcf_create : ∀ n p body, pcf_wf n p → Z.of_nat n < 2 ^ 62 →
    ∃ id r p', PolicyAuthorizationCreate body p = ((id, r, nil_err), p') ∧
      pcf_ResponseCode r = 201 ∧ pcf_wf (S n) p' ∧
      sessions p !! id = None ∧ sessions p' = <[id := body]> (sessions p);
  pcf_update : ∀ n p body id asc, pcf_wf n p → sessions p !! id = Some asc →
    ∃ r p', PolicyAuthorizationUpdate body id p = ((r, nil_err), p') ∧
      pcf_ResponseCode r = 204 ∧ pcf_wf n p' ∧
      sessions p' = <[id := asc_update body asc]> (sessions p);
  pcf_delete : ∀ n p id asc, pcf_wf n p → sessions p !! id = Some asc →
    ∃ r p', PolicyAuthorizationDelete id p = ((r, nil_err), p') ∧
      pcf_ResponseCode r = 204 ∧ pcf_wf n p' ∧ sessions p' = delete id (sessions p);
  pcf_get : ∀ n p id asc, pcf_wf n p → sessions p !! id = Some asc →
    PolicyAuthorizationGet id p = ((mkPcfPolicyResponse 200 (Some asc) None, nil_err), p);
}.

(** ** The PCF stub hands out fresh identifiers *)

Lemma gen_loop_cases (fuel : nat) db sid :
  (db !! gen_loop fuel db sid = None ∧ sid ≤ gen_loop fuel db sid ≤ sid + Z.of_nat fuel) ∨
  (gen_loop fuel db sid = sid + Z.of_nat fuel ∧
   ∀ i, sid ≤ i < sid + Z.of_nat fuel → is_Some (db !! i)).
Proof.
  revert sid. induction fuel as [|fuel IH]; intros sid; cbn [gen_loop].
  { right. split; lia. }
  destruct (db !! sid) as [v|] eqn:E.
  - destruct (IH (sid + 1)) as [[? ?]|[Heq Hall]]; [left; split; [done|lia]|].
    right. split; [lia|]. intros i Hi. destruct (decide (i = sid)); subst; [eauto|].
    apply Hall. lia.
  - left. split; [done|lia].
Qed.

(** Whatever the contents of the database, the identifier chosen is free and
    lies within [len(paDb)] of the initial one. *)
Lemma genAppSessionID_fresh (pcf : PcfClientStub) :
  paDb pcf !! genAppSessionID pcf = None ∧
  initialID pcf ≤ genAppSessionID pcf ≤ initialID pcf + Z.of_nat (size (paDb pcf)).
Proof.
  unfold genAppSessionID.
  destruct (gen_loop_cases (size (paDb pcf)) (paDb pcf) (initialID pcf))
    as [?|[-> Hall]]; [done|].
  split; [|lia]. by apply interval_fills_map.
Qed.

(** ** The PCF stub is a map of sessions *)

Definition stub_wf (n : nat) (p : PcfClientStub) : Prop :=
  0 ≤ initialID p < 10000 ∧ (size (paDb p) ≤ n)%nat ∧
  ∀ k, is_Some (paDb p !! k) → initialID p ≤ k < initialID p + Z.of_nat n ∧ k < 2 ^ 63.

Definition stub_sessions (p : PcfClientStub) : gmap string AppSessionContext :=
  kmap Itoa (paDb p).

(** A live session identifier reads back as its key in the database. *)
Lemma stub_session_key n p id asc :
  stub_wf n p → stub_sessions p !! id = Some asc →
  paDb p !! (Atoi id).1 = Some asc ∧ id = Itoa (Atoi id).1.
Proof.
  intros (Hinit & _ & Hk) Hid. unfold stub_sessions in Hid.
  apply (lookup_kmap_Some Itoa) in Hid as (k & -> & Hk').
  destruct (Hk k ltac:(eauto)) as [? ?].
  rewrite Atoi_Itoa by (unfold max_int; lia). done.
Qed.

Lemma stub_wf_insert n p k asc asc' :
  stub_wf n p → paDb p !! k = Some asc → stub_wf n (pcf_set_db (<[k := asc']> (paDb p)) p).
Proof.
  intros (? & ? & Hk) Hl. split_and!; simpl; [lia..| |].
  - rewrite map_size_insert_Some; eauto.
  - intros k'. rewrite lookup_insert_is_Some. intros [<-|[_ ?]]; eauto.
Qed.

Lemma stub_wf_delete n p k : stub_wf n p → stub_wf n (pcf_set_db (delete k (paDb p)) p).
Proof.
  intros (? & ? & Hk). split_and!; simpl; [lia..| |].
  - rewrite map_size_delete. destruct (paDb p !! k); simpl; lia.
  - intros k'. rewrite lookup_delete_is_Some. intros [_ ?]. eauto.
Qed.

Lemma stub_wf_create n p body :
  stub_wf n p → Z.of_nat n < 2 ^ 62 →
  stub_wf (S n) (pcf_set_db (<[genAppSessionID p := body]> (paDb p)) p).
Proof.
  intros (Hi & Hs & Hk) Hn. destruct (genAppSessionID_fresh p) as [Hf Hb].
  split_and!; simpl; [lia..| |].
  - rewrite map_size_insert_None by done. lia.
  - intros k'. rewrite lookup_insert_is_Some. intros [<-|[_ Hk']]; [lia|].
    destruct (Hk _ Hk'). lia.
Qed.

#[export] Program Instance PcfClientStub_Sessions : PcfSessions PcfClientStub := {|
  sessions := stub_sessions;
  pcf_wf := stub_wf;
|}.
Next Obligation.
  intros n m p ? (? & ? & Hk). split_and!; [lia..|].
  intros k Hk'. destruct (Hk k Hk'). lia.
Qed.
Next Obligation.
  intros n p body Hwf Hn. destruct (genAppSessionID_fresh p) as [Hf _].
  do 3 eexists. split; [reflexivity|]. split_and!; [done|by apply stub_wf_create|..].
  - unfold stub_sessions. by rewrite (lookup_kmap Itoa).
  - unfold stub_sessions; simpl. by rewrite (kmap_insert Itoa).
Qed.
Next Obligation.
  intros n p body id asc Hwf Hid.
  destruct (stub_session_key _ _ _ _ Hwf Hid) as [Hk Heq].
  do 2 eexists. split; [|split_and!].
  - simpl. unfold stub_PolicyAuthorizationUpdate. by rewrite Hk.
  - done.
  - by eapply stub_wf_insert.
  - unfold stub_sessions; simpl. rewrite (kmap_insert Itoa). by rewrite <- Heq.
Qed.
Next Obligation.
  intros n p id asc Hwf Hid.
  destruct (stub_session_key _ _ _ _ Hwf Hid) as [Hk Heq].
  do 2 eexists. split; [|split_and!].
  - simpl. unfold stub_PolicyAuthorizationDelete. by rewrite Hk.
  - done.
  - by apply stub_wf_delete.
  - unfold stub_sessions; simpl. rewrite (kmap_delete Itoa). by rewrite <- Heq.
Qed.
Next Obligation.
  intros n p id asc Hwf Hid.
  destruct (stub_session_key _ _ _ _ Hwf Hid) as [Hk Heq].
  simpl. unfold stub_PolicyAuthorizationGet. by rewrite Hk.
Qed.

Lemma NewPCFClient_wf rnd : 0 ≤ rnd < 10000 → stub_wf 0 (NewPCFClient rnd).
Proof.
  intros. split_and!; simpl; [lia..| |].
  - by rewrite map_size_empty.
  - intros k [? Hk]. by rewrite lookup_empty in Hk.
Qed.

(** ** A UDR that stores PFDs *)

(** The test variables as they are outside of tests. *)
Class Production `{NefHooks} : Prop := {
  TestNEFSB_off : TestNEFSB = false;
  TestClient_off : TestClient = false;
}.

(** A UDR that accepts every call, as a set of the applications it stores. *)
Class UdrPfdStore (D : Type) `{UdrPfdData D} := {
  stored : D → gset string;
  store_create : ∀ x pa, ∃ r x',
    UdrPfdDataCreate pa x = ((r, nil_err), x') ∧ stored x' = {[pa_AppID pa]} ∪ stored x;
  store_delete : ∀ x app, ∃ r x',
    UdrPfdDataDelete app x = ((r, nil_err), x') ∧ stored x' = stored x ∖ {[app]};
  store_get : ∀ x app, ∃ r x',
    UdrPfdDataGet app x = ((r, nil_err), x') ∧ stored x' = stored x ∧
    (is_Some (AppPfd r) ↔ app ∈ stored x);
}.

#[export] Program Instance UdrPfdClientStub_Store `{Production} :
    UdrPfdStore UdrPfdClientStub := {| stored x := dom (appPfd x) |}.
Next Obligation.
  intros hooks prod x pa. simpl. unfold stub_UdrPfdDataCreate. rewrite TestClient_off.
  do 2 eexists. split; [done|]. simpl. by rewrite dom_insert_L.
Qed.
Next Obligation.
  intros hooks prod x app. simpl. unfold stub_UdrPfdDataDelete. rewrite TestClient_off.
  do 2 eexists. split; [done|]. simpl. by rewrite dom_delete_L.
Qed.
Next Obligation.
  intros hooks prod x app. simpl. unfold stub_UdrPfdDataGet. rewrite TestClient_off.
  do 2 eexists. split_and!; [done|done|]. simpl. by rewrite elem_of_dom.
Qed.
