(* ===== verification/NefCore.v ===== *)
(** * State of the NEF and its AF registry (nef_hdlr.go, nef_common.go)

    [nefContext] holds the configuration and [nefData]: the registered AFs,
    the correlation counter, and the southbound clients.  A Go pointer into
    the maps [nef.afs], [af.subs] and [af.pfdtrans] is represented by its key:
    reading through it looks the key up, writing through it updates the entry
    in place.  The callbacks stored in a subscription are represented by the
    function they name. *)

From S2P Require Import Prelude Strconv Http NefModel NefSouth.
From stdpp Require Import prelude gmap strings.
From Stdlib Require Import ZArith.

Local Open Scope Z_scope.

Definition correlationIDOffset : Z := 20.
Definition subNotFound : string := "Subscription Not Found".
Definition pfdNotFound : string := "PFD transaction Not Found".
Definition appNotFound : string := "Application in PFD transaction Not Found".
Definition pfdAppsFailed : string := "ALL PFD Apps Failed".

(** The functions a subscription's callback may name: none ([nil]), those
    towards the PCF, those towards the UDR. *)
Inductive SBFn := SBNil | SBPcf | SBUdr.

(** The same for the callbacks of a PFD transaction. *)
Inductive PfdFn := PfdNil | PfdUdr.

#[export] Instance SBFn_eq_dec : EqDecision SBFn.
Proof. solve_decision. Defined.
#[export] Instance PfdFn_eq_dec : EqDecision PfdFn.
Proof. solve_decision. Defined.

Record afSubscription := mkAfSubscription {
  subid : string;
  sub_ti : TrafficInfluSub;
  appSessionID : string;
  iid : string;
  NotifCorreID : string;
  afNotificationDestination : string;
  NEFSBGet : SBFn;
  NEFSBPut : SBFn;
  NEFSBPatch : SBFn;
  NEFSBDelete : SBFn;
}.

(** [afSubscription{subid: ..., ti: ti, appSessionID: "", ...}]. *)
Definition new_afSubscription (id : string) (ti : TrafficInfluSub) : afSubscription :=
  mkAfSubscription id ti "" "" "" "" SBNil SBNil SBNil SBNil.

Definition sub_set_ti (t : TrafficInfluSub) (s : afSubscription) : afSubscription :=
  mkAfSubscription (subid s) t (appSessionID s) (iid s) (NotifCorreID s)
    (afNotificationDestination s) (NEFSBGet s) (NEFSBPut s) (NEFSBPatch s) (NEFSBDelete s).
Definition sub_set_session (id : string) (s : afSubscription) : afSubscription :=
  mkAfSubscription (subid s) (sub_ti s) id (iid s) (NotifCorreID s)
    (afNotificationDestination s) (NEFSBGet s) (NEFSBPut s) (NEFSBPatch s) (NEFSBDelete s).
Definition sub_set_corr (c : string) (s : afSubscription) : afSubscription :=
  mkAfSubscription (subid s) (sub_ti s) (appSessionID s) (iid s) c
    (afNotificationDestination s) (NEFSBGet s) (NEFSBPut s) (NEFSBPatch s) (NEFSBDelete s).
(** The assignments after a successful southbound creation. *)
Definition sub_set_callbacks (dest : string) (f : SBFn) (s : afSubscription) : afSubscription :=
  mkAfSubscription (subid s) (sub_ti s) (appSessionID s) (iid s) (NotifCorreID s)
    dest f f f f.

Record afPfdTransaction := mkAfPfdTransaction {
  transID : string;
  pfdManagement : PfdManagement;
  NEFSBPfdGet : PfdFn;
  NEFSBPfdPut : PfdFn;
  NEFSBAppPfdPut : PfdFn;
  NEFSBPfdDelete : PfdFn;
}.

Definition trans_set_pfdm (m : PfdManagement) (t : afPfdTransaction) : afPfdTransaction :=
  mkAfPfdTransaction (transID t) m (NEFSBPfdGet t) (NEFSBPfdPut t)
    (NEFSBAppPfdPut t) (NEFSBPfdDelete t).

Record afData := mkAfData {
  afID : string;
  subIDnum : Z;
  transIDnum : Z;
  maxSubSupp : Z;
  subs : gmap string afSubscription;
  pfdtrans : gmap string afPfdTransaction;
}.

Definition af_set_subs (m : gmap string afSubscription) (a : afData) : afData :=
  mkAfData (afID a) (subIDnum a) (transIDnum a) (maxSubSupp a) m (pfdtrans a).
Definition af_set_pfdtrans (m : gmap string afPfdTransaction) (a : afData) : afData :=
  mkAfData (afID a) (subIDnum a) (transIDnum a) (maxSubSupp a) (subs a) m.
Definition af_set_subIDnum (n : Z) (a : afData) : afData :=
  mkAfData (afID a) n (transIDnum a) (maxSubSupp a) (subs a) (pfdtrans a).
Definition af_set_transIDnum (n : Z) (a : afData) : afData :=
  mkAfData (afID a) (subIDnum a) n (maxSubSupp a) (subs a) (pfdtrans a).

Record nefData (P U D : Type) := mkNefData {
  afCount : Z;
  locationURLPrefix : string;
  locationURLPrefixPfd : string;
  pcfClient : P;
  udrClient : U;
  udrPfdClient : D;
  corrID : Z;
  afs : gmap string afData;
  upfNotificationURL : string;
}.
Arguments mkNefData {P U D} _ _ _ _ _ _ _ _ _.
Arguments afCount {P U D} _.
Arguments locationURLPrefix {P U D} _.
Arguments locationURLPrefixPfd {P U D} _.
Arguments pcfClient {P U D} _.
Arguments udrClient {P U D} _.
Arguments udrPfdClient {P U D} _.
Arguments corrID {P U D} _.
Arguments afs {P U D} _.
Arguments upfNotificationURL {P U D} _.

Record nefContext (P U D : Type) := mkNefContext {
  cfg : Config;
  nef : nefData P U D;
}.
Arguments mkNefContext {P U D} _ _.
Arguments cfg {P U D} _.
Arguments nef {P U D} _.

(** What the NEF writes into response bodies. *)
Inductive nefPayload :=
| PayProblem (p : ProblemDetails)
| PayTi (t : TrafficInfluSub)
| PayTis (l : list TrafficInfluSub)
| PayPfdm (m : PfdManagement)
| PayPfdms (l : list PfdManagement)
| PayPfdd (d : PfdData)
| PayReport (r : PfdReport)
| PayReports (l : list PfdReport).

(** ** Error responses (nef_common.go) *)

(** [createErrorJSON]: the codes passed on to the AF, 404 for any other. *)
Definition createErrorJSON (rsp : nefSBRspData) : nefPayload * Z :=
  if bool_decide (errorCode rsp ∈ [400; 404; 411; 415; 500; 503])
  then (PayProblem (pd rsp), errorCode rsp)
  else (PayProblem (pd_of_title " NEF Error "), 404).

Definition sendErrorResponseToAF (w : ResponseWriter nefPayload) (rsp : nefSBRspData)
    : ResponseWriter nefPayload :=
  let '(mdata, eCode) := createErrorJSON rsp in
  Write mdata (WriteHeader eCode (Header_Set content_type json_utf8 w)).

Definition sendCustomeErrorRspToAF (w : ResponseWriter nefPayload) (eCode : Z)
    (title : string) : ResponseWriter nefPayload :=
  sendErrorResponseToAF w (mkNefSBRspData eCode (pd_of_title title)).

(** ** The configured URLs *)

(** The scheme and authority shared by the URL builders. *)
Definition nef_base_url (cfg : Config) : string :=
  if str_empty (h2_Endpoint (HTTP2Config cfg))
  then "http://" +:+ NefAPIRoot cfg +:+ HTTPConfig_Endpoint cfg
  else "https://" +:+ NefAPIRoot cfg +:+ h2_Endpoint (HTTP2Config cfg).

Definition getNefNotificationURI (cfg : Config) : string :=
  nef_base_url cfg +:+ UpfNotificationResURIPath cfg.
Definition getNefLocationURLPrefix (cfg : Config) : string :=
  nef_base_url cfg +:+ LocationPrefix cfg.
Definition getNefLocationURLPrefixPfd (cfg : Config) : string :=
  nef_base_url cfg +:+ LocationPrefixPfd cfg.

(** ** The registry *)
Section registry.
Context {P U D : Type}.
Abbreviation ctx := (nefContext P U D).

Definition set_nef (f : nefData P U D → nefData P U D) (c : ctx) : ctx :=
  mkNefContext (cfg c) (f (nef c)).
Definition set_afs (m : gmap string afData) (d : nefData P U D) : nefData P U D :=
  mkNefData (afCount d) (locationURLPrefix d) (locationURLPrefixPfd d) (pcfClient d)
    (udrClient d) (udrPfdClient d) (corrID d) m (upfNotificationURL d).
Definition set_corrID (n : Z) (d : nefData P U D) : nefData P U D :=
  mkNefData (afCount d) (locationURLPrefix d) (locationURLPrefixPfd d) (pcfClient d)
    (udrClient d) (udrPfdClient d) n (afs d) (upfNotificationURL d).
Definition set_pcf (p : P) (d : nefData P U D) : nefData P U D :=
  mkNefData (afCount d) (locationURLPrefix d) (locationURLPrefixPfd d) p
    (udrClient d) (udrPfdClient d) (corrID d) (afs d) (upfNotificationURL d).
Definition set_udr (u : U) (d : nefData P U D) : nefData P U D :=
  mkNefData (afCount d) (locationURLPrefix d) (locationURLPrefixPfd d) (pcfClient d)
    u (udrPfdClient d) (corrID d) (afs d) (upfNotificationURL d).
Definition set_udrPfd (x : D) (d : nefData P U D) : nefData P U D :=
  mkNefData (afCount d) (locationURLPrefix d) (locationURLPrefixPfd d) (pcfClient d)
    (udrClient d) x (corrID d) (afs d) (upfNotificationURL d).
Definition set_afCount (n : Z) (d : nefData P U D) : nefData P U D :=
  mkNefData n (locationURLPrefix d) (locationURLPrefixPfd d) (pcfClient d)
    (udrClient d) (udrPfdClient d) (corrID d) (afs d) (upfNotificationURL d).

(** [af.afCreate(nefCtx, afID)] on a fresh [afData]. *)
Definition afCreate (c : Config) (id : string) : afData :=
  mkAfData id (SubStartID c) (PfdTransStartID c) (MaxSubSupport c) ∅ ∅.

(** [nef.nefCreate(ctx, cfg)]: the clients are created before the checks;
    the first missing setting is the error. *)
Definition nefCreate (c : Config) (pcf : P) (udr : U) (udrPfd : D)
    : nefData P U D + string :=
  if str_empty (NefAPIRoot c) then inr "NefAPIRoot is empty"
  else if str_empty (LocationPrefix c) then inr "NEF LocationPrefix is empty"
  else if str_empty (UpfNotificationResURIPath c)
  then inr "UpfNotificationResURIPath is empty"
  else inl (mkNefData 0 (getNefLocationURLPrefix c) (getNefLocationURLPrefixPfd c)
              pcf udr udrPfd (wrap_uint (wrap_int (SubStartID c + correlationIDOffset)))
              ∅ (getNefNotificationURI c)).

(** Reading and writing through a pointer [*afData] held in [nef.afs]. *)
Definition get_af (key : string) : GoM ctx afData :=
  c ← go_get;
  match afs (nef c) !! key with
  | Some af => mret af
  | None => go_panic "nil pointer dereference"
  end.
Definition put_af (key : string) (af : afData) : GoM ctx unit :=
  go_modify (λ c, set_nef (λ d, set_afs (<[key := af]> (afs d)) d) c).

(** [nef.nefAddAf(nefCtx, afID)]. *)
Definition nefAddAf (id : string) : GoM ctx error :=
  c ← go_get;
  if bool_decide (MaxAFSupport (cfg c) ≤ Z.of_nat (size (afs (nef c))))
  then mret (errors_New "MAX AF exceeded")
  else
    put_af id (afCreate (cfg c) id);;
    go_modify (set_nef (λ d, set_afCount (int_incr (afCount d)) d));;
    mret nil_err.

(** [nef.nefGetAf(afID)]: whether the AF is registered. *)
Definition nefGetAf (id : string) : GoM ctx error :=
  c ← go_get;
  match afs (nef c) !! id with
  | Some _ => mret nil_err
  | None => mret (errors_New "AF entry not present")
  end.

(** [nef.nefDeleteAf(afID)]. *)
Definition nefDeleteAf (id : string) : GoM ctx error :=
  c ← go_get;
  match afs (nef c) !! id with
  | Some _ =>
      go_modify (set_nef (λ d, set_afs (delete id (afs d)) d));;
      mret nil_err
  | None => mret (errors_New "AF entry not present")
  end.

(** [af.afGetSubCount()] and [af.afGetPfdTransCount()]. *)
Definition afGetSubCount (af : afData) : Z := Z.of_nat (size (subs af)).
Definition afGetPfdTransCount (af : afData) : Z := Z.of_nat (size (pfdtrans af)).

(** [nef.nefCheckDeleteAf(afID)]. *)
Definition nefCheckDeleteAf (id : string) : GoM ctx unit :=
  af ← get_af id;
  if bool_decide (afGetSubCount af = 0) && bool_decide (afGetPfdTransCount af = 0)
  then nefDeleteAf id;; mret tt
  else mret tt.
End registry.

(** ** Error responses reach the AF with a code it understands *)

Lemma createErrorJSON_code rsp :
  (createErrorJSON rsp).2 ∈ [400; 404; 411; 415; 500; 503].
Proof. unfold createErrorJSON. case_bool_decide; [done|]. set_solver. Qed.

Lemma sendErrorResponse_status w rsp :
  rw_sent w = None →
  status_of (sendErrorResponseToAF w rsp) = (createErrorJSON rsp).2.
Proof.
  intros Hw. unfold sendErrorResponseToAF, status_of.
  destruct (createErrorJSON rsp) as [mdata eCode]; simpl.
  unfold Write, WriteHeader; simpl. by rewrite Hw.
Qed.

(** A code the AF understands is passed on with its problem details. *)
Lemma createErrorJSON_known rsp :
  errorCode rsp ∈ [400; 404; 411; 415; 500; 503] →
  createErrorJSON rsp = (PayProblem (pd rsp), errorCode rsp).
Proof. intros. unfold createErrorJSON. by rewrite bool_decide_eq_true_2. Qed.
