(* ===== verification/NefTi.v ===== *)
(** * Traffic influence subscriptions (nef_nb_ti_handler.go)

    The southbound functions that translate a subscription for the PCF or the
    UDR, the operations on an AF's subscriptions, and the HTTP handlers. *)

From S2P Require Import Prelude Strconv Http NefModel NefSouth NefCore.
From stdpp Require Import prelude gmap strings.
From Stdlib Require Import ZArith.

Local Open Scope Z_scope.

(** ** Fixed data sent southbound *)

Definition sample_Ecgi : Ecgi := mkEcgi "EUTRACELL_01" (mkPlmnID "634" "635").
Definition sample_Ncgi : Ncgi := mkNcgi "NRCELL_01" (mkPlmnID "834" "835").
Definition sample_RanNode : GlobalRanNodeID :=
  mkGlobalRanNodeID (mkPlmnID "934" "935") "IWF_01" (mkGNbID 48 "GNB_01") "NB_01".

Definition getSpatialValidityData : SpatialValidity :=
  mkSpatialValidity (mkPresenceInfo "PRA_01" "IN_AREA" [sample_Ecgi] [sample_Ncgi]
    [sample_RanNode]).
Definition getSupiData : string := "imsi-8".
Definition getNetworkAreaInfo : NetworkAreaInfo :=
  mkNetworkAreaInfo [sample_Ecgi] [sample_Ncgi] [sample_RanNode]
    [mkTai (mkPlmnID "734" "735") "TAC_01"].

(** [make] and [copy]: a fresh slice with the elements of a possibly nil one. *)
Definition slice_copy {A} (l : option (list A)) : list A := default [] l.

(** The response handed up by a southbound call: its code, and its problem
    details when the call failed or the code is an error code. *)
Definition sb_rsp (code : Z) (p : option ProblemDetails) (err : error) : nefSBRspData :=
  if bool_decide (err ≠ nil_err) || bool_decide (300 ≤ code < 700)
  then mkNefSBRspData code (default zero_ProblemDetails p)
  else mkNefSBRspData code zero_ProblemDetails.

Definition is_failure (code : Z) : bool := bool_decide (300 ≤ code < 700).

(** [validateAFTrafficInfluenceData]: the error response, and whether the
    mandatory attributes are present. *)
Definition validateAFTrafficInfluenceData (ti : TrafficInfluSub) : nefSBRspData * bool :=
  if str_empty (ti_AfTransID ti)
  then (rsp_err 400 "Missing AfTransID atttribute", false)
  else if str_empty (ti_AfServiceID ti) && str_empty (ti_Dnn ti)
  then (rsp_err 400 "Missing afServiceId atttribute", false)
  else if str_empty (ti_AfAppID ti) && bool_decide (ti_TrafficFilters ti = None)
          && bool_decide (ti_EthTrafficFilters ti = None)
  then (rsp_err 400 "missing one of afAppId, trafficFilters,ethTrafficFilters", false)
  else (zero_rsp, true).

(** [updateTiFromTisp]. *)
Definition updateTiFromTisp (t : TrafficInfluSub) (p : TrafficInfluSubPatch) : TrafficInfluSub :=
  let pick {A} (new old : option A) := match new with Some _ => new | None => old end in
  mkTrafficInfluSub (ti_AfServiceID t) (ti_AfAppID t) (ti_AfTransID t) (ti_Dnn t)
    (ti_Snssai t) (ti_ExternalGroupID t) (ti_SubscribedEvents t) (ti_Gpsi t)
    (ti_Ipv4Addr t) (ti_Ipv6Addr t) (ti_MacAddr t) (ti_DnaiChgType t)
    (ti_NotificationDestination t) (ti_WebsockNotifConfig t) (ti_Self t)
    (pick (tisp_TrafficFilters p) (ti_TrafficFilters t))
    (pick (tisp_EthTrafficFilters p) (ti_EthTrafficFilters t))
    (pick (tisp_TrafficRoutes p) (ti_TrafficRoutes t))
    (pick (tisp_TempValidities p) (ti_TempValidities t))
    (pick (tisp_ValidGeoZoneIDs p) (ti_ValidGeoZoneIDs t))
    (ti_SuppFeat t) (tisp_AppReloInd p) (ti_AnyUeInd t) (ti_RequestTestNotification t).

(** The two ways a subscription reaches the core network. *)
Definition is_pcf_request (ti : TrafficInfluSub) : bool :=
  negb (str_empty (ti_Gpsi ti)) || negb (str_empty (ti_Ipv4Addr ti))
  || negb (str_empty (ti_Ipv6Addr ti)).
Definition is_udr_request (ti : TrafficInfluSub) : bool :=
  negb (str_empty (ti_ExternalGroupID ti)) || ti_AnyUeInd ti.

(** [len(ti.SubscribedEvents) > 0 && ti.SubscribedEvents[0] == "UP_PATH_CHANGE"]. *)
Definition wants_up_path_change (ti : TrafficInfluSub) : bool :=
  match ti_SubscribedEvents ti with
  | e :: _ => bool_decide (e = "UP_PATH_CHANGE")
  | [] => false
  end.

Section ti.
Context {P U D : Type}
  `{PcfPolicyAuthorization P, UdrInfluenceData U, UdrPfdData D, GoEnv}.
Abbreviation ctx := (nefContext P U D).

(** [x.(string)] on a member of a configuration entry. *)
Definition assert_string (v : option cfgValue) : GoM ctx string :=
  match v with
  | Some (CfgString s) => mret s
  | _ => go_panic "interface conversion: not a string"
  end.

(** The loop over [cfg.AfServiceIDs] that finds the DNN and the slice of a
    service; the last entry with the identifier wins. *)
Definition service_slice (entries : list cfgEntry) (serviceID : string)
    : GoM ctx (string * Snssai) :=
  r ← for_acc (R := unit) entries (λ e acc,
    match e with
    | CfgNotMap => go_panic "interface conversion: not a map"
    | CfgMap m =>
        id ← assert_string (m !! "id");
        if bool_decide (serviceID = id) then
          dnn ← assert_string (m !! "dnn");
          sd ← assert_string (m !! "snssai");
          mret (inl (dnn, mkSnssai (wrap_uint8 (str_len sd)) sd))
        else mret (inl acc)
    end) ("", mkSnssai 0 "");
  match r with
  | inl acc => mret acc
  | inr _ => mret ("", mkSnssai 0 "")
  end.

(** [strconv.Itoa(int(nef.corrID)); nef.corrID++]. *)
Definition take_corrID : GoM ctx string :=
  c ← go_get;
  go_modify (set_nef (λ d, set_corrID (uint_incr (corrID d)) d));;
  mret (Itoa (wrap_int (corrID (nef c)))).

(** Calls of the southbound clients held in [nef]. *)
Definition call_pcf {A} (f : P → A * P) : GoM ctx A :=
  c ← go_get;
  let '(a, p') := f (pcfClient (nef c)) in
  go_modify (set_nef (set_pcf p'));;
  mret a.
Definition call_udr {A} (f : U → A * U) : GoM ctx A :=
  c ← go_get;
  let '(a, u') := f (udrClient (nef c)) in
  go_modify (set_nef (set_udr u'));;
  mret a.

(** ** Towards the PCF *)

Definition nefSBPCFPost (pcfSub : afSubscription) (ti : TrafficInfluSub)
    : GoM ctx (afSubscription * nefSBRspData * error) :=
  corr ← take_corrID;
  let pcfSub := sub_set_corr corr pcfSub in
  c ← go_get;
  svc ← service_slice (AfServiceIDs (cfg c)) (ti_AfServiceID ti);
  let appSessCtx := mkAppSessionContext (mkAppSessionContextReqData
    (ti_AfAppID ti)
    (mkAfRoutingRequirement (slice_copy (ti_TrafficRoutes ti)) getSpatialValidityData
      (slice_copy (ti_TempValidities ti))
      (mkUpPathChgEvent (nef_base_url (cfg c)) corr (ti_DnaiChgType ti))
      (ti_AppReloInd ti) false)
    svc.1 svc.2 getSupiData "" "" (ti_Ipv4Addr ti) (ti_Ipv6Addr ti) (ti_MacAddr ti)) in
  r ← call_pcf (PolicyAuthorizationCreate appSessCtx);
  let '(appSessID, resp, err) := r in
  let rsp := sb_rsp (pcf_ResponseCode resp) (pcf_Pd resp) err in
  if bool_decide (err ≠ nil_err) then mret (pcfSub, rsp, err)
  else if is_failure (pcf_ResponseCode resp) then mret (pcfSub, rsp, err)
  else mret (sub_set_session appSessID pcfSub, rsp, err).

Definition nefSBPCFGet (pcfSub : afSubscription)
    : GoM ctx (TrafficInfluSub * nefSBRspData * error) :=
  r ← call_pcf (PolicyAuthorizationGet (appSessionID pcfSub));
  let '(resp, err) := r in
  let rsp := sb_rsp (pcf_ResponseCode resp) (pcf_Pd resp) err in
  if bool_decide (err ≠ nil_err) then mret (zero_TrafficInfluSub, rsp, err)
  else if is_failure (pcf_ResponseCode resp) then mret (zero_TrafficInfluSub, rsp, err)
  else mret (sub_ti pcfSub, rsp, err).

Definition nefSBPCFPut (pcfSub : afSubscription) (ti : TrafficInfluSub)
    : GoM ctx (afSubscription * nefSBRspData * error) :=
  mret (pcfSub, zero_rsp, errors_New "PUT Method Not Supported").

Definition nefSBPCFPatch (pcfSub : afSubscription) (tisp : TrafficInfluSubPatch)
    : GoM ctx (nefSBRspData * error) :=
  c ← go_get;
  let upd := mkAppSessionContextUpdateData ""
    (mkAfRoutingRequirement (slice_copy (tisp_TrafficRoutes tisp)) getSpatialValidityData
      (slice_copy (tisp_TempValidities tisp))
      (mkUpPathChgEvent (upfNotificationURL (nef c)) (NotifCorreID pcfSub) "")
      (tisp_AppReloInd tisp) false) in
  r ← call_pcf (PolicyAuthorizationUpdate upd (appSessionID pcfSub));
  let '(resp, err) := r in
  mret (sb_rsp (pcf_ResponseCode resp) (pcf_Pd resp) err, err).

Definition nefSBPCFDelete (pcfSub : afSubscription) : GoM ctx (nefSBRspData * error) :=
  r ← call_pcf (PolicyAuthorizationDelete (appSessionID pcfSub));
  let '(resp, err) := r in
  mret (sb_rsp (pcf_ResponseCode resp) (pcf_Pd resp) err, err).

(** ** Towards the UDR *)

Definition nefSBUDRPut (udrSub : afSubscription) (ti : TrafficInfluSub)
    : GoM ctx (afSubscription * nefSBRspData * error) :=
  c ← go_get;
  svc ← service_slice (AfServiceIDs (cfg c)) (ti_AfServiceID ti);
  s ← (if wants_up_path_change ti
       then corr ← take_corrID; mret (sub_set_corr corr udrSub, corr)
       else mret (udrSub, ""));
  let '(udrSub, tidCorr) := s : afSubscription * string in
  let times := match slice_copy (ti_TempValidities ti) with
               | t :: _ => (StartTime t, StopTime t)
               | [] => ("", "")
               end in
  let tid := mkTrafficInfluData (upfNotificationURL (nef c)) (ti_AppReloInd ti)
    (ti_AfAppID ti) svc.1 (slice_copy (ti_EthTrafficFilters ti)) svc.2
    (ti_ExternalGroupID ti) "" (slice_copy (ti_TrafficFilters ti))
    (slice_copy (ti_TrafficRoutes ti)) times.2 times.1 getNetworkAreaInfo tidCorr in
  r ← call_udr (UdrInfluenceDataCreate tid (iid udrSub));
  let '(resp, err) := r in
  mret (udrSub, sb_rsp (udr_ResponseCode resp) (udr_Pd resp) err, err).

Definition nefSBUDRPost (udrSub : afSubscription) (ti : TrafficInfluSub)
    : GoM ctx (afSubscription * nefSBRspData * error) :=
  nefSBUDRPut udrSub ti.

Definition nefSBUDRGet (udrSub : afSubscription)
    : GoM ctx (TrafficInfluSub * nefSBRspData * error) :=
  r ← call_udr UdrInfluenceDataGet;
  let '(resp, err) := r in
  let rsp := sb_rsp (udr_ResponseCode resp) (udr_Pd resp) err in
  if bool_decide (err ≠ nil_err) then mret (zero_TrafficInfluSub, rsp, err)
  else if is_failure (udr_ResponseCode resp) then mret (zero_TrafficInfluSub, rsp, err)
  else mret (sub_ti udrSub, rsp, err).

Definition nefSBUDRPatch (udrSub : afSubscription) (tisp : TrafficInfluSubPatch)
    : GoM ctx (nefSBRspData * error) :=
  let times := match slice_copy (tisp_TempValidities tisp) with
               | t :: _ => (StartTime t, StopTime t)
               | [] => ("", "")
               end in
  let patch := mkTrafficInfluDataPatch "" (tisp_AppReloInd tisp) "" (mkSnssai 0 "") ""
    (slice_copy (tisp_EthTrafficFilters tisp)) ""
    (slice_copy (tisp_TrafficFilters tisp)) (slice_copy (tisp_TrafficRoutes tisp))
    times.2 times.1 (mkNetworkAreaInfo [] [] [] []) "" in
  r ← call_udr (UdrInfluenceDataUpdate patch (iid udrSub));
  let '(resp, err) := r in
  mret (sb_rsp (udr_ResponseCode resp) (udr_Pd resp) err, err).

Definition nefSBUDRDelete (udrSub : afSubscription) : GoM ctx (nefSBRspData * error) :=
  r ← call_udr (UdrInfluenceDataDelete (iid udrSub));
  let '(resp, err) := r in
  mret (sb_rsp (udr_ResponseCode resp) (udr_Pd resp) err, err).

(** ** Calls through the stored callbacks *)

Definition call_NEFSBPut (sub : afSubscription) (ti : TrafficInfluSub)
    : GoM ctx (afSubscription * nefSBRspData * error) :=
  match NEFSBPut sub with
  | SBPcf => nefSBPCFPut sub ti
  | SBUdr => nefSBUDRPut sub ti
  | SBNil => go_panic "call of nil function"
  end.
Definition call_NEFSBPatch (sub : afSubscription) (tisp : TrafficInfluSubPatch)
    : GoM ctx (nefSBRspData * error) :=
  match NEFSBPatch sub with
  | SBPcf => nefSBPCFPatch sub tisp
  | SBUdr => nefSBUDRPatch sub tisp
  | SBNil => go_panic "call of nil function"
  end.
Definition call_NEFSBDelete (sub : afSubscription) : GoM ctx (nefSBRspData * error) :=
  match NEFSBDelete sub with
  | SBPcf => nefSBPCFDelete sub
  | SBUdr => nefSBUDRDelete sub
  | SBNil => go_panic "call of nil function"
  end.

(** Writing through the pointer [af.subs[subID]]. *)
Definition put_sub (key subID : string) (sub : afSubscription) : GoM ctx unit :=
  af ← get_af key;
  put_af key (af_set_subs (<[subID := sub]> (subs af)) af).

(** ** Operations on an AF *)

Definition sub_location (c : ctx) (af : afData) (subIDStr : string) : string :=
  locationURLPrefix (nef c) +:+ afID af +:+ "/subscriptions/" +:+ subIDStr.

Definition afAddSubscription (key : string) (ti : TrafficInfluSub)
    : GoM ctx (string * nefSBRspData * error) :=
  c ← go_get;
  af ← get_af key;
  if bool_decide (MaxSubSupport (cfg c) ≤ Z.of_nat (size (subs af)))
  then mret ("", rsp_err 400 "MAX Subscription Reached", errors_New "MAX SUBS Created")
  else
    let subIDStr := Itoa (subIDnum af) in
    put_af key (af_set_subIDnum (int_incr (subIDnum af)) af);;
    let afsub := new_afSubscription subIDStr ti in
    r ← (if is_pcf_request ti then
           r ← nefSBPCFPost afsub ti;
           let '(s, rsp, err) := r : afSubscription * nefSBRspData * error in
           mret (sub_set_callbacks (ti_NotificationDestination ti) SBPcf s, rsp, err)
         else if is_udr_request ti then
           r ← nefSBUDRPost afsub ti;
           let '(s, rsp, err) := r : afSubscription * nefSBRspData * error in
           mret (sub_set_callbacks (ti_NotificationDestination ti) SBUdr s, rsp, err)
         else mret (afsub, rsp_err 400 "Invalid Request", errors_New "Invalid AF Request"));
    let '(afsub, rsp, err) := r : afSubscription * nefSBRspData * error in
    if bool_decide (err ≠ nil_err) then mret ("", rsp, err)
    else
      af ← get_af key;
      let loc := sub_location c af subIDStr in
      put_sub key subIDStr (sub_set_ti (ti_set_Self loc (sub_ti afsub)) afsub);;
      mret (loc, rsp, nil_err).

Definition afUpdateSubscription (key subID : string) (ti : TrafficInfluSub)
    : GoM ctx (nefSBRspData * TrafficInfluSub * error) :=
  af ← get_af key;
  match subs af !! subID with
  | None => mret (rsp_err 400 subNotFound, zero_TrafficInfluSub, errors_New subNotFound)
  | Some sub =>
      r ← call_NEFSBPut sub ti;
      let '(sub, rsp, err) := r : afSubscription * nefSBRspData * error in
      put_sub key subID sub;;
      if bool_decide (err ≠ nil_err) then mret (rsp, zero_TrafficInfluSub, err)
      else
        let updtTI := ti_set_Self (ti_Self (sub_ti sub)) ti in
        put_sub key subID (sub_set_ti updtTI sub);;
        mret (rsp, updtTI, err)
  end.

Definition afPartialUpdateSubscription (key subID : string) (tisp : TrafficInfluSubPatch)
    : GoM ctx (nefSBRspData * TrafficInfluSub * error) :=
  af ← get_af key;
  match subs af !! subID with
  | None => mret (rsp_err 400 subNotFound, zero_TrafficInfluSub, errors_New subNotFound)
  | Some sub =>
      r ← call_NEFSBPatch sub tisp;
      let '(rsp, err) := r : nefSBRspData * error in
      if bool_decide (err ≠ nil_err) then mret (rsp, zero_TrafficInfluSub, err)
      else
        let ti' := updateTiFromTisp (sub_ti sub) tisp in
        put_sub key subID (sub_set_ti ti' sub);;
        mret (rsp, ti', err)
  end.

Definition afGetSubscription (key subID : string)
    : GoM ctx (nefSBRspData * TrafficInfluSub * error) :=
  af ← get_af key;
  match subs af !! subID with
  | None => mret (rsp_err 404 subNotFound, zero_TrafficInfluSub, errors_New subNotFound)
  | Some sub => mret (zero_rsp, sub_ti sub, nil_err)
  end.

Definition afGetSubscriptionList (key : string)
    : GoM ctx (nefSBRspData * list TrafficInfluSub * error) :=
  af ← get_af key;
  r ← for_acc (map_range ["afGetSubscriptionList"] (subs af)) (λ kv acc,
    r ← afGetSubscription key kv.1;
    let '(rsp, ti, err) := r : nefSBRspData * TrafficInfluSub * error in
    if bool_decide (err ≠ nil_err) then mret (inr (rsp, acc.2, err))
    else mret (inl (rsp, acc.2 ++ [ti]))) (zero_rsp, []);
  match r with
  | inl (rsp, l) => mret (rsp, l, nil_err)
  | inr out => mret out
  end.

Definition afDeleteSubscription (key subID : string) : GoM ctx (nefSBRspData * error) :=
  af ← get_af key;
  match subs af !! subID with
  | None => mret (rsp_err 404 subNotFound, errors_New subNotFound)
  | Some sub =>
      r ← call_NEFSBDelete sub;
      let '(rsp, err) := r : nefSBRspData * error in
      if bool_decide (err ≠ nil_err) then mret (rsp, err)
      else
        af ← get_af key;
        put_af key (af_set_subs (delete subID (subs af)) af);;
        mret (rsp, err)
  end.

Definition createNewSub (id : string) (ti : TrafficInfluSub)
    : GoM ctx (string * nefSBRspData * error) :=
  err ← nefGetAf id;
  err ← (if bool_decide (err ≠ nil_err) then nefAddAf id else mret nil_err);
  if bool_decide (err ≠ nil_err) then mret ("", zero_rsp, err)
  else afAddSubscription id ti.

(** ** HTTP handlers *)

Abbreviation writer := (ResponseWriter nefPayload).

(** The order in which the reading and updating handlers write their
    response: status, then a header field, then the body. *)
Definition reply_200 (p : nefPayload) (w : writer) : writer :=
  Write p (Header_Set content_type json_utf8 (WriteHeader StatusOK w)).

Definition ReadAllTrafficInfluenceSubscription (id : string) (w : writer) : GoM ctx writer :=
  err ← nefGetAf id;
  r ← (if bool_decide (err ≠ nil_err) then mret (zero_rsp, [], nil_err)
       else afGetSubscriptionList id);
  let '(rsp, subslist, err) := r : nefSBRspData * list TrafficInfluSub * error in
  if bool_decide (err ≠ nil_err) then mret (sendErrorResponseToAF w rsp)
  else mret (reply_200 (PayTis subslist) w).

Definition CreateTrafficInfluenceSubscription (id : string)
    (body : Body TrafficInfluSub) (w : writer) : GoM ctx writer :=
  match body with
  | BodyReadErr => mret (sendCustomeErrorRspToAF w 400 "Failed to read HTTP POST Body")
  | BodyBadJSON => mret (sendCustomeErrorRspToAF w 400 "Failed UnMarshal POST data")
  | BodyOf trInBody =>
      let '(resRsp, status) := validateAFTrafficInfluenceData trInBody in
      if negb status then mret (sendErrorResponseToAF w resRsp)
      else
        r ← createNewSub id trInBody;
        let '(loc, rsp, err3) := r : string * nefSBRspData * error in
        if bool_decide (err3 ≠ nil_err)
        then mret (sendErrorResponseToAF w (mkNefSBRspData 400 (pd rsp)))
        else
          let w := Header_Set "Location" loc (Header_Set content_type json_utf8 w) in
          mret (Write (PayTi (ti_set_Self loc trInBody)) (WriteHeader StatusCreated w))
  end.

Definition ReadTrafficInfluenceSubscription (id subscriptionId : string) (w : writer)
    : GoM ctx writer :=
  ok ← nefGetAf id;
  if bool_decide (ok ≠ nil_err)
  then mret (sendCustomeErrorRspToAF w 404 "Failed to find AF records")
  else
    r ← afGetSubscription id subscriptionId;
    let '(rsp, sub, err) := r : nefSBRspData * TrafficInfluSub * error in
    if bool_decide (err ≠ nil_err) then mret (sendErrorResponseToAF w rsp)
    else mret (reply_200 (PayTi sub) w).

Definition UpdatePutTrafficInfluenceSubscription (id subscriptionId : string)
    (body : Body TrafficInfluSub) (w : writer) : GoM ctx writer :=
  ok ← nefGetAf id;
  if bool_decide (ok = nil_err) then
    match body with
    | BodyReadErr => mret (sendCustomeErrorRspToAF w 400 "Failed to read HTTP PUT Body")
    | BodyBadJSON => mret (sendCustomeErrorRspToAF w 400 "Failed UnMarshal PUT data")
    | BodyOf trInBody =>
        r ← afUpdateSubscription id subscriptionId trInBody;
        let '(rsp, newTI, err) := r : nefSBRspData * TrafficInfluSub * error in
        if bool_decide (err ≠ nil_err) then mret (sendErrorResponseToAF w rsp)
        else mret (reply_200 (PayTi newTI) w)
    end
  else mret (sendCustomeErrorRspToAF w 404 "Failed to find AF records").

Definition UpdatePatchTrafficInfluenceSubscription (id subscriptionId : string)
    (body : Body TrafficInfluSubPatch) (w : writer) : GoM ctx writer :=
  ok ← nefGetAf id;
  if bool_decide (ok = nil_err) then
    match body with
    | BodyReadErr => mret (sendCustomeErrorRspToAF w 400 "Failed to read HTTP PATCH Body")
    | BodyBadJSON => mret (sendCustomeErrorRspToAF w 400 "Failed UnMarshal PATCH data")
    | BodyOf tisp =>
        r ← afPartialUpdateSubscription id subscriptionId tisp;
        let '(rsp, ti, err) := r : nefSBRspData * TrafficInfluSub * error in
        if bool_decide (err ≠ nil_err) then mret (sendErrorResponseToAF w rsp)
        else mret (reply_200 (PayTi ti) w)
    end
  else mret (sendCustomeErrorRspToAF w 404 "Failed to find AF records").

Definition DeleteTrafficInfluenceSubscription (id subscriptionId : string) (w : writer)
    : GoM ctx writer :=
  err ← nefGetAf id;
  if bool_decide (err ≠ nil_err)
  then mret (sendCustomeErrorRspToAF w 404 "Failed to find AF entry")
  else
    r ← afDeleteSubscription id subscriptionId;
    let '(rsp, err) := r : nefSBRspData * error in
    if bool_decide (err ≠ nil_err) then mret (sendErrorResponseToAF w rsp)
    else
      let w := WriteHeader StatusNoContent w in
      af ← get_af id;
      (if bool_decide (afGetSubCount af = 0) then nefDeleteAf id;; mret tt else mret tt);;
      mret w.

(** ** Notifications from the SMF *)

(** [getSubFromCorrID]: the first subscription, in iteration order, with the
    correlation identifier. *)
Definition getSubFromCorrID (corr : string) (c : ctx) : option afSubscription :=
  match loop_acc (map_range ["getSubFromCorrID"] (afs (nef c))) (λ kv (_ : unit),
    match loop_acc (map_range ["getSubFromCorrID"; kv.1] (subs kv.2)) (λ ks (_ : unit),
      if bool_decide (NotifCorreID ks.2 = corr) then inr ks.2 else inl tt) tt with
    | inl _ => inl tt
    | inr vs => inr vs
    end) tt with
  | inl _ => None
  | inr vs => Some vs
  end.

(** The first event notification for a UP path change. *)
Fixpoint first_up_path_ch (l : list NsmEventNotification) : option NsmEventNotification :=
  match l with
  | [] => None
  | e :: l' => if bool_decide (nsm_Event e = "UP_PATH_CH") then Some e
               else first_up_path_ch l'
  end.

(** The notification sent on to the AF. *)
Definition event_of (ti : TrafficInfluSub) (e : NsmEventNotification) : EventNotification :=
  mkEventNotification (ti_AfTransID ti) (nsm_DnaiChgType e) (nsm_SourceTraRouting e)
    "UP_PATH_CHANGE" (nsm_TargetTraRouting e) (nsm_Gpsi e) (nsm_SourceUeIpv4Addr e)
    (nsm_SourceUeIpv6Prefix e) (nsm_TargetUeIpv4Addr e) (nsm_TargetUeIpv6Prefix e)
    (nsm_UeMac e).

(** [NotifySmfUPFEvent]: the response, and the notification handed to the
    AF client with its destination.  An absent body is [BodyReadErr]. *)
Definition NotifySmfUPFEvent (body : Body NsmfEventExposureNotification) (w : writer)
    : GoM ctx (writer * option (string * EventNotification)) :=
  match body with
  | BodyReadErr | BodyBadJSON => mret (WriteHeader StatusBadRequest w, None)
  | BodyOf smfEv =>
      if str_empty (smf_NotifID smfEv) then mret (WriteHeader StatusBadRequest w, None)
      else if bool_decide (smf_EventNotifs smfEv = [])
      then mret (WriteHeader StatusBadRequest w, None)
      else
        match first_up_path_ch (smf_EventNotifs smfEv) with
        | None => mret (WriteHeader StatusBadRequest w, None)
        | Some nsmEvNo =>
            c ← go_get;
            match getSubFromCorrID (smf_NotifID smfEv) c with
            | None => mret (WriteHeader StatusNotFound w, None)
            | Some afSubs =>
                mret (WriteHeader StatusOK w,
                      Some (ti_NotificationDestination (sub_ti afSubs),
                            event_of (sub_ti afSubs) nsmEvNo))
            end
        end
  end.
End ti.
