(* ===== verification/NefPfd.v ===== *)
(** * PFD management transactions (nef_nb_pfd_handler.go)

    The operations on an AF's PFD transactions, the southbound functions
    towards the UDR, and the HTTP handlers.

    The maps [PfdDatas] and [PfdReports] of a request are shared: a function
    that receives a [PfdManagement] by value still deletes from and inserts
    into the caller's maps, and a created transaction keeps the maps of the
    request that created it.  A function that changes the maps of an argument
    therefore returns the argument with its maps as it leaves them, and the
    caller goes on with that value. *)

From S2P Require Import Prelude Strconv Http NefModel NefSouth NefCore NefTi.
From stdpp Require Import prelude gmap strings.
From Stdlib Require Import ZArith.

Local Open Scope Z_scope.

(** [generatePfdReport]: the failure codes that are handled get a report per
    code, to which the application is appended. *)
Definition add_report (appID : string) (reason : FailureCode)
    (reports : gmap string PfdReport) : gmap string PfdReport :=
  match reports !! reason with
  | None => <[reason := mkPfdReport [appID] reason None]> reports
  | Some r => <[reason := mkPfdReport (ExternalAppIds r ++ [appID])
                 (rep_FailureCode r) (rep_CachingTime r)]> reports
  end.

Definition generatePfdReport (appID : string) (failureReason : string)
    (reports : gmap string PfdReport) : gmap string PfdReport :=
  if bool_decide (failureReason = AppIDDuplicated)
  then add_report appID failureReason reports
  else if bool_decide (failureReason = OtherReason)
  then add_report appID failureReason reports
  else reports.

(** [validateAFPfdData]. *)
Definition validateAFPfdData (pfd : Pfd) : nefPFDSBRspData * bool :=
  if str_empty (PfdID pfd) then (pfd_rsp_err 400 "PFD ID missing", false)
  else if bool_decide (DomainNames pfd = []) && bool_decide (FlowDescriptions pfd = [])
          && bool_decide (Urls pfd = [])
  then (pfd_rsp_err 400 "No domainNames FlowDescriptions and Urls present for PFD", false)
  else (zero_pfd_rsp, true).

(** The failure code for which an answer of the UDR is reported. *)
Definition failure_reason (v : nefPFDSBRspData) : option FailureCode :=
  if bool_decide (errorCode (result v) ≠ 200)
  then Some (default OtherReason (fc v)) else None.

(** [updatePfdAppOnRsp]: the reports, and whether the application failed. *)
Definition updatePfdAppOnRsp (rsp : nefPFDSBRspData) (appID : string)
    (reports : gmap string PfdReport) : gmap string PfdReport * error :=
  match failure_reason rsp with
  | Some reason => (generatePfdReport appID reason reports, errors_New pfdAppsFailed)
  | None => (reports, nil_err)
  end.

Section pfd.
Context {P U D : Type}
  `{PcfPolicyAuthorization P, UdrInfluenceData U, UdrPfdData D, GoEnv, NefHooks}.
Abbreviation ctx := (nefContext P U D).

(** The loop [for _, pfd := range pfds] over [validateAFPfdData]. *)
Definition validate_pfds (site : list string) (pfds : gmap string Pfd)
    : nefPFDSBRspData * bool :=
  match loop_acc (map_range site pfds) (λ kv (_ : unit),
    let '(rsp, status) := validateAFPfdData kv.2 in
    if status then inl tt else inr rsp) tt with
  | inl _ => (zero_pfd_rsp, true)
  | inr rsp => (rsp, false)
  end.

(** [nefCheckPfdAppIDExists]. *)
Definition nefCheckPfdAppIDExists (appID : string) (c : ctx) : bool :=
  let site := ["nefCheckPfdAppIDExists"; appID] in
  match loop_acc (map_range site (afs (nef c))) (λ kv (_ : unit),
    match loop_acc (map_range (site ++ [kv.1]) (pfdtrans kv.2)) (λ kt (_ : unit),
      match loop_acc (map_range (site ++ [kv.1; kt.1])
                        (PfdDatas (pfdManagement kt.2))) (λ kd (_ : unit),
        if bool_decide (kd.1 = appID) then inr true else inl tt) tt with
      | inl _ => inl tt | inr b => inr b end) tt with
    | inl _ => inl tt | inr b => inr b end) tt with
  | inl _ => false
  | inr b => b
  end.

(** [validateAFPfdManagementData]: the request with its maps as the call
    leaves them, the error response, and whether it is acceptable. *)
Definition validateAFPfdManagementData (c : ctx) (pfdTrans : PfdManagement)
    (method : string) : PfdManagement * nefPFDSBRspData * bool :=
  if bool_decide (size (PfdDatas pfdTrans) = 0%nat)
  then (pfdTrans, pfd_rsp_err 400 "Missing PFD Data", false)
  else
    match loop_acc (map_range ["validate"; "1"] (PfdDatas pfdTrans)) (λ kv (_ : unit),
      if bool_decide (size (Pfds kv.2) = 0%nat)
      then inr (pfd_rsp_err 400 "Missing PFD Data")
      else if str_empty (ExternalAppID kv.2)
      then inr (pfd_rsp_err 400 "Missing Application ID")
      else inl tt) tt with
    | inr rsp => (pfdTrans, rsp, false)
    | inl _ =>
        match loop_acc (map_range ["validate"; "2"] (PfdDatas pfdTrans)) (λ kv m,
          let m := if bool_decide (method = "POST") && nefCheckPfdAppIDExists kv.1 c
                   then pfdm_set_PfdDatas (delete kv.1 (PfdDatas m))
                     (pfdm_set_PfdReports
                        (generatePfdReport kv.1 AppIDDuplicated (PfdReports m)) m)
                   else m in
          let '(rsp1, status) := validate_pfds ["validate"; "2"; kv.1] (Pfds kv.2) in
          if status then inl m else inr (m, rsp1)) pfdTrans with
        | inl m => (m, zero_pfd_rsp, true)
        | inr (m, rsp1) => (m, rsp1, false)
        end
    end.

Definition call_udrPfd {A} (f : D → A * D) : GoM ctx A :=
  c ← go_get;
  let '(a, x') := f (udrPfdClient (nef c)) in
  go_modify (set_nef (set_udrPfd x'));;
  mret a.

(** ** Southbound functions *)

Definition pfd_of_content (e : PfdContent) : Pfd :=
  mkPfd (pc_PfdID e) (pc_FlowDescriptions e) (pc_Urls e) (pc_DomainNames e).
Definition content_of_pfd (p : Pfd) : PfdContent :=
  mkPfdContent (PfdID p) (FlowDescriptions p) (Urls p) (DomainNames p).

Definition nefSBUDRAPPPFDGet (appID : string)
    : GoM ctx (PfdData * nefPFDSBRspData * error) :=
  r ← call_udrPfd (UdrPfdDataGet appID);
  let '(r, e) := r : UdrPfdResponse * error in
  if bool_decide (e ≠ nil_err) then mret (zero_PfdData, zero_pfd_rsp, e)
  else
    match AppPfd r with
    | None => go_panic "nil pointer dereference"
    | Some a =>
        let pfds := fold_left (λ m ele, <[pc_PfdID ele := pfd_of_content ele]> m)
                      (pa_Pfds a) ∅ in
        mret (mkPfdData (pa_AppID a) "" pfds None None, zero_pfd_rsp, nil_err)
    end.

Definition nefSBUDRPFDGet (transData : afPfdTransaction)
    : GoM ctx (PfdManagement * nefPFDSBRspData * error) :=
  r ← for_acc (map_range ["nefSBUDRPFDGet"; transID transData]
                 (PfdDatas (pfdManagement transData))) (λ kv m,
    r ← nefSBUDRAPPPFDGet (ExternalAppID kv.2);
    let '(appPfd, rsp, e) := r : PfdData * nefPFDSBRspData * error in
    if bool_decide (e ≠ nil_err)
    then mret (inr (pfdm_set_PfdDatas m zero_PfdManagement, rsp, e))
    else mret (inl (<[kv.1 := appPfd]> m))) ∅;
  match r with
  | inl m => mret (pfdm_set_PfdDatas m zero_PfdManagement, zero_pfd_rsp, nil_err)
  | inr out => mret out
  end.

Definition nefSBUDRAPPPFDPut (app : PfdData) : GoM ctx (nefPFDSBRspData * error) :=
  let pfdApp := mkPfdDataForApp (ExternalAppID app)
    (content_of_pfd <$> (map_range ["nefSBUDRAPPPFDPut"; ExternalAppID app] (Pfds app)).*2)
    (now_plus <$> CachingTime app) in
  r ← call_udrPfd (UdrPfdDataCreate pfdApp);
  let '(_, e) := r : UdrPfdResponse * error in
  if bool_decide (e ≠ nil_err)
  then mret (mkNefPFDSBRspData (mkNefSBRspData 400 zero_ProblemDetails) None, e)
  else if TestNEFSB
  then mret (mkNefPFDSBRspData (mkNefSBRspData 400 zero_ProblemDetails)
               (Some OtherReason), nil_err)
  else mret (mkNefPFDSBRspData (mkNefSBRspData 200 zero_ProblemDetails) None, nil_err).

Definition nefSBUDRPFDPut (trans : PfdManagement)
    : GoM ctx (gmap string nefPFDSBRspData * error) :=
  r ← for_acc (map_range ["nefSBUDRPFDPut"] (PfdDatas trans)) (λ kv rspDetails,
    r ← nefSBUDRAPPPFDPut kv.2;
    let '(r, e) := r : nefPFDSBRspData * error in
    if bool_decide (e ≠ nil_err) then mret (inr (rspDetails, e))
    else mret (inl (<[kv.1 := r]> rspDetails))) ∅;
  match r with
  | inl rspDetails => mret (rspDetails, nil_err)
  | inr out => mret out
  end.

Definition nefSBUDRAPPPFDDelete (appID : string) : GoM ctx (nefPFDSBRspData * error) :=
  r ← call_udrPfd (UdrPfdDataDelete appID);
  let '(_, e) := r : UdrPfdResponse * error in
  if bool_decide (e ≠ nil_err) then mret (zero_pfd_rsp, e)
  else mret (zero_pfd_rsp, nil_err).

Definition nefSBUDRPFDDelete (transData : afPfdTransaction)
    : GoM ctx (nefPFDSBRspData * error) :=
  r ← for_acc (map_range ["nefSBUDRPFDDelete"] (PfdDatas (pfdManagement transData)))
    (λ kv (_ : unit),
      r ← nefSBUDRAPPPFDDelete (ExternalAppID kv.2);
      let '(r, e) := r : nefPFDSBRspData * error in
      if bool_decide (e ≠ nil_err) then mret (inr (r, e)) else mret (inl tt)) tt;
  match r with
  | inl _ => mret (zero_pfd_rsp, nil_err)
  | inr out => mret out
  end.

Definition call_NEFSBPfdGet (t : afPfdTransaction)
    : GoM ctx (PfdManagement * nefPFDSBRspData * error) :=
  match NEFSBPfdGet t with
  | PfdUdr => nefSBUDRPFDGet t
  | PfdNil => go_panic "call of nil function"
  end.
Definition call_NEFSBPfdPut (t : afPfdTransaction) (m : PfdManagement)
    : GoM ctx (gmap string nefPFDSBRspData * error) :=
  match NEFSBPfdPut t with
  | PfdUdr => nefSBUDRPFDPut m
  | PfdNil => go_panic "call of nil function"
  end.
Definition call_NEFSBAppPfdPut (t : afPfdTransaction) (d : PfdData)
    : GoM ctx (nefPFDSBRspData * error) :=
  match NEFSBAppPfdPut t with
  | PfdUdr => nefSBUDRAPPPFDPut d
  | PfdNil => go_panic "call of nil function"
  end.
Definition call_NEFSBPfdDelete (t : afPfdTransaction) : GoM ctx (nefPFDSBRspData * error) :=
  match NEFSBPfdDelete t with
  | PfdUdr => nefSBUDRPFDDelete t
  | PfdNil => go_panic "call of nil function"
  end.

(** [updatePfdTransOnRsp]: the applications the UDR refused leave the
    transaction and are reported; an error when none is left. *)
Definition updatePfdTransOnRsp (rsp : gmap string nefPFDSBRspData)
    (pfdTrans : PfdManagement) : PfdManagement * error :=
  let m := fold_left (λ m kv,
    match failure_reason kv.2 with
    | Some reason =>
        pfdm_set_PfdReports (generatePfdReport kv.1 reason (PfdReports m))
          (pfdm_set_PfdDatas (delete kv.1 (PfdDatas m)) m)
    | None => m
    end) (map_range ["updatePfdTransOnRsp"] rsp) pfdTrans in
  if bool_decide (size (PfdDatas m) = 0%nat) then (m, errors_New pfdAppsFailed)
  else (m, nil_err).

(** Writing through the pointer [af.pfdtrans[transID]]. *)
Definition put_trans (key tid : string) (t : afPfdTransaction) : GoM ctx unit :=
  af ← get_af key;
  put_af key (af_set_pfdtrans (<[tid := t]> (pfdtrans af)) af).

(** ** Operations on an AF *)

Definition trans_location (c : ctx) (af : afData) (tid : string) : string :=
  locationURLPrefixPfd (nef c) +:+ afID af +:+ "/transactions/" +:+ tid.

(** The self link of every application of a transaction. *)
Definition link_apps (loc : string) (d : gmap string PfdData) : gmap string PfdData :=
  fold_left (λ m kv,
    <[kv.1 := pfdd_set_Self (loc +:+ "/applications/" +:+ kv.1) kv.2]> m)
    (map_range ["afAddPFDTransaction"] d) d.

(** [afAddPFDTransaction]: the location, the error, and the request with its
    maps as the call leaves them. *)
Definition afAddPFDTransaction (key : string) (trans : PfdManagement)
    : GoM ctx (string * error * PfdManagement) :=
  c ← go_get;
  af ← get_af key;
  if bool_decide (MaxPfdTransSupport (cfg c) ≤ Z.of_nat (size (pfdtrans af)))
  then mret ("", errors_New "MAX TRANS Created", trans)
  else
    let transIDStr := Itoa (transIDnum af) in
    put_af key (af_set_transIDnum (int_incr (transIDnum af)) af);;
    let aftrans := mkAfPfdTransaction transIDStr trans PfdUdr PfdUdr PfdUdr PfdUdr in
    r ← call_NEFSBPfdPut aftrans trans;
    let '(rsp, err) := r : gmap string nefPFDSBRspData * error in
    if bool_decide (err ≠ nil_err) then mret ("", err, trans)
    else
      let '(trans, err) := updatePfdTransOnRsp rsp trans in
      if bool_decide (err ≠ nil_err) then mret ("", errors_New pfdAppsFailed, trans)
      else
        af ← get_af key;
        let loc := trans_location c af transIDStr in
        let trans := pfdm_set_PfdDatas (link_apps loc (PfdDatas trans)) trans in
        put_trans key transIDStr (trans_set_pfdm (pfdm_set_Self loc trans) aftrans);;
        mret (loc, nil_err, trans).

(** [afUpdatePutPfdApplication]: the last component is the report list. *)
Definition afUpdatePutPfdApplication (key tid appID : string) (pfdData : PfdData)
    (reports : gmap string PfdReport)
    : GoM ctx (nefPFDSBRspData * PfdData * error * gmap string PfdReport) :=
  af ← get_af key;
  match pfdtrans af !! tid with
  | None => mret (pfd_rsp_err 404 pfdNotFound, zero_PfdData, errors_New pfdNotFound, reports)
  | Some pfdTrans =>
      match PfdDatas (pfdManagement pfdTrans) !! appID with
      | None =>
          mret (pfd_rsp_err 404 appNotFound, zero_PfdData, errors_New appNotFound, reports)
      | Some trans =>
          r ← call_NEFSBAppPfdPut pfdTrans pfdData;
          let '(rsp, err) := r : nefPFDSBRspData * error in
          if bool_decide (err ≠ nil_err) then mret (rsp, pfdData, err, reports)
          else
            let '(reports, err) := updatePfdAppOnRsp rsp appID reports in
            if bool_decide (err ≠ nil_err) then mret (rsp, zero_PfdData, err, reports)
            else
              let pfdData := pfdd_set_Self (pfdd_Self trans) pfdData in
              let m := pfdManagement pfdTrans in
              put_trans key tid (trans_set_pfdm
                (pfdm_set_PfdDatas (<[appID := pfdData]> (PfdDatas m)) m) pfdTrans);;
              mret (rsp, pfdData, err, reports)
      end
  end.

(** The loop of [afUpdatePatchPfdApplication] over the PFDs of the request,
    which overwrites those the stored application already has. *)
Definition patch_pfds (new old : gmap string Pfd) : gmap string Pfd :=
  fold_left (λ m kv,
    match m !! kv.1 with
    | Some _ => <[kv.1 := kv.2]> m
    | None => m
    end) (map_range ["afUpdatePatchPfdApplication"] new) old.

Definition afUpdatePatchPfdApplication (key tid appID : string) (pfdData : PfdData)
    (reports : gmap string PfdReport)
    : GoM ctx (nefPFDSBRspData * PfdData * error * gmap string PfdReport) :=
  af ← get_af key;
  match pfdtrans af !! tid with
  | None => mret (pfd_rsp_err 404 pfdNotFound, zero_PfdData, errors_New pfdNotFound, reports)
  | Some pfdTrans =>
      match PfdDatas (pfdManagement pfdTrans) !! appID with
      | None =>
          mret (pfd_rsp_err 404 appNotFound, zero_PfdData, errors_New appNotFound, reports)
      | Some trans =>
          r ← call_NEFSBAppPfdPut pfdTrans pfdData;
          let '(rsp, err) := r : nefPFDSBRspData * error in
          if bool_decide (err ≠ nil_err) then mret (rsp, pfdData, err, reports)
          else
            let '(reports, err) := updatePfdAppOnRsp rsp appID reports in
            if bool_decide (err ≠ nil_err)
            then mret (rsp, zero_PfdData, errors_New pfdAppsFailed, reports)
            else
              (* trans.Pfds is the map of the stored application *)
              let trans := mkPfdData (ExternalAppID trans) (pfdd_Self trans)
                (patch_pfds (Pfds pfdData) (Pfds trans)) (AllowedDelay trans)
                (CachingTime trans) in
              let m := pfdManagement pfdTrans in
              let m := pfdm_set_PfdDatas (<[appID := trans]> (PfdDatas m)) m in
              (* PfdDatas[appID] = pfdData *)
              let pfdData := pfdd_set_Self (pfdd_Self trans) pfdData in
              put_trans key tid (trans_set_pfdm
                (pfdm_set_PfdDatas (<[appID := pfdData]> (PfdDatas m)) m) pfdTrans);;
              mret (rsp, pfdData, err, reports)
      end
  end.

(** [afUpdatePutPfdTransaction]: the updated transaction, the error, and the
    request with its maps as the call leaves them. *)
Definition afUpdatePutPfdTransaction (key tid : string) (trans : PfdManagement)
    : GoM ctx (PfdManagement * error * PfdManagement) :=
  af ← get_af key;
  match pfdtrans af !! tid with
  | None => mret (zero_PfdManagement, errors_New pfdNotFound, trans)
  | Some pfdTrans =>
      let old := pfdManagement pfdTrans in
      match loop_acc (map_range ["afUpdatePutPfdTransaction"; "1"] (PfdDatas trans))
        (λ kv (_ : unit),
          match PfdDatas old !! kv.1 with Some _ => inl tt | None => inr tt end) tt with
      | inr _ => mret (trans, errors_New "Application not present", trans)
      | inl _ =>
          r ← call_NEFSBPfdPut pfdTrans trans;
          let '(rsp, err) := r : gmap string nefPFDSBRspData * error in
          if bool_decide (err ≠ nil_err) then mret (trans, err, trans)
          else
            let '(trans, err) := updatePfdTransOnRsp rsp trans in
            if bool_decide (err ≠ nil_err)
            then mret (zero_PfdManagement, errors_New pfdAppsFailed, trans)
            else
              let datas := fold_left (λ m kv,
                <[kv.1 := pfdd_set_Self
                    (pfdd_Self (default zero_PfdData (PfdDatas old !! kv.1))) kv.2]> m)
                (map_range ["afUpdatePutPfdTransaction"; "2"] (PfdDatas trans))
                (PfdDatas trans) in
              let trans := pfdm_set_PfdDatas datas trans in
              let updPfd := pfdm_set_Self (pfdm_Self old) trans in
              put_trans key tid (trans_set_pfdm updPfd pfdTrans);;
              mret (updPfd, nil_err, trans)
      end
  end.

Definition afDeletePfdTransaction (key tid : string) : GoM ctx (nefPFDSBRspData * error) :=
  af ← get_af key;
  match pfdtrans af !! tid with
  | None => mret (pfd_rsp_err 404 pfdNotFound, errors_New pfdNotFound)
  | Some trans =>
      r ← call_NEFSBPfdDelete trans;
      let '(rsp, err) := r : nefPFDSBRspData * error in
      if bool_decide (err ≠ nil_err)
      then mret (mkNefPFDSBRspData (mkNefSBRspData 400 (pd (result rsp))) (fc rsp), err)
      else
        af ← get_af key;
        put_af key (af_set_pfdtrans (delete tid (pfdtrans af)) af);;
        mret (rsp, err)
  end.

Definition afGetPfdApplication (key tid appID : string)
    : GoM ctx (nefSBRspData * PfdData * error) :=
  af ← get_af key;
  match pfdtrans af !! tid with
  | None => mret (rsp_err 404 pfdNotFound, zero_PfdData, errors_New pfdNotFound)
  | Some transPfd =>
      match PfdDatas (pfdManagement transPfd) !! appID with
      | None => mret (rsp_err 404 appNotFound, zero_PfdData, errors_New appNotFound)
      | Some d => mret (zero_rsp, d, nil_err)
      end
  end.

Definition afDeletePfdApplication (key tid appID : string) : GoM ctx (nefSBRspData * error) :=
  af ← get_af key;
  match pfdtrans af !! tid with
  | None => mret (rsp_err 404 pfdNotFound, errors_New pfdNotFound)
  | Some transPfd =>
      let m := pfdManagement transPfd in
      match PfdDatas m !! appID with
      | None => mret (rsp_err 404 appNotFound, errors_New appNotFound)
      | Some _ =>
          let datas := delete appID (PfdDatas m) in
          put_trans key tid (trans_set_pfdm (pfdm_set_PfdDatas datas m) transPfd);;
          (if bool_decide (size datas = 0%nat) then
             af ← get_af key;
             put_af key (af_set_pfdtrans (delete tid (pfdtrans af)) af)
           else mret tt);;
          mret (zero_rsp, nil_err)
      end
  end.

Definition afGetPfdTransaction (key tid : string)
    : GoM ctx (nefPFDSBRspData * PfdManagement * error) :=
  af ← get_af key;
  match pfdtrans af !! tid with
  | None => mret (pfd_rsp_err 404 pfdNotFound, zero_PfdManagement, errors_New pfdNotFound)
  | Some transPfd =>
      r ← call_NEFSBPfdGet transPfd;
      let '(_, rsp, err) := r : PfdManagement * nefPFDSBRspData * error in
      mret (rsp, pfdManagement transPfd, err)
  end.

Definition afGetPfdTransactionList (key : string)
    : GoM ctx (nefPFDSBRspData * list PfdManagement * error) :=
  af ← get_af key;
  r ← for_acc (map_range ["afGetPfdTransactionList"] (pfdtrans af)) (λ kv acc,
    r ← afGetPfdTransaction key kv.1;
    let '(rsp, transPfd, err) := r : nefPFDSBRspData * PfdManagement * error in
    if bool_decide (err ≠ nil_err) then mret (inr (rsp, acc.2, err))
    else mret (inl (rsp, acc.2 ++ [transPfd]))) (zero_pfd_rsp, []);
  match r with
  | inl (rsp, l) => mret (rsp, l, nil_err)
  | inr out => mret out
  end.

Definition createNewPFDTrans (id : string) (trans : PfdManagement)
    : GoM ctx (string * error * PfdManagement) :=
  err ← nefGetAf id;
  err ← (if bool_decide (err ≠ nil_err) then nefAddAf id else mret nil_err);
  if bool_decide (err ≠ nil_err) then mret ("", err, trans)
  else afAddPFDTransaction id trans.
End pfd.
