(* ===== verification/NefPfdApi.v ===== *)
(** * HTTP handlers of PFD management (nef_nb_pfd_handler.go)

    The handlers on top of the operations of [NefPfd]. *)

From S2P Require Import Prelude Strconv Http NefModel NefSouth NefCore NefTi NefPfd.
From stdpp Require Import prelude gmap strings.
From Stdlib Require Import ZArith.

Local Open Scope Z_scope.

Section pfd_api.
Context {P U D : Type}
  `{PcfPolicyAuthorization P, UdrInfluenceData U, UdrPfdData D, GoEnv, NefHooks}.
Abbreviation ctx := (nefContext P U D).
Abbreviation writer := (ResponseWriter nefPayload).

Definition zero_report : PfdReport := mkPfdReport [] "" None.

(** [sendPFDErrorResponseToAF]: one report for a single application, all
    reports otherwise. *)
Definition sendPFDErrorResponseToAF (w : writer) (rsp : nefSBRspData) (method : string)
    (pfdReports : gmap string PfdReport) : writer :=
  let w := WriteHeader (errorCode rsp) (Header_Set content_type json_utf8 w) in
  let reports := (map_range ["sendPFDErrorResponseToAF"] pfdReports).*2 in
  if bool_decide (method = "SINGLE_APP")
  then Write (PayReport (List.last reports zero_report)) w
  else Write (PayReports reports) w.

(** [nefSBRspData{errorCode: rsp.result.errorCode}]. *)
Definition code_only (rsp : nefPFDSBRspData) : nefSBRspData :=
  mkNefSBRspData (errorCode (result rsp)) zero_ProblemDetails.

Definition ReadAllPFDManagementTransaction (id : string) (w : writer) : GoM ctx writer :=
  err ← nefGetAf id;
  r ← (if bool_decide (err ≠ nil_err) then mret (zero_pfd_rsp, [], nil_err)
       else afGetPfdTransactionList id);
  let '(rsp, pfdTrans, err) := r : nefPFDSBRspData * list PfdManagement * error in
  if bool_decide (err ≠ nil_err) then mret (sendErrorResponseToAF w (code_only rsp))
  else mret (reply_200 (PayPfdms pfdTrans) w).

(** The end of [CreatePFDManagementTransaction]: the reports of the new
    transaction are deleted once they are sent. *)
Definition drop_reports (id : string) : GoM ctx unit :=
  af ← get_af id;
  let tid := Itoa (wrap_int (transIDnum af - 1)) in
  match pfdtrans af !! tid with
  | None => go_panic "nil pointer dereference"
  | Some t =>
      let m := pfdManagement t in
      let reports := fold_left (λ r kv, delete kv.1 r)
        (map_range ["CreatePFDManagementTransaction"] (PfdReports m)) (PfdReports m) in
      put_trans id tid (trans_set_pfdm (pfdm_set_PfdReports reports m) t)
  end.

Definition CreatePFDManagementTransaction (id : string) (body : Body PfdManagement)
    (w : writer) : GoM ctx writer :=
  match body with
  | BodyReadErr => mret (sendCustomeErrorRspToAF w 400 "Failed to read HTTP POST Body")
  | BodyBadJSON => mret (sendCustomeErrorRspToAF w 400 "Failed UnMarshal POST data")
  | BodyOf pfdBody =>
      let pfdBody := pfdm_set_PfdReports ∅ pfdBody in
      c ← go_get;
      let '(pfdBody, resRsp, status) := validateAFPfdManagementData c pfdBody "POST" in
      if negb status then mret (sendErrorResponseToAF w (result resRsp))
      else if bool_decide (size (PfdDatas pfdBody) = 0%nat)
      then mret (sendPFDErrorResponseToAF w (rsp_err 500 pfdAppsFailed) ""
                   (PfdReports pfdBody))
      else
        r ← createNewPFDTrans id pfdBody;
        let '(loc, err3, pfdBody) := r : string * error * PfdManagement in
        if bool_decide (err3 ≠ nil_err) then
          if bool_decide (err3 = Some pfdAppsFailed)
          then mret (sendPFDErrorResponseToAF w (rsp_err 500 pfdAppsFailed) ""
                       (PfdReports pfdBody))
          else mret (sendErrorResponseToAF w
                       (rsp_err 400 "UDR Error in creating PFD transaction"))
        else
          let w := Header_Set "Location" loc (Header_Set content_type json_utf8 w) in
          let w := Write (PayPfdm (pfdm_set_Self loc pfdBody)) (WriteHeader StatusCreated w) in
          drop_reports id;;
          mret w
  end.

Definition ReadPFDManagementTransaction (id tid : string) (w : writer) : GoM ctx writer :=
  ok ← nefGetAf id;
  if bool_decide (ok ≠ nil_err)
  then mret (sendCustomeErrorRspToAF w 404 "Failed to find AF records")
  else
    r ← afGetPfdTransaction id tid;
    let '(rsp, pfdTrans, err) := r : nefPFDSBRspData * PfdManagement * error in
    if bool_decide (err ≠ nil_err) then mret (sendErrorResponseToAF w (code_only rsp))
    else mret (reply_200 (PayPfdm pfdTrans) w).

Definition ReadPFDManagementApplication (id tid appID : string) (w : writer) : GoM ctx writer :=
  ok ← nefGetAf id;
  if bool_decide (ok ≠ nil_err)
  then mret (sendCustomeErrorRspToAF w 404 "Failed to find AF records")
  else
    r ← afGetPfdApplication id tid appID;
    let '(rsp, pfdData, err) := r : nefSBRspData * PfdData * error in
    if bool_decide (err ≠ nil_err) then mret (sendErrorResponseToAF w rsp)
    else mret (reply_200 (PayPfdd pfdData) w).

Definition DeletePFDManagementApplication (id tid appID : string) (w : writer)
    : GoM ctx writer :=
  err ← nefGetAf id;
  if bool_decide (err ≠ nil_err)
  then mret (sendCustomeErrorRspToAF w 404 "Failed to find AF entry")
  else
    r ← afDeletePfdApplication id tid appID;
    let '(rsp, err) := r : nefSBRspData * error in
    if bool_decide (err ≠ nil_err) then mret (sendErrorResponseToAF w rsp)
    else
      nefCheckDeleteAf id;;
      mret (WriteHeader StatusNoContent w).

Definition DeletePFDManagementTransaction (id tid : string) (w : writer) : GoM ctx writer :=
  err ← nefGetAf id;
  if bool_decide (err ≠ nil_err)
  then mret (sendCustomeErrorRspToAF w 404 "Failed to find AF entry")
  else
    r ← afDeletePfdTransaction id tid;
    let '(rsp, err) := r : nefPFDSBRspData * error in
    if bool_decide (err ≠ nil_err) then mret (sendErrorResponseToAF w (code_only rsp))
    else
      nefCheckDeleteAf id;;
      mret (WriteHeader StatusNoContent w).

Definition UpdatePutPFDManagementTransaction (id tid : string) (body : Body PfdManagement)
    (w : writer) : GoM ctx writer :=
  ok ← nefGetAf id;
  if bool_decide (ok = nil_err) then
    match body with
    | BodyReadErr => mret (sendCustomeErrorRspToAF w 400 "Failed to read HTTP PUT Body")
    | BodyBadJSON => mret (sendCustomeErrorRspToAF w 400 "Failed UnMarshal PUT data")
    | BodyOf pfdTrans =>
        let pfdTrans := pfdm_set_PfdReports ∅ pfdTrans in
        c ← go_get;
        let '(pfdTrans, resRsp, status) := validateAFPfdManagementData c pfdTrans "PUT" in
        if negb status then mret (sendErrorResponseToAF w (code_only resRsp))
        else
          r ← afUpdatePutPfdTransaction id tid pfdTrans;
          let '(newPfdTrans, err, pfdTrans) := r : PfdManagement * error * PfdManagement in
          if bool_decide (err ≠ nil_err) then
            if bool_decide (err = Some pfdAppsFailed)
            then mret (sendPFDErrorResponseToAF w
                         (rsp_err 500 "ALL PFD APP FAILED TO PROVISION") ""
                         (PfdReports pfdTrans))
            else mret (sendErrorResponseToAF w
                         (rsp_err 400 "UDR Error in updating PFD transaction"))
          else mret (reply_200 (PayPfdm newPfdTrans) w)
    end
  else mret (sendCustomeErrorRspToAF w 404 "Failed to find AF records").

(** What [UpdatePutPFDManagementApplication] and
    [PatchPFDManagementApplication] do with the outcome of the update. *)
Definition app_update_reply (w : writer) (rsp : nefPFDSBRspData) (newPfdData : PfdData)
    (err : error) (reports : gmap string PfdReport) : writer :=
  if bool_decide (err ≠ nil_err) then
    if bool_decide (err = Some pfdAppsFailed)
    then sendPFDErrorResponseToAF w (rsp_err 500 pfdAppsFailed) "SINGLE_APP" reports
    else sendErrorResponseToAF w
           (rsp_err (errorCode (result rsp)) "UDR Error in updating PFD Application")
  else reply_200 (PayPfdd newPfdData) w.

Definition UpdatePutPFDManagementApplication (id tid appID : string) (body : Body PfdData)
    (w : writer) : GoM ctx writer :=
  ok ← nefGetAf id;
  if bool_decide (ok = nil_err) then
    match body with
    | BodyReadErr => mret (sendCustomeErrorRspToAF w 400 "Failed to read HTTP PUT Body")
    | BodyBadJSON => mret (sendCustomeErrorRspToAF w 400 "Failed UnMarshal PUT data")
    | BodyOf pfdData =>
        let '(rsp, status) := validate_pfds ["UpdatePutPFDManagementApplication"]
                                (Pfds pfdData) in
        if negb status then mret (sendErrorResponseToAF w (code_only rsp))
        else
          r ← afUpdatePutPfdApplication id tid appID pfdData ∅;
          let '(rsp, newPfdData, err, reports) :=
            r : nefPFDSBRspData * PfdData * error * gmap string PfdReport in
          mret (app_update_reply w rsp newPfdData err reports)
    end
  else mret (sendCustomeErrorRspToAF w 404 "Failed to find AF records").

Definition PatchPFDManagementApplication (id tid appID : string) (body : Body PfdData)
    (w : writer) : GoM ctx writer :=
  ok ← nefGetAf id;
  if bool_decide (ok = nil_err) then
    match body with
    | BodyReadErr => mret (sendCustomeErrorRspToAF w 400 "Failed to read HTTP PUT Body")
    | BodyBadJSON => mret (sendCustomeErrorRspToAF w 400 "Failed UnMarshal PUT data")
    | BodyOf pfdData =>
        let '(rsp, status) := validate_pfds ["PatchPFDManagementApplication"]
                                (Pfds pfdData) in
        if negb status then mret (sendErrorResponseToAF w (code_only rsp))
        else
          r ← afUpdatePatchPfdApplication id tid appID pfdData ∅;
          let '(rsp, newPfdData, err, reports) :=
            r : nefPFDSBRspData * PfdData * error * gmap string PfdReport in
          mret (app_update_reply w rsp newPfdData err reports)
    end
  else mret (sendCustomeErrorRspToAF w 404 "Failed to find AF records").
End pfd_api.

(** ** The service: one request at a time *)

(** The requests the router of the NEF dispatches. *)
Inductive nefRequest :=
| ReqTiReadAll (af : string)
| ReqTiCreate (af : string) (body : Body TrafficInfluSub)
| ReqTiRead (af sub : string)
| ReqTiPut (af sub : string) (body : Body TrafficInfluSub)
| ReqTiPatch (af sub : string) (body : Body TrafficInfluSubPatch)
| ReqTiDelete (af sub : string)
| ReqPfdReadAll (af : string)
| ReqPfdCreate (af : string) (body : Body PfdManagement)
| ReqPfdRead (af tid : string)
| ReqPfdPut (af tid : string) (body : Body PfdManagement)
| ReqPfdDelete (af tid : string)
| ReqAppRead (af tid app : string)
| ReqAppDelete (af tid app : string)
| ReqAppPut (af tid app : string) (body : Body PfdData)
| ReqAppPatch (af tid app : string) (body : Body PfdData)
| ReqSmfNotify (body : Body NsmfEventExposureNotification).

Section service.
Context {P U D : Type}
  `{PcfPolicyAuthorization P, UdrInfluenceData U, UdrPfdData D, NefHooks}.
Abbreviation ctx := (nefContext P U D).
Abbreviation writer := (ResponseWriter nefPayload).

(** The handler of each route ([NEFRoutes] and [NewNEFRouter]). *)
Definition serve `{E : GoEnv} (r : nefRequest) (w : writer) : GoM ctx writer :=
  match r with
  | ReqTiReadAll af => ReadAllTrafficInfluenceSubscription af w
  | ReqTiCreate af b => CreateTrafficInfluenceSubscription af b w
  | ReqTiRead af s => ReadTrafficInfluenceSubscription af s w
  | ReqTiPut af s b => UpdatePutTrafficInfluenceSubscription af s b w
  | ReqTiPatch af s b => UpdatePatchTrafficInfluenceSubscription af s b w
  | ReqTiDelete af s => DeleteTrafficInfluenceSubscription af s w
  | ReqPfdReadAll af => ReadAllPFDManagementTransaction af w
  | ReqPfdCreate af b => CreatePFDManagementTransaction af b w
  | ReqPfdRead af t => ReadPFDManagementTransaction af t w
  | ReqPfdPut af t b => UpdatePutPFDManagementTransaction af t b w
  | ReqPfdDelete af t => DeletePFDManagementTransaction af t w
  | ReqAppRead af t a => ReadPFDManagementApplication af t a w
  | ReqAppDelete af t a => DeletePFDManagementApplication af t a w
  | ReqAppPut af t a b => UpdatePutPFDManagementApplication af t a b w
  | ReqAppPatch af t a b => PatchPFDManagementApplication af t a b w
  | ReqSmfNotify b => r ← NotifySmfUPFEvent b w; mret r.1
  end.

(** One request, served in some environment. *)
Inductive nef_step (c : ctx) : nefRequest → ctx → Prop :=
| nef_step_intro (E : GoEnv) r : nef_step c r (exec (serve r new_writer) c).

(** The states reached from [c0] by serving [n] requests that satisfy [ok]. *)
Inductive nef_reach (ok : nefRequest → Prop) (c0 : ctx) : nat → ctx → Prop :=
| nef_reach_init : nef_reach ok c0 0 c0
| nef_reach_step n c r c' :
    nef_reach ok c0 n c → ok r → nef_step c r c' → nef_reach ok c0 (S n) c'.
End service.

(** ** A concrete NEF

    A configuration, the southbound stubs, a few requests and the states they
    lead to, on which the hypotheses of the theorems are checked. *)
Module NefScenario.

#[export] Instance scen_hooks : NefHooks := production_hooks.
#[export] Instance scen_production : Production.
Proof. by split. Qed.

Definition scen_cfg : Config :=
  mkConfig "localhost" "/3gpp-traffic-influence/v1/" "/3gpp-pfd-management/v1/" 2 2 2 11111 1000
    "/notify/upf" "NEF" ":8091" (mkHTTP2Config "" "" "" "")
    [CfgMap {["id" := CfgString "svc1"; "dnn" := CfgString "dnn1"; "snssai" := CfgString "01"]}]
    false.

Abbreviation scen_ctx := (nefContext PcfClientStub UdrClientStub UdrPfdClientStub).

Definition scen_nef : nefData PcfClientStub UdrClientStub UdrPfdClientStub :=
  match nefCreate scen_cfg (NewPCFClient 4242) NewUDRClient NewUDRPfdClient with
  | inl d => d
  | inr _ => mkNefData 0 "" "" (NewPCFClient 0) NewUDRClient NewUDRPfdClient 0 ∅ ""
  end.
Definition scen_c0 : scen_ctx := mkNefContext scen_cfg scen_nef.

(** A subscription for one UE, and one for a group of UEs. *)
Definition scen_ti_ue : TrafficInfluSub :=
  mkTrafficInfluSub "svc1" "app1" "trans1" "" (mkSnssai 0 "") "" ["UP_PATH_CHANGE"] "" "10.0.0.1"
    "" "" "EARLY" "http://af/notify" (mkWebsockNotifConfig "" false) "" None None None None None ""
    false false false.
Definition scen_ti_group : TrafficInfluSub :=
  mkTrafficInfluSub "svc1" "app2" "trans2" "" (mkSnssai 0 "") "group" ["UP_PATH_CHANGE"] "" ""
    "" "" "EARLY" "http://af/notify2" (mkWebsockNotifConfig "" false) "" None None None None None ""
    false false false.

Definition scen_patch : TrafficInfluSubPatch :=
  mkTrafficInfluSubPatch true None None None None (Some ["zone"]).

(** A transaction with one application. *)
Definition scen_pfds : gmap string Pfd := {["pfd1" := mkPfd "pfd1" [] ["http://x"] []]}.
Definition scen_app (id : string) : PfdData := mkPfdData id "" scen_pfds None None.
Definition scen_pfdm (id : string) : PfdManagement :=
  mkPfdManagement "" None {[id := scen_app id]} ∅.

Definition scen_run (r : nefRequest) (c : scen_ctx) : scen_ctx := exec (serve r new_writer) c.

Definition scen_create : nefRequest := ReqTiCreate "af1" (BodyOf scen_ti_ue).
Definition scen_c1 : scen_ctx := scen_run scen_create scen_c0.
Definition scen_pfd_create : nefRequest := ReqPfdCreate "af1" (BodyOf (scen_pfdm "video")).
Definition scen_c2 : scen_ctx := scen_run scen_pfd_create scen_c1.

Lemma scen_reach1 (ok : nefRequest → Prop) : ok scen_create → nef_reach ok scen_c0 1 scen_c1.
Proof. intros. eapply nef_reach_step; [apply nef_reach_init|done|apply nef_step_intro]. Qed.

Lemma scen_reach2 (ok : nefRequest → Prop) :
  ok scen_create → ok scen_pfd_create → nef_reach ok scen_c0 2 scen_c2.
Proof. intros. eapply nef_reach_step; [by apply scen_reach1|done|apply nef_step_intro]. Qed.
End NefScenario.
