(* ===== verification/NefSpec.v ===== *)
(** * Abstract specification of the NEF service

    [nef_effect] describes, without control flow, every change of state a
    request may cause: an AF is registered or removed, a subscription is
    created, updated or deleted together with the southbound call that goes
    with it, and likewise for PFD transactions.  [NefTiFacts] and
    [NefPfdFacts] prove that the handlers implement it: serving a request is
    at most three effects in a row. *)

From S2P Require Import Prelude Strconv Http NefModel NefSouth NefCore NefTi NefPfd.
From stdpp Require Import prelude gmap strings relations.
From Stdlib Require Import ZArith.

Local Open Scope Z_scope.

(** The session identifier kept for an answer of the PCF. *)
Definition kept_session (id : string) (resp : PcfPolicyResponse) : string :=
  if is_failure (pcf_ResponseCode resp) then "" else id.

(** The subscriptions entered after a successful call of the PCF or the UDR. *)
Definition new_pcf_sub (sid : string) (ti : TrafficInfluSub) (loc corr sess : string)
    : afSubscription :=
  mkAfSubscription sid (ti_set_Self loc ti) sess "" corr (ti_NotificationDestination ti)
    SBPcf SBPcf SBPcf SBPcf.
Definition new_udr_sub (sid : string) (ti : TrafficInfluSub) (loc corr : string)
    : afSubscription :=
  mkAfSubscription sid (ti_set_Self loc ti) "" "" corr (ti_NotificationDestination ti)
    SBUdr SBUdr SBUdr SBUdr.

Section spec.
Context {P U D : Type}
  `{PcfPolicyAuthorization P, UdrInfluenceData U, UdrPfdData D}.
Abbreviation ctx := (nefContext P U D).
Implicit Types (c : ctx) (af : afData) (s : afSubscription).

(** The state with an AF entry replaced. *)
Definition upd_af (key : string) (af : afData) (c : ctx) : ctx :=
  set_nef (λ d, set_afs (<[key := af]> (afs d)) d) c.
Definition with_corr (n : Z) (c : ctx) : ctx := set_nef (set_corrID n) c.
Definition with_pcf (p : P) (c : ctx) : ctx := set_nef (set_pcf p) c.
Definition with_udr (u : U) (c : ctx) : ctx := set_nef (set_udr u) c.
Definition with_udrPfd (x : D) (c : ctx) : ctx := set_nef (set_udrPfd x) c.

(** The next correlation identifier and the counter after it is taken. *)
Definition corr_text (c : ctx) : string := Itoa (wrap_int (corrID (nef c))).
Definition corr_next (c : ctx) : Z := uint_incr (corrID (nef c)).

Definition bump_sub (af : afData) : afData := af_set_subIDnum (int_incr (subIDnum af)) af.
Definition add_sub (sid : string) (s : afSubscription) (af : afData) : afData :=
  af_set_subs (<[sid := s]> (subs af)) af.
Definition bump_trans (af : afData) : afData :=
  af_set_transIDnum (int_incr (transIDnum af)) af.
Definition add_trans (tid : string) (t : afPfdTransaction) (af : afData) : afData :=
  af_set_pfdtrans (<[tid := t]> (pfdtrans af)) af.

(** There is room for one more subscription, or transaction. *)
Definition sub_room (c : ctx) (af : afData) : Prop :=
  Z.of_nat (size (subs af)) < MaxSubSupport (cfg c).
Definition trans_room (c : ctx) (af : afData) : Prop :=
  Z.of_nat (size (pfdtrans af)) < MaxPfdTransSupport (cfg c).

#[export] Instance sub_room_dec c af : Decision (sub_room c af).
Proof. unfold sub_room. apply _. Defined.
#[export] Instance trans_room_dec c af : Decision (trans_room c af).
Proof. unfold trans_room. apply _. Defined.

(** The UDR client after the PFDs of some applications are written or
    deleted, in whatever order and whether or not it reports errors. *)
Inductive udr_writes : list string → D → D → Prop :=
| udr_writes_nil x : udr_writes [] x x
| udr_writes_cons pa r x x' l x'' :
    UdrPfdDataCreate pa x = (r, x') → udr_writes l x' x'' →
    udr_writes (pa_AppID pa :: l) x x''.
Inductive udr_deletes : list string → D → D → Prop :=
| udr_deletes_nil x : udr_deletes [] x x
| udr_deletes_cons app r x x' l x'' :
    UdrPfdDataDelete app x = (r, x') → udr_deletes l x' x'' →
    udr_deletes (app :: l) x x''.

(** The external identifiers of the applications of a transaction. *)
Definition ext_ids (d : gmap string PfdData) : gset string :=
  list_to_set (ExternalAppID <$> (map_to_list d).*2).

(** No transaction of any AF holds the application. *)
Definition app_unused (appID : string) (c : ctx) : Prop :=
  ∀ k af tid t, afs (nef c) !! k = Some af → pfdtrans af !! tid = Some t →
    PfdDatas (pfdManagement t) !! appID = None.

(** The effects; [ok] constrains the applications that requests supply. *)
Inductive nef_effect (ok : string → PfdData → Prop) (c : ctx) : ctx → Prop :=
| eff_none : nef_effect ok c c
| eff_add_af id n :
    afs (nef c) !! id = None →
    Z.of_nat (size (afs (nef c))) < MaxAFSupport (cfg c) →
    nef_effect ok c (set_nef (set_afCount n) (upd_af id (afCreate (cfg c) id) c))
| eff_del_af id af :
    afs (nef c) !! id = Some af → subs af = ∅ →
    nef_effect ok c (set_nef (λ d, set_afs (delete id (afs d)) d) c)
(* a creation that stops before the southbound call *)
| eff_bump key af n :
    afs (nef c) !! key = Some af → sub_room c af →
    n = corrID (nef c) ∨ n = corr_next c →
    nef_effect ok c (with_corr n (upd_af key (bump_sub af) c))
| eff_post_pcf key af ti body id resp err p' :
    afs (nef c) !! key = Some af → sub_room c af → is_pcf_request ti = true →
    PolicyAuthorizationCreate body (pcfClient (nef c)) = ((id, resp, err), p') →
    let sid := Itoa (subIDnum af) in
    let sub := new_pcf_sub sid ti (sub_location c af sid) (corr_text c)
                 (kept_session id resp) in
    let af' := match err with
               | None => add_sub sid sub (bump_sub af) | Some _ => bump_sub af end in
    nef_effect ok c (with_pcf p' (with_corr (corr_next c) (upd_af key af' c)))
| eff_post_udr key af ti body resp err u' :
    afs (nef c) !! key = Some af → sub_room c af → is_pcf_request ti = false →
    is_udr_request ti = true →
    UdrInfluenceDataCreate body "" (udrClient (nef c)) = ((resp, err), u') →
    let sid := Itoa (subIDnum af) in
    let corr := if wants_up_path_change ti then corr_text c else "" in
    let n := if wants_up_path_change ti then corr_next c else corrID (nef c) in
    let sub := new_udr_sub sid ti (sub_location c af sid) corr in
    let af' := match err with
               | None => add_sub sid sub (bump_sub af) | Some _ => bump_sub af end in
    nef_effect ok c (with_udr u' (with_corr n (upd_af key af' c)))
| eff_put_udr key af sid s ti body resp err u' :
    afs (nef c) !! key = Some af → subs af !! sid = Some s → NEFSBPut s = SBUdr →
    UdrInfluenceDataCreate body (iid s) (udrClient (nef c)) = ((resp, err), u') →
    let n := if wants_up_path_change ti then corr_next c else corrID (nef c) in
    let s1 := if wants_up_path_change ti then sub_set_corr (corr_text c) s else s in
    let s2 := match err with
              | None => sub_set_ti (ti_set_Self (ti_Self (sub_ti s)) ti) s1
              | Some _ => s1 end in
    nef_effect ok c (with_udr u' (with_corr n (upd_af key (add_sub sid s2 af) c)))
| eff_patch key af sid s t' p' u' :
    afs (nef c) !! key = Some af → subs af !! sid = Some s →
    ti_Self t' = ti_Self (sub_ti s) →
    (NEFSBPatch s = SBPcf ∧ u' = udrClient (nef c) ∧
     ∃ body r, PolicyAuthorizationUpdate body (appSessionID s) (pcfClient (nef c)) = (r, p'))
    ∨ (NEFSBPatch s = SBUdr ∧ p' = pcfClient (nef c) ∧
       ∃ body r, UdrInfluenceDataUpdate body (iid s) (udrClient (nef c)) = (r, u')) →
    nef_effect ok c (with_pcf p' (with_udr u' (upd_af key (add_sub sid (sub_set_ti t' s) af) c)))
| eff_delete key af sid s err p' u' :
    afs (nef c) !! key = Some af → subs af !! sid = Some s →
    (NEFSBDelete s = SBPcf ∧ u' = udrClient (nef c) ∧
     ∃ r, PolicyAuthorizationDelete (appSessionID s) (pcfClient (nef c)) = ((r, err), p'))
    ∨ (NEFSBDelete s = SBUdr ∧ p' = pcfClient (nef c) ∧
       ∃ r, UdrInfluenceDataDelete (iid s) (udrClient (nef c)) = ((r, err), u')) →
    let af' := match err with
               | None => af_set_subs (delete sid (subs af)) af | Some _ => af end in
    nef_effect ok c (with_pcf p' (with_udr u' (upd_af key af' c)))
(* PFD transactions *)
| eff_pfd_get x' :
    rtc (λ x x', ∃ app r, UdrPfdDataGet app x = (r, x')) (udrPfdClient (nef c)) x' →
    nef_effect ok c (with_udrPfd x' c)
| eff_pfd_bump key af apps x' :
    afs (nef c) !! key = Some af → trans_room c af →
    udr_writes apps (udrPfdClient (nef c)) x' →
    nef_effect ok c (with_udrPfd x' (upd_af key (bump_trans af) c))
| eff_pfd_create key af t apps x' :
    afs (nef c) !! key = Some af → trans_room c af →
    udr_writes apps (udrPfdClient (nef c)) x' →
    let tid := Itoa (transIDnum af) in
    let loc := trans_location c af tid in
    transID t = tid → pfdm_Self (pfdManagement t) = loc →
    NEFSBPfdGet t = PfdUdr ∧ NEFSBPfdPut t = PfdUdr ∧
    NEFSBAppPfdPut t = PfdUdr ∧ NEFSBPfdDelete t = PfdUdr →
    PfdDatas (pfdManagement t) ≠ ∅ →
    (∀ a d, PfdDatas (pfdManagement t) !! a = Some d →
       pfdd_Self d = loc +:+ "/applications/" +:+ a ∧ ExternalAppID d ∈ apps ∧
       app_unused a c ∧ ok a d) →
    nef_effect ok c (with_udrPfd x' (upd_af key (add_trans tid t (bump_trans af)) c))
| eff_pfd_update key af tid t m' apps x' :
    afs (nef c) !! key = Some af → pfdtrans af !! tid = Some t →
    udr_writes apps (udrPfdClient (nef c)) x' →
    let m := pfdManagement t in
    pfdm_Self m' = pfdm_Self m → PfdDatas m' ≠ ∅ →
    (∀ a d', PfdDatas m' !! a = Some d' →
       ∃ d, PfdDatas m !! a = Some d ∧
         (d' = d ∨ pfdd_Self d' = pfdd_Self d ∧ ExternalAppID d' ∈ apps ∧ ok a d')) →
    nef_effect ok c (with_udrPfd x' (upd_af key (add_trans tid (trans_set_pfdm m' t) af) c))
| eff_pfd_reports key af tid t r' :
    afs (nef c) !! key = Some af → pfdtrans af !! tid = Some t →
    nef_effect ok c (upd_af key (add_trans tid
      (trans_set_pfdm (pfdm_set_PfdReports r' (pfdManagement t)) t) af) c)
| eff_pfd_writes apps x' :
    udr_writes apps (udrPfdClient (nef c)) x' → nef_effect ok c (with_udrPfd x' c)
| eff_pfd_delete key af tid t apps x' :
    afs (nef c) !! key = Some af → pfdtrans af !! tid = Some t →
    list_to_set apps ⊆ ext_ids (PfdDatas (pfdManagement t)) →
    udr_deletes apps (udrPfdClient (nef c)) x' →
    nef_effect ok c (with_udrPfd x'
      (upd_af key (af_set_pfdtrans (delete tid (pfdtrans af)) af) c))
| eff_pfd_delete_fail key af tid t apps x' app r e x1 x2 :
    afs (nef c) !! key = Some af → pfdtrans af !! tid = Some t →
    list_to_set apps ⊆ ext_ids (PfdDatas (pfdManagement t)) →
    udr_deletes apps (udrPfdClient (nef c)) x' →
    UdrPfdDataDelete app x1 = ((r, Some e), x2) →
    nef_effect ok c (with_udrPfd x' c)
| eff_pfd_drop key af tid t :
    afs (nef c) !! key = Some af → pfdtrans af !! tid = Some t →
    nef_effect ok c (upd_af key (af_set_pfdtrans (delete tid (pfdtrans af)) af) c).
End spec.
