(* ===== verification/NefTiFacts.v ===== *)
(** * Behaviour of the traffic influence operations

    For each operation of [NefTi], the value it returns and the state it
    leaves, branch by branch; and that the handlers implement [NefSpec]. *)

From S2P Require Import Prelude Strconv Http NefModel NefSouth NefCore NefTi NefPfd NefSpec.
From stdpp Require Import prelude gmap strings relations.
From Stdlib Require Import ZArith.

Local Open Scope Z_scope.

Section ti_facts.
Context {P U D : Type}
  `{PcfPolicyAuthorization P, UdrInfluenceData U, UdrPfdData D, GoEnv}.
Abbreviation ctx := (nefContext P U D).
Implicit Types (c : ctx) (af : afData) (s : afSubscription).


Lemma get_af_run key c af :
  afs (nef c) !! key = Some af → get_af key c = (Ret af, c).
Proof. intros Haf. unfold get_af. go_unfold. by rewrite Haf. Qed.

Lemma get_af_none key c :
  afs (nef c) !! key = None → get_af key c = (Panic "nil pointer dereference", c).
Proof. intros Haf. unfold get_af. go_unfold. by rewrite Haf. Qed.

Lemma nefGetAf_run id c :
  nefGetAf id c = (Ret (match afs (nef c) !! id with
                        | Some _ => nil_err
                        | None => errors_New "AF entry not present" end), c).
Proof. unfold nefGetAf. go_unfold. by destruct (afs (nef c) !! id). Qed.

Lemma put_sub_run key sid s c af :
  afs (nef c) !! key = Some af →
  put_sub key sid s c = (Ret tt, upd_af key (af_set_subs (<[sid := s]> (subs af)) af) c).
Proof.
  intros Haf. unfold put_sub. rewrite (bind_ret _ _ _ _ _ (get_af_run _ _ _ Haf)). done.
Qed.

Lemma call_pcf_run {A} (f : P → A * P) c a p' :
  f (pcfClient (nef c)) = (a, p') → call_pcf f c = (Ret a, set_nef (set_pcf p') c).
Proof. intros Hf. unfold call_pcf. go_unfold. by rewrite Hf. Qed.

Lemma call_udr_run {A} (f : U → A * U) c a u' :
  f (udrClient (nef c)) = (a, u') → call_udr f c = (Ret a, set_nef (set_udr u') c).
Proof. intros Hf. unfold call_udr. go_unfold. by rewrite Hf. Qed.

(** Looking up services in the configuration changes nothing. *)
Lemma service_slice_read_only entries id : read_only (service_slice (P:=P) (U:=U) (D:=D) entries id).
Proof. intros I. unfold service_slice, assert_string. solve_preserves. Qed.

(** Every configured service has a name, a DNN and a slice. *)
Definition services_ok (entries : list cfgEntry) : Prop :=
  Forall (λ e, match e with
               | CfgMap m => ∃ id dnn sd, m !! "id" = Some (CfgString id) ∧
                   m !! "dnn" = Some (CfgString dnn) ∧ m !! "snssai" = Some (CfgString sd)
               | CfgNotMap => False
               end) entries.

Lemma service_slice_ok entries id c :
  services_ok entries → ∃ r, service_slice entries id c = (Ret r, c).
Proof.
  intros Hok. unfold service_slice. set (body := λ (e : cfgEntry) (acc : string * Snssai), _).
  cut (∀ acc, ∃ r, for_acc (R := unit) entries body acc c = (Ret (inl r), c)).
  { intros Hl. destruct (Hl ("", mkSnssai 0 "")) as [r Hr]. exists r.
    by rewrite (bind_ret _ _ _ _ _ Hr). }
  induction Hok as [|e l He _ IH]; intros acc; [by exists acc|].
  destruct e as [m|]; [|done]. destruct He as (id' & dnn & sd & Hid & Hdnn & Hsd).
  assert (∃ acc', body (CfgMap m) acc c = (Ret (inl acc'), c)) as [acc' Hb].
  { unfold body, assert_string. rewrite Hid, Hdnn, Hsd. go_unfold. case_bool_decide; by eexists. }
  cbn [for_acc]. rewrite (bind_ret _ _ _ _ _ Hb). apply IH.
Qed.

(** ** Southbound calls *)

Lemma take_corrID_run c :
  take_corrID c = (Ret (corr_text c), with_corr (corr_next c) c).
Proof. done. Qed.

(** Creating a session at the PCF: the correlation counter moves on, and
    either the configuration is malformed and the PCF is not called, or its
    answer is handed up. *)
Lemma nefSBPCFPost_run s ti c :
  (¬ services_ok (AfServiceIDs (cfg c)) ∧
   ∃ e, nefSBPCFPost s ti c = (Panic e, with_corr (corr_next c) c)) ∨
  ∃ body id resp err p',
    PolicyAuthorizationCreate body (pcfClient (nef c)) = ((id, resp, err), p') ∧
    nefSBPCFPost s ti c =
      (Ret (match err with
            | None => if is_failure (pcf_ResponseCode resp) then sub_set_corr (corr_text c) s
                      else sub_set_session id (sub_set_corr (corr_text c) s)
            | Some _ => sub_set_corr (corr_text c) s end,
            sb_rsp (pcf_ResponseCode resp) (pcf_Pd resp) err, err),
       with_pcf p' (with_corr (corr_next c) c)).
Proof.
  unfold nefSBPCFPost. rewrite (bind_ret _ _ _ _ _ (take_corrID_run c)).
  set (c1 := with_corr (corr_next c) c).
  rewrite (bind_ret go_get _ c1 c1 c1) by done.
  destruct (read_only_run _ c1 (service_slice_read_only (AfServiceIDs (cfg c1))
    (ti_AfServiceID ti))) as [[svc Hsvc]|[e He]].
  2: { left. split; [|exists e; by rewrite (bind_panic _ _ _ _ _ He)].
       intros Hok. eapply service_slice_ok in Hok as [r Hr]. by rewrite Hr in He. }
  right. rewrite (bind_ret _ _ _ _ _ Hsvc).
  match goal with |- context [PolicyAuthorizationCreate ?b] => set (body := b) end.
  destruct (PolicyAuthorizationCreate body (pcfClient (nef c1)))
    as [[[id resp] err] p'] eqn:Hcall.
  exists body, id, resp, err, p'. split; [done|].
  rewrite (bind_ret _ _ _ _ _ (call_pcf_run _ _ _ _ Hcall)).
  destruct err; simpl; [done|]. by destruct (is_failure _).
Qed.

(** Writing influence data at the UDR. *)
Lemma nefSBUDRPut_run s ti c :
  let n := if wants_up_path_change ti then corr_next c else corrID (nef c) in
  let s' := if wants_up_path_change ti then sub_set_corr (corr_text c) s else s in
  (¬ services_ok (AfServiceIDs (cfg c)) ∧ ∃ e, nefSBUDRPut s ti c = (Panic e, c)) ∨
  ∃ body resp err u',
    UdrInfluenceDataCreate body (iid s) (udrClient (nef c)) = ((resp, err), u') ∧
    nefSBUDRPut s ti c =
      (Ret (s', sb_rsp (udr_ResponseCode resp) (udr_Pd resp) err, err),
       with_udr u' (with_corr n c)).
Proof.
  intros n s'. unfold nefSBUDRPut. rewrite (bind_ret go_get _ c c c) by done.
  destruct (read_only_run _ c (service_slice_read_only (AfServiceIDs (cfg c))
    (ti_AfServiceID ti))) as [[svc Hsvc]|[e He]].
  2: { left. split; [|exists e; by rewrite (bind_panic _ _ _ _ _ He)].
       intros Hok. eapply service_slice_ok in Hok as [r Hr]. by rewrite Hr in He. }
  right. rewrite (bind_ret _ _ _ _ _ Hsvc).
  assert ((if wants_up_path_change ti
           then corr ← take_corrID; mret (sub_set_corr corr s, corr)
           else mret (s, "")) c =
          (Ret (s', if wants_up_path_change ti then corr_text c else ""),
           with_corr n c)) as Hcorr.
  { unfold s', n. destruct (wants_up_path_change ti); [done|]. by destruct c as [? []]. }
  rewrite (bind_ret _ _ _ _ _ Hcorr).
  match goal with |- context [UdrInfluenceDataCreate ?b] => set (body := b) end.
  assert (iid s' = iid s) as Hiid by (unfold s'; by destruct (wants_up_path_change ti)).
  destruct (UdrInfluenceDataCreate body (iid s) (udrClient (nef c)))
    as [[resp err] u'] eqn:Hcall.
  exists body, resp, err, u'. split; [done|]. rewrite Hiid.
  by rewrite (bind_ret _ _ (with_corr n c) _ _ (call_udr_run _ (with_corr n c) _ _ Hcall)).
Qed.

Lemma call_NEFSBPatch_run s tisp c :
  NEFSBPatch s ≠ SBNil →
  ∃ rsp err p' u', call_NEFSBPatch s tisp c = (Ret (rsp, err), with_pcf p' (with_udr u' c)) ∧
    ((NEFSBPatch s = SBPcf ∧ u' = udrClient (nef c) ∧ ∃ body r,
       PolicyAuthorizationUpdate body (appSessionID s) (pcfClient (nef c)) = ((r, err), p'))
     ∨ (NEFSBPatch s = SBUdr ∧ p' = pcfClient (nef c) ∧ ∃ body r,
       UdrInfluenceDataUpdate body (iid s) (udrClient (nef c)) = ((r, err), u'))).
Proof.
  intros Hnil. unfold call_NEFSBPatch. destruct (NEFSBPatch s); [done|..].
  - unfold nefSBPCFPatch. rewrite (bind_ret go_get _ c c c) by done.
    match goal with |- context [PolicyAuthorizationUpdate ?b] => set (body := b) end.
    destruct (PolicyAuthorizationUpdate body (appSessionID s) (pcfClient (nef c)))
      as [[resp err] p'] eqn:Hcall.
    eexists _, err. exists p', (udrClient (nef c)). split; [|left; eauto].
    rewrite (bind_ret _ _ _ _ _ (call_pcf_run _ _ _ _ Hcall)). by destruct c as [? []].
  - unfold nefSBUDRPatch.
    match goal with |- context [UdrInfluenceDataUpdate ?b] => set (body := b) end.
    destruct (UdrInfluenceDataUpdate body (iid s) (udrClient (nef c)))
      as [[resp err] u'] eqn:Hcall.
    eexists _, err. exists (pcfClient (nef c)), u'. split; [|right; eauto].
    rewrite (bind_ret _ _ _ _ _ (call_udr_run _ _ _ _ Hcall)). by destruct c as [? []].
Qed.

Lemma call_NEFSBDelete_run s c :
  NEFSBDelete s ≠ SBNil →
  ∃ rsp err p' u', call_NEFSBDelete s c = (Ret (rsp, err), with_pcf p' (with_udr u' c)) ∧
    ((NEFSBDelete s = SBPcf ∧ u' = udrClient (nef c) ∧ ∃ r,
       PolicyAuthorizationDelete (appSessionID s) (pcfClient (nef c)) = ((r, err), p'))
     ∨ (NEFSBDelete s = SBUdr ∧ p' = pcfClient (nef c) ∧ ∃ r,
       UdrInfluenceDataDelete (iid s) (udrClient (nef c)) = ((r, err), u'))).
Proof.
  intros Hnil. unfold call_NEFSBDelete. destruct (NEFSBDelete s); [done|..].
  - unfold nefSBPCFDelete.
    destruct (PolicyAuthorizationDelete (appSessionID s) (pcfClient (nef c)))
      as [[resp err] p'] eqn:Hcall.
    eexists _, err. exists p', (udrClient (nef c)). split; [|left; eauto].
    rewrite (bind_ret _ _ _ _ _ (call_pcf_run _ _ _ _ Hcall)). by destruct c as [? []].
  - unfold nefSBUDRDelete.
    destruct (UdrInfluenceDataDelete (iid s) (udrClient (nef c)))
      as [[resp err] u'] eqn:Hcall.
    eexists _, err. exists (pcfClient (nef c)), u'. split; [|right; eauto].
    rewrite (bind_ret _ _ _ _ _ (call_udr_run _ _ _ _ Hcall)). by destruct c as [? []].
Qed.

(** ** Updates of an AF entry *)

Lemma upd_af_upd key af1 af2 c : upd_af key af2 (upd_af key af1 c) = upd_af key af2 c.
Proof. unfold upd_af, set_nef, set_afs; simpl. by rewrite insert_insert_eq. Qed.

Lemma upd_af_with_corr key af n c :
  upd_af key af (with_corr n c) = with_corr n (upd_af key af c).
Proof. done. Qed.

Lemma upd_af_with_pcf key af p c :
  upd_af key af (with_pcf p c) = with_pcf p (upd_af key af c).
Proof. done. Qed.

Lemma upd_af_with_udr key af u c :
  upd_af key af (with_udr u c) = with_udr u (upd_af key af c).
Proof. done. Qed.

Lemma upd_af_lookup key af c : afs (nef (upd_af key af c)) !! key = Some af.
Proof. simpl. apply lookup_insert_eq. Qed.

Lemma upd_af_id key af c : afs (nef c) !! key = Some af → upd_af key af c = c.
Proof.
  intros Haf. destruct c as [cf [? ? ? ? ? ? ? m ?]]; simpl in *.
  unfold upd_af, set_nef, set_afs; simpl. by rewrite insert_id.
Qed.

(** ** Creating a subscription *)

Lemma afAddSubscription_full key ti c af :
  afs (nef c) !! key = Some af → ¬ sub_room c af →
  afAddSubscription key ti c =
    (Ret ("", rsp_err 400 "MAX Subscription Reached", errors_New "MAX SUBS Created"), c).
Proof.
  intros Haf Hroom. unfold sub_room in Hroom. unfold afAddSubscription.
  rewrite (bind_ret go_get _ c c c) by done.
  rewrite (bind_ret _ _ _ _ _ (get_af_run _ _ _ Haf)).
  by rewrite bool_decide_eq_true_2 by lia.
Qed.

(** The common tail of a creation that got an answer from the south. *)
Lemma afAddSubscription_room key ti c af (r : outcome (afSubscription * nefSBRspData * error)) c2 :
  afs (nef c) !! key = Some af → sub_room c af →
  let sid := Itoa (subIDnum af) in
  let afsub := new_afSubscription sid ti in
  (if is_pcf_request ti then
     r ← nefSBPCFPost afsub ti;
     let '(s, rsp, err) := r : afSubscription * nefSBRspData * error in
     mret (sub_set_callbacks (ti_NotificationDestination ti) SBPcf s, rsp, err)
   else if is_udr_request ti then
     r ← nefSBUDRPost afsub ti;
     let '(s, rsp, err) := r : afSubscription * nefSBRspData * error in
     mret (sub_set_callbacks (ti_NotificationDestination ti) SBUdr s, rsp, err)
   else mret (afsub, rsp_err 400 "Invalid Request", errors_New "Invalid AF Request"))
    (upd_af key (bump_sub af) c) = (r, c2) →
  afs (nef c2) !! key = Some (bump_sub af) →
  let loc := sub_location c af sid in
  afAddSubscription key ti c =
    match r with
    | Ret (s, rsp, None) =>
        (Ret (loc, rsp, nil_err),
         upd_af key (add_sub sid (sub_set_ti (ti_set_Self loc (sub_ti s)) s) (bump_sub af)) c2)
    | Ret (_, rsp, Some e) => (Ret ("", rsp, Some e), c2)
    | Panic e => (Panic e, c2)
    end.
Proof.
  intros Haf Hroom sid afsub Hr Haf2 loc. unfold sub_room in Hroom. unfold afAddSubscription.
  rewrite (bind_ret go_get _ c c c) by done.
  rewrite (bind_ret _ _ _ _ _ (get_af_run _ _ _ Haf)).
  rewrite bool_decide_eq_false_2 by lia.
  rewrite (bind_ret (put_af key _) _ c tt (upd_af key (bump_sub af) c)) by done.
  fold sid. fold afsub. destruct r as [[[s rsp] err]|e].
  - rewrite (bind_ret _ _ _ _ _ Hr). destruct err; simpl; [done|].
    rewrite (bind_ret _ _ _ _ _ (get_af_run _ _ _ Haf2)).
    by rewrite (bind_ret _ _ _ _ _ (put_sub_run _ _ _ _ _ Haf2)).
  - by rewrite (bind_panic _ _ _ _ _ Hr).
Qed.

Lemma afAddSubscription_invalid key ti c af :
  afs (nef c) !! key = Some af → sub_room c af →
  is_pcf_request ti = false → is_udr_request ti = false →
  afAddSubscription key ti c =
    (Ret ("", rsp_err 400 "Invalid Request", errors_New "Invalid AF Request"),
     upd_af key (bump_sub af) c).
Proof.
  intros Haf Hroom Hp Hu.
  eapply (afAddSubscription_room key ti c af (Ret (_, _, Some _)) _ Haf Hroom).
  - by rewrite Hp, Hu.
  - apply upd_af_lookup.
Qed.

Lemma afAddSubscription_pcf key ti c af :
  afs (nef c) !! key = Some af → sub_room c af → is_pcf_request ti = true →
  let sid := Itoa (subIDnum af) in
  let loc := sub_location c af sid in
  (¬ services_ok (AfServiceIDs (cfg c)) ∧ ∃ e, afAddSubscription key ti c =
     (Panic e, with_corr (corr_next c) (upd_af key (bump_sub af) c))) ∨
  ∃ body id resp err p',
    PolicyAuthorizationCreate body (pcfClient (nef c)) = ((id, resp, err), p') ∧
    let rsp := sb_rsp (pcf_ResponseCode resp) (pcf_Pd resp) err in
    let sub := new_pcf_sub sid ti loc (corr_text c) (kept_session id resp) in
    let af' := match err with
               | None => add_sub sid sub (bump_sub af) | Some _ => bump_sub af end in
    afAddSubscription key ti c =
      (Ret (match err with None => (loc, rsp, nil_err) | Some _ => ("", rsp, err) end),
       with_pcf p' (with_corr (corr_next c) (upd_af key af' c))).
Proof.
  intros Haf Hroom Hp sid loc. set (c1 := upd_af key (bump_sub af) c).
  destruct (nefSBPCFPost_run (new_afSubscription sid ti) ti c1)
    as [[Hsvc [e He]]|(body & id & resp & err & p' & Hcall & Hrun)]; [left|right].
  - split; [done|]. exists e.
    apply (afAddSubscription_room key ti c af (Panic e) _ Haf Hroom).
    + rewrite Hp. by apply bind_panic.
    + apply upd_af_lookup.
  - exists body, id, resp, err, p'. split; [done|].
    erewrite (afAddSubscription_room key ti c af (Ret (_, _, err))); [|done|done| |].
    2: { rewrite Hp. by rewrite (bind_ret _ _ _ _ _ Hrun). }
    2: { apply upd_af_lookup. }
    destruct err; [done|]. simpl.
    rewrite upd_af_with_pcf, upd_af_with_corr. unfold c1. rewrite upd_af_upd.
    unfold kept_session. by destruct (is_failure _).
Qed.

Lemma afAddSubscription_udr key ti c af :
  afs (nef c) !! key = Some af → sub_room c af →
  is_pcf_request ti = false → is_udr_request ti = true →
  let sid := Itoa (subIDnum af) in
  let loc := sub_location c af sid in
  let corr := if wants_up_path_change ti then corr_text c else "" in
  let n := if wants_up_path_change ti then corr_next c else corrID (nef c) in
  (¬ services_ok (AfServiceIDs (cfg c)) ∧
   ∃ e, afAddSubscription key ti c = (Panic e, upd_af key (bump_sub af) c)) ∨
  ∃ body resp err u',
    UdrInfluenceDataCreate body "" (udrClient (nef c)) = ((resp, err), u') ∧
    let rsp := sb_rsp (udr_ResponseCode resp) (udr_Pd resp) err in
    let sub := new_udr_sub sid ti loc corr in
    let af' := match err with
               | None => add_sub sid sub (bump_sub af) | Some _ => bump_sub af end in
    afAddSubscription key ti c =
      (Ret (match err with None => (loc, rsp, nil_err) | Some _ => ("", rsp, err) end),
       with_udr u' (with_corr n (upd_af key af' c))).
Proof.
  intros Haf Hroom Hp Hu sid loc corr n. set (c1 := upd_af key (bump_sub af) c).
  destruct (nefSBUDRPut_run (new_afSubscription sid ti) ti c1)
    as [[Hsvc [e He]]|(body & resp & err & u' & Hcall & Hrun)]; [left|right].
  - split; [done|]. exists e.
    apply (afAddSubscription_room key ti c af (Panic e) _ Haf Hroom).
    + rewrite Hp, Hu. by apply bind_panic.
    + apply upd_af_lookup.
  - exists body, resp, err, u'. split; [done|].
    erewrite (afAddSubscription_room key ti c af (Ret (_, _, err))); [|done|done| |].
    2: { rewrite Hp, Hu. unfold nefSBUDRPost. by rewrite (bind_ret _ _ _ _ _ Hrun). }
    2: { apply upd_af_lookup. }
    destruct err; [done|]. simpl.
    rewrite upd_af_with_udr, upd_af_with_corr. unfold c1. rewrite upd_af_upd.
    unfold corr, n. by destruct (wants_up_path_change ti).
Qed.

(** ** Updating a subscription *)

Lemma add_sub_same sid s af : subs af !! sid = Some s → add_sub sid s af = af.
Proof. intros Hs. destruct af. unfold add_sub, af_set_subs; simpl in *. by rewrite insert_id. Qed.

Lemma add_sub_twice sid s1 s2 af : add_sub sid s2 (add_sub sid s1 af) = add_sub sid s2 af.
Proof. unfold add_sub, af_set_subs; simpl. by rewrite insert_insert_eq. Qed.

(** PUT is refused for a subscription held at the PCF. *)
Lemma afUpdateSubscription_pcf key sid ti c af s :
  afs (nef c) !! key = Some af → subs af !! sid = Some s → NEFSBPut s = SBPcf →
  afUpdateSubscription key sid ti c =
    (Ret (zero_rsp, zero_TrafficInfluSub, errors_New "PUT Method Not Supported"), c).
Proof.
  intros Haf Hs Hfn. unfold afUpdateSubscription.
  rewrite (bind_ret _ _ _ _ _ (get_af_run _ _ _ Haf)), Hs.
  unfold call_NEFSBPut. rewrite Hfn.
  rewrite (bind_ret (nefSBPCFPut s ti) _ c _ c eq_refl).
  rewrite (bind_ret _ _ _ _ _ (put_sub_run _ _ _ _ _ Haf)). simpl.
  fold (add_sub sid s af). rewrite add_sub_same by done. by rewrite upd_af_id.
Qed.

Lemma afUpdateSubscription_udr key sid ti c af s :
  afs (nef c) !! key = Some af → subs af !! sid = Some s → NEFSBPut s = SBUdr →
  let n := if wants_up_path_change ti then corr_next c else corrID (nef c) in
  let s1 := if wants_up_path_change ti then sub_set_corr (corr_text c) s else s in
  let t' := ti_set_Self (ti_Self (sub_ti s)) ti in
  (¬ services_ok (AfServiceIDs (cfg c)) ∧
   ∃ e, afUpdateSubscription key sid ti c = (Panic e, c)) ∨
  ∃ body resp err u',
    UdrInfluenceDataCreate body (iid s) (udrClient (nef c)) = ((resp, err), u') ∧
    let rsp := sb_rsp (udr_ResponseCode resp) (udr_Pd resp) err in
    let s2 := match err with None => sub_set_ti t' s1 | Some _ => s1 end in
    afUpdateSubscription key sid ti c =
      (Ret (rsp, match err with None => t' | Some _ => zero_TrafficInfluSub end, err),
       with_udr u' (with_corr n (upd_af key (add_sub sid s2 af) c))).
Proof.
  intros Haf Hs Hfn n s1 t'. unfold afUpdateSubscription.
  rewrite (bind_ret _ _ _ _ _ (get_af_run _ _ _ Haf)), Hs.
  unfold call_NEFSBPut. rewrite Hfn.
  destruct (nefSBUDRPut_run s ti c)
    as [[Hsvc [e He]]|(body & resp & err & u' & Hcall & Hrun)]; [left|right].
  { split; [done|]. exists e. by apply bind_panic. }
  exists body, resp, err, u'. split; [done|].
  rewrite (bind_ret _ _ _ _ _ Hrun). fold s1.
  assert (ti_Self (sub_ti s1) = ti_Self (sub_ti s)) as Hself
    by (unfold s1; by destruct (wants_up_path_change ti)).
  set (c2 := with_udr u' (with_corr _ c)).
  assert (afs (nef c2) !! key = Some af) as Haf2 by done.
  rewrite (bind_ret _ _ _ _ _ (put_sub_run _ _ _ _ _ Haf2)).
  destruct err; simpl; [done|]. rewrite Hself.
  erewrite (bind_ret (put_sub key sid _)) by (apply put_sub_run, upd_af_lookup).
  rewrite upd_af_upd.
  change (af_set_subs (<[sid := ?x]> (subs (af_set_subs (<[sid := s1]> (subs af)) af))) ?y)
    with (add_sub sid x (add_sub sid s1 af)).
  by rewrite add_sub_twice.
Qed.

(** PATCH changes the stored attributes after the southbound call. *)
Lemma afPartialUpdateSubscription_run key sid tisp c af s :
  afs (nef c) !! key = Some af → subs af !! sid = Some s → NEFSBPatch s ≠ SBNil →
  ∃ rsp err p' u',
    ((NEFSBPatch s = SBPcf ∧ u' = udrClient (nef c) ∧ ∃ body r,
       PolicyAuthorizationUpdate body (appSessionID s) (pcfClient (nef c)) = ((r, err), p'))
     ∨ (NEFSBPatch s = SBUdr ∧ p' = pcfClient (nef c) ∧ ∃ body r,
       UdrInfluenceDataUpdate body (iid s) (udrClient (nef c)) = ((r, err), u'))) ∧
    let t' := match err with
              | None => updateTiFromTisp (sub_ti s) tisp | Some _ => sub_ti s end in
    afPartialUpdateSubscription key sid tisp c =
      (Ret (rsp, match err with None => t' | Some _ => zero_TrafficInfluSub end, err),
       with_pcf p' (with_udr u' (upd_af key (add_sub sid (sub_set_ti t' s) af) c))).
Proof.
  intros Haf Hs Hnil. unfold afPartialUpdateSubscription.
  rewrite (bind_ret _ _ _ _ _ (get_af_run _ _ _ Haf)), Hs.
  destruct (call_NEFSBPatch_run s tisp c Hnil) as (rsp & err & p' & u' & Hrun & Hcase).
  exists rsp, err, p', u'. split; [done|].
  rewrite (bind_ret _ _ _ _ _ Hrun).
  destruct err as [e|]; simpl.
  { assert (sub_set_ti (sub_ti s) s = s) as -> by by destruct s.
    rewrite add_sub_same, upd_af_id; done. }
  set (c2 := with_pcf p' (with_udr u' c)).
  assert (afs (nef c2) !! key = Some af) as Haf2 by done.
  by rewrite (bind_ret _ _ _ _ _ (put_sub_run _ _ _ _ _ Haf2)).
Qed.

(** ** Deleting a subscription *)

Lemma afDeleteSubscription_run key sid c af s :
  afs (nef c) !! key = Some af → subs af !! sid = Some s → NEFSBDelete s ≠ SBNil →
  ∃ rsp err p' u',
    ((NEFSBDelete s = SBPcf ∧ u' = udrClient (nef c) ∧ ∃ r,
       PolicyAuthorizationDelete (appSessionID s) (pcfClient (nef c)) = ((r, err), p'))
     ∨ (NEFSBDelete s = SBUdr ∧ p' = pcfClient (nef c) ∧ ∃ r,
       UdrInfluenceDataDelete (iid s) (udrClient (nef c)) = ((r, err), u'))) ∧
    let af' := match err with
               | None => af_set_subs (delete sid (subs af)) af | Some _ => af end in
    afDeleteSubscription key sid c =
      (Ret (rsp, err), with_pcf p' (with_udr u' (upd_af key af' c))).
Proof.
  intros Haf Hs Hnil. unfold afDeleteSubscription.
  rewrite (bind_ret _ _ _ _ _ (get_af_run _ _ _ Haf)), Hs.
  destruct (call_NEFSBDelete_run s c Hnil) as (rsp & err & p' & u' & Hrun & Hcase).
  exists rsp, err, p', u'. split; [done|].
  rewrite (bind_ret _ _ _ _ _ Hrun).
  destruct err as [e|]; simpl; [by rewrite upd_af_id|].
  set (c2 := with_pcf p' (with_udr u' c)).
  assert (afs (nef c2) !! key = Some af) as Haf2 by done.
  by rewrite (bind_ret _ _ _ _ _ (get_af_run _ _ _ Haf2)).
Qed.

(** ** Reading subscriptions *)

Lemma get_af_read_only key : read_only (get_af (P:=P) (U:=U) (D:=D) key).
Proof. intros I. unfold get_af. solve_preserves. Qed.

Lemma nefGetAf_read_only id : read_only (nefGetAf (P:=P) (U:=U) (D:=D) id).
Proof. intros I. unfold nefGetAf. solve_preserves. Qed.

Lemma afGetSubscription_read_only key sid :
  read_only (afGetSubscription (P:=P) (U:=U) (D:=D) key sid).
Proof.
  intros I. unfold afGetSubscription.
  apply preserves_bind; [apply get_af_read_only|]. solve_preserves.
Qed.

Lemma afGetSubscription_run key sid c af :
  afs (nef c) !! key = Some af →
  afGetSubscription key sid c =
    (Ret match subs af !! sid with
         | Some s => (zero_rsp, sub_ti s, nil_err)
         | None => (rsp_err 404 subNotFound, zero_TrafficInfluSub, errors_New subNotFound)
         end, c).
Proof.
  intros Haf. unfold afGetSubscription.
  rewrite (bind_ret _ _ _ _ _ (get_af_run _ _ _ Haf)). by destruct (subs af !! sid).
Qed.

(** The list has every subscription once, in the order of the iteration. *)
Lemma afGetSubscriptionList_run key c af :
  afs (nef c) !! key = Some af →
  afGetSubscriptionList key c =
    (Ret (zero_rsp, (λ kv, sub_ti kv.2) <$> map_range ["afGetSubscriptionList"] (subs af),
          nil_err), c).
Proof.
  intros Haf. unfold afGetSubscriptionList.
  rewrite (bind_ret _ _ _ _ _ (get_af_run _ _ _ Haf)).
  set (l := map_range _ (subs af)).
  assert (∀ kv, kv ∈ l → subs af !! kv.1 = Some kv.2) as Hl.
  { intros [k v] Hkv. by apply (elem_of_map_range ["afGetSubscriptionList"]) in Hkv. }
  clearbody l.
  cut (∀ acc, for_acc l (λ kv acc,
    r ← afGetSubscription key kv.1;
    let '(rsp, ti, err) := r : nefSBRspData * TrafficInfluSub * error in
    if bool_decide (err ≠ nil_err) then mret (inr (rsp, acc.2, err))
    else mret (inl (rsp, acc.2 ++ [ti]))) (zero_rsp, acc) c
    = (Ret (inl (zero_rsp, acc ++ ((λ kv, sub_ti kv.2) <$> l))), c)).
  { intros Hloop. by rewrite (bind_ret _ _ _ _ _ (Hloop [])). }
  induction l as [|kv l IH]; intros acc; simpl.
  { by rewrite app_nil_r. }
  erewrite bind_ret.
  2: { erewrite bind_ret by (by apply afGetSubscription_run).
       rewrite Hl by set_solver. done. }
  simpl. rewrite IH by set_solver. by rewrite <- app_assoc.
Qed.

(** ** Registering and removing AFs *)

Lemma nefAddAf_run id c :
  (MaxAFSupport (cfg c) ≤ Z.of_nat (size (afs (nef c))) ∧
   nefAddAf id c = (Ret (errors_New "MAX AF exceeded"), c)) ∨
  (Z.of_nat (size (afs (nef c))) < MaxAFSupport (cfg c) ∧
   nefAddAf id c = (Ret nil_err, set_nef (set_afCount (int_incr (afCount (nef c))))
                                   (upd_af id (afCreate (cfg c) id) c))).
Proof.
  unfold nefAddAf. rewrite (bind_ret go_get _ c c c) by done.
  case_bool_decide; [left|right]; split; [lia|done|lia|done].
Qed.

Lemma nefDeleteAf_run id c af :
  afs (nef c) !! id = Some af →
  nefDeleteAf id c = (Ret nil_err, set_nef (λ d, set_afs (delete id (afs d)) d) c).
Proof.
  intros Haf. unfold nefDeleteAf. rewrite (bind_ret go_get _ c c c) by done. by rewrite Haf.
Qed.

(** The state in which a creation finds its AF: registered already, just
    registered, or refused because the limit is reached. *)
Lemma createNewSub_run id ti c :
  (is_Some (afs (nef c) !! id) ∧ createNewSub id ti c = afAddSubscription id ti c) ∨
  (afs (nef c) !! id = None ∧ MaxAFSupport (cfg c) ≤ Z.of_nat (size (afs (nef c))) ∧
   createNewSub id ti c = (Ret ("", zero_rsp, errors_New "MAX AF exceeded"), c)) ∨
  (afs (nef c) !! id = None ∧ Z.of_nat (size (afs (nef c))) < MaxAFSupport (cfg c) ∧
   createNewSub id ti c =
     afAddSubscription id ti (set_nef (set_afCount (int_incr (afCount (nef c))))
                                (upd_af id (afCreate (cfg c) id) c))).
Proof.
  unfold createNewSub. rewrite (bind_ret _ _ _ _ _ (nefGetAf_run id c)).
  destruct (afs (nef c) !! id) as [af|] eqn:Haf; simpl.
  { left. split; [eauto|done]. }
  right. destruct (nefAddAf_run id c) as [[Hm Hr]|[Hm Hr]]; [left|right];
    (split_and!; [done|done|]); by rewrite (bind_ret _ _ _ _ _ Hr).
Qed.
End ti_facts.

(** * The traffic influence handlers implement the specification

    Every handler of [NefTi], whatever the request and also when it panics,
    changes the state by at most two effects of [NefSpec.nef_effect]. *)

Section ti_refine.
Context {P U D : Type}
  `{PcfPolicyAuthorization P, UdrInfluenceData U, UdrPfdData D, GoEnv}.
Context (ok : string → PfdData → Prop).
Abbreviation ctx := (nefContext P U D).
Abbreviation effects := (bsteps (nef_effect (P:=P) (U:=U) (D:=D) ok)).
Implicit Types (c : ctx) (af : afData) (s : afSubscription).

Lemma effects_none n c : effects n c c.
Proof. constructor. Qed.

Lemma effects_one n c c' : nef_effect ok c c' → effects (S n) c c'.
Proof. intros. econstructor; [done|constructor]. Qed.

Lemma effects_two n c c' c'' : nef_effect ok c c' → nef_effect ok c' c'' → effects (S (S n)) c c''.
Proof. intros. econstructor; [done|]. by apply effects_one. Qed.

(** What follows a computation and changes nothing may be left out. *)
Lemma exec_bind_read_only {A B} (m : GoM ctx A) (k : A → GoM ctx B) c :
  (∀ a, read_only (k a)) → exec (m ≫= k) c = exec m c.
Proof.
  intros Hk. unfold exec, mbind, GoM_bind.
  destruct (m c) as [[a|e] c'] eqn:E; [|done]. by rewrite read_only_state.
Qed.

(** What precedes a computation and changes nothing may be left out. *)
Lemma exec_bind_ret {A B} (m : GoM ctx A) (k : A → GoM ctx B) c a :
  m c = (Ret a, c) → exec (m ≫= k) c = exec (k a) c.
Proof. intros Hm. unfold exec. by rewrite (bind_ret _ _ _ _ _ Hm). Qed.

Lemma afAddSubscription_effect key ti c af :
  afs (nef c) !! key = Some af → nef_effect ok c (exec (afAddSubscription key ti) c).
Proof.
  intros Haf. unfold exec.
  destruct (decide (sub_room c af)) as [Hroom|Hroom].
  2: { rewrite (afAddSubscription_full key ti c af) by done. constructor. }
  destruct (is_pcf_request ti) eqn:Hp.
  { destruct (afAddSubscription_pcf key ti c af Haf Hroom Hp)
      as [[_ [e ->]]|(body & id & resp & err & p' & Hcall & ->)].
    - eapply eff_bump; eauto.
    - by eapply eff_post_pcf. }
  destruct (is_udr_request ti) eqn:Hu.
  { destruct (afAddSubscription_udr key ti c af Haf Hroom Hp Hu)
      as [[_ [e ->]]|(body & resp & err & u' & Hcall & ->)].
    - assert (upd_af key (bump_sub af) c =
              with_corr (corrID (nef c)) (upd_af key (bump_sub af) c)) as Heq
        by by destruct c as [? []].
      simpl. rewrite Heq. eapply eff_bump; eauto.
    - by eapply eff_post_udr. }
  rewrite (afAddSubscription_invalid key ti c af) by done. simpl.
  assert (upd_af key (bump_sub af) c =
          with_corr (corrID (nef c)) (upd_af key (bump_sub af) c)) as ->
    by by destruct c as [? []].
  eapply eff_bump; eauto.
Qed.

Lemma createNewSub_effect id ti c : effects 2 c (exec (createNewSub id ti) c).
Proof.
  unfold exec.
  destruct (createNewSub_run id ti c)
    as [[[af Haf] ->]|[(_ & _ & ->)|(Hnone & Hroom & ->)]].
  - apply effects_one. by eapply afAddSubscription_effect.
  - apply effects_none.
  - eapply effects_two; [by eapply eff_add_af|].
    eapply afAddSubscription_effect. simpl. apply lookup_insert_eq.
Qed.

Lemma afUpdateSubscription_effect key sid ti c af :
  afs (nef c) !! key = Some af → nef_effect ok c (exec (afUpdateSubscription key sid ti) c).
Proof.
  intros Haf. unfold exec. destruct (subs af !! sid) as [s|] eqn:Hs.
  2: { unfold afUpdateSubscription.
       rewrite (bind_ret _ _ _ _ _ (get_af_run _ _ _ Haf)), Hs. constructor. }
  destruct (NEFSBPut s) eqn:Hfn.
  - unfold afUpdateSubscription.
    rewrite (bind_ret _ _ _ _ _ (get_af_run _ _ _ Haf)), Hs.
    unfold call_NEFSBPut. rewrite Hfn. constructor.
  - rewrite (afUpdateSubscription_pcf key sid ti c af s) by done. constructor.
  - destruct (afUpdateSubscription_udr key sid ti c af s Haf Hs Hfn)
      as [[_ [e ->]]|(body & resp & err & u' & Hcall & ->)]; [constructor|].
    by eapply eff_put_udr.
Qed.

Lemma afPartialUpdateSubscription_effect key sid tisp c af :
  afs (nef c) !! key = Some af →
  nef_effect ok c (exec (afPartialUpdateSubscription key sid tisp) c).
Proof.
  intros Haf. unfold exec. destruct (subs af !! sid) as [s|] eqn:Hs.
  2: { unfold afPartialUpdateSubscription.
       rewrite (bind_ret _ _ _ _ _ (get_af_run _ _ _ Haf)), Hs. constructor. }
  destruct (decide (NEFSBPatch s = SBNil)) as [Hfn|Hfn].
  { unfold afPartialUpdateSubscription.
    rewrite (bind_ret _ _ _ _ _ (get_af_run _ _ _ Haf)), Hs.
    unfold call_NEFSBPatch. rewrite Hfn. constructor. }
  destruct (afPartialUpdateSubscription_run key sid tisp c af s Haf Hs Hfn)
    as (rsp & err & p' & u' & Hcase & ->).
  eapply eff_patch; [done|done|by destruct err|].
  destruct Hcase as [(? & ? & body & r & ?)|(? & ? & body & r & ?)]; [left|right]; eauto.
Qed.

Lemma afDeleteSubscription_effect key sid c af :
  afs (nef c) !! key = Some af → nef_effect ok c (exec (afDeleteSubscription key sid) c).
Proof.
  intros Haf. unfold exec. destruct (subs af !! sid) as [s|] eqn:Hs.
  2: { unfold afDeleteSubscription.
       rewrite (bind_ret _ _ _ _ _ (get_af_run _ _ _ Haf)), Hs. constructor. }
  destruct (decide (NEFSBDelete s = SBNil)) as [Hfn|Hfn].
  { unfold afDeleteSubscription.
    rewrite (bind_ret _ _ _ _ _ (get_af_run _ _ _ Haf)), Hs.
    unfold call_NEFSBDelete. rewrite Hfn. constructor. }
  destruct (afDeleteSubscription_run key sid c af s Haf Hs Hfn)
    as (rsp & err & p' & u' & Hcase & ->).
  by eapply eff_delete.
Qed.

(** ** Handlers *)

Lemma CreateTrafficInfluenceSubscription_effect id body w c :
  effects 2 c (exec (CreateTrafficInfluenceSubscription id body w) c).
Proof.
  unfold CreateTrafficInfluenceSubscription. destruct body as [| |ti]; [apply effects_none..|].
  destruct (validateAFTrafficInfluenceData ti) as [rsp []]; [|apply effects_none].
  simpl. rewrite exec_bind_read_only by (intros ? ?; solve_preserves).
  apply createNewSub_effect.
Qed.

Lemma UpdatePutTrafficInfluenceSubscription_effect id sid body w c :
  effects 2 c (exec (UpdatePutTrafficInfluenceSubscription id sid body w) c).
Proof.
  unfold UpdatePutTrafficInfluenceSubscription.
  rewrite (exec_bind_ret _ _ _ _ (nefGetAf_run id c)).
  destruct (afs (nef c) !! id) as [af|] eqn:Haf; [|apply effects_none]. simpl.
  destruct body as [| |ti]; [apply effects_none..|].
  rewrite exec_bind_read_only by (intros ? ?; solve_preserves).
  eapply effects_one, afUpdateSubscription_effect. done.
Qed.

Lemma UpdatePatchTrafficInfluenceSubscription_effect id sid body w c :
  effects 2 c (exec (UpdatePatchTrafficInfluenceSubscription id sid body w) c).
Proof.
  unfold UpdatePatchTrafficInfluenceSubscription.
  rewrite (exec_bind_ret _ _ _ _ (nefGetAf_run id c)).
  destruct (afs (nef c) !! id) as [af|] eqn:Haf; [|apply effects_none]. simpl.
  destruct body as [| |tisp]; [apply effects_none..|].
  rewrite exec_bind_read_only by (intros ? ?; solve_preserves).
  eapply effects_one, afPartialUpdateSubscription_effect. done.
Qed.

Lemma DeleteTrafficInfluenceSubscription_effect id sid w c :
  effects 2 c (exec (DeleteTrafficInfluenceSubscription id sid w) c).
Proof.
  unfold DeleteTrafficInfluenceSubscription.
  rewrite (exec_bind_ret _ _ _ _ (nefGetAf_run id c)).
  destruct (afs (nef c) !! id) as [af|] eqn:Haf; [|apply effects_none]. simpl.
  pose proof (afDeleteSubscription_effect id sid c af Haf) as Heff.
  unfold exec, mbind at 1, GoM_bind at 1. unfold exec in Heff.
  destruct (afDeleteSubscription id sid c) as [[[rsp err]|e] c1] eqn:Hrun;
    simpl in Heff; [|by apply effects_one].
  destruct err as [e|]; simpl; [by apply effects_one|].
  destruct (afs (nef c1) !! id) as [af1|] eqn:Haf1.
  2: { rewrite (bind_panic _ _ _ _ _ (get_af_none _ _ Haf1)). by apply effects_one. }
  rewrite (bind_ret _ _ _ _ _ (get_af_run _ _ _ Haf1)).
  unfold afGetSubCount. case_bool_decide as Hsz; [|by apply effects_one].
  go_unfold. rewrite (nefDeleteAf_run _ _ _ Haf1).
  eapply effects_two; [done|]. eapply eff_del_af; [done|]. apply map_size_empty_inv. lia.
Qed.

Lemma afGetSubscriptionList_read_only key :
  read_only (afGetSubscriptionList (P:=P) (U:=U) (D:=D) key).
Proof.
  intros I. unfold afGetSubscriptionList.
  apply preserves_bind; [apply get_af_read_only|]. intros af.
  apply preserves_bind; [|solve_preserves].
  apply preserves_for_acc. intros x b.
  apply preserves_bind; [apply afGetSubscription_read_only|]. solve_preserves.
Qed.

(** The reading handlers and the notification handler change nothing. *)
Lemma ReadAllTrafficInfluenceSubscription_read_only id w :
  read_only (ReadAllTrafficInfluenceSubscription (P:=P) (U:=U) (D:=D) id w).
Proof.
  intros I. apply preserves_bind; [apply nefGetAf_read_only|]. intros err.
  apply preserves_bind; [|solve_preserves].
  case_bool_decide; [solve_preserves|apply afGetSubscriptionList_read_only].
Qed.

Lemma ReadTrafficInfluenceSubscription_read_only id sid w :
  read_only (ReadTrafficInfluenceSubscription (P:=P) (U:=U) (D:=D) id sid w).
Proof.
  intros I. apply preserves_bind; [apply nefGetAf_read_only|]. intros err.
  case_bool_decide; [solve_preserves|].
  apply preserves_bind; [apply afGetSubscription_read_only|]. solve_preserves.
Qed.

Lemma NotifySmfUPFEvent_read_only body w :
  read_only (NotifySmfUPFEvent (P:=P) (U:=U) (D:=D) body w).
Proof. intros I. unfold NotifySmfUPFEvent. solve_preserves. Qed.
End ti_refine.
