(* ===== verification/NefPfdFacts.v ===== *)
(** * Behaviour of the PFD operations

    What validation, the calls towards the UDR and the updates of a
    transaction do, whatever the order in which Go visits the maps. *)

From S2P Require Import Prelude Strconv Http NefModel NefSouth NefCore NefTi NefPfd.
From S2P Require Import NefSpec NefTiFacts.
From stdpp Require Import prelude gmap strings relations.
From Stdlib Require Import ZArith.

Local Open Scope Z_scope.

(** ** Reports *)

(** The applications that some report names. *)
Definition reported (reports : gmap string PfdReport) (app : string) : Prop :=
  ∃ k r, reports !! k = Some r ∧ app ∈ ExternalAppIds r.

Lemma add_report_reported app reason reports a :
  reported (add_report app reason reports) a ↔ a = app ∨ reported reports a.
Proof.
  unfold add_report, reported. destruct (reports !! reason) as [r0|] eqn:E; split.
  - intros (k & r & Hk & Ha). destruct (decide (reason = k)) as [<-|].
    + rewrite lookup_insert_eq in Hk. simplify_eq. simpl in Ha. set_solver.
    + rewrite lookup_insert_ne in Hk by done. eauto 10.
  - intros [->|(k & r & Hk & Ha)].
    + exists reason. eexists. rewrite lookup_insert_eq. split; [done|set_solver].
    + destruct (decide (reason = k)) as [<-|].
      * exists reason. eexists. rewrite lookup_insert_eq. simplify_eq. split; [done|set_solver].
      * exists k, r. by rewrite lookup_insert_ne.
  - intros (k & r & Hk & Ha). destruct (decide (reason = k)) as [<-|].
    + rewrite lookup_insert_eq in Hk. simplify_eq. simpl in Ha. set_solver.
    + rewrite lookup_insert_ne in Hk by done. eauto 10.
  - intros [->|(k & r & Hk & Ha)].
    + exists reason. eexists. rewrite lookup_insert_eq. split; [done|set_solver].
    + exists k, r. rewrite lookup_insert_ne; [done|congruence].
Qed.

(** Filling a map with one value at the keys of another. *)
Lemma fold_insert_const `{GoEnv} {V W} site (m : gmap string V) (w : W) :
  fold_left (λ acc kv, <[kv.1 := w]> acc) (map_range site m) ∅ = (λ _, w) <$> m.
Proof.
  apply map_eq. intros k.
  assert (∀ l (acc : gmap string W),
    fold_left (λ acc kv, <[kv.1 := w]> acc) l acc !! k
    = if decide (k ∈ (l : list (string * V)).*1) then Some w else acc !! k) as Hl.
  { induction l as [|kv l IH]; intros acc.
    { case_decide as Hn; [by apply not_elem_of_nil in Hn|done]. }
    cbn [fold_left]. rewrite IH, fmap_cons. destruct (decide (k ∈ l.*1)); [by rewrite decide_True by set_solver|].
    rewrite lookup_insert. case_decide; subst.
    - by rewrite decide_True by set_solver.
    - by rewrite decide_False by set_solver. }
  rewrite Hl, lookup_fmap, lookup_empty. case_decide as Hk.
  - apply list_elem_of_fmap in Hk as ([k' v] & -> & Hk%elem_of_map_range).
    simpl. by rewrite Hk.
  - destruct (m !! k) as [v|] eqn:E; [|done]. exfalso. apply Hk.
    apply list_elem_of_fmap. exists (k, v). split; [done|]. by apply elem_of_map_range.
Qed.

Section pfd_facts.
Context {P U D : Type}
  `{PcfPolicyAuthorization P, UdrInfluenceData U, UdrPfdData D, GoEnv, NefHooks}.
Abbreviation ctx := (nefContext P U D).
Implicit Types (c : ctx) (af : afData) (t : afPfdTransaction) (m : PfdManagement).

Lemma call_udrPfd_run {A} (f : D → A * D) c a x' :
  f (udrPfdClient (nef c)) = (a, x') → call_udrPfd f c = (Ret a, with_udrPfd x' c).
Proof. intros Hf. unfold call_udrPfd. go_unfold. by rewrite Hf. Qed.

Lemma put_trans_run key tid t c af :
  afs (nef c) !! key = Some af →
  put_trans key tid t c = (Ret tt, upd_af key (add_trans tid t af) c).
Proof.
  intros Haf. unfold put_trans. by rewrite (bind_ret _ _ _ _ _ (get_af_run _ _ _ Haf)).
Qed.

Lemma with_udrPfd_id c : with_udrPfd (udrPfdClient (nef c)) c = c.
Proof. by destruct c as [? []]. Qed.

Lemma upd_af_with_udrPfd key af x c :
  upd_af key af (with_udrPfd x c) = with_udrPfd x (upd_af key af c).
Proof. done. Qed.

(** ** Validation *)

(** The duplicate check does not depend on the order of the iterations. *)
Lemma nefCheckPfdAppIDExists_false appID c :
  nefCheckPfdAppIDExists appID c = false ↔ app_unused appID c.
Proof.
  unfold nefCheckPfdAppIDExists, app_unused. split.
  - intros Hf k af tid t Haf Ht.
    destruct (PfdDatas (pfdManagement t) !! appID) as [d|] eqn:Hd; [exfalso|done].
    destruct (loop_acc _ _ _) as [[]|b] eqn:E.
    + rewrite loop_acc_inl in E.
      specialize (E (k, af) ltac:(by apply elem_of_map_range)). simpl in E.
      destruct (loop_acc (map_range _ (pfdtrans af)) _ _) as [[]|] eqn:E1; [|done].
      rewrite loop_acc_inl in E1.
      specialize (E1 (tid, t) ltac:(by apply elem_of_map_range)). simpl in E1.
      destruct (loop_acc (map_range _ (PfdDatas _)) _ _) as [[]|] eqn:E2; [|done].
      rewrite loop_acc_inl in E2.
      specialize (E2 (appID, d) ltac:(by apply elem_of_map_range)). simpl in E2.
      by rewrite bool_decide_eq_true_2 in E2.
    + subst b. apply loop_acc_inr in E as (x & _ & E).
      destruct (loop_acc _ _ _) as [|b1] eqn:E1 in E; simplify_eq.
      apply loop_acc_inr in E1 as (y & _ & E1).
      destruct (loop_acc _ _ _) as [|b2] eqn:E2 in E1; simplify_eq.
      apply loop_acc_inr in E2 as (z & _ & E2). by case_bool_decide.
  - intros Hun. destruct (loop_acc _ _ _) as [|b] eqn:E; [done|exfalso].
    apply loop_acc_inr in E as ([k af] & Hk & E). apply elem_of_map_range in Hk.
    destruct (loop_acc _ _ _) as [|b1] eqn:E1 in E; simplify_eq.
    apply loop_acc_inr in E1 as ([tid t] & Ht & E1). apply elem_of_map_range in Ht.
    destruct (loop_acc _ _ _) as [|b2] eqn:E2 in E1; simplify_eq.
    apply loop_acc_inr in E2 as ([a d] & Ha & E2). apply elem_of_map_range in Ha.
    simpl in *. case_bool_decide; subst; [|done].
    by rewrite (Hun k af tid t) in Ha.
Qed.

(** A PFD is acceptable when it has an identifier and some filter. *)
Definition pfd_valid (p : Pfd) : Prop :=
  PfdID p ≠ "" ∧ (DomainNames p ≠ [] ∨ FlowDescriptions p ≠ [] ∨ Urls p ≠ []).

Lemma validateAFPfdData_true p : (validateAFPfdData p).2 = true ↔ pfd_valid p.
Proof.
  unfold validateAFPfdData, pfd_valid, str_empty.
  destruct (PfdID p); simpl; [naive_solver|].
  destruct (DomainNames p), (FlowDescriptions p), (Urls p); simpl; naive_solver.
Qed.

Lemma validate_pfds_true site pfds :
  (validate_pfds site pfds).2 = true ↔ map_Forall (λ _, pfd_valid) pfds.
Proof.
  unfold validate_pfds. destruct (loop_acc _ _ _) as [[]|rsp] eqn:E; simpl.
  - rewrite loop_acc_inl in E. split; [intros _ k p Hp|done].
    specialize (E (k, p) ltac:(by apply elem_of_map_range)). simpl in E.
    apply validateAFPfdData_true. by destruct (validateAFPfdData p) as [? []].
  - split; [done|]. intros Hall.
    apply loop_acc_inr in E as ([k p] & Hp & E). apply elem_of_map_range in Hp.
    apply Hall, validateAFPfdData_true in Hp. simpl in E.
    by destruct (validateAFPfdData p) as [? []].
Qed.

(** What the second loop of the validation does to the request. *)
Definition dup_step c (method : string) m (kv : string * PfdData) : PfdManagement :=
  if bool_decide (method = "POST") && nefCheckPfdAppIDExists kv.1 c
  then pfdm_set_PfdDatas (delete kv.1 (PfdDatas m))
         (pfdm_set_PfdReports (generatePfdReport kv.1 AppIDDuplicated (PfdReports m)) m)
  else m.

(** An accepted request has valid contents and is the result of the second
    loop over all its applications. *)
Lemma validate_accepts c m method m' rsp :
  validateAFPfdManagementData c m method = (m', rsp, true) →
  PfdDatas m ≠ ∅ ∧
  map_Forall (λ _ d, Pfds d ≠ ∅ ∧ ExternalAppID d ≠ "" ∧
                     map_Forall (λ _, pfd_valid) (Pfds d)) (PfdDatas m) ∧
  m' = fold_left (dup_step c method) (map_range ["validate"; "2"] (PfdDatas m)) m.
Proof.
  unfold validateAFPfdManagementData.
  case_bool_decide as Hsz; [done|].
  destruct (loop_acc (map_range ["validate"; "1"] _) _ _) as [[]|] eqn:E1; [|done].
  set (body2 := λ (kv : string * PfdData) m0, _).
  destruct (loop_acc _ body2 _) as [m2|[]] eqn:E2; [|done].
  intros [= <- <-]. rewrite loop_acc_inl in E1.
  assert (∀ l m0 m1, loop_acc l body2 m0 = inl m1 →
    (∀ kv, kv ∈ l → (validate_pfds ["validate"; "2"; kv.1] (Pfds kv.2)).2 = true) ∧
    m1 = fold_left (dup_step c method) l m0) as Hloop.
  { induction l as [|kv l IH]; intros m0 m1; simpl.
    { intros [= ->]. split; [by intros kv Hkv%not_elem_of_nil|done]. }
    unfold body2 at 1. fold (dup_step c method m0 kv).
    destruct (validate_pfds _ _) as [rsp1 []] eqn:Ev; [|done].
    intros [Hall ->]%IH. split; [|done].
    intros kv' [->|?]%elem_of_cons; [by rewrite Ev|auto]. }
  apply Hloop in E2 as [Hall ->]. split_and!; [|..|done].
  - intros Hemp. apply Hsz. by rewrite Hemp, map_size_empty.
  - intros a d Ha.
    specialize (E1 (a, d) ltac:(by apply elem_of_map_range)). simpl in E1.
    case_bool_decide as Hp; [done|].
    unfold str_empty in E1. case_bool_decide; [done|]. split_and!; [|done|].
    + intros Hemp. apply Hp. by rewrite Hemp, map_size_empty.
    + eapply (validate_pfds_true ["validate"; "2"; a]).
      apply (Hall (a, d)). by apply elem_of_map_range.
Qed.

Lemma dup_fold_datas c l m a d :
  PfdDatas (fold_left (dup_step c "POST") l m) !! a = Some d ↔
  PfdDatas m !! a = Some d ∧ ¬ (a ∈ l.*1 ∧ nefCheckPfdAppIDExists a c = true).
Proof.
  revert m. induction l as [|[k v] l IH]; intros m; simpl.
  { split; [intros; split; [done|by intros [?%not_elem_of_nil _]]|by intros []]. }
  rewrite IH. unfold dup_step; simpl. rewrite elem_of_cons.
  destruct (nefCheckPfdAppIDExists k c) eqn:Ek; simpl.
  - rewrite lookup_delete_Some. destruct (decide (a = k)) as [->|]; intuition congruence.
  - destruct (decide (a = k)) as [->|]; intuition congruence.
Qed.

Lemma dup_fold_reports c l m a :
  reported (PfdReports (fold_left (dup_step c "POST") l m)) a ↔
  reported (PfdReports m) a ∨ (a ∈ l.*1 ∧ nefCheckPfdAppIDExists a c = true).
Proof.
  revert m. induction l as [|[k v] l IH]; intros m; simpl.
  { split; [by left|]. intros [?|[?%not_elem_of_nil _]]; done. }
  rewrite IH. unfold dup_step; simpl. rewrite elem_of_cons.
  destruct (nefCheckPfdAppIDExists k c) eqn:Ek; simpl.
  - unfold generatePfdReport. rewrite bool_decide_eq_true_2 by done.
    rewrite add_report_reported. destruct (decide (a = k)) as [->|]; intuition congruence.
  - destruct (decide (a = k)) as [->|]; intuition congruence.
Qed.

Lemma dup_fold_frame c method l m :
  pfdm_Self (fold_left (dup_step c method) l m) = pfdm_Self m ∧
  SuppFeat (fold_left (dup_step c method) l m) = SuppFeat m.
Proof.
  revert m. induction l as [|kv l IH]; intros m; simpl; [done|].
  destruct (IH (dup_step c method m kv)) as [-> ->].
  unfold dup_step. by destruct (_ && _).
Qed.

Lemma elem_of_range_keys site (m : gmap string PfdData) a :
  a ∈ (map_range site m).*1 ↔ is_Some (m !! a).
Proof.
  rewrite list_elem_of_fmap. split.
  - intros ([k v] & -> & Hk%elem_of_map_range). by eexists.
  - intros [d Hd]. exists (a, d). split; [done|]. by apply elem_of_map_range.
Qed.

(** Accepting a creation keeps exactly the applications that no AF has
    provisioned yet, and reports exactly the others. *)
Lemma validate_POST c m m' rsp :
  validateAFPfdManagementData c m "POST" = (m', rsp, true) →
  (∀ a d, PfdDatas m' !! a = Some d ↔ PfdDatas m !! a = Some d ∧ app_unused a c) ∧
  (∀ a, reported (PfdReports m') a ↔
     reported (PfdReports m) a ∨ (is_Some (PfdDatas m !! a) ∧ ¬ app_unused a c)).
Proof.
  intros (_ & _ & ->)%validate_accepts. split.
  - intros a d. rewrite dup_fold_datas, elem_of_range_keys.
    rewrite <- nefCheckPfdAppIDExists_false.
    destruct (nefCheckPfdAppIDExists a c); naive_solver.
  - intros a. rewrite dup_fold_reports, elem_of_range_keys.
    rewrite <- nefCheckPfdAppIDExists_false.
    destruct (nefCheckPfdAppIDExists a c); naive_solver.
Qed.

(** Accepting an update leaves the request as it was. *)
Lemma validate_PUT c m m' rsp :
  validateAFPfdManagementData c m "PUT" = (m', rsp, true) → m' = m.
Proof.
  intros (_ & _ & ->)%validate_accepts.
  generalize (map_range ["validate"; "2"] (PfdDatas m)). intros l.
  revert m. by induction l as [|kv l IH]; intros m; simpl.
Qed.

(** ** Calls towards the UDR *)

(** The answer recorded for an application the UDR accepted. *)
Definition put_answer : nefPFDSBRspData :=
  if TestNEFSB
  then mkNefPFDSBRspData (mkNefSBRspData 400 zero_ProblemDetails) (Some OtherReason)
  else mkNefPFDSBRspData (mkNefSBRspData 200 zero_ProblemDetails) None.

Lemma nefSBUDRAPPPFDPut_run app c :
  ∃ pa r x', pa_AppID pa = ExternalAppID app ∧
    UdrPfdDataCreate pa (udrPfdClient (nef c)) = (r, x') ∧
    nefSBUDRAPPPFDPut app c =
      (Ret (match r.2 with
            | None => put_answer
            | Some _ => mkNefPFDSBRspData (mkNefSBRspData 400 zero_ProblemDetails) None
            end, r.2), with_udrPfd x' c).
Proof.
  unfold nefSBUDRAPPPFDPut.
  match goal with |- context [UdrPfdDataCreate ?b] => set (pa := b) end.
  destruct (UdrPfdDataCreate pa (udrPfdClient (nef c))) as [[r e] x'] eqn:Hcall.
  exists pa, (r, e), x'. split_and!; [done|done|].
  rewrite (bind_ret _ _ _ _ _ (call_udrPfd_run _ _ _ _ Hcall)).
  unfold put_answer. destruct e; simpl; [done|]. by destruct TestNEFSB.
Qed.

Lemma udr_writes_one pa r (x x' : D) :
  UdrPfdDataCreate pa x = (r, x') → udr_writes [pa_AppID pa] x x'.
Proof. intros. econstructor; [done|constructor]. Qed.

(** Writing all the applications of a transaction: without an error every
    application was written and got the same answer. *)
Lemma nefSBUDRPFDPut_run m c :
  ∃ apps x' rsp err, udr_writes apps (udrPfdClient (nef c)) x' ∧
    nefSBUDRPFDPut m c = (Ret (rsp, err), with_udrPfd x' c) ∧
    match err with
    | None => (∀ a d, PfdDatas m !! a = Some d → ExternalAppID d ∈ apps) ∧
              rsp = (λ _, put_answer) <$> PfdDatas m
    | Some e => ∃ pa r x1 x2, UdrPfdDataCreate pa x1 = ((r, Some e), x2)
    end.
Proof.
  unfold nefSBUDRPFDPut. set (body := λ (kv : string * PfdData) acc, _).
  cut (∀ l acc c0, ∃ apps x' r, udr_writes apps (udrPfdClient (nef c0)) x' ∧
    for_acc (R := gmap string nefPFDSBRspData * error) l body acc c0
      = (Ret r, with_udrPfd x' c0) ∧
    match r with
    | inl acc' => (∀ kv, kv ∈ l → ExternalAppID kv.2 ∈ apps) ∧
                  acc' = fold_left (λ acc1 kv, <[kv.1 := put_answer]> acc1) l acc
    | inr (_, Some e) => ∃ pa r x1 x2, UdrPfdDataCreate pa x1 = ((r, Some e), x2)
    | inr (_, None) => False
    end).
  { intros Hloop. destruct (Hloop (map_range ["nefSBUDRPFDPut"] (PfdDatas m)) ∅ c)
      as (apps & x' & [acc'|[rsp e]] & Hw & Hrun & Hr).
    - destruct Hr as [Happs ->]. exists apps, x'. do 2 eexists. split_and!; [done|..].
      + by rewrite (bind_ret _ _ _ _ _ Hrun).
      + split.
        * intros a d Hd. apply (Happs (a, d)). by apply elem_of_map_range.
        * apply fold_insert_const.
    - exists apps, x', rsp, e. split_and!; [done| |by destruct e].
      by rewrite (bind_ret _ _ _ _ _ Hrun). }
  induction l as [|kv l IH]; intros acc c0; simpl.
  { exists [], (udrPfdClient (nef c0)), (inl acc).
    split_and!; [constructor|by rewrite with_udrPfd_id|by intros ? ?%not_elem_of_nil|done]. }
  destruct (nefSBUDRAPPPFDPut_run kv.2 c0) as (pa & [r e] & x1 & Hpa & Hcall & Hrun).
  assert (body kv acc c0 =
    (Ret match e with None => inl (<[kv.1 := put_answer]> acc) | Some _ => inr (acc, e) end,
     with_udrPfd x1 c0)) as Hb.
  { unfold body. rewrite (bind_ret _ _ _ _ _ Hrun). by destruct e. }
  rewrite (bind_ret _ _ _ _ _ Hb). destruct e as [e|].
  - exists [pa_AppID pa], x1, (inr (acc, Some e)).
    split_and!; [by eapply udr_writes_one|done|eauto].
  - destruct (IH (<[kv.1 := put_answer]> acc) (with_udrPfd x1 c0))
      as (apps & x' & r' & Hw & Hrun' & Hr').
    exists (pa_AppID pa :: apps), x', r'. split_and!.
    + by econstructor.
    + by rewrite Hrun'.
    + destruct r' as [acc'|[? []]]; [|done|done]. destruct Hr' as [Hin ->]. split; [|done].
      intros kv' [->|?]%elem_of_cons; [|set_solver]. rewrite <- Hpa. set_solver.
Qed.

Lemma elem_of_ext_ids (d : gmap string PfdData) e :
  e ∈ ext_ids d ↔ ∃ a v, d !! a = Some v ∧ ExternalAppID v = e.
Proof.
  unfold ext_ids. rewrite elem_of_list_to_set, list_elem_of_fmap. split.
  - intros (v & -> & Hv). apply list_elem_of_fmap in Hv as ([a v'] & -> & Hv).
    apply elem_of_map_to_list in Hv. eauto.
  - intros (a & v & Hv & <-). exists v. split; [done|].
    apply list_elem_of_fmap. exists (a, v). split; [done|]. by apply elem_of_map_to_list.
Qed.

(** A loop that deletes each application and returns on the first error. *)
Lemma udr_delete_loop (body : string * PfdData → unit → GoM ctx (unit + (nefPFDSBRspData * error))) :
  (∀ kv c0 r e x1,
     UdrPfdDataDelete (ExternalAppID kv.2) (udrPfdClient (nef c0)) = ((r, e), x1) →
     body kv tt c0 =
       (Ret match e with None => inl tt | Some _ => inr (zero_pfd_rsp, e) end,
        with_udrPfd x1 c0)) →
  ∀ l c0, ∃ apps x' r, udr_deletes apps (udrPfdClient (nef c0)) x' ∧
    for_acc l body tt c0 = (Ret r, with_udrPfd x' c0) ∧
    (∀ app, app ∈ apps → ∃ kv, kv ∈ l ∧ ExternalAppID kv.2 = app) ∧
    match r with
    | inl _ => ∀ kv, kv ∈ l → ExternalAppID kv.2 ∈ apps
    | inr (_, Some e) => ∃ app r x1 x2, UdrPfdDataDelete app x1 = ((r, Some e), x2)
    | inr (_, None) => False
    end.
Proof.
  intros Hbody. induction l as [|kv l IH]; intros c0.
  { exists [], (udrPfdClient (nef c0)), (inl tt). split_and!; [constructor|..].
    - by rewrite with_udrPfd_id.
    - by intros ? ?%not_elem_of_nil.
    - by intros ? ?%not_elem_of_nil. }
  destruct (UdrPfdDataDelete (ExternalAppID kv.2) (udrPfdClient (nef c0)))
    as [[r e] x1] eqn:Hcall.
  cbn [for_acc]. rewrite (bind_ret _ _ _ _ _ (Hbody _ _ _ _ _ Hcall)). destruct e as [e|].
  - exists [ExternalAppID kv.2], x1, (inr (zero_pfd_rsp, Some e)).
    split_and!; [econstructor; [done|constructor]|done|set_solver|eauto].
  - destruct (IH (with_udrPfd x1 c0)) as (apps & x' & r' & Hw & Hrun' & Hsub & Hr').
    exists (ExternalAppID kv.2 :: apps), x', r'. split_and!.
    + by econstructor.
    + by rewrite Hrun'.
    + intros app [->|Happ]%elem_of_cons; [set_solver|].
      destruct (Hsub _ Happ) as (kv' & ? & ?). exists kv'. set_solver.
    + destruct r' as [[]|out]; [set_solver|done].
Qed.

(** Deleting the applications of a transaction at the UDR. *)
Lemma nefSBUDRPFDDelete_run t c :
  ∃ apps x' rsp err, udr_deletes apps (udrPfdClient (nef c)) x' ∧
    nefSBUDRPFDDelete t c = (Ret (rsp, err), with_udrPfd x' c) ∧
    list_to_set apps ⊆ ext_ids (PfdDatas (pfdManagement t)) ∧
    match err with
    | None => ext_ids (PfdDatas (pfdManagement t)) ⊆ list_to_set apps
    | Some e => ∃ app r x1 x2, UdrPfdDataDelete app x1 = ((r, Some e), x2)
    end.
Proof.
  unfold nefSBUDRPFDDelete. set (body := λ (kv : string * PfdData) (_ : unit), _).
  destruct (udr_delete_loop body ltac:(
      intros kv c0 r e x1 Hcall; unfold body, nefSBUDRAPPPFDDelete; go_unfold;
      rewrite (call_udrPfd_run _ _ _ _ Hcall); by destruct e)
    (map_range ["nefSBUDRPFDDelete"] (PfdDatas (pfdManagement t))) c)
    as (apps & x' & r & Hw & Hrun & Hsub & Hr).
  exists apps, x', (match r with inl _ => zero_pfd_rsp | inr o => o.1 end),
    (match r with inl _ => nil_err | inr o => o.2 end).
  split_and!; [done|by rewrite (bind_ret _ _ _ _ _ Hrun); destruct r as [|[]]|..].
  - intros app Happ. apply elem_of_list_to_set, Hsub in Happ as ([a v] & Hin & <-).
    apply elem_of_map_range in Hin. apply elem_of_ext_ids. eauto.
  - destruct r as [[]|[rsp [e|]]]; [|done|done].
    intros app (a & v & Hv & <-)%elem_of_ext_ids.
    apply elem_of_list_to_set, (Hr (a, v)). by apply elem_of_map_range.
Qed.

(** Reading the applications of a transaction only changes the client. *)
Abbreviation gets := (rtc (λ x x' : D, ∃ app r, UdrPfdDataGet app x = (r, x'))).

Definition only_gets c c' : Prop :=
  ∃ x', gets (udrPfdClient (nef c)) x' ∧ c' = with_udrPfd x' c.

Lemma only_gets_refl c : only_gets c c.
Proof. exists (udrPfdClient (nef c)). by rewrite with_udrPfd_id. Qed.

Lemma nefSBUDRAPPPFDGet_gets c0 app :
  preserves (only_gets c0) (nefSBUDRAPPPFDGet app).
Proof.
  unfold nefSBUDRAPPPFDGet. apply preserves_bind; [|intros; solve_preserves].
  intros c (x & Hx & ->).
  destruct (UdrPfdDataGet app x) as [a x'] eqn:Hcall.
  rewrite (call_udrPfd_run _ (with_udrPfd x c0) a x') by done.
  exists x'. split; [|done]. etrans; [done|]. apply rtc_once. eauto.
Qed.

Lemma afGetPfdTransaction_gets c0 key tid :
  preserves (only_gets c0) (afGetPfdTransaction key tid).
Proof.
  unfold afGetPfdTransaction. apply preserves_bind; [apply get_af_read_only|].
  intros af. destruct (pfdtrans af !! tid) as [t|]; [|solve_preserves].
  apply preserves_bind; [|solve_preserves].
  unfold call_NEFSBPfdGet. destruct (NEFSBPfdGet t); [solve_preserves|].
  unfold nefSBUDRPFDGet. apply preserves_bind; [|solve_preserves].
  apply preserves_for_acc. intros kv b.
  apply preserves_bind; [apply nefSBUDRAPPPFDGet_gets|solve_preserves].
Qed.

Lemma afGetPfdTransactionList_gets c0 key :
  preserves (only_gets c0) (afGetPfdTransactionList key).
Proof.
  unfold afGetPfdTransactionList. apply preserves_bind; [apply get_af_read_only|].
  intros af. apply preserves_bind; [|solve_preserves].
  apply preserves_for_acc. intros kv b.
  apply preserves_bind; [apply afGetPfdTransaction_gets|solve_preserves].
Qed.

(** ** The outcome of a write at the UDR *)

Lemma updatePfdTransOnRsp_shrinks rsp m m' err :
  updatePfdTransOnRsp rsp m = (m', err) →
  pfdm_Self m' = pfdm_Self m ∧ PfdDatas m' ⊆ PfdDatas m ∧
  (err = nil_err ↔ PfdDatas m' ≠ ∅).
Proof.
  unfold updatePfdTransOnRsp. generalize (map_range ["updatePfdTransOnRsp"] rsp).
  intros l. set (step := λ m kv, _).
  assert (∀ m0, pfdm_Self (fold_left step l m0) = pfdm_Self m0 ∧
                PfdDatas (fold_left step l m0) ⊆ PfdDatas m0) as Hfold.
  { induction l as [|kv l IH]; intros m0; simpl; [done|].
    destruct (IH (step m0 kv)) as [-> Hsub]. unfold step in *.
    destruct (failure_reason kv.2); simpl in *; [|done].
    split; [done|]. etrans; [done|]. apply delete_subseteq. }
  destruct (Hfold m) as [Hself Hsub].
  case_bool_decide as Hsz; intros [= <- <-]; split_and!; try done.
  - split; [done|]. intros Hne. by apply map_size_empty_inv in Hsz.
  - split; [|done]. intros _ Hemp. apply Hsz. by rewrite Hemp, map_size_empty.
Qed.

(** Outside of tests an answered write keeps every application. *)
Lemma updatePfdTransOnRsp_production m :
  TestNEFSB = false → PfdDatas m ≠ ∅ →
  updatePfdTransOnRsp ((λ _, put_answer) <$> PfdDatas m) m = (m, nil_err).
Proof.
  intros Hhook Hne. unfold updatePfdTransOnRsp.
  assert (∀ l m0, (∀ kv : string * nefPFDSBRspData, kv ∈ l → kv.2 = put_answer) →
    fold_left (λ m0 (kv : string * nefPFDSBRspData),
      match failure_reason kv.2 with
      | Some reason =>
          pfdm_set_PfdReports (generatePfdReport kv.1 reason (PfdReports m0))
            (pfdm_set_PfdDatas (delete kv.1 (PfdDatas m0)) m0)
      | None => m0 end) l m0 = m0) as Hfold.
  { induction l as [|kv l IH]; intros m0 Hl; simpl; [done|].
    rewrite (Hl kv) by set_solver. unfold put_answer at 1. rewrite Hhook. simpl.
    apply IH. set_solver. }
  rewrite Hfold.
  - rewrite bool_decide_eq_false_2; [done|]. by intros ?%map_size_empty_inv.
  - intros [k v] Hkv%elem_of_map_range. rewrite lookup_fmap_Some in Hkv.
    by destruct Hkv as (? & <- & _).
Qed.

Lemma link_apps_lookup loc d a :
  link_apps loc d !! a = pfdd_set_Self (loc +:+ "/applications/" +:+ a) <$> d !! a.
Proof.
  unfold link_apps.
  rewrite (range_update ["afAddPFDTransaction"]
    (λ k v, pfdd_set_Self (loc +:+ "/applications/" +:+ k) v)).
  rewrite map_lookup_imap. by destruct (d !! a).
Qed.

Lemma link_apps_empty loc d : link_apps loc d = ∅ → d = ∅.
Proof.
  intros Hemp. apply map_eq. intros a. rewrite lookup_empty.
  assert (link_apps loc d !! a = None) as Ha by by rewrite Hemp, lookup_empty.
  rewrite link_apps_lookup in Ha. by destruct (d !! a).
Qed.

(** ** Creating a transaction *)

(** The transaction entered for a request at a location. *)
Definition new_trans (tid loc : string) m : afPfdTransaction :=
  mkAfPfdTransaction tid
    (pfdm_set_Self loc (pfdm_set_PfdDatas (link_apps loc (PfdDatas m)) m))
    PfdUdr PfdUdr PfdUdr PfdUdr.

(** Why no application of a request may have been provisioned: the UDR
    reports an error, a test variable is set, or there is none. *)
Definition put_refused m : Prop :=
  (∃ pa r e (x1 x2 : D), UdrPfdDataCreate pa x1 = ((r, Some e), x2)) ∨
  TestNEFSB = true ∨ PfdDatas m = ∅.

Lemma afAddPFDTransaction_full key m c af :
  afs (nef c) !! key = Some af → ¬ trans_room c af →
  afAddPFDTransaction key m c = (Ret ("", errors_New "MAX TRANS Created", m), c).
Proof.
  intros Haf Hroom. unfold trans_room in Hroom. unfold afAddPFDTransaction.
  rewrite (bind_ret go_get _ c c c) by done.
  rewrite (bind_ret _ _ _ _ _ (get_af_run _ _ _ Haf)).
  by rewrite bool_decide_eq_true_2 by lia.
Qed.

Lemma afAddPFDTransaction_run key m c af :
  afs (nef c) !! key = Some af → trans_room c af →
  let tid := Itoa (transIDnum af) in
  let loc := trans_location c af tid in
  ∃ apps x', udr_writes apps (udrPfdClient (nef c)) x' ∧
    ((put_refused m ∧ ∃ err m', err ≠ nil_err ∧ afAddPFDTransaction key m c =
        (Ret ("", err, m'), with_udrPfd x' (upd_af key (bump_trans af) c))) ∨
     (∃ m1, PfdDatas m1 ⊆ PfdDatas m ∧ PfdDatas m1 ≠ ∅ ∧
        (∀ a d, PfdDatas m !! a = Some d → ExternalAppID d ∈ apps) ∧
        (TestNEFSB = false → PfdDatas m ≠ ∅ → m1 = m) ∧
        afAddPFDTransaction key m c =
          (Ret (loc, nil_err, pfdm_set_PfdDatas (link_apps loc (PfdDatas m1)) m1),
           with_udrPfd x' (upd_af key (add_trans tid (new_trans tid loc m1)
                                         (bump_trans af)) c)))).
Proof.
  intros Haf Hroom tid loc. set (c1 := upd_af key (bump_trans af) c).
  destruct (nefSBUDRPFDPut_run m c1) as (apps & x' & rsp & err & Hw & Hrun & Hok).
  exists apps, x'. split; [done|].
  unfold trans_room in Hroom. unfold afAddPFDTransaction.
  rewrite (bind_ret go_get _ c c c) by done.
  rewrite (bind_ret _ _ _ _ _ (get_af_run _ _ _ Haf)).
  rewrite bool_decide_eq_false_2 by lia.
  rewrite (bind_ret (put_af key _) _ c tt c1) by done. simpl.
  rewrite (bind_ret _ _ _ _ _ Hrun).
  destruct err as [e|]; simpl.
  { left. split; [left; naive_solver|by exists (Some e), m]. }
  destruct Hok as [Happs ->].
  destruct (updatePfdTransOnRsp _ m) as [m1 err1] eqn:Hupd.
  destruct (updatePfdTransOnRsp_shrinks _ _ _ _ Hupd) as (Hself & Hsub & Hne).
  destruct err1 as [e|]; simpl.
  { left. split; [|by exists (errors_New pfdAppsFailed), m1]. right.
    destruct TestNEFSB eqn:Hhook; [by left|right].
    destruct (decide (PfdDatas m = ∅)); [done|].
    by rewrite updatePfdTransOnRsp_production in Hupd by done. }
  right. exists m1. split_and!; [done|naive_solver|done|..].
  { intros Hhook Hnem. rewrite updatePfdTransOnRsp_production in Hupd by done. congruence. }
  set (c2 := with_udrPfd x' c1).
  assert (afs (nef c2) !! key = Some (bump_trans af)) as Haf2 by apply upd_af_lookup.
  rewrite (bind_ret _ _ _ _ _ (get_af_run _ _ _ Haf2)).
  rewrite (bind_ret _ _ _ _ _ (put_trans_run _ _ _ _ _ Haf2)).
  unfold c2, c1. by rewrite upd_af_with_udrPfd, upd_af_upd.
Qed.
End pfd_facts.
