(* ===== verification/NefPfdRefine.v ===== *)
(** * The PFD handlers implement the specification

    Every handler of [NefPfdApi], whatever the request and also when it
    panics, changes the state by at most three effects of
    [NefSpec.nef_effect]. *)

From S2P Require Import Prelude Strconv Http NefModel NefSouth NefCore NefTi NefPfd.
From S2P Require Import NefPfdApi NefSpec NefTiFacts NefPfdFacts.
From stdpp Require Import prelude gmap strings relations.
From Stdlib Require Import ZArith.

Local Open Scope Z_scope.

(** The applications a request supplies satisfy [ok]. *)
Definition req_apps (ok : string → PfdData → Prop) (r : nefRequest) : Prop :=
  match r with
  | ReqPfdCreate _ (BodyOf m) | ReqPfdPut _ _ (BodyOf m) => map_Forall ok (PfdDatas m)
  | ReqAppPut _ _ a (BodyOf d) | ReqAppPatch _ _ a (BodyOf d) => ok a d
  | _ => True
  end.

Section pfd_refine.
Context {P U D : Type}
  `{PcfPolicyAuthorization P, UdrInfluenceData U, UdrPfdData D, GoEnv, NefHooks}.
Context (ok : string → PfdData → Prop)
  (ok_self : ∀ a l d, ok a d → ok a (pfdd_set_Self l d)).
Abbreviation ctx := (nefContext P U D).
Abbreviation effects := (bsteps (nef_effect (P:=P) (U:=U) (D:=D) ok)).
Implicit Types (c : ctx) (af : afData) (t : afPfdTransaction) (m : PfdManagement).

Lemma only_gets_effect c c' : only_gets c c' → nef_effect ok c c'.
Proof. intros (x' & Hx & ->). by apply eff_pfd_get. Qed.

(** ** Creation *)

Lemma afAddPFDTransaction_effect key m c af :
  afs (nef c) !! key = Some af →
  (∀ a d, PfdDatas m !! a = Some d → app_unused a c ∧ ok a d) →
  nef_effect ok c (exec (afAddPFDTransaction key m) c).
Proof.
  intros Haf Hun. unfold exec. destruct (decide (trans_room c af)) as [Hroom|Hroom].
  2: { rewrite (afAddPFDTransaction_full key m c af) by done. constructor. }
  destruct (afAddPFDTransaction_run key m c af Haf Hroom)
    as (apps & x' & Hw & [(_ & err & m' & _ & ->)|(m1 & Hsub & Hne & Happs & _ & ->)]).
  { by eapply eff_pfd_bump. }
  eapply eff_pfd_create; try done.
  - simpl. by intros ?%link_apps_empty.
  - intros a d. simpl. rewrite link_apps_lookup.
    destruct (PfdDatas m1 !! a) as [d0|] eqn:Hd0; [|done]. simpl. intros [= <-].
    assert (PfdDatas m !! a = Some d0) as Hd by (eapply lookup_weaken; [exact Hd0|exact Hsub]).
    destruct (Hun _ _ Hd). split_and!; [done|exact (Happs _ _ Hd)|done|by apply ok_self].
Qed.

(** The error and the maps handed back describe the same run. *)
Lemma createNewPFDTrans_run id m c :
  (is_Some (afs (nef c) !! id) ∧ createNewPFDTrans id m c = afAddPFDTransaction id m c) ∨
  (afs (nef c) !! id = None ∧ MaxAFSupport (cfg c) ≤ Z.of_nat (size (afs (nef c))) ∧
   createNewPFDTrans id m c = (Ret ("", errors_New "MAX AF exceeded", m), c)) ∨
  (afs (nef c) !! id = None ∧ Z.of_nat (size (afs (nef c))) < MaxAFSupport (cfg c) ∧
   createNewPFDTrans id m c =
     afAddPFDTransaction id m (set_nef (set_afCount (int_incr (afCount (nef c))))
                                 (upd_af id (afCreate (cfg c) id) c))).
Proof.
  unfold createNewPFDTrans. rewrite (bind_ret _ _ _ _ _ (nefGetAf_run id c)).
  destruct (afs (nef c) !! id) as [af|] eqn:Haf; simpl.
  { left. split; [eauto|done]. }
  right. destruct (nefAddAf_run id c) as [[Hm Hr]|[Hm Hr]]; [left|right];
    (split_and!; [done|done|]); by rewrite (bind_ret _ _ _ _ _ Hr).
Qed.

Lemma app_unused_add_af a id n c :
  app_unused a c →
  app_unused a (set_nef (set_afCount n) (upd_af id (afCreate (cfg c) id) c)).
Proof.
  intros Hun k af tid t Hk Ht. simpl in Hk.
  destruct (decide (id = k)) as [<-|].
  - rewrite lookup_insert_eq in Hk. by simplify_eq.
  - rewrite lookup_insert_ne in Hk by done. by eapply Hun.
Qed.

Lemma createNewPFDTrans_effect id m c :
  (∀ a d, PfdDatas m !! a = Some d → app_unused a c ∧ ok a d) →
  effects 2 c (exec (createNewPFDTrans id m) c).
Proof.
  intros Hun. unfold exec.
  destruct (createNewPFDTrans_run id m c)
    as [[[af Haf] ->]|[(_ & _ & ->)|(Hnone & Hroom & ->)]].
  - apply effects_one. by eapply afAddPFDTransaction_effect.
  - apply effects_none.
  - eapply effects_two; [by eapply eff_add_af|].
    eapply afAddPFDTransaction_effect; [simpl; apply lookup_insert_eq|].
    intros a d Hd. destruct (Hun _ _ Hd). split; [by apply app_unused_add_af|done].
Qed.

Lemma drop_reports_effect id c : nef_effect ok c (exec (drop_reports id) c).
Proof.
  unfold exec, drop_reports. destruct (afs (nef c) !! id) as [af|] eqn:Haf.
  2: { rewrite (bind_panic _ _ _ _ _ (get_af_none _ _ Haf)). constructor. }
  rewrite (bind_ret _ _ _ _ _ (get_af_run _ _ _ Haf)).
  destruct (pfdtrans af !! _) as [t|] eqn:Ht; [|constructor].
  rewrite (put_trans_run _ _ _ _ _ Haf). by eapply eff_pfd_reports.
Qed.

Lemma CreatePFDManagementTransaction_effect id body w c :
  req_apps ok (ReqPfdCreate id body) →
  effects 3 c (exec (CreatePFDManagementTransaction id body w) c).
Proof.
  intros Hreq.
  unfold CreatePFDManagementTransaction. destruct body as [| |m]; [apply effects_none..|].
  rewrite (exec_bind_ret go_get _ c c) by done.
  destruct (validateAFPfdManagementData c (pfdm_set_PfdReports ∅ m) "POST")
    as [[m' rsp] []] eqn:Hv; [|apply effects_none]. simpl.
  destruct (validate_POST _ _ _ _ Hv) as [Hdatas _].
  case_bool_decide; [apply effects_none|].
  assert (effects 2 c (exec (createNewPFDTrans id m') c)) as Heff.
  { apply createNewPFDTrans_effect. intros a d Hd. apply Hdatas in Hd as [Hd ?].
    split; [done|]. exact (Hreq _ _ Hd). }
  unfold exec, mbind at 1, GoM_bind at 1. unfold exec in Heff.
  destruct (createNewPFDTrans id m' c) as [[[[loc err] m2]|e] c1] eqn:Hrun; simpl in Heff.
  2: { eapply bsteps_weaken; [|done]. lia. }
  destruct err as [e|].
  { simpl. case_bool_decide; (eapply bsteps_weaken; [|done]; lia). }
  simpl.
  eapply (bsteps_trans 2 1); [done|]. apply effects_one.
  match goal with |- nef_effect ok c1 (mbind ?k _ c1).2 =>
    change (nef_effect ok c1 (exec (drop_reports id ≫= k) c1)) end.
  rewrite exec_bind_read_only by (intros ? ?; solve_preserves).
  apply drop_reports_effect.
Qed.

(** ** Updates *)

(** Replacing one application after the UDR accepted it. *)
Lemma app_write_effect key tid appID d c af t d0 apps x' :
  afs (nef c) !! key = Some af → pfdtrans af !! tid = Some t →
  PfdDatas (pfdManagement t) !! appID = Some d0 →
  udr_writes apps (udrPfdClient (nef c)) x' → ExternalAppID d ∈ apps → ok appID d →
  let m := pfdManagement t in
  nef_effect ok c (with_udrPfd x' (upd_af key (add_trans tid (trans_set_pfdm
    (pfdm_set_PfdDatas (<[appID := pfdd_set_Self (pfdd_Self d0) d]> (PfdDatas m)) m) t) af) c)).
Proof.
  intros Haf Ht Hd0 Hw Hin Hok m.
  eapply eff_pfd_update; [done..| |]; simpl; [apply insert_non_empty|].
  intros a d'. destruct (decide (appID = a)) as [<-|Hne].
  - rewrite lookup_insert_eq. intros [= <-]. exists d0. split; [done|].
    right. split_and!; [done|done|by apply ok_self].
  - rewrite lookup_insert_ne by done. eauto.
Qed.

(** What both application updates do once the application is found. *)
Lemma call_NEFSBAppPfdPut_run t d c :
  (∃ e, call_NEFSBAppPfdPut t d c = (Panic e, c)) ∨
  ∃ rsp err x', udr_writes [ExternalAppID d] (udrPfdClient (nef c)) x' ∧
    call_NEFSBAppPfdPut t d c = (Ret (rsp, err), with_udrPfd x' c).
Proof.
  unfold call_NEFSBAppPfdPut. destruct (NEFSBAppPfdPut t); [left; by eexists|right].
  destruct (nefSBUDRAPPPFDPut_run d c) as (pa & r & x' & Hpa & Hcall & Hrun).
  do 3 eexists. split; [|done]. rewrite <- Hpa. by eapply udr_writes_one.
Qed.

Lemma afUpdatePutPfdApplication_effect key tid appID d reports c af :
  afs (nef c) !! key = Some af → ok appID d →
  nef_effect ok c (exec (afUpdatePutPfdApplication key tid appID d reports) c).
Proof.
  intros Haf Hokd. unfold exec, afUpdatePutPfdApplication.
  rewrite (bind_ret _ _ _ _ _ (get_af_run _ _ _ Haf)).
  destruct (pfdtrans af !! tid) as [t|] eqn:Ht; [|constructor].
  destruct (PfdDatas (pfdManagement t) !! appID) as [d0|] eqn:Hd0; [|constructor].
  destruct (call_NEFSBAppPfdPut_run t d c) as [[e He]|(rsp & err & x' & Hw & Hrun)].
  { rewrite (bind_panic _ _ _ _ _ He). constructor. }
  rewrite (bind_ret _ _ _ _ _ Hrun).
  destruct err as [e|]; simpl; [by eapply eff_pfd_writes|].
  destruct (updatePfdAppOnRsp rsp appID reports) as [reports' [e|]]; simpl;
    [by eapply eff_pfd_writes|].
  rewrite (bind_ret _ _ _ _ _ (put_trans_run key _ _ (with_udrPfd x' c) _ Haf)).
  apply (app_write_effect key tid appID d c af t d0 _ _ Haf Ht Hd0 Hw); [set_solver|done].
Qed.

Lemma afUpdatePatchPfdApplication_effect key tid appID d reports c af :
  afs (nef c) !! key = Some af → ok appID d →
  nef_effect ok c (exec (afUpdatePatchPfdApplication key tid appID d reports) c).
Proof.
  intros Haf Hokd. unfold exec, afUpdatePatchPfdApplication.
  rewrite (bind_ret _ _ _ _ _ (get_af_run _ _ _ Haf)).
  destruct (pfdtrans af !! tid) as [t|] eqn:Ht; [|constructor].
  destruct (PfdDatas (pfdManagement t) !! appID) as [d0|] eqn:Hd0; [|constructor].
  destruct (call_NEFSBAppPfdPut_run t d c) as [[e He]|(rsp & err & x' & Hw & Hrun)].
  { rewrite (bind_panic _ _ _ _ _ He). constructor. }
  rewrite (bind_ret _ _ _ _ _ Hrun).
  destruct err as [e|]; simpl; [by eapply eff_pfd_writes|].
  destruct (updatePfdAppOnRsp rsp appID reports) as [reports' [e|]]; simpl;
    [by eapply eff_pfd_writes|].
  rewrite insert_insert_eq.
  rewrite (bind_ret _ _ _ _ _ (put_trans_run key _ _ (with_udrPfd x' c) _ Haf)).
  apply (app_write_effect key tid appID d c af t d0 _ _ Haf Ht Hd0 Hw); [set_solver|done].
Qed.

(** The self links of a replaced transaction come from the old one. *)
Lemma relink_lookup site (old new : gmap string PfdData) a :
  fold_left (λ acc kv,
    <[kv.1 := pfdd_set_Self (pfdd_Self (default zero_PfdData (old !! kv.1))) kv.2]> acc)
    (map_range site new) new !! a =
  (λ d, pfdd_set_Self (pfdd_Self (default zero_PfdData (old !! a))) d) <$> new !! a.
Proof.
  rewrite (range_update site
    (λ k v, pfdd_set_Self (pfdd_Self (default zero_PfdData (old !! k))) v)).
  rewrite map_lookup_imap. by destruct (new !! a).
Qed.

Lemma afUpdatePutPfdTransaction_effect key tid m c af :
  afs (nef c) !! key = Some af → map_Forall ok (PfdDatas m) →
  nef_effect ok c (exec (afUpdatePutPfdTransaction key tid m) c).
Proof.
  intros Haf Hokm. unfold exec, afUpdatePutPfdTransaction.
  rewrite (bind_ret _ _ _ _ _ (get_af_run _ _ _ Haf)).
  destruct (pfdtrans af !! tid) as [t|] eqn:Ht; [|constructor].
  destruct (loop_acc _ _ _) as [[]|] eqn:Hloop; [|constructor].
  rewrite loop_acc_inl in Hloop.
  assert (∀ a d, PfdDatas m !! a = Some d → is_Some (PfdDatas (pfdManagement t) !! a))
    as Hpres.
  { intros a d Hd.
    specialize (Hloop (a, d) ltac:(by apply elem_of_map_range)). simpl in Hloop.
    by destruct (PfdDatas (pfdManagement t) !! a). }
  unfold call_NEFSBPfdPut. destruct (NEFSBPfdPut t); [constructor|].
  destruct (nefSBUDRPFDPut_run m c) as (apps & x' & rsp & err & Hw & Hrun & Hok).
  rewrite (bind_ret _ _ _ _ _ Hrun).
  destruct err as [e|]; simpl; [by eapply eff_pfd_writes|].
  destruct (updatePfdTransOnRsp rsp m) as [m1 err1] eqn:Hupd.
  destruct (updatePfdTransOnRsp_shrinks _ _ _ _ Hupd) as (_ & Hsub & Hne).
  destruct err1 as [e|]; simpl; [by eapply eff_pfd_writes|].
  destruct Hok as [Happs _].
  rewrite (bind_ret _ _ _ _ _ (put_trans_run key _ _ (with_udrPfd x' c) _ Haf)).
  simpl. rewrite upd_af_with_udrPfd. eapply (eff_pfd_update ok c key af tid t); [done..| |]; simpl.
  - destruct (map_choose (PfdDatas m1)) as (a & d & Hd); [naive_solver|].
    intros Hemp. eapply (f_equal (lookup a)) in Hemp.
    by rewrite relink_lookup, Hd, lookup_empty in Hemp.
  - intros a d'. rewrite relink_lookup.
    destruct (PfdDatas m1 !! a) as [d|] eqn:Hd; [|done]. simpl. intros [= <-].
    assert (PfdDatas m !! a = Some d) as Hd' by (eapply lookup_weaken; [exact Hd|exact Hsub]).
    destruct (Hpres _ _ Hd') as [d0 Hd0]. exists d0. rewrite Hd0.
    split; [done|]. right. split_and!; [done|exact (Happs _ _ Hd')|].
    by apply ok_self, Hokm.
Qed.

(** ** Deletion *)

Lemma afDeletePfdTransaction_effect key tid c af :
  afs (nef c) !! key = Some af →
  nef_effect ok c (exec (afDeletePfdTransaction key tid) c).
Proof.
  intros Haf. unfold exec, afDeletePfdTransaction.
  rewrite (bind_ret _ _ _ _ _ (get_af_run _ _ _ Haf)).
  destruct (pfdtrans af !! tid) as [t|] eqn:Ht; [|constructor].
  unfold call_NEFSBPfdDelete. destruct (NEFSBPfdDelete t); [constructor|].
  destruct (nefSBUDRPFDDelete_run t c) as (apps & x' & rsp & err & Hw & Hrun & Hsub & Herr).
  rewrite (bind_ret _ _ _ _ _ Hrun).
  destruct err as [e|]; simpl.
  { destruct Herr as (app & r & x1 & x2 & Hdel). by eapply eff_pfd_delete_fail. }
  rewrite (bind_ret _ _ _ _ _ (get_af_run _ (with_udrPfd x' c) _ Haf)).
  by apply (eff_pfd_delete ok c key af tid t apps x').
Qed.

Lemma afDeletePfdApplication_effect key tid appID c af :
  afs (nef c) !! key = Some af →
  nef_effect ok c (exec (afDeletePfdApplication key tid appID) c).
Proof.
  intros Haf. unfold exec, afDeletePfdApplication.
  rewrite (bind_ret _ _ _ _ _ (get_af_run _ _ _ Haf)).
  destruct (pfdtrans af !! tid) as [t|] eqn:Ht; [|constructor].
  destruct (PfdDatas (pfdManagement t) !! appID) as [d0|] eqn:Hd0; [|constructor].
  rewrite (bind_ret _ _ _ _ _ (put_trans_run _ _ _ _ _ Haf)).
  case_bool_decide as Hsz.
  - go_unfold. rewrite (get_af_run _ _ _ (upd_af_lookup _ _ _)). simpl.
    fold (upd_af key (af_set_pfdtrans
      (delete tid (<[tid := trans_set_pfdm (pfdm_set_PfdDatas
        (delete appID (PfdDatas (pfdManagement t))) (pfdManagement t)) t]> (pfdtrans af)))
      (add_trans tid (trans_set_pfdm (pfdm_set_PfdDatas
        (delete appID (PfdDatas (pfdManagement t))) (pfdManagement t)) t) af)) c).
    unfold set_nef, set_afs; simpl. rewrite insert_insert_eq, delete_insert_eq.
    by eapply (eff_pfd_drop ok c key af tid t).
  - rewrite <- (with_udrPfd_id (upd_af _ _ _)).
    eapply (eff_pfd_update ok c key af tid t _ []); simpl; [done|done|constructor|done|..].
    + intros Hemp. apply Hsz. by rewrite Hemp, map_size_empty.
    + intros a d [_ Hd]%lookup_delete_Some. eauto.
Qed.

Lemma nefCheckDeleteAf_effect id c : nef_effect ok c (exec (nefCheckDeleteAf id) c).
Proof.
  unfold exec, nefCheckDeleteAf. destruct (afs (nef c) !! id) as [af|] eqn:Haf.
  2: { rewrite (bind_panic _ _ _ _ _ (get_af_none _ _ Haf)). constructor. }
  rewrite (bind_ret _ _ _ _ _ (get_af_run _ _ _ Haf)).
  destruct (bool_decide_reflect (afGetSubCount af = 0)) as [Hsz|]; simpl; [|constructor].
  destruct (bool_decide (afGetPfdTransCount af = 0)); [|constructor].
  rewrite (bind_ret _ _ _ _ _ (nefDeleteAf_run _ _ _ Haf)).
  eapply eff_del_af; [done|].
  unfold afGetSubCount in Hsz. apply map_size_empty_inv. lia.
Qed.

(** ** Handlers *)

Lemma UpdatePutPFDManagementTransaction_effect id tid body w c :
  req_apps ok (ReqPfdPut id tid body) → nef_effect ok c (exec (UpdatePutPFDManagementTransaction id tid body w) c).
Proof.
  intros Hreq.
  unfold UpdatePutPFDManagementTransaction.
  rewrite (exec_bind_ret _ _ _ _ (nefGetAf_run id c)).
  destruct (afs (nef c) !! id) as [af|] eqn:Haf; [|constructor]. simpl.
  destruct body as [| |m]; [constructor..|].
  rewrite (exec_bind_ret go_get _ c c) by done.
  destruct (validateAFPfdManagementData c _ "PUT") as [[m' rsp] []] eqn:Hv; [|constructor].
  apply validate_PUT in Hv as ->. simpl.
  rewrite exec_bind_read_only by (intros ? ?; solve_preserves).
  by eapply afUpdatePutPfdTransaction_effect.
Qed.

Lemma UpdatePutPFDManagementApplication_effect id tid appID body w c :
  req_apps ok (ReqAppPut id tid appID body) → nef_effect ok c (exec (UpdatePutPFDManagementApplication id tid appID body w) c).
Proof.
  intros Hreq.
  unfold UpdatePutPFDManagementApplication.
  rewrite (exec_bind_ret _ _ _ _ (nefGetAf_run id c)).
  destruct (afs (nef c) !! id) as [af|] eqn:Haf; [|constructor]. simpl.
  destruct body as [| |d]; [constructor..|].
  destruct (validate_pfds _ _) as [rsp []]; [|constructor]. simpl.
  rewrite exec_bind_read_only by (intros ? ?; solve_preserves).
  by eapply afUpdatePutPfdApplication_effect.
Qed.

Lemma PatchPFDManagementApplication_effect id tid appID body w c :
  req_apps ok (ReqAppPatch id tid appID body) → nef_effect ok c (exec (PatchPFDManagementApplication id tid appID body w) c).
Proof.
  intros Hreq.
  unfold PatchPFDManagementApplication.
  rewrite (exec_bind_ret _ _ _ _ (nefGetAf_run id c)).
  destruct (afs (nef c) !! id) as [af|] eqn:Haf; [|constructor]. simpl.
  destruct body as [| |d]; [constructor..|].
  destruct (validate_pfds _ _) as [rsp []]; [|constructor]. simpl.
  rewrite exec_bind_read_only by (intros ? ?; solve_preserves).
  by eapply afUpdatePatchPfdApplication_effect.
Qed.

(** A deletion followed by the removal of an AF that has nothing left. *)
Lemma delete_then_check_effect {R : Type} (del : GoM ctx (R * error)) id c
    (onerr : R → ResponseWriter nefPayload) w :
  nef_effect ok c (exec del c) →
  effects 2 c (exec (r ← del; let '(rsp, err) := r : R * error in
    if bool_decide (err ≠ nil_err) then mret (onerr rsp)
    else nefCheckDeleteAf id;; mret (WriteHeader StatusNoContent w)) c).
Proof.
  intros Heff. unfold exec, mbind at 1, GoM_bind at 1. unfold exec in Heff.
  destruct (del c) as [[[rsp err]|e] c1]; simpl in Heff; [|by apply effects_one].
  destruct err as [e|]; simpl; [by apply effects_one|].
  eapply effects_two; [done|].
  match goal with |- nef_effect ok c1 (mbind ?k _ c1).2 =>
    change (nef_effect ok c1 (exec (nefCheckDeleteAf id ≫= k) c1)) end.
  rewrite exec_bind_read_only by (intros ? ?; solve_preserves).
  apply nefCheckDeleteAf_effect.
Qed.

Lemma DeletePFDManagementTransaction_effect id tid w c :
  effects 2 c (exec (DeletePFDManagementTransaction id tid w) c).
Proof.
  unfold DeletePFDManagementTransaction.
  rewrite (exec_bind_ret _ _ _ _ (nefGetAf_run id c)).
  destruct (afs (nef c) !! id) as [af|] eqn:Haf; [|apply effects_none]. simpl.
  apply delete_then_check_effect. by eapply afDeletePfdTransaction_effect.
Qed.

Lemma DeletePFDManagementApplication_effect id tid appID w c :
  effects 2 c (exec (DeletePFDManagementApplication id tid appID w) c).
Proof.
  unfold DeletePFDManagementApplication.
  rewrite (exec_bind_ret _ _ _ _ (nefGetAf_run id c)).
  destruct (afs (nef c) !! id) as [af|] eqn:Haf; [|apply effects_none]. simpl.
  apply delete_then_check_effect. by eapply afDeletePfdApplication_effect.
Qed.

Lemma ReadAllPFDManagementTransaction_effect id w c :
  nef_effect ok c (exec (ReadAllPFDManagementTransaction id w) c).
Proof.
  apply only_gets_effect. unfold ReadAllPFDManagementTransaction, exec.
  cut (preserves (only_gets c) (ReadAllPFDManagementTransaction id w)).
  { intros Hp. apply Hp, only_gets_refl. }
  apply preserves_bind; [apply nefGetAf_read_only|]. intros err.
  apply preserves_bind; [|solve_preserves].
  case_bool_decide; [solve_preserves|apply afGetPfdTransactionList_gets].
Qed.

Lemma ReadPFDManagementTransaction_effect id tid w c :
  nef_effect ok c (exec (ReadPFDManagementTransaction id tid w) c).
Proof.
  apply only_gets_effect. unfold exec.
  cut (preserves (only_gets c) (ReadPFDManagementTransaction id tid w)).
  { intros Hp. apply Hp, only_gets_refl. }
  apply preserves_bind; [apply nefGetAf_read_only|]. intros err.
  case_bool_decide; [solve_preserves|].
  apply preserves_bind; [apply afGetPfdTransaction_gets|solve_preserves].
Qed.

Lemma ReadPFDManagementApplication_read_only id tid appID w :
  read_only (ReadPFDManagementApplication (P:=P) (U:=U) (D:=D) id tid appID w).
Proof.
  intros I. apply preserves_bind; [apply nefGetAf_read_only|]. intros err.
  case_bool_decide; [solve_preserves|].
  apply preserves_bind; [|solve_preserves].
  unfold afGetPfdApplication. apply preserves_bind; [apply get_af_read_only|]. solve_preserves.
Qed.

(** ** Any request *)

Lemma serve_effects r w c : req_apps ok r → effects 3 c (exec (serve r w) c).
Proof.
  intros Hreq.
  assert (∀ c', effects 2 c c' → effects 3 c c') as Hw
    by (intros; eapply bsteps_weaken; [|done]; lia).
  destruct r; simpl; try (apply effects_one; auto using
    UpdatePutPFDManagementTransaction_effect, UpdatePutPFDManagementApplication_effect,
    PatchPFDManagementApplication_effect, ReadAllPFDManagementTransaction_effect,
    ReadPFDManagementTransaction_effect; fail).
  - unfold exec. rewrite read_only_state; [apply effects_none|].
    apply ReadAllTrafficInfluenceSubscription_read_only.
  - apply Hw, CreateTrafficInfluenceSubscription_effect.
  - unfold exec. rewrite read_only_state; [apply effects_none|].
    apply ReadTrafficInfluenceSubscription_read_only.
  - apply Hw, UpdatePutTrafficInfluenceSubscription_effect.
  - apply Hw, UpdatePatchTrafficInfluenceSubscription_effect.
  - apply Hw, DeleteTrafficInfluenceSubscription_effect.
  - by apply CreatePFDManagementTransaction_effect.
  - apply Hw, DeletePFDManagementTransaction_effect.
  - unfold exec. rewrite read_only_state; [apply effects_none|].
    apply ReadPFDManagementApplication_read_only.
  - apply Hw, DeletePFDManagementApplication_effect.
  - unfold exec. rewrite read_only_state; [apply effects_none|].
    intros I. apply preserves_bind; [apply NotifySmfUPFEvent_read_only|solve_preserves].
Qed.
End pfd_refine.
