(* ===== verification/NefInv.v ===== *)
(** * The NEF seen as two tables

    The nested maps of the registry, flattened: all subscriptions, and all
    PFD transactions, each under the pair of the AF and its own identifier.
    [effect_subs] and [effect_trans] say what each effect of the
    specification does to the tables.  The second part has the invariants. *)

From S2P Require Import Prelude Strconv Http NefModel NefSouth NefCore NefTi NefPfd NefPfdApi.
From S2P Require Import NefSpec NefTiFacts NefPfdFacts NefPfdRefine.
From stdpp Require Import prelude gmap strings relations.
From Stdlib Require Import ZArith.

Local Open Scope Z_scope.

(** ** Flattening *)

Section flatten.
Context {V : Type} (f : afData → gmap string V).
Implicit Types (m : gmap string afData).

Definition flatten m : gmap (string * string) V :=
  map_uncurry (M12 := gmap (string * string)) (f <$> m).

Lemma lookup_flatten m k i :
  flatten m !! (k, i) = m !! k ≫= λ af, f af !! i.
Proof.
  unfold flatten. rewrite lookup_map_uncurry, lookup_fmap. by destruct (m !! k).
Qed.

Lemma lookup_flatten_Some m k i v :
  flatten m !! (k, i) = Some v ↔ ∃ af, m !! k = Some af ∧ f af !! i = Some v.
Proof. rewrite lookup_flatten. by apply bind_Some. Qed.

Lemma flatten_same m k af af' :
  m !! k = Some af → f af' = f af → flatten (<[k := af']> m) = flatten m.
Proof.
  intros Hk Hf. apply map_eq. intros [k' i]. rewrite !lookup_flatten.
  destruct (decide (k = k')) as [<-|].
  - rewrite lookup_insert_eq, Hk. simpl. by rewrite Hf.
  - by rewrite lookup_insert_ne.
Qed.

Lemma flatten_insert m k af af' i v :
  m !! k = Some af → f af' = <[i := v]> (f af) →
  flatten (<[k := af']> m) = <[(k, i) := v]> (flatten m).
Proof.
  intros Hk Hf. apply map_eq. intros [k' i']. rewrite lookup_flatten.
  destruct (decide (k = k')) as [<-|].
  - rewrite lookup_insert_eq. simpl. rewrite Hf. destruct (decide (i = i')) as [<-|].
    + by rewrite !lookup_insert_eq.
    + rewrite !lookup_insert_ne by congruence. by rewrite lookup_flatten, Hk.
  - rewrite !lookup_insert_ne by congruence. by rewrite lookup_flatten.
Qed.

Lemma flatten_delete m k af af' i :
  m !! k = Some af → f af' = delete i (f af) →
  flatten (<[k := af']> m) = delete (k, i) (flatten m).
Proof.
  intros Hk Hf. apply map_eq. intros [k' i']. rewrite lookup_flatten.
  destruct (decide (k = k')) as [<-|].
  - rewrite lookup_insert_eq. simpl. rewrite Hf. destruct (decide (i = i')) as [<-|].
    + by rewrite !lookup_delete_eq.
    + rewrite !lookup_delete_ne by congruence. by rewrite lookup_flatten, Hk.
  - rewrite lookup_insert_ne, lookup_delete_ne by congruence. by rewrite lookup_flatten.
Qed.

Lemma flatten_new m k af :
  m !! k = None → f af = ∅ → flatten (<[k := af]> m) = flatten m.
Proof.
  intros Hk Hf. apply map_eq. intros [k' i]. rewrite !lookup_flatten.
  destruct (decide (k = k')) as [<-|].
  - rewrite lookup_insert_eq, Hk. simpl. by rewrite Hf, lookup_empty.
  - by rewrite lookup_insert_ne.
Qed.

Lemma flatten_remove m k : flatten (delete k m) ⊆ flatten m.
Proof.
  apply map_subseteq_spec. intros [k' i] v. rewrite !lookup_flatten_Some.
  intros (af & [_ Haf]%lookup_delete_Some & Hv). eauto.
Qed.

Lemma flatten_remove_empty m k af :
  m !! k = Some af → f af = ∅ → flatten (delete k m) = flatten m.
Proof.
  intros Hk Hf. apply map_eq. intros [k' i]. rewrite !lookup_flatten.
  destruct (decide (k = k')) as [<-|].
  - rewrite lookup_delete_eq, Hk. simpl. by rewrite Hf, lookup_empty.
  - by rewrite lookup_delete_ne.
Qed.
End flatten.

Section view.
Context {P U D : Type}
  `{PcfPolicyAuthorization P, UdrInfluenceData U, UdrPfdData D}.
Abbreviation ctx := (nefContext P U D).
Implicit Types (c : ctx) (af : afData) (s : afSubscription) (t : afPfdTransaction).

Definition all_subs c : gmap (string * string) afSubscription := flatten subs (afs (nef c)).
Definition all_trans c : gmap (string * string) afPfdTransaction :=
  flatten pfdtrans (afs (nef c)).

(** What stays of a subscription while it is updated. *)
Definition same_sub s s' : Prop :=
  subid s' = subid s ∧ appSessionID s' = appSessionID s ∧ iid s' = iid s ∧
  NEFSBGet s' = NEFSBGet s ∧ NEFSBPut s' = NEFSBPut s ∧ NEFSBPatch s' = NEFSBPatch s ∧
  NEFSBDelete s' = NEFSBDelete s ∧ ti_Self (sub_ti s') = ti_Self (sub_ti s).

(** What an effect does to the table of subscriptions, to the correlation
    counter and to the PCF. *)
Inductive sub_change c c' : Prop :=
| sc_same :
    all_subs c' = all_subs c → pcfClient (nef c') = pcfClient (nef c) →
    corrID (nef c') = corrID (nef c) ∨ corrID (nef c') = corr_next c → sub_change c c'
| sc_post_fail body id resp e :
    all_subs c' = all_subs c → corrID (nef c') = corr_next c →
    PolicyAuthorizationCreate body (pcfClient (nef c)) =
      ((id, resp, Some e), pcfClient (nef c')) → sub_change c c'
| sc_post_pcf key af ti body id resp :
    afs (nef c) !! key = Some af →
    let sid := Itoa (subIDnum af) in
    all_subs c' = <[(key, sid) := new_pcf_sub sid ti (sub_location c af sid) (corr_text c)
                      (kept_session id resp)]> (all_subs c) →
    corrID (nef c') = corr_next c →
    PolicyAuthorizationCreate body (pcfClient (nef c)) =
      ((id, resp, nil_err), pcfClient (nef c')) → sub_change c c'
| sc_post_udr key af ti corr :
    afs (nef c) !! key = Some af →
    let sid := Itoa (subIDnum af) in
    all_subs c' = <[(key, sid) := new_udr_sub sid ti (sub_location c af sid) corr]>
                    (all_subs c) →
    pcfClient (nef c') = pcfClient (nef c) →
    corr = "" ∧ corrID (nef c') = corrID (nef c) ∨
    corr = corr_text c ∧ corrID (nef c') = corr_next c → sub_change c c'
| sc_update k s s' :
    all_subs c !! k = Some s → same_sub s s' → all_subs c' = <[k := s']> (all_subs c) →
    NotifCorreID s' = NotifCorreID s ∧ corrID (nef c') = corrID (nef c) ∨
    NotifCorreID s' = corr_text c ∧ corrID (nef c') = corr_next c →
    pcfClient (nef c') = pcfClient (nef c) ∨
    (NEFSBPatch s = SBPcf ∧ ∃ body r,
      PolicyAuthorizationUpdate body (appSessionID s) (pcfClient (nef c))
        = (r, pcfClient (nef c'))) → sub_change c c'
| sc_delete k s :
    all_subs c !! k = Some s → all_subs c' = delete k (all_subs c) →
    corrID (nef c') = corrID (nef c) →
    (NEFSBDelete s = SBUdr ∧ pcfClient (nef c') = pcfClient (nef c)) ∨
    (NEFSBDelete s = SBPcf ∧ ∃ r,
      PolicyAuthorizationDelete (appSessionID s) (pcfClient (nef c))
        = ((r, nil_err), pcfClient (nef c'))) → sub_change c c'
| sc_delete_fail k s r e :
    all_subs c !! k = Some s → all_subs c' = all_subs c →
    corrID (nef c') = corrID (nef c) → NEFSBDelete s = SBPcf →
    PolicyAuthorizationDelete (appSessionID s) (pcfClient (nef c))
        = ((r, Some e), pcfClient (nef c')) → sub_change c c'.

Lemma all_subs_lookup c key af sid s :
  afs (nef c) !! key = Some af → subs af !! sid = Some s →
  all_subs c !! (key, sid) = Some s.
Proof. intros. apply lookup_flatten_Some. eauto. Qed.

Lemma all_trans_lookup c key af tid t :
  afs (nef c) !! key = Some af → pfdtrans af !! tid = Some t →
  all_trans c !! (key, tid) = Some t.
Proof. intros. apply lookup_flatten_Some. eauto. Qed.

Lemma effect_subs ok c c' : nef_effect ok c c' → sub_change c c'.
Proof.
  destruct 1 as [|id n Hnone ?|id af Haf Hemp|key af n Haf ? Hn
    |key af ti body id resp err p' Haf ? Hp Hcall
    |key af ti body resp err u' Haf ? Hp Hu Hcall
    |key af sid s ti body resp err u' Haf Hs Hf Hcall
    |key af sid s t' p' u' Haf Hs Hself Hcase
    |key af sid s err p' u' Haf Hs Hcase
    |x' Hx|key af apps x' Haf|key af t apps x' Haf|key af tid t m' apps x' Haf
    |key af tid t r' Haf|apps x'|key af tid t apps x' Haf|key af tid t apps x' app r e x1 x2 Haf
    |key af tid t Haf].
  all: try (apply sc_same; [|done|by left]; try done; by eapply flatten_same).
  - apply sc_same; [|done|by left]. by eapply flatten_new.
  - apply sc_same; [|done|by left]. by eapply flatten_remove_empty.
  - apply sc_same; [by eapply flatten_same|done|done].
  - destruct err as [e|].
    + eapply sc_post_fail; [by eapply flatten_same|done|done].
    + eapply sc_post_pcf; [done|by eapply flatten_insert|done|done].
  - destruct err as [e|].
    + apply sc_same; [by eapply flatten_same|done|].
      simpl. destruct (wants_up_path_change ti); [by right|by left].
    + eapply sc_post_udr; [done|by eapply flatten_insert|done|].
      simpl. destruct (wants_up_path_change ti); [by right|by left].
  - eapply sc_update; [by eapply all_subs_lookup| |by eapply flatten_insert| |by left].
    + destruct err, (wants_up_path_change ti); done.
    + simpl. destruct err, (wants_up_path_change ti);
        solve [by left | by right].
  - eapply (sc_update _ _ _ s (sub_set_ti t' s));
      [by eapply all_subs_lookup|done|by eapply flatten_insert|by left|].
    destruct Hcase as [(? & _ & ?)|(? & -> & _)]; [by right|by left].
  - destruct err as [e|].
    + destruct Hcase as [(Hd & _ & r & Hcall)|(? & -> & _)].
      * eapply sc_delete_fail; [by eapply all_subs_lookup| |done|done|done].
        by eapply flatten_same.
      * apply sc_same; [|done|by left]. by eapply flatten_same.
    + eapply sc_delete; [by eapply all_subs_lookup|by eapply flatten_delete|done|].
      destruct Hcase as [(Hd & _ & r & Hcall)|(? & -> & _)]; [right; eauto|by left].
Qed.

(** What an effect does to the table of transactions and to the UDR. *)
Inductive trans_change (ok : string → PfdData → Prop) c c' : Prop :=
| tc_shrink :
    all_trans c' ⊆ all_trans c → udrPfdClient (nef c') = udrPfdClient (nef c) →
    trans_change ok c c'
| tc_get :
    all_trans c' = all_trans c →
    rtc (λ x x', ∃ app r, UdrPfdDataGet app x = (r, x'))
      (udrPfdClient (nef c)) (udrPfdClient (nef c')) → trans_change ok c c'
| tc_writes apps :
    all_trans c' = all_trans c →
    udr_writes apps (udrPfdClient (nef c)) (udrPfdClient (nef c')) → trans_change ok c c'
| tc_create key tid t apps :
    all_trans c' = <[(key, tid) := t]> (all_trans c) →
    udr_writes apps (udrPfdClient (nef c)) (udrPfdClient (nef c')) →
    (∀ a d, PfdDatas (pfdManagement t) !! a = Some d →
       ExternalAppID d ∈ apps ∧ app_unused a c ∧ ok a d) → trans_change ok c c'
| tc_update k t t' apps :
    all_trans c !! k = Some t → all_trans c' = <[k := t']> (all_trans c) →
    udr_writes apps (udrPfdClient (nef c)) (udrPfdClient (nef c')) →
    (∀ a d', PfdDatas (pfdManagement t') !! a = Some d' →
       ∃ d, PfdDatas (pfdManagement t) !! a = Some d ∧
         (d' = d ∨ ExternalAppID d' ∈ apps ∧ ok a d')) → trans_change ok c c'
| tc_delete k t apps :
    all_trans c !! k = Some t → all_trans c' = delete k (all_trans c) →
    list_to_set apps ⊆ ext_ids (PfdDatas (pfdManagement t)) →
    udr_deletes apps (udrPfdClient (nef c)) (udrPfdClient (nef c')) → trans_change ok c c'
| tc_delete_fail apps app r e x1 x2 :
    all_trans c' = all_trans c →
    udr_deletes apps (udrPfdClient (nef c)) (udrPfdClient (nef c')) →
    UdrPfdDataDelete app x1 = ((r, Some e), x2) → trans_change ok c c'.

Lemma effect_trans ok c c' : nef_effect ok c c' → trans_change ok c c'.
Proof.
  destruct 1 as [|id n Hnone ?|id af Haf Hemp|key af n Haf ? Hn
    |key af ti body id resp err p' Haf ? Hp Hcall
    |key af ti body resp err u' Haf ? Hp Hu Hcall
    |key af sid s ti body resp err u' Haf Hs Hf Hcall
    |key af sid s t' p' u' Haf Hs Hself Hcase
    |key af sid s err p' u' Haf Hs Hcase
    |x' Hx|key af apps x' Haf ? Hw|key af t apps x' Haf ? Hw tid loc Htid Hloc Hfn Hne Happs
    |key af tid t m' apps x' Haf Ht Hw m Hself Hne Happs
    |key af tid t r' Haf Ht|apps x' Hw|key af tid t apps x' Haf Ht Hsub Hdel
    |key af tid t apps x' app r e x1 x2 Haf Ht Hsub Hdel Herr
    |key af tid t Haf Ht].
  all: try (apply tc_shrink; [|done]; apply reflexive_eq;
            solve [done|by eapply flatten_same|by eapply flatten_new]).
  - apply tc_shrink; [apply flatten_remove|done].
  - apply tc_shrink; [|done]. apply reflexive_eq. eapply flatten_same; [done|by destruct err].
  - apply tc_shrink; [|done]. apply reflexive_eq. eapply flatten_same; [done|by destruct err].
  - apply tc_shrink; [|done]. apply reflexive_eq. eapply flatten_same; [done|by destruct err].
  - by apply tc_get.
  - eapply tc_writes; [by eapply flatten_same|done].
  - eapply tc_create; [by eapply flatten_insert|done|]. intros a d Hd.
    by destruct (Happs _ _ Hd) as (_ & ? & ? & ?).
  - eapply (tc_update _ _ _ _ t); [by eapply all_trans_lookup|by eapply flatten_insert|done|].
    intros a d' Hd'. destruct (Happs _ _ Hd') as (d & Hd & Hcase). exists d.
    split; [done|]. destruct Hcase as [|(_ & ? & ?)]; [by left|by right].
  - eapply (tc_update _ _ _ _ t); [by eapply all_trans_lookup|by eapply flatten_insert| |].
    + constructor.
    + simpl. eauto.
  - by eapply tc_writes.
  - eapply tc_delete; [by eapply all_trans_lookup|by eapply flatten_delete|done|done].
  - by eapply tc_delete_fail.
  - apply tc_shrink; [|done].
    unfold all_trans; simpl. erewrite (flatten_delete pfdtrans) by done.
    apply delete_subseteq.
Qed.
End view.

(** * Invariants of the NEF

    [registry_inv] (identifiers, links, limits and callbacks of everything
    registered), [corr_inv] (correlation identifiers), [pcf_inv] (the sessions
    at the PCF are those of the subscriptions) and [app_inv] (the PFDs at the
    UDR).  Each is preserved by every effect of the specification and hence
    holds whatever the requests served.  The number [n] counts effects: it
    bounds the counters, which stay clear of machine overflow as long as
    [cfg_room] holds. *)

(** The configured counters leave room for [n] more identifiers. *)
Definition cfg_room (cf : Config) (n : nat) : Prop :=
  0 ≤ SubStartID cf ∧ SubStartID cf + correlationIDOffset + Z.of_nat n < 2 ^ 62 ∧
  0 ≤ PfdTransStartID cf ∧ PfdTransStartID cf + Z.of_nat n < 2 ^ 62.

Lemma cfg_room_mono cf n m : (m ≤ n)%nat → cfg_room cf n → cfg_room cf m.
Proof. unfold cfg_room. lia. Qed.

(** ** Well-formed entries *)

Record sub_wf (pre : string) (lo hi : Z) (key sid : string) (s : afSubscription) : Prop := {
  sw_num : ∃ i, lo ≤ i < hi ∧ sid = Itoa i;
  sw_id : subid s = sid;
  sw_iid : iid s = "";
  sw_self : ti_Self (sub_ti s) = pre +:+ key +:+ "/subscriptions/" +:+ sid;
  sw_fn : NEFSBPut s ≠ SBNil ∧ NEFSBGet s = NEFSBPut s ∧ NEFSBPatch s = NEFSBPut s ∧
          NEFSBDelete s = NEFSBPut s;
}.

Record trans_wf (pre : string) (lo hi : Z) (key tid : string) (t : afPfdTransaction)
    : Prop := {
  tw_num : ∃ i, lo ≤ i < hi ∧ tid = Itoa i;
  tw_id : transID t = tid;
  tw_self : pfdm_Self (pfdManagement t) = pre +:+ key +:+ "/transactions/" +:+ tid;
  tw_fn : NEFSBPfdGet t = PfdUdr ∧ NEFSBPfdPut t = PfdUdr ∧ NEFSBAppPfdPut t = PfdUdr ∧
          NEFSBPfdDelete t = PfdUdr;
  tw_apps : PfdDatas (pfdManagement t) ≠ ∅ ∧
    ∀ a d, PfdDatas (pfdManagement t) !! a = Some d →
      pfdd_Self d = (pre +:+ key +:+ "/transactions/" +:+ tid) +:+ "/applications/" +:+ a;
}.

Record af_wf (cf : Config) (pre prePfd : string) (n : nat) (key : string) (af : afData)
    : Prop := {
  aw_id : afID af = key;
  aw_subnum : SubStartID cf ≤ subIDnum af ≤ SubStartID cf + Z.of_nat n;
  aw_transnum : PfdTransStartID cf ≤ transIDnum af ≤ PfdTransStartID cf + Z.of_nat n;
  aw_subs_size : Z.of_nat (size (subs af)) ≤ Z.max 0 (MaxSubSupport cf);
  aw_trans_size : Z.of_nat (size (pfdtrans af)) ≤ Z.max 0 (MaxPfdTransSupport cf);
  aw_subs : map_Forall (sub_wf pre (SubStartID cf) (subIDnum af) key) (subs af);
  aw_trans : map_Forall (trans_wf prePfd (PfdTransStartID cf) (transIDnum af) key)
               (pfdtrans af);
}.

Lemma sub_wf_hi pre lo hi hi' key sid s :
  hi ≤ hi' → sub_wf pre lo hi key sid s → sub_wf pre lo hi' key sid s.
Proof. intros Hle [(i & ? & ?) ? ? ? ?]. split; try done. exists i. split; [lia|done]. Qed.

Lemma trans_wf_hi pre lo hi hi' key tid t :
  hi ≤ hi' → trans_wf pre lo hi key tid t → trans_wf pre lo hi' key tid t.
Proof. intros Hle [(i & ? & ?) ? ? ? ?]. split; try done. exists i. split; [lia|done]. Qed.

Section entries.
Context (cf : Config) (pre prePfd : string).
Abbreviation wf := (af_wf cf pre prePfd).
Implicit Types (af : afData) (s : afSubscription) (t : afPfdTransaction) (n : nat).

Lemma af_wf_S n key af : wf n key af → wf (S n) key af.
Proof. intros []. split; try done; lia. Qed.

Lemma af_wf_create n key : wf n key (afCreate cf key).
Proof.
  split; cbn [afCreate afID subIDnum transIDnum subs pfdtrans]; rewrite ?map_size_empty;
    first [done | lia | apply map_Forall_empty].
Qed.

Lemma bump_sub_num n key af :
  wf n key af → cfg_room cf (S n) → subIDnum (bump_sub af) = subIDnum af + 1.
Proof.
  intros [] ?. simpl. apply int_incr_small.
  unfold max_int, cfg_room, correlationIDOffset in *. lia.
Qed.

Lemma bump_trans_num n key af :
  wf n key af → cfg_room cf (S n) → transIDnum (bump_trans af) = transIDnum af + 1.
Proof. intros [] ?. simpl. apply int_incr_small. unfold max_int, cfg_room in *. lia. Qed.

Lemma af_wf_bump_sub n key af : wf n key af → cfg_room cf (S n) → wf (S n) key (bump_sub af).
Proof.
  intros Hwf Hr. pose proof (bump_sub_num n key af Hwf Hr) as Hnum. destruct Hwf.
  split; simpl in *; try done; rewrite ?Hnum; try lia.
  eapply map_Forall_impl; [done|]. intros sid s. apply sub_wf_hi. lia.
Qed.

Lemma af_wf_bump_trans n key af :
  wf n key af → cfg_room cf (S n) → wf (S n) key (bump_trans af).
Proof.
  intros Hwf Hr. pose proof (bump_trans_num n key af Hwf Hr) as Hnum. destruct Hwf.
  split; simpl in *; try done; rewrite ?Hnum; try lia.
  eapply map_Forall_impl; [done|]. intros tid t. apply trans_wf_hi. lia.
Qed.

(** Entering something under a number that was just taken. *)
Lemma af_wf_new_sub n key af s :
  wf n key af → cfg_room cf (S n) → Z.of_nat (size (subs af)) < MaxSubSupport cf →
  sub_wf pre (SubStartID cf) (subIDnum (bump_sub af)) key (Itoa (subIDnum af)) s →
  wf (S n) key (add_sub (Itoa (subIDnum af)) s (bump_sub af)).
Proof.
  intros Hwf Hr Hsz Hs. destruct (af_wf_bump_sub n key af Hwf Hr).
  split; simpl in *; try done.
  - rewrite map_size_insert. destruct (subs af !! _); simpl; lia.
  - by apply map_Forall_insert_2.
Qed.

Lemma af_wf_new_trans n key af t :
  wf n key af → cfg_room cf (S n) → Z.of_nat (size (pfdtrans af)) < MaxPfdTransSupport cf →
  trans_wf prePfd (PfdTransStartID cf) (transIDnum (bump_trans af)) key
    (Itoa (transIDnum af)) t →
  wf (S n) key (add_trans (Itoa (transIDnum af)) t (bump_trans af)).
Proof.
  intros Hwf Hr Hsz Ht. destruct (af_wf_bump_trans n key af Hwf Hr).
  split; simpl in *; try done.
  - rewrite map_size_insert. destruct (pfdtrans af !! _); simpl; lia.
  - by apply map_Forall_insert_2.
Qed.

(** Replacing an entry by one that is well-formed too. *)
Lemma af_wf_set_sub n key af sid s s' :
  wf n key af → subs af !! sid = Some s →
  (sub_wf pre (SubStartID cf) (subIDnum af) key sid s →
   sub_wf pre (SubStartID cf) (subIDnum af) key sid s') →
  wf n key (add_sub sid s' af).
Proof.
  intros [] Hs Hs'. split; simpl in *; try done.
  - rewrite map_size_insert_Some; eauto.
  - apply map_Forall_insert_2; eauto.
Qed.

Lemma af_wf_set_trans n key af tid t t' :
  wf n key af → pfdtrans af !! tid = Some t →
  (trans_wf prePfd (PfdTransStartID cf) (transIDnum af) key tid t →
   trans_wf prePfd (PfdTransStartID cf) (transIDnum af) key tid t') →
  wf n key (add_trans tid t' af).
Proof.
  intros [] Ht Ht'. split; simpl in *; try done.
  - rewrite map_size_insert_Some; eauto.
  - apply map_Forall_insert_2; eauto.
Qed.

Lemma af_wf_del_sub n key af sid :
  wf n key af → wf n key (af_set_subs (delete sid (subs af)) af).
Proof.
  intros []. split; simpl in *; try done.
  - rewrite map_size_delete. destruct (subs af !! sid); simpl; lia.
  - by apply map_Forall_delete.
Qed.

Lemma af_wf_del_trans n key af tid :
  wf n key af → wf n key (af_set_pfdtrans (delete tid (pfdtrans af)) af).
Proof.
  intros []. split; simpl in *; try done.
  - rewrite map_size_delete. destruct (pfdtrans af !! tid); simpl; lia.
  - by apply map_Forall_delete.
Qed.
End entries.

Section invariants.
Context {P U D : Type}
  `{PcfPolicyAuthorization P, UdrInfluenceData U, UdrPfdData D}.
Abbreviation ctx := (nefContext P U D).
Implicit Types (c : ctx) (af : afData) (s : afSubscription) (t : afPfdTransaction).

(** The parts of the state that no request changes. *)
Definition frame c c' : Prop :=
  cfg c' = cfg c ∧ locationURLPrefix (nef c') = locationURLPrefix (nef c) ∧
  locationURLPrefixPfd (nef c') = locationURLPrefixPfd (nef c) ∧
  upfNotificationURL (nef c') = upfNotificationURL (nef c).

(** ** The registry *)

(** [c0] is the state the service started in. *)
Record registry_inv c0 (n : nat) c : Prop := {
  ri_frame : frame c0 c;
  ri_size : Z.of_nat (size (afs (nef c))) ≤ Z.max 0 (MaxAFSupport (cfg c0));
  ri_afs : map_Forall (af_wf (cfg c0) (locationURLPrefix (nef c0))
                         (locationURLPrefixPfd (nef c0)) n) (afs (nef c));
}.

Lemma registry_S c0 n c c' :
  registry_inv c0 n c → frame c c' → afs (nef c') = afs (nef c) →
  registry_inv c0 (S n) c'.
Proof.
  intros [Hf Hsz Hafs] Hf' Heq. split.
  - unfold frame in *. intuition congruence.
  - by rewrite Heq.
  - rewrite Heq. eapply map_Forall_impl; [done|]. intros k af. apply af_wf_S.
Qed.

(** One entry changes. *)
Lemma registry_upd c0 n c c' key af af' :
  registry_inv c0 n c → frame c c' → afs (nef c) !! key = Some af →
  afs (nef c') = <[key := af']> (afs (nef c)) →
  (af_wf (cfg c) (locationURLPrefix (nef c)) (locationURLPrefixPfd (nef c)) n key af →
   af_wf (cfg c) (locationURLPrefix (nef c)) (locationURLPrefixPfd (nef c)) (S n) key af') →
  registry_inv c0 (S n) c'.
Proof.
  intros [Hf Hsz Hafs] Hf' Haf Heq Hwf. split.
  - unfold frame in *. intuition congruence.
  - rewrite Heq, map_size_insert_Some; eauto.
  - rewrite Heq. destruct Hf as (Hc & Hp & Hq & _). rewrite Hc, Hp, Hq in Hwf.
    apply map_Forall_insert_2; [by apply Hwf, Hafs|].
    eapply map_Forall_impl; [done|]. intros k af0. apply af_wf_S.
Qed.

(** The subscriptions and transactions that creations enter. *)
Lemma new_sub_wf n c key af s prePfd :
  let sid := Itoa (subIDnum af) in
  af_wf (cfg c) (locationURLPrefix (nef c)) prePfd n key af → cfg_room (cfg c) (S n) →
  subid s = sid → iid s = "" → ti_Self (sub_ti s) = sub_location c af sid →
  NEFSBPut s ≠ SBNil ∧ NEFSBGet s = NEFSBPut s ∧ NEFSBPatch s = NEFSBPut s ∧
    NEFSBDelete s = NEFSBPut s →
  sub_wf (locationURLPrefix (nef c)) (SubStartID (cfg c)) (subIDnum (bump_sub af)) key sid s.
Proof.
  intros sid Hwf Hr Hid Hiid Hself Hfn.
  rewrite (bump_sub_num _ _ _ _ _ _ Hwf Hr). destruct Hwf.
  split; [exists (subIDnum af); split; [lia|done]|done..| |done].
  rewrite Hself. unfold sub_location. congruence.
Qed.

Lemma new_trans_wf n c key af t pre :
  let tid := Itoa (transIDnum af) in
  let loc := trans_location c af tid in
  af_wf (cfg c) pre (locationURLPrefixPfd (nef c)) n key af → cfg_room (cfg c) (S n) →
  transID t = tid → pfdm_Self (pfdManagement t) = loc →
  NEFSBPfdGet t = PfdUdr ∧ NEFSBPfdPut t = PfdUdr ∧
    NEFSBAppPfdPut t = PfdUdr ∧ NEFSBPfdDelete t = PfdUdr →
  PfdDatas (pfdManagement t) ≠ ∅ →
  (∀ a d, PfdDatas (pfdManagement t) !! a = Some d →
     pfdd_Self d = loc +:+ "/applications/" +:+ a) →
  trans_wf (locationURLPrefixPfd (nef c)) (PfdTransStartID (cfg c))
    (transIDnum (bump_trans af)) key tid t.
Proof.
  intros tid loc Hwf Hr Hid Hself Hfn Hne Happs.
  rewrite (bump_trans_num _ _ _ _ _ _ Hwf Hr). destruct Hwf as [Hkey].
  assert (loc = locationURLPrefixPfd (nef c) +:+ key +:+ "/transactions/" +:+ tid) as Hloc
    by (unfold loc, trans_location; congruence).
  split; [exists (transIDnum af); split; [lia|done]|done|congruence|done|].
  split; [done|]. intros a d Hd. rewrite <- Hloc. by apply Happs.
Qed.

Lemma registry_effect ok c0 n c c' :
  cfg_room (cfg c0) (S n) → nef_effect ok c c' →
  registry_inv c0 n c → registry_inv c0 (S n) c'.
Proof.
  intros Hroom Heff Hinv.
  assert (cfg c = cfg c0) as Hcfg by apply Hinv. rewrite <- Hcfg in Hroom.
  destruct Heff as [|id n0 Hnone Hmax|id af Haf Hemp|key af n0 Haf Hr Hn
    |key af ti body id resp err p' Haf Hr Hp Hcall
    |key af ti body resp err u' Haf Hr Hp Hu Hcall
    |key af sid s ti body resp err u' Haf Hs Hf Hcall
    |key af sid s t' p' u' Haf Hs Hself Hcase
    |key af sid s err p' u' Haf Hs Hcase
    |x' Hx|key af apps x' Haf Hr Hw|key af t apps x' Haf Hr Hw tid loc Htid Hloc Hfn Hne Happs
    |key af tid t m' apps x' Haf Ht Hw m Hself Hne Happs
    |key af tid t r' Haf Ht|apps x' Hw|key af tid t apps x' Haf Ht Hsub Hdel
    |key af tid t apps x' app r e x1 x2 Haf Ht Hsub Hdel Herr
    |key af tid t Haf Ht].
  all: try (by eapply registry_S).
  all: try (eapply registry_upd; [done|done|done|reflexivity|]; intros Hwf).
  - destruct Hinv as [Hfr Hsz Hafs]. split; [done|..]; simpl.
    + rewrite map_size_insert_None by done. rewrite <- Hcfg. lia.
    + apply map_Forall_insert_2; [rewrite Hcfg; apply af_wf_create|].
      eapply map_Forall_impl; [done|]. intros k af. apply af_wf_S.
  - destruct Hinv as [Hfr Hsz Hafs]. split; [done|..]; simpl.
    + rewrite map_size_delete_Some by eauto. lia.
    + apply map_Forall_delete. eapply map_Forall_impl; [done|]. intros k af0. apply af_wf_S.
  - by apply af_wf_bump_sub.
  - destruct err; [by apply af_wf_bump_sub|].
    apply af_wf_new_sub; [done..|]. by eapply new_sub_wf.
  - destruct err; [by apply af_wf_bump_sub|].
    apply af_wf_new_sub; [done..|]. by eapply new_sub_wf.
  - apply af_wf_S. eapply af_wf_set_sub; [done..|].
    by intros []; destruct err, (wants_up_path_change ti).
  - apply af_wf_S. eapply af_wf_set_sub; [done..|]. intros []. split; simpl; first [done|congruence].
  - apply af_wf_S. destruct err; [done|]. by apply af_wf_del_sub.
  - by apply af_wf_bump_trans.
  - subst tid. apply af_wf_new_trans; [done..|]. eapply new_trans_wf; [done..|].
    intros a d Hd. by destruct (Happs _ _ Hd).
  - apply af_wf_S. eapply af_wf_set_trans; [done..|]. intros [? ? ? ? [_ Hlinks]].
    split; simpl; try done; [by rewrite Hself|]. split; [done|]. intros a d' Hd'.
    destruct (Happs _ _ Hd') as (d & Hd & [->|(-> & _)]); by apply Hlinks.
  - apply af_wf_S. eapply af_wf_set_trans; [done..|]. intros []. by split.
  - apply af_wf_S. by apply af_wf_del_trans.
  - apply af_wf_S. by apply af_wf_del_trans.
Qed.

(** Entries of the tables are well-formed, and the next number is free. *)
Lemma registry_sub c0 n c key sid s :
  registry_inv c0 n c → all_subs c !! (key, sid) = Some s →
  ∃ hi, sub_wf (locationURLPrefix (nef c0)) (SubStartID (cfg c0)) hi key sid s.
Proof.
  intros Hinv (af & Haf & Hs)%lookup_flatten_Some.
  apply (ri_afs _ _ _ Hinv) in Haf. exists (subIDnum af). by apply (aw_subs _ _ _ _ _ _ Haf).
Qed.

Lemma registry_trans c0 n c key tid t :
  registry_inv c0 n c → all_trans c !! (key, tid) = Some t →
  ∃ hi, trans_wf (locationURLPrefixPfd (nef c0)) (PfdTransStartID (cfg c0)) hi key tid t.
Proof.
  intros Hinv (af & Haf & Hs)%lookup_flatten_Some.
  apply (ri_afs _ _ _ Hinv) in Haf. exists (transIDnum af).
  by apply (aw_trans _ _ _ _ _ _ Haf).
Qed.

Lemma registry_fresh_sub c0 n c key af :
  registry_inv c0 n c → afs (nef c) !! key = Some af →
  subs af !! Itoa (subIDnum af) = None.
Proof.
  intros Hinv Haf. destruct (subs af !! _) as [s|] eqn:Hs; [exfalso|done].
  apply (ri_afs _ _ _ Hinv) in Haf.
  apply (aw_subs _ _ _ _ _ _ Haf) in Hs as [(i & ? & Heq%Itoa_inj) _ _ _ _]. lia.
Qed.

Lemma registry_fresh_trans c0 n c key af :
  registry_inv c0 n c → afs (nef c) !! key = Some af →
  pfdtrans af !! Itoa (transIDnum af) = None.
Proof.
  intros Hinv Haf. destruct (pfdtrans af !! _) as [s|] eqn:Hs; [exfalso|done].
  apply (ri_afs _ _ _ Hinv) in Haf.
  apply (aw_trans _ _ _ _ _ _ Haf) in Hs as [(i & ? & Heq%Itoa_inj) _ _ _ _]. lia.
Qed.
End invariants.
