(* ===== verification/NefSouthInv.v ===== *)
(** * Invariants between the NEF and its southbound functions

    Correlation identifiers are unique; the sessions at the PCF are exactly
    those of the subscriptions; every PFD application held by a transaction
    is held by no other and is stored at the UDR. *)

From S2P Require Import Prelude Strconv Http NefModel NefSouth NefCore NefTi NefPfd.
From S2P Require Import NefPfdApi NefSpec NefTiFacts NefPfdFacts NefPfdRefine NefInv.
From stdpp Require Import prelude gmap strings relations.
From Stdlib Require Import ZArith.

Local Open Scope Z_scope.

Section south.
Context {P U D : Type}
  `{PcfPolicyAuthorization P, UdrInfluenceData U, UdrPfdData D}.
Abbreviation ctx := (nefContext P U D).
Implicit Types (c : ctx) (af : afData) (s : afSubscription) (t : afPfdTransaction).

(** ** Correlation identifiers *)

Definition first_corr c0 : Z := SubStartID (cfg c0) + correlationIDOffset.

Record corr_inv c0 (n : nat) c : Prop := {
  ci_bounds : first_corr c0 ≤ corrID (nef c) ≤ first_corr c0 + Z.of_nat n;
  ci_taken : map_Forall (λ _ s, NotifCorreID s = "" ∨
    ∃ i, first_corr c0 ≤ i < corrID (nef c) ∧ NotifCorreID s = Itoa i) (all_subs c);
  ci_unique : ∀ k1 s1 k2 s2, all_subs c !! k1 = Some s1 → all_subs c !! k2 = Some s2 →
    NotifCorreID s1 = NotifCorreID s2 → NotifCorreID s1 ≠ "" → k1 = k2;
}.

Lemma corr_small c0 n c :
  cfg_room (cfg c0) (S n) → corr_inv c0 n c →
  corr_text c = Itoa (corrID (nef c)) ∧ corr_next c = corrID (nef c) + 1.
Proof.
  intros Hr [Hb _ _]. unfold corr_text, corr_next, uint_incr, wrap_uint.
  unfold first_corr, cfg_room, correlationIDOffset in *.
  rewrite wrap_int_small by (unfold max_int; lia).
  rewrite Z.mod_small by lia. done.
Qed.

(** The table stays or shrinks. *)
Lemma corr_shrink c0 n c c' :
  corr_inv c0 n c → all_subs c' ⊆ all_subs c →
  corrID (nef c) ≤ corrID (nef c') ≤ corrID (nef c) + 1 → corr_inv c0 (S n) c'.
Proof.
  intros [Hb Ht Hu] Hsub Hc. split; [lia|..].
  - intros k s Hs. eapply lookup_weaken in Hs; [|done].
    destruct (Ht k s Hs) as [?|(i & ? & ?)]; [by left|right]. exists i. split; [lia|done].
  - intros k1 s1 k2 s2 Hx Hy. eapply lookup_weaken in Hx, Hy; eauto.
Qed.

(** One entry appears or changes; its identifier is absent, kept or fresh. *)
Lemma corr_insert c0 n c c' k s' :
  corr_inv c0 n c → all_subs c' = <[k := s']> (all_subs c) →
  corrID (nef c) ≤ corrID (nef c') ≤ corrID (nef c) + 1 →
  NotifCorreID s' = "" ∨
  (∃ s, all_subs c !! k = Some s ∧ NotifCorreID s' = NotifCorreID s) ∨
  (NotifCorreID s' = Itoa (corrID (nef c)) ∧ corrID (nef c') = corrID (nef c) + 1) →
  corr_inv c0 (S n) c'.
Proof.
  intros [Hb Ht Hu] Heq Hc Hcase.
  assert (∀ k2 s2, all_subs c !! k2 = Some s2 → NotifCorreID s' = NotifCorreID s2 →
    NotifCorreID s' ≠ "" → k = k2) as Hown.
  { intros k2 s2 Hy Hs Hne. destruct Hcase as [|[(s & Hs0 & Hcs)|(Hcs & _)]]; [done|..].
    - eapply Hu; [done|done|congruence|congruence].
    - destruct (Ht k2 s2 Hy) as [?|(i & ? & ?)]; [congruence|].
      assert (i = corrID (nef c)) by (apply Itoa_inj; congruence). lia. }
  split; [lia|rewrite Heq..].
  - apply map_Forall_insert_2.
    + destruct Hcase as [?|[(s & Hs & ->)|(-> & ?)]]; [by left|..].
      * destruct (Ht k s Hs) as [?|(i & ? & ?)]; [by left|right]. exists i. split; [lia|done].
      * right. eexists. split; [|done]. lia.
    + intros k2 s2 Hs. destruct (Ht k2 s2 Hs) as [?|(i & ? & ?)]; [by left|right].
      exists i. split; [lia|done].
  - intros k1 s1 k2 s2. rewrite !lookup_insert_Some.
    intros [[<- <-]|[? Hx]] [[<- <-]|[? Hy]] He Hne; [done|..].
    + by eapply Hown.
    + symmetry. eapply Hown; [done|done|congruence].
    + by eapply Hu.
Qed.

Lemma corr_effect ok c0 n c c' :
  cfg_room (cfg c0) (S n) → nef_effect ok c c' → corr_inv c0 n c → corr_inv c0 (S n) c'.
Proof.
  intros Hr Heff Hinv. destruct (corr_small c0 n c Hr Hinv) as [Htext Hnext].
  apply effect_subs in Heff. destruct Heff as [Hs _ Hc|? ? ? ? Hs Hc _
    |key af ti body id resp Haf sid Hs Hc _|key af ti corr Haf sid Hs _ Hc
    |k s s' Hk Hsame Hs Hc _|k s Hk Hs Hc _|k s r e Hk Hs Hc _ _].
  - eapply corr_shrink; [done|by rewrite Hs|lia].
  - eapply corr_shrink; [done|by rewrite Hs|lia].
  - eapply corr_insert; [done|done|lia|]. right; right. simpl. split; [done|lia].
  - eapply corr_insert; [done|done|lia|]. simpl.
    destruct Hc as [[-> _]|[-> ?]]; [by left|]. right; right. split; [done|lia].
  - eapply corr_insert; [done|done|lia|]. right.
    destruct Hc as [[? _]|[? ?]]; [left; eauto|right; split; [congruence|lia]].
  - eapply corr_shrink; [done| |lia]. rewrite Hs. apply delete_subseteq.
  - eapply corr_shrink; [done|by rewrite Hs|lia].
Qed.
End south.

(** ** Sessions at the PCF *)
Section pcf.
Context {P U D : Type}
  `{PcfSessions P, UdrInfluenceData U, UdrPfdData D}.
Abbreviation ctx := (nefContext P U D).
Implicit Types (c : ctx) (s : afSubscription) (T : gmap (string * string) afSubscription).

(** [s] is in the table and was sent to the PCF. *)
Definition at_pcf T (k : string * string) s : Prop := T !! k = Some s ∧ NEFSBDelete s = SBPcf.

(** The live sessions are those of the subscriptions, one each. *)
Record sessions_match T (p : P) : Prop := {
  sm_live : ∀ k s, at_pcf T k s → is_Some (sessions p !! appSessionID s);
  sm_owner : ∀ id, is_Some (sessions p !! id) → ∃ k s, at_pcf T k s ∧ appSessionID s = id;
  sm_unique : ∀ k1 s1 k2 s2, at_pcf T k1 s1 → at_pcf T k2 s2 →
    appSessionID s1 = appSessionID s2 → k1 = k2;
}.

Definition pcf_inv (n : nat) c : Prop :=
  pcf_wf n (pcfClient (nef c)) ∧ sessions_match (all_subs c) (pcfClient (nef c)).

(** A subscription that is not at the PCF may come or go. *)
Lemma match_insert_other T p k s' :
  sessions_match T p → (∀ s, T !! k = Some s → NEFSBDelete s ≠ SBPcf) →
  NEFSBDelete s' ≠ SBPcf → sessions_match (<[k := s']> T) p.
Proof.
  intros [Hl Ho Hu] Hold Hnew.
  assert (∀ k2 s2, at_pcf (<[k := s']> T) k2 s2 ↔ at_pcf T k2 s2) as Hat.
  { intros k2 s2. unfold at_pcf. rewrite lookup_insert_Some. naive_solver. }
  split.
  - intros k2 s2 ?%Hat. eauto.
  - intros id (k2 & s2 & ?%Hat & ?)%Ho. eauto.
  - intros k1 s1 k2 s2 ?%Hat ?%Hat. eauto.
Qed.

Lemma match_delete_other T p k s :
  sessions_match T p → T !! k = Some s → NEFSBDelete s ≠ SBPcf →
  sessions_match (delete k T) p.
Proof.
  intros [Hl Ho Hu] Hs Hn.
  assert (∀ k2 s2, at_pcf (delete k T) k2 s2 ↔ at_pcf T k2 s2) as Hat.
  { intros k2 s2. unfold at_pcf. rewrite lookup_delete_Some. naive_solver. }
  split.
  - intros k2 s2 ?%Hat. eauto.
  - intros id (k2 & s2 & ?%Hat & ?)%Ho. eauto.
  - intros k1 s1 k2 s2 ?%Hat ?%Hat. eauto.
Qed.

(** A subscription is updated in place, keeping its session. *)
Lemma match_update T p k s s' :
  sessions_match T p → T !! k = Some s → same_sub s s' → sessions_match (<[k := s']> T) p.
Proof.
  intros [Hl Ho Hu] Hs (_ & Hsess & _ & _ & _ & _ & Hdel & _).
  assert (∀ k2 s2, at_pcf (<[k := s']> T) k2 s2 →
    ∃ s3, at_pcf T k2 s3 ∧ appSessionID s3 = appSessionID s2) as Hat.
  { intros k2 s2 [[[<- <-]|[? ?]]%lookup_insert_Some ?]; [|by exists s2].
    exists s. split; [split; [done|congruence]|done]. }
  split.
  - intros k2 s2 (s3 & ? & <-)%Hat. eauto.
  - intros id (k2 & s2 & [? ?] & <-)%Ho. exists k2.
    destruct (decide (k = k2)) as [<-|].
    + simplify_eq. exists s'. split; [|done]. split; [apply lookup_insert_eq|congruence].
    + exists s2. split; [|done]. split; [by rewrite lookup_insert_ne|done].
  - intros k1 s1 k2 s2 (s3 & ? & ?)%Hat (s4 & ? & ?)%Hat ?. eapply Hu; [done|done|congruence].
Qed.

(** The sessions are only updated. *)
Lemma match_dom T p p' :
  sessions_match T p → dom (sessions p') = dom (sessions p) → sessions_match T p'.
Proof.
  intros [Hl Ho Hu] Hdom.
  assert (∀ id, is_Some (sessions p' !! id) ↔ is_Some (sessions p !! id)) as Hid.
  { intros id. by rewrite <- !elem_of_dom, Hdom. }
  split; [|by intros id ?%Hid; auto|done]. intros k s ?. apply Hid. eauto.
Qed.

(** A session is created with its subscription. *)
Lemma match_create T p p' k s' id asc :
  sessions_match T p → T !! k = None → sessions p !! id = None →
  sessions p' = <[id := asc]> (sessions p) → NEFSBDelete s' = SBPcf → appSessionID s' = id →
  sessions_match (<[k := s']> T) p'.
Proof.
  intros [Hl Ho Hu] Hk Hid Hp Hdel Hs. rewrite <- Hs in *. clear id Hs.
  split; rewrite ?Hp.
  - intros k2 s2 [[[<- <-]|[? ?]]%lookup_insert_Some ?].
    + rewrite lookup_insert_eq. eauto.
    + apply lookup_insert_is_Some'. right. apply (Hl k2). by split.
  - intros id [<-|Hi]%lookup_insert_is_Some'.
    + exists k, s'. split; [|done]. split; [apply lookup_insert_eq|done].
    + destruct (Ho id Hi) as (k2 & s2 & [? ?] & ?). exists k2, s2. split; [|done].
      split; [|done]. rewrite lookup_insert_ne; congruence.
  - assert (∀ k2 s2, at_pcf T k2 s2 → appSessionID s' ≠ appSessionID s2) as Hfresh.
    { intros k2 s2 [? Heq]%Hl. congruence. }
    intros k1 s1 k2 s2 [[[<- <-]|[? ?]]%lookup_insert_Some ?]
      [[[<- <-]|[? ?]]%lookup_insert_Some ?] Heq; [done|..].
    + exfalso. eapply (Hfresh k2 s2); [by split|done].
    + exfalso. eapply (Hfresh k1 s1); [by split|done].
    + eapply (Hu k1 s1 k2 s2); [by split|by split|done].
Qed.

(** A session is deleted with its subscription. *)
Lemma match_delete T p p' k s :
  sessions_match T p → at_pcf T k s → sessions p' = delete (appSessionID s) (sessions p) →
  sessions_match (delete k T) p'.
Proof.
  intros [Hl Ho Hu] Hs Hp. split; rewrite ?Hp.
  - intros k2 s2 [[? ?]%lookup_delete_Some ?]. rewrite lookup_delete_ne.
    + apply (Hl k2). by split.
    + intros Heq. assert (k = k2); [|done]. by eapply (Hu k s k2 s2).
  - intros id [? Hi]%lookup_delete_is_Some. destruct (Ho id Hi) as (k2 & s2 & [? ?] & ?).
    exists k2, s2. split; [|done]. split; [|done]. rewrite lookup_delete_ne; [done|].
    intros <-. destruct Hs. congruence.
  - intros k1 s1 k2 s2 [[? ?]%lookup_delete_Some ?] [[? ?]%lookup_delete_Some ?] ?.
    by eapply (Hu k1 s1 k2 s2).
Qed.

Lemma pcf_effect ok c0 n c c' :
  Z.of_nat n < 2 ^ 62 → registry_inv c0 n c → nef_effect ok c c' →
  pcf_inv n c → pcf_inv (S n) c'.
Proof.
  intros Hn Hreg Heff [Hwf Hm]. apply effect_subs in Heff.
  assert (∀ p, pcf_wf n p → pcf_wf (S n) p) as Hmono by (intros p; apply pcf_wf_mono; lia).
  destruct Heff as [Hs Hp _|body id resp e _ _ Hcall
    |key af ti body id resp Haf sid Hs _ Hcall|key af ti corr Haf sid Hs Hp _
    |k s s' Hk Hsame Hs _ Hp|k s Hk Hs _ Hp|k s r e Hk _ _ Hd Hcall].
  - split; [rewrite Hp; auto|by rewrite Hs, Hp].
  - destruct (pcf_create n _ body Hwf Hn) as (? & ? & ? & ? & _). congruence.
  - destruct (pcf_create n _ body Hwf Hn) as (id' & r & p' & Hcall' & Hcode & Hwf' & Hnone & Hp').
    rewrite Hcall in Hcall'. simplify_eq. split; [done|]. rewrite Hs.
    eapply match_create; [done| |done|done|done|].
    + unfold all_subs. rewrite lookup_flatten, Haf. by eapply registry_fresh_sub.
    + simpl. unfold kept_session. by rewrite Hcode.
  - split; [rewrite Hp; auto|]. rewrite Hs, Hp. apply match_insert_other; [done| |done].
    intros s. unfold all_subs. rewrite lookup_flatten, Haf. simpl. unfold sid.
    by rewrite (registry_fresh_sub _ _ _ _ _ Hreg Haf).
  - assert (sessions_match (all_subs c') (pcfClient (nef c))) as Hm'
      by (rewrite Hs; by eapply match_update).
    destruct Hp as [Hp|(Hf & body & r & Hcall)]; [by split; rewrite Hp; [auto|]|].
    destruct k as [key sid]. destruct (registry_sub _ _ _ _ _ _ Hreg Hk) as [? [_ _ _ _ Hfn]].
    destruct (sm_live _ _ Hm (key, sid) s) as [asc Hasc].
    { split; [done|]. destruct Hfn as (_ & _ & ? & ?). congruence. }
    destruct (pcf_update n _ body _ _ Hwf Hasc) as (r' & p' & Hcall' & _ & Hwf' & Hp').
    rewrite Hcall in Hcall'. simplify_eq. split; [auto|].
    eapply match_dom; [done|]. rewrite Hp', dom_insert_L.
    apply elem_of_dom_2 in Hasc. set_solver.
  - destruct Hp as [[Hf Hp]|(Hf & r & Hcall)].
    + split; rewrite Hp; [auto|]. rewrite Hs. eapply match_delete_other; [done|done|congruence].
    + destruct (sm_live _ _ Hm k s) as [asc Hasc]; [done|].
      destruct (pcf_delete n _ _ _ Hwf Hasc) as (r' & p' & Hcall' & _ & Hwf' & Hp').
      rewrite Hcall in Hcall'. simplify_eq. split; [auto|]. rewrite Hs.
      by eapply match_delete.
  - destruct (sm_live _ _ Hm k s) as [asc Hasc]; [done|].
    destruct (pcf_delete n _ _ _ Hwf Hasc) as (r' & p' & Hcall' & _). congruence.
Qed.
End pcf.

(** ** PFD applications at the UDR *)
Section udr.
Context {P U D : Type} `{PcfPolicyAuthorization P, UdrInfluenceData U}.
Abbreviation ctx D := (nefContext P U D).
Implicit Types (t : afPfdTransaction).

(** No two transactions hold the same application. *)
Definition apps_unique (T : gmap (string * string) afPfdTransaction) : Prop :=
  ∀ k1 t1 k2 t2 a, T !! k1 = Some t1 → T !! k2 = Some t2 →
    is_Some (PfdDatas (pfdManagement t1) !! a) →
    is_Some (PfdDatas (pfdManagement t2) !! a) → k1 = k2.

Lemma apps_unique_shrink T T' : apps_unique T → T' ⊆ T → apps_unique T'.
Proof.
  intros Hu Hsub k1 t1 k2 t2 a Hx Hy. eapply lookup_weaken in Hx, Hy; eauto.
Qed.

Lemma apps_unique_insert T k t :
  apps_unique T →
  (∀ k2 t2 a, T !! k2 = Some t2 → k ≠ k2 → is_Some (PfdDatas (pfdManagement t) !! a) →
     PfdDatas (pfdManagement t2) !! a = None) →
  apps_unique (<[k := t]> T).
Proof.
  intros Hu Hnew k1 t1 k2 t2 a.
  rewrite !lookup_insert_Some. intros [[<- <-]|[? Hx]] [[<- <-]|[? Hy]] Ha Hb; [done|..].
  - rewrite (Hnew k2 t2 a) in Hb; [by destruct Hb|done..].
  - rewrite (Hnew k1 t1 a) in Ha; [by destruct Ha|done..].
  - by eapply (Hu k1 t1 k2 t2 a).
Qed.

Lemma apps_effect `{UdrPfdData D} ok (c c' : ctx D) :
  nef_effect ok c c' → apps_unique (all_trans c) → apps_unique (all_trans c').
Proof.
  intros Heff Hu. apply effect_trans in Heff.
  destruct Heff as [Hs _|Hs _|apps Hs _|key tid t apps Hs _ Hnew|k t t' apps Ht Hs _ Hold
    |k t apps Ht Hs _ _|apps app r e x1 x2 Hs _ _].
  - by eapply apps_unique_shrink.
  - by rewrite Hs.
  - by rewrite Hs.
  - rewrite Hs. apply apps_unique_insert; [done|]. intros [k2 i2] t2 a Ht2 _ [d Hd].
    destruct (Hnew a d Hd) as (_ & Hun & _).
    apply lookup_flatten_Some in Ht2 as (af & Haf & Ht2). by eapply Hun.
  - rewrite Hs. apply apps_unique_insert; [done|]. intros k2 t2 a Ht2 Hne [d' Hd'].
    destruct (Hold a d' Hd') as (d & Hd & _).
    destruct (PfdDatas (pfdManagement t2) !! a) as [d2|] eqn:Hd2; [exfalso|done].
    apply Hne. eapply (Hu k t k2 t2 a); eauto.
  - eapply apps_unique_shrink; [done|]. rewrite Hs. apply delete_subseteq.
  - by rewrite Hs.
Qed.

(** The key of an application in a request is its external identifier. *)
Definition well_keyed (a : string) (d : PfdData) : Prop := ExternalAppID d = a.

Context `{UdrPfdStore D}.
Implicit Types (c : ctx D).

(** Every application of a transaction is stored at the UDR under its key. *)
Definition apps_stored c : Prop :=
  ∀ k t a d, all_trans c !! k = Some t → PfdDatas (pfdManagement t) !! a = Some d →
    ExternalAppID d = a ∧ a ∈ stored (udrPfdClient (nef c)).

Lemma stored_writes apps (x x' : D) :
  udr_writes apps x x' → stored x' = list_to_set apps ∪ stored x.
Proof.
  induction 1 as [x|pa r x x' l x'' Hc _ IH]; [set_solver|].
  destruct (store_create x pa) as (r' & x1 & Hc' & Hst).
  rewrite Hc in Hc'. simplify_eq. rewrite IH, Hst. set_solver.
Qed.

Lemma stored_deletes apps (x x' : D) :
  udr_deletes apps x x' → stored x' = stored x ∖ list_to_set apps.
Proof.
  induction 1 as [x|app r x x' l x'' Hc _ IH]; [set_solver|].
  destruct (store_delete x app) as (r' & x1 & Hc' & Hst).
  rewrite Hc in Hc'. simplify_eq. rewrite IH, Hst. set_solver.
Qed.

Lemma stored_gets (x x' : D) :
  rtc (λ x x', ∃ app r, UdrPfdDataGet app x = (r, x')) x x' → stored x' = stored x.
Proof.
  induction 1 as [x|x x' x'' (app & r & Hg) _ IH]; [done|].
  destruct (store_get x app) as (r' & x1 & Hg' & Hst & _).
  rewrite Hg in Hg'. simplify_eq. congruence.
Qed.

Lemma stored_effect c c' :
  nef_effect well_keyed c c' → apps_unique (all_trans c) → apps_stored c → apps_stored c'.
Proof.
  intros Heff Hu Hst. apply effect_trans in Heff.
  destruct Heff as [Hs Hx|Hs Hx|apps Hs Hx|key tid t apps Hs Hx Hnew|k t t' apps Ht Hs Hx Hold
    |k t apps Ht Hs Hsub Hx|apps app r e x1 x2 Hs _ Herr]; intros k0 t0 a d Ht0 Hd.
  - rewrite Hx. eapply Hst; [|done]. by eapply lookup_weaken.
  - rewrite (stored_gets _ _ Hx). rewrite Hs in Ht0. by eapply Hst.
  - rewrite (stored_writes _ _ _ Hx). rewrite Hs in Ht0.
    destruct (Hst _ _ _ _ Ht0 Hd). set_solver.
  - rewrite (stored_writes _ _ _ Hx). rewrite Hs in Ht0.
    apply lookup_insert_Some in Ht0 as [[_ <-]|[_ Ht0]].
    + destruct (Hnew a d Hd) as (Hin & _ & <-). set_solver.
    + destruct (Hst _ _ _ _ Ht0 Hd). set_solver.
  - rewrite (stored_writes _ _ _ Hx). rewrite Hs in Ht0.
    apply lookup_insert_Some in Ht0 as [[_ <-]|[_ Ht0]].
    + destruct (Hold a d Hd) as (d0 & Hd0 & [->|(Hin & <-)]).
      * destruct (Hst _ _ _ _ Ht Hd0). set_solver.
      * set_solver.
    + destruct (Hst _ _ _ _ Ht0 Hd). set_solver.
  - rewrite (stored_deletes _ _ _ Hx). rewrite Hs in Ht0.
    apply lookup_delete_Some in Ht0 as [Hne Ht0].
    destruct (Hst _ _ _ _ Ht0 Hd) as [Hk Ha]. split; [done|].
    apply elem_of_difference. split; [done|]. intros Hin%Hsub.
    apply elem_of_ext_ids in Hin as (a' & d' & Hd' & Hext).
    destruct (Hst _ _ _ _ Ht Hd') as [Hk' _].
    apply Hne. eapply (Hu k t k0 t0 a); [done|done| |by eexists].
    rewrite <- Hext, Hk'. by eexists.
  - destruct (store_delete x1 app) as (? & ? & ? & _). congruence.
Qed.
End udr.
