(* ===== verification/NefRouter.v ===== *)
(** * Routing and access control of the NEF (nef_router.go)

    The route table, the check of the access token, and the middleware that
    lets a request through to its handler.  The matching of a path against the
    table is done by gorilla/mux: a [nefRequest] is a request it has matched. *)

From S2P Require Import Prelude Strconv Http NefModel NefSouth NefCore NefTi NefPfd.
From S2P Require Import NefPfdApi OAuth2.
From stdpp Require Import prelude gmap strings.
From Stdlib Require Import ZArith Ascii.

Import NefScenario.
Local Open Scope Z_scope.

(** The handlers, by name. *)
Inductive nefHandler :=
| HReadAllTi | HCreateTi | HReadTi | HPutTi | HPatchTi | HDeleteTi
| HReadAllPfd | HCreatePfd | HReadPfd | HPutPfd | HDeletePfd
| HReadApp | HDeleteApp | HPutApp | HPatchApp | HNotifySmf.

#[export] Instance nefHandler_eq_dec : EqDecision nefHandler.
Proof. solve_decision. Defined.

Record Route := mkRoute {
  rt_Name : string;
  rt_Method : string;
  rt_Pattern : string;
  rt_Handler : nefHandler;
}.

Definition NEFRoutes : list Route :=
  let ti := "/3gpp-traffic-influence/v1/{afId}/subscriptions" in
  let ti1 := "/3gpp-traffic-influence/v1/{afId}/subscriptions/{subscriptionId}" in
  let pfd := "/3gpp-pfd-management/v1/{scsAsId}/transactions" in
  let pfd1 := "/3gpp-pfd-management/v1/{scsAsId}/transactions/{transactionId}" in
  let app := "/3gpp-pfd-management/v1/{scsAsId}/transactions/{transactionId}/" +:+
             "applications/{appId}" in
  [ mkRoute "ReadAllTrafficInfluenceSubscription" "GET" ti HReadAllTi;
    mkRoute "CreateTrafficInfluenceSubscription" "POST" ti HCreateTi;
    mkRoute "ReadTrafficInfluenceSubscription" "GET" ti1 HReadTi;
    mkRoute "UpdatePutTrafficInfluenceSubscription" "PUT" ti1 HPutTi;
    mkRoute "UpdatePatchTrafficInfluenceSubscription" "PATCH" ti1 HPatchTi;
    mkRoute "DeleteTrafficInfluenceSubscription" "DELETE" ti1 HDeleteTi;
    mkRoute "ReadAllPFDManagementTransaction" "GET" pfd HReadAllPfd;
    mkRoute "CreatePFDManagementTransaction" "POST" pfd HCreatePfd;
    mkRoute "ReadPFDManagementTransaction" "GET" pfd1 HReadPfd;
    mkRoute "UpdatePutPFDManagementTransaction" "PUT" pfd1 HPutPfd;
    mkRoute "DeletePFDManagementTransaction" "DELETE" pfd1 HDeletePfd;
    mkRoute "ReadPFDManagementApplication" "GET" app HReadApp;
    mkRoute "DeletePFDManagementApplication" "DELETE" app HDeleteApp;
    mkRoute "UpdatePutPFDManagementApplication" "PUT" app HPutApp;
    mkRoute "PatchPFDManagementApplication" "PATCH" app HPatchApp ].

(** The routes of [NewNEFRouter]: the table and the notifications of the SMF
    at the configured path. *)
Definition nef_routes (cfg : Config) : list Route :=
  NEFRoutes ++ [mkRoute "NotifySmfUPFEvent" "POST" (UpfNotificationResURIPath cfg) HNotifySmf].

(** The handler that serves a request. *)
Definition handler_of (r : nefRequest) : nefHandler :=
  match r with
  | ReqTiReadAll _ => HReadAllTi
  | ReqTiCreate _ _ => HCreateTi
  | ReqTiRead _ _ => HReadTi
  | ReqTiPut _ _ _ => HPutTi
  | ReqTiPatch _ _ _ => HPatchTi
  | ReqTiDelete _ _ => HDeleteTi
  | ReqPfdReadAll _ => HReadAllPfd
  | ReqPfdCreate _ _ => HCreatePfd
  | ReqPfdRead _ _ => HReadPfd
  | ReqPfdPut _ _ _ => HPutPfd
  | ReqPfdDelete _ _ => HDeletePfd
  | ReqAppRead _ _ _ => HReadApp
  | ReqAppDelete _ _ _ => HDeleteApp
  | ReqAppPut _ _ _ _ => HPutApp
  | ReqAppPatch _ _ _ _ => HPatchApp
  | ReqSmfNotify _ => HNotifySmf
  end.

(** What the token check reads of a request: [Authorization] and
    [RequestURI]. *)
Record authHeader := mkAuthHeader {
  Authorization : string;
  RequestURI : string;
}.

Section router.
Context `{Jwt}.
Abbreviation writer := (ResponseWriter nefPayload).

(** [nefValidateAccessToken]: whether the request may go on, and the
    response as it is left.  [splitToken[1]] panics when there is no second
    part. *)
Definition nefValidateAccessToken (now : Z) (file : OAuth2Config + string)
    (h : authHeader) (w : writer) : outcome (bool * writer) :=
  if str_empty (Authorization h) then
    Ret (false, WriteHeader StatusUnauthorized
                  (Header_Set "WWW-Authenticate" ("Bearer realm=" +:+ RequestURI h) w))
  else
    match strings_Split (Authorization h) "Bearer " with
    | _ :: reqToken :: _ =>
        match ValidateAccessToken now file reqToken with
        | (_, None) => Ret (true, w)
        | (StatusInvalidToken, Some _) =>
            Ret (false, WriteHeader StatusUnauthorized
                   (Header_Set "WWW-Authenticate" ("Bearer realm=" +:+ RequestURI h) w))
        | (OAuth2.StatusBadRequest, Some _) => Ret (false, WriteHeader Http.StatusBadRequest w)
        | (_, Some _) => Ret (false, WriteHeader StatusInternalServerError w)
        end
    | _ => Panic "index out of range"
    end.

Context {P U D : Type}
  `{PcfPolicyAuthorization P, UdrInfluenceData U, UdrPfdData D, NefHooks, GoEnv}.

(** The middleware of [NewNEFRouter] around the matched handler. *)
Definition nef_middleware (now : Z) (file : OAuth2Config + string) (h : authHeader)
    (r : nefRequest) (w : writer) : GoM (nefContext P U D) writer :=
  c ← go_get;
  if OAuth2Support (cfg c) then
    match nefValidateAccessToken now file h w with
    | Ret (true, w') => serve r w'
    | Ret (false, w') => mret w'
    | Panic e => go_panic e
    end
  else serve r w.
End router.

(** ** Splitting the header *)

Lemma no_space_no_bearer tok :
  Forall (λ c, c ≠ " "%char) (String.list_ascii_of_string tok) → ¬ contains tok "Bearer ".
Proof.
  intros Hns (a & b & ->). revert Hns. induction a as [|c a IH]; simpl.
  - rewrite !Forall_cons. tauto.
  - rewrite Forall_cons. tauto.
Qed.

Section auth.
Context `{Jwt}.
Context {P U D : Type}
  `{PcfPolicyAuthorization P, UdrInfluenceData U, UdrPfdData D, NefHooks}.
Implicit Types (c : nefContext P U D).

(** With access control on, a request that carries a
    token issued by [GetAccessToken] is served exactly as without access
    control until the configured life time is over, and from then on is
    answered with 401 and changes nothing. *)
Theorem nef_token_lifetime `{!JwtLaws, E : GoEnv} c key life issued now tok err uri r :
  OAuth2Support (cfg c) = true → 0 ≤ issued → 0 ≤ life → second_ns * life ≤ max_int →
  let file := inl (mkOAuth2Config key life) in
  GetAccessToken issued file = (tok, err) →
  let h := mkAuthHeader ("Bearer " +:+ tok) uri in
  (unix now ≤ unix issued + life →
     nef_middleware now file h r new_writer c = serve r new_writer c) ∧
  (unix issued + life < unix now →
     ∃ w, nef_middleware now file h r new_writer c = (Ret w, c) ∧ status_of w = 401).
Proof.
  intros Hon Hi Hl Hmax file Htok h.
  destruct (issued_token_lifetime (mkOAuth2Config key life) issued now Hi Hl Hmax)
    as (tok' & Htok' & Hns & Hval).
  unfold file in Htok. assert (tok' = tok) as -> by congruence. apply no_space_no_bearer in Hns.
  pose proof (strings_Split_after tok "Bearer " ltac:(done) Hns) as Hsplit.
  assert (str_empty (Authorization h) = false) as Hne by done.
  unfold nef_middleware, nefValidateAccessToken. go_unfold. rewrite Hon, Hne.
  change (Authorization h) with ("Bearer " +:+ tok). rewrite Hsplit.
  fold file in Hval. rewrite Hval. simpl. split; intros Hnow.
  - by rewrite bool_decide_eq_true_2 by done.
  - rewrite bool_decide_eq_false_2 by lia. eexists. by split.
Qed.

(** A request whose Authorization field is present
    but does not contain the text Bearer followed by a space makes the check
    panic, and no other request does. *)
Theorem nef_token_check_panics now file h (w : ResponseWriter nefPayload) :
  (∃ e, nefValidateAccessToken now file h w = Panic e) ↔
  Authorization h ≠ "" ∧ ¬ contains (Authorization h) "Bearer ".
Proof.
  unfold nefValidateAccessToken, str_empty. case_bool_decide as Hemp.
  { split; [by intros [? ?]|]. by intros [? _]. }
  assert (contains (Authorization h) "Bearer " ∨ ¬ contains (Authorization h) "Bearer ")
    as [Hc|Hc].
  { destruct (split_at_single (S (String.length (Authorization h))) "Bearer "
      (Authorization h) "") as [[_ ?]|[_ ?]]; [lia|done|by right|by left]. }
  - destruct (strings_Split_many (Authorization h) "Bearer ") as (t1 & t2 & l & ->); [done..|].
    split; [|by intros [_ ?]].
    destruct (ValidateAccessToken now file t2) as [[] [|]]; by intros [? ?].
  - rewrite strings_Split_single by done. split; [done|]. eauto.
Qed.

(** With access control on, a request that is not let
    through by the token check never reaches its handler: the state stays as
    it was and the answer, if any, is 400, 401 or 500. *)
Theorem nef_token_required `{E : GoEnv} c now file h r :
  OAuth2Support (cfg c) = true →
  (∀ tok, contains (Authorization h) ("Bearer " +:+ tok) →
     (ValidateAccessToken now file tok).1 ≠ StatusSuccess) →
  (nef_middleware now file h r new_writer c).2 = c ∧
  ∀ w, (nef_middleware now file h r new_writer c).1 = Ret w → status_of w ∈ [400; 401; 500].
Proof.
  intros Hon Hbad. unfold nef_middleware, nefValidateAccessToken. go_unfold. rewrite Hon.
  destruct (str_empty (Authorization h)).
  { split; [done|]. intros w [= <-]. unfold status_of; simpl. set_solver. }
  destruct (strings_Split (Authorization h) "Bearer ") as [|t1 [|tok l]] eqn:Hsplit;
    [by split..|].
  specialize (Hbad tok (strings_Split_second _ _ _ _ _ Hsplit)).
  assert ((ValidateAccessToken now file tok).2 ≠ nil_err) as Herr
    by by rewrite <- validate_status.
  destruct (ValidateAccessToken now file tok) as [st [e|]]; [|done].
  destruct st; (split; [done|]); intros w [= <-]; unfold status_of; simpl; set_solver.
Qed.

(** The route table has no two routes with the same
    method and pattern, and lists the handler of every request exactly once. *)
Theorem nef_routes_unambiguous cf r :
  NoDup ((λ rt, (rt_Method rt, rt_Pattern rt)) <$> NEFRoutes) ∧
  exists! rt, rt ∈ nef_routes cf ∧ rt_Handler rt = handler_of r.
Proof.
  split; [by apply (bool_decide_unpack _)|].
  assert (NoDup (rt_Handler <$> nef_routes cf)) as Hnd.
  { change (rt_Handler <$> nef_routes cf) with ((rt_Handler <$> NEFRoutes) ++ [HNotifySmf]).
    by apply (bool_decide_unpack _). }
  assert (handler_of r ∈ rt_Handler <$> nef_routes cf) as (rt & Hrt & Hin)%list_elem_of_fmap.
  { destruct r; set_solver. }
  exists rt. split; [done|]. intros rt' [Hin' Hrt'].
  apply list_elem_of_lookup in Hin as [i Hi], Hin' as [j Hj].
  assert (i = j) as ->; [|congruence].
  eapply NoDup_lookup; [done|rewrite list_lookup_fmap, Hi; simpl; by rewrite <- Hrt|].
  rewrite list_lookup_fmap, Hj. simpl. congruence.
Qed.
End auth.

(** ** Witnesses *)

(** A token library that writes the key and the expiry time in letters. *)
#[export] Instance scen_jwt : Jwt := {|
  jwt_sign key claims := (letters (encode (key, ExpiresAt claims)), nil_err);
  jwt_parse now tok key :=
    match decode (A := string * Z) (unletters tok) with
    | Some (key', e) =>
        if bool_decide (key' = key) then
          if bool_decide (now ≤ e) then inl true else inr (ValidationError 16)
        else inr (ValidationError 4)
    | None => inr (ValidationError 1)
    end;
  ValidationErrorExpired := 16;
|}.

#[export] Instance scen_jwt_laws : JwtLaws.
Proof.
  split; simpl.
  - intros key claims. eexists. split; [done|]. apply letters_no_space.
  - intros key claims tok now [= <-] Hnow. rewrite unletters_letters, decode_encode.
    by rewrite !bool_decide_eq_true_2.
  - intros key claims tok now [= <-] Hnow. rewrite unletters_letters, decode_encode.
    rewrite bool_decide_eq_true_2 by done. by rewrite bool_decide_eq_false_2 by lia.
Qed.

Definition scen_auth_cfg : Config :=
  mkConfig "localhost" "/3gpp-traffic-influence/v1/" "/3gpp-pfd-management/v1/" 2 2 2 11111 1000
    "/notify/upf" "NEF" ":8091" (mkHTTP2Config "" "" "" "") [] true.
Definition scen_auth : scen_ctx := mkNefContext scen_auth_cfg scen_nef.

Definition scen_token : string :=
  (GetAccessToken 5000000000 (inl (mkOAuth2Config "key" 60))).1.

Lemma nef_token_lifetime_witness :
  nef_middleware 6000000000 (inl (mkOAuth2Config "key" 60))
    (mkAuthHeader ("Bearer " +:+ scen_token) "/") scen_create new_writer scen_auth
  = serve scen_create new_writer scen_auth.
Proof.
  apply (nef_token_lifetime scen_auth "key" 60 5000000000 6000000000 scen_token nil_err "/"
    scen_create); [reflexivity|lia|lia|unfold second_ns, max_int; lia|reflexivity|].
  vm_compute. discriminate.
Defined.

Lemma nef_token_required_witness :
  exec (nef_middleware 6000000000 (inr "no such file")
    (mkAuthHeader ("Bearer " +:+ scen_token) "/") scen_create new_writer) scen_auth = scen_auth.
Proof.
  apply (nef_token_required scen_auth 6000000000 (inr "no such file")
    (mkAuthHeader ("Bearer " +:+ scen_token) "/") scen_create); [reflexivity|].
  intros tok _. discriminate.
Defined.
