(* ===== verification/NefService.v ===== *)
(** * The NEF over its life time

    From the state [nefCreate] returns, and whatever requests are served in
    whatever order of map iteration, the invariants of [NefInv] and
    [NefSouthInv] hold. *)

From S2P Require Import Prelude Strconv Http NefModel NefSouth NefCore NefTi NefPfd.
From S2P Require Import NefPfdApi NefSpec NefTiFacts NefPfdFacts NefPfdRefine NefInv.
From S2P Require Import NefSouthInv.
From stdpp Require Import prelude gmap strings relations.
From Stdlib Require Import ZArith.

Import NefScenario.
Local Open Scope Z_scope.

(** Any request at all. *)
Definition any_request (_ : nefRequest) : Prop := True.

Section service.
Context {P U D : Type}
  `{PcfPolicyAuthorization P, UdrInfluenceData U, UdrPfdData D, NefHooks}.
Abbreviation ctx := (nefContext P U D).
Implicit Types (c : ctx).

(** The state the service starts in. *)
Definition nef_started (cf : Config) (p : P) (u : U) (x : D) (c0 : ctx) : Prop :=
  nefCreate cf p u x = inl (nef c0) ∧ cfg c0 = cf.

Lemma started_fields cf p u x c0 :
  nef_started cf p u x c0 →
  cfg c0 = cf ∧ afs (nef c0) = ∅ ∧ pcfClient (nef c0) = p ∧ udrPfdClient (nef c0) = x ∧
  corrID (nef c0) = wrap_uint (wrap_int (SubStartID cf + correlationIDOffset)).
Proof.
  intros [Hcr <-]. unfold nefCreate in Hcr. repeat case_match; try done.
  injection Hcr as <-. done.
Qed.

Lemma nef_reach_mono (ok ok' : nefRequest → Prop) c0 n c :
  (∀ r, ok r → ok' r) → nef_reach ok c0 n c → nef_reach ok' c0 n c.
Proof.
  intros Hok. induction 1; [constructor|]. eapply nef_reach_step; eauto.
Qed.

(** Serving [n] requests is at most [3 * n] effects. *)
Lemma reach_effects (ok : string → PfdData → Prop) c0 n c :
  (∀ a l d, ok a d → ok a (pfdd_set_Self l d)) →
  nef_reach (req_apps ok) c0 n c → bsteps (nef_effect ok) (3 * n) c0 c.
Proof.
  intros Hself. induction 1 as [|n c r c' _ IH Hr Hstep]; [constructor|].
  destruct Hstep as [E r].
  replace (3 * S n)%nat with (3 * n + 3)%nat by lia.
  eapply bsteps_trans; [done|]. by apply serve_effects.
Qed.

(** An indexed invariant of the effects holds after any number of them. *)
Lemma effects_inv ok (I : nat → ctx → Prop) (N m n : nat) c c' :
  (∀ k c1 c2, (k < N)%nat → I k c1 → nef_effect ok c1 c2 → I (S k) c2) →
  (m + n ≤ N)%nat → I m c → bsteps (nef_effect ok) n c c' → I (m + n)%nat c'.
Proof.
  intros Hpres. revert m c. induction n as [|n IH]; intros m c Hle Hm Hsteps.
  { inversion Hsteps; subst. by rewrite Nat.add_0_r. }
  replace (m + S n)%nat with (S m + n)%nat by lia.
  inversion Hsteps as [|? ? c1 ? Heff Hrest]; subst.
  - apply (IH (S m) c'); [lia| |constructor]. eapply Hpres; [lia|done|constructor].
  - apply (IH (S m) c1); [lia| |done]. eapply Hpres; [lia|done|done].
Qed.

Lemma reach_inv ok (I : nat → ctx → Prop) c0 n c :
  (∀ a l d, ok a d → ok a (pfdd_set_Self l d)) →
  (∀ k c1 c2, (k < 3 * n)%nat → I k c1 → nef_effect ok c1 c2 → I (S k) c2) →
  I 0%nat c0 → nef_reach (req_apps ok) c0 n c → I (3 * n)%nat c.
Proof.
  intros Hself Hpres Hinit Hreach.
  apply (effects_inv ok I (3 * n) 0 (3 * n) c0 c); [done|lia|done|].
  by apply reach_effects.
Qed.

Definition any_app (_ : string) (_ : PfdData) : Prop := True.

Lemma reach_any c0 n c ok : nef_reach ok c0 n c → nef_reach (req_apps any_app) c0 n c.
Proof. apply nef_reach_mono. intros r _. by destruct r as [| | | | | | |? []| |? ? []| | | |? ? ? []|? ? ? []|]. Qed.

Lemma registry_init cf p u x c0 : nef_started cf p u x c0 → registry_inv c0 0 c0.
Proof.
  intros (_ & Hafs & _)%started_fields. split; [done|rewrite Hafs..].
  - rewrite map_size_empty. lia.
  - apply map_Forall_empty.
Qed.

Lemma reach_registry cf p u x c0 ok n c :
  nef_started cf p u x c0 → cfg_room cf (3 * n) → nef_reach ok c0 n c →
  registry_inv c0 (3 * n) c.
Proof.
  intros Hst Hroom Hreach%reach_any. destruct (started_fields _ _ _ _ _ Hst) as (Hcf & _).
  eapply (reach_inv any_app (registry_inv c0)); [done| |by eapply registry_init|done].
  intros k c1 c2 Hk Hinv Heff. eapply registry_effect; [|done|done].
  rewrite Hcf. eapply cfg_room_mono; [|done]. lia.
Qed.

Lemma no_subs_init cf p u x c0 : nef_started cf p u x c0 → all_subs c0 = ∅.
Proof.
  intros (_ & Hafs & _)%started_fields. unfold all_subs. rewrite Hafs.
  apply map_eq. intros [k i]. by rewrite lookup_flatten, !lookup_empty.
Qed.

Lemma no_trans_init cf p u x c0 : nef_started cf p u x c0 → all_trans c0 = ∅.
Proof.
  intros (_ & Hafs & _)%started_fields. unfold all_trans. rewrite Hafs.
  apply map_eq. intros [k i]. by rewrite lookup_flatten, !lookup_empty.
Qed.

Lemma reach_corr cf p u x c0 ok n c :
  nef_started cf p u x c0 → cfg_room cf (3 * n) → nef_reach ok c0 n c →
  corr_inv c0 (3 * n) c.
Proof.
  intros Hst Hroom Hreach%reach_any.
  destruct (started_fields _ _ _ _ _ Hst) as (Hcf & _ & _ & _ & Hcorr).
  eapply (reach_inv any_app (corr_inv c0)); [done| | |done].
  - intros k c1 c2 Hk Hinv Heff. eapply corr_effect; [|done|done].
    rewrite Hcf. eapply cfg_room_mono; [|done]. lia.
  - split; rewrite ?(no_subs_init _ _ _ _ _ Hst); [|by apply map_Forall_empty|done].
    unfold first_corr. rewrite Hcorr, Hcf. unfold cfg_room, correlationIDOffset in *.
    rewrite wrap_int_small by (unfold max_int; lia). unfold wrap_uint.
    rewrite Z.mod_small by lia. lia.
Qed.
End service.

Section southbound.
Context {P U D : Type}
  `{PcfSessions P, UdrInfluenceData U, UdrPfdData D, NefHooks}.
Implicit Types (c : nefContext P U D).

Lemma reach_pcf cf p u x c0 ok n c :
  nef_started cf p u x c0 → pcf_wf 0 p → sessions p = ∅ → cfg_room cf (3 * n) →
  nef_reach ok c0 n c → pcf_inv (3 * n) c.
Proof.
  intros Hst Hwf Hemp Hroom Hreach%reach_any.
  destruct (started_fields _ _ _ _ _ Hst) as (Hcf & _ & Hp & _ & _).
  eapply (reach_inv any_app (λ k c1, registry_inv c0 k c1 ∧ pcf_inv k c1)); [done| | |done].
  - intros k c1 c2 Hk [Hreg Hpcf] Heff.
    assert (cfg_room cf (S k)) as Hk' by (eapply cfg_room_mono; [|done]; lia).
    split; [eapply registry_effect; [by rewrite Hcf|done|done]|].
    eapply pcf_effect; [|done|done|done].
    unfold cfg_room, correlationIDOffset in Hk'. lia.
  - split; [by eapply registry_init|]. rewrite <- Hp in Hwf, Hemp. split; [done|].
    rewrite (no_subs_init _ _ _ _ _ Hst). split.
    + by intros k s [? _].
    + intros id. rewrite Hemp, lookup_empty. by intros [].
    + by intros k1 s1 k2 s2 [? _].
Qed.
End southbound.

Section apps.
Context {P U D : Type} `{PcfPolicyAuthorization P, UdrInfluenceData U, NefHooks}.

Lemma reach_apps `{UdrPfdData D} cf p u x (c0 : nefContext P U D) ok n c :
  nef_started cf p u x c0 → nef_reach ok c0 n c → apps_unique (all_trans c).
Proof.
  intros Hst Hreach%reach_any.
  eapply (reach_inv any_app (λ _ c1, apps_unique (all_trans c1))); [done| | |done].
  - intros k c1 c2 _ Hu Heff. by eapply apps_effect.
  - rewrite (no_trans_init _ _ _ _ _ Hst). by intros k1 t1 k2 t2 a Ht.
Qed.

Lemma reach_stored `{UdrPfdStore D} cf p u x (c0 : nefContext P U D) n c :
  nef_started cf p u x c0 → nef_reach (req_apps well_keyed) c0 n c → apps_stored c.
Proof.
  intros Hst Hreach.
  eapply (reach_inv well_keyed (λ _ c1, apps_unique (all_trans c1) ∧ apps_stored c1));
    [done| | |done].
  - intros k c1 c2 _ [Hu Hs] Heff. split; [by eapply apps_effect|by eapply stored_effect].
  - split.
    + rewrite (no_trans_init _ _ _ _ _ Hst). by intros k1 t1 k2 t2 a Ht.
    + intros k t a d. by rewrite (no_trans_init _ _ _ _ _ Hst), lookup_empty.
Qed.
End apps.

(** ** The theorems *)

(** C1: whatever the request, the state and the order of map
    iterations, and also when the handler panics, serving a request changes
    the state by at most three effects of the specification [nef_effect]:
    every change of the registry goes with the southbound call that belongs to
    it, and nothing else changes. *)
Theorem nef_serve_refines `{PcfPolicyAuthorization P, UdrInfluenceData U, UdrPfdData D,
    NefHooks} (c c' : nefContext P U D) (r : nefRequest) :
  nef_step c r c' → bsteps (nef_effect any_app) 3 c c'.
Proof.
  intros [E r']. apply serve_effects; [done|].
  by destruct r' as [| | | | | | |? []| |? ? []| | | |? ? ? []|? ? ? []|].
Qed.

Lemma nef_serve_refines_witness : bsteps (nef_effect any_app) 3 scen_c0 scen_c1.
Proof. apply (nef_serve_refines scen_c0 scen_c1 scen_create). apply nef_step_intro. Defined.

(** C2: however many requests are served, every registered AF
    and every subscription and transaction is well-formed: it is filed under
    its own identifier, which is a number the AF handed out; its self link is
    the URL that addresses it; its callbacks are set and agree with each other;
    and the configured limits on AFs, subscriptions and transactions hold. *)
Theorem nef_registry_wf `{PcfPolicyAuthorization P, UdrInfluenceData U, UdrPfdData D, NefHooks}
    cf p u x (c0 c : nefContext P U D) (n : nat) :
  nef_started cf p u x c0 → cfg_room cf (3 * n) → nef_reach any_request c0 n c →
  registry_inv c0 (3 * n) c.
Proof. apply reach_registry. Qed.

Lemma scen_started :
  nef_started scen_cfg (NewPCFClient 4242) NewUDRClient NewUDRPfdClient scen_c0.
Proof. by split. Qed.

Lemma scen_room : cfg_room scen_cfg (3 * 2).
Proof. unfold cfg_room. simpl. unfold correlationIDOffset. lia. Qed.

Lemma nef_registry_wf_witness : registry_inv scen_c0 6 scen_c2.
Proof.
  apply (nef_registry_wf _ _ _ _ _ _ 2 scen_started scen_room).
  by apply scen_reach2.
Defined.

(** C3: the NEF neither leaks nor loses sessions at the
    PCF: after any requests, the live sessions are exactly those of the
    subscriptions it sent to the PCF, one session per subscription. *)
Theorem nef_pcf_sessions_exact `{PcfSessions P, UdrInfluenceData U, UdrPfdData D, NefHooks}
    cf p u x (c0 c : nefContext P U D) (n : nat) :
  nef_started cf p u x c0 → pcf_wf 0 p → sessions p = ∅ → cfg_room cf (3 * n) →
  nef_reach any_request c0 n c →
  sessions_match (all_subs c) (pcfClient (nef c)).
Proof. intros Hst Hwf Hemp Hroom Hreach. eapply reach_pcf in Hreach; [|done..]. apply Hreach. Qed.

Lemma nef_pcf_sessions_exact_witness :
  sessions_match (all_subs scen_c2) (pcfClient (nef scen_c2)).
Proof.
  apply (nef_pcf_sessions_exact _ _ _ _ _ _ 2 scen_started).
  - apply NewPCFClient_wf. lia.
  - reflexivity.
  - apply scen_room.
  - by apply scen_reach2.
Defined.

(** No two transactions, of one AF or of different ones, ever
    hold the same PFD application. *)
Theorem nef_apps_unique `{PcfPolicyAuthorization P, UdrInfluenceData U, UdrPfdData D, NefHooks}
    cf p u x (c0 c : nefContext P U D) (n : nat) k1 t1 k2 t2 a :
  nef_started cf p u x c0 → nef_reach any_request c0 n c →
  all_trans c !! k1 = Some t1 → all_trans c !! k2 = Some t2 →
  is_Some (PfdDatas (pfdManagement t1) !! a) → is_Some (PfdDatas (pfdManagement t2) !! a) →
  k1 = k2.
Proof. intros Hst Hreach. by eapply (reach_apps _ _ _ _ _ _ _ _ Hst Hreach). Qed.

Lemma nef_apps_unique_witness :
  ∃ t, all_trans scen_c2 !! ("af1", "1000") = Some t ∧ ("af1", "1000") = ("af1", "1000").
Proof.
  eexists. split; [vm_compute; reflexivity|].
  eapply (nef_apps_unique _ _ _ _ _ _ 2 _ _ _ _ "video" scen_started).
  - by apply scen_reach2.
  - vm_compute. reflexivity.
  - vm_compute. reflexivity.
  - vm_compute. by eexists.
  - vm_compute. by eexists.
Defined.
