(* ===== verification/NefTiProps.v ===== *)
(** * Theorems on traffic influence subscriptions

    What the AF and the SMF observe: creation, reading, update and deletion
    of subscriptions, and the routing of notifications; that every request is
    answered with a status of the API, and that a refused one changes nothing. *)

From S2P Require Import Prelude Strconv Http NefModel NefSouth NefCore NefTi NefPfd.
From S2P Require Import NefPfdApi NefSpec NefTiFacts NefPfdFacts NefPfdRefine NefInv.
From S2P Require Import NefSouthInv NefService.
From stdpp Require Import prelude gmap strings relations.
From Stdlib Require Import ZArith.

Import NefScenario.
Local Open Scope Z_scope.

(** A UDR that answers every call on influence data. *)
Class UdrAccepts (U : Type) `{UdrInfluenceData U} : Prop := {
  udr_accepts : ∀ body iid u, ∃ r u', UdrInfluenceDataCreate body iid u = ((r, nil_err), u');
  udr_updates : ∀ body iid u, ∃ r u', UdrInfluenceDataUpdate body iid u = ((r, nil_err), u');
  udr_deletes_data : ∀ iid u, ∃ r u', UdrInfluenceDataDelete iid u = ((r, nil_err), u');
}.

#[export] Instance UdrClientStub_accepts : UdrAccepts UdrClientStub.
Proof.
  split; intros; simpl.
  - by do 2 eexists.
  - unfold stub_UdrInfluenceDataUpdate. case_match; by do 2 eexists.
  - unfold stub_UdrInfluenceDataDelete. case_match; by do 2 eexists.
Qed.

(** The response has the status and the body. *)
Definition replies {B} (w : ResponseWriter B) (code : Z) (body : list B) : Prop :=
  status_of w = code ∧ rw_body w = body.

Section ti_props.
Context {P U D : Type}
  `{PcfSessions P, UdrAccepts U, UdrPfdData D, NefHooks}.
Abbreviation ctx := (nefContext P U D).
Implicit Types (c : ctx) (af : afData) (s : afSubscription).

(** The AF has room for one more subscription, or can be registered. *)
Definition sub_slot c (id : string) : Prop :=
  match afs (nef c) !! id with
  | Some af => sub_room c af
  | None => Z.of_nat (size (afs (nef c))) < MaxAFSupport (cfg c) ∧ 0 < MaxSubSupport (cfg c)
  end.

(** The subscription that a successful creation adds. *)
Lemma afAddSubscription_creates `{E : GoEnv} key ti c af n :
  afs (nef c) !! key = Some af → sub_room c af → services_ok (AfServiceIDs (cfg c)) →
  pcf_wf n (pcfClient (nef c)) → Z.of_nat n < 2 ^ 62 →
  is_pcf_request ti || is_udr_request ti = true →
  let sid := Itoa (subIDnum af) in
  let loc := sub_location c af sid in
  ∃ rsp s c', afAddSubscription key ti c = (Ret (loc, rsp, nil_err), c') ∧
    afs (nef c') = <[key := add_sub sid s (bump_sub af)]> (afs (nef c)) ∧
    sub_ti s = ti_set_Self loc ti.
Proof.
  intros Haf Hroom Hsvc Hwf Hn Hreq sid loc.
  destruct (is_pcf_request ti) eqn:Hp.
  - destruct (afAddSubscription_pcf key ti c af Haf Hroom Hp)
      as [[? _]|(body & sess & resp & err & p' & Hcall & Hrun)]; [done|].
    destruct (pcf_create n _ body Hwf Hn) as (? & ? & ? & Hcall' & _).
    assert (err = nil_err) as -> by congruence.
    rewrite Hrun. do 3 eexists. split; [done|]. done.
  - destruct (afAddSubscription_udr key ti c af Haf Hroom Hp Hreq)
      as [[? _]|(body & resp & err & u' & Hcall & Hrun)]; [done|].
    destruct (udr_accepts body "" (udrClient (nef c))) as (? & ? & Hcall').
    assert (err = nil_err) as -> by congruence.
    rewrite Hrun. do 3 eexists. split; [done|]. done.
Qed.

Lemma createNewSub_creates `{E : GoEnv} id ti c c0 n :
  registry_inv c0 n c → sub_slot c id → services_ok (AfServiceIDs (cfg c)) →
  pcf_wf n (pcfClient (nef c)) → Z.of_nat n < 2 ^ 62 →
  is_pcf_request ti || is_udr_request ti = true →
  ∃ sid rsp s c' af', let loc := locationURLPrefix (nef c0) +:+ id +:+ "/subscriptions/" +:+ sid in
    createNewSub id ti c = (Ret (loc, rsp, nil_err), c') ∧
    all_subs c !! (id, sid) = None ∧ sub_ti s = ti_set_Self loc ti ∧
    all_subs c' = <[(id, sid) := s]> (all_subs c) ∧
    afs (nef c') !! id = Some af' ∧ subs af' !! sid = Some s ∧ ∃ k, sid = Itoa k.
Proof.
  intros Hreg Hslot Hsvc Hwf Hn Hreq. unfold sub_slot in Hslot.
  assert (locationURLPrefix (nef c) = locationURLPrefix (nef c0)) as Hpre by apply Hreg.
  destruct (createNewSub_run id ti c) as [[[af Haf] Hrun]|[(Hnone & ? & _)|(Hnone & _ & Hrun)]].
  - rewrite Haf in Hslot.
    destruct (afAddSubscription_creates id ti c af n) as (rsp & s & c' & Hadd & Hafs & Hti);
      [done..|].
    assert (afID af = id) as Hid by (by apply (ri_afs _ _ _ Hreg) in Haf as []).
    exists (Itoa (subIDnum af)), rsp, s, c', (add_sub (Itoa (subIDnum af)) s (bump_sub af)).
    unfold sub_location in *. rewrite Hpre, Hid in *. split_and!; [by rewrite Hrun| |done|..].
    + unfold all_subs. rewrite lookup_flatten, Haf. by eapply registry_fresh_sub.
    + unfold all_subs. rewrite Hafs. by eapply flatten_insert.
    + rewrite Hafs. apply lookup_insert_eq.
    + simpl. apply lookup_insert_eq.
    + eauto.
  - rewrite Hnone in Hslot. lia.
  - rewrite Hnone in Hslot. set (c1 := set_nef _ _) in Hrun.
    set (af := afCreate (cfg c) id).
    assert (afs (nef c1) !! id = Some af) as Haf by (simpl; apply lookup_insert_eq).
    destruct (afAddSubscription_creates id ti c1 af n) as (rsp & s & c' & Hadd & Hafs & Hti);
      try done.
    { unfold sub_room. simpl. rewrite map_size_empty. lia. }
    exists (Itoa (subIDnum af)), rsp, s, c', (add_sub (Itoa (subIDnum af)) s (bump_sub af)).
    unfold sub_location in *. simpl in Hadd, Hti. rewrite Hpre in *.
    split_and!; [by rewrite Hrun| |done|..].
    + unfold all_subs. by rewrite lookup_flatten, Hnone.
    + unfold all_subs. rewrite Hafs. simpl. rewrite insert_insert_eq.
      erewrite <- (flatten_new subs (afs (nef c)) id af) by done.
      rewrite <- (insert_insert_eq (afs (nef c)) id _ af) at 1.
      eapply flatten_insert; [apply lookup_insert_eq|done].
    + rewrite Hafs. apply lookup_insert_eq.
    + simpl. apply lookup_insert_eq.
    + eauto.
Qed.

(** A valid request for which there is room is answered with 201. *)
Lemma create_replies `{E : GoEnv} id ti c c0 n :
  registry_inv c0 n c → sub_slot c id → services_ok (AfServiceIDs (cfg c)) →
  pcf_wf n (pcfClient (nef c)) → Z.of_nat n < 2 ^ 62 →
  (validateAFTrafficInfluenceData ti).2 = true → is_pcf_request ti || is_udr_request ti = true →
  ∃ sid s w c',
    let loc := locationURLPrefix (nef c0) +:+ id +:+ "/subscriptions/" +:+ sid in
    serve (ReqTiCreate id (BodyOf ti)) new_writer c = (Ret w, c') ∧
    replies w 201 [PayTi (ti_set_Self loc ti)] ∧ header_of w !! "Location" = Some loc ∧
    all_subs c !! (id, sid) = None ∧ sub_ti s = ti_set_Self loc ti ∧
    all_subs c' = <[(id, sid) := s]> (all_subs c) ∧ ∃ k, sid = Itoa k.
Proof.
  intros Hreg Hslot Hsvc Hwf Hn Hval Hreq.
  destruct (createNewSub_creates id ti c c0 n Hreg Hslot Hsvc Hwf Hn Hreq)
    as (sid & rsp & s & c' & af' & Hrun & Hnone & Hti & Hall & Haf' & Hs' & Hk).
  exists sid, s. eexists. exists c'. intros loc. split.
  { simpl. unfold CreateTrafficInfluenceSubscription.
    destruct (validateAFTrafficInfluenceData ti) as [? []]; [|done]. simpl.
    by rewrite (bind_ret _ _ _ _ _ Hrun). }
  by split_and!.
Qed.

(** Reading a subscription answers with its stored attributes. *)
Lemma read_replies `{E : GoEnv} c id sid s :
  all_subs c !! (id, sid) = Some s →
  ∃ w, serve (ReqTiRead id sid) new_writer c = (Ret w, c) ∧ replies w 200 [PayTi (sub_ti s)].
Proof.
  intros (af & Haf & Hs)%lookup_flatten_Some. simpl.
  unfold ReadTrafficInfluenceSubscription.
  rewrite (bind_ret _ _ _ _ _ (nefGetAf_run id c)), Haf. simpl.
  rewrite (bind_ret _ _ _ _ _ (afGetSubscription_run id sid c af Haf)), Hs.
  eexists. by split.
Qed.

Lemma read_missing `{E : GoEnv} c id sid :
  all_subs c !! (id, sid) = None →
  ∃ w, serve (ReqTiRead id sid) new_writer c = (Ret w, c) ∧ status_of w = 404.
Proof.
  unfold all_subs. rewrite lookup_flatten. intros Hs. simpl.
  unfold ReadTrafficInfluenceSubscription.
  rewrite (bind_ret _ _ _ _ _ (nefGetAf_run id c)).
  destruct (afs (nef c) !! id) as [af|] eqn:Haf; simpl in *.
  - rewrite (bind_ret _ _ _ _ _ (afGetSubscription_run id sid c af Haf)), Hs.
    eexists. by split.
  - eexists. by split.
Qed.

(** Deleting a subscription that is in the table. *)
Lemma delete_replies `{E : GoEnv} c0 n c id sid s :
  registry_inv c0 n c → pcf_inv n c → all_subs c !! (id, sid) = Some s →
  ∃ w c', serve (ReqTiDelete id sid) new_writer c = (Ret w, c') ∧ replies w 204 [] ∧
    all_subs c' = delete (id, sid) (all_subs c) ∧
    sessions (pcfClient (nef c')) =
      match NEFSBDelete s with
      | SBPcf => delete (appSessionID s) (sessions (pcfClient (nef c)))
      | _ => sessions (pcfClient (nef c))
      end.
Proof.
  intros Hreg [Hwf Hm] Hs.
  destruct (registry_sub _ _ _ _ _ _ Hreg Hs) as [hi [_ _ _ _ (Hput & _ & _ & Hdel)]].
  pose proof Hs as (af & Haf & Hsub)%lookup_flatten_Some. simpl.
  unfold DeleteTrafficInfluenceSubscription.
  rewrite (bind_ret _ _ _ _ _ (nefGetAf_run id c)), Haf. simpl.
  destruct (afDeleteSubscription_run id sid c af s Haf Hsub) as (rsp & err & p' & u' & Hcase & Hrun);
    [congruence|].
  assert (err = nil_err ∧ sessions p' =
    match NEFSBDelete s with
    | SBPcf => delete (appSessionID s) (sessions (pcfClient (nef c)))
    | _ => sessions (pcfClient (nef c)) end) as [-> Hsess].
  { destruct Hcase as [(Hf & _ & r & Hcall)|(Hf & -> & r & Hcall)]; rewrite Hf.
    - destruct (sm_live _ _ Hm (id, sid) s) as [asc Hasc]; [done|].
      destruct (pcf_delete n _ _ _ Hwf Hasc) as (r' & p1 & Hcall' & _ & _ & Hp1).
      rewrite Hcall in Hcall'. by simplify_eq.
    - destruct (udr_deletes_data (iid s) (udrClient (nef c))) as (r' & u1 & Hcall').
      rewrite Hcall in Hcall'. by simplify_eq. }
  rewrite (bind_ret _ _ _ _ _ Hrun). simpl.
  set (af' := af_set_subs (delete sid (subs af)) af) in *.
  set (c1 := with_pcf p' (with_udr u' (upd_af id af' c))) in *.
  assert (afs (nef c1) !! id = Some af') as Haf1 by apply upd_af_lookup.
  assert (all_subs c1 = delete (id, sid) (all_subs c)) as Hall by by eapply flatten_delete.
  rewrite (bind_ret _ _ _ _ _ (get_af_run _ _ _ Haf1)).
  unfold afGetSubCount. case_bool_decide as Hsz.
  - go_unfold. rewrite (nefDeleteAf_run _ _ _ Haf1). do 2 eexists. split_and!; [done|done|..].
    + rewrite <- Hall. eapply flatten_remove_empty; [done|]. apply map_size_empty_inv. lia.
    + done.
  - do 2 eexists. by split_and!.
Qed.

(** Patching a subscription that is in the table. *)
Lemma patch_replies `{E : GoEnv} c0 n c id sid s tisp :
  registry_inv c0 n c → pcf_inv n c → all_subs c !! (id, sid) = Some s →
  let t' := updateTiFromTisp (sub_ti s) tisp in
  ∃ w c', serve (ReqTiPatch id sid (BodyOf tisp)) new_writer c = (Ret w, c') ∧
    replies w 200 [PayTi t'] ∧
    all_subs c' = <[(id, sid) := sub_set_ti t' s]> (all_subs c).
Proof.
  intros Hreg [Hwf Hm] Hs t'.
  destruct (registry_sub _ _ _ _ _ _ Hreg Hs) as [hi [_ _ _ _ (Hput & _ & Hpatch & Hdel)]].
  pose proof Hs as (af & Haf & Hsub)%lookup_flatten_Some. simpl.
  unfold UpdatePatchTrafficInfluenceSubscription.
  rewrite (bind_ret _ _ _ _ _ (nefGetAf_run id c)), Haf. simpl.
  destruct (afPartialUpdateSubscription_run id sid tisp c af s Haf Hsub)
    as (rsp & err & p' & u' & Hcase & Hrun); [congruence|].
  assert (err = nil_err) as ->.
  { destruct Hcase as [(Hf & _ & body & r & Hcall)|(Hf & -> & body & r & Hcall)].
    - destruct (sm_live _ _ Hm (id, sid) s) as [asc Hasc]; [split; [done|congruence]|].
      destruct (pcf_update n _ body _ _ Hwf Hasc) as (r' & p1 & Hcall' & _). congruence.
    - destruct (udr_updates body (iid s) (udrClient (nef c))) as (r' & u1 & Hcall').
      congruence. }
  rewrite (bind_ret _ _ _ _ _ Hrun). do 2 eexists. split_and!; [done|done|].
  by eapply flatten_insert.
Qed.

(** Replacing a subscription held at the UDR. *)
Lemma put_replies `{E : GoEnv} c id sid s ti :
  services_ok (AfServiceIDs (cfg c)) →
  all_subs c !! (id, sid) = Some s → NEFSBPut s = SBUdr →
  let t' := ti_set_Self (ti_Self (sub_ti s)) ti in
  ∃ w s' c', serve (ReqTiPut id sid (BodyOf ti)) new_writer c = (Ret w, c') ∧
    replies w 200 [PayTi t'] ∧ all_subs c' = <[(id, sid) := s']> (all_subs c) ∧
    sub_ti s' = t' ∧ same_sub s s' ∧
    NotifCorreID s' = (if wants_up_path_change ti then corr_text c else NotifCorreID s).
Proof.
  intros Hsvc (af & Haf & Hsub)%lookup_flatten_Some Hf t'. simpl.
  unfold UpdatePutTrafficInfluenceSubscription.
  rewrite (bind_ret _ _ _ _ _ (nefGetAf_run id c)), Haf. simpl.
  destruct (afUpdateSubscription_udr id sid ti c af s Haf Hsub Hf)
    as [[? _]|(body & resp & err & u' & Hcall & Hrun)]; [done|].
  destruct (udr_accepts body (iid s) (udrClient (nef c))) as (r' & u1 & Hcall').
  assert (err = nil_err) as -> by congruence.
  rewrite (bind_ret _ _ _ _ _ Hrun). do 3 eexists. split_and!; [done|done|..].
  - by eapply flatten_insert.
  - done.
  - by destruct (wants_up_path_change ti).
  - by destruct (wants_up_path_change ti).
Qed.
End ti_props.

(** ** What the AF observes *)
Section reachable.
Context {P U D : Type}
  `{PcfSessions P, UdrAccepts U, UdrPfdData D, NefHooks}.
Implicit Types (s : afSubscription).

(** A service that started with an empty PCF and served [n] requests. *)
Context (cf : Config) (p : P) (u : U) (x : D) (c0 c : nefContext P U D) (n : nat)
  (Hstart : nef_started cf p u x c0)
  (Hpcf : pcf_wf 0 p) (Hempty : sessions p = ∅)
  (Hroom : cfg_room cf (3 * n))
  (Hreach : nef_reach any_request c0 n c).

Lemma reached_registry : registry_inv c0 (3 * n) c.
Proof. by eapply reach_registry. Qed.

Lemma reached_pcf : pcf_inv (3 * n) c.
Proof. by eapply reach_pcf. Qed.

Lemma reached_cfg : cfg c = cf.
Proof.
  transitivity (cfg c0); [apply reached_registry|apply Hstart].
Qed.

Lemma reached_small : Z.of_nat (3 * n) < 2 ^ 62.
Proof. unfold cfg_room, correlationIDOffset in Hroom. lia. Qed.

(** C4: a valid subscription request for which there is
    room is answered with 201, the subscription and its URL in the Location
    field; the subscription is new, it is the only change to the table of
    subscriptions, and reading that URL afterwards returns it unchanged. *)
Theorem nef_create_then_read `{E1 : GoEnv, E2 : GoEnv} id ti :
  services_ok (AfServiceIDs cf) → sub_slot c id →
  (validateAFTrafficInfluenceData ti).2 = true →
  is_pcf_request ti || is_udr_request ti = true →
  ∃ sid s w c',
    let loc := locationURLPrefix (nef c0) +:+ id +:+ "/subscriptions/" +:+ sid in
    let created := ti_set_Self loc ti in
    serve (E := E1) (ReqTiCreate id (BodyOf ti)) new_writer c = (Ret w, c') ∧
    replies w 201 [PayTi created] ∧ header_of w !! "Location" = Some loc ∧
    all_subs c !! (id, sid) = None ∧ all_subs c' = <[(id, sid) := s]> (all_subs c) ∧
    ∃ w', serve (E := E2) (ReqTiRead id sid) new_writer c' = (Ret w', c') ∧
      replies w' 200 [PayTi created].
Proof.
  intros Hsvc Hslot Hval Hreq. rewrite <- reached_cfg in Hsvc.
  destruct (create_replies (E := E1) id ti c c0 (3 * n) reached_registry Hslot Hsvc
    (proj1 reached_pcf) reached_small Hval Hreq)
    as (sid & s & w & c' & Hserve & Hrep & Hloc & Hnone & Hti & Hall & _).
  exists sid, s, w, c'. intros loc created. split_and!; [done..|].
  unfold created, loc. rewrite <- Hti. apply (read_replies (E := E2)).
  rewrite Hall. apply lookup_insert_eq.
Qed.

(** Deleting a subscription is answered with 204; it
    removes that subscription and no other, ends its session at the PCF and no
    other session, and the subscription is not found any more. *)
Theorem nef_delete_forgets `{E1 : GoEnv, E2 : GoEnv} id sid s :
  all_subs c !! (id, sid) = Some s →
  ∃ w c', serve (E := E1) (ReqTiDelete id sid) new_writer c = (Ret w, c') ∧
    replies w 204 [] ∧ all_subs c' = delete (id, sid) (all_subs c) ∧
    sessions (pcfClient (nef c')) =
      match NEFSBDelete s with
      | SBPcf => delete (appSessionID s) (sessions (pcfClient (nef c)))
      | _ => sessions (pcfClient (nef c))
      end ∧
    ∃ w', serve (E := E2) (ReqTiRead id sid) new_writer c' = (Ret w', c') ∧ status_of w' = 404.
Proof.
  intros Hs.
  destruct (delete_replies (E := E1) c0 (3 * n) c id sid s reached_registry reached_pcf Hs)
    as (w & c' & Hrun & Hw & Hall & Hsess).
  exists w, c'. split_and!; [done..|]. apply (read_missing (E := E2)).
  rewrite Hall. apply lookup_delete_eq.
Qed.

(** Patching a subscription is answered with 200 and the
    patched attributes, which replace those of that subscription and change
    nothing else in the table; what the patch does not mention stays. *)
Theorem nef_patch_updates `{E : GoEnv} id sid s tisp :
  all_subs c !! (id, sid) = Some s →
  let t' := updateTiFromTisp (sub_ti s) tisp in
  ∃ w c', serve (ReqTiPatch id sid (BodyOf tisp)) new_writer c = (Ret w, c') ∧
    replies w 200 [PayTi t'] ∧
    all_subs c' = <[(id, sid) := sub_set_ti t' s]> (all_subs c) ∧
    ti_Self t' = ti_Self (sub_ti s) ∧ ti_AfTransID t' = ti_AfTransID (sub_ti s) ∧
    (tisp_TrafficRoutes tisp = None → ti_TrafficRoutes t' = ti_TrafficRoutes (sub_ti s)) ∧
    (tisp_TrafficFilters tisp = None → ti_TrafficFilters t' = ti_TrafficFilters (sub_ti s)) ∧
    (tisp_ValidGeoZoneIDs tisp = None →
       ti_ValidGeoZoneIDs t' = ti_ValidGeoZoneIDs (sub_ti s)).
Proof.
  intros Hs t'.
  destruct (patch_replies c0 (3 * n) c id sid s tisp reached_registry reached_pcf Hs)
    as (w & c' & Hrun & Hw & Hall).
  exists w, c'. split_and!; try done; simpl; by intros ->.
Qed.

(** Replacing a subscription held at the UDR is answered
    with 200 and the new attributes under the old URL, which are what is
    stored; a replacement that asks for path change events gets the next
    correlation identifier.  Replacing one held at the PCF is refused with
    404 and changes nothing at all. *)
Theorem nef_put_updates `{E : GoEnv} id sid s ti :
  services_ok (AfServiceIDs cf) → all_subs c !! (id, sid) = Some s →
  match NEFSBPut s with
  | SBUdr =>
      let t' := ti_set_Self (ti_Self (sub_ti s)) ti in
      ∃ w s' c', serve (ReqTiPut id sid (BodyOf ti)) new_writer c = (Ret w, c') ∧
        replies w 200 [PayTi t'] ∧ all_subs c' = <[(id, sid) := s']> (all_subs c) ∧
        sub_ti s' = t' ∧ same_sub s s' ∧
        NotifCorreID s' = (if wants_up_path_change ti then corr_text c else NotifCorreID s)
  | _ => ∃ w, serve (ReqTiPut id sid (BodyOf ti)) new_writer c = (Ret w, c) ∧
           status_of w = 404
  end.
Proof.
  intros Hsvc Hs. rewrite <- reached_cfg in Hsvc.
  destruct (registry_sub _ _ _ _ _ _ reached_registry Hs) as [hi [_ _ _ _ (Hput & _)]].
  destruct (NEFSBPut s) eqn:Hf; [done| |by apply put_replies].
  pose proof Hs as (af & Haf & Hsub)%lookup_flatten_Some. simpl.
  unfold UpdatePutTrafficInfluenceSubscription.
  rewrite (bind_ret _ _ _ _ _ (nefGetAf_run id c)), Haf. simpl.
  rewrite (bind_ret _ _ _ _ _ (afUpdateSubscription_pcf id sid ti c af s Haf Hsub Hf)).
  eexists. by split.
Qed.
End reachable.

(** ** Witnesses *)

Lemma scen_pcf_wf : pcf_wf 0 (NewPCFClient 4242).
Proof. apply NewPCFClient_wf. lia. Qed.

Lemma scen_reached : nef_reach any_request scen_c0 2 scen_c2.
Proof. by apply scen_reach2. Qed.

Lemma scen_services : services_ok (AfServiceIDs scen_cfg).
Proof. constructor; [|constructor]. by exists "svc1", "dnn1", "01". Qed.

(** The subscription created first. *)
Definition scen_sub : afSubscription :=
  Eval vm_compute in default (new_afSubscription "" zero_TrafficInfluSub)
                       (all_subs scen_c2 !! ("af1", "11111")).

Lemma scen_sub_stored : all_subs scen_c2 !! ("af1", "11111") = Some scen_sub.
Proof. vm_compute. reflexivity. Qed.

Lemma nef_create_then_read_witness :
  ∃ sid s w c',
    let loc := locationURLPrefix (nef scen_c0) +:+ "af2" +:+ "/subscriptions/" +:+ sid in
    serve (ReqTiCreate "af2" (BodyOf scen_ti_group)) new_writer scen_c2 = (Ret w, c') ∧
    replies w 201 [PayTi (ti_set_Self loc scen_ti_group)] ∧
    all_subs c' = <[("af2", sid) := s]> (all_subs scen_c2).
Proof.
  destruct (nef_create_then_read _ _ _ _ _ _ 2 scen_started scen_pcf_wf eq_refl scen_room
    scen_reached "af2" scen_ti_group) as (sid & s & w & c' & Hrun & Hw & _ & _ & Hall & _).
  - apply scen_services.
  - vm_compute. by split.
  - reflexivity.
  - reflexivity.
  - exists sid, s, w, c'. exact (conj Hrun (conj Hw Hall)).
Defined.

Lemma nef_delete_forgets_witness :
  ∃ w c', serve (ReqTiDelete "af1" "11111") new_writer scen_c2 = (Ret w, c') ∧
    replies w 204 [] ∧ all_subs c' = delete ("af1", "11111") (all_subs scen_c2).
Proof.
  destruct (nef_delete_forgets _ _ _ _ _ _ 2 scen_started scen_pcf_wf eq_refl scen_room
    scen_reached "af1" "11111" scen_sub scen_sub_stored) as (w & c' & Hrun & Hw & Hall & _).
  exists w, c'. exact (conj Hrun (conj Hw Hall)).
Defined.

Lemma nef_patch_updates_witness :
  ∃ w c', serve (ReqTiPatch "af1" "11111" (BodyOf scen_patch)) new_writer scen_c2 = (Ret w, c') ∧
    replies w 200 [PayTi (updateTiFromTisp (sub_ti scen_sub) scen_patch)].
Proof.
  destruct (nef_patch_updates _ _ _ _ _ _ 2 scen_started scen_pcf_wf eq_refl scen_room
    scen_reached "af1" "11111" scen_sub scen_patch scen_sub_stored) as (w & c' & Hrun & Hw & _).
  exists w, c'. exact (conj Hrun Hw).
Defined.

Lemma nef_put_updates_witness :
  ∃ w, serve (ReqTiPut "af1" "11111" (BodyOf scen_ti_ue)) new_writer scen_c2 = (Ret w, scen_c2) ∧
    status_of w = 404.
Proof.
  exact (nef_put_updates _ _ _ _ _ _ 2 scen_started scen_room scen_reached
    "af1" "11111" scen_sub scen_ti_ue scen_services scen_sub_stored).
Defined.

(** The requests on subscriptions. *)
Definition is_ti_request (r : nefRequest) : bool :=
  match r with
  | ReqTiReadAll _ | ReqTiCreate _ _ | ReqTiRead _ _ | ReqTiPut _ _ _ | ReqTiPatch _ _ _
  | ReqTiDelete _ _ | ReqSmfNotify _ => true
  | _ => false
  end.

(** The status codes of the API. *)
Definition api_codes : list Z := [200; 201; 204; 400; 404; 411; 415; 500; 503].

Lemma error_reply_code rsp :
  status_of (sendErrorResponseToAF new_writer rsp) ∈ api_codes.
Proof.
  rewrite sendErrorResponse_status by done.
  pose proof (createErrorJSON_code rsp) as Hc. unfold api_codes. set_solver.
Qed.

Section safety.
Context {P U D : Type}
  `{PcfPolicyAuthorization P, UdrInfluenceData U, UdrPfdData D, NefHooks}.
Abbreviation ctx := (nefContext P U D).
Implicit Types (c : ctx) (af : afData) (s : afSubscription).

(** The run returns, and the response has a status of the API. *)
Definition answers {S} (r : outcome (ResponseWriter nefPayload) * S) : Prop :=
  ∃ w x', r = (Ret w, x') ∧ status_of w ∈ api_codes.

Lemma answers_error {S} (x' : S) rsp :
  answers (Ret (sendErrorResponseToAF new_writer rsp), x').
Proof. eexists _, _. split; [done|]. apply error_reply_code. Qed.

Lemma answers_code {S} (x' : S) (w : ResponseWriter nefPayload) :
  bool_decide (status_of w ∈ api_codes) = true → answers (Ret w, x').
Proof. intros ?%bool_decide_eq_true. eexists _, _. by split. Qed.

Context `{E : GoEnv}.

Lemma afAddSubscription_returns key ti c af :
  afs (nef c) !! key = Some af → services_ok (AfServiceIDs (cfg c)) →
  ∃ r c', afAddSubscription key ti c = (Ret r, c').
Proof.
  intros Haf Hsvc. destruct (decide (sub_room c af)) as [Hroom|Hroom].
  2: { rewrite (afAddSubscription_full key ti c af) by done. eauto. }
  destruct (is_pcf_request ti) eqn:Hp.
  { destruct (afAddSubscription_pcf key ti c af Haf Hroom Hp)
      as [[? _]|(? & ? & ? & ? & ? & _ & Hrun)]; [done|eauto]. }
  destruct (is_udr_request ti) eqn:Hu.
  { destruct (afAddSubscription_udr key ti c af Haf Hroom Hp Hu)
      as [[? _]|(? & ? & ? & ? & _ & Hrun)]; [done|eauto]. }
  rewrite (afAddSubscription_invalid key ti c af) by done. eauto.
Qed.

Lemma createNewSub_returns id ti c :
  services_ok (AfServiceIDs (cfg c)) → ∃ r c', createNewSub id ti c = (Ret r, c').
Proof.
  intros Hsvc. destruct (createNewSub_run id ti c) as [[[af Haf] ->]|[(_ & _ & ->)|(_ & _ & ->)]].
  - by eapply afAddSubscription_returns.
  - eauto.
  - eapply afAddSubscription_returns; [simpl; apply lookup_insert_eq|done].
Qed.

Lemma create_answers id body c :
  services_ok (AfServiceIDs (cfg c)) →
  answers (CreateTrafficInfluenceSubscription id body new_writer c).
Proof.
  intros Hsvc. unfold CreateTrafficInfluenceSubscription.
  destruct body as [| |ti]; [apply answers_error..|].
  destruct (validateAFTrafficInfluenceData ti) as [rsp []]; [|apply answers_error]. simpl.
  destruct (createNewSub_returns id ti c Hsvc) as ([[loc rsp'] err] & c' & Hrun).
  rewrite (bind_ret _ _ _ _ _ Hrun). destruct err; [apply answers_error|].
  by apply answers_code.
Qed.

(** The handlers of one subscription, when its entry is well-formed. *)
Definition callbacks_set c : Prop :=
  ∀ k s, all_subs c !! k = Some s →
    NEFSBPut s ≠ SBNil ∧ NEFSBPatch s ≠ SBNil ∧ NEFSBDelete s ≠ SBNil.

Lemma registry_callbacks c0 n c : registry_inv c0 n c → callbacks_set c.
Proof.
  intros Hreg [key sid] s Hs. destruct (registry_sub _ _ _ _ _ _ Hreg Hs) as [? [_ _ _ _ Hfn]].
  destruct Hfn as (? & _ & -> & ->). done.
Qed.

Lemma put_answers id sid body c :
  services_ok (AfServiceIDs (cfg c)) → callbacks_set c →
  answers (UpdatePutTrafficInfluenceSubscription id sid body new_writer c).
Proof.
  intros Hsvc Hcb. unfold UpdatePutTrafficInfluenceSubscription.
  rewrite (bind_ret _ _ _ _ _ (nefGetAf_run id c)).
  destruct (afs (nef c) !! id) as [af|] eqn:Haf; [|apply answers_error]. simpl.
  destruct body as [| |ti]; [apply answers_error..|].
  assert (∃ r c', afUpdateSubscription id sid ti c = (Ret r, c'))
    as ([[rsp t'] err] & c' & Hrun).
  { destruct (subs af !! sid) as [s|] eqn:Hs.
    2: { unfold afUpdateSubscription.
         rewrite (bind_ret _ _ _ _ _ (get_af_run _ _ _ Haf)), Hs. by do 2 eexists. }
    destruct (Hcb _ _ (all_subs_lookup _ _ _ _ _ Haf Hs)) as [Hput _].
    destruct (NEFSBPut s) eqn:Hf; [done|..].
    - rewrite (afUpdateSubscription_pcf id sid ti c af s) by done. eauto.
    - destruct (afUpdateSubscription_udr id sid ti c af s Haf Hs Hf)
        as [[? _]|(? & ? & ? & ? & _ & Hrun)]; [done|eauto]. }
  rewrite (bind_ret _ _ _ _ _ Hrun). destruct err; [apply answers_error|].
  by apply answers_code.
Qed.

Lemma patch_answers id sid body c :
  callbacks_set c → answers (UpdatePatchTrafficInfluenceSubscription id sid body new_writer c).
Proof.
  intros Hcb. unfold UpdatePatchTrafficInfluenceSubscription.
  rewrite (bind_ret _ _ _ _ _ (nefGetAf_run id c)).
  destruct (afs (nef c) !! id) as [af|] eqn:Haf; [|apply answers_error]. simpl.
  destruct body as [| |tisp]; [apply answers_error..|].
  assert (∃ r c', afPartialUpdateSubscription id sid tisp c = (Ret r, c'))
    as ([[rsp t'] err] & c' & Hrun).
  { destruct (subs af !! sid) as [s|] eqn:Hs.
    2: { unfold afPartialUpdateSubscription.
         rewrite (bind_ret _ _ _ _ _ (get_af_run _ _ _ Haf)), Hs. by do 2 eexists. }
    destruct (Hcb _ _ (all_subs_lookup _ _ _ _ _ Haf Hs)) as (_ & Hp & _).
    destruct (afPartialUpdateSubscription_run id sid tisp c af s Haf Hs Hp)
      as (? & ? & ? & ? & _ & Hrun). eauto. }
  rewrite (bind_ret _ _ _ _ _ Hrun). destruct err; [apply answers_error|].
  by apply answers_code.
Qed.

Lemma delete_answers id sid c :
  callbacks_set c → answers (DeleteTrafficInfluenceSubscription id sid new_writer c).
Proof.
  intros Hcb. unfold DeleteTrafficInfluenceSubscription.
  rewrite (bind_ret _ _ _ _ _ (nefGetAf_run id c)).
  destruct (afs (nef c) !! id) as [af|] eqn:Haf; [|apply answers_error]. simpl.
  destruct (subs af !! sid) as [s|] eqn:Hs.
  2: { unfold afDeleteSubscription. go_unfold.
       rewrite (get_af_run _ _ _ Haf), Hs. apply answers_error. }
  destruct (Hcb _ _ (all_subs_lookup _ _ _ _ _ Haf Hs)) as (_ & _ & Hd).
  destruct (afDeleteSubscription_run id sid c af s Haf Hs Hd)
    as (rsp & err & p' & u' & _ & Hrun).
  rewrite (bind_ret _ _ _ _ _ Hrun). destruct err; [apply answers_error|]. simpl.
  set (c1 := with_pcf p' _).
  assert (afs (nef c1) !! id = Some (af_set_subs (delete sid (subs af)) af)) as Haf1
    by apply upd_af_lookup.
  rewrite (bind_ret _ _ _ _ _ (get_af_run _ _ _ Haf1)).
  case_bool_decide; [|by apply answers_code].
  go_unfold. rewrite (nefDeleteAf_run _ _ _ Haf1). by apply answers_code.
Qed.

Lemma readall_answers id c : answers (ReadAllTrafficInfluenceSubscription id new_writer c).
Proof.
  unfold ReadAllTrafficInfluenceSubscription.
  rewrite (bind_ret _ _ _ _ _ (nefGetAf_run id c)).
  destruct (afs (nef c) !! id) as [af|] eqn:Haf; simpl; [|by apply answers_code].
  rewrite (bind_ret _ _ _ _ _ (afGetSubscriptionList_run id c af Haf)). by apply answers_code.
Qed.

Lemma read_answers id sid c : answers (ReadTrafficInfluenceSubscription id sid new_writer c).
Proof.
  unfold ReadTrafficInfluenceSubscription.
  rewrite (bind_ret _ _ _ _ _ (nefGetAf_run id c)).
  destruct (afs (nef c) !! id) as [af|] eqn:Haf; simpl; [|by apply answers_error].
  rewrite (bind_ret _ _ _ _ _ (afGetSubscription_run id sid c af Haf)).
  destruct (subs af !! sid); [by apply answers_code|by apply answers_error].
Qed.

Lemma notify_answers body c :
  answers ((r ← NotifySmfUPFEvent body new_writer; mret r.1) c).
Proof.
  unfold NotifySmfUPFEvent. destruct body as [| |ev]; [by apply answers_code..|].
  destruct (str_empty _); [by apply answers_code|].
  case_bool_decide; [by apply answers_code|].
  destruct (first_up_path_ch _); [|by apply answers_code]. go_unfold.
  destruct (getSubFromCorrID _ _); by apply answers_code.
Qed.

Lemma ti_answers r c :
  is_ti_request r = true → services_ok (AfServiceIDs (cfg c)) → callbacks_set c →
  answers (serve r new_writer c).
Proof.
  intros Hr Hsvc Hcb. destruct r; try done; simpl;
    auto using readall_answers, create_answers, read_answers, put_answers, patch_answers,
      delete_answers, notify_answers.
Qed.
End safety.

(** ** Searching by correlation identifier *)
Section notify.
Context {P U D : Type}
  `{PcfPolicyAuthorization P, UdrInfluenceData U, UdrPfdData D, NefHooks, E : GoEnv}.
Implicit Types (c : nefContext P U D) (s : afSubscription).

Lemma getSubFromCorrID_found corr c s :
  getSubFromCorrID corr c = Some s → ∃ k, all_subs c !! k = Some s ∧ NotifCorreID s = corr.
Proof.
  unfold getSubFromCorrID. destruct (loop_acc _ _ _) as [|vs] eqn:Hl; [done|].
  intros [= ->]. apply loop_acc_inr in Hl as ([k af] & Hk & Hb).
  apply elem_of_map_range in Hk. simpl in Hb.
  destruct (loop_acc _ _ _) as [|vs] eqn:Hl2 in Hb; simplify_eq.
  apply loop_acc_inr in Hl2 as ([sid s'] & Hs & Hb2). apply elem_of_map_range in Hs.
  simpl in Hb2. case_bool_decide; simplify_eq. exists (k, sid). split; [|done].
  by eapply all_subs_lookup.
Qed.

Lemma getSubFromCorrID_none corr c k s :
  getSubFromCorrID corr c = None → all_subs c !! k = Some s → NotifCorreID s ≠ corr.
Proof.
  unfold getSubFromCorrID. destruct (loop_acc _ _ _) as [[]|] eqn:Hl; [|done]. intros _.
  destruct k as [k sid]. intros (af & Haf & Hs)%lookup_flatten_Some Hc.
  rewrite loop_acc_inl in Hl.
  specialize (Hl (k, af) ltac:(by apply elem_of_map_range)). simpl in Hl.
  destruct (loop_acc _ _ _) as [[]|] eqn:Hl2 in Hl; [|done].
  rewrite loop_acc_inl in Hl2.
  specialize (Hl2 (sid, s) ltac:(by apply elem_of_map_range)). simpl in Hl2.
  by rewrite bool_decide_eq_true_2 in Hl2.
Qed.

(** With unique identifiers the search is independent of the iteration. *)
Lemma getSubFromCorrID_unique c0 n c k s :
  corr_inv c0 n c → all_subs c !! k = Some s → NotifCorreID s ≠ "" →
  getSubFromCorrID (NotifCorreID s) c = Some s.
Proof.
  intros Hinv Hs Hne. destruct (getSubFromCorrID _ c) as [s'|] eqn:Hg.
  - apply getSubFromCorrID_found in Hg as (k' & Hs' & Hc).
    assert (k = k'); [by eapply (ci_unique _ _ _ Hinv)|]. congruence.
  - by eapply getSubFromCorrID_none in Hg.
Qed.
End notify.

(** The mandatory attributes of a subscription request. *)
Definition ti_complete (ti : TrafficInfluSub) : Prop :=
  ti_AfTransID ti ≠ "" ∧ (ti_AfServiceID ti ≠ "" ∨ ti_Dnn ti ≠ "") ∧
  (ti_AfAppID ti ≠ "" ∨ ti_TrafficFilters ti ≠ None ∨ ti_EthTrafficFilters ti ≠ None).

Lemma validate_ti_iff ti : (validateAFTrafficInfluenceData ti).2 = true ↔ ti_complete ti.
Proof.
  unfold validateAFTrafficInfluenceData, ti_complete, str_empty.
  repeat case_bool_decide; simpl; (split; [intros ?|intros (? & ? & ?)]); try done; tauto.
Qed.

(** ** The theorems *)
Section theorems.
Context {P U D : Type}
  `{PcfPolicyAuthorization P, UdrInfluenceData U, UdrPfdData D, NefHooks}.
Implicit Types (c : nefContext P U D) (s : afSubscription).

(** The limit that a creation for an AF runs into. *)
Definition at_limit c (id : string) : Prop :=
  match afs (nef c) !! id with
  | Some af => MaxSubSupport (cfg c) ≤ Z.of_nat (size (subs af))
  | None => MaxAFSupport (cfg c) ≤ Z.of_nat (size (afs (nef c)))
  end.

(** C5: with a well-formed list of services, every
    request on subscriptions and every notification that the service may
    receive in its life is answered, with one of the status codes of the API:
    no handler panics, whatever the southbound functions answer. *)
Theorem nef_ti_always_answers `{E : GoEnv} cf p u x c0 c (n : nat) r :
  nef_started cf p u x c0 → cfg_room cf (3 * n) → nef_reach any_request c0 n c →
  services_ok (AfServiceIDs cf) → is_ti_request r = true →
  ∃ w c', serve r new_writer c = (Ret w, c') ∧
    status_of w ∈ [200; 201; 204; 400; 404; 411; 415; 500; 503].
Proof.
  intros Hst Hroom Hreach Hsvc Hr.
  assert (registry_inv c0 (3 * n) c) as Hreg by by eapply reach_registry.
  apply ti_answers; [done| |by eapply registry_callbacks].
  destruct (ri_frame _ _ _ Hreg) as [-> _]. destruct Hst as [_ ->]. done.
Qed.

(** When an AF has as many subscriptions as configured,
    or a new AF would be one too many, a valid creation is answered with 400
    and nothing changes: no entry, no counter, no southbound call. *)
Theorem nef_limits_refuse `{E : GoEnv} c id ti :
  at_limit c id → (validateAFTrafficInfluenceData ti).2 = true →
  ∃ w, serve (ReqTiCreate id (BodyOf ti)) new_writer c = (Ret w, c) ∧ status_of w = 400.
Proof.
  intros Hlim Hval. simpl. unfold CreateTrafficInfluenceSubscription.
  destruct (validateAFTrafficInfluenceData ti) as [? []]; [|done]. simpl.
  unfold at_limit in Hlim.
  destruct (createNewSub_run id ti c)
    as [[[af Haf] Hrun]|[(Hnone & _ & Hrun)|(Hnone & ? & _)]].
  - rewrite Haf in Hlim. rewrite (afAddSubscription_full id ti c af) in Hrun;
      [|done|unfold sub_room; lia].
    rewrite (bind_ret _ _ _ _ _ Hrun). eexists. by split.
  - rewrite (bind_ret _ _ _ _ _ Hrun). eexists. by split.
  - rewrite Hnone in Hlim. lia.
Qed.

(** A creation is refused for a missing attribute
    exactly when the transaction id is absent, or both the service id and the
    DNN are, or the application id and both kinds of filters are; it is then
    answered with 400 and changes nothing. *)
Theorem nef_validation_exact `{E : GoEnv} c id ti :
  ((validateAFTrafficInfluenceData ti).2 = true ↔ ti_complete ti) ∧
  ((validateAFTrafficInfluenceData ti).2 = false →
   ∃ w, serve (ReqTiCreate id (BodyOf ti)) new_writer c = (Ret w, c) ∧ status_of w = 400).
Proof.
  split; [apply validate_ti_iff|]. intros Hval. simpl.
  unfold CreateTrafficInfluenceSubscription.
  destruct (validateAFTrafficInfluenceData ti) as [rsp []] eqn:Hv; [done|].
  exists (sendErrorResponseToAF new_writer rsp). split; [done|].
  rewrite sendErrorResponse_status by done.
  unfold validateAFTrafficInfluenceData in Hv. repeat case_match; by simplify_eq.
Qed.

(** A path change reported by the SMF for a correlation
    identifier reaches the one subscription that has it, at that
    subscription's destination, whatever the order in which Go visits the
    maps; an identifier that no subscription has is answered with 404 and
    nothing is sent. *)
Theorem nef_notify_routes `{E : GoEnv} cf p u x c0 c (n : nat) notif evs e :
  nef_started cf p u x c0 → cfg_room cf (3 * n) → nef_reach any_request c0 n c →
  notif ≠ "" → first_up_path_ch evs = Some e →
  let smfEv := mkNsmfEventExposureNotification notif evs in
  (∀ k s, all_subs c !! k = Some s → NotifCorreID s = notif →
     ∃ w, NotifySmfUPFEvent (BodyOf smfEv) new_writer c =
       (Ret (w, Some (ti_NotificationDestination (sub_ti s), event_of (sub_ti s) e)), c) ∧
       status_of w = 200) ∧
  ((∀ k s, all_subs c !! k = Some s → NotifCorreID s ≠ notif) →
     ∃ w, NotifySmfUPFEvent (BodyOf smfEv) new_writer c = (Ret (w, None), c) ∧
       status_of w = 404).
Proof.
  intros Hst Hroom Hreach Hne Hev smfEv.
  assert (corr_inv c0 (3 * n) c) as Hcorr by by eapply reach_corr.
  assert (evs ≠ []) as Hnil by by intros ->.
  unfold NotifySmfUPFEvent. simpl. unfold str_empty.
  rewrite bool_decide_eq_false_2 by done. rewrite bool_decide_eq_false_2 by done.
  rewrite Hev. go_unfold. split.
  - intros k s Hs <-. rewrite (getSubFromCorrID_unique c0 (3 * n) c k s) by done.
    eexists. by split.
  - intros Hno. destruct (getSubFromCorrID notif c) as [s|] eqn:Hg.
    + apply getSubFromCorrID_found in Hg as (k & Hs & Hc). by apply Hno in Hs.
    + eexists. by split.
Qed.

(** Reading all subscriptions of an AF returns each of
    them exactly once, in some order, and the empty list for an unknown AF;
    nothing changes. *)
Theorem nef_readall_lists `{E : GoEnv} c id :
  ∃ w l, serve (ReqTiReadAll id) new_writer c = (Ret w, c) ∧ replies w 200 [PayTis l] ∧
    l ≡ₚ (sub_ti ∘ snd) <$> map_to_list (default ∅ (subs <$> afs (nef c) !! id)).
Proof.
  simpl. unfold ReadAllTrafficInfluenceSubscription.
  rewrite (bind_ret _ _ _ _ _ (nefGetAf_run id c)).
  destruct (afs (nef c) !! id) as [af|] eqn:Haf; simpl.
  - rewrite (bind_ret _ _ _ _ _ (afGetSubscriptionList_run id c af Haf)).
    do 2 eexists. split_and!; [done|done|].
    rewrite (map_range_perm ["afGetSubscriptionList"] (subs af)). done.
  - do 2 eexists. by split_and!.
Qed.
End theorems.

(** ** Witnesses *)

Lemma nef_ti_always_answers_witness :
  ∃ w c', serve (ReqTiDelete "af1" "11111") new_writer scen_c2 = (Ret w, c') ∧
    status_of w ∈ [200; 201; 204; 400; 404; 411; 415; 500; 503].
Proof.
  exact (nef_ti_always_answers _ _ _ _ _ _ 2 (ReqTiDelete "af1" "11111") scen_started scen_room
    scen_reached scen_services eq_refl).
Defined.

(** The AF has as many subscriptions as configured. *)
Definition scen_full : scen_ctx := scen_run scen_create scen_c1.

Lemma nef_limits_refuse_witness :
  ∃ w, serve (ReqTiCreate "af1" (BodyOf scen_ti_ue)) new_writer scen_full = (Ret w, scen_full) ∧
    status_of w = 400.
Proof.
  apply (nef_limits_refuse scen_full "af1" scen_ti_ue).
  - vm_compute. discriminate.
  - reflexivity.
Defined.

Lemma nef_validation_exact_witness :
  ∃ w, serve (ReqTiCreate "af1" (BodyOf zero_TrafficInfluSub)) new_writer scen_c2
         = (Ret w, scen_c2) ∧ status_of w = 400.
Proof. apply (nef_validation_exact scen_c2 "af1" zero_TrafficInfluSub). reflexivity. Defined.

Definition scen_event : NsmEventNotification :=
  mkNsmEventNotification "UP_PATH_CH" "" "" "" "" "" "EARLY" "" "" "" ""
    (mkRouteToLocation "" (mkRouteInformation "" "" 0) "")
    (mkRouteToLocation "" (mkRouteInformation "" "" 0) "") "" "" "" "" "" (mkPlmnID "" "") "" 0.

Lemma nef_notify_routes_witness :
  ∃ w, NotifySmfUPFEvent (BodyOf (mkNsmfEventExposureNotification "11131" [scen_event]))
         new_writer scen_c2 =
       (Ret (w, Some ("http://af/notify", event_of (sub_ti scen_sub) scen_event)), scen_c2) ∧
    status_of w = 200.
Proof.
  apply (nef_notify_routes _ _ _ _ _ _ 2 "11131" [scen_event] scen_event scen_started scen_room
    scen_reached) with (k := ("af1", "11111")) (s := scen_sub).
  - discriminate.
  - reflexivity.
  - apply scen_sub_stored.
  - reflexivity.
Defined.
