(* ===== verification/NefPfdProps.v ===== *)
(** * Behaviour of PFD management over the life of the service

    Creation, reading and deletion of transactions in the states the service
    reaches, with a UDR that stores what it is given. *)

From S2P Require Import Prelude Strconv Http NefModel NefSouth NefCore NefTi NefPfd.
From S2P Require Import NefPfdApi NefSpec NefTiFacts NefPfdFacts NefPfdRefine NefInv.
From S2P Require Import NefSouthInv NefService NefTiProps.
From stdpp Require Import prelude gmap strings relations.
From Stdlib Require Import ZArith.

Import NefScenario.
Local Open Scope Z_scope.

(** A request whose applications all have an identifier and valid PFDs. *)
Definition pfd_request_ok (m : PfdManagement) : Prop :=
  PfdDatas m ≠ ∅ ∧
  map_Forall (λ _ d, Pfds d ≠ ∅ ∧ ExternalAppID d ≠ "" ∧
                     map_Forall (λ _, pfd_valid) (Pfds d)) (PfdDatas m).

Section pfd_props.
Context {P U D : Type}
  `{PcfPolicyAuthorization P, UdrInfluenceData U, UdrPfdStore D, Production}.
Abbreviation ctx := (nefContext P U D).
Implicit Types (c : ctx) (af : afData) (t : afPfdTransaction) (m : PfdManagement).

(** Such requests are accepted, and only they are. *)
Lemma validate_complete `{E : GoEnv} c m method :
  pfd_request_ok m → ∃ m', validateAFPfdManagementData c m method = (m', zero_pfd_rsp, true).
Proof.
  intros [Hne Hall]. unfold validateAFPfdManagementData.
  rewrite bool_decide_eq_false_2 by by intros ?%map_size_empty_inv.
  destruct (loop_acc (map_range ["validate"; "1"] _) _ _) as [[]|] eqn:Hl1.
  2: { apply loop_acc_inr in Hl1 as ([a d] & Hd & Hb). apply elem_of_map_range in Hd.
       destruct (Hall a d Hd) as (Hp & Hid & _). simpl in Hb. exfalso.
       case_bool_decide as Hsz; [by apply map_size_empty_inv in Hsz|].
       unfold str_empty in Hb. by case_bool_decide. }
  set (body := λ (kv : string * PfdData) m0, _).
  assert (∀ l, (∀ kv, kv ∈ l → PfdDatas m !! kv.1 = Some kv.2) →
    ∀ m0, ∃ m1, loop_acc l body m0 = inl m1) as Hloop.
  { induction l as [|kv l IH]; intros Hl m0; simpl; [by eexists|]. unfold body at 1.
    destruct (Hall _ _ (Hl kv ltac:(set_solver))) as (_ & _ & Hv).
    apply (validate_pfds_true ["validate"; "2"; kv.1]) in Hv.
    destruct (validate_pfds _ _) as [rsp []]; [|done]. apply IH. set_solver. }
  destruct (Hloop (map_range ["validate"; "2"] (PfdDatas m))) with (m0 := m) as [m1 ->].
  - intros [a d]. apply elem_of_map_range.
  - by exists m1.
Qed.

(** ** Reading *)

Lemma nefSBUDRAPPPFDGet_stored app c :
  app ∈ stored (udrPfdClient (nef c)) →
  ∃ d x', nefSBUDRAPPPFDGet app c = (Ret (d, zero_pfd_rsp, nil_err), with_udrPfd x' c) ∧
    stored x' = stored (udrPfdClient (nef c)).
Proof.
  intros Hin. destruct (store_get (udrPfdClient (nef c)) app) as (r & x' & Hcall & Hst & Happ).
  destruct (proj2 Happ Hin) as [a Ha].
  unfold nefSBUDRAPPPFDGet. rewrite (bind_ret _ _ _ _ _ (call_udrPfd_run _ _ _ _ Hcall)).
  simpl. rewrite Ha. by do 2 eexists.
Qed.

Lemma nefSBUDRPFDGet_stored `{E : GoEnv} t c :
  (∀ a d, PfdDatas (pfdManagement t) !! a = Some d →
     ExternalAppID d ∈ stored (udrPfdClient (nef c))) →
  ∃ m x', nefSBUDRPFDGet t c = (Ret (m, zero_pfd_rsp, nil_err), with_udrPfd x' c) ∧
    stored x' = stored (udrPfdClient (nef c)).
Proof.
  intros Hst. unfold nefSBUDRPFDGet.
  set (body := λ (kv : string * PfdData) (m : gmap string PfdData), _).
  cut (∀ l c1 acc, stored (udrPfdClient (nef c1)) = stored (udrPfdClient (nef c)) →
    (∀ kv, kv ∈ l → PfdDatas (pfdManagement t) !! kv.1 = Some kv.2) →
    ∃ acc' x', for_acc (R := PfdManagement * nefPFDSBRspData * error) l body acc c1
            = (Ret (inl acc'), with_udrPfd x' c1) ∧
      stored x' = stored (udrPfdClient (nef c))).
  { intros Hloop. destruct (Hloop (map_range ["nefSBUDRPFDGet"; transID t]
      (PfdDatas (pfdManagement t))) c ∅ eq_refl) as (m & x' & Hrun & Hx').
    - intros [a d]. apply elem_of_map_range.
    - exists (pfdm_set_PfdDatas m zero_PfdManagement), x'.
      by rewrite (bind_ret _ _ _ _ _ Hrun). }
  induction l as [|kv l IH]; intros c1 acc Hc1 Hl.
  { exists acc, (udrPfdClient (nef c1)). by rewrite with_udrPfd_id. }
  destruct (nefSBUDRAPPPFDGet_stored (ExternalAppID kv.2) c1) as (d & x1 & Hrun & Hx1).
  { rewrite Hc1. eapply Hst, Hl. set_solver. }
  assert (body kv acc c1 = (Ret (inl (<[kv.1 := d]> acc)), with_udrPfd x1 c1)) as Hb.
  { unfold body. by rewrite (bind_ret _ _ _ _ _ Hrun). }
  cbn [for_acc]. rewrite (bind_ret _ _ _ _ _ Hb).
  destruct (IH (with_udrPfd x1 c1) (<[kv.1 := d]> acc)) as (m & x' & Hrest & Hx').
  - simpl. congruence.
  - set_solver.
  - exists m, x'. by rewrite Hrest.
Qed.

Lemma afGetPfdTransaction_stored `{E : GoEnv} c0 n c key af tid t :
  registry_inv c0 n c → apps_stored c →
  afs (nef c) !! key = Some af → pfdtrans af !! tid = Some t →
  ∃ x', afGetPfdTransaction key tid c =
      (Ret (zero_pfd_rsp, pfdManagement t, nil_err), with_udrPfd x' c) ∧
    stored x' = stored (udrPfdClient (nef c)).
Proof.
  intros Hreg Hst Haf Ht. pose proof (all_trans_lookup _ _ _ _ _ Haf Ht) as Hall.
  destruct (registry_trans _ _ _ _ _ _ Hreg Hall) as [hi [_ _ _ (Hf & _) _]].
  unfold afGetPfdTransaction. rewrite (bind_ret _ _ _ _ _ (get_af_run _ _ _ Haf)), Ht.
  unfold call_NEFSBPfdGet. rewrite Hf.
  destruct (nefSBUDRPFDGet_stored t c) as (m & x' & Hrun & Hx').
  - intros a d Hd. by destruct (Hst _ _ _ _ Hall Hd) as [-> ?].
  - rewrite (bind_ret _ _ _ _ _ Hrun). eauto.
Qed.

Lemma pfd_read_replies `{E : GoEnv} c0 n c id tid t :
  registry_inv c0 n c → apps_stored c → all_trans c !! (id, tid) = Some t →
  ∃ w c', serve (ReqPfdRead id tid) new_writer c = (Ret w, c') ∧
    replies w 200 [PayPfdm (pfdManagement t)] ∧ afs (nef c') = afs (nef c).
Proof.
  intros Hreg Hst (af & Haf & Ht)%lookup_flatten_Some. simpl.
  unfold ReadPFDManagementTransaction.
  rewrite (bind_ret _ _ _ _ _ (nefGetAf_run id c)), Haf. simpl.
  destruct (afGetPfdTransaction_stored c0 n c id af tid t Hreg Hst Haf Ht) as (x' & Hrun & _).
  rewrite (bind_ret _ _ _ _ _ Hrun). do 2 eexists. by split_and!.
Qed.

Lemma pfd_read_missing `{E : GoEnv} c id tid :
  all_trans c !! (id, tid) = None →
  ∃ w, serve (ReqPfdRead id tid) new_writer c = (Ret w, c) ∧ status_of w = 404.
Proof.
  unfold all_trans. rewrite lookup_flatten. intros Ht. simpl.
  unfold ReadPFDManagementTransaction.
  rewrite (bind_ret _ _ _ _ _ (nefGetAf_run id c)).
  destruct (afs (nef c) !! id) as [af|] eqn:Haf; simpl in *; [|by eexists].
  unfold afGetPfdTransaction. go_unfold. rewrite (get_af_run _ _ _ Haf), Ht. by eexists.
Qed.

(** ** Deletion *)

Lemma pfd_delete_replies `{E : GoEnv} c0 n c id tid t :
  registry_inv c0 n c → all_trans c !! (id, tid) = Some t →
  ∃ w c', serve (ReqPfdDelete id tid) new_writer c = (Ret w, c') ∧ replies w 204 [] ∧
    all_trans c' = delete (id, tid) (all_trans c) ∧ all_subs c' = all_subs c ∧
    stored (udrPfdClient (nef c')) =
      stored (udrPfdClient (nef c)) ∖ ext_ids (PfdDatas (pfdManagement t)).
Proof.
  intros Hreg Hall. destruct (registry_trans _ _ _ _ _ _ Hreg Hall) as [hi [_ _ _ Hfn _]].
  destruct Hfn as (_ & _ & _ & Hf).
  pose proof Hall as (af & Haf & Ht)%lookup_flatten_Some. simpl.
  unfold DeletePFDManagementTransaction.
  rewrite (bind_ret _ _ _ _ _ (nefGetAf_run id c)), Haf. simpl.
  set (af' := af_set_pfdtrans (delete tid (pfdtrans af)) af).
  assert (∃ rsp x', afDeletePfdTransaction id tid c =
    (Ret (rsp, nil_err), with_udrPfd x' (upd_af id af' c)) ∧
    stored x' = stored (udrPfdClient (nef c)) ∖ ext_ids (PfdDatas (pfdManagement t)))
    as (rsp & x' & Hrun & Hx').
  { unfold afDeletePfdTransaction. rewrite (bind_ret _ _ _ _ _ (get_af_run _ _ _ Haf)), Ht.
    unfold call_NEFSBPfdDelete. rewrite Hf.
    destruct (nefSBUDRPFDDelete_run t c) as (apps & x' & rsp & err & Hw & Hrun & Hsub & Herr).
    destruct err as [e|].
    { destruct Herr as (app & r & x1 & x2 & Hd).
      destruct (store_delete x1 app) as (? & ? & ? & _). congruence. }
    rewrite (bind_ret _ _ _ _ _ Hrun). simpl.
    rewrite (bind_ret _ _ _ _ _ (get_af_run _ (with_udrPfd x' c) _ Haf)).
    do 2 eexists. split; [done|]. rewrite (stored_deletes _ _ _ Hw). set_solver. }
  rewrite (bind_ret _ _ _ _ _ Hrun). simpl.
  set (c1 := with_udrPfd x' (upd_af id af' c)).
  assert (afs (nef c1) !! id = Some af') as Haf1 by apply upd_af_lookup.
  assert (all_trans c1 = delete (id, tid) (all_trans c)) as Htr by by eapply flatten_delete.
  assert (all_subs c1 = all_subs c) as Hsb by by eapply flatten_same.
  unfold nefCheckDeleteAf. go_unfold. rewrite (get_af_run _ _ _ Haf1).
  destruct (bool_decide_reflect (afGetSubCount af' = 0)) as [Hsz|];
    [destruct (bool_decide_reflect (afGetPfdTransCount af' = 0)) as [Hsz'|]|]; simpl;
    [|by do 2 eexists..].
  rewrite (nefDeleteAf_run _ _ _ Haf1). unfold afGetSubCount, afGetPfdTransCount in *.
  do 2 eexists. split_and!; [done|done|rewrite <- Htr|rewrite <- Hsb|done].
  - eapply flatten_remove_empty; [done|]. apply map_size_empty_inv. lia.
  - eapply flatten_remove_empty; [done|]. apply map_size_empty_inv. lia.
Qed.

(** ** Creation *)

(** The AF has room for one more transaction, or can be registered. *)
Definition trans_slot c (id : string) : Prop :=
  match afs (nef c) !! id with
  | Some af => trans_room c af
  | None => Z.of_nat (size (afs (nef c))) < MaxAFSupport (cfg c) ∧
            0 < MaxPfdTransSupport (cfg c)
  end.

Lemma afAddPFDTransaction_creates `{E : GoEnv} key m c af :
  afs (nef c) !! key = Some af → trans_room c af → PfdDatas m ≠ ∅ →
  let tid := Itoa (transIDnum af) in
  let loc := trans_location c af tid in
  ∃ x', afAddPFDTransaction key m c =
      (Ret (loc, nil_err, pfdm_set_PfdDatas (link_apps loc (PfdDatas m)) m),
       with_udrPfd x' (upd_af key (add_trans tid (new_trans tid loc m) (bump_trans af)) c)).
Proof.
  intros Haf Hroom Hne tid loc.
  destruct (afAddPFDTransaction_run key m c af Haf Hroom)
    as (apps & x' & _ & [(Href & _)|(m1 & _ & _ & _ & Hm & Hrun)]).
  - exfalso. destruct Href as [(pa & r & e & x1 & x2 & Hc)|[Ht|?]]; [|..|done].
    + destruct (store_create x1 pa) as (? & ? & ? & _). congruence.
    + by rewrite TestNEFSB_off in Ht.
  - exists x'. rewrite Hrun, Hm; [done|apply TestNEFSB_off|done].
Qed.

Lemma createNewPFDTrans_creates `{E : GoEnv} c0 n c id m :
  registry_inv c0 n c → cfg_room (cfg c0) (S n) → trans_slot c id → PfdDatas m ≠ ∅ →
  ∃ tid c1 af1,
    let loc := locationURLPrefixPfd (nef c0) +:+ id +:+ "/transactions/" +:+ tid in
    createNewPFDTrans id m c =
      (Ret (loc, nil_err, pfdm_set_PfdDatas (link_apps loc (PfdDatas m)) m), c1) ∧
    all_trans c !! (id, tid) = None ∧
    all_trans c1 = <[(id, tid) := new_trans tid loc m]> (all_trans c) ∧
    afs (nef c1) !! id = Some af1 ∧ pfdtrans af1 !! tid = Some (new_trans tid loc m) ∧
    Itoa (wrap_int (transIDnum af1 - 1)) = tid.
Proof.
  intros Hreg Hr Hslot Hne. unfold trans_slot in Hslot.
  assert (locationURLPrefixPfd (nef c) = locationURLPrefixPfd (nef c0)) as Hpre by apply Hreg.
  assert (cfg c = cfg c0) as Hcfg by apply Hreg.
  assert (∀ af, af_wf (cfg c0) (locationURLPrefix (nef c0)) (locationURLPrefixPfd (nef c0))
    n id af → wrap_int (transIDnum (bump_trans af) - 1) = transIDnum af) as Hnum.
  { intros af Hwf. rewrite (bump_trans_num _ _ _ _ _ _ Hwf Hr). destruct Hwf.
    unfold cfg_room in Hr. rewrite wrap_int_small; unfold max_int; lia. }
  destruct (createNewPFDTrans_run id m c)
    as [[[af Haf] Hrun]|[(Hnone & ? & _)|(Hnone & _ & Hrun)]].
  - rewrite Haf in Hslot.
    destruct (afAddPFDTransaction_creates id m c af Haf Hslot Hne) as [x' Hadd].
    pose proof Haf as Hwf%(ri_afs _ _ _ Hreg). pose proof (aw_id _ _ _ _ _ _ Hwf) as Hid.
    unfold trans_location in Hadd. rewrite Hpre, Hid in Hadd.
    eexists (Itoa (transIDnum af)), _, _. intros loc. rewrite Hrun.
    split_and!; [exact Hadd|..|apply upd_af_lookup|apply lookup_insert_eq|].
    + unfold all_trans. rewrite lookup_flatten, Haf. by eapply registry_fresh_trans.
    + by eapply flatten_insert.
    + simpl. f_equal. by apply Hnum.
  - rewrite Hnone in Hslot. lia.
  - rewrite Hnone in Hslot. set (c1 := set_nef _ _) in Hrun.
    set (af := afCreate (cfg c) id).
    assert (afs (nef c1) !! id = Some af) as Haf by (simpl; apply lookup_insert_eq).
    destruct (afAddPFDTransaction_creates id m c1 af Haf) as [x' Hadd]; [|done|].
    { unfold trans_room. simpl. rewrite map_size_empty. lia. }
    unfold trans_location in Hadd. simpl (locationURLPrefixPfd _) in Hadd.
    rewrite Hpre in Hadd. simpl (afID af) in Hadd.
    eexists (Itoa (transIDnum af)), _, _. intros loc. rewrite Hrun.
    split_and!; [exact Hadd|..|apply upd_af_lookup|apply lookup_insert_eq|].
    + unfold all_trans. by rewrite lookup_flatten, Hnone.
    + assert (all_trans c1 = all_trans c) as <- by (by eapply flatten_new).
      by eapply flatten_insert.
    + simpl (transIDnum _). f_equal. apply (Hnum af). unfold af. rewrite Hcfg.
      apply af_wf_create.
Qed.

(** Deleting the entries of a map one by one leaves none. *)
Lemma fold_delete_all `{E : GoEnv} {V} site (r : gmap string V) :
  fold_left (λ r' kv, delete kv.1 r') (map_range site r) r = ∅.
Proof.
  apply map_eq. intros k. rewrite lookup_empty.
  assert (∀ l (r' : gmap string V), (∀ v, r' !! k = Some v → k ∈ l.*1) →
    fold_left (λ r' (kv : string * V), delete kv.1 r') l r' !! k = None) as Hl.
  { induction l as [|kv l IH]; intros r' Hr; simpl.
    - destruct (r' !! k) as [v|]; [|done].
      specialize (Hr v eq_refl). by apply not_elem_of_nil in Hr.
    - apply IH. intros v [? Hv]%lookup_delete_Some. apply Hr in Hv. set_solver. }
  apply Hl. intros v Hv. apply list_elem_of_fmap. exists (k, v). split; [done|].
  by apply elem_of_map_range.
Qed.

Lemma drop_reports_run `{E : GoEnv} id c af tid t :
  afs (nef c) !! id = Some af → pfdtrans af !! tid = Some t →
  Itoa (wrap_int (transIDnum af - 1)) = tid →
  drop_reports id c = (Ret tt, upd_af id (add_trans tid
    (trans_set_pfdm (pfdm_set_PfdReports ∅ (pfdManagement t)) t) af) c).
Proof.
  intros Haf Ht Htid. unfold drop_reports.
  rewrite (bind_ret _ _ _ _ _ (get_af_run _ _ _ Haf)), Htid, Ht, fold_delete_all.
  by rewrite (put_trans_run _ _ _ _ _ Haf).
Qed.

(** The whole handler, for a valid request that names a new application. *)
Lemma pfd_create_replies `{E : GoEnv} c0 n c id m :
  registry_inv c0 n c → cfg_room (cfg c0) (S n) → trans_slot c id → pfd_request_ok m →
  (∃ a d, PfdDatas m !! a = Some d ∧ app_unused a c) →
  ∃ tid t m' w c',
    let loc := locationURLPrefixPfd (nef c0) +:+ id +:+ "/transactions/" +:+ tid in
    serve (ReqPfdCreate id (BodyOf m)) new_writer c = (Ret w, c') ∧
    replies w 201 [PayPfdm (pfdm_set_Self loc m')] ∧ header_of w !! "Location" = Some loc ∧
    all_trans c !! (id, tid) = None ∧ all_trans c' = <[(id, tid) := t]> (all_trans c) ∧
    PfdDatas (pfdManagement t) = PfdDatas m' ∧ PfdReports (pfdManagement t) = ∅ ∧
    (∀ a, is_Some (PfdDatas m' !! a) ↔ is_Some (PfdDatas m !! a) ∧ app_unused a c) ∧
    (∀ a, reported (PfdReports m') a ↔ is_Some (PfdDatas m !! a) ∧ ¬ app_unused a c).
Proof.
  intros Hreg Hr Hslot Hok (a0 & d0 & Ha0 & Hun0). simpl.
  unfold CreatePFDManagementTransaction.
  rewrite (bind_ret go_get _ c c c) by done.
  set (m0 := pfdm_set_PfdReports ∅ m).
  destruct (validate_complete c m0 "POST" Hok) as [m1 Hv]. rewrite Hv. simpl.
  destruct (validate_POST _ _ _ _ Hv) as [Hdatas Hreports].
  assert (PfdDatas m1 ≠ ∅) as Hne.
  { intros Hemp. assert (PfdDatas m1 !! a0 = Some d0) as Hl by by apply Hdatas.
    by rewrite Hemp in Hl. }
  rewrite bool_decide_eq_false_2 by by intros ?%map_size_empty_inv.
  destruct (createNewPFDTrans_creates c0 n c id m1 Hreg Hr Hslot Hne)
    as (tid & c1 & af1 & Hrun & Hnone & Htr & Haf1 & Ht1 & Hnum).
  set (loc := locationURLPrefixPfd (nef c0) +:+ _) in *.
  exists tid. eexists. exists (pfdm_set_PfdDatas (link_apps loc (PfdDatas m1)) m1).
  do 2 eexists. split.
  { rewrite (bind_ret _ _ _ _ _ Hrun). simpl.
    by rewrite (bind_ret _ _ _ _ _ (drop_reports_run _ _ _ _ _ Haf1 Ht1 Hnum)). }
  split_and!; [done|unfold header_of; simpl; apply lookup_insert_eq|done|..].
  - etrans; [by eapply flatten_insert|].
    change (flatten pfdtrans (afs (nef c1))) with (all_trans c1). rewrite Htr.
    by rewrite insert_insert_eq.
  - done.
  - done.
  - simpl. intros a. rewrite link_apps_lookup, fmap_is_Some. split.
    + intros [d Hd]. apply Hdatas in Hd as [Hd ?]. split; [by eexists|done].
    + intros [[d Hd] ?]. exists d. by apply Hdatas.
  - intros a. simpl. rewrite Hreports. simpl. unfold reported.
    split; [|by right]. intros [(k & r & Hk & _)|?]; [by rewrite lookup_empty in Hk|done].
Qed.
End pfd_props.

(** ** The theorems *)
Section reachable.
Context {P U D : Type}
  `{PcfPolicyAuthorization P, UdrInfluenceData U, UdrPfdStore D, Production}.
Implicit Types (c : nefContext P U D).

(** A valid request that names some application no
    transaction holds yet is answered with 201, the new transaction and its
    URL; the transaction holds exactly the applications that were not in use
    and the response reports exactly the others as duplicates; no other
    transaction changes. *)
Theorem nef_pfd_create_exact `{E : GoEnv} cf p u x c0 c (n : nat) id m :
  nef_started cf p u x c0 → cfg_room cf (S (3 * n)) → nef_reach any_request c0 n c →
  trans_slot c id → pfd_request_ok m → (∃ a d, PfdDatas m !! a = Some d ∧ app_unused a c) →
  ∃ tid t m' w c',
    let loc := locationURLPrefixPfd (nef c0) +:+ id +:+ "/transactions/" +:+ tid in
    serve (ReqPfdCreate id (BodyOf m)) new_writer c = (Ret w, c') ∧
    replies w 201 [PayPfdm (pfdm_set_Self loc m')] ∧ header_of w !! "Location" = Some loc ∧
    all_trans c !! (id, tid) = None ∧ all_trans c' = <[(id, tid) := t]> (all_trans c) ∧
    PfdDatas (pfdManagement t) = PfdDatas m' ∧ PfdReports (pfdManagement t) = ∅ ∧
    (∀ a, is_Some (PfdDatas m' !! a) ↔ is_Some (PfdDatas m !! a) ∧ app_unused a c) ∧
    (∀ a, reported (PfdReports m') a ↔ is_Some (PfdDatas m !! a) ∧ ¬ app_unused a c).
Proof.
  intros Hst Hroom Hreach Hslot Hok Hun. eapply pfd_create_replies; try done.
  - eapply reach_registry; [done| |done]. eapply cfg_room_mono; [|done]. lia.
  - destruct Hst as [_ ->]. done.
Qed.

(** C6: as long as requests file each application under its
    external identifier, every transaction the service holds can be read back
    at any later time: the answer is 200 with the transaction as it is stored
    and the registry stays as it is; what is not stored is answered with 404. *)
Theorem nef_pfd_read_back `{E : GoEnv} cf p u x c0 c (n : nat) id tid :
  nef_started cf p u x c0 → cfg_room cf (3 * n) → nef_reach (req_apps well_keyed) c0 n c →
  ∃ w c', serve (ReqPfdRead id tid) new_writer c = (Ret w, c') ∧
    afs (nef c') = afs (nef c) ∧
    match all_trans c !! (id, tid) with
    | Some t => replies w 200 [PayPfdm (pfdManagement t)]
    | None => status_of w = 404
    end.
Proof.
  intros Hst Hroom Hreach. destruct (all_trans c !! (id, tid)) as [t|] eqn:Ht.
  - destruct (pfd_read_replies c0 (3 * n) c id tid t) as (w & c' & ? & ? & ?); [..|by eauto].
    + by eapply reach_registry.
    + by eapply reach_stored.
    + done.
  - destruct (pfd_read_missing c id tid Ht) as (w & ? & ?). eauto.
Qed.

(** Deleting a transaction is answered with 204; it
    removes that transaction, keeps all others and all subscriptions, and
    deletes exactly its applications at the UDR. *)
Theorem nef_pfd_delete_forgets `{E : GoEnv} cf p u x c0 c (n : nat) id tid t :
  nef_started cf p u x c0 → cfg_room cf (3 * n) → nef_reach any_request c0 n c →
  all_trans c !! (id, tid) = Some t →
  ∃ w c', serve (ReqPfdDelete id tid) new_writer c = (Ret w, c') ∧ replies w 204 [] ∧
    all_trans c' = delete (id, tid) (all_trans c) ∧ all_subs c' = all_subs c ∧
    stored (udrPfdClient (nef c')) =
      stored (udrPfdClient (nef c)) ∖ ext_ids (PfdDatas (pfdManagement t)).
Proof. intros Hst Hroom Hreach. eapply pfd_delete_replies. by eapply reach_registry. Qed.
End reachable.

(** ** Witnesses *)

(** A request with one application in use and one new. *)
Definition scen_pfdm2 : PfdManagement :=
  mkPfdManagement "" None {["video" := scen_app "video"; "game" := scen_app "game"]} ∅.

Lemma scen_pfdm2_ok : pfd_request_ok scen_pfdm2.
Proof.
  split; [done|]. assert (∀ k, Pfds (scen_app k) ≠ ∅ ∧
    map_Forall (λ _, pfd_valid) (Pfds (scen_app k))) as Happ.
  { intros k. split; [done|]. apply map_Forall_singleton. split; [done|]. right; by right. }
  apply map_Forall_insert_2; [by split_and!; [apply Happ| |apply Happ]|].
  apply map_Forall_singleton. by split_and!; [apply Happ| |apply Happ].
Qed.

Lemma scen_game_unused : app_unused "game" scen_c2.
Proof. apply (nefCheckPfdAppIDExists_false "game" scen_c2). vm_compute. reflexivity. Qed.

Lemma nef_pfd_create_exact_witness :
  ∃ tid t m' w c',
    serve (ReqPfdCreate "af2" (BodyOf scen_pfdm2)) new_writer scen_c2 = (Ret w, c') ∧
    all_trans c' = <[("af2", tid) := t]> (all_trans scen_c2) ∧
    PfdDatas (pfdManagement t) = PfdDatas m'.
Proof.
  destruct (nef_pfd_create_exact scen_cfg (NewPCFClient 4242) NewUDRClient NewUDRPfdClient
    scen_c0 scen_c2 2 "af2" scen_pfdm2 scen_started)
    as (tid & t & m' & w & c' & Hrun & _ & _ & _ & Hall & Hd & _).
  - unfold cfg_room. simpl. unfold correlationIDOffset. lia.
  - apply scen_reached.
  - vm_compute. by split.
  - apply scen_pfdm2_ok.
  - exists "game", (scen_app "game"). split; [reflexivity|apply scen_game_unused].
  - exists tid, t, m', w, c'. exact (conj Hrun (conj Hall Hd)).
Defined.

Lemma scen_reach_keyed : nef_reach (req_apps well_keyed) scen_c0 2 scen_c2.
Proof. apply scen_reach2; [done|]. by apply map_Forall_singleton. Qed.

Definition scen_trans : afPfdTransaction :=
  Eval vm_compute in default (mkAfPfdTransaction "" zero_PfdManagement PfdNil PfdNil PfdNil PfdNil)
                       (all_trans scen_c2 !! ("af1", "1000")).

Lemma scen_trans_stored : all_trans scen_c2 !! ("af1", "1000") = Some scen_trans.
Proof. vm_compute. reflexivity. Qed.

Lemma nef_pfd_read_back_witness :
  ∃ w c', serve (ReqPfdRead "af1" "1000") new_writer scen_c2 = (Ret w, c') ∧
    replies w 200 [PayPfdm (pfdManagement scen_trans)].
Proof.
  destruct (nef_pfd_read_back _ _ _ _ _ _ 2 "af1" "1000" scen_started scen_room
    scen_reach_keyed) as (w & c' & Hrun & _ & Hw).
  rewrite scen_trans_stored in Hw. exists w, c'. exact (conj Hrun Hw).
Defined.

Lemma nef_pfd_delete_forgets_witness :
  ∃ w c', serve (ReqPfdDelete "af1" "1000") new_writer scen_c2 = (Ret w, c') ∧
    replies w 204 [] ∧ all_trans c' = delete ("af1", "1000") (all_trans scen_c2).
Proof.
  destruct (nef_pfd_delete_forgets _ _ _ _ _ _ 2 "af1" "1000" scen_trans scen_started scen_room
    scen_reached scen_trans_stored) as (w & c' & Hrun & Hw & Hall & _).
  exists w, c'. exact (conj Hrun (conj Hw Hall)).
Defined.

(** ** Behaviours worth knowing

    Theorems on what the handlers do where a reader of the API may expect
    something else. *)

Module NefObservations.
Section observations.
Context {P U D : Type}
  `{PcfPolicyAuthorization P, UdrInfluenceData U, UdrPfdData D, NefHooks}.
Implicit Types (c : nefContext P U D) (af : afData) (s : afSubscription).

(** Patching a PFD application does exactly what
    replacing it does, in every state and for every answer of the UDR: the
    merged PFDs are computed and then overwritten by those of the request. *)
Theorem nef_app_patch_is_put `{E : GoEnv} key tid appID d reports c :
  afUpdatePatchPfdApplication key tid appID d reports c =
  afUpdatePutPfdApplication key tid appID d reports c.
Proof.
  unfold afUpdatePatchPfdApplication, afUpdatePutPfdApplication. go_unfold.
  destruct (get_af key c) as [[af|] c1]; [|done].
  destruct (pfdtrans af !! tid) as [t|]; [|done].
  destruct (PfdDatas (pfdManagement t) !! appID) as [d0|]; [|done].
  destruct (call_NEFSBAppPfdPut t d c1) as [[[rsp err]|] c2]; [|done].
  destruct err; [done|]. simpl. unfold updatePfdAppOnRsp.
  destruct (failure_reason rsp); [done|]. simpl. by rewrite insert_insert_eq.
Qed.

(** Deleting an application of a transaction, even
    the last one, does not tell the UDR: no client is called. *)
Theorem nef_app_delete_keeps_udr `{E : GoEnv} id tid appID c :
  let c' := exec (serve (ReqAppDelete id tid appID) new_writer) c in
  udrPfdClient (nef c') = udrPfdClient (nef c) ∧ udrClient (nef c') = udrClient (nef c) ∧
  pcfClient (nef c') = pcfClient (nef c).
Proof.
  set (I := λ c' : nefContext P U D, udrPfdClient (nef c') = udrPfdClient (nef c) ∧
    udrClient (nef c') = udrClient (nef c) ∧ pcfClient (nef c') = pcfClient (nef c)).
  assert (∀ key af, preserves I (put_af key af)) as Hput
    by (intros; apply preserves_modify; done).
  assert (∀ key, preserves I (get_af key)) as Hget by (intros; apply get_af_read_only).
  assert (preserves I (afDeletePfdApplication id tid appID)) as Hdel.
  { unfold afDeletePfdApplication, put_trans. solve_preserves. }
  assert (preserves I (nefCheckDeleteAf id)) as Hcheck.
  { unfold nefCheckDeleteAf, nefDeleteAf. solve_preserves; by apply preserves_modify. }
  cut (preserves I (DeletePFDManagementApplication id tid appID new_writer)).
  { intros Hp. by apply (Hp c). }
  unfold DeletePFDManagementApplication.
  apply preserves_bind; [apply nefGetAf_read_only|]. solve_preserves.
Qed.

(** Deleting the last subscription of an AF removes
    the AF with all its PFD transactions, which are neither found afterwards
    nor deleted at the UDR. *)
Theorem nef_ti_delete_drops_pfd `{E : GoEnv} c c' w id af sid s :
  afs (nef c) !! id = Some af → subs af = {[sid := s]} →
  serve (ReqTiDelete id sid) new_writer c = (Ret w, c') → status_of w = 204 →
  (∀ tid, all_trans c' !! (id, tid) = None) ∧ udrPfdClient (nef c') = udrPfdClient (nef c).
Proof.
  intros Haf Hsubs. simpl. unfold DeleteTrafficInfluenceSubscription.
  rewrite (bind_ret _ _ _ _ _ (nefGetAf_run id c)), Haf. simpl.
  assert (subs af !! sid = Some s) as Hs by (rewrite Hsubs; apply lookup_singleton_eq).
  destruct (decide (NEFSBDelete s = SBNil)) as [Hf|Hf].
  { unfold afDeleteSubscription. go_unfold. rewrite (get_af_run _ _ _ Haf), Hs.
    unfold call_NEFSBDelete. by rewrite Hf. }
  destruct (afDeleteSubscription_run id sid c af s Haf Hs Hf)
    as (rsp & err & p' & u' & _ & Hrun).
  rewrite (bind_ret _ _ _ _ _ Hrun). destruct err as [e|]; simpl.
  { intros [= <- _] Hw. pose proof (createErrorJSON_code rsp) as Hc.
    rewrite sendErrorResponse_status in Hw by done. rewrite Hw in Hc. set_solver. }
  set (af' := af_set_subs (delete sid (subs af)) af).
  set (c1 := with_pcf p' (with_udr u' (upd_af id af' c))).
  assert (afs (nef c1) !! id = Some af') as Haf1 by apply upd_af_lookup.
  rewrite (bind_ret _ _ _ _ _ (get_af_run _ _ _ Haf1)).
  rewrite bool_decide_eq_true_2.
  2: { unfold afGetSubCount; simpl. rewrite Hsubs, delete_singleton_eq. done. }
  go_unfold. rewrite (nefDeleteAf_run _ _ _ Haf1). intros [= _ <-] _. split; [|done].
  intros tid. unfold all_trans. rewrite lookup_flatten. simpl. by rewrite lookup_delete_eq.
Qed.

(** A creation that is refused because it
    selects no UE still registers its AF, without subscriptions, where it takes
    one of the places for AFs. *)
Theorem nef_failed_create_registers `{E : GoEnv} c id ti :
  (validateAFTrafficInfluenceData ti).2 = true →
  is_pcf_request ti = false → is_udr_request ti = false →
  afs (nef c) !! id = None → Z.of_nat (size (afs (nef c))) < MaxAFSupport (cfg c) →
  0 < MaxSubSupport (cfg c) →
  ∃ w c', serve (ReqTiCreate id (BodyOf ti)) new_writer c = (Ret w, c') ∧ status_of w = 400 ∧
    afs (nef c') = <[id := bump_sub (afCreate (cfg c) id)]> (afs (nef c)).
Proof.
  intros Hval Hp Hu Hnone Hroom Hmax. simpl. unfold CreateTrafficInfluenceSubscription.
  destruct (validateAFTrafficInfluenceData ti) as [? []]; [|done]. simpl.
  destruct (createNewSub_run id ti c)
    as [[[af Haf] _]|[(_ & ? & _)|(_ & _ & Hrun)]]; [congruence|lia|].
  rewrite (afAddSubscription_invalid id ti _ (afCreate (cfg c) id)) in Hrun;
    [|simpl; apply lookup_insert_eq|unfold sub_room; simpl; rewrite map_size_empty; lia|done..].
  rewrite (bind_ret _ _ _ _ _ Hrun). do 2 eexists. split_and!; [done|done|].
  simpl. by rewrite insert_insert_eq.
Qed.

(** A response sent by [reply_200] has no content type: the field is set
    after the header is written. *)
Lemma reply_200_no_content_type (p : nefPayload) :
  status_of (reply_200 p new_writer) = 200 ∧
  header_of (reply_200 p new_writer) !! content_type = None.
Proof. by split. Qed.
End observations.

(** ** One record at the UDR for all subscriptions *)
Section single_record.
Context {P D : Type} `{PcfPolicyAuthorization P, UdrPfdData D, NefHooks}.
Implicit Types (c : nefContext P UdrClientStub D).

Definition one_record c : Prop := dom (tidDb (udrClient (nef c))) ⊆ {[""]}.

Lemma one_record_effect ok c0 n c c' :
  registry_inv c0 n c → nef_effect ok c c' → one_record c → one_record c'.
Proof.
  intros Hreg Heff Hone.
  assert (∀ key af sid s, afs (nef c) !! key = Some af → subs af !! sid = Some s → iid s = "")
    as Hiid.
  { intros key af sid s Haf Hs.
    by destruct (registry_sub _ _ _ _ _ _ Hreg (all_subs_lookup _ _ _ _ _ Haf Hs)) as [? []]. }
  unfold one_record in *.
  destruct Heff as [|id n0 Hnone Hmax|id af Haf Hemp|key af n0 Haf Hr Hn
    |key af ti body id resp err p' Haf Hr Hp Hcall
    |key af ti body resp err u' Haf Hr Hp Hu Hcall
    |key af sid s ti body resp err u' Haf Hs Hf Hcall
    |key af sid s t' p' u' Haf Hs Hself Hcase
    |key af sid s err p' u' Haf Hs Hcase| | | | | | | | |]; try done; simpl in *.
  - injection Hcall as <- <- <-. simpl. set_solver.
  - rewrite (Hiid _ _ _ _ Haf Hs) in Hcall. injection Hcall as <- <- <-. simpl. set_solver.
  - rewrite (Hiid _ _ _ _ Haf Hs) in Hcase.
    destruct Hcase as [(_ & -> & _)|(_ & _ & body & r & Hcall)]; [done|].
    unfold stub_UdrInfluenceDataUpdate in Hcall.
    destruct (tidDb (udrClient (nef c)) !! ""); injection Hcall as <- <-; simpl; set_solver.
  - rewrite (Hiid _ _ _ _ Haf Hs) in Hcase.
    destruct Hcase as [(_ & -> & _)|(_ & _ & r & Hcall)]; [done|].
    unfold stub_UdrInfluenceDataDelete in Hcall.
    destruct (tidDb (udrClient (nef c)) !! ""); injection Hcall as <- <- <-; simpl; set_solver.
Qed.

(** The influence identifier is never assigned, so
    all the subscriptions of all AFs that go to the UDR share one record
    there: however many there are, the UDR never holds more than one. *)
Theorem nef_udr_single_record cf p x c0 c (n : nat) :
  nef_started cf p NewUDRClient x c0 → cfg_room cf (3 * n) → nef_reach any_request c0 n c →
  dom (tidDb (udrClient (nef c))) ⊆ {[""]}.
Proof.
  intros Hst Hroom Hreach%reach_any. destruct (started_fields _ _ _ _ _ Hst) as (Hcf & _).
  apply (reach_inv any_app (λ k c1, registry_inv c0 k c1 ∧ one_record c1) c0 n c); [done| | |done].
  - intros k c1 c2 Hk [Hreg Hone] Heff. split; [|by eapply one_record_effect].
    eapply registry_effect; [|done|done]. rewrite Hcf. eapply cfg_room_mono; [|done]. lia.
  - split; [by eapply registry_init|]. unfold one_record.
    destruct Hst as [Hcr _]. unfold nefCreate in Hcr. repeat case_match; try done.
    injection Hcr as <-. simpl. set_solver.
Qed.
End single_record.

(** ** Witnesses *)

Lemma nef_ti_delete_drops_pfd_witness :
  all_trans scen_c2 !! ("af1", "1000") = Some scen_trans ∧
  all_trans (scen_run (ReqTiDelete "af1" "11111") scen_c2) !! ("af1", "1000") = None.
Proof.
  split; [apply scen_trans_stored|].
  destruct (serve (ReqTiDelete "af1" "11111") new_writer scen_c2) as [[w|e] c'] eqn:Hrun;
    [|exfalso; vm_compute in Hrun; discriminate Hrun].
  destruct (afs (nef scen_c2) !! "af1") as [af|] eqn:Haf;
    [|exfalso; vm_compute in Haf; discriminate Haf].
  unfold scen_run, exec. rewrite Hrun.
  apply (nef_ti_delete_drops_pfd scen_c2 c' w "af1" af "11111" scen_sub Haf); [|done|].
  - vm_compute in Haf. injection Haf as <-. vm_compute. reflexivity.
  - vm_compute in Hrun. injection Hrun as <- _. reflexivity.
Defined.

(** A request that selects no UE. *)
Definition scen_ti_none : TrafficInfluSub :=
  mkTrafficInfluSub "svc1" "app3" "trans3" "" (mkSnssai 0 "") "" [] "" "" "" "" "" ""
    (mkWebsockNotifConfig "" false) "" None None None None None "" false false false.

Lemma nef_failed_create_registers_witness :
  ∃ w c', serve (ReqTiCreate "af9" (BodyOf scen_ti_none)) new_writer scen_c2 = (Ret w, c') ∧
    status_of w = 400 ∧
    afs (nef c') = <["af9" := bump_sub (afCreate scen_cfg "af9")]> (afs (nef scen_c2)).
Proof.
  apply (nef_failed_create_registers scen_c2 "af9" scen_ti_none); vm_compute; reflexivity.
Defined.

Lemma nef_udr_single_record_witness : dom (tidDb (udrClient (nef scen_c2))) ⊆ {[""]}.
Proof.
  exact (nef_udr_single_record _ _ _ _ _ 2 scen_started scen_room scen_reached).
Defined.

(** Two applications filed under different keys with one external identifier:
    after the first transaction is deleted, reading the second dereferences a
    nil pointer. *)
Definition scen_alias (key : string) : PfdManagement :=
  mkPfdManagement "" None {[key := scen_app "shared"]} ∅.
Definition scen_alias_state : scen_ctx :=
  scen_run (ReqPfdDelete "af1" "1000")
    (scen_run (ReqPfdCreate "af1" (BodyOf (scen_alias "b")))
       (scen_run (ReqPfdCreate "af1" (BodyOf (scen_alias "a"))) scen_c0)).

Lemma nef_pfd_read_can_panic :
  (serve (ReqPfdRead "af1" "1001") new_writer scen_alias_state).1
  = Panic "nil pointer dereference".
Proof. vm_compute. reflexivity. Qed.
End NefObservations.
