(* ===== verification/Eaa.v ===== *)
(** * Edge Application Agent: state and operations (edgenode/pkg/eaa)

    The agent keeps the services that producers register, the consumers'
    subscriptions to notifications of a namespace or of one service, and the
    consumers' websocket connections.  A nil map is [None]; pointers to
    [ConsumerSubscription] are represented by their key.  The websocket
    library is a parameter ([WebSocket]). *)

From S2P Require Import Prelude Strconv Http.
From stdpp Require Import prelude gmap strings.
From Stdlib Require Import ZArith Ascii.

Local Open Scope Z_scope.

(** ** Data (eaa_model.go, eaa_subscription_data.go, main.go) *)

Record NotificationDescriptor := mkNotificationDescriptor {
  nd_Name : string;
  nd_Version : string;
  nd_Description : string;
}.

Record URN := mkURN {
  urn_ID : string;
  urn_Namespace : string;
}.

Record NotificationFromProducer := mkNotificationFromProducer {
  nfp_Name : string;
  nfp_Version : string;
  nfp_Payload : string;
}.

Record NotificationToConsumer := mkNotificationToConsumer {
  ntc_Name : string;
  ntc_Version : string;
  ntc_Payload : string;
  ntc_URN : URN;
}.

Record Service := mkService {
  srv_URN : option URN;
  srv_Description : string;
  srv_EndpointURI : string;
  srv_Status : string;
  srv_Notifications : option (list NotificationDescriptor);
  srv_Info : string;
}.

Record Subscription := mkSubscription {
  sub_URN : URN;
  sub_Notifications : list NotificationDescriptor;
}.

(** [SubscriptionList] is the list of its only field. *)
Definition SubscriptionList : Type := list Subscription.

Record UniqueNotif := mkUniqueNotif {
  un_namespace : string;
  un_notifName : string;
  un_notifVersion : string;
}.

#[export] Instance UniqueNotif_eq_dec : EqDecision UniqueNotif.
Proof. solve_decision. Defined.
#[export] Program Instance UniqueNotif_countable : Countable UniqueNotif :=
  inj_countable' (λ k, (un_namespace k, un_notifName k, un_notifVersion k))
    (λ '(a, b, c), mkUniqueNotif a b c) _.
Next Obligation. by intros []. Qed.

Record ConsumerSubscription := mkConsumerSubscription {
  namespaceSubscriptions : list string;
  serviceSubscriptions : gmap string (list string);
  cs_notification : NotificationDescriptor;
}.

Definition set_ns_subs (l : list string) (s : ConsumerSubscription) : ConsumerSubscription :=
  mkConsumerSubscription l (serviceSubscriptions s) (cs_notification s).
Definition set_srv_subs (m : gmap string (list string)) (s : ConsumerSubscription)
    : ConsumerSubscription :=
  mkConsumerSubscription (namespaceSubscriptions s) m (cs_notification s).

(** The websocket library, with its own state [W]: upgrading a request to a
    connection, sending a text or a close message, and closing. *)
Inductive wsMessage :=
| WsText (m : NotificationToConsumer)
| WsClose.

Class WebSocket (W Conn : Type) := {
  ws_upgrade : W → option Conn * W;
  ws_write : Conn → wsMessage → W → error * W;
  ws_close : Conn → W → error * W;
}.

(** What the polls of [waitForConnectionAssigned] see before its deadline, for
    a connection that another request is setting up. *)
Class WsPolls (Conn : Type) := ws_polls : string → list (option Conn).

Record eaaContext (W Conn : Type) := mkEaaContext {
  serviceInfo : option (gmap string Service);
  consumerConnections : option (gmap string (option Conn));
  subscriptionInfo : option (gmap UniqueNotif ConsumerSubscription);
  websockets : W;
}.
Arguments mkEaaContext {W Conn} _ _ _ _.
Arguments serviceInfo {W Conn} _.
Arguments consumerConnections {W Conn} _.
Arguments subscriptionInfo {W Conn} _.
Arguments websockets {W Conn} _.

(** ** Names (common.go) *)

(** [strings.SplitN(s, ":", 2)]: what precedes and follows the first colon. *)
Fixpoint split_colon (s : string) : option (string * string) :=
  match s with
  | EmptyString => None
  | String c s' =>
      if bool_decide (c = ":"%char) then Some ("", s')
      else match split_colon s' with
           | Some (a, b) => Some (String c a, b)
           | None => None
           end
  end.

Definition CommonNameStringToURN (commonName : string) : URN * error :=
  match split_colon commonName with
  | Some (ns, id) => (mkURN id ns, nil_err)
  | None => (mkURN "" "", errors_New "Cannot translate Common Name to URN")
  end.

(** The loop that looks a subscriber up in a list: its index or -1. *)
Fixpoint index_of (id : string) (l : list string) (i : Z) : Z :=
  match l with
  | [] => -1
  | x :: l' => if bool_decide (x = id) then i else index_of id l' (i + 1)
  end.

(** ** Lists of subscribers (eaa_subscription_data.go) *)

(** [append(s[:i], s[i+1:]...)] on a slice of length [len] over the array
    [arr]: the elements behind [i] move one place to the left in the array, and
    the last place keeps its element. *)
Definition slice_cut (arr : list string) (len i : nat) : list string :=
  take i arr ++ take (len - S i) (drop (S i) arr) ++ drop (len - 1) arr.

(** The loop of [RemoveSubscriber]: the range is over the slice as it was,
    that is over the first [n] places of the array, which the body changes;
    [len] is the length of [*sI]. *)
Fixpoint remove_loop (name : string) (n i : nat) (arr : list string) (len : nat)
    (isChanged : bool) : outcome (list string * nat * bool) :=
  match n with
  | O => Ret (arr, len, isChanged)
  | S n' =>
      if bool_decide (arr !! i = Some name) then
        if bool_decide (S i ≤ len)%nat
        then remove_loop name n' (S i) (slice_cut arr len i) (len - 1) true
        else Panic "slice bounds out of range"
      else remove_loop name n' (S i) arr len isChanged
  end.

(** [sI.RemoveSubscriber(commonName)]: the slice afterwards, and whether it
    changed. *)
Definition RemoveSubscriber (commonName : string) (sI : list string)
    : outcome (list string * bool) :=
  match remove_loop commonName (length sI) 0 sI (length sI) false with
  | Ret (arr, len, ch) => Ret (take len arr, ch)
  | Panic e => Panic e
  end.

(** [getUniqueSubsList]: the subscribers of the namespace, and those of the
    service that are not among them. *)
Definition getUniqueSubsList (nsList servList : list string) : list string :=
  fold_left (λ fullList subID,
    if bool_decide (subID ∈ nsList) then fullList else fullList ++ [subID]) servList nsList.

(** [validServiceNotifications]. *)
Definition validServiceNotifications (l : list NotificationDescriptor)
    : list NotificationDescriptor :=
  filter (λ n, ¬ (nd_Name n = "" ∨ nd_Version n = "")) l.

Section eaa.
Context {W Conn : Type} `{WebSocket W Conn, WsPolls Conn, GoEnv}.
Abbreviation ctx := (eaaContext W Conn).

Definition set_services (m : gmap string Service) (c : ctx) : ctx :=
  mkEaaContext (Some m) (consumerConnections c) (subscriptionInfo c) (websockets c).
Definition set_conns (m : gmap string (option Conn)) (c : ctx) : ctx :=
  mkEaaContext (serviceInfo c) (Some m) (subscriptionInfo c) (websockets c).
Definition set_subinfo (m : gmap UniqueNotif ConsumerSubscription) (c : ctx) : ctx :=
  mkEaaContext (serviceInfo c) (consumerConnections c) (Some m) (websockets c).
Definition set_ws (w : W) (c : ctx) : ctx :=
  mkEaaContext (serviceInfo c) (consumerConnections c) (subscriptionInfo c) w.

(** The state [RunServer] starts with. *)
Definition eaa_init (w : W) : ctx := mkEaaContext (Some ∅) (Some ∅) (Some ∅) w.

(** [eaaCtx.subscriptionInfo[key]], dereferenced. *)
Definition get_sub (key : UniqueNotif) : GoM ctx ConsumerSubscription :=
  c ← go_get;
  match subscriptionInfo c ≫= lookup key with
  | Some s => mret s
  | None => go_panic "nil pointer dereference"
  end.
(** Writing a field through that pointer. *)
Definition put_sub_info (key : UniqueNotif) (s : ConsumerSubscription) : GoM ctx unit :=
  c ← go_get;
  match subscriptionInfo c with
  | Some m => go_put (set_subinfo (<[key := s]> m) c)
  | None => go_panic "assignment to entry in nil map"
  end.

Definition getNamespaceSubscriptionIndex (key : UniqueNotif) (id : string) : GoM ctx Z :=
  s ← get_sub key;
  mret (index_of id (namespaceSubscriptions s) 0).
Definition getServiceSubscriptionIndex (key : UniqueNotif) (serviceID consID : string)
    : GoM ctx Z :=
  s ← get_sub key;
  mret (index_of consID (default [] (serviceSubscriptions s !! serviceID)) 0).

Definition initNamespaceNotification (key : UniqueNotif) (notif : NotificationDescriptor)
    : GoM ctx unit :=
  c ← go_get;
  match subscriptionInfo c ≫= lookup key with
  | Some _ => mret tt
  | None => put_sub_info key (mkConsumerSubscription [] ∅ notif)
  end.

Definition initServiceNotification (key : UniqueNotif) (serviceID : string)
    (notif : NotificationDescriptor) : GoM ctx unit :=
  initNamespaceNotification key notif;;
  s ← get_sub key;
  match serviceSubscriptions s !! serviceID with
  | Some _ => mret tt
  | None =>
      put_sub_info key (set_srv_subs (<[serviceID := []]> (serviceSubscriptions s)) s)
  end.

(** ** Subscriptions (api_subscription.go) *)

Definition notif_key (namespace : string) (n : NotificationDescriptor) : UniqueNotif :=
  mkUniqueNotif namespace (nd_Name n) (nd_Version n).

(** [for _, n := range notif] with a body that never leaves the loop. *)
Fixpoint for_each {A} (l : list A) (body : A → GoM ctx unit) : GoM ctx unit :=
  match l with
  | [] => mret tt
  | n :: l' => body n;; for_each l' body
  end.

(** The guard of the operations below and their result. *)
Definition with_subinfo (msg : string) (body : GoM ctx unit) (code : Z)
    : GoM ctx (Z * error) :=
  c ← go_get;
  match subscriptionInfo c with
  | None => mret (StatusInternalServerError, errors_New msg)
  | Some _ => body;; mret (code, nil_err)
  end.

Definition addSubscriptionToNamespace (commonName namespace : string)
    (notif : list NotificationDescriptor) : GoM ctx (Z * error) :=
  with_subinfo "Eaa context not initialized. " (for_each notif (λ n,
    let key := notif_key namespace n in
    initNamespaceNotification key n;;
    index ← getNamespaceSubscriptionIndex key commonName;
    if bool_decide (index = -1) then
      s ← get_sub key;
      put_sub_info key (set_ns_subs (namespaceSubscriptions s ++ [commonName]) s)
    else mret tt)) StatusCreated.

(** [append(l[:index], l[index+1:]...)] as a value. *)
Definition cut_at (index : Z) (l : list string) : list string :=
  take (Z.to_nat index) l ++ drop (S (Z.to_nat index)) l.

Definition removeSubscriptionToNamespace (commonName namespace : string)
    (notif : list NotificationDescriptor) : GoM ctx (Z * error) :=
  with_subinfo "Eaa context not initialized. " (for_each notif (λ n,
    let key := notif_key namespace n in
    c ← go_get;
    match subscriptionInfo c ≫= lookup key with
    | None => mret tt
    | Some _ =>
        index ← getNamespaceSubscriptionIndex key commonName;
        if bool_decide (index ≠ -1) then
          s ← get_sub key;
          put_sub_info key (set_ns_subs (cut_at index (namespaceSubscriptions s)) s)
        else mret tt
    end)) StatusNoContent.

Definition addSubscriptionToService (commonName namespace serviceID : string)
    (notif : list NotificationDescriptor) : GoM ctx (Z * error) :=
  with_subinfo "Eaa context not intialized. " (for_each notif (λ n,
    let key := notif_key namespace n in
    initServiceNotification key serviceID n;;
    index ← getServiceSubscriptionIndex key serviceID commonName;
    if bool_decide (index ≠ -1) then mret tt
    else
      s ← get_sub key;
      let l := default [] (serviceSubscriptions s !! serviceID) in
      put_sub_info key
        (set_srv_subs (<[serviceID := l ++ [commonName]]> (serviceSubscriptions s)) s)))
    StatusCreated.

Definition removeSubscriptionToService (commonName namespace serviceID : string)
    (notif : list NotificationDescriptor) : GoM ctx (Z * error) :=
  with_subinfo "Eaa context not initialized. " (for_each notif (λ n,
    let key := notif_key namespace n in
    c ← go_get;
    match subscriptionInfo c ≫= lookup key with
    | None => mret tt
    | Some s0 =>
        match serviceSubscriptions s0 !! serviceID with
        | None => mret tt
        | Some _ =>
            index ← getServiceSubscriptionIndex key serviceID commonName;
            if bool_decide (index ≠ -1) then
              s ← get_sub key;
              let l := default [] (serviceSubscriptions s !! serviceID) in
              put_sub_info key
                (set_srv_subs (<[serviceID := cut_at index l]> (serviceSubscriptions s)) s)
            else mret tt
        end
    end)) StatusNoContent.

(** One entry of the outer loop of [removeAllSubscriptions]. *)
Definition remove_from_entry (commonName : string) (key : UniqueNotif) : GoM ctx unit :=
  s ← get_sub key;
  for_each (map_range ["removeAllSubscriptions"; un_namespace key; un_notifName key;
                       un_notifVersion key] (serviceSubscriptions s)) (λ kv,
    match RemoveSubscriber commonName kv.2 with
    | Panic e => go_panic e
    | Ret (l, true) =>
        s ← get_sub key;
        put_sub_info key (set_srv_subs (<[kv.1 := l]> (serviceSubscriptions s)) s)
    | Ret (_, false) => mret tt
    end);;
  s ← get_sub key;
  match RemoveSubscriber commonName (namespaceSubscriptions s) with
  | Panic e => go_panic e
  | Ret (l, _) => put_sub_info key (set_ns_subs l s)
  end.

Definition removeAllSubscriptions (commonName : string) : GoM ctx (Z * error) :=
  c ← go_get;
  match subscriptionInfo c with
  | None => mret (StatusInternalServerError, errors_New "EAA context not initialized")
  | Some m =>
      for_each (map_range ["removeAllSubscriptions"] m) (λ kv,
        remove_from_entry commonName kv.1);;
      mret (StatusNoContent, nil_err)
  end.

(** ** Consumers (api_consumer.go) *)

(** [addNamespaceSubscriptionToList] (with the empty [id]) and
    [addServiceSubscriptionToList]: the descriptor is appended to the first
    entry of the namespace and service, or a new entry is. *)
Fixpoint addSubscriptionToList (id namespace : string) (n : NotificationDescriptor)
    (sL : SubscriptionList) : SubscriptionList :=
  match sL with
  | [] => [mkSubscription (mkURN id namespace) [n]]
  | s :: sL' =>
      if bool_decide (urn_ID (sub_URN s) = id) &&
         bool_decide (urn_Namespace (sub_URN s) = namespace)
      then mkSubscription (sub_URN s) (sub_Notifications s ++ [n]) :: sL'
      else s :: addSubscriptionToList id namespace n sL'
  end.

Definition getConsumerSubscriptions (commonName : string)
    : GoM ctx (SubscriptionList * error) :=
  c ← go_get;
  match subscriptionInfo c with
  | None => mret ([], errors_New "EAA context not initialized")
  | Some m =>
      r ← for_acc (R := unit) (map_range ["getConsumerSubscriptions"] m) (λ kv subs,
        let '(nameNotif, conSub) := kv : UniqueNotif * ConsumerSubscription in
        let ns := un_namespace nameNotif in
        let n := cs_notification conSub in
        index ← getNamespaceSubscriptionIndex nameNotif commonName;
        let subs := if bool_decide (index ≠ -1)
                    then addSubscriptionToList "" ns n subs else subs in
        for_acc (map_range ["getConsumerSubscriptions"; ns; un_notifName nameNotif;
                            un_notifVersion nameNotif] (serviceSubscriptions conSub))
          (λ ks subs,
            index ← getServiceSubscriptionIndex nameNotif ks.1 commonName;
            mret (inl (if bool_decide (index ≠ -1)
                       then addSubscriptionToList ks.1 ns n subs else subs))) subs) [];
      match r with
      | inl subs => mret (subs, nil_err)
      | inr _ => mret ([], nil_err)
      end
  end.

Definition call_ws {A} (f : W → A * W) : GoM ctx A :=
  c ← go_get;
  let '(a, w) := f (websockets c) in
  go_put (set_ws w c);;
  mret a.

(** Writing and deleting an entry of [consumerConnections]. *)
Definition put_conn (name : string) (conn : option Conn) : GoM ctx unit :=
  c ← go_get;
  match consumerConnections c with
  | Some m => go_put (set_conns (<[name := conn]> m) c)
  | None => go_panic "assignment to entry in nil map"
  end.
Definition delete_conn (name : string) : GoM ctx unit :=
  go_modify (λ c, match consumerConnections c with
                  | Some m => set_conns (delete name m) c
                  | None => c end).

(** [createWsConn] for a client with the common name [commonName] and the
    request field [Host]. *)
Definition createWsConn (commonName host : string) : GoM ctx (Z * error) :=
  if bool_decide (commonName ≠ host)
  then mret (StatusUnauthorized, errors_New "401: Incorrect app ID")
  else
    c ← go_get;
    (match consumerConnections c ≫= lookup commonName with
     | None => mret tt
     | Some None => go_panic "nil pointer dereference"
     | Some (Some prevConn) =>
         call_ws (ws_write prevConn WsClose);;
         call_ws (ws_close prevConn);;
         delete_conn commonName
     end);;
    put_conn commonName None;;
    r ← call_ws ws_upgrade;
    match r with
    | None => delete_conn commonName;; mret (0, errors_New "upgrade failed")
    | Some conn => put_conn commonName (Some conn);; mret (0, nil_err)
    end.

(** ** Producers (api_producer.go) *)

Definition addService (commonName : string) (serv : Service) : GoM ctx error :=
  c ← go_get;
  match serviceInfo c with
  | None => mret (errors_New "EAA context is not initialized. Call Init() function first")
  | Some m =>
      let '(urn, err) := CommonNameStringToURN commonName in
      if bool_decide (err ≠ nil_err) then mret (errors_New "Common name could not be parsed")
      else
        let serv := mkService (Some urn) (srv_Description serv) (srv_EndpointURI serv)
          (srv_Status serv) (validServiceNotifications <$> srv_Notifications serv)
          (srv_Info serv) in
        go_put (set_services (<[commonName := serv]> m) c);;
        mret nil_err
  end.

Definition removeService (commonName : string) : GoM ctx (Z * error) :=
  c ← go_get;
  match serviceInfo c with
  | None => mret (StatusInternalServerError,
              errors_New "EAA context is not initialized. Call Init() function first")
  | Some m =>
      match m !! commonName with
      | Some _ => go_put (set_services (delete commonName m) c);;
                  mret (StatusNoContent, nil_err)
      | None => mret (StatusNotFound, errors_New "Not Found")
      end
  end.

(** [waitForConnectionAssigned]: the first poll that sees a connection; the
    other request has by then stored it. *)
Definition waitForConnectionAssigned (subID : string) : GoM ctx error :=
  match list_find (λ o, is_Some o) (ws_polls subID) with
  | Some (_, conn) => put_conn subID conn;; mret nil_err
  | None => mret (errors_New "Timeout reached")
  end.

Definition sendNotificationToSubscriber (subID : string) (msg : NotificationToConsumer)
    : GoM ctx error :=
  c ← go_get;
  match consumerConnections c ≫= lookup subID with
  | None => mret (errors_New
              "no websocket connection created by GET /notifications API")
  | Some possibleConnection =>
      err ← (match possibleConnection with
             | None => waitForConnectionAssigned subID
             | Some _ => mret nil_err
             end);
      if bool_decide (err ≠ nil_err)
      then mret (errors_New "websocket isn't properly created")
      else
        c ← go_get;
        match consumerConnections c ≫= lookup subID with
        | Some (Some conn) => call_ws (ws_write conn (WsText msg))
        | _ => go_panic "nil pointer dereference"
        end
  end.

Definition sendNotificationToAllSubscribers (commonName : string)
    (notif : NotificationFromProducer) : GoM ctx (Z * error) :=
  c ← go_get;
  match serviceInfo c with
  | None => mret (StatusInternalServerError, errors_New "EAA context is not initialized")
  | Some services =>
      let '(prodURN, err) := CommonNameStringToURN commonName in
      if bool_decide (err ≠ nil_err) then mret (StatusUnauthorized, err)
      else
        let msg := mkNotificationToConsumer (nfp_Name notif) (nfp_Version notif)
          (nfp_Payload notif) prodURN in
        match services !! commonName with
        | None => mret (StatusInternalServerError, errors_New "Producer is not registered")
        | Some _ =>
            let key := mkUniqueNotif (urn_Namespace prodURN) (nfp_Name notif)
              (nfp_Version notif) in
            match subscriptionInfo c ≫= lookup key with
            | None => mret (StatusAccepted, nil_err)
            | Some info =>
                let subscriberList :=
                  match serviceSubscriptions info !! urn_ID prodURN with
                  | None => namespaceSubscriptions info
                  | Some srvSubsList =>
                      getUniqueSubsList (namespaceSubscriptions info) srvSubsList
                  end in
                for_each subscriberList (λ subID,
                  sendNotificationToSubscriber subID msg;; mret tt);;
                mret (StatusAccepted, nil_err)
            end
        end
  end.
End eaa.

(** ** HTTP handlers (api_eaa.go) *)

Inductive eaaPayload :=
| PayServices (l : list Service)
| PaySubscriptions (l : SubscriptionList).

(** The requests that the router dispatches, each with the common name of the
    client's certificate. *)
Inductive eaaRequest :=
| EaaDeregister
| EaaGetNotifications (host : string)
| EaaGetServices
| EaaGetSubscriptions
| EaaPush (body : Body NotificationFromProducer)
| EaaRegister (body : Body Service)
| EaaSubNamespace (ns : string) (body : Body (list NotificationDescriptor))
| EaaSubService (ns id : string) (body : Body (list NotificationDescriptor))
| EaaUnsubAll
| EaaUnsubNamespace (ns : string) (body : Body (list NotificationDescriptor))
| EaaUnsubService (ns id : string) (body : Body (list NotificationDescriptor)).

Section handlers.
Context {W Conn : Type} `{WebSocket W Conn, WsPolls Conn, GoEnv}.
Abbreviation ctx := (eaaContext W Conn).
Abbreviation writer := (ResponseWriter eaaPayload).

Definition DeregisterApplication (commonName : string) (w : writer) : GoM ctx writer :=
  let w := Header_Set content_type json_utf8 w in
  r ← removeService commonName;
  mret (WriteHeader r.1 w).

(** A missing map of services is answered with 500, after which the handler
    goes on.  When the upgrade fails the library has answered. *)
Definition GetNotifications (commonName host : string) (w : writer) : GoM ctx writer :=
  c ← go_get;
  let w := match serviceInfo c with
           | None => WriteHeader StatusInternalServerError (Header_Set content_type json_utf8 w)
           | Some _ => w end in
  r ← createWsConn commonName host;
  let '(statCode, err) := r : Z * error in
  if bool_decide (err ≠ nil_err) then
    if bool_decide (statCode ≠ 0)
    then mret (WriteHeader statCode (Header_Set content_type json_utf8 w))
    else mret w
  else mret w.

Definition GetServices (w : writer) : GoM ctx writer :=
  let w := WriteHeader StatusOK (Header_Set content_type json_utf8 w) in
  c ← go_get;
  match serviceInfo c with
  | None => mret (WriteHeader StatusInternalServerError w)
  | Some m => mret (Write (PayServices (map_range ["GetServices"] m).*2) w)
  end.

Definition GetSubscriptions (commonName : string) (w : writer) : GoM ctx writer :=
  let w := WriteHeader StatusOK (Header_Set content_type json_utf8 w) in
  r ← getConsumerSubscriptions commonName;
  let '(subs, err) := r : SubscriptionList * error in
  if bool_decide (err ≠ nil_err) then mret (WriteHeader StatusInternalServerError w)
  else mret (Write (PaySubscriptions subs) w).

(** The handlers that decode a body: a body that cannot be decoded is
    answered with 500. *)
Definition with_body {A} (body : Body A) (w : writer) (k : A → writer → GoM ctx writer)
    : GoM ctx writer :=
  let w := Header_Set content_type json_utf8 w in
  match body with
  | BodyOf a => k a w
  | _ => mret (WriteHeader StatusInternalServerError w)
  end.

Definition PushNotificationToSubscribers (commonName : string)
    (body : Body NotificationFromProducer) (w : writer) : GoM ctx writer :=
  with_body body w (λ notif w,
    r ← sendNotificationToAllSubscribers commonName notif;
    mret (WriteHeader r.1 w)).

Definition RegisterApplication (commonName : string) (body : Body Service) (w : writer)
    : GoM ctx writer :=
  with_body body w (λ serv w,
    err ← addService commonName serv;
    if bool_decide (err ≠ nil_err) then mret (WriteHeader StatusInternalServerError w)
    else mret (WriteHeader StatusOK w)).

Definition SubscribeNamespaceNotifications (commonName ns : string)
    (body : Body (list NotificationDescriptor)) (w : writer) : GoM ctx writer :=
  with_body body w (λ sub w,
    r ← addSubscriptionToNamespace commonName ns sub;
    mret (WriteHeader r.1 w)).

Definition SubscribeServiceNotifications (commonName ns id : string)
    (body : Body (list NotificationDescriptor)) (w : writer) : GoM ctx writer :=
  with_body body w (λ sub w,
    r ← addSubscriptionToService commonName ns id sub;
    mret (WriteHeader r.1 w)).

Definition UnsubscribeAllNotifications (commonName : string) (w : writer) : GoM ctx writer :=
  let w := Header_Set content_type json_utf8 w in
  r ← removeAllSubscriptions commonName;
  mret (WriteHeader r.1 w).

Definition UnsubscribeNamespaceNotifications (commonName ns : string)
    (body : Body (list NotificationDescriptor)) (w : writer) : GoM ctx writer :=
  with_body body w (λ sub w,
    r ← removeSubscriptionToNamespace commonName ns sub;
    mret (WriteHeader r.1 w)).

Definition UnsubscribeServiceNotifications (commonName ns id : string)
    (body : Body (list NotificationDescriptor)) (w : writer) : GoM ctx writer :=
  with_body body w (λ sub w,
    r ← removeSubscriptionToService commonName ns id sub;
    mret (WriteHeader r.1 w)).

(** The handler of each route ([eaaRoutes]). *)
Definition eaa_serve (commonName : string) (r : eaaRequest) (w : writer) : GoM ctx writer :=
  match r with
  | EaaDeregister => DeregisterApplication commonName w
  | EaaGetNotifications host => GetNotifications commonName host w
  | EaaGetServices => GetServices w
  | EaaGetSubscriptions => GetSubscriptions commonName w
  | EaaPush b => PushNotificationToSubscribers commonName b w
  | EaaRegister b => RegisterApplication commonName b w
  | EaaSubNamespace ns b => SubscribeNamespaceNotifications commonName ns b w
  | EaaSubService ns id b => SubscribeServiceNotifications commonName ns id b w
  | EaaUnsubAll => UnsubscribeAllNotifications commonName w
  | EaaUnsubNamespace ns b => UnsubscribeNamespaceNotifications commonName ns b w
  | EaaUnsubService ns id b => UnsubscribeServiceNotifications commonName ns id b w
  end.
End handlers.

(** The states reached by serving requests, each in some environment. *)
Inductive eaa_reach {W Conn} `{WebSocket W Conn, WsPolls Conn} (c0 : eaaContext W Conn)
    : eaaContext W Conn → Prop :=
| eaa_reach_init : eaa_reach c0 c0
| eaa_reach_step c (E : GoEnv) name r :
    eaa_reach c0 c → eaa_reach c0 (exec (eaa_serve name r new_writer) c).
