(* ===== verification/EaaFacts.v ===== *)
(** * Behaviour of the Edge Application Agent

    The operations on subscriptions compute pure functions of the table of
    subscriptions; on lists without duplicates these remove and add exactly
    one subscriber. *)

From S2P Require Import Prelude Strconv Http Eaa.
From stdpp Require Import prelude gmap strings.
From Stdlib Require Import ZArith Ascii.

Local Open Scope Z_scope.

(** ** Lists of subscribers *)

(** A list without one name. *)
Definition without (name : string) (l : list string) : list string := filter (λ x, x ≠ name) l.

Lemma elem_of_without name l x : x ∈ without name l ↔ x ≠ name ∧ x ∈ l.
Proof. unfold without. by rewrite list_elem_of_filter. Qed.

Lemma without_NoDup name l : NoDup l → NoDup (without name l).
Proof. apply NoDup_filter. Qed.

Lemma without_id name l : name ∉ l → without name l = l.
Proof.
  unfold without. induction l as [|x l IH]; [done|]. rewrite not_elem_of_cons. intros [? ?].
  rewrite filter_cons_True by congruence. by rewrite IH.
Qed.

Lemma without_split name l1 l2 :
  name ∉ l1 → name ∉ l2 → without name (l1 ++ name :: l2) = l1 ++ l2.
Proof.
  intros H1 H2. unfold without. rewrite filter_app, filter_cons_False by tauto.
  fold (without name l1) (without name l2). by rewrite !without_id.
Qed.

Lemma index_of_none name l i : 0 ≤ i → index_of name l i = -1 ↔ name ∉ l.
Proof.
  revert i. induction l as [|x l IH]; intros i Hi; simpl.
  { split; [intros _; apply not_elem_of_nil|done]. }
  rewrite not_elem_of_cons. case_bool_decide; subst.
  - split; [lia|tauto].
  - rewrite IH by lia. split; [split; [congruence|done]|tauto].
Qed.

(** The index is that of the first occurrence. *)
Lemma index_of_app name l1 l2 i :
  name ∉ l1 → index_of name (l1 ++ name :: l2) i = i + Z.of_nat (length l1).
Proof.
  revert i. induction l1 as [|x l1 IH]; intros i; simpl.
  { intros _. rewrite bool_decide_eq_true_2 by done. lia. }
  rewrite not_elem_of_cons. intros [? ?]. rewrite bool_decide_eq_false_2 by congruence.
  rewrite IH by done. lia.
Qed.

Lemma cut_at_without name l :
  NoDup l → name ∈ l → cut_at (index_of name l 0) l = without name l.
Proof.
  intros Hnd (l1 & l2 & ->)%list_elem_of_split.
  apply NoDup_app in Hnd as (_ & Hd & [Hn2 _]%NoDup_cons).
  assert (name ∉ l1) as Hn1 by (intros ?; eapply Hd; [done|]; set_solver).
  rewrite index_of_app, without_split by done. unfold cut_at.
  rewrite Z.add_0_l, Nat2Z.id, take_app_length. f_equal.
  change (l1 ++ name :: l2) with (l1 ++ ([name] ++ l2)). rewrite app_assoc.
  apply drop_app_length'. rewrite length_app. simpl. lia.
Qed.

Lemma remove_loop_none name n i arr len ch :
  (∀ j, (i ≤ j < i + n)%nat → arr !! j ≠ Some name) →
  remove_loop name n i arr len ch = Ret (arr, len, ch).
Proof.
  revert i. induction n as [|n IH]; intros i Hno; simpl; [done|].
  rewrite bool_decide_eq_false_2 by (apply Hno; lia). apply IH. intros. apply Hno. lia.
Qed.

Lemma remove_loop_skip name n1 n2 i arr len ch :
  (∀ j, (i ≤ j < i + n1)%nat → arr !! j ≠ Some name) →
  remove_loop name (n1 + n2) i arr len ch = remove_loop name n2 (i + n1) arr len ch.
Proof.
  revert i. induction n1 as [|n1 IH]; intros i Hno; simpl.
  { by rewrite Nat.add_0_r. }
  rewrite bool_decide_eq_false_2 by (apply Hno; lia).
  rewrite IH; [f_equal; lia|]. intros. apply Hno. lia.
Qed.

Lemma not_elem_lookup (name : string) (l : list string) (j : nat) : name ∉ l → l !! j ≠ Some name.
Proof. intros Hn Hj. apply Hn. by eapply list_elem_of_lookup_2. Qed.

(** The array after the cut. *)
Lemma slice_cut_split name l1 l2 :
  slice_cut (l1 ++ name :: l2) (length (l1 ++ name :: l2)) (length l1)
  = l1 ++ l2 ++ drop (length l2) (name :: l2).
Proof.
  unfold slice_cut. rewrite take_app_length, length_app. f_equal. f_equal.
  - change (l1 ++ name :: l2) with (l1 ++ ([name] ++ l2)). rewrite app_assoc.
    rewrite drop_app_length' by (rewrite length_app; simpl; lia).
    apply take_ge. simpl. lia.
  - simpl. replace (length l1 + S (length l2) - 1)%nat with (length l1 + length l2)%nat by lia.
    by rewrite drop_app_add.
Qed.

(** On a list without duplicates the loop over the changing array removes
    the subscriber, and stays within the bounds of the slice. *)
Lemma RemoveSubscriber_NoDup name l :
  NoDup l → RemoveSubscriber name l = Ret (without name l, bool_decide (name ∈ l)).
Proof.
  intros Hnd. unfold RemoveSubscriber. case_bool_decide as Hin.
  2: { rewrite remove_loop_none by (intros; by apply not_elem_lookup).
       by rewrite firstn_all, without_id. }
  apply list_elem_of_split in Hin as (l1 & l2 & ->).
  apply NoDup_app in Hnd as (_ & Hd & [Hn2 _]%NoDup_cons).
  assert (name ∉ l1) as Hn1 by (intros ?; eapply Hd; [done|]; set_solver).
  rewrite without_split by done.
  rewrite length_app at 1. rewrite remove_loop_skip.
  2: { intros j Hj. rewrite lookup_app_l by lia. by apply not_elem_lookup. }
  simpl (length (name :: l2)). rewrite Nat.add_0_l. cbn [remove_loop].
  rewrite bool_decide_eq_true_2 by by rewrite lookup_app_r, Nat.sub_diag by lia.
  rewrite bool_decide_eq_true_2 by (rewrite length_app; simpl; lia).
  rewrite slice_cut_split. rewrite remove_loop_none.
  - rewrite length_app. simpl.
    replace (length l1 + S (length l2) - 1)%nat with (length (l1 ++ l2))
      by (rewrite length_app; lia).
    rewrite app_assoc. by rewrite take_app_length.
  - intros j Hj. rewrite lookup_app_r by lia.
    destruct (decide (j - length l1 < length l2)%nat).
    + rewrite lookup_app_l by done. by apply not_elem_lookup.
    + rewrite lookup_app_r by lia. destruct l2 as [|y l2]; [simpl in Hj; lia|].
      apply not_elem_lookup. simpl. intros Hel. apply Hn2.
      apply list_elem_of_lookup in Hel as [k Hk]. rewrite lookup_drop in Hk.
      by eapply list_elem_of_lookup_2.
Qed.

(** ** Operations as functions of the table *)

Abbreviation table := (gmap UniqueNotif ConsumerSubscription).

(** The entry of a notification, fresh when there is none yet. *)
Definition entry (m : table) (key : UniqueNotif) (n : NotificationDescriptor)
    : ConsumerSubscription :=
  default (mkConsumerSubscription [] ∅ n) (m !! key).

Definition add_name (name : string) (l : list string) : list string :=
  if bool_decide (name ∈ l) then l else l ++ [name].

Definition ns_add (name ns : string) (m : table) (n : NotificationDescriptor) : table :=
  let s := entry m (notif_key ns n) n in
  <[notif_key ns n := set_ns_subs (add_name name (namespaceSubscriptions s)) s]> m.

Definition ns_del (name ns : string) (m : table) (n : NotificationDescriptor) : table :=
  match m !! notif_key ns n with
  | Some s => <[notif_key ns n := set_ns_subs (without name (namespaceSubscriptions s)) s]> m
  | None => m
  end.

Definition srv_add (name ns id : string) (m : table) (n : NotificationDescriptor) : table :=
  let s := entry m (notif_key ns n) n in
  let l := default [] (serviceSubscriptions s !! id) in
  <[notif_key ns n := set_srv_subs (<[id := add_name name l]> (serviceSubscriptions s)) s]> m.

Definition srv_del (name ns id : string) (m : table) (n : NotificationDescriptor) : table :=
  match m !! notif_key ns n with
  | Some s =>
      match serviceSubscriptions s !! id with
      | Some l =>
          <[notif_key ns n := set_srv_subs (<[id := without name l]> (serviceSubscriptions s)) s]> m
      | None => m
      end
  | None => m
  end.

(** The entry without a subscriber. *)
Definition entry_without (name : string) (s : ConsumerSubscription) : ConsumerSubscription :=
  mkConsumerSubscription (without name (namespaceSubscriptions s))
    (without name <$> serviceSubscriptions s) (cs_notification s).

(** No list has a subscriber twice. *)
Definition entry_wf (s : ConsumerSubscription) : Prop :=
  NoDup (namespaceSubscriptions s) ∧ map_Forall (λ _, NoDup) (serviceSubscriptions s).
Definition table_wf (m : table) : Prop := map_Forall (λ _, entry_wf) m.

Lemma add_name_NoDup name l : NoDup l → NoDup (add_name name l).
Proof.
  intros. unfold add_name. case_bool_decide; [done|]. apply NoDup_app.
  split_and!; [done|set_solver|apply NoDup_singleton].
Qed.

Lemma elem_of_add_name name l x : x ∈ add_name name l ↔ x = name ∨ x ∈ l.
Proof. unfold add_name. case_bool_decide; set_solver. Qed.

Lemma entry_wf_entry m key n : table_wf m → entry_wf (entry m key n).
Proof.
  intros Hm. unfold entry. destruct (m !! key) as [s|] eqn:Hs; [by eapply Hm|].
  split; [apply NoDup_nil_2|apply map_Forall_empty].
Qed.

Lemma entry_wf_list s id : entry_wf s → NoDup (default [] (serviceSubscriptions s !! id)).
Proof.
  intros [_ Hs]. destruct (serviceSubscriptions s !! id) as [l|] eqn:Hl; [by eapply Hs|].
  apply NoDup_nil_2.
Qed.

Lemma ns_add_wf name ns m n : table_wf m → table_wf (ns_add name ns m n).
Proof.
  intros Hm. destruct (entry_wf_entry m (notif_key ns n) n Hm).
  apply map_Forall_insert_2; [|done]. split; [by apply add_name_NoDup|done].
Qed.

Lemma ns_del_wf name ns m n : table_wf m → table_wf (ns_del name ns m n).
Proof.
  intros Hm. unfold ns_del. destruct (m !! _) as [s|] eqn:Hs; [|done].
  destruct (Hm _ _ Hs). apply map_Forall_insert_2; [|done].
  split; [by apply without_NoDup|done].
Qed.

Lemma srv_add_wf name ns id m n : table_wf m → table_wf (srv_add name ns id m n).
Proof.
  intros Hm. pose proof (entry_wf_entry m (notif_key ns n) n Hm) as [? ?].
  apply map_Forall_insert_2; [|done]. split; [done|].
  apply map_Forall_insert_2; [|done]. by apply add_name_NoDup, entry_wf_list.
Qed.

Lemma srv_del_wf name ns id m n : table_wf m → table_wf (srv_del name ns id m n).
Proof.
  intros Hm. unfold srv_del. destruct (m !! _) as [s|] eqn:Hs; [|done].
  destruct (Hm _ _ Hs) as [? Hsrv]. destruct (_ !! id) as [l|] eqn:Hl; [|done].
  apply map_Forall_insert_2; [|done]. split; [done|].
  apply map_Forall_insert_2; [|done]. apply without_NoDup. by eapply Hsrv.
Qed.

Lemma entry_without_wf name s : entry_wf s → entry_wf (entry_without name s).
Proof.
  intros [? Hs]. split; [by apply without_NoDup|]. simpl.
  intros id l. rewrite lookup_fmap_Some. intros (l' & <- & Hl).
  apply without_NoDup. by eapply Hs.
Qed.

Lemma set_ns_subs_id s : set_ns_subs (namespaceSubscriptions s) s = s.
Proof. by destruct s. Qed.

Lemma set_srv_subs_id s : set_srv_subs (serviceSubscriptions s) s = s.
Proof. by destruct s. Qed.

Section runs.
Context {W Conn : Type} `{WebSocket W Conn, WsPolls Conn, E : GoEnv}.
Abbreviation ctx := (eaaContext W Conn).
Implicit Types (c : ctx) (m : table) (s : ConsumerSubscription).

Lemma set_subinfo_id c m : subscriptionInfo c = Some m → set_subinfo m c = c.
Proof. destruct c; simpl. by intros ->. Qed.

Lemma set_subinfo_twice c m m' : set_subinfo m' (set_subinfo m c) = set_subinfo m' c.
Proof. done. Qed.

Lemma get_sub_run c m key s :
  subscriptionInfo c = Some m → m !! key = Some s → get_sub key c = (Ret s, c).
Proof. intros Hc Hk. unfold get_sub. go_unfold. rewrite Hc. simpl. by rewrite Hk. Qed.

Lemma put_sub_info_run c m key s :
  subscriptionInfo c = Some m →
  put_sub_info key s c = (Ret tt, set_subinfo (<[key := s]> m) c).
Proof. intros Hc. unfold put_sub_info. go_unfold. by rewrite Hc. Qed.

Lemma initNamespaceNotification_run c m key n :
  subscriptionInfo c = Some m →
  initNamespaceNotification key n c = (Ret tt, set_subinfo (<[key := entry m key n]> m) c).
Proof.
  intros Hc. unfold initNamespaceNotification, entry. go_unfold. rewrite Hc. simpl.
  destruct (m !! key) as [s|] eqn:Hk; simpl.
  - by rewrite insert_id, set_subinfo_id.
  - by apply put_sub_info_run.
Qed.

Lemma initServiceNotification_run c m key id n :
  subscriptionInfo c = Some m →
  let s := entry m key n in
  let l := default [] (serviceSubscriptions s !! id) in
  initServiceNotification key id n c =
    (Ret tt, set_subinfo (<[key := set_srv_subs (<[id := l]> (serviceSubscriptions s)) s]> m) c).
Proof.
  intros Hc s l. unfold initServiceNotification.
  rewrite (bind_ret _ _ _ _ _ (initNamespaceNotification_run c m key n Hc)). fold s.
  set (c1 := set_subinfo _ c).
  assert (subscriptionInfo c1 = Some (<[key := s]> m)) as Hc1 by done.
  rewrite (bind_ret _ _ _ _ _ (get_sub_run c1 _ key s Hc1 (lookup_insert_eq _ _ _))).
  unfold l. destruct (serviceSubscriptions s !! id) as [l0|] eqn:Hl; simpl.
  - by rewrite (insert_id (serviceSubscriptions s) id l0), set_srv_subs_id by done.
  - rewrite (put_sub_info_run c1 _ key _ Hc1). unfold c1.
    by rewrite set_subinfo_twice, insert_insert_eq.
Qed.

(** A loop whose body computes a function of the table. *)
Lemma for_each_fold {A} (I : table → Prop) (f : table → A → table) (l : list A) body :
  (∀ c m n, subscriptionInfo c = Some m → I m →
     body n c = (Ret tt, set_subinfo (f m n) c) ∧ I (f m n)) →
  ∀ c m, subscriptionInfo c = Some m → I m →
    for_each l body c = (Ret tt, set_subinfo (fold_left f l m) c) ∧ I (fold_left f l m).
Proof.
  intros Hbody. induction l as [|n l IH]; intros c m Hc Hm; simpl.
  { by rewrite set_subinfo_id. }
  destruct (Hbody c m n Hc Hm) as [Hrun Hm1]. rewrite (bind_ret _ _ _ _ _ Hrun).
  destruct (IH (set_subinfo (f m n) c) (f m n) eq_refl Hm1) as [-> ?]. done.
Qed.

Lemma with_subinfo_run {A} (I : table → Prop) (f : table → A → table) msg code l body c m :
  (∀ c m n, subscriptionInfo c = Some m → I m →
     body n c = (Ret tt, set_subinfo (f m n) c) ∧ I (f m n)) →
  subscriptionInfo c = Some m → I m →
  with_subinfo msg (for_each l body) code c =
    (Ret (code, nil_err), set_subinfo (fold_left f l m) c) ∧ I (fold_left f l m).
Proof.
  intros Hbody Hc Hm. destruct (for_each_fold I f l body Hbody c m Hc Hm) as [Hrun ?].
  split; [|done]. unfold with_subinfo. rewrite (bind_ret go_get _ c c c) by done.
  rewrite Hc. by rewrite (bind_ret _ _ _ _ _ Hrun).
Qed.

Lemma addSubscriptionToNamespace_run name ns l c m :
  subscriptionInfo c = Some m → table_wf m →
  addSubscriptionToNamespace name ns l c =
    (Ret (201, nil_err), set_subinfo (fold_left (ns_add name ns) l m) c) ∧
  table_wf (fold_left (ns_add name ns) l m).
Proof.
  apply with_subinfo_run. clear. intros c m n Hc Hm. split; [|by apply ns_add_wf].
  set (key := notif_key ns n). set (s := entry m key n).
  rewrite (bind_ret _ _ _ _ _ (initNamespaceNotification_run c m key n Hc)).
  set (c1 := set_subinfo _ c).
  assert (get_sub key c1 = (Ret s, c1)) as Hget
    by (eapply get_sub_run; [done|apply lookup_insert_eq]).
  unfold getNamespaceSubscriptionIndex. go_unfold. rewrite Hget.
  unfold ns_add, add_name. fold key s. case_bool_decide as Hi.
  - rewrite index_of_none in Hi by lia. rewrite Hget.
    rewrite (put_sub_info_run c1 _ key _ eq_refl). unfold c1.
    by rewrite set_subinfo_twice, insert_insert_eq, bool_decide_eq_false_2.
  - rewrite index_of_none in Hi by lia. rewrite bool_decide_eq_true_2.
    + by rewrite set_ns_subs_id.
    + destruct (decide (name ∈ namespaceSubscriptions s)); [done|tauto].
Qed.

Lemma removeSubscriptionToNamespace_run name ns l c m :
  subscriptionInfo c = Some m → table_wf m →
  removeSubscriptionToNamespace name ns l c =
    (Ret (204, nil_err), set_subinfo (fold_left (ns_del name ns) l m) c) ∧
  table_wf (fold_left (ns_del name ns) l m).
Proof.
  apply with_subinfo_run. clear. intros c m n Hc Hm. split; [|by apply ns_del_wf].
  set (key := notif_key ns n). rewrite (bind_ret go_get _ c c c) by done.
  unfold ns_del. fold key. rewrite Hc. simpl.
  destruct (m !! key) as [s|] eqn:Hk; [|by rewrite set_subinfo_id].
  pose proof (get_sub_run c m key s Hc Hk) as Hget. destruct (Hm _ _ Hk) as [Hnd _].
  unfold getNamespaceSubscriptionIndex. go_unfold. rewrite Hget.
  case_bool_decide as Hi; rewrite index_of_none in Hi by lia.
  - rewrite Hget, (put_sub_info_run c m key _ Hc). rewrite cut_at_without; [done|done|].
    destruct (decide (name ∈ namespaceSubscriptions s)); tauto.
  - rewrite without_id.
    + by rewrite set_ns_subs_id, insert_id, set_subinfo_id.
    + destruct (decide (name ∈ namespaceSubscriptions s)); tauto.
Qed.

Lemma addSubscriptionToService_run name ns id l c m :
  subscriptionInfo c = Some m → table_wf m →
  addSubscriptionToService name ns id l c =
    (Ret (201, nil_err), set_subinfo (fold_left (srv_add name ns id) l m) c) ∧
  table_wf (fold_left (srv_add name ns id) l m).
Proof.
  apply with_subinfo_run. clear. intros c m n Hc Hm. split; [|by apply srv_add_wf].
  set (key := notif_key ns n). set (s := entry m key n).
  rewrite (bind_ret _ _ _ _ _ (initServiceNotification_run c m key id n Hc)). fold s.
  set (l0 := default [] (serviceSubscriptions s !! id)).
  set (s1 := set_srv_subs _ s). set (c1 := set_subinfo _ c).
  assert (get_sub key c1 = (Ret s1, c1)) as Hget
    by (eapply get_sub_run; [done|apply lookup_insert_eq]).
  assert (default [] (serviceSubscriptions s1 !! id) = l0) as Hl
    by (simpl; by rewrite lookup_insert_eq).
  unfold getServiceSubscriptionIndex. go_unfold. rewrite Hget, Hl.
  unfold srv_add, add_name. fold key s l0.
  case_bool_decide as Hi; rewrite index_of_none in Hi by lia.
  - rewrite bool_decide_eq_true_2; [done|]. destruct (decide (name ∈ l0)); tauto.
  - rewrite Hget, Hl, (put_sub_info_run c1 _ key _ eq_refl). unfold c1, s1.
    rewrite set_subinfo_twice, insert_insert_eq. simpl. rewrite insert_insert_eq.
    rewrite bool_decide_eq_false_2; [done|]. destruct (decide (name ∈ l0)); tauto.
Qed.

Lemma removeSubscriptionToService_run name ns id l c m :
  subscriptionInfo c = Some m → table_wf m →
  removeSubscriptionToService name ns id l c =
    (Ret (204, nil_err), set_subinfo (fold_left (srv_del name ns id) l m) c) ∧
  table_wf (fold_left (srv_del name ns id) l m).
Proof.
  apply with_subinfo_run. clear. intros c m n Hc Hm. split; [|by apply srv_del_wf].
  set (key := notif_key ns n). rewrite (bind_ret go_get _ c c c) by done.
  unfold srv_del. fold key. rewrite Hc. simpl.
  destruct (m !! key) as [s|] eqn:Hk; [|by rewrite set_subinfo_id].
  destruct (serviceSubscriptions s !! id) as [l0|] eqn:Hl; [|by rewrite set_subinfo_id].
  pose proof (get_sub_run c m key s Hc Hk) as Hget. destruct (Hm _ _ Hk) as [_ Hsrv].
  specialize (Hsrv _ _ Hl).
  unfold getServiceSubscriptionIndex. go_unfold. rewrite Hget, Hl. simpl.
  case_bool_decide as Hi; rewrite index_of_none in Hi by lia.
  - rewrite Hget, Hl. simpl. rewrite (put_sub_info_run c m key _ Hc).
    rewrite cut_at_without; [done|done|]. destruct (decide (name ∈ l0)); tauto.
  - rewrite without_id by (destruct (decide (name ∈ l0)); tauto).
    rewrite (insert_id (serviceSubscriptions s)), set_srv_subs_id by done.
    by rewrite insert_id, set_subinfo_id.
Qed.
End runs.
