(* ===== verification/EaaInv.v ===== *)
(** * Edge Application Agent: unsubscribing from everything, connections,
    queries and the invariant of the agent

    Continues the computation of the operations as pure functions: the loops
    over maps ([removeAllSubscriptions], [getConsumerSubscriptions]), the
    delivery of notifications and the opening of connections; then the
    invariant [eaa_inv] and its preservation by every handler. *)

From S2P Require Import Prelude Strconv Http Eaa EaaFacts.
From stdpp Require Import prelude gmap strings.
From Stdlib Require Import ZArith Ascii.

Local Open Scope Z_scope.

(** A loop without effects and without early return computes a fold. *)
Lemma for_acc_fold {S A B R} (l : list A) (body : A → B → GoM S (B + R)) (f : B → A → B) b s :
  (∀ x b', x ∈ l → body x b' s = (Ret (inl (f b' x)), s)) →
  for_acc l body b s = (Ret (inl (fold_left f l b)), s).
Proof.
  revert b. induction l as [|x l IH]; intros b Hbody; simpl; [done|].
  rewrite (bind_ret _ _ _ _ _ (Hbody x b ltac:(set_solver))). apply IH. set_solver.
Qed.

(** ** Lists of subscriptions *)

(** The reply lists the descriptor [n] under the name [u]. *)
Definition listed (subs : SubscriptionList) (u : URN) (n : NotificationDescriptor) : Prop :=
  ∃ s, s ∈ subs ∧ sub_URN s = u ∧ n ∈ sub_Notifications s.

Lemma listed_nil u n : ¬ listed [] u n.
Proof. intros (s & Hs & _). by apply not_elem_of_nil in Hs. Qed.

Lemma listed_cons s subs u n :
  listed (s :: subs) u n ↔ (sub_URN s = u ∧ n ∈ sub_Notifications s) ∨ listed subs u n.
Proof.
  unfold listed. split.
  - intros (s' & [->|Hs]%elem_of_cons & ? & ?); [by left|right; eauto].
  - intros [[? ?]|(s' & ? & ?)]; [exists s|exists s']; set_solver.
Qed.

Lemma listed_add id ns n subs u n' :
  listed (addSubscriptionToList id ns n subs) u n' ↔
  listed subs u n' ∨ (u = mkURN id ns ∧ n' = n).
Proof.
  induction subs as [|s subs IH]; simpl.
  - rewrite listed_cons. simpl. rewrite list_elem_of_singleton.
    pose proof (listed_nil u n'). naive_solver.
  - destruct (bool_decide_reflect (urn_ID (sub_URN s) = id)) as [Hid|],
      (bool_decide_reflect (urn_Namespace (sub_URN s) = ns)) as [Hns|]; simpl;
      rewrite !listed_cons; [|rewrite IH; tauto..].
    simpl. rewrite elem_of_app, list_elem_of_singleton.
    assert (sub_URN s = mkURN id ns) as -> by (destruct (sub_URN s); by subst).
    split; [intros [[? [?|?]]|?]|intros [[[? ?]|?]|[? ?]]]; subst; tauto.
Qed.

Lemma urns_add id ns n subs :
  let urns := sub_URN <$> addSubscriptionToList id ns n subs in
  (urns = sub_URN <$> subs) ∨
  ((mkURN id ns ∉ (sub_URN <$> subs)) ∧ urns = ((sub_URN <$> subs) ++ [mkURN id ns])).
Proof.
  induction subs as [|s subs IH]; cbn [addSubscriptionToList].
  { right. split; [apply not_elem_of_nil|done]. }
  destruct (bool_decide_reflect (urn_ID (sub_URN s) = id)),
    (bool_decide_reflect (urn_Namespace (sub_URN s) = ns)); cbn [andb]; [by left|..];
    (rewrite !fmap_cons; destruct IH as [->|[Hni ->]]; [by left|right]; split; [|done];
     apply not_elem_of_cons; split; [|done]; intros Heq; rewrite <- Heq in *; done).
Qed.

(** Each name heads one entry of the list. *)
Lemma urns_add_NoDup id ns n subs :
  NoDup (sub_URN <$> subs) → NoDup (sub_URN <$> addSubscriptionToList id ns n subs).
Proof.
  intros Hnd. destruct (urns_add id ns n subs) as [->|[Hni ->]]; [done|].
  apply NoDup_app. split_and!; [done|set_solver|apply NoDup_singleton].
Qed.

(** What one entry of the table adds to the list. *)
Definition list_services (name ns : string) (n : NotificationDescriptor)
    (subs : SubscriptionList) (kv : string * list string) : SubscriptionList :=
  if bool_decide (name ∈ kv.2) then addSubscriptionToList kv.1 ns n subs else subs.
Definition list_entry `{GoEnv} (name : string) (subs : SubscriptionList)
    (kv : UniqueNotif * ConsumerSubscription) : SubscriptionList :=
  fold_left (list_services name (un_namespace kv.1) (cs_notification kv.2))
    (map_range ["getConsumerSubscriptions"; un_namespace kv.1; un_notifName kv.1;
                un_notifVersion kv.1] (serviceSubscriptions kv.2))
    (if bool_decide (name ∈ namespaceSubscriptions kv.2)
     then addSubscriptionToList "" (un_namespace kv.1) (cs_notification kv.2) subs else subs).

(** The name under which an entry lists a subscriber. *)
Definition entry_lists (name : string) (key : UniqueNotif) (s : ConsumerSubscription)
    (u : URN) (n : NotificationDescriptor) : Prop :=
  n = cs_notification s ∧ urn_Namespace u = un_namespace key ∧
  ((urn_ID u = "" ∧ name ∈ namespaceSubscriptions s) ∨
   ∃ l, serviceSubscriptions s !! urn_ID u = Some l ∧ name ∈ l).

Lemma list_services_fold name ns n l subs u n' :
  listed (fold_left (list_services name ns n) l subs) u n' ↔
  listed subs u n' ∨
  (n' = n ∧ urn_Namespace u = ns ∧ ∃ l0, (urn_ID u, l0) ∈ l ∧ name ∈ l0).
Proof.
  revert subs. induction l as [|[id l0] l IH]; intros subs; simpl.
  { split; [by left|intros [?|(_ & _ & l0 & Hl & _)]; [done|by apply not_elem_of_nil in Hl]]. }
  rewrite IH. unfold list_services at 1. simpl. destruct u as [uid uns]. simpl.
  case_bool_decide as Hin.
  - rewrite listed_add. split.
    + intros [[?|[[= -> ->] ->]]|(-> & -> & l' & ? & ?)]; [tauto|..]; right;
        (split_and!; [done..|]); [exists l0|exists l']; set_solver.
    + intros [?|(-> & -> & l' & [[= -> ->]|Hl]%elem_of_cons & ?)]; [tauto|..]; [tauto|].
      right. split_and!; [done..|]. by exists l'.
  - split.
    + intros [?|(-> & -> & l' & ? & ?)]; [tauto|]. right. split_and!; [done..|].
      exists l'. set_solver.
    + intros [?|(-> & -> & l' & [[= -> ->]|Hl]%elem_of_cons & ?)]; [tauto|done|].
      right. split_and!; [done..|]. by exists l'.
Qed.

Lemma list_entry_listed `{GoEnv} name key s subs u n :
  listed (list_entry name subs (key, s)) u n ↔ listed subs u n ∨ entry_lists name key s u n.
Proof.
  unfold list_entry, entry_lists. simpl. rewrite list_services_fold.
  setoid_rewrite elem_of_map_range. destruct u as [uid uns]. simpl.
  case_bool_decide as Hin; [rewrite listed_add|].
  - split.
    + intros [[?|[[= -> ->] ->]]|(-> & -> & ?)]; [tauto|..]; right; (split_and!; [done..|]); tauto.
    + intros [?|(-> & -> & [[-> ?]|?])]; tauto.
  - tauto.
Qed.

Lemma list_entry_fold `{GoEnv} name l subs u n :
  listed (fold_left (list_entry name) l subs) u n ↔
  listed subs u n ∨ ∃ key s, (key, s) ∈ l ∧ entry_lists name key s u n.
Proof.
  revert subs. induction l as [|[key s] l IH]; intros subs; simpl.
  { split; [by left|intros [?|(? & ? & Hl & _)]; [done|by apply not_elem_of_nil in Hl]]. }
  rewrite IH, list_entry_listed. split.
  - intros [[?|?]|(k & s' & ? & ?)]; [tauto|..]; right; [exists key, s|exists k, s']; set_solver.
  - intros [?|(k & s' & [[= -> ->]|?]%elem_of_cons & ?)]; [tauto..|]. right. eauto.
Qed.

Lemma list_services_NoDup name ns n l subs :
  NoDup (sub_URN <$> subs) → NoDup (sub_URN <$> fold_left (list_services name ns n) l subs).
Proof.
  revert subs. induction l as [|kv l IH]; intros subs Hnd; simpl; [done|]. apply IH.
  unfold list_services. case_bool_decide; [by apply urns_add_NoDup|done].
Qed.

Lemma list_entry_NoDup `{GoEnv} name l subs :
  NoDup (sub_URN <$> subs) → NoDup (sub_URN <$> fold_left (list_entry name) l subs).
Proof.
  revert subs. induction l as [|kv l IH]; intros subs Hnd; simpl; [done|]. apply IH.
  apply list_services_NoDup. case_bool_decide; [by apply urns_add_NoDup|done].
Qed.

Lemma bool_decide_index name l :
  bool_decide (index_of name l 0 ≠ -1) = bool_decide (name ∈ l).
Proof.
  pose proof (index_of_none name l 0 ltac:(lia)) as Hi.
  apply bool_decide_ext. destruct (decide (name ∈ l)); tauto.
Qed.

(** ** Descriptors *)

(** An entry is described by a notification of its own name and version. *)
Definition described (m : table) : Prop :=
  map_Forall (λ key s, nd_Name (cs_notification s) = un_notifName key ∧
                       nd_Version (cs_notification s) = un_notifVersion key) m.

Lemma described_insert m ns n s' :
  described m → cs_notification s' = cs_notification (entry m (notif_key ns n) n) →
  described (<[notif_key ns n := s']> m).
Proof.
  intros Hm Hs'. apply map_Forall_insert_2; [|done]. rewrite Hs'. unfold entry.
  destruct (m !! notif_key ns n) as [s|] eqn:Hs; [by apply Hm|done].
Qed.

Lemma ns_add_described name ns m n : described m → described (ns_add name ns m n).
Proof. intros. by apply described_insert. Qed.
Lemma srv_add_described name ns id m n : described m → described (srv_add name ns id m n).
Proof. intros. by apply described_insert. Qed.

Lemma ns_del_described name ns m n : described m → described (ns_del name ns m n).
Proof.
  intros. unfold ns_del. destruct (m !! _) as [s|] eqn:Hs; [|done].
  apply described_insert; [done|]. unfold entry. by rewrite Hs.
Qed.
Lemma srv_del_described name ns id m n : described m → described (srv_del name ns id m n).
Proof.
  intros. unfold srv_del. destruct (m !! _) as [s|] eqn:Hs; [|done].
  destruct (serviceSubscriptions s !! id); [|done].
  apply described_insert; [done|]. unfold entry. by rewrite Hs.
Qed.

Lemma fold_left_inv {A B} (I : A → Prop) (f : A → B → A) l a :
  (∀ a b, I a → I (f a b)) → I a → I (fold_left f l a).
Proof. intros Hf. revert a. induction l as [|b l IH]; simpl; auto. Qed.

Lemma entry_without_described name m : described m → described (entry_without name <$> m).
Proof. intros Hm key s'. rewrite lookup_fmap_Some. intros (s & <- & Hs). apply (Hm _ _ Hs). Qed.

Lemma entry_without_table_wf name m : table_wf m → table_wf (entry_without name <$> m).
Proof.
  intros Hm key s'. rewrite lookup_fmap_Some. intros (s & <- & Hs).
  eapply entry_without_wf, Hm, Hs.
Qed.

(** The recipients of a notification: each once, the union of both lists. *)
Lemma getUniqueSubsList_app ns srv : getUniqueSubsList ns srv = ns ++ filter (λ x, x ∉ ns) srv.
Proof.
  unfold getUniqueSubsList.
  assert (∀ acc, fold_left (λ fullList subID,
    if bool_decide (subID ∈ ns) then fullList else fullList ++ [subID]) srv acc
    = acc ++ filter (λ x, x ∉ ns) srv) as Hl; [|apply Hl].
  induction srv as [|x srv IH]; intros acc; simpl; [by rewrite app_nil_r|].
  rewrite IH. case_bool_decide.
  - by rewrite filter_cons_False by tauto.
  - rewrite filter_cons_True by done. by rewrite <- app_assoc.
Qed.

Lemma elem_of_getUniqueSubsList ns srv x : x ∈ getUniqueSubsList ns srv ↔ x ∈ ns ∨ x ∈ srv.
Proof.
  rewrite getUniqueSubsList_app, elem_of_app, list_elem_of_filter.
  destruct (decide (x ∈ ns)); tauto.
Qed.

Lemma getUniqueSubsList_NoDup ns srv :
  NoDup ns → NoDup srv → NoDup (getUniqueSubsList ns srv).
Proof.
  intros. rewrite getUniqueSubsList_app. apply NoDup_app. split_and!; [done| |by apply NoDup_filter].
  intros x Hx. rewrite list_elem_of_filter. tauto.
Qed.

Section runs.
Context {W Conn : Type} `{WebSocket W Conn, WsPolls Conn, E : GoEnv}.
Abbreviation ctx := (eaaContext W Conn).
Implicit Types (c : ctx) (m : table) (s : ConsumerSubscription).

(** [for k, v := range m] whose body replaces the entry it visits. *)
Lemma for_each_update `{Countable K} {V} (put : gmap K V → ctx) (f : V → V) body l acc :
  NoDup l.*1 → (∀ kv, kv ∈ l → acc !! kv.1 = Some kv.2) →
  (∀ kv acc, kv ∈ l → acc !! kv.1 = Some kv.2 →
     body kv (put acc) = (Ret tt, put (<[kv.1 := f kv.2]> acc))) →
  for_each l body (put acc) =
    (Ret tt, put (fold_left (λ acc kv, <[kv.1 := f kv.2]> acc) l acc)).
Proof.
  revert acc. induction l as [|kv l IH]; intros acc Hnd Hacc Hbody; simpl; [done|].
  rewrite fmap_cons in Hnd. apply NoDup_cons in Hnd as [Hni Hnd].
  assert (kv ∈ kv :: l) as Hkv by set_solver.
  rewrite (bind_ret _ _ _ _ _ (Hbody kv acc Hkv (Hacc kv Hkv))).
  apply IH; [done| |intros; apply Hbody; set_solver].
  intros kv' Hin. rewrite lookup_insert_ne; [apply Hacc; set_solver|].
  intros Heq. apply Hni. rewrite Heq. by apply list_elem_of_fmap_2.
Qed.

Lemma for_each_range `{Countable K} {V} (put : gmap K V → ctx) (f : V → V) site body
    (m0 : gmap K V) :
  (∀ kv acc, m0 !! kv.1 = Some kv.2 → acc !! kv.1 = Some kv.2 →
     body kv (put acc) = (Ret tt, put (<[kv.1 := f kv.2]> acc))) →
  for_each (map_range site m0) body (put m0) = (Ret tt, put (f <$> m0)).
Proof.
  intros Hbody. rewrite (for_each_update put f).
  - f_equal. f_equal. rewrite (range_update site (λ _, f)). apply map_eq. intros k.
    rewrite map_lookup_imap, lookup_fmap. by destruct (m0 !! k).
  - apply NoDup_map_range_fst.
  - intros [k v] Hin. by apply elem_of_map_range in Hin.
  - intros [k v] acc Hin. apply elem_of_map_range in Hin. by apply Hbody.
Qed.

Lemma remove_from_entry_run name key s c m :
  subscriptionInfo c = Some m → m !! key = Some s → entry_wf s →
  remove_from_entry name key c =
    (Ret tt, set_subinfo (<[key := entry_without name s]> m) c).
Proof.
  intros Hc Hk [Hns Hsrv]. unfold remove_from_entry.
  rewrite (bind_ret _ _ _ _ _ (get_sub_run c m key s Hc Hk)).
  set (put := λ acc, set_subinfo (<[key := set_srv_subs acc s]> m) c).
  assert (c = put (serviceSubscriptions s)) as Hput.
  { unfold put. by rewrite set_srv_subs_id, insert_id, set_subinfo_id. }
  assert (∀ acc, get_sub key (put acc) = (Ret (set_srv_subs acc s), put acc)) as Hget.
  { intros acc. eapply get_sub_run; [done|apply lookup_insert_eq]. }
  assert (∀ acc s', put_sub_info key s' (put acc) = (Ret tt, set_subinfo (<[key := s']> m) c))
    as Hset.
  { intros acc s'. rewrite (put_sub_info_run (put acc) _ key s' eq_refl). unfold put.
    by rewrite set_subinfo_twice, insert_insert_eq. }
  rewrite Hput at 1.
  erewrite bind_ret.
  2: { apply (for_each_range put (without name)). intros [id l] acc Hl Hacc. simpl in *. rewrite RemoveSubscriber_NoDup by by eapply Hsrv.
       case_bool_decide.
       - rewrite (bind_ret _ _ _ _ _ (Hget acc)), Hset. done.
       - rewrite without_id, insert_id by done. done. }
  rewrite (bind_ret _ _ _ _ _ (Hget _)). simpl.
  rewrite RemoveSubscriber_NoDup by done. by rewrite Hset.
Qed.

Lemma removeAllSubscriptions_run name c m :
  subscriptionInfo c = Some m → table_wf m →
  removeAllSubscriptions name c =
    (Ret (204, nil_err), set_subinfo (entry_without name <$> m) c).
Proof.
  intros Hc Hm. unfold removeAllSubscriptions. rewrite (bind_ret go_get _ c c c) by done.
  rewrite Hc. set (put := λ acc, set_subinfo acc c).
  assert (c = put m) as Hput by (unfold put; by rewrite set_subinfo_id).
  rewrite Hput at 1.
  erewrite bind_ret; [done|]. apply (for_each_range put (entry_without name)).
  intros [key s] acc Hk Hacc. simpl in *.
  rewrite (remove_from_entry_run name key s (put acc) acc); [done|done|done|by eapply Hm].
Qed.

Lemma getConsumerSubscriptions_run name c m :
  subscriptionInfo c = Some m →
  getConsumerSubscriptions name c =
    (Ret (fold_left (list_entry name) (map_range ["getConsumerSubscriptions"] m) [],
          nil_err), c).
Proof.
  intros Hc. unfold getConsumerSubscriptions. rewrite (bind_ret go_get _ c c c) by done.
  rewrite Hc. erewrite bind_ret; [|apply (for_acc_fold _ _ (list_entry name))]; [done|].
  intros [key s] subs Hk%elem_of_map_range.
  pose proof (get_sub_run c m key s Hc Hk) as Hget.
  unfold getNamespaceSubscriptionIndex. go_unfold. rewrite Hget, bool_decide_index.
  apply for_acc_fold. intros [id l] b Hl%elem_of_map_range. simpl in *.
  unfold getServiceSubscriptionIndex. go_unfold. rewrite Hget, Hl. simpl.
  by rewrite bool_decide_index.
Qed.

(** Sending to consumers whose connections are all set up. *)
Definition conns_ready (cc : gmap string (option Conn)) : Prop := map_Forall (λ _, is_Some) cc.

(** The connection of a consumer, if there is one. *)
Definition conn_of (cc : gmap string (option Conn)) (name : string) : option Conn :=
  cc !! name ≫= id.

Lemma send_one_run c cc name msg :
  consumerConnections c = Some cc → conns_ready cc →
  ∃ e, sendNotificationToSubscriber name msg c =
    (Ret e, set_ws (match conn_of cc name with
                    | Some conn => (ws_write conn (WsText msg) (websockets c)).2
                    | None => websockets c end) c).
Proof.
  intros Hcc Hready. unfold sendNotificationToSubscriber, conn_of.
  rewrite (bind_ret go_get _ c c c) by done. rewrite Hcc. simpl.
  destruct (cc !! name) as [o|] eqn:Ho; simpl; [|eexists; by destruct c].
  destruct (Hready _ _ Ho) as [conn ->].
  rewrite (bind_ret _ _ c nil_err c) by done. rewrite bool_decide_eq_false_2 by tauto.
  rewrite (bind_ret go_get _ c c c) by done. rewrite Hcc. simpl. rewrite Ho. simpl.
  unfold call_ws. go_unfold. destruct (ws_write _ _ _) as [e w']. by exists e.
Qed.

Lemma send_all_run c cc names msg :
  consumerConnections c = Some cc → conns_ready cc →
  for_each names (λ subID, sendNotificationToSubscriber subID msg;; mret tt) c =
    (Ret tt, set_ws (fold_left (λ w conn, (ws_write conn (WsText msg) w).2)
                       (omap (conn_of cc) names) (websockets c)) c).
Proof.
  intros Hcc Hready. revert c Hcc. induction names as [|x names IH]; intros c Hcc; simpl.
  { by destruct c. }
  destruct (send_one_run c cc x msg Hcc Hready) as [e He].
  rewrite (bind_ret _ _ _ tt _) by by rewrite (bind_ret _ _ _ _ _ He).
  rewrite IH by done. by destruct (conn_of cc x).
Qed.

(** ** The invariant *)

(** The maps exist, no list of subscribers has a name twice, the descriptors
    are those of their keys, and between requests every connection is set
    up. *)
Definition eaa_inv c : Prop :=
  ∃ sv cc m, serviceInfo c = Some sv ∧ consumerConnections c = Some cc ∧
    subscriptionInfo c = Some m ∧ (table_wf m ∧ described m) ∧ conns_ready cc.

Lemma eaa_inv_init w : eaa_inv (eaa_init w).
Proof. exists ∅, ∅, ∅. split_and!; try done; apply map_Forall_empty. Qed.

Lemma eaa_inv_table c m : eaa_inv c → table_wf m → described m → eaa_inv (set_subinfo m c).
Proof. intros (sv & cc & m' & ? & ? & ? & ? & ?) ? ?. by exists sv, cc, m. Qed.

Lemma eaa_inv_services c sv : eaa_inv c → eaa_inv (set_services sv c).
Proof. intros (sv' & cc & m & ? & ? & ? & ? & ?). by exists sv, cc, m. Qed.

Lemma eaa_inv_ws c w : eaa_inv c → eaa_inv (set_ws w c).
Proof. intros (sv & cc & m & ? & ? & ? & ? & ?). by exists sv, cc, m. Qed.

Lemma eaa_inv_conns c cc : eaa_inv c → conns_ready cc → eaa_inv (set_conns cc c).
Proof. intros (sv & cc' & m & ? & ? & ? & ? & ?) ?. by exists sv, cc, m. Qed.

(** The connections and the library after [createWsConn]: a previous
    connection is told to close and closed before the new one is opened. *)
Definition close_prev (cc : gmap string (option Conn)) (name : string) (w : W) : W :=
  match conn_of cc name with
  | Some conn => (ws_close conn (ws_write conn WsClose w).2).2
  | None => w
  end.

Lemma createWsConn_run name c cc :
  consumerConnections c = Some cc → conns_ready cc →
  let r := ws_upgrade (close_prev cc name (websockets c)) in
  ∃ e, createWsConn name name c =
    (Ret (0, e), set_ws r.2 (set_conns (match r.1 with
                                        | Some conn => <[name := Some conn]> cc
                                        | None => delete name cc end) c)) ∧
    (e = nil_err ↔ is_Some r.1).
Proof.
  intros Hcc Hready r. unfold createWsConn. rewrite bool_decide_eq_false_2 by tauto.
  rewrite (bind_ret go_get _ c c c) by done. rewrite Hcc. simpl.
  assert (∃ cc', (match cc !! name with
     | None => mret tt
     | Some None => go_panic "nil pointer dereference"
     | Some (Some prevConn) =>
         call_ws (ws_write prevConn WsClose);; call_ws (ws_close prevConn);; delete_conn name
     end) c = (Ret tt, set_ws (close_prev cc name (websockets c)) (set_conns cc' c)) ∧
     (∀ o, <[name := o]> cc' = <[name := o]> cc) ∧ delete name cc' = delete name cc) as Hclose.
  { unfold close_prev, conn_of. destruct (cc !! name) as [o|] eqn:Ho; simpl.
    - destruct (Hready _ _ Ho) as [conn ->]. exists (delete name cc). simpl.
      unfold call_ws, delete_conn. go_unfold.
      destruct (ws_write conn WsClose (websockets c)) as [e1 w1]. simpl.
      destruct (ws_close conn w1) as [e2 w2]. simpl. rewrite Hcc.
      split_and!; [done|intros; apply insert_delete_eq|by rewrite delete_delete_eq].
    - exists cc. split_and!; [|done..]. destruct c; simpl in *. by subst. }
  destruct Hclose as (cc' & Hrun & Hins & Hdel). rewrite (bind_ret _ _ _ _ _ Hrun).
  unfold put_conn, call_ws, delete_conn. go_unfold. simpl. rewrite Hins.
  unfold r. destruct (ws_upgrade _) as [[conn|] w']; simpl.
  - exists nil_err. rewrite insert_insert_eq. split; [done|]. split; [by eexists|done].
  - exists (errors_New "upgrade failed"). rewrite delete_insert_eq. split; [done|].
    split; [done|intros [? ?]; done].
Qed.

Lemma createWsConn_inv name host : triple eaa_inv (createWsConn name host) (λ _, eaa_inv).
Proof.
  intros c Hc. destruct (decide (name = host)) as [<-|Hne].
  - pose proof Hc as (sv & cc & m & ? & Hcc & ? & ? & Hready).
    destruct (createWsConn_run name c cc Hcc Hready) as (e & -> & _).
    eexists _, _. split; [done|]. apply eaa_inv_ws, eaa_inv_conns; [done|].
    destruct (_ : option Conn).
    + by apply map_Forall_insert_2.
    + by apply map_Forall_delete.
  - unfold createWsConn. rewrite bool_decide_eq_true_2 by done. by eexists _, c.
Qed.
End runs.
