(* ===== verification/EaaSpec.v ===== *)
(** * Edge Application Agent: its abstract state

    The abstract state of the agent is the relation between consumers,
    notifications and targets (a namespace, or one of its services) and the
    registered services; this file says what each request does to it, and that
    the table of subscriptions computed by the operations implements the
    relation. *)

From S2P Require Import Prelude Strconv Http Eaa EaaFacts EaaInv.
From stdpp Require Import prelude gmap strings.
From Stdlib Require Import ZArith Ascii.

Local Open Scope Z_scope.

(** ** The abstract state *)

(** [subscribed m who key tgt]: [who] is a subscriber of the notification
    [key] of the whole namespace ([tgt = None]) or of one service. *)
Definition subscribed (m : table) (who : string) (key : UniqueNotif) (tgt : option string) : Prop :=
  ∃ s, m !! key = Some s ∧
    match tgt with
    | None => who ∈ namespaceSubscriptions s
    | Some id => ∃ l, serviceSubscriptions s !! id = Some l ∧ who ∈ l
    end.

(** What a request of [name] does to that relation. *)
Definition subscribed_spec (name : string) (r : eaaRequest)
    (V : string → UniqueNotif → option string → Prop) who key tgt : Prop :=
  match r with
  | EaaSubNamespace ns (BodyOf l) =>
      V who key tgt ∨ (who = name ∧ tgt = None ∧ key ∈ notif_key ns <$> l)
  | EaaSubService ns id (BodyOf l) =>
      V who key tgt ∨ (who = name ∧ tgt = Some id ∧ key ∈ notif_key ns <$> l)
  | EaaUnsubNamespace ns (BodyOf l) =>
      V who key tgt ∧ ¬ (who = name ∧ tgt = None ∧ key ∈ notif_key ns <$> l)
  | EaaUnsubService ns id (BodyOf l) =>
      V who key tgt ∧ ¬ (who = name ∧ tgt = Some id ∧ key ∈ notif_key ns <$> l)
  | EaaUnsubAll => V who key tgt ∧ who ≠ name
  | _ => V who key tgt
  end.

(** What a request does to the registered services. *)
Definition services_spec (name : string) (r : eaaRequest) (sv : gmap string Service)
    : gmap string Service :=
  match r with
  | EaaRegister (BodyOf serv) =>
      match CommonNameStringToURN name with
      | (u, None) =>
          <[name := mkService (Some u) (srv_Description serv) (srv_EndpointURI serv)
              (srv_Status serv) (validServiceNotifications <$> srv_Notifications serv)
              (srv_Info serv)]> sv
      | _ => sv
      end
  | EaaDeregister => delete name sv
  | _ => sv
  end.

(** The status of a request; a successful upgrade has no HTTP status. *)
Definition status_spec (name : string) (r : eaaRequest) (sv : gmap string Service) : option Z :=
  match r with
  | EaaDeregister => Some (if bool_decide (is_Some (sv !! name)) then 204 else 404)
  | EaaGetNotifications host => if bool_decide (name = host) then None else Some 401
  | EaaGetServices | EaaGetSubscriptions => Some 200
  | EaaPush (BodyOf _) =>
      match CommonNameStringToURN name with
      | (_, Some _) => Some 401
      | (_, None) => Some (if bool_decide (is_Some (sv !! name)) then 202 else 500)
      end
  | EaaRegister (BodyOf _) =>
      match CommonNameStringToURN name with (_, Some _) => Some 500 | (_, None) => Some 200 end
  | EaaSubNamespace _ (BodyOf _) | EaaSubService _ _ (BodyOf _) => Some 201
  | EaaUnsubAll | EaaUnsubNamespace _ (BodyOf _) | EaaUnsubService _ _ (BodyOf _) => Some 204
  | _ => Some 500
  end.

(** ** The table implements the relation *)

(** The table after a request. *)
Definition table_step (name : string) (r : eaaRequest) (m : table) : table :=
  match r with
  | EaaSubNamespace ns (BodyOf l) => fold_left (ns_add name ns) l m
  | EaaSubService ns id (BodyOf l) => fold_left (srv_add name ns id) l m
  | EaaUnsubNamespace ns (BodyOf l) => fold_left (ns_del name ns) l m
  | EaaUnsubService ns id (BodyOf l) => fold_left (srv_del name ns id) l m
  | EaaUnsubAll => entry_without name <$> m
  | _ => m
  end.

Section table.
Implicit Types (m : table) (who name ns id : string) (key : UniqueNotif).

Lemma fold_adds {A} (f : table → A → table) (V : table → Prop) (P : A → Prop) l m :
  (∀ m n, V (f m n) ↔ V m ∨ P n) →
  V (fold_left f l m) ↔ V m ∨ ∃ n, n ∈ l ∧ P n.
Proof.
  intros Hf. revert m. induction l as [|n l IH]; intros m; simpl.
  { split; [by left|intros [?|(? & Hn & _)]; [done|by apply not_elem_of_nil in Hn]]. }
  rewrite IH, Hf. split.
  - intros [[?|?]|(n' & ? & ?)]; [tauto|right; exists n|right; exists n']; set_solver.
  - intros [?|(n' & [->|?]%elem_of_cons & ?)]; [tauto..|]. right. by exists n'.
Qed.

Lemma fold_dels {A} (f : table → A → table) (V : table → Prop) (P : A → Prop) l m :
  (∀ m n, V (f m n) ↔ V m ∧ ¬ P n) →
  V (fold_left f l m) ↔ V m ∧ ¬ ∃ n, n ∈ l ∧ P n.
Proof.
  intros Hf. revert m. induction l as [|n l IH]; intros m; simpl.
  { split; [|tauto]. intros ?. split; [done|]. intros (? & Hn & _).
    by apply not_elem_of_nil in Hn. }
  rewrite IH, Hf. split.
  - intros [[? ?] Hno]. split; [done|]. intros (n' & [->|?]%elem_of_cons & ?); eauto.
  - intros [? Hno]. split_and!; [done| |].
    + intros ?. apply Hno. exists n. set_solver.
    + intros (n' & ? & ?). apply Hno. exists n'. set_solver.
Qed.

Lemma subscribed_insert m key s who key' tgt :
  subscribed (<[key := s]> m) who key' tgt ↔
  if decide (key = key') then subscribed {[key := s]} who key tgt
  else subscribed m who key' tgt.
Proof.
  unfold subscribed. case_decide as Hk; [subst|].
  - by rewrite lookup_insert_eq, lookup_singleton_eq.
  - by rewrite lookup_insert_ne.
Qed.

Lemma subscribed_at key s who tgt :
  subscribed {[key := s]} who key tgt ↔
  match tgt with
  | None => who ∈ namespaceSubscriptions s
  | Some id => ∃ l, serviceSubscriptions s !! id = Some l ∧ who ∈ l
  end.
Proof.
  unfold subscribed. rewrite lookup_singleton_eq. split; [by intros (? & [= <-] & ?)|eauto].
Qed.

Lemma subscribed_entry m ns n who tgt :
  subscribed m who (notif_key ns n) tgt ↔
  subscribed {[notif_key ns n := entry m (notif_key ns n) n]} who (notif_key ns n) tgt.
Proof.
  rewrite subscribed_at. unfold subscribed, entry.
  destruct (m !! notif_key ns n) as [s|] eqn:Hs; simpl.
  - split; [by intros (? & [= <-] & ?)|eauto].
  - split; [by intros (? & ? & _)|]. destruct tgt.
    + by intros (? & ?%lookup_empty_Some & _).
    + by intros ?%not_elem_of_nil.
Qed.

Lemma subscribed_ns_add name ns m n who key tgt :
  subscribed (ns_add name ns m n) who key tgt ↔
  subscribed m who key tgt ∨ (who = name ∧ tgt = None ∧ key = notif_key ns n).
Proof.
  unfold ns_add. rewrite subscribed_insert. case_decide as Hk; [subst key|].
  - rewrite (subscribed_entry m ns n), !subscribed_at. destruct tgt; simpl.
    + naive_solver.
    + rewrite elem_of_add_name. tauto.
  - split; [tauto|]. intros [?|(_ & _ & ->)]; done.
Qed.

Lemma subscribed_srv_add name ns id m n who key tgt :
  subscribed (srv_add name ns id m n) who key tgt ↔
  subscribed m who key tgt ∨ (who = name ∧ tgt = Some id ∧ key = notif_key ns n).
Proof.
  unfold srv_add. rewrite subscribed_insert. case_decide as Hk; [subst key|].
  2: { split; [tauto|]. intros [?|(_ & _ & ->)]; done. }
  rewrite (subscribed_entry m ns n), !subscribed_at. set (s := entry _ _ _).
  destruct tgt as [id'|]; simpl; [|intuition congruence].
  destruct (decide (id' = id)) as [->|].
  - rewrite lookup_insert_eq. split.
    + intros (? & [= <-] & [->|Hin]%elem_of_add_name); [tauto|]. left.
      destruct (serviceSubscriptions s !! id); [by eexists|by apply not_elem_of_nil in Hin].
    + intros Hor. eexists. split; [done|]. apply elem_of_add_name.
      destruct Hor as [(l & -> & ?)|[-> _]]; tauto.
  - rewrite lookup_insert_ne by done. naive_solver.
Qed.

Lemma subscribed_ns_del name ns m n who key tgt :
  subscribed (ns_del name ns m n) who key tgt ↔
  subscribed m who key tgt ∧ ¬ (who = name ∧ tgt = None ∧ key = notif_key ns n).
Proof.
  unfold ns_del. destruct (m !! notif_key ns n) as [s|] eqn:Hs.
  - rewrite subscribed_insert. case_decide as Hk; [subst key|].
    2: { split; [|tauto]. intros ?. split; [done|]. by intros (_ & _ & ->). }
    rewrite (subscribed_entry m ns n), !subscribed_at. unfold entry. rewrite Hs.
    destruct tgt; simpl; [naive_solver|]. rewrite elem_of_without. tauto.
  - split; [|tauto]. intros Hv. split; [done|]. intros (_ & _ & ->).
    destruct Hv as (? & Hs' & _). by rewrite Hs in Hs'.
Qed.

Lemma subscribed_srv_del name ns id m n who key tgt :
  subscribed (srv_del name ns id m n) who key tgt ↔
  subscribed m who key tgt ∧ ¬ (who = name ∧ tgt = Some id ∧ key = notif_key ns n).
Proof.
  unfold srv_del. destruct (m !! notif_key ns n) as [s|] eqn:Hs.
  2: { split; [|tauto]. intros Hv. split; [done|]. intros (_ & _ & ->).
       destruct Hv as (? & Hs' & _). by rewrite Hs in Hs'. }
  destruct (serviceSubscriptions s !! id) as [l|] eqn:Hl.
  - rewrite subscribed_insert. case_decide as Hk; [subst key|].
    2: { split; [|tauto]. intros ?. split; [done|]. by intros (_ & _ & ->). }
    rewrite (subscribed_entry m ns n), !subscribed_at. unfold entry. rewrite Hs. simpl.
    destruct tgt as [id'|]; simpl; [|naive_solver].
    destruct (decide (id' = id)) as [->|]; [|rewrite lookup_insert_ne by done; naive_solver].
    rewrite lookup_insert_eq, Hl. split.
    + intros (? & [= <-] & [? ?]%elem_of_without). split; [by exists l|tauto].
    + intros [(? & [= <-] & ?) Hno]. eexists. split; [done|]. apply elem_of_without. tauto.
  - split; [|tauto]. intros Hv. split; [done|]. intros (_ & -> & ->).
    destruct Hv as (? & Hs' & ? & Hl' & _). rewrite Hs in Hs'. simplify_eq.
Qed.

Lemma subscribed_without name m who key tgt :
  subscribed (entry_without name <$> m) who key tgt ↔ subscribed m who key tgt ∧ who ≠ name.
Proof.
  unfold subscribed. rewrite lookup_fmap. destruct (m !! key) as [s|]; simpl; [|naive_solver].
  split.
  - intros (? & [= <-] & Hin). destruct tgt as [id|]; simpl in Hin.
    + rewrite lookup_fmap in Hin. destruct Hin as (l & Hl & Hin).
      apply fmap_Some in Hl as (l' & Hl & ->). apply elem_of_without in Hin. naive_solver.
    + apply elem_of_without in Hin. naive_solver.
  - intros [(? & [= <-] & Hin) ?]. eexists. split; [done|]. destruct tgt as [id|]; simpl.
    + destruct Hin as (l & Hl & ?). exists (without name l).
      rewrite lookup_fmap, Hl. split; [done|]. by apply elem_of_without.
    + by apply elem_of_without.
Qed.

Lemma elem_of_keys ns (l : list NotificationDescriptor) key :
  key ∈ notif_key ns <$> l ↔ ∃ n, n ∈ l ∧ key = notif_key ns n.
Proof. rewrite list_elem_of_fmap. naive_solver. Qed.

(** The table implements the relation. *)
Lemma table_step_spec name r m who key tgt :
  subscribed (table_step name r m) who key tgt ↔
  subscribed_spec name r (subscribed m) who key tgt.
Proof.
  destruct r as [| | | |b|b|ns b|ns id b| |ns b|ns id b]; try destruct b; simpl; try done.
  - rewrite elem_of_keys, (fold_adds _ (λ m, subscribed m who key tgt) _ _ _
      (λ m n, subscribed_ns_add name ns m n who key tgt)). naive_solver.
  - rewrite elem_of_keys, (fold_adds _ (λ m, subscribed m who key tgt) _ _ _
      (λ m n, subscribed_srv_add name ns id m n who key tgt)). naive_solver.
  - apply subscribed_without.
  - rewrite elem_of_keys, (fold_dels _ (λ m, subscribed m who key tgt) _ _ _
      (λ m n, subscribed_ns_del name ns m n who key tgt)). naive_solver.
  - rewrite elem_of_keys, (fold_dels _ (λ m, subscribed m who key tgt) _ _ _
      (λ m n, subscribed_srv_del name ns id m n who key tgt)). naive_solver.
Qed.

Lemma table_step_described name r m : described m → described (table_step name r m).
Proof.
  intros Hm. destruct r as [| | | |b|b|ns b|ns id b| |ns b|ns id b]; try destruct b;
    simpl; try done; try (apply fold_left_inv; [|done]; intros).
  - by apply ns_add_described.
  - by apply srv_add_described.
  - by apply entry_without_described.
  - by apply ns_del_described.
  - by apply srv_del_described.
Qed.
End table.
