(* ===== verification/EaaProps.v ===== *)
(** * Edge Application Agent: what it promises

    Every handler returns and answers with the status of its case; the
    subscriptions and the services of the agent follow their specification;
    queries and deliveries follow the subscriptions. *)

From S2P Require Import Prelude Strconv Http Eaa EaaFacts EaaInv EaaSpec.
From stdpp Require Import prelude gmap strings.
From Stdlib Require Import ZArith Ascii.

Local Open Scope Z_scope.

Section agent.
Context {W Conn : Type} `{WebSocket W Conn, WsPolls Conn, E : GoEnv}.
Abbreviation ctx := (eaaContext W Conn).
Abbreviation writer := (ResponseWriter eaaPayload).
Implicit Types (c : ctx) (w : writer) (m : table).

(** What a handler does: it returns, keeps the invariant, and leaves the
    table [m'], the services [sv'] and a reply with the status [code]. *)
Definition handled c (r : outcome writer * ctx) m' sv' (code : option Z) : Prop :=
  ∃ w' c', r = (Ret w', c') ∧ eaa_inv c' ∧ subscriptionInfo c' = Some m' ∧
    serviceInfo c' = Some sv' ∧ ∀ k, code = Some k → status_of w' = k.

Section handlers.
Context (c : ctx) (m : table) (sv : gmap string Service) (w : writer).
Context (Hinv : eaa_inv c) (Hm : subscriptionInfo c = Some m).
Context (Hsv : serviceInfo c = Some sv) (Hw : rw_sent w = None).

Lemma sv_wf : table_wf m ∧ described m.
Proof. destruct Hinv as (? & ? & ? & ? & ? & ? & ? & ?). by simplify_eq. Qed.

Lemma handled_same w' code :
  (∀ k, code = Some k → status_of w' = k) → handled c (Ret w', c) m sv code.
Proof. intros. by exists w', c. Qed.

(** An operation that changes the table. *)
Lemma handled_table (op : GoM ctx (Z * error)) m' code :
  op c = (Ret (code, nil_err), set_subinfo m' c) → table_wf m' → described m' →
  handled c ((r ← op; mret (WriteHeader r.1 (Header_Set content_type json_utf8 w))) c)
    m' sv (Some code).
Proof.
  intros Hrun ? ?. rewrite (bind_ret _ _ _ _ _ Hrun). eexists _, _.
  split; [done|]. split; [by apply eaa_inv_table|]. split; [done|]. split; [done|].
  intros k [= <-]. by apply status_WriteHeader_new.
Qed.

Lemma bad_body : status_of (WriteHeader 500 (Header_Set content_type json_utf8 w)) = 500.
Proof. by apply status_WriteHeader_new. Qed.

Lemma RegisterApplication_run name b :
  handled c (RegisterApplication name b w c) m (services_spec name (EaaRegister b) sv)
    (status_spec name (EaaRegister b) sv).
Proof.
  unfold RegisterApplication, with_body.
  destruct b as [| |serv]; [apply handled_same; simpl; intros ? [= <-]; apply bad_body..|].
  unfold addService. go_unfold. rewrite Hsv. simpl.
  destruct (CommonNameStringToURN name) as [u [e|]]; simpl.
  - apply handled_same. intros ? [= <-]. apply bad_body.
  - eexists _, _. split; [done|]. split; [by apply eaa_inv_services|].
    split_and!; [done..|]. intros ? [= <-]. by apply status_WriteHeader_new.
Qed.

Lemma DeregisterApplication_run name :
  handled c (DeregisterApplication name w c) m (delete name sv)
    (status_spec name EaaDeregister sv).
Proof.
  unfold DeregisterApplication, removeService. go_unfold. rewrite Hsv. simpl.
  destruct (sv !! name) as [s|] eqn:Hs; simpl.
  - eexists _, _. split; [done|]. split; [by apply eaa_inv_services|].
    split_and!; [done..|]. intros ? [= <-]. by apply status_WriteHeader_new.
  - rewrite delete_id by done. apply handled_same. intros ? [= <-].
    by apply status_WriteHeader_new.
Qed.

Lemma GetNotifications_run name host :
  handled c (GetNotifications name host w c) m sv
    (status_spec name (EaaGetNotifications host) sv).
Proof.
  unfold GetNotifications. rewrite (bind_ret go_get _ c c c) by done. rewrite Hsv. simpl.
  destruct (bool_decide_reflect (name = host)) as [<-|Hne].
  - destruct Hinv as (? & cc & ? & ? & Hcc & ? & ? & Hready).
    pose proof (createWsConn_inv name name c Hinv) as (? & ? & Hc' & Hinv').
    destruct (createWsConn_run name c cc Hcc Hready) as (e & Hrun & _).
    rewrite Hrun in Hc'. simplify_eq. rewrite (bind_ret _ _ _ _ _ Hrun).
    case_bool_decide; [rewrite bool_decide_eq_false_2 by tauto|];
      (eexists _, _; split_and!; [done..|]; done).
  - unfold createWsConn. rewrite bool_decide_eq_true_2 by done.
    apply handled_same. intros ? [= <-]. by apply status_WriteHeader_new.
Qed.

(** The recipients of a notification of the producer [u]. *)
Definition recipients (u : URN) (n : NotificationFromProducer) : list string :=
  match m !! mkUniqueNotif (urn_Namespace u) (nfp_Name n) (nfp_Version n) with
  | None => []
  | Some s =>
      match serviceSubscriptions s !! urn_ID u with
      | None => namespaceSubscriptions s
      | Some l => getUniqueSubsList (namespaceSubscriptions s) l
      end
  end.

(** The message they get. *)
Definition message (u : URN) (n : NotificationFromProducer) : NotificationToConsumer :=
  mkNotificationToConsumer (nfp_Name n) (nfp_Version n) (nfp_Payload n) u.

Lemma recipients_NoDup u n : NoDup (recipients u n).
Proof.
  destruct sv_wf as [Hwf _]. unfold recipients.
  destruct (m !! _) as [s|] eqn:Hs; [|apply NoDup_nil_2]. destruct (Hwf _ _ Hs) as [? Hsrv].
  destruct (serviceSubscriptions s !! urn_ID u) as [l|] eqn:Hl; [|done].
  apply getUniqueSubsList_NoDup; [done|]. by eapply Hsrv.
Qed.

Lemma elem_of_recipients u n who :
  let key := mkUniqueNotif (urn_Namespace u) (nfp_Name n) (nfp_Version n) in
  who ∈ recipients u n ↔
  subscribed m who key None ∨ subscribed m who key (Some (urn_ID u)).
Proof.
  intros key. unfold recipients, subscribed. fold key.
  destruct (m !! key) as [s|].
  2: { split; [by intros ?%not_elem_of_nil|by intros [(? & ? & _)|(? & ? & _)]]. }
  destruct (serviceSubscriptions s !! urn_ID u) as [l|] eqn:Hl.
  - rewrite elem_of_getUniqueSubsList. split.
    + intros [?|?]; [left; by exists s|right; exists s; split; [done|by exists l]].
    + intros [(? & [= <-] & ?)|(? & [= <-] & ? & ? & ?)]; simplify_eq; tauto.
  - split; [left; by exists s|].
    intros [(? & [= <-] & ?)|(? & [= <-] & ? & ? & _)]; by simplify_eq.
Qed.

Lemma push_run name n u cc :
  consumerConnections c = Some cc →
  CommonNameStringToURN name = (u, nil_err) → is_Some (sv !! name) →
  PushNotificationToSubscribers name (BodyOf n) w c =
    (Ret (WriteHeader 202 (Header_Set content_type json_utf8 w)),
     set_ws (fold_left (λ ws conn, (ws_write conn (WsText (message u n)) ws).2)
               (omap (conn_of cc) (recipients u n)) (websockets c)) c).
Proof.
  intros Hcc Hu [s Hs]. unfold PushNotificationToSubscribers, with_body.
  assert (conns_ready cc) as Hready
    by (destruct Hinv as (? & ? & ? & ? & ? & ? & ? & ?); by simplify_eq).
  set (c' := set_ws _ c). rewrite (bind_ret _ _ c (202, nil_err) c'); [done|]. unfold c'.
  unfold sendNotificationToAllSubscribers.
  rewrite (bind_ret go_get _ c c c) by done. rewrite Hsv, Hu, Hs, Hm. simpl.
  unfold recipients. destruct (m !! _) as [s0|] eqn:Hk; simpl; [|by destruct c].
  erewrite bind_ret; [done|]. by apply (send_all_run c cc).
Qed.

Lemma PushNotificationToSubscribers_run name b :
  handled c (PushNotificationToSubscribers name b w c) m sv
    (status_spec name (EaaPush b) sv).
Proof.
  destruct b as [| |n]; [apply handled_same; simpl; intros ? [= <-]; apply bad_body..|].
  destruct (CommonNameStringToURN name) as [u e] eqn:Hu. unfold status_spec. rewrite Hu.
  assert (∀ code k, Some code = Some k →
    status_of (WriteHeader code (Header_Set content_type json_utf8 w)) = k) as Hcode.
  { intros ? ? [= <-]. by apply status_WriteHeader_new. }
  destruct e as [e|].
  { unfold PushNotificationToSubscribers, with_body, sendNotificationToAllSubscribers.
    go_unfold. rewrite Hsv, Hu. simpl. by apply handled_same, Hcode. }
  case_bool_decide as Hs.
  - pose proof Hinv as (? & cc & ? & ? & Hcc & ? & ? & ?).
    rewrite (push_run name n u cc) by done. eexists _, _. split; [done|].
    split_and!; [by apply eaa_inv_ws|done..|]. apply Hcode.
  - unfold PushNotificationToSubscribers, with_body, sendNotificationToAllSubscribers.
    go_unfold. rewrite Hsv, Hu. simpl. apply eq_None_not_Some in Hs. rewrite Hs.
    by apply handled_same, Hcode.
Qed.

Lemma query_runs name :
  handled c (GetServices w c) m sv (Some 200) ∧
  handled c (GetSubscriptions name w c) m sv (Some 200).
Proof.
  assert (∀ p, status_of (Write p (WriteHeader 200 (Header_Set content_type json_utf8 w)))
               = 200) as Hst.
  { intros p. unfold status_of. rewrite sent_Write. unfold WriteHeader. simpl. by rewrite Hw. }
  split.
  - unfold GetServices. go_unfold. rewrite Hsv. apply handled_same. intros ? [= <-]. apply Hst.
  - unfold GetSubscriptions. rewrite (bind_ret _ _ _ _ _ (getConsumerSubscriptions_run name c m Hm)).
    rewrite bool_decide_eq_false_2 by tauto. apply handled_same. intros ? [= <-]. apply Hst.
Qed.

Lemma eaa_serve_run name r :
  handled c (eaa_serve name r w c) (table_step name r m) (services_spec name r sv)
    (status_spec name r sv).
Proof.
  destruct sv_wf as [Hwf Hd]. destruct (query_runs name) as [Hq1 Hq2].
  pose proof (table_step_described name r m Hd) as Hd'.
  destruct r as [|host| | |b|b|ns b|ns id b| |ns b|ns id b]; cbn [eaa_serve];
    [apply DeregisterApplication_run|apply GetNotifications_run|exact Hq1|exact Hq2
    |apply PushNotificationToSubscribers_run|apply RegisterApplication_run|..];
    try (destruct b as [| |l];
         [apply handled_same; intros ? [= <-]; apply bad_body..|]).
  - destruct (addSubscriptionToNamespace_run name ns l c m Hm Hwf).
    by apply handled_table.
  - destruct (addSubscriptionToService_run name ns id l c m Hm Hwf).
    by apply handled_table.
  - apply handled_table; [by apply removeAllSubscriptions_run| |done].
    by apply entry_without_table_wf.
  - destruct (removeSubscriptionToNamespace_run name ns l c m Hm Hwf).
    by apply handled_table.
  - destruct (removeSubscriptionToService_run name ns id l c m Hm Hwf).
    by apply handled_table.
Qed.
End handlers.
End agent.

Lemma eaa_reach_inv {W Conn} `{WebSocket W Conn, WsPolls Conn} w0 (c : eaaContext W Conn) :
  eaa_reach (eaa_init w0) c → eaa_inv c.
Proof.
  induction 1 as [|c E name r Hreach IH]; [apply eaa_inv_init|].
  pose proof IH as (sv & cc & m & Hsv & _ & Hm & _).
  destruct (eaa_serve_run c m sv new_writer IH Hm Hsv eq_refl name r) as (w' & c' & Hrun & ? & _).
  unfold exec. by rewrite Hrun.
Qed.

(** ** The agent in every reachable state *)
Section promises.
Context {W Conn : Type} `{WebSocket W Conn, WsPolls Conn, E : GoEnv}.
Context (w0 : W) (c : eaaContext W Conn).

(** The subscriptions and services the agent holds. *)
Definition agent_subs (c : eaaContext W Conn) who key tgt : Prop :=
  ∃ m, subscriptionInfo c = Some m ∧ subscribed m who key tgt.
Definition agent_services (c : eaaContext W Conn) : gmap string Service :=
  default ∅ (serviceInfo c).

Lemma agent_subs_table m who key tgt :
  subscriptionInfo c = Some m → agent_subs c who key tgt ↔ subscribed m who key tgt.
Proof. intros Hm. unfold agent_subs. rewrite Hm. naive_solver. Qed.

(** In every state the agent reaches from its start, every
    request is answered: no handler panics, whatever the order in which maps
    are traversed, and the status of the reply is the one of its
    case, as listed by [status_spec]. *)
Theorem eaa_always_answers name r :
  eaa_reach (eaa_init w0) c →
  ∃ w' c', eaa_serve name r new_writer c = (Ret w', c') ∧
    ∀ code, status_spec name r (agent_services c) = Some code → status_of w' = code.
Proof.
  intros Hinv%eaa_reach_inv. pose proof Hinv as (sv & cc & m & Hsv & _ & Hm & _).
  destruct (eaa_serve_run c m sv new_writer Hinv Hm Hsv eq_refl name r)
    as (w' & c' & Hrun & _ & _ & _ & Hst).
  exists w', c'. split; [done|]. unfold agent_services. by rewrite Hsv.
Qed.

(** C39: the agent refines its abstract specification: after
    any request in a reachable state, who is subscribed to what, and which
    services are registered, is what [subscribed_spec] and [services_spec]
    make of the state before.  A subscription adds exactly the consumer's own
    entries, unsubscribing removes exactly them, and no other request or
    consumer changes them. *)
Theorem eaa_subscriptions_refine name r :
  eaa_reach (eaa_init w0) c →
  let c' := exec (eaa_serve name r new_writer) c in
  (∀ who key tgt, agent_subs c' who key tgt ↔
     subscribed_spec name r (agent_subs c) who key tgt) ∧
  agent_services c' = services_spec name r (agent_services c).
Proof.
  intros Hinv%eaa_reach_inv c'. pose proof Hinv as (sv & cc & m & Hsv & _ & Hm & _).
  destruct (eaa_serve_run c m sv new_writer Hinv Hm Hsv eq_refl name r)
    as (w' & c2 & Hrun & _ & Hm' & Hsv' & _).
  assert (c' = c2) as -> by (unfold c', exec; by rewrite Hrun).
  unfold agent_services. rewrite Hsv, Hsv'. split; [|done]. intros who key tgt.
  unfold agent_subs at 1. rewrite Hm'. transitivity (subscribed (table_step name r m) who key tgt).
  { naive_solver. }
  rewrite table_step_spec. pose proof (agent_subs_table m who key tgt Hm) as Heq.
  destruct r as [| | | |b|b|ns b|ns id b| |ns b|ns id b]; try destruct b; simpl; tauto.
Qed.

(** [GET /subscriptions] in a reachable state replies 200 with one list
    of subscriptions in which no name occurs twice, and a notification is
    listed under a namespace and service exactly when the client is
    subscribed to it there; subscriptions to the whole namespace are listed
    under the empty service name. *)
Theorem eaa_list_exact name :
  eaa_reach (eaa_init w0) c →
  ∃ w' subs, eaa_serve name EaaGetSubscriptions new_writer c = (Ret w', c) ∧
    status_of w' = 200 ∧ rw_body w' = [PaySubscriptions subs] ∧
    NoDup (sub_URN <$> subs) ∧
    ∀ u nm v, (∃ n, listed subs u n ∧ nd_Name n = nm ∧ nd_Version n = v) ↔
      ∃ tgt, default "" tgt = urn_ID u ∧
             agent_subs c name (mkUniqueNotif (urn_Namespace u) nm v) tgt.
Proof.
  intros Hinv%eaa_reach_inv. pose proof Hinv as (sv & cc & m & Hsv & _ & Hm & [_ Hd] & _).
  eexists _, _. split_and!.
  - simpl. unfold GetSubscriptions.
    by rewrite (bind_ret _ _ _ _ _ (getConsumerSubscriptions_run name c m Hm)).
  - done.
  - done.
  - apply list_entry_NoDup, NoDup_nil_2.
  - intros u nm v. setoid_rewrite (λ key tgt, agent_subs_table m name key tgt Hm).
    setoid_rewrite list_entry_fold. setoid_rewrite elem_of_map_range. split.
    + intros (n & [Hn|(key & s & Hk & -> & Hns & Hin)] & Hnm & Hv);
        [by apply listed_nil in Hn|].
      destruct (Hd _ _ Hk) as [Hn1 Hn2].
      assert (mkUniqueNotif (urn_Namespace u) nm v = key) as ->
        by (destruct key; simpl in *; congruence).
      destruct Hin as [[? ?]|Hin]; [exists None|exists (Some (urn_ID u))]; (split; [done|]);
        by exists s.
    + intros (tgt & Htgt & s & Hk & Hin). exists (cs_notification s).
      destruct (Hd _ _ Hk) as [Hn1 Hn2]. split; [|done]. right. exists (mkUniqueNotif (urn_Namespace u) nm v), s.
      split; [done|]. split; [done|]. split; [done|].
      destruct tgt as [id|]; simpl in Htgt; subst; [right|left]; done.
Qed.

(** A notification pushed by a registered producer in a reachable
    state is accepted (202) and written exactly once to the connection of
    every consumer that has one and is subscribed to that notification, for
    the producer's namespace or for the producer itself, and to nobody else;
    nothing but the connections is touched. *)
Theorem eaa_push_delivers name u n :
  eaa_reach (eaa_init w0) c →
  CommonNameStringToURN name = (u, nil_err) → is_Some (agent_services c !! name) →
  let key := mkUniqueNotif (urn_Namespace u) (nfp_Name n) (nfp_Version n) in
  ∃ w' whom,
    NoDup whom ∧
    (∀ who, who ∈ whom ↔
       agent_subs c who key None ∨ agent_subs c who key (Some (urn_ID u))) ∧
    status_of w' = 202 ∧
    eaa_serve name (EaaPush (BodyOf n)) new_writer c =
      (Ret w', set_ws (fold_left (λ ws conn, (ws_write conn (WsText (message u n)) ws).2)
                  (omap (λ x, consumerConnections c ≫= λ cc, conn_of cc x) whom)
                  (websockets c)) c).
Proof.
  intros Hinv%eaa_reach_inv Hu Hs key. pose proof Hinv as (sv & cc & m & Hsv & Hcc & Hm & _).
  unfold agent_services in Hs. rewrite Hsv in Hs. simpl in Hs.
  exists (WriteHeader 202 (Header_Set content_type json_utf8 new_writer)), (recipients m u n).
  split_and!.
  - by apply (recipients_NoDup c m sv).
  - intros who. rewrite !(agent_subs_table m) by done. apply elem_of_recipients.
  - done.
  - rewrite Hcc. exact (push_run c m sv new_writer Hinv Hm Hsv name n u cc Hcc Hu Hs).
Qed.

(** When a client connects again in a reachable state (its
    certificate name is the request's host), its previous connection is sent
    a close message and closed before the upgrade; afterwards the client has
    exactly the new connection, or none when the upgrade failed, and no other
    client's connection changed. *)
Theorem eaa_connect_replaces name :
  eaa_reach (eaa_init w0) c →
  ∃ cc cc', consumerConnections c = Some cc ∧
    let r := ws_upgrade (close_prev cc name (websockets c)) in
    let c' := exec (eaa_serve name (EaaGetNotifications name) new_writer) c in
    consumerConnections c' = Some cc' ∧ websockets c' = r.2 ∧
    conn_of cc' name = r.1 ∧ ∀ other, other ≠ name → cc' !! other = cc !! other.
Proof.
  intros Hinv%eaa_reach_inv. pose proof Hinv as (sv & cc & m & Hsv & Hcc & Hm & _ & Hready).
  destruct (createWsConn_run name c cc Hcc Hready) as (e & Hrun & _).
  set (r := ws_upgrade (close_prev cc name (websockets c))) in *.
  exists cc, (match r.1 with
              | Some conn => <[name := Some conn]> cc | None => delete name cc end).
  split; [done|]. intros r0 c'. change r0 with r.
  assert (c' = (createWsConn name name c).2) as ->.
  { unfold c', exec. simpl. unfold GetNotifications.
    rewrite (bind_ret go_get _ c c c) by done. rewrite (bind_ret _ _ _ _ _ Hrun), Hrun.
    by repeat case_bool_decide. }
  rewrite Hrun. simpl. unfold conn_of. destruct (r.1) as [conn|].
  - split_and!; [done..| |]; [by rewrite lookup_insert_eq|].
    intros. by rewrite lookup_insert_ne.
  - split_and!; [done..| |]; [by rewrite lookup_delete_eq|].
    intros. by rewrite lookup_delete_ne.
Qed.
End promises.

(** ** Common names *)

Lemma split_colon_Some s a b :
  split_colon s = Some (a, b) ↔
  s = a +:+ String ":" b ∧ ":"%char ∉ String.list_ascii_of_string a.
Proof.
  revert a b. induction s as [|ch s IH]; intros a b.
  { split; [done|]. intros [Hs _]. by destruct a. }
  cbn [split_colon]. case_bool_decide as Hch.
  - subst. split.
    + intros [= <- <-]. split; [done|apply not_elem_of_nil].
    + intros [Hs Hni]. destruct a as [|ch' a]; [by injection Hs as ->|].
      exfalso. apply Hni. injection Hs as <- _. simpl. set_solver.
  - destruct (split_colon s) as [[a' b']|].
    + destruct (IH a' b') as [(-> & Hni) _]; [done|]. split.
      * intros [= <- <-]. split; [done|]. simpl. rewrite not_elem_of_cons. done.
      * intros [Hs Hni']. destruct a as [|ch' a]; [by injection Hs|].
        injection Hs as <- Hs. simpl in Hni'. apply not_elem_of_cons in Hni' as [_ Hni'].
        by injection (proj2 (IH a b) (conj Hs Hni')) as -> ->.
    + split; [done|]. intros [Hs Hni]. destruct a as [|ch' a]; [by injection Hs|].
      injection Hs as <- Hs. simpl in Hni. apply not_elem_of_cons in Hni as [_ Hni].
      by pose proof (proj2 (IH a b) (conj Hs Hni)).
Qed.

(** A common name is parsed exactly when it has a colon, and then into
    the namespace before the first colon and the identifier behind it: the two
    parts and the colon give the name back, and the namespace has no colon. *)
Theorem eaa_common_name s u :
  CommonNameStringToURN s = (u, nil_err) ↔
  s = urn_Namespace u +:+ ":" +:+ urn_ID u ∧
  ":"%char ∉ String.list_ascii_of_string (urn_Namespace u).
Proof.
  unfold CommonNameStringToURN. destruct u as [id ns]. simpl.
  change (":" +:+ id) with (String ":" id). rewrite <- split_colon_Some.
  destruct (split_colon s) as [[a b]|]; split; by intros [= <- <-].
Qed.

(** ** A run of the agent *)

(** A library that logs what it is told; connections are numbered. *)
Definition demo_ws : WebSocket (list (nat * wsMessage)) nat := {|
  ws_upgrade := λ w, (Some (length w), w);
  ws_write := λ conn msg w, (nil_err, w ++ [(conn, msg)]);
  ws_close := λ _ w, (nil_err, w);
|}.
Definition demo_polls : WsPolls nat := λ _, [].

Definition demo_notif : NotificationDescriptor := mkNotificationDescriptor "alert" "1.0" "".
Definition demo_service : Service :=
  mkService None "camera" "http://cam" "ready" (Some [demo_notif]) "".
Definition demo_push : NotificationFromProducer := mkNotificationFromProducer "alert" "1.0" "42".

Section demo.
#[local] Existing Instances demo_ws demo_polls.
Abbreviation ctx := (eaaContext (list (nat * wsMessage)) nat).

Definition demo_requests : list (string * eaaRequest) :=
  [("video:cam", EaaRegister (BodyOf demo_service));
   ("app:viewer", EaaSubNamespace "video" (BodyOf [demo_notif]));
   ("app:logger", EaaSubService "video" "cam" (BodyOf [demo_notif]));
   ("app:viewer", EaaGetNotifications "app:viewer")].

(** A producer registers, two consumers subscribe, one connects. *)
Definition demo : ctx :=
  fold_left (λ c nr, exec (eaa_serve nr.1 nr.2 new_writer) c) demo_requests (eaa_init []).

Lemma demo_reach : eaa_reach (eaa_init []) demo.
Proof.
  apply (fold_left_inv (eaa_reach (eaa_init []))); [|apply eaa_reach_init].
  intros c [name r] Hc. by apply eaa_reach_step.
Qed.

(** A consumer that registered no service cannot deregister. *)
Lemma eaa_always_answers_witness :
  status_spec "app:viewer" EaaDeregister (agent_services demo) = Some 404 ∧
  ∃ w' c', eaa_serve "app:viewer" EaaDeregister new_writer demo = (Ret w', c') ∧
    status_of w' = 404.
Proof.
  split; [reflexivity|].
  destruct (eaa_always_answers [] demo "app:viewer" EaaDeregister demo_reach)
    as (w' & c' & Hrun & Hst).
  exists w', c'. exact (conj Hrun (Hst 404 eq_refl)).
Defined.

(** The viewer unsubscribes from everything, the logger stays. *)
Lemma eaa_subscriptions_refine_witness :
  let c' := exec (eaa_serve "app:viewer" EaaUnsubAll new_writer) demo in
  let key := mkUniqueNotif "video" "alert" "1.0" in
  (agent_subs c' "app:viewer" key None → False) ∧
  (agent_subs c' "app:logger" key (Some "cam") ↔
   agent_subs demo "app:logger" key (Some "cam") ∧ "app:logger" ≠ "app:viewer").
Proof.
  destruct (eaa_subscriptions_refine [] demo "app:viewer" EaaUnsubAll demo_reach) as [Hs _].
  split.
  - intros Hsub. apply Hs in Hsub. destruct Hsub as [_ Hne]. by apply Hne.
  - exact (Hs "app:logger" (mkUniqueNotif "video" "alert" "1.0") (Some "cam")).
Defined.

(** The viewer's list names its subscription. *)
Lemma eaa_list_exact_witness :
  ∃ w' subs, eaa_serve "app:viewer" EaaGetSubscriptions new_writer demo = (Ret w', demo) ∧
    rw_body w' = [PaySubscriptions subs] ∧
    ∃ n, listed subs (mkURN "" "video") n ∧ nd_Name n = "alert" ∧ nd_Version n = "1.0".
Proof.
  destruct (eaa_list_exact [] demo "app:viewer" demo_reach)
    as (w' & subs & Hrun & _ & Hbody & _ & Hl).
  exists w', subs. refine (conj Hrun (conj Hbody _)).
  apply (Hl (mkURN "" "video") "alert" "1.0"). exists None. split; [reflexivity|].
  eexists. split; [reflexivity|]. eexists. split; [vm_compute; reflexivity|].
  vm_compute. left.
Defined.

(** Both consumers are recipients. *)
Lemma eaa_push_delivers_witness :
  ∃ w' whom, NoDup whom ∧ "app:viewer" ∈ whom ∧ "app:logger" ∈ whom ∧ status_of w' = 202 ∧
    ∃ c', eaa_serve "video:cam" (EaaPush (BodyOf demo_push)) new_writer demo = (Ret w', c').
Proof.
  destruct (eaa_push_delivers [] demo "video:cam" (mkURN "cam" "video") demo_push demo_reach
    eq_refl ltac:(vm_compute; eauto)) as (w' & whom & Hnd & Hin & Hst & Hrun).
  exists w', whom. split; [exact Hnd|]. split; [|split; [|split]].
  - apply Hin. left. eexists. split; [reflexivity|].
    eexists. split; [vm_compute; reflexivity|]. vm_compute. left.
  - apply Hin. right. eexists. split; [reflexivity|].
    eexists. split; [vm_compute; reflexivity|]. eexists. split; [vm_compute; reflexivity|]. left.
  - exact Hst.
  - eexists. exact Hrun.
Defined.

(** What the library was told: one message, to the viewer's connection. *)
Example demo_push_log :
  websockets (exec (eaa_serve "video:cam" (EaaPush (BodyOf demo_push)) new_writer) demo)
  = [(0%nat, WsText (message (mkURN "cam" "video") demo_push))].
Proof. vm_compute. reflexivity. Qed.

(** The viewer connects again. *)
Lemma eaa_connect_replaces_witness :
  ∃ cc cc', consumerConnections demo = Some cc ∧ conn_of cc "app:viewer" = Some 0%nat ∧
    consumerConnections
      (exec (eaa_serve "app:viewer" (EaaGetNotifications "app:viewer") new_writer) demo)
      = Some cc' ∧ conn_of cc' "app:viewer" = Some 1%nat.
Proof.
  destruct (eaa_connect_replaces [] demo "app:viewer" demo_reach)
    as (cc & cc' & Hcc & Hcc' & _ & Hnew & _).
  exists cc, cc'. assert (Some cc = consumerConnections demo) as Heq by exact (eq_sym Hcc).
  vm_compute in Heq. injection Heq as ->.
  split; [exact Hcc|]. split; [reflexivity|]. split; [exact Hcc'|]. rewrite Hnew. reflexivity.
Defined.
End demo.

(** A list of services that cannot be read is reported with status 200: the
    handler has sent the status before it looks. *)
Lemma get_services_masks_error {W Conn} `{WebSocket W Conn, WsPolls Conn, GoEnv}
    (c : eaaContext W Conn) :
  serviceInfo c = None → ∃ w', GetServices new_writer c = (Ret w', c) ∧ status_of w' = 200.
Proof. intros Hc. unfold GetServices. go_unfold. rewrite Hc. by eexists. Qed.

(** [RemoveSubscriber] ranges over the slice it shortens: on a list with a
    subscriber twice at the end it cuts beyond the shortened slice. *)
Example remove_subscriber_twice :
  RemoveSubscriber "a" ["b"; "a"; "a"] = Panic "slice bounds out of range".
Proof. reflexivity. Qed.
