(* ===== verification/EdgeDns.v ===== *)
(** * EdgeDNS: storage, control API and query handler (edgenode/pkg/edgedns)

    The responder answers queries from its own records, and otherwise asks a
    forwarder.  Records are kept by a backend behind the interface [Storage];
    [BoltDB] is the one in use.  The libraries are parameters: the key-value
    store ([Bolt]), the encoder ([Gob]), the DNS messages and client
    ([DnsLib]) and the random numbers ([Rand]).  Byte slices are strings. *)

From S2P Require Import Prelude.
From stdpp Require Import prelude gmap strings list.
From Stdlib Require Import ZArith Ascii.

Local Open Scope Z_scope.

(** ** Numbers of the protocol *)

Definition TypeA : Z := 1.
Definition ClassINET : Z := 1.
Definition OpcodeQuery : Z := 0.
Definition RcodeServerFailure : Z := 2.
Definition RcodeRefused : Z := 5.

(** [uint16(x)]. *)
Definition wrap_uint16 (z : Z) : Z := z mod 2 ^ 16.

(** ** Records and messages *)

(** An [A] resource record, [dns.A] with its header. *)
Record RR := mkRR {
  rr_Name : string;
  rr_Rrtype : Z;
  rr_Class : Z;
  rr_Ttl : Z;
  rr_A : string;
}.

Record Question := mkQuestion { q_Name : string; q_Qtype : Z; q_Qclass : Z }.

(** [dns.Msg]: the fields of the header and the sections the responder uses. *)
Record Msg := mkMsg {
  msg_Id : Z;
  msg_Response : bool;
  msg_Opcode : Z;
  msg_Authoritative : bool;
  msg_Rcode : Z;
  msg_Question : list Question;
  msg_Answer : list RR;
}.
Definition new_Msg : Msg := mkMsg 0 false 0 false 0 [] [].

Definition set_Authoritative (b : bool) (m : Msg) : Msg :=
  mkMsg (msg_Id m) (msg_Response m) (msg_Opcode m) b (msg_Rcode m) (msg_Question m) (msg_Answer m).
Definition set_Answer (l : list RR) (m : Msg) : Msg :=
  mkMsg (msg_Id m) (msg_Response m) (msg_Opcode m) (msg_Authoritative m) (msg_Rcode m)
    (msg_Question m) l.

(** The DNS library: [m.SetReply(q)] and [m.SetRcode(q, rcode)] return the
    changed receiver, [Exchange q addr] is the client's answer. *)
Class DnsLib := {
  SetReply : Msg → Msg → Msg;
  SetRcode : Msg → Msg → Z → Msg;
  Exchange : Msg → string → Msg + string;
}.

(** What the responder relies on: a reply carries the request's identifier and
    question and no error; an error message is a reply with that code.  Both
    keep the other sections of the receiver. *)
Class DnsLibLaws `{DnsLib} : Prop := {
  SetReply_spec m q : SetReply m q =
    mkMsg (msg_Id q) true (msg_Opcode q) (msg_Authoritative m) 0 (take 1 (msg_Question q))
      (msg_Answer m);
  SetRcode_spec m q rcode : SetRcode m q rcode =
    mkMsg (msg_Id q) true (msg_Opcode q) (msg_Authoritative m) rcode (take 1 (msg_Question q))
      (msg_Answer m);
}.

(** The interface [Storage] of responder.go. *)
Class Storage (S : Type) := {
  SetHostRRSet : Z → string → list string → GoM S error;
  GetRRSet : string → Z → GoM S (list RR + string);
  DelRRSet : Z → string → GoM S error;
}.

(** ** The backend (storage/boltdb.go) *)

(** Transactions of the key-value store with one operation each: a failed one
    is rolled back by the library.  [bolt_Get] yields [None] for nil. *)
Class Bolt (B : Type) := {
  bolt_Open : string → B + string;
  bolt_CreateBucketIfNotExists : string → B → error * B;
  bolt_has_bucket : B → string → bool;
  bolt_Get : B → string → string → option string;
  bolt_Put : string → string → string → B → error * B;
  bolt_Delete : string → string → B → error * B;
  bolt_Close : B → error;
}.

(** [rrSet]. *)
Record rrSet := mkRrSet { Rrtype : Z; Answers : list string }.

(** Package [gob] on values of that type; [None] is an error. *)
Class Gob := {
  rrSet_encode : rrSet → option string;
  rrSet_decode : string → option rrSet;
}.

Definition TTL : Z := 10.
Definition dot : ascii := "."%char.
Definition Master : Z := 2.

Definition bkts : gmap Z (gmap Z string) := {[ Master := {[ TypeA := "ADDR4" ]} ]}.

(** [bkts[Master][rrtype]]: nil, that is empty, for other types. *)
Definition bucket_of (rrtype : Z) : string :=
  default "" (default ∅ (bkts !! Master) !! rrtype).

(** [bytes.HasSuffix(fqdn, []byte{dot})] *)
Fixpoint has_dot_suffix (s : string) : bool :=
  match s with
  | "" => false
  | String c "" => bool_decide (c = dot)
  | String _ s' => has_dot_suffix s'
  end.

(** A name made fully qualified. *)
Definition fully_qualified (fqdn : string) : string :=
  if has_dot_suffix fqdn then fqdn else fqdn +:+ ".".

Record BoltDB (B : Type) := mkBoltDB { Filename : string; instance : option B }.
Arguments mkBoltDB {B} _ _.
Arguments Filename {B} _.
Arguments instance {B} _.

Section boltdb.
Context {B : Type} `{Bolt B, Gob, GoEnv}.
Abbreviation db := (BoltDB B).

(** [db.instance], which is nil before [Start]. *)
Definition get_instance : GoM db B :=
  d ← go_get;
  match instance d with
  | Some b => mret b
  | None => go_panic "nil pointer dereference"
  end.
Definition put_instance (b : B) : GoM db unit :=
  go_modify (λ d, mkBoltDB (Filename d) (Some b)).

(** [CreateBucketIfNotExists] for each bucket; a failure ends the batch, which
    is rolled back. *)
Definition create_buckets (b : B) : error * B :=
  match loop_acc (map_range ["Start"] bkts) (λ i b,
    loop_acc (map_range ["Start"; "buckets"] i.2) (λ j b,
      match bolt_CreateBucketIfNotExists j.2 b with
      | (None, b') => inl b'
      | (Some e, _) => inr ("Bucket initialization error: " +:+ e)
      end) b) b with
  | inl b' => (nil_err, b')
  | inr e => (errors_New e, b)
  end.

Definition Start : GoM db error :=
  d ← go_get;
  match bolt_Open (Filename d) with
  | inr e => mret (errors_New e)
  | inl b =>
      let '(err, b') := create_buckets b in
      put_instance b';;
      mret err
  end.

Definition Stop : GoM db error :=
  d ← go_get;
  match instance d with
  | Some b => mret (bolt_Close b)
  | None => mret (errors_New "DB already stopped")
  end.

Definition bolt_SetHostRRSet (rrtype : Z) (fqdn : string) (addrs : list string) : GoM db error :=
  if bool_decide (rrtype ≠ TypeA)
  then mret (errors_New "Invalid resource record type, only type A supported")
  else
    let fqdn := fully_qualified fqdn in
    b ← get_instance;
    if negb (bolt_has_bucket b (bucket_of rrtype))
    then mret (errors_New "Unable to find bucket")
    else
      match rrSet_encode (mkRrSet rrtype addrs) with
      | None => mret (errors_New "encoding error")
      | Some blob =>
          let '(err, b') := bolt_Put (bucket_of rrtype) fqdn blob b in
          put_instance b';;
          mret err
      end.

Definition bolt_DelRRSet (rrtype : Z) (fqdn : string) : GoM db error :=
  let fqdn := fully_qualified fqdn in
  match default ∅ (bkts !! Master) !! rrtype with
  | Some bucket =>
      b ← get_instance;
      if negb (bolt_has_bucket b bucket)
      then mret (errors_New "Delete: Unable to find bucket")
      else
        let '(err, b') := bolt_Delete bucket fqdn b in
        put_instance b';;
        mret (match err with Some e => errors_New ("Delete: " +:+ e) | None => nil_err end)
  | None => mret (errors_New "Invalid query type")
  end.

Definition getAuthoritative (name : string) (rrtype : Z) : GoM db (rrSet + string) :=
  b ← get_instance;
  let v := if bolt_has_bucket b (bucket_of rrtype)
           then default "" (bolt_Get b (bucket_of rrtype) name) else "" in
  if bool_decide (v ≠ "") then
    match rrSet_decode v with
    | None => mret (inr "Failed to decode")
    | Some rrs => mret (inl rrs)
    end
  else mret (inr "No authoritative records found").

Definition rrForType (name : string) (rrtype : Z) (ans : string) : RR + string :=
  if bool_decide (rrtype = TypeA)
  then inl (mkRR name rrtype ClassINET TTL ans)
  else inr "Uknown resource for Query type".

Definition bolt_GetRRSet (name : string) (rrtype : Z) : GoM db (list RR + string) :=
  r ← getAuthoritative name rrtype;
  match r with
  | inl ans =>
      mret (loop_acc (Answers ans) (λ i rrs,
        match rrForType name rrtype i with
        | inl rr => inl (rrs ++ [rr])
        | inr e => inr e
        end) [])
  | inr _ => mret (inr "No records found")
  end.

#[export] Instance BoltDB_Storage : Storage db := {|
  SetHostRRSet := bolt_SetHostRRSet;
  GetRRSet := bolt_GetRRSet;
  DelRRSet := bolt_DelRRSet;
|}.
End boltdb.

(** ** The responder (responder.go, handler.go, forwarder.go) *)

Record Responder (S : Type) := mkResponder { storage : S; forwarder : string }.
Arguments mkResponder {S} _ _.
Arguments storage {S} _.
Arguments forwarder {S} _.

(** [r.Intn(n)] in the round of the loop with that bound. *)
Class Rand := {
  Intn : nat → nat;
  Intn_lt n : (0 < n → Intn n < n)%nat;
}.

(** [rrs[i], rrs[j] = rrs[j], rrs[i]] *)
Definition swap {A} (i j : nat) (l : list A) : outcome (list A) :=
  match l !! i, l !! j with
  | Some a, Some b => Ret (<[j := a]> (<[i := b]> l))
  | _, _ => Panic "index out of range"
  end.

(** The loop [for n := len(rrs); n > 1; n--]. *)
Fixpoint shuffle_loop {A} `{Rand} (n : nat) (rrs : list A) : outcome (list A) :=
  match n with
  | S (S _ as n') =>
      match swap n' (Intn n) rrs with
      | Ret rrs' => shuffle_loop n' rrs'
      | Panic e => Panic e
      end
  | _ => Ret rrs
  end.
Definition shuffle {A} `{Rand} (rrs : list A) : outcome (list A) := shuffle_loop (length rrs) rrs.

Section responder.
Context {S : Type} `{Storage S, DnsLib}.
Abbreviation ctx := (Responder S).

(** A call of the storage. *)
Definition call_storage {A} (m : GoM S A) : GoM ctx A := λ r,
  match m (storage r) with
  | (o, s') => (o, mkResponder s' (forwarder r))
  end.

Definition SetDefaultForwarder (fwdr : string) : GoM ctx unit :=
  go_modify (λ r, mkResponder (storage r) fwdr).

Definition forwardRequest (q : Msg) (ns : string) : outcome (Msg + string) :=
  if bool_decide (ns = "") then Ret (inr "Missing forwarder address")
  else
    match msg_Question q with
    | [] => Panic "index out of range"
    | _ :: _ =>
        match Exchange q (ns +:+ ":53") with
        | inl m => Ret (inl m)
        | inr e => Ret (inr (ns +:+ " unable to resolve: " +:+ e))
        end
    end.

(** The message that [handleDNSRequest] writes. *)
Definition handleDNSRequest `{Rand} (q : Msg) : GoM ctx Msg :=
  if bool_decide (msg_Opcode q = OpcodeQuery) then
    match msg_Question q with
    | [] => go_panic "index out of range"
    | question :: _ =>
        r ← call_storage (GetRRSet (q_Name question) (q_Qtype question));
        match r with
        | inl rrs =>
            match shuffle rrs with
            | Ret rrs => mret (set_Answer rrs (set_Authoritative true (SetReply new_Msg q)))
            | Panic e => go_panic e
            end
        | inr _ =>
            c ← go_get;
            match forwardRequest q (forwarder c) with
            | Panic e => go_panic e
            | Ret (inl m) => mret m
            | Ret (inr _) => mret (SetRcode (SetReply new_Msg q) q RcodeServerFailure)
            end
        end
    end
  else mret (SetRcode new_Msg q RcodeRefused).

(** ** The control API (grpc/control_server.go) *)

Definition RType_None : Z := 0.
Definition RType_A : Z := 1.

(** Status codes of gRPC; [None] is success. *)
Inductive grpcCode := Unimplemented | Internal | InvalidArgument.

Definition SetAuthoritativeHost (recordType : Z) (fqdn : string) (addresses : list string)
    : GoM ctx (option grpcCode) :=
  if bool_decide (recordType ≠ RType_A) then mret (Some Unimplemented)
  else
    err ← call_storage (SetHostRRSet (wrap_uint16 recordType) fqdn addresses);
    mret (match err with Some _ => Some Internal | None => None end).

Definition DeleteAuthoritative (recordType : Z) (fqdn : string) : GoM ctx (option grpcCode) :=
  if bool_decide (recordType = RType_None) then mret (Some InvalidArgument)
  else
    err ← call_storage (DelRRSet (wrap_uint16 recordType) fqdn);
    mret (match err with Some _ => Some Internal | None => None end).
End responder.

(** The calls of the control API. *)
Inductive dnsControl :=
| CtlSet (recordType : Z) (fqdn : string) (addresses : list string)
| CtlDelete (recordType : Z) (fqdn : string).

Definition control {S} `{Storage S} (r : dnsControl) : GoM (Responder S) (option grpcCode) :=
  match r with
  | CtlSet t n l => SetAuthoritativeHost t n l
  | CtlDelete t n => DeleteAuthoritative t n
  end.
