(* ===== verification/EdgeDnsProps.v ===== *)
(** * EdgeDNS: what it promises

    The contract of the storage interface ([StorageSpec]: a map from fully
    qualified names to addresses), that [BoltDB] implements it, and, proved
    against the interface only, what the control API and the query handler do. *)

From S2P Require Import Prelude Strconv EdgeDns.
From stdpp Require Import prelude gmap strings list.
From Stdlib Require Import ZArith Ascii.

Local Open Scope Z_scope.

(** ** Shuffling *)
Section shuffle.
Context {A : Type}.
Implicit Types (l k : list A).

Lemma swap_run i j l :
  (i < length l → j < length l → ∃ l', swap i j l = Ret l' ∧ l' ≡ₚ l ∧ l' !! i = l !! j)%nat.
Proof.
  intros [a Hi]%lookup_lt_is_Some [b Hj]%lookup_lt_is_Some. unfold swap. rewrite Hi, Hj.
  eexists. split; [done|]. split; [by apply Permutation_insert_swap|].
  apply lookup_lt_Some in Hi as ?. destruct (decide (i = j)) as [->|Hne].
  - rewrite list_lookup_insert_eq by (by rewrite length_insert). congruence.
  - rewrite list_lookup_insert_ne by done. by apply list_lookup_insert_eq.
Qed.

Lemma shuffle_loop_S `{Rand} n l :
  shuffle_loop (S (S n)) l =
    match swap (S n) (Intn (S (S n))) l with
    | Ret l' => shuffle_loop (S n) l'
    | Panic e => Panic e
    end.
Proof. done. Qed.

Lemma shuffle_loop_perm `{Rand} n l :
  (n ≤ length l)%nat → ∃ l', shuffle_loop n l = Ret l' ∧ l' ≡ₚ l.
Proof.
  revert l. induction n as [|[|n] IH]; intros l Hn; [by exists l..|]. rewrite shuffle_loop_S.
  pose proof (Intn_lt (S (S n)) ltac:(lia)).
  destruct (swap_run (S n) (Intn (S (S n))) l) as (l1 & -> & Hp & _); [lia..|].
  destruct (IH l1) as (l2 & -> & Hp2); [rewrite Hp; lia|]. exists l2. split; [done|]. by rewrite Hp2, Hp.
Qed.

(** The loop only touches the first [n] places. *)
Lemma shuffle_loop_app `{Rand} n l k l' :
  (n ≤ length l)%nat → shuffle_loop n l = Ret l' → shuffle_loop n (l ++ k) = Ret (l' ++ k).
Proof.
  revert l. induction n as [|[|n] IH]; intros l Hn; [by intros [= <-]..|]. rewrite !shuffle_loop_S.
  pose proof (Intn_lt (S (S n)) ltac:(lia)) as Hj. set (j := Intn (S (S n))) in *.
  destruct (swap_run (S n) j l) as (l1 & Hs & Hp & _); [lia..|]. rewrite Hs. intros Hl.
  unfold swap in *. rewrite !lookup_app_l by lia.
  destruct (l !! S n) as [a|], (l !! j) as [b|]; try done. injection Hs as <-.
  rewrite !insert_app_l by (rewrite ?length_insert; lia).
  apply IH; [rewrite !length_insert; lia|done].
Qed.

(** A source of random numbers with one draw replaced. *)
Definition redraw (R : Rand) (n j : nat) (Hj : (j < n)%nat) : Rand.
Proof.
  refine {| Intn := λ m, if decide (m = n) then j else Intn m |}.
  intros m Hm. case_decide; [by subst|by apply Intn_lt].
Defined.

Lemma shuffle_loop_redraw R n j Hj m l :
  (m < n)%nat → shuffle_loop (H := redraw R n j Hj) m l = shuffle_loop (H := R) m l.
Proof.
  revert l. induction m as [|[|m] IH]; intros l Hm; [done..|].
  rewrite !shuffle_loop_S. assert (Intn (Rand := redraw R n j Hj) (S (S m)) = Intn (S (S m))) as ->.
  { simpl. by rewrite decide_False by lia. }
  destruct (swap _ _ l); [|done]. apply IH. lia.
Qed.

Program Definition zero_draws : Rand := {| Intn := λ _, 0%nat |}.
Next Obligation. done. Qed.

Lemma shuffle_loop_reaches n l l' :
  length l = n → l' ≡ₚ l → ∃ R : Rand, shuffle_loop (H := R) n l = Ret l'.
Proof.
  revert l l'. induction n as [|[|n] IH]; intros l l' Hlen Hp.
  { exists zero_draws. destruct l; [|done]. by apply Permutation_nil_r in Hp as ->. }
  { exists zero_draws. destruct l as [|x []]; [done| |done].
    by apply Permutation_singleton_r in Hp as ->. }
  destruct l' as [|x l1 _] using rev_ind.
  { apply Permutation_nil_l in Hp. by subst. }
  assert (x ∈ l) as [j Hj]%list_elem_of_lookup by (rewrite <- Hp; set_solver).
  pose proof (lookup_lt_Some _ _ _ Hj) as Hjn. rewrite Hlen in Hjn.
  destruct (swap_run (S n) j l) as (l2 & Hs & Hp2 & Hl2); [lia..|].
  assert (length l2 = S (S n)) as Hlen2 by (by rewrite Hp2).
  assert (l2 = take (S n) l2 ++ [x]) as Hsplit.
  { rewrite <- (take_drop (S n) l2) at 1. f_equal. rewrite Hj in Hl2.
    rewrite (drop_S _ _ _ Hl2), drop_ge by lia. done. }
  destruct (IH (take (S n) l2) l1) as [R HR].
  { rewrite length_take. lia. }
  { apply (Permutation_app_inv_r [x]). by rewrite <- Hsplit, Hp2. }
  exists (redraw R (S (S n)) j Hjn). rewrite shuffle_loop_S.
  assert (Intn (Rand := redraw R (S (S n)) j Hjn) (S (S n)) = j) as ->.
  { simpl. by rewrite decide_True. }
  rewrite Hs, shuffle_loop_redraw, Hsplit by lia.
  apply shuffle_loop_app; [rewrite length_take; lia|done].
Qed.
End shuffle.

Lemma shuffle_perm `{Rand} {A} (l : list A) : ∃ l', shuffle l = Ret l' ∧ l' ≡ₚ l.
Proof. by apply shuffle_loop_perm. Qed.

(** ** The contract of the storage *)

(** The record of an address. *)
Definition a_record (name addr : string) : RR := mkRR name TypeA ClassINET TTL addr.

(** What the storage holds for a question. *)
Definition answers_for (m : gmap string (list string)) (name : string) (qtype : Z)
    : option (list string) :=
  if bool_decide (qtype = TypeA) then m !! name else None.

(** A storage in service behaves as a map from names to addresses: setting and
    deleting, when they succeed, change the entry of the fully qualified name,
    and otherwise nothing; reading finds exactly what is stored under the very
    name that is asked for. *)
Class StorageSpec (S : Type) `{Storage S} := {
  st_started : S → Prop;
  st_records : S → gmap string (list string);
  st_set s t n l : st_started s →
    ∃ err s', SetHostRRSet t n l s = (Ret err, s') ∧ st_started s' ∧
      match err with
      | None => t = TypeA ∧ st_records s' = <[fully_qualified n := l]> (st_records s)
      | Some _ => st_records s' = st_records s
      end;
  st_del s t n : st_started s →
    ∃ err s', DelRRSet t n s = (Ret err, s') ∧ st_started s' ∧
      match err with
      | None => t = TypeA ∧ st_records s' = delete (fully_qualified n) (st_records s)
      | Some _ => st_records s' = st_records s
      end;
  st_get s n t : st_started s →
    ∃ r, GetRRSet n t s = (Ret r, s) ∧
      match answers_for (st_records s) n t with
      | Some l => r = inl (a_record n <$> l)
      | None => ∃ e, r = inr e
      end;
}.

(** ** [BoltDB] implements it *)

(** The documented behaviour of the key-value store: buckets of entries; an
    operation that fails leaves them as they were; no bucket has an empty
    name. *)
Class BoltLaws (B : Type) `{Bolt B} := {
  buckets : B → gmap string (gmap string string);
  bolt_no_empty b : buckets b !! "" = None;
  bolt_has_spec b name : bolt_has_bucket b name = bool_decide (is_Some (buckets b !! name));
  bolt_get_spec b name k : bolt_Get b name k = buckets b !! name ≫= lookup k;
  bolt_put_spec b name k v : is_Some (buckets b !! name) →
    buckets (bolt_Put name k v b).2 =
      match (bolt_Put name k v b).1 with
      | None => <[name := <[k := v]> (default ∅ (buckets b !! name))]> (buckets b)
      | Some _ => buckets b
      end;
  bolt_delete_spec b name k : is_Some (buckets b !! name) →
    buckets (bolt_Delete name k b).2 =
      match (bolt_Delete name k b).1 with
      | None => <[name := delete k (default ∅ (buckets b !! name))]> (buckets b)
      | Some _ => buckets b
      end;
  bolt_create_spec b name :
    (bolt_CreateBucketIfNotExists name b).1 = None →
    buckets (bolt_CreateBucketIfNotExists name b).2 =
      <[name := default ∅ (buckets b !! name)]> (buckets b);
}.

(** The documented behaviour of the encoder. *)
Class GobLaws `{Gob} : Prop := {
  gob_decode_encode r blob : rrSet_encode r = Some blob → blob ≠ "" ∧ rrSet_decode blob = Some r;
}.

Section boltdb.
Context {B : Type} `{BoltLaws B, GobLaws, E : GoEnv}.
Implicit Types (d : BoltDB B) (b : B).

(** The bucket of addresses. *)
Definition addr_bucket d : option (gmap string string) :=
  instance d ≫= λ b, buckets b !! "ADDR4".

Definition bolt_started d : Prop := is_Some (addr_bucket d).

(** What an entry says. *)
Definition blob_addrs (blob : string) : option (list string) :=
  if bool_decide (blob = "") then None else Answers <$> rrSet_decode blob.

Definition bolt_records d : gmap string (list string) :=
  omap blob_addrs (default ∅ (addr_bucket d)).

Lemma started_instance d :
  bolt_started d → ∃ b m, instance d = Some b ∧ buckets b !! "ADDR4" = Some m ∧
    addr_bucket d = Some m.
Proof.
  unfold bolt_started, addr_bucket. destruct (instance d) as [b|]; simpl; intros [m Hm]; [|done].
  by exists b, m.
Qed.

Lemma get_instance_run d b : instance d = Some b → get_instance d = (Ret b, d).
Proof. intros Hd. unfold get_instance. go_unfold. by rewrite Hd. Qed.

Lemma bucket_of_other t : t ≠ TypeA → bucket_of t = "".
Proof.
  intros Ht. unfold bucket_of, bkts. rewrite lookup_singleton_eq. simpl.
  by rewrite lookup_singleton_ne.
Qed.

Lemma records_after f b m :
  buckets b !! "ADDR4" = Some m →
  bolt_started (mkBoltDB f (Some b)) ∧ bolt_records (mkBoltDB f (Some b)) = omap blob_addrs m.
Proof. intros Hb. unfold bolt_started, bolt_records, addr_bucket. simpl. rewrite Hb. by split. Qed.

Lemma bolt_set_run d t n l :
  bolt_started d →
  ∃ err d', bolt_SetHostRRSet t n l d = (Ret err, d') ∧ bolt_started d' ∧
    match err with
    | None => t = TypeA ∧ bolt_records d' = <[fully_qualified n := l]> (bolt_records d)
    | Some _ => bolt_records d' = bolt_records d
    end.
Proof.
  intros Hst. destruct (started_instance d Hst) as (b & m & Hd & Hb & Hm).
  unfold bolt_SetHostRRSet. destruct (bool_decide_reflect (t ≠ TypeA)) as [Ht|Ht].
  { by eexists _, d. }
  assert (t = TypeA) as -> by lia. change (bucket_of TypeA) with "ADDR4".
  rewrite (bind_ret _ _ _ _ _ (get_instance_run d b Hd)).
  rewrite bolt_has_spec, Hb. simpl.
  destruct (rrSet_encode _) as [blob|] eqn:He; [|by eexists _, d].
  pose proof (bolt_put_spec b "ADDR4" (fully_qualified n) blob ltac:(by rewrite Hb)) as Hput.
  destruct (bolt_Put _ _ _ b) as [[e|] b']; simpl in *; go_unfold; (eexists _, _; split; [done|]).
  - destruct (records_after (Filename d) b' m ltac:(by rewrite Hput)) as [? ->].
    split; [done|]. unfold bolt_records. by rewrite Hm.
  - rewrite Hb in Hput. simpl in Hput.
    destruct (records_after (Filename d) b' (<[fully_qualified n:=blob]> m)) as [? ->].
    { by rewrite Hput, lookup_insert_eq. }
    split; [done|]. split; [done|]. unfold bolt_records. rewrite Hm. simpl.
    destruct (gob_decode_encode _ _ He) as [Hne Hdec].
    erewrite omap_insert_Some; [done|]. unfold blob_addrs.
    by rewrite bool_decide_eq_false_2, Hdec.
Qed.

Lemma bolt_del_run d t n :
  bolt_started d →
  ∃ err d', bolt_DelRRSet t n d = (Ret err, d') ∧ bolt_started d' ∧
    match err with
    | None => t = TypeA ∧ bolt_records d' = delete (fully_qualified n) (bolt_records d)
    | Some _ => bolt_records d' = bolt_records d
    end.
Proof.
  intros Hst. destruct (started_instance d Hst) as (b & m & Hd & Hb & Hm).
  unfold bolt_DelRRSet, bkts. rewrite lookup_singleton_eq. simpl.
  destruct (decide (t = TypeA)) as [->|Ht].
  2: { rewrite lookup_singleton_ne by done. by eexists _, d. }
  rewrite lookup_singleton_eq. rewrite (bind_ret _ _ _ _ _ (get_instance_run d b Hd)).
  rewrite bolt_has_spec, Hb. simpl.
  pose proof (bolt_delete_spec b "ADDR4" (fully_qualified n) ltac:(by rewrite Hb)) as Hdel.
  destruct (bolt_Delete _ _ b) as [[e|] b']; simpl in *; go_unfold; (eexists _, _; split; [done|]).
  - destruct (records_after (Filename d) b' m ltac:(by rewrite Hdel)) as [? ->].
    split; [done|]. unfold bolt_records. by rewrite Hm.
  - rewrite Hb in Hdel. simpl in Hdel.
    destruct (records_after (Filename d) b' (delete (fully_qualified n) m)) as [? ->].
    { by rewrite Hdel, lookup_insert_eq. }
    split; [done|]. split; [done|]. unfold bolt_records. rewrite Hm. simpl. apply omap_delete.
Qed.

Lemma bolt_get_run d n t :
  bolt_started d →
  ∃ r, bolt_GetRRSet n t d = (Ret r, d) ∧
    match answers_for (bolt_records d) n t with
    | Some l => r = inl (a_record n <$> l)
    | None => ∃ e, r = inr e
    end.
Proof.
  intros Hst. destruct (started_instance d Hst) as (b & m & Hd & Hb & Hm).
  unfold bolt_GetRRSet, getAuthoritative, answers_for, bolt_records. rewrite Hm.
  go_unfold. rewrite (get_instance_run d b Hd), bolt_has_spec. simpl. rewrite lookup_omap.
  destruct (bool_decide_reflect (t = TypeA)) as [->|Ht].
  2: { rewrite bucket_of_other, bolt_no_empty by done. simpl. by eauto. }
  change (bucket_of TypeA) with "ADDR4". rewrite bolt_get_spec, Hb. simpl.
  destruct (m !! n) as [blob|]; simpl; [|by eauto].
  unfold blob_addrs. destruct (bool_decide_reflect (blob = "")) as [->|Hne].
  { rewrite bool_decide_eq_false_2 by tauto. by eauto. }
  rewrite bool_decide_eq_true_2 by done. destruct (rrSet_decode blob) as [rrs|]; simpl; [|by eauto].
  eexists. split; [done|].
  rewrite (loop_acc_fold _ _ (λ rrs a, rrs ++ [a_record n a])) by done. f_equal.
  assert (∀ acc, fold_left (λ rrs a, rrs ++ [a_record n a]) (Answers rrs) acc
                 = acc ++ (a_record n <$> Answers rrs)) as Hl; [|apply Hl].
  induction (Answers rrs) as [|a l IH]; intros acc; simpl; [by rewrite app_nil_r|].
  rewrite IH. by rewrite <- app_assoc.
Qed.

#[export] Instance BoltDB_StorageSpec : StorageSpec (BoltDB B) := {|
  st_started := bolt_started;
  st_records := bolt_records;
  st_set := bolt_set_run;
  st_del := bolt_del_run;
  st_get := bolt_get_run;
|}.

Lemma map_range_singleton `{Countable K} {V} site (k : K) (v : V) :
  map_range site {[k := v]} = [(k, v)].
Proof. apply Permutation_singleton_r. by rewrite map_range_perm, map_to_list_singleton. Qed.

(** A successful start opens the file and has the bucket ready; the records
    are those of the file. *)
Lemma Start_run d err d' :
  Start d = (Ret err, d') → err = nil_err →
  bolt_started d' ∧ ∃ b, bolt_Open (Filename d) = inl b ∧
    bolt_records d' = omap blob_addrs (default ∅ (buckets b !! "ADDR4")).
Proof.
  unfold Start, create_buckets, bkts. go_unfold.
  destruct (bolt_Open _) as [b|e] eqn:Hopen; [|by intros [= <- _]].
  rewrite map_range_singleton. cbn [loop_acc snd]. rewrite map_range_singleton. cbn [loop_acc snd].
  pose proof (bolt_create_spec b "ADDR4") as Hcr.
  destruct (bolt_CreateBucketIfNotExists "ADDR4" b) as [[e|] b']; simpl in *; intros [= <- <-]; [done|].
  intros _. specialize (Hcr eq_refl).
  destruct (records_after (Filename d) b' (default ∅ (buckets b !! "ADDR4"))) as [? ->].
  { by rewrite Hcr, lookup_insert_eq. }
  split; [done|]. by exists b.
Qed.
End boltdb.

(** ** The control API and the handler, on any storage *)

(** What an acknowledged call does to the records. *)
Definition records_step (m : gmap string (list string)) (r : dnsControl * option grpcCode)
    : gmap string (list string) :=
  match r with
  | (CtlSet _ n l, None) => <[fully_qualified n := l]> m
  | (CtlDelete _ n, None) => delete (fully_qualified n) m
  | (_, Some _) => m
  end.

(** Calls served one after the other, with their status codes. *)
Fixpoint run_controls {S} `{Storage S} (rs : list dnsControl) (c : Responder S)
    : outcome (list (dnsControl * option grpcCode)) * Responder S :=
  match rs with
  | [] => (Ret [], c)
  | r :: rs' =>
      match control r c with
      | (Ret code, c') =>
          match run_controls rs' c' with
          | (Ret l, c2) => (Ret ((r, code) :: l), c2)
          | (Panic e, c2) => (Panic e, c2)
          end
      | (Panic e, c') => (Panic e, c')
      end
  end.

Section responder.
Context {S : Type} `{StorageSpec S, DnsLibLaws}.
Implicit Types (c : Responder S).

(** The responder with its storage in service, and its records. *)
Definition in_service c : Prop := st_started (storage c).
Definition records c : gmap string (list string) := st_records (storage c).

Lemma control_run r c :
  in_service c →
  ∃ code c', control r c = (Ret code, c') ∧ in_service c' ∧ forwarder c' = forwarder c ∧
    records c' = records_step (records c) (r, code).
Proof.
  intros Hc. destruct r as [t n l|t n]; simpl.
  - unfold SetAuthoritativeHost. case_bool_decide; [by eexists _, c|].
    destruct (st_set (storage c) (wrap_uint16 t) n l Hc) as (err & s' & Hrun & Hs' & Heff).
    unfold call_storage. go_unfold. rewrite Hrun.
    destruct err as [e|]; (eexists _, _; split; [done|]); [by split_and!|].
    destruct Heff as [_ Heff]. by split_and!.
  - unfold DeleteAuthoritative. case_bool_decide; [by eexists _, c|].
    destruct (st_del (storage c) (wrap_uint16 t) n Hc) as (err & s' & Hrun & Hs' & Heff).
    unfold call_storage. go_unfold. rewrite Hrun.
    destruct err as [e|]; (eexists _, _; split; [done|]); [by split_and!|].
    destruct Heff as [_ Heff]. by split_and!.
Qed.

Lemma forward_run `{Rand} q c question l :
  in_service c → msg_Opcode q = OpcodeQuery → msg_Question q = question :: l →
  answers_for (records c) (q_Name question) (q_Qtype question) = None →
  handleDNSRequest q c =
    (Ret (match forwarder c with
          | "" => mkMsg (msg_Id q) true 0 false RcodeServerFailure [question] []
          | ns => match Exchange q (ns +:+ ":53") with
                  | inl m => m
                  | inr _ => mkMsg (msg_Id q) true 0 false RcodeServerFailure [question] []
                  end
          end), c).
Proof.
  intros Hc Hop Hq Hans. unfold handleDNSRequest. rewrite bool_decide_eq_true_2, Hq by done.
  destruct (st_get (storage c) (q_Name question) (q_Qtype question) Hc) as (r & Hrun & Hr).
  fold (records c) in Hr. rewrite Hans in Hr. destruct Hr as [e ->].
  unfold call_storage, forwardRequest. go_unfold. rewrite Hrun, Hq. destruct c as [s fw]. simpl.
  rewrite SetRcode_spec, SetReply_spec, Hop, Hq. destruct fw as [|ch fw]; [done|].
  rewrite bool_decide_eq_false_2 by done. by destruct (Exchange _ _).
Qed.

Lemma answer_run `{Rand} q c question l addrs :
  in_service c → msg_Opcode q = OpcodeQuery → msg_Question q = question :: l →
  answers_for (records c) (q_Name question) (q_Qtype question) = Some addrs →
  ∃ ans, handleDNSRequest q c = (Ret (mkMsg (msg_Id q) true 0 true 0 [question] ans), c) ∧
    ans ≡ₚ a_record (q_Name question) <$> addrs.
Proof.
  intros Hc Hop Hq Hans. unfold handleDNSRequest. rewrite bool_decide_eq_true_2, Hq by done.
  destruct (st_get (storage c) (q_Name question) (q_Qtype question) Hc) as (r & Hrun & Hr).
  fold (records c) in Hr. rewrite Hans in Hr. subst r.
  destruct (shuffle_perm (a_record (q_Name question) <$> addrs)) as (ans & Hs & Hp).
  exists ans. split; [|done]. unfold call_storage. go_unfold. rewrite Hrun, Hs.
  rewrite SetReply_spec, Hop, Hq. by destruct c.
Qed.
End responder.

(** ** The theorems *)

Lemma run_controls_run `{StorageSpec St} rs (c : Responder St) :
  in_service c →
  ∃ log c', run_controls rs c = (Ret log, c') ∧ log.*1 = rs ∧ in_service c' ∧
    records c' = fold_left records_step log (records c).
Proof.
  revert c. induction rs as [|r rs IH]; intros c Hc; simpl; [by exists [], c|].
  destruct (control_run r c Hc) as (code & c1 & -> & Hc1 & _ & Hr).
  destruct (IH c1 Hc1) as (log & c2 & -> & Hlog & Hc2 & Hrec).
  exists ((r, code) :: log), c2. split; [done|]. simpl.
  split; [by rewrite <- Hlog|]. split; [done|]. by rewrite Hrec, Hr.
Qed.

(** C40: EdgeDNS on its database refines a map from fully
    qualified names to addresses: after a successful start, whatever calls of
    the control API follow, each is answered, and the records are those of the
    file changed by the acknowledged calls, in their order, and by nothing
    else. *)
Theorem edns_records_refine `{BoltLaws B, GobLaws, E : GoEnv} (d d' : BoltDB B) fw rs :
  Start d = (Ret nil_err, d') →
  ∃ b log c', bolt_Open (Filename d) = inl b ∧
    run_controls rs (mkResponder d' fw) = (Ret log, c') ∧ log.*1 = rs ∧ in_service c' ∧
    records c' =
      fold_left records_step log (omap blob_addrs (default ∅ (buckets b !! "ADDR4"))).
Proof.
  intros Hst. destruct (Start_run d _ d' Hst eq_refl) as (Hd' & b & Hb & Hrec).
  assert (in_service (mkResponder d' fw)) as Hs.
  { exact Hd'. }
  destruct (run_controls_run rs (mkResponder d' fw) Hs) as (log & c' & ? & ? & ? & Hr).
  exists b, log, c'. split_and!; [done..|]. rewrite Hr. f_equal. exact Hrec.
Qed.

(** On any storage in service, every message with a question
    is answered and changes nothing.  A query for the address of a stored name
    gets an authoritative reply to that very question with exactly the stored
    addresses, in some order; any other query gets the forwarder's reply, or a
    server failure when there is no forwarder or it fails; a message that is
    not a query is refused. *)
Theorem edns_query_exact `{StorageSpec St, DnsLibLaws, Rand} (c : Responder St) q question l :
  in_service c → msg_Question q = question :: l →
  let failure := mkMsg (msg_Id q) true 0 false RcodeServerFailure [question] [] in
  ∃ m, handleDNSRequest q c = (Ret m, c) ∧
    if bool_decide (msg_Opcode q = OpcodeQuery) then
      match answers_for (records c) (q_Name question) (q_Qtype question) with
      | Some addrs => ∃ ans, m = mkMsg (msg_Id q) true 0 true 0 [question] ans ∧
                             ans ≡ₚ a_record (q_Name question) <$> addrs
      | None => m = match forwarder c with
                    | "" => failure
                    | ns => match Exchange q (ns +:+ ":53") with
                            | inl reply => reply | inr _ => failure end
                    end
      end
    else m = mkMsg (msg_Id q) true (msg_Opcode q) false RcodeRefused [question] [].
Proof.
  intros Hc Hq failure. destruct (bool_decide_reflect (msg_Opcode q = OpcodeQuery)) as [Hop|Hop].
  - destruct (answers_for _ _ _) as [addrs|] eqn:Hans.
    + destruct (answer_run q c question l addrs) as (ans & -> & ?); try done. eauto.
    + rewrite (forward_run q c question l) by done. eauto.
  - unfold handleDNSRequest. rewrite bool_decide_eq_false_2 by done.
    eexists. split; [done|]. by rewrite SetRcode_spec, Hq.
Qed.

(** Both ways to write a name. *)
Definition names (n p : string) : Prop :=
  has_dot_suffix p = false ∧ (n = p ∨ n = p +:+ ".").

Lemma has_dot_suffix_dot p : has_dot_suffix (p +:+ ".") = true.
Proof. induction p as [|ch p IH]; [done|]. simpl. by destruct p. Qed.

Lemma fully_qualified_names n p : names n p → fully_qualified n = p +:+ ".".
Proof.
  unfold fully_qualified. intros [Hp [->| ->]]; [by rewrite Hp|]. by rewrite has_dot_suffix_dot.
Qed.

(** Once the control API has acknowledged addresses for a
    name, written with or without the final dot, a query for the fully
    qualified name is answered with authority and exactly these addresses,
    whoever is the forwarder; once it has acknowledged the deletion, again in
    either spelling, the same query gets no authoritative answer, and without a
    forwarder a server failure. *)
Theorem edns_set_then_query `{StorageSpec St, DnsLibLaws, Rand} (c c1 c2 : Responder St)
    t t' n n' p addrs q qclass l :
  in_service c → names n p → names n' p →
  control (CtlSet t n addrs) c = (Ret None, c1) →
  control (CtlDelete t' n') c1 = (Ret None, c2) →
  msg_Opcode q = OpcodeQuery → msg_Question q = mkQuestion (p +:+ ".") TypeA qclass :: l →
  (∃ m, handleDNSRequest q c1 = (Ret m, c1) ∧ msg_Authoritative m = true ∧
     msg_Id m = msg_Id q ∧ msg_Answer m ≡ₚ a_record (p +:+ ".") <$> addrs) ∧
  (forwarder c = "" →
     ∃ m, handleDNSRequest q c2 = (Ret m, c2) ∧ msg_Authoritative m = false ∧
       msg_Rcode m = RcodeServerFailure ∧ msg_Answer m = []).
Proof.
  intros Hc Hn%fully_qualified_names Hn'%fully_qualified_names Hset Hdel Hop Hq.
  destruct (control_run (CtlSet t n addrs) c Hc) as (code & c1' & Hrun & Hc1 & Hf1 & Hr1).
  rewrite Hset in Hrun. injection Hrun as <- <-.
  destruct (control_run (CtlDelete t' n') c1 Hc1) as (code & c2' & Hrun & Hc2 & Hf2 & Hr2).
  rewrite Hdel in Hrun. injection Hrun as <- <-. simpl in *. rewrite Hn in Hr1. rewrite Hn' in Hr2.
  split.
  - destruct (answer_run q c1 (mkQuestion (p +:+ ".") TypeA qclass) l addrs)
      as (ans & -> & Hans); try done; [|by eexists].
    unfold answers_for. simpl. by rewrite Hr1, lookup_insert_eq.
  - intros Hfw. eexists. split.
    + apply (forward_run q c2 (mkQuestion (p +:+ ".") TypeA qclass) l); try done.
      unfold answers_for. simpl. by rewrite Hr2, lookup_delete_eq.
    + by rewrite Hf2, Hf1, Hfw.
Qed.

(** Shuffling the answers never indexes out of range, yields
    a permutation of them whatever the random numbers, and every permutation
    is the result for some random numbers. *)
Theorem edns_shuffle_fair (rrs : list RR) :
  (∀ R : Rand, ∃ l', shuffle (H := R) rrs = Ret l') ∧
  ∀ l', (∃ R : Rand, shuffle (H := R) rrs = Ret l') ↔ l' ≡ₚ rrs.
Proof.
  split.
  - intros R. destruct (@shuffle_perm R RR rrs) as (l' & -> & _). by exists l'.
  - intros l'. split.
    + intros [R HR]. destruct (@shuffle_perm R RR rrs) as (l2 & Hl2 & ?).
      rewrite HR in Hl2. by injection Hl2 as ->.
    + by apply shuffle_loop_reaches.
Qed.

(** The record type of a deletion is cut to 16 bits: a type that is no type at
    all deletes the addresses. *)
Lemma delete_type_wraps `{Storage St} n (c : Responder St) :
  DeleteAuthoritative 65537 n c = DeleteAuthoritative RType_A n c.
Proof. done. Qed.

(** ** A run *)
Section demo.

(** A store in memory; nothing is kept under the empty bucket name. *)
Definition mem_buckets (b : gmap string (gmap string string)) := delete "" b.

#[local] Instance mem_bolt : Bolt (gmap string (gmap string string)) := {|
  bolt_Open := λ _, inl ∅;
  bolt_CreateBucketIfNotExists := λ name b,
    if bool_decide (name = "") then (errors_New "bucket name required", b)
    else (nil_err, <[name := default ∅ (b !! name)]> b);
  bolt_has_bucket := λ b name, bool_decide (is_Some (mem_buckets b !! name));
  bolt_Get := λ b name k, mem_buckets b !! name ≫= lookup k;
  bolt_Put := λ name k v b,
    if bool_decide (k = "") then (errors_New "key required", b)
    else (nil_err, <[name := <[k := v]> (default ∅ (b !! name))]> b);
  bolt_Delete := λ name k b, (nil_err, <[name := delete k (default ∅ (b !! name))]> b);
  bolt_Close := λ _, nil_err;
|}.

Lemma mem_insert (name : string) (m : gmap string string) b :
  name ≠ "" → mem_buckets (<[name := m]> b) = <[name := m]> (mem_buckets b).
Proof. intros Hn. unfold mem_buckets. by rewrite delete_insert_ne. Qed.

Lemma mem_lookup (name : string) b : name ≠ "" → mem_buckets b !! name = b !! name.
Proof. intros Hn. unfold mem_buckets. by rewrite lookup_delete_ne. Qed.

Lemma mem_named name b : is_Some (mem_buckets b !! name) → name ≠ "".
Proof. intros [m Hm] ->. unfold mem_buckets in Hm. by rewrite lookup_delete_eq in Hm. Qed.

#[local] Instance mem_bolt_laws : BoltLaws (gmap string (gmap string string)).
Proof.
  refine {| buckets := mem_buckets |}.
  - intros b. apply lookup_delete_eq.
  - done.
  - done.
  - intros b name k v Hn%mem_named. simpl. case_bool_decide; [done|]. simpl.
    by rewrite mem_insert, mem_lookup.
  - intros b name k Hn%mem_named. simpl. by rewrite mem_insert, mem_lookup.
  - intros b name. simpl. case_bool_decide; [done|]. intros _. simpl.
    by rewrite mem_insert, mem_lookup.
Defined.

#[local] Instance demo_gob : Gob := {|
  rrSet_encode := λ r, Some (String "g" (letters (encode (Rrtype r, Answers r))));
  rrSet_decode := λ s,
    match s with
    | "" => None
    | String _ s' => (λ p, mkRrSet p.1 p.2) <$> decode (A := Z * list string) (unletters s')
    end;
|}.

#[local] Instance demo_gob_laws : GobLaws.
Proof.
  split. intros [t l] blob. simpl. intros [= <-]. split; [done|].
  by rewrite unletters_letters, decode_encode.
Qed.

#[local] Instance demo_dns : DnsLib := {|
  SetReply := λ m q, mkMsg (msg_Id q) true (msg_Opcode q) (msg_Authoritative m) 0
    (take 1 (msg_Question q)) (msg_Answer m);
  SetRcode := λ m q rcode, mkMsg (msg_Id q) true (msg_Opcode q) (msg_Authoritative m) rcode
    (take 1 (msg_Question q)) (msg_Answer m);
  Exchange := λ _ _, inr "no network";
|}.
#[local] Instance demo_dns_laws : DnsLibLaws.
Proof. by split. Qed.
#[local] Existing Instance zero_draws.

Abbreviation demo_db := (BoltDB (gmap string (gmap string string))).
Definition dns_file : demo_db := mkBoltDB "rrsets.db" None.
Definition dns_up : Responder demo_db := mkResponder (exec Start dns_file) "".
Definition dns_set : dnsControl := CtlSet RType_A "cam.edge" ["1234"; "5678"].
Definition dns_c1 : Responder demo_db := exec (control dns_set) dns_up.
Definition dns_c2 : Responder demo_db := exec (control (CtlDelete RType_A "cam.edge.")) dns_c1.
Definition dns_query : Msg :=
  mkMsg 7 false OpcodeQuery false 0 [mkQuestion "cam.edge." TypeA ClassINET] [].

Lemma dns_started : Start dns_file = (Ret nil_err, exec Start dns_file).
Proof. vm_compute. reflexivity. Qed.

Lemma dns_in_service : in_service dns_up.
Proof. exact (proj1 (Start_run _ _ _ dns_started eq_refl)). Qed.

Lemma edns_records_refine_witness :
  ∃ log c', run_controls [dns_set] dns_up = (Ret log, c') ∧ log.*1 = [dns_set] ∧
    records c' = fold_left records_step log ∅.
Proof.
  destruct (edns_records_refine dns_file (exec Start dns_file) "" [dns_set] dns_started)
    as (b & log & c' & Hb & Hrun & Hlog & _ & Hrec).
  exists log, c'. injection Hb as <-. exact (conj Hrun (conj Hlog Hrec)).
Defined.

Lemma edns_query_exact_witness :
  ∃ m, handleDNSRequest dns_query dns_up = (Ret m, dns_up) ∧ msg_Rcode m = RcodeServerFailure.
Proof.
  destruct (edns_query_exact dns_up dns_query _ _ dns_in_service eq_refl) as (m & Hrun & Hm).
  exists m. split; [exact Hrun|]. vm_compute in Hm. rewrite Hm. reflexivity.
Defined.

Lemma edns_set_then_query_witness :
  ∃ m, handleDNSRequest dns_query dns_c1 = (Ret m, dns_c1) ∧ msg_Authoritative m = true ∧
    msg_Answer m ≡ₚ a_record "cam.edge." <$> ["1234"; "5678"].
Proof.
  destruct (edns_set_then_query dns_up dns_c1 dns_c2 RType_A RType_A "cam.edge" "cam.edge."
    "cam.edge" ["1234"; "5678"] dns_query ClassINET [] dns_in_service)
    as [(m & Hrun & Ha & _ & Hans) _].
  - split; [reflexivity|left; reflexivity].
  - split; [reflexivity|right; reflexivity].
  - vm_compute. reflexivity.
  - vm_compute. reflexivity.
  - reflexivity.
  - reflexivity.
  - exists m. exact (conj Hrun (conj Ha Hans)).
Defined.

(** The names of questions are compared byte by byte: a query that writes the
    stored name with other capitals does not find it. *)
Example edns_case_sensitive :
  msg_Rcode <$> (match handleDNSRequest
      (mkMsg 7 false OpcodeQuery false 0 [mkQuestion "Cam.edge." TypeA ClassINET] []) dns_c1 with
    | (Ret m, _) => Some m | _ => None end) = Some RcodeServerFailure.
Proof. vm_compute. reflexivity. Qed.
End demo.
