(* ===== verification/GoNet.v ===== *)
(** * [net]

    The functions of Go's [net] package that the controller checks addresses
    with: [ParseIP], [ParseMAC], [ParseCIDR], [IP.Mask], [IP.Equal] and the
    masks of networks.  An [IP] is the list of its bytes: [ParseIP] yields
    sixteen bytes, an IPv4 address being [::ffff:a.b.c.d], and masking with a
    four-byte mask yields the four bytes of an IPv4 address. *)

From S2P Require Import Prelude Strconv.
From stdpp Require Import prelude strings list.
From Stdlib Require Import ZArith Ascii.

Local Open Scope Z_scope.

(** ** Numbers *)

(** The value of a hexadecimal digit. *)
Definition hex_of (c : ascii) : option Z :=
  let n := Z.of_nat (nat_of_ascii c) in
  if bool_decide (48 ≤ n ≤ 57) then Some (n - 48)
  else if bool_decide (97 ≤ n ≤ 102) then Some (n - 97 + 10)
  else if bool_decide (65 ≤ n ≤ 70) then Some (n - 65 + 10)
  else None.

(** The bound of [dtoi] and [xtoi]. *)
Definition big : Z := 16777215.

(** The digit loop of [dtoi] and [xtoi]: the number, how many characters were
    read, and what follows them; [None] on overflow. *)
Fixpoint scan_digits (digit : ascii → option Z) (base : Z) (s : string) (n : Z)
    (count : nat) : option (Z * nat * string) :=
  match s with
  | EmptyString => Some (n, count, s)
  | String c s' =>
      match digit c with
      | None => Some (n, count, s)
      | Some d =>
          let n' := n * base + d in
          if bool_decide (big ≤ n') then None
          else scan_digits digit base s' n' (S count)
      end
  end.

(** A number at the head of a text, and the rest of the text. *)
Definition scan_number (digit : ascii → option Z) (base : Z) (s : string)
    : option (Z * nat * string) :=
  match scan_digits digit base s 0 0 with
  | Some (n, S c, rest) => Some (n, S c, rest)
  | _ => None
  end.

Definition dtoi : string → option (Z * nat * string) := scan_number digit_of 10.
Definition xtoi : string → option (Z * nat * string) := scan_number hex_of 16.

(** ** Addresses *)

Definition IPv4len : nat := 4.
Definition IPv6len : nat := 16.

Definition v4InV6Prefix : list Z := [0;0;0;0;0;0;0;0;0;0;255;255].

(** The octets of [parseIPv4]: [first] tells that no dot precedes. *)
Fixpoint parse_octets (k : nat) (first : bool) (s : string) (acc : list Z)
    : option (list Z) :=
  match k with
  | O => if str_empty s then Some acc else None
  | S k' =>
      match s with
      | EmptyString => None
      | String c s' =>
          if negb first && bool_decide (c ≠ "."%char) then None else
          match dtoi (if first then s else s') with
          | Some (n, _, rest) =>
              if bool_decide (255 < n) then None
              else parse_octets k' false rest (acc ++ [n])
          | None => None
          end
      end
  end.

Definition parseIPv4 (s : string) : option (list Z) :=
  match parse_octets IPv4len true s [] with
  | Some p => Some (v4InV6Prefix ++ p)
  | None => None
  end.

(** The loop of [parseIPv6] over the groups: the bytes so far, where the
    ellipsis stands, and the rest of the text.  Eight rounds fill the address. *)
Fixpoint parse_groups (rounds : nat) (s : string) (ip : list Z) (ellipsis : option nat)
    : option (list Z * option nat * string) :=
  match rounds with
  | O => Some (ip, ellipsis, s)
  | S rounds' =>
      match xtoi s with
      | None => None
      | Some (n, _, rest) =>
          if bool_decide (65535 < n) then None else
          match rest with
          | String "." _ =>
              if bool_decide (ellipsis = None) && bool_decide (length ip ≠ 12%nat) then None
              else if bool_decide (12 < length ip)%nat then None
              else match parseIPv4 s with
                   | Some ip4 => Some (ip ++ drop 12 ip4, ellipsis, "")
                   | None => None
                   end
          | _ =>
              let ip' := ip ++ [Z.shiftr n 8; n mod 256] in
              match rest with
              | EmptyString => Some (ip', ellipsis, "")
              | String ":" (String c rest') =>
                  if bool_decide (c = ":"%char) then
                    if bool_decide (ellipsis ≠ None) then None
                    else if str_empty rest' then Some (ip', Some (length ip'), "")
                    else parse_groups rounds' rest' ip' (Some (length ip'))
                  else parse_groups rounds' (String c rest') ip' ellipsis
              | _ => None
              end
          end
      end
  end.

(** Expands the ellipsis. *)
Definition expand_ellipsis (ip : list Z) (ellipsis : option nat) : option (list Z) :=
  if bool_decide (length ip < IPv6len)%nat then
    match ellipsis with
    | None => None
    | Some e => Some (take e ip ++ replicate (IPv6len - length ip) 0 ++ drop e ip)
    end
  else if bool_decide (ellipsis ≠ None) then None else Some ip.

Definition parseIPv6 (s : string) : option (list Z) :=
  let '(ellipsis, s1) :=
    match s with
    | String ":" (String ":" s') => (Some 0%nat, s')
    | _ => (None, s)
    end in
  if bool_decide (ellipsis = Some 0%nat) && str_empty s1 then Some (replicate IPv6len 0)
  else
    match parse_groups 8 s1 [] ellipsis with
    | Some (ip, e, rest) => if str_empty rest then expand_ellipsis ip e else None
    | None => None
    end.

(** [net.ParseIP]: the first dot or colon tells the kind of address. *)
Fixpoint ip_kind (s : string) : option bool :=
  match s with
  | EmptyString => None
  | String "." _ => Some true
  | String ":" _ => Some false
  | String _ s' => ip_kind s'
  end.

Definition ParseIP (s : string) : option (list Z) :=
  match ip_kind s with
  | Some true => parseIPv4 s
  | Some false => parseIPv6 s
  | None => None
  end.

(** [ip.To4()]. *)
Definition To4 (ip : list Z) : option (list Z) :=
  if bool_decide (length ip = IPv4len) then Some ip
  else if bool_decide (length ip = IPv6len ∧ take 12 ip = v4InV6Prefix)
  then Some (drop 12 ip) else None.

(** [ip.Equal(x)]. *)
Definition IP_Equal (ip x : list Z) : bool :=
  if bool_decide (length ip = length x) then bool_decide (ip = x)
  else if bool_decide (length ip = IPv4len ∧ length x = IPv6len)
  then bool_decide (take 12 x = v4InV6Prefix ∧ ip = drop 12 x)
  else if bool_decide (length ip = IPv6len ∧ length x = IPv4len)
  then bool_decide (take 12 ip = v4InV6Prefix ∧ drop 12 ip = x)
  else false.

(** [ip.IsUnspecified()]: [0.0.0.0] or [::]. *)
Definition IsUnspecified (ip : list Z) : bool :=
  IP_Equal ip (v4InV6Prefix ++ replicate 4 0) || IP_Equal ip (replicate IPv6len 0).

(** ** Networks *)

Record IPNet := mkIPNet { IPNet_IP : list Z; IPNet_Mask : list Z }.

(** One byte of a mask with [n] leading ones, [^byte(0xff >> n)]. *)
Definition mask_byte (n : nat) : Z := Z.lxor 255 (Z.shiftr 255 (Z.of_nat n)).

(** [net.CIDRMask(ones, 8 * len)]. *)
Fixpoint CIDRMask (len ones : nat) : list Z :=
  match len with
  | O => []
  | S len' =>
      if bool_decide (8 ≤ ones)%nat then 255 :: CIDRMask len' (ones - 8)
      else mask_byte ones :: CIDRMask len' 0
  end.

(** [ip.Mask(mask)]; [[]] is the nil address. *)
Definition IP_Mask (ip mask : list Z) : list Z :=
  let mask' := if bool_decide (length mask = IPv6len ∧ length ip = IPv4len
                               ∧ take 12 mask = replicate 12 255)
               then drop 12 mask else mask in
  let ip' := if bool_decide (length mask' = IPv4len ∧ length ip = IPv6len
                             ∧ take 12 ip = v4InV6Prefix)
             then drop 12 ip else ip in
  if bool_decide (length ip' = length mask') then zip_with Z.land ip' mask' else [].

(** [simpleMaskLength]: the leading ones of a mask that has no one behind
    them, by byte. *)
Fixpoint leading_ones (k : nat) (b : Z) (n : nat) : option nat :=
  match k with
  | O => Some n
  | S k' => if Z.testbit b 7 then leading_ones k' (Z.shiftl b 1 mod 256) (S n)
            else if bool_decide (b = 0) then Some n else None
  end.

Fixpoint simpleMaskLength (mask : list Z) (n : nat) : option nat :=
  match mask with
  | [] => Some n
  | v :: mask' =>
      if bool_decide (v = 255) then simpleMaskLength mask' (n + 8)
      else match leading_ones 8 v 0 with
           | None => None
           | Some k => if forallb (λ b, bool_decide (b = 0)) mask'
                       then Some (n + k)%nat else None
           end
  end.

(** The first result of [m.Size()]. *)
Definition Mask_Size (mask : list Z) : nat :=
  match simpleMaskLength mask 0 with Some n => n | None => 0 end.

(** [networkNumberAndMask]. *)
Definition networkNumberAndMask (n : IPNet) : option (list Z * list Z) :=
  match (match To4 (IPNet_IP n) with
         | Some ip => Some ip
         | None => if bool_decide (length (IPNet_IP n) = IPv6len)
                   then Some (IPNet_IP n) else None
         end) with
  | None => None
  | Some ip =>
      if bool_decide (length (IPNet_Mask n) = IPv4len) then
        if bool_decide (length ip = IPv4len) then Some (ip, IPNet_Mask n) else None
      else if bool_decide (length (IPNet_Mask n) = IPv6len) then
        Some (ip, if bool_decide (length ip = IPv4len)
                  then drop 12 (IPNet_Mask n) else IPNet_Mask n)
      else None
  end.

(** [a.String() == b.String()]: the text of a network is the text of its
    number and mask, and different numbers and masks have different texts. *)
Definition IPNet_String_eq (a b : IPNet) : bool :=
  match networkNumberAndMask a, networkNumberAndMask b with
  | Some (na, ma), Some (nb, mb) => bool_decide (na = nb ∧ ma = mb)
  | None, None => true
  | _, _ => false
  end.

(** Cuts a text at the first [c]. *)
Fixpoint cut_first (c : ascii) (s : string) : option (string * string) :=
  match s with
  | EmptyString => None
  | String d s' =>
      if bool_decide (d = c) then Some ("", s')
      else match cut_first c s' with
           | Some (a, b) => Some (String d a, b)
           | None => None
           end
  end.

(** [net.ParseCIDR]: the address and its network. *)
Definition ParseCIDR (s : string) : (list Z * IPNet) + string :=
  let parse_error := "invalid CIDR address: " +:+ s in
  match cut_first "/" s with
  | None => inr parse_error
  | Some (addr, mask) =>
      let '(iplen, ip) := match parseIPv4 addr with
                          | Some ip => (IPv4len, Some ip)
                          | None => (IPv6len, parseIPv6 addr)
                          end in
      match ip, dtoi mask with
      | Some ip, Some (n, i, _) =>
          if bool_decide (i ≠ String.length mask)
             || bool_decide (n < 0 ∨ Z.of_nat (8 * iplen) < n)
          then inr parse_error
          else let m := CIDRMask iplen (Z.to_nat n) in
               inl (ip, mkIPNet (IP_Mask ip m) m)
      | _, _ => inr parse_error
      end
  end.

(** ** Hardware addresses *)

(** [s[i]]. *)
Definition char_at (i : nat) (s : string) : option ascii := String.get i s.

(** [xtoi2(s, e)]; [e = None] stands for the byte 0. *)
Definition xtoi2 (s : string) (e : option ascii) : option Z :=
  if bool_decide (2 < String.length s)%nat &&
     bool_decide (char_at 2 s ≠ Some (default "000"%char e))
  then None
  else match xtoi (String.substring 0 2 s) with
       | Some (n, ei, _) => if bool_decide (ei = 2%nat) then Some n else None
       | None => None
       end.

(** The bytes at the given offsets. *)
Fixpoint parse_mac_at (s : string) (offs : list (nat * option nat * option ascii))
    : option (list Z) :=
  match offs with
  | [] => Some []
  | (x, width, e) :: offs' =>
      let part := String.substring x (default (String.length s - x)%nat width) s in
      match xtoi2 part e, parse_mac_at s offs' with
      | Some b, Some bs => Some (b :: bs)
      | _, _ => None
      end
  end.

(** [net.ParseMAC]. *)
Definition ParseMAC (s : string) : list Z + string :=
  let len := String.length s in
  let bad := inr ((if str_empty s then "" else "address " +:+ s +:+ ": ")
                  +:+ "invalid MAC address") in
  let finish r := match r with Some hw => inl hw | None => bad end in
  if bool_decide (len < 14)%nat then bad
  else if bool_decide (char_at 2 s = Some ":"%char ∨ char_at 2 s = Some "-"%char) then
    let n := ((len + 1) / 3)%nat in
    if bool_decide ((len + 1) mod 3 ≠ 0)%nat then bad
    else if bool_decide (n ≠ 6 ∧ n ≠ 8 ∧ n ≠ 20)%nat then bad
    else finish (parse_mac_at s ((λ i, ((3 * i)%nat, None, char_at 2 s)) <$> seq 0 n))
  else if bool_decide (char_at 4 s = Some "."%char) then
    let n := (2 * (len + 1) / 5)%nat in
    if bool_decide ((len + 1) mod 5 ≠ 0)%nat then bad
    else if bool_decide (n ≠ 6 ∧ n ≠ 8 ∧ n ≠ 20)%nat then bad
    else finish (parse_mac_at s (concat ((λ i,
           [((5 * i)%nat, Some 2%nat, None);
            ((5 * i + 2)%nat, None, char_at 4 s)]) <$> seq 0 (n / 2))))
  else bad.

(** ** Examples *)

Example ParseIP_v4 : ParseIP "10.16.0.255" = Some (v4InV6Prefix ++ [10;16;0;255]).
Proof. vm_compute. reflexivity. Qed.

Example ParseIP_v6 :
  ParseIP "fe80::1:ff" = Some [254;128;0;0;0;0;0;0;0;0;0;0;0;1;0;255].
Proof. vm_compute. reflexivity. Qed.

Example ParseIP_refused :
  ParseIP "10.0.256.1" = None ∧ ParseIP "1.2.3" = None ∧ ParseIP "1::2::3" = None
  ∧ ParseIP "localhost" = None.
Proof. vm_compute. auto. Qed.

Example ParseCIDR_v4 :
  ParseCIDR "10.1.2.3/12"
  = inl (v4InV6Prefix ++ [10;1;2;3], mkIPNet [10;0;0;0] [255;240;0;0]).
Proof. vm_compute. reflexivity. Qed.

Example ParseMAC_ok :
  ParseMAC "F0-59-8E-7B-36-8A" = inl [240;89;142;123;54;138]
  ∧ ParseMAC "f059.8e7b.368a" = inl [240;89;142;123;54;138].
Proof. vm_compute. auto. Qed.

Example ParseMAC_bad :
  ParseMAC "F0-59-8E-7B-36" = inr "address F0-59-8E-7B-36: invalid MAC address".
Proof. vm_compute. reflexivity. Qed.

(** ** Masks *)

Lemma length_CIDRMask len ones : length (CIDRMask len ones) = len.
Proof. revert ones. induction len; intros ones; simpl; [done|]. case_bool_decide; simpl; auto. Qed.

(** A mask with more ones covers one with fewer. *)
Lemma mask_byte_land (a b : nat) :
  (a ≤ b)%nat → (b < 8)%nat → Z.land (mask_byte b) (mask_byte a) = mask_byte a.
Proof.
  intros Ha Hb. do 8 (destruct b as [|b]; [do 8 (destruct a as [|a]; [first [lia|reflexivity]|]); lia|]). lia.
Qed.

Lemma mask_byte_255 (a : nat) : (a < 8)%nat → Z.land 255 (mask_byte a) = mask_byte a.
Proof. intros Ha. do 8 (destruct a as [|a]; [done|]). lia. Qed.

Lemma CIDRMask_land len a b :
  (a ≤ b)%nat → zip_with Z.land (CIDRMask len b) (CIDRMask len a) = CIDRMask len a.
Proof.
  revert a b. induction len as [|len IH]; intros a b Hab; simpl; [done|].
  repeat case_bool_decide; simpl; try lia; rewrite IH by lia; f_equal.
  - apply mask_byte_255. lia.
  - apply mask_byte_land; lia.
Qed.

(** The leading ones of a mask are the ones it was made with. *)
Lemma leading_ones_mask_byte n : (n < 8)%nat → leading_ones 8 (mask_byte n) 0 = Some n.
Proof. intros Hn. do 8 (destruct n as [|n]; [done|]). lia. Qed.

Lemma CIDRMask_zero len : forallb (λ b, bool_decide (b = 0)) (CIDRMask len 0) = true.
Proof. induction len; simpl; [done|]. by rewrite IHlen. Qed.

Lemma simpleMaskLength_CIDRMask len ones n :
  (ones ≤ 8 * len)%nat → simpleMaskLength (CIDRMask len ones) n = Some (n + ones)%nat.
Proof.
  revert ones n. induction len as [|len IH]; intros ones n Hle.
  { assert (ones = 0)%nat as -> by lia. simpl. f_equal. lia. }
  cbn [CIDRMask]. case_bool_decide; cbn [simpleMaskLength].
  - rewrite bool_decide_eq_true_2 by done. rewrite IH by lia. f_equal. lia.
  - rewrite bool_decide_eq_false_2.
    + rewrite leading_ones_mask_byte by lia. by rewrite CIDRMask_zero.
    + do 8 (destruct ones as [|ones]; [done|]). lia.
Qed.

Lemma Mask_Size_CIDRMask len ones :
  (ones ≤ 8 * len)%nat → Mask_Size (CIDRMask len ones) = ones.
Proof. intros. unfold Mask_Size. by rewrite simpleMaskLength_CIDRMask. Qed.
