(* ===== verification/Json.v ===== *)
(** * [encoding/json]

    The rows of the controller's tables are JSON documents.  A document is a
    value of [json]; [Json] says how a Go type is written by [json.Marshal] and
    read by [json.Unmarshal] into a fresh value: unknown members are ignored,
    missing members and [null] leave the zero value, a member of another kind
    is an error.  Only documents that the services write themselves are read
    back this way, so numbers fit the integer types they are read into.  A nil
    slice and an empty one are the same list, except where the sources tell
    them apart, where the type is [option (list A)]. *)

From S2P Require Import Prelude.
From stdpp Require Import prelude strings list.
From Stdlib Require Import ZArith.

Local Open Scope Z_scope.

Inductive json :=
| JNull
| JStr (s : string)
| JBool (b : bool)
| JNum (z : Z)
| JArr (l : list json)
| JObj (members : list (string * json)).

(** The member of an object. *)
Fixpoint member (k : string) (ms : list (string * json)) : option json :=
  match ms with
  | [] => None
  | (k', j) :: ms' => if bool_decide (k = k') then Some j else member k ms'
  end.

Class Json (A : Type) := {
  to_json : A → json;
  of_json : json → option A;
  zero_value : A;
}.

(** What is written is read back, and a value is not written as [null]. *)
Class JsonOk (A : Type) `{Json A} := of_to_json : ∀ a : A, of_json (to_json a) = Some a.
Class JsonNN (A : Type) `{Json A} := to_json_nonnull : ∀ a : A, to_json a ≠ JNull.

(** Reads a member of an object. *)
Definition field `{Json A} (ms : list (string * json)) (k : string) : option A :=
  match member k ms with
  | None => Some zero_value
  | Some j => of_json j
  end.

(** Reads an object; [null] leaves the zero value. *)
Definition of_object {A} (zv : A) (f : list (string * json) → option A) (j : json)
    : option A :=
  match j with
  | JNull => Some zv
  | JObj ms => f ms
  | _ => None
  end.

#[export] Instance Json_string : Json string := {|
  to_json := JStr;
  of_json := λ j, match j with JNull => Some "" | JStr s => Some s | _ => None end;
  zero_value := "";
|}.

#[export] Instance Json_Z : Json Z := {|
  to_json := JNum;
  of_json := λ j, match j with JNull => Some 0 | JNum z => Some z | _ => None end;
  zero_value := 0;
|}.

#[export] Instance Json_list `{Json A} : Json (list A) := {|
  to_json := λ l, JArr (to_json <$> l);
  of_json := λ j, match j with
                  | JNull => Some []
                  | JArr l => mapM of_json l
                  | _ => None
                  end;
  zero_value := [];
|}.

(** A pointer, or a slice that may be nil. *)
#[export] Instance Json_option `{Json A} : Json (option A) := {|
  to_json := λ o, match o with None => JNull | Some a => to_json a end;
  of_json := λ j, match j with JNull => Some None | _ => Some <$> of_json j end;
  zero_value := None;
|}.

#[export] Instance JsonOk_string : JsonOk string.
Proof. by intros s. Qed.
#[export] Instance JsonNN_string : JsonNN string.
Proof. by intros s. Qed.
#[export] Instance JsonOk_Z : JsonOk Z.
Proof. by intros s. Qed.
#[export] Instance JsonNN_Z : JsonNN Z.
Proof. by intros s. Qed.

#[export] Instance JsonOk_list `{JsonOk A} : JsonOk (list A).
Proof.
  intros l. simpl. induction l as [|a l IH]; [done|].
  rewrite fmap_cons. cbn [mapM]. rewrite of_to_json. simpl. by rewrite IH.
Qed.
#[export] Instance JsonNN_list `{Json A} : JsonNN (list A).
Proof. by intros l. Qed.

#[export] Instance JsonOk_option `{Json A, !JsonOk A, !JsonNN A} : JsonOk (option A).
Proof.
  intros [a|]; [|done]. simpl. pose proof (to_json_nonnull a) as Hn.
  pose proof (of_to_json a) as Ho. destruct (to_json a); simpl; by rewrite ?Ho.
Qed.

(** A member that is left out when it is empty ([omitempty]). *)
Definition omitempty `{Json A} (k : string) (l : list A) : list (string * json) :=
  match l with [] => [] | _ => [(k, to_json l)] end.

(** ** Reading members *)
Lemma field_hit `{JsonOk A} k (a : A) ms : field ((k, to_json a) :: ms) k = Some a.
Proof. unfold field. simpl. rewrite bool_decide_eq_true_2 by done. apply of_to_json. Qed.

Lemma field_skip `{Json A} k k' j ms :
  k ≠ k' → field (A:=A) ((k', j) :: ms) k = field ms k.
Proof. intros. unfold field. simpl. by rewrite bool_decide_eq_false_2. Qed.

Lemma field_omitempty_hit `{JsonOk A} k (l : list A) : field (omitempty k l) k = Some l.
Proof. destruct l as [|a l]; [done|]. exact (field_hit k (a :: l) []). Qed.

Lemma field_omitempty_skip `{Json A, Json B} k k' (l : list B) ms :
  k ≠ k' → field (A:=A) (omitempty k' l ++ ms) k = field ms k.
Proof. intros. destruct l as [|b l]; [done|]. by apply field_skip. Qed.

Lemma field_omitempty_app `{JsonOk A} k (l : list A) ms :
  member k ms = None → field (omitempty k l ++ ms) k = Some l.
Proof.
  intros Hm. destruct l as [|a l]; [unfold field; simpl; by rewrite Hm|].
  exact (field_hit k (a :: l) ms).
Qed.

Lemma member_omitempty `{Json B} k k' (l : list B) :
  k ≠ k' → member k (omitempty k' l) = None.
Proof. intros. destruct l as [|b l]; [done|]. simpl. by rewrite bool_decide_eq_false_2. Qed.

(** A text or a number that is left out when it is zero. *)
Definition omit_zero {A} `{Json A, EqDecision A} (k : string) (a : A)
    : list (string * json) :=
  if decide (a = zero_value) then [] else [(k, to_json a)].

Lemma field_omit_zero `{JsonOk A, EqDecision A} k (a : A) ms :
  member k ms = None → field (omit_zero k a ++ ms) k = Some a.
Proof.
  intros Hm. unfold omit_zero. case_decide as Ha; subst.
  - unfold field. simpl. by rewrite Hm.
  - apply field_hit.
Qed.

Lemma field_omit_zero_skip `{Json A, Json B, EqDecision B} k k' (b : B) ms :
  k ≠ k' → field (A:=A) (omit_zero k' b ++ ms) k = field ms k.
Proof. intros. unfold omit_zero. case_decide; [done|]. by apply field_skip. Qed.

Lemma member_omit_zero `{Json B, EqDecision B} k k' (b : B) ms :
  k ≠ k' → member k ms = None → member k (omit_zero k' b ++ ms) = None.
Proof.
  intros. unfold omit_zero. case_decide; [done|]. simpl. by rewrite bool_decide_eq_false_2.
Qed.

Lemma member_skip k k' j ms : k ≠ k' → member k ((k', j) :: ms) = member k ms.
Proof. intros. simpl. by rewrite bool_decide_eq_false_2. Qed.

(** Proves that a structure with the encoding [inst] is read back. *)
Ltac json_read inst :=
  unfold inst;
  cbn [to_json of_json of_object app];
  repeat (first [rewrite field_hit | rewrite field_skip by done
                | rewrite field_omitempty_hit
                | rewrite field_omitempty_skip by done
                | rewrite field_omitempty_app by (by apply member_omitempty) ]; cbn [mbind option_bind]);
  try reflexivity.

Ltac json_ok inst := let r := fresh in intros r; destruct r; json_read inst.

(** Proves that a structure is written as an object. *)
Ltac json_nn := by intros [].
