(* ===== verification/JsonWire.v ===== *)
(** * JSON between two programs

    Structures that one program writes and another reads.  [omitempty] is
    decided by Go's notion of an empty value ([GoEmpty]); an integer is read
    only when it fits its type.  [Wire A B] states what a reader with type [B]
    obtains from what a writer with type [A] wrote, for the values that pass
    [wire_ok]. *)

From S2P Require Import Prelude Json.
From stdpp Require Import prelude gmap strings list.
From Stdlib Require Import ZArith.

Local Open Scope Z_scope.

#[export] Instance Json_bool : Json bool := {|
  to_json := JBool;
  of_json := λ j, match j with JNull => Some false | JBool b => Some b | _ => None end;
  zero_value := false;
|}.

(** A map with string keys.  The order in which the members are written does
    not matter to the reader. *)
#[export] Instance Json_gmap `{Json A} : Json (gmap string A) := {|
  to_json := λ m, JObj ((λ kv, (kv.1, to_json kv.2)) <$> map_to_list m);
  of_json := λ j, match j with
                  | JNull => Some ∅
                  | JObj ms => list_to_map <$> mapM (λ kv, pair kv.1 <$> of_json kv.2) ms
                  | _ => None
                  end;
  zero_value := ∅;
|}.

(** ** Empty values *)
Class GoEmpty (A : Type) := go_empty : A → bool.

#[export] Instance GoEmpty_string : GoEmpty string := λ s, bool_decide (s = "").
#[export] Instance GoEmpty_Z : GoEmpty Z := λ z, bool_decide (z = 0).
#[export] Instance GoEmpty_bool : GoEmpty bool := negb.
#[export] Instance GoEmpty_list {A} : GoEmpty (list A) :=
  λ l, match l with [] => true | _ => false end.
#[export] Instance GoEmpty_gmap {A} : GoEmpty (gmap string A) := λ m, bool_decide (size m = 0%nat).
(** A pointer; a slice that may be nil is empty also when it has length 0. *)
#[export] Instance GoEmpty_option {A} : GoEmpty (option A) | 10 :=
  λ o, match o with None => true | Some _ => false end.
#[export] Instance GoEmpty_slice {A} : GoEmpty (option (list A)) | 5 :=
  λ o, match o with None | Some [] => true | _ => false end.

(** ** Objects *)

(** A member that is always written, and one with [omitempty]. *)
Definition always `{Json A} (a : A) : option json := Some (to_json a).
Definition unless_empty `{Json A, GoEmpty A} (a : A) : option json :=
  if go_empty a then None else Some (to_json a).

(** The members that are written. *)
Definition written (fs : list (string * option json)) : list (string * json) :=
  omap (λ kv, pair kv.1 <$> kv.2) fs.
Definition obj (fs : list (string * option json)) : json := JObj (written fs).

(** The member of a key, if it is written. *)
Fixpoint get (k : string) (fs : list (string * option json)) : option json :=
  match fs with
  | [] => None
  | (k', o) :: fs' => if String.eqb k k' then o else get k fs'
  end.

(** Reads a member that may be absent. *)
Definition read_opt `{Json A} (o : option json) : option A :=
  match o with None => Some zero_value | Some j => of_json j end.

(** The bounds of the integer types. *)
Definition int32_min : Z := - 2 ^ 31.
Definition int32_max : Z := 2 ^ 31 - 1.
Definition int_min : Z := - 2 ^ 63.
Definition uint8_max : Z := 2 ^ 8 - 1.
Definition uint32_max : Z := 2 ^ 32 - 1.
Definition uint64_max : Z := 2 ^ 64 - 1.

(** Reads an integer that has to lie between [lo] and [hi]. *)
Definition in_range (lo hi z : Z) : bool := bool_decide (lo ≤ z ≤ hi).
Definition read_int (lo hi : Z) (o : option json) : option Z :=
  match o with
  | None | Some JNull => Some 0
  | Some (JNum z) => if in_range lo hi z then Some z else None
  | Some _ => None
  end.
Definition field_int (lo hi : Z) (ms : list (string * json)) (k : string) : option Z :=
  read_int lo hi (member k ms).

(** Reads a pointer to an integer. *)
Definition read_opt_int (lo hi : Z) (o : option json) : option (option Z) :=
  match o with
  | None | Some JNull => Some None
  | Some (JNum z) => if in_range lo hi z then Some (Some z) else None
  | Some _ => None
  end.
Definition field_opt_int (lo hi : Z) (ms : list (string * json)) (k : string)
    : option (option Z) :=
  read_opt_int lo hi (member k ms).

Lemma member_absent k fs : k ∉ fs.*1 → member k (written fs) = None.
Proof.
  induction fs as [|[k' [j|]] fs IH]; [done|..]; cbn; intros Hk.
  - rewrite bool_decide_eq_false_2 by set_solver. apply IH. set_solver.
  - apply IH. set_solver.
Qed.

Lemma member_written k fs : NoDup fs.*1 → member k (written fs) = get k fs.
Proof.
  induction fs as [|[k' o] fs IH]; [done|]. cbn. intros [Hni Hnd]%NoDup_cons.
  destruct (String.eqb_spec k k') as [<-|Hk].
  - destruct o as [j|]; cbn; [by rewrite bool_decide_eq_true_2|by apply member_absent].
  - destruct o as [j|]; cbn; [|by apply IH]. rewrite bool_decide_eq_false_2 by done. by apply IH.
Qed.

Lemma field_read `{Json A} k fs :
  NoDup fs.*1 → field (A:=A) (written fs) k = read_opt (get k fs).
Proof. intros. unfold field, read_opt. by rewrite member_written. Qed.
Lemma field_read_int lo hi k fs :
  NoDup fs.*1 → field_int lo hi (written fs) k = read_int lo hi (get k fs).
Proof. intros. unfold field_int. by rewrite member_written. Qed.
Lemma field_read_opt_int lo hi k fs :
  NoDup fs.*1 → field_opt_int lo hi (written fs) k = read_opt_int lo hi (get k fs).
Proof. intros. unfold field_opt_int. by rewrite member_written. Qed.

(** ** What the reader obtains *)
Class Wire (A B : Type) `{Json A, Json B, GoEmpty A} := {
  wire_ok : A → bool;
  wire : A → B;
  wire_read : ∀ a, wire_ok a = true → go_empty a = false → of_json (to_json a) = Some (wire a);
  wire_empty : ∀ a, go_empty a = true → wire a = zero_value;
}.
Arguments wire_ok {A} B {_ _ _ _} a.
Arguments wire {A} B {_ _ _ _} a.

(** Empty values are read back too, so the member may also be written always. *)
Class WireAlways (A B : Type) `{Wire A B} : Prop :=
  wire_always : ∀ a : A, wire_ok B a = true → of_json (to_json a) = Some (wire B a).

Lemma read_always `{WireAlways A B} (a : A) :
  wire_ok B a = true → read_opt (always a) = Some (wire B a).
Proof. apply wire_always. Qed.

Lemma read_unless_empty `{Wire A B} (a : A) :
  wire_ok B a = true → read_opt (unless_empty a) = Some (wire B a).
Proof.
  intros Hok. unfold unless_empty. destruct (go_empty a) eqn:E; simpl.
  - by rewrite wire_empty.
  - by apply wire_read.
Qed.

Lemma read_int_always lo hi z :
  in_range lo hi z = true → read_int lo hi (always z) = Some z.
Proof. intros E. cbn. by rewrite E. Qed.

Lemma read_int_unless_empty lo hi z :
  in_range lo hi z = true → read_int lo hi (unless_empty z) = Some z.
Proof.
  intros E. unfold unless_empty, go_empty, GoEmpty_Z. case_bool_decide; subst; [done|].
  by apply read_int_always.
Qed.

Definition opt_in_range (lo hi : Z) (o : option Z) : bool :=
  match o with None => true | Some z => in_range lo hi z end.

Lemma read_opt_int_unless_empty lo hi o :
  opt_in_range lo hi o = true → read_opt_int lo hi (unless_empty o) = Some o.
Proof. destruct o as [z|]; [|done]. cbn. by intros ->. Qed.

(** ** Ground types and containers *)
#[export] Program Instance Wire_string : Wire string string := {|
  wire_ok := λ _, true;
  wire := λ s, s;
|}.
Next Obligation. done. Qed.
Next Obligation. intros s Hs. unfold go_empty, GoEmpty_string in Hs. by apply bool_decide_eq_true in Hs. Qed.
#[export] Instance WireAlways_string : WireAlways string string.
Proof. by intros s. Qed.

#[export] Program Instance Wire_bool : Wire bool bool := {|
  wire_ok := λ _, true;
  wire := λ b, b;
|}.
Solve Obligations with (by intros []).

Section containers.
Context {A B : Type} `{WireAlways A B}.

Lemma mapM_wire (l : list A) :
  forallb (wire_ok B) l = true → mapM of_json (to_json <$> l) = Some (wire B <$> l).
Proof.
  induction l as [|a l IH]; [done|]. cbn [forallb]. intros [Ha Hl]%andb_prop.
  rewrite fmap_cons. cbn [mapM]. rewrite wire_always by done. cbn [mbind option_bind].
  by rewrite IH.
Qed.

#[export] Program Instance Wire_list : Wire (list A) (list B) := {|
  wire_ok := forallb (wire_ok B);
  wire := fmap (wire B);
|}.
Next Obligation. intros. by apply mapM_wire. Qed.
Next Obligation. by intros [|]. Qed.
#[export] Instance WireAlways_list : WireAlways (list A) (list B).
Proof. intros l. apply mapM_wire. Qed.

(** A slice that may be nil: an empty one is not written when it has
    [omitempty], and is then read as nil. *)
Definition as_slice (l : list B) : option (list B) :=
  match l with [] => None | _ => Some l end.

#[export] Program Instance Wire_slice : Wire (option (list A)) (option (list B)) := {|
  wire_ok := λ o, forallb (wire_ok B) (default [] o);
  wire := λ o, as_slice (wire B <$> default [] o);
|}.
Next Obligation.
  intros [[|a l]|] Hok He; [done| |done].
  pose proof (mapM_wire (a :: l) Hok) as E. cbn in *. by rewrite E.
Qed.
Next Obligation. by intros [[|]|]. Qed.

(** A slice that may be nil, read by a program that does not tell nil from
    empty, and conversely. *)
#[export] Program Instance Wire_slice_list : Wire (option (list A)) (list B) := {|
  wire_ok := λ o, forallb (wire_ok B) (default [] o);
  wire := λ o, wire B <$> default [] o;
|}.
Next Obligation.
  intros [[|a l]|] Hok He; [done| |done]. exact (mapM_wire (a :: l) Hok).
Qed.
Next Obligation. by intros [[|]|]. Qed.

#[export] Program Instance Wire_list_slice : Wire (list A) (option (list B)) := {|
  wire_ok := forallb (wire_ok B);
  wire := λ l, as_slice (wire B <$> l);
|}.
Next Obligation.
  intros [|a l] Hok He; [done|].
  pose proof (mapM_wire (a :: l) Hok) as E. cbn in *. by rewrite E.
Qed.
Next Obligation. by intros [|]. Qed.

Lemma mapM_wire_map (l : list (string * A)) :
  forallb (λ kv, wire_ok B kv.2) l = true →
  mapM (λ kv : string * json, pair kv.1 <$> of_json kv.2) ((λ kv, (kv.1, to_json kv.2)) <$> l)
  = Some (prod_map id (wire B) <$> l).
Proof.
  induction l as [|[k a] l IH]; [done|]. cbn [forallb]. intros [Ha Hl]%andb_prop.
  rewrite fmap_cons. cbn [mapM fst snd]. rewrite wire_always by done.
  cbn [mbind option_bind fmap option_fmap option_map]. by rewrite IH.
Qed.

Lemma gmap_wire (m : gmap string A) :
  forallb (λ kv, wire_ok B kv.2) (map_to_list m) = true →
  of_json (to_json m) = Some (wire B <$> m).
Proof.
  intros Hok. cbn [of_json to_json Json_gmap]. rewrite mapM_wire_map by done.
  cbn. f_equal. rewrite list_to_map_fmap. by rewrite list_to_map_to_list.
Qed.

#[export] Program Instance Wire_gmap : Wire (gmap string A) (gmap string B) := {|
  wire_ok := λ m, forallb (λ kv, wire_ok B kv.2) (map_to_list m);
  wire := fmap (wire B);
|}.
Next Obligation. intros. by apply gmap_wire. Qed.
Next Obligation.
  intros m Hm. unfold go_empty, GoEmpty_gmap in Hm. apply bool_decide_eq_true in Hm.
  apply map_size_empty_inv in Hm as ->. apply fmap_empty.
Qed.
#[export] Instance WireAlways_gmap : WireAlways (gmap string A) (gmap string B).
Proof. intros m. apply gmap_wire. Qed.
End containers.

(** A pointer to a text. *)
#[export] Program Instance Wire_ptr_string : Wire (option string) (option string) := {|
  wire_ok := λ _, true;
  wire := λ o, o;
|}.
Solve Obligations with (by intros [|]).

Lemma wire_ok_strings (l : list string) : wire_ok (list string) l = true.
Proof. by induction l. Qed.
Lemma wire_ok_slice (o : option (list string)) :
  wire_ok (list string) o = true ∧ wire_ok (option (list string)) o = true.
Proof. destruct o as [l|]; [|done]. split; apply wire_ok_strings. Qed.
Lemma wire_ok_list_slice (l : list string) : wire_ok (option (list string)) l = true.
Proof. apply wire_ok_strings. Qed.

(** ** Proofs for structures

    [json_key] turns the reading of a member into the reading of what was
    written under its key, [json_value] closes one reading, and [json_wire]
    proves that a structure is read as its image. *)
Ltac json_key :=
  match goal with
  | Hnd : NoDup (?fs.*1) |- context [field (A:=?A) (written ?fs) ?k] =>
      rewrite (field_read (A:=A) k fs Hnd)
  | Hnd : NoDup (?fs.*1) |- context [field_int ?lo ?hi (written ?fs) ?k] =>
      rewrite (field_read_int lo hi k fs Hnd)
  | Hnd : NoDup (?fs.*1) |- context [field_opt_int ?lo ?hi (written ?fs) ?k] =>
      rewrite (field_read_opt_int lo hi k fs Hnd)
  end; cbn [get String.eqb Ascii.eqb Bool.eqb].

Ltac wire_side :=
  first [done | apply wire_ok_strings | apply wire_ok_slice | apply wire_ok_list_slice].

Ltac json_value :=
  first [ rewrite read_always by wire_side | rewrite read_unless_empty by wire_side
        | rewrite read_int_always by done | rewrite read_int_unless_empty by done
        | rewrite read_opt_int_unless_empty by done ]; cbn [mbind option_bind].

Ltac split_ok :=
  repeat match goal with
  | Hok : _ && _ = true |- _ => apply andb_prop in Hok as [? ?]
  end.

Ltac json_wire ok conv js jd :=
  intros x Hok _; unfold ok in Hok; split_ok;
  unfold js, jd; cbn [to_json of_json of_object obj];
  match goal with
  | |- context [written ?fs] =>
      assert (NoDup (fs.*1)) as Hnd by (apply (bool_decide_unpack _); vm_compute; exact I)
  end;
  repeat (json_key; json_value); reflexivity.
