(* ===== verification/NefJson.v ===== *)
(** * The JSON of the NEF's structures

    The struct tags of [model_nef_common.go], [model_nef_af_tif.go] and
    [model_nef_af_pfd.go] for the structures that the NEF exchanges with an
    AF. *)

From S2P Require Import Prelude Json JsonWire NefModel.
From stdpp Require Import prelude gmap strings.
From Stdlib Require Import ZArith.

Local Open Scope Z_scope.

#[export] Instance Json_nef_TemporalValidity : Json TemporalValidity := {|
  to_json := λ x, obj [
    ("startTime", unless_empty (StartTime x)); ("stopTime", unless_empty (StopTime x))];
  of_json := of_object (mkTemporalValidity "" "") (λ ms,
    v0 ← field ms "startTime"; v1 ← field ms "stopTime";
    Some (mkTemporalValidity v0 v1));
  zero_value := (mkTemporalValidity "" "");
|}.
#[export] Instance GoEmpty_nef_TemporalValidity : GoEmpty TemporalValidity := λ _, false.

#[export] Instance Json_nef_EthFlowDescription : Json EthFlowDescription := {|
  to_json := λ x, obj [
    ("destMacAddr", unless_empty (DestMacAddr x)); ("ethType", unless_empty (EthType x));
    ("fDesc", unless_empty (FDesc x)); ("fDir", unless_empty (FDir x));
    ("sourceMacAddr", unless_empty (SourceMacAddr x));
    ("vlanTags", unless_empty (VlanTags x))];
  of_json := of_object (mkEthFlowDescription "" "" "" "" "" []) (λ ms,
    v0 ← field ms "destMacAddr"; v1 ← field ms "ethType"; v2 ← field ms "fDesc";
    v3 ← field ms "fDir"; v4 ← field ms "sourceMacAddr"; v5 ← field ms "vlanTags";
    Some (mkEthFlowDescription v0 v1 v2 v3 v4 v5));
  zero_value := (mkEthFlowDescription "" "" "" "" "" []);
|}.
#[export] Instance GoEmpty_nef_EthFlowDescription : GoEmpty EthFlowDescription := λ _, false.

#[export] Instance Json_nef_WebsockNotifConfig : Json WebsockNotifConfig := {|
  to_json := λ x, obj [
    ("websocketUri", unless_empty (WebsocketURI x));
    ("requestWebsocketUri", unless_empty (RequestWebsocketURI x))];
  of_json := of_object (mkWebsockNotifConfig "" false) (λ ms,
    v0 ← field ms "websocketUri"; v1 ← field ms "requestWebsocketUri";
    Some (mkWebsockNotifConfig v0 v1));
  zero_value := (mkWebsockNotifConfig "" false);
|}.
#[export] Instance GoEmpty_nef_WebsockNotifConfig : GoEmpty WebsockNotifConfig := λ _, false.

#[export] Instance Json_nef_Snssai : Json Snssai := {|
  to_json := λ x, obj [
    ("sst", always (Sst x)); ("sd", unless_empty (Sd x))];
  of_json := of_object (mkSnssai 0 "") (λ ms,
    v0 ← field_int 0 uint8_max ms "sst"; v1 ← field ms "sd";
    Some (mkSnssai v0 v1));
  zero_value := (mkSnssai 0 "");
|}.
#[export] Instance GoEmpty_nef_Snssai : GoEmpty Snssai := λ _, false.

#[export] Instance Json_nef_RouteInformation : Json RouteInformation := {|
  to_json := λ x, obj [
    ("ipv4Addr", unless_empty (ri_Ipv4Addr x)); ("ipv6Addr", unless_empty (ri_Ipv6Addr x));
    ("portNumber", always (ri_PortNumber x))];
  of_json := of_object (mkRouteInformation "" "" 0) (λ ms,
    v0 ← field ms "ipv4Addr"; v1 ← field ms "ipv6Addr";
    v2 ← field_int 0 uint32_max ms "portNumber";
    Some (mkRouteInformation v0 v1 v2));
  zero_value := (mkRouteInformation "" "" 0);
|}.
#[export] Instance GoEmpty_nef_RouteInformation : GoEmpty RouteInformation := λ _, false.

#[export] Instance Json_nef_RouteToLocation : Json RouteToLocation := {|
  to_json := λ x, obj [
    ("dnai", always (rl_Dnai x)); ("routeInfo", unless_empty (rl_RouteInfo x));
    ("routeProfId", unless_empty (rl_RouteProfID x))];
  of_json := of_object (mkRouteToLocation "" (mkRouteInformation "" "" 0) "") (λ ms,
    v0 ← field ms "dnai"; v1 ← field ms "routeInfo"; v2 ← field ms "routeProfId";
    Some (mkRouteToLocation v0 v1 v2));
  zero_value := (mkRouteToLocation "" (mkRouteInformation "" "" 0) "");
|}.
#[export] Instance GoEmpty_nef_RouteToLocation : GoEmpty RouteToLocation := λ _, false.

#[export] Instance Json_nef_FlowInfo : Json FlowInfo := {|
  to_json := λ x, obj [
    ("flowId", always (FlowID x));
    ("flowDescriptions", unless_empty (fi_FlowDescriptions x))];
  of_json := of_object (mkFlowInfo 0 []) (λ ms,
    v0 ← field_int int32_min int32_max ms "flowId"; v1 ← field ms "flowDescriptions";
    Some (mkFlowInfo v0 v1));
  zero_value := (mkFlowInfo 0 []);
|}.
#[export] Instance GoEmpty_nef_FlowInfo : GoEmpty FlowInfo := λ _, false.

#[export] Instance Json_nef_InvalidParam : Json InvalidParam := {|
  to_json := λ x, obj [
    ("param", always (ip_Param x)); ("reason", unless_empty (ip_Reason x))];
  of_json := of_object (mkInvalidParam "" "") (λ ms,
    v0 ← field ms "param"; v1 ← field ms "reason";
    Some (mkInvalidParam v0 v1));
  zero_value := (mkInvalidParam "" "");
|}.
#[export] Instance GoEmpty_nef_InvalidParam : GoEmpty InvalidParam := λ _, false.

#[export] Instance Json_nef_ProblemDetails : Json ProblemDetails := {|
  to_json := λ x, obj [
    ("type", unless_empty (pd_Type x)); ("title", unless_empty (pd_Title x));
    ("detail", unless_empty (pd_Detail x)); ("instance", unless_empty (pd_Instance x));
    ("cause", unless_empty (pd_Cause x));
    ("invalidParams", unless_empty (pd_InvalidParams x));
    ("status", unless_empty (pd_Status x))];
  of_json := of_object zero_ProblemDetails (λ ms,
    v0 ← field ms "type"; v1 ← field ms "title"; v2 ← field ms "detail";
    v3 ← field ms "instance"; v4 ← field ms "cause"; v5 ← field ms "invalidParams";
    v6 ← field_int int32_min int32_max ms "status";
    Some (mkProblemDetails v0 v1 v2 v3 v4 v5 v6));
  zero_value := zero_ProblemDetails;
|}.
#[export] Instance GoEmpty_nef_ProblemDetails : GoEmpty ProblemDetails := λ _, false.

#[export] Instance Json_nef_TrafficInfluSub : Json TrafficInfluSub := {|
  to_json := λ x, obj [
    ("afServiceId", unless_empty (ti_AfServiceID x));
    ("afAppId", unless_empty (ti_AfAppID x)); ("afTransId", unless_empty (ti_AfTransID x));
    ("dnn", unless_empty (ti_Dnn x)); ("snssai", unless_empty (ti_Snssai x));
    ("externalGroupId", unless_empty (ti_ExternalGroupID x));
    ("subscribedEvents", unless_empty (ti_SubscribedEvents x));
    ("gpsi", unless_empty (ti_Gpsi x)); ("ipv4Addr", unless_empty (ti_Ipv4Addr x));
    ("ipv6Addr", unless_empty (ti_Ipv6Addr x)); ("macAddr", unless_empty (ti_MacAddr x));
    ("dnaiChgType", unless_empty (ti_DnaiChgType x));
    ("notificationDestination", unless_empty (ti_NotificationDestination x));
    ("websockNotifConfig", unless_empty (ti_WebsockNotifConfig x));
    ("self", unless_empty (ti_Self x));
    ("trafficFilters", unless_empty (ti_TrafficFilters x));
    ("ethTrafficFilters", unless_empty (ti_EthTrafficFilters x));
    ("trafficRoutes", unless_empty (ti_TrafficRoutes x));
    ("tempValidities", unless_empty (ti_TempValidities x));
    ("validGeoZoneIds", unless_empty (ti_ValidGeoZoneIDs x));
    ("suppFeat", unless_empty (ti_SuppFeat x));
    ("appReloInd", unless_empty (ti_AppReloInd x));
    ("anyUeInd", unless_empty (ti_AnyUeInd x));
    ("requestTestNotification", unless_empty (ti_RequestTestNotification x))];
  of_json := of_object zero_TrafficInfluSub (λ ms,
    v0 ← field ms "afServiceId"; v1 ← field ms "afAppId"; v2 ← field ms "afTransId";
    v3 ← field ms "dnn"; v4 ← field ms "snssai"; v5 ← field ms "externalGroupId";
    v6 ← field ms "subscribedEvents"; v7 ← field ms "gpsi"; v8 ← field ms "ipv4Addr";
    v9 ← field ms "ipv6Addr"; v10 ← field ms "macAddr"; v11 ← field ms "dnaiChgType";
    v12 ← field ms "notificationDestination"; v13 ← field ms "websockNotifConfig";
    v14 ← field ms "self"; v15 ← field ms "trafficFilters";
    v16 ← field ms "ethTrafficFilters"; v17 ← field ms "trafficRoutes";
    v18 ← field ms "tempValidities"; v19 ← field ms "validGeoZoneIds";
    v20 ← field ms "suppFeat"; v21 ← field ms "appReloInd"; v22 ← field ms "anyUeInd";
    v23 ← field ms "requestTestNotification";
    Some (mkTrafficInfluSub v0 v1 v2 v3 v4 v5 v6 v7 v8 v9 v10 v11 v12 v13 v14 v15 v16 v17
    v18 v19 v20 v21 v22 v23));
  zero_value := zero_TrafficInfluSub;
|}.
#[export] Instance GoEmpty_nef_TrafficInfluSub : GoEmpty TrafficInfluSub := λ _, false.

#[export] Instance Json_nef_TrafficInfluSubPatch : Json TrafficInfluSubPatch := {|
  to_json := λ x, obj [
    ("appReloInd", unless_empty (tisp_AppReloInd x));
    ("trafficFilters", unless_empty (tisp_TrafficFilters x));
    ("ethTrafficFilters", unless_empty (tisp_EthTrafficFilters x));
    ("trafficRoutes", unless_empty (tisp_TrafficRoutes x));
    ("tempValidities", unless_empty (tisp_TempValidities x));
    ("validGeoZoneIds", unless_empty (tisp_ValidGeoZoneIDs x))];
  of_json := of_object (mkTrafficInfluSubPatch false None None None None None) (λ ms,
    v0 ← field ms "appReloInd"; v1 ← field ms "trafficFilters";
    v2 ← field ms "ethTrafficFilters"; v3 ← field ms "trafficRoutes";
    v4 ← field ms "tempValidities"; v5 ← field ms "validGeoZoneIds";
    Some (mkTrafficInfluSubPatch v0 v1 v2 v3 v4 v5));
  zero_value := (mkTrafficInfluSubPatch false None None None None None);
|}.
#[export] Instance GoEmpty_nef_TrafficInfluSubPatch : GoEmpty TrafficInfluSubPatch := λ _, false.

#[export] Instance Json_nef_EventNotification : Json EventNotification := {|
  to_json := λ x, obj [
    ("afTransId", unless_empty (ev_AfTransID x));
    ("dnaiChgType", always (ev_DnaiChgType x));
    ("sourceTrafficRoute", unless_empty (ev_SourceTrafficRoute x));
    ("subscribedEvent", unless_empty (ev_SubscribedEvent x));
    ("targetTrafficRoute", unless_empty (ev_TargetTrafficRoute x));
    ("gpsi", unless_empty (ev_Gpsi x));
    ("srcUeIpv4Addr", unless_empty (ev_SrcUeIpv4Addr x));
    ("srcUeIpv6Prefix", unless_empty (ev_SrcUeIpv6Prefix x));
    ("tgtUeIpv4Addr", unless_empty (ev_TgtUeIpv4Addr x));
    ("tgtUeIpv6Prefix", unless_empty (ev_TgtUeIpv6Prefix x));
    ("ueMac", unless_empty (ev_UeMac x))];
  of_json := of_object (mkEventNotification "" "" (mkRouteToLocation "" (mkRouteInformation "" "" 0) "") "" (mkRouteToLocation "" (mkRouteInformation "" "" 0) "") "" "" "" "" "" "") (λ ms,
    v0 ← field ms "afTransId"; v1 ← field ms "dnaiChgType";
    v2 ← field ms "sourceTrafficRoute"; v3 ← field ms "subscribedEvent";
    v4 ← field ms "targetTrafficRoute"; v5 ← field ms "gpsi";
    v6 ← field ms "srcUeIpv4Addr"; v7 ← field ms "srcUeIpv6Prefix";
    v8 ← field ms "tgtUeIpv4Addr"; v9 ← field ms "tgtUeIpv6Prefix"; v10 ← field ms "ueMac";
    Some (mkEventNotification v0 v1 v2 v3 v4 v5 v6 v7 v8 v9 v10));
  zero_value := (mkEventNotification "" "" (mkRouteToLocation "" (mkRouteInformation "" "" 0) "") "" (mkRouteToLocation "" (mkRouteInformation "" "" 0) "") "" "" "" "" "" "");
|}.
#[export] Instance GoEmpty_nef_EventNotification : GoEmpty EventNotification := λ _, false.

#[export] Instance Json_nef_Pfd : Json Pfd := {|
  to_json := λ x, obj [
    ("pfdID", always (PfdID x)); ("flowDescriptions", unless_empty (FlowDescriptions x));
    ("urls", unless_empty (Urls x)); ("domainNames", unless_empty (DomainNames x))];
  of_json := of_object (mkPfd "" [] [] []) (λ ms,
    v0 ← field ms "pfdID"; v1 ← field ms "flowDescriptions"; v2 ← field ms "urls";
    v3 ← field ms "domainNames";
    Some (mkPfd v0 v1 v2 v3));
  zero_value := (mkPfd "" [] [] []);
|}.
#[export] Instance GoEmpty_nef_Pfd : GoEmpty Pfd := λ _, false.

#[export] Instance Json_nef_PfdData : Json PfdData := {|
  to_json := λ x, obj [
    ("externalAppID", always (ExternalAppID x)); ("self", unless_empty (pfdd_Self x));
    ("pfds", always (Pfds x)); ("allowedDelay", unless_empty (AllowedDelay x));
    ("cachingTime", unless_empty (CachingTime x))];
  of_json := of_object zero_PfdData (λ ms,
    v0 ← field ms "externalAppID"; v1 ← field ms "self"; v2 ← field ms "pfds";
    v3 ← field_opt_int 0 uint64_max ms "allowedDelay";
    v4 ← field_opt_int 0 uint64_max ms "cachingTime";
    Some (mkPfdData v0 v1 v2 v3 v4));
  zero_value := zero_PfdData;
|}.
#[export] Instance GoEmpty_nef_PfdData : GoEmpty PfdData := λ _, false.

#[export] Instance Json_nef_PfdReport : Json PfdReport := {|
  to_json := λ x, obj [
    ("externalAppIds", always (ExternalAppIds x));
    ("failureCode", always (rep_FailureCode x));
    ("cachingTime", unless_empty (rep_CachingTime x))];
  of_json := of_object (mkPfdReport [] "" None) (λ ms,
    v0 ← field ms "externalAppIds"; v1 ← field ms "failureCode";
    v2 ← field_opt_int 0 uint64_max ms "cachingTime";
    Some (mkPfdReport v0 v1 v2));
  zero_value := (mkPfdReport [] "" None);
|}.
#[export] Instance GoEmpty_nef_PfdReport : GoEmpty PfdReport := λ _, false.

#[export] Instance Json_nef_PfdManagement : Json PfdManagement := {|
  to_json := λ x, obj [
    ("self", unless_empty (pfdm_Self x)); ("suppFeat", unless_empty (SuppFeat x));
    ("pfdDatas", always (PfdDatas x)); ("pfdReports", unless_empty (PfdReports x))];
  of_json := of_object zero_PfdManagement (λ ms,
    v0 ← field ms "self"; v1 ← field ms "suppFeat"; v2 ← field ms "pfdDatas";
    v3 ← field ms "pfdReports";
    Some (mkPfdManagement v0 v1 v2 v3));
  zero_value := zero_PfdManagement;
|}.
#[export] Instance GoEmpty_nef_PfdManagement : GoEmpty PfdManagement := λ _, false.
