(* ===== verification/AfModel.v ===== *)
(** * Data model of the AF

    The structures of [epcforedge/ngc/pkg/af/model_*.go], the configuration
    ([af.go], [af_client_config.go]) and the context of the Application
    Function.  String-like Go types ([Link], [GPSI], ...) are strings.
    [SubscribedEvents] is an [option (list _)], with [None] for the nil slice,
    because [ModifySubscriptionPut] compares it with nil.  The instances of
    [Json] are the struct tags. *)

From S2P Require Import Prelude Json JsonWire.
From stdpp Require Import prelude gmap strings.
From Stdlib Require Import ZArith.

Local Open Scope Z_scope.

(** ** Traffic influence (model_traffic_influance_subscription.go) *)

Record TemporalValidity := mkTemporalValidity {
  tv_StartTime : string;
  tv_StopTime : string;
}.

Definition zero_TemporalValidity : TemporalValidity :=
  mkTemporalValidity "" "".

Record EthFlowDescription := mkEthFlowDescription {
  efd_DestMacAddr : string;
  efd_EthType : string;
  efd_FDesc : string;
  efd_FDir : string;
  efd_SourceMacAddr : string;
  efd_VLANTags : list string;
}.

Definition zero_EthFlowDescription : EthFlowDescription :=
  mkEthFlowDescription "" "" "" "" "" [].

Record WebsockNotifConfig := mkWebsockNotifConfig {
  wnc_WebsocketURI : string;
  wnc_RequestWebsocketURI : bool;
}.

Definition zero_WebsockNotifConfig : WebsockNotifConfig :=
  mkWebsockNotifConfig "" false.

Record SNSSAI := mkSNSSAI {
  sn_SST : Z;
  sn_SD : string;
}.

Definition zero_SNSSAI : SNSSAI :=
  mkSNSSAI 0 "".

Record RouteInformation := mkRouteInformation {
  rinf_IPv4Addr : string;
  rinf_IPv6Addr : string;
  rinf_PortNumber : Z;
}.

Definition zero_RouteInformation : RouteInformation :=
  mkRouteInformation "" "" 0.

Record RouteToLocation := mkRouteToLocation {
  rtl_DNAI : string;
  rtl_RouteProfID : string;
  rtl_RouteInfo : RouteInformation;
}.

Definition zero_RouteToLocation : RouteToLocation :=
  mkRouteToLocation "" "" zero_RouteInformation.

Record FlowInfo := mkFlowInfo {
  flow_FlowDescriptions : list string;
  flow_FlowID : Z;
}.

Definition zero_FlowInfo : FlowInfo :=
  mkFlowInfo [] 0.

Record InvalidParam := mkInvalidParam {
  inv_Param : string;
  inv_Reason : string;
}.

Definition zero_InvalidParam : InvalidParam :=
  mkInvalidParam "" "".

Record ProblemDetails := mkProblemDetails {
  prob_Type : string;
  prob_Title : string;
  prob_Detail : string;
  prob_Instance : string;
  prob_Cause : string;
  prob_InvalidParams : list InvalidParam;
  prob_Status : Z;
}.

Definition zero_ProblemDetails : ProblemDetails :=
  mkProblemDetails "" "" "" "" "" [] 0.

Record TrafficInfluSub := mkTrafficInfluSub {
  ts_AFServiceID : string;
  ts_AFAppID : string;
  ts_AFTransID : string;
  ts_DNN : string;
  ts_SNSSAI : SNSSAI;
  ts_ExternalGroupID : string;
  ts_SubscribedEvents : option (list string);
  ts_GPSI : string;
  ts_IPv4Addr : string;
  ts_IPv6Addr : string;
  ts_MacAddr : string;
  ts_DNAIChgType : string;
  ts_NotificationDestination : string;
  ts_Self : string;
  ts_TrafficFilters : list FlowInfo;
  ts_EthTrafficFilters : list EthFlowDescription;
  ts_TrafficRoutes : list RouteToLocation;
  ts_TempValidities : list TemporalValidity;
  ts_ValidGeoZoneIDs : list string;
  ts_SuppFeat : string;
  ts_WebsockNotifConfig : WebsockNotifConfig;
  ts_RequestTestNotification : bool;
  ts_AppReloInd : bool;
  ts_AnyUEInd : bool;
}.

Definition zero_TrafficInfluSub : TrafficInfluSub :=
  mkTrafficInfluSub "" "" "" "" zero_SNSSAI "" None "" "" "" "" "" "" "" [] [] [] [] [] ""
  zero_WebsockNotifConfig false false false.

Record TrafficInfluSubPatch := mkTrafficInfluSubPatch {
  tsp_TrafficFilters : list FlowInfo;
  tsp_AppReloInd : bool;
  tsp_EthTrafficFilters : list EthFlowDescription;
  tsp_TrafficRoutes : list RouteToLocation;
  tsp_TempValidities : list TemporalValidity;
  tsp_ValidGeoZoneIDs : list string;
}.

Definition zero_TrafficInfluSubPatch : TrafficInfluSubPatch :=
  mkTrafficInfluSubPatch [] false [] [] [] [].

Record EventNotification := mkEventNotification {
  en_AFTransID : string;
  en_DNAIChgType : string;
  en_SourceTrafficRoute : RouteToLocation;
  en_SubscribedEvent : string;
  en_TargetTrafficRoute : RouteToLocation;
  en_GPSI : string;
  en_SrcUEIPv4Addr : string;
  en_SrcUEIPv6Prefix : string;
  en_TgtUEIP4Addr : string;
  en_TgtUEIPv6Prefix : string;
  en_UEMac : string;
}.

Definition zero_EventNotification : EventNotification :=
  mkEventNotification "" "" zero_RouteToLocation "" zero_RouteToLocation "" "" "" "" "" "".

(** ** PFD management (model_pfd_management.go) *)

Record Pfd := mkPfd {
  pfd_PfdID : string;
  pfd_FlowDescriptions : list string;
  pfd_Urls : list string;
  pfd_DomainNames : list string;
}.

Definition zero_Pfd : Pfd :=
  mkPfd "" [] [] [].

Record PfdData := mkPfdData {
  pdata_ExternalAppID : string;
  pdata_Self : string;
  pdata_Pfds : gmap string Pfd;
  pdata_AllowedDelay : option Z;
  pdata_CachingTime : option Z;
}.

Definition zero_PfdData : PfdData :=
  mkPfdData "" "" ∅ None None.

Record PfdReport := mkPfdReport {
  prep_ExternalAppIds : list string;
  prep_FailureCode : string;
  prep_CachingTime : option Z;
}.

Definition zero_PfdReport : PfdReport :=
  mkPfdReport [] "" None.

Record PfdManagement := mkPfdManagement {
  pman_Self : string;
  pman_SuppFeat : option string;
  pman_PfdDatas : gmap string PfdData;
  pman_PfdReports : gmap string PfdReport;
}.

Definition zero_PfdManagement : PfdManagement :=
  mkPfdManagement "" None ∅ ∅.

(** [ts.AFTransID = l]. *)
Definition ts_set_AFTransID (l : string) (x : TrafficInfluSub) : TrafficInfluSub :=
  mkTrafficInfluSub (ts_AFServiceID x) (ts_AFAppID x) l (ts_DNN x) (ts_SNSSAI x)
  (ts_ExternalGroupID x) (ts_SubscribedEvents x) (ts_GPSI x) (ts_IPv4Addr x)
  (ts_IPv6Addr x) (ts_MacAddr x) (ts_DNAIChgType x) (ts_NotificationDestination x)
  (ts_Self x) (ts_TrafficFilters x) (ts_EthTrafficFilters x) (ts_TrafficRoutes x)
  (ts_TempValidities x) (ts_ValidGeoZoneIDs x) (ts_SuppFeat x) (ts_WebsockNotifConfig x)
  (ts_RequestTestNotification x) (ts_AppReloInd x) (ts_AnyUEInd x).

(** [ts.Self = l]. *)
Definition ts_set_Self (l : string) (x : TrafficInfluSub) : TrafficInfluSub :=
  mkTrafficInfluSub (ts_AFServiceID x) (ts_AFAppID x) (ts_AFTransID x) (ts_DNN x)
  (ts_SNSSAI x) (ts_ExternalGroupID x) (ts_SubscribedEvents x) (ts_GPSI x) (ts_IPv4Addr x)
  (ts_IPv6Addr x) (ts_MacAddr x) (ts_DNAIChgType x) (ts_NotificationDestination x) l
  (ts_TrafficFilters x) (ts_EthTrafficFilters x) (ts_TrafficRoutes x) (ts_TempValidities x)
  (ts_ValidGeoZoneIDs x) (ts_SuppFeat x) (ts_WebsockNotifConfig x)
  (ts_RequestTestNotification x) (ts_AppReloInd x) (ts_AnyUEInd x).

(** [v.Self = l]. *)
Definition pdata_set_Self (l : string) (x : PfdData) : PfdData :=
  mkPfdData (pdata_ExternalAppID x) l (pdata_Pfds x) (pdata_AllowedDelay x)
  (pdata_CachingTime x).

(** [v.Self = l]. *)
Definition pman_set_Self (l : string) (x : PfdManagement) : PfdManagement :=
  mkPfdManagement l (pman_SuppFeat x) (pman_PfdDatas x) (pman_PfdReports x).

(** [v.PfdDatas = l]. *)
Definition pman_set_PfdDatas (l : gmap string PfdData) (x : PfdManagement) : PfdManagement :=
  mkPfdManagement (pman_Self x) (pman_SuppFeat x) l (pman_PfdReports x).

(** ** Configuration (af.go, af_client_config.go) *)

Record ServerConfig := mkServerConfig {
  CNCAEndpoint : string;
  Hostname : string;
  NotifPort : string;
  UIEndpoint : string;
  ServerCertPath : string;
  ServerKeyPath : string;
}.

(** The HTTP client of a [CliConfig] is the network, a parameter of the
    operations that use it. *)
Record CliConfig := mkCliConfig {
  Protocol : string;
  NEFHostname : string;
  NEFPort : string;
  NEFBasePath : string;
  NEFPFDBasePath : string;
  cli_UserAgent : string;
  NEFCliCertPath : string;
  cli_OAuth2Support : bool;
}.

Record Config := mkConfig {
  AfID : string;
  AfAPIRoot : string;
  af_LocationPrefixPfd : string;
  SrvCfg : ServerConfig;
  CliCfg : CliConfig;
}.

(** [TransactionIDs] and [NotifSubscryptions]. *)
Abbreviation TransactionIDs := (gmap Z TrafficInfluSub).
Abbreviation NotifSubscryptions := (gmap string (gmap string TrafficInfluSub)).

(** The context of the AF.  Its maps are nil until [runServer] makes them. *)
Record Context := mkContext {
  subscriptions : option NotifSubscryptions;
  transactions : option TransactionIDs;
  af_cfg : Config;
}.

(** Reading a nil map finds nothing. *)
Definition subs_of (c : Context) : NotifSubscryptions := default ∅ (subscriptions c).
Definition trans_of (c : Context) : TransactionIDs := default ∅ (transactions c).
Definition set_subs (m : NotifSubscryptions) (c : Context) : Context :=
  mkContext (Some m) (transactions c) (af_cfg c).
Definition set_trans (m : TransactionIDs) (c : Context) : Context :=
  mkContext (subscriptions c) (Some m) (af_cfg c).

(** The context after [runServer] made the maps. *)
Definition started_context (cf : Config) : Context := mkContext (Some ∅) (Some ∅) cf.

(** [NewConfiguration]. *)
Definition NewConfiguration (c : Context) : CliConfig :=
  let cli := CliCfg (af_cfg c) in
  mkCliConfig (Protocol cli) (NEFHostname cli) (NEFPort cli) (NEFBasePath cli)
    (NEFPFDBasePath cli) (cli_UserAgent cli) (NEFCliCertPath cli) (cli_OAuth2Support cli).

(** ** The struct tags *)

#[export] Instance Json_TemporalValidity : Json TemporalValidity := {|
  to_json := λ x, obj [
    ("startTime", unless_empty (tv_StartTime x));
    ("stopTime", unless_empty (tv_StopTime x))];
  of_json := of_object zero_TemporalValidity (λ ms,
    v0 ← field ms "startTime"; v1 ← field ms "stopTime";
    Some (mkTemporalValidity v0 v1));
  zero_value := zero_TemporalValidity;
|}.
#[export] Instance GoEmpty_TemporalValidity : GoEmpty TemporalValidity := λ _, false.

#[export] Instance Json_EthFlowDescription : Json EthFlowDescription := {|
  to_json := λ x, obj [
    ("destMacAddr", unless_empty (efd_DestMacAddr x)); ("ethType", always (efd_EthType x));
    ("fDesc", unless_empty (efd_FDesc x)); ("fDir", unless_empty (efd_FDir x));
    ("sourceMacAddr", unless_empty (efd_SourceMacAddr x));
    ("vlanTags", unless_empty (efd_VLANTags x))];
  of_json := of_object zero_EthFlowDescription (λ ms,
    v0 ← field ms "destMacAddr"; v1 ← field ms "ethType"; v2 ← field ms "fDesc";
    v3 ← field ms "fDir"; v4 ← field ms "sourceMacAddr"; v5 ← field ms "vlanTags";
    Some (mkEthFlowDescription v0 v1 v2 v3 v4 v5));
  zero_value := zero_EthFlowDescription;
|}.
#[export] Instance GoEmpty_EthFlowDescription : GoEmpty EthFlowDescription := λ _, false.

#[export] Instance Json_WebsockNotifConfig : Json WebsockNotifConfig := {|
  to_json := λ x, obj [
    ("websocketUri", unless_empty (wnc_WebsocketURI x));
    ("requestWebsocketUri", unless_empty (wnc_RequestWebsocketURI x))];
  of_json := of_object zero_WebsockNotifConfig (λ ms,
    v0 ← field ms "websocketUri"; v1 ← field ms "requestWebsocketUri";
    Some (mkWebsockNotifConfig v0 v1));
  zero_value := zero_WebsockNotifConfig;
|}.
#[export] Instance GoEmpty_WebsockNotifConfig : GoEmpty WebsockNotifConfig := λ _, false.

#[export] Instance Json_SNSSAI : Json SNSSAI := {|
  to_json := λ x, obj [
    ("sst", always (sn_SST x)); ("sd", unless_empty (sn_SD x))];
  of_json := of_object zero_SNSSAI (λ ms,
    v0 ← field_int int32_min int32_max ms "sst"; v1 ← field ms "sd";
    Some (mkSNSSAI v0 v1));
  zero_value := zero_SNSSAI;
|}.
#[export] Instance GoEmpty_SNSSAI : GoEmpty SNSSAI := λ _, false.

#[export] Instance Json_RouteInformation : Json RouteInformation := {|
  to_json := λ x, obj [
    ("ipv4Addr", unless_empty (rinf_IPv4Addr x));
    ("ipv6Addr", unless_empty (rinf_IPv6Addr x));
    ("portNumber", always (rinf_PortNumber x))];
  of_json := of_object zero_RouteInformation (λ ms,
    v0 ← field ms "ipv4Addr"; v1 ← field ms "ipv6Addr";
    v2 ← field_int int32_min int32_max ms "portNumber";
    Some (mkRouteInformation v0 v1 v2));
  zero_value := zero_RouteInformation;
|}.
#[export] Instance GoEmpty_RouteInformation : GoEmpty RouteInformation := λ _, false.

#[export] Instance Json_RouteToLocation : Json RouteToLocation := {|
  to_json := λ x, obj [
    ("dnai", always (rtl_DNAI x)); ("routeProfId", unless_empty (rtl_RouteProfID x));
    ("routeInfo", unless_empty (rtl_RouteInfo x))];
  of_json := of_object zero_RouteToLocation (λ ms,
    v0 ← field ms "dnai"; v1 ← field ms "routeProfId"; v2 ← field ms "routeInfo";
    Some (mkRouteToLocation v0 v1 v2));
  zero_value := zero_RouteToLocation;
|}.
#[export] Instance GoEmpty_RouteToLocation : GoEmpty RouteToLocation := λ _, false.

#[export] Instance Json_FlowInfo : Json FlowInfo := {|
  to_json := λ x, obj [
    ("flowDescriptions", unless_empty (flow_FlowDescriptions x));
    ("flowId", always (flow_FlowID x))];
  of_json := of_object zero_FlowInfo (λ ms,
    v0 ← field ms "flowDescriptions"; v1 ← field_int int32_min int32_max ms "flowId";
    Some (mkFlowInfo v0 v1));
  zero_value := zero_FlowInfo;
|}.
#[export] Instance GoEmpty_FlowInfo : GoEmpty FlowInfo := λ _, false.

#[export] Instance Json_InvalidParam : Json InvalidParam := {|
  to_json := λ x, obj [
    ("param", always (inv_Param x)); ("reason", unless_empty (inv_Reason x))];
  of_json := of_object zero_InvalidParam (λ ms,
    v0 ← field ms "param"; v1 ← field ms "reason";
    Some (mkInvalidParam v0 v1));
  zero_value := zero_InvalidParam;
|}.
#[export] Instance GoEmpty_InvalidParam : GoEmpty InvalidParam := λ _, false.

#[export] Instance Json_ProblemDetails : Json ProblemDetails := {|
  to_json := λ x, obj [
    ("type", unless_empty (prob_Type x)); ("title", unless_empty (prob_Title x));
    ("detail", unless_empty (prob_Detail x)); ("instance", unless_empty (prob_Instance x));
    ("cause", unless_empty (prob_Cause x));
    ("invalidParams", unless_empty (prob_InvalidParams x));
    ("status", unless_empty (prob_Status x))];
  of_json := of_object zero_ProblemDetails (λ ms,
    v0 ← field ms "type"; v1 ← field ms "title"; v2 ← field ms "detail";
    v3 ← field ms "instance"; v4 ← field ms "cause"; v5 ← field ms "invalidParams";
    v6 ← field_int int_min max_int ms "status";
    Some (mkProblemDetails v0 v1 v2 v3 v4 v5 v6));
  zero_value := zero_ProblemDetails;
|}.
#[export] Instance GoEmpty_ProblemDetails : GoEmpty ProblemDetails := λ _, false.

#[export] Instance Json_TrafficInfluSub : Json TrafficInfluSub := {|
  to_json := λ x, obj [
    ("afServiceId", unless_empty (ts_AFServiceID x));
    ("afAppId", unless_empty (ts_AFAppID x)); ("afTransId", unless_empty (ts_AFTransID x));
    ("dnn", unless_empty (ts_DNN x)); ("snssai", unless_empty (ts_SNSSAI x));
    ("externalGroupId", unless_empty (ts_ExternalGroupID x));
    ("subscribedEvents", unless_empty (ts_SubscribedEvents x));
    ("gpsi", unless_empty (ts_GPSI x)); ("ipv4Addr", unless_empty (ts_IPv4Addr x));
    ("ipv6Addr", unless_empty (ts_IPv6Addr x)); ("macAddr", unless_empty (ts_MacAddr x));
    ("dnaiChgType", unless_empty (ts_DNAIChgType x));
    ("notificationDestination", unless_empty (ts_NotificationDestination x));
    ("self", unless_empty (ts_Self x));
    ("trafficFilters", unless_empty (ts_TrafficFilters x));
    ("ethTrafficFilters", unless_empty (ts_EthTrafficFilters x));
    ("trafficRoutes", unless_empty (ts_TrafficRoutes x));
    ("tempValidities", unless_empty (ts_TempValidities x));
    ("validGeoZoneIds", unless_empty (ts_ValidGeoZoneIDs x));
    ("suppFeat", unless_empty (ts_SuppFeat x));
    ("websockNotifConfig", unless_empty (ts_WebsockNotifConfig x));
    ("requestTestNotification", unless_empty (ts_RequestTestNotification x));
    ("appReloInd", unless_empty (ts_AppReloInd x));
    ("anyUeInd", unless_empty (ts_AnyUEInd x))];
  of_json := of_object zero_TrafficInfluSub (λ ms,
    v0 ← field ms "afServiceId"; v1 ← field ms "afAppId"; v2 ← field ms "afTransId";
    v3 ← field ms "dnn"; v4 ← field ms "snssai"; v5 ← field ms "externalGroupId";
    v6 ← field ms "subscribedEvents"; v7 ← field ms "gpsi"; v8 ← field ms "ipv4Addr";
    v9 ← field ms "ipv6Addr"; v10 ← field ms "macAddr"; v11 ← field ms "dnaiChgType";
    v12 ← field ms "notificationDestination"; v13 ← field ms "self";
    v14 ← field ms "trafficFilters"; v15 ← field ms "ethTrafficFilters";
    v16 ← field ms "trafficRoutes"; v17 ← field ms "tempValidities";
    v18 ← field ms "validGeoZoneIds"; v19 ← field ms "suppFeat";
    v20 ← field ms "websockNotifConfig"; v21 ← field ms "requestTestNotification";
    v22 ← field ms "appReloInd"; v23 ← field ms "anyUeInd";
    Some (mkTrafficInfluSub v0 v1 v2 v3 v4 v5 v6 v7 v8 v9 v10 v11 v12 v13 v14 v15 v16 v17
    v18 v19 v20 v21 v22 v23));
  zero_value := zero_TrafficInfluSub;
|}.
#[export] Instance GoEmpty_TrafficInfluSub : GoEmpty TrafficInfluSub := λ _, false.

#[export] Instance Json_TrafficInfluSubPatch : Json TrafficInfluSubPatch := {|
  to_json := λ x, obj [
    ("trafficFilters", unless_empty (tsp_TrafficFilters x));
    ("appReloInd", unless_empty (tsp_AppReloInd x));
    ("ethTrafficFilters", unless_empty (tsp_EthTrafficFilters x));
    ("trafficRoutes", unless_empty (tsp_TrafficRoutes x));
    ("tempValidities", unless_empty (tsp_TempValidities x));
    ("validGeoZoneIds", unless_empty (tsp_ValidGeoZoneIDs x))];
  of_json := of_object zero_TrafficInfluSubPatch (λ ms,
    v0 ← field ms "trafficFilters"; v1 ← field ms "appReloInd";
    v2 ← field ms "ethTrafficFilters"; v3 ← field ms "trafficRoutes";
    v4 ← field ms "tempValidities"; v5 ← field ms "validGeoZoneIds";
    Some (mkTrafficInfluSubPatch v0 v1 v2 v3 v4 v5));
  zero_value := zero_TrafficInfluSubPatch;
|}.
#[export] Instance GoEmpty_TrafficInfluSubPatch : GoEmpty TrafficInfluSubPatch := λ _, false.

#[export] Instance Json_EventNotification : Json EventNotification := {|
  to_json := λ x, obj [
    ("afTransId", unless_empty (en_AFTransID x));
    ("dnaiChgType", unless_empty (en_DNAIChgType x));
    ("sourceTrafficRoute", unless_empty (en_SourceTrafficRoute x));
    ("subscribedEvent", unless_empty (en_SubscribedEvent x));
    ("targetTrafficRoute", unless_empty (en_TargetTrafficRoute x));
    ("gpsi", unless_empty (en_GPSI x));
    ("srcUeIpv4Addr", unless_empty (en_SrcUEIPv4Addr x));
    ("srcUeIpv6Prefix", unless_empty (en_SrcUEIPv6Prefix x));
    ("tgtUeIpv4Addr", unless_empty (en_TgtUEIP4Addr x));
    ("tgtUeIpv6Prefix", unless_empty (en_TgtUEIPv6Prefix x));
    ("ueMac", unless_empty (en_UEMac x))];
  of_json := of_object zero_EventNotification (λ ms,
    v0 ← field ms "afTransId"; v1 ← field ms "dnaiChgType";
    v2 ← field ms "sourceTrafficRoute"; v3 ← field ms "subscribedEvent";
    v4 ← field ms "targetTrafficRoute"; v5 ← field ms "gpsi";
    v6 ← field ms "srcUeIpv4Addr"; v7 ← field ms "srcUeIpv6Prefix";
    v8 ← field ms "tgtUeIpv4Addr"; v9 ← field ms "tgtUeIpv6Prefix"; v10 ← field ms "ueMac";
    Some (mkEventNotification v0 v1 v2 v3 v4 v5 v6 v7 v8 v9 v10));
  zero_value := zero_EventNotification;
|}.
#[export] Instance GoEmpty_EventNotification : GoEmpty EventNotification := λ _, false.

#[export] Instance Json_Pfd : Json Pfd := {|
  to_json := λ x, obj [
    ("pfdID", always (pfd_PfdID x));
    ("flowDescriptions", unless_empty (pfd_FlowDescriptions x));
    ("urls", unless_empty (pfd_Urls x)); ("domainNames", unless_empty (pfd_DomainNames x))];
  of_json := of_object zero_Pfd (λ ms,
    v0 ← field ms "pfdID"; v1 ← field ms "flowDescriptions"; v2 ← field ms "urls";
    v3 ← field ms "domainNames";
    Some (mkPfd v0 v1 v2 v3));
  zero_value := zero_Pfd;
|}.
#[export] Instance GoEmpty_Pfd : GoEmpty Pfd := λ _, false.

#[export] Instance Json_PfdData : Json PfdData := {|
  to_json := λ x, obj [
    ("externalAppID", always (pdata_ExternalAppID x));
    ("self", unless_empty (pdata_Self x)); ("pfds", always (pdata_Pfds x));
    ("allowedDelay", unless_empty (pdata_AllowedDelay x));
    ("cachingTime", unless_empty (pdata_CachingTime x))];
  of_json := of_object zero_PfdData (λ ms,
    v0 ← field ms "externalAppID"; v1 ← field ms "self"; v2 ← field ms "pfds";
    v3 ← field_opt_int 0 uint64_max ms "allowedDelay";
    v4 ← field_opt_int 0 uint64_max ms "cachingTime";
    Some (mkPfdData v0 v1 v2 v3 v4));
  zero_value := zero_PfdData;
|}.
#[export] Instance GoEmpty_PfdData : GoEmpty PfdData := λ _, false.

#[export] Instance Json_PfdReport : Json PfdReport := {|
  to_json := λ x, obj [
    ("externalAppIds", always (prep_ExternalAppIds x));
    ("failureCode", always (prep_FailureCode x));
    ("cachingTime", unless_empty (prep_CachingTime x))];
  of_json := of_object zero_PfdReport (λ ms,
    v0 ← field ms "externalAppIds"; v1 ← field ms "failureCode";
    v2 ← field_opt_int 0 uint64_max ms "cachingTime";
    Some (mkPfdReport v0 v1 v2));
  zero_value := zero_PfdReport;
|}.
#[export] Instance GoEmpty_PfdReport : GoEmpty PfdReport := λ _, false.

#[export] Instance Json_PfdManagement : Json PfdManagement := {|
  to_json := λ x, obj [
    ("self", unless_empty (pman_Self x)); ("suppFeat", unless_empty (pman_SuppFeat x));
    ("pfdDatas", always (pman_PfdDatas x));
    ("pfdReports", unless_empty (pman_PfdReports x))];
  of_json := of_object zero_PfdManagement (λ ms,
    v0 ← field ms "self"; v1 ← field ms "suppFeat"; v2 ← field ms "pfdDatas";
    v3 ← field ms "pfdReports";
    Some (mkPfdManagement v0 v1 v2 v3));
  zero_value := zero_PfdManagement;
|}.
#[export] Instance GoEmpty_PfdManagement : GoEmpty PfdManagement := λ _, false.
