(* ===== verification/AfWire.v ===== *)
(** * What the AF and the NEF read of each other's messages

    The two programs declare their own structures, with almost the same struct
    tags; the images under [Wire] are what arrives.  An integer arrives only
    when it fits the type of the reader: the NEF reads the slice type as an
    8-bit number and a port as an unsigned one, where the AF has signed 32-bit
    numbers.  The second part follows messages there and back. *)

From S2P Require Import Prelude Json JsonWire NefModel NefJson AfModel.
From stdpp Require Import prelude gmap strings.
From Stdlib Require Import ZArith.

Local Open Scope Z_scope.

(** ** From the AF to the NEF *)

Definition nef_of_af_TemporalValidity (x : AfModel.TemporalValidity)
    : NefModel.TemporalValidity :=
  NefModel.mkTemporalValidity (AfModel.tv_StartTime x) (AfModel.tv_StopTime x).
Definition nef_of_af_TemporalValidity_ok (x : AfModel.TemporalValidity) : bool :=
  true.
#[export] Program Instance Wire_nef_of_af_TemporalValidity 
    : Wire AfModel.TemporalValidity NefModel.TemporalValidity := {|
  wire_ok := nef_of_af_TemporalValidity_ok;
  wire := nef_of_af_TemporalValidity;
|}.
Next Obligation. json_wire nef_of_af_TemporalValidity_ok nef_of_af_TemporalValidity Json_TemporalValidity Json_nef_TemporalValidity. Qed.
Next Obligation. done. Qed.
#[export] Instance WireAlways_nef_of_af_TemporalValidity 
  : WireAlways AfModel.TemporalValidity NefModel.TemporalValidity.
Proof. intros x Hok. by apply wire_read. Qed.

Definition nef_of_af_EthFlowDescription (x : AfModel.EthFlowDescription)
    : NefModel.EthFlowDescription :=
  NefModel.mkEthFlowDescription (AfModel.efd_DestMacAddr x) (AfModel.efd_EthType x)
  (AfModel.efd_FDesc x) (AfModel.efd_FDir x) (AfModel.efd_SourceMacAddr x)
  (wire (list string) (AfModel.efd_VLANTags x)).
Definition nef_of_af_EthFlowDescription_ok (x : AfModel.EthFlowDescription) : bool :=
  true.
#[export] Program Instance Wire_nef_of_af_EthFlowDescription 
    : Wire AfModel.EthFlowDescription NefModel.EthFlowDescription := {|
  wire_ok := nef_of_af_EthFlowDescription_ok;
  wire := nef_of_af_EthFlowDescription;
|}.
Next Obligation. json_wire nef_of_af_EthFlowDescription_ok nef_of_af_EthFlowDescription Json_EthFlowDescription Json_nef_EthFlowDescription. Qed.
Next Obligation. done. Qed.
#[export] Instance WireAlways_nef_of_af_EthFlowDescription 
  : WireAlways AfModel.EthFlowDescription NefModel.EthFlowDescription.
Proof. intros x Hok. by apply wire_read. Qed.

Definition nef_of_af_WebsockNotifConfig (x : AfModel.WebsockNotifConfig)
    : NefModel.WebsockNotifConfig :=
  NefModel.mkWebsockNotifConfig (AfModel.wnc_WebsocketURI x)
  (AfModel.wnc_RequestWebsocketURI x).
Definition nef_of_af_WebsockNotifConfig_ok (x : AfModel.WebsockNotifConfig) : bool :=
  true.
#[export] Program Instance Wire_nef_of_af_WebsockNotifConfig 
    : Wire AfModel.WebsockNotifConfig NefModel.WebsockNotifConfig := {|
  wire_ok := nef_of_af_WebsockNotifConfig_ok;
  wire := nef_of_af_WebsockNotifConfig;
|}.
Next Obligation. json_wire nef_of_af_WebsockNotifConfig_ok nef_of_af_WebsockNotifConfig Json_WebsockNotifConfig Json_nef_WebsockNotifConfig. Qed.
Next Obligation. done. Qed.
#[export] Instance WireAlways_nef_of_af_WebsockNotifConfig 
  : WireAlways AfModel.WebsockNotifConfig NefModel.WebsockNotifConfig.
Proof. intros x Hok. by apply wire_read. Qed.

Definition nef_of_af_Snssai (x : AfModel.SNSSAI)
    : NefModel.Snssai :=
  NefModel.mkSnssai (AfModel.sn_SST x) (AfModel.sn_SD x).
Definition nef_of_af_Snssai_ok (x : AfModel.SNSSAI) : bool :=
  in_range 0 uint8_max (AfModel.sn_SST x).
#[export] Program Instance Wire_nef_of_af_Snssai 
    : Wire AfModel.SNSSAI NefModel.Snssai := {|
  wire_ok := nef_of_af_Snssai_ok;
  wire := nef_of_af_Snssai;
|}.
Next Obligation. json_wire nef_of_af_Snssai_ok nef_of_af_Snssai Json_SNSSAI Json_nef_Snssai. Qed.
Next Obligation. done. Qed.
#[export] Instance WireAlways_nef_of_af_Snssai 
  : WireAlways AfModel.SNSSAI NefModel.Snssai.
Proof. intros x Hok. by apply wire_read. Qed.

Definition nef_of_af_RouteInformation (x : AfModel.RouteInformation)
    : NefModel.RouteInformation :=
  NefModel.mkRouteInformation (AfModel.rinf_IPv4Addr x) (AfModel.rinf_IPv6Addr x)
  (AfModel.rinf_PortNumber x).
Definition nef_of_af_RouteInformation_ok (x : AfModel.RouteInformation) : bool :=
  in_range 0 uint32_max (AfModel.rinf_PortNumber x).
#[export] Program Instance Wire_nef_of_af_RouteInformation 
    : Wire AfModel.RouteInformation NefModel.RouteInformation := {|
  wire_ok := nef_of_af_RouteInformation_ok;
  wire := nef_of_af_RouteInformation;
|}.
Next Obligation. json_wire nef_of_af_RouteInformation_ok nef_of_af_RouteInformation Json_RouteInformation Json_nef_RouteInformation. Qed.
Next Obligation. done. Qed.
#[export] Instance WireAlways_nef_of_af_RouteInformation 
  : WireAlways AfModel.RouteInformation NefModel.RouteInformation.
Proof. intros x Hok. by apply wire_read. Qed.

Definition nef_of_af_RouteToLocation (x : AfModel.RouteToLocation)
    : NefModel.RouteToLocation :=
  NefModel.mkRouteToLocation (AfModel.rtl_DNAI x)
  (wire NefModel.RouteInformation (AfModel.rtl_RouteInfo x)) (AfModel.rtl_RouteProfID x).
Definition nef_of_af_RouteToLocation_ok (x : AfModel.RouteToLocation) : bool :=
  wire_ok NefModel.RouteInformation (AfModel.rtl_RouteInfo x).
#[export] Program Instance Wire_nef_of_af_RouteToLocation 
    : Wire AfModel.RouteToLocation NefModel.RouteToLocation := {|
  wire_ok := nef_of_af_RouteToLocation_ok;
  wire := nef_of_af_RouteToLocation;
|}.
Next Obligation. json_wire nef_of_af_RouteToLocation_ok nef_of_af_RouteToLocation Json_RouteToLocation Json_nef_RouteToLocation. Qed.
Next Obligation. done. Qed.
#[export] Instance WireAlways_nef_of_af_RouteToLocation 
  : WireAlways AfModel.RouteToLocation NefModel.RouteToLocation.
Proof. intros x Hok. by apply wire_read. Qed.

Definition nef_of_af_FlowInfo (x : AfModel.FlowInfo)
    : NefModel.FlowInfo :=
  NefModel.mkFlowInfo (AfModel.flow_FlowID x)
  (wire (list string) (AfModel.flow_FlowDescriptions x)).
Definition nef_of_af_FlowInfo_ok (x : AfModel.FlowInfo) : bool :=
  in_range int32_min int32_max (AfModel.flow_FlowID x).
#[export] Program Instance Wire_nef_of_af_FlowInfo 
    : Wire AfModel.FlowInfo NefModel.FlowInfo := {|
  wire_ok := nef_of_af_FlowInfo_ok;
  wire := nef_of_af_FlowInfo;
|}.
Next Obligation. json_wire nef_of_af_FlowInfo_ok nef_of_af_FlowInfo Json_FlowInfo Json_nef_FlowInfo. Qed.
Next Obligation. done. Qed.
#[export] Instance WireAlways_nef_of_af_FlowInfo 
  : WireAlways AfModel.FlowInfo NefModel.FlowInfo.
Proof. intros x Hok. by apply wire_read. Qed.

Definition nef_of_af_TrafficInfluSub (x : AfModel.TrafficInfluSub)
    : NefModel.TrafficInfluSub :=
  NefModel.mkTrafficInfluSub (AfModel.ts_AFServiceID x) (AfModel.ts_AFAppID x)
  (AfModel.ts_AFTransID x) (AfModel.ts_DNN x) (wire NefModel.Snssai (AfModel.ts_SNSSAI x))
  (AfModel.ts_ExternalGroupID x) (wire (list string) (AfModel.ts_SubscribedEvents x))
  (AfModel.ts_GPSI x) (AfModel.ts_IPv4Addr x) (AfModel.ts_IPv6Addr x)
  (AfModel.ts_MacAddr x) (AfModel.ts_DNAIChgType x) (AfModel.ts_NotificationDestination x)
  (wire NefModel.WebsockNotifConfig (AfModel.ts_WebsockNotifConfig x)) (AfModel.ts_Self x)
  (wire (option (list NefModel.FlowInfo)) (AfModel.ts_TrafficFilters x))
  (wire (option (list NefModel.EthFlowDescription)) (AfModel.ts_EthTrafficFilters x))
  (wire (option (list NefModel.RouteToLocation)) (AfModel.ts_TrafficRoutes x))
  (wire (option (list NefModel.TemporalValidity)) (AfModel.ts_TempValidities x))
  (wire (option (list string)) (AfModel.ts_ValidGeoZoneIDs x)) (AfModel.ts_SuppFeat x)
  (AfModel.ts_AppReloInd x) (AfModel.ts_AnyUEInd x) (AfModel.ts_RequestTestNotification x).
Definition nef_of_af_TrafficInfluSub_ok (x : AfModel.TrafficInfluSub) : bool :=
  wire_ok NefModel.Snssai (AfModel.ts_SNSSAI x) &&
  wire_ok NefModel.WebsockNotifConfig (AfModel.ts_WebsockNotifConfig x) &&
  wire_ok (option (list NefModel.FlowInfo)) (AfModel.ts_TrafficFilters x) &&
  wire_ok (option (list NefModel.EthFlowDescription)) (AfModel.ts_EthTrafficFilters x) &&
  wire_ok (option (list NefModel.RouteToLocation)) (AfModel.ts_TrafficRoutes x) &&
  wire_ok (option (list NefModel.TemporalValidity)) (AfModel.ts_TempValidities x).
#[export] Program Instance Wire_nef_of_af_TrafficInfluSub 
    : Wire AfModel.TrafficInfluSub NefModel.TrafficInfluSub := {|
  wire_ok := nef_of_af_TrafficInfluSub_ok;
  wire := nef_of_af_TrafficInfluSub;
|}.
Next Obligation. json_wire nef_of_af_TrafficInfluSub_ok nef_of_af_TrafficInfluSub Json_TrafficInfluSub Json_nef_TrafficInfluSub. Qed.
Next Obligation. done. Qed.
#[export] Instance WireAlways_nef_of_af_TrafficInfluSub 
  : WireAlways AfModel.TrafficInfluSub NefModel.TrafficInfluSub.
Proof. intros x Hok. by apply wire_read. Qed.

Definition nef_of_af_TrafficInfluSubPatch (x : AfModel.TrafficInfluSubPatch)
    : NefModel.TrafficInfluSubPatch :=
  NefModel.mkTrafficInfluSubPatch (AfModel.tsp_AppReloInd x)
  (wire (option (list NefModel.FlowInfo)) (AfModel.tsp_TrafficFilters x))
  (wire (option (list NefModel.EthFlowDescription)) (AfModel.tsp_EthTrafficFilters x))
  (wire (option (list NefModel.RouteToLocation)) (AfModel.tsp_TrafficRoutes x))
  (wire (option (list NefModel.TemporalValidity)) (AfModel.tsp_TempValidities x))
  (wire (option (list string)) (AfModel.tsp_ValidGeoZoneIDs x)).
Definition nef_of_af_TrafficInfluSubPatch_ok (x : AfModel.TrafficInfluSubPatch) : bool :=
  wire_ok (option (list NefModel.FlowInfo)) (AfModel.tsp_TrafficFilters x) &&
  wire_ok (option (list NefModel.EthFlowDescription)) (AfModel.tsp_EthTrafficFilters x) &&
  wire_ok (option (list NefModel.RouteToLocation)) (AfModel.tsp_TrafficRoutes x) &&
  wire_ok (option (list NefModel.TemporalValidity)) (AfModel.tsp_TempValidities x).
#[export] Program Instance Wire_nef_of_af_TrafficInfluSubPatch 
    : Wire AfModel.TrafficInfluSubPatch NefModel.TrafficInfluSubPatch := {|
  wire_ok := nef_of_af_TrafficInfluSubPatch_ok;
  wire := nef_of_af_TrafficInfluSubPatch;
|}.
Next Obligation. json_wire nef_of_af_TrafficInfluSubPatch_ok nef_of_af_TrafficInfluSubPatch Json_TrafficInfluSubPatch Json_nef_TrafficInfluSubPatch. Qed.
Next Obligation. done. Qed.
#[export] Instance WireAlways_nef_of_af_TrafficInfluSubPatch 
  : WireAlways AfModel.TrafficInfluSubPatch NefModel.TrafficInfluSubPatch.
Proof. intros x Hok. by apply wire_read. Qed.

Definition nef_of_af_Pfd (x : AfModel.Pfd)
    : NefModel.Pfd :=
  NefModel.mkPfd (AfModel.pfd_PfdID x)
  (wire (list string) (AfModel.pfd_FlowDescriptions x))
  (wire (list string) (AfModel.pfd_Urls x))
  (wire (list string) (AfModel.pfd_DomainNames x)).
Definition nef_of_af_Pfd_ok (x : AfModel.Pfd) : bool :=
  true.
#[export] Program Instance Wire_nef_of_af_Pfd 
    : Wire AfModel.Pfd NefModel.Pfd := {|
  wire_ok := nef_of_af_Pfd_ok;
  wire := nef_of_af_Pfd;
|}.
Next Obligation. json_wire nef_of_af_Pfd_ok nef_of_af_Pfd Json_Pfd Json_nef_Pfd. Qed.
Next Obligation. done. Qed.
#[export] Instance WireAlways_nef_of_af_Pfd 
  : WireAlways AfModel.Pfd NefModel.Pfd.
Proof. intros x Hok. by apply wire_read. Qed.

Definition nef_of_af_PfdData (x : AfModel.PfdData)
    : NefModel.PfdData :=
  NefModel.mkPfdData (AfModel.pdata_ExternalAppID x) (AfModel.pdata_Self x)
  (wire (gmap string NefModel.Pfd) (AfModel.pdata_Pfds x)) (AfModel.pdata_AllowedDelay x)
  (AfModel.pdata_CachingTime x).
Definition nef_of_af_PfdData_ok (x : AfModel.PfdData) : bool :=
  wire_ok (gmap string NefModel.Pfd) (AfModel.pdata_Pfds x) &&
  opt_in_range 0 uint64_max (AfModel.pdata_AllowedDelay x) &&
  opt_in_range 0 uint64_max (AfModel.pdata_CachingTime x).
#[export] Program Instance Wire_nef_of_af_PfdData 
    : Wire AfModel.PfdData NefModel.PfdData := {|
  wire_ok := nef_of_af_PfdData_ok;
  wire := nef_of_af_PfdData;
|}.
Next Obligation. json_wire nef_of_af_PfdData_ok nef_of_af_PfdData Json_PfdData Json_nef_PfdData. Qed.
Next Obligation. done. Qed.
#[export] Instance WireAlways_nef_of_af_PfdData 
  : WireAlways AfModel.PfdData NefModel.PfdData.
Proof. intros x Hok. by apply wire_read. Qed.

Definition nef_of_af_PfdReport (x : AfModel.PfdReport)
    : NefModel.PfdReport :=
  NefModel.mkPfdReport (wire (list string) (AfModel.prep_ExternalAppIds x))
  (wire FailureCode (AfModel.prep_FailureCode x)) (AfModel.prep_CachingTime x).
Definition nef_of_af_PfdReport_ok (x : AfModel.PfdReport) : bool :=
  wire_ok FailureCode (AfModel.prep_FailureCode x) &&
  opt_in_range 0 uint64_max (AfModel.prep_CachingTime x).
#[export] Program Instance Wire_nef_of_af_PfdReport 
    : Wire AfModel.PfdReport NefModel.PfdReport := {|
  wire_ok := nef_of_af_PfdReport_ok;
  wire := nef_of_af_PfdReport;
|}.
Next Obligation. json_wire nef_of_af_PfdReport_ok nef_of_af_PfdReport Json_PfdReport Json_nef_PfdReport. Qed.
Next Obligation. done. Qed.
#[export] Instance WireAlways_nef_of_af_PfdReport 
  : WireAlways AfModel.PfdReport NefModel.PfdReport.
Proof. intros x Hok. by apply wire_read. Qed.

Definition nef_of_af_PfdManagement (x : AfModel.PfdManagement)
    : NefModel.PfdManagement :=
  NefModel.mkPfdManagement (AfModel.pman_Self x) (AfModel.pman_SuppFeat x)
  (wire (gmap string NefModel.PfdData) (AfModel.pman_PfdDatas x))
  (wire (gmap string NefModel.PfdReport) (AfModel.pman_PfdReports x)).
Definition nef_of_af_PfdManagement_ok (x : AfModel.PfdManagement) : bool :=
  wire_ok (gmap string NefModel.PfdData) (AfModel.pman_PfdDatas x) &&
  wire_ok (gmap string NefModel.PfdReport) (AfModel.pman_PfdReports x).
#[export] Program Instance Wire_nef_of_af_PfdManagement 
    : Wire AfModel.PfdManagement NefModel.PfdManagement := {|
  wire_ok := nef_of_af_PfdManagement_ok;
  wire := nef_of_af_PfdManagement;
|}.
Next Obligation. json_wire nef_of_af_PfdManagement_ok nef_of_af_PfdManagement Json_PfdManagement Json_nef_PfdManagement. Qed.
Next Obligation. done. Qed.
#[export] Instance WireAlways_nef_of_af_PfdManagement 
  : WireAlways AfModel.PfdManagement NefModel.PfdManagement.
Proof. intros x Hok. by apply wire_read. Qed.

(** ** From the NEF to the AF *)

Definition af_of_nef_TemporalValidity (x : NefModel.TemporalValidity)
    : AfModel.TemporalValidity :=
  AfModel.mkTemporalValidity (NefModel.StartTime x) (NefModel.StopTime x).
Definition af_of_nef_TemporalValidity_ok (x : NefModel.TemporalValidity) : bool :=
  true.
#[export] Program Instance Wire_af_of_nef_TemporalValidity 
    : Wire NefModel.TemporalValidity AfModel.TemporalValidity := {|
  wire_ok := af_of_nef_TemporalValidity_ok;
  wire := af_of_nef_TemporalValidity;
|}.
Next Obligation. json_wire af_of_nef_TemporalValidity_ok af_of_nef_TemporalValidity Json_nef_TemporalValidity Json_TemporalValidity. Qed.
Next Obligation. done. Qed.
#[export] Instance WireAlways_af_of_nef_TemporalValidity 
  : WireAlways NefModel.TemporalValidity AfModel.TemporalValidity.
Proof. intros x Hok. by apply wire_read. Qed.

Definition af_of_nef_EthFlowDescription (x : NefModel.EthFlowDescription)
    : AfModel.EthFlowDescription :=
  AfModel.mkEthFlowDescription (NefModel.DestMacAddr x) (NefModel.EthType x)
  (NefModel.FDesc x) (NefModel.FDir x) (NefModel.SourceMacAddr x)
  (wire (list string) (NefModel.VlanTags x)).
Definition af_of_nef_EthFlowDescription_ok (x : NefModel.EthFlowDescription) : bool :=
  true.
#[export] Program Instance Wire_af_of_nef_EthFlowDescription 
    : Wire NefModel.EthFlowDescription AfModel.EthFlowDescription := {|
  wire_ok := af_of_nef_EthFlowDescription_ok;
  wire := af_of_nef_EthFlowDescription;
|}.
Next Obligation. json_wire af_of_nef_EthFlowDescription_ok af_of_nef_EthFlowDescription Json_nef_EthFlowDescription Json_EthFlowDescription. Qed.
Next Obligation. done. Qed.
#[export] Instance WireAlways_af_of_nef_EthFlowDescription 
  : WireAlways NefModel.EthFlowDescription AfModel.EthFlowDescription.
Proof. intros x Hok. by apply wire_read. Qed.

Definition af_of_nef_WebsockNotifConfig (x : NefModel.WebsockNotifConfig)
    : AfModel.WebsockNotifConfig :=
  AfModel.mkWebsockNotifConfig (NefModel.WebsocketURI x) (NefModel.RequestWebsocketURI x).
Definition af_of_nef_WebsockNotifConfig_ok (x : NefModel.WebsockNotifConfig) : bool :=
  true.
#[export] Program Instance Wire_af_of_nef_WebsockNotifConfig 
    : Wire NefModel.WebsockNotifConfig AfModel.WebsockNotifConfig := {|
  wire_ok := af_of_nef_WebsockNotifConfig_ok;
  wire := af_of_nef_WebsockNotifConfig;
|}.
Next Obligation. json_wire af_of_nef_WebsockNotifConfig_ok af_of_nef_WebsockNotifConfig Json_nef_WebsockNotifConfig Json_WebsockNotifConfig. Qed.
Next Obligation. done. Qed.
#[export] Instance WireAlways_af_of_nef_WebsockNotifConfig 
  : WireAlways NefModel.WebsockNotifConfig AfModel.WebsockNotifConfig.
Proof. intros x Hok. by apply wire_read. Qed.

Definition af_of_nef_Snssai (x : NefModel.Snssai)
    : AfModel.SNSSAI :=
  AfModel.mkSNSSAI (NefModel.Sst x) (NefModel.Sd x).
Definition af_of_nef_Snssai_ok (x : NefModel.Snssai) : bool :=
  in_range int32_min int32_max (NefModel.Sst x).
#[export] Program Instance Wire_af_of_nef_Snssai 
    : Wire NefModel.Snssai AfModel.SNSSAI := {|
  wire_ok := af_of_nef_Snssai_ok;
  wire := af_of_nef_Snssai;
|}.
Next Obligation. json_wire af_of_nef_Snssai_ok af_of_nef_Snssai Json_nef_Snssai Json_SNSSAI. Qed.
Next Obligation. done. Qed.
#[export] Instance WireAlways_af_of_nef_Snssai 
  : WireAlways NefModel.Snssai AfModel.SNSSAI.
Proof. intros x Hok. by apply wire_read. Qed.

Definition af_of_nef_RouteInformation (x : NefModel.RouteInformation)
    : AfModel.RouteInformation :=
  AfModel.mkRouteInformation (NefModel.ri_Ipv4Addr x) (NefModel.ri_Ipv6Addr x)
  (NefModel.ri_PortNumber x).
Definition af_of_nef_RouteInformation_ok (x : NefModel.RouteInformation) : bool :=
  in_range int32_min int32_max (NefModel.ri_PortNumber x).
#[export] Program Instance Wire_af_of_nef_RouteInformation 
    : Wire NefModel.RouteInformation AfModel.RouteInformation := {|
  wire_ok := af_of_nef_RouteInformation_ok;
  wire := af_of_nef_RouteInformation;
|}.
Next Obligation. json_wire af_of_nef_RouteInformation_ok af_of_nef_RouteInformation Json_nef_RouteInformation Json_RouteInformation. Qed.
Next Obligation. done. Qed.
#[export] Instance WireAlways_af_of_nef_RouteInformation 
  : WireAlways NefModel.RouteInformation AfModel.RouteInformation.
Proof. intros x Hok. by apply wire_read. Qed.

Definition af_of_nef_RouteToLocation (x : NefModel.RouteToLocation)
    : AfModel.RouteToLocation :=
  AfModel.mkRouteToLocation (NefModel.rl_Dnai x) (NefModel.rl_RouteProfID x)
  (wire AfModel.RouteInformation (NefModel.rl_RouteInfo x)).
Definition af_of_nef_RouteToLocation_ok (x : NefModel.RouteToLocation) : bool :=
  wire_ok AfModel.RouteInformation (NefModel.rl_RouteInfo x).
#[export] Program Instance Wire_af_of_nef_RouteToLocation 
    : Wire NefModel.RouteToLocation AfModel.RouteToLocation := {|
  wire_ok := af_of_nef_RouteToLocation_ok;
  wire := af_of_nef_RouteToLocation;
|}.
Next Obligation. json_wire af_of_nef_RouteToLocation_ok af_of_nef_RouteToLocation Json_nef_RouteToLocation Json_RouteToLocation. Qed.
Next Obligation. done. Qed.
#[export] Instance WireAlways_af_of_nef_RouteToLocation 
  : WireAlways NefModel.RouteToLocation AfModel.RouteToLocation.
Proof. intros x Hok. by apply wire_read. Qed.

Definition af_of_nef_FlowInfo (x : NefModel.FlowInfo)
    : AfModel.FlowInfo :=
  AfModel.mkFlowInfo (wire (list string) (NefModel.fi_FlowDescriptions x))
  (NefModel.FlowID x).
Definition af_of_nef_FlowInfo_ok (x : NefModel.FlowInfo) : bool :=
  in_range int32_min int32_max (NefModel.FlowID x).
#[export] Program Instance Wire_af_of_nef_FlowInfo 
    : Wire NefModel.FlowInfo AfModel.FlowInfo := {|
  wire_ok := af_of_nef_FlowInfo_ok;
  wire := af_of_nef_FlowInfo;
|}.
Next Obligation. json_wire af_of_nef_FlowInfo_ok af_of_nef_FlowInfo Json_nef_FlowInfo Json_FlowInfo. Qed.
Next Obligation. done. Qed.
#[export] Instance WireAlways_af_of_nef_FlowInfo 
  : WireAlways NefModel.FlowInfo AfModel.FlowInfo.
Proof. intros x Hok. by apply wire_read. Qed.

Definition af_of_nef_InvalidParam (x : NefModel.InvalidParam)
    : AfModel.InvalidParam :=
  AfModel.mkInvalidParam (NefModel.ip_Param x) (NefModel.ip_Reason x).
Definition af_of_nef_InvalidParam_ok (x : NefModel.InvalidParam) : bool :=
  true.
#[export] Program Instance Wire_af_of_nef_InvalidParam 
    : Wire NefModel.InvalidParam AfModel.InvalidParam := {|
  wire_ok := af_of_nef_InvalidParam_ok;
  wire := af_of_nef_InvalidParam;
|}.
Next Obligation. json_wire af_of_nef_InvalidParam_ok af_of_nef_InvalidParam Json_nef_InvalidParam Json_InvalidParam. Qed.
Next Obligation. done. Qed.
#[export] Instance WireAlways_af_of_nef_InvalidParam 
  : WireAlways NefModel.InvalidParam AfModel.InvalidParam.
Proof. intros x Hok. by apply wire_read. Qed.

Definition af_of_nef_ProblemDetails (x : NefModel.ProblemDetails)
    : AfModel.ProblemDetails :=
  AfModel.mkProblemDetails (NefModel.pd_Type x) (NefModel.pd_Title x)
  (NefModel.pd_Detail x) (NefModel.pd_Instance x) (NefModel.pd_Cause x)
  (wire (list AfModel.InvalidParam) (NefModel.pd_InvalidParams x)) (NefModel.pd_Status x).
Definition af_of_nef_ProblemDetails_ok (x : NefModel.ProblemDetails) : bool :=
  wire_ok (list AfModel.InvalidParam) (NefModel.pd_InvalidParams x) &&
  in_range int_min max_int (NefModel.pd_Status x).
#[export] Program Instance Wire_af_of_nef_ProblemDetails 
    : Wire NefModel.ProblemDetails AfModel.ProblemDetails := {|
  wire_ok := af_of_nef_ProblemDetails_ok;
  wire := af_of_nef_ProblemDetails;
|}.
Next Obligation. json_wire af_of_nef_ProblemDetails_ok af_of_nef_ProblemDetails Json_nef_ProblemDetails Json_ProblemDetails. Qed.
Next Obligation. done. Qed.
#[export] Instance WireAlways_af_of_nef_ProblemDetails 
  : WireAlways NefModel.ProblemDetails AfModel.ProblemDetails.
Proof. intros x Hok. by apply wire_read. Qed.

Definition af_of_nef_TrafficInfluSub (x : NefModel.TrafficInfluSub)
    : AfModel.TrafficInfluSub :=
  AfModel.mkTrafficInfluSub (NefModel.ti_AfServiceID x) (NefModel.ti_AfAppID x)
  (NefModel.ti_AfTransID x) (NefModel.ti_Dnn x)
  (wire AfModel.SNSSAI (NefModel.ti_Snssai x)) (NefModel.ti_ExternalGroupID x)
  (wire (option (list string)) (NefModel.ti_SubscribedEvents x)) (NefModel.ti_Gpsi x)
  (NefModel.ti_Ipv4Addr x) (NefModel.ti_Ipv6Addr x) (NefModel.ti_MacAddr x)
  (NefModel.ti_DnaiChgType x) (NefModel.ti_NotificationDestination x) (NefModel.ti_Self x)
  (wire (list AfModel.FlowInfo) (NefModel.ti_TrafficFilters x))
  (wire (list AfModel.EthFlowDescription) (NefModel.ti_EthTrafficFilters x))
  (wire (list AfModel.RouteToLocation) (NefModel.ti_TrafficRoutes x))
  (wire (list AfModel.TemporalValidity) (NefModel.ti_TempValidities x))
  (wire (list string) (NefModel.ti_ValidGeoZoneIDs x)) (NefModel.ti_SuppFeat x)
  (wire AfModel.WebsockNotifConfig (NefModel.ti_WebsockNotifConfig x))
  (NefModel.ti_RequestTestNotification x) (NefModel.ti_AppReloInd x)
  (NefModel.ti_AnyUeInd x).
Definition af_of_nef_TrafficInfluSub_ok (x : NefModel.TrafficInfluSub) : bool :=
  wire_ok AfModel.SNSSAI (NefModel.ti_Snssai x) &&
  wire_ok (list AfModel.FlowInfo) (NefModel.ti_TrafficFilters x) &&
  wire_ok (list AfModel.EthFlowDescription) (NefModel.ti_EthTrafficFilters x) &&
  wire_ok (list AfModel.RouteToLocation) (NefModel.ti_TrafficRoutes x) &&
  wire_ok (list AfModel.TemporalValidity) (NefModel.ti_TempValidities x) &&
  wire_ok AfModel.WebsockNotifConfig (NefModel.ti_WebsockNotifConfig x).
#[export] Program Instance Wire_af_of_nef_TrafficInfluSub 
    : Wire NefModel.TrafficInfluSub AfModel.TrafficInfluSub := {|
  wire_ok := af_of_nef_TrafficInfluSub_ok;
  wire := af_of_nef_TrafficInfluSub;
|}.
Next Obligation. json_wire af_of_nef_TrafficInfluSub_ok af_of_nef_TrafficInfluSub Json_nef_TrafficInfluSub Json_TrafficInfluSub. Qed.
Next Obligation. done. Qed.
#[export] Instance WireAlways_af_of_nef_TrafficInfluSub 
  : WireAlways NefModel.TrafficInfluSub AfModel.TrafficInfluSub.
Proof. intros x Hok. by apply wire_read. Qed.

Definition af_of_nef_EventNotification (x : NefModel.EventNotification)
    : AfModel.EventNotification :=
  AfModel.mkEventNotification (NefModel.ev_AfTransID x) (NefModel.ev_DnaiChgType x)
  (wire AfModel.RouteToLocation (NefModel.ev_SourceTrafficRoute x))
  (NefModel.ev_SubscribedEvent x)
  (wire AfModel.RouteToLocation (NefModel.ev_TargetTrafficRoute x)) (NefModel.ev_Gpsi x)
  (NefModel.ev_SrcUeIpv4Addr x) (NefModel.ev_SrcUeIpv6Prefix x)
  (NefModel.ev_TgtUeIpv4Addr x) (NefModel.ev_TgtUeIpv6Prefix x) (NefModel.ev_UeMac x).
Definition af_of_nef_EventNotification_ok (x : NefModel.EventNotification) : bool :=
  wire_ok AfModel.RouteToLocation (NefModel.ev_SourceTrafficRoute x) &&
  wire_ok AfModel.RouteToLocation (NefModel.ev_TargetTrafficRoute x).
#[export] Program Instance Wire_af_of_nef_EventNotification 
    : Wire NefModel.EventNotification AfModel.EventNotification := {|
  wire_ok := af_of_nef_EventNotification_ok;
  wire := af_of_nef_EventNotification;
|}.
Next Obligation. json_wire af_of_nef_EventNotification_ok af_of_nef_EventNotification Json_nef_EventNotification Json_EventNotification. Qed.
Next Obligation. done. Qed.
#[export] Instance WireAlways_af_of_nef_EventNotification 
  : WireAlways NefModel.EventNotification AfModel.EventNotification.
Proof. intros x Hok. by apply wire_read. Qed.

Definition af_of_nef_Pfd (x : NefModel.Pfd)
    : AfModel.Pfd :=
  AfModel.mkPfd (NefModel.PfdID x) (wire (list string) (NefModel.FlowDescriptions x))
  (wire (list string) (NefModel.Urls x)) (wire (list string) (NefModel.DomainNames x)).
Definition af_of_nef_Pfd_ok (x : NefModel.Pfd) : bool :=
  true.
#[export] Program Instance Wire_af_of_nef_Pfd 
    : Wire NefModel.Pfd AfModel.Pfd := {|
  wire_ok := af_of_nef_Pfd_ok;
  wire := af_of_nef_Pfd;
|}.
Next Obligation. json_wire af_of_nef_Pfd_ok af_of_nef_Pfd Json_nef_Pfd Json_Pfd. Qed.
Next Obligation. done. Qed.
#[export] Instance WireAlways_af_of_nef_Pfd 
  : WireAlways NefModel.Pfd AfModel.Pfd.
Proof. intros x Hok. by apply wire_read. Qed.

Definition af_of_nef_PfdData (x : NefModel.PfdData)
    : AfModel.PfdData :=
  AfModel.mkPfdData (NefModel.ExternalAppID x) (NefModel.pfdd_Self x)
  (wire (gmap string AfModel.Pfd) (NefModel.Pfds x)) (NefModel.AllowedDelay x)
  (NefModel.CachingTime x).
Definition af_of_nef_PfdData_ok (x : NefModel.PfdData) : bool :=
  wire_ok (gmap string AfModel.Pfd) (NefModel.Pfds x) &&
  opt_in_range 0 uint64_max (NefModel.AllowedDelay x) &&
  opt_in_range 0 uint64_max (NefModel.CachingTime x).
#[export] Program Instance Wire_af_of_nef_PfdData 
    : Wire NefModel.PfdData AfModel.PfdData := {|
  wire_ok := af_of_nef_PfdData_ok;
  wire := af_of_nef_PfdData;
|}.
Next Obligation. json_wire af_of_nef_PfdData_ok af_of_nef_PfdData Json_nef_PfdData Json_PfdData. Qed.
Next Obligation. done. Qed.
#[export] Instance WireAlways_af_of_nef_PfdData 
  : WireAlways NefModel.PfdData AfModel.PfdData.
Proof. intros x Hok. by apply wire_read. Qed.

Definition af_of_nef_PfdReport (x : NefModel.PfdReport)
    : AfModel.PfdReport :=
  AfModel.mkPfdReport (wire (list string) (NefModel.ExternalAppIds x))
  (NefModel.rep_FailureCode x) (NefModel.rep_CachingTime x).
Definition af_of_nef_PfdReport_ok (x : NefModel.PfdReport) : bool :=
  opt_in_range 0 uint64_max (NefModel.rep_CachingTime x).
#[export] Program Instance Wire_af_of_nef_PfdReport 
    : Wire NefModel.PfdReport AfModel.PfdReport := {|
  wire_ok := af_of_nef_PfdReport_ok;
  wire := af_of_nef_PfdReport;
|}.
Next Obligation. json_wire af_of_nef_PfdReport_ok af_of_nef_PfdReport Json_nef_PfdReport Json_PfdReport. Qed.
Next Obligation. done. Qed.
#[export] Instance WireAlways_af_of_nef_PfdReport 
  : WireAlways NefModel.PfdReport AfModel.PfdReport.
Proof. intros x Hok. by apply wire_read. Qed.

Definition af_of_nef_PfdManagement (x : NefModel.PfdManagement)
    : AfModel.PfdManagement :=
  AfModel.mkPfdManagement (NefModel.pfdm_Self x) (NefModel.SuppFeat x)
  (wire (gmap string AfModel.PfdData) (NefModel.PfdDatas x))
  (wire (gmap string AfModel.PfdReport) (NefModel.PfdReports x)).
Definition af_of_nef_PfdManagement_ok (x : NefModel.PfdManagement) : bool :=
  wire_ok (gmap string AfModel.PfdData) (NefModel.PfdDatas x) &&
  wire_ok (gmap string AfModel.PfdReport) (NefModel.PfdReports x).
#[export] Program Instance Wire_af_of_nef_PfdManagement 
    : Wire NefModel.PfdManagement AfModel.PfdManagement := {|
  wire_ok := af_of_nef_PfdManagement_ok;
  wire := af_of_nef_PfdManagement;
|}.
Next Obligation. json_wire af_of_nef_PfdManagement_ok af_of_nef_PfdManagement Json_nef_PfdManagement Json_PfdManagement. Qed.
Next Obligation. done. Qed.
#[export] Instance WireAlways_af_of_nef_PfdManagement 
  : WireAlways NefModel.PfdManagement AfModel.PfdManagement.
Proof. intros x Hok. by apply wire_read. Qed.

(** ** The messages *)

Lemma nef_reads_ti (t : AfModel.TrafficInfluSub) :
  nef_of_af_TrafficInfluSub_ok t = true →
  of_json (to_json t) = Some (nef_of_af_TrafficInfluSub t).
Proof. intros Ht. exact (wire_always t Ht). Qed.

Lemma nef_reads_patch (p : AfModel.TrafficInfluSubPatch) :
  nef_of_af_TrafficInfluSubPatch_ok p = true →
  of_json (to_json p) = Some (nef_of_af_TrafficInfluSubPatch p).
Proof. intros Hp. exact (wire_always p Hp). Qed.

Lemma nef_reads_pfdm (m : AfModel.PfdManagement) :
  nef_of_af_PfdManagement_ok m = true → of_json (to_json m) = Some (nef_of_af_PfdManagement m).
Proof. intros Hm. exact (wire_always m Hm). Qed.

Lemma af_reads_ti (t : NefModel.TrafficInfluSub) :
  af_of_nef_TrafficInfluSub_ok t = true →
  of_json (to_json t) = Some (af_of_nef_TrafficInfluSub t).
Proof. intros Ht. exact (wire_always t Ht). Qed.

Lemma af_reads_pfdm (m : NefModel.PfdManagement) :
  af_of_nef_PfdManagement_ok m = true → of_json (to_json m) = Some (af_of_nef_PfdManagement m).
Proof. intros Hm. exact (wire_always m Hm). Qed.

Lemma af_reads_event (e : NefModel.EventNotification) :
  af_of_nef_EventNotification_ok e = true →
  of_json (to_json e) = Some (af_of_nef_EventNotification e).
Proof. intros He. exact (wire_always e He). Qed.

(** * Messages that go to the NEF and come back

    What the AF sends, the NEF stores and sends back, and the AF reads, is what
    the AF sent.  [WireBack] says so for a type of message; it follows the
    structure of the types. *)

Class WireBack (A B : Type) `{Wire A B, !GoEmpty B, !Wire B A} : Prop :=
  wire_back : ∀ a : A, wire A (wire B a) = a.

Section containers.
Context {A B : Type} `{Json A, Json B, !GoEmpty A, !GoEmpty B, WA : !Wire A B, !WireAlways A B}
  `{WB : !Wire B A, !WireAlways B A, !WireBack A B}.

#[export] Instance WireBack_list : WireBack (list A) (list B).
Proof. intros l. induction l as [|a l IH]; [done|]. cbn. f_equal; [apply wire_back|exact IH]. Qed.

#[export] Instance WireBack_list_slice : WireBack (list A) (option (list B)).
Proof.
  intros l. change (wire A <$> default [] (as_slice (wire B <$> l)) = l).
  transitivity (wire A <$> (wire B <$> l)); [|apply WireBack_list].
  by destruct l.
Qed.

#[export] Instance WireBack_gmap : WireBack (gmap string A) (gmap string B).
Proof.
  intros m. change (wire A <$> (wire B <$> m) = m). apply map_eq. intros i.
  rewrite !lookup_fmap. destruct (m !! i); [|done]. cbn. f_equal. apply wire_back.
Qed.
End containers.

#[export] Instance WireBack_string : WireBack string string.
Proof. done. Qed.

(** A structure comes back when the members that are not written as they are
    do. *)
Ltac wire_struct back fwd :=
  intros x; change (back (fwd x) = x); destruct x; unfold back, fwd; f_equal;
  first [reflexivity | exact (wire_back _)].

#[export] Instance WireBack_TemporalValidity : WireBack AfModel.TemporalValidity NefModel.TemporalValidity.
Proof. wire_struct af_of_nef_TemporalValidity nef_of_af_TemporalValidity. Qed.
#[export] Instance WireBack_WebsockNotifConfig : WireBack AfModel.WebsockNotifConfig NefModel.WebsockNotifConfig.
Proof. wire_struct af_of_nef_WebsockNotifConfig nef_of_af_WebsockNotifConfig. Qed.
#[export] Instance WireBack_SNSSAI : WireBack AfModel.SNSSAI NefModel.Snssai.
Proof. wire_struct af_of_nef_Snssai nef_of_af_Snssai. Qed.
#[export] Instance WireBack_EthFlowDescription : WireBack AfModel.EthFlowDescription NefModel.EthFlowDescription.
Proof. wire_struct af_of_nef_EthFlowDescription nef_of_af_EthFlowDescription. Qed.
#[export] Instance WireBack_RouteInformation : WireBack AfModel.RouteInformation NefModel.RouteInformation.
Proof. wire_struct af_of_nef_RouteInformation nef_of_af_RouteInformation. Qed.
#[export] Instance WireBack_RouteToLocation : WireBack AfModel.RouteToLocation NefModel.RouteToLocation.
Proof. wire_struct af_of_nef_RouteToLocation nef_of_af_RouteToLocation. Qed.
#[export] Instance WireBack_FlowInfo : WireBack AfModel.FlowInfo NefModel.FlowInfo.
Proof. wire_struct af_of_nef_FlowInfo nef_of_af_FlowInfo. Qed.
#[export] Instance WireBack_Pfd : WireBack AfModel.Pfd NefModel.Pfd.
Proof. wire_struct af_of_nef_Pfd nef_of_af_Pfd. Qed.
#[export] Instance WireBack_PfdData : WireBack AfModel.PfdData NefModel.PfdData.
Proof. wire_struct af_of_nef_PfdData nef_of_af_PfdData. Qed.
#[export] Instance WireBack_PfdReport : WireBack AfModel.PfdReport NefModel.PfdReport.
Proof. wire_struct af_of_nef_PfdReport nef_of_af_PfdReport. Qed.
#[export] Instance WireBack_PfdManagement : WireBack AfModel.PfdManagement NefModel.PfdManagement.
Proof. wire_struct af_of_nef_PfdManagement nef_of_af_PfdManagement. Qed.

(** The events of a subscription come back, unless the slice is empty but not
    nil. *)
Lemma events_back (ev : option (list string)) :
  ev ≠ Some [] → wire (option (list string)) (wire (list string) ev) = ev.
Proof.
  intros Hev. change (as_slice (wire string <$> (wire string <$> default [] ev)) = ev).
  rewrite (WireBack_list (default [] ev) : wire string <$> (wire string <$> default [] ev) = _).
  by destruct ev as [[|]|].
Qed.

(** The subscription with a nil slice of events. *)
Definition nil_events (ts : AfModel.TrafficInfluSub) : AfModel.TrafficInfluSub :=
  AfModel.mkTrafficInfluSub (ts_AFServiceID ts) (ts_AFAppID ts) (ts_AFTransID ts) (ts_DNN ts)
    (ts_SNSSAI ts) (ts_ExternalGroupID ts) None (ts_GPSI ts) (ts_IPv4Addr ts) (ts_IPv6Addr ts)
    (ts_MacAddr ts) (ts_DNAIChgType ts) (ts_NotificationDestination ts) (ts_Self ts)
    (ts_TrafficFilters ts) (ts_EthTrafficFilters ts) (ts_TrafficRoutes ts) (ts_TempValidities
    ts) (ts_ValidGeoZoneIDs ts) (ts_SuppFeat ts) (ts_WebsockNotifConfig ts)
    (ts_RequestTestNotification ts) (ts_AppReloInd ts) (ts_AnyUEInd ts).

Lemma ti_back (ts : AfModel.TrafficInfluSub) :
  ts_SubscribedEvents ts ≠ Some [] →
  af_of_nef_TrafficInfluSub (nef_of_af_TrafficInfluSub ts) = ts.
Proof.
  intros Hev. destruct ts. unfold af_of_nef_TrafficInfluSub, nef_of_af_TrafficInfluSub.
  f_equal; first [reflexivity | exact (wire_back _) | exact (events_back _ Hev)].
Qed.

(** C11: a subscription or a PFD transaction that
    the AF sends to the NEF, whose numbers fit the types of both programs, is
    read by the NEF member for member: each member of the value of the NEF is the
    member of the same meaning of the value of the AF, as
    [nef_of_af_TrafficInfluSub] and [nef_of_af_PfdManagement] list them.  What
    the NEF sends back when it has stored it is read by the AF as the value it
    had sent.  An empty list of events that is not nil comes back as nil. *)
Theorem af_wire_roundtrip :
  (∀ ts : AfModel.TrafficInfluSub,
     nef_of_af_TrafficInfluSub_ok ts = true →
     af_of_nef_TrafficInfluSub_ok (nef_of_af_TrafficInfluSub ts) = true →
     of_json (to_json ts) = Some (nef_of_af_TrafficInfluSub ts) ∧
       of_json (to_json (nef_of_af_TrafficInfluSub ts)) =
         Some (match ts_SubscribedEvents ts with
               | Some [] => nil_events ts
               | _ => ts
               end)) ∧
  (∀ m : AfModel.PfdManagement,
     nef_of_af_PfdManagement_ok m = true →
     af_of_nef_PfdManagement_ok (nef_of_af_PfdManagement m) = true →
     of_json (to_json m) = Some (nef_of_af_PfdManagement m) ∧
       of_json (to_json (nef_of_af_PfdManagement m)) = Some m).
Proof.
  split.
  - intros ts Hto Hback. split; [by apply nef_reads_ti|].
    rewrite af_reads_ti by done. f_equal.
    destruct (ts_SubscribedEvents ts) as [[|]|] eqn:Hev;
      [|apply ti_back; by rewrite Hev..].
    transitivity (af_of_nef_TrafficInfluSub (nef_of_af_TrafficInfluSub
      (nil_events ts))); [|by apply ti_back].
    unfold nef_of_af_TrafficInfluSub. f_equal. by rewrite Hev.
  - intros m Hto Hback. split; [by apply nef_reads_pfdm|].
    rewrite af_reads_pfdm by done. f_equal. exact (wire_back m).
Qed.

Definition wire_example : AfModel.TrafficInfluSub :=
  AfModel.mkTrafficInfluSub "svc1" "app1" "1" "" zero_SNSSAI "group" (Some ["UP_PATH_CHANGE"]) ""
    "" "" "" "EARLY" "http://af/notify" "" [] [] [] [] ["zone"] "" zero_WebsockNotifConfig
    false true false.

Lemma af_wire_roundtrip_witness :
  of_json (to_json wire_example) = Some (nef_of_af_TrafficInfluSub wire_example) ∧
  of_json (to_json (nef_of_af_TrafficInfluSub wire_example)) = Some wire_example.
Proof. apply (proj1 af_wire_roundtrip wire_example); reflexivity. Defined.
