(* ===== verification/AfCommon.v ===== *)
(** * What the AF runs on

    The texts of HTTP bodies, the requests the client sends and the responses
    it receives, the network as a parameter ([Network]), and the state of the
    AF: its context, the access token kept in the global variable
    [nefAccessToken], and the state of everything on the other side of the
    network.  The second part is common.go. *)

From S2P Require Import Prelude Strconv OAuth2 Http Json AfModel.
From stdpp Require Import prelude gmap strings.
From Stdlib Require Import ZArith Ascii.

Local Open Scope Z_scope.

(** ** Bodies *)

(** The bytes of a body: the text of a JSON document, or something else (an
    empty body included). *)
Inductive text := NotJson | JsonText (j : json).

(** [json.Unmarshal(body, &v)] into a fresh [v]. *)
Definition json_Unmarshal `{Json A} (t : text) : option A :=
  match t with NotJson => None | JsonText j => of_json j end.

(** ** URLs *)

Definition is_alnum (c : ascii) : bool :=
  let n := nat_of_ascii c in
  bool_decide ((48 ≤ n ≤ 57) ∨ (65 ≤ n ≤ 90) ∨ (97 ≤ n ≤ 122))%nat.

(** The text up to a character, and the text from it on. *)
Fixpoint break_at (c : ascii) (s : string) : string * string :=
  match s with
  | EmptyString => ("", "")
  | String a s' =>
      if Ascii.eqb a c then ("", s)
      else let '(l, r) := break_at c s' in (String a l, r)
  end.

(** A host name of letters, digits, hyphens and dots, with an optional port. *)
Definition plain_authority (s : string) : bool :=
  let '(host, port) := break_at ":" s in
  negb (str_empty host) && all_chars (λ c, is_alnum c || bool_decide (c ∈ ["-"; "."]%char)) host &&
  match port with EmptyString => true | String _ p => all_chars is_digit p end.

(** A path without escapes and without dot segments. *)
Definition plain_path (s : string) : bool :=
  all_chars (λ c, is_alnum c || bool_decide (c ∈ ["-"; "_"; "~"; "/"]%char)) s.

(** An absolute URL that parsing and printing leave unchanged. *)
Definition plain_url (s : string) : bool :=
  let rest := match Strconv.strip_prefix "https://" s with
              | Some r => Some r
              | None => Strconv.strip_prefix "http://" s
              end in
  match rest with
  | None => false
  | Some r => let '(auth, path) := break_at "/" r in plain_authority auth && plain_path path
  end.

(** What [net/url] makes of other texts, and the text of a decoding error. *)
Class AfEnv := {
  url_other : string → option string;
  location_other : string → string → option string;
  unmarshal_error : text → string;
}.

(** ** The HTTP client *)

Record httpRequest := mkHttpRequest {
  rq_Method : string;
  rq_URL : string;
  rq_Header : gmap string string;
  rq_Body : option json;
}.

(** A response: [rs_Location] is its Location field ("" if there is none),
    [rs_RequestURL] the URL that was requested, [rs_Body] what reading its body
    gives ([None] is an error). *)
Record httpResponse := mkHttpResponse {
  rs_Status : string;
  rs_StatusCode : Z;
  rs_Location : string;
  rs_RequestURL : string;
  rs_Body : option text;
}.

(** [r.StatusCode = code]. *)
Definition rs_set_StatusCode (code : Z) (r : httpResponse) : httpResponse :=
  mkHttpResponse (rs_Status r) code (rs_Location r) (rs_RequestURL r) (rs_Body r).

(** The other side: sending a request, the clock (in nanoseconds) and the
    configuration file that [oauth2.GetAccessToken] reads. *)
Class Network (N : Type) := {
  http_Do : httpRequest → N → (option httpResponse * error) * N;
  clock : N → Z;
  oauth2_file : N → OAuth2Config + string;
}.

Section url.
Context `{AfEnv}.

(** [url.Parse(s)] followed by [String()]. *)
Definition url_Parse (s : string) : option string :=
  if plain_url s then Some s else url_other s.

(** [resp.Location()] followed by [String()]. *)
Definition Location (r : httpResponse) : string + error :=
  if str_empty (rs_Location r) then inr (errors_New "http: no Location header in response")
  else if plain_url (rs_Location r) then inl (rs_Location r)
  else match location_other (rs_RequestURL r) (rs_Location r) with
       | Some u => inl u
       | None => inr (errors_New "parse error")
       end.
End url.

(** ** The state *)
Record afState (N : Type) := mkAfState {
  af_ctx : Context;
  nefAccessToken : string;
  net : N;
}.
Arguments mkAfState {N} _ _ _.
Arguments af_ctx {N} _.
Arguments nefAccessToken {N} _.
Arguments net {N} _.

Section state.
Context {N : Type}.
Abbreviation st := (afState N).

Definition set_ctx (c : Context) (s : st) : st := mkAfState c (nefAccessToken s) (net s).
Definition set_token (t : string) (s : st) : st := mkAfState (af_ctx s) t (net s).
Definition set_net (n : N) (s : st) : st := mkAfState (af_ctx s) (nefAccessToken s) n.

(** [*p] for a pointer to a response. *)
Definition deref {A} (p : option A) : GoM st A :=
  match p with Some a => mret a | None => go_panic "nil pointer dereference" end.

(** [trans[num] = ts] and [delete(trans, num)] on the transactions. *)
Definition modify_trans (f : TransactionIDs → TransactionIDs) : GoM st unit :=
  go_modify (λ s, set_ctx (set_trans (f (trans_of (af_ctx s))) (af_ctx s)) s).
Definition modify_subs (f : NotifSubscryptions → NotifSubscryptions) : GoM st unit :=
  go_modify (λ s, set_ctx (set_subs (f (subs_of (af_ctx s))) (af_ctx s)) s).

Context `{Network N, Jwt}.

(** [fetchNEFAuthorizationToken]: the variable is assigned also when there is
    an error. *)
Definition fetchNEFAuthorizationToken : GoM st error :=
  s ← go_get;
  let '(tok, err) := GetAccessToken (clock (net s)) (oauth2_file (net s)) in
  go_modify (set_token tok);;
  mret err.

(** [getNEFAuthorizationToken]. *)
Definition getNEFAuthorizationToken : GoM st (string * error) :=
  s ← go_get; mret (nefAccessToken s, nil_err).
End state.

(** What the AF writes into response bodies: values it marshals, or the bytes
    received from the NEF. *)
Inductive afPayload :=
| AfTi (t : TrafficInfluSub)
| AfTis (l : list TrafficInfluSub)
| AfProblem (p : ProblemDetails)
| AfPfdm (m : PfdManagement)
| AfPfdms (l : list PfdManagement)
| AfPfdd (d : PfdData)
| AfRaw (t : text).

(** * Helpers of the AF (common.go)

    The choice of a transaction number, the reading of identifiers from URLs,
    the treatment of the NEF's error responses, and the rewriting of the links
    in PFD responses. *)

(** [HTTP2Enabled] of af.go and [TransIDMax]. *)
Definition HTTP2Enabled : bool := true.
Definition TransIDMax : Z := 2 ^ 31 - 1.

Definition getStatusCode (r : option httpResponse) : Z :=
  match r with Some r => rs_StatusCode r | None => StatusInternalServerError end.

(** ** Transaction numbers *)

(** The search loop of [genAFTransID]; [None] when the fuel is used up. *)
Fixpoint search_free (fuel : nat) (trans : TransactionIDs) (found : bool) (num : Z)
    : option (Z * TransactionIDs) :=
  match fuel with
  | O => None
  | S fuel' =>
      if found && bool_decide (num < TransIDMax) then
        let num := int_incr num in
        match trans !! num with
        | Some _ => search_free fuel' trans true num
        | None => Some (num, <[num := zero_TrafficInfluSub]> trans)
        end
      else Some (0, trans)
  end.

(** The number the search starts from. *)
Definition search_start `{GoEnv} (trans : TransactionIDs) : Z :=
  let num := match map_range ["genAFTransID"; "first"] trans with
             | [] => 0
             | (max, _) :: _ => max
             end in
  let num := fold_left (λ num kv, if bool_decide (num < kv.1) then kv.1 else num)
               (map_range ["genAFTransID"; "max"] trans) num in
  if bool_decide (num = TransIDMax) then 1 else num.

(** [genAFTransID]: the number, and the map with the number entered.  The
    loop ends after at most one round more than there are numbers in use
    ([search_free_ends] in [AfRegistry]). *)
Definition genAFTransID `{GoEnv} (trans : TransactionIDs) : Z * TransactionIDs :=
  match search_free (S (size trans)) trans true (search_start trans) with
  | Some r => r
  | None => (0, trans)
  end.

(** ** Identifiers in URLs *)

(** [strings.Replace(s, old, new, -1)] for a non-empty [old]. *)
Definition strings_ReplaceAll (s old new : string) : string :=
  String.concat new (strings_Split s old).

(** [getSubsIDFromURL]; the argument is the text of the URL, if there is one. *)
Definition getSubsIDFromURL (u : option string) : string * error :=
  match u with
  | None => ("", errors_New "empty URL in the request message")
  | Some sURL =>
      match strings_Split sURL "subscriptions" with
      | [_] => ("", errors_New "subscriptionID was not found in the URL string")
      | [_; s1] => (strings_ReplaceAll s1 "/" "", nil_err)
      | _ => ("", errors_New "wrong URL")
      end
  end.

(** ** Errors of the client *)

(** A [GenericError], or an error made from a text. *)
Inductive clientError :=
| GenericError (body : text) (error : string) (model : option ProblemDetails)
| PlainError (msg : string).

(** [err.Error()]. *)
Definition Error (e : clientError) : string :=
  match e with GenericError _ s _ => s | PlainError s => s end.

(** An error of a library, as an error of the client. *)
Definition lift_error (e : error) : option clientError := PlainError <$> e.

Section errors.
Context {N : Type} `{Network N, Jwt, AfEnv}.
Abbreviation st := (afState N).

(** The part shared by the three functions below: on 401 the token is
    fetched again, then the body is decoded as problem details. *)
Definition problem_error (r : httpResponse) (body : text) : GoM st clientError :=
  (if bool_decide (rs_StatusCode r = 401)
   then fetchNEFAuthorizationToken;; mret tt else mret tt);;
  match json_Unmarshal (A := ProblemDetails) body with
  | None => mret (GenericError body (unmarshal_error body) None)
  | Some v => mret (GenericError body (rs_Status r) (Some v))
  end.

(** The error for a status that the API does not list; the body has been read
    already, so reading it again gives nothing. *)
Definition unexpected_status (r : httpResponse) : clientError :=
  PlainError ("NEF returned error - " +:+ rs_Status r +:+ ", ").

Definition handleGetErrorResp (r : httpResponse) (body : text) : GoM st clientError :=
  if bool_decide (rs_StatusCode r ∈ [400; 401; 403; 404; 406; 429; 500; 503])
  then problem_error r body
  else mret (unexpected_status r).

Definition handlePostPutPatchErrorResp (r : httpResponse) (body : text) : GoM st clientError :=
  if bool_decide (rs_StatusCode r ∈ [400; 401; 403; 404; 411; 413; 415; 429; 500; 503])
  then problem_error r body
  else mret (unexpected_status r).

Definition handlePfdPostPutPatchErrorResp (r : httpResponse) (body : text)
    : GoM st clientError :=
  if bool_decide (rs_StatusCode r ∈ [400; 401; 403; 404; 411; 413; 415; 429; 503])
  then problem_error r body
  else if bool_decide (rs_StatusCode r = 500)
  then mret (GenericError body (rs_Status r) None)
  else mret (unexpected_status r).
End errors.

(** ** Links in PFD responses *)

(** [s[i]] of a slice of texts. *)
Definition index_at (l : list string) (i : nat) : outcome string :=
  match l !! i with Some s => Ret s | None => Panic "index out of range" end.

Definition outcome_bind {A B} (m : outcome A) (k : A → outcome B) : outcome B :=
  match m with Ret a => k a | Panic e => Panic e end.

(** The scheme, the host and the prefix under which the AF serves PFDs. *)
Definition af_pfd_prefix (cfg : Config) : string :=
  (if HTTP2Enabled then "https" else "http") +:+ "://" +:+ Hostname (SrvCfg cfg) +:+
  CNCAEndpoint (SrvCfg cfg) +:+ af_LocationPrefixPfd cfg.

Definition updatePfdURL (cfg : Config) (resURL : string) : outcome string :=
  outcome_bind (index_at (strings_Split resURL "transactions") 1) (λ res1,
    Ret (af_pfd_prefix cfg +:+ "transactions" +:+ res1)).

Definition updateSelfLink (cfg : Config) (pfdTrans : PfdManagement) : outcome (string * error) :=
  let nefSelf := pman_Self pfdTrans in
  if str_empty nefSelf then Ret ("", errors_New "NEF Self Link Not Present")
  else
    outcome_bind (index_at (strings_Split nefSelf "transactions") 1) (λ res1,
    outcome_bind (index_at (strings_Split res1 "/") 1) (λ pID1,
    Ret (af_pfd_prefix cfg +:+ "transactions/" +:+ pID1, nil_err))).

Definition updateAppLink (cfg : Config) (pfdData : PfdData) : outcome (string * error) :=
  let self := pdata_Self pfdData in
  if str_empty self then Ret ("", errors_New "NEF App Self Link Not Present")
  else
    outcome_bind (index_at (strings_Split self "transactions") 1) (λ res1,
    outcome_bind (index_at (strings_Split res1 "/") 1) (λ pID1,
    outcome_bind (index_at (strings_Split self "applications") 1) (λ app1,
    Ret (af_pfd_prefix cfg +:+ "transactions/" +:+ pID1 +:+ "/applications" +:+ app1,
         nil_err)))).

(** [updateAppsLink]: the applications of the transaction, updated in place,
    and the error that stopped the loop. *)
Definition updateAppsLink `{GoEnv} (cfg : Config) (pfdTrans : PfdManagement)
    : outcome (gmap string PfdData * error) :=
  match loop_acc (map_range ["updateAppsLink"; pman_Self pfdTrans] (pman_PfdDatas pfdTrans))
    (λ kv datas,
      match updateAppLink cfg kv.2 with
      | Panic e => inr (Panic e)
      | Ret (_, Some e) => inr (Ret (datas, Some e))
      | Ret (appSelf, None) => inl (<[kv.1 := pdata_set_Self appSelf kv.2]> datas)
      end) (pman_PfdDatas pfdTrans) with
  | inl datas => Ret (datas, nil_err)
  | inr out => out
  end.

(** [errRspHeader]. *)
Definition errRspHeader {B} (statusCode : Z) (w : ResponseWriter B) : ResponseWriter B :=
  WriteHeader statusCode w.
