(* ===== verification/AfClient.v ===== *)
(** * The client of the AF towards the NEF (af_client.go, api_*.go)

    One definition per API service.  A service builds the URL, prepares and
    sends the request, reads the body of the response and decodes it when the
    status is the expected one; for any other status it returns an error next
    to the response.  The PFD services also return the bytes of the body. *)

From S2P Require Import Prelude Strconv Http OAuth2 Json JsonWire AfModel AfCommon.
From stdpp Require Import prelude gmap strings.
From Stdlib Require Import ZArith.

Local Open Scope Z_scope.

Definition contentType : string := "application/json".

(** The header parameters every service sets. *)
Definition headerParams : gmap string string :=
  {["Content-Type" := contentType; "Accept" := contentType]}.

(** ** URLs of the NEF *)

(** [path] of the traffic influence services, before and after the
    replacement of its variables. *)
Definition ti_base (cli : CliConfig) : string :=
  Protocol cli +:+ "://" +:+ NEFHostname cli +:+ NEFPort cli +:+ NEFBasePath cli.
Definition ti_path (cli : CliConfig) (afID : string) : string :=
  strings_ReplaceAll (ti_base cli +:+ "/{afId}/subscriptions") "{afId}" afID.
Definition ti_sub_path (cli : CliConfig) (afID subscriptionID : string) : string :=
  strings_ReplaceAll
    (strings_ReplaceAll (ti_base cli +:+ "/{afId}/subscriptions/{subscriptionId}") "{afId}" afID)
    "{subscriptionId}" subscriptionID.

(** [path] of the PFD services. *)
Definition pfd_path (cli : CliConfig) (afID : string) : string :=
  Protocol cli +:+ "://" +:+ NEFHostname cli +:+ NEFPort cli +:+ NEFPFDBasePath cli +:+ "/" +:+
  afID +:+ "/transactions".
Definition pfd_trans_path (cli : CliConfig) (afID pfdTransaction : string) : string :=
  pfd_path cli afID +:+ "/" +:+ pfdTransaction.
Definition pfd_app_path (cli : CliConfig) (afID pfdTransaction appID : string) : string :=
  pfd_trans_path cli afID pfdTransaction +:+ "/applications/" +:+ appID.

Section client.
Context {N : Type} `{Network N, Jwt, AfEnv}.
Abbreviation st := (afState N).

(** ** Sending a request *)

(** [prepareRequest]; a structure is encoded as JSON by [setBody], because the
    content type is JSON, and a nil body gives an empty buffer. *)
Definition prepareRequest (cli : CliConfig) (path method : string) (body : option json)
    : GoM st (httpRequest + clientError) :=
  match url_Parse path with
  | None => mret (inr (PlainError "parse error"))
  | Some url =>
      match url_Parse url with
      | None => mret (inr (PlainError "parse error"))
      | Some url =>
          let headers := <["User-Agent" := cli_UserAgent cli]> headerParams in
          if cli_OAuth2Support cli then
            a ← getNEFAuthorizationToken;
            match a : string * error with
            | (_, Some e) => mret (inr (PlainError e))
            | (auth, None) =>
                mret (inl (mkHttpRequest method url
                             (<["Authorization" := "Bearer " +:+ auth]> headers) body))
            end
          else mret (inl (mkHttpRequest method url headers body))
      end
  end.

(** [callAPI]. *)
Definition callAPI (r : httpRequest) : GoM st (option httpResponse * error) :=
  s ← go_get;
  let '(out, n) := http_Do r (net s) in
  go_modify (set_net n);;
  mret out.

(** Prepares and sends a request and reads the body of the response: the
    response with its body, or the response and the error to return at once. *)
Definition exchange (cli : CliConfig) (path method : string) (body : option json)
    : GoM st ((httpResponse * text) + (option httpResponse * option clientError)) :=
  r ← prepareRequest cli path method body;
  match r with
  | inr e => mret (inr (None, Some e))
  | inl req =>
      out ← callAPI req;
      match out : option httpResponse * error with
      | (resp, Some e) => mret (inr (resp, Some (PlainError e)))
      | (None, None) => mret (inr (None, None))
      | (Some resp, None) =>
          match rs_Body resp with
          | None => mret (inr (Some resp, Some (PlainError "unexpected EOF")))
          | Some respBody => mret (inl (resp, respBody))
          end
      end
  end.

(** ** Responses *)

(** A response with the expected status is decoded; when that fails, the PFD
    services set the status of the response to 500. *)
Definition handle_response {A} `{Json A} (expected : Z) (mark500 : bool)
    (on_error : httpResponse → text → GoM st clientError) (r : httpResponse) (body : text)
    : GoM st (A * httpResponse * option clientError) :=
  if bool_decide (rs_StatusCode r = expected) then
    match json_Unmarshal body with
    | Some v => mret (v, r, None)
    | None =>
        mret (zero_value, (if mark500 then rs_set_StatusCode 500 r else r),
              Some (PlainError (unmarshal_error body)))
    end
  else
    e ← on_error r body;
    mret (zero_value, r, Some e).

Definition handlePostResponse : httpResponse → text → GoM st (TrafficInfluSub * httpResponse * option clientError) :=
  handle_response 201 false handlePostPutPatchErrorResp.
Definition handlePutResponse : httpResponse → text → GoM st (TrafficInfluSub * httpResponse * option clientError) :=
  handle_response 200 false handlePostPutPatchErrorResp.
Definition handlePatchResponse : httpResponse → text → GoM st (TrafficInfluSub * httpResponse * option clientError) :=
  handle_response 200 false handlePostPutPatchErrorResp.
Definition handleGetResponse : httpResponse → text → GoM st (TrafficInfluSub * httpResponse * option clientError) :=
  handle_response 200 false handleGetErrorResp.
Definition handleGetAllResponse : httpResponse → text → GoM st (list TrafficInfluSub * httpResponse * option clientError) :=
  handle_response 200 false handleGetErrorResp.
Definition handlePfdPostResponse : httpResponse → text → GoM st (PfdManagement * httpResponse * option clientError) :=
  handle_response 201 true handlePfdPostPutPatchErrorResp.
Definition handlePfdPutResponse : httpResponse → text → GoM st (PfdManagement * httpResponse * option clientError) :=
  handle_response 200 true handlePfdPostPutPatchErrorResp.
Definition handlePfdGetResponse : httpResponse → text → GoM st (PfdManagement * httpResponse * option clientError) :=
  handle_response 200 true handleGetErrorResp.
Definition handlePfdGetAllResponse : httpResponse → text → GoM st (list PfdManagement * httpResponse * option clientError) :=
  handle_response 200 true handleGetErrorResp.
Definition handlePfdAppGetResponse : httpResponse → text → GoM st (PfdData * httpResponse * option clientError) :=
  handle_response 200 true handleGetErrorResp.
Definition handlePfdAppPutResponse : httpResponse → text → GoM st (PfdData * httpResponse * option clientError) :=
  handle_response 200 true handlePfdPostPutPatchErrorResp.
Definition handleAppPatchResponse : httpResponse → text → GoM st (PfdData * httpResponse * option clientError) :=
  handle_response 200 true handlePfdPostPutPatchErrorResp.

(** [handleDeleteResponse]. *)
Definition handleDeleteResponse (r : httpResponse) (body : text) : GoM st clientError :=
  if bool_decide (rs_StatusCode r ∈ [400; 401; 403; 404; 429; 500; 503])
  then problem_error r body
  else mret (unexpected_status r).
Definition handlePfdDeleteResponse (r : httpResponse) (body : text) : GoM st clientError :=
  if bool_decide (rs_StatusCode r ∈ [400; 401; 403; 404; 429; 500; 503])
  then problem_error r body
  else mret (unexpected_status r).
Definition handlePfdAppDeleteResp (r : httpResponse) (body : text) : GoM st clientError :=
  if bool_decide (rs_StatusCode r ∈ [400; 401; 403; 404; 429; 500; 503])
  then problem_error r body
  else mret (unexpected_status r).

(** ** The services

    A service that decodes a response returns the value, the response and the
    error; [fetch_bytes] also returns the bytes of the body. *)
Definition fetch {A} `{Json A} (cli : CliConfig) (path method : string) (body : option json)
    (handle : httpResponse → text → GoM st (A * httpResponse * option clientError))
    : GoM st (A * option httpResponse * option clientError) :=
  x ← exchange cli path method body;
  match x with
  | inr (resp, err) => mret (zero_value, resp, err)
  | inl (resp, respBody) =>
      h ← handle resp respBody;
      let '(v, resp, err) := h : A * httpResponse * option clientError in
      mret (v, Some resp, err)
  end.

Definition fetch_bytes {A} `{Json A} (cli : CliConfig) (path method : string)
    (body : option json)
    (handle : httpResponse → text → GoM st (A * httpResponse * option clientError))
    : GoM st (A * option httpResponse * text * option clientError) :=
  x ← exchange cli path method body;
  match x with
  | inr (resp, err) => mret (zero_value, resp, NotJson, err)
  | inl (resp, respBody) =>
      h ← handle resp respBody;
      let '(v, resp, err) := h : A * httpResponse * option clientError in
      mret (v, Some resp, respBody, err)
  end.

(** A service that deletes looks at the body only when the status is above
    300. *)
Definition send_delete (cli : CliConfig) (path : string)
    (handle : httpResponse → text → GoM st clientError)
    : GoM st (option httpResponse * option clientError) :=
  x ← exchange cli path "DELETE" None;
  match x with
  | inr (resp, err) => mret (resp, err)
  | inl (resp, respBody) =>
      if bool_decide (300 < rs_StatusCode resp) then
        err ← handle resp respBody;
        mret (Some resp, Some err)
      else mret (Some resp, None)
  end.

Definition SubscriptionPost cli (afID : string) (body : TrafficInfluSub) :=
  fetch cli (ti_path cli afID) "POST" (Some (to_json body)) handlePostResponse.
Definition SubscriptionPut cli (afID subscriptionID : string) (body : TrafficInfluSub) :=
  fetch cli (ti_sub_path cli afID subscriptionID) "PUT" (Some (to_json body)) handlePutResponse.
Definition SubscriptionPatch cli (afID subscriptionID : string) (body : TrafficInfluSubPatch) :=
  fetch cli (ti_sub_path cli afID subscriptionID) "PATCH" (Some (to_json body))
    handlePatchResponse.
Definition SubscriptionGet cli (afID subscriptionID : string) :=
  fetch cli (ti_sub_path cli afID subscriptionID) "GET" None handleGetResponse.
Definition SubscriptionsGetAll cli (afID : string) :=
  fetch cli (ti_path cli afID) "GET" None handleGetAllResponse.
Definition SubscriptionDelete cli (afID subscriptionID : string) :=
  send_delete cli (ti_sub_path cli afID subscriptionID) handleDeleteResponse.

Definition PfdTransactionPost cli (afID : string) (body : PfdManagement) :=
  fetch_bytes cli (pfd_path cli afID) "POST" (Some (to_json body)) handlePfdPostResponse.
Definition PfdTransactionPut cli (afID pfdTransaction : string) (body : PfdManagement) :=
  fetch_bytes cli (pfd_trans_path cli afID pfdTransaction) "PUT" (Some (to_json body))
    handlePfdPutResponse.
Definition PfdTransactionGet cli (afID pfdTransaction : string) :=
  fetch cli (pfd_trans_path cli afID pfdTransaction) "GET" None handlePfdGetResponse.
Definition PfdTransactionsGetAll cli (afID : string) :=
  fetch cli (pfd_path cli afID) "GET" None handlePfdGetAllResponse.
Definition PfdTransactionDelete cli (afID pfdTrans : string) :=
  send_delete cli (pfd_trans_path cli afID pfdTrans) handlePfdDeleteResponse.
Definition PfdAppTransactionGet cli (afID pfdTransaction appID : string) :=
  fetch cli (pfd_app_path cli afID pfdTransaction appID) "GET" None handlePfdAppGetResponse.
Definition PfdAppTransactionPut cli (afID pfdTransaction appID : string) (body : PfdData) :=
  fetch_bytes cli (pfd_app_path cli afID pfdTransaction appID) "PUT" (Some (to_json body))
    handlePfdAppPutResponse.
Definition PfdAppTransactionPatch cli (afID pfdTransID appID : string) (body : PfdData) :=
  fetch_bytes cli (pfd_app_path cli afID pfdTransID appID) "PATCH" (Some (to_json body))
    handleAppPatchResponse.
Definition PfdAppTransactionDelete cli (afID pfdTrans appID : string) :=
  send_delete cli (pfd_app_path cli afID pfdTrans appID) handlePfdAppDeleteResp.
End client.
