(* ===== verification/AfTi.v ===== *)
(** * Traffic influence in the AF (traffic_influence_subscription_*.go)

    The handlers that the controller's command line and UI call: each passes
    the request on to the NEF and keeps, for the subscriptions to
    notifications, the transaction numbers by which the NEF's notifications
    are recognised.  The URL of a request is its text. *)

From S2P Require Import Prelude Strconv Http OAuth2 Json JsonWire AfModel AfCommon AfClient.
From stdpp Require Import prelude gmap strings.
From Stdlib Require Import ZArith.

Local Open Scope Z_scope.

Definition DefaultNotifURL : string := "/af/v1/notifications".

(** [len(ts.SubscribedEvents) == 0]. *)
Definition no_events (ts : TrafficInfluSub) : bool :=
  match ts_SubscribedEvents ts with None | Some [] => true | Some _ => false end.

Section handlers.
Context {N : Type} `{Network N, Jwt, AfEnv, GoEnv}.
Abbreviation st := (afState N).
Abbreviation writer := (ResponseWriter afPayload).

(** [genTransactionID] (common.go). *)
Definition genTransactionID : GoM st (Z * error) :=
  s ← go_get;
  let '(tID, trans) := genAFTransID (trans_of (af_ctx s)) in
  modify_trans (λ _, trans);;
  if bool_decide (tID = 0)
  then mret (0, errors_New "the pool of AF Transaction IDs is already used")
  else mret (tID, nil_err).

(** ** Create *)

Definition createSubscription (ts : TrafficInfluSub)
    : GoM st (TrafficInfluSub * option httpResponse * option clientError) :=
  s ← go_get;
  r ← SubscriptionPost (NewConfiguration (af_ctx s)) (AfID (af_cfg (af_ctx s))) ts;
  let '(tsResp, resp, err) := r : TrafficInfluSub * option httpResponse * option clientError in
  match err with
  | Some e => mret (zero_TrafficInfluSub, resp, Some e)
  | None => mret (tsResp, resp, None)
  end.

Definition CreateSubscription (body : Body TrafficInfluSub) (w : writer) : GoM st writer :=
  s ← go_get;
  match subscriptions (af_ctx s), transactions (af_ctx s) with
  | None, _ | _, None => mret (WriteHeader StatusInternalServerError w)
  | Some _, Some _ =>
    let w := Header_Set content_type json_utf8 w in
    match body with
    | BodyReadErr | BodyBadJSON => mret (WriteHeader StatusInternalServerError w)
    | BodyOf ts =>
        t ← genTransactionID;
        match t : Z * error with
        | (_, Some _) => mret (WriteHeader StatusInternalServerError w)
        | (transID, None) =>
          modify_trans (<[transID := zero_TrafficInfluSub]>);;
          let ts := ts_set_AFTransID (Itoa transID) ts in
          let tsResp := zero_TrafficInfluSub in
          let srv := SrvCfg (af_cfg (af_ctx s)) in
          let ts := if no_events tsResp
                    then ts_set_Self ("https://" +:+ Hostname srv +:+ NotifPort srv +:+
                                      DefaultNotifURL) ts
                    else ts in
          r ← createSubscription ts;
          let '(tsResp, resp, err) :=
            r : TrafficInfluSub * option httpResponse * option clientError in
          match err with
          | Some _ =>
              modify_trans (delete transID);;
              mret (WriteHeader (getStatusCode resp) w)
          | None =>
            resp ← deref resp;
            match Location resp with
            | inr _ =>
                modify_trans (delete transID);;
                mret (WriteHeader StatusInternalServerError w)
            | inl url =>
              match getSubsIDFromURL (Some url) with
              | (_, Some _) =>
                  modify_trans (delete transID);;
                  mret (WriteHeader StatusInternalServerError w)
              | (subscriptionID, None) =>
                let w := Header_Set "Location" url w in
                (if no_events tsResp then modify_trans (delete transID)
                 else
                   modify_trans (<[transID := tsResp]>);;
                   modify_subs (<[subscriptionID := {[Itoa transID := tsResp]}]>));;
                mret (WriteHeader (rs_StatusCode resp) w)
              end
            end
          end
        end
    end
  end.

(** ** Put *)

Definition modifySubscriptionByPut (ts : TrafficInfluSub) (sID : string)
    : GoM st (TrafficInfluSub * option httpResponse * option clientError) :=
  s ← go_get;
  r ← SubscriptionPut (NewConfiguration (af_ctx s)) (AfID (af_cfg (af_ctx s))) sID ts;
  let '(tsResp, resp, err) := r : TrafficInfluSub * option httpResponse * option clientError in
  match err with
  | Some e => mret (zero_TrafficInfluSub, resp, Some e)
  | None => mret (tsResp, resp, None)
  end.

(** What is kept after a successful put. *)
Definition put_registry (transID : Z) (sID : string) (ts tsResp : TrafficInfluSub)
    : GoM st unit :=
  (match ts_SubscribedEvents ts with
   | None => modify_trans (delete transID)
   | Some _ => modify_trans (<[transID := tsResp]>)
   end);;
  s ← go_get;
  (match default ∅ (subs_of (af_ctx s) !! sID) !! Itoa transID with
   | Some _ => modify_trans (delete transID)
   | None => mret tt
   end);;
  (match subs_of (af_ctx s) !! sID with
   | None => modify_subs (<[sID := ∅]>)
   | Some _ => mret tt
   end);;
  modify_subs (<[sID := {[ts_AFTransID ts := tsResp]}]>).

Definition ModifySubscriptionPut (url : option string) (body : Body TrafficInfluSub)
    (w : writer) : GoM st writer :=
  s ← go_get;
  match subscriptions (af_ctx s), transactions (af_ctx s) with
  | None, _ | _, None => mret (WriteHeader StatusInternalServerError w)
  | Some _, Some _ =>
    let w := Header_Set content_type json_utf8 w in
    match body with
    | BodyReadErr | BodyBadJSON => mret (WriteHeader StatusInternalServerError w)
    | BodyOf ts =>
        t ← genTransactionID;
        match t : Z * error with
        | (_, Some _) => mret (WriteHeader StatusInternalServerError w)
        | (transID, None) =>
          let ts := ts_set_AFTransID (Itoa transID) ts in
          match getSubsIDFromURL url with
          | (_, Some _) => mret (WriteHeader StatusInternalServerError w)
          | (sID, None) =>
            modify_trans (<[transID := zero_TrafficInfluSub]>);;
            r ← modifySubscriptionByPut ts sID;
            let '(tsResp, resp, err) :=
              r : TrafficInfluSub * option httpResponse * option clientError in
            match err with
            | Some _ => mret (WriteHeader (getStatusCode resp) w)
            | None =>
                put_registry transID sID ts tsResp;;
                mret (match resp with
                      | Some resp => WriteHeader (rs_StatusCode resp) w
                      | None => w
                      end)
            end
          end
        end
    end
  end.

(** ** Patch *)

Definition modifySubscriptionByPatch (ts : TrafficInfluSubPatch) (sID : string)
    : GoM st (TrafficInfluSub * option httpResponse * option clientError) :=
  s ← go_get;
  r ← SubscriptionPatch (NewConfiguration (af_ctx s)) (AfID (af_cfg (af_ctx s))) sID ts;
  let '(tsRet, resp, err) := r : TrafficInfluSub * option httpResponse * option clientError in
  match err with
  | Some e => mret (zero_TrafficInfluSub, resp, Some e)
  | None => mret (tsRet, resp, None)
  end.

(** The loop that stores the answer under every transaction of the
    subscription. *)
Definition patch_entries (sID : string) (interMap : gmap string TrafficInfluSub)
    (tsResp : TrafficInfluSub) (m : NotifSubscryptions) : NotifSubscryptions :=
  fold_left (λ m kv, alter <[kv.1 := tsResp]> sID m)
    (map_range ["ModifySubscriptionPatch"] interMap) m.

Definition ModifySubscriptionPatch (url : option string) (body : Body TrafficInfluSubPatch)
    (w : writer) : GoM st writer :=
  s ← go_get;
  match subscriptions (af_ctx s) with
  | None => mret (WriteHeader StatusInternalServerError w)
  | Some _ =>
    let w := Header_Set content_type json_utf8 w in
    match body with
    | BodyReadErr | BodyBadJSON => mret (WriteHeader StatusInternalServerError w)
    | BodyOf tsPatch =>
        match getSubsIDFromURL url with
        | (_, Some _) => mret (WriteHeader StatusInternalServerError w)
        | (subscriptionID, None) =>
            r ← modifySubscriptionByPatch tsPatch subscriptionID;
            let '(tsResp, resp, err) :=
              r : TrafficInfluSub * option httpResponse * option clientError in
            match err with
            | Some _ => mret (WriteHeader (getStatusCode resp) w)
            | None =>
                s ← go_get;
                (match subs_of (af_ctx s) !! subscriptionID with
                 | Some interMap => modify_subs (patch_entries subscriptionID interMap tsResp)
                 | None => mret tt
                 end);;
                resp ← deref resp;
                mret (WriteHeader (rs_StatusCode resp) w)
            end
        end
    end
  end.

(** ** Delete *)

Definition deleteSubscription (sID : string)
    : GoM st (option httpResponse * option clientError) :=
  s ← go_get;
  SubscriptionDelete (NewConfiguration (af_ctx s)) (AfID (af_cfg (af_ctx s))) sID.

(** The loop that frees the transactions of a subscription; a key that is not
    a number is only logged. *)
Definition free_trans (interMap : gmap string TrafficInfluSub) (m : TransactionIDs)
    : TransactionIDs :=
  fold_left (λ m kv,
    match Atoi kv.1 with
    | (_, Some _) => m
    | (i, None) => delete i m
    end) (map_range ["DeleteSubscription"] interMap) m.

Definition DeleteSubscription (url : option string) (w : writer) : GoM st writer :=
  s ← go_get;
  match subscriptions (af_ctx s), transactions (af_ctx s) with
  | None, _ | _, None => mret (WriteHeader StatusInternalServerError w)
  | Some _, Some _ =>
    let w := Header_Set content_type json_utf8 w in
    match getSubsIDFromURL url with
    | (_, Some _) => mret (WriteHeader StatusInternalServerError w)
    | (subscriptionID, None) =>
        r ← deleteSubscription subscriptionID;
        let '(resp, err) := r : option httpResponse * option clientError in
        match err with
        | Some _ => mret (WriteHeader (getStatusCode resp) w)
        | None =>
            s ← go_get;
            (match subs_of (af_ctx s) !! subscriptionID with
             | Some interMap =>
                 modify_trans (free_trans interMap);;
                 modify_subs (delete subscriptionID)
             | None => mret tt
             end);;
            resp ← deref resp;
            mret (WriteHeader (rs_StatusCode resp) w)
        end
    end
  end.

(** ** Get *)

Definition getSubscription (subscriptionID : string)
    : GoM st (TrafficInfluSub * option httpResponse * option clientError) :=
  s ← go_get;
  r ← SubscriptionGet (NewConfiguration (af_ctx s)) (AfID (af_cfg (af_ctx s))) subscriptionID;
  let '(ts, resp, err) := r : TrafficInfluSub * option httpResponse * option clientError in
  match err with
  | Some e => mret (zero_TrafficInfluSub, resp, Some e)
  | None => mret (ts, resp, None)
  end.

Definition GetSubscription (url : option string) (w : writer) : GoM st writer :=
  let w := Header_Set content_type json_utf8 w in
  match getSubsIDFromURL url with
  | (_, Some _) => mret (WriteHeader StatusInternalServerError w)
  | (subscriptionID, None) =>
      r ← getSubscription subscriptionID;
      let '(tsResp, resp, err) :=
        r : TrafficInfluSub * option httpResponse * option clientError in
      match err with
      | Some _ => mret (WriteHeader (getStatusCode resp) w)
      | None =>
          resp ← deref resp;
          mret (Write (AfTi tsResp) (WriteHeader (rs_StatusCode resp) w))
      end
  end.

Definition getAllSubscriptions
    : GoM st (list TrafficInfluSub * option httpResponse * option clientError) :=
  s ← go_get;
  r ← SubscriptionsGetAll (NewConfiguration (af_ctx s)) (AfID (af_cfg (af_ctx s)));
  let '(tSubs, resp, err) :=
    r : list TrafficInfluSub * option httpResponse * option clientError in
  match err with
  | Some e => mret ([], resp, Some e)
  | None => mret (tSubs, resp, None)
  end.

Definition GetAllSubscriptions (w : writer) : GoM st writer :=
  let w := Header_Set content_type json_utf8 w in
  r ← getAllSubscriptions;
  let '(tsResp, resp, err) :=
    r : list TrafficInfluSub * option httpResponse * option clientError in
  match err with
  | Some _ =>
      mret (match resp with
            | Some resp => WriteHeader (rs_StatusCode resp) w
            | None => WriteHeader StatusInternalServerError w
            end)
  | None =>
      resp ← deref resp;
      mret (Write (AfTis tsResp) (WriteHeader (rs_StatusCode resp) w))
  end.

(** ** Notifications from the NEF *)

Definition ProblemTitle : string := "AF transaction ID verification".

(** [verifyAFTransID]: the status, the problem details and the error. *)
Definition verifyAFTransID (trans : TransactionIDs) (transID : string)
    : Z * ProblemDetails * error :=
  let problem detail params :=
    mkProblemDetails "" ProblemTitle detail "" "" params StatusInternalServerError in
  if str_empty transID then
    (StatusInternalServerError,
     problem "Traffic Influance Subscription notification - empty transactionID"
       [mkInvalidParam "AfTransId" "Empty"],
     errors_New "empty AfTransID")
  else
    match Atoi transID with
    | (_, Some e) =>
        (StatusInternalServerError,
         problem ("Traffic Influance Subscription notification - " +:+
                  "error while converting transaction ID to int: " +:+ e)
           [mkInvalidParam "AfTransID"
              ("AFTransID = " +:+ transID +:+ ". Unable to convert to " +:+ " integer.")],
         errors_New "error converting AfTransID string to integer ")
    | (transIDInt, None) =>
        match trans !! transIDInt with
        | None =>
            (StatusInternalServerError,
             problem ("Traffic Influance Subscription notification - " +:+
                      "Transaction ID " +:+ transID +:+ " corresponding to " +:+
                      "notification was not found") [],
             errors_New "AfTransID not found")
        | Some _ => (StatusOK, zero_ProblemDetails, nil_err)
        end
    end.

(** [NotificationPost]; [decode_error] is the text of the decoder's error. *)
Definition NotificationPost (decode_error : string) (body : Body EventNotification)
    (w : writer) : GoM st writer :=
  s ← go_get;
  let w := Header_Set content_type json_utf8 w in
  match body with
  | BodyReadErr | BodyBadJSON =>
      let problem := mkProblemDetails "" "Decoding response body"
        ("Traffic Influance Subscription notify: " +:+ decode_error) "" "" []
        StatusInternalServerError in
      mret (Write (AfProblem problem) (WriteHeader StatusInternalServerError w))
  | BodyOf en =>
      match verifyAFTransID (trans_of (af_ctx s)) (en_AFTransID en) with
      | (statusCode, problem, Some _) =>
          mret (Write (AfProblem problem) (WriteHeader statusCode w))
      | (statusCode, _, None) => mret (WriteHeader statusCode w)
      end
  end.
End handlers.
