(* ===== verification/AfPfd.v ===== *)
(** * PFD management in the AF (pfd_transaction_*.go, pfd_app_transaction_*.go)

    The handlers pass the request on to the NEF and rewrite the links in its
    answer to the AF's own.  The identifiers are the variables that mux takes
    from the path ([getPfdTransIDFromURL], [getPfdAppIDFromURL]). *)

From S2P Require Import Prelude Strconv Http OAuth2 Json JsonWire AfModel AfCommon AfClient.
From stdpp Require Import prelude gmap strings.
From Stdlib Require Import ZArith.

Local Open Scope Z_scope.

Section handlers.
Context {N : Type} `{Network N, Jwt, AfEnv, GoEnv}.
Abbreviation st := (afState N).
Abbreviation writer := (ResponseWriter afPayload).

(** The outcome of a link function, as a computation. *)
Definition lift_outcome {A} (o : outcome A) : GoM st A :=
  match o with Ret a => mret a | Panic e => go_panic e end.

(** The client's configuration and the identifier of the AF. *)
Definition with_client {A} (k : CliConfig → string → GoM st A) : GoM st A :=
  s ← go_get; k (NewConfiguration (af_ctx s)) (AfID (af_cfg (af_ctx s))).

(** An error of a writing service: its status and its bytes are passed on;
    [no_resp] is the status when there is no response. *)
Definition forward_error (no_resp : Z) (resp : option httpResponse) (respBody : text)
    (w : writer) : writer :=
  match resp with
  | Some _ => Write (AfRaw respBody) (WriteHeader (getStatusCode resp) w)
  | None => WriteHeader no_resp w
  end.

(** An error of a reading or deleting service: its status is passed on. *)
Definition forward_status (resp : option httpResponse) (w : writer) : writer :=
  match resp with
  | Some resp => errRspHeader (rs_StatusCode resp) w
  | None => errRspHeader StatusInternalServerError w
  end.

(** The links of a transaction: the transaction with the AF's links, or the
    error; the applications rewritten before an error are kept, because they
    share the map. *)
Definition update_links (pfdRsp : PfdManagement) : GoM st (PfdManagement + error) :=
  s ← go_get;
  let cf := af_cfg (af_ctx s) in
  r ← lift_outcome (updateSelfLink cf pfdRsp);
  match r : string * error with
  | (_, Some e) => mret (inr (Some e))
  | (self, None) =>
      let pfdRsp := pman_set_Self self pfdRsp in
      a ← lift_outcome (updateAppsLink cf pfdRsp);
      match a : gmap string PfdData * error with
      | (_, Some e) => mret (inr (Some e))
      | (datas, None) => mret (inl (pman_set_PfdDatas datas pfdRsp))
      end
  end.

(** The link of an application. *)
Definition update_link (pfdRsp : PfdData) : GoM st (PfdData + error) :=
  s ← go_get;
  r ← lift_outcome (updateAppLink (af_cfg (af_ctx s)) pfdRsp);
  match r : string * error with
  | (_, Some e) => mret (inr (Some e))
  | (self, None) => mret (inl (pdata_set_Self self pfdRsp))
  end.

(** ** Transactions *)

(** The functions between a handler and its service: on an error the decoded
    value is dropped. *)
Definition createPfdTransaction (pfdTrans : PfdManagement)
    : GoM st (PfdManagement * option httpResponse * text * option clientError) :=
  r ← with_client (λ cli afID, PfdTransactionPost cli afID pfdTrans);
  let '(pfdResp, resp, respBody, err) :=
    r : PfdManagement * option httpResponse * text * option clientError in
  match err with
  | Some e => mret (zero_PfdManagement, resp, respBody, Some e)
  | None => mret (pfdResp, resp, respBody, None)
  end.

Definition putPfdTransaction (pfdTs : PfdManagement) (sID : string)
    : GoM st (PfdManagement * option httpResponse * text * option clientError) :=
  r ← with_client (λ cli afID, PfdTransactionPut cli afID sID pfdTs);
  let '(tsRet, resp, respBody, err) :=
    r : PfdManagement * option httpResponse * text * option clientError in
  match err with
  | Some e => mret (zero_PfdManagement, resp, respBody, Some e)
  | None => mret (tsRet, resp, respBody, None)
  end.

Definition getPfdTransaction (pfdTrans : string)
    : GoM st (PfdManagement * option httpResponse * option clientError) :=
  r ← with_client (λ cli afID, PfdTransactionGet cli afID pfdTrans);
  let '(pfdTs, resp, err) := r : PfdManagement * option httpResponse * option clientError in
  match err with
  | Some e => mret (zero_PfdManagement, resp, Some e)
  | None => mret (pfdTs, resp, None)
  end.

Definition getAllPfdTransactions
    : GoM st (list PfdManagement * option httpResponse * option clientError) :=
  r ← with_client PfdTransactionsGetAll;
  let '(tTrans, resp, err) :=
    r : list PfdManagement * option httpResponse * option clientError in
  match err with
  | Some e => mret ([], resp, Some e)
  | None => mret (tTrans, resp, None)
  end.

Definition deletePfdTransaction (pfdID : string)
    : GoM st (option httpResponse * option clientError) :=
  with_client (λ cli afID, PfdTransactionDelete cli afID pfdID).

Definition CreatePfdTransaction (body : Body PfdManagement) (w : writer) : GoM st writer :=
  s ← go_get;
  let w := Header_Set content_type json_utf8 w in
  match body with
  | BodyReadErr | BodyBadJSON => mret (errRspHeader Http.StatusBadRequest w)
  | BodyOf pfdTrans =>
      r ← createPfdTransaction pfdTrans;
      let '(pfdRsp, resp, respBody, err) :=
        r : PfdManagement * option httpResponse * text * option clientError in
      match err with
      | Some _ => mret (forward_error StatusInternalServerError resp respBody w)
      | None =>
        resp ← deref resp;
        match Location resp with
        | inr _ => mret (errRspHeader StatusInternalServerError w)
        | inl url =>
            afURL ← lift_outcome (updatePfdURL (af_cfg (af_ctx s)) url);
            u ← update_links pfdRsp;
            match u with
            | inr _ => mret (errRspHeader StatusInternalServerError w)
            | inl pfdRsp =>
                let w := Header_Set "Location" afURL w in
                mret (Write (AfPfdm pfdRsp) (WriteHeader (rs_StatusCode resp) w))
            end
        end
      end
  end.

Definition PutPfdTransaction (transactionId : string) (body : Body PfdManagement) (w : writer)
    : GoM st writer :=
  let w := Header_Set content_type json_utf8 w in
  match body with
  | BodyReadErr | BodyBadJSON => mret (errRspHeader Http.StatusBadRequest w)
  | BodyOf pfdTs =>
      r ← putPfdTransaction pfdTs transactionId;
      let '(pfdRsp, resp, resBody, err) :=
        r : PfdManagement * option httpResponse * text * option clientError in
      match err with
      | Some _ => mret (forward_error Http.StatusBadRequest resp resBody w)
      | None =>
          u ← update_links pfdRsp;
          match u with
          | inr _ => mret (errRspHeader StatusInternalServerError w)
          | inl pfdRsp =>
              resp ← deref resp;
              mret (Write (AfPfdm pfdRsp) (WriteHeader (rs_StatusCode resp) w))
          end
      end
  end.

Definition GetPfdTransaction (transactionId : string) (w : writer) : GoM st writer :=
  let w := Header_Set content_type json_utf8 w in
  r ← getPfdTransaction transactionId;
  let '(pfdResp, resp, err) := r : PfdManagement * option httpResponse * option clientError in
  match err with
  | Some _ => mret (forward_status resp w)
  | None =>
      u ← update_links pfdResp;
      match u with
      | inr _ => mret (errRspHeader StatusInternalServerError w)
      | inl pfdResp =>
          resp ← deref resp;
          mret (Write (AfPfdm pfdResp) (WriteHeader (rs_StatusCode resp) w))
      end
  end.

Definition GetAllPfdTransactions (w : writer) : GoM st writer :=
  let w := Header_Set content_type json_utf8 w in
  r ← getAllPfdTransactions;
  let '(tsResp, resp, err) :=
    r : list PfdManagement * option httpResponse * option clientError in
  match err with
  | Some _ => mret (forward_status resp w)
  | None =>
      l ← for_acc tsResp (λ v tsResp,
            u ← update_links v;
            match u with
            | inr _ => mret (inr (errRspHeader StatusInternalServerError w))
            | inl v => mret (inl (tsResp ++ [v]))
            end) [];
      match l with
      | inr w => mret w
      | inl tsResp =>
          resp ← deref resp;
          mret (Write (AfPfdms tsResp) (WriteHeader (rs_StatusCode resp) w))
      end
  end.

Definition DeletePfdTransaction (transactionId : string) (w : writer) : GoM st writer :=
  let w := Header_Set content_type json_utf8 w in
  r ← deletePfdTransaction transactionId;
  let '(resp, err) := r : option httpResponse * option clientError in
  match err with
  | Some _ => mret (forward_status resp w)
  | None =>
      resp ← deref resp;
      mret (WriteHeader (rs_StatusCode resp) w)
  end.

(** ** Applications of a transaction *)

Definition getPfdAppTransaction (pfdTransID appID : string)
    : GoM st (PfdData * option httpResponse * option clientError) :=
  r ← with_client (λ cli afID, PfdAppTransactionGet cli afID pfdTransID appID);
  let '(pfdTs, resp, err) := r : PfdData * option httpResponse * option clientError in
  match err with
  | Some e => mret (zero_PfdData, resp, Some e)
  | None => mret (pfdTs, resp, None)
  end.

Definition putPfdAppTransaction (pfdTs : PfdData) (pfdID appID : string)
    : GoM st (PfdData * option httpResponse * text * option clientError) :=
  r ← with_client (λ cli afID, PfdAppTransactionPut cli afID pfdID appID pfdTs);
  let '(tsRet, resp, respBody, err) :=
    r : PfdData * option httpResponse * text * option clientError in
  match err with
  | Some e => mret (zero_PfdData, resp, respBody, Some e)
  | None => mret (tsRet, resp, respBody, None)
  end.

Definition patchPfdAppTransaction (pfdData : PfdData) (pfdID appID : string)
    : GoM st (PfdData * option httpResponse * text * option clientError) :=
  r ← with_client (λ cli afID, PfdAppTransactionPatch cli afID pfdID appID pfdData);
  let '(tsRet, resp, respBody, err) :=
    r : PfdData * option httpResponse * text * option clientError in
  match err with
  | Some e => mret (zero_PfdData, resp, respBody, Some e)
  | None => mret (tsRet, resp, respBody, None)
  end.

Definition deletePfdAppTransaction (pfdID appID : string)
    : GoM st (option httpResponse * option clientError) :=
  with_client (λ cli afID, PfdAppTransactionDelete cli afID pfdID appID).

Definition GetPfdAppTransaction (transactionId appId : string) (w : writer) : GoM st writer :=
  let w := Header_Set content_type json_utf8 w in
  r ← getPfdAppTransaction transactionId appId;
  let '(pfdResp, resp, err) := r : PfdData * option httpResponse * option clientError in
  match err with
  | Some _ => mret (forward_status resp w)
  | None =>
      u ← update_link pfdResp;
      match u with
      | inr _ => mret (errRspHeader StatusInternalServerError w)
      | inl pfdResp =>
          resp ← deref resp;
          mret (Write (AfPfdd pfdResp) (WriteHeader (rs_StatusCode resp) w))
      end
  end.

Definition PutPfdAppTransaction (transactionId appId : string) (body : Body PfdData)
    (w : writer) : GoM st writer :=
  let w := Header_Set content_type json_utf8 w in
  match body with
  | BodyReadErr | BodyBadJSON => mret (errRspHeader Http.StatusBadRequest w)
  | BodyOf pfdTs =>
      r ← putPfdAppTransaction pfdTs transactionId appId;
      let '(pfdRsp, resp, respBody, err) :=
        r : PfdData * option httpResponse * text * option clientError in
      match err with
      | Some _ => mret (forward_error StatusInternalServerError resp respBody w)
      | None =>
          u ← update_link pfdRsp;
          match u with
          | inr _ => mret (errRspHeader StatusInternalServerError w)
          | inl pfdRsp =>
              resp ← deref resp;
              mret (Write (AfPfdd pfdRsp) (WriteHeader (rs_StatusCode resp) w))
          end
      end
  end.

Definition PatchPfdAppTransaction (transactionId appId : string) (body : Body PfdData)
    (w : writer) : GoM st writer :=
  let w := Header_Set content_type json_utf8 w in
  match body with
  | BodyReadErr | BodyBadJSON => mret (errRspHeader Http.StatusBadRequest w)
  | BodyOf pfdData =>
      r ← patchPfdAppTransaction pfdData transactionId appId;
      let '(pfdRsp, resp, respBody, err) :=
        r : PfdData * option httpResponse * text * option clientError in
      match err with
      | Some _ => mret (forward_error StatusInternalServerError resp respBody w)
      | None =>
          u ← update_link pfdRsp;
          match u with
          | inr _ => mret (errRspHeader StatusInternalServerError w)
          | inl pfdRsp =>
              resp ← deref resp;
              mret (Write (AfPfdd pfdRsp) (WriteHeader (rs_StatusCode resp) w))
          end
      end
  end.

Definition DeletePfdAppTransaction (transactionId appId : string) (w : writer) : GoM st writer :=
  let w := Header_Set content_type json_utf8 w in
  r ← deletePfdAppTransaction transactionId appId;
  let '(resp, err) := r : option httpResponse * option clientError in
  match err with
  | Some _ => mret (forward_status resp w)
  | None =>
      resp ← deref resp;
      mret (WriteHeader (rs_StatusCode resp) w)
  end.
End handlers.
