(* ===== verification/AfRouter.v ===== *)
(** * The routes of the AF (af_routers.go) and its life time

    The route tables, the handler of each route, the requests mux has matched,
    and the states the AF reaches by serving them.  The routers store the
    context they were created with in every request ([af_ctx]); it is the
    address of a variable of [Run], so the handlers' tests for a nil context
    never succeed. *)

From S2P Require Import Prelude Strconv Http OAuth2 Json JsonWire AfModel AfCommon AfClient.
From S2P Require Import AfTi AfPfd.
From stdpp Require Import prelude gmap strings.
From Stdlib Require Import ZArith.

Local Open Scope Z_scope.

Inductive afHandler :=
| HGetAllSubscriptions | HGetSubscription | HDeleteSubscription | HModifySubscriptionPatch
| HCreateSubscription | HModifySubscriptionPut
| HGetAllPfdTransactions | HCreatePfdTransaction | HGetPfdTransaction | HDeletePfdTransaction
| HPutPfdTransaction | HGetPfdAppTransaction | HDeletePfdAppTransaction | HPutPfdAppTransaction
| HPatchPfdAppTransaction | HNotificationPost.

#[export] Instance afHandler_eq_dec : EqDecision afHandler.
Proof. solve_decision. Defined.

Record afRoute := mkAfRoute {
  afr_Name : string;
  afr_Method : string;
  afr_Pattern : string;
  afr_HandlerFunc : afHandler;
}.

Definition notifRoutes : list afRoute :=
  [mkAfRoute "NotificationPost" "POST" DefaultNotifURL HNotificationPost].

Definition afRoutes : list afRoute :=
  let subs := "/af/v1/subscriptions" in
  let sub := "/af/v1/subscriptions/{subscriptionId}" in
  let pfds := "/af/v1/pfd/transactions" in
  let pfd := "/af/v1/pfd/transactions/{transactionId}" in
  let app := "/af/v1/pfd/transactions/{transactionId}/applications/{appId}" in
  [ mkAfRoute "GetAllSubscriptions" "GET" subs HGetAllSubscriptions;
    mkAfRoute "GetSubscription" "GET" sub HGetSubscription;
    mkAfRoute "DeleteSubscription" "DELETE" sub HDeleteSubscription;
    mkAfRoute "SubscriptionPatch" "PATCH" sub HModifySubscriptionPatch;
    mkAfRoute "CreateSubscription" "POST" subs HCreateSubscription;
    mkAfRoute "SubscriptionPut" "PUT" sub HModifySubscriptionPut;
    mkAfRoute "GetAllPfdTransactions" "GET" pfds HGetAllPfdTransactions;
    mkAfRoute "CreatePfdTransaction" "POST" pfds HCreatePfdTransaction;
    mkAfRoute "GetPfdTransaction" "GET" pfd HGetPfdTransaction;
    mkAfRoute "DeletePfdTransaction" "DELETE" pfd HDeletePfdTransaction;
    mkAfRoute "PutPfdTransaction" "PUT" pfd HPutPfdTransaction;
    mkAfRoute "GetPfdAppTransaction" "GET" app HGetPfdAppTransaction;
    mkAfRoute "DeletePfdAppTransaction" "DELETE" app HDeletePfdAppTransaction;
    mkAfRoute "PutPfdAppTransaction" "PUT" app HPutPfdAppTransaction;
    mkAfRoute "PatchPfdAppTransaction" "PATCH" app HPatchPfdAppTransaction ].

(** A request that mux has matched, with what its handler reads of it. *)
Inductive afRequest :=
| AfGetAllSubscriptions
| AfGetSubscription (url : string)
| AfDeleteSubscription (url : string)
| AfSubscriptionPatch (url : string) (body : Body TrafficInfluSubPatch)
| AfCreateSubscription (body : Body TrafficInfluSub)
| AfSubscriptionPut (url : string) (body : Body TrafficInfluSub)
| AfGetAllPfdTransactions
| AfCreatePfdTransaction (body : Body PfdManagement)
| AfGetPfdTransaction (tid : string)
| AfDeletePfdTransaction (tid : string)
| AfPutPfdTransaction (tid : string) (body : Body PfdManagement)
| AfGetPfdAppTransaction (tid app : string)
| AfDeletePfdAppTransaction (tid app : string)
| AfPutPfdAppTransaction (tid app : string) (body : Body PfdData)
| AfPatchPfdAppTransaction (tid app : string) (body : Body PfdData)
| AfNotificationPost (decode_error : string) (body : Body EventNotification).

Definition af_handler_of (r : afRequest) : afHandler :=
  match r with
  | AfGetAllSubscriptions => HGetAllSubscriptions
  | AfGetSubscription _ => HGetSubscription
  | AfDeleteSubscription _ => HDeleteSubscription
  | AfSubscriptionPatch _ _ => HModifySubscriptionPatch
  | AfCreateSubscription _ => HCreateSubscription
  | AfSubscriptionPut _ _ => HModifySubscriptionPut
  | AfGetAllPfdTransactions => HGetAllPfdTransactions
  | AfCreatePfdTransaction _ => HCreatePfdTransaction
  | AfGetPfdTransaction _ => HGetPfdTransaction
  | AfDeletePfdTransaction _ => HDeletePfdTransaction
  | AfPutPfdTransaction _ _ => HPutPfdTransaction
  | AfGetPfdAppTransaction _ _ => HGetPfdAppTransaction
  | AfDeletePfdAppTransaction _ _ => HDeletePfdAppTransaction
  | AfPutPfdAppTransaction _ _ _ => HPutPfdAppTransaction
  | AfPatchPfdAppTransaction _ _ _ => HPatchPfdAppTransaction
  | AfNotificationPost _ _ => HNotificationPost
  end.

Section service.
Context {N : Type} `{Network N, Jwt, AfEnv}.
Abbreviation st := (afState N).
Abbreviation writer := (ResponseWriter afPayload).

(** The handler of each route. *)
Definition af_serve `{E : GoEnv} (r : afRequest) (w : writer) : GoM st writer :=
  match r with
  | AfGetAllSubscriptions => GetAllSubscriptions w
  | AfGetSubscription url => GetSubscription (Some url) w
  | AfDeleteSubscription url => DeleteSubscription (Some url) w
  | AfSubscriptionPatch url b => ModifySubscriptionPatch (Some url) b w
  | AfCreateSubscription b => CreateSubscription b w
  | AfSubscriptionPut url b => ModifySubscriptionPut (Some url) b w
  | AfGetAllPfdTransactions => GetAllPfdTransactions w
  | AfCreatePfdTransaction b => CreatePfdTransaction b w
  | AfGetPfdTransaction t => GetPfdTransaction t w
  | AfDeletePfdTransaction t => DeletePfdTransaction t w
  | AfPutPfdTransaction t b => PutPfdTransaction t b w
  | AfGetPfdAppTransaction t a => GetPfdAppTransaction t a w
  | AfDeletePfdAppTransaction t a => DeletePfdAppTransaction t a w
  | AfPutPfdAppTransaction t a b => PutPfdAppTransaction t a b w
  | AfPatchPfdAppTransaction t a b => PatchPfdAppTransaction t a b w
  | AfNotificationPost e b => NotificationPost e b w
  end.

(** What [runServer] does before the servers listen: the maps are made and,
    with access control, a first token is fetched; without one the AF stops. *)
Definition af_start (cf : Config) : GoM st bool :=
  go_modify (set_ctx (started_context cf));;
  if cli_OAuth2Support (CliCfg cf) then
    err ← fetchNEFAuthorizationToken;
    mret (bool_decide (err = nil_err))
  else mret true.

(** One request, served in some environment. *)
Inductive af_step (s : st) : afRequest → st → Prop :=
| af_step_intro (E : GoEnv) r : af_step s r (exec (af_serve r new_writer) s).

(** The states reached by serving requests that satisfy [ok]; between two
    requests the rest of the world may change. *)
Inductive af_reach (ok : afRequest → Prop) (s0 : st) : st → Prop :=
| af_reach_init : af_reach ok s0 s0
| af_reach_net s n : af_reach ok s0 s → af_reach ok s0 (set_net n s)
| af_reach_step s r s' : af_reach ok s0 s → ok r → af_step s r s' → af_reach ok s0 s'.
End service.
