(* ===== verification/AfRegistry.v ===== *)
(** * The transaction numbers of the AF

    [genAFTransID] against its specification: the search ends, the number it
    returns is free and entered into the map, and it fails only when every
    number it considers is in use.  Then the abstract registry, that the
    handlers implement it, and its invariant over the life time of the AF. *)

From S2P Require Import Prelude Strconv OAuth2 Http Json JsonWire AfModel AfCommon AfClient.
From S2P Require Import AfTi AfPfd AfRouter.
From stdpp Require Import prelude gmap strings.
From Stdlib Require Import ZArith Ascii.

Local Open Scope Z_scope.

(** The numbers in use lie between 1 and the maximum. *)
Definition numbers_wf (trans : TransactionIDs) : Prop :=
  ∀ k, is_Some (trans !! k) → 1 ≤ k ≤ TransIDMax.

#[export] Instance numbers_wf_dec trans : Decision (numbers_wf trans).
Proof.
  refine (cast_if (decide (map_Forall (λ k _, 1 ≤ k ≤ TransIDMax) trans))); unfold numbers_wf.
  - intros k [v Hv]. by eapply m.
  - intros Hwf. apply n. intros k v Hv. by apply Hwf.
Defined.

(** ** The search *)

(** What one call of the search returns. *)
Definition search_result (trans : TransactionIDs) (num : Z) (r : Z * TransactionIDs) : Prop :=
  (r = (0, trans) ∧ ∀ k, num < k ≤ TransIDMax → is_Some (trans !! k)) ∨
  (∃ k, r = (k, <[k := zero_TrafficInfluSub]> trans) ∧ trans !! k = None ∧
     num < k ≤ TransIDMax ∧ ∀ i, num < i < k → is_Some (trans !! i)).

Lemma search_free_spec fuel trans num r :
  0 ≤ num → search_free fuel trans true num = Some r → search_result trans num r.
Proof.
  revert num. induction fuel as [|fuel IH]; intros num Hnum; [done|]. cbn [search_free andb].
  case_bool_decide as Hmax.
  2: { intros [= <-]. left. split; [done|]. intros k. lia. }
  rewrite int_incr_small by (unfold TransIDMax, max_int in *; lia).
  destruct (trans !! (num + 1)) as [v|] eqn:E.
  - intros Hs. destruct (IH (num + 1) ltac:(lia) Hs) as [[-> Hall]|(k & -> & Hk & Hr & Hall)].
    + left. split; [done|]. intros k Hk.
      destruct (decide (k = num + 1)) as [->|]; [eauto|apply Hall; lia].
    + right. exists k. split_and!; [done..|lia|lia|]. intros i Hi.
      destruct (decide (i = num + 1)) as [->|]; [eauto|apply Hall; lia].
  - intros [= <-]. right. exists (num + 1). split_and!; [done..|lia|lia|]. intros i. lia.
Qed.

(** A search that runs out of fuel has met as many numbers in use. *)
Lemma search_free_fuel fuel trans num :
  0 ≤ num → search_free fuel trans true num = None →
  ∀ i, num + 1 ≤ i < num + 1 + Z.of_nat fuel → is_Some (trans !! i).
Proof.
  revert num. induction fuel as [|fuel IH]; intros num Hnum; [lia|]. cbn [search_free andb].
  case_bool_decide as Hmax; [|done].
  rewrite int_incr_small by (unfold TransIDMax, max_int in *; lia).
  destruct (trans !! (num + 1)) as [v|] eqn:E; [|done]. intros Hs i Hi.
  destruct (decide (i = num + 1)) as [->|]; [eauto|].
  apply (IH (num + 1)); [lia|done|lia].
Qed.

(** The result does not depend on the fuel. *)
Lemma search_free_agree f1 f2 trans found num r1 r2 :
  search_free f1 trans found num = Some r1 → search_free f2 trans found num = Some r2 → r1 = r2.
Proof.
  revert f2 found num. induction f1 as [|f1 IH]; intros [|f2] found num; try done.
  cbn [search_free]. destruct (found && _); [|congruence].
  destruct (trans !! int_incr num); [apply IH|congruence].
Qed.

(** More fuel than numbers in use is enough. *)
Lemma search_free_ends fuel trans num :
  0 ≤ num → (size trans < fuel)%nat → ∃ r, search_free fuel trans true num = Some r.
Proof.
  intros Hnum Hfuel. destruct (search_free fuel trans true num) as [r|] eqn:E; [eauto|].
  pose proof (search_free_fuel _ _ _ Hnum E) as Hall.
  apply interval_fills_map in Hall as [Hn _]. lia.
Qed.

(** ** The number the search starts from *)
Section start.
Context `{E : GoEnv}.

Lemma fold_max (l : list (Z * TrafficInfluSub)) num :
  let m := fold_left (λ num kv, if bool_decide (num < kv.1) then kv.1 else num) l num in
  num ≤ m ∧ (∀ kv, kv ∈ l → kv.1 ≤ m) ∧ (m = num ∨ m ∈ l.*1).
Proof.
  revert num. induction l as [|[k v] l IH]; intros num; simpl.
  { split_and!; [lia| |by left]. intros ? []%not_elem_of_nil. }
  destruct (IH (if bool_decide (num < k) then k else num)) as (Hle & Hall & Hin).
  split_and!.
  - case_bool_decide; lia.
  - intros kv [->|Hkv]%elem_of_cons; [|by apply Hall]. simpl. case_bool_decide; lia.
  - case_bool_decide; destruct Hin as [->|?]; set_solver.
Qed.

(** The search starts after the largest number in use, unless that is the
    maximum. *)
Lemma search_start_spec trans :
  numbers_wf trans →
  (is_Some (trans !! TransIDMax) ∧ search_start trans = 1) ∨
  (trans !! TransIDMax = None ∧ 0 ≤ search_start trans < TransIDMax ∧
   ∀ k, is_Some (trans !! k) → k ≤ search_start trans).
Proof.
  intros Hwf. unfold search_start.
  set (first := match map_range _ trans with [] => 0 | (max, _) :: _ => max end).
  destruct (fold_max (map_range ["genAFTransID"; "max"] trans) first) as (Hle & Hall & Hin).
  set (m := fold_left _ _ _) in *.
  assert (first = 0 ∧ trans = ∅ ∨ is_Some (trans !! first)) as Hfirst.
  { unfold first. destruct (map_range _ trans) as [|[k v] l] eqn:Hl.
    - left. split; [done|]. apply map_eq. intros k. rewrite lookup_empty.
      destruct (trans !! k) as [v|] eqn:Hk; [|done].
      apply (elem_of_map_range ["genAFTransID"; "first"]) in Hk. rewrite Hl in Hk.
      by apply not_elem_of_nil in Hk.
    - right. exists v. apply (elem_of_map_range ["genAFTransID"; "first"]). rewrite Hl. set_solver. }
  assert (∀ k, is_Some (trans !! k) → k ≤ m) as Hmax.
  { intros k [v Hk]. apply (Hall (k, v)). by apply elem_of_map_range. }
  assert (m = 0 ∧ trans = ∅ ∨ is_Some (trans !! m)) as Hm.
  { destruct Hin as [->|((k & v) & -> & Hkv)%list_elem_of_fmap]; [done|].
    right. exists v. by apply elem_of_map_range in Hkv. }
  case_bool_decide as Hb.
  - left. split; [|done]. rewrite <- Hb. destruct Hm as [[? _]|?]; [|done].
    unfold TransIDMax in *. lia.
  - right. destruct Hm as [[-> ->]|Hm].
    { unfold TransIDMax. split_and!; [done|lia|lia|]. intros k []. done. }
    pose proof (Hwf m Hm) as Hr. split_and!; [|lia|lia|done].
    destruct (trans !! TransIDMax) as [v|] eqn:Hk; [|done].
    specialize (Hmax TransIDMax ltac:(eauto)). lia.
Qed.

(** ** The specification of [genAFTransID] *)

Lemma genAFTransID_result trans :
  numbers_wf trans → search_result trans (search_start trans) (genAFTransID trans).
Proof.
  intros Hwf. unfold genAFTransID.
  assert (0 ≤ search_start trans) as Hs by (destruct (search_start_spec trans Hwf); lia).
  destruct (search_free_ends (S (size trans)) trans (search_start trans)) as [r Hr];
    [done|lia|]. rewrite Hr. by eapply search_free_spec.
Qed.

(** A number that is returned is free, and is in use afterwards. *)
Lemma genAFTransID_fresh trans k m :
  numbers_wf trans → genAFTransID trans = (k, m) → k ≠ 0 →
  trans !! k = None ∧ 1 ≤ k ≤ TransIDMax ∧ m = <[k := zero_TrafficInfluSub]> trans ∧
  numbers_wf m.
Proof.
  intros Hwf Hg Hk. pose proof (genAFTransID_result trans Hwf) as Hr. rewrite Hg in Hr.
  destruct Hr as [[[= -> _] _]|(k' & [= <- ->] & Hnone & Hrange & _)]; [done|].
  assert (1 ≤ k ≤ TransIDMax) by (destruct (search_start_spec trans Hwf); lia).
  split_and!; [done|lia|lia|done|]. intros i Hi.
  destruct (decide (i = k)) as [->|]; [done|]. rewrite lookup_insert_ne in Hi by done.
  by apply Hwf.
Qed.

Lemma genAFTransID_none trans m : numbers_wf trans → genAFTransID trans = (0, m) → m = trans.
Proof.
  intros Hwf Hg. pose proof (genAFTransID_result trans Hwf) as Hr. rewrite Hg in Hr.
  destruct Hr as [[[= ->] _]|(k & [= <- ->] & _ & Hk & _)]; [done|].
  destruct (search_start_spec trans Hwf); lia.
Qed.

Lemma genAFTransID_cases trans :
  numbers_wf trans →
  (∃ k, genAFTransID trans = (k, <[k := zero_TrafficInfluSub]> trans) ∧
      trans !! k = None ∧ 1 ≤ k ≤ TransIDMax) ∨
  genAFTransID trans = (0, trans).
Proof.
  intros Hwf. pose proof (search_start_spec trans Hwf) as Hst.
  destruct (genAFTransID_result trans Hwf) as [[-> _]|(k & -> & Hk & Hrange & _)]; [by right|].
  left. exists k. split_and!; [done|done|lia|lia].
Qed.

(** The search for a transaction number ends
    after at most one round more than there are numbers in use, whatever the
    order in which the map is visited; it then either returns a number between
    1 and 2^31 - 1 that was free and is now in use, or returns 0 and changes
    nothing, and it returns 0 exactly when the maximum and all the numbers from
    2 on are in use. *)
Theorem af_trans_search_total trans :
  numbers_wf trans →
  (∀ fuel, (size trans < fuel)%nat →
     search_free fuel trans true (search_start trans) = Some (genAFTransID trans)) ∧
  ((∃ k, genAFTransID trans = (k, <[k := zero_TrafficInfluSub]> trans) ∧
      trans !! k = None ∧ 1 ≤ k ≤ TransIDMax) ∨
   genAFTransID trans = (0, trans)) ∧
  ((genAFTransID trans).1 = 0 ↔ ∀ k, 2 ≤ k ≤ TransIDMax → is_Some (trans !! k)).
Proof.
  intros Hwf. pose proof (search_start_spec trans Hwf) as Hst.
  assert (0 ≤ search_start trans) as Hs by lia.
  pose proof (genAFTransID_result trans Hwf) as Hr. split_and!.
  - intros fuel Hf. unfold genAFTransID.
    destruct (search_free_ends fuel trans _ Hs Hf) as [r Hr1].
    destruct (search_free_ends (S (size trans)) trans (search_start trans)) as [r' Hr2];
      [done|lia|]. rewrite Hr1, Hr2. by rewrite (search_free_agree _ _ _ _ _ _ _ Hr1 Hr2).
  - by apply genAFTransID_cases.
  - destruct Hr as [[-> Hall]|(k & -> & Hk & Hrange & _)]; simpl; split; try done.
    + intros _ k Hk. destruct Hst as [[_ Hst]|(Hnone & Hlt & _)]; [apply Hall; lia|].
      destruct (Hall TransIDMax ltac:(lia)). congruence.
    + lia.
    + intros Hall. destruct Hst as [[_ Hst]|(Hnone & Hlt & _)].
      * destruct (Hall k ltac:(lia)). congruence.
      * destruct (Hall TransIDMax ltac:(unfold TransIDMax; lia)). congruence.
Qed.
End start.

(** Two numbers in use: the next one is taken. *)
Lemma af_trans_search_total_witness :
  let trans : TransactionIDs := {[1 := zero_TrafficInfluSub; 5 := zero_TrafficInfluSub]} in
  search_free 3 trans true (search_start trans) = Some (genAFTransID trans) ∧
  (genAFTransID trans).1 = 6.
Proof.
  intros trans. split; [|reflexivity].
  assert (numbers_wf trans) as Hwf by (apply (bool_decide_unpack _); reflexivity).
  apply (af_trans_search_total trans Hwf). apply (bool_decide_unpack _). reflexivity.
Defined.

(** * Abstract specification of the AF's registry

    [af_effect] describes, without control flow and whatever the NEF answers,
    every change a request may make to the subscriptions and transactions of
    the AF.  [af_serve_effect] proves that the handlers implement it. *)

(** The number [genAFTransID] takes next. *)
Definition next_number (c : Context) (t : Z) : Prop :=
  ∃ E : GoEnv, genAFTransID (trans_of c) = (t, <[t := zero_TrafficInfluSub]> (trans_of c)) ∧
    trans_of c !! t = None ∧ 1 ≤ t ≤ TransIDMax.

Definition ctx_with (trans : TransactionIDs) (subs : NotifSubscryptions) (c : Context) : Context :=
  mkContext (Some subs) (Some trans) (af_cfg c).

(** The numbers under which a subscription is stored. *)
Definition number_of (k : string) : option Z :=
  match Atoi k with (i, None) => Some i | (_, Some _) => None end.
Definition numbers_of (m : gmap string TrafficInfluSub) : gset Z :=
  list_to_set (omap number_of (map_to_list m).*1).

(** The transactions of a subscription, freed. *)
Definition freed (m : gmap string TrafficInfluSub) (trans : TransactionIDs) : TransactionIDs :=
  filter (λ kv, kv.1 ∉ numbers_of m) trans.

Inductive af_effect (r : afRequest) (c : Context) : Context → Prop :=
| aff_none : af_effect r c c
(* a number stays reserved: a put that the NEF refuses, or a handler that panics *)
| aff_reserve t :
    next_number c t →
    af_effect r c (ctx_with (<[t := zero_TrafficInfluSub]> (trans_of c)) (subs_of c) c)
| aff_create body t sid ts :
    r = AfCreateSubscription body → next_number c t → no_events ts = false →
    af_effect r c (ctx_with (<[t := ts]> (trans_of c))
                     (<[sid := {[Itoa t := ts]}]> (subs_of c)) c)
(* a put with events: a number is taken, unless the subscription is stored
   under the same number already *)
| aff_put url ts t sid ts' :
    r = AfSubscriptionPut url (BodyOf ts) → getSubsIDFromURL (Some url) = (sid, nil_err) →
    ts_SubscribedEvents ts ≠ None → next_number c t →
    default ∅ (subs_of c !! sid) !! Itoa t = None →
    af_effect r c (ctx_with (<[t := ts']> (trans_of c))
                     (<[sid := {[Itoa t := ts']}]> (subs_of c)) c)
| aff_put_silent url ts t sid ts' :
    r = AfSubscriptionPut url (BodyOf ts) → getSubsIDFromURL (Some url) = (sid, nil_err) →
    next_number c t →
    ts_SubscribedEvents ts = None ∨ is_Some (default ∅ (subs_of c !! sid) !! Itoa t) →
    af_effect r c (ctx_with (trans_of c) (<[sid := {[Itoa t := ts']}]> (subs_of c)) c)
| aff_patch url body sid m ts' :
    r = AfSubscriptionPatch url body → getSubsIDFromURL (Some url) = (sid, nil_err) →
    subs_of c !! sid = Some m →
    af_effect r c (ctx_with (trans_of c) (<[sid := (λ _, ts') <$> m]> (subs_of c)) c)
| aff_delete url sid m :
    r = AfDeleteSubscription url → getSubsIDFromURL (Some url) = (sid, nil_err) →
    subs_of c !! sid = Some m →
    af_effect r c (ctx_with (freed m (trans_of c)) (delete sid (subs_of c)) c).

(** The maps have been made. *)
Definition made (c : Context) : Prop := is_Some (subscriptions c) ∧ is_Some (transactions c).

Lemma ctx_with_same c : made c → ctx_with (trans_of c) (subs_of c) c = c.
Proof. destruct c as [ss ts cf]. intros [[? Hs] [? Ht]]. simpl in *. by subst. Qed.

Lemma subs_of_with t s c : subs_of (ctx_with t s c) = s.
Proof. done. Qed.
Lemma trans_of_with t s c : trans_of (ctx_with t s c) = t.
Proof. done. Qed.

(** ** The client leaves the context alone *)
Section keeps.
Context {N : Type} `{Network N, Jwt, AfEnv}.
Abbreviation st := (afState N).

Definition keeps {A} (m : GoM st A) : Prop :=
  ∀ P : Context → Prop, preserves (λ s, P (af_ctx s)) m.

Lemma keeps_ctx {A} (m : GoM st A) s : keeps m → af_ctx (m s).2 = af_ctx s.
Proof. intros Hm. by apply (Hm (λ c, c = af_ctx s)). Qed.

Lemma keeps_run {A} (m : GoM st A) s o s' : keeps m → m s = (o, s') → af_ctx s' = af_ctx s.
Proof. intros Hm E. pose proof (keeps_ctx m s Hm) as Hs. by rewrite E in Hs. Qed.

Lemma keeps_fetch_token : keeps fetchNEFAuthorizationToken.
Proof.
  intros P. unfold fetchNEFAuthorizationToken. apply preserves_bind; [apply preserves_get|].
  intros s. destruct (GetAccessToken _ _) as [tok err]. apply preserves_bind.
  - by apply preserves_modify.
  - intros []. apply preserves_ret.
Qed.

Lemma keeps_problem_error r body : keeps (problem_error r body).
Proof.
  intros P. unfold problem_error. pose proof (keeps_fetch_token P). solve_preserves.
Qed.

Lemma keeps_exchange cli path method body : keeps (exchange cli path method body).
Proof.
  intros P. unfold exchange, prepareRequest, callAPI, getNEFAuthorizationToken.
  solve_preserves.
Qed.

Lemma keeps_handle {A} `{Json A} code b on_error r body :
  (∀ r body, keeps (on_error r body)) → keeps (handle_response (A:=A) code b on_error r body).
Proof.
  intros He P. unfold handle_response. pose proof (λ r body, He r body P). solve_preserves.
Qed.

Lemma keeps_error_resp r body :
  keeps (handleGetErrorResp r body) ∧ keeps (handlePostPutPatchErrorResp r body) ∧
  keeps (handlePfdPostPutPatchErrorResp r body) ∧ keeps (handleDeleteResponse r body) ∧
  keeps (handlePfdDeleteResponse r body) ∧ keeps (handlePfdAppDeleteResp r body).
Proof.
  unfold handleGetErrorResp, handlePostPutPatchErrorResp, handlePfdPostPutPatchErrorResp,
    handleDeleteResponse, handlePfdDeleteResponse, handlePfdAppDeleteResp.
  split_and!; intros P; pose proof (λ r body, keeps_problem_error r body P); solve_preserves.
Qed.

Lemma keeps_fetch {A} `{Json A} cli path method body
    (handle : httpResponse → text → GoM st (A * httpResponse * option clientError)) :
  (∀ r b, keeps (handle r b)) → keeps (fetch cli path method body handle).
Proof.
  intros Hh P. unfold fetch. apply preserves_bind; [apply keeps_exchange|].
  pose proof (λ r b, Hh r b P). intros [[resp b]|[resp err]]; solve_preserves.
Qed.

Lemma keeps_fetch_bytes {A} `{Json A} cli path method body
    (handle : httpResponse → text → GoM st (A * httpResponse * option clientError)) :
  (∀ r b, keeps (handle r b)) → keeps (fetch_bytes cli path method body handle).
Proof.
  intros Hh P. unfold fetch_bytes. apply preserves_bind; [apply keeps_exchange|].
  pose proof (λ r b, Hh r b P). intros [[resp b]|[resp err]]; solve_preserves.
Qed.

Lemma keeps_send_delete cli path handle :
  (∀ r b, keeps (handle r b)) → keeps (send_delete cli path handle).
Proof.
  intros Hh P. unfold send_delete. apply preserves_bind; [apply keeps_exchange|].
  pose proof (λ r b, Hh r b P). intros [[resp b]|[resp err]]; solve_preserves.
Qed.

(** Every service. *)
Lemma keeps_services cli afID :
  (∀ ts, keeps (SubscriptionPost cli afID ts)) ∧ (∀ s ts, keeps (SubscriptionPut cli afID s ts)) ∧
  (∀ s p, keeps (SubscriptionPatch cli afID s p)) ∧ (∀ s, keeps (SubscriptionGet cli afID s)) ∧
  keeps (SubscriptionsGetAll cli afID) ∧ (∀ s, keeps (SubscriptionDelete cli afID s)) ∧
  (∀ p, keeps (PfdTransactionPost cli afID p)) ∧ (∀ t p, keeps (PfdTransactionPut cli afID t p)) ∧
  (∀ t, keeps (PfdTransactionGet cli afID t)) ∧ keeps (PfdTransactionsGetAll cli afID) ∧
  (∀ t, keeps (PfdTransactionDelete cli afID t)) ∧
  (∀ t a, keeps (PfdAppTransactionGet cli afID t a)) ∧
  (∀ t a d, keeps (PfdAppTransactionPut cli afID t a d)) ∧
  (∀ t a d, keeps (PfdAppTransactionPatch cli afID t a d)) ∧
  (∀ t a, keeps (PfdAppTransactionDelete cli afID t a)).
Proof.
  split_and!; intros;
    first [apply keeps_fetch | apply keeps_fetch_bytes | apply keeps_send_delete]; intros;
    try (apply keeps_handle; intros); apply keeps_error_resp.
Qed.

Lemma keeps_ctx_bind {A B} (m : GoM st A) (k : A → GoM st B) :
  keeps m → (∀ a, keeps (k a)) → keeps (m ≫= k).
Proof. intros Hm Hk P. apply preserves_bind; [apply Hm|intros a; apply Hk]. Qed.
End keeps.

(** * The handlers of the AF implement [af_effect] *)

(** ** Loops over the entries of a subscription *)
Section loops.
Context `{E : GoEnv}.

Lemma alter_fold sid (l : list (string * TrafficInfluSub)) ts (m : NotifSubscryptions) i :
  m !! sid = Some i →
  fold_left (λ m kv, alter <[kv.1 := ts]> sid m) l m
  = <[sid := fold_left (λ i kv, <[kv.1 := ts]> i) l i]> m.
Proof.
  revert m i. induction l as [|kv l IH]; intros m i Hi; simpl.
  { by rewrite insert_id. }
  rewrite (IH _ (<[kv.1 := ts]> i)) by (by rewrite lookup_alter_eq, Hi).
  apply map_eq. intros k. destruct (decide (k = sid)) as [->|Hk].
  - by rewrite !lookup_insert_eq.
  - by rewrite !lookup_insert_ne, lookup_alter_ne by done.
Qed.

Lemma patch_entries_spec sid m ts (subs : NotifSubscryptions) :
  subs !! sid = Some m → patch_entries sid m ts subs = <[sid := (λ _, ts) <$> m]> subs.
Proof.
  intros Hm. unfold patch_entries. rewrite (alter_fold _ _ _ _ m) by done. f_equal.
  rewrite (range_update _ (λ _ _, ts)). apply map_eq. intros k.
  rewrite map_lookup_imap, lookup_fmap. by destruct (m !! k).
Qed.

Lemma fold_free (l : list (string * TrafficInfluSub)) (trans : TransactionIDs) i :
  fold_left (λ m kv, match Atoi kv.1 with (_, Some _) => m | (i, None) => delete i m end)
    l trans !! i
  = if bool_decide (i ∈ omap number_of l.*1) then None else trans !! i.
Proof.
  revert trans. induction l as [|[k v] l IH]; intros trans; [done|].
  cbn [fold_left]. rewrite IH.
  assert (omap number_of ((k, v) :: l).*1 = match number_of k with
    | Some j => j :: omap number_of l.*1 | None => omap number_of l.*1 end) as ->
    by (simpl; by destruct (number_of k)).
  destruct (number_of k) as [j|] eqn:Hk; unfold number_of in Hk; simpl;
    destruct (Atoi k) as [j' [e|]]; simplify_eq/=; [|done].
  destruct (decide (i ∈ omap number_of l.*1)) as [Hi|Hi].
  { by rewrite !bool_decide_eq_true_2 by set_solver. }
  rewrite (bool_decide_eq_false_2 (i ∈ omap _ _)) by done.
  destruct (decide (i = j)) as [->|Hij].
  - by rewrite bool_decide_eq_true_2, lookup_delete_eq by set_solver.
  - by rewrite bool_decide_eq_false_2, lookup_delete_ne by set_solver.
Qed.

Lemma free_trans_spec m trans : free_trans m trans = freed m trans.
Proof.
  apply map_eq. intros i. unfold free_trans. rewrite fold_free. unfold freed.
  assert (i ∈ omap number_of (map_range ["DeleteSubscription"] m).*1 ↔ i ∈ numbers_of m) as Hiff.
  { unfold numbers_of. rewrite elem_of_list_to_set. by rewrite (map_range_perm _ m). }
  rewrite (bool_decide_ext _ _ Hiff). case_bool_decide as Hi.
  - symmetry. apply map_lookup_filter_None. right. intros v _ Hn. by apply Hn.
  - destruct (trans !! i) as [v|] eqn:Ht; symmetry.
    + by apply map_lookup_filter_Some.
    + apply map_lookup_filter_None. by left.
Qed.
End loops.

(** ** The handlers *)
Section refine.
Context {N : Type} `{Network N, Jwt, AfEnv}.
Abbreviation st := (afState N).
Implicit Types (s : st) (w : ResponseWriter afPayload).

(** What the registry needs for a number to be found. *)
Definition ready (c : Context) : Prop := made c ∧ numbers_wf (trans_of c).

Lemma gen_run `{GoEnv} s :
  ready (af_ctx s) →
  (∃ e, genTransactionID s = (Ret (0, Some e), s)) ∨
  (∃ t, next_number (af_ctx s) t ∧
     genTransactionID s = (Ret (t, None),
       set_ctx (ctx_with (<[t := zero_TrafficInfluSub]> (trans_of (af_ctx s)))
                  (subs_of (af_ctx s)) (af_ctx s)) s)).
Proof.
  intros [Hmade Hwf]. unfold genTransactionID. go_unfold.
  destruct (genAFTransID_cases (trans_of (af_ctx s)) Hwf) as [(t & Heq & Hnone & Hr)|Heq]; rewrite Heq; unfold modify_trans; go_unfold;
    case_bool_decide; try lia.
  - right. exists t. split; [by exists _|]. f_equal.
    destruct s as [[ss ts cf] tok n], Hmade as [[x Hx] [y Hy]]. simpl in *. by subst.
  - left. eexists. f_equal. destruct s as [[ss ts cf] tok n], Hmade as [[x Hx] [y Hy]].
    simpl in *. by subst.
Qed.

(** The functions between the handlers and the services. *)
Lemma keeps_calls :
  (∀ ts, keeps (createSubscription (N:=N) ts)) ∧
  (∀ ts sid, keeps (modifySubscriptionByPut (N:=N) ts sid)) ∧
  (∀ ts sid, keeps (modifySubscriptionByPatch (N:=N) ts sid)) ∧
  (∀ sid, keeps (deleteSubscription (N:=N) sid)) ∧
  (∀ sid, keeps (getSubscription (N:=N) sid)) ∧ keeps (getAllSubscriptions (N:=N)).
Proof.
  split_and!; intros;
    unfold createSubscription, modifySubscriptionByPut, modifySubscriptionByPatch,
      deleteSubscription, getSubscription, getAllSubscriptions;
    apply keeps_ctx_bind; try (intros P; apply preserves_get); intros s;
    try apply keeps_services; (apply keeps_ctx_bind; [apply keeps_services|]);
    intros [[v resp] [e|]] P; apply preserves_ret.
Qed.

Lemma create_effect `{GoEnv} body w s :
  ready (af_ctx s) →
  af_effect (AfCreateSubscription body) (af_ctx s)
    (af_ctx (exec (CreateSubscription body w) s)).
Proof.
  intros Hready. pose proof Hready as [Hmade _]. pose proof Hmade as [[ss Hss] [tt' Htt]].
  unfold CreateSubscription, exec, modify_trans, modify_subs. go_run. rewrite Hss, Htt.
  destruct body as [| |ts]; [apply aff_none..|].
  destruct (gen_run s Hready) as [[e Hg]|(t & Hnext & Hg)]; rewrite (bind_ret _ _ _ _ _ Hg).
  { apply aff_none. }
  pose proof Hnext as (_ & _ & Hfresh & _). go_run.
  set (s1 := set_ctx _ _). set (ts' := if no_events _ then _ else _).
  assert (af_ctx s1 = ctx_with (<[t := zero_TrafficInfluSub]> (trans_of (af_ctx s)))
                        (subs_of (af_ctx s)) (af_ctx s)) as Hs1.
  { unfold s1, set_trans. cbn [set_ctx af_ctx]. by rewrite trans_of_with, insert_insert_eq. }
  destruct (createSubscription ts' s1) as [[[[tsResp resp] err]|e] s2] eqn:Hcall;
    apply keeps_run in Hcall as Hs2; try apply keeps_calls; rewrite Hs1 in Hs2.
  2: { rewrite (bind_panic _ _ _ _ _ Hcall). simpl. rewrite Hs2. by apply aff_reserve. }
  rewrite (bind_ret _ _ _ _ _ Hcall).
  assert (∀ s', af_ctx s' = af_ctx s2 →
    set_trans (delete t (trans_of (af_ctx s'))) (af_ctx s') = af_ctx s) as Hback.
  { intros s' ->. rewrite Hs2. unfold set_trans. rewrite trans_of_with, delete_insert_id by done.
    exact (ctx_with_same _ Hmade). }
  destruct err as [e|]; go_run; [simpl; rewrite Hback by done; apply aff_none|].
  destruct resp as [resp|]; unfold deref; [go_run|simpl; rewrite Hs2; by apply aff_reserve].
  destruct (Location resp) as [url|e]; go_run; [|simpl; rewrite Hback by done; apply aff_none].
  destruct (getSubsIDFromURL (Some url)) as [sid [e|]]; go_run;
    [simpl; rewrite Hback by done; apply aff_none|].
  destruct (no_events tsResp) eqn:Hev; go_run; simpl; [rewrite Hback by done; apply aff_none|].
  rewrite Hs2. unfold set_trans, set_subs. rewrite trans_of_with, insert_insert_eq.
  exact (aff_create _ (af_ctx s) _ t sid tsResp eq_refl Hnext Hev).
Qed.
(** The context after a successful put. *)
Definition put_context (t : Z) (sid : string) (ts tsResp : TrafficInfluSub) (c : Context) : Context :=
  let stored := default ∅ (subs_of c !! sid) !! Itoa t in
  ctx_with (match ts_SubscribedEvents ts, stored with
            | Some _, None => <[t := tsResp]> (trans_of c)
            | _, _ => delete t (trans_of c)
            end)
    (<[sid := {[ts_AFTransID ts := tsResp]}]> (subs_of c)) c.

Lemma put_registry_run t sid ts tsResp s :
  made (af_ctx s) →
  put_registry t sid ts tsResp s
  = (Ret tt, set_ctx (put_context t sid ts tsResp (af_ctx s)) s).
Proof.
  intros [[ss Hss] [tt' Htt]]. unfold put_registry, put_context, modify_trans, modify_subs.
  destruct s as [[xs xt cf] tok n]; simpl in Hss, Htt; subst. cbn [af_ctx].
  assert (∀ x, subs_of (set_trans x (mkContext (Some ss) (Some tt') cf)) = ss) as Hsub by done.
  change (subs_of (mkContext (Some ss) (Some tt') cf)) with ss.
  destruct (ts_SubscribedEvents ts); go_run; cbn [af_ctx set_ctx]; rewrite Hsub;
    destruct (default ∅ (ss !! sid) !! Itoa t), (ss !! sid); go_run;
    unfold set_ctx, set_subs, set_trans, ctx_with, subs_of, trans_of, go_modify; simpl;
    rewrite ?insert_insert_eq, ?delete_insert_eq, ?delete_delete_eq; reflexivity.
Qed.

Lemma put_effect `{GoEnv} url body w s :
  ready (af_ctx s) →
  af_effect (AfSubscriptionPut url body) (af_ctx s)
    (af_ctx (exec (ModifySubscriptionPut (Some url) body w) s)).
Proof.
  intros Hready. pose proof Hready as [Hmade _]. pose proof Hmade as [[ss Hss] [tt' Htt]].
  unfold ModifySubscriptionPut, exec, modify_trans. go_run. rewrite Hss, Htt.
  destruct body as [| |ts]; [apply aff_none..|].
  destruct (gen_run s Hready) as [[e Hg]|(t & Hnext & Hg)]; rewrite (bind_ret _ _ _ _ _ Hg).
  { apply aff_none. }
  pose proof Hnext as (_ & _ & Hfresh & _).
  destruct (getSubsIDFromURL (Some url)) as [sid [e|]] eqn:Hsid; [by apply aff_reserve|].
  go_run. set (s1 := set_ctx _ _). set (ts' := ts_set_AFTransID _ _).
  assert (af_ctx s1 = ctx_with (<[t := zero_TrafficInfluSub]> (trans_of (af_ctx s)))
                        (subs_of (af_ctx s)) (af_ctx s)) as Hs1.
  { unfold s1, set_trans. cbn [set_ctx af_ctx]. by rewrite trans_of_with, insert_insert_eq. }
  destruct (modifySubscriptionByPut ts' sid s1) as [[[[tsResp resp] err]|e] s2] eqn:Hcall;
    apply keeps_run in Hcall as Hs2; try apply keeps_calls; rewrite Hs1 in Hs2.
  2: { rewrite (bind_panic _ _ _ _ _ Hcall). simpl. rewrite Hs2. by apply aff_reserve. }
  rewrite (bind_ret _ _ _ _ _ Hcall).
  destruct err as [e|]; [simpl; rewrite Hs2; by apply aff_reserve|].
  rewrite (bind_ret _ _ _ _ _ (put_registry_run t sid ts' tsResp s2 ltac:(by rewrite Hs2))).
  cbn [mret GoM_ret snd set_ctx af_ctx]. rewrite Hs2.
  unfold put_context. rewrite subs_of_with, trans_of_with.
  rewrite insert_insert_eq, delete_insert_id by done.
  change (ts_SubscribedEvents ts') with (ts_SubscribedEvents ts).
  destruct (ts_SubscribedEvents ts) as [ev|] eqn:Hev, (default ∅ (subs_of (af_ctx s) !! sid) !! Itoa t)
    as [old|] eqn:Hold.
  - refine (aff_put_silent _ (af_ctx s) url ts t sid tsResp eq_refl Hsid Hnext _). rewrite Hold. eauto.
  - by refine (aff_put _ (af_ctx s) url ts t sid tsResp eq_refl Hsid _ Hnext Hold); rewrite Hev.
  - refine (aff_put_silent _ (af_ctx s) url ts t sid tsResp eq_refl Hsid Hnext _). eauto.
  - refine (aff_put_silent _ (af_ctx s) url ts t sid tsResp eq_refl Hsid Hnext _). eauto.
Qed.
(** The use of the response at the end of a handler. *)
Lemma deref_tail {A B} (p : option A) (k : A → GoM st B) s :
  (∀ a, keeps (k a)) → af_ctx ((deref p ≫= k) s).2 = af_ctx s.
Proof. intros Hk. destruct p as [a|]; [|done]. apply (keeps_ctx (k a)), Hk. Qed.

Lemma patch_effect `{GoEnv} url body w s :
  made (af_ctx s) →
  af_effect (AfSubscriptionPatch url body) (af_ctx s)
    (af_ctx (exec (ModifySubscriptionPatch (Some url) body w) s)).
Proof.
  intros Hmade. pose proof Hmade as [[ss Hss] [tt' Htt]].
  unfold ModifySubscriptionPatch, exec, modify_subs. go_run. rewrite Hss.
  destruct body as [| |p]; [apply aff_none..|].
  destruct (getSubsIDFromURL (Some url)) as [sid [e|]] eqn:Hsid; [apply aff_none|].
  destruct (modifySubscriptionByPatch p sid s) as [[[[tsResp resp] err]|e] s2] eqn:Hcall;
    apply keeps_run in Hcall as Hs2; try apply keeps_calls.
  2: { rewrite (bind_panic _ _ _ _ _ Hcall). simpl. rewrite Hs2. apply aff_none. }
  rewrite (bind_ret _ _ _ _ _ Hcall). destruct err as [e|]; [simpl; rewrite Hs2; apply aff_none|].
  go_run. destruct (subs_of (af_ctx s2) !! sid) as [m|] eqn:Hm; go_run.
  - rewrite deref_tail by (intros r P; apply preserves_ret). cbn [af_ctx set_ctx].
    rewrite Hs2 in Hm |- *. rewrite patch_entries_spec by done. unfold set_subs. rewrite Htt.
    pose proof (aff_patch (AfSubscriptionPatch url (BodyOf p)) (af_ctx s) url (BodyOf p) sid m tsResp
      eq_refl Hsid Hm) as Heff. unfold ctx_with, trans_of in Heff. by rewrite Htt in Heff.
  - destruct resp; simpl; rewrite Hs2; apply aff_none.
Qed.

Lemma delete_effect `{GoEnv} url w s :
  made (af_ctx s) →
  af_effect (AfDeleteSubscription url) (af_ctx s)
    (af_ctx (exec (DeleteSubscription (Some url) w) s)).
Proof.
  intros Hmade. pose proof Hmade as [[ss Hss] [tt' Htt]].
  unfold DeleteSubscription, exec, modify_trans, modify_subs. go_run. rewrite Hss, Htt.
  destruct (getSubsIDFromURL (Some url)) as [sid [e|]] eqn:Hsid; [apply aff_none|].
  destruct (deleteSubscription sid s) as [[[resp err]|e] s2] eqn:Hcall;
    apply keeps_run in Hcall as Hs2; try apply keeps_calls.
  2: { rewrite (bind_panic _ _ _ _ _ Hcall). simpl. rewrite Hs2. apply aff_none. }
  rewrite (bind_ret _ _ _ _ _ Hcall). destruct err as [e|]; [simpl; rewrite Hs2; apply aff_none|].
  go_run. destruct (subs_of (af_ctx s2) !! sid) as [m|] eqn:Hm; go_run.
  - rewrite deref_tail by (intros r P; apply preserves_ret). cbn [af_ctx set_ctx].
    rewrite Hs2 in Hm |- *. rewrite free_trans_spec.
    exact (aff_delete (AfDeleteSubscription url) (af_ctx s) url sid m eq_refl Hsid Hm).
  - destruct resp; simpl; rewrite Hs2; apply aff_none.
Qed.
(** The handlers that only read, and those for PFDs. *)
Lemma keeps_update_links `{GoEnv} v : keeps (update_links (N:=N) v).
Proof. intros P. unfold update_links, lift_outcome. solve_preserves. Qed.
Lemma keeps_update_link v : keeps (update_link (N:=N) v).
Proof. intros P. unfold update_link, lift_outcome. solve_preserves. Qed.

Lemma keeps_with_client {A} (k : CliConfig → string → GoM st A) :
  (∀ cli afID, keeps (k cli afID)) → keeps (with_client k).
Proof.
  intros Hk P. unfold with_client. apply preserves_bind; [apply preserves_get|]. intros s. apply Hk.
Qed.

Lemma keeps_pfd_calls :
  (∀ p, keeps (createPfdTransaction (N:=N) p)) ∧ (∀ p t, keeps (putPfdTransaction (N:=N) p t)) ∧
  (∀ t, keeps (getPfdTransaction (N:=N) t)) ∧ keeps (getAllPfdTransactions (N:=N)) ∧
  (∀ t, keeps (deletePfdTransaction (N:=N) t)) ∧
  (∀ t a, keeps (getPfdAppTransaction (N:=N) t a)) ∧
  (∀ d t a, keeps (putPfdAppTransaction (N:=N) d t a)) ∧
  (∀ d t a, keeps (patchPfdAppTransaction (N:=N) d t a)) ∧
  (∀ t a, keeps (deletePfdAppTransaction (N:=N) t a)).
Proof.
  split_and!; intros;
    unfold createPfdTransaction, putPfdTransaction, getPfdTransaction, getAllPfdTransactions,
      deletePfdTransaction, getPfdAppTransaction, putPfdAppTransaction, patchPfdAppTransaction,
      deletePfdAppTransaction;
    try (apply keeps_with_client; intros; apply keeps_services);
    (apply keeps_ctx_bind; [apply keeps_with_client; intros; apply keeps_services|]);
    intros r P; repeat case_match; apply preserves_ret.
Qed.

Lemma keeps_readers `{GoEnv} r w :
  match r with
  | AfCreateSubscription _ | AfSubscriptionPut _ _ | AfSubscriptionPatch _ _
  | AfDeleteSubscription _ => True
  | _ => keeps (af_serve (N:=N) r w)
  end.
Proof.
  pose proof keeps_calls as (_ & _ & _ & _ & Hg & Hga).
  pose proof keeps_pfd_calls as (Hc & Hp & Hr & Hra & Hd & Har & Hap & Hapa & Had).
  destruct r; try done; intros P; cbn [af_serve];
    unfold GetAllSubscriptions, GetSubscription, GetAllPfdTransactions, CreatePfdTransaction,
      GetPfdTransaction, DeletePfdTransaction, PutPfdTransaction, GetPfdAppTransaction,
      DeletePfdAppTransaction, PutPfdAppTransaction, PatchPfdAppTransaction, NotificationPost,
      deref;
    pose proof (λ v, keeps_update_links v P); pose proof (λ v, keeps_update_link v P);
    specialize (Hga P); specialize (Hra P);
    pose proof (λ x, Hg x P); pose proof (λ x, Hc x P); pose proof (λ x y, Hp x y P);
    pose proof (λ x, Hr x P); pose proof (λ x, Hd x P); pose proof (λ x y, Har x y P);
    pose proof (λ x y z, Hap x y z P); pose proof (λ x y z, Hapa x y z P);
    pose proof (λ x y, Had x y P);
    unfold lift_outcome; solve_preserves.
Qed.

(** Serving a request changes the registry by one effect. *)
Lemma af_serve_effect `{GoEnv} r w s :
  ready (af_ctx s) → af_effect r (af_ctx s) (af_ctx (exec (af_serve r w) s)).
Proof.
  intros Hready. pose proof (keeps_readers r w) as Hk. pose proof Hready as [Hmade _].
  destruct r; cbn [af_serve] in *;
    try (unfold exec; rewrite keeps_ctx by done; apply aff_none);
    auto using create_effect, put_effect, patch_effect, delete_effect.
Qed.
End refine.

(** * The registry of the AF over its life time

    From the start on, and whatever the NEF answers: the numbers in use are
    between 1 and 2^31 - 1; and as long as every put names the events it
    subscribes to, each stored subscription has exactly one transaction number,
    which is in use and belongs to no other subscription. *)

(** A put names the events it subscribes to. *)
Definition put_has_events (r : afRequest) : Prop :=
  match r with
  | AfSubscriptionPut _ (BodyOf ts) => ts_SubscribedEvents ts ≠ None
  | _ => True
  end.

Record af_registry (c : Context) : Prop := {
  reg_ready : ready c;
  reg_number : ∀ sid m, subs_of c !! sid = Some m →
    ∃ t ts, m = {[Itoa t := ts]} ∧ is_Some (trans_of c !! t);
  reg_distinct : ∀ sid1 sid2 m1 m2 k, subs_of c !! sid1 = Some m1 → subs_of c !! sid2 = Some m2 →
    is_Some (m1 !! k) → is_Some (m2 !! k) → sid1 = sid2;
}.

Lemma number_in_int t : 1 ≤ t ≤ TransIDMax → - 2 ^ 63 ≤ t ≤ max_int.
Proof. unfold TransIDMax, max_int. lia. Qed.

Lemma numbers_of_singleton t ts : 1 ≤ t ≤ TransIDMax → numbers_of {[Itoa t := ts]} = {[t]}.
Proof.
  intros Ht. unfold numbers_of. rewrite map_to_list_singleton. simpl.
  unfold number_of. rewrite Atoi_Itoa by (by apply number_in_int). set_solver.
Qed.

Lemma numbers_wf_insert trans t ts :
  numbers_wf trans → 1 ≤ t ≤ TransIDMax → numbers_wf (<[t := ts]> trans).
Proof.
  intros Hwf Ht k Hk. destruct (decide (k = t)) as [->|]; [done|].
  rewrite lookup_insert_ne in Hk by done. by apply Hwf.
Qed.

Lemma numbers_wf_freed m trans : numbers_wf trans → numbers_wf (freed m trans).
Proof.
  intros Hwf k [v Hv]. apply map_lookup_filter_Some in Hv as [Hv _]. apply Hwf. eauto.
Qed.

Lemma freed_lookup t ts trans i :
  1 ≤ t ≤ TransIDMax → freed {[Itoa t := ts]} trans !! i = delete t trans !! i.
Proof.
  intros Ht. unfold freed. rewrite numbers_of_singleton by done.
  destruct (decide (i = t)) as [->|Hi].
  - rewrite lookup_delete_eq. apply map_lookup_filter_None. right. set_solver.
  - rewrite lookup_delete_ne by done. destruct (trans !! i) as [v|] eqn:Hv.
    + apply map_lookup_filter_Some. split; [done|]. set_solver.
    + apply map_lookup_filter_None. by left.
Qed.

(** What a number is needed for holds after every effect. *)
Lemma af_ready_effect r c c' : ready c → af_effect r c c' → ready c'.
Proof.
  intros [Hmade Hwf] Heff.
  destruct Heff as [|t (_ & _ & _ & Ht)|body t sid ts _ (_ & _ & _ & Ht) _
    |url ts t sid ts' _ _ _ (_ & _ & _ & Ht) _| | |]; try done; split; try (by split; eauto);
    rewrite ?trans_of_with; try done; try by apply numbers_wf_insert.
  by apply numbers_wf_freed.
Qed.

(** A fresh number is not one under which a subscription is stored. *)
Lemma fresh_not_stored c t sid :
  af_registry c → trans_of c !! t = None → default ∅ (subs_of c !! sid) !! Itoa t = None.
Proof.
  intros Hreg Hfresh. destruct (subs_of c !! sid) as [m|] eqn:Hm; [|apply lookup_empty].
  destruct (reg_number c Hreg sid m Hm) as (t' & ts & -> & Ht'). simpl.
  apply lookup_singleton_None. intros Heq%(inj Itoa). subst. by rewrite Hfresh in Ht'; destruct Ht'.
Qed.

(** A subscription enters under a fresh number. *)
Lemma registry_enter c t sid ts :
  af_registry c → trans_of c !! t = None → 1 ≤ t ≤ TransIDMax →
  af_registry (ctx_with (<[t := ts]> (trans_of c)) (<[sid := {[Itoa t := ts]}]> (subs_of c)) c).
Proof.
  intros Hreg Hfresh Ht. destruct (reg_ready c Hreg) as [Hmade Hwf]. split.
  - split; [by split; eauto|]. by apply numbers_wf_insert.
  - intros sid' m. rewrite subs_of_with, trans_of_with. rewrite lookup_insert_Some.
    intros [[<- <-]|[Hne Hm]].
    + exists t, ts. rewrite lookup_insert_eq. eauto.
    + destruct (reg_number c Hreg sid' m Hm) as (t' & ts' & -> & Ht').
      exists t', ts'. split; [done|]. rewrite lookup_insert_ne; [done|].
      intros ->. rewrite Hfresh in Ht'. by destruct Ht'.
  - assert (∀ sid' m k, subs_of c !! sid' = Some m → is_Some (m !! k) →
      is_Some (({[Itoa t := ts]} : gmap string TrafficInfluSub) !! k) → False) as Hno.
    { intros sid' m k Hm [v Hv] [v' [<- _]%lookup_singleton_Some].
      pose proof (fresh_not_stored c t sid' Hreg Hfresh) as Hn. rewrite Hm in Hn. simpl in Hn.
      congruence. }
    intros sid1 sid2 m1 m2 k. rewrite subs_of_with, !lookup_insert_Some.
    intros [[<- <-]|[? H1]] [[<- <-]|[? H2]] Hk1 Hk2; [done|exfalso; eauto..|].
    by eapply (reg_distinct c Hreg).
Qed.

Lemma af_registry_effect r c c' :
  put_has_events r → af_registry c → af_effect r c c' → af_registry c'.
Proof.
  intros Hr Hreg Heff. pose proof (reg_ready c Hreg) as Hready.
  pose proof (af_ready_effect _ _ _ Hready Heff) as Hready'. destruct Hready as [Hmade Hwf].
  destruct Heff as [|t (_ & _ & Hfresh & Ht)|body t sid ts _ (_ & _ & Hfresh & Ht) _
    |url ts t sid ts' _ _ _ (_ & _ & Hfresh & Ht) _
    |url ts t sid ts' -> _ (_ & _ & Hfresh & _) Hdrop
    |url body sid m ts' _ _ Hm|url sid m _ _ Hm].
  - done.
  - split; [done| |apply (reg_distinct c Hreg)].
    intros sid m Hm. destruct (reg_number c Hreg sid m Hm) as (t' & ts & -> & Ht').
    exists t', ts. split; [done|]. rewrite trans_of_with.
    destruct (decide (t' = t)) as [->|]; [rewrite lookup_insert_eq; eauto|].
    by rewrite lookup_insert_ne.
  - by apply registry_enter.
  - by apply registry_enter.
  - exfalso. destruct Hdrop as [Hnone|[old Hold]]; [done|].
    rewrite (fresh_not_stored c t sid Hreg Hfresh) in Hold. done.
  - destruct (reg_number c Hreg sid m Hm) as (t & ts & -> & Ht). rewrite map_fmap_singleton in *.
    split; [done|..].
    + intros sid' m'. rewrite subs_of_with, trans_of_with, lookup_insert_Some.
      intros [[<- <-]|[_ Hm']]; [by exists t, ts'|by apply (reg_number c Hreg sid')].
    + assert (∀ sid' k, is_Some (default ∅ (<[sid := {[Itoa t := ts']}]> (subs_of c) !! sid') !! k) →
        is_Some (default ∅ (subs_of c !! sid') !! k)) as Hkeys.
      { intros sid' k. destruct (decide (sid' = sid)) as [->|]; [|by rewrite lookup_insert_ne].
        rewrite lookup_insert_eq, Hm. simpl. intros [v [<- _]%lookup_singleton_Some].
        rewrite lookup_singleton_eq. eauto. }
      intros sid1 sid2 m1 m2 k. rewrite subs_of_with. intros H1 H2 Hk1 Hk2.
      pose proof (Hkeys sid1 k) as K1. pose proof (Hkeys sid2 k) as K2.
      rewrite H1 in K1. rewrite H2 in K2. specialize (K1 Hk1). specialize (K2 Hk2).
      destruct (subs_of c !! sid1) as [n1|] eqn:E1; [|destruct K1; done].
      destruct (subs_of c !! sid2) as [n2|] eqn:E2; [|destruct K2; done].
      by eapply (reg_distinct c Hreg).
  - destruct (reg_number c Hreg sid m Hm) as (t & ts & -> & Ht). split; [done|..].
    + intros sid' m'. rewrite subs_of_with, trans_of_with, lookup_delete_Some.
      intros [Hne Hm']. destruct (reg_number c Hreg sid' m' Hm') as (t' & ts' & -> & Ht').
      exists t', ts'. split; [done|]. rewrite freed_lookup by (by apply Hwf).
      rewrite lookup_delete_ne; [done|]. intros ->. apply Hne.
      eapply (reg_distinct c Hreg sid sid' _ _ (Itoa t')); [done|done| |];
        rewrite lookup_singleton_eq; eauto.
    + intros sid1 sid2 m1 m2 k. rewrite subs_of_with, !lookup_delete_Some.
      intros [_ H1] [_ H2]. by eapply (reg_distinct c Hreg).
Qed.

Section life.
Context {N : Type} `{Network N, Jwt, AfEnv}.
Implicit Types (s : afState N).

Lemma started_registry cf : af_registry (started_context cf).
Proof.
  assert (trans_of (started_context cf) = ∅) as Ht by done.
  assert (subs_of (started_context cf) = ∅) as Hs by done. split.
  - split; [by split; eauto|]. intros k [v Hv]. by rewrite Ht, lookup_empty in Hv.
  - intros sid m Hm. by rewrite Hs, lookup_empty in Hm.
  - intros sid1 sid2 m1 m2 k Hm. by rewrite Hs, lookup_empty in Hm.
Qed.

(** A notification with a number in use is accepted. *)
Lemma notify_accepted s en t :
  is_Some (trans_of (af_ctx s) !! t) → 1 ≤ t ≤ TransIDMax → en_AFTransID en = Itoa t →
  ∃ w, NotificationPost "" (BodyOf en) new_writer s = (Ret w, s) ∧ status_of w = 200 ∧
    rw_body w = [].
Proof.
  intros [v Hv] Ht Hen. unfold NotificationPost. go_run. rewrite Hen. unfold verifyAFTransID.
  assert (str_empty (Itoa t) = false) as ->.
  { unfold str_empty. apply bool_decide_eq_false_2, Itoa_nonempty. }
  rewrite Atoi_Itoa by (by apply number_in_int). rewrite Hv. eexists. by split.
Qed.

(** The state [runServer] leaves. *)
Lemma af_start_ctx cf s : af_ctx (exec (af_start cf) s) = started_context cf.
Proof.
  unfold af_start, exec. go_run. destruct (cli_OAuth2Support _); [|done].
  rewrite keeps_ctx; [done|]. apply keeps_ctx_bind; [apply keeps_fetch_token|].
  intros err P. apply preserves_ret.
Qed.

Lemma af_reach_ready cf ok s s0 :
  af_reach ok (exec (af_start cf) s0) s → ready (af_ctx s).
Proof.
  induction 1 as [|s n _ IH|s r s' _ IH _ Hstep]; [|done|].
  - rewrite af_start_ctx. apply started_registry.
  - destruct Hstep as [E r]. eapply af_ready_effect; [done|]. by apply af_serve_effect.
Qed.

Lemma af_reach_registry cf s s0 :
  af_reach put_has_events (exec (af_start cf) s0) s → af_registry (af_ctx s).
Proof.
  induction 1 as [|s n _ IH|s r s' _ IH Hr Hstep]; [|done|].
  - rewrite af_start_ctx. apply started_registry.
  - destruct Hstep as [E r]. eapply af_registry_effect; [done|done|].
    apply af_serve_effect. by apply reg_ready.
Qed.
End life.

(** ** The links in the AF's PFD responses

    The NEF's links have the form [pre transactions/tid] and
    [pre transactions/tid/applications/app].  The AF replaces everything before
    [transactions] by its own prefix and keeps the identifiers. *)
Module AfLinks.

(** ** The NEF's links and the AF's *)

Definition nef_trans_link (pre tid : string) : string := pre +:+ "transactions/" +:+ tid.
Definition nef_app_link (pre tid app : string) : string :=
  nef_trans_link pre tid +:+ "/applications/" +:+ app.
Definition af_trans_link (cf : Config) (tid : string) : string :=
  af_pfd_prefix cf +:+ "transactions/" +:+ tid.
Definition af_app_link (cf : Config) (tid app : string) : string :=
  af_trans_link cf tid +:+ "/applications/" +:+ app.

(** A prefix and an identifier that the splitting of links cannot confuse. *)
Record link_parts (pre tid : string) : Prop := {
  lp_pre : first_sep pre "transactions";
  lp_slash : has_char "/" tid = false;
  lp_tid : ¬ contains tid "transactions";
}.

Lemma slash_not_in_word tid word :
  has_char "/" word = false → word ≠ "" → ¬ contains tid word → ¬ contains ("/" +:+ tid) word.
Proof.
  intros Hw Hne Hno (a & b & Hab). destruct a as [|c a].
  - destruct word as [|c word]; [done|]. change (String "/" tid = String c (word +:+ b)) in Hab.
    injection Hab as <- _. unfold has_char in Hw. done.
  - change (String "/" tid = String c (a +:+ word +:+ b)) in Hab. injection Hab as _ Hab.
    apply Hno. by exists a, b.
Qed.

Lemma split_slash tid rest :
  has_char "/" tid = false →
  ∃ l, strings_Split ("/" +:+ tid +:+ rest) "/" = "" :: l ∧
    (rest = "" → l = [tid]) ∧ (∀ r, rest = "/" +:+ r → ∃ l', l = tid :: l').
Proof.
  intros Htid. exists (strings_Split (tid +:+ rest) "/"). split_and!.
  - apply (strings_Split_first "" "/" (tid +:+ rest)). exists "", "/"%char. split; [done|].
    intros (a & b & Hab). by destruct a.
  - intros ->. rewrite str_app_nil_r. apply strings_Split_single; [done|].
    by apply (not_contains_char "/").
  - intros r ->. eexists. apply (strings_Split_first tid "/" r). exists "", "/"%char.
    split; [done|]. rewrite str_app_nil_r. by apply (not_contains_char "/").
Qed.

Lemma str_empty_app a b : a ≠ "" → str_empty (a +:+ b) = false.
Proof. intros Ha. unfold str_empty. apply bool_decide_eq_false_2. by destruct a. Qed.

(** ** Words between slashes *)

Lemma prefix_before_char c w r x y :
  has_char c w = false → x +:+ String c y = w +:+ r → ∃ v, x = w +:+ v.
Proof.
  revert x. induction w as [|d w IH]; intros x Hw Heq; [by exists x|].
  unfold has_char in *. cbn in Hw. apply orb_false_iff in Hw as [Hd Hw].
  destruct x as [|e x].
  - change (String c y = String d (w +:+ r)) in Heq. injection Heq as -> _.
    by rewrite Ascii.eqb_refl in Hd.
  - change (String e (x +:+ String c y) = String d (w +:+ r)) in Heq. injection Heq as -> Heq.
    destruct (IH x Hw Heq) as [v ->]. by exists v.
Qed.

(** A word without slashes occurs before or behind a slash. *)
Lemma contains_at_char c a b w :
  has_char c w = false → w ≠ "" → contains (a +:+ String c b) w → contains a w ∨ contains b w.
Proof.
  intros Hw Hne (l & r & Heq). revert l Heq. induction a as [|d a IH]; intros l Heq.
  - right. change (String c b = l +:+ w +:+ r) in Heq. destruct l as [|e l].
    + destruct w as [|e w]; [done|]. change (String c b = String e (w +:+ r)) in Heq.
      injection Heq as -> _. unfold has_char in Hw. cbn in Hw. by rewrite Ascii.eqb_refl in Hw.
    + change (String c b = String e (l +:+ w +:+ r)) in Heq. injection Heq as _ ->. by exists l, r.
  - destruct l as [|e l].
    + left. change (String d a +:+ String c b = w +:+ r) in Heq.
      apply (prefix_before_char c) in Heq as [v ->]; [|done]. by exists "", v.
    + change (String d (a +:+ String c b) = String e (l +:+ w +:+ r)) in Heq.
      injection Heq as -> Heq. destruct (IH l Heq) as [(x & y & ->)|Hb]; [|by right].
      left. by exists (String e x), y.
Qed.

Lemma not_contains_slash a b w :
  has_char "/" w = false → w ≠ "" → ¬ contains a w → ¬ contains b w →
  ¬ contains (a +:+ "/" +:+ b) w.
Proof. intros Hw Hne Ha Hb [?|?]%(contains_at_char "/"); done. Qed.

(** ** Single links *)

Lemma trans_link_split pre tid rest :
  first_sep pre "transactions" →
  strings_Split (nef_trans_link pre tid +:+ rest) "transactions"
  = pre :: strings_Split ("/" +:+ tid +:+ rest) "transactions".
Proof.
  intros Hpre. unfold nef_trans_link.
  rewrite <- (strings_Split_first pre "transactions" ("/" +:+ tid +:+ rest)) by done.
  by rewrite !str_app_assoc.
Qed.

Lemma nef_link_nonempty pre tid rest : str_empty (nef_trans_link pre tid +:+ rest) = false.
Proof. apply str_empty_app. unfold nef_trans_link. by destruct pre. Qed.

Lemma updateSelfLink_exact cf m pre tid :
  link_parts pre tid → pman_Self m = nef_trans_link pre tid →
  updateSelfLink cf m = Ret (af_trans_link cf tid, nil_err).
Proof.
  intros [Hpre Hslash Htid] Hself. unfold updateSelfLink. rewrite Hself.
  rewrite <- (str_app_nil_r (nef_trans_link pre tid)), nef_link_nonempty.
  rewrite trans_link_split by done. rewrite !str_app_nil_r.
  rewrite strings_Split_single by (done || by apply slash_not_in_word).
  unfold index_at; cbn [list_lookup lookup outcome_bind].
  destruct (split_slash tid "" Hslash) as (l & Hl & Hone & _).
  rewrite str_app_nil_r in Hl. rewrite Hl, (Hone eq_refl). done.
Qed.

Lemma updatePfdURL_exact cf pre tid :
  link_parts pre tid → updatePfdURL cf (nef_trans_link pre tid) = Ret (af_trans_link cf tid).
Proof.
  intros [Hpre Hslash Htid]. unfold updatePfdURL.
  rewrite <- (str_app_nil_r (nef_trans_link pre tid)), trans_link_split by done.
  rewrite !str_app_nil_r, strings_Split_single by (done || by apply slash_not_in_word).
  done.
Qed.

(** What follows the first [applications] is kept up to the next one. *)
Lemma updateAppLink_run cf d pre tid app :
  link_parts pre tid → pdata_Self d = nef_app_link pre tid app →
  first_sep (nef_trans_link pre tid +:+ "/") "applications" →
  ¬ contains ("/" +:+ tid +:+ "/applications/" +:+ app) "transactions" →
  ∃ app1 l, strings_Split ("/" +:+ app) "applications" = app1 :: l ∧
    updateAppLink cf d = Ret (af_trans_link cf tid +:+ "/applications" +:+ app1, nil_err).
Proof.
  intros [Hpre Hslash Htid] Hself Happ Hno. unfold updateAppLink. rewrite Hself.
  unfold nef_app_link. rewrite nef_link_nonempty.
  rewrite trans_link_split, (strings_Split_single ("/" +:+ tid +:+ _)) by done.
  unfold index_at; cbn [list_lookup lookup outcome_bind].
  destruct (split_slash tid ("/applications/" +:+ app) Hslash) as (l & Hl & _ & Hmore).
  destruct (Hmore ("applications/" +:+ app) eq_refl) as [l' ->]. rewrite Hl.
  cbn [list_lookup lookup outcome_bind].
  assert (nef_trans_link pre tid +:+ "/applications/" +:+ app =
    (nef_trans_link pre tid +:+ "/") +:+ "applications" +:+ "/" +:+ app) as ->
    by (by rewrite !str_app_assoc).
  rewrite strings_Split_first by done.
  destruct (strings_Split ("/" +:+ app) "applications") as [|app1 l2] eqn:Hsp.
  { exfalso. unfold strings_Split in Hsp. destruct (split_at_single
      (S (String.length ("/" +:+ app))) "applications" ("/" +:+ app) "") as [[E _]|[(?&?&?&E) _]];
      [lia|done|congruence..]. }
  exists app1, l2. split; [done|]. cbn [list_lookup lookup outcome_bind].
  unfold af_trans_link. by rewrite !str_app_assoc.
Qed.

(** An application whose name the splitting cannot confuse. *)
Record app_link_parts (pre tid app : string) : Prop := {
  al_first : first_sep (nef_trans_link pre tid +:+ "/") "applications";
  al_trans : ¬ contains ("/" +:+ tid +:+ "/applications/" +:+ app) "transactions";
  al_app : ¬ contains app "applications";
}.

Lemma updateAppLink_exact cf d pre tid app :
  link_parts pre tid → app_link_parts pre tid app → pdata_Self d = nef_app_link pre tid app →
  updateAppLink cf d = Ret (af_app_link cf tid app, nil_err).
Proof.
  intros Hl [Hf Ht Happ] Hself.
  destruct (updateAppLink_run cf d pre tid app Hl Hself Hf Ht) as (app1 & l & Hsp & ->).
  rewrite strings_Split_single in Hsp by (done || by apply slash_not_in_word).
  injection Hsp as <- _. done.
Qed.

(** ** All the links of a transaction *)

(** The links of a transaction as the NEF writes them. *)
Record nef_links (pre tid : string) (m : PfdManagement) : Prop := {
  nl_parts : link_parts pre tid;
  nl_self : pman_Self m = nef_trans_link pre tid;
  nl_apps : ∀ a d, pman_PfdDatas m !! a = Some d →
    app_link_parts pre tid a ∧ pdata_Self d = nef_app_link pre tid a;
}.

(** The transaction with the AF's links. *)
Definition with_af_links (cf : Config) (tid : string) (m : PfdManagement) : PfdManagement :=
  pman_set_PfdDatas (map_imap (λ a d, Some (pdata_set_Self (af_app_link cf tid a) d))
                       (pman_PfdDatas m))
    (pman_set_Self (af_trans_link cf tid) m).

Lemma updateAppsLink_exact `{GoEnv} cf m pre tid self :
  nef_links pre tid m →
  updateAppsLink cf (pman_set_Self self m)
  = Ret (map_imap (λ a d, Some (pdata_set_Self (af_app_link cf tid a) d)) (pman_PfdDatas m),
         nil_err).
Proof.
  intros [Hl _ Happs]. unfold updateAppsLink. cbn [pman_PfdDatas pman_set_Self].
  rewrite (loop_acc_fold _ _ (λ acc kv,
    <[kv.1 := pdata_set_Self (af_app_link cf tid kv.1) kv.2]> acc)).
  - by rewrite (range_update _ (λ a d, pdata_set_Self (af_app_link cf tid a) d)).
  - intros [a d] acc Had. apply elem_of_map_range in Had. destruct (Happs a d Had) as [Hp Hself].
    cbn [fst snd]. by rewrite (updateAppLink_exact cf d pre tid a).
Qed.

Section handlers.
Context {N : Type} `{Network N, Jwt, AfEnv}.
Implicit Types (s : afState N).

Lemma update_links_exact `{GoEnv} m pre tid s :
  nef_links pre tid m →
  update_links m s = (Ret (inl (with_af_links (af_cfg (af_ctx s)) tid m)), s).
Proof.
  intros Hl. unfold update_links. go_run.
  rewrite (updateSelfLink_exact _ m pre tid) by apply Hl. cbn [lift_outcome]. go_run.
  by rewrite (updateAppsLink_exact _ m pre tid).
Qed.
End handlers.
End AfLinks.
