(* ===== verification/AfNef.v ===== *)
(** * The AF in front of the NEF

    The NEF as the network of the AF: a request of the AF's client whose URL
    has the NEF's scheme and authority is matched by mux, passes the token
    check and is served by the NEF's handler; its answer, encoded as JSON, is
    the response.  The matching of paths is a parameter ([NefMux]) with its
    documented behaviour as laws.  The rest of the file follows requests
    through both programs. *)

From S2P Require Import NefJson.
From S2P Require Import Prelude Strconv OAuth2 Http NefModel NefSouth NefCore NefTi NefPfd.
From S2P Require Import NefPfdApi NefSpec NefTiFacts NefInv NefSouthInv NefRouter.
From S2P Require Import NefService NefTiProps Json JsonWire AfWire AfModel AfCommon AfRegistry.
From S2P Require Import AfClient AfTi AfPfd AfRouter.
From stdpp Require Import prelude gmap strings.
From Stdlib Require Import ZArith Ascii.

Import NefScenario.
Local Open Scope Z_scope.

(** ** Matching of paths *)

(** The patterns of the NEF's routes, with the values of their variables. *)
Inductive nefTarget :=
| TgSubs (af : string)
| TgSub (af sub : string)
| TgTrans (af : string)
| TgTran (af tid : string)
| TgApp (af tid app : string).

(** A value that a variable of a pattern matches: not empty, without slashes. *)
Definition segment (s : string) : bool :=
  negb (str_empty s) &&
  all_chars (λ c, is_alnum c || bool_decide (c ∈ ["-"; "_"]%char)) s.

Class NefMux := nef_match : string → option nefTarget.

Definition ti_route : string := "/3gpp-traffic-influence/v1/".
Definition pfd_route : string := "/3gpp-pfd-management/v1/".

(** A path built from a pattern and values for its variables is matched. *)
Class NefMuxLaws `{NefMux} : Prop := {
  match_subs : ∀ af, segment af = true →
    nef_match (ti_route +:+ af +:+ "/subscriptions") = Some (TgSubs af);
  match_sub : ∀ af sub, segment af = true → segment sub = true →
    nef_match (ti_route +:+ af +:+ "/subscriptions/" +:+ sub) = Some (TgSub af sub);
  match_trans : ∀ af, segment af = true →
    nef_match (pfd_route +:+ af +:+ "/transactions") = Some (TgTrans af);
  match_tran : ∀ af tid, segment af = true → segment tid = true →
    nef_match (pfd_route +:+ af +:+ "/transactions/" +:+ tid) = Some (TgTran af tid);
  match_app : ∀ af tid app, segment af = true → segment tid = true → segment app = true →
    nef_match (pfd_route +:+ af +:+ "/transactions/" +:+ tid +:+ "/applications/" +:+ app)
    = Some (TgApp af tid app);
}.

(** What the NEF's decoder makes of a body. *)
Definition body_as {A} `{Json A} (body : option json) : Body A :=
  match body with
  | None => BodyBadJSON
  | Some j => match of_json j with Some a => BodyOf a | None => BodyBadJSON end
  end.

(** The request of the route with the method and the pattern. *)
Definition nef_request (method : string) (t : nefTarget) (body : option json)
    : option nefRequest :=
  match t with
  | TgSubs af =>
      if bool_decide (method = "GET") then Some (ReqTiReadAll af)
      else if bool_decide (method = "POST") then Some (ReqTiCreate af (body_as body))
      else None
  | TgSub af sub =>
      if bool_decide (method = "GET") then Some (ReqTiRead af sub)
      else if bool_decide (method = "PUT") then Some (ReqTiPut af sub (body_as body))
      else if bool_decide (method = "PATCH") then Some (ReqTiPatch af sub (body_as body))
      else if bool_decide (method = "DELETE") then Some (ReqTiDelete af sub)
      else None
  | TgTrans af =>
      if bool_decide (method = "GET") then Some (ReqPfdReadAll af)
      else if bool_decide (method = "POST") then Some (ReqPfdCreate af (body_as body))
      else None
  | TgTran af tid =>
      if bool_decide (method = "GET") then Some (ReqPfdRead af tid)
      else if bool_decide (method = "PUT") then Some (ReqPfdPut af tid (body_as body))
      else if bool_decide (method = "DELETE") then Some (ReqPfdDelete af tid)
      else None
  | TgApp af tid app =>
      if bool_decide (method = "GET") then Some (ReqAppRead af tid app)
      else if bool_decide (method = "DELETE") then Some (ReqAppDelete af tid app)
      else if bool_decide (method = "PUT") then Some (ReqAppPut af tid app (body_as body))
      else if bool_decide (method = "PATCH") then Some (ReqAppPatch af tid app (body_as body))
      else None
  end.

(** ** The NEF's answers *)

Definition payload_json (p : nefPayload) : json :=
  match p with
  | PayProblem p => to_json p
  | PayTi t => to_json t
  | PayTis l => to_json l
  | PayPfdm m => to_json m
  | PayPfdms l => to_json l
  | PayPfdd d => to_json d
  | PayReport r => to_json r
  | PayReports l => to_json l
  end.

(** The bytes of a body: one document, or something that is not one. *)
Definition body_text (l : list nefPayload) : text :=
  match l with [p] => JsonText (payload_json p) | _ => NotJson end.

(** The response; of its status line only the number is used. *)
Definition response_of (url : string) (w : ResponseWriter nefPayload) : httpResponse :=
  mkHttpResponse (Itoa (status_of w)) (status_of w) (default "" (header_of w !! "Location"))
    url (Some (body_text (rw_body w))).

Section network.
Context {P U D : Type}
  `{PcfPolicyAuthorization P, UdrInfluenceData U, UdrPfdData D, NefHooks, GoEnv, Jwt, NefMux}.

(** The NEF, the clock and the file with the key of the tokens, which both
    programs read. *)
Record nefNet := mkNefNet {
  nn_ctx : nefContext P U D;
  nn_clock : Z;
  nn_file : OAuth2Config + string;
}.

Definition nn_set_ctx (c : nefContext P U D) (n : nefNet) : nefNet :=
  mkNefNet c (nn_clock n) (nn_file n).

(** The handler of a matched request, behind the token check; a panic closes
    the connection. *)
Definition nef_answer (url path auth : string) (r : nefRequest) (n : nefNet)
    : (option httpResponse * error) * nefNet :=
  match nef_middleware (nn_clock n) (nn_file n) (mkAuthHeader auth path) r new_writer
          (nn_ctx n) with
  | (Ret w, c') => ((Some (response_of url w), nil_err), nn_set_ctx c' n)
  | (Panic _, c') => ((None, errors_New "EOF"), nn_set_ctx c' n)
  end.

Definition nef_Do (rq : httpRequest) (n : nefNet) : (option httpResponse * error) * nefNet :=
  match Strconv.strip_prefix (nef_base_url (cfg (nn_ctx n))) (rq_URL rq) with
  | None => ((None, errors_New "connection refused"), n)
  | Some path =>
      match nef_match path ≫= (λ t, nef_request (rq_Method rq) t (rq_Body rq)) with
      | None =>
          ((Some (mkHttpResponse "404" 404 "" (rq_URL rq) (Some NotJson)), nil_err), n)
      | Some r =>
          nef_answer (rq_URL rq) path (default "" (rq_Header rq !! "Authorization")) r n
      end
  end.

#[export] Instance nef_network : Network nefNet := {|
  http_Do := nef_Do;
  clock := nn_clock;
  oauth2_file := nn_file;
|}.
End network.
Arguments nefNet P U D : clear implicits.
Arguments mkNefNet {P U D} _ _ _.
Arguments nn_ctx {P U D} _.
Arguments nn_clock {P U D} _.
Arguments nn_file {P U D} _.
Arguments nn_set_ctx {P U D} _ _.

(** ** The NEF's client of the AF (nef_af_notif_client.go) *)

Section notifications.
Context {N : Type} `{AfEnv, Network N}.

(** The scheme of a parsed URL. *)
Definition url_Scheme (u : string) : string := (break_at ":" u).1.

Definition notify_headers : gmap string string :=
  <["Content-Type" := "application/json"]> {[ "User-Agent" := "NEF-OPENNESS-1912" ]}.

(** The request is sent and its response read. *)
Definition post_event (afURI : string) (body : NefModel.EventNotification) : GoM N error := λ n,
  match http_Do (mkHttpRequest "POST" afURI notify_headers (Some (to_json body))) n with
  | ((_, Some e), n') => (Ret (Some e), n')
  | ((None, None), n') => (Panic "nil pointer dereference", n')
  | ((Some resp, None), n') =>
      (Ret (match rs_Body resp with Some _ => None | None => errors_New "unexpected EOF" end), n')
  end.

(** [AfNotificationUpfEvent]; [readCert] is what reading the file with the
    certificate of the AF yields. *)
Definition AfNotificationUpfEvent (readCert : string + string) (afURI : string)
    (body : NefModel.EventNotification) : GoM N error :=
  match url_Parse afURI with
  | None => mret (errors_New "parse error")
  | Some u =>
      if bool_decide (url_Scheme u = "https")
      then match readCert with
           | inr e => mret (Some e)
           | inl _ => post_event afURI body
           end
      else if bool_decide (url_Scheme u = "http") then post_event afURI body
      else mret (errors_New "Unsupported url scheme")
  end.

(** What the handler does with the notification that it made: an error is only
    logged. *)
Definition send_notification (readCert : string + string)
    (out : option (string * NefModel.EventNotification)) : GoM N unit :=
  match out with
  | None => mret tt
  | Some (afURL, ev) => AfNotificationUpfEvent readCert afURL ev ;; mret tt
  end.

(** A destination without encryption gets the event in one request, and the
    error is that of the exchange. *)
Lemma notification_posted readCert rest ev n :
  plain_url ("http://" +:+ rest) = true →
  AfNotificationUpfEvent readCert ("http://" +:+ rest) ev n = post_event ("http://" +:+ rest) ev n.
Proof. intros Hu. unfold AfNotificationUpfEvent, url_Parse. by rewrite Hu. Qed.

(** So does an encrypted one, if the certificate can be read; if not, nothing is
    sent. *)
Lemma notification_posted_tls readCert rest ev n :
  plain_url ("https://" +:+ rest) = true →
  AfNotificationUpfEvent readCert ("https://" +:+ rest) ev n =
  match readCert with inl _ => post_event ("https://" +:+ rest) ev n | inr e => (Ret (Some e), n) end.
Proof. intros Hu. unfold AfNotificationUpfEvent, url_Parse. rewrite Hu. by destruct readCert. Qed.

(** Other destinations are refused without sending. *)
Lemma notification_refused readCert afURI ev n u :
  url_Parse afURI = Some u → url_Scheme u ≠ "http" → url_Scheme u ≠ "https" →
  AfNotificationUpfEvent readCert afURI ev n = (Ret (Some "Unsupported url scheme"), n).
Proof.
  intros Hu H1 H2. unfold AfNotificationUpfEvent. rewrite Hu. by rewrite !bool_decide_eq_false_2.
Qed.
End notifications.

(** ** Configurations that fit *)

(** The host and port of the NEF. *)
Definition nef_authority (cf : NefModel.Config) : string :=
  if str_empty (h2_Endpoint (HTTP2Config cf))
  then NefAPIRoot cf +:+ HTTPConfig_Endpoint cf
  else NefAPIRoot cf +:+ h2_Endpoint (HTTP2Config cf).

(** The client's URLs are the NEF's, the NEF's prefix is that of its routes,
    and no part of the URL before the identifiers contains a word at which the
    AF splits it. *)
Record configs_fit (cf : Config) (ncf : NefModel.Config) : Prop := {
  fit_ti : ti_base (CliCfg cf) = nef_base_url ncf +:+ "/3gpp-traffic-influence/v1";
  fit_prefix : NefModel.LocationPrefix ncf = ti_route;
  fit_authority : plain_authority (nef_authority ncf) = true;
  fit_id : segment (AfID cf) = true;
  fit_word : first_sep (nef_base_url ncf +:+ ti_route +:+ AfID cf +:+ "/") "subscriptions";
  fit_oauth : cli_OAuth2Support (CliCfg cf) = NefModel.OAuth2Support ncf;
}.

(** * Requests of the AF as the NEF receives them

    The URLs the client builds are matched by the NEF's routes, and a request
    with an accepted token is served by the handler of its route. *)

(** ** URLs *)

Lemma break_at_char c a b :
  has_char c a = false → break_at c (a +:+ String c b) = (a, String c b).
Proof.
  induction a as [|d a IH].
  { intros _. change ("" +:+ String c b) with (String c b). cbn. by rewrite Ascii.eqb_refl. }
  change (String d a +:+ String c b) with (String d (a +:+ String c b)).
  unfold has_char in *. cbn. intros [Hd Ha]%orb_false_iff.
  rewrite (IH Ha). by rewrite Ascii.eqb_sym, Hd.
Qed.

Lemma break_at_app c s : let '(l, r) := break_at c s in s = l +:+ r.
Proof.
  induction s as [|a s IH]; cbn; [done|]. destruct (Ascii.eqb a c); [done|].
  destruct (break_at c s) as [l r]. change (String a s = String a (l +:+ r)). by rewrite IH.
Qed.

Definition authority_char (c : ascii) : bool :=
  is_alnum c || bool_decide (c ∈ ["-"; "."; ":"]%char).

Lemma break_at_rest c s : ∀ a r, (break_at c s).2 = String a r → a = c.
Proof.
  induction s as [|b s IH]; cbn; [done|]. intros a r.
  destruct (Ascii.eqb_spec b c) as [->|]; [by intros [= -> _]|].
  destruct (break_at c s) as [l' r']. apply IH.
Qed.

(** The characters of a host and port. *)
Lemma plain_authority_chars s : plain_authority s = true → all_chars authority_char s = true.
Proof.
  unfold plain_authority. pose proof (break_at_app ":" s) as Hs.
  pose proof (break_at_rest ":" s) as Hc.
  destruct (break_at ":" s) as [host port]. rewrite Hs. cbn [snd] in Hc.
  intros [[_ Hh]%andb_prop Hp]%andb_prop. rewrite all_chars_app. apply andb_true_intro. split.
  - eapply all_chars_impl; [|exact Hh]. intros c. unfold authority_char.
    destruct (is_alnum c); [done|]. simpl. rewrite !bool_decide_eq_true. set_solver.
  - destruct port as [|c port]; [done|]. specialize (Hc c port eq_refl) as ->.
    unfold all_chars in *. cbn. eapply (all_chars_impl is_digit); [|exact Hp].
    intros c Hd. unfold authority_char, is_alnum, is_digit in *.
    apply bool_decide_eq_true in Hd. rewrite bool_decide_eq_true_2 by tauto. done.
Qed.

Lemma authority_no_char s c :
  plain_authority s = true → authority_char c = false → has_char c s = false.
Proof. intros Hs. eapply has_char_all. by apply plain_authority_chars. Qed.

Lemma nef_base_url_eq ncf :
  ∃ scheme, nef_base_url ncf = scheme +:+ nef_authority ncf ∧
    (scheme = "http://" ∨ scheme = "https://").
Proof.
  unfold nef_base_url, nef_authority. destruct (str_empty _); eexists; split; eauto.
Qed.

(** A URL of the NEF with a plain path is plain. *)
Lemma plain_nef_url ncf path :
  plain_authority (nef_authority ncf) = true → plain_path ("/" +:+ path) = true →
  plain_url (nef_base_url ncf +:+ "/" +:+ path) = true.
Proof.
  intros Ha Hp. destruct (nef_base_url_eq ncf) as (scheme & -> & Hs). unfold plain_url.
  assert (match Strconv.strip_prefix "https://" ((scheme +:+ nef_authority ncf) +:+ "/" +:+ path) with
    | Some r => Some r
    | None => Strconv.strip_prefix "http://" ((scheme +:+ nef_authority ncf) +:+ "/" +:+ path)
    end = Some (nef_authority ncf +:+ "/" +:+ path)) as ->.
  { rewrite str_app_assoc. destruct Hs as [-> | ->]; [done|].
    by rewrite (proj2 (strip_prefix_Some "https://" _ _) eq_refl). }
  change ("/" +:+ path) with (String "/" path).
  rewrite break_at_char by (by apply authority_no_char). by rewrite Ha.
Qed.

Lemma plain_path_app a b : plain_path (a +:+ b) = plain_path a && plain_path b.
Proof. apply all_chars_app. Qed.

Lemma segment_chars s :
  segment s = true → plain_path s = true ∧ has_char "/" s = false ∧ s ≠ "".
Proof.
  unfold segment, str_empty. intros [Hne Hc]%andb_prop. split_and!.
  - eapply all_chars_impl; [|exact Hc]. intros c.
    cbv beta. destruct (is_alnum c); [done|]. cbn [orb]. rewrite !bool_decide_eq_true. set_solver.
  - eapply has_char_all; [exact Hc|done].
  - intros ->. done.
Qed.

Lemma segment_Itoa z : segment (Itoa z) = true.
Proof.
  unfold segment. apply andb_true_intro. split.
  - unfold str_empty. rewrite bool_decide_eq_false_2; [done|]. apply Itoa_nonempty.
  - apply Itoa_chars; [|done]. intros c Hd. unfold is_alnum, is_digit in *.
    apply bool_decide_eq_true in Hd. rewrite bool_decide_eq_true_2 by tauto. done.
Qed.

(** ** Replacing the variables of a path *)

Lemma replace_var a v x b :
  (∃ i, v = i +:+ "}" ∧ has_char "}" i = false) →
  has_char "}" a = false → ¬ contains b v →
  strings_ReplaceAll (a +:+ v +:+ b) v x = a +:+ x +:+ b.
Proof.
  intros (i & -> & Hi) Ha Hb. unfold strings_ReplaceAll. rewrite strings_Split_first.
  - rewrite strings_Split_single; [done|by destruct i|done].
  - exists i, "}"%char. split; [done|]. apply (not_contains_char "}").
    + rewrite has_char_app. by rewrite orb_true_r.
    + rewrite has_char_app. by rewrite Ha, Hi.
Qed.

(** The identifier in the URL of a subscription. *)
Lemma subs_id_split pre sid :
  first_sep pre "subscriptions" → segment sid = true → ¬ contains sid "subscriptions" →
  getSubsIDFromURL (Some (pre +:+ "subscriptions" +:+ "/" +:+ sid)) = (sid, nil_err).
Proof.
  intros Hpre Hsid Hno. destruct (segment_chars _ Hsid) as (_ & Hslash & _).
  unfold getSubsIDFromURL. rewrite strings_Split_first by done.
  assert (¬ contains ("/" +:+ sid) "subscriptions") as Hno'.
  { intros (a & b & Hab). destruct a as [|c a]; [done|].
    change (String "/" sid = String c (a +:+ "subscriptions" +:+ b)) in Hab.
    injection Hab as _ Hab. apply Hno. by exists a, b. }
  rewrite strings_Split_single by done. unfold strings_ReplaceAll.
  rewrite strings_Split_after by (done || by apply (not_contains_char "/")).
  done.
Qed.

Section urls.
Context (cf : Config) (ncf : NefModel.Config) (Hfit : configs_fit cf ncf).

Lemma fit_no_brace : has_char "}" (nef_base_url ncf +:+ "/3gpp-traffic-influence/v1/") = false.
Proof.
  destruct (nef_base_url_eq ncf) as (scheme & -> & Hs). rewrite !has_char_app.
  rewrite (authority_no_char (nef_authority ncf) "}") by (done || apply Hfit).
  by destruct Hs as [-> | ->].
Qed.

Lemma ti_path_eq :
  ti_path (CliCfg cf) (AfID cf) = nef_base_url ncf +:+ ti_route +:+ AfID cf +:+ "/subscriptions".
Proof.
  unfold ti_path. rewrite (fit_ti _ _ Hfit).
  assert ((nef_base_url ncf +:+ "/3gpp-traffic-influence/v1") +:+ "/{afId}/subscriptions"
    = (nef_base_url ncf +:+ "/3gpp-traffic-influence/v1/") +:+ "{afId}" +:+ "/subscriptions") as ->
    by (by rewrite !str_app_assoc).
  rewrite replace_var; [by rewrite str_app_assoc| |apply fit_no_brace|].
  - by exists "{afId".
  - by apply (not_contains_char "}").
Qed.

(** The URL of a subscription, and the identifier that is read from it. *)
Definition sub_url (sid : string) : string :=
  (nef_base_url ncf +:+ ti_route) +:+ AfID cf +:+ "/subscriptions/" +:+ sid.

Lemma ti_sub_path_eq sid :
  segment sid = true → ti_sub_path (CliCfg cf) (AfID cf) sid = sub_url sid.
Proof.
  intros Hsid. unfold ti_sub_path. rewrite (fit_ti _ _ Hfit).
  destruct (segment_chars _ (fit_id _ _ Hfit)) as (Hplain & _ & _).
  assert ((nef_base_url ncf +:+ "/3gpp-traffic-influence/v1")
      +:+ "/{afId}/subscriptions/{subscriptionId}"
    = (nef_base_url ncf +:+ "/3gpp-traffic-influence/v1/") +:+ "{afId}" +:+
      "/subscriptions/{subscriptionId}") as -> by (by rewrite !str_app_assoc).
  rewrite (replace_var _ "{afId}"); [|by exists "{afId"|apply fit_no_brace|].
  2: { apply not_contains_split; [done|reflexivity]. }
  assert ((nef_base_url ncf +:+ "/3gpp-traffic-influence/v1/") +:+ AfID cf +:+
      "/subscriptions/{subscriptionId}"
    = ((nef_base_url ncf +:+ "/3gpp-traffic-influence/v1/") +:+ AfID cf +:+ "/subscriptions/") +:+
      "{subscriptionId}" +:+ "") as -> by (by rewrite !str_app_assoc).
  rewrite replace_var.
  - unfold sub_url. by rewrite !str_app_assoc, str_app_nil_r.
  - by exists "{subscriptionId".
  - rewrite !has_char_app. pose proof fit_no_brace as Hb. rewrite has_char_app in Hb. rewrite Hb.
    rewrite (has_char_all _ _ _ Hplain) by done. done.
  - by apply (not_contains_char "}").
Qed.

Lemma ti_url_plain : plain_url (ti_path (CliCfg cf) (AfID cf)) = true.
Proof.
  rewrite ti_path_eq.
  change (ti_route +:+ AfID cf +:+ "/subscriptions")
    with ("/" +:+ ("3gpp-traffic-influence/v1/" +:+ AfID cf +:+ "/subscriptions")).
  apply plain_nef_url; [apply Hfit|]. rewrite !plain_path_app.
  rewrite (proj1 (segment_chars _ (fit_id _ _ Hfit))). done.
Qed.

Lemma sub_url_plain sid : segment sid = true → plain_url (sub_url sid) = true.
Proof.
  intros Hsid. unfold sub_url. rewrite str_app_assoc.
  change (ti_route +:+ AfID cf +:+ "/subscriptions/" +:+ sid)
    with ("/" +:+ ("3gpp-traffic-influence/v1/" +:+ AfID cf +:+ "/subscriptions/" +:+ sid)).
  apply plain_nef_url; [apply Hfit|]. rewrite !plain_path_app.
  rewrite (proj1 (segment_chars _ (fit_id _ _ Hfit))), (proj1 (segment_chars _ Hsid)). done.
Qed.

Lemma sub_url_id sid :
  segment sid = true → ¬ contains sid "subscriptions" →
  getSubsIDFromURL (Some (sub_url sid)) = (sid, nil_err).
Proof.
  intros Hsid Hno. unfold sub_url.
  assert ((nef_base_url ncf +:+ ti_route) +:+ AfID cf +:+ "/subscriptions/" +:+ sid
    = (nef_base_url ncf +:+ ti_route +:+ AfID cf +:+ "/") +:+ "subscriptions" +:+ "/" +:+ sid) as ->
    by (by rewrite !str_app_assoc).
  apply subs_id_split; [apply Hfit|done..].
Qed.
End urls.

Lemma Itoa_no_word z : ¬ contains (Itoa z) "subscriptions".
Proof.
  apply (not_contains_char "s"); [done|].
  apply (has_char_all (λ c, is_digit c || bool_decide (c = "-"%char))); [|done].
  apply Itoa_chars; [|done]. by intros c ->.
Qed.

(** The AF's own URL of a subscription. *)
Definition af_sub_url (sid : string) : string := "/af/v1/subscriptions/" +:+ sid.

Lemma af_sub_url_id z : getSubsIDFromURL (Some (af_sub_url (Itoa z))) = (Itoa z, nil_err).
Proof.
  apply (subs_id_split "/af/v1/"); [|apply segment_Itoa|apply Itoa_no_word].
  exists "subscription", "s"%char. split; [done|]. by apply not_contains_split.
Qed.

(** ** Through the token check *)
Section exchange.
Context {P U D : Type}
  `{PcfPolicyAuthorization P, UdrInfluenceData U, UdrPfdData D, NefHooks, E : GoEnv, Jwt, NefMux,
    AfEnv}.
Implicit Types (n : nefNet P U D) (s : afState (nefNet P U D)).

(** The NEF accepts the token now. *)
Definition admitted (n : nefNet P U D) (tok : string) : Prop :=
  NefModel.OAuth2Support (cfg (nn_ctx n)) = true →
  Forall (λ c, c ≠ " "%char) (String.list_ascii_of_string tok) ∧
  (ValidateAccessToken (nn_clock n) (nn_file n) tok).2 = nil_err.

Lemma middleware_admitted n tok uri r :
  admitted n tok →
  nef_middleware (nn_clock n) (nn_file n) (mkAuthHeader ("Bearer " +:+ tok) uri) r new_writer
    (nn_ctx n) = serve r new_writer (nn_ctx n).
Proof.
  intros Hadm. unfold nef_middleware. go_run.
  destruct (NefModel.OAuth2Support (cfg (nn_ctx n))) eqn:Hon; [|done].
  destruct (Hadm Hon) as [Hns Hval]. unfold nefValidateAccessToken. cbn [Authorization].
  assert (str_empty ("Bearer " +:+ tok) = false) as -> by done.
  rewrite (strings_Split_after tok "Bearer ") by (done || by apply no_space_no_bearer).
  destruct (ValidateAccessToken _ _ tok) as [st err]. simpl in Hval. subst. by destruct st.
Qed.

(** A request of the client that the NEF answers. *)
Lemma exchange_answered cli url path method body t r s w c' :
  let n := net s in
  let auth := if cli_OAuth2Support cli then "Bearer " +:+ nefAccessToken s else "" in
  plain_url url = true → url = nef_base_url (cfg (nn_ctx n)) +:+ path →
  nef_match path = Some t → nef_request method t body = Some r →
  nef_middleware (nn_clock n) (nn_file n) (mkAuthHeader auth path) r new_writer (nn_ctx n)
  = (Ret w, c') →
  exchange cli url method body s
  = (Ret (inl (response_of url w, body_text (rw_body w))), set_net (nn_set_ctx c' n) s).
Proof.
  intros n auth Hplain Hurl Hmatch Hreq Hserve.
  unfold exchange, prepareRequest, url_Parse. rewrite Hplain, Hplain.
  assert (∀ hdr, default "" (hdr !! "Authorization") = auth →
    nef_Do (mkHttpRequest method url hdr body) n
    = ((Some (response_of url w), nil_err), nn_set_ctx c' n)) as Hdo.
  { intros hdr Hh. unfold nef_Do. cbn [rq_URL rq_Method rq_Body rq_Header].
    rewrite (proj2 (strip_prefix_Some (nef_base_url (cfg (nn_ctx n))) url path) Hurl), Hmatch.
    cbn [mbind option_bind]. rewrite Hreq, Hh. unfold nef_answer. by rewrite Hserve. }
  unfold auth in *. destruct (cli_OAuth2Support cli).
  - unfold getNEFAuthorizationToken. go_run. unfold callAPI. go_run.
    cbn [http_Do nef_network]. rewrite Hdo by (by rewrite lookup_insert_eq). by go_run.
  - go_run. unfold callAPI. go_run. cbn [http_Do nef_network]. rewrite Hdo by done. by go_run.
Qed.

(** A request of the client that the NEF serves. *)
Lemma exchange_served cli url path method body t r s w c' :
  let n := net s in
  plain_url url = true → url = nef_base_url (cfg (nn_ctx n)) +:+ path →
  nef_match path = Some t → nef_request method t body = Some r →
  cli_OAuth2Support cli = NefModel.OAuth2Support (cfg (nn_ctx n)) →
  admitted n (nefAccessToken s) → serve r new_writer (nn_ctx n) = (Ret w, c') →
  exchange cli url method body s
  = (Ret (inl (response_of url w, body_text (rw_body w))), set_net (nn_set_ctx c' n) s).
Proof.
  intros n Hplain Hurl Hmatch Hreq Hoa Hadm Hserve.
  eapply exchange_answered; try done. rewrite Hoa.
  destruct (NefModel.OAuth2Support (cfg (nn_ctx n))) eqn:Hon.
  - by rewrite middleware_admitted.
  - unfold nef_middleware. go_run. unfold n in Hon. by rewrite Hon.
Qed.
End exchange.

(** * Subscriptions from end to end: the requests

    What the AF's client gets from the NEF for a creation and a deletion, and
    what the handlers of the AF make of it. *)

(** The numbers of the subscription fit the types of both programs. *)
Definition travels (ts : TrafficInfluSub) : bool :=
  nef_of_af_TrafficInfluSub_ok ts &&
  af_of_nef_TrafficInfluSub_ok (nef_of_af_TrafficInfluSub ts).

Section create.
Context {P U D : Type}
  `{PcfSessions P, UdrAccepts U, UdrPfdData D, NefHooks, E : GoEnv, Jwt, NefMux, !NefMuxLaws, AfEnv}.
Implicit Types (s : afState (nefNet P U D)).

(** What the AF sends for a subscription under the number [t]. *)
Definition sent_sub (cf : Config) (t : Z) (ts : TrafficInfluSub) : TrafficInfluSub :=
  ts_set_Self ("https://" +:+ Hostname (SrvCfg cf) +:+ NotifPort (SrvCfg cf) +:+ DefaultNotifURL)
    (ts_set_AFTransID (Itoa t) ts).

(** The answer to the client's post. *)
Lemma post_served cf s c0 k ts t :
  configs_fit cf (cfg (nn_ctx (net s))) → af_cfg (af_ctx s) = cf →
  admitted (net s) (nefAccessToken s) → travels ts = true →
  registry_inv c0 k (nn_ctx (net s)) → sub_slot (nn_ctx (net s)) (AfID cf) →
  services_ok (AfServiceIDs (cfg (nn_ctx (net s)))) →
  pcf_wf k (pcfClient (nef (nn_ctx (net s)))) → Z.of_nat k < 2 ^ 62 →
  (validateAFTrafficInfluenceData (nef_of_af_TrafficInfluSub (sent_sub cf t ts))).2 = true →
  is_pcf_request (nef_of_af_TrafficInfluSub ts) || is_udr_request (nef_of_af_TrafficInfluSub ts)
    = true →
  ∃ sid sub resp c',
    let loc := locationURLPrefix (nef c0) +:+ AfID cf +:+ "/subscriptions/" +:+ sid in
    createSubscription (sent_sub cf t ts) s
    = (Ret (af_of_nef_TrafficInfluSub (sub_ti sub), Some resp, None),
       set_net (nn_set_ctx c' (net s)) s) ∧
    rs_StatusCode resp = 201 ∧ rs_Location resp = loc ∧
    sub_ti sub = ti_set_Self loc (nef_of_af_TrafficInfluSub (sent_sub cf t ts)) ∧
    nef_step (nn_ctx (net s))
      (ReqTiCreate (AfID cf) (BodyOf (nef_of_af_TrafficInfluSub (sent_sub cf t ts)))) c' ∧
    all_subs (nn_ctx (net s)) !! (AfID cf, sid) = None ∧
    all_subs c' = <[(AfID cf, sid) := sub]> (all_subs (nn_ctx (net s))) ∧ ∃ i, sid = Itoa i.
Proof.
  intros Hfit Hcf Hadm [Hto Hfrom]%andb_prop Hreg Hslot Hsvc Hwf Hk Hval Hreq.
  set (ti := nef_of_af_TrafficInfluSub (sent_sub cf t ts)).
  destruct (create_replies (AfID cf) ti (nn_ctx (net s)) c0 k Hreg Hslot Hsvc Hwf Hk Hval Hreq)
    as (sid & sub & w & c' & Hserve & [Hst Hbody] & Hloc & Hnone & Hti & Hall & Hi).
  set (loc := locationURLPrefix (nef c0) +:+ AfID cf +:+ "/subscriptions/" +:+ sid) in *.
  assert (of_json (to_json (sent_sub cf t ts)) = Some ti) as Hread.
  { by apply nef_reads_ti. }
  assert (exchange (CliCfg cf) (ti_path (CliCfg cf) (AfID cf)) "POST"
    (Some (to_json (sent_sub cf t ts))) s
    = (Ret (inl (response_of (ti_path (CliCfg cf) (AfID cf)) w, body_text (rw_body w))),
       set_net (nn_set_ctx c' (net s)) s)) as Hex.
  { apply (exchange_served _ _ (ti_route +:+ AfID cf +:+ "/subscriptions") _ _ (TgSubs (AfID cf))
      (ReqTiCreate (AfID cf) (BodyOf ti))); try done.
    - by eapply ti_url_plain.
    - by apply ti_path_eq.
    - apply match_subs, Hfit.
    - unfold nef_request, body_as. rewrite (bool_decide_eq_false_2 ("POST" = "GET")) by done.
      by rewrite (bool_decide_eq_true_2 ("POST" = "POST")), Hread by done.
    - apply Hfit. }
  exists sid, sub, (response_of (ti_path (CliCfg cf) (AfID cf)) w), c'.
  intros loc'. split_and!; try done.
  - unfold createSubscription. go_run. unfold SubscriptionPost, fetch. rewrite Hcf.
    assert (NewConfiguration (af_ctx s) = CliCfg cf) as ->.
    { unfold NewConfiguration. rewrite Hcf. by destruct (CliCfg cf). }
    go_run. rewrite (bind_ret _ _ _ _ _ Hex).
    unfold handlePostResponse, handle_response. cbn [rs_StatusCode response_of].
    rewrite Hst, (bool_decide_eq_true_2 (201 = 201)) by done. rewrite Hbody. cbn [body_text payload_json json_Unmarshal].
    assert (af_of_nef_TrafficInfluSub_ok (ti_set_Self loc ti) = true) as Hback by exact Hfrom.
    rewrite (af_reads_ti _ Hback).
    by rewrite Hti.
  - cbn [rs_Location response_of]. by rewrite Hloc.
  - replace c' with (exec (serve (E := E) (ReqTiCreate (AfID cf) (BodyOf ti)) new_writer)
      (nn_ctx (net s))) by (unfold exec; by rewrite Hserve). apply nef_step_intro.
Qed.

(** A creation that the NEF answers with the URL of a subscription to
    notifications. *)
Lemma create_stores ts t tsResp resp url sid w s s2 :
  let c := af_ctx s in
  let s1 := set_ctx (ctx_with (<[t := zero_TrafficInfluSub]> (trans_of c)) (subs_of c) c) s in
  ready c → genTransactionID s = (Ret (t, None), s1) →
  createSubscription (sent_sub (af_cfg c) t ts) s1 = (Ret (tsResp, Some resp, None), s2) →
  af_ctx s2 = af_ctx s1 →
  Location resp = inl url → getSubsIDFromURL (Some url) = (sid, nil_err) →
  no_events tsResp = false →
  CreateSubscription (BodyOf ts) w s
  = (Ret (WriteHeader (rs_StatusCode resp)
            (Header_Set "Location" url (Header_Set content_type json_utf8 w))),
     set_ctx (ctx_with (<[t := tsResp]> (trans_of c)) (<[sid := {[Itoa t := tsResp]}]> (subs_of c)) c)
       s2).
Proof.
  intros c s1 [[[ss Hss] [tt' Htt]] _] Hg Hcall Hs2 Hloc Hsid Hev.
  unfold CreateSubscription, modify_trans, modify_subs. go_run. fold c. rewrite Hss, Htt.
  rewrite (bind_ret _ _ _ _ _ Hg). go_run. cbn [no_events ts_SubscribedEvents zero_TrafficInfluSub].
  set (s1' := set_ctx _ s1).
  assert (s1' = s1) as ->.
  { unfold s1', s1, set_trans. cbn [set_ctx af_ctx]. by rewrite trans_of_with, insert_insert_eq. }
  change (ts_set_Self _ _) with (sent_sub (af_cfg c) t ts).
  rewrite (bind_ret _ _ _ _ _ Hcall). unfold deref. go_run. rewrite Hloc, Hsid, Hev. go_run.
  unfold set_ctx, set_trans, set_subs. cbn [af_ctx nefAccessToken net]. rewrite Hs2.
  unfold mret, GoM_ret. f_equal. f_equal. cbn. unfold trans_of at 1. cbn.
  by rewrite insert_insert_eq.
Qed.
End create.

(** ** The NEF at any time *)
Section reachable.
Context {P U D : Type}
  `{PcfSessions P, UdrAccepts U, UdrPfdData D, NefHooks, E : GoEnv, Jwt, NefMux, !NefMuxLaws, AfEnv}.

(** A NEF that started with an empty PCF and served [n] requests, and an AF
    whose configuration fits it. *)
Context (ncf : NefModel.Config) (p : P) (u : U) (x : D) (c0 : nefContext P U D) (n : nat)
  (s : afState (nefNet P U D)) (cf : Config)
  (Hstart : nef_started ncf p u x c0) (Hpcf : pcf_wf 0 p) (Hempty : sessions p = ∅)
  (Hroom : cfg_room ncf (3 * n)) (Hreach : nef_reach any_request c0 n (nn_ctx (net s)))
  (Hfit : configs_fit cf ncf) (Hcf : af_cfg (af_ctx s) = cf).

Lemma started_prefix : locationURLPrefix (nef c0) = nef_base_url ncf +:+ ti_route.
Proof.
  destruct Hstart as [Hcr _]. unfold nefCreate in Hcr. repeat case_match; try done.
  injection Hcr as <-. cbn. unfold getNefLocationURLPrefix. by rewrite (fit_prefix _ _ Hfit).
Qed.

Lemma validate_number ts t t' :
  (validateAFTrafficInfluenceData (nef_of_af_TrafficInfluSub (sent_sub cf t ts))).2
  = (validateAFTrafficInfluenceData (nef_of_af_TrafficInfluSub (sent_sub cf t' ts))).2.
Proof.
  unfold validateAFTrafficInfluenceData. cbn [ti_AfTransID nef_of_af_TrafficInfluSub sent_sub
    ts_set_Self ts_set_AFTransID ts_AFTransID].
  assert (∀ z, str_empty (Itoa z) = false) as He.
  { intros z. unfold str_empty. apply bool_decide_eq_false_2, Itoa_nonempty. }
  rewrite !He. done.
Qed.

(** A creation, in both programs. *)
Lemma create_served ts ev evs :
  ready (af_ctx s) → (genAFTransID (trans_of (af_ctx s))).1 ≠ 0 →
  admitted (net s) (nefAccessToken s) → travels ts = true →
  ts_SubscribedEvents ts = Some (ev :: evs) →
  services_ok (AfServiceIDs ncf) → sub_slot (nn_ctx (net s)) (AfID cf) →
  (validateAFTrafficInfluenceData (nef_of_af_TrafficInfluSub (sent_sub cf 1 ts))).2 = true →
  is_pcf_request (nef_of_af_TrafficInfluSub ts) || is_udr_request (nef_of_af_TrafficInfluSub ts)
    = true →
  ∃ t sid sub w c' i,
    let stored := af_of_nef_TrafficInfluSub (sub_ti sub) in
    let c := af_ctx s in
    CreateSubscription (BodyOf ts) new_writer s
    = (Ret w, set_ctx (ctx_with (<[t := stored]> (trans_of c))
                         (<[sid := {[Itoa t := stored]}]> (subs_of c)) c)
                (set_net (nn_set_ctx c' (net s)) s)) ∧
    status_of w = 201 ∧ header_of w !! "Location" = Some (sub_url cf ncf sid) ∧
    trans_of c !! t = None ∧ 1 ≤ t ≤ TransIDMax ∧ sid = Itoa i ∧
    sub_ti sub = ti_set_Self (sub_url cf ncf sid)
                   (nef_of_af_TrafficInfluSub (sent_sub cf t ts)) ∧
    nef_reach any_request c0 (S n) c' ∧ all_subs (nn_ctx (net s)) !! (AfID cf, sid) = None ∧
    all_subs c' = <[(AfID cf, sid) := sub]> (all_subs (nn_ctx (net s))).
Proof.
  intros Hready Hpool Hadm Htr Hev Hsvc Hslot Hval Hreq.
  pose proof (reach_registry _ _ _ _ _ _ _ _ Hstart Hroom Hreach) as Hreg.
  pose proof (reach_pcf _ _ _ _ _ _ _ _ Hstart Hpcf Hempty Hroom Hreach) as Hpcf'.
  assert (cfg (nn_ctx (net s)) = ncf) as Hncf.
  { transitivity (cfg c0); [apply Hreg|apply Hstart]. }
  assert (Z.of_nat (3 * n) < 2 ^ 62) as Hsmall
    by (unfold cfg_room, correlationIDOffset in Hroom; lia).
  destruct (gen_run s Hready) as [[e Hg]|(t & Hnext & Hg)].
  { exfalso. unfold genTransactionID in Hg. revert Hg. go_run.
    destruct (genAFTransID (trans_of (af_ctx s))) as [k m]. unfold modify_trans. go_run.
    simpl in Hpool. rewrite bool_decide_eq_false_2 by done. by intros [= ->]. }
  pose proof Hnext as (_ & _ & Hfresh & Ht). pose proof started_prefix as Hpre.
  rewrite <- Hncf in Hsvc, Hpre. pose proof Hfit as Hfit'. rewrite <- Hncf in Hfit'.
  set (s1 := set_ctx _ s) in Hg.
  destruct (post_served cf s1 c0 (3 * n) ts t) as
    (sid & sub & resp & c' & Hcall & Hst & Hloc & Hti & Hstep & Hnone & Hall & i & Hi); try done.
  { apply Hpcf'. }
  { by rewrite (validate_number ts t 1). }
  rewrite Hpre in Hloc, Hti. fold (sub_url cf (cfg (nn_ctx (net s))) sid) in Hloc, Hti.
  assert (segment sid = true) as Hseg by (rewrite Hi; apply segment_Itoa).
  assert (Location resp = inl (sub_url cf (cfg (nn_ctx (net s))) sid)) as HL.
  { unfold Location. rewrite Hloc, (sub_url_plain _ _ Hfit' sid Hseg).
    assert (str_empty (sub_url cf (cfg (nn_ctx (net s))) sid) = false) as ->; [|done].
    unfold str_empty. apply bool_decide_eq_false_2. intros Hemp.
    pose proof (sub_url_plain _ _ Hfit' sid Hseg) as Hpl. by rewrite Hemp in Hpl. }
  assert (no_events (af_of_nef_TrafficInfluSub (sub_ti sub)) = false) as Hne.
  { rewrite Hti. unfold no_events. cbn. by rewrite Hev. }
  rewrite <- Hcf in Hcall.
  pose proof (create_stores ts t _ resp _ sid new_writer s _ Hready Hg Hcall eq_refl HL
    (sub_url_id _ _ Hfit' sid Hseg ltac:(rewrite Hi; apply Itoa_no_word)) Hne) as Hrun.
  exists t, sid, sub. eexists. exists c', i. intros stored c. split; [exact Hrun|].
  rewrite Hncf in *. split_and!; try first [done|apply Ht]. by eapply nef_reach_step.
Qed.
End reachable.

(** ** Deletion *)
Section delete.
Context {P U D : Type}
  `{PcfSessions P, UdrAccepts U, UdrPfdData D, NefHooks, E : GoEnv, Jwt, NefMux, !NefMuxLaws, AfEnv}.
Implicit Types (s : afState (nefNet P U D)).

(** The answer to the client's deletion. *)
Lemma delete_call_served cf s c0 k sid sub :
  configs_fit cf (cfg (nn_ctx (net s))) → af_cfg (af_ctx s) = cf →
  admitted (net s) (nefAccessToken s) → segment sid = true →
  registry_inv c0 k (nn_ctx (net s)) → pcf_inv k (nn_ctx (net s)) →
  all_subs (nn_ctx (net s)) !! (AfID cf, sid) = Some sub →
  ∃ resp c', deleteSubscription sid s
    = (Ret (Some resp, None), set_net (nn_set_ctx c' (net s)) s) ∧ rs_StatusCode resp = 204 ∧
    all_subs c' = delete (AfID cf, sid) (all_subs (nn_ctx (net s))).
Proof.
  intros Hfit Hcf Hadm Hsid Hreg Hpcf Hsub.
  destruct (delete_replies c0 k _ _ _ _ Hreg Hpcf Hsub)
    as (w & c' & Hserve & [Hst Hbody] & Hall & _).
  set (url := sub_url cf (cfg (nn_ctx (net s))) sid).
  assert (exchange (CliCfg cf) url "DELETE" None s
    = (Ret (inl (response_of url w, body_text (rw_body w))), set_net (nn_set_ctx c' (net s)) s))
    as Hex.
  { apply (exchange_served _ _ (ti_route +:+ AfID cf +:+ "/subscriptions/" +:+ sid) _ _
      (TgSub (AfID cf) sid) (ReqTiDelete (AfID cf) sid)); try done.
    - by apply sub_url_plain.
    - unfold url, sub_url. by rewrite str_app_assoc.
    - apply match_sub; [apply Hfit|done].
    - apply Hfit. }
  exists (response_of url w), c'. split_and!; [|done..].
  unfold deleteSubscription. go_run. unfold SubscriptionDelete, send_delete. rewrite Hcf.
  assert (NewConfiguration (af_ctx s) = CliCfg cf) as ->.
  { unfold NewConfiguration. rewrite Hcf. by destruct (CliCfg cf). }
  rewrite (ti_sub_path_eq _ _ Hfit sid Hsid). rewrite (bind_ret _ _ _ _ _ Hex).
  cbn [rs_StatusCode response_of]. by rewrite Hst, bool_decide_eq_false_2 by lia.
Qed.

(** A deletion that the NEF accepts. *)
Lemma delete_clears url sid m resp s s2 w :
  ready (af_ctx s) → getSubsIDFromURL (Some url) = (sid, nil_err) →
  deleteSubscription sid s = (Ret (Some resp, None), s2) → af_ctx s2 = af_ctx s →
  subs_of (af_ctx s) !! sid = Some m →
  DeleteSubscription (Some url) w s
  = (Ret (WriteHeader (rs_StatusCode resp) (Header_Set content_type json_utf8 w)),
     set_ctx (ctx_with (freed m (trans_of (af_ctx s))) (delete sid (subs_of (af_ctx s)))
       (af_ctx s)) s2).
Proof.
  intros [[[ss Hss] [tt' Htt]] _] Hsid Hcall Hs2 Hm.
  unfold DeleteSubscription, modify_trans, modify_subs. go_run. rewrite Hss, Htt, Hsid.
  rewrite (bind_ret _ _ _ _ _ Hcall). go_run. rewrite Hs2, Hm. unfold deref. go_run.
  unfold set_ctx, set_trans, set_subs. cbn [af_ctx nefAccessToken net]. rewrite Hs2.
  unfold mret, GoM_ret. f_equal. f_equal. by rewrite free_trans_spec.
Qed.
End delete.

(** ** A concrete AF in front of a concrete NEF

    A matcher of paths that satisfies the laws, a configuration of the AF that
    fits the NEF's, and a few requests with the states they lead to. *)
Module AfScenario.

(** ** Paths, split at the slashes *)

Definition match_ti (l : list string) : option nefTarget :=
  match l with
  | [af; w] => if bool_decide (w = "subscriptions") then Some (TgSubs af) else None
  | [af; w; sub] => if bool_decide (w = "subscriptions") then Some (TgSub af sub) else None
  | _ => None
  end.
Definition match_pfd (l : list string) : option nefTarget :=
  match l with
  | [af; w] => if bool_decide (w = "transactions") then Some (TgTrans af) else None
  | [af; w; tid] => if bool_decide (w = "transactions") then Some (TgTran af tid) else None
  | [af; w; tid; v; app] =>
      if bool_decide (w = "transactions" ∧ v = "applications") then Some (TgApp af tid app)
      else None
  | _ => None
  end.

#[export] Instance scen_mux : NefMux := λ path,
  match Strconv.strip_prefix ti_route path with
  | Some rest => match_ti (strings_Split rest "/")
  | None =>
      match Strconv.strip_prefix pfd_route path with
      | Some rest => match_pfd (strings_Split rest "/")
      | None => None
      end
  end.

Lemma segment_no_slash s : segment s = true → has_char "/" s = false.
Proof. intros Hs. by apply segment_chars. Qed.

Lemma split_segment a rest b :
  rest = "/" +:+ b → segment a = true →
  strings_Split (a +:+ rest) "/" = a :: strings_Split b "/".
Proof.
  intros -> Ha%segment_no_slash. apply strings_Split_first. exists "", "/"%char. split; [done|].
  rewrite str_app_nil_r. by apply (not_contains_char "/").
Qed.
Lemma split_last a : segment a = true → strings_Split a "/" = [a].
Proof. intros Ha%segment_no_slash. apply strings_Split_single; [done|]. by apply (not_contains_char "/"). Qed.

(** A word of the pattern and the slash behind it. *)
Lemma split_word w w' b :
  w' = w +:+ "/" → segment w = true → strings_Split (w' +:+ b) "/" = w :: strings_Split b "/".
Proof. intros -> Hw. rewrite str_app_assoc. by apply split_segment. Qed.

Lemma scen_mux_ti rest : scen_mux (ti_route +:+ rest) = match_ti (strings_Split rest "/").
Proof. unfold scen_mux. by rewrite (proj2 (strip_prefix_Some ti_route _ rest) eq_refl). Qed.
Lemma scen_mux_pfd rest : scen_mux (pfd_route +:+ rest) = match_pfd (strings_Split rest "/").
Proof.
  unfold scen_mux. by rewrite (proj2 (strip_prefix_Some pfd_route _ rest) eq_refl).
Qed.

#[export] Instance scen_mux_laws : NefMuxLaws.
Proof.
  split; intros; unfold nef_match; rewrite ?scen_mux_ti, ?scen_mux_pfd.
  - by rewrite (split_segment af _ "subscriptions").
  - rewrite (split_segment af _ ("subscriptions/" +:+ sub)) by done.
    rewrite (split_word "subscriptions" "subscriptions/") by done. by rewrite split_last.
  - by rewrite (split_segment af _ "transactions").
  - rewrite (split_segment af _ ("transactions/" +:+ tid)) by done.
    rewrite (split_word "transactions" "transactions/") by done. by rewrite split_last.
  - rewrite (split_segment af _ ("transactions/" +:+ tid +:+ "/applications/" +:+ app)) by done.
    rewrite (split_word "transactions" "transactions/") by done.
    rewrite (split_segment tid _ ("applications/" +:+ app)) by done.
    rewrite (split_word "applications" "applications/") by done. by rewrite split_last.
Qed.

(** ** The AF *)

#[export] Instance scen_af_env : AfEnv := {|
  url_other := Some;
  location_other := λ _ l, Some l;
  unmarshal_error := λ _, "invalid character";
|}.

Definition scen_cli (oauth : bool) : CliConfig :=
  mkCliConfig "http" "localhost" ":8091" "/3gpp-traffic-influence/v1" "/3gpp-pfd-management/v1"
    "AF" "" oauth.
Definition scen_af_cfg (oauth : bool) : Config :=
  mkConfig "af1" "localhost:8050/" "af/v1/pfd/"
    (mkServerConfig ":8050" "localhost" ":8051" "" "" "") (scen_cli oauth).

(** The AF before its start, next to a NEF. *)
Definition scen_net (c : scen_ctx) (clock : Z) (file : OAuth2Config + string)
    : nefNet PcfClientStub UdrClientStub UdrPfdClientStub := mkNefNet c clock file.
Abbreviation scen_state := (afState (nefNet PcfClientStub UdrClientStub UdrPfdClientStub)).
Definition scen_idle (oauth : bool) (c : scen_ctx) : scen_state :=
  mkAfState (mkContext None None (scen_af_cfg oauth)) ""
    (scen_net c 5000000000 (inl (mkOAuth2Config "key" 60))).
Definition scen_af0 : scen_state := exec (af_start (scen_af_cfg false)) (scen_idle false scen_c0).

Definition scen_af_run (r : afRequest) (s : scen_state) : scen_state :=
  exec (af_serve r new_writer) s.
Definition scen_af_reply (r : afRequest) (s : scen_state) : Z :=
  match (af_serve r new_writer s).1 with Ret w => status_of w | Panic _ => 0 end.

(** Subscriptions for one UE, or for a group. *)
Definition scen_ts (ip group : string) (events : option (list string)) : TrafficInfluSub :=
  mkTrafficInfluSub "svc1" "app1" "" "" zero_SNSSAI group events "" ip "" "" "EARLY"
    "http://af/notify" "" [] [] [] [] [] "" zero_WebsockNotifConfig false false false.
Definition scen_events : option (list string) := Some ["UP_PATH_CHANGE"].
Definition scen_notify (t : string) : afRequest :=
  AfNotificationPost "" (BodyOf
    (mkEventNotification t "EARLY" zero_RouteToLocation "UP_PATH_CHANGE" zero_RouteToLocation
       "" "" "" "" "" "")).

Definition scen_af_create : afRequest := AfCreateSubscription (BodyOf (scen_ts "10.0.0.1" "" scen_events)).
Definition scen_af1 : scen_state := scen_af_run scen_af_create scen_af0.

Lemma scen_fit (oauth : bool) : configs_fit (scen_af_cfg oauth) (if oauth then scen_auth_cfg else scen_cfg).
Proof.
  destruct oauth; split; try reflexivity; exists "subscription", "s"%char;
    (split; [reflexivity|apply not_contains_split; [done|reflexivity]]).
Qed.
End AfScenario.
