(* ===== verification/AfProps.v ===== *)
(** * The registry of the AF: the theorems

    The handlers implement the abstract registry; the invariant of the registry
    over its life time and what it means for notifications; and what happens to
    the numbers when a put names no events. *)

From S2P Require Import NefJson.
From S2P Require Import Prelude Strconv Http OAuth2 Json JsonWire.
From S2P Require Import NefModel AfWire NefSouth NefCore NefTi NefPfd NefPfdApi NefInv NefRouter.
From S2P Require Import AfModel AfCommon AfRegistry AfClient AfTi AfPfd AfRouter.
From S2P Require Import AfNef.
From stdpp Require Import prelude gmap strings.
From Stdlib Require Import ZArith Ascii.

Import NefScenario.
Import AfScenario.
Local Open Scope Z_scope.

Section registry.
Context {N : Type} `{Network N, Jwt, AfEnv}.
Implicit Types (s : afState N).

(** C8: from the start on, whatever the other side of
    the network answers, every request changes the subscriptions and the
    transaction numbers of the AF as one of the effects of the abstract
    registry, also a request whose handler panics half way. *)
Theorem af_serve_refines cf s0 s r s' :
  af_reach (λ _, True) (exec (af_start cf) s0) s → af_step s r s' →
  af_effect r (af_ctx s) (af_ctx s').
Proof.
  intros Hreach [E r']. apply af_serve_effect. by eapply af_reach_ready.
Qed.

(** C9: as long as every put names the events it
    subscribes to, after any requests and whatever the NEF answered, each
    stored subscription has exactly one transaction number, the number is in
    use and between 1 and 2^31 - 1, and no two subscriptions share it. *)
Theorem af_registry_inv cf s0 s :
  af_reach put_has_events (exec (af_start cf) s0) s → af_registry (af_ctx s).
Proof. apply af_reach_registry. Qed.

(** A notification is accepted exactly when its number is in use. *)
Lemma notify_run s en :
  NotificationPost "" (BodyOf en) new_writer s =
  (Ret (match verifyAFTransID (trans_of (af_ctx s)) (en_AFTransID en) with
        | (code, problem, Some _) =>
            Write (AfProblem problem)
              (WriteHeader code (Header_Set content_type json_utf8 new_writer))
        | (code, _, None) => WriteHeader code (Header_Set content_type json_utf8 new_writer)
        end), s).
Proof.
  unfold NotificationPost. go_run. by destruct (verifyAFTransID _ _) as [[code problem] [e|]].
Qed.

(** As long as every put names the events
    it subscribes to, a notification that carries the transaction number of a
    stored subscription is answered with 200, and changes nothing. *)
Theorem af_notifications_accepted `{GoEnv} cf s0 s sid m k en :
  af_reach put_has_events (exec (af_start cf) s0) s →
  subs_of (af_ctx s) !! sid = Some m → is_Some (m !! k) → en_AFTransID en = k →
  ∃ w, af_serve (AfNotificationPost "" (BodyOf en)) new_writer s = (Ret w, s) ∧
    status_of w = 200 ∧ rw_body w = [].
Proof.
  intros Hreach Hm Hk <-. pose proof (af_reach_registry _ _ _ Hreach) as Hreg.
  destruct (reg_number _ Hreg sid m Hm) as (t & ts & -> & Ht).
  destruct Hk as [v [Hk _]%lookup_singleton_Some].
  apply (notify_accepted s en t Ht); [|done]. by apply (reg_ready _ Hreg).
Qed.

(** A notification whose number is not in use is refused with 500. *)
Lemma notify_refused `{GoEnv} s en t :
  en_AFTransID en = Itoa t → - 2 ^ 63 ≤ t ≤ max_int → trans_of (af_ctx s) !! t = None →
  ∃ w, af_serve (AfNotificationPost "" (BodyOf en)) new_writer s = (Ret w, s) ∧ status_of w = 500.
Proof.
  intros Hen Ht Hnone. eexists. cbn [af_serve]. rewrite notify_run, Hen. split; [done|].
  unfold verifyAFTransID. rewrite Atoi_Itoa by done. unfold str_empty.
  rewrite bool_decide_eq_false_2 by apply Itoa_nonempty. by rewrite Hnone.
Qed.

(** A put with events that the NEF accepts stores the
    subscription under a new number; the numbers under which it was stored
    before stay in use, but no notification subscription has them any more. *)
Theorem af_put_renumbers `{E : GoEnv} cf s0 s url sid ts ev m :
  af_reach put_has_events (exec (af_start cf) s0) s →
  getSubsIDFromURL (Some url) = (sid, nil_err) → ts_SubscribedEvents ts = Some ev →
  subs_of (af_ctx s) !! sid = Some m →
  let s' := exec (af_serve (AfSubscriptionPut url (BodyOf ts)) new_writer) s in
  subs_of (af_ctx s') !! sid ≠ subs_of (af_ctx s) !! sid →
  ∃ t told ts' old, subs_of (af_ctx s') !! sid = Some {[Itoa t := ts']} ∧
    m = {[Itoa told := old]} ∧ t ≠ told ∧ is_Some (trans_of (af_ctx s') !! told) ∧
    is_Some (trans_of (af_ctx s') !! t) ∧
    ∀ sid' m', subs_of (af_ctx s') !! sid' = Some m' → m' !! Itoa told = None.
Proof.
  intros Hreach Hsid Hev Hm s' Hchange. pose proof (af_reach_registry _ _ _ Hreach) as Hreg.
  destruct (reg_number _ Hreg sid m Hm) as (told & old & -> & Hold).
  assert (af_effect (AfSubscriptionPut url (BodyOf ts)) (af_ctx s) (af_ctx s')) as Heff.
  { apply af_serve_effect. apply Hreg. }
  remember (af_ctx s') as c' eqn:Hc'. clear Hc'.
  remember (AfSubscriptionPut url (BodyOf ts)) as r eqn:Hr.
  destruct Heff as [|t _|body t sid1 ts1 Hr1|url1 ts1 t sid1 ts1' Hr1 Hsid1 _ Hnext Hnew
    |url1 ts1 t sid1 ts1' Hr1 Hsid1 Hnext Hdrop|url1 body sid1 m1 ts1 Hr1|url1 sid1 m1 Hr1];
    try (exfalso; congruence); try (exfalso; by apply Hchange).
  - rewrite Hr in Hr1. injection Hr1 as <- <-. assert (sid1 = sid) as -> by congruence.
    destruct Hnext as (_ & _ & Hfresh & _).
    assert (t ≠ told) as Hne by (intros ->; rewrite Hfresh in Hold; by destruct Hold).
    exists t, told, ts1', old. rewrite subs_of_with, trans_of_with, lookup_insert_eq.
    rewrite lookup_insert_ne, lookup_insert_eq by done. split_and!; eauto.
    intros sid' m'. rewrite lookup_insert_Some. intros [[<- <-]|[Hne' Hm']].
    + apply lookup_singleton_None. by intros ?%(inj Itoa).
    + apply eq_None_not_Some. intros Hs. apply Hne'.
      eapply (reg_distinct _ Hreg sid sid' _ _ (Itoa told)); [done|done| |done].
      rewrite lookup_singleton_eq. eauto.
  - exfalso. rewrite Hr in Hr1. injection Hr1 as <- <-. destruct Hdrop as [|Hin]; [congruence|].
    assert (sid1 = sid) as -> by congruence. destruct Hnext as (_ & _ & Hfresh & _).
    rewrite (fresh_not_stored _ t sid Hreg Hfresh) in Hin. by destruct Hin.
Qed.
End registry.

(** ** Scenarios and witnesses *)

Definition scen_group (ev : option (list string)) : TrafficInfluSub := scen_ts "" "group" ev.
Definition scen_gcreate : afRequest := AfCreateSubscription (BodyOf (scen_group scen_events)).
Definition scen_put (sid : string) (ev : option (list string)) : afRequest :=
  AfSubscriptionPut (af_sub_url sid) (BodyOf (scen_group ev)).
Definition scen_g1 : scen_state := scen_af_run scen_gcreate scen_af0.

Lemma scen_g1_reach (ok : afRequest → Prop) : ok scen_gcreate → af_reach ok scen_af0 scen_g1.
Proof. intros Hok. eapply af_reach_step; [apply af_reach_init|done|apply af_step_intro]. Qed.

Lemma af_serve_refines_witness :
  af_effect scen_gcreate (af_ctx scen_af0) (af_ctx scen_g1) ∧
  map_size (trans_of (af_ctx scen_g1)) = 1%nat.
Proof.
  split; [|reflexivity].
  apply (af_serve_refines (scen_af_cfg false) (scen_idle false scen_c0) scen_af0).
  - apply af_reach_init.
  - apply af_step_intro.
Defined.

Lemma af_registry_inv_witness : af_registry (af_ctx scen_g1).
Proof.
  apply (af_registry_inv (scen_af_cfg false) (scen_idle false scen_c0)).
  by apply scen_g1_reach.
Defined.

Definition scen_en (t : string) : EventNotification :=
  mkEventNotification t "EARLY" zero_RouteToLocation "UP_PATH_CHANGE" zero_RouteToLocation
    "" "" "" "" "" "".
Definition scen_g1_map : gmap string TrafficInfluSub :=
  Eval vm_compute in default ∅ (subs_of (af_ctx scen_g1) !! "11111").

Lemma af_notifications_accepted_witness :
  ∃ w, af_serve (AfNotificationPost "" (BodyOf (scen_en "1"))) new_writer scen_g1
       = (Ret w, scen_g1) ∧ status_of w = 200 ∧ rw_body w = [].
Proof.
  apply (af_notifications_accepted (scen_af_cfg false) (scen_idle false scen_c0) scen_g1 "11111"
    scen_g1_map "1").
  - by apply scen_g1_reach.
  - vm_compute. reflexivity.
  - vm_compute. by eexists.
  - reflexivity.
Defined.

Lemma af_put_renumbers_witness :
  let s' := scen_af_run (scen_put "11111" scen_events) scen_g1 in
  ∃ t told ts' old, subs_of (af_ctx s') !! "11111" = Some {[Itoa t := ts']} ∧
    scen_g1_map = {[Itoa told := old]} ∧ t ≠ told ∧ is_Some (trans_of (af_ctx s') !! told).
Proof.
  destruct (af_put_renumbers (scen_af_cfg false) (scen_idle false scen_c0) scen_g1
    (af_sub_url "11111") "11111" (scen_group scen_events) ["UP_PATH_CHANGE"] scen_g1_map)
    as (t & told & ts' & old & H1 & H2 & H3 & H4 & _).
  - by apply scen_g1_reach.
  - vm_compute. reflexivity.
  - reflexivity.
  - vm_compute. reflexivity.
  - vm_compute. discriminate.
  - exists t, told, ts', old. exact (conj H1 (conj H2 (conj H3 H4))).
Defined.

(** A put without events and then one with events on the same subscription:
    both are answered with 200, but the number of the second is given up at
    once, and the notifications that carry it are refused. *)
Example put_twice_drops_number :
  let s1 := scen_af_run (scen_put "11111" None) scen_g1 in
  let s2 := scen_af_run (scen_put "11111" scen_events) s1 in
  scen_af_reply (scen_put "11111" None) scen_g1 = 200 ∧
  scen_af_reply (scen_put "11111" scen_events) s1 = 200 ∧
  (ti_AfTransID ∘ sub_ti <$> all_subs (nn_ctx (net s2)) !! ("af1", "11111")) = Some "2" ∧
  scen_af_reply (scen_notify "2") s2 = 500.
Proof. by vm_compute. Qed.

(** After a put without events the subscription is stored under a number that
    is free: the next creation takes it, and deleting the first subscription
    then frees the number of the second, whose notifications are refused. *)
Example delete_frees_other_number :
  let s1 := scen_af_run (scen_put "11111" None) scen_g1 in
  let s2 := scen_af_run scen_gcreate s1 in
  let s3 := scen_af_run (AfDeleteSubscription (af_sub_url "11111")) s2 in
  (ti_AfTransID ∘ sub_ti <$> all_subs (nn_ctx (net s2)) !! ("af1", "11112")) = Some "2" ∧
  scen_af_reply (scen_notify "2") s2 = 200 ∧
  scen_af_reply (AfDeleteSubscription (af_sub_url "11111")) s2 = 204 ∧
  is_Some (all_subs (nn_ctx (net s3)) !! ("af1", "11112")) ∧
  scen_af_reply (scen_notify "2") s3 = 500.
Proof. vm_compute. split_and!; try done. by eexists. Qed.

(** A put that the NEF refuses keeps its number in use. *)
Example refused_put_keeps_number :
  let s1 := scen_af_run (scen_put "99999" scen_events) scen_g1 in
  scen_af_reply (scen_put "99999" scen_events) scen_g1 = 400 ∧
  map_size (trans_of (af_ctx s1)) = 2%nat ∧ map_size (subs_of (af_ctx s1)) = 1%nat.
Proof. by vm_compute. Qed.
