(* ===== verification/AfNefProps.v ===== *)
(** * Subscriptions from end to end: the theorems

    A subscription created at the AF, as the AF and the NEF see it afterwards,
    and its deletion; the expiry of the token; PFD transactions read through
    the AF, and the errors of the NEF. *)

From S2P Require Import NefJson.
From S2P Require Import Prelude Strconv OAuth2 Http NefModel NefSouth NefCore NefTi NefPfd.
From S2P Require Import NefPfdApi NefSpec NefTiFacts NefPfdFacts NefPfdRefine NefInv.
From S2P Require Import NefSouthInv NefRouter NefService NefTiProps NefPfdProps.
From S2P Require Import Json JsonWire AfWire AfModel AfCommon AfRegistry AfClient AfTi AfPfd.
From S2P Require Import AfRouter AfNef.
From stdpp Require Import prelude gmap strings.
From Stdlib Require Import ZArith Ascii.

Import AfScenario.
Import NefScenario.
Import AfLinks.
Local Open Scope Z_scope.

Section system.
Context {P U D : Type}
  `{PcfSessions P, UdrAccepts U, UdrPfdData D, NefHooks, E : GoEnv, Jwt, NefMux, !NefMuxLaws, AfEnv}.

(** A NEF that started with an empty PCF and served [n] requests, and an AF
    whose configuration fits it. *)
Context (ncf : NefModel.Config) (p : P) (u : U) (x : D) (c0 : nefContext P U D) (n : nat)
  (s : afState (nefNet P U D)) (cf : Config)
  (Hstart : nef_started ncf p u x c0) (Hpcf : pcf_wf 0 p) (Hempty : sessions p = ∅)
  (Hroom : cfg_room ncf (3 * S n)) (Hreach : nef_reach any_request c0 n (nn_ctx (net s)))
  (Hfit : configs_fit cf ncf) (Hcf : af_cfg (af_ctx s) = cf).

(** A subscription to notifications that fits both programs and for which the
    NEF has room. *)
Record creatable (ts : TrafficInfluSub) : Prop := {
  cr_ready : ready (af_ctx s);
  cr_pool : (genAFTransID (trans_of (af_ctx s))).1 ≠ 0;
  cr_token : admitted (net s) (nefAccessToken s);
  cr_travels : travels ts = true;
  cr_events : no_events ts = false;
  cr_services : services_ok (AfServiceIDs ncf);
  cr_slot : sub_slot (nn_ctx (net s)) (AfID cf);
  cr_valid : (validateAFTrafficInfluenceData
                (nef_of_af_TrafficInfluSub (sent_sub cf 1 ts))).2 = true;
  cr_kind : is_pcf_request (nef_of_af_TrafficInfluSub ts) ||
            is_udr_request (nef_of_af_TrafficInfluSub ts) = true;
}.

Lemma room_now : cfg_room ncf (3 * n).
Proof. eapply cfg_room_mono; [|exact Hroom]. lia. Qed.

Lemma created ts :
  creatable ts →
  ∃ t sid sub w c' i,
    let stored := af_of_nef_TrafficInfluSub (sub_ti sub) in
    let c := af_ctx s in
    CreateSubscription (BodyOf ts) new_writer s
    = (Ret w, set_ctx (ctx_with (<[t := stored]> (trans_of c))
                         (<[sid := {[Itoa t := stored]}]> (subs_of c)) c)
                (set_net (nn_set_ctx c' (net s)) s)) ∧
    status_of w = 201 ∧ header_of w !! "Location" = Some (sub_url cf ncf sid) ∧
    trans_of c !! t = None ∧ 1 ≤ t ≤ TransIDMax ∧ sid = Itoa i ∧
    sub_ti sub = ti_set_Self (sub_url cf ncf sid)
                   (nef_of_af_TrafficInfluSub (sent_sub cf t ts)) ∧
    nef_reach any_request c0 (S n) c' ∧ all_subs (nn_ctx (net s)) !! (AfID cf, sid) = None ∧
    all_subs c' = <[(AfID cf, sid) := sub]> (all_subs (nn_ctx (net s))).
Proof.
  intros []. unfold no_events in *.
  destruct (ts_SubscribedEvents ts) as [[|ev evs]|] eqn:Hev; try done.
  eapply (create_served ncf p u x c0 n s cf); try done. apply room_now.
Qed.

(** C7: with an AF in front of a NEF, a
    subscription to notifications that fits both programs and that the NEF has
    room for is created in both: the answer is 201 with the NEF's URL, the NEF
    has one more subscription and it carries the transaction number that the AF
    took, the AF has it under the same identifier and number, and a
    notification that the NEF sends for it is accepted by the AF.  The NEF
    sends notifications to the address given by the client. *)
Theorem af_create_end_to_end ts :
  creatable ts →
  ∃ t sid sub w s',
    let stored := af_of_nef_TrafficInfluSub (sub_ti sub) in
    af_serve (AfCreateSubscription (BodyOf ts)) new_writer s = (Ret w, s') ∧
    status_of w = 201 ∧ header_of w !! "Location" = Some (sub_url cf ncf sid) ∧
    trans_of (af_ctx s) !! t = None ∧
    all_subs (nn_ctx (net s')) = <[(AfID cf, sid) := sub]> (all_subs (nn_ctx (net s))) ∧
    ti_AfTransID (sub_ti sub) = Itoa t ∧
    ti_NotificationDestination (sub_ti sub) = ts_NotificationDestination ts ∧
    trans_of (af_ctx s') = <[t := stored]> (trans_of (af_ctx s)) ∧
    subs_of (af_ctx s') = <[sid := {[Itoa t := stored]}]> (subs_of (af_ctx s)) ∧
    ∀ e, af_of_nef_EventNotification_ok (event_of (sub_ti sub) e) = true →
      ∃ w', af_serve (AfNotificationPost "" (body_as (Some (to_json (event_of (sub_ti sub) e)))))
              new_writer s' = (Ret w', s') ∧ status_of w' = 200.
Proof.
  intros Hcr. destruct (created ts Hcr)
    as (t & sid & sub & w & c' & i & Hrun & Hst & Hloc & Hfresh & Ht & Hi & Hti & _ & _ & Hall).
  exists t, sid, sub, w. eexists. intros stored. split; [exact Hrun|].
  split_and!; try done; [by rewrite Hti..|].
  intros e Hok. cbn [body_as]. rewrite (af_reads_event _ Hok).
  set (s1 := set_ctx _ _).
  destruct (notify_accepted s1 (af_of_nef_EventNotification (event_of (sub_ti sub) e)) t)
    as (w' & Hw' & Hs' & _); [| |by cbn; rewrite Hti|by exists w'].
  - cbn [s1 af_ctx set_ctx]. rewrite trans_of_with, lookup_insert_eq. eauto.
  - done.
Qed.

(** A subscription created at the AF
    and then deleted under the identifier in the Location field leaves both
    programs as they were: the AF has the subscriptions and the transaction
    numbers it had, and the NEF the same subscriptions. *)
Theorem af_create_delete_restores ts :
  creatable ts →
  (∀ sid, is_Some (subs_of (af_ctx s) !! sid) →
     is_Some (all_subs (nn_ctx (net s)) !! (AfID cf, sid))) →
  ∃ sid w1 s1 w2 s2,
    af_serve (AfCreateSubscription (BodyOf ts)) new_writer s = (Ret w1, s1) ∧
    status_of w1 = 201 ∧ header_of w1 !! "Location" = Some (sub_url cf ncf sid) ∧
    af_serve (AfDeleteSubscription (af_sub_url sid)) new_writer s1 = (Ret w2, s2) ∧
    status_of w2 = 204 ∧
    af_ctx s2 = af_ctx s ∧ all_subs (nn_ctx (net s2)) = all_subs (nn_ctx (net s)).
Proof.
  intros Hcr Hmirror. pose proof (cr_ready _ Hcr) as [Hmade Hwf].
  destruct (created ts Hcr)
    as (t & sid & sub & w & c' & i & Hrun & Hst & Hloc & Hfresh & Ht & Hi & Hti & Hr & Hnone & Hall).
  set (s1 := set_ctx _ _) in Hrun.
  pose proof (reach_registry _ _ _ _ _ _ _ _ Hstart Hroom Hr) as Hreg.
  pose proof (reach_pcf _ _ _ _ _ _ _ _ Hstart Hpcf Hempty Hroom Hr) as Hp.
  assert (cfg c' = ncf) as Hncf'.
  { transitivity (cfg c0); [apply Hreg|apply Hstart]. }
  assert (cfg (nn_ctx (net s)) = ncf) as Hncf.
  { pose proof (reach_registry _ _ _ _ _ _ _ _ Hstart room_now Hreach) as Hreg0.
    transitivity (cfg c0); [apply Hreg0|apply Hstart]. }
  destruct (delete_call_served cf s1 c0 (3 * S n) sid sub) as (resp & c2 & Hcall & Hc & Hall2);
    try done.
  { change (configs_fit cf (cfg c')). by rewrite Hncf'. }
  { intros Hon. apply (cr_token _ Hcr). rewrite Hncf. by rewrite <- Hncf'. }
  { rewrite Hi. apply segment_Itoa. }
  { change (all_subs c' !! (AfID cf, sid) = Some sub). by rewrite Hall, lookup_insert_eq. }
  assert (subs_of (af_ctx s) !! sid = None) as Hsub0.
  { apply eq_None_not_Some. intros Hs%Hmirror. rewrite Hnone in Hs. by destruct Hs. }
  exists sid, w, s1. eexists. eexists. split_and!; [exact Hrun|done|done| |..].
  - eapply (delete_clears (af_sub_url sid) sid); [| |exact Hcall|done|].
    + split; [by split; eauto|]. by apply numbers_wf_insert.
    + rewrite Hi. apply af_sub_url_id.
    + cbn [s1 af_ctx set_ctx]. by rewrite subs_of_with, lookup_insert_eq.
  - by cbn.
  - cbn [s1 af_ctx set_ctx]. rewrite subs_of_with, trans_of_with, delete_insert_id by done.
    transitivity (ctx_with (trans_of (af_ctx s)) (subs_of (af_ctx s)) (af_ctx s));
      [|by apply ctx_with_same].
    unfold ctx_with. f_equal. f_equal. apply map_eq. intros j. rewrite freed_lookup by done.
    by rewrite delete_insert_id.
  - change (all_subs c2 = all_subs (nn_ctx (net s))). rewrite Hall2.
    change (all_subs (nn_ctx (net s1))) with (all_subs c'). rewrite Hall. by rewrite delete_insert_id.
Qed.
End system.

(** ** Witnesses *)

Definition scen_new : TrafficInfluSub := scen_ts "10.0.0.1" "" scen_events.

Lemma scen_room1 : cfg_room scen_cfg (3 * 1).
Proof. unfold cfg_room, correlationIDOffset. simpl. lia. Qed.

Lemma scen_creatable : creatable scen_cfg scen_af0 (scen_af_cfg false) scen_new.
Proof.
  split; try reflexivity.
  - split; [by split; eexists|]. intros k [v Hv]. by vm_compute in Hv.
  - vm_compute. discriminate.
  - intros Hon. by vm_compute in Hon.
  - apply scen_services.
  - vm_compute. by split.
Qed.

Lemma af_create_end_to_end_witness :
  ∃ t sid sub w s',
    af_serve (AfCreateSubscription (BodyOf scen_new)) new_writer scen_af0 = (Ret w, s') ∧
    status_of w = 201 ∧ ti_AfTransID (sub_ti sub) = Itoa t ∧
    all_subs (nn_ctx (net s')) = <[("af1", sid) := sub]> (all_subs scen_c0).
Proof.
  destruct (af_create_end_to_end scen_cfg (NewPCFClient 4242) NewUDRClient NewUDRPfdClient scen_c0
    0 scen_af0 (scen_af_cfg false) scen_started scen_pcf_wf eq_refl scen_room1 (nef_reach_init _ _)
    (scen_fit false) eq_refl scen_new scen_creatable)
    as (t & sid & sub & w & s' & Hrun & Hst & _ & _ & Hall & Ht & _).
  exists t, sid, sub, w, s'. exact (conj Hrun (conj Hst (conj Ht Hall))).
Defined.

Lemma af_create_delete_restores_witness :
  ∃ sid w1 s1 w2 s2,
    af_serve (AfCreateSubscription (BodyOf scen_new)) new_writer scen_af0 = (Ret w1, s1) ∧
    af_serve (AfDeleteSubscription (af_sub_url sid)) new_writer s1 = (Ret w2, s2) ∧
    af_ctx s2 = af_ctx scen_af0.
Proof.
  destruct (af_create_delete_restores scen_cfg (NewPCFClient 4242) NewUDRClient NewUDRPfdClient
    scen_c0 0 scen_af0 (scen_af_cfg false) scen_started scen_pcf_wf eq_refl scen_room1
    (nef_reach_init _ _) (scen_fit false) eq_refl scen_new scen_creatable)
    as (sid & w1 & s1 & w2 & s2 & H1 & _ & _ & H2 & _ & H3 & _).
  - intros sid [v Hv]. by vm_compute in Hv.
  - exists sid, w1, s1, w2, s2. exact (conj H1 (conj H2 H3)).
Defined.

(** * Access tokens between the AF and the NEF

    The AF keeps one token.  When the NEF refuses it because it has expired,
    the AF fetches a new one; the next request is served. *)

Section tokens.
Context {P U D : Type}
  `{PcfPolicyAuthorization P, UdrInfluenceData U, UdrPfdData D, NefHooks, E : GoEnv, Jwt, !JwtLaws,
    NefMux, !NefMuxLaws, AfEnv}.
Implicit Types (s : afState (nefNet P U D)).

(** The AF's configuration fits that of the NEF it talks to. *)
Definition connected (cf : Config) s : Prop :=
  configs_fit cf (cfg (nn_ctx (net s))) ∧ af_cfg (af_ctx s) = cf.

(** The request for a subscription, as the client sends it. *)
Lemma get_exchange cf s i w c' :
  connected cf s →
  let url := sub_url cf (cfg (nn_ctx (net s))) (Itoa i) in
  let path := ti_route +:+ AfID cf +:+ "/subscriptions/" +:+ Itoa i in
  let auth := if NefModel.OAuth2Support (cfg (nn_ctx (net s)))
              then "Bearer " +:+ nefAccessToken s else "" in
  nef_middleware (nn_clock (net s)) (nn_file (net s)) (mkAuthHeader auth path)
    (ReqTiRead (AfID cf) (Itoa i)) new_writer (nn_ctx (net s)) = (Ret w, c') →
  exchange (NewConfiguration (af_ctx s))
    (ti_sub_path (NewConfiguration (af_ctx s)) (AfID (af_cfg (af_ctx s))) (Itoa i)) "GET" None s
  = (Ret (inl (response_of url w, body_text (rw_body w))), set_net (nn_set_ctx c' (net s)) s).
Proof.
  intros [Hfit Hcf] url path auth Hrun.
  assert (NewConfiguration (af_ctx s) = CliCfg cf) as ->.
  { unfold NewConfiguration. rewrite Hcf. by destruct (CliCfg cf). }
  rewrite Hcf, (ti_sub_path_eq _ _ Hfit) by apply segment_Itoa. fold url.
  apply (exchange_answered _ _ path _ _ (TgSub (AfID cf) (Itoa i)) (ReqTiRead (AfID cf) (Itoa i)));
    try done.
  - apply sub_url_plain; [done|apply segment_Itoa].
  - unfold url, sub_url, path. by rewrite str_app_assoc.
  - apply match_sub; [apply Hfit|apply segment_Itoa].
  - by rewrite (fit_oauth _ _ Hfit).
Qed.

(** What the handler makes of the answer. *)
Lemma get_forwards cf s i w c' :
  connected cf s →
  let path := ti_route +:+ AfID cf +:+ "/subscriptions/" +:+ Itoa i in
  let auth := if NefModel.OAuth2Support (cfg (nn_ctx (net s)))
              then "Bearer " +:+ nefAccessToken s else "" in
  let s' := set_net (nn_set_ctx c' (net s)) s in
  nef_middleware (nn_clock (net s)) (nn_file (net s)) (mkAuthHeader auth path)
    (ReqTiRead (AfID cf) (Itoa i)) new_writer (nn_ctx (net s)) = (Ret w, c') →
  (status_of w = 401 → ∃ w', GetSubscription (Some (af_sub_url (Itoa i))) new_writer s
     = (Ret w', set_token (GetAccessToken (nn_clock (net s)) (nn_file (net s))).1 s') ∧
     replies w' 401 []) ∧
  (∀ ts, replies w 200 [PayTi ts] → af_of_nef_TrafficInfluSub_ok ts = true →
   ∃ w', GetSubscription (Some (af_sub_url (Itoa i))) new_writer s = (Ret w', s') ∧
     replies w' 200 [AfTi (af_of_nef_TrafficInfluSub ts)]).
Proof.
  intros Hcon path auth s' Hrun. pose proof (get_exchange cf s i w c' Hcon Hrun) as Hex.
  unfold GetSubscription. rewrite af_sub_url_id. unfold getSubscription. go_run.
  unfold SubscriptionGet, fetch. go_run. rewrite (bind_ret _ _ _ _ _ Hex).
  unfold handleGetResponse, handle_response. cbn [rs_StatusCode response_of]. split.
  - intros Hst. rewrite Hst, bool_decide_eq_false_2 by lia.
    unfold handleGetErrorResp, problem_error, fetchNEFAuthorizationToken.
    cbn [rs_StatusCode response_of]. rewrite Hst. go_run.
    rewrite (bool_decide_eq_true_2 (401 ∈ _)), (bool_decide_eq_true_2 (401 = 401))
      by (done || set_solver). go_run. cbn [clock oauth2_file nef_network].
    cbn [net set_net nn_clock nn_file nn_set_ctx].
    destruct (GetAccessToken _ _) as [tok err]. go_run. destruct (json_Unmarshal _); go_run; eexists; (split; [done|]); split; cbn; done.
  - intros ts [Hst Hbody] Hok. rewrite Hst, bool_decide_eq_true_2 by done. rewrite Hbody.
    cbn [body_text payload_json json_Unmarshal]. rewrite (af_reads_ti _ Hok).
    unfold deref. go_run. eexists. split; [done|]. split; cbn; by rewrite ?Hst.
Qed.
(** A token that has expired is refused with 401. *)
Lemma expired_refused n tok uri r :
  NefModel.OAuth2Support (cfg (nn_ctx n)) = true →
  Forall (λ c, c ≠ " "%char) (String.list_ascii_of_string tok) →
  (ValidateAccessToken (nn_clock n) (nn_file n) tok).1 = StatusInvalidToken →
  ∃ w, nef_middleware (nn_clock n) (nn_file n) (mkAuthHeader ("Bearer " +:+ tok) uri) r new_writer
         (nn_ctx n) = (Ret w, nn_ctx n) ∧ status_of w = 401.
Proof.
  intros Hon Hns Hval. unfold nef_middleware. go_run. rewrite Hon.
  unfold nefValidateAccessToken. cbn [Authorization].
  assert (str_empty ("Bearer " +:+ tok) = false) as -> by done.
  rewrite (strings_Split_after tok "Bearer ") by (done || by apply no_space_no_bearer).
  destruct (ValidateAccessToken (nn_clock n) (nn_file n) tok) as [st err] eqn:Hv. simpl in Hval.
  subst. destruct err as [e|].
  - eexists. by split.
  - pose proof (proj2 (validate_status (nn_clock n) (nn_file n) tok)) as Hok.
    rewrite Hv in Hok. by specialize (Hok eq_refl).
Qed.

(** C10: with access control on, an AF whose token
    has expired and that reads a subscription which the NEF has gets 401 and
    passes it on, changing nothing but its token; the same read is then served,
    and the answer is the subscription that the NEF has. *)
Theorem af_token_recovers cf s key life issued i sub :
  connected cf s → NefModel.OAuth2Support (cfg (nn_ctx (net s))) = true →
  nn_file (net s) = inl (mkOAuth2Config key life) →
  0 ≤ issued → 0 ≤ life → second_ns * life ≤ max_int →
  (GetAccessToken issued (nn_file (net s))).1 = nefAccessToken s →
  unix issued + life < unix (nn_clock (net s)) → 0 ≤ nn_clock (net s) →
  all_subs (nn_ctx (net s)) !! (AfID cf, Itoa i) = Some sub →
  af_of_nef_TrafficInfluSub_ok (sub_ti sub) = true →
  let r := AfGetSubscription (af_sub_url (Itoa i)) in
  ∃ w1 s1 w2,
    af_serve r new_writer s = (Ret w1, s1) ∧ replies w1 401 [] ∧
    af_ctx s1 = af_ctx s ∧ net s1 = net s ∧
    af_serve r new_writer s1 = (Ret w2, s1) ∧
    replies w2 200 [AfTi (af_of_nef_TrafficInfluSub (sub_ti sub))].
Proof.
  intros Hcon Hon Hfile Hi Hl Hmax Htok Hexp Hclock Hsub Hok r. pose proof Hcon as [Hfit Hcf].
  set (now := nn_clock (net s)) in *. set (ck := mkOAuth2Config key life).
  destruct (issued_token_lifetime ck issued now Hi Hl Hmax) as (t1 & Ht1 & Hns1 & Hv1).
  destruct (issued_token_lifetime ck now now Hclock Hl Hmax) as (t2 & Ht2 & Hns2 & Hv2).
  rewrite Hfile in Htok. fold ck in Htok. rewrite Ht1 in Htok. simpl in Htok. subst t1.
  destruct (expired_refused (net s) (nefAccessToken s)
    (ti_route +:+ AfID cf +:+ "/subscriptions/" +:+ Itoa i) (ReqTiRead (AfID cf) (Itoa i))
    Hon Hns1) as (wr & Hmw & Hst).
  { rewrite Hfile. fold ck now. rewrite Hv1, bool_decide_eq_false_2; [done|].
    cbn [Expiration ck]. lia. }
  pose proof (get_forwards cf s i wr (nn_ctx (net s)) Hcon) as Hget. cbv zeta in Hget.
  rewrite Hon in Hget. destruct (Hget Hmw) as [H401 _].
  destruct (H401 Hst) as (w1 & Hrun1 & Hw1).
  rewrite Hfile in Hrun1. fold ck now in Hrun1. rewrite Ht2 in Hrun1. cbn [fst] in Hrun1.
  set (s1 := set_token t2 _) in Hrun1.
  assert (net s1 = net s) as Hnet by (unfold s1; cbn; by destruct (net s)).
  destruct (read_replies (nn_ctx (net s)) (AfID cf) (Itoa i) sub Hsub) as (wr2 & Hserve & Hwr2).
  assert (connected cf s1) as Hcon1 by (unfold connected; rewrite Hnet; by split).
  pose proof (get_forwards cf s1 i wr2 (nn_ctx (net s)) Hcon1) as Hget2. cbv zeta in Hget2.
  rewrite Hnet, Hon in Hget2. change (nefAccessToken s1) with t2 in Hget2.
  rewrite middleware_admitted, Hserve in Hget2.
  2: { intros _. split; [done|]. rewrite Hfile. fold ck now. rewrite Hv2, bool_decide_eq_true_2; [done|].
       cbn [Expiration ck]. lia. }
  destruct (Hget2 eq_refl) as [_ H200]. destruct (H200 _ Hwr2 Hok) as (w2 & Hrun2 & Hw2).
  exists w1, s1, w2. by split_and!.
Qed.
End tokens.

(** ** Witness *)

(** An AF that started at 5 s with tokens for 60 s, next to a NEF with one
    subscription, at 100 s. *)
Definition scen_auth_sub : scen_ctx := scen_run scen_create scen_auth.
Definition scen_expired : scen_state :=
  set_net (scen_net scen_auth_sub 100000000000 (inl (mkOAuth2Config "key" 60)))
    (exec (af_start (scen_af_cfg true)) (scen_idle true scen_auth_sub)).
Definition scen_auth_stored : afSubscription :=
  Eval vm_compute in default (new_afSubscription "" NefModel.zero_TrafficInfluSub)
                       (all_subs scen_auth_sub !! ("af1", "11111")).

Lemma af_token_recovers_witness :
  ∃ w1 s1 w2,
    af_serve (AfGetSubscription (af_sub_url (Itoa 11111))) new_writer scen_expired = (Ret w1, s1) ∧
    replies w1 401 [] ∧
    af_serve (AfGetSubscription (af_sub_url (Itoa 11111))) new_writer s1 = (Ret w2, s1) ∧
    replies w2 200 [AfTi (af_of_nef_TrafficInfluSub (sub_ti scen_auth_stored))].
Proof.
  destruct (af_token_recovers (scen_af_cfg true) scen_expired "key" 60 5000000000 11111
    scen_auth_stored) as (w1 & s1 & w2 & H1 & Hw1 & _ & _ & H2 & Hw2).
  - split; [|reflexivity]. exact (scen_fit true).
  - reflexivity.
  - reflexivity.
  - lia.
  - lia.
  - unfold second_ns, max_int. lia.
  - vm_compute. reflexivity.
  - vm_compute. reflexivity.
  - vm_compute. discriminate.
  - vm_compute. reflexivity.
  - reflexivity.
  - exists w1, s1, w2. exact (conj H1 (conj Hw1 (conj H2 Hw2))).
Defined.

(** * PFD transactions through the AF

    A transaction that the NEF has, read through the AF: the same transaction
    with the AF's links.  The errors of the NEF, passed on. *)

(** ** Configurations that fit, for PFD management *)

(** The part of the NEF's links before the word [transactions]. *)
Definition pfd_pre (cf : Config) (ncf : NefModel.Config) : string :=
  nef_base_url ncf +:+ pfd_route +:+ AfID cf.

Record pfd_fit (cf : Config) (ncf : NefModel.Config) : Prop := {
  pf_base : pfd_path (CliCfg cf) (AfID cf) = pfd_pre cf ncf +:+ "/transactions";
  pf_prefix : NefModel.LocationPrefixPfd ncf = pfd_route;
  pf_authority : plain_authority (nef_authority ncf) = true;
  pf_id : segment (AfID cf) = true;
  pf_words : ¬ contains (pfd_pre cf ncf) "transactions" ∧ ¬ contains (pfd_pre cf ncf) "applications";
  pf_oauth : cli_OAuth2Support (CliCfg cf) = NefModel.OAuth2Support ncf;
}.

(** A name of an application in which the AF finds none of its words. *)
Definition plain_app (a : string) : Prop :=
  ¬ contains a "transactions" ∧ ¬ contains a "applications".

Section links.
Context (cf : Config) (ncf : NefModel.Config) (Hfit : pfd_fit cf ncf).

Lemma pfd_link_eq tid :
  (nef_base_url ncf +:+ pfd_route) +:+ AfID cf +:+ "/transactions/" +:+ tid
  = nef_trans_link (pfd_pre cf ncf +:+ "/") tid.
Proof. unfold nef_trans_link, pfd_pre. by rewrite !str_app_assoc. Qed.

Lemma Itoa_chars_only c z :
  is_digit c || bool_decide (c = "-"%char) = false → has_char c (Itoa z) = false.
Proof.
  intros Hc. apply (has_char_all (λ c, is_digit c || bool_decide (c = "-"%char))); [|done].
  apply Itoa_chars; [|done]. by intros d ->.
Qed.

Lemma pfd_link_parts z : link_parts (pfd_pre cf ncf +:+ "/") (Itoa z).
Proof.
  destruct (pf_words _ _ Hfit) as [Ht _]. split.
  - exists "transaction", "s"%char. split; [done|]. rewrite str_app_assoc.
    apply not_contains_slash; [done..|]. by apply not_contains_split.
  - by apply Itoa_chars_only.
  - apply (not_contains_char "s"); [done|]. by apply Itoa_chars_only.
Qed.

Lemma pfd_app_parts z a : plain_app a → app_link_parts (pfd_pre cf ncf +:+ "/") (Itoa z) a.
Proof.
  intros [Hat Haa]. destruct (pf_words _ _ Hfit) as [Ht Ha]. split; [..|done].
  - exists "application", "s"%char. split; [done|].
    unfold nef_trans_link. rewrite !str_app_assoc.
    apply not_contains_slash; [done..|].
    apply (not_contains_slash "transactions"); [done|done|by apply not_contains_split|].
    apply not_contains_slash; [done|done| |by apply not_contains_split].
    apply (not_contains_char "s"); [done|]. by apply Itoa_chars_only.
  - apply (not_contains_slash ""); [done|done|by apply not_contains_split|].
    apply (not_contains_slash (Itoa z) ("applications/" +:+ a)); [done|done| |].
    + apply (not_contains_char "s"); [done|]. by apply Itoa_chars_only.
    + apply (not_contains_slash "applications" a); [done|done|by apply not_contains_split|done].
Qed.

(** The links of a stored transaction, as the AF reads them. *)
Lemma stored_links hi lo z (t : afPfdTransaction) :
  trans_wf (nef_base_url ncf +:+ pfd_route) lo hi (AfID cf) (Itoa z) t →
  (∀ a, is_Some (PfdDatas (pfdManagement t) !! a) → plain_app a) →
  nef_links (pfd_pre cf ncf +:+ "/") (Itoa z) (af_of_nef_PfdManagement (pfdManagement t)).
Proof.
  intros [_ _ Hself _ [_ Happs]] Hplain. rewrite pfd_link_eq in Hself.
  split; [apply pfd_link_parts|exact Hself|].
  intros a d. change (pman_PfdDatas (af_of_nef_PfdManagement (pfdManagement t)))
    with (af_of_nef_PfdData <$> PfdDatas (pfdManagement t)).
  rewrite lookup_fmap. destruct (PfdDatas (pfdManagement t) !! a) as [d0|] eqn:Hd; [|done].
  intros [= <-]. split; [apply pfd_app_parts, Hplain; eauto|].
  change (pfdd_Self d0 = nef_app_link (pfd_pre cf ncf +:+ "/") (Itoa z) a).
  rewrite (Happs a d0 Hd). unfold nef_app_link. by rewrite pfd_link_eq.
Qed.

(** The URL of a transaction. *)
Lemma pfd_url_plain z : plain_url (pfd_trans_path (CliCfg cf) (AfID cf) (Itoa z)) = true.
Proof.
  unfold pfd_trans_path. rewrite (pf_base _ _ Hfit). unfold pfd_pre. rewrite !str_app_assoc.
  change (pfd_route +:+ AfID cf +:+ "/transactions" +:+ "/" +:+ Itoa z)
    with ("/" +:+ ("3gpp-pfd-management/v1/" +:+ AfID cf +:+ "/transactions" +:+ "/" +:+ Itoa z)).
  apply plain_nef_url; [apply Hfit|]. rewrite !plain_path_app.
  rewrite (proj1 (segment_chars _ (pf_id _ _ Hfit))), (proj1 (segment_chars _ (segment_Itoa z))).
  done.
Qed.
End links.

(** ** Reading a transaction *)
Section read.
Context {P U D : Type}
  `{PcfPolicyAuthorization P, UdrInfluenceData U, UdrPfdStore D, Production, E : GoEnv, Jwt, NefMux,
    !NefMuxLaws, AfEnv}.
Implicit Types (s : afState (nefNet P U D)).

Lemma pfd_get_served cf s z w c' m pre :
  pfd_fit cf (cfg (nn_ctx (net s))) → af_cfg (af_ctx s) = cf →
  admitted (net s) (nefAccessToken s) →
  serve (ReqPfdRead (AfID cf) (Itoa z)) new_writer (nn_ctx (net s)) = (Ret w, c') →
  replies w 200 [PayPfdm m] → af_of_nef_PfdManagement_ok m = true →
  nef_links pre (Itoa z) (af_of_nef_PfdManagement m) →
  ∃ w', GetPfdTransaction (Itoa z) new_writer s = (Ret w', set_net (nn_set_ctx c' (net s)) s) ∧
    replies w' 200 [AfPfdm (with_af_links cf (Itoa z) (af_of_nef_PfdManagement m))].
Proof.
  intros Hfit Hcf Hadm Hserve [Hst Hbody] Hok Hlinks.
  set (url := pfd_trans_path (CliCfg cf) (AfID cf) (Itoa z)).
  assert (exchange (CliCfg cf) url "GET" None s
    = (Ret (inl (response_of url w, body_text (rw_body w))), set_net (nn_set_ctx c' (net s)) s))
    as Hex.
  { apply (exchange_served _ _ (pfd_route +:+ AfID cf +:+ "/transactions/" +:+ Itoa z) _ _
      (TgTran (AfID cf) (Itoa z)) (ReqPfdRead (AfID cf) (Itoa z))); try done.
    - by eapply pfd_url_plain.
    - unfold url, pfd_trans_path. rewrite (pf_base _ _ Hfit). unfold pfd_pre.
      by rewrite !str_app_assoc.
    - apply match_tran; [apply Hfit|apply segment_Itoa].
    - apply Hfit. }
  unfold GetPfdTransaction, getPfdTransaction, with_client. go_run.
  assert (NewConfiguration (af_ctx s) = CliCfg cf) as ->.
  { unfold NewConfiguration. rewrite Hcf. by destruct (CliCfg cf). }
  rewrite Hcf. unfold PfdTransactionGet, fetch. go_run. rewrite (bind_ret _ _ _ _ _ Hex).
  unfold handlePfdGetResponse, handle_response. cbn [rs_StatusCode response_of].
  rewrite Hst, bool_decide_eq_true_2 by done. rewrite Hbody.
  cbn [body_text payload_json json_Unmarshal]. rewrite (af_reads_pfdm _ Hok). go_run.
  rewrite (bind_ret _ _ _ _ _ (update_links_exact _ pre (Itoa z) _ Hlinks)).
  unfold deref. go_run. eexists. split; [done|].
  split; cbn; [by rewrite Hst|by rewrite Hcf].
Qed.

(** A PFD transaction that the NEF holds, read
    through the AF, is answered with 200 and the transaction the NEF holds, in
    which the link of the transaction and the links of all its applications
    are the AF's, for the same identifiers; nothing changes in the registries.
    (The names of the applications must not contain the words at which the AF
    splits links.) *)
Theorem af_pfd_read_end_to_end cf ncf p u x c0 n s z t :
  nef_started ncf p u x c0 → cfg_room ncf (3 * n) →
  nef_reach (req_apps well_keyed) c0 n (nn_ctx (net s)) →
  pfd_fit cf ncf → af_cfg (af_ctx s) = cf → admitted (net s) (nefAccessToken s) →
  all_trans (nn_ctx (net s)) !! (AfID cf, Itoa z) = Some t →
  (∀ a, is_Some (PfdDatas (pfdManagement t) !! a) → plain_app a) →
  af_of_nef_PfdManagement_ok (pfdManagement t) = true →
  ∃ w s', af_serve (AfGetPfdTransaction (Itoa z)) new_writer s = (Ret w, s') ∧
    replies w 200 [AfPfdm (with_af_links cf (Itoa z)
                             (af_of_nef_PfdManagement (pfdManagement t)))] ∧
    af_ctx s' = af_ctx s ∧ afs (nef (nn_ctx (net s'))) = afs (nef (nn_ctx (net s))).
Proof.
  intros Hstart Hroom Hreach Hfit Hcf Hadm Ht Hplain Hok.
  pose proof (reach_registry _ _ _ _ _ _ _ _ Hstart Hroom Hreach) as Hreg.
  destruct (registry_trans _ _ _ _ _ _ Hreg Ht) as [hi Hwf].
  assert (cfg (nn_ctx (net s)) = ncf) as Hncf.
  { transitivity (cfg c0); [apply Hreg|apply Hstart]. }
  assert (locationURLPrefixPfd (nef c0) = nef_base_url ncf +:+ pfd_route) as Hpre.
  { destruct Hstart as [Hcr _]. unfold nefCreate in Hcr. repeat case_match; try done.
    injection Hcr as <-. cbn. unfold getNefLocationURLPrefixPfd. by rewrite (pf_prefix _ _ Hfit). }
  rewrite Hpre in Hwf.
  destruct (pfd_read_replies c0 (3 * n) _ _ _ t Hreg (reach_stored _ _ _ _ _ _ _ Hstart Hreach) Ht)
    as (w & c' & Hserve & Hw & Hafs).
  pose proof Hfit as Hfit'. rewrite <- Hncf in Hfit'.
  destruct (pfd_get_served cf s z w c' _ _ Hfit' Hcf Hadm Hserve Hw Hok
    (stored_links cf ncf Hfit _ _ z t Hwf Hplain)) as (w' & Hrun & Hw').
  exists w'. eexists. split_and!; [exact Hrun|exact Hw'|done|exact Hafs].
Qed.
End read.

(** ** Errors *)
Section errors.
Context {N : Type} `{Network N, Jwt, AfEnv, E : GoEnv}.
Implicit Types (s : afState N).

(** The request that a handler which writes PFDs sends, and the status it
    expects. *)
Definition pfd_write_call (c : Context) (r : afRequest) : option (string * string * json * Z) :=
  let cli := NewConfiguration c in
  let id := AfID (af_cfg c) in
  match r with
  | AfCreatePfdTransaction (BodyOf m) => Some (pfd_path cli id, "POST", to_json m, 201)
  | AfPutPfdTransaction t (BodyOf m) => Some (pfd_trans_path cli id t, "PUT", to_json m, 200)
  | AfPutPfdAppTransaction t a (BodyOf d) => Some (pfd_app_path cli id t a, "PUT", to_json d, 200)
  | AfPatchPfdAppTransaction t a (BodyOf d) =>
      Some (pfd_app_path cli id t a, "PATCH", to_json d, 200)
  | _ => None
  end.

(** An error of a service comes back with the response and its bytes. *)
Lemma fetch_bytes_error {A} `{Json A} cli path method body expected on_error resp b s s' :
  exchange cli path method body s = (Ret (inl (resp, b)), s') → rs_StatusCode resp ≠ expected →
  (∀ r' s1, ∃ e s2, on_error r' b s1 = (Ret e, s2)) →
  ∃ e s2, fetch_bytes (A := A) cli path method body (handle_response expected true on_error) s
    = (Ret (zero_value, Some resp, b, Some e), s2).
Proof.
  intros Hex Hst Herr. unfold fetch_bytes. rewrite (bind_ret _ _ _ _ _ Hex).
  unfold handle_response. rewrite bool_decide_eq_false_2 by done.
  destruct (Herr resp s') as (e & s2 & He). exists e, s2. go_run.
  by rewrite (bind_ret _ _ _ _ _ He).
Qed.

Lemma pfd_error_returns r b s :
  ∃ e s2, handlePfdPostPutPatchErrorResp r b s = (Ret e, s2).
Proof.
  unfold handlePfdPostPutPatchErrorResp, problem_error, fetchNEFAuthorizationToken.
  repeat case_bool_decide; go_run; try (by do 2 eexists).
  - destruct (GetAccessToken _ _). go_run. destruct (json_Unmarshal b); by do 2 eexists.
  - destruct (json_Unmarshal b); by do 2 eexists.
Qed.

(** When the NEF answers a request that
    writes PFDs with another status than that of success, the client of the AF
    gets that status and the bytes of the NEF's answer. *)
Theorem af_pfd_errors_forwarded r path method body expected resp b s s' :
  pfd_write_call (af_ctx s) r = Some (path, method, body, expected) →
  exchange (NewConfiguration (af_ctx s)) path method (Some body) s = (Ret (inl (resp, b)), s') →
  rs_StatusCode resp ≠ expected →
  ∃ w s2, af_serve r new_writer s = (Ret w, s2) ∧ replies w (rs_StatusCode resp) [AfRaw b] ∧
    af_ctx s2 = af_ctx s.
Proof.
  intros Hcall Hex Hst.
  assert (∃ w s2, af_serve r new_writer s = (Ret w, s2) ∧ replies w (rs_StatusCode resp) [AfRaw b])
    as (w & s2 & Hrun & Hw).
  { destruct r as [| | | | | | |[| |m]| | |t [| |m]| | |t a [| |d]|t a [| |d]|]; try done;
      injection Hcall as <- <- <- <-; cbn [af_serve];
      unfold CreatePfdTransaction, createPfdTransaction, PutPfdTransaction, putPfdTransaction,
        PutPfdAppTransaction, putPfdAppTransaction, PatchPfdAppTransaction, patchPfdAppTransaction,
        with_client, PfdTransactionPost, PfdTransactionPut, PfdAppTransactionPut,
        PfdAppTransactionPatch, handlePfdPostResponse, handlePfdPutResponse,
        handlePfdAppPutResponse, handleAppPatchResponse; go_run;
      match goal with
      | |- context [fetch_bytes (A := ?T)] =>
          destruct (fetch_bytes_error (A := T) _ _ _ _ _ handlePfdPostPutPatchErrorResp
            resp b s s' Hex Hst) as (e & s2 & He); [intros; apply pfd_error_returns|]
      end;
      rewrite (bind_ret _ _ _ _ _ He); do 2 eexists; by split. }
  exists w, s2. split_and!; [done|exact Hw|]. pose proof (keeps_readers r new_writer) as Hk.
  destruct r; try done; by eapply keeps_run.
Qed.
End errors.

(** ** Witnesses *)

(** The NEF with one subscription and one transaction, and an AF. *)
Definition scen_pfd_af : scen_state :=
  exec (af_start (scen_af_cfg false)) (scen_idle false scen_c2).

Lemma scen_trans_apps a : is_Some (PfdDatas (pfdManagement scen_trans) !! a) → plain_app a.
Proof.
  assert (map_to_list (PfdDatas (pfdManagement scen_trans)) =
    (λ d, [("video", d)]) (default (scen_app "") (PfdDatas (pfdManagement scen_trans) !! "video")))
    as Hl by reflexivity.
  intros [d Hd%elem_of_map_to_list]. rewrite Hl in Hd. apply list_elem_of_singleton in Hd.
  injection Hd as -> _. split; apply not_contains_split; reflexivity || done.
Qed.

Lemma scen_pfd_fit : pfd_fit (scen_af_cfg false) scen_cfg.
Proof.
  split; try reflexivity. split; apply not_contains_split; reflexivity || done.
Qed.

Lemma af_pfd_read_end_to_end_witness :
  ∃ w s', af_serve (AfGetPfdTransaction (Itoa 1000)) new_writer scen_pfd_af = (Ret w, s') ∧
    replies w 200 [AfPfdm (with_af_links (scen_af_cfg false) (Itoa 1000)
                             (af_of_nef_PfdManagement (pfdManagement scen_trans)))].
Proof.
  destruct (af_pfd_read_end_to_end (scen_af_cfg false) scen_cfg (NewPCFClient 4242) NewUDRClient
    NewUDRPfdClient scen_c0 2 scen_pfd_af 1000 scen_trans) as (w & s' & H1 & H2 & _).
  - apply scen_started.
  - apply scen_room.
  - apply scen_reach_keyed.
  - apply scen_pfd_fit.
  - reflexivity.
  - intros Hon. by vm_compute in Hon.
  - apply scen_trans_stored.
  - apply scen_trans_apps.
  - reflexivity.
  - exists w, s'. exact (conj H1 H2).
Defined.

(** A transaction without applications, which the NEF refuses. *)
Definition scen_empty_pfd : afRequest := AfCreatePfdTransaction (BodyOf zero_PfdManagement).
Definition scen_refusal : httpResponse :=
  mkHttpResponse "400" 400 "" (pfd_path (scen_cli false) "af1")
    (Some (JsonText (JObj [("title", JStr "Missing PFD Data")]))).

Lemma af_pfd_errors_forwarded_witness :
  ∃ w s2, af_serve scen_empty_pfd new_writer scen_pfd_af = (Ret w, s2) ∧
    replies w 400 [AfRaw (JsonText (JObj [("title", JStr "Missing PFD Data")]))] ∧
    af_ctx s2 = af_ctx scen_pfd_af.
Proof.
  eapply (af_pfd_errors_forwarded scen_empty_pfd _ _ _ _ scen_refusal _ scen_pfd_af).
  - reflexivity.
  - vm_compute. reflexivity.
  - discriminate.
Defined.

(** ** Links the AF cannot rewrite *)

(** The name of an application that contains the word [applications] is cut
    off in the AF's link. *)
Example app_link_truncated :
  let d := pdata_set_Self (nef_app_link "http://nef/af1/" "1000" "myapplications1") zero_PfdData in
  updateAppLink (scen_af_cfg false) d = Ret (af_app_link (scen_af_cfg false) "1000" "my", nil_err).
Proof. vm_compute. reflexivity. Qed.

(** A Location without the word [transactions] makes the handler panic. *)
Example foreign_location_panics :
  updatePfdURL (scen_af_cfg false) "http://nef/3gpp/af1/1000" = Panic "index out of range".
Proof. vm_compute. reflexivity. Qed.
