(* ===== verification/Logging.v ===== *)
(** * Logging (common/log, common/log/syslog)

    The logger with its level and facility in one priority (logger.go), the
    printers with their tags (printer.go), the functions of the package
    (log.go), the change of verbosity by signals (interrupt.go), the adapter for
    gRPC (grpclogger.go) and the connection to syslog with its one retry
    (syslog/syslog.go, syslog_unix.go).  Formatting and the clock are the class
    [LogLib]; every call that leaves the process may fail and is recorded. *)

From S2P Require Import Prelude Strconv.
From stdpp Require Import prelude strings list gmap pretty.
From Stdlib Require Import ZArith Ascii.

Local Open Scope Z_scope.

(** ** Priorities *)

Definition LOG_EMERG : Z := 0.
Definition LOG_ALERT : Z := 1.
Definition LOG_CRIT : Z := 2.
Definition LOG_ERR : Z := 3.
Definition LOG_WARNING : Z := 4.
Definition LOG_NOTICE : Z := 5.
Definition LOG_INFO : Z := 6.
Definition LOG_DEBUG : Z := 7.
Definition LOG_KERN : Z := 0.
Definition LOG_LOCAL0 : Z := 128.
Definition LOG_LOCAL7 : Z := 184.

Definition DefaultLevel : Z := LOG_INFO.
Definition DefaultFacility : Z := LOG_LOCAL0.
Definition severityMask : Z := 7.
Definition facilityMask : Z := 248.

(** A level combined with a facility. *)
Definition syslevel (lvl fac : Z) : Z := Z.lor (Z.land lvl severityMask) (Z.land fac facilityMask).

Definition ParseLevel (prio : string) : Z * error :=
  let s := ToLower prio in
  if bool_decide (s ∈ ["emerg"; "emergency"]) then (LOG_EMERG, nil_err)
  else if bool_decide (s = "alert") then (LOG_ALERT, nil_err)
  else if bool_decide (s ∈ ["crit"; "critical"]) then (LOG_CRIT, nil_err)
  else if bool_decide (s ∈ ["err"; "error"]) then (LOG_ERR, nil_err)
  else if bool_decide (s ∈ ["warning"; "warn"]) then (LOG_WARNING, nil_err)
  else if bool_decide (s = "notice") then (LOG_NOTICE, nil_err)
  else if bool_decide (s ∈ ["info"; "information"]) then (LOG_INFO, nil_err)
  else if bool_decide (s = "debug") then (LOG_DEBUG, nil_err)
  else (0, errors_New ("Invalid priority: " +:+ prio)).

(** ** What leaves the process *)

(** Each with the error it ended with.  An output is the number of a writer,
    [None] standing for the standard error. *)
Inductive event :=
| EvLocal (out : option Z) (line : string) (err : error)
| EvStd (line : string)
| EvDial (network addr : string) (err : error)
| EvSend (conn : Z) (line : string) (err : error)
| EvClose (conn : Z) (err : error).

(** What happened, the errors of the next calls, and the next connection. *)
Record World := mkWorld {
  w_trace : list event;
  w_faults : list error;
  w_conns : Z;
}.

(** [fmt] on values of any type, the clock after what has happened, and what
    the process knows of itself. *)
Class LogLib := {
  Arg : Type;
  arg_string : string → Arg;
  Sprint : list Arg → string;
  Sprintf : string → list Arg → string;
  show_v : Arg → string;
  Stamp : list event → string;
  RFC3339 : list event → string;
  RFC3339Nano : list event → string;
  svcName : string;
  Getpid : Z;
  Hostname : string;
  os_Args0 : string;
  LocalAddr : Z → string;
}.

Definition act (ev : error → event) : GoM World error := λ w,
  let err := default nil_err (head (w_faults w)) in
  (Ret err, mkWorld (w_trace w ++ [ev err]) (tail (w_faults w)) (w_conns w)).

Definition net_Dial (network addr : string) : GoM World (Z + string) :=
  err ← act (EvDial network addr);
  match err with
  | Some e => mret (inr e)
  | None =>
      w ← go_get;
      go_modify (λ w, mkWorld (w_trace w) (w_faults w) (w_conns w + 1)) ;;
      mret (inl (w_conns w))
  end.

Definition newline : string := String "010" "".

(** The missing newline at the end of a message. *)
Definition missing_nl (msg : string) : string := if has_suffix msg newline then "" else newline.

(** ** The connection to syslog (syslog.go) *)

Record netConn := mkNetConn { nc_local : bool; nc_conn : Z }.

(** [Writer]; [sw_conf] tells whether TLS is used. *)
Record SyslogWriter := mkSyslogWriter {
  sw_priority : Z;
  sw_tag : string;
  sw_hostname : string;
  sw_network : string;
  sw_raddr : string;
  sw_conf : bool;
  sw_conn : option netConn;
}.

Definition set_conn (c : option netConn) (w : SyslogWriter) : SyslogWriter :=
  mkSyslogWriter (sw_priority w) (sw_tag w) (sw_hostname w) (sw_network w) (sw_raddr w) (sw_conf w) c.
Definition default_hostname (h : string) (w : SyslogWriter) : SyslogWriter :=
  if str_empty (sw_hostname w)
  then mkSyslogWriter (sw_priority w) (sw_tag w) h (sw_network w) (sw_raddr w) (sw_conf w) (sw_conn w)
  else w.

(** The local sockets in the order they are tried. *)
Definition syslog_sockets : list (string * string) :=
  network ← ["unixgram"; "unix"]; p ← ["/dev/log"; "/var/run/syslog"; "/var/run/log"]; [(network, p)].
Definition unixSyslog : GoM World (option netConn * error) :=
  r ← for_acc syslog_sockets (λ '(network, p) (_ : unit),
        r ← net_Dial network p;
        mret (match r with
              | inl conn => inr (mkNetConn true conn)
              | inr _ => inl tt
              end)) tt;
  mret (match r with
        | inr conn => (Some conn, nil_err)
        | inl _ => (None, errors_New "Unix syslog delivery error")
        end).

Section syslog.
Context `{LogLib}.

Definition conn_close (c : netConn) : GoM World error := act (EvClose (nc_conn c)).

(** The connection again, the old one being closed. *)
Definition sw_connect (w : SyslogWriter) : GoM World (SyslogWriter * error) :=
  w ← (match sw_conn w with
       | Some c => conn_close c ;; mret (set_conn None w)
       | None => mret w
       end);
  if str_empty (sw_network w) then
    '(conn, err) ← unixSyslog;
    mret (default_hostname "localhost" (set_conn conn w), err)
  else
    r ← net_Dial (sw_network w) (sw_raddr w);
    match r with
    | inr e => mret (w, Some e)
    | inl c => mret (default_hostname (LocalAddr c) (set_conn (Some (mkNetConn false c)) w), nil_err)
    end.

Definition syslog_dial (network raddr : string) (priority : Z) (tag : string) (conf : bool)
    : GoM World (SyslogWriter + string) :=
  if bool_decide (priority < 0 ∨ Z.lor LOG_LOCAL7 LOG_DEBUG < priority)
  then mret (inr "log/syslog: invalid priority")
  else
    let tag := if str_empty tag then os_Args0 else tag in
    '(w, err) ← sw_connect (mkSyslogWriter priority tag Hostname network raddr conf None);
    match err with
    | Some e => mret (inr e)
    | None => mret (inl w)
    end.
Definition syslog_Dial (network raddr : string) (priority : Z) (tag : string) :=
  syslog_dial network raddr priority tag false.
Definition syslog_New (priority : Z) (tag : string) := syslog_Dial "" "" priority tag.
Definition DialTLS (network raddr : string) (priority : Z) (tag : string) (conf : bool) :=
  syslog_dial network raddr priority tag conf.

Definition writeString (n : netConn) (p : Z) (hostname tag msg nl : string) : GoM World error :=
  w ← go_get;
  let line :=
    if nc_local n then
      "<" +:+ Itoa p +:+ ">" +:+ Stamp (w_trace w) +:+ " " +:+ tag +:+ "[" +:+ Itoa Getpid +:+ "]: " +:+ msg +:+ nl
    else
      "<" +:+ Itoa p +:+ ">" +:+ RFC3339 (w_trace w) +:+ " " +:+ hostname +:+ " " +:+ tag +:+ "[" +:+ Itoa Getpid
        +:+ "]: " +:+ msg +:+ nl in
  act (EvSend (nc_conn n) line).

Definition sw_write (w : SyslogWriter) (p : Z) (msg : string) : GoM World (Z * error) :=
  match sw_conn w with
  | None => go_panic "invalid memory address or nil pointer dereference"
  | Some c =>
      err ← writeString c p (sw_hostname w) (sw_tag w) msg (missing_nl msg);
      match err with
      | Some e => mret (0, Some e)
      | None => mret (str_len msg, nil_err)
      end
  end.

Definition writeAndRetry (w : SyslogWriter) (p : Z) (s : string) : GoM World (SyslogWriter * (Z * error)) :=
  let pr := Z.lor (Z.land (sw_priority w) facilityMask) (Z.land p severityMask) in
  first ← (match sw_conn w with
           | Some _ => r ← sw_write w pr s; mret (Some r)
           | None => mret None
           end);
  match first with
  | Some (n, None) => mret (w, (n, nil_err))
  | _ =>
      '(w, err) ← sw_connect w;
      match err with
      | Some e => mret (w, (0, Some e))
      | None => r ← sw_write w pr s; mret (w, r)
      end
  end.

Definition sw_Write (w : SyslogWriter) (b : string) := writeAndRetry w (sw_priority w) b.
Definition sw_Close (w : SyslogWriter) : GoM World (SyslogWriter * error) :=
  match sw_conn w with
  | Some c => err ← conn_close c; mret (set_conn None w, err)
  | None => mret (w, nil_err)
  end.

(** The methods [Emerg] to [Debug]. *)
Definition sw_send (sev : Z) (w : SyslogWriter) (m : string) : GoM World (SyslogWriter * error) :=
  '(w, (_, err)) ← writeAndRetry w sev m; mret (w, err).
Definition sw_Emerg := sw_send LOG_EMERG.
Definition sw_Alert := sw_send LOG_ALERT.
Definition sw_Crit := sw_send LOG_CRIT.
Definition sw_Err := sw_send LOG_ERR.
Definition sw_Warning := sw_send LOG_WARNING.
Definition sw_Notice := sw_send LOG_NOTICE.
Definition sw_Info := sw_send LOG_INFO.
Definition sw_Debug := sw_send LOG_DEBUG.
End syslog.

(** ** The logger (logger.go) and its printers (printer.go) *)

(** A printer without functions, or one of the logger with the text of its
    tags. *)
Inductive Printer :=
| ZeroPrinter
| BoundPrinter (data : string).

(** [l_once] tells whether [initPrinter] has run. *)
Record Logger := mkLogger {
  l_Printer : Printer;
  l_once : bool;
  l_out : option Z;
  l_priority : Z;
  l_disabled : bool;
  l_isKernel : bool;
  l_syslogW : option SyslogWriter;
}.
Definition zero_logger : Logger := mkLogger ZeroPrinter false None 0 false false None.

Definition getFacility (l : Logger) : Z :=
  let fac := Z.land (l_priority l) facilityMask in
  if bool_decide (fac = LOG_KERN) && negb (l_isKernel l) then DefaultFacility
  else Z.land (l_priority l) facilityMask.

Definition getLevel (l : Logger) : Z :=
  let lvl := Z.land (l_priority l) severityMask in
  if bool_decide (lvl = LOG_EMERG) && negb (l_disabled l) then DefaultLevel else lvl.

Definition setLevel (p : Z) (l : Logger) : Logger :=
  let lvl := Z.land p severityMask in
  let p := if bool_decide (LOG_DEBUG < lvl) then syslevel LOG_DEBUG p
           else if bool_decide (lvl < LOG_EMERG) then syslevel LOG_EMERG p
           else p in
  mkLogger (l_Printer l) (l_once l) (l_out l) (syslevel p (getFacility l))
    (bool_decide (Z.land p severityMask = LOG_EMERG)) (l_isKernel l) (l_syslogW l).

Definition set_syslogW (w : option SyslogWriter) (l : Logger) : Logger :=
  mkLogger (l_Printer l) (l_once l) (l_out l) (l_priority l) (l_disabled l) (l_isKernel l) w.

(** The process: its default logger and the world. *)
Record Sys := mkSys { sys_logger : Logger; sys_world : World }.

(** Steps on the logger alone and on the world alone. *)
Definition on_logger (f : Logger → Logger) : GoM Sys unit :=
  go_modify (λ s, mkSys (f (sys_logger s)) (sys_world s)).
Definition in_world {A} (m : GoM World A) : GoM Sys A := λ s,
  let '(r, w) := m (sys_world s) in (r, mkSys (sys_logger s) w).

Section logger.
Context `{LogLib, GoEnv}.

(** [format]: the tags in the order in which the map is traversed. *)
Definition format_tags (fields : gmap string (option Arg)) : string :=
  let tags := (λ kv, match kv.2 with
                     | None => "[" +:+ kv.1 +:+ "]"
                     | Some v => "[" +:+ kv.1 +:+ "=" +:+ show_v v +:+ "]"
                     end) <$> map_range ["format"] fields in
  let data := String.concat " " tags in
  if str_empty data then data else data +:+ " ".
Definition format (data frmt : string) (a : list Arg) : string :=
  if str_empty frmt then data +:+ Sprint a else data +:+ Sprintf frmt a.

Definition WithFields (kvs : gmap string (option Arg)) : Printer := BoundPrinter (format_tags kvs).
Definition WithField (key : string) (value : option Arg) : Printer := WithFields {[ key := value ]}.

Definition initPrinter (l : Logger) : Logger :=
  if l_once l then l
  else mkLogger (WithFields ∅) true (l_out l) (l_priority l) (l_disabled l) (l_isKernel l) (l_syslogW l).

Definition SetOutput (w : option Z) : GoM Sys unit :=
  on_logger initPrinter ;;
  on_logger (λ l, mkLogger (l_Printer l) (l_once l) w (l_priority l) (l_disabled l) (l_isKernel l) (l_syslogW l)).

Definition SetFacility (p : Z) : GoM Sys unit :=
  on_logger initPrinter ;;
  if bool_decide (LOG_LOCAL7 < Z.land p facilityMask) then go_panic "invalid facility"
  else on_logger (λ l,
         mkLogger (l_Printer l) (l_once l) (l_out l) (syslevel (getLevel l) p) (l_disabled l)
           (bool_decide (Z.land p facilityMask = LOG_KERN)) (l_syslogW l)).

Definition SetLevel (p : Z) : GoM Sys unit := on_logger initPrinter ;; on_logger (setLevel p).
Definition GetFacility : GoM Sys Z := s ← go_get; mret (getFacility (sys_logger s)).
Definition GetLevel : GoM Sys Z := s ← go_get; mret (getLevel (sys_logger s)).

Definition log_connect (net addr : string) (conf : bool) : GoM Sys error :=
  on_logger initPrinter ;;
  s ← go_get;
  match l_syslogW (sys_logger s) with
  | Some _ => mret (errors_New "syslog already dialed")
  | None =>
      let priority := syslevel LOG_DEBUG (getFacility (sys_logger s)) in
      r ← in_world (DialTLS net addr priority svcName conf);
      match r with
      | inl w => on_logger (set_syslogW (Some w)) ;; mret nil_err
      | inr e => mret (Some e)
      end
  end.
Definition ConnectSyslog (addr : string) : GoM Sys error :=
  log_connect (if str_empty addr then "" else "udp") addr false.
Definition ConnectSyslogTLS (addr : string) (conf : bool) : GoM Sys error := log_connect "tcp" addr conf.

Definition DisconnectSyslog : GoM Sys error :=
  s ← go_get;
  match l_syslogW (sys_logger s) with
  | None => mret nil_err
  | Some w => '(_, err) ← in_world (sw_Close w); on_logger (set_syslogW None) ;; mret err
  end.

(** A line of the local log. *)
Definition local_line (l : Logger) (p : Z) (stamp text : string) : string :=
  "<" +:+ Itoa (syslevel p (l_priority l)) +:+ ">" +:+ stamp +:+ " " +:+ svcName +:+ "[" +:+ Itoa Getpid
    +:+ "]: " +:+ text.

(** [write] of the logger [l]. *)
Definition write (l : Logger) (p : Z) (msg : string) : GoM World unit :=
  if bool_decide (getLevel l < Z.land p severityMask) then mret tt
  else
    w ← go_get;
    err ← act (EvLocal (l_out l) (local_line l p (Stamp (w_trace w)) (msg +:+ missing_nl msg)));
    match err with
    | Some e => go_modify (λ w, mkWorld (w_trace w ++ [EvStd ("error writing to local log: " +:+ e)])
                                  (w_faults w) (w_conns w))
    | None => mret tt
    end.

Definition trim_nl (s : string) : string :=
  if has_suffix s newline then String.substring 0 (String.length s - 1) s else s.

(** [writeSyslog] of the logger [l]: its connection afterwards. *)
Definition writeSyslog (l : Logger) (p : Z) (msg : string) : GoM World (option SyslogWriter) :=
  let msg := msg +:+ missing_nl msg in
  match l_syslogW l with
  | None => mret None
  | Some syslogW =>
      let sev := Z.land p severityMask in
      '(syslogW, err) ←
        (if bool_decide (sev = LOG_DEBUG) then sw_Debug syslogW msg
         else if bool_decide (sev = LOG_INFO) then sw_Info syslogW msg
         else if bool_decide (sev = LOG_NOTICE) then sw_Notice syslogW msg
         else if bool_decide (sev = LOG_WARNING) then sw_Warning syslogW msg
         else if bool_decide (sev = LOG_ERR) then sw_Err syslogW msg
         else if bool_decide (sev = LOG_CRIT) then sw_Crit syslogW msg
         else if bool_decide (sev = LOG_ALERT) then sw_Alert syslogW msg
         else if bool_decide (sev = LOG_EMERG) then sw_Emerg syslogW msg
         else go_panic "unknown log level");
      match err with
      | None => mret (Some syslogW)
      | Some e =>
          let errmsg := trim_nl ("error writing to syslog: " +:+ e) +:+ newline in
          w ← go_get;
          err2 ← act (EvLocal (l_out l) (local_line l p (RFC3339Nano (w_trace w)) errmsg));
          match err2 with
          | Some e2 =>
              go_modify (λ w, mkWorld (w_trace w ++ [EvStd ("error writing to local log about being unable to write to syslog:"
                                          +:+ newline +:+ e +:+ newline +:+ newline +:+ e2)])
                                (w_faults w) (w_conns w)) ;;
              mret (Some syslogW)
          | None => mret (Some syslogW)
          end
      end
  end.

(** A printer without functions formats and writes with loggers of its own. *)
Definition Printf (p : Printer) (lvl : Z) (frmt : string) (a : list Arg) : GoM Sys unit :=
  s ← go_get;
  match p with
  | ZeroPrinter =>
      let msg := if str_empty frmt then Sprint a else Sprintf frmt a in
      in_world (write (mkLogger ZeroPrinter false None lvl false false None) lvl msg) ;;
      in_world (writeSyslog zero_logger lvl msg) ;;
      mret tt
  | BoundPrinter data =>
      let msg := format data frmt a in
      in_world (write (sys_logger s) lvl msg) ;;
      w ← in_world (writeSyslog (sys_logger s) lvl msg);
      on_logger (set_syslogW w)
  end.
Definition Print (p : Printer) (lvl : Z) (a : list Arg) : GoM Sys unit := Printf p lvl "" a.
Definition Println (p : Printer) (lvl : Z) (a : list Arg) : GoM Sys unit :=
  Print p lvl (a ++ [arg_string newline]).

(** [Debugf] to [Emergf], and those without a format. *)
Definition Debugf (p : Printer) := Printf p LOG_DEBUG.
Definition Infof (p : Printer) := Printf p LOG_INFO.
Definition Noticef (p : Printer) := Printf p LOG_NOTICE.
Definition Warningf (p : Printer) := Printf p LOG_WARNING.
Definition Errf (p : Printer) := Printf p LOG_ERR.
Definition Critf (p : Printer) := Printf p LOG_CRIT.
Definition Alertf (p : Printer) := Printf p LOG_ALERT.
Definition Emergf (p : Printer) := Printf p LOG_EMERG.
Definition Debug (p : Printer) := Debugf p "".
Definition Info (p : Printer) := Infof p "".
Definition Notice (p : Printer) := Noticef p "".
Definition Warning (p : Printer) := Warningf p "".
Definition Err (p : Printer) := Errf p "".
Definition Crit (p : Printer) := Critf p "".
Definition Alert (p : Printer) := Alertf p "".
Definition Emerg (p : Printer) := Emergf p "".
Definition Debugln (p : Printer) := Debugf p "".
Definition Infoln (p : Printer) := Infof p "".
Definition Noticeln (p : Printer) := Noticef p "".
Definition Warningln (p : Printer) := Warningf p "".
Definition Errln (p : Printer) := Errf p "".
Definition Critln (p : Printer) := Critf p "".
Definition Alertln (p : Printer) := Alertf p "".
Definition Emergln (p : Printer) := Emergf p "".

(** ** Signals (interrupt.go) *)

(** SIGUSR1 and SIGUSR2. *)
Definition verbosity_down : GoM Sys unit := on_logger (λ l, setLevel (getLevel l - 1) l).
Definition verbosity_up : GoM Sys unit := on_logger (λ l, setLevel (getLevel l + 1) l).

(** ** The functions of the package (log.go) *)

Inductive severity := SEmerg | SAlert | SCrit | SErr | SWarning | SNotice | SInfo | SDebug.

(** A function without suffix, with [ln] and with [f]. *)
Inductive logFunc :=
| FSetOutput (w : option Z)
| FSetFacility (p : Z)
| FSetLevel (p : Z)
| FConnectSyslog (addr : string)
| FDisconnectSyslog
| FPrint (p : Z) (a : list Arg)
| FPrintln (p : Z) (a : list Arg)
| FPrintf (p : Z) (frmt : string) (a : list Arg)
| FLog (s : severity) (a : list Arg)
| FLogln (s : severity) (a : list Arg)
| FLogf (s : severity) (frmt : string) (a : list Arg).

(** All but [Debugln] call the function without [ln]. *)
Definition package_call (f : logFunc) : GoM Sys unit :=
  s ← go_get;
  let p := l_Printer (sys_logger s) in
  match f with
  | FSetOutput w => SetOutput w
  | FSetFacility q => SetFacility q
  | FSetLevel q => SetLevel q
  | FConnectSyslog addr => ConnectSyslog addr ;; mret tt
  | FDisconnectSyslog => DisconnectSyslog ;; mret tt
  | FPrint q a => Print p q a
  | FPrintln q a => Println p q a
  | FPrintf q frmt a => Printf p q frmt a
  | FLogln SDebug a => Debugln p a
  | FLog SDebug a => Debug p a
  | FLogf SDebug frmt a => Debugf p frmt a
  | FLog SInfo a | FLogln SInfo a => Info p a
  | FLogf SInfo frmt a => Infof p frmt a
  | FLog SNotice a | FLogln SNotice a => Notice p a
  | FLogf SNotice frmt a => Noticef p frmt a
  | FLog SWarning a | FLogln SWarning a => Warning p a
  | FLogf SWarning frmt a => Warningf p frmt a
  | FLog SErr a | FLogln SErr a => Err p a
  | FLogf SErr frmt a => Errf p frmt a
  | FLog SCrit a | FLogln SCrit a => Crit p a
  | FLogf SCrit frmt a => Critf p frmt a
  | FLog SAlert a | FLogln SAlert a => Alert p a
  | FLogf SAlert frmt a => Alertf p frmt a
  | FLog SEmerg a | FLogln SEmerg a => Emerg p a
  | FLogf SEmerg frmt a => Emergf p frmt a
  end.

(** ** The adapter for gRPC (grpclogger.go) *)

(** On the default logger; [g_once] tells whether [init] has run. *)
Record GrpcLogger := mkGrpcLogger { g_PrintLevel : Z; g_once : bool }.
Definition grpc_init (l : GrpcLogger) : GrpcLogger :=
  if g_once l then l
  else mkGrpcLogger (if bool_decide (g_PrintLevel l = 0) then LOG_INFO else g_PrintLevel l) true.

Inductive grpcFunc :=
| GPrint (a : list Arg) | GPrintln (a : list Arg) | GPrintf (frmt : string) (a : list Arg)
| GInfo (a : list Arg) | GInfoln (a : list Arg) | GInfof (frmt : string) (a : list Arg)
| GWarning (a : list Arg) | GWarningln (a : list Arg) | GWarningf (frmt : string) (a : list Arg)
| GError (a : list Arg) | GErrorln (a : list Arg) | GErrorf (frmt : string) (a : list Arg)
| GFatal (a : list Arg) | GFatalln (a : list Arg) | GFatalf (frmt : string) (a : list Arg).

(** [Fatal] ends the process. *)
Definition grpc_call (l : GrpcLogger) (f : grpcFunc) : GoM Sys GrpcLogger :=
  let l := grpc_init l in
  s ← go_get;
  let p := l_Printer (sys_logger s) in
  _ ← (match f with
       | GPrint a | GPrintln a => Print p (g_PrintLevel l) a
       | GPrintf frmt a => Printf p (g_PrintLevel l) frmt a
       | GInfo a | GInfoln a => Info p a
       | GInfof frmt a => Infof p frmt a
       | GWarning a | GWarningln a => Warning p a
       | GWarningf frmt a => Warningf p frmt a
       | GError a | GErrorln a => Err p a
       | GErrorf frmt a => Errf p frmt a
       | GFatal a | GFatalln a => Alert p a ;; go_panic "exit status 1"
       | GFatalf frmt a => Alertf p frmt a ;; go_panic "exit status 1"
       end);
  mret l.

Definition grpc_V (level : Z) : GoM Sys bool :=
  lvl ← GetLevel;
  mret (if bool_decide (level = 0) then bool_decide (LOG_ERR ≤ lvl)
        else if bool_decide (level = 1) then bool_decide (LOG_WARNING ≤ lvl)
        else if bool_decide (level = 2) then bool_decide (LOG_INFO ≤ lvl)
        else false).
End logger.

(** ** The level and the facility *)

Section levels.
Context `{LogLib, GoEnv}.

(** Everything the process does with its default logger; a printer is one that
    [WithFields] made. *)
Inductive logOp :=
| OpCall (f : logFunc)
| OpPrint (data : string) (lvl : Z) (frmt : string) (a : list Arg)
| OpUp
| OpDown.
Definition log_op (o : logOp) : GoM Sys unit :=
  match o with
  | OpCall f => package_call f
  | OpPrint data lvl frmt a => Printf (BoundPrinter data) lvl frmt a
  | OpUp => verbosity_up
  | OpDown => verbosity_down
  end.
Definition log_run (ops : list logOp) (s : Sys) : Sys := foldl (λ s o, exec (log_op o) s) s ops.

(** What each does to a level from 0 to 7 and a facility. *)
Definition facility_of (p : Z) : Z := 8 * ((p / 8) mod 32).
Definition spec_levels (o : logOp) (v : Z * Z) : Z * Z :=
  match o with
  | OpCall (FSetLevel p) => (p mod 8, v.2)
  | OpCall (FSetFacility p) => if bool_decide (facility_of p ≤ LOG_LOCAL7) then (v.1, facility_of p) else v
  | OpUp => ((v.1 + 1) mod 8, v.2)
  | OpDown => ((v.1 - 1) mod 8, v.2)
  | _ => v
  end.

Definition levels (l : Logger) : Z * Z := (getLevel l, getFacility l).

Lemma sev_mod p : Z.land p severityMask = p mod 8.
Proof. exact (Z.land_ones p 3 ltac:(lia)). Qed.

Lemma fac_bits p : Z.land p facilityMask = facility_of p.
Proof.
  unfold facility_of. change facilityMask with (Z.shiftl (Z.ones 5) 3).
  change 32 with (2 ^ 5). rewrite <- Z.land_ones by lia.
  change 8 with (2 ^ 3). rewrite <- Z.shiftr_div_pow2 by lia. rewrite Z.mul_comm, <- Z.shiftl_mul_pow2 by lia.
  rewrite Z.shiftl_land. apply Z.bits_inj'. intros n Hn. rewrite !Z.land_spec.
  destruct (decide (n < 3)) as [Hl|Hl].
  - rewrite (Z.shiftl_spec_low (Z.ones 5)) by lia. by rewrite !andb_false_r.
  - rewrite (Z.shiftl_spec (Z.shiftr p 3)) by lia. rewrite Z.shiftr_spec by lia. by rewrite Z.sub_add.
Qed.

Lemma sev_syslevel a b : Z.land (syslevel a b) severityMask = Z.land a severityMask.
Proof.
  unfold syslevel. rewrite Z.land_lor_distr_l, <- !Z.land_assoc. rewrite Z.land_0_r, Z.lor_0_r. done.
Qed.
Lemma fac_syslevel a b : Z.land (syslevel a b) facilityMask = Z.land b facilityMask.
Proof.
  unfold syslevel. rewrite Z.land_lor_distr_l, <- !Z.land_assoc. rewrite Z.land_0_r, Z.lor_0_l. done.
Qed.

Lemma getFacility_fac l : Z.land (getFacility l) facilityMask = getFacility l.
Proof. unfold getFacility. case_match; [done|]. by rewrite <- Z.land_assoc. Qed.
Lemma getLevel_sev l : Z.land (getLevel l) severityMask = getLevel l.
Proof. unfold getLevel. case_match; [done|]. by rewrite <- Z.land_assoc. Qed.

(** Both as functions of the bits. *)
Lemma getLevel_bits l lv :
  Z.land (l_priority l) severityMask = lv →
  getLevel l = if bool_decide (lv = LOG_EMERG) && negb (l_disabled l) then DefaultLevel else lv.
Proof. by intros <-. Qed.
Lemma getFacility_bits l fac :
  Z.land (l_priority l) facilityMask = fac →
  getFacility l = if bool_decide (fac = LOG_KERN) && negb (l_isKernel l) then DefaultFacility else fac.
Proof. by intros <-. Qed.
Lemma getLevel_emerg l : getLevel l = LOG_EMERG → l_disabled l = true.
Proof. unfold getLevel. case_bool_decide; [|done]. by destruct (l_disabled l). Qed.
Lemma getFacility_kern l : getFacility l = LOG_KERN → l_isKernel l = true.
Proof. unfold getFacility. case_bool_decide; [|done]. by destruct (l_isKernel l). Qed.

Lemma setLevel_levels p l : levels (setLevel p l) = (p mod 8, getFacility l).
Proof.
  assert (0 ≤ p mod 8 < 8) as Hp by (apply Z.mod_pos_bound; lia).
  assert (setLevel p l = mkLogger (l_Printer l) (l_once l) (l_out l) (syslevel p (getFacility l))
            (bool_decide (p mod 8 = LOG_EMERG)) (l_isKernel l) (l_syslogW l)) as ->.
  { unfold setLevel. rewrite !bool_decide_eq_false_2 by (rewrite sev_mod; unfold LOG_DEBUG, LOG_EMERG; lia).
    f_equal. apply bool_decide_ext. by rewrite sev_mod. }
  set (l' := mkLogger _ _ _ _ _ _ _). unfold levels.
  rewrite (getLevel_bits l' (p mod 8)) by (etrans; [apply sev_syslevel|apply sev_mod]).
  rewrite (getFacility_bits l' (getFacility l)) by (etrans; [apply fac_syslevel|apply getFacility_fac]).
  cbn [l' l_disabled l_isKernel]. f_equal.
  - by case_bool_decide.
  - case_bool_decide as Hf; [|done]. by rewrite (getFacility_kern _ Hf).
Qed.

Lemma SetFacility_levels p l :
  levels (mkLogger (l_Printer l) (l_once l) (l_out l) (syslevel (getLevel l) p) (l_disabled l)
            (bool_decide (Z.land p facilityMask = LOG_KERN)) (l_syslogW l)) = (getLevel l, facility_of p).
Proof.
  set (l' := mkLogger _ _ _ _ _ _ _). unfold levels.
  rewrite (getLevel_bits l' (getLevel l)) by (etrans; [apply sev_syslevel|apply getLevel_sev]).
  rewrite (getFacility_bits l' (Z.land p facilityMask)) by apply fac_syslevel.
  cbn [l' l_disabled l_isKernel]. rewrite <- fac_bits. f_equal.
  - case_bool_decide as Hf; [|done]. by rewrite (getLevel_emerg _ Hf).
  - by case_bool_decide.
Qed.

(** What does not set a level keeps both. *)
Definition keeps_levels {A} (m : GoM Sys A) : Prop := ∀ v, preserves (λ s, levels (sys_logger s) = v) m.

Lemma levels_of_in_world {A} (m : GoM World A) : keeps_levels (in_world m).
Proof. intros v s Hs. unfold in_world. by destruct (m (sys_world s)). Qed.
Lemma levels_of_on_logger f : (∀ l, levels (f l) = levels l) → keeps_levels (on_logger f).
Proof. intros Hf v s Hs. cbn. by rewrite Hf. Qed.
Lemma levels_of_bind {A B} (m : GoM Sys A) (k : A → GoM Sys B) :
  keeps_levels m → (∀ a, keeps_levels (k a)) → keeps_levels (m ≫= k).
Proof. intros Hm Hk v. apply preserves_bind; [apply Hm|]. intros a. apply Hk. Qed.
Lemma levels_of_ret {A} (a : A) : keeps_levels (mret a).
Proof. intros v. apply preserves_ret. Qed.
Lemma levels_of_get : keeps_levels go_get.
Proof. intros v. apply preserves_get. Qed.
Lemma levels_of_init : keeps_levels (on_logger initPrinter).
Proof. apply levels_of_on_logger. intros l. unfold initPrinter. by destruct (l_once l). Qed.

Create HintDb levels.
Hint Resolve levels_of_in_world levels_of_bind levels_of_ret levels_of_get levels_of_init : levels.

Lemma levels_of_Printf p lvl frmt a : keeps_levels (Printf p lvl frmt a).
Proof.
  apply levels_of_bind; [apply levels_of_get|]. intros s. destruct p as [|data]; [auto with levels|].
  apply levels_of_bind; [auto with levels|]. intros _. apply levels_of_bind; [auto with levels|].
  intros w. by apply levels_of_on_logger.
Qed.

Lemma levels_of_connect net addr conf : keeps_levels (log_connect net addr conf).
Proof.
  apply levels_of_bind; [apply levels_of_init|]. intros _. apply levels_of_bind; [apply levels_of_get|]. intros s.
  destruct (l_syslogW _); [apply levels_of_ret|]. apply levels_of_bind; [apply levels_of_in_world|].
  intros [w|e]; [|apply levels_of_ret]. apply levels_of_bind; [by apply levels_of_on_logger|]. auto with levels.
Qed.
Lemma levels_of_disconnect : keeps_levels DisconnectSyslog.
Proof.
  apply levels_of_bind; [apply levels_of_get|]. intros s. destruct (l_syslogW _); [|apply levels_of_ret].
  apply levels_of_bind; [apply levels_of_in_world|]. intros [w err]. apply levels_of_bind; [by apply levels_of_on_logger|].
  auto with levels.
Qed.
Lemma levels_of_SetOutput w : keeps_levels (SetOutput w).
Proof. apply levels_of_bind; [apply levels_of_init|]. intros _. by apply levels_of_on_logger. Qed.

(** One operation. *)
Lemma log_op_levels o s :
  levels (sys_logger (exec (log_op o) s)) = spec_levels o (levels (sys_logger s)).
Proof.
  assert (∀ m : GoM Sys unit, keeps_levels m → levels (sys_logger (exec m s)) = levels (sys_logger s)) as K.
  { intros m Hm. by apply (Hm (levels (sys_logger s))). }
  assert (∀ l, levels (initPrinter l) = levels l) as Hi by (intros l; unfold initPrinter; by destruct (l_once l)).
  destruct o as [f|data lvl frmt a| |].
  - unfold log_op, package_call, exec. rewrite bind_get.
    destruct f as [w|p|p|addr| |p a|p a|p frmt a|sv a|sv a|sv frmt a].
    + apply (K _ (levels_of_SetOutput w)).
    + unfold SetFacility, on_logger. rewrite bind_modify. cbn [sys_logger sys_world].
      cbn [spec_levels]. destruct (decide (LOG_LOCAL7 < Z.land p facilityMask)) as [Hp|Hp].
      * rewrite (bool_decide_eq_true_2 (LOG_LOCAL7 < _)) by done. rewrite fac_bits in Hp.
        rewrite bool_decide_eq_false_2 by lia. cbn [go_panic snd sys_logger]. apply Hi.
      * rewrite (bool_decide_eq_false_2 (LOG_LOCAL7 < _)) by done. rewrite fac_bits in Hp.
        rewrite (bool_decide_eq_true_2 (facility_of p ≤ LOG_LOCAL7)) by lia.
        etrans; [exact (SetFacility_levels p (initPrinter (sys_logger s)))|].
        pose proof (Hi (sys_logger s)) as E. injection E as E _. cbn. by rewrite E.
    + unfold SetLevel, on_logger. rewrite bind_modify.
      etrans; [exact (setLevel_levels p (initPrinter (sys_logger s)))|].
      pose proof (Hi (sys_logger s)) as E. injection E as _ E. cbn. by rewrite E.
    + apply (K (_ ;; _)), levels_of_bind; [apply levels_of_connect|]. intros. apply levels_of_ret.
    + apply (K (_ ;; _)), levels_of_bind; [apply levels_of_disconnect|]. intros. apply levels_of_ret.
    + apply (K _ (levels_of_Printf _ _ _ _)).
    + apply (K _ (levels_of_Printf _ _ _ _)).
    + apply (K _ (levels_of_Printf _ _ _ _)).
    + destruct sv; apply (K _ (levels_of_Printf _ _ _ _)).
    + destruct sv; apply (K _ (levels_of_Printf _ _ _ _)).
    + destruct sv; apply (K _ (levels_of_Printf _ _ _ _)).
  - apply (K _ (levels_of_Printf _ _ _ _)).
  - apply setLevel_levels.
  - apply setLevel_levels.
Qed.

(** C27: Whatever is done with the default logger, the level and
    the facility it reports are those of an abstract logger that starts with INFO
    and LOCAL0: setting one keeps the other, printing and connecting keep both,
    a facility above LOCAL7 is refused, and more or less verbosity counts
    modulo 8, so that it wraps around at both ends instead of stopping there. *)
Theorem log_levels_refine ops w :
  let l := sys_logger (log_run ops (mkSys zero_logger w)) in
  levels l = foldl (λ v o, spec_levels o v) (LOG_INFO, LOG_LOCAL0) ops ∧
  0 ≤ getLevel l ≤ LOG_DEBUG ∧ 0 ≤ getFacility l ≤ LOG_LOCAL7 ∧ getFacility l mod 8 = 0.
Proof.
  set (ok v := 0 ≤ v.1 ≤ LOG_DEBUG ∧ 0 ≤ v.2 ≤ LOG_LOCAL7 ∧ v.2 mod 8 = 0).
  assert (∀ o v, ok v → ok (spec_levels o v)) as Hspec.
  { intros o [lv fac] (H1 & H2 & H3). cbn in *. unfold ok, LOG_DEBUG, LOG_LOCAL7 in *.
    assert (∀ z, 0 ≤ z mod 8 < 8) by (intros; apply Z.mod_pos_bound; lia).
    destruct o as [[]| | |]; cbn in *; try done.
    - case_bool_decide; cbn; [|done]. split; [done|]. unfold facility_of in *.
      assert (0 ≤ p / 8 mod 32 < 32) by (apply Z.mod_pos_bound; lia).
      unfold LOG_LOCAL7 in *. split; [lia|]. by rewrite Z.mul_comm, Z.mod_mul.
    - specialize (H4 p). lia.
    - specialize (H4 (lv + 1)). lia.
    - specialize (H4 (lv - 1)). lia. }
  assert (∀ s, ok (levels (sys_logger s)) →
    levels (sys_logger (log_run ops s)) = foldl (λ v o, spec_levels o v) (levels (sys_logger s)) ops ∧
    ok (levels (sys_logger (log_run ops s)))) as Hrun.
  { induction ops as [|o ops IH]; intros s Hs; [done|]. unfold log_run in *. cbn [foldl].
    rewrite <- (log_op_levels o s). apply IH. rewrite log_op_levels. by apply Hspec. }
  apply (Hrun (mkSys zero_logger w)). by vm_compute.
Qed.
End levels.

(** ** Delivery *)

Section delivery.
Context `{LogLib, GoEnv}.

(** The lines that reached syslog, and those that were tried. *)
Definition ok_send (e : event) : option string :=
  match e with EvSend _ line None => Some line | _ => None end.
Definition tried_send (e : event) : option string :=
  match e with EvSend _ line _ => Some line | _ => None end.

(** From [wd] to [wd'] exactly [evs] happened. *)
Definition happens (wd : World) (evs : list event) (wd' : World) : Prop := w_trace wd' = w_trace wd ++ evs.

Lemma happens_nil wd : happens wd [] wd.
Proof. unfold happens. by rewrite app_nil_r. Qed.
Lemma happens_app wd e1 wd1 e2 wd2 : happens wd e1 wd1 → happens wd1 e2 wd2 → happens wd (e1 ++ e2) wd2.
Proof. unfold happens. intros E1 E2. by rewrite E2, E1, app_assoc. Qed.

Lemma act_happens ev wd : ∃ err wd', act ev wd = (Ret err, wd') ∧ happens wd [ev err] wd'.
Proof. do 2 eexists. split; reflexivity. Qed.

(** Nothing is sent. *)
Definition silent (evs : list event) : Prop := omap tried_send evs = [].

Lemma silent_ok evs : silent evs → omap ok_send evs = [].
Proof.
  unfold silent. induction evs as [|e evs IH]; [done|]. cbn.
  destruct e as [| | |c line [e|]|]; cbn; try done; exact IH.
Qed.
Lemma silent_app a b : silent a → silent b → silent (a ++ b).
Proof. unfold silent. intros Ha Hb. by rewrite omap_app, Ha, Hb. Qed.

Lemma net_Dial_spec network addr wd :
  ∃ r err wd', net_Dial network addr wd = (Ret r, wd') ∧ happens wd [EvDial network addr err] wd'.
Proof.
  unfold net_Dial. destruct (act_happens (EvDial network addr) wd) as (err & wd1 & E & Hh).
  rewrite (bind_ret _ _ _ _ _ E). destruct err as [e|].
  - by do 3 eexists.
  - rewrite bind_get, bind_modify. do 3 eexists. split; [reflexivity|]. exact Hh.
Qed.

Lemma unixSyslog_spec wd :
  ∃ c err evs wd', unixSyslog wd = (Ret (c, err), wd') ∧ happens wd evs wd' ∧ silent evs ∧
    (err = None → is_Some c).
Proof.
  unfold unixSyslog.
  assert (∀ l wd, ∃ r evs wd', for_acc l (λ '(network, p) (_ : unit),
        r ← net_Dial network p;
        mret (match r with inl conn => inr (mkNetConn true conn) | inr _ => inl tt end)) tt wd
      = (Ret r, wd') ∧ happens wd evs wd' ∧ silent evs) as Hloop.
  { intros l. induction l as [|[network p] l IH]; intros wd0; cbn [for_acc].
    - do 3 eexists. split; [reflexivity|]. split; [apply happens_nil|done].
    - destruct (net_Dial_spec network p wd0) as (r & err & wd1 & E & Hh).
      rewrite bind_assoc, (bind_ret _ _ _ _ _ E), bind_mret. destruct r as [c|e].
      + do 3 eexists. split; [reflexivity|]. split; [exact Hh|done].
      + destruct (IH wd1) as (r & evs & wd2 & E2 & Hh2 & Hs2). exists r, ([EvDial network p err] ++ evs), wd2.
        split; [done|]. split; [by eapply happens_app|by apply silent_app]. }
  destruct (Hloop syslog_sockets wd) as (r & evs & wd' & E & Hh & Hs). rewrite (bind_ret _ _ _ _ _ E).
  destruct r as [u|c]; do 4 eexists; (split; [reflexivity|]); split_and!; try done; by eexists.
Qed.

Lemma default_hostname_conn h w : sw_conn (default_hostname h w) = sw_conn w.
Proof. unfold default_hostname. by case_match. Qed.
Lemma default_hostname_prio h w : sw_priority (default_hostname h w) = sw_priority w.
Proof. unfold default_hostname. by case_match. Qed.

Lemma sw_connect_spec w wd :
  ∃ w' err evs wd', sw_connect w wd = (Ret (w', err), wd') ∧ happens wd evs wd' ∧ silent evs ∧
    sw_priority w' = sw_priority w ∧ (err = None → is_Some (sw_conn w')).
Proof.
  unfold sw_connect.
  assert (∃ evs wd1, (match sw_conn w with
       | Some c => conn_close c ;; mret (set_conn None w)
       | None => mret w
       end) wd = (Ret (set_conn None w), wd1) ∧ happens wd evs wd1 ∧ silent evs) as (e1 & wd1 & E1 & H1 & S1).
  { destruct (sw_conn w) as [c|] eqn:Hc.
    - destruct (act_happens (EvClose (nc_conn c)) wd) as (err & wd1 & E & Hh).
      exists [EvClose (nc_conn c) err], wd1. unfold conn_close. by rewrite (bind_ret _ _ _ _ _ E).
    - exists [], wd. split; [|split; [apply happens_nil|done]]. destruct w. cbn in Hc. by subst. }
  rewrite (bind_ret _ _ _ _ _ E1). destruct (str_empty _).
  - destruct (unixSyslog_spec wd1) as (c & err & e2 & wd2 & E2 & H2 & S2 & Hc).
    rewrite (bind_ret _ _ _ _ _ E2). do 4 eexists. split; [reflexivity|].
    rewrite default_hostname_conn, default_hostname_prio.
    split; [by eapply happens_app|]. split; [by apply silent_app|done].
  - destruct (net_Dial_spec (sw_network (set_conn None w)) (sw_raddr (set_conn None w)) wd1)
      as (r & err & wd2 & E2 & H2).
    rewrite (bind_ret _ _ _ _ _ E2). destruct r as [c|e]; do 4 eexists; (split; [reflexivity|]).
    + rewrite default_hostname_conn, default_hostname_prio.
      split; [by eapply happens_app|]. split; [by apply silent_app|]. split; [done|]. by eexists.
    + split; [by eapply happens_app|]. split; [by apply silent_app|done].
Qed.

(** A line of syslog with the priority [pr] and the message [msg]. *)
Definition syslog_line (pr : Z) (msg line : string) : Prop :=
  ∃ middle, line = "<" +:+ Itoa pr +:+ ">" +:+ (middle +:+ ("[" +:+ Itoa Getpid +:+ "]: " +:+ msg +:+ missing_nl msg)).

Lemma sw_write_spec w pr msg wd :
  is_Some (sw_conn w) →
  ∃ n c line err wd', sw_write w pr msg wd = (Ret (n, err), wd') ∧ happens wd [EvSend c line err] wd' ∧
    syslog_line pr msg line.
Proof.
  intros [c Hc]. unfold sw_write. rewrite Hc. unfold writeString. rewrite bind_assoc, bind_get.
  set (line := if nc_local c then _ else _).
  destruct (act_happens (EvSend (nc_conn c) line) wd) as (err & wd1 & E & Hh).
  rewrite (bind_ret _ _ _ _ _ E).
  assert (syslog_line pr msg line) as Hl.
  { unfold line. destruct (nc_local c).
    - exists (Stamp (w_trace wd) +:+ " " +:+ sw_tag w). by rewrite <- !str_app_assoc.
    - exists (RFC3339 (w_trace wd) +:+ " " +:+ sw_hostname w +:+ " " +:+ sw_tag w). by rewrite <- !str_app_assoc. }
  destruct err as [e|]; do 5 eexists; (split; [reflexivity|]); by split.
Qed.

Lemma prio_sum fac p : Z.lor (Z.land fac facilityMask) (Z.land p severityMask) = facility_of fac + p mod 8.
Proof.
  rewrite <- fac_bits, <- sev_mod.
  assert (Z.land (Z.land fac facilityMask) (Z.land p severityMask) = 0) as Hd.
  { rewrite (Z.land_comm p), Z.land_assoc, <- (Z.land_assoc fac). by rewrite Z.land_0_r, Z.land_0_l. }
  by rewrite <- Z.lxor_lor, <- Z.add_nocarry_lxor.
Qed.

(** The message is sent once or not at all, after at most two attempts. *)
Lemma writeAndRetry_spec w p msg wd :
  ∃ w' n err evs wd', writeAndRetry w p msg wd = (Ret (w', (n, err)), wd') ∧ happens wd evs wd' ∧
    sw_priority w' = sw_priority w ∧ (length (omap tried_send evs) ≤ 2)%nat ∧
    match err with
    | None => ∃ line, omap ok_send evs = [line] ∧ syslog_line (facility_of (sw_priority w) + p mod 8) msg line
    | Some _ => omap ok_send evs = []
    end.
Proof.
  unfold writeAndRetry. rewrite prio_sum. set (pr := _ + _).
  assert (∀ w0 wd0 e0, sw_priority w0 = sw_priority w → silent e0 ∨ (∃ c line e, e0 = [EvSend c line (Some e)]) →
    happens wd e0 wd0 →
    ∃ w' n err evs wd', ('(w, err) ← sw_connect w0;
      match err with
      | Some e => mret (w, (0, Some e))
      | None => r ← sw_write w pr msg; mret (w, r)
      end) wd0 = (Ret (w', (n, err)), wd') ∧ happens wd evs wd' ∧
      sw_priority w' = sw_priority w ∧ (length (omap tried_send evs) ≤ 2)%nat ∧
      match err with
      | None => ∃ line, omap ok_send evs = [line] ∧ syslog_line pr msg line
      | Some _ => omap ok_send evs = []
      end) as Hagain.
  { intros w0 wd0 e0 Hp He0 Hh0.
    assert (length (omap tried_send e0) ≤ 1 ∧ omap ok_send e0 = [])%nat as [Hn0 Hok0].
    { destruct He0 as [Hs|(c & line & e & ->)]; [|by split]. rewrite (silent_ok _ Hs). rewrite Hs. split; [cbn; lia|done]. }
    destruct (sw_connect_spec w0 wd0) as (w1 & err & e1 & wd1 & E1 & H1 & S1 & Hp1 & Hc1).
    rewrite (bind_ret _ _ _ _ _ E1). destruct err as [e|].
    - exists w1, 0, (Some e), (e0 ++ e1), wd1. split; [done|]. split; [by eapply happens_app|]. split; [congruence|].
      rewrite !omap_app, (silent_ok _ S1), Hok0. rewrite S1, app_nil_r. split; [lia|done].
    - destruct (sw_write_spec w1 pr msg wd1 (Hc1 eq_refl)) as (n & c & line & err & wd2 & E2 & H2 & Hl).
      rewrite (bind_ret _ _ _ _ _ E2). exists w1, n, err, (e0 ++ e1 ++ [EvSend c line err]), wd2.
      split; [done|]. split; [eapply happens_app; [done|by eapply happens_app]|]. split; [congruence|].
      rewrite !omap_app, (silent_ok _ S1), Hok0, !length_app. rewrite S1. split; [cbn; lia|].
      destruct err as [e|]; [done|]. by exists line. }
  destruct (sw_conn w) as [c0|] eqn:Hc.
  - destruct (sw_write_spec w pr msg wd ltac:(by eexists)) as (n & c & line & err & wd1 & E1 & H1 & Hl).
    rewrite bind_assoc, (bind_ret _ _ _ _ _ E1), bind_mret. destruct err as [e|].
    + apply (Hagain w wd1 [EvSend c line (Some e)] eq_refl); [right; by do 3 eexists|done].
    + exists w, n, None, [EvSend c line None], wd1. split; [done|]. split; [done|]. split; [done|].
      split; [cbn; lia|]. by exists line.
  - rewrite bind_mret. apply (Hagain w wd [] eq_refl); [by left|apply happens_nil].
Qed.

(** The lines of the local output. *)
Definition local_ok (e : event) : option string := match e with EvLocal _ line None => Some line | _ => None end.

Lemma sw_cases (sev : Z) (w : SyslogWriter) (m : string) :
  0 ≤ sev < 8 →
  (if bool_decide (sev = LOG_DEBUG) then sw_Debug w m
   else if bool_decide (sev = LOG_INFO) then sw_Info w m
   else if bool_decide (sev = LOG_NOTICE) then sw_Notice w m
   else if bool_decide (sev = LOG_WARNING) then sw_Warning w m
   else if bool_decide (sev = LOG_ERR) then sw_Err w m
   else if bool_decide (sev = LOG_CRIT) then sw_Crit w m
   else if bool_decide (sev = LOG_ALERT) then sw_Alert w m
   else if bool_decide (sev = LOG_EMERG) then sw_Emerg w m
   else go_panic "unknown log level") = sw_send sev w m.
Proof.
  intros Hs. repeat case_bool_decide; subst; try done. exfalso.
  unfold LOG_DEBUG, LOG_INFO, LOG_NOTICE, LOG_WARNING, LOG_ERR, LOG_CRIT, LOG_ALERT, LOG_EMERG in *. lia.
Qed.

Lemma has_suffix_app a suf : has_suffix (a +:+ suf) suf = true.
Proof.
  induction a as [|c a IH].
  - change ("" +:+ suf) with suf. destruct suf; cbn; by rewrite bool_decide_eq_true_2.
  - change (String c a +:+ suf) with (String c (a +:+ suf)). cbn. by rewrite IH, orb_true_r.
Qed.

Lemma missing_nl_twice msg : missing_nl (msg +:+ missing_nl msg) = "".
Proof.
  unfold missing_nl at 1. enough (has_suffix (msg +:+ missing_nl msg) newline = true) as -> by done.
  unfold missing_nl. destruct (has_suffix msg newline) eqn:E; [by rewrite str_app_nil_r|].
  apply has_suffix_app.
Qed.

Lemma write_spec l p msg wd :
  ∃ loc wd', write l p msg wd = (Ret tt, wd') ∧ happens wd loc wd' ∧
    (getLevel l < p mod 8 → loc = []) ∧
    (p mod 8 ≤ getLevel l → ∃ stamp err rest,
       loc = EvLocal (l_out l) (local_line l p stamp (msg +:+ missing_nl msg)) err :: rest ∧ (err = None → rest = [])).
Proof.
  unfold write. rewrite (bool_decide_ext _ (getLevel l < p mod 8)) by (by rewrite sev_mod). case_bool_decide.
  { exists [], wd. split; [done|]. split; [apply happens_nil|]. split; [done|lia]. }
  rewrite bind_get. match goal with |- context [act ?ev] => destruct (act_happens ev wd) as (err & wd1 & E & Hh) end.
  rewrite (bind_ret _ _ _ _ _ E). destruct err as [e|]; do 2 eexists; (split; [reflexivity|]).
  - split; [eapply happens_app; [exact Hh|]; reflexivity|]. split; [lia|]. intros _. by do 3 eexists.
  - split; [exact Hh|]. split; [lia|]. intros _. by do 3 eexists.
Qed.

(** The line that tells of a message that could not be sent. *)
Definition told (l : Logger) (p : Z) (ev : event) : Prop :=
  ∃ stamp e err, ev = EvLocal (l_out l) (local_line l p stamp (trim_nl ("error writing to syslog: " +:+ e) +:+ newline)) err.

Lemma writeSyslog_spec l p msg wd :
  ∃ w' rem wd', writeSyslog l p msg wd = (Ret w', wd') ∧ happens wd rem wd' ∧
    sw_priority <$> w' = sw_priority <$> l_syslogW l ∧
    match l_syslogW l with
    | None => rem = []
    | Some w => (length (omap tried_send rem) ≤ 2)%nat ∧
        ((∃ line, omap ok_send rem = [line] ∧
            syslog_line (facility_of (sw_priority w) + p mod 8) (msg +:+ missing_nl msg) line) ∨
         (omap ok_send rem = [] ∧ ∃ ev, ev ∈ rem ∧ told l p ev))
    end.
Proof.
  unfold writeSyslog. destruct (l_syslogW l) as [w|].
  2: { exists None, [], wd. split; [done|]. split; [apply happens_nil|done]. }
  rewrite sw_cases by (rewrite sev_mod; apply Z.mod_pos_bound; lia). unfold sw_send. rewrite sev_mod, bind_assoc.
  set (m := msg +:+ missing_nl msg).
  destruct (writeAndRetry_spec w (p mod 8) m wd) as (w1 & n & err & evs & wd1 & E & Hh & Hp & Hn & Hr).
  rewrite Z.mod_mod in Hr by done. rewrite (bind_ret _ _ _ _ _ E), bind_mret. destruct err as [e|].
  - rewrite bind_get.
    match goal with |- context [act ?ev] => destruct (act_happens ev wd1) as (err2 & wd2 & E2 & Hh2) end.
    set (ev := EvLocal _ _ err2) in Hh2. rewrite (bind_ret _ _ _ _ _ E2).
    assert (∃ rest wd3, silent rest ∧ happens wd2 rest wd3 ∧ (match err2 with
          | Some e2 =>
              go_modify (λ w, mkWorld (w_trace w ++ [EvStd ("error writing to local log about being unable to write to syslog:"
                                          +:+ newline +:+ e +:+ newline +:+ newline +:+ e2)])
                                (w_faults w) (w_conns w)) ;;
              mret (Some w1)
          | None => mret (Some w1)
          end) wd2 = (Ret (Some w1), wd3)) as (rest & wd3 & Hs & Hh3 & ->).
    { destruct err2 as [e2|].
      { rewrite bind_modify. eexists [EvStd _], _. split; [done|]. split; [|reflexivity]. reflexivity. }
      exists [], wd2. split; [done|]. split; [apply happens_nil|done]. }
    exists (Some w1), (evs ++ [ev] ++ rest), wd3. split; [done|].
    split; [eapply happens_app; [exact Hh|]; by eapply happens_app|]. split; [cbn; by rewrite Hp|].
    assert (omap tried_send (evs ++ [ev] ++ rest) = omap tried_send evs) as ->.
    { rewrite !omap_app. rewrite Hs. apply app_nil_r. }
    split; [done|]. right. split; [by rewrite !omap_app, (silent_ok _ Hs), Hr|]. exists ev. split; [set_solver|]. by do 3 eexists.
  - exists (Some w1), evs, wd1. split; [done|]. split; [done|]. split; [cbn; by rewrite Hp|]. split; [done|]. by left.
Qed.

End delivery.

(** ** A process *)

Module LogScenario.
#[export] Instance demo_log : LogLib | 100 := {|
  Arg := string;
  arg_string s := s;
  Sprint a := String.concat "" a;
  Sprintf frmt a := frmt +:+ String.concat "" a;
  show_v s := s;
  Stamp _ := "Jan  1 00:00:00";
  RFC3339 _ := "2020-01-01T00:00:00Z";
  RFC3339Nano _ := "2020-01-01T00:00:00Z";
  svcName := "svc";
  Getpid := 1;
  Hostname := "edge";
  os_Args0 := "svc";
  LocalAddr _ := "10.0.0.1";
|}.

Definition started : list (@Arg demo_log) := ["started"].

(** The first write to the first connection fails. *)
Definition demo_world : World := mkWorld [] [None; None; Some "broken pipe"] 1.
Definition connected : Sys :=
  log_run [OpCall (FSetLevel LOG_ERR); OpCall (FConnectSyslog "log:514"); OpPrint "" LOG_INFO "" []] (mkSys zero_logger demo_world).
End LogScenario.
Import LogScenario.

Lemma log_levels_refine_witness :
  levels (sys_logger (log_run [OpCall (FSetFacility 152); OpCall (FSetLevel LOG_DEBUG); OpUp] (mkSys zero_logger demo_world)))
  = (LOG_EMERG, 152).
Proof.
  destruct (log_levels_refine [OpCall (FSetFacility 152); OpCall (FSetLevel LOG_DEBUG); OpUp] demo_world) as [E _].
  rewrite E. reflexivity.
Defined.


(** More verbosity than DEBUG is silence, less than EMERG is everything. *)
Example verbosity_wraps :
  getLevel (sys_logger (log_run [OpCall (FSetLevel LOG_DEBUG); OpUp] (mkSys zero_logger demo_world))) = LOG_EMERG ∧
  getLevel (sys_logger (log_run [OpCall (FSetLevel LOG_EMERG); OpDown] (mkSys zero_logger demo_world))) = LOG_DEBUG.
Proof. split; vm_compute; reflexivity. Qed.

(** A logger whose priority was never set writes with the facility KERN, while
    it reports LOCAL0; and before the first call that sets something, messages
    below its level are written. *)
Example fresh_logger_lines :
  w_trace (sys_world (log_run [OpCall (FSetOutput (Some 1)); OpCall (FLog SInfo started)] (mkSys zero_logger (mkWorld [] [] 1))))
  = [EvLocal (Some 1) ("<6>Jan  1 00:00:00 svc[1]: started" +:+ newline) None] ∧
  getFacility (sys_logger (log_run [OpCall (FSetOutput (Some 1))] (mkSys zero_logger (mkWorld [] [] 1)))) = LOG_LOCAL0 ∧
  w_trace (sys_world (log_run [OpCall (FLog SDebug started)] (mkSys zero_logger (mkWorld [] [] 1))))
  = [EvLocal None ("<7>Jan  1 00:00:00 svc[1]: started" +:+ newline) None] ∧
  getLevel zero_logger = LOG_INFO.
Proof. split_and!; vm_compute; reflexivity. Qed.
