(* ===== verification/Oam.v ===== *)
(** * The OAM of the NGC (epcforedge/ngc/pkg/oam)

    The stub that stands for the 5G core (ngc_apistub.go): a list of AF
    services behind the proxy (ngc_proxy.go) and its routes (routers.go).  A
    body is the document that its bytes are, if they are one; it is decoded
    into a structure that may already hold values, so that what was decoded
    before an error stays.  The abstract OAM is a finite map of services, and
    every run of the stub is a run of it. *)

From S2P Require Import Prelude Strconv Http Json JsonWire.
From stdpp Require Import prelude gmap strings list.
From Stdlib Require Import ZArith Ascii.

Local Open Scope Z_scope.

(** ** Data (model_5goam.go) *)

Record LocationService := mkLocationService {
  DNAI : string;
  DNN : string;
  TAC : Z;
  PriDNS : string;
  SecDNS : string;
  UPFIP : string;
  SNSSAI : string;
}.

Record AFService := mkAFService {
  afs_AFServiceID : string;
  afs_LocationService : LocationService;
}.

Definition zero_location : LocationService := mkLocationService "" "" 0 "" "" "" "".

(** [json.Marshal]; [omitempty] has no effect on a structure. *)
Definition location_json (l : LocationService) : json :=
  obj [("dnai", unless_empty (DNAI l)); ("dnn", unless_empty (DNN l)); ("tac", unless_empty (TAC l));
       ("priDns", unless_empty (PriDNS l)); ("secDns", unless_empty (SecDNS l));
       ("upfIp", unless_empty (UPFIP l)); ("snssai", unless_empty (SNSSAI l))].
Definition service_json (a : AFService) : json :=
  obj [("afServiceId", unless_empty (afs_AFServiceID a));
       ("locationService", Some (location_json (afs_LocationService a)))].
Definition AFServiceID_json (id : string) : json := obj [("afServiceId", unless_empty id)].

(** [json.Unmarshal] into a structure with values: [null] leaves a member, a
    value of another type leaves it and is an error, and decoding goes on. *)
Definition decode_string {L} (set : string → L → L) (j : json) (acc : L * bool) : L * bool :=
  match j with
  | JNull => acc
  | JStr s => (set s acc.1, acc.2)
  | _ => (acc.1, true)
  end.
Definition decode_int {L} (set : Z → L → L) (j : json) (acc : L * bool) : L * bool :=
  match j with
  | JNull => acc
  | JNum z => if in_range int_min max_int z then (set z acc.1, acc.2) else (acc.1, true)
  | _ => (acc.1, true)
  end.
Definition decode_struct {L} (member : string → json → L * bool → L * bool) (j : json) (l : L)
    : L * bool :=
  match j with
  | JNull => (l, false)
  | JObj ms => foldl (λ acc kv, member kv.1 kv.2 acc) (l, false) ms
  | _ => (l, true)
  end.

Definition location_member (k : string) (j : json) (acc : LocationService * bool)
    : LocationService * bool :=
  if String.eqb k "dnai" then
    decode_string (λ s l, mkLocationService s (DNN l) (TAC l) (PriDNS l) (SecDNS l) (UPFIP l) (SNSSAI l)) j acc
  else if String.eqb k "dnn" then
    decode_string (λ s l, mkLocationService (DNAI l) s (TAC l) (PriDNS l) (SecDNS l) (UPFIP l) (SNSSAI l)) j acc
  else if String.eqb k "tac" then
    decode_int (λ z l, mkLocationService (DNAI l) (DNN l) z (PriDNS l) (SecDNS l) (UPFIP l) (SNSSAI l)) j acc
  else if String.eqb k "priDns" then
    decode_string (λ s l, mkLocationService (DNAI l) (DNN l) (TAC l) s (SecDNS l) (UPFIP l) (SNSSAI l)) j acc
  else if String.eqb k "secDns" then
    decode_string (λ s l, mkLocationService (DNAI l) (DNN l) (TAC l) (PriDNS l) s (UPFIP l) (SNSSAI l)) j acc
  else if String.eqb k "upfIp" then
    decode_string (λ s l, mkLocationService (DNAI l) (DNN l) (TAC l) (PriDNS l) (SecDNS l) s (SNSSAI l)) j acc
  else if String.eqb k "snssai" then
    decode_string (λ s l, mkLocationService (DNAI l) (DNN l) (TAC l) (PriDNS l) (SecDNS l) (UPFIP l) s) j acc
  else acc.
Definition decode_location : json → LocationService → LocationService * bool :=
  decode_struct location_member.

Definition service_member (k : string) (j : json) (acc : AFService * bool) : AFService * bool :=
  if String.eqb k "afServiceId" then
    decode_string (λ s a, mkAFService s (afs_LocationService a)) j acc
  else if String.eqb k "locationService" then
    let '(l, err) := decode_location j (afs_LocationService acc.1) in
    (mkAFService (afs_AFServiceID acc.1) l, acc.2 || err)
  else acc.
Definition decode_service (j : json) : AFService * bool :=
  decode_struct service_member j (mkAFService "" zero_location).

(** A slice, decoded into the nil slice. *)
Definition decode_services (j : json) : option (list AFService) * bool :=
  match j with
  | JNull => (None, false)
  | JArr l => (Some (decode_service <$> l).*1, existsb snd (decode_service <$> l))
  | _ => (None, true)
  end.

(** The bytes of a body: no document is an error before anything is changed. *)
Definition unmarshal_location (body : option json) (l : LocationService) : LocationService * bool :=
  match body with
  | None => (l, true)
  | Some j => decode_location j l
  end.

(** ** The stub (ngc_apistub.go) *)

(** The global variables; a nil slice is written as [null]. *)
Record Oam := mkOam {
  NGCType : string;
  URLBase : string;
  AllRecords : option (list AFService);
  NewRecordAFServiceID : Z;
}.

Definition records (s : Oam) : list AFService := default [] (AllRecords s).
Definition set_records (l : option (list AFService)) (s : Oam) : Oam :=
  mkOam (NGCType s) (URLBase s) l (NewRecordAFServiceID s).
Definition set_counter (n : Z) (s : Oam) : Oam :=
  mkOam (NGCType s) (URLBase s) (AllRecords s) n.

Definition AFServiceIDBaseValue : Z := 123456.
Definition apiStub : string := "APISTUB".

Inductive oamPayload :=
| OamJson (j : json)
| OamText (s : string).
Abbreviation writer := (ResponseWriter oamPayload).

Definition APIStubReset : GoM Oam error :=
  go_modify (λ s, set_counter AFServiceIDBaseValue (set_records None s));;
  mret nil_err.

Definition APIStubNewAFServiceID : GoM Oam string :=
  go_modify (λ s, set_counter (int_incr (NewRecordAFServiceID s)) s);;
  s ← go_get;
  mret (Itoa (NewRecordAFServiceID s)).

(** [ReadFile] is the document of a file, if it can be read.  The loop over the
    records assigns to a copy of each: the numbers are taken, but the records
    keep the identifiers of the file.  The process ends if there is an error. *)
Definition APIStubInit (ReadFile : string → option (option json)) (path : string)
    : GoM Oam error :=
  go_modify (set_counter AFServiceIDBaseValue);;
  if str_empty path then mret nil_err
  else
    match ReadFile path with
    | None => mret (errors_New "open file")
    | Some None => mret (errors_New "invalid character")
    | Some (Some j) =>
        let '(l, err) := decode_services j in
        go_modify (set_records l);;
        if (err : bool) then mret (errors_New "cannot unmarshal")
        else
          s ← go_get;
          r ← for_acc (R := error) (records s) (λ _ _, APIStubNewAFServiceID ;; mret (inl tt)) tt;
          match r with inl _ => mret nil_err | inr e => mret e end
    end.

Fixpoint index_from (i : Z) (serviceID : string) (l : list AFService) : Z :=
  match l with
  | [] => -1
  | a :: l' => if bool_decide (afs_AFServiceID a = serviceID) then i else index_from (i + 1) serviceID l'
  end.
Definition APIStubGetRecordIndex (serviceID : string) : GoM Oam Z :=
  s ← go_get; mret (index_from 0 serviceID (records s)).

Definition send_json (code : Z) (j : json) (w : writer) : writer :=
  Write (OamJson j) (WriteHeader code (Header_Set content_type json_utf8 w)).

Definition APIStubGetAll (w : writer) : GoM Oam writer :=
  s ← go_get;
  mret (send_json StatusOK
          (match AllRecords s with None => JNull | Some l => JArr (service_json <$> l) end) w).

Definition APIStubAdd (body : option json) (w : writer) : GoM Oam writer :=
  let '(l, err) := unmarshal_location body zero_location in
  if (err : bool) then mret (WriteHeader StatusNotFound w)
  else
    id ← APIStubNewAFServiceID;
    go_modify (λ s, set_records (Some (records s ++ [mkAFService id l])) s);;
    mret (send_json StatusCreated (AFServiceID_json id) w).

(** [AllRecords[j]] is out of range, or there. *)
Definition with_record (serviceID : string) (w : writer)
    (k : nat → AFService → GoM Oam writer) : GoM Oam writer :=
  j ← APIStubGetRecordIndex serviceID;
  if bool_decide (j = -1) then mret (WriteHeader StatusNotFound w)
  else
    s ← go_get;
    match records s !! Z.to_nat j with
    | None => go_panic "index out of range"
    | Some a => k (Z.to_nat j) a
    end.

Definition APIStubDel (serviceID : string) (w : writer) : GoM Oam writer :=
  with_record serviceID w (λ j _,
    go_modify (λ s, set_records (Some (take j (records s) ++ drop (S j) (records s))) s);;
    s ← go_get;
    _ ← (if bool_decide (records s = []) then APIStubReset else mret nil_err);
    mret (WriteHeader StatusNoContent w)).

Definition APIStubGet (serviceID : string) (w : writer) : GoM Oam writer :=
  with_record serviceID w (λ _ a,
    mret (send_json StatusOK (location_json (afs_LocationService a)) w)).

(** The body is decoded into the record itself. *)
Definition APIStubUpdate (serviceID : string) (body : option json) (w : writer) : GoM Oam writer :=
  with_record serviceID w (λ j a,
    let '(l, err) := unmarshal_location body (afs_LocationService a) in
    go_modify (λ s, set_records (Some (<[j := mkAFService (afs_AFServiceID a) l]> (records s))) s);;
    if (err : bool) then mret (WriteHeader StatusNotFound w)
    else mret (WriteHeader StatusOK w)).

(** ** The proxy (ngc_proxy.go) and the routes *)

Definition InitProxy (ReadFile : string → option (option json))
    (npcEndpoint redirectTarget path : string) : GoM Oam error :=
  go_modify (λ s, mkOam redirectTarget ("http://" +:+ npcEndpoint) (AllRecords s) (NewRecordAFServiceID s));;
  if bool_decide (redirectTarget = apiStub) then
    err ← APIStubInit ReadFile path;
    match err with
    | Some _ => mret (errors_New "init error")
    | None => mret nil_err
    end
  else mret (errors_New "can't not support flexcore").

(** Every handler of the proxy. *)
Definition proxied (h : writer → GoM Oam writer) (w : writer) : GoM Oam writer :=
  s ← go_get;
  if bool_decide (NGCType s = apiStub) then h w else mret (WriteHeader StatusNotFound w).
Definition ProxyGetAll : writer → GoM Oam writer := proxied APIStubGetAll.
Definition ProxyAdd (body : option json) : writer → GoM Oam writer := proxied (APIStubAdd body).
Definition ProxyDel (id : string) : writer → GoM Oam writer := proxied (APIStubDel id).
Definition ProxyGet (id : string) : writer → GoM Oam writer := proxied (APIStubGet id).
Definition ProxyUpdate (id : string) (body : option json) : writer → GoM Oam writer :=
  proxied (APIStubUpdate id body).

(** [fmt.Fprintf(w, ...)]. *)
Definition Index (w : writer) : GoM Oam writer := mret (Write (OamText "Hello From OpenNESS!") w).

Inductive oamHandler := HIndex | HAdd | HDelete | HGet | HGetAll | HUpdate.

Definition oam_routes : list (string * string * string * oamHandler) :=
  [("Index", "GET", "/", HIndex);
   ("Add", "POST", "/ngcoam/v1/af/services", HAdd);
   ("Delete", "DELETE", "/ngcoam/v1/af/services/{afServiceId}", HDelete);
   ("Get", "GET", "/ngcoam/v1/af/services/{afServiceId}", HGet);
   ("GetAll", "GET", "/ngcoam/v1/af/services", HGetAll);
   ("Update", "PATCH", "/ngcoam/v1/af/services/{afServiceId}", HUpdate)].

(** A request that mux has matched. *)
Inductive oamRequest :=
| OamIndex
| OamAdd (body : option json)
| OamDelete (id : string)
| OamGet (id : string)
| OamGetAll
| OamUpdate (id : string) (body : option json).

Definition oam_serve (r : oamRequest) (w : writer) : GoM Oam writer :=
  match r with
  | OamIndex => Index w
  | OamAdd body => ProxyAdd body w
  | OamDelete id => ProxyDel id w
  | OamGet id => ProxyGet id w
  | OamGetAll => ProxyGetAll w
  | OamUpdate id body => ProxyUpdate id body w
  end.

(** The process with its initial variables. *)
Definition oam_initial : Oam := mkOam "" "" None 0.

(** Requests one after the other, with the answers. *)
Fixpoint oam_run (reqs : list oamRequest) : GoM Oam (list writer) :=
  match reqs with
  | [] => mret []
  | r :: reqs' => w ← oam_serve r new_writer; ws ← oam_run reqs'; mret (w :: ws)
  end.

(** ** The abstract OAM: a finite map of services *)

(** What the client receives. *)
Definition answer (w : writer) : Z * list oamPayload := (status_of w, rw_body w).

(** The service a request names. *)
Definition request_id (r : oamRequest) : option string :=
  match r with
  | OamDelete id | OamGet id | OamUpdate id _ => Some id
  | _ => None
  end.

(** A list of services is a listing of the map. *)
Definition pairs (l : list AFService) : list (string * LocationService) :=
  (λ a, (afs_AFServiceID a, afs_LocationService a)) <$> l.
Definition listing (l : list AFService) (A : gmap string LocationService) : Prop :=
  NoDup (pairs l).*1 ∧ list_to_map (pairs l) = A.

Inductive oam_effect (A : gmap string LocationService)
    : oamRequest → Z * list oamPayload → gmap string LocationService → Prop :=
| oe_index : oam_effect A OamIndex (StatusOK, [OamText "Hello From OpenNESS!"]) A
| oe_add body l id :
    unmarshal_location body zero_location = (l, false) → A !! id = None →
    oam_effect A (OamAdd body) (StatusCreated, [OamJson (AFServiceID_json id)]) (<[id := l]> A)
| oe_add_bad body l :
    unmarshal_location body zero_location = (l, true) →
    oam_effect A (OamAdd body) (StatusNotFound, []) A
| oe_delete id l : A !! id = Some l → oam_effect A (OamDelete id) (StatusNoContent, []) (delete id A)
| oe_get id l :
    A !! id = Some l → oam_effect A (OamGet id) (StatusOK, [OamJson (location_json l)]) A
| oe_get_all l j :
    listing l A → j = JArr (service_json <$> l) ∨ l = [] ∧ j = JNull →
    oam_effect A OamGetAll (StatusOK, [OamJson j]) A
| oe_update id body l l' (err : bool) :
    A !! id = Some l → unmarshal_location body l = (l', err) →
    oam_effect A (OamUpdate id body) (if err then StatusNotFound else StatusOK, []) (<[id := l']> A)
| oe_absent r id :
    request_id r = Some id → A !! id = None → oam_effect A r (StatusNotFound, []) A.

Inductive oam_steps : gmap string LocationService → list oamRequest →
    list (Z * list oamPayload) → gmap string LocationService → Prop :=
| oam_steps_nil A : oam_steps A [] [] A
| oam_steps_cons A r a A1 rs l A2 :
    oam_effect A r a A1 → oam_steps A1 rs l A2 → oam_steps A (r :: rs) (a :: l) A2.

(** ** The stub implements it *)

Definition services (s : Oam) : gmap string LocationService := list_to_map (pairs (records s)).

(** [n] more services can be added: the identifiers are distinct, and none of
    the numbers to come is taken. *)
Record oam_ok (n : Z) (s : Oam) : Prop := {
  ok_stub : NGCType s = apiStub;
  ok_nodup : NoDup (pairs (records s)).*1;
  ok_fresh z : NewRecordAFServiceID s < z ≤ max_int → Itoa z ∉ (pairs (records s)).*1;
  ok_room : AFServiceIDBaseValue ≤ NewRecordAFServiceID s ≤ max_int - n;
}.

Lemma index_from_spec id l i :
  0 ≤ i →
  (index_from i id l = -1 ∧ id ∉ (pairs l).*1) ∨
  ∃ k a, index_from i id l = i + Z.of_nat k ∧ l !! k = Some a ∧ afs_AFServiceID a = id.
Proof.
  revert i. induction l as [|a l IH]; intros i Hi; cbn [index_from].
  { left. split; [done|apply not_elem_of_nil]. }
  case_bool_decide as Ha.
  { right. exists 0%nat, a. split_and!; [lia|done..]. }
  destruct (IH (i + 1)) as [[E Hni]|(k & a' & E & Hk & Ha')]; [lia|left|right].
  - split; [done|]. cbn. rewrite elem_of_cons. naive_solver.
  - exists (S k), a'. split_and!; [lia|done..].
Qed.

Lemma lookup_services s k a :
  NoDup (pairs (records s)).*1 → records s !! k = Some a →
  services s !! afs_AFServiceID a = Some (afs_LocationService a).
Proof.
  intros Hnd Hk. apply elem_of_list_to_map_1; [done|].
  apply list_elem_of_fmap. exists a. split; [done|by eapply list_elem_of_lookup_2].
Qed.

Lemma with_record_spec id w k s :
  (services s !! id = None ∧ with_record id w k s = (Ret (WriteHeader StatusNotFound w), s)) ∨
  ∃ j a, records s !! j = Some a ∧ afs_AFServiceID a = id ∧ with_record id w k s = k j a s.
Proof.
  unfold with_record, APIStubGetRecordIndex. rewrite bind_assoc, bind_get, bind_mret.
  destruct (index_from_spec id (records s) 0) as [[-> Hni]|(j & a & -> & Hj & Ha)]; [done|left|right].
  - rewrite bool_decide_eq_true_2 by done. split; [|done]. by apply not_elem_of_list_to_map_1.
  - exists j, a. split_and!; [done..|]. rewrite bool_decide_eq_false_2 by lia.
    rewrite bind_get. replace (Z.to_nat (0 + Z.of_nat j)) with j by lia. by rewrite Hj.
Qed.

(** The end of a request with room for [n] more. *)
Definition serves (n : Z) (r : oamRequest) (s : Oam) : Prop :=
  ∃ w s', oam_serve r new_writer s = (Ret w, s') ∧ oam_ok n s' ∧
          oam_effect (services s) r (answer w) (services s').

Lemma oam_ok_less n m s : oam_ok n s → m ≤ n → oam_ok m s.
Proof. intros [H1 H2 H3 H4] Hm. split; [done..|lia]. Qed.

(** Identifiers that are left over stay distinct and fresh. *)
Lemma oam_ok_records n s l :
  oam_ok n s → (pairs l).*1 `sublist_of` (pairs (records s)).*1 → oam_ok n (set_records (Some l) s).
Proof.
  intros [H1 H2 H3 H4] Hsub. split; [done| | |done].
  - by eapply sublist_NoDup.
  - intros z Hz Hin. apply (H3 z Hz). by eapply sublist_subseteq in Hin.
Qed.

Lemma add_serves n body s :
  0 ≤ n → oam_ok (n + 1) s → serves n (OamAdd body) s.
Proof.
  intros Hn Hok. pose proof Hok as [H1 H2 H3 [H4 H5]]. unfold serves. cbn [oam_serve]. unfold ProxyAdd, proxied.
  rewrite bind_get, bool_decide_eq_true_2 by done. unfold APIStubAdd.
  destruct (unmarshal_location body zero_location) as [l err] eqn:El. destruct err.
  { do 2 eexists. split; [reflexivity|]. split; [apply (oam_ok_less (n + 1)); [done|lia]|]. by econstructor. }
  unfold APIStubNewAFServiceID. rewrite bind_assoc, bind_modify, bind_assoc, bind_get, bind_mret, bind_modify.
  assert (int_incr (NewRecordAFServiceID s) = NewRecordAFServiceID s + 1) as ->.
  { apply int_incr_small. unfold AFServiceIDBaseValue, max_int in *. lia. }
  set (id := Itoa _). assert (id ∉ (pairs (records s)).*1) as Hnew.
  { apply H3. cbn [set_counter NewRecordAFServiceID]. lia. }
  set (s' := set_records _ _).
  assert (pairs (records s') = pairs (records s) ++ [(id, l)]) as Ep.
  { unfold pairs. change (records s') with (records s ++ [mkAFService id l]). by rewrite fmap_app. }
  exists (send_json StatusCreated (AFServiceID_json id) new_writer), s'. split; [reflexivity|]. split.
  - split; [done| | |].
    + rewrite Ep, fmap_app. apply NoDup_app. split_and!; [done| |apply NoDup_singleton].
      cbn. intros x Hx [= ->]%list_elem_of_singleton. done.
    + intros z Hz. change (NewRecordAFServiceID s') with (NewRecordAFServiceID s + 1) in Hz.
      rewrite Ep, fmap_app, elem_of_app. intros [Hin|Hin]; [by apply (H3 z); [lia|]|].
      cbn in Hin. apply list_elem_of_singleton, Itoa_inj in Hin. cbn in Hin. lia.
    + change (NewRecordAFServiceID s') with (NewRecordAFServiceID s + 1). lia.
  - assert (services s' = <[id := l]> (services s)) as ->; [|apply oe_add; [done|]];
      [|by apply not_elem_of_list_to_map_1].
    unfold services. rewrite Ep, list_to_map_app.
    change (list_to_map [(id, l)]) with (<[id := l]> (∅ : gmap string LocationService)). rewrite insert_empty.
    rewrite <- insert_union_singleton_r; [done|]. by apply not_elem_of_list_to_map_1.
Qed.

Lemma get_serves n id s : oam_ok n s → serves n (OamGet id) s.
Proof.
  intros Hok. unfold serves. cbn [oam_serve]. unfold ProxyGet, proxied.
  rewrite bind_get, bool_decide_eq_true_2 by apply Hok. unfold APIStubGet.
  edestruct with_record_spec as [[Hno ->]|(j & a & Hj & Ha & ->)].
  - do 2 eexists. split; [reflexivity|]. split; [done|]. by eapply oe_absent.
  - do 2 eexists. split; [reflexivity|]. split; [done|]. apply oe_get. rewrite <- Ha.
    eapply lookup_services; [apply Hok|done].
Qed.

(** Removing one entry of the list removes its identifier from the map. *)
Lemma services_remove (l1 l2 : list AFService) a :
  NoDup (pairs (l1 ++ a :: l2)).*1 →
  list_to_map (pairs (l1 ++ l2))
  = delete (afs_AFServiceID a) (list_to_map (M := gmap string LocationService) (pairs (l1 ++ a :: l2))).
Proof.
  unfold pairs. rewrite !fmap_app, fmap_cons. cbn [fst snd].
  intros (_ & Hdis & [Hni _]%NoDup_cons)%NoDup_app.
  rewrite !list_to_map_app, list_to_map_cons, delete_union, delete_insert_eq, !delete_id; [done|..].
  - by apply not_elem_of_list_to_map_1.
  - apply not_elem_of_list_to_map_1. intros Hin. apply (Hdis _ Hin). by left.
Qed.

(** Changing one entry changes it in the map. *)
Lemma services_change (l1 l2 : list AFService) a l :
  NoDup (pairs (l1 ++ a :: l2)).*1 →
  list_to_map (pairs (l1 ++ mkAFService (afs_AFServiceID a) l :: l2))
  = <[afs_AFServiceID a := l]> (list_to_map (M := gmap string LocationService) (pairs (l1 ++ a :: l2))).
Proof.
  unfold pairs. rewrite !fmap_app, !fmap_cons. cbn [fst snd].
  intros (_ & Hdis & _)%NoDup_app.
  rewrite !list_to_map_app, !list_to_map_cons. cbn [fst snd afs_AFServiceID afs_LocationService].
  rewrite insert_union_r, insert_insert_eq; [done|].
  apply not_elem_of_list_to_map_1. intros Hin. apply (Hdis _ Hin). by left.
Qed.

Lemma split_record (l : list AFService) j a :
  l !! j = Some a → l = take j l ++ a :: drop (S j) l ∧ length (take j l) = j.
Proof.
  intros Hj. split; [by rewrite take_drop_middle|]. apply length_take_le.
  apply lookup_lt_Some in Hj. lia.
Qed.

Lemma delete_serves n id s : oam_ok n s → serves n (OamDelete id) s.
Proof.
  intros Hok. pose proof Hok as [H1 H2 H3 [H4 H5]]. unfold serves. cbn [oam_serve]. unfold ProxyDel, proxied.
  rewrite bind_get, bool_decide_eq_true_2 by apply Hok. unfold APIStubDel.
  edestruct with_record_spec as [[Hno ->]|(j & a & Hj & Ha & ->)].
  { do 2 eexists. split; [reflexivity|]. split; [done|]. by eapply oe_absent. }
  rewrite bind_modify, bind_get. set (s1 := set_records _ s).
  destruct (split_record _ _ _ Hj) as [El Hlen].
  assert (oam_ok n s1) as Hok1.
  { apply oam_ok_records; [done|]. rewrite El at 3. unfold pairs. rewrite !fmap_app, !fmap_cons.
    apply sublist_app; [done|]. by apply sublist_cons. }
  assert (services s1 = delete id (services s)) as Es.
  { unfold services. rewrite <- Ha. rewrite El at 1.
    change (records s1) with (take j (records s) ++ drop (S j) (records s)).
    apply services_remove. by rewrite <- El. }
  assert (oam_effect (services s) (OamDelete id) (StatusNoContent, []) (services s1)) as Heff.
  { rewrite Es. eapply oe_delete. rewrite <- Ha. by eapply lookup_services. }
  case_bool_decide as Hempty; [|by do 2 eexists].
  do 2 eexists. split; [reflexivity|]. split.
  - split; [done|apply NoDup_nil_2| |cbn; unfold AFServiceIDBaseValue in *; lia].
    intros z _. apply not_elem_of_nil.
  - assert (services s1 = ∅) as E0 by (unfold services; by rewrite Hempty).
    rewrite E0 in Heff. exact Heff.
Qed.

Lemma update_serves n id body s : oam_ok n s → serves n (OamUpdate id body) s.
Proof.
  intros Hok. pose proof Hok as [H1 H2 H3 H4]. unfold serves. cbn [oam_serve]. unfold ProxyUpdate, proxied.
  rewrite bind_get, bool_decide_eq_true_2 by apply Hok. unfold APIStubUpdate.
  edestruct with_record_spec as [[Hno ->]|(j & a & Hj & Ha & ->)].
  { do 2 eexists. split; [reflexivity|]. split; [done|]. by eapply oe_absent. }
  destruct (unmarshal_location body (afs_LocationService a)) as [l err] eqn:El.
  rewrite bind_modify. set (a' := mkAFService _ l). set (s1 := set_records _ s).
  destruct (split_record _ _ _ Hj) as [Esp Hlen].
  assert (records s1 = take j (records s) ++ a' :: drop (S j) (records s)) as Er.
  { change (records s1) with (<[j := a']> (records s)). rewrite insert_take_drop; [done|].
    by eapply lookup_lt_Some. }
  assert (oam_ok n s1) as Hok1.
  { split; [done| | |done]; rewrite Er; (rewrite Esp in H2, H3);
      unfold pairs in *; rewrite !fmap_app, !fmap_cons in *; done. }
  assert (services s1 = <[id := l]> (services s)) as Es.
  { unfold services. rewrite <- Ha, Er. rewrite Esp at 3. apply services_change. by rewrite <- Esp. }
  assert (services s !! id = Some (afs_LocationService a)) as Hl.
  { rewrite <- Ha. by eapply lookup_services. }
  destruct err; (do 2 eexists; split; [reflexivity|]; split; [done|]; rewrite Es).
  - by apply (oe_update _ id body _ _ true Hl).
  - by apply (oe_update _ id body _ _ false Hl).
Qed.

(** Every request is a step of the abstract OAM. *)
Lemma oam_serves n r s : 0 ≤ n → oam_ok (n + 1) s → serves n r s.
Proof.
  intros Hn Hok. assert (oam_ok n s) as Hok' by (apply (oam_ok_less (n + 1)); [done|lia]).
  destruct r as [|body|id|id| |id body].
  - exists (Write (OamText "Hello From OpenNESS!") new_writer), s. split; [done|]. split; [done|constructor].
  - by apply add_serves.
  - by apply delete_serves.
  - by apply get_serves.
  - unfold serves. cbn [oam_serve]. unfold ProxyGetAll, proxied.
    rewrite bind_get, bool_decide_eq_true_2 by apply Hok. do 2 eexists. split; [reflexivity|]. split; [done|].
    apply (oe_get_all _ (records s)); [split; [apply Hok|done]|].
    unfold records. destruct (AllRecords s); [by left|by right].
  - by apply update_serves.
Qed.

Lemma oam_run_steps reqs s :
  oam_ok (Z.of_nat (length reqs)) s →
  ∃ ws s', oam_run reqs s = (Ret ws, s') ∧ oam_steps (services s) reqs (answer <$> ws) (services s').
Proof.
  revert s. induction reqs as [|r reqs IH]; intros s Hok.
  { exists [], s. split; [done|constructor]. }
  destruct (oam_serves (Z.of_nat (length reqs)) r s) as (w & s1 & E & Hok1 & Heff).
  { lia. } { eapply oam_ok_less; [done|]. cbn [length]. lia. }
  destruct (IH s1 Hok1) as (ws & s' & E' & Hs). exists (w :: ws), s'. cbn [oam_run].
  rewrite (bind_ret _ _ _ _ _ E), (bind_ret _ _ _ _ _ E'). split; [done|]. by econstructor.
Qed.

(** Initialising takes one number for each record of the file. *)
Lemma init_loop (l : list AFService) s :
  ∃ s', for_acc (R := error) l (λ _ _, APIStubNewAFServiceID ;; mret (inl tt)) tt s = (Ret (inl tt), s') ∧
    records s' = records s ∧ NGCType s' = NGCType s ∧
    (AFServiceIDBaseValue ≤ NewRecordAFServiceID s →
     NewRecordAFServiceID s + Z.of_nat (length l) ≤ max_int →
     NewRecordAFServiceID s' = NewRecordAFServiceID s + Z.of_nat (length l)).
Proof.
  revert s. induction l as [|a l IH]; intros s; cbn [for_acc].
  { exists s. split_and!; [done..|]. cbn. lia. }
  set (s1 := set_counter (int_incr (NewRecordAFServiceID s)) s).
  destruct (IH s1) as (s' & E & Hr & Ht & Hc). exists s'. split; [exact E|]. split; [done|]. split; [done|].
  cbn [length]. intros Hlo Hhi.
  assert (NewRecordAFServiceID s1 = NewRecordAFServiceID s + 1) as E1.
  { apply int_incr_small. unfold AFServiceIDBaseValue, max_int in *. lia. }
  rewrite E1 in Hc. rewrite Hc by lia. lia.
Qed.

Lemma InitProxy_ok ReadFile ep path s0 :
  InitProxy ReadFile ep apiStub path oam_initial = (Ret None, s0) →
  NGCType s0 = apiStub ∧
  (AFServiceIDBaseValue + Z.of_nat (length (records s0)) ≤ max_int →
   NewRecordAFServiceID s0 = AFServiceIDBaseValue + Z.of_nat (length (records s0))).
Proof.
  unfold InitProxy, APIStubInit. rewrite bind_modify, bool_decide_eq_true_2, bind_assoc, bind_modify by done.
  destruct (str_empty path). { intros [= <-]. split; [done|]. done. }
  destruct (ReadFile path) as [[j|]|]; [|done..].
  destruct (decode_services j) as [l err]. rewrite bind_assoc, bind_modify. destruct err; [done|].
  rewrite bind_assoc, bind_get. set (s1 := set_records l _).
  destruct (init_loop (records s1) s1) as (s' & E & Hr & Ht & Hc).
  rewrite bind_assoc, (bind_ret _ _ _ _ _ E). intros [= <-]. split; [done|].
  rewrite Hr. intros Hmax. by apply Hc.
Qed.

(** C12: Whatever requests the OAM serves, it answers and changes its
    services as a finite map does, provided the services it starts with have
    distinct identifiers none of which is a number still to be given: an added
    service gets an identifier that is not in use, what is read is what was
    stored last under the identifier, requests for other identifiers are
    answered with 404, and the list has every service once.  A refused update
    stores what could be decoded of it. *)
Theorem oam_refines ReadFile ep path s0 (reqs : list oamRequest) :
  InitProxy ReadFile ep apiStub path oam_initial = (Ret None, s0) →
  NoDup (pairs (records s0)).*1 →
  (∀ z, NewRecordAFServiceID s0 < z ≤ max_int → Itoa z ∉ (pairs (records s0)).*1) →
  AFServiceIDBaseValue + Z.of_nat (length (records s0) + length reqs) ≤ max_int →
  ∃ ws s', oam_run reqs s0 = (Ret ws, s') ∧ oam_steps (services s0) reqs (answer <$> ws) (services s').
Proof.
  intros Hinit Hnd Hfresh Hroom. destruct (InitProxy_ok _ _ _ _ Hinit) as [Ht Hc].
  apply oam_run_steps. split; [done..|]. rewrite Hc by lia. lia.
Qed.

Definition demo_location : json :=
  JObj [("dnai", JStr "edge"); ("tac", JNum 66); ("upfIp", JStr "192.168.10.18")].
Definition demo_file (j : json) : string → option (option json) := λ _, Some (Some j).
Definition demo_records : json :=
  JArr [JObj [("afServiceId", JStr "a1"); ("locationService", demo_location)]].
Definition demo_reqs : list oamRequest :=
  [OamAdd (Some demo_location); OamUpdate "a1" (Some (JObj [("tac", JNum 7)])); OamGet "a1";
   OamDelete "123458"; OamGet "123458"; OamAdd None; OamGetAll].

Lemma oam_refines_witness :
  ∃ s0 ws s', InitProxy (demo_file demo_records) "127.0.0.1:12345" apiStub "data.json" oam_initial
              = (Ret None, s0) ∧
    oam_run demo_reqs s0 = (Ret ws, s') ∧ oam_steps (services s0) demo_reqs (answer <$> ws) (services s') ∧
    (answer <$> ws).*1 = [201; 200; 200; 204; 404; 404; 200].
Proof.
  destruct (InitProxy (demo_file demo_records) "127.0.0.1:12345" apiStub "data.json" oam_initial)
    as [r s0] eqn:E0.
  pose proof E0 as E1. vm_compute in E1. injection E1 as Er Es. subst r.
  destruct (oam_refines (demo_file demo_records) "127.0.0.1:12345" "data.json" s0 demo_reqs)
    as (ws & s' & Hrun & Hsteps).
  - exact E0.
  - rewrite <- Es. apply (bool_decide_unpack _). vm_compute. exact I.
  - intros z Hz Hin. rewrite <- Es in Hin. cbn in Hin. apply list_elem_of_singleton in Hin.
    assert (all_chars (λ c, is_digit c || Ascii.eqb c "-"%char) (Itoa z) = true) as Hd.
    { apply Itoa_chars; [|done]. by intros c ->. }
    rewrite Hin in Hd. discriminate Hd.
  - rewrite <- Es. vm_compute. discriminate.
  - exists s0, ws, s'. split; [reflexivity|]. split; [exact Hrun|]. split; [exact Hsteps|].
    rewrite <- Es in Hrun. vm_compute in Hrun. injection Hrun as <- _. reflexivity.
Defined.

(** The records of a file keep their identifiers, which may be numbers that are
    given again: two services then have one identifier, and only the first can
    be read. *)
Example oam_file_identifier_reused :
  let file := demo_file (JArr [JObj [("afServiceId", JStr "123458")]]) in
  let s := exec (InitProxy file "" apiStub "data.json") oam_initial in
  (oam_run [OamAdd (Some demo_location); OamGet "123458"] s).1
  = Ret [send_json 201 (AFServiceID_json "123458") new_writer;
         send_json 200 (location_json zero_location) new_writer].
Proof. vm_compute. reflexivity. Qed.

(** An update that is refused has changed the service. *)
Example oam_refused_update_changes :
  let s := exec (InitProxy (demo_file JNull) "" apiStub "") oam_initial in
  (λ r, match r with Ret ws => (answer <$> ws).*1 | Panic _ => [] end)
    (oam_run [OamAdd (Some demo_location);
              OamUpdate "123457" (Some (JObj [("dnai", JStr "other"); ("tac", JStr "7")]))] s).1
  = [201; 404] ∧
  DNAI <$> services (oam_run [OamAdd (Some demo_location);
              OamUpdate "123457" (Some (JObj [("dnai", JStr "other"); ("tac", JStr "7")]))] s).2 !! "123457"
  = Some "other".
Proof. vm_compute. done. Qed.
