(* ===== verification/CceModel.v ===== *)
(** * Entities of the controller (edgecontroller/*.go)

    The structures the controller keeps, with their JSON members, their table
    and filter fields, and their [Validate] methods.  A [Validate] method
    yields an error or panics: the slices of pointers of a request may hold
    [null], which the methods dereference.  The UUID library is a parameter
    ([Uuid]); so is the grammar of URIs ([Url]).  Traffic policies are in
    [CcePolicy]. *)

From S2P Require Import Prelude Strconv GoNet Json.
From stdpp Require Import prelude strings list gmap.
From Stdlib Require Import ZArith Ascii.

Local Open Scope Z_scope.

(** ** Checks *)

(** [if bad { return errors.New(msg) }]. *)
Definition refuse (bad : bool) (msg : string) : outcome error :=
  Ret (if bad then errors_New msg else nil_err).

(** [if err := a; err != nil { return err }; b]. *)
Definition and_then (a b : outcome error) : outcome error :=
  match a with
  | Ret None => b
  | _ => a
  end.
Notation "a ;;? b" := (and_then a b) (at level 100, b at level 200, right associativity) : go_scope.
Local Open Scope go_scope.

(** [return fmt.Errorf(prefix + "%s", err.Error())]. *)
Definition wrap_err (prefix : string) (a : outcome error) : outcome error :=
  match a with
  | Ret (Some e) => Ret (Some (prefix +:+ e))
  | _ => a
  end.

(** A loop [for i, x := range l] that returns at the first error. *)
Fixpoint check_each {A} (check : nat → A → outcome error) (i : nat) (l : list A)
    : outcome error :=
  match l with
  | [] => Ret nil_err
  | x :: l' => check i x ;;? check_each check (S i) l'
  end.

(** The text [name[i]]. *)
Definition indexed (name : string) (i : nat) : string :=
  name +:+ "[" +:+ Itoa (Z.of_nat i) +:+ "]".

(** A text in double quotes. *)
Definition quoted (s : string) : string :=
  String (ascii_of_nat 34) (s +:+ String (ascii_of_nat 34) "").

(** A method called through a pointer. *)
Definition deref {A} (f : A → outcome error) (p : option A) : outcome error :=
  match p with
  | Some a => f a
  | None => Panic "nil pointer dereference"
  end.

Class Validatable (A : Type) := Validate : A → outcome error.

(** ** Identifiers *)

(** The UUID library: the value of a text, zero when it is not a UUID, and the
    source of new version 4 UUIDs. *)
Class Uuid := {
  FromStringOrNil : string → Z;
  IDS : Type;
  NewV4 : IDS → string * IDS;
}.

(** A new UUID is not the nil one. *)
Class UuidLaws `{Uuid} := {
  NewV4_valid : ∀ s, FromStringOrNil (NewV4 s).1 ≠ 0;
  FromString_empty : FromStringOrNil "" = 0;
}.

Definition IsValid `{Uuid} (id : string) : bool := bool_decide (FromStringOrNil id ≠ 0).

Definition need_uuid `{Uuid} (id name : string) : outcome error :=
  refuse (negb (IsValid id)) (name +:+ " not a valid uuid").

Definition need_text (s name : string) : outcome error :=
  refuse (str_empty s) (name +:+ " cannot be empty").

(** [url.ParseRequestURI(s)] reports no error. *)
Class Url := url_ParseRequestURI : string → bool.

(** ** What the persistence service stores *)

Class Persistable (A : Type) `{Json A} := {
  GetTableName : string;
  GetID : A → string;
  SetID : string → A → A;
}.
Arguments GetTableName A {_ _}.

Class Filterable (A : Type) `{Persistable A} := FilterFields : list string.
Arguments FilterFields A {_ _ _}.

(** ** Limits *)

Definition MaxCores : Z := 8.
Definition MaxMemory : Z := 16 * 1024.
Definition MaxPort : Z := 65535.

Inductive LifecycleStatus :=
| Unknown | Deploying | Deployed | Starting | Running | Stopping | Stopped | ErrorStatus.

#[export] Instance LifecycleStatus_eq_dec : EqDecision LifecycleStatus.
Proof. solve_decision. Defined.

Definition LifecycleStatus_String (s : LifecycleStatus) : string :=
  match s with
  | Deploying => "deploying"
  | Deployed => "deployed"
  | Starting => "starting"
  | Running => "running"
  | Stopping => "stopping"
  | Stopped => "stopped"
  | ErrorStatus => "error"
  | Unknown => "unknown"
  end.

(** ** Nodes *)

(** A node. *)
Record Node := mkNode {
  Node_ID : string;
  Node_Name : string;
  Node_Location : string;
  Node_Serial : string;
}.

#[export] Instance Json_Node : Json Node := {|
  to_json := λ x, JObj [("id", to_json (Node_ID x)); ("name", to_json (Node_Name x));
          ("location", to_json (Node_Location x));
          ("serial", to_json (Node_Serial x))];
  of_json := of_object (mkNode "" "" "" "") (λ ms,
    v0 ← field ms "id"; v1 ← field ms "name"; v2 ← field ms "location";
    v3 ← field ms "serial";
    Some (mkNode v0 v1 v2 v3));
  zero_value := mkNode "" "" "" "";
|}.
#[export] Instance JsonOk_Node : JsonOk Node.
Proof. json_ok Json_Node. Qed.
#[export] Instance JsonNN_Node : JsonNN Node.
Proof. json_nn. Qed.

(** A network interface of a node. *)
Record NetworkInterface := mkNetworkInterface {
  NetworkInterface_ID : string;
  NetworkInterface_Description : string;
  NetworkInterface_Driver : string;
  NetworkInterface_Type : string;
  NetworkInterface_MACAddress : string;
  NetworkInterface_VLAN : Z;
  NetworkInterface_Zones : list string;
  NetworkInterface_FallbackInterface : string;
}.

#[export] Instance Json_NetworkInterface : Json NetworkInterface := {|
  to_json := λ x, JObj [("id", to_json (NetworkInterface_ID x));
          ("description", to_json (NetworkInterface_Description x));
          ("driver", to_json (NetworkInterface_Driver x));
          ("type", to_json (NetworkInterface_Type x));
          ("mac_address", to_json (NetworkInterface_MACAddress x));
          ("vlan", to_json (NetworkInterface_VLAN x));
          ("zones", to_json (NetworkInterface_Zones x));
          ("fallback_interface", to_json (NetworkInterface_FallbackInterface x))];
  of_json := of_object (mkNetworkInterface "" "" "" "" "" 0 [] "") (λ ms,
    v0 ← field ms "id"; v1 ← field ms "description"; v2 ← field ms "driver";
    v3 ← field ms "type"; v4 ← field ms "mac_address"; v5 ← field ms "vlan";
    v6 ← field ms "zones"; v7 ← field ms "fallback_interface";
    Some (mkNetworkInterface v0 v1 v2 v3 v4 v5 v6 v7));
  zero_value := mkNetworkInterface "" "" "" "" "" 0 [] "";
|}.
#[export] Instance JsonOk_NetworkInterface : JsonOk NetworkInterface.
Proof. json_ok Json_NetworkInterface. Qed.
#[export] Instance JsonNN_NetworkInterface : JsonNN NetworkInterface.
Proof. json_nn. Qed.

(** The policy wanted for an interface. *)
Record NetworkInterfaceTrafficPolicy := mkNetworkInterfaceTrafficPolicy {
  NetworkInterfaceTrafficPolicy_NetworkInterfaceID : string;
  NetworkInterfaceTrafficPolicy_TrafficPolicyID : string;
}.

#[export] Instance Json_NetworkInterfaceTrafficPolicy : Json NetworkInterfaceTrafficPolicy := {|
  to_json := λ x, JObj [("network_interface_id", to_json (NetworkInterfaceTrafficPolicy_NetworkInterfaceID x));
          ("traffic_policy_id", to_json (NetworkInterfaceTrafficPolicy_TrafficPolicyID x))];
  of_json := of_object (mkNetworkInterfaceTrafficPolicy "" "") (λ ms,
    v0 ← field ms "network_interface_id"; v1 ← field ms "traffic_policy_id";
    Some (mkNetworkInterfaceTrafficPolicy v0 v1));
  zero_value := mkNetworkInterfaceTrafficPolicy "" "";
|}.
#[export] Instance JsonOk_NetworkInterfaceTrafficPolicy : JsonOk NetworkInterfaceTrafficPolicy.
Proof. json_ok Json_NetworkInterfaceTrafficPolicy. Qed.
#[export] Instance JsonNN_NetworkInterfaceTrafficPolicy : JsonNN NetworkInterfaceTrafficPolicy.
Proof. json_nn. Qed.

(** A node with its interfaces; the members of the embedded [Node] are members
    of the object.  The code tells a nil slice of interfaces from an empty one. *)
Record NodeReq := mkNodeReq {
  NodeReq_Node : Node;
  NodeReq_NetworkInterfaces : option (list (option NetworkInterface));
  NodeReq_TrafficPolicies : list NetworkInterfaceTrafficPolicy;
}.

Record NodeResp := mkNodeResp {
  NodeResp_Node : Node;
  NodeResp_NetworkInterfaces : list (option NetworkInterface);
}.

#[export] Instance Json_NodeReq : Json NodeReq := {|
  to_json := λ x,
    JObj [("id", to_json (Node_ID (NodeReq_Node x)));
          ("name", to_json (Node_Name (NodeReq_Node x)));
          ("location", to_json (Node_Location (NodeReq_Node x)));
          ("serial", to_json (Node_Serial (NodeReq_Node x)));
          ("network_interfaces", to_json (NodeReq_NetworkInterfaces x));
          ("traffic_policies", to_json (NodeReq_TrafficPolicies x))];
  of_json := of_object (mkNodeReq zero_value None []) (λ ms,
    v0 ← field ms "id"; v1 ← field ms "name"; v2 ← field ms "location";
    v3 ← field ms "serial"; v4 ← field ms "network_interfaces";
    v5 ← field ms "traffic_policies";
    Some (mkNodeReq (mkNode v0 v1 v2 v3) v4 v5));
  zero_value := mkNodeReq zero_value None [];
|}.
#[export] Instance JsonOk_NodeReq : JsonOk NodeReq.
Proof. intros [[] ??]. json_read Json_NodeReq. Qed.

#[export] Instance Node_Persistable : Persistable Node := {|
  GetTableName := "nodes";
  GetID := Node_ID;
  SetID := λ id n, mkNode id (Node_Name n) (Node_Location n) (Node_Serial n);
|}.
#[export] Instance Node_Filterable : Filterable Node := ["serial"].

(** [*NodeReq] has the methods of the embedded [Node]. *)
#[export] Instance NodeReq_Persistable : Persistable NodeReq := {|
  GetTableName := GetTableName Node;
  GetID := λ nr, Node_ID (NodeReq_Node nr);
  SetID := λ id nr, mkNodeReq (SetID id (NodeReq_Node nr))
                      (NodeReq_NetworkInterfaces nr) (NodeReq_TrafficPolicies nr);
|}.

Section nodes.
Context `{Uuid}.

Definition Node_Validate (n : Node) : outcome error :=
  need_uuid (Node_ID n) "id" ;;?
  need_text (Node_Name n) "name" ;;?
  need_text (Node_Location n) "location" ;;?
  need_text (Node_Serial n) "serial".

Definition iface_drivers : list string := ["kernel"; "userspace"].
Definition iface_types : list string :=
  ["none"; "upstream"; "downstream"; "bidirectional"; "breakout"].

(** The body of the loop over the interfaces. *)
Definition check_iface (i : nat) : option NetworkInterface → outcome error :=
  deref (λ ni,
    refuse (str_empty (NetworkInterface_ID ni))
      (indexed "network_interfaces" i +:+ ".id cannot be empty") ;;?
    refuse (bool_decide (NetworkInterface_Driver ni ∉ iface_drivers))
      (indexed "network_interfaces" i +:+ ".driver must be one of [kernel, userspace]") ;;?
    refuse (bool_decide (NetworkInterface_Type ni ∉ iface_types))
      (indexed "network_interfaces" i +:+
       ".type must be one of [none, upstream, downstream, bidirectional, breakout]") ;;?
    refuse (bool_decide (NetworkInterface_VLAN ni < 0 ∨ 255 < NetworkInterface_VLAN ni))
      (indexed "network_interfaces" i +:+ ".vlan must be in [0..255]")).

Definition NodeReq_Validate (nr : NodeReq) : outcome error :=
  Node_Validate (NodeReq_Node nr) ;;?
  check_each check_iface 0 (default [] (NodeReq_NetworkInterfaces nr)) ;;?
  check_each (λ i tp,
    refuse (negb (IsValid (NetworkInterfaceTrafficPolicy_TrafficPolicyID tp)))
      (indexed "traffic_policies" i +:+ ".traffic_policy_id not a valid uuid"))
    0 (NodeReq_TrafficPolicies nr).
End nodes.

#[export] Instance Node_Validatable `{Uuid} : Validatable Node := Node_Validate.

(** ** Applications *)

(** A port of an application; zero members are left out. *)
Record PortProto := mkPortProto {
  PortProto_Port : Z;
  PortProto_Protocol : string;
}.

#[export] Instance Json_PortProto : Json PortProto := {|
  to_json := λ x, JObj (omit_zero "port" (PortProto_Port x)
                        ++ omit_zero "protocol" (PortProto_Protocol x) ++ []);
  of_json := of_object (mkPortProto 0 "") (λ ms,
    v0 ← field ms "port"; v1 ← field ms "protocol"; Some (mkPortProto v0 v1));
  zero_value := mkPortProto 0 "";
|}.
#[export] Instance JsonOk_PortProto : JsonOk PortProto.
Proof.
  intros []. unfold Json_PortProto; cbn [to_json of_json of_object].
  rewrite field_omit_zero by (by apply member_omit_zero). cbn [mbind option_bind].
  by rewrite field_omit_zero_skip, field_omit_zero.
Qed.
#[export] Instance JsonNN_PortProto : JsonNN PortProto.
Proof. json_nn. Qed.

(** [pp.String()]. *)
Definition PortProto_String (pp : PortProto) : string :=
  Itoa (PortProto_Port pp) +:+ "/" +:+ PortProto_Protocol pp.

(** A feature an application needs of its node. *)
Record EPAFeature := mkEPAFeature {
  EPAFeature_Key : string;
  EPAFeature_Value : string;
}.

#[export] Instance Json_EPAFeature : Json EPAFeature := {|
  to_json := λ x, JObj (omit_zero "key" (EPAFeature_Key x)
                        ++ omit_zero "value" (EPAFeature_Value x) ++ []);
  of_json := of_object (mkEPAFeature "" "") (λ ms,
    v0 ← field ms "key"; v1 ← field ms "value"; Some (mkEPAFeature v0 v1));
  zero_value := mkEPAFeature "" "";
|}.
#[export] Instance JsonOk_EPAFeature : JsonOk EPAFeature.
Proof.
  intros []. unfold Json_EPAFeature; cbn [to_json of_json of_object].
  rewrite field_omit_zero by (by apply member_omit_zero). cbn [mbind option_bind].
  by rewrite field_omit_zero_skip, field_omit_zero.
Qed.
#[export] Instance JsonNN_EPAFeature : JsonNN EPAFeature.
Proof. json_nn. Qed.

(** An application. *)
Record App := mkApp {
  App_ID : string;
  App_Type : string;
  App_Name : string;
  App_Version : string;
  App_Vendor : string;
  App_Description : string;
  App_Cores : Z;
  App_Memory : Z;
  App_Ports : list PortProto;
  App_Source : string;
  App_EPAFeatures : list EPAFeature;
}.

#[export] Instance Json_App : Json App := {|
  to_json := λ x, JObj ([("id", to_json (App_ID x)); ("type", to_json (App_Type x));
          ("name", to_json (App_Name x)); ("version", to_json (App_Version x));
          ("vendor", to_json (App_Vendor x));
          ("description", to_json (App_Description x));
          ("cores", to_json (App_Cores x)); ("memory", to_json (App_Memory x));
          ("source", to_json (App_Source x))]
     ++ omitempty "ports" (App_Ports x)
     ++ omitempty "epafeatures" (App_EPAFeatures x));
  of_json := of_object (mkApp "" "" "" "" "" "" 0 0 [] "" []) (λ ms,
    v0 ← field ms "id"; v1 ← field ms "type"; v2 ← field ms "name";
    v3 ← field ms "version"; v4 ← field ms "vendor"; v5 ← field ms "description";
    v6 ← field ms "cores"; v7 ← field ms "memory"; v8 ← field ms "ports";
    v9 ← field ms "source"; v10 ← field ms "epafeatures";
    Some (mkApp v0 v1 v2 v3 v4 v5 v6 v7 v8 v9 v10));
  zero_value := mkApp "" "" "" "" "" "" 0 0 [] "" [];
|}.
#[export] Instance JsonOk_App : JsonOk App.
Proof. json_ok Json_App. Qed.
#[export] Instance JsonNN_App : JsonNN App.
Proof. json_nn. Qed.

#[export] Instance App_Persistable : Persistable App := {|
  GetTableName := "apps";
  GetID := App_ID;
  SetID := λ id a, mkApp id (App_Type a) (App_Name a) (App_Version a) (App_Vendor a)
             (App_Description a) (App_Cores a) (App_Memory a) (App_Ports a)
             (App_Source a) (App_EPAFeatures a);
|}.
#[export] Instance App_Filterable : Filterable App := [].

(** The body of the loop over the ports. *)
Definition check_port (pp : PortProto) : outcome error :=
  let in_range := refuse (bool_decide (PortProto_Port pp < 1 ∨ MaxPort < PortProto_Port pp))
                    ("port must be in [1.." +:+ Itoa MaxPort +:+ "]") in
  if bool_decide (PortProto_Protocol pp ∈ ["tcp"; "udp"; "icmp"; "sctp"; "all"])
  then in_range
  else if str_empty (PortProto_Protocol pp) then
    if bool_decide (PortProto_Port pp = 0) then Ret nil_err else in_range
  else Ret (errors_New "protocol must be tcp, udp, sctp, icmp or all").

Definition App_Validate `{Uuid, Url} (app : App) : outcome error :=
  need_uuid (App_ID app) "id" ;;?
  refuse (bool_decide (App_Type app ≠ "container") && bool_decide (App_Type app ≠ "vm"))
    ("type must be either " +:+ quoted "container" +:+ " or " +:+ quoted "vm") ;;?
  need_text (App_Name app) "name" ;;?
  need_text (App_Vendor app) "vendor" ;;?
  need_text (App_Version app) "version" ;;?
  refuse (bool_decide (App_Cores app < 1 ∨ MaxCores < App_Cores app))
    ("cores must be in [1.." +:+ Itoa MaxCores +:+ "]") ;;?
  refuse (bool_decide (App_Memory app < 1 ∨ MaxMemory < App_Memory app))
    ("memory must be in [1.." +:+ Itoa MaxMemory +:+ "]") ;;?
  check_each (λ _, check_port) 0 (App_Ports app) ;;?
  need_text (App_Source app) "source" ;;?
  refuse (negb (url_ParseRequestURI (App_Source app))) "source cannot be parsed as a URI".

#[export] Instance App_Validatable `{Uuid, Url} : Validatable App := App_Validate.

(** The feature of the node that an entry asks for; entries without the prefix
    are not the node's concern. *)
Definition epa_key (f : EPAFeature) : option string :=
  let key := EPAFeature_Key f in
  if str_empty key || str_empty (EPAFeature_Value f)
     || bool_decide (String.length key < 4)%nat then None
  else
    let nfdPrefix := ToLower (String.substring 0 4 key) in
    let epaKey := String.substring 4 (String.length key - 4) key in
    if bool_decide (nfdPrefix ≠ "nfd:") || str_empty epaKey then None else Some epaKey.

(** The loop of [EPAValidate]. *)
Definition EPAValidate (app : App) (nodeFeatures : gmap string string) : error :=
  match loop_acc (App_EPAFeatures app) (λ f _,
    match epa_key f with
    | None => inl tt
    | Some epaKey =>
        match nodeFeatures !! epaKey with
        | Some v =>
            if bool_decide (v ≠ EPAFeature_Value f)
            then inr ("EPA Feature [" +:+ epaKey +:+ "] value required: [" +:+
                      EPAFeature_Value f +:+ "] provided by node: [" +:+ v +:+ "] ")
            else inl tt
        | None => inr ("Missing EPA Feature: [" +:+ epaKey +:+ "] required by app")
        end
    end) tt with
  | inl _ => nil_err
  | inr e => errors_New e
  end.

(** ** DNS *)

(** An address record. *)
Record DNSARecord := mkDNSARecord {
  DNSARecord_Name : string;
  DNSARecord_Description : string;
  DNSARecord_IPs : list string;
}.

#[export] Instance Json_DNSARecord : Json DNSARecord := {|
  to_json := λ x, JObj [("name", to_json (DNSARecord_Name x));
          ("description", to_json (DNSARecord_Description x));
          ("ips", to_json (DNSARecord_IPs x))];
  of_json := of_object (mkDNSARecord "" "" []) (λ ms,
    v0 ← field ms "name"; v1 ← field ms "description"; v2 ← field ms "ips";
    Some (mkDNSARecord v0 v1 v2));
  zero_value := mkDNSARecord "" "" [];
|}.
#[export] Instance JsonOk_DNSARecord : JsonOk DNSARecord.
Proof. json_ok Json_DNSARecord. Qed.
#[export] Instance JsonNN_DNSARecord : JsonNN DNSARecord.
Proof. json_nn. Qed.

(** A forwarder. *)
Record DNSForwarder := mkDNSForwarder {
  DNSForwarder_Name : string;
  DNSForwarder_Description : string;
  DNSForwarder_IP : string;
}.

#[export] Instance Json_DNSForwarder : Json DNSForwarder := {|
  to_json := λ x, JObj [("name", to_json (DNSForwarder_Name x));
          ("description", to_json (DNSForwarder_Description x));
          ("ip", to_json (DNSForwarder_IP x))];
  of_json := of_object (mkDNSForwarder "" "" "") (λ ms,
    v0 ← field ms "name"; v1 ← field ms "description"; v2 ← field ms "ip";
    Some (mkDNSForwarder v0 v1 v2));
  zero_value := mkDNSForwarder "" "" "";
|}.
#[export] Instance JsonOk_DNSForwarder : JsonOk DNSForwarder.
Proof. json_ok Json_DNSForwarder. Qed.
#[export] Instance JsonNN_DNSForwarder : JsonNN DNSForwarder.
Proof. json_nn. Qed.

(** A DNS configuration. *)
Record DNSConfig := mkDNSConfig {
  DNSConfig_ID : string;
  DNSConfig_Name : string;
  DNSConfig_ARecords : list (option DNSARecord);
  DNSConfig_Forwarders : list (option DNSForwarder);
}.

#[export] Instance Json_DNSConfig : Json DNSConfig := {|
  to_json := λ x, JObj [("id", to_json (DNSConfig_ID x)); ("name", to_json (DNSConfig_Name x));
          ("a_records", to_json (DNSConfig_ARecords x));
          ("forwarders", to_json (DNSConfig_Forwarders x))];
  of_json := of_object (mkDNSConfig "" "" [] []) (λ ms,
    v0 ← field ms "id"; v1 ← field ms "name"; v2 ← field ms "a_records";
    v3 ← field ms "forwarders";
    Some (mkDNSConfig v0 v1 v2 v3));
  zero_value := mkDNSConfig "" "" [] [];
|}.
#[export] Instance JsonOk_DNSConfig : JsonOk DNSConfig.
Proof. json_ok Json_DNSConfig. Qed.
#[export] Instance JsonNN_DNSConfig : JsonNN DNSConfig.
Proof. json_nn. Qed.

(** An application as the target of a name. *)
Record DNSConfigAppAlias := mkDNSConfigAppAlias {
  DNSConfigAppAlias_ID : string;
  DNSConfigAppAlias_DNSConfigID : string;
  DNSConfigAppAlias_Name : string;
  DNSConfigAppAlias_Description : string;
  DNSConfigAppAlias_AppID : string;
}.

#[export] Instance Json_DNSConfigAppAlias : Json DNSConfigAppAlias := {|
  to_json := λ x, JObj [("id", to_json (DNSConfigAppAlias_ID x));
          ("dns_config_id", to_json (DNSConfigAppAlias_DNSConfigID x));
          ("name", to_json (DNSConfigAppAlias_Name x));
          ("description", to_json (DNSConfigAppAlias_Description x));
          ("app_id", to_json (DNSConfigAppAlias_AppID x))];
  of_json := of_object (mkDNSConfigAppAlias "" "" "" "" "") (λ ms,
    v0 ← field ms "id"; v1 ← field ms "dns_config_id"; v2 ← field ms "name";
    v3 ← field ms "description"; v4 ← field ms "app_id";
    Some (mkDNSConfigAppAlias v0 v1 v2 v3 v4));
  zero_value := mkDNSConfigAppAlias "" "" "" "" "";
|}.
#[export] Instance JsonOk_DNSConfigAppAlias : JsonOk DNSConfigAppAlias.
Proof. json_ok Json_DNSConfigAppAlias. Qed.
#[export] Instance JsonNN_DNSConfigAppAlias : JsonNN DNSConfigAppAlias.
Proof. json_nn. Qed.

#[export] Instance DNSConfig_Persistable : Persistable DNSConfig := {|
  GetTableName := "dns_configs";
  GetID := DNSConfig_ID;
  SetID := λ id c, mkDNSConfig id (DNSConfig_Name c) (DNSConfig_ARecords c)
                     (DNSConfig_Forwarders c);
|}.
#[export] Instance DNSConfig_Filterable : Filterable DNSConfig := [].

#[export] Instance DNSConfigAppAlias_Persistable : Persistable DNSConfigAppAlias := {|
  GetTableName := "dns_configs_app_aliases";
  GetID := DNSConfigAppAlias_ID;
  SetID := λ id a, mkDNSConfigAppAlias id (DNSConfigAppAlias_DNSConfigID a)
             (DNSConfigAppAlias_Name a) (DNSConfigAppAlias_Description a)
             (DNSConfigAppAlias_AppID a);
|}.
#[export] Instance DNSConfigAppAlias_Filterable : Filterable DNSConfigAppAlias :=
  ["dns_config_id"; "app_id"].

(** The checks on one address, [what] being its place in the request. *)
Definition check_ip (what ip : string) : outcome error :=
  refuse (str_empty ip) (what +:+ " cannot be empty") ;;?
  match ParseIP ip with
  | None => Ret (errors_New (what +:+ " could not be parsed"))
  | Some a => refuse (IsUnspecified a) (what +:+ " cannot be zero")
  end.

Definition DNSARecord_Validate (r : DNSARecord) : outcome error :=
  need_text (DNSARecord_Name r) "name" ;;?
  need_text (DNSARecord_Description r) "description" ;;?
  refuse (bool_decide (length (DNSARecord_IPs r) = 0%nat)) "ips cannot be empty" ;;?
  check_each (λ i, check_ip (indexed "ips" i)) 0 (DNSARecord_IPs r).

Definition DNSForwarder_Validate (f : DNSForwarder) : outcome error :=
  need_text (DNSForwarder_Name f) "name" ;;?
  need_text (DNSForwarder_Description f) "description" ;;?
  check_ip "ip" (DNSForwarder_IP f).

Section dns.
Context `{Uuid}.

Definition DNSConfig_Validate (cfg : DNSConfig) : outcome error :=
  need_uuid (DNSConfig_ID cfg) "id" ;;?
  need_text (DNSConfig_Name cfg) "name" ;;?
  refuse (bool_decide (length (DNSConfig_ARecords cfg) = 0%nat)
          && bool_decide (length (DNSConfig_Forwarders cfg) = 0%nat))
    "a_records|forwarders cannot both be empty" ;;?
  check_each (λ i r, wrap_err (indexed "a_records" i +:+ ".") (deref DNSARecord_Validate r))
    0 (DNSConfig_ARecords cfg) ;;?
  check_each (λ i f, wrap_err (indexed "forwarders" i +:+ ".") (deref DNSForwarder_Validate f))
    0 (DNSConfig_Forwarders cfg).

Definition DNSConfigAppAlias_Validate (a : DNSConfigAppAlias) : outcome error :=
  need_uuid (DNSConfigAppAlias_ID a) "id" ;;?
  need_uuid (DNSConfigAppAlias_DNSConfigID a) "dns_config_id" ;;?
  need_text (DNSConfigAppAlias_Name a) "name" ;;?
  need_text (DNSConfigAppAlias_Description a) "description" ;;?
  need_uuid (DNSConfigAppAlias_AppID a) "app_id".
End dns.

(** ** Joins *)

(** An application on a node. *)
Record NodeApp := mkNodeApp {
  NodeApp_ID : string;
  NodeApp_NodeID : string;
  NodeApp_AppID : string;
}.

#[export] Instance Json_NodeApp : Json NodeApp := {|
  to_json := λ x, JObj [("id", to_json (NodeApp_ID x)); ("node_id", to_json (NodeApp_NodeID x));
          ("app_id", to_json (NodeApp_AppID x))];
  of_json := of_object (mkNodeApp "" "" "") (λ ms,
    v0 ← field ms "id"; v1 ← field ms "node_id"; v2 ← field ms "app_id";
    Some (mkNodeApp v0 v1 v2));
  zero_value := mkNodeApp "" "" "";
|}.
#[export] Instance JsonOk_NodeApp : JsonOk NodeApp.
Proof. json_ok Json_NodeApp. Qed.
#[export] Instance JsonNN_NodeApp : JsonNN NodeApp.
Proof. json_nn. Qed.

#[export] Instance NodeApp_Persistable : Persistable NodeApp := {|
  GetTableName := "nodes_apps";
  GetID := NodeApp_ID;
  SetID := λ id x, mkNodeApp id (NodeApp_NodeID x) (NodeApp_AppID x);
|}.
#[export] Instance NodeApp_Filterable : Filterable NodeApp :=
  ["node_id"; "app_id"].

Record NodeAppReq := mkNodeAppReq {
  NodeAppReq_NodeApp : NodeApp;
  NodeAppReq_Cmd : string;
}.

Record NodeAppResp := mkNodeAppResp {
  NodeAppResp_NodeApp : NodeApp;
  NodeAppResp_Status : string;
}.

(** The DNS configuration of a node. *)
Record NodeDNSConfig := mkNodeDNSConfig {
  NodeDNSConfig_ID : string;
  NodeDNSConfig_NodeID : string;
  NodeDNSConfig_DNSConfigID : string;
}.

#[export] Instance Json_NodeDNSConfig : Json NodeDNSConfig := {|
  to_json := λ x, JObj [("id", to_json (NodeDNSConfig_ID x));
          ("node_id", to_json (NodeDNSConfig_NodeID x));
          ("dns_config_id", to_json (NodeDNSConfig_DNSConfigID x))];
  of_json := of_object (mkNodeDNSConfig "" "" "") (λ ms,
    v0 ← field ms "id"; v1 ← field ms "node_id"; v2 ← field ms "dns_config_id";
    Some (mkNodeDNSConfig v0 v1 v2));
  zero_value := mkNodeDNSConfig "" "" "";
|}.
#[export] Instance JsonOk_NodeDNSConfig : JsonOk NodeDNSConfig.
Proof. json_ok Json_NodeDNSConfig. Qed.
#[export] Instance JsonNN_NodeDNSConfig : JsonNN NodeDNSConfig.
Proof. json_nn. Qed.

#[export] Instance NodeDNSConfig_Persistable : Persistable NodeDNSConfig := {|
  GetTableName := "nodes_dns_configs";
  GetID := NodeDNSConfig_ID;
  SetID := λ id x, mkNodeDNSConfig id (NodeDNSConfig_NodeID x) (NodeDNSConfig_DNSConfigID x);
|}.
#[export] Instance NodeDNSConfig_Filterable : Filterable NodeDNSConfig :=
  ["node_id"; "dns_config_id"].

(** The traffic policy of an interface of a node. *)
Record NodeInterfaceTrafficPolicy := mkNodeInterfaceTrafficPolicy {
  NodeInterfaceTrafficPolicy_ID : string;
  NodeInterfaceTrafficPolicy_NodeID : string;
  NodeInterfaceTrafficPolicy_NetworkInterfaceID : string;
  NodeInterfaceTrafficPolicy_TrafficPolicyID : string;
}.

#[export] Instance Json_NodeInterfaceTrafficPolicy : Json NodeInterfaceTrafficPolicy := {|
  to_json := λ x, JObj [("id", to_json (NodeInterfaceTrafficPolicy_ID x));
          ("node_id", to_json (NodeInterfaceTrafficPolicy_NodeID x));
          ("network_interface_id", to_json (NodeInterfaceTrafficPolicy_NetworkInterfaceID x));
          ("traffic_policy_id", to_json (NodeInterfaceTrafficPolicy_TrafficPolicyID x))];
  of_json := of_object (mkNodeInterfaceTrafficPolicy "" "" "" "") (λ ms,
    v0 ← field ms "id"; v1 ← field ms "node_id";
    v2 ← field ms "network_interface_id"; v3 ← field ms "traffic_policy_id";
    Some (mkNodeInterfaceTrafficPolicy v0 v1 v2 v3));
  zero_value := mkNodeInterfaceTrafficPolicy "" "" "" "";
|}.
#[export] Instance JsonOk_NodeInterfaceTrafficPolicy : JsonOk NodeInterfaceTrafficPolicy.
Proof. json_ok Json_NodeInterfaceTrafficPolicy. Qed.
#[export] Instance JsonNN_NodeInterfaceTrafficPolicy : JsonNN NodeInterfaceTrafficPolicy.
Proof. json_nn. Qed.

#[export] Instance NodeInterfaceTrafficPolicy_Persistable : Persistable NodeInterfaceTrafficPolicy := {|
  GetTableName := "nodes_network_interfaces_traffic_policies";
  GetID := NodeInterfaceTrafficPolicy_ID;
  SetID := λ id x, mkNodeInterfaceTrafficPolicy id (NodeInterfaceTrafficPolicy_NodeID x) (NodeInterfaceTrafficPolicy_NetworkInterfaceID x) (NodeInterfaceTrafficPolicy_TrafficPolicyID x);
|}.
#[export] Instance NodeInterfaceTrafficPolicy_Filterable : Filterable NodeInterfaceTrafficPolicy :=
  ["node_id"; "network_interface_id"; "traffic_policy_id"].

(** The traffic policy of an application on a node. *)
Record NodeAppTrafficPolicy := mkNodeAppTrafficPolicy {
  NodeAppTrafficPolicy_ID : string;
  NodeAppTrafficPolicy_NodeAppID : string;
  NodeAppTrafficPolicy_TrafficPolicyID : string;
}.

#[export] Instance Json_NodeAppTrafficPolicy : Json NodeAppTrafficPolicy := {|
  to_json := λ x, JObj [("id", to_json (NodeAppTrafficPolicy_ID x));
          ("nodes_apps_id", to_json (NodeAppTrafficPolicy_NodeAppID x));
          ("traffic_policy_id", to_json (NodeAppTrafficPolicy_TrafficPolicyID x))];
  of_json := of_object (mkNodeAppTrafficPolicy "" "" "") (λ ms,
    v0 ← field ms "id"; v1 ← field ms "nodes_apps_id";
    v2 ← field ms "traffic_policy_id";
    Some (mkNodeAppTrafficPolicy v0 v1 v2));
  zero_value := mkNodeAppTrafficPolicy "" "" "";
|}.
#[export] Instance JsonOk_NodeAppTrafficPolicy : JsonOk NodeAppTrafficPolicy.
Proof. json_ok Json_NodeAppTrafficPolicy. Qed.
#[export] Instance JsonNN_NodeAppTrafficPolicy : JsonNN NodeAppTrafficPolicy.
Proof. json_nn. Qed.

#[export] Instance NodeAppTrafficPolicy_Persistable : Persistable NodeAppTrafficPolicy := {|
  GetTableName := "nodes_apps_traffic_policies";
  GetID := NodeAppTrafficPolicy_ID;
  SetID := λ id x, mkNodeAppTrafficPolicy id (NodeAppTrafficPolicy_NodeAppID x) (NodeAppTrafficPolicy_TrafficPolicyID x);
|}.
#[export] Instance NodeAppTrafficPolicy_Filterable : Filterable NodeAppTrafficPolicy :=
  ["nodes_apps_id"; "traffic_policy_id"].

(** The address of a node. *)
Record NodeGRPCTarget := mkNodeGRPCTarget {
  NodeGRPCTarget_ID : string;
  NodeGRPCTarget_NodeID : string;
  NodeGRPCTarget_GRPCTarget : string;
}.

#[export] Instance Json_NodeGRPCTarget : Json NodeGRPCTarget := {|
  to_json := λ x, JObj [("id", to_json (NodeGRPCTarget_ID x));
          ("node_id", to_json (NodeGRPCTarget_NodeID x));
          ("grpc_target", to_json (NodeGRPCTarget_GRPCTarget x))];
  of_json := of_object (mkNodeGRPCTarget "" "" "") (λ ms,
    v0 ← field ms "id"; v1 ← field ms "node_id"; v2 ← field ms "grpc_target";
    Some (mkNodeGRPCTarget v0 v1 v2));
  zero_value := mkNodeGRPCTarget "" "" "";
|}.
#[export] Instance JsonOk_NodeGRPCTarget : JsonOk NodeGRPCTarget.
Proof. json_ok Json_NodeGRPCTarget. Qed.
#[export] Instance JsonNN_NodeGRPCTarget : JsonNN NodeGRPCTarget.
Proof. json_nn. Qed.

#[export] Instance NodeGRPCTarget_Persistable : Persistable NodeGRPCTarget := {|
  GetTableName := "node_grpc_targets";
  GetID := NodeGRPCTarget_ID;
  SetID := λ id x, mkNodeGRPCTarget id (NodeGRPCTarget_NodeID x) (NodeGRPCTarget_GRPCTarget x);
|}.
#[export] Instance NodeGRPCTarget_Filterable : Filterable NodeGRPCTarget :=
  ["node_id"].

(** A feature that the node feature discovery found. *)
Record NodeFeatureNFD := mkNodeFeatureNFD {
  NodeFeatureNFD_ID : string;
  NodeFeatureNFD_NodeID : string;
  NodeFeatureNFD_NfdID : string;
  NodeFeatureNFD_NfdValue : string;
}.

#[export] Instance Json_NodeFeatureNFD : Json NodeFeatureNFD := {|
  to_json := λ x, JObj [("id", to_json (NodeFeatureNFD_ID x));
          ("node_id", to_json (NodeFeatureNFD_NodeID x));
          ("nfd_id", to_json (NodeFeatureNFD_NfdID x));
          ("nfd_value", to_json (NodeFeatureNFD_NfdValue x))];
  of_json := of_object (mkNodeFeatureNFD "" "" "" "") (λ ms,
    v0 ← field ms "id"; v1 ← field ms "node_id"; v2 ← field ms "nfd_id";
    v3 ← field ms "nfd_value";
    Some (mkNodeFeatureNFD v0 v1 v2 v3));
  zero_value := mkNodeFeatureNFD "" "" "" "";
|}.
#[export] Instance JsonOk_NodeFeatureNFD : JsonOk NodeFeatureNFD.
Proof. json_ok Json_NodeFeatureNFD. Qed.
#[export] Instance JsonNN_NodeFeatureNFD : JsonNN NodeFeatureNFD.
Proof. json_nn. Qed.

#[export] Instance NodeFeatureNFD_Persistable : Persistable NodeFeatureNFD := {|
  GetTableName := "nodes_nfd_features";
  GetID := NodeFeatureNFD_ID;
  SetID := λ id x, mkNodeFeatureNFD id (NodeFeatureNFD_NodeID x) (NodeFeatureNFD_NfdID x) (NodeFeatureNFD_NfdValue x);
|}.
#[export] Instance NodeFeatureNFD_Filterable : Filterable NodeFeatureNFD :=
  ["id"; "node_id"; "nfd_id"; "nfd_value"].

(** Entities that belong to a node. *)
Class NodeEntity (A : Type) := GetNodeID : A → string.
#[export] Instance Node_NodeEntity : NodeEntity Node := Node_ID.
#[export] Instance NodeApp_NodeEntity : NodeEntity NodeApp := NodeApp_NodeID.
#[export] Instance NodeDNSConfig_NodeEntity : NodeEntity NodeDNSConfig := NodeDNSConfig_NodeID.
#[export] Instance NodeGRPCTarget_NodeEntity : NodeEntity NodeGRPCTarget :=
  NodeGRPCTarget_NodeID.

Section joins.
Context `{Uuid}.

Definition NodeApp_Validate (n_a : NodeApp) : outcome error :=
  need_uuid (NodeApp_ID n_a) "id" ;;?
  need_uuid (NodeApp_NodeID n_a) "node_id" ;;?
  need_uuid (NodeApp_AppID n_a) "app_id".

Definition NodeAppReq_Validate (n_ar : NodeAppReq) : outcome error :=
  NodeApp_Validate (NodeAppReq_NodeApp n_ar) ;;?
  if bool_decide (NodeAppReq_Cmd n_ar ∈ ["start"; "stop"; "restart"]) then Ret nil_err
  else if str_empty (NodeAppReq_Cmd n_ar) then Ret (errors_New "cmd missing")
  else Ret (errors_New ("cmd " +:+ quoted (NodeAppReq_Cmd n_ar) +:+ " is invalid")).

Definition NodeDNSConfig_Validate (n_cfg : NodeDNSConfig) : outcome error :=
  need_uuid (NodeDNSConfig_ID n_cfg) "id" ;;?
  need_uuid (NodeDNSConfig_NodeID n_cfg) "node_id" ;;?
  need_uuid (NodeDNSConfig_DNSConfigID n_cfg) "dns_config_id".

Definition NodeInterfaceTrafficPolicy_Validate (p : NodeInterfaceTrafficPolicy)
    : outcome error :=
  need_uuid (NodeInterfaceTrafficPolicy_ID p) "id" ;;?
  need_uuid (NodeInterfaceTrafficPolicy_NodeID p) "node_id" ;;?
  need_uuid (NodeInterfaceTrafficPolicy_NetworkInterfaceID p) "network_interface_id" ;;?
  need_uuid (NodeInterfaceTrafficPolicy_TrafficPolicyID p) "traffic_policy_id".

Definition NodeAppTrafficPolicy_Validate (p : NodeAppTrafficPolicy) : outcome error :=
  need_uuid (NodeAppTrafficPolicy_ID p) "id" ;;?
  need_uuid (NodeAppTrafficPolicy_NodeAppID p) "nodes_apps_id" ;;?
  need_uuid (NodeAppTrafficPolicy_TrafficPolicyID p) "traffic_policy_id".
End joins.

(** ** Facts on checks *)

Lemma refuse_None bad msg : refuse bad msg = Ret None ↔ bad = false.
Proof. unfold refuse. by destruct bad. Qed.

Lemma and_then_None a b : and_then a b = Ret None ↔ a = Ret None ∧ b = Ret None.
Proof. destruct a as [[e|]|]; simpl; naive_solver. Qed.

Lemma wrap_err_None prefix a : wrap_err prefix a = Ret None ↔ a = Ret None.
Proof. by destruct a as [[e|]|]. Qed.

Lemma check_each_None {A} (check : nat → A → outcome error) i l :
  check_each check i l = Ret None ↔ ∀ k x, l !! k = Some x → check (i + k)%nat x = Ret None.
Proof.
  revert i. induction l as [|x l IH]; intros i; simpl; [done|].
  rewrite and_then_None, IH. split.
  - intros [Hx Hl] [|k] y Hy; simpl in Hy; simplify_eq.
    + by rewrite Nat.add_0_r.
    + replace (i + S k)%nat with (S i + k)%nat by lia. by apply Hl.
  - intros Hl. split; [rewrite <- (Nat.add_0_r i); by apply (Hl 0%nat)|].
    intros k y Hy. replace (S i + k)%nat with (i + S k)%nat by lia. by apply (Hl (S k)).
Qed.

Lemma deref_None {A} (f : A → outcome error) p :
  deref f p = Ret None ↔ ∃ a, p = Some a ∧ f a = Ret None.
Proof. destruct p; simpl; naive_solver. Qed.

Lemma need_uuid_None `{Uuid} id name :
  need_uuid id name = Ret None ↔ IsValid id = true.
Proof. unfold need_uuid. rewrite refuse_None. by destruct (IsValid id). Qed.

Lemma need_text_None s name : need_text s name = Ret None ↔ s ≠ "".
Proof. unfold need_text, str_empty. rewrite refuse_None. by case_bool_decide. Qed.

(** When a check passes: one equation per condition. *)
Create Rewrite HintDb checks.
#[export] Hint Rewrite @and_then_None @refuse_None @wrap_err_None @check_each_None
  @deref_None @need_uuid_None @need_text_None @bool_decide_eq_false : checks.

Lemma IsValid_nonempty `{UuidLaws} id : IsValid id = true → id ≠ "".
Proof. unfold IsValid. intros Hid ->. by rewrite FromString_empty in Hid. Qed.
