(* ===== verification/CcePolicy.v ===== *)
(** * Traffic policies (edgecontroller/traffic_policy*.go)

    The policies of the native data plane ([TrafficPolicy]) and those of the
    Kubernetes one ([TrafficPolicyKubeOVN], translated by [ToK8s] into a network
    policy), with their [Validate] methods.  Both kinds are kept in the table
    [traffic_policies]. *)

From S2P Require Import Prelude Strconv GoNet Json CceModel.
From stdpp Require Import prelude strings list.
From Stdlib Require Import ZArith.

Local Open Scope Z_scope.
Local Open Scope go_scope.

(** [if p != nil { if err := p.Validate(); err != nil { return fmt.Errorf(...) } }]. *)
Definition if_set {A} (prefix : string) (f : A → outcome error) (p : option A)
    : outcome error :=
  match p with
  | None => Ret nil_err
  | Some a => wrap_err prefix (f a)
  end.

Definition out_of (lo hi x : Z) : bool := bool_decide (x < lo ∨ hi < x).

Definition ip_protocols : list string := ["tcp"; "udp"; "icmp"; "sctp"; "all"].

(** ** Policies of the native data plane *)

(** Frames of these hardware addresses. *)
Record MACFilter := mkMACFilter {
  MACFilter_MACAddresses : list string;
}.

#[export] Instance Json_MACFilter : Json MACFilter := {|
  to_json := λ x, JObj [("mac_addresses", to_json (MACFilter_MACAddresses x))];
  of_json := of_object (mkMACFilter []) (λ ms,
    v0 ← field ms "mac_addresses";
    Some (mkMACFilter v0));
  zero_value := mkMACFilter [];
|}.
#[export] Instance JsonOk_MACFilter : JsonOk MACFilter.
Proof. json_ok Json_MACFilter. Qed.
#[export] Instance JsonNN_MACFilter : JsonNN MACFilter.
Proof. json_nn. Qed.

(** Packets of a network, a range of ports and a protocol. *)
Record IPFilter := mkIPFilter {
  IPFilter_Address : string;
  IPFilter_Mask : Z;
  IPFilter_BeginPort : Z;
  IPFilter_EndPort : Z;
  IPFilter_Protocol : string;
}.

#[export] Instance Json_IPFilter : Json IPFilter := {|
  to_json := λ x, JObj [("address", to_json (IPFilter_Address x));
          ("mask", to_json (IPFilter_Mask x));
          ("begin_port", to_json (IPFilter_BeginPort x));
          ("end_port", to_json (IPFilter_EndPort x));
          ("protocol", to_json (IPFilter_Protocol x))];
  of_json := of_object (mkIPFilter "" 0 0 0 "") (λ ms,
    v0 ← field ms "address"; v1 ← field ms "mask"; v2 ← field ms "begin_port";
    v3 ← field ms "end_port"; v4 ← field ms "protocol";
    Some (mkIPFilter v0 v1 v2 v3 v4));
  zero_value := mkIPFilter "" 0 0 0 "";
|}.
#[export] Instance JsonOk_IPFilter : JsonOk IPFilter.
Proof. json_ok Json_IPFilter. Qed.
#[export] Instance JsonNN_IPFilter : JsonNN IPFilter.
Proof. json_nn. Qed.

(** Tunnelled packets of these subscribers. *)
Record GTPFilter := mkGTPFilter {
  GTPFilter_Address : string;
  GTPFilter_Mask : Z;
  GTPFilter_IMSIs : list string;
}.

#[export] Instance Json_GTPFilter : Json GTPFilter := {|
  to_json := λ x, JObj [("address", to_json (GTPFilter_Address x));
          ("mask", to_json (GTPFilter_Mask x));
          ("imsis", to_json (GTPFilter_IMSIs x))];
  of_json := of_object (mkGTPFilter "" 0 []) (λ ms,
    v0 ← field ms "address"; v1 ← field ms "mask"; v2 ← field ms "imsis";
    Some (mkGTPFilter v0 v1 v2));
  zero_value := mkGTPFilter "" 0 [];
|}.
#[export] Instance JsonOk_GTPFilter : JsonOk GTPFilter.
Proof. json_ok Json_GTPFilter. Qed.
#[export] Instance JsonNN_GTPFilter : JsonNN GTPFilter.
Proof. json_nn. Qed.

(** Rewrites the hardware address. *)
Record MACModifier := mkMACModifier {
  MACModifier_MACAddress : string;
}.

#[export] Instance Json_MACModifier : Json MACModifier := {|
  to_json := λ x, JObj [("mac_address", to_json (MACModifier_MACAddress x))];
  of_json := of_object (mkMACModifier "") (λ ms,
    v0 ← field ms "mac_address";
    Some (mkMACModifier v0));
  zero_value := mkMACModifier "";
|}.
#[export] Instance JsonOk_MACModifier : JsonOk MACModifier.
Proof. json_ok Json_MACModifier. Qed.
#[export] Instance JsonNN_MACModifier : JsonNN MACModifier.
Proof. json_nn. Qed.

(** Rewrites the address and port. *)
Record IPModifier := mkIPModifier {
  IPModifier_Address : string;
  IPModifier_Port : Z;
}.

#[export] Instance Json_IPModifier : Json IPModifier := {|
  to_json := λ x, JObj [("address", to_json (IPModifier_Address x));
          ("port", to_json (IPModifier_Port x))];
  of_json := of_object (mkIPModifier "" 0) (λ ms,
    v0 ← field ms "address"; v1 ← field ms "port";
    Some (mkIPModifier v0 v1));
  zero_value := mkIPModifier "" 0;
|}.
#[export] Instance JsonOk_IPModifier : JsonOk IPModifier.
Proof. json_ok Json_IPModifier. Qed.
#[export] Instance JsonNN_IPModifier : JsonNN IPModifier.
Proof. json_nn. Qed.

(** What a rule applies to. *)
Record TrafficSelector := mkTrafficSelector {
  TrafficSelector_Description : string;
  TrafficSelector_MACs : option MACFilter;
  TrafficSelector_IP : option IPFilter;
  TrafficSelector_GTP : option GTPFilter;
}.

#[export] Instance Json_TrafficSelector : Json TrafficSelector := {|
  to_json := λ x, JObj [("description", to_json (TrafficSelector_Description x));
          ("mac_filter", to_json (TrafficSelector_MACs x));
          ("ip_filter", to_json (TrafficSelector_IP x));
          ("gtp_filter", to_json (TrafficSelector_GTP x))];
  of_json := of_object (mkTrafficSelector "" None None None) (λ ms,
    v0 ← field ms "description"; v1 ← field ms "mac_filter";
    v2 ← field ms "ip_filter"; v3 ← field ms "gtp_filter";
    Some (mkTrafficSelector v0 v1 v2 v3));
  zero_value := mkTrafficSelector "" None None None;
|}.
#[export] Instance JsonOk_TrafficSelector : JsonOk TrafficSelector.
Proof. json_ok Json_TrafficSelector. Qed.
#[export] Instance JsonNN_TrafficSelector : JsonNN TrafficSelector.
Proof. json_nn. Qed.

(** What a rule does. *)
Record TrafficTarget := mkTrafficTarget {
  TrafficTarget_Description : string;
  TrafficTarget_Action : string;
  TrafficTarget_MAC : option MACModifier;
  TrafficTarget_IP : option IPModifier;
}.

#[export] Instance Json_TrafficTarget : Json TrafficTarget := {|
  to_json := λ x, JObj [("description", to_json (TrafficTarget_Description x));
          ("action", to_json (TrafficTarget_Action x));
          ("mac_modifier", to_json (TrafficTarget_MAC x));
          ("ip_modifier", to_json (TrafficTarget_IP x))];
  of_json := of_object (mkTrafficTarget "" "" None None) (λ ms,
    v0 ← field ms "description"; v1 ← field ms "action";
    v2 ← field ms "mac_modifier"; v3 ← field ms "ip_modifier";
    Some (mkTrafficTarget v0 v1 v2 v3));
  zero_value := mkTrafficTarget "" "" None None;
|}.
#[export] Instance JsonOk_TrafficTarget : JsonOk TrafficTarget.
Proof. json_ok Json_TrafficTarget. Qed.
#[export] Instance JsonNN_TrafficTarget : JsonNN TrafficTarget.
Proof. json_nn. Qed.

(** A rule. *)
Record TrafficRule := mkTrafficRule {
  TrafficRule_Description : string;
  TrafficRule_Priority : Z;
  TrafficRule_Source : option TrafficSelector;
  TrafficRule_Destination : option TrafficSelector;
  TrafficRule_Target : option TrafficTarget;
}.

#[export] Instance Json_TrafficRule : Json TrafficRule := {|
  to_json := λ x, JObj [("description", to_json (TrafficRule_Description x));
          ("priority", to_json (TrafficRule_Priority x));
          ("source", to_json (TrafficRule_Source x));
          ("destination", to_json (TrafficRule_Destination x));
          ("target", to_json (TrafficRule_Target x))];
  of_json := of_object (mkTrafficRule "" 0 None None None) (λ ms,
    v0 ← field ms "description"; v1 ← field ms "priority"; v2 ← field ms "source";
    v3 ← field ms "destination"; v4 ← field ms "target";
    Some (mkTrafficRule v0 v1 v2 v3 v4));
  zero_value := mkTrafficRule "" 0 None None None;
|}.
#[export] Instance JsonOk_TrafficRule : JsonOk TrafficRule.
Proof. json_ok Json_TrafficRule. Qed.
#[export] Instance JsonNN_TrafficRule : JsonNN TrafficRule.
Proof. json_nn. Qed.

(** A policy of the native data plane. *)
Record TrafficPolicy := mkTrafficPolicy {
  TrafficPolicy_ID : string;
  TrafficPolicy_Name : string;
  TrafficPolicy_Rules : list (option TrafficRule);
}.

#[export] Instance Json_TrafficPolicy : Json TrafficPolicy := {|
  to_json := λ x, JObj [("id", to_json (TrafficPolicy_ID x));
          ("name", to_json (TrafficPolicy_Name x));
          ("traffic_rules", to_json (TrafficPolicy_Rules x))];
  of_json := of_object (mkTrafficPolicy "" "" []) (λ ms,
    v0 ← field ms "id"; v1 ← field ms "name"; v2 ← field ms "traffic_rules";
    Some (mkTrafficPolicy v0 v1 v2));
  zero_value := mkTrafficPolicy "" "" [];
|}.
#[export] Instance JsonOk_TrafficPolicy : JsonOk TrafficPolicy.
Proof. json_ok Json_TrafficPolicy. Qed.
#[export] Instance JsonNN_TrafficPolicy : JsonNN TrafficPolicy.
Proof. json_nn. Qed.

#[export] Instance TrafficPolicy_Persistable : Persistable TrafficPolicy := {|
  GetTableName := "traffic_policies";
  GetID := TrafficPolicy_ID;
  SetID := λ id p, mkTrafficPolicy id (TrafficPolicy_Name p) (TrafficPolicy_Rules p);
|}.
#[export] Instance TrafficPolicy_Filterable : Filterable TrafficPolicy := [].

Definition MACFilter_Validate (f : MACFilter) : outcome error :=
  check_each (λ i mac,
    match ParseMAC mac with
    | inl _ => Ret nil_err
    | inr e => Ret (errors_New (indexed "mac_addresses" i +:+ " could not be parsed ("
                                +:+ e +:+ ")"))
    end) 0 (MACFilter_MACAddresses f).

Definition IPFilter_Validate (f : IPFilter) : outcome error :=
  refuse (bool_decide (ParseIP (IPFilter_Address f) = None)) "address could not be parsed" ;;?
  refuse (out_of 0 128 (IPFilter_Mask f)) "mask must be in [0..128]" ;;?
  refuse (out_of 0 65535 (IPFilter_BeginPort f)) "begin_port must be in [0..65535]" ;;?
  refuse (out_of 0 65535 (IPFilter_EndPort f)) "end_port must be in [0..65535]" ;;?
  refuse (bool_decide (IPFilter_EndPort f < IPFilter_BeginPort f))
    "begin_port must be <= end_port" ;;?
  refuse (bool_decide (IPFilter_Protocol f ∉ ip_protocols))
    "protocol must be one of [tcp, udp, icmp, sctp, all]".

(** The body of the loop over the subscribers; [strconv.ParseInt] in base ten
    and 64 bits is [Atoi]. *)
Definition check_imsi (i : nat) (imsi : string) : outcome error :=
  let msg := indexed "imsis" i +:+ " must be 14 or 15 digits" in
  refuse (bool_decide ((Atoi imsi).2 ≠ None)) msg ;;?
  refuse (bool_decide (str_len imsi ≠ 14) && bool_decide (str_len imsi ≠ 15)) msg.

Definition GTPFilter_Validate (f : GTPFilter) : outcome error :=
  need_text (GTPFilter_Address f) "address" ;;?
  refuse (bool_decide (ParseIP (GTPFilter_Address f) = None)) "address could not be parsed" ;;?
  refuse (out_of 0 128 (GTPFilter_Mask f)) "mask must be in [0..128]" ;;?
  check_each check_imsi 0 (GTPFilter_IMSIs f).

Definition MACModifier_Validate (m : MACModifier) : outcome error :=
  match ParseMAC (MACModifier_MACAddress m) with
  | inl _ => Ret nil_err
  | inr e => Ret (errors_New ("mac_address could not be parsed (" +:+ e +:+ ")"))
  end.

Definition IPModifier_Validate (m : IPModifier) : outcome error :=
  refuse (bool_decide (ParseIP (IPModifier_Address m) = None)) "address could not be parsed" ;;?
  refuse (out_of 1 65535 (IPModifier_Port m)) "port must be in [1..65535]".

Definition TrafficSelector_Validate (ts : TrafficSelector) : outcome error :=
  refuse (bool_decide (TrafficSelector_MACs ts = None)
          && bool_decide (TrafficSelector_IP ts = None)
          && bool_decide (TrafficSelector_GTP ts = None))
    "mac_filter|ip_filter|gtp_filter cannot all be nil" ;;?
  if_set "mac_filter." MACFilter_Validate (TrafficSelector_MACs ts) ;;?
  if_set "ip_filter." IPFilter_Validate (TrafficSelector_IP ts) ;;?
  if_set "gtp_filter." GTPFilter_Validate (TrafficSelector_GTP ts).

Definition TrafficTarget_Validate (t : TrafficTarget) : outcome error :=
  refuse (bool_decide (TrafficTarget_Action t ∉ ["accept"; "reject"; "drop"]))
    "action must be one of [accept, reject, drop]" ;;?
  if_set "mac_modifier." MACModifier_Validate (TrafficTarget_MAC t) ;;?
  if_set "ip_modifier." IPModifier_Validate (TrafficTarget_IP t).

Definition TrafficRule_Validate (tr : TrafficRule) : outcome error :=
  refuse (out_of 1 65535 (TrafficRule_Priority tr)) "priority must be in [1..65535]" ;;?
  refuse (bool_decide (TrafficRule_Source tr = None)
          && bool_decide (TrafficRule_Destination tr = None))
    "source & destination cannot both be empty" ;;?
  if_set "source." TrafficSelector_Validate (TrafficRule_Source tr) ;;?
  if_set "destination." TrafficSelector_Validate (TrafficRule_Destination tr) ;;?
  match TrafficRule_Target tr with
  | None => Ret (errors_New "target cannot be empty")
  | Some t => wrap_err "target." (TrafficTarget_Validate t)
  end.

Definition TrafficPolicy_Validate `{Uuid} (tp : TrafficPolicy) : outcome error :=
  need_uuid (TrafficPolicy_ID tp) "id" ;;?
  need_text (TrafficPolicy_Name tp) "name" ;;?
  refuse (bool_decide (length (TrafficPolicy_Rules tp) = 0%nat)) "rules cannot be empty" ;;?
  check_each (λ i rule, wrap_err (indexed "rules" i +:+ ".") (deref TrafficRule_Validate rule))
    0 (TrafficPolicy_Rules tp).

#[export] Instance TrafficPolicy_Validatable `{Uuid} : Validatable TrafficPolicy :=
  TrafficPolicy_Validate.

(** ** Policies of the Kubernetes data plane *)

(** A network without some of its parts. *)
Record IPBlock := mkIPBlock {
  IPBlock_CIDR : string;
  IPBlock_Except : list string;
}.

#[export] Instance Json_IPBlock : Json IPBlock := {|
  to_json := λ x, JObj [("cidr", to_json (IPBlock_CIDR x));
          ("except", to_json (IPBlock_Except x))];
  of_json := of_object (mkIPBlock "" []) (λ ms,
    v0 ← field ms "cidr"; v1 ← field ms "except";
    Some (mkIPBlock v0 v1));
  zero_value := mkIPBlock "" [];
|}.
#[export] Instance JsonOk_IPBlock : JsonOk IPBlock.
Proof. json_ok Json_IPBlock. Qed.
#[export] Instance JsonNN_IPBlock : JsonNN IPBlock.
Proof. json_nn. Qed.

(** A port. *)
Record Port := mkPort {
  Port_Port : Z;
  Port_Protocol : string;
}.

#[export] Instance Json_Port : Json Port := {|
  to_json := λ x, JObj [("port", to_json (Port_Port x));
          ("protocol", to_json (Port_Protocol x))];
  of_json := of_object (mkPort 0 "") (λ ms,
    v0 ← field ms "port"; v1 ← field ms "protocol";
    Some (mkPort v0 v1));
  zero_value := mkPort 0 "";
|}.
#[export] Instance JsonOk_Port : JsonOk Port.
Proof. json_ok Json_Port. Qed.
#[export] Instance JsonNN_Port : JsonNN Port.
Proof. json_nn. Qed.

(** What may come in. *)
Record IngressRule := mkIngressRule {
  IngressRule_Description : string;
  IngressRule_From : list (option IPBlock);
  IngressRule_Ports : list (option Port);
}.

#[export] Instance Json_IngressRule : Json IngressRule := {|
  to_json := λ x, JObj [("description", to_json (IngressRule_Description x));
          ("from", to_json (IngressRule_From x));
          ("ports", to_json (IngressRule_Ports x))];
  of_json := of_object (mkIngressRule "" [] []) (λ ms,
    v0 ← field ms "description"; v1 ← field ms "from"; v2 ← field ms "ports";
    Some (mkIngressRule v0 v1 v2));
  zero_value := mkIngressRule "" [] [];
|}.
#[export] Instance JsonOk_IngressRule : JsonOk IngressRule.
Proof. json_ok Json_IngressRule. Qed.
#[export] Instance JsonNN_IngressRule : JsonNN IngressRule.
Proof. json_nn. Qed.

(** What may go out. *)
Record EgressRule := mkEgressRule {
  EgressRule_Description : string;
  EgressRule_To : list (option IPBlock);
  EgressRule_Ports : list (option Port);
}.

#[export] Instance Json_EgressRule : Json EgressRule := {|
  to_json := λ x, JObj [("description", to_json (EgressRule_Description x));
          ("to", to_json (EgressRule_To x));
          ("ports", to_json (EgressRule_Ports x))];
  of_json := of_object (mkEgressRule "" [] []) (λ ms,
    v0 ← field ms "description"; v1 ← field ms "to"; v2 ← field ms "ports";
    Some (mkEgressRule v0 v1 v2));
  zero_value := mkEgressRule "" [] [];
|}.
#[export] Instance JsonOk_EgressRule : JsonOk EgressRule.
Proof. json_ok Json_EgressRule. Qed.
#[export] Instance JsonNN_EgressRule : JsonNN EgressRule.
Proof. json_nn. Qed.

(** A policy of the Kubernetes data plane. *)
Record TrafficPolicyKubeOVN := mkTrafficPolicyKubeOVN {
  TrafficPolicyKubeOVN_ID : string;
  TrafficPolicyKubeOVN_Name : string;
  TrafficPolicyKubeOVN_Ingress : list (option IngressRule);
  TrafficPolicyKubeOVN_Egress : list (option EgressRule);
}.

#[export] Instance Json_TrafficPolicyKubeOVN : Json TrafficPolicyKubeOVN := {|
  to_json := λ x, JObj [("id", to_json (TrafficPolicyKubeOVN_ID x));
          ("name", to_json (TrafficPolicyKubeOVN_Name x));
          ("ingress_rules", to_json (TrafficPolicyKubeOVN_Ingress x));
          ("egress_rules", to_json (TrafficPolicyKubeOVN_Egress x))];
  of_json := of_object (mkTrafficPolicyKubeOVN "" "" [] []) (λ ms,
    v0 ← field ms "id"; v1 ← field ms "name"; v2 ← field ms "ingress_rules";
    v3 ← field ms "egress_rules";
    Some (mkTrafficPolicyKubeOVN v0 v1 v2 v3));
  zero_value := mkTrafficPolicyKubeOVN "" "" [] [];
|}.
#[export] Instance JsonOk_TrafficPolicyKubeOVN : JsonOk TrafficPolicyKubeOVN.
Proof. json_ok Json_TrafficPolicyKubeOVN. Qed.
#[export] Instance JsonNN_TrafficPolicyKubeOVN : JsonNN TrafficPolicyKubeOVN.
Proof. json_nn. Qed.

#[export] Instance TrafficPolicyKubeOVN_Persistable : Persistable TrafficPolicyKubeOVN := {|
  GetTableName := "traffic_policies";
  GetID := TrafficPolicyKubeOVN_ID;
  SetID := λ id p, mkTrafficPolicyKubeOVN id (TrafficPolicyKubeOVN_Name p)
                     (TrafficPolicyKubeOVN_Ingress p) (TrafficPolicyKubeOVN_Egress p);
|}.
#[export] Instance TrafficPolicyKubeOVN_Filterable : Filterable TrafficPolicyKubeOVN := [].

(** The body of the loop over the exceptions to the network [n] of text [cidr]. *)
Definition check_except (cidr : string) (n : IPNet) (i : nat) (exceptCIDR : string)
    : outcome error :=
  let at_i := indexed "Except" i +:+ "." in
  match ParseCIDR exceptCIDR with
  | inr e => Ret (errors_New (at_i +:+ "Invalid CIDR: " +:+ e))
  | inl (exceptIP, exceptNet) =>
      refuse (IPNet_String_eq exceptNet n)
        (at_i +:+ "CIDR(" +:+ exceptCIDR +:+ ") is the same as CIDR(" +:+ cidr +:+ ")") ;;?
      refuse (negb (IP_Equal (IPNet_IP n) (IP_Mask exceptIP (IPNet_Mask n))))
        (at_i +:+ "CIDR(" +:+ exceptCIDR +:+ ") is not in CIDR(" +:+ cidr +:+ ")") ;;?
      refuse (bool_decide (Mask_Size (IPNet_Mask exceptNet) ≤ Mask_Size (IPNet_Mask n))%nat)
        (at_i +:+ "CIDR(" +:+ exceptCIDR +:+ ") mask is invalid")
  end.

Definition IPBlock_Validate (ipb : IPBlock) : outcome error :=
  match ParseCIDR (IPBlock_CIDR ipb) with
  | inr e => Ret (errors_New ("Invalid CIDR: " +:+ e))
  | inl (_, n) => check_each (check_except (IPBlock_CIDR ipb) n) 0 (IPBlock_Except ipb)
  end.

Definition Port_Validate (p : Port) : outcome error :=
  refuse (bool_decide (Port_Protocol p ≠ "tcp") && bool_decide (Port_Protocol p ≠ "udp")
          && bool_decide (Port_Protocol p ≠ "sctp"))
    ("Not supported protocol: " +:+ Port_Protocol p).

Definition check_blocks (name : string) : list (option IPBlock) → outcome error :=
  check_each (λ i b, wrap_err (indexed name i +:+ ".") (deref IPBlock_Validate b)) 0.

Definition check_ports : list (option Port) → outcome error :=
  check_each (λ i p, wrap_err (indexed "Ports" i +:+ ".") (deref Port_Validate p)) 0.

Definition IngressRule_Validate (ir : IngressRule) : outcome error :=
  check_blocks "From" (IngressRule_From ir) ;;? check_ports (IngressRule_Ports ir).

Definition EgressRule_Validate (er : EgressRule) : outcome error :=
  check_blocks "To" (EgressRule_To er) ;;? check_ports (EgressRule_Ports er).

Definition TrafficPolicyKubeOVN_Validate `{Uuid} (tp : TrafficPolicyKubeOVN)
    : outcome error :=
  refuse (negb (IsValid (TrafficPolicyKubeOVN_ID tp))) "id not a valid UUID" ;;?
  need_text (TrafficPolicyKubeOVN_Name tp) "name" ;;?
  refuse (bool_decide (length (TrafficPolicyKubeOVN_Ingress tp) = 0%nat)
          && bool_decide (length (TrafficPolicyKubeOVN_Egress tp) = 0%nat))
    "ingress and egress cannot be empty" ;;?
  check_each (λ i r, wrap_err (indexed "Ingress" i +:+ ".") (deref IngressRule_Validate r))
    0 (TrafficPolicyKubeOVN_Ingress tp) ;;?
  check_each (λ i r, wrap_err (indexed "Egress" i +:+ ".") (deref EgressRule_Validate r))
    0 (TrafficPolicyKubeOVN_Egress tp).

#[export] Instance TrafficPolicyKubeOVN_Validatable `{Uuid} : Validatable TrafficPolicyKubeOVN :=
  TrafficPolicyKubeOVN_Validate.

(** ** Network policies of Kubernetes *)

(** The parts of [networkingV1.NetworkPolicy] that the translation fills in. *)
Inductive Protocol := ProtocolTCP | ProtocolUDP | ProtocolSCTP.

Record NetworkPolicyPort := mkNetworkPolicyPort {
  npp_Protocol : Protocol;
  npp_Port : Z;
}.

Record NetworkPolicyPeer := mkNetworkPolicyPeer {
  npe_CIDR : string;
  npe_Except : list string;
}.

Record NetworkPolicyRule := mkNetworkPolicyRule {
  npr_Ports : list NetworkPolicyPort;
  npr_Peers : list NetworkPolicyPeer;
}.

Record NetworkPolicy := mkNetworkPolicy {
  np_Ingress : list NetworkPolicyRule;
  np_Egress : list NetworkPolicyRule;
  np_PolicyTypes : list string;
}.

Definition k8sProtocol (protocol : string) : Protocol :=
  if bool_decide (protocol ∈ ["udp"; "UDP"]) then ProtocolUDP
  else if bool_decide (protocol ∈ ["sctp"; "SCTP"]) then ProtocolSCTP
  else ProtocolTCP.

Definition Port_ToK8s (p : Port) : NetworkPolicyPort :=
  mkNetworkPolicyPort (k8sProtocol (Port_Protocol p)) (Port_Port p).

Definition IPBlock_ToK8s (ipb : IPBlock) : NetworkPolicyPeer :=
  mkNetworkPolicyPeer (IPBlock_CIDR ipb) (IPBlock_Except ipb).

(** A loop that appends the translation of every element; a nil element is
    dereferenced. *)
Fixpoint translate_all {A B} (f : A → outcome B) (l : list (option A)) : outcome (list B) :=
  match l with
  | [] => Ret []
  | None :: _ => Panic "nil pointer dereference"
  | Some a :: l' =>
      match f a with
      | Panic e => Panic e
      | Ret b => match translate_all f l' with
                 | Panic e => Panic e
                 | Ret bs => Ret (b :: bs)
                 end
      end
  end.

Definition rule_ToK8s (ports : list (option Port)) (peers : list (option IPBlock))
    : outcome NetworkPolicyRule :=
  match translate_all (λ p, Ret (Port_ToK8s p)) ports with
  | Panic e => Panic e
  | Ret ps => match translate_all (λ b, Ret (IPBlock_ToK8s b)) peers with
              | Panic e => Panic e
              | Ret bs => Ret (mkNetworkPolicyRule ps bs)
              end
  end.

Definition IngressRule_ToK8s (ir : IngressRule) : outcome NetworkPolicyRule :=
  rule_ToK8s (IngressRule_Ports ir) (IngressRule_From ir).

Definition EgressRule_ToK8s (er : EgressRule) : outcome NetworkPolicyRule :=
  rule_ToK8s (EgressRule_Ports er) (EgressRule_To er).

Definition ToK8s (tp : TrafficPolicyKubeOVN) : outcome NetworkPolicy :=
  match translate_all IngressRule_ToK8s (TrafficPolicyKubeOVN_Ingress tp) with
  | Panic e => Panic e
  | Ret iss =>
      match translate_all EgressRule_ToK8s (TrafficPolicyKubeOVN_Egress tp) with
      | Panic e => Panic e
      | Ret es =>
          let policyTypes :=
            (if bool_decide (0 < length es)%nat then ["Egress"] else [])
            ++ (if bool_decide (0 < length iss)%nat then ["Ingress"] else []) in
          Ret (mkNetworkPolicy iss es policyTypes)
      end
  end.
