(* ===== verification/CcePersist.v ===== *)
(** * The persistence service (edgecontroller/mysql)

    Every entity is a row of a table: a JSON document from which the columns of
    schema.sql are generated.  [schema] is that file: the columns, the unique
    keys and the foreign keys of each table; [rel_exec] and [rel_select] say
    what the four statements of the service mean on tables with these
    constraints.  The database is behind an interface, as in the sources
    ([CceDB]); [CceDBLaws] says that it performs statements as described or
    reports an error, [DbUp] that it does not fail without reason, and
    [memory_db] is one such database.  Texts are compared byte by byte. *)

From S2P Require Import Prelude Strconv Json CceModel.
From stdpp Require Import prelude strings list gmap sorting.
From Stdlib Require Import ZArith.

Local Open Scope Z_scope.

(** ** Tables *)

Record ForeignKey := mkForeignKey {
  fk_column : string;
  fk_table : string;
  fk_cascade : bool;
}.

Record TableDef := mkTableDef {
  td_columns : list (string * nat);
  td_unique : list (list string);
  td_foreign : list ForeignKey;
}.

(** [UNIQUE KEY] on the column [id]. *)
Definition id_key : list string := ["id"].

(** schema.sql. *)
Definition schema : list (string * TableDef) :=
  [("nodes",
     mkTableDef [("id", 36); ("serial", 128)]%nat [id_key] []);
   ("node_grpc_targets",
     mkTableDef [("id", 36); ("node_id", 36); ("grpc_target", 47)]%nat
       [id_key; ["node_id"]; ["grpc_target"]] [mkForeignKey "node_id" "nodes" true]);
   ("nodes_nfd_features",
     mkTableDef [("id", 36); ("node_id", 36); ("nfd_id", 36)]%nat
       [id_key; ["node_id"; "nfd_id"]] [mkForeignKey "node_id" "nodes" true]);
   ("apps",
     mkTableDef [("id", 36); ("type", 36)]%nat [id_key] []);
   ("traffic_policies",
     mkTableDef [("id", 36)]%nat [id_key] []);
   ("dns_configs",
     mkTableDef [("id", 36)]%nat [id_key] []);
   ("credentials",
     mkTableDef [("id", 36)]%nat [id_key] []);
   ("dns_configs_app_aliases",
     mkTableDef [("id", 36); ("dns_config_id", 36); ("app_id", 36)]%nat
       [id_key; ["dns_config_id"; "app_id"]]
       [mkForeignKey "dns_config_id" "dns_configs" false;
        mkForeignKey "app_id" "apps" false]);
   ("nodes_apps",
     mkTableDef [("id", 36); ("node_id", 36); ("app_id", 36)]%nat
       [id_key; ["node_id"; "app_id"]]
       [mkForeignKey "node_id" "nodes" false; mkForeignKey "app_id" "apps" false]);
   ("nodes_dns_configs",
     mkTableDef [("id", 36); ("node_id", 36); ("dns_config_id", 36)]%nat
       [id_key; ["node_id"]]
       [mkForeignKey "node_id" "nodes" false;
        mkForeignKey "dns_config_id" "dns_configs" false]);
   ("nodes_network_interfaces_traffic_policies",
     mkTableDef [("id", 36); ("node_id", 36); ("network_interface_id", 36);
                 ("traffic_policy_id", 36)]%nat
       [id_key; ["node_id"; "network_interface_id"]]
       [mkForeignKey "node_id" "nodes" false;
        mkForeignKey "traffic_policy_id" "traffic_policies" false]);
   ("nodes_apps_traffic_policies",
     mkTableDef [("id", 36); ("nodes_apps_id", 36); ("traffic_policy_id", 36)]%nat
       [id_key; ["nodes_apps_id"; "traffic_policy_id"]]
       [mkForeignKey "nodes_apps_id" "nodes_apps" false;
        mkForeignKey "traffic_policy_id" "traffic_policies" false])].

Fixpoint lookup_def (t : string) (l : list (string * TableDef)) : option TableDef :=
  match l with
  | [] => None
  | (t', d) :: l' => if bool_decide (t = t') then Some d else lookup_def t l'
  end.

Definition table_def (t : string) : option TableDef := lookup_def t schema.

(** A generated column, [entity->>'$.k']: NULL when there is no such member. *)
Definition column (k : string) (row : json) : option string :=
  match row with
  | JObj ms => match member k ms with
               | Some (JStr s) => Some s
               | Some (JNum z) => Some (Itoa z)
               | Some JNull => Some "null"
               | _ => None
               end
  | _ => None
  end.

Definition row_id (row : json) : option string := column "id" row.

Abbreviation Tables := (gmap string (list json)).

Definition rows_of (T : Tables) (t : string) : list json := default [] (T !! t).

(** Some row of [t] has the identifier [id]. *)
Definition has_row (T : Tables) (t id : string) : bool :=
  existsb (λ r, bool_decide (row_id r = Some id)) (rows_of T t).

(** Two rows collide in a unique key when none of its columns is NULL and all
    of them agree. *)
Definition collide (key : list string) (a b : json) : bool :=
  forallb (λ c, bool_decide (column c a ≠ None) && bool_decide (column c a = column c b)) key.

(** The constraints on a row of [t], [others] being the other rows. *)
Definition unique_ok (d : TableDef) (row : json) (others : list json) : bool :=
  forallb (λ key, negb (existsb (collide key row) others)) (td_unique d).

Definition foreign_ok (T : Tables) (d : TableDef) (row : json) : bool :=
  forallb (λ fk, match column (fk_column fk) row with
                 | None => true
                 | Some v => has_row T (fk_table fk) v
                 end) (td_foreign d).

(** The columns of a row are not longer than declared. *)
Definition fits (d : TableDef) (row : json) : bool :=
  forallb (λ cn, match column cn.1 row with
                 | None => true
                 | Some v => bool_decide (String.length v ≤ cn.2)%nat
                 end) (td_columns d).

(** The rows of [t'] that refer to the row [id] of [t], by foreign keys that
    do ([cascade]) or do not cascade. *)
Definition refers (cascade : bool) (t id : string) (d' : TableDef) (row : json) : bool :=
  existsb (λ fk, bool_decide (fk_table fk = t) && eqb (fk_cascade fk) cascade
                 && bool_decide (column (fk_column fk) row = Some id)) (td_foreign d').

Definition in_use (T : Tables) (t id : string) : bool :=
  existsb (λ td, existsb (refers false t id td.2) (rows_of T td.1)) schema.

(** Removes the rows that cascade with the row [id] of [t].  No table refers to
    a table with cascading rows, so one round is enough. *)
Definition cascades (t id t' : string) (row : json) : bool :=
  match table_def t' with Some d' => refers true t id d' row | None => false end.

Definition cascade (T : Tables) (t id : string) : Tables :=
  map_imap (λ t' rows, Some (List.filter (λ r, negb (cascades t id t' r)) rows)) T.

(** ** Statements *)

Inductive stmt :=
| InsertRow (t : string) (row : json)
| UpdateRow (t : string) (row : json)
| DeleteRow (t id : string).

(** The table a statement changes and the row it writes. *)
Definition stmt_fits (st : stmt) : bool :=
  match st with
  | InsertRow t row | UpdateRow t row =>
      match table_def t with Some d => fits d row | None => false end
  | DeleteRow _ _ => true
  end.

Definition is_id (id : option string) (r : json) : bool :=
  bool_decide (row_id r = id) && bool_decide (id ≠ None).

(** What a statement does: the number of rows it changes and the new tables,
    or nothing when a constraint forbids it. *)
Definition rel_exec (T : Tables) (st : stmt) : option (Z * Tables) :=
  match st with
  | InsertRow t row =>
      match table_def t with
      | None => None
      | Some d =>
          if unique_ok d row (rows_of T t) && foreign_ok T d row
          then Some (1, <[t := rows_of T t ++ [row]]> T) else None
      end
  | UpdateRow t row =>
      match table_def t with
      | None => None
      | Some d =>
          let mine := List.filter (is_id (row_id row)) (rows_of T t) in
          let others := List.filter (λ r, negb (is_id (row_id row) r)) (rows_of T t) in
          if bool_decide (mine = []) then Some (0, T)
          else if unique_ok d row others && foreign_ok T d row
          then Some (Z.of_nat (length mine),
                     <[t := (λ r, if is_id (row_id row) r then row else r) <$> rows_of T t]> T)
          else None
      end
  | DeleteRow t id =>
      match table_def t with
      | None => None
      | Some _ =>
          let mine := List.filter (is_id (Some id)) (rows_of T t) in
          if bool_decide (mine = []) then Some (0, T)
          else if in_use T t id then None
          else Some (Z.of_nat (length mine),
                     cascade (<[t := List.filter (λ r, negb (is_id (Some id) r))
                                       (rows_of T t)]> T) t id)
      end
  end.

(** [SELECT entity FROM t WHERE c1 = v1 AND ...]. *)
Definition matches (ws : list (string * string)) (r : json) : bool :=
  forallb (λ w, bool_decide (column w.1 r = Some w.2)) ws.

Definition rel_select (T : Tables) (t : string) (ws : list (string * string)) : list json :=
  List.filter (matches ws) (rows_of T t).

(** ** The database *)

(** A query yields the rows that [rows.Next] walks over, each of which
    [rows.Scan] may fail to read. *)
Class CceDB := {
  DB : Type;
  ExecContext : stmt → DB → (Z + string) * DB;
  QueryContext : string → list (string * string) → DB
                 → (list (json + string) + string) * DB;
}.

(** The documents among the rows of a result. *)
Definition documents (rows : list (json + string)) : list json :=
  omap (λ r, match r with inl j => Some j | inr _ => None end) rows.

(** A statement that reports success was performed; one that reports an error
    was refused or performed as a whole (the answer may be lost).  A query
    changes nothing and yields selected rows only, each once; the connection
    may be lost before all of them are delivered. *)
Class CceDBLaws `{CceDB} := {
  tables : DB → Tables;
  exec_ok : ∀ st d n d', ExecContext st d = (inl n, d') →
    rel_exec (tables d) st = Some (n, tables d');
  exec_err : ∀ st d e d', ExecContext st d = (inr e, d') →
    tables d' = tables d ∨ ∃ n, rel_exec (tables d) st = Some (n, tables d');
  query_same : ∀ t ws d, tables (QueryContext t ws d).2 = tables d;
  query_rows : ∀ t ws d rows d', QueryContext t ws d = (inl rows, d') →
    ∃ lost, documents rows ++ lost ≡ₚ rel_select (tables d) t ws;
}.

(** The database is up: what the constraints allow is done, and queries yield
    all their rows. *)
Class DbUp `{CceDBLaws} := {
  exec_up : ∀ st d n T', rel_exec (tables d) st = Some (n, T') → stmt_fits st = true →
    (ExecContext st d).1 = inl n;
  query_up : ∀ t ws d, ∃ rows, (QueryContext t ws d).1 = inl (inl <$> rows)
    ∧ rows ≡ₚ rel_select (tables d) t ws;
}.

(** A database in memory. *)
#[export] Instance memory_db : CceDB | 100 := {|
  DB := Tables;
  ExecContext := λ st T, match rel_exec T st with
                         | Some (n, T') => (inl n, T')
                         | None => (inr "constraint fails", T)
                         end;
  QueryContext := λ t ws T, (inl (inl <$> rel_select T t ws), T);
|}.

Lemma documents_inl rows : documents (inl <$> rows) = rows.
Proof. induction rows as [|r rows IH]; [done|]. rewrite fmap_cons. simpl. by rewrite IH. Qed.

#[export] Program Instance memory_db_laws : CceDBLaws | 100 := {| tables := λ T, T |}.
Next Obligation. simpl. intros st d n d' He. destruct (rel_exec d st) as [[]|]; by simplify_eq. Qed.
Next Obligation. simpl. intros st d e d' He. left. destruct (rel_exec d st) as [[]|]; by simplify_eq. Qed.
Next Obligation. done. Qed.
Next Obligation.
  simpl. intros t ws d rows d' He. simplify_eq. exists []. by rewrite app_nil_r, documents_inl.
Qed.

#[export] Program Instance memory_db_up : DbUp | 100.
Next Obligation. simpl. intros st d n T' He _. by rewrite He. Qed.
Next Obligation. simpl. intros t ws d. by eexists. Qed.

(** ** The service *)

(** [errors.Wrap(err, msg)]. *)
Definition errors_Wrap (e msg : string) : error := Some (msg +:+ ": " +:+ e).

(** [sort.Strings] and the search in the sorted fields, which stops at the
    first one that is not smaller. *)
Definition string_le (a b : string) : Prop := String.leb a b = true.
#[export] Instance string_le_dec a b : Decision (string_le a b).
Proof. unfold string_le. apply _. Defined.

Definition sort_Strings (l : list string) : list string := merge_sort string_le l.

Fixpoint allowed_loop (ffs : list string) (f : string) (allowed : bool) : bool :=
  match ffs with
  | [] => allowed
  | allowedField :: ffs' =>
      let allowed' := if bool_decide (f = allowedField) then true else allowed in
      if bool_decide (string_le f allowedField) then allowed'
      else allowed_loop ffs' f allowed'
  end.

(** The methods of [PersistenceService]. *)
Module PS.
Section service.
Context `{CceDB}.

(** Reads a row into a fresh value of the type of [zv]. *)
Definition scan `{Persistable A} (row : json + string) : A + string :=
  match row with
  | inr e => inr ("error scanning row: " +:+ e)
  | inl j => match of_json j with
             | Some a => inl a
             | None => inr "error unmarshaling"
             end
  end.

(** [for rows.Next() { ... }]. *)
Fixpoint scan_all `{Persistable A} (rows : list (json + string)) : list A + string :=
  match rows with
  | [] => inl []
  | r :: rows' =>
      match scan r with
      | inr e => inr e
      | inl a => match scan_all rows' with
                 | inl es => inl (a :: es)
                 | inr e => inr e
                 end
      end
  end.

Definition Create `{Persistable A} (e : A) : GoM DB error := λ d,
  match ExecContext (InsertRow (GetTableName A) (to_json e)) d with
  | (inl _, d') => (Ret nil_err, d')
  | (inr err, d') => (Ret (errors_Wrap err "error inserting record"), d')
  end.

(** The first row with the identifier, if any. *)
Definition Read `{Persistable A} (id : string) : GoM DB (option A * error) := λ d,
  match QueryContext (GetTableName A) [("id", id)] d with
  | (inr err, d') => (Ret (None, errors_Wrap err "error running query"), d')
  | (inl [], d') => (Ret (None, nil_err), d')
  | (inl (row :: _), d') =>
      match scan row with
      | inl e => (Ret (Some e, nil_err), d')
      | inr err => (Ret (None, Some err), d')
      end
  end.

(** Runs a query and reads all its rows. *)
Definition select_all `{Persistable A} (ws : list (string * string))
    : GoM DB (list A * error) := λ d,
  match QueryContext (GetTableName A) ws d with
  | (inr err, d') => (Ret ([], errors_Wrap err "error running query"), d')
  | (inl rows, d') =>
      match scan_all rows with
      | inl es => (Ret (es, nil_err), d')
      | inr err => (Ret ([], Some err), d')
      end
  end.

Definition ReadAll `{Persistable A} : GoM DB (list A * error) := select_all [].

(** The first filter that is not allowed. *)
Definition disallowed (ffs : list string) (fs : list (string * string)) : option string :=
  match List.find (λ f, negb (allowed_loop (sort_Strings ffs) f.1 false)) fs with
  | Some f => Some f.1
  | None => None
  end.

Definition Filter `{Filterable A} (fs : list (string * string))
    : GoM DB (list A * error) :=
  match disallowed (FilterFields A) fs with
  | Some f => mret ([], errors_New ("disallowed filter field " +:+ quoted f))
  | None => select_all fs
  end.

Fixpoint BulkUpdate `{Persistable A} (es : list A) : GoM DB error :=
  match es with
  | [] => mret nil_err
  | e :: es' => λ d,
      match ExecContext (UpdateRow (GetTableName A) (to_json e)) d with
      | (inl _, d') => BulkUpdate es' d'
      | (inr err, d') => (Ret (errors_Wrap err "error updating record"), d')
      end
  end.

Definition Delete A `{Persistable A} (id : string) : GoM DB (bool * error) := λ d,
  match ExecContext (DeleteRow (GetTableName A) id) d with
  | (inr err, d') => (Ret (false, errors_Wrap err "error deleting record"), d')
  | (inl rows, d') => (Ret (bool_decide (rows = 1), nil_err), d')
  end.
End service.
End PS.
