(* ===== verification/CceNode.v ===== *)
(** * The controller's view of a node (edgecontroller/grpc/node, grpc/clients)

    The gRPC clients translate entities into protocol-buffer messages and call
    the services of a node.  The transport is a parameter ([NodeNet]): dialling
    an address and calling a service may fail.  [Connect] makes the clients of
    the EVA services for port 42102 and those of the ELA services for any other
    port, and a client that was not made is a nil pointer. *)

From S2P Require Import Prelude Strconv Json CceModel CcePolicy.
From stdpp Require Import prelude strings list.
From Stdlib Require Import ZArith.

Local Open Scope Z_scope.

Definition wrap_uint32 (z : Z) : Z := z mod 2 ^ 32.
Definition wrap_int32 (z : Z) : Z := (z + 2 ^ 31) mod 2 ^ 32 - 2 ^ 31.

(** ** Messages *)

Record PBPortProto := mkPBPortProto { pbp_Port : Z; pbp_Protocol : string }.

Record CNIConfiguration := mkCNIConfiguration {
  cni_Config : string;
  cni_InterfaceName : string;
  cni_Path : string;
  cni_Args : string;
}.

(** [evapb.Application]; the blob is the JSON of the EPA features. *)
Record PBApplication := mkPBApplication {
  pba_Id : string;
  pba_Name : string;
  pba_Vendor : string;
  pba_Description : string;
  pba_Version : string;
  pba_Cores : Z;
  pba_Memory : Z;
  pba_Ports : list PBPortProto;
  pba_HttpUri : string;
  pba_EACJsonBlob : json;
  pba_CniConf : option CNIConfiguration;
}.

Record PBNetworkInterface := mkPBNetworkInterface {
  pbi_Id : string;
  pbi_Description : string;
  pbi_Driver : Z;
  pbi_Type : Z;
  pbi_MacAddress : string;
  pbi_Vlan : Z;
  pbi_Zones : list string;
  pbi_FallbackInterface : string;
}.

Record PBIPFilter := mkPBIPFilter {
  pbf_Address : string;
  pbf_Mask : Z;
  pbf_BeginPort : Z;
  pbf_EndPort : Z;
  pbf_Protocol : string;
}.

Record PBGTPFilter := mkPBGTPFilter {
  pbg_Address : string;
  pbg_Mask : Z;
  pbg_Imsis : list string;
}.

Record PBTrafficSelector := mkPBTrafficSelector {
  pbs_Description : string;
  pbs_Macs : option (list string);
  pbs_Ip : option PBIPFilter;
  pbs_Gtp : option PBGTPFilter;
}.

Inductive TargetAction := ACCEPT | REJECT | DROP.

Record PBTrafficTarget := mkPBTrafficTarget {
  pbt_Description : string;
  pbt_Action : TargetAction;
  pbt_Mac : option string;
  pbt_Ip : option (string * Z);
}.

Record PBTrafficRule := mkPBTrafficRule {
  pbr_Description : string;
  pbr_Priority : Z;
  pbr_Source : option PBTrafficSelector;
  pbr_Destination : option PBTrafficSelector;
  pbr_Target : option PBTrafficTarget;
}.

Record PBTrafficPolicy := mkPBTrafficPolicy {
  pbtp_Id : string;
  pbtp_TrafficRules : list PBTrafficRule;
}.

Inductive LifecycleCommand := START | STOP | RESTART.

Record PBNetworkZone := mkPBNetworkZone { pbz_Id : string; pbz_Description : string }.

(** The calls of the EVA and ELA services that the clients make. *)
Inductive rpc :=
| DeployContainer (app : PBApplication)
| DeployVM (app : PBApplication)
| UndeployRpc (id : string)
| Lifecycle (id : string) (cmd : LifecycleCommand)
| GetStatusRpc (id : string)
| SetAppPolicy (p : PBTrafficPolicy)
| SetIfacePolicy (p : PBTrafficPolicy)
| BulkUpdateIfaces (nis : list PBNetworkInterface)
| GetAllIfaces
| SetARpc (name : string) (values : list string)
| DeleteARpc (name : string) (values : list string)
| SetForwardersRpc (ips : list string)
| DeleteForwardersRpc (ips : list string)
| RedeployRpc (app : PBApplication)
| UpdateIfaceRpc (ni : PBNetworkInterface)
| GetIfaceRpc (id : string)
| CreateZoneRpc (z : PBNetworkZone)
| UpdateZoneRpc (z : PBNetworkZone)
| BulkUpdateZonesRpc (zs : list PBNetworkZone)
| GetAllZonesRpc
| GetZoneRpc (id : string)
| DeleteZoneRpc (id : string).

(** What a call yields: nothing, a status, interfaces, or zones. *)
Inductive reply :=
| REmpty
| RStatus (s : Z)
| RIfaces (nis : list PBNetworkInterface)
| RIface (ni : PBNetworkInterface)
| RZones (zs : list PBNetworkZone)
| RZone (z : PBNetworkZone).

(** A gRPC status: whether its code is [NotFound], and its message. *)
Record grpc_status := mkStatus { st_NotFound : bool; st_Message : string }.

(** The structure that the CNI arguments are decoded into. *)
Record CniArgs := mkCniArgs { ca_InterfaceName : string; ca_Path : string; ca_ExtraArgs : string }.

(** The transport, the files of the controller's host, the decoding of the CNI
    arguments, and the proxy listener that nodes are registered at. *)
Class NodeNet := {
  NET : Type;
  grpc_Dial : string → bool → NET → error * NET;
  grpc_call : string → rpc → NET → (reply + grpc_status) * NET;
  host_ReadFile : string → string + string;
  json_CniArgs : string → CniArgs + string;
  RegisterHost : string → NET → NET;
}.

(** An error of a client: the gRPC status that is its cause, and its text. *)
Record client_error := mkClientError { ce_Cause : grpc_status; ce_Text : string }.

(** [errors.Wrap] on the error of a call. *)
Definition Wrap_status (s : grpc_status) (msg : string) : client_error :=
  mkClientError s (msg +:+ ": " +:+ st_Message s).

(** ** Translation *)

(** [all] is sent as the empty protocol. *)
Definition pb_protocol (p : string) : string :=
  if bool_decide (p ≠ "all") then p else "".

Definition cniConfPath : string := "/artifacts/cni/cni.conf".
Definition cniArgsPath : string := "/artifacts/cni/cni_args.json".

Definition getCNIConf `{NodeNet} : CNIConfiguration + string :=
  match host_ReadFile cniConfPath with
  | inr e => inr ("failed to read file with CNI configuration: " +:+ cniConfPath +:+ ": " +:+ e)
  | inl cniConf =>
      match host_ReadFile cniArgsPath with
      | inr e => inr ("failed to read file with CNI args: " +:+ cniArgsPath +:+ ": " +:+ e)
      | inl contents =>
          match json_CniArgs contents with
          | inr e => inr ("failed to unmarshal CNI args: " +:+ e)
          | inl a => inl (mkCNIConfiguration cniConf (ca_InterfaceName a) (ca_Path a) (ca_ExtraArgs a))
          end
      end
  end.

Definition toPBApp `{NodeNet} (app : App) : PBApplication :=
  let ports := (λ pp, mkPBPortProto (PortProto_Port pp) (pb_protocol (PortProto_Protocol pp)))
               <$> App_Ports app in
  let cni := match getCNIConf with
             | inl c => Some (mkCNIConfiguration (cni_Config c) (cni_InterfaceName c)
                                 (cni_Path c) (cni_Args c +:+ ";appID=" +:+ App_ID app))
             | inr _ => None
             end in
  mkPBApplication (App_ID app) (App_Name app) (App_Vendor app) (App_Description app)
    (App_Version app) (wrap_int32 (App_Cores app)) (wrap_int32 (App_Memory app)) ports
    (App_Source app) (to_json (App_EPAFeatures app)) cni.

Definition toPBInterfaceDriver (driver : string) : Z :=
  if bool_decide (driver = "kernel") then 0
  else if bool_decide (driver = "userspace") then 1 else 0.

Definition toPBInterfaceType (ifType : string) : Z :=
  if bool_decide (ifType = "none") then 0
  else if bool_decide (ifType = "upstream") then 1
  else if bool_decide (ifType = "downstream") then 2
  else if bool_decide (ifType = "bidirectional") then 3
  else if bool_decide (ifType = "breakout") then 4 else 0.

Definition fromPBInterfaceDriver (d : Z) : string :=
  if bool_decide (d = 0) then "kernel"
  else if bool_decide (d = 1) then "userspace" else "kernel".

Definition fromPBInterfaceType (t : Z) : string :=
  if bool_decide (t = 0) then "none"
  else if bool_decide (t = 1) then "upstream"
  else if bool_decide (t = 2) then "downstream"
  else if bool_decide (t = 3) then "bidirectional"
  else if bool_decide (t = 4) then "breakout" else "none".

Definition toPBNetworkInterface (ni : NetworkInterface) : PBNetworkInterface :=
  mkPBNetworkInterface (NetworkInterface_ID ni) (NetworkInterface_Description ni)
    (toPBInterfaceDriver (NetworkInterface_Driver ni))
    (toPBInterfaceType (NetworkInterface_Type ni))
    (NetworkInterface_MACAddress ni) (wrap_uint32 (NetworkInterface_VLAN ni))
    (NetworkInterface_Zones ni) (NetworkInterface_FallbackInterface ni).

Definition fromPBNetworkInterface (ni : PBNetworkInterface) : NetworkInterface :=
  mkNetworkInterface (pbi_Id ni) (pbi_Description ni)
    (fromPBInterfaceDriver (pbi_Driver ni)) (fromPBInterfaceType (pbi_Type ni))
    (pbi_MacAddress ni) (pbi_Vlan ni) (pbi_Zones ni) (pbi_FallbackInterface ni).

Definition fromPBLifecycleStatus (s : Z) : LifecycleStatus :=
  if bool_decide (s = 0) then Unknown
  else if bool_decide (s = 1) then Deploying
  else if bool_decide (s = 2) then Deployed
  else if bool_decide (s = 3) then Starting
  else if bool_decide (s = 4) then Running
  else if bool_decide (s = 5) then Stopping
  else if bool_decide (s = 6) then Stopped
  else if bool_decide (s = 7) then ErrorStatus
  else Unknown.

Definition toPBIPFilter (f : IPFilter) : PBIPFilter :=
  mkPBIPFilter (IPFilter_Address f) (wrap_uint32 (IPFilter_Mask f))
    (wrap_uint32 (IPFilter_BeginPort f)) (wrap_uint32 (IPFilter_EndPort f))
    (pb_protocol (IPFilter_Protocol f)).

Definition toPBGTPFilter (f : GTPFilter) : PBGTPFilter :=
  mkPBGTPFilter (GTPFilter_Address f) (wrap_uint32 (GTPFilter_Mask f)) (GTPFilter_IMSIs f).

Definition toPBTrafficSelector (ts : TrafficSelector) : PBTrafficSelector :=
  mkPBTrafficSelector (TrafficSelector_Description ts)
    (MACFilter_MACAddresses <$> TrafficSelector_MACs ts)
    (toPBIPFilter <$> TrafficSelector_IP ts) (toPBGTPFilter <$> TrafficSelector_GTP ts).

Definition toPBTargetAction (action : string) : outcome TargetAction :=
  if bool_decide (action = "accept") then Ret ACCEPT
  else if bool_decide (action = "reject") then Ret REJECT
  else if bool_decide (action = "drop") then Ret DROP
  else Panic ("invalid target action " +:+ action).

Definition toPBTrafficTarget (t : TrafficTarget) : outcome PBTrafficTarget :=
  match toPBTargetAction (TrafficTarget_Action t) with
  | Panic e => Panic e
  | Ret a =>
      Ret (mkPBTrafficTarget (TrafficTarget_Description t) a
             (MACModifier_MACAddress <$> TrafficTarget_MAC t)
             ((λ m, (IPModifier_Address m, wrap_uint32 (IPModifier_Port m)))
              <$> TrafficTarget_IP t))
  end.

Definition toPBTrafficRule (tr : TrafficRule) : outcome PBTrafficRule :=
  let rule target :=
    mkPBTrafficRule (TrafficRule_Description tr) (wrap_uint32 (TrafficRule_Priority tr))
      (toPBTrafficSelector <$> TrafficRule_Source tr)
      (toPBTrafficSelector <$> TrafficRule_Destination tr) target in
  match TrafficRule_Target tr with
  | None => Ret (rule None)
  | Some t => match toPBTrafficTarget t with
              | Panic e => Panic e
              | Ret t' => Ret (rule (Some t'))
              end
  end.

Definition toPBTrafficPolicy (id : string) (tp : option TrafficPolicy)
    : outcome PBTrafficPolicy :=
  match tp with
  | None => Ret (mkPBTrafficPolicy id [])
  | Some tp =>
      match translate_all toPBTrafficRule (TrafficPolicy_Rules tp) with
      | Panic e => Panic e
      | Ret rules => Ret (mkPBTrafficPolicy id rules)
      end
  end.

(** ** Connections *)

(** A connection: the address, and the port it was made for. *)
Record ClientConn := mkClientConn {
  cc_Addr : string;
  cc_Port : string;
}.

Definition is_eva (cc : ClientConn) : bool := bool_decide (cc_Port cc = "42102").

Section clients.
Context `{NodeNet}.

(** [cc.Connect]: the clients are made from the connection before the error of
    the dial is looked at, and there is no connection then. *)
Definition Connect (cc : ClientConn) : GoM NET error := λ n,
  match grpc_Dial (cc_Addr cc) (is_eva cc) n with
  | (Some _, n') => (Panic "nil pointer dereference", n')
  | (None, n') => (Ret nil_err, n')
  end.

(** A call through a client that [Connect] made; [eva] tells whose service it
    is.  [msg] wraps the error of the call. *)
Definition call (cc : ClientConn) (eva : bool) (r : rpc) (msg : string)
    : GoM NET (reply + client_error) := λ n,
  if bool_decide (is_eva cc = eva) then
    match grpc_call (cc_Addr cc) r n with
    | (inl a, n') => (Ret (inl a), n')
    | (inr s, n') => (Ret (inr (Wrap_status s msg)), n')
    end
  else (Panic "nil pointer dereference", n).

(** The error of a call that yields nothing. *)
Definition call_err (cc : ClientConn) (eva : bool) (r : rpc) (msg : string)
    : GoM NET (option client_error) :=
  res ← call cc eva r msg;
  mret (match res with inl _ => None | inr e => Some e end).

Definition AppDeploySvcCli_Deploy (cc : ClientConn) (app : App)
    : GoM NET (option client_error) :=
  if bool_decide (App_Type app = "container")
  then call_err cc true (DeployContainer (toPBApp app)) "error deploying application"
  else if bool_decide (App_Type app = "vm")
  then call_err cc true (DeployVM (toPBApp app)) "error deploying application"
  else mret None.

Definition AppDeploySvcCli_Redeploy (cc : ClientConn) (app : App) : GoM NET (option client_error) :=
  call_err cc true (RedeployRpc (toPBApp app)) "error redeploying application".

Definition AppDeploySvcCli_Undeploy (cc : ClientConn) (id : string)
    : GoM NET (option client_error) :=
  call_err cc true (UndeployRpc id) "error removing application".

Definition AppLifeSvcCli_Start (cc : ClientConn) (id : string) :=
  call_err cc true (Lifecycle id START) "error starting application".
Definition AppLifeSvcCli_Stop (cc : ClientConn) (id : string) :=
  call_err cc true (Lifecycle id STOP) "error stopping application".
Definition AppLifeSvcCli_Restart (cc : ClientConn) (id : string) :=
  call_err cc true (Lifecycle id RESTART) "error restarting application".

Definition AppLifeSvcCli_GetStatus (cc : ClientConn) (id : string)
    : GoM NET (LifecycleStatus * option client_error) :=
  res ← call cc true (GetStatusRpc id) "error retrieving application";
  mret (match res with
        | inl (RStatus s) => (fromPBLifecycleStatus s, None)
        | inl _ => (Unknown, None)
        | inr e => (Unknown, Some e)
        end).

(** Runs a translation that may panic. *)
Definition lift_outcome {S A} (o : outcome A) : GoM S A := λ s, (o, s).

Definition AppPolicySvcCli_Set (cc : ClientConn) (appID : string) (p : option TrafficPolicy)
    : GoM NET (option client_error) :=
  pb ← lift_outcome (toPBTrafficPolicy appID p);
  call_err cc false (SetAppPolicy pb) "error setting application policy".

(** [errors.Wrap] once more. *)
Definition rewrap (msg : string) (e : client_error) : client_error :=
  mkClientError (ce_Cause e) (msg +:+ ": " +:+ ce_Text e).

Definition AppPolicySvcCli_Delete (cc : ClientConn) (appID : string)
    : GoM NET (option client_error) :=
  e ← AppPolicySvcCli_Set cc appID None;
  mret (rewrap "error deleting application policy" <$> e).

Definition IfacePolicySvcCli_Set (cc : ClientConn) (ifaceID : string) (p : option TrafficPolicy)
    : GoM NET (option client_error) :=
  pb ← lift_outcome (toPBTrafficPolicy ifaceID p);
  call_err cc false (SetIfacePolicy pb) "error setting interface policy".

Definition IfacePolicySvcCli_Delete (cc : ClientConn) (ifaceID : string) : GoM NET (option client_error) :=
  e ← IfacePolicySvcCli_Set cc ifaceID None;
  mret (rewrap "error deleting interface policy" <$> e).

Definition IfaceSvcCli_Update (cc : ClientConn) (ni : NetworkInterface) : GoM NET (option client_error) :=
  call_err cc false (UpdateIfaceRpc (toPBNetworkInterface ni)) "error updating network interface".

Definition IfaceSvcCli_Get (cc : ClientConn) (id : string)
    : GoM NET (option NetworkInterface * option client_error) :=
  res ← call cc false (GetIfaceRpc id) "error retrieving network interface";
  mret (match res with
        | inl (RIface ni) => (Some (fromPBNetworkInterface ni), None)
        | inl _ => (None, None)
        | inr e => (None, Some e)
        end).

Definition IfaceSvcCli_BulkUpdate (cc : ClientConn) (nis : list (option NetworkInterface))
    : GoM NET (option client_error) :=
  pbs ← lift_outcome (translate_all (λ ni, Ret (toPBNetworkInterface ni)) nis);
  call_err cc false (BulkUpdateIfaces pbs) "error bulk updating network interfaces".

Definition IfaceSvcCli_GetAll (cc : ClientConn)
    : GoM NET (list NetworkInterface * option client_error) :=
  res ← call cc false GetAllIfaces "error retrieving all network interfaces";
  mret (match res with
        | inl (RIfaces nis) => (fromPBNetworkInterface <$> nis, None)
        | inl _ => ([], None)
        | inr e => ([], Some e)
        end).

Definition ZoneSvcCli_Create (cc : ClientConn) (z : PBNetworkZone) : GoM NET (option client_error) :=
  call_err cc false (CreateZoneRpc z) "error creating network zone".

Definition ZoneSvcCli_Update (cc : ClientConn) (z : PBNetworkZone) : GoM NET (option client_error) :=
  call_err cc false (UpdateZoneRpc z) "error updating network zone".

Definition ZoneSvcCli_BulkUpdate (cc : ClientConn) (zs : list PBNetworkZone) : GoM NET (option client_error) :=
  call_err cc false (BulkUpdateZonesRpc zs) "error bulk updating network zones".

Definition ZoneSvcCli_GetAll (cc : ClientConn) : GoM NET (list PBNetworkZone * option client_error) :=
  res ← call cc false GetAllZonesRpc "error retrieving all network zones";
  mret (match res with
        | inl (RZones zs) => (zs, None)
        | inl _ => ([], None)
        | inr e => ([], Some e)
        end).

Definition ZoneSvcCli_Get (cc : ClientConn) (id : string) : GoM NET (option PBNetworkZone * option client_error) :=
  res ← call cc false (GetZoneRpc id) "error retrieving network zone";
  mret (match res with
        | inl (RZone z) => (Some z, None)
        | inl _ => (None, None)
        | inr e => (None, Some e)
        end).

Definition ZoneSvcCli_Delete (cc : ClientConn) (id : string) : GoM NET (option client_error) :=
  call_err cc false (DeleteZoneRpc id) "error deleting network zone".

Definition DNSSvcCli_SetA (cc : ClientConn) (r : DNSARecord) : GoM NET (option client_error) :=
  call_err cc false (SetARpc (DNSARecord_Name r) (DNSARecord_IPs r)) "error setting A records".

Definition DNSSvcCli_DeleteA (cc : ClientConn) (r : DNSARecord)
    : GoM NET (option client_error) :=
  call_err cc false (DeleteARpc (DNSARecord_Name r) (DNSARecord_IPs r)) "error deleting A records".

Definition DNSSvcCli_SetForwarders (cc : ClientConn) (fs : list (option DNSForwarder))
    : GoM NET (option client_error) :=
  ips ← lift_outcome (translate_all (λ f, Ret (DNSForwarder_IP f)) fs);
  call_err cc false (SetForwardersRpc ips) "error setting forwarders".

Definition DNSSvcCli_DeleteForwarders (cc : ClientConn) (fs : list (option DNSForwarder))
    : GoM NET (option client_error) :=
  ips ← lift_outcome (translate_all (λ f, Ret (DNSForwarder_IP f)) fs);
  call_err cc false (DeleteForwardersRpc ips) "error deleting forwarders".
End clients.

(** ** Facts on the translation *)

(** An interface that passed validation survives the way to the node and back. *)
Lemma fromPB_toPBNetworkInterface ni :
  NetworkInterface_Driver ni ∈ iface_drivers → NetworkInterface_Type ni ∈ iface_types →
  0 ≤ NetworkInterface_VLAN ni ≤ 255 →
  fromPBNetworkInterface (toPBNetworkInterface ni) = ni.
Proof.
  intros Hd Ht Hv. destruct ni as [i d dr ty m v z f]; simpl in *.
  unfold fromPBNetworkInterface, toPBNetworkInterface; simpl. f_equal.
  - unfold iface_drivers in Hd. set_unfold in Hd. by destruct_or! Hd; subst.
  - unfold iface_types in Ht. set_unfold in Ht. by destruct_or! Ht; subst.
  - unfold wrap_uint32. apply Z.mod_small. lia.
Qed.
