(* ===== verification/ElaRules.v ===== *)
(** * Traffic rules at the edge node (edgenode/pkg/ela/ini/routing_rules.go,
      edgenode/pkg/ela/helpers/data_verification_helpers.go)

    The lifecycle agent receives traffic policies and interfaces from the
    controller, checks them, and writes each rule as the text that the network
    traffic service looks its routes up by.  The messages are those the
    controller sends ([CceNode]); a pointer that may be nil is an [option]. *)

From S2P Require Import Prelude Strconv GoNet CceNode.
From stdpp Require Import prelude strings list gmap.
From Stdlib Require Import ZArith Ascii.

Local Open Scope Z_scope.

(** [errors.Wrap(err, msg)]: the text of the wrapped error. *)
Definition errors_Wrap (err msg : string) : string := msg +:+ ": " +:+ err.

(** [strconv.ParseUint(s, 10, 32)]; the kind of error is not looked at. *)
Definition ParseUint32 (s : string) : option Z :=
  if str_empty s then None
  else match parse_uint s 0 with
       | inl n => if bool_decide (n ≤ 2 ^ 32 - 1) then Some n else None
       | inr _ => None
       end.

(** ** Rules to text *)

Definition gtpFilterToString (gtp : option PBGTPFilter) (source : bool) : string + string :=
  match gtp with
  | None => inr "gtp is nil"
  | Some gtp =>
      let s := pbg_Address gtp +:+ "/" +:+ Itoa (pbg_Mask gtp) in
      let prefix := if source then "enb" else "epc" in
      inl (prefix +:+ "_ip:" +:+ s)
  end.

Definition ipFilterToString (ip : option PBIPFilter) (source : bool) : string + string :=
  match ip with
  | None => inr "ip is nil"
  | Some ip =>
      let prefix := if source then "ue" else "srv" in
      let rule := prefix +:+ "_ip:" +:+ pbf_Address ip +:+ "/" +:+ Itoa (pbf_Mask ip) in
      if bool_decide (pbf_EndPort ip < pbf_BeginPort ip) then
        inr ("begin port " +:+ Itoa (pbf_BeginPort ip)
             +:+ " should be >= than end port " +:+ Itoa (pbf_EndPort ip))
      else if negb (bool_decide (pbf_BeginPort ip = 0) && bool_decide (pbf_EndPort ip = 0)) then
        inl (rule +:+ "," +:+ prefix +:+ "_port:" +:+ Itoa (pbf_BeginPort ip)
             +:+ "-" +:+ Itoa (pbf_EndPort ip))
      else inl rule
  end.

Definition trafficSelectorToString (ts : option PBTrafficSelector) (source : bool)
    : string + string :=
  match ts with
  | None => inr "traffic selector is nil"
  | Some ts =>
      match (match pbs_Gtp ts with
             | Some gtp => gtpFilterToString (Some gtp) source
             | None => inl ""
             end) with
      | inr err => inr (errors_Wrap err "failed to convert gtp filter to string")
      | inl gtp =>
          match (match pbs_Ip ts with
                 | Some ip => ipFilterToString (Some ip) source
                 | None => inl ""
                 end) with
          | inr err => inr (errors_Wrap err "failed to convert ip filter to string")
          | inl ip =>
              if negb (str_empty gtp) && negb (str_empty ip) then inl (gtp +:+ "," +:+ ip)
              else inl (gtp +:+ ip)
          end
      end
  end.

(** The text of a selector after [s]; nothing for a selector that is nil. *)
Definition add_selector (s : string) (ts : option PBTrafficSelector) (source : bool)
    (msg : string) : string + string :=
  match ts with
  | None => inl s
  | Some ts =>
      match trafficSelectorToString (Some ts) source with
      | inl sel => inl (s +:+ "," +:+ sel)
      | inr err => inr (errors_Wrap err msg)
      end
  end.

Definition TrafficRuleProtoToString (rule : option PBTrafficRule) : string + string :=
  match rule with
  | None => inr "traffic rule is nil"
  | Some rule =>
      let s := "prio:" +:+ Itoa (pbr_Priority rule) in
      match add_selector s (pbr_Source rule) true
              "failed to convert Source traffic selector to string" with
      | inr err => inr err
      | inl s =>
          match add_selector s (pbr_Destination rule) false
                  "failed to convert Destination traffic selector to string" with
          | inr err => inr err
          | inl s =>
              if negb (str_contains s "epc") && negb (str_contains s "enb")
              then inl (s +:+ ",encap_proto:noencap")
              else inl s
          end
      end
  end.

(** ** Text to rules *)

(** The zero values of the messages, and their fields assigned. *)
Definition new_PBTrafficRule : PBTrafficRule := mkPBTrafficRule "" 0 None None None.
Definition new_PBTrafficSelector : PBTrafficSelector := mkPBTrafficSelector "" None None None.
Definition new_PBIPFilter : PBIPFilter := mkPBIPFilter "" 0 0 0 "".

Definition set_Source (s : PBTrafficSelector) (tr : PBTrafficRule) : PBTrafficRule :=
  mkPBTrafficRule (pbr_Description tr) (pbr_Priority tr) (Some s) (pbr_Destination tr)
    (pbr_Target tr).
Definition set_Destination (s : PBTrafficSelector) (tr : PBTrafficRule) : PBTrafficRule :=
  mkPBTrafficRule (pbr_Description tr) (pbr_Priority tr) (pbr_Source tr) (Some s)
    (pbr_Target tr).
Definition set_Ip (ip : PBIPFilter) (ts : PBTrafficSelector) : PBTrafficSelector :=
  mkPBTrafficSelector (pbs_Description ts) (pbs_Macs ts) (Some ip) (pbs_Gtp ts).
Definition set_Gtp (gtp : PBGTPFilter) (ts : PBTrafficSelector) : PBTrafficSelector :=
  mkPBTrafficSelector (pbs_Description ts) (pbs_Macs ts) (pbs_Ip ts) (Some gtp).

Definition setPriority (tr : PBTrafficRule) (val : string) : PBTrafficRule + string :=
  match ParseUint32 val with
  | None => inr ("failed to parse '" +:+ val +:+ "' to uint")
  | Some prio =>
      inl (mkPBTrafficRule (pbr_Description tr) prio (pbr_Source tr) (pbr_Destination tr)
             (pbr_Target tr))
  end.

(** The address before the first slash and the mask after it. *)
Definition too_many (s sep : string) : string :=
  "string '" +:+ s +:+ "' contains too many fields delimited by " +:+ sep +:+ ", expected 2".

Definition setIPAddrMask (s : string) (ip : PBIPFilter) : PBIPFilter + string :=
  let addr a mask := mkPBIPFilter a mask (pbf_BeginPort ip) (pbf_EndPort ip) (pbf_Protocol ip) in
  match strings_Split s "/" with
  | [a] => inl (addr a (pbf_Mask ip))
  | [a; m] =>
      match ParseUint32 m with
      | None => inr ("failed to parse '" +:+ m +:+ "' to uint")
      | Some mask => inl (addr a mask)
      end
  | _ => inr (too_many s "/")
  end.

Definition parseGTPFilter (s : string) : PBGTPFilter + string :=
  match strings_Split s "/" with
  | [a] => inl (mkPBGTPFilter a 0 [])
  | [a; m] =>
      match ParseUint32 m with
      | None => inr ("failed to parse '" +:+ m +:+ "' to uint")
      | Some mask => inl (mkPBGTPFilter a mask [])
      end
  | _ => inr (too_many s "/")
  end.

Definition setIPPorts (s : string) (ip : PBIPFilter) : PBIPFilter + string :=
  let ports b e := mkPBIPFilter (pbf_Address ip) (pbf_Mask ip) b e (pbf_Protocol ip) in
  match strings_Split s "-" with
  | p0 :: rest =>
      match ParseUint32 p0 with
      | None => inr ("failed to parse '" +:+ p0 +:+ "' to uint")
      | Some min =>
          match rest with
          | [] => inl (ports min (pbf_EndPort ip))
          | [p1] =>
              match ParseUint32 p1 with
              | None => inr ("failed to parse '" +:+ p1 +:+ "' to uint")
              | Some max => inl (ports min max)
              end
          | _ => inr (too_many s "-")
          end
      end
  | [] => inr (too_many s "-")
  end.

(** [createSourceSelectorIfNil] and [createSourceSelectorAndIPFilterIfNil],
    and the same for the destination: the selector or filter that is written. *)
Definition selector_or_new (ts : option PBTrafficSelector) : PBTrafficSelector :=
  default new_PBTrafficSelector ts.
Definition filter_or_new (ts : PBTrafficSelector) : PBIPFilter :=
  default new_PBIPFilter (pbs_Ip ts).

Definition empty_value : string := "given string is empty".

(** A setter of the IP filter of a selector. *)
Definition setUEIP (tr : PBTrafficRule) (val : string) : PBTrafficRule + string :=
  if str_empty val then inr empty_value else
  let src := selector_or_new (pbr_Source tr) in
  match setIPAddrMask val (filter_or_new src) with
  | inl ip => inl (set_Source (set_Ip ip src) tr)
  | inr err => inr err
  end.

Definition setUEPort (tr : PBTrafficRule) (val : string) : PBTrafficRule + string :=
  if str_empty val then inr empty_value else
  let src := selector_or_new (pbr_Source tr) in
  match setIPPorts val (filter_or_new src) with
  | inl ip => inl (set_Source (set_Ip ip src) tr)
  | inr err => inr err
  end.

Definition setSrvIP (tr : PBTrafficRule) (val : string) : PBTrafficRule + string :=
  if str_empty val then inr empty_value else
  let dst := selector_or_new (pbr_Destination tr) in
  match setIPAddrMask val (filter_or_new dst) with
  | inl ip => inl (set_Destination (set_Ip ip dst) tr)
  | inr err => inr err
  end.

Definition setSrvPort (tr : PBTrafficRule) (val : string) : PBTrafficRule + string :=
  if str_empty val then inr empty_value else
  let dst := selector_or_new (pbr_Destination tr) in
  match setIPPorts val (filter_or_new dst) with
  | inl ip => inl (set_Destination (set_Ip ip dst) tr)
  | inr err => inr err
  end.

Definition setEnbIP (tr : PBTrafficRule) (val : string) : PBTrafficRule + string :=
  if str_empty val then inr empty_value else
  let src := selector_or_new (pbr_Source tr) in
  match parseGTPFilter val with
  | inl gtp => inl (set_Source (set_Gtp gtp src) tr)
  | inr err => inr (errors_Wrap err "failed to parse gtp filter")
  end.

Definition setEpcIP (tr : PBTrafficRule) (val : string) : PBTrafficRule + string :=
  if str_empty val then inr empty_value else
  let dst := selector_or_new (pbr_Destination tr) in
  match parseGTPFilter val with
  | inl gtp => inl (set_Destination (set_Gtp gtp dst) tr)
  | inr err => inr (errors_Wrap err "failed to parse gtp filter")
  end.

Definition encapNoop (tr : PBTrafficRule) (val : string) : PBTrafficRule + string := inl tr.

(** The table of parsers by key. *)
Definition parsers : gmap string (PBTrafficRule → string → PBTrafficRule + string) :=
  list_to_map [
    ("prio", setPriority); ("ue_ip", setUEIP); ("srv_ip", setSrvIP); ("enb_ip", setEnbIP);
    ("epc_ip", setEpcIP); ("ue_port", setUEPort); ("srv_port", setSrvPort);
    ("encap_proto", encapNoop)].

(** One round of the loop over the fields: a field that is not a key and a
    value is skipped. *)
Definition parse_field (field : string) (tr : PBTrafficRule) : PBTrafficRule + string :=
  match strings_Split field ":" with
  | [key; value] =>
      match parsers !! key with
      | Some f =>
          match f tr value with
          | inl tr' => inl tr'
          | inr err =>
              inr (errors_Wrap err
                     ("failed to parse " +:+ key +:+ "'s value:'" +:+ value +:+ "'"))
          end
      | None => inr ("parser not found for '" +:+ key +:+ "'")
      end
  | _ => inl tr
  end.

Definition TrafficRuleStringToProto (s : string) : PBTrafficRule + string :=
  loop_acc (strings_Split s ",") parse_field new_PBTrafficRule.

(** ** Checks of what the controller sends *)

Definition VerifyAddressMask (addr : string) (mask : Z) : error :=
  if bool_decide (mask = 0) then
    if negb (str_empty addr) && bool_decide (addr ≠ "0.0.0.0") then
      errors_New "Invalid IP/Mask: For Mask=0 only empty or 0.0.0.0 addresses are valid"
    else nil_err
  else if str_empty addr then
    errors_New "Invalid IP/Mask: For empty IP only Mask=0 is valid"
  else match ParseIP addr ≫= To4 with
       | None => errors_New "Invalid IP/Mask: Given IP is not a valid IPv4 address"
       | Some _ =>
           if bool_decide (32 < mask)
           then errors_New "Invalid IP/Mask: Mask should be between 0 and 32"
           else nil_err
       end.

Definition VerifyIPFilter (ip : PBIPFilter) : error :=
  match VerifyAddressMask (pbf_Address ip) (pbf_Mask ip) with
  | Some err => errors_New ("IPFilter: " +:+ err)
  | None =>
      if bool_decide (pbf_EndPort ip < pbf_BeginPort ip)
      then errors_New "IPFilter: BeginPort greater than EndPort"
      else if negb (str_empty (pbf_Protocol ip))
      then errors_New "IPFilter: Protocol field is not supported"
      else nil_err
  end.

Definition VerifyGTPFilter (gtp : PBGTPFilter) : error :=
  match VerifyAddressMask (pbg_Address gtp) (pbg_Mask gtp) with
  | Some err => errors_New ("GTPFilter: " +:+ err)
  | None =>
      if bool_decide (0 < length (pbg_Imsis gtp))%nat
      then errors_New "GTPFilter: Imsis is not supported"
      else nil_err
  end.

Definition VerifyTrafficSelector (ts : PBTrafficSelector) : error :=
  match pbs_Macs ts, pbs_Ip ts, pbs_Gtp ts with
  | Some _, _, _ => errors_New "TrafficSelector.Mac is set but not supported"
  | None, None, None => errors_New "TrafficSelector: Neither Ip nor Gtp is set"
  | None, ip, gtp =>
      match ip ≫= VerifyIPFilter with
      | Some err => errors_New ("TrafficSelector.Ip: " +:+ err)
      | None =>
          match gtp ≫= VerifyGTPFilter with
          | Some err => errors_New ("TrafficSelector.Gtp: " +:+ err)
          | None => nil_err
          end
      end
  end.

Definition VerifyMACAddress (mac : string) : error :=
  match ParseMAC mac with
  | inr err => errors_New err
  | inl hwAddr =>
      if bool_decide (length hwAddr ≠ 6%nat)
      then errors_New "MAC Address: Wrong length - only 6 bytes are supported"
      else if str_contains mac "." || str_contains mac "-"
      then errors_New "MAC Address: Wrong delimiter, only : is supported"
      else nil_err
  end.

Definition TargetAction_String (a : TargetAction) : string :=
  match a with ACCEPT => "ACCEPT" | REJECT => "REJECT" | DROP => "DROP" end.

Definition VerifyTrafficTarget (tgt : option PBTrafficTarget) : error :=
  match tgt with
  | None => errors_New "TrafficTarget is nil"
  | Some tgt =>
      match pbt_Action tgt with
      | ACCEPT =>
          match pbt_Ip tgt with
          | Some _ => errors_New "TrafficTarget.Ip: modifier is not supported"
          | None => nil_err
          end
      | a => errors_New ("TrafficTarget.Action: Action not supported: " +:+ TargetAction_String a)
      end
  end.

Definition VerifyTrafficRule (tr : PBTrafficRule) : error :=
  match pbr_Source tr, pbr_Destination tr with
  | None, None => errors_New "TrafficRule: Both source and destination selectors are nil"
  | src, dst =>
      match src ≫= VerifyTrafficSelector with
      | Some err => errors_New ("TrafficRule.Source: " +:+ err)
      | None =>
          match dst ≫= VerifyTrafficSelector with
          | Some err => errors_New ("TrafficRule.Destination: " +:+ err)
          | None =>
              match VerifyTrafficTarget (pbr_Target tr) with
              | Some err => errors_New ("TrafficRule.Target: " +:+ err)
              | None => nil_err
              end
          end
      end
  end.

(** The loop of [VerifyTrafficPolicy], at rule number [idx]. *)
Fixpoint verify_rules (idx : Z) (rules : list PBTrafficRule) : error :=
  match rules with
  | [] => nil_err
  | tr :: rules' =>
      match VerifyTrafficRule tr with
      | Some err =>
          errors_New ("TrafficPolicy.TrafficRule[" +:+ Itoa idx +:+ "] is invalid: " +:+ err)
      | None => verify_rules (idx + 1) rules'
      end
  end.

Definition VerifyTrafficPolicy (trafficPolicy : option PBTrafficPolicy) : error :=
  match trafficPolicy with
  | None => errors_New "TrafficPolicy is nil"
  | Some tp =>
      if str_empty (pbtp_Id tp) then errors_New "TrafficPolicy.Id is empty"
      else verify_rules 0 (pbtp_TrafficRules tp)
  end.

(** The enumerations of an interface. *)
Definition NetworkInterface_KERNEL : Z := 0.
Definition NetworkInterface_USERSPACE : Z := 1.
Definition NetworkInterface_NONE : Z := 0.
Definition NetworkInterface_UPSTREAM : Z := 1.
Definition NetworkInterface_DOWNSTREAM : Z := 2.
Definition NetworkInterface_BIDIRECTIONAL : Z := 3.
Definition NetworkInterface_BREAKOUT : Z := 4.

Definition ValidateNetworkInterface (iface : option PBNetworkInterface) : error :=
  match iface with
  | None => errors_New "NetworkInterface is nil"
  | Some iface =>
      if str_empty (pbi_Id iface) then errors_New "Id is nil"
      else if bool_decide (pbi_Driver iface = NetworkInterface_KERNEL) then nil_err
      else if bool_decide (pbi_Type iface = NetworkInterface_NONE)
      then errors_New "type 'NONE' is not supported"
      else match (if negb (str_empty (pbi_MacAddress iface))
                  then VerifyMACAddress (pbi_MacAddress iface) else nil_err) with
           | Some err => errors_New err
           | None =>
               if negb (bool_decide (pbi_Vlan iface = 0)) then errors_New "Vlan is not supported"
               else if negb (bool_decide (length (pbi_Zones iface) = 0%nat))
               then errors_New "Zones are not supported"
               else if str_empty (pbi_FallbackInterface iface)
               then errors_New "FallbackInterface is empty"
               else nil_err
           end
  end.

(** The loop of [ValidateNetworkInterfaces]. *)
Fixpoint validate_interfaces (idx : Z) (ifaces : list PBNetworkInterface) : error :=
  match ifaces with
  | [] => nil_err
  | iface :: ifaces' =>
      match ValidateNetworkInterface (Some iface) with
      | Some err =>
          errors_New (errors_Wrap err ("NetworkInterface[" +:+ Itoa idx +:+ "] is invalid"))
      | None => validate_interfaces (idx + 1) ifaces'
      end
  end.

Definition ValidateNetworkInterfaces (interfaces : option (list PBNetworkInterface)) : error :=
  match interfaces with
  | None => errors_New "NetworkInterfaces is nil"
  | Some ifaces => validate_interfaces 0 ifaces
  end.

(** ** Reading back what was printed *)

Lemma Itoa_digits (z : Z) : 0 ≤ z → all_chars is_digit (Itoa z) = true.
Proof. intros Hz. unfold Itoa. rewrite pretty_Z_nonneg by done. apply pretty_N_digits. Qed.

Lemma Itoa_no_char (c : ascii) (z : Z) : is_digit c = false → 0 ≤ z → has_char c (Itoa z) = false.
Proof. intros Hc Hz. by apply (has_char_all is_digit); [apply Itoa_digits|]. Qed.

Lemma ParseUint32_Itoa (z : Z) : 0 ≤ z < 2 ^ 32 → ParseUint32 (Itoa z) = Some z.
Proof.
  intros Hz. unfold ParseUint32, str_empty.
  rewrite bool_decide_eq_false_2 by apply Itoa_nonempty.
  unfold Itoa. rewrite pretty_Z_nonneg, parse_uint_pretty by (unfold max_uint; lia).
  rewrite Z2N.id by lia. by rewrite bool_decide_eq_true_2 by lia.
Qed.

(** *** Addresses *)

Definition is_dotted (c : ascii) : bool := is_digit c || bool_decide (c = "."%char).

Lemma digit_of_is_digit c d : digit_of c = Some d → is_digit c = true.
Proof.
  unfold digit_of, is_digit. case_bool_decide; [|done]. intros _. apply bool_decide_eq_true. lia.
Qed.

Lemma scan_digits_rest s n count m k rest :
  scan_digits digit_of 10 s n count = Some (m, k, rest) →
  ∃ pre, s = pre +:+ rest ∧ all_chars is_digit pre = true.
Proof.
  revert n count. induction s as [|c s IH]; intros n count; cbn [scan_digits].
  { intros [= <- <- <-]. by exists "". }
  destruct (digit_of c) as [d|] eqn:Hd.
  - case_bool_decide; [done|]. intros (pre & -> & Hp)%IH. exists (String c pre). split; [done|].
    unfold all_chars in *. simpl. by rewrite (digit_of_is_digit _ _ Hd), Hp.
  - intros [= <- <- <-]. by exists "".
Qed.

Lemma dtoi_rest s m k rest :
  dtoi s = Some (m, k, rest) → ∃ pre, s = pre +:+ rest ∧ all_chars is_dotted pre = true.
Proof.
  unfold dtoi, scan_number. destruct (scan_digits _ _ _ _ _) as [[[m' [|k']] r]|] eqn:E; try done.
  intros [= -> <- ->]. apply scan_digits_rest in E as (pre & -> & Hp). exists pre. split; [done|].
  apply (all_chars_impl is_digit); [|done]. intros c Hc. unfold is_dotted. by rewrite Hc.
Qed.

Lemma parse_octets_dotted k first s acc p :
  parse_octets k first s acc = Some p → all_chars is_dotted s = true.
Proof.
  revert first s acc. induction k as [|k IH]; intros first s acc; cbn [parse_octets].
  { unfold str_empty. case_bool_decide as Hs; [by rewrite Hs|done]. }
  destruct s as [|c s]; [done|].
  destruct (negb first && bool_decide (c ≠ "."%char)) eqn:Hdot; [done|].
  destruct (dtoi _) as [[[n count] rest]|] eqn:E; [|done]. destruct (bool_decide (255 < n)); [done|].
  intros Hp%IH. apply dtoi_rest in E as (pre & Hpre & Hd).
  assert (all_chars is_dotted (if first then String c s else s) = true) as Hall
    by (by rewrite Hpre, all_chars_app, Hd, Hp).
  destruct first; [done|]. simpl in Hdot. apply bool_decide_eq_false, dec_stable in Hdot as ->.
  unfold all_chars in *. simpl. by rewrite Hall.
Qed.

Lemma ip_kind_no_colon s : has_char ":" s = false → ip_kind s ≠ Some false.
Proof.
  induction s as [|c s IH]; [done|]. unfold has_char. simpl. intros [Hc Hs]%orb_false_elim.
  specialize (IH Hs). by destruct c as [[] [] [] [] [] [] [] []].
Qed.

(** An address without colons that is verified is written with digits and dots. *)
Lemma verified_dotted addr mask :
  VerifyAddressMask addr mask = None → has_char ":" addr = false → all_chars is_dotted addr = true.
Proof.
  unfold VerifyAddressMask, str_empty. intros Hv Hc.
  destruct (bool_decide (mask = 0)).
  { destruct (decide (addr = "")) as [->|Ha]; [done|].
    destruct (decide (addr = "0.0.0.0")) as [->|Hb]; [done|].
    by rewrite (bool_decide_eq_false_2 _ Ha), (bool_decide_eq_true_2 _ Hb) in Hv. }
  destruct (bool_decide (addr = "")); [done|].
  destruct (ParseIP addr) as [ip|] eqn:E; [|done]. unfold ParseIP in E.
  destruct (ip_kind addr) as [[]|] eqn:Hk; [|by apply ip_kind_no_colon in Hc|done].
  unfold parseIPv4 in E. destruct (parse_octets _ _ _ _) eqn:Ho; [|done].
  by eapply parse_octets_dotted.
Qed.

(** *** Fields *)

(** The selector that [source] names, and a rule with it replaced. *)
Definition sel_of (source : bool) (tr : PBTrafficRule) : option PBTrafficSelector :=
  if source then pbr_Source tr else pbr_Destination tr.
Definition set_sel (source : bool) : PBTrafficSelector → PBTrafficRule → PBTrafficRule :=
  if source then set_Source else set_Destination.

Definition gtp_key (source : bool) : string := if source then "enb_ip" else "epc_ip".
Definition ip_key (source : bool) : string := if source then "ue_ip" else "srv_ip".
Definition port_key (source : bool) : string := if source then "ue_port" else "srv_port".

(** A field of a rule, and the fields that a rule is printed as. *)
Definition field (key value : string) : string := key +:+ ":" +:+ value.
Definition addr_value (addr : string) (mask : Z) : string := addr +:+ "/" +:+ Itoa mask.

Definition gtp_fields (source : bool) (gtp : PBGTPFilter) : list string :=
  [field (gtp_key source) (addr_value (pbg_Address gtp) (pbg_Mask gtp))].
Definition has_ports (ip : PBIPFilter) : bool :=
  negb (bool_decide (pbf_BeginPort ip = 0) && bool_decide (pbf_EndPort ip = 0)).
Definition ip_fields (source : bool) (ip : PBIPFilter) : list string :=
  field (ip_key source) (addr_value (pbf_Address ip) (pbf_Mask ip))
  :: (if has_ports ip
      then [field (port_key source) (Itoa (pbf_BeginPort ip) +:+ "-" +:+ Itoa (pbf_EndPort ip))]
      else []).
Definition selector_fields (source : bool) (ts : PBTrafficSelector) : list string :=
  from_option (gtp_fields source) [] (pbs_Gtp ts) ++ from_option (ip_fields source) [] (pbs_Ip ts).
Definition rule_fields (tr : PBTrafficRule) : list string :=
  field "prio" (Itoa (pbr_Priority tr))
  :: from_option (selector_fields true) [] (pbr_Source tr)
  ++ from_option (selector_fields false) [] (pbr_Destination tr).

(** The members that a rule keeps in its text. *)
Definition selector_core (ts : PBTrafficSelector) : PBTrafficSelector :=
  mkPBTrafficSelector "" None (pbs_Ip ts) (pbs_Gtp ts).
Definition rule_core (tr : PBTrafficRule) : PBTrafficRule :=
  mkPBTrafficRule "" (pbr_Priority tr) (selector_core <$> pbr_Source tr)
    (selector_core <$> pbr_Destination tr) None.

Lemma loop_acc_app {A B R} (l1 l2 : list A) (body : A → B → B + R) b :
  loop_acc (l1 ++ l2) body b =
  match loop_acc l1 body b with inl b' => loop_acc l2 body b' | inr r => inr r end.
Proof.
  revert b. induction l1 as [|a l1 IH]; intros b; simpl; [done|]. by destruct (body a b).
Qed.

Lemma parse_field_value key value f tr tr' :
  parsers !! key = Some f → has_char ":" key = false → has_char ":" value = false →
  f tr value = inl tr' → parse_field (field key value) tr = inl tr'.
Proof.
  intros Hf Hk Hv Hr. unfold parse_field, field. rewrite split_pair by done. by rewrite Hf, Hr.
Qed.

Lemma dotted_no_char c addr :
  is_dotted c = false → all_chars is_dotted addr = true → has_char c addr = false.
Proof. intros Hc Ha. by apply (has_char_all is_dotted). Qed.

Lemma split_addr addr mask :
  all_chars is_dotted addr = true → 0 ≤ mask →
  strings_Split (addr_value addr mask) "/" = [addr; Itoa mask].
Proof. intros. apply split_pair; [by apply dotted_no_char|by apply Itoa_no_char]. Qed.

Lemma addr_value_no_char c addr mask :
  is_dotted c = false → c ≠ "/"%char → all_chars is_dotted addr = true → 0 ≤ mask →
  has_char c (addr_value addr mask) = false.
Proof.
  intros Hc Hs Ha Hm. unfold addr_value. rewrite !has_char_app, (dotted_no_char c) by done.
  rewrite Itoa_no_char; [|by unfold is_dotted in Hc; apply orb_false_elim in Hc as [? _]|done].
  unfold has_char. simpl. by destruct (Ascii.eqb_spec c "/"%char).
Qed.

Lemma addr_value_nonempty addr mask : str_empty (addr_value addr mask) = false.
Proof. apply bool_decide_eq_false. unfold addr_value. by destruct addr. Qed.

(** Numbers of 32 bits, and the shape of the filters that are printed. *)
Definition uint32 (z : Z) : Prop := 0 ≤ z < 2 ^ 32.

Definition gtp_ok (gtp : PBGTPFilter) : Prop :=
  all_chars is_dotted (pbg_Address gtp) = true ∧ uint32 (pbg_Mask gtp) ∧ pbg_Imsis gtp = [].
Definition ip_ok (ip : PBIPFilter) : Prop :=
  all_chars is_dotted (pbf_Address ip) = true ∧ uint32 (pbf_Mask ip) ∧ uint32 (pbf_BeginPort ip) ∧
  uint32 (pbf_EndPort ip) ∧ pbf_BeginPort ip ≤ pbf_EndPort ip ∧ pbf_Protocol ip = "".
Definition selector_ok (ts : PBTrafficSelector) : Prop :=
  (pbs_Ip ts ≠ None ∨ pbs_Gtp ts ≠ None) ∧ pbs_Macs ts = None ∧
  (∀ gtp, pbs_Gtp ts = Some gtp → gtp_ok gtp) ∧ (∀ ip, pbs_Ip ts = Some ip → ip_ok ip).
Definition rule_ok (tr : PBTrafficRule) : Prop :=
  uint32 (pbr_Priority tr) ∧
  (∀ ts, pbr_Source tr = Some ts → selector_ok ts) ∧
  (∀ ts, pbr_Destination tr = Some ts → selector_ok ts).

Lemma parse_gtp_fields source gtp tr :
  gtp_ok gtp →
  loop_acc (gtp_fields source gtp) parse_field tr =
  inl (set_sel source (set_Gtp gtp (selector_or_new (sel_of source tr))) tr).
Proof.
  intros (Ha & Hm & Hi). unfold gtp_fields. cbn [loop_acc].
  assert (parseGTPFilter (addr_value (pbg_Address gtp) (pbg_Mask gtp)) = inl gtp) as Hp.
  { unfold parseGTPFilter. rewrite split_addr by (done || apply Hm).
    rewrite ParseUint32_Itoa by done. rewrite <- Hi. by destruct gtp. }
  erewrite (parse_field_value _ _ (if source then setEnbIP else setEpcIP));
    [done|by destruct source|by destruct source| |].
  { apply addr_value_no_char; [done..|apply Hm]. }
  destruct source; cbn [sel_of set_sel]; unfold setEnbIP, setEpcIP;
    by rewrite addr_value_nonempty, Hp.
Qed.

Lemma parse_ip_fields source ip tr :
  ip_ok ip → pbs_Ip (selector_or_new (sel_of source tr)) = None →
  loop_acc (ip_fields source ip) parse_field tr =
  inl (set_sel source (set_Ip ip (selector_or_new (sel_of source tr))) tr).
Proof.
  intros (Ha & Hm & Hb & He & Hle & Hpr) Hnone. unfold ip_fields. cbn [loop_acc].
  set (sel := selector_or_new (sel_of source tr)) in *.
  set (ip1 := mkPBIPFilter (pbf_Address ip) (pbf_Mask ip) 0 0 "").
  assert (setIPAddrMask (addr_value (pbf_Address ip) (pbf_Mask ip)) (filter_or_new sel) = inl ip1) as Hp.
  { unfold setIPAddrMask, filter_or_new. rewrite Hnone, split_addr by (done || apply Hm).
    by rewrite ParseUint32_Itoa. }
  rewrite (parse_field_value _ _ (if source then setUEIP else setSrvIP) tr
             (set_sel source (set_Ip ip1 sel) tr));
    [|by destruct source|by destruct source| |].
  2: { apply addr_value_no_char; [done..|apply Hm]. }
  2: { destruct source; unfold setUEIP, setSrvIP; rewrite addr_value_nonempty;
         [change (selector_or_new (pbr_Source tr)) with sel
         |change (selector_or_new (pbr_Destination tr)) with sel]; by rewrite Hp. }
  unfold has_ports. destruct (_ && _) eqn:Hz; cbn [negb].
  { cbn [loop_acc]. apply andb_prop in Hz as [Hz1 Hz2]. apply bool_decide_eq_true in Hz1, Hz2.
    assert (ip1 = ip) as -> by (destruct ip; simpl in *; by subst). done. }
  cbn [loop_acc].
  assert (setIPPorts (Itoa (pbf_BeginPort ip) +:+ "-" +:+ Itoa (pbf_EndPort ip)) ip1 = inl ip) as Hs.
  { unfold setIPPorts. rewrite split_pair by (apply Itoa_no_char; [done|apply Hb || apply He]).
    rewrite !ParseUint32_Itoa by done. subst ip1. simpl. rewrite <- Hpr. by destruct ip. }
  assert (str_empty (Itoa (pbf_BeginPort ip) +:+ "-" +:+ Itoa (pbf_EndPort ip)) = false) as Hne.
  { apply bool_decide_eq_false. by destruct (Itoa _). }
  rewrite (parse_field_value _ _ (if source then setUEPort else setSrvPort) _
             (set_sel source (set_Ip ip sel) tr));
    [done|by destruct source|by destruct source| |].
  { rewrite !has_char_app, !Itoa_no_char by (done || apply Hb || apply He). done. }
  destruct source; unfold setUEPort, setSrvPort; rewrite Hne;
    match goal with |- context [setIPPorts _ ?x] => change x with ip1 end; by rewrite Hs.
Qed.

(** *** The printed form *)

Lemma gtp_printed source gtp :
  gtpFilterToString (Some gtp) source = inl (String.concat "," (gtp_fields source gtp)).
Proof. by destruct source. Qed.

Lemma ip_printed source ip :
  pbf_BeginPort ip ≤ pbf_EndPort ip →
  ipFilterToString (Some ip) source = inl (String.concat "," (ip_fields source ip)).
Proof.
  intros Hle. unfold ipFilterToString, ip_fields. rewrite bool_decide_eq_false_2 by lia.
  fold (has_ports ip). destruct (has_ports ip), source; cbn [String.concat];
    unfold field, addr_value; by rewrite ?str_app_assoc.
Qed.

Lemma ip_fields_nonempty source ip : str_empty (String.concat "," (ip_fields source ip)) = false.
Proof.
  apply bool_decide_eq_false. unfold ip_fields. by destruct (has_ports ip), source.
Qed.

Lemma gtp_fields_nonempty source gtp : str_empty (String.concat "," (gtp_fields source gtp)) = false.
Proof. by destruct source. Qed.

Lemma selector_printed source ts :
  selector_ok ts →
  trafficSelectorToString (Some ts) source = inl (String.concat "," (selector_fields source ts)).
Proof.
  intros (Hsome & _ & _ & Hip). unfold trafficSelectorToString, selector_fields.
  destruct (pbs_Gtp ts) as [gtp|], (pbs_Ip ts) as [ip|]; cbn [from_option].
  - rewrite gtp_printed, ip_printed by (by apply Hip).
    rewrite gtp_fields_nonempty, ip_fields_nonempty. cbn [negb andb].
    by rewrite str_concat_app by done.
  - rewrite gtp_printed. rewrite andb_false_r. by rewrite str_app_nil_r, app_nil_r.
  - rewrite ip_printed by (by apply Hip). done.
  - by destruct Hsome.
Qed.

Lemma selector_fields_cons source ts : selector_ok ts → selector_fields source ts ≠ [].
Proof.
  intros ([H|H] & _) E; unfold selector_fields in E; apply app_nil in E as [E1 E2];
    by destruct (pbs_Ip ts), (pbs_Gtp ts).
Qed.

Lemma add_selector_printed l source ts msg :
  l ≠ [] → (∀ s, ts = Some s → selector_ok s) →
  add_selector (String.concat "," l) ts source msg =
  inl (String.concat "," (l ++ from_option (selector_fields source) [] ts)).
Proof.
  intros Hl Hts. unfold add_selector. destruct ts as [ts|]; cbn [from_option].
  - rewrite selector_printed by auto. rewrite str_concat_app; [done..|].
    apply selector_fields_cons; auto.
  - by rewrite app_nil_r.
Qed.

(** The text of a rule is its fields, and perhaps a field that parsing skips. *)
Lemma rule_printed tr :
  rule_ok tr →
  ∃ l, TrafficRuleProtoToString (Some tr) = inl (String.concat "," (rule_fields tr ++ l)) ∧
       (l = [] ∨ l = [field "encap_proto" "noencap"]).
Proof.
  intros (_ & Hsrc & Hdst). unfold TrafficRuleProtoToString.
  change ("prio:" +:+ Itoa (pbr_Priority tr))
    with (String.concat "," [field "prio" (Itoa (pbr_Priority tr))]).
  rewrite add_selector_printed by done. rewrite add_selector_printed by done.
  rewrite <- app_assoc. change ([_] ++ _) with (rule_fields tr).
  destruct (negb _ && negb _).
  - exists [field "encap_proto" "noencap"]. split; [|by right].
    rewrite str_concat_app by done. done.
  - exists []. rewrite app_nil_r. split; [done|by left].
Qed.

(** *** The round trip *)

Lemma field_no_comma key value :
  has_char "," key = false → has_char "," value = false → has_char "," (field key value) = false.
Proof. intros Hk Hv. unfold field. by rewrite !has_char_app, Hk, Hv. Qed.

Lemma selector_fields_no_comma source ts :
  selector_ok ts → Forall (λ f, has_char "," f = false) (selector_fields source ts).
Proof.
  intros (_ & _ & Hg & Hi). unfold selector_fields. apply Forall_app. split.
  - destruct (pbs_Gtp ts) as [gtp|]; [|constructor]. destruct (Hg gtp eq_refl) as (Ha & Hm & _).
    repeat constructor. apply field_no_comma; [by destruct source|].
    apply addr_value_no_char; [done..|apply Hm].
  - destruct (pbs_Ip ts) as [ip|]; [|constructor].
    destruct (Hi ip eq_refl) as (Ha & Hm & Hb & He & _). unfold ip_fields. constructor.
    { apply field_no_comma; [by destruct source|]. apply addr_value_no_char; [done..|apply Hm]. }
    destruct (has_ports ip); repeat constructor. apply field_no_comma; [by destruct source|].
    rewrite !has_char_app, !Itoa_no_char by (done || apply Hb || apply He). done.
Qed.

Lemma parse_selector_fields source ts tr :
  selector_ok ts → sel_of source tr = None →
  loop_acc (selector_fields source ts) parse_field tr =
  inl (set_sel source (selector_core ts) tr).
Proof.
  intros (Hsome & Hmacs & Hg & Hi) Hnone. unfold selector_fields. rewrite loop_acc_app.
  destruct (pbs_Gtp ts) as [gtp|] eqn:Eg; cbn [from_option].
  - rewrite parse_gtp_fields by auto. rewrite Hnone. cbn [selector_or_new default].
    destruct (pbs_Ip ts) as [ip|] eqn:Ei; cbn [from_option loop_acc].
    + rewrite parse_ip_fields; [|by auto|by destruct source].
      unfold selector_core. rewrite Eg, Ei. by destruct source.
    + unfold selector_core. by rewrite Eg, Ei.
  - destruct (pbs_Ip ts) as [ip|] eqn:Ei; [|by destruct Hsome]. cbn [from_option loop_acc].
    rewrite parse_ip_fields; [|by auto|by rewrite Hnone]. rewrite Hnone.
    unfold selector_core. by rewrite Eg, Ei.
Qed.

Lemma rule_fields_no_comma tr :
  rule_ok tr → Forall (λ f, has_char "," f = false) (rule_fields tr).
Proof.
  intros (Hp & Hs & Hd). unfold rule_fields. constructor.
  { apply field_no_comma; [done|]. apply Itoa_no_char; [done|apply Hp]. }
  apply Forall_app. split.
  - destruct (pbr_Source tr); [|constructor]. apply selector_fields_no_comma; auto.
  - destruct (pbr_Destination tr); [|constructor]. apply selector_fields_no_comma; auto.
Qed.

Lemma parse_rule_fields tr :
  rule_ok tr → loop_acc (rule_fields tr) parse_field new_PBTrafficRule = inl (rule_core tr).
Proof.
  intros (Hp & Hs & Hd). unfold rule_fields. cbn [loop_acc].
  rewrite (parse_field_value _ _ setPriority new_PBTrafficRule
             (mkPBTrafficRule "" (pbr_Priority tr) None None None)).
  2-3: done. 2: apply Itoa_no_char; [done|apply Hp].
  2: unfold setPriority; by rewrite ParseUint32_Itoa.
  rewrite loop_acc_app. unfold rule_core.
  destruct (pbr_Source tr) as [src|] eqn:Es; cbn [from_option loop_acc fmap option_fmap option_map].
  - rewrite (parse_selector_fields true) by auto. cbn [set_sel].
    destruct (pbr_Destination tr) as [dst|]; cbn [from_option loop_acc option_map]; [|done].
    by rewrite (parse_selector_fields false) by auto.
  - destruct (pbr_Destination tr) as [dst|]; cbn [from_option loop_acc option_map]; [|done].
    by rewrite (parse_selector_fields false) by auto.
Qed.

Lemma rule_roundtrip tr :
  rule_ok tr →
  ∃ s, TrafficRuleProtoToString (Some tr) = inl s ∧ TrafficRuleStringToProto s = inl (rule_core tr).
Proof.
  intros Hok. destruct (rule_printed tr Hok) as (l & -> & Hl). eexists. split; [done|].
  unfold TrafficRuleStringToProto. rewrite split_concat; [|done|].
  - rewrite loop_acc_app, parse_rule_fields by done. by destruct Hl as [-> | ->].
  - apply Forall_app. split; [by apply rule_fields_no_comma|].
    destruct Hl as [-> | ->]; repeat constructor.
Qed.

(** ** What verification establishes *)

(** The numbers of a rule have the width of their fields. *)
Definition rule_typed (tr : PBTrafficRule) : Prop :=
  uint32 (pbr_Priority tr) ∧
  ∀ ts, pbr_Source tr = Some ts ∨ pbr_Destination tr = Some ts →
    (∀ ip, pbs_Ip ts = Some ip →
       uint32 (pbf_Mask ip) ∧ uint32 (pbf_BeginPort ip) ∧ uint32 (pbf_EndPort ip)) ∧
    (∀ gtp, pbs_Gtp ts = Some gtp → uint32 (pbg_Mask gtp)).

(** No address of the rule is written with colons. *)
Definition rule_no_colon (tr : PBTrafficRule) : Prop :=
  ∀ ts, pbr_Source tr = Some ts ∨ pbr_Destination tr = Some ts →
    (∀ ip, pbs_Ip ts = Some ip → has_char ":" (pbf_Address ip) = false) ∧
    (∀ gtp, pbs_Gtp ts = Some gtp → has_char ":" (pbg_Address gtp) = false).

Lemma VerifyIPFilter_ok ip :
  VerifyIPFilter ip = None →
  VerifyAddressMask (pbf_Address ip) (pbf_Mask ip) = None ∧
  pbf_BeginPort ip ≤ pbf_EndPort ip ∧ pbf_Protocol ip = "".
Proof.
  unfold VerifyIPFilter, str_empty. destruct (VerifyAddressMask _ _); [done|].
  repeat case_bool_decide; try done. intros _. by split_and!; [|lia|].
Qed.

Lemma VerifyGTPFilter_ok gtp :
  VerifyGTPFilter gtp = None →
  VerifyAddressMask (pbg_Address gtp) (pbg_Mask gtp) = None ∧ pbg_Imsis gtp = [].
Proof.
  unfold VerifyGTPFilter. destruct (VerifyAddressMask _ _); [done|].
  case_bool_decide; [done|]. intros _. split; [done|]. destruct (pbg_Imsis gtp); [done|]. simpl in *. lia.
Qed.

Lemma VerifyTrafficSelector_ok ts :
  VerifyTrafficSelector ts = None →
  pbs_Macs ts = None ∧ (pbs_Ip ts ≠ None ∨ pbs_Gtp ts ≠ None) ∧
  (∀ ip, pbs_Ip ts = Some ip → VerifyIPFilter ip = None) ∧
  (∀ gtp, pbs_Gtp ts = Some gtp → VerifyGTPFilter gtp = None).
Proof.
  unfold VerifyTrafficSelector.
  destruct (pbs_Macs ts), (pbs_Ip ts) as [ip|], (pbs_Gtp ts) as [gtp|]; try done; cbn [mbind option_bind];
    try destruct (VerifyIPFilter ip) eqn:?; try destruct (VerifyGTPFilter gtp) eqn:?; try done;
    intros _; split_and!; naive_solver.
Qed.

Lemma VerifyTrafficRule_ok tr :
  VerifyTrafficRule tr = None →
  (∀ ts, pbr_Source tr = Some ts ∨ pbr_Destination tr = Some ts → VerifyTrafficSelector ts = None) ∧
  (pbr_Source tr ≠ None ∨ pbr_Destination tr ≠ None) ∧
  ∃ tgt, pbr_Target tr = Some tgt ∧ pbt_Action tgt = ACCEPT ∧ pbt_Ip tgt = None.
Proof.
  unfold VerifyTrafficRule.
  destruct (pbr_Source tr) as [src|], (pbr_Destination tr) as [dst|]; try done; cbn [mbind option_bind];
    try destruct (VerifyTrafficSelector src) eqn:?; try destruct (VerifyTrafficSelector dst) eqn:?;
    try done; (destruct (pbr_Target tr) as [tgt|]; [|done]); cbn [VerifyTrafficTarget];
    (destruct (pbt_Action tgt) eqn:?; try done); destruct (pbt_Ip tgt) eqn:?; try done;
    intros _; split_and!; naive_solver.
Qed.

Lemma verified_rule_ok tr :
  VerifyTrafficRule tr = None → rule_typed tr → rule_no_colon tr → rule_ok tr.
Proof.
  intros (Hsel & _)%VerifyTrafficRule_ok (Hp & Hty) Hnc. split; [done|].
  enough (∀ ts, pbr_Source tr = Some ts ∨ pbr_Destination tr = Some ts → selector_ok ts) as Hall
    by (split; intros ts Hts; apply Hall; auto).
  intros ts Hts. destruct (VerifyTrafficSelector_ok ts (Hsel ts Hts)) as (Hm & Hsome & Hi & Hg).
  destruct (Hty ts Hts) as [Hti Htg], (Hnc ts Hts) as [Hci Hcg]. split_and!; [done..| |].
  - intros gtp E. destruct (VerifyGTPFilter_ok gtp (Hg gtp E)) as [Hv Him].
    split_and!; [eapply verified_dotted; eauto|by apply Htg|done].
  - intros ip E. destruct (VerifyIPFilter_ok ip (Hi ip E)) as (Hv & Hle & Hpr).
    destruct (Hti ip E) as (? & ? & ?).
    split_and!; [eapply verified_dotted; eauto|done..].
Qed.

Lemma verify_rules_ok idx rules :
  verify_rules idx rules = None ↔ Forall (λ tr, VerifyTrafficRule tr = None) rules.
Proof.
  revert idx. induction rules as [|tr rules IH]; intros idx; simpl; [done|].
  rewrite Forall_cons, <- (IH (idx + 1)). destruct (VerifyTrafficRule tr); naive_solver.
Qed.
