(* ===== verification/Eda.v ===== *)
(** * The dataplane agent (edgenode/pkg/eda, edgenode/pkg/edants)

    The agent keeps, for every application, the traffic policy it was given
    and the routes it has added for it to the network traffic service (NTS).
    [Set] replaces the policy of an application: the routes of the old policy
    are removed, those of the new one added, and if one cannot be added the
    routes added before it are removed again.

    The library of the NTS is a parameter ([NesApi]); [NesLaws] is what is
    assumed of its routes, nothing being assumed of the entry for which a call
    has failed.  Requests are handled one after another. *)

From S2P Require Import Prelude Strconv GoNet CceNode ElaRules.
From stdpp Require Import prelude strings list gmap.
From Stdlib Require Import ZArith Ascii.

Local Open Scope Z_scope.

(** ** Errors of gRPC calls *)

Inductive codes := Unknown | InvalidArgument | NotFound | FailedPrecondition | Internal
                 | Unimplemented.

#[export] Instance codes_eq_dec : EqDecision codes.
Proof. solve_decision. Defined.

(** An error value: [errors.New] or [status.Errorf]. *)
Inductive gerror := PlainErr (msg : string) | StatusErr (c : codes) (msg : string).

Definition code_name (c : codes) : string :=
  match c with
  | Unknown => "Unknown" | InvalidArgument => "InvalidArgument" | NotFound => "NotFound"
  | FailedPrecondition => "FailedPrecondition" | Internal => "Internal"
  | Unimplemented => "Unimplemented"
  end.

(** [err.Error()], and [Code()] of [status.FromError(err)]. *)
Definition err_text (e : gerror) : string :=
  match e with
  | PlainErr msg => msg
  | StatusErr c msg => "rpc error: code = " +:+ code_name c +:+ " desc = " +:+ msg
  end.
Definition err_code (e : gerror) : codes :=
  match e with PlainErr _ => Unknown | StatusErr c _ => c end.

(** ** Hardware addresses as text *)

Definition hex_digit (n : Z) : ascii :=
  ascii_of_nat (Z.to_nat (if bool_decide (n < 10) then 48 + n else 87 + n)).

(** [hex.EncodeToString] of one byte. *)
Definition hex_byte (b : Z) : string :=
  String (hex_digit (b / 16)) (String (hex_digit (b mod 16)) "").

(** [HardwareAddr.String()]. *)
Definition HardwareAddr_String (mac : list Z) : string := String.concat ":" (hex_byte <$> mac).

(** ** The wrapper of the NTS library (edants.go) *)

Definition ETHER_ADDR_LEN : nat := 6.

Record NtsDeviceStats := mkNtsDeviceStats {
  ReceivedPackets : Z;
  SentPackets : Z;
  DroppedPacketsTX : Z;
  DroppedPacketsHW : Z;
  ReceivedBytes : Z;
  SentBytes : Z;
  DroppedBytesTX : Z;
  IPFragment : Z;
}.

Record NtsDevice := mkNtsDevice {
  dev_Name : string;
  dev_Index : Z;
  dev_MacAddr : list Z;
  dev_Stats : NtsDeviceStats;
}.

(** The members of the library's [nes_api_dev_t]. *)
Record nes_api_dev_t := mkNesDev {
  nd_name : string;
  nd_index : Z;
  nd_macaddr : list Z;
  nd_rcv_cnt : Z;
  nd_snd_cnt : Z;
  nd_drp_cnt_1 : Z;
  nd_drp_cnt_2 : Z;
  nd_rcv_bytes : Z;
  nd_snd_bytes : Z;
  nd_drp_bytes_1 : Z;
  nd_ip_fragment : Z;
}.

(** The calls of the library, on the state [NTS] of the service; the result 0
    is [NES_SUCCESS]. *)
Class NesApi := {
  NTS : Type;
  nes_conn_init : NTS → Z * NTS;
  nes_conn_close : NTS → Z * NTS;
  nes_route_add : list Z → string → NTS → Z * NTS;
  nes_route_remove : string → NTS → Z * NTS;
  nes_stats_all_dev : NTS → option (list nes_api_dev_t) * NTS;
}.

(** The routes: a call that succeeds adds or removes the entry of its lookup
    keys, as the header says.  A call that fails may have changed that entry or
    not (the service answers with an error also after it has added a route, and
    the library reports a lost reply as a failure), but no other one.
    [lookup_key] is the entry that a text of lookup keys denotes. *)
Class NesLaws `{NesApi} := {
  KEY : Type;
  KEY_eq_dec :: EqDecision KEY;
  KEY_countable :: Countable KEY;
  lookup_key : string → KEY;
  routes : NTS → gmap KEY (list Z);
  nes_conn_init_routes n r n' : nes_conn_init n = (r, n') → routes n' = routes n;
  nes_conn_close_routes n r n' : nes_conn_close n = (r, n') → routes n' = routes n;
  nes_route_add_routes mac keys n r n' :
    nes_route_add mac keys n = (r, n') →
    (r = 0 → routes n' = <[lookup_key keys := mac]> (routes n)) ∧
    (∀ k, k ≠ lookup_key keys → routes n' !! k = routes n !! k);
  nes_route_remove_routes keys n r n' :
    nes_route_remove keys n = (r, n') →
    (r = 0 → routes n' = delete (lookup_key keys) (routes n)) ∧
    (∀ k, k ≠ lookup_key keys → routes n' !! k = routes n !! k);
}.

(** ** State (eda_traffic_policy_service.go) *)

Record TrafficRuleParsed := mkTrafficRuleParsed { LookupKeys : string; Mac : list Z }.

Record AppTrafficPolicy := mkAppTrafficPolicy {
  Policy : PBTrafficPolicy;
  NtsTrafficRules : list TrafficRuleParsed;
}.

(** What is logged when a call on a route has failed. *)
Inductive logEntry :=
| AddFailed (lookupKeys : string) (mac : list Z)
| RemoveFailed (lookupKeys appID : string).

Definition entry_keys (e : logEntry) : string :=
  match e with AddFailed keys _ => keys | RemoveFailed keys _ => keys end.

Section eda.
Context `{NesApi}.

(** [AppTrafficPolicies], the service, and the errors of routes that were
    logged. *)
Record Eda := mkEda {
  AppTrafficPolicies : gmap string AppTrafficPolicy;
  eda_nts : NTS;
  eda_log : list logEntry;
}.

Definition set_policies (p : gmap string AppTrafficPolicy) (s : Eda) : Eda :=
  mkEda p (eda_nts s) (eda_log s).

Definition log_Errf (e : logEntry) : GoM Eda unit :=
  go_modify (λ s, mkEda (AppTrafficPolicies s) (eda_nts s) (eda_log s ++ [e])).

Definition nts {A} (f : NTS → A * NTS) : GoM Eda A := λ s,
  let '(r, n) := f (eda_nts s) in (Ret r, mkEda (AppTrafficPolicies s) n (eda_log s)).

(** A call of the library that fails with [msg]. *)
Definition nes_call (f : NTS → Z * NTS) (msg : string) : GoM Eda error :=
  res ← nts f;
  mret (if bool_decide (res = 0) then nil_err else errors_New msg).

Definition NewNtsConnection : GoM Eda error := nes_call nes_conn_init "Connection failed".
Definition Disconnect : GoM Eda error := nes_call nes_conn_close "Unable to disconnect".

(** The loop copies six bytes, and panics on a shorter address. *)
Definition RouteAdd (macAddr : list Z) (lookupKeys : string) : GoM Eda error :=
  if bool_decide (length macAddr < ETHER_ADDR_LEN)%nat then go_panic "index out of range"
  else nes_call (nes_route_add (take ETHER_ADDR_LEN macAddr) lookupKeys)
         "Unable to add the route".

Definition RouteRemove (lookupKeys : string) : GoM Eda error :=
  nes_call (nes_route_remove lookupKeys) "Unable to remove the route".

(** One device: its address is written out and parsed. *)
Definition nts_device (d : nes_api_dev_t) : NtsDevice + string :=
  match ParseMAC (HardwareAddr_String (take ETHER_ADDR_LEN (nd_macaddr d))) with
  | inr _ => inr "Mac Address conversion failed"
  | inl mac =>
      inl (mkNtsDevice (nd_name d) (nd_index d) mac
             (mkNtsDeviceStats (nd_rcv_cnt d) (nd_snd_cnt d) (nd_drp_cnt_1 d) (nd_drp_cnt_2 d)
                (nd_rcv_bytes d) (nd_snd_bytes d) (nd_drp_bytes_1 d) (nd_ip_fragment d)))
  end.

Definition GetDevices : GoM Eda (list NtsDevice + string) :=
  devList ← nts nes_stats_all_dev;
  match devList with
  | None => mret (inr "Unable to retrieve the stats")
  | Some l =>
      mret (loop_acc l (λ d acc,
        match nts_device d with inl dev => inl (acc ++ [dev]) | inr err => inr err end) [])
  end.

(** ** Operations *)

(** The slice after its element 0 was replaced by the last one, and the last
    one dropped. *)
Definition drop_first (l : list TrafficRuleParsed) : list TrafficRuleParsed :=
  match l with
  | [] => []
  | r0 :: rest => match last rest with
                  | None => []
                  | Some z => z :: removelast rest
                  end
  end.

(** [n] rounds of the loop of [RemoveRules]. *)
Fixpoint remove_rules_loop (n : nat) (appID : string) : GoM Eda unit :=
  match n with
  | O => mret tt
  | S n' =>
      s ← go_get;
      match AppTrafficPolicies s !! appID with
      | None => go_panic "invalid memory address or nil pointer dereference"
      | Some pol =>
          match NtsTrafficRules pol with
          | [] => go_panic "index out of range"
          | r0 :: _ =>
              err ← RouteRemove (LookupKeys r0);
              _ ← match err with
                  | Some _ => log_Errf (RemoveFailed (LookupKeys r0) appID)
                  | None => mret tt
                  end;
              _ ← go_modify (λ s, set_policies
                    (<[appID := mkAppTrafficPolicy (Policy pol) (drop_first (NtsTrafficRules pol))]>
                       (AppTrafficPolicies s)) s);
              remove_rules_loop n' appID
          end
      end
  end.

(** [conn] tells whether the connection is not nil. *)
Definition RemoveRules (appID : string) (conn : bool) : GoM Eda (option gerror) :=
  s ← go_get;
  match AppTrafficPolicies s !! appID with
  | None => mret None
  | Some pol =>
      if negb conn then mret (Some (StatusErr Internal "Not connected to NTS")) else
      _ ← remove_rules_loop (length (NtsTrafficRules pol)) appID;
      _ ← go_modify (λ s, set_policies (delete appID (AppTrafficPolicies s)) s);
      mret None
  end.

Definition DisconnectNTS : GoM Eda unit := _ ← Disconnect; mret tt.

(** One round of [ValidateTrafficRules]. *)
Definition validate_rule (rule : PBTrafficRule) (acc : list TrafficRuleParsed)
    : list TrafficRuleParsed + gerror :=
  match TrafficRuleProtoToString (Some rule) with
  | inr err =>
      inr (StatusErr Internal ("Error while parsing traffic rule to string " +:+ err))
  | inl trString =>
      match pbr_Target rule ≫= pbt_Mac with
      | None =>
          inr (StatusErr InvalidArgument
                 ("Failed to retrieve mac address for rule " +:+ trString))
      | Some mac =>
          match ParseMAC mac with
          | inr err =>
              inr (StatusErr InvalidArgument ("Error while parsing mac address: " +:+ err))
          | inl netMacAddr => inl (acc ++ [mkTrafficRuleParsed trString netMacAddr])
          end
      end
  end.

Definition ValidateTrafficRules (tp : PBTrafficPolicy) : list TrafficRuleParsed + gerror :=
  loop_acc (pbtp_TrafficRules tp) validate_rule [].

(** The body of the loop of [AddRequest].  The entry of the map is the local
    variable, so appending to the variable's rules changes the entry. *)
Definition add_rule (id : string) (rule : TrafficRuleParsed) (_ : unit)
    : GoM Eda (unit + option gerror) :=
  err ← RouteAdd (Mac rule) (LookupKeys rule);
  match err with
  | Some _ =>
      _ ← log_Errf (AddFailed (LookupKeys rule) (Mac rule));
      err ← RemoveRules id true;
      match err with
      | Some err =>
          mret (inr (Some (StatusErr Unknown
            ("Failed to clean traffic rules on error in RouteAdd(). Error: " +:+ err_text err))))
      | None =>
          mret (inr (Some (StatusErr Unknown
            ("Failed to add traffic rule: " +:+ LookupKeys rule +:+ " for mac addr: "
             +:+ HardwareAddr_String (Mac rule) +:+ "."))))
      end
  | None =>
      _ ← go_modify (λ s, set_policies
            (alter (λ pol, mkAppTrafficPolicy (Policy pol)
                (NtsTrafficRules pol ++ [mkTrafficRuleParsed (LookupKeys rule) (Mac rule)])) id
               (AppTrafficPolicies s)) s);
      mret (inl tt)
  end.

Definition AddRequest (tp : PBTrafficPolicy) : GoM Eda (option gerror) :=
  match ValidateTrafficRules tp with
  | inr err =>
      mret (Some (StatusErr (err_code err)
                    ("Validation of traffic rules finished with error: " +:+ err_text err)))
  | inl parsedTrafficRules =>
      _ ← go_modify (λ s, set_policies
            (<[pbtp_Id tp := mkAppTrafficPolicy tp []]> (AppTrafficPolicies s)) s);
      r ← for_acc parsedTrafficRules (add_rule (pbtp_Id tp)) tt;
      mret (match r with inl _ => None | inr err => err end)
  end.

(** The rules of a message that was received are nil when there are none. *)
Definition eda_Set (tp : PBTrafficPolicy) : GoM Eda (option gerror) :=
  if str_empty (pbtp_Id tp)
  then mret (Some (PlainErr "Application traffic policy ID is empty")) else
  err ← NewNtsConnection;
  match err with
  | Some err => mret (Some (PlainErr err))
  | None =>
      r ← (err ← RemoveRules (pbtp_Id tp) true;
           match err with
           | Some err =>
               mret (Some (StatusErr (err_code err)
                 ("Attempt to remove traffic rules for traffic policy ID " +:+ pbtp_Id tp
                  +:+ " finished with error: " +:+ err_text err)))
           | None =>
               match pbtp_TrafficRules tp with
               | [] => mret None
               | _ => AddRequest tp
               end
           end);
      _ ← DisconnectNTS;
      mret r
  end.

(** The server handles the requests it receives one after another, from an
    empty memory ([runServer]). *)
Fixpoint serve_policies (reqs : list PBTrafficPolicy) : GoM Eda unit :=
  match reqs with
  | [] => mret tt
  | tp :: reqs' => _ ← eda_Set tp; serve_policies reqs'
  end.
End eda.

(** ** Facts *)

(** A parsed hardware address has at least six bytes. *)
Lemma parse_mac_at_length s offs bs : parse_mac_at s offs = Some bs → length bs = length offs.
Proof.
  revert bs. induction offs as [|[[x w] e] offs IH]; intros bs; simpl; [by intros [= <-]|].
  destruct (xtoi2 _ _); [|done]. destruct (parse_mac_at s offs) as [bs'|]; [|done].
  intros [= <-]. simpl. f_equal. by apply IH.
Qed.

Lemma ParseMAC_length s mac : ParseMAC s = inl mac → (ETHER_ADDR_LEN ≤ length mac)%nat.
Proof.
  unfold ParseMAC, ETHER_ADDR_LEN. set (len := String.length s).
  destruct (bool_decide (len < 14)%nat); [done|].
  destruct (bool_decide (char_at 2 s = _ ∨ _)).
  { destruct (bool_decide ((len + 1) mod 3 ≠ 0)%nat); [done|].
    destruct (bool_decide (_ ≠ 6 ∧ _)%nat) eqn:Hn; [done|]. apply bool_decide_eq_false in Hn.
    destruct (parse_mac_at _ _) as [hw|] eqn:E; [|done]. intros [= <-].
    apply parse_mac_at_length in E. rewrite length_fmap, length_seq in E. lia. }
  destruct (bool_decide (char_at 4 s = _)); [|done].
  destruct (bool_decide ((len + 1) mod 5 ≠ 0)%nat); [done|].
  destruct (bool_decide (_ ≠ 6 ∧ _)%nat) eqn:Hn; [done|]. apply bool_decide_eq_false in Hn.
  destruct (parse_mac_at _ _) as [hw|] eqn:E; [|done]. intros [= <-].
  apply parse_mac_at_length in E. rewrite length_concat in E.
  assert (((2 * (len + 1) / 5) = 6 ∨ (2 * (len + 1) / 5) = 8 ∨ (2 * (len + 1) / 5) = 20)%nat) as Hc
    by lia.
  by destruct Hc as [Hc|[Hc|Hc]]; rewrite Hc in E; simpl in E; lia.
Qed.

Lemma drop_first_elem r0 rest r : r ∈ drop_first (r0 :: rest) ↔ r ∈ rest.
Proof.
  cbn [drop_first]. destruct (last rest) as [z|] eqn:Hz.
  - apply last_Some in Hz as [l' ->]. rewrite removelast_last. set_solver.
  - apply last_None in Hz as ->. done.
Qed.

Lemma drop_first_length r0 rest : length (drop_first (r0 :: rest)) = length rest.
Proof.
  cbn [drop_first]. destruct (last rest) as [z|] eqn:Hz.
  - apply last_Some in Hz as [l' ->]. rewrite removelast_last, length_app. simpl. lia.
  - by apply last_None in Hz as ->.
Qed.

Section facts.
Context `{NL : NesLaws}.
Implicit Types (s : Eda).

Abbreviation tbl s := (routes (eda_nts s)).
Definition rule_key (r : TrafficRuleParsed) : KEY := lookup_key (LookupKeys r).

(** A call for the route [k] has failed and was logged. *)
Definition logged (s : Eda) (k : KEY) : Prop :=
  ∃ e, e ∈ eda_log s ∧ lookup_key (entry_keys e) = k.

Lemma logged_mono s s' k : eda_log s ⊆ eda_log s' → logged s k → logged s' k.
Proof. intros Hsub (e & Hin & Hk). exists e. split; [by apply Hsub|done]. Qed.

(** What removing the rules [l] does to routes and log. *)
Definition removed (l : list TrafficRuleParsed) (s s' : Eda) : Prop :=
  (∀ k, (∀ r, r ∈ l → rule_key r ≠ k) → tbl s' !! k = tbl s !! k) ∧
  (∀ r, r ∈ l → tbl s' !! rule_key r = None ∨ logged s' (rule_key r)) ∧
  eda_log s ⊆ eda_log s'.

Lemma key_in_dec (l : list TrafficRuleParsed) k :
  (∃ r, r ∈ l ∧ rule_key r = k) ∨ (∀ r, r ∈ l → rule_key r ≠ k).
Proof.
  induction l as [|r1 l IH]; [right; set_solver|].
  destruct (decide (rule_key r1 = k)); [left; exists r1; set_solver|].
  destruct IH as [(r & Hr & Hk)|Hno]; [left; exists r; set_solver|right; set_solver].
Qed.

Lemma removed_nil s s' :
  tbl s' = tbl s → eda_log s' = eda_log s → removed [] s s'.
Proof. intros Ht Hl. unfold removed. rewrite Ht, Hl. split_and!; [done|set_solver|done]. Qed.

Lemma removed_cons r0 l l' s s1 s' :
  removed [r0] s s1 → removed l s1 s' → (∀ r, r ∈ l' ↔ r = r0 ∨ r ∈ l) → removed l' s s'.
Proof.
  intros (H1 & H2 & H3) (H4 & H5 & H6) Hl'. split_and!.
  - intros k Hk. rewrite H4, H1; [done|set_solver..].
  - intros r [-> |Hr]%Hl'; [|by apply H5].
    destruct (key_in_dec l (rule_key r0)) as [(r & Hr & <-)|Hno]; [by apply H5|].
    rewrite H4 by done. destruct (H2 r0) as [Hn|Hlog]; [set_solver|by left|].
    right. by eapply logged_mono.
  - set_solver.
Qed.

Lemma nts_call f msg s r n :
  f (eda_nts s) = (r, n) →
  nes_call f msg s = (Ret (if bool_decide (r = 0) then nil_err else errors_New msg),
                      mkEda (AppTrafficPolicies s) n (eda_log s)).
Proof. intros E. unfold nes_call, nts, mbind, GoM_bind. by rewrite E. Qed.

(** One round of the loop. *)
Lemma remove_step app s pol r0 rest n :
  AppTrafficPolicies s !! app = Some pol → NtsTrafficRules pol = r0 :: rest →
  ∃ s1, remove_rules_loop (S n) app s = remove_rules_loop n app s1 ∧
    AppTrafficPolicies s1 =
      <[app := mkAppTrafficPolicy (Policy pol) (drop_first (r0 :: rest))]> (AppTrafficPolicies s) ∧
    removed [r0] s s1.
Proof.
  intros Hpol Hr. cbn [remove_rules_loop]. rewrite bind_get, Hpol, Hr.
  destruct (nes_route_remove (LookupKeys r0) (eda_nts s)) as [res n'] eqn:E.
  unfold RouteRemove. rewrite (bind_ret _ _ _ _ _ (nts_call _ _ _ _ _ E)).
  destruct (nes_route_remove_routes _ _ _ _ E) as [Hok Hother].
  case_bool_decide as Hres; eexists; (split; [reflexivity|]); (split; [done|]); cbn; split_and!.
  - intros k Hk. cbn. apply Hother. intros ->. by apply (Hk r0); [left|].
  - intros r ->%list_elem_of_singleton. left. cbn. rewrite Hok by done. apply lookup_delete_eq.
  - done.
  - intros k Hk. cbn. apply Hother. intros ->. by apply (Hk r0); [left|].
  - intros r ->%list_elem_of_singleton. right. exists (RemoveFailed (LookupKeys r0) app). cbn. set_solver.
  - cbn. set_solver.
Qed.

Lemma remove_rules_loop_spec n app s pol :
  AppTrafficPolicies s !! app = Some pol → length (NtsTrafficRules pol) = n →
  ∃ s', remove_rules_loop n app s = (Ret tt, s') ∧
    AppTrafficPolicies s' = <[app := mkAppTrafficPolicy (Policy pol) []]> (AppTrafficPolicies s) ∧
    removed (NtsTrafficRules pol) s s'.
Proof.
  revert s pol. induction n as [|n IH]; intros s pol Hpol Hlen.
  { apply nil_length_inv in Hlen. exists s. split; [done|]. rewrite Hlen. split.
    - rewrite insert_id; [done|]. rewrite Hpol. destruct pol; simpl in *; by subst.
    - by apply removed_nil. }
  destruct (NtsTrafficRules pol) as [|r0 rest] eqn:Hr; [done|].
  destruct (remove_step app s pol r0 rest n Hpol Hr) as (s1 & -> & Hp1 & Hrem).
  destruct (IH s1 (mkAppTrafficPolicy (Policy pol) (drop_first (r0 :: rest))))
    as (s' & -> & Hp' & Hrem').
  { by rewrite Hp1, lookup_insert_eq. }
  { cbn [NtsTrafficRules]. rewrite drop_first_length. simpl in Hlen. lia. }
  exists s'. split; [done|]. split.
  - by rewrite Hp', Hp1, insert_insert_eq.
  - eapply removed_cons; [done..|]. intros r. cbn [NtsTrafficRules].
    rewrite drop_first_elem. set_solver.
Qed.

(** The rules that the agent has recorded for an application. *)
Definition rules_of (app : string) (s : Eda) : list TrafficRuleParsed :=
  from_option NtsTrafficRules [] (AppTrafficPolicies s !! app).

Lemma RemoveRules_spec app s :
  ∃ s', RemoveRules app true s = (Ret None, s') ∧
    AppTrafficPolicies s' = delete app (AppTrafficPolicies s) ∧
    removed (rules_of app s) s s'.
Proof.
  unfold RemoveRules, rules_of. rewrite bind_get.
  destruct (AppTrafficPolicies s !! app) as [pol|] eqn:Hpol; cbn [from_option negb].
  - destruct (remove_rules_loop_spec _ app s pol Hpol eq_refl) as (s1 & E & Hp & Hrem).
    rewrite (bind_ret _ _ _ _ _ E), bind_modify. eexists. split; [reflexivity|].
    split; [|done]. cbn. by rewrite Hp, delete_insert_eq.
  - exists s. split; [done|]. split; [by rewrite delete_id|by apply removed_nil].
Qed.

(** The table after the routes of [l] were added in order, or removed. *)
Definition add_routes (l : list TrafficRuleParsed) (m : gmap KEY (list Z)) : gmap KEY (list Z) :=
  foldl (λ m r, <[rule_key r := take ETHER_ADDR_LEN (Mac r)]> m) m l.
Definition delete_routes (l : list TrafficRuleParsed) (m : gmap KEY (list Z)) : gmap KEY (list Z) :=
  foldr (λ r, delete (rule_key r)) m l.

Lemma add_routes_app l1 l2 m : add_routes (l1 ++ l2) m = add_routes l2 (add_routes l1 m).
Proof. apply foldl_app. Qed.

Lemma lookup_add_routes_out l m k :
  (∀ r, r ∈ l → rule_key r ≠ k) → add_routes l m !! k = m !! k.
Proof.
  induction l as [|r l IH] using rev_ind; intros Hk; [done|].
  rewrite add_routes_app. cbn. rewrite lookup_insert_ne by (apply Hk; set_solver).
  apply IH. set_solver.
Qed.

Lemma lookup_add_routes_in l m r mac :
  (∀ r', r' ∈ l → take ETHER_ADDR_LEN (Mac r') = mac) → r ∈ l →
  add_routes l m !! rule_key r = Some mac.
Proof.
  induction l as [|r1 l IH] using rev_ind; intros Hm Hr; [set_solver|].
  rewrite add_routes_app. cbn. destruct (decide (rule_key r1 = rule_key r)) as [E|E].
  - rewrite E, lookup_insert_eq. f_equal. apply Hm. set_solver.
  - rewrite lookup_insert_ne by done. apply IH; set_solver.
Qed.

Lemma lookup_delete_routes_in l m r : r ∈ l → delete_routes l m !! rule_key r = None.
Proof.
  induction l as [|r1 l IH]; intros Hr; [set_solver|]. cbn.
  destruct (decide (rule_key r1 = rule_key r)) as [E|E]; [by rewrite E, lookup_delete_eq|].
  rewrite lookup_delete_ne by done. apply IH. set_solver.
Qed.

Lemma lookup_delete_routes_out l m k :
  (∀ r, r ∈ l → rule_key r ≠ k) → delete_routes l m !! k = m !! k.
Proof.
  induction l as [|r1 l IH]; intros Hk; [done|]. cbn.
  rewrite lookup_delete_ne by (apply Hk; set_solver). apply IH. set_solver.
Qed.

(** Adding routes only to remove them leaves the table without them. *)
Lemma delete_add_routes l m : delete_routes l (add_routes l m) = delete_routes l m.
Proof.
  apply map_eq. intros k. destruct (key_in_dec l k) as [(r & Hr & <-)|Hno].
  - by rewrite !lookup_delete_routes_in.
  - by rewrite !lookup_delete_routes_out, lookup_add_routes_out.
Qed.

Lemma removed_exact l s s' k :
  removed l s s' → ¬ logged s' k → tbl s' !! k = delete_routes l (tbl s) !! k.
Proof.
  intros (H1 & H2 & _) Hlog. destruct (key_in_dec l k) as [(r & Hr & <-)|Hno].
  - rewrite lookup_delete_routes_in by done. by destruct (H2 r Hr).
  - rewrite lookup_delete_routes_out by done. by apply H1.
Qed.

(** *** Adding *)

Lemma RouteAdd_spec mac keys s :
  (ETHER_ADDR_LEN ≤ length mac)%nat →
  ∃ n (err : error), RouteAdd mac keys s = (Ret err, mkEda (AppTrafficPolicies s) n (eda_log s)) ∧
    (err = None → routes n = <[lookup_key keys := take ETHER_ADDR_LEN mac]> (tbl s)) ∧
    (∀ k, k ≠ lookup_key keys → routes n !! k = tbl s !! k).
Proof.
  intros Hm. unfold RouteAdd. rewrite bool_decide_eq_false_2 by lia.
  destruct (nes_route_add (take ETHER_ADDR_LEN mac) keys (eda_nts s)) as [res n] eqn:E.
  rewrite (nts_call _ _ _ _ _ E). destruct (nes_route_add_routes _ _ _ _ _ E) as [Hok Hother].
  do 2 eexists. split; [reflexivity|]. split; [|done]. by case_bool_decide; intros; [apply Hok|].
Qed.

(** The table and the log after the rules [pre] were added and the addition of
    [r] has failed. *)
Definition add_failed (pre : list TrafficRuleParsed) (r : TrafficRuleParsed) (s s1 : Eda) : Prop :=
  (∀ k, k ≠ rule_key r → tbl s1 !! k = add_routes pre (tbl s) !! k) ∧
  eda_log s1 = eda_log s ++ [AddFailed (LookupKeys r) (Mac r)].

(** The loop of [AddRequest], with the rules [done] already added: all are
    added, or those before the one that was refused are removed again. *)
Lemma add_loop_spec tp l added s :
  AppTrafficPolicies s !! pbtp_Id tp = Some (mkAppTrafficPolicy tp added) →
  Forall (λ r, ETHER_ADDR_LEN ≤ length (Mac r))%nat l →
  (∃ s', for_acc l (add_rule (pbtp_Id tp)) tt s = (Ret (inl tt), s') ∧
     AppTrafficPolicies s' =
       <[pbtp_Id tp := mkAppTrafficPolicy tp (added ++ l)]> (AppTrafficPolicies s) ∧
     tbl s' = add_routes l (tbl s) ∧ eda_log s' = eda_log s) ∨
  (∃ e pre r post s1 s', for_acc l (add_rule (pbtp_Id tp)) tt s = (Ret (inr (Some e)), s') ∧
     l = pre ++ r :: post ∧ AppTrafficPolicies s' = delete (pbtp_Id tp) (AppTrafficPolicies s) ∧
     add_failed pre r s s1 ∧ removed (added ++ pre) s1 s').
Proof.
  intros Hpol Hl. revert added s Hpol. induction Hl as [|r l Hr Hl IH]; intros added s Hpol.
  { left. exists s. split; [done|]. rewrite app_nil_r, insert_id by done. done. }
  cbn [for_acc]. destruct (RouteAdd_spec (Mac r) (LookupKeys r) s Hr) as (n & err & E & Hroutes & Hother).
  set (s1 := mkEda (AppTrafficPolicies s) n (eda_log s)) in *.
  destruct err as [err|].
  - right. set (s2 := exec (log_Errf (AddFailed (LookupKeys r) (Mac r))) s1).
    destruct (RemoveRules_spec (pbtp_Id tp) s2) as (s' & E' & Hp & Hrem).
    assert (∃ e, add_rule (pbtp_Id tp) r tt s = (Ret (inr (Some e)), s')) as [e Ha].
    { unfold add_rule. rewrite (bind_ret _ _ _ _ _ E). unfold log_Errf. rewrite bind_modify.
      fold s1. change (mkEda _ _ _) with s2. rewrite (bind_ret _ _ _ _ _ E'). by eexists. }
    exists e, [], r, l, s2, s'. split_and!; [|done..|split|].
    + by rewrite (bind_ret _ _ _ _ _ Ha).
    + intros k Hk. by apply Hother.
    + done.
    + unfold rules_of in Hrem. change (AppTrafficPolicies s2) with (AppTrafficPolicies s) in Hrem.
      rewrite Hpol in Hrem. cbn in Hrem. by rewrite app_nil_r.
  - set (s2 := set_policies (alter (λ pol, mkAppTrafficPolicy (Policy pol)
                (NtsTrafficRules pol ++ [mkTrafficRuleParsed (LookupKeys r) (Mac r)])) (pbtp_Id tp)
               (AppTrafficPolicies s1)) s1).
    assert (add_rule (pbtp_Id tp) r tt s = (Ret (inl tt), s2)) as Ha.
    { unfold add_rule, mbind, GoM_bind. by rewrite E. }
    assert (AppTrafficPolicies s2
            = <[pbtp_Id tp := mkAppTrafficPolicy tp (added ++ [r])]> (AppTrafficPolicies s)) as Hp2.
    { subst s2 s1. cbn. apply map_eq. intros k. destruct (decide (k = pbtp_Id tp)) as [->|Hk].
      - rewrite lookup_alter_eq, Hpol, lookup_insert_eq. by destruct r.
      - by rewrite lookup_alter_ne, lookup_insert_ne. }
    rewrite (bind_ret _ _ _ _ _ Ha).
    assert (tbl s2 = add_routes [r] (tbl s)) as Ht2 by (by apply Hroutes).
    destruct (IH (added ++ [r]) s2) as [(s' & E' & Hp & Ht & Hlog)|
      (e & pre & r' & post & s3 & s' & E' & -> & Hp & [Ht Hlog] & Hrem)].
    { by rewrite Hp2, lookup_insert_eq. }
    + left. exists s'. split; [done|]. rewrite Hp, Hp2, insert_insert_eq, <- app_assoc.
      split; [done|]. split; [|done]. by rewrite Ht, Ht2, <- add_routes_app.
    + right. exists e, (r :: pre), r', post, s3, s'. split; [done|]. split; [done|].
      rewrite Hp, Hp2, delete_insert_eq. split; [done|].
      split; [|by rewrite <- app_assoc in Hrem]. split; [|done].
      intros k Hk. by rewrite Ht, Ht2, <- add_routes_app.
Qed.

Lemma validated_macs rules acc l :
  loop_acc rules validate_rule acc = inl l →
  Forall (λ r, ETHER_ADDR_LEN ≤ length (Mac r))%nat acc →
  Forall (λ r, ETHER_ADDR_LEN ≤ length (Mac r))%nat l.
Proof.
  revert acc. induction rules as [|rule rules IH]; intros acc; simpl; [by intros [= <-]|].
  unfold validate_rule at 1. destruct (TrafficRuleProtoToString _); [|done].
  destruct (_ ≫= pbt_Mac); [|done]. destruct (ParseMAC _) as [mac|] eqn:E; [|done].
  intros Hl Hacc. eapply IH; [done|]. apply Forall_app. split; [done|]. repeat constructor.
  cbn. by eapply ParseMAC_length.
Qed.

(** *** [Set] *)

Lemma conn_spec f msg s :
  (∀ n r n', f n = (r, n') → routes n' = routes n) →
  ∃ n (err : error), nes_call f msg s = (Ret err, mkEda (AppTrafficPolicies s) n (eda_log s)) ∧
    routes n = tbl s.
Proof.
  intros Hf. destruct (f (eda_nts s)) as [r n] eqn:E. rewrite (nts_call _ _ _ _ _ E).
  do 2 eexists. split; [reflexivity|]. by eapply Hf.
Qed.

(** The memory, the routes and the log agree. *)
Definition same (s s' : Eda) : Prop :=
  AppTrafficPolicies s' = AppTrafficPolicies s ∧ tbl s' = tbl s ∧ eda_log s' = eda_log s.

(** How a request ends. *)
Inductive set_result (tp : PBTrafficPolicy) (s s' : Eda) : option gerror → Prop :=
| set_refused e : same s s' → set_result tp s s' (Some e)
| set_cleared (o : option gerror) :
    AppTrafficPolicies s' = delete (pbtp_Id tp) (AppTrafficPolicies s) →
    removed (rules_of (pbtp_Id tp) s) s s' →
    (o = None ↔ pbtp_TrafficRules tp = []) →
    (o ≠ None → ∃ e, ValidateTrafficRules tp = inr e) →
    set_result tp s s' o
| set_done l s1 :
    pbtp_TrafficRules tp ≠ [] → ValidateTrafficRules tp = inl l →
    removed (rules_of (pbtp_Id tp) s) s s1 →
    AppTrafficPolicies s' = <[pbtp_Id tp := mkAppTrafficPolicy tp l]> (AppTrafficPolicies s) →
    tbl s' = add_routes l (tbl s1) → eda_log s' = eda_log s1 →
    set_result tp s s' None
| set_undone e l pre r post s1 s2 :
    pbtp_TrafficRules tp ≠ [] → ValidateTrafficRules tp = inl l → l = pre ++ r :: post →
    removed (rules_of (pbtp_Id tp) s) s s1 →
    add_failed pre r s1 s2 → removed pre s2 s' →
    AppTrafficPolicies s' = delete (pbtp_Id tp) (AppTrafficPolicies s) →
    set_result tp s s' (Some e).

Lemma removed_same_r l s s1 s' :
  removed l s s1 → tbl s' = tbl s1 → eda_log s' = eda_log s1 → removed l s s'.
Proof. intros (H1 & H2 & H3) Ht Hl. unfold removed, logged. by rewrite Ht, Hl. Qed.

Lemma AddRequest_spec tp s :
  AppTrafficPolicies s !! pbtp_Id tp = None → pbtp_TrafficRules tp ≠ [] →
  (∃ e e', ValidateTrafficRules tp = inr e ∧ AddRequest tp s = (Ret (Some e'), s)) ∨
  (∃ l s', ValidateTrafficRules tp = inl l ∧ AddRequest tp s = (Ret None, s') ∧
     AppTrafficPolicies s' = <[pbtp_Id tp := mkAppTrafficPolicy tp l]> (AppTrafficPolicies s) ∧
     tbl s' = add_routes l (tbl s) ∧ eda_log s' = eda_log s) ∨
  (∃ l e pre r post s1 s', ValidateTrafficRules tp = inl l ∧ AddRequest tp s = (Ret (Some e), s') ∧
     l = pre ++ r :: post ∧ AppTrafficPolicies s' = AppTrafficPolicies s ∧
     add_failed pre r s s1 ∧ removed pre s1 s').
Proof.
  intros Hnone Hrules. unfold AddRequest.
  destruct (ValidateTrafficRules tp) as [l|e] eqn:Hv; [|left; by do 2 eexists].
  right. rewrite bind_modify. set (s0 := set_policies _ s).
  destruct (add_loop_spec tp l [] s0) as [(s' & E & Hp & Ht & Hlog)|
      (e & pre & r & post & s1 & s' & E & Hl & Hp & Hfail & Hrem)].
  { subst s0. cbn. by rewrite lookup_insert_eq. }
  { eapply validated_macs; [done|constructor]. }
  - left. exists l, s'. rewrite (bind_ret _ _ _ _ _ E). split_and!; [done..| |done|done].
    rewrite Hp. subst s0. cbn. by rewrite insert_insert_eq.
  - right. exists l, e, pre, r, post, s1, s'. rewrite (bind_ret _ _ _ _ _ E).
    split_and!; [done..| |done|done]. rewrite Hp. subst s0. cbn.
    rewrite delete_insert_id; done.
Qed.

Lemma Set_spec tp s :
  ∃ o s', eda_Set tp s = (Ret o, s') ∧ set_result tp s s' o ∧ (pbtp_Id tp = "" → o ≠ None).
Proof.
  unfold eda_Set, str_empty. case_bool_decide as Hid.
  { do 2 eexists. split; [reflexivity|]. split; [|done]. by constructor. }
  destruct (conn_spec nes_conn_init "Connection failed" s nes_conn_init_routes) as (n0 & err & E0 & Hn0).
  unfold NewNtsConnection. rewrite (bind_ret _ _ _ _ _ E0).
  set (s0 := mkEda (AppTrafficPolicies s) n0 (eda_log s)).
  destruct err as [err|].
  { do 2 eexists. split; [reflexivity|]. split; [|done]. by constructor. }
  destruct (RemoveRules_spec (pbtp_Id tp) s0) as (s1 & E1 & Hp1 & Hrem).
  rewrite bind_assoc, (bind_ret _ _ _ _ _ E1).
  assert (removed (rules_of (pbtp_Id tp) s) s s1) as Hrem1.
  { destruct Hrem as (H1 & H2 & H3). unfold removed. rewrite <- Hn0. done. }
  assert (∀ o s2, (match pbtp_TrafficRules tp with [] => mret None | _ => AddRequest tp end) s1
                  = (Ret o, s2) →
            ∃ s', ((match pbtp_TrafficRules tp with [] => mret None | _ => AddRequest tp end) ≫=
                   (λ r, DisconnectNTS ≫= λ _, mret r)) s1 = (Ret o, s') ∧ same s2 s') as Hfin.
  { intros o s2 Ho. rewrite (bind_ret _ _ _ _ _ Ho). unfold DisconnectNTS, Disconnect.
    destruct (conn_spec nes_conn_close "Unable to disconnect" s2 nes_conn_close_routes)
      as (n2 & err & E2 & Hn2). rewrite bind_assoc, (bind_ret _ _ _ _ _ E2).
    eexists. split; [reflexivity|]. done. }
  destruct (pbtp_TrafficRules tp) as [|tr rules] eqn:Hrules.
  { destruct (Hfin None s1 eq_refl) as (s' & -> & Hp & Ht & Hl). do 2 eexists. split; [reflexivity|].
    split; [|done]. apply set_cleared; [by rewrite Hp|by eapply removed_same_r|done|done]. }
  destruct (AddRequest_spec tp s1) as [(e & e' & Hv & Ho)|[(l & s2 & Hv & Ho & Hp2 & Ht2 & Hl2)|
     (l & e & pre & r & post & s2 & s3 & Hv & Ho & Hl & Hp3 & Hfail & Hrem3)]];
    [by rewrite Hp1, lookup_delete_eq|by rewrite Hrules|..];
    destruct (Hfin _ _ Ho) as (s' & -> & Hp & Ht & Hlog); do 2 eexists; (split; [reflexivity|]);
    (split; [|done]).
  - apply set_cleared; [by rewrite Hp|by eapply removed_same_r|by rewrite Hrules|by eauto].
  - apply (set_done tp s s' l s1); [by rewrite Hrules|done|done| | |].
    + rewrite Hp, Hp2, Hp1. subst s0. cbn. by rewrite insert_delete_eq.
    + by rewrite Ht.
    + by rewrite Hlog.
  - eapply (set_undone tp s s' e l pre r post s1 s2); [by rewrite Hrules|done..| |].
    + by eapply removed_same_r.
    + by rewrite Hp, Hp3, Hp1.
Qed.
End facts.
