(* ===== verification/ElaNts.v ===== *)
(** * The lifecycle agent (edgenode/pkg/ela, edgenode/pkg/ela/ini/nts_config.go,
      edgenode/pkg/ela/helpers/network_interfaces.go)

    The agent offers the controller four services: traffic policies of
    applications, traffic policies of interfaces, the interfaces themselves and
    DNS records.  Updating the interfaces writes a new configuration for the
    network traffic service (NTS) and restarts it.

    Each call of another program (Docker, libvirt, the devices of the host, the
    dataplane agent, EdgeDNS) and of the file system is an event of [ext];
    [ElaWorld] answers it with a value or an error.  The trace of the events
    and whether they succeeded is kept beside the state, for the theorems. *)

From S2P Require Import Prelude Strconv GoNet CceNode ElaRules Eda.
From stdpp Require Import prelude strings list gmap.
From Stdlib Require Import ZArith Ascii.

Local Open Scope Z_scope.

(** ** Texts *)

(** [strings.Replace(s, old, new, -1)] for a text [old] that is not empty;
    [fuel] bounds the length of the text. *)
Fixpoint replace_go (fuel : nat) (s old new : string) : string :=
  match fuel with
  | O => s
  | S fuel' =>
      match Strconv.strip_prefix old s with
      | Some rest => new +:+ replace_go fuel' rest old new
      | None => match s with
                | EmptyString => EmptyString
                | String c s' => String c (replace_go fuel' s' old new)
                end
      end
  end.
Definition replace_all (s old new : string) : string :=
  replace_go (S (String.length s)) s old new.

(** The byte of a line end. *)
Definition newline : ascii := "010"%char.
Definition nl : string := String newline "".

(** [strings.Trim(s, nl)]. *)
Fixpoint trim_left (s : string) : string :=
  match s with
  | String c s' => if bool_decide (c = newline) then trim_left s' else s
  | EmptyString => s
  end.
Fixpoint trim_right (s : string) : string :=
  match s with
  | EmptyString => EmptyString
  | String c s' =>
      let r := trim_right s' in
      if str_empty r && bool_decide (c = newline) then EmptyString else String c r
  end.
Definition trim_newlines (s : string) : string := trim_right (trim_left s).

(** ** The configuration of the NTS (ini/nts_config.go) *)

Record KNI := mkKNI { KNI_Max : Z }.
Record VMCommon := mkVMCommon { VM_Max : Z; VM_Number : Z; VM_VHostDev : string }.
Record NtsServer := mkNtsServer { ControlSocket : string }.

Definition TrafficType := string.
Definition IP : TrafficType := "IP".
Definition LTE : TrafficType := "LTE".
Definition Mixed : TrafficType := "mixed".

Definition TrafficDirection := string.
Definition Unknown_dir : TrafficDirection := "unknown".
Definition Upstream : TrafficDirection := "upstream".
Definition Downstream : TrafficDirection := "downstream".
Definition Both : TrafficDirection := "both".
Definition LBP : TrafficDirection := "lbp".

Record NtsPort := mkNtsPort {
  p_Name : string;
  p_Description : string;
  p_PciAddress : string;
  p_TrafficType : TrafficType;
  p_TrafficDirection : TrafficDirection;
  p_EgressPort : Z;
  p_EgressPortID : string;
  p_MAC : string;
  p_LBPMAC : string;
  p_MTU : Z;
  p_Routes : list string;
}.

Record NtsConfig := mkNtsConfig {
  nc_VMCommon : VMCommon;
  nc_NtsServer : NtsServer;
  nc_KNI : KNI;
  nc_Ports : list NtsPort;
}.

Definition set_Ports (l : list NtsPort) (nts : NtsConfig) : NtsConfig :=
  mkNtsConfig (nc_VMCommon nts) (nc_NtsServer nts) (nc_KNI nts) l.

Definition AddNewPort (port : NtsPort) (nts : NtsConfig) : NtsConfig :=
  set_Ports (nc_Ports nts ++ [port]) nts.

(** The loop of [RemovePort]: the first port with the address goes. *)
Fixpoint remove_port (pci : string) (l : list NtsPort) : list NtsPort :=
  match l with
  | [] => []
  | port :: l' => if bool_decide (p_PciAddress port = pci) then l' else port :: remove_port pci l'
  end.
Definition RemovePort (pci : string) (nts : NtsConfig) : NtsConfig :=
  set_Ports (remove_port pci (nc_Ports nts)) nts.

Definition TrafficDirectionFromInterfaceType (t : Z) : TrafficDirection + string :=
  if bool_decide (t = NetworkInterface_UPSTREAM) then inl Upstream
  else if bool_decide (t = NetworkInterface_DOWNSTREAM) then inl Downstream
  else if bool_decide (t = NetworkInterface_BIDIRECTIONAL) then inl Both
  else if bool_decide (t = NetworkInterface_BREAKOUT) then inl LBP
  else inr "Network interface type is not supported".

(** The type is [NONE] together with an error. *)
Definition InterfaceTypeFromTrafficDirection (t : TrafficDirection) : Z * error :=
  if bool_decide (t = Upstream) then (NetworkInterface_UPSTREAM, nil_err)
  else if bool_decide (t = Downstream) then (NetworkInterface_DOWNSTREAM, nil_err)
  else if bool_decide (t = Both) then (NetworkInterface_BIDIRECTIONAL, nil_err)
  else if bool_decide (t = LBP) then (NetworkInterface_BREAKOUT, nil_err)
  else (NetworkInterface_NONE, errors_New ("Unknown TrafficDirection: " +:+ t)).

Definition set_EgressPort (e : Z) (p : NtsPort) : NtsPort :=
  mkNtsPort (p_Name p) (p_Description p) (p_PciAddress p) (p_TrafficType p) (p_TrafficDirection p) e
    (p_EgressPortID p) (p_MAC p) (p_LBPMAC p) (p_MTU p) (p_Routes p).
Definition set_EgressPortID (id : string) (p : NtsPort) : NtsPort :=
  mkNtsPort (p_Name p) (p_Description p) (p_PciAddress p) (p_TrafficType p) (p_TrafficDirection p)
    (p_EgressPort p) id (p_MAC p) (p_LBPMAC p) (p_MTU p) (p_Routes p).
Definition set_LBPMAC (m : string) (p : NtsPort) : NtsPort :=
  mkNtsPort (p_Name p) (p_Description p) (p_PciAddress p) (p_TrafficType p) (p_TrafficDirection p)
    (p_EgressPort p) (p_EgressPortID p) (p_MAC p) m (p_MTU p) (p_Routes p).
Definition set_TrafficType (t : TrafficType) (p : NtsPort) : NtsPort :=
  mkNtsPort (p_Name p) (p_Description p) (p_PciAddress p) t (p_TrafficDirection p)
    (p_EgressPort p) (p_EgressPortID p) (p_MAC p) (p_LBPMAC p) (p_MTU p) (p_Routes p).
Definition add_Route (r : string) (p : NtsPort) : NtsPort :=
  mkNtsPort (p_Name p) (p_Description p) (p_PciAddress p) (p_TrafficType p) (p_TrafficDirection p)
    (p_EgressPort p) (p_EgressPortID p) (p_MAC p) (p_LBPMAC p) (p_MTU p) (p_Routes p ++ [r]).
Definition set_Pci (id : string) (p : NtsPort) : NtsPort :=
  mkNtsPort id (p_Description p) id (p_TrafficType p) (p_TrafficDirection p)
    (p_EgressPort p) (p_EgressPortID p) (p_MAC p) (p_LBPMAC p) (p_MTU p) (p_Routes p).

(** The inner loop of [Update] for a port whose fallback is [id], from index
    [idx2] on: the last match counts. *)
Fixpoint egress_of (id : string) (idx2 : Z) (l : list NtsPort) (egress : Z) : Z :=
  match l with
  | [] => egress
  | p2 :: l' =>
      egress_of id (idx2 + 1) l' (if bool_decide (id = p_PciAddress p2) then idx2 else egress)
  end.

(** One round of the outer loop; the addresses of the ports do not change. *)
Definition update_port (l : list NtsPort) (p : NtsPort) : NtsPort :=
  let p1 := if bool_decide (p_TrafficDirection p ≠ LBP) then set_LBPMAC "" p else p in
  set_EgressPort (egress_of (p_EgressPortID p) 0 l (p_EgressPort p)) p1.

Definition Update (nts : NtsConfig) : NtsConfig :=
  set_Ports (update_port (nc_Ports nts) <$> nc_Ports nts) nts.

Definition GetNetworkInterface (p : NtsPort) : PBNetworkInterface + string :=
  match InterfaceTypeFromTrafficDirection (p_TrafficDirection p) with
  | (_, Some err) =>
      inr (errors_Wrap err "failed to convert traffic direction to interface type")
  | (t, None) =>
      inl (mkPBNetworkInterface (p_Name p) (p_Description p) 0 t (p_MAC p) 0 [] (p_EgressPortID p))
  end.

Definition mismatch (pci what id : string) : string :=
  "PciAddress mismatched, NtsPort: " +:+ pci +:+ ", " +:+ what +:+ ": " +:+ id.

Definition UpdateFromNetworkInterface (p : NtsPort) (n : PBNetworkInterface) : NtsPort + string :=
  if negb (str_empty (p_PciAddress p)) && bool_decide (p_PciAddress p ≠ pbi_Id n)
  then inr (mismatch (p_PciAddress p) "NetworkInterface" (pbi_Id n))
  else match TrafficDirectionFromInterfaceType (pbi_Type n) with
       | inr err => inr (errors_Wrap err "failed to convert interface type to traffic direction")
       | inl direction =>
           inl (mkNtsPort (pbi_Id n) (pbi_Description n) (pbi_Id n) (p_TrafficType p) direction
                  (p_EgressPort p) (pbi_FallbackInterface n) (pbi_MacAddress n) (p_LBPMAC p)
                  (p_MTU p) (p_Routes p))
       end.

Definition setTrafficType (gtpTraffic ipTraffic : bool) (p : NtsPort) : NtsPort :=
  set_TrafficType (if gtpTraffic && ipTraffic then Mixed else if gtpTraffic then LTE else IP) p.

Definition setLBPMAC (tr : PBTrafficRule) (p : NtsPort) : NtsPort :=
  match pbr_Target tr ≫= pbt_Mac with
  | Some mac => if str_empty (p_LBPMAC p) && negb (str_empty mac) then set_LBPMAC mac p else p
  | None => p
  end.

Definition has_gtp (ts : option PBTrafficSelector) : bool :=
  match ts ≫= pbs_Gtp with Some _ => true | None => false end.

(** One round of the loop of [UpdateFromTrafficPolicy]: a rule that cannot be
    printed gets no route. *)
Definition add_policy_rule (acc : NtsPort * bool * bool) (tr : PBTrafficRule) : NtsPort * bool * bool :=
  let '(p, gtpTraffic, ipTraffic) := acc in
  let p := match TrafficRuleProtoToString (Some tr) with
           | inl route => if negb (str_empty route) then add_Route route p else p
           | inr _ => p
           end in
  let p := setLBPMAC tr p in
  if has_gtp (pbr_Source tr) || has_gtp (pbr_Destination tr)
  then (p, true, ipTraffic) else (p, gtpTraffic, true).

Definition UpdateFromTrafficPolicy (p : NtsPort) (tp : PBTrafficPolicy) : NtsPort + string :=
  if negb (str_empty (p_PciAddress p)) && bool_decide (p_PciAddress p ≠ pbtp_Id tp)
  then inr (mismatch (p_PciAddress p) "TrafficPolicy" (pbtp_Id tp))
  else
    let '(p, gtpTraffic, ipTraffic) :=
      foldl add_policy_rule (set_Pci (pbtp_Id tp) p, false, false) (pbtp_TrafficRules tp) in
    inl (setTrafficType gtpTraffic ipTraffic p).

(** A loaded file: what mapping it to an [NtsConfig] gives, and its sections
    with what mapping each to a [NtsPort] gives. *)
Record IniFile := mkIniFile {
  ini_MapTo : NtsConfig + string;
  ini_Sections : list (string * (NtsPort + string));
}.

(** The loop over the sections. *)
Definition section_ports (sections : list (string * (NtsPort + string))) : list NtsPort + string :=
  loop_acc sections (λ sec acc,
    if str_contains sec.1 "PORT" then
      match sec.2 with
      | inl p => inl (acc ++ [p])
      | inr err => inr (errors_Wrap err ("Failed to Map port from section " +:+ sec.1))
      end
    else inl acc) [].

(** [l[i]] for an index that may be out of range. *)
Definition index_Z {A} (l : list A) (i : Z) : option A :=
  if bool_decide (i < 0) then None else l !! Z.to_nat i.

(** The loop that fills in the addresses of the fallback ports. *)
Fixpoint fill_egress_ids (all todo : list NtsPort) : outcome (list NtsPort + string) :=
  match todo with
  | [] => Ret (inl [])
  | p :: todo' =>
      if bool_decide (Z.of_nat (length all) < p_EgressPort p) then
        Ret (inr ("EgressPort " +:+ Itoa (p_EgressPort p) +:+ " greater than amount of Ports"))
      else match index_Z all (p_EgressPort p) with
           | None => Panic "index out of range"
           | Some q =>
               match fill_egress_ids all todo' with
               | Ret (inl l) => Ret (inl (set_EgressPortID (p_PciAddress q) p :: l))
               | r => r
               end
           end
  end.

(** [NtsConfigFromFile] after [ini.ShadowLoad]. *)
Definition NtsConfig_of_ini (filePath : string) (f : IniFile) : outcome (NtsConfig + string) :=
  match ini_MapTo f with
  | inr err => Ret (inr (errors_Wrap err ("Failed to Map file " +:+ filePath)))
  | inl c =>
      match section_ports (ini_Sections f) with
      | inr err => Ret (inr err)
      | inl ports =>
          match fill_egress_ids (nc_Ports c ++ ports) (nc_Ports c ++ ports) with
          | Ret (inl l) => Ret (inl (set_Ports l c))
          | Ret (inr err) => Ret (inr err)
          | Panic e => Panic e
          end
      end
  end.

(** The text that is written: the library renders the ports as sections and
    the rest of the configuration, the code then rewrites the routes. *)
Definition port_sections (ports : list NtsPort) : list (string * NtsPort) :=
  imap (λ idx p, ("PORT" +:+ Itoa (Z.of_nat idx), p)) ports.

Definition fix_routes (output : string) : string :=
  replace_all (replace_all output "|" (nl +:+ "route = ")) ("route = " +:+ nl) "".

(** ** The devices of the host (helpers/network_interfaces.go) *)

Record NetworkDevice := mkNetworkDevice {
  nd_PCI : string;
  nd_Name : string;
  nd_Manufacturer : string;
  nd_MAC : string;
  nd_Description : string;
  nd_FallbackInterface : string;
  nd_Driver : Z;
  nd_Direction : Z;
}.

(** [csv.Reader.ReadAll] with the separator a space and quotes that must close:
    where in a field the reader is. *)
Inductive csv_state := CsvRecord | CsvField | CsvPlain | CsvQuoted | CsvQuote.

Definition quote : ascii := "034"%char.

Record csv_acc := mkCsv {
  csv_st : csv_state;
  csv_field : string;
  csv_rec : list string;
  csv_recs : list (list string);
}.

Definition csv_step (c : ascii) (a : csv_acc) : csv_acc + string :=
  let field := csv_field a in
  let rec := csv_rec a in
  let recs := csv_recs a in
  let next_field := mkCsv CsvField "" (rec ++ [field]) recs in
  let next_record := mkCsv CsvRecord "" [] (recs ++ [rec ++ [field]]) in
  let more st := mkCsv st (field +:+ String c "") rec recs in
  match csv_st a with
  | CsvQuoted =>
      inl (if bool_decide (c = quote) then mkCsv CsvQuote field rec recs else more CsvQuoted)
  | CsvQuote =>
      if bool_decide (c = quote) then inl (more CsvQuoted)
      else if bool_decide (c = " "%char) then inl next_field
      else if bool_decide (c = newline) then inl next_record
      else inr "extraneous or missing quote in quoted-field"
  | CsvPlain =>
      if bool_decide (c = quote) then inr "bare quote in non-quoted-field"
      else inl (if bool_decide (c = " "%char) then next_field
                else if bool_decide (c = newline) then next_record
                else more CsvPlain)
  | st =>
      inl (if bool_decide (c = quote) then mkCsv CsvQuoted "" rec recs
           else if bool_decide (c = " "%char) then next_field
           else if bool_decide (c = newline) then
             match st with
             | CsvRecord => mkCsv CsvRecord "" [] recs
             | _ => next_record
             end
           else more CsvPlain)
  end.

Definition csv_ReadAll (s : string) : list (list string) + string :=
  match loop_acc (String.list_ascii_of_string s) csv_step (mkCsv CsvRecord "" [] []) with
  | inr err => inr err
  | inl a =>
      match csv_st a with
      | CsvRecord => inl (csv_recs a)
      | CsvQuoted => inr "extraneous or missing quote in quoted-field"
      | _ => inl (csv_recs a ++ [csv_rec a ++ [csv_field a]])
      end
  end.

(** The records of [lspci] that have at least four members. *)
Definition devices_of_records (records : list (list string)) : list NetworkDevice :=
  omap (λ rec, match rec with
               | pci :: _ :: manufacturer :: devName :: _ =>
                   Some (mkNetworkDevice pci "" manufacturer "" devName "" 0 0)
               | _ => None
               end) records.

(** The expression [[0-9]{0,4}:[0-9a-f]{2}:[0-9a-f]{2}\.[0-9a-f]{1}], matched at the
    head of a text: up to four digits, then the classes in turn. *)
Definition is_lower_hex (c : ascii) : bool :=
  is_digit c || (let n := nat_of_ascii c in bool_decide (97 ≤ n ≤ 102)%nat).

Fixpoint match_classes (cls : list (ascii → bool)) (s : string) : option string :=
  match cls, s with
  | [], _ => Some ""
  | p :: cls', String c s' => if p c then String c <$> match_classes cls' s' else None
  | _ :: _, EmptyString => None
  end.

Definition pci_tail : list (ascii → bool) :=
  [Ascii.eqb ":"; is_lower_hex; is_lower_hex; Ascii.eqb ":"; is_lower_hex; is_lower_hex;
   Ascii.eqb "."; is_lower_hex].

Fixpoint match_pci_head (digits : nat) (s : string) : option string :=
  match digits, s with
  | S d, String c s' => if is_digit c then String c <$> match_pci_head d s' else match_classes pci_tail s
  | _, _ => match_classes pci_tail s
  end.

(** [pciRegexp.FindString]: the leftmost match, or the empty text. *)
Fixpoint find_pci (s : string) : string :=
  match match_pci_head 4 s with
  | Some m => m
  | None => match s with
            | EmptyString => ""
            | String _ s' => find_pci s'
            end
  end.

(** A device with the members of its kernel interface filled in. *)
Definition fill_kernel (pci name mac : string) (d : NetworkDevice) : NetworkDevice :=
  if bool_decide (nd_PCI d = pci) then
    mkNetworkDevice (nd_PCI d) name (nd_Manufacturer d) mac
      ("[" +:+ name +:+ "] " +:+ nd_Description d) (nd_FallbackInterface d)
      NetworkInterface_KERNEL (nd_Direction d)
  else d.

(** A device with the members of its port filled in. *)
Definition fill_dpdk (port : NtsPort) (d : NetworkDevice) : NetworkDevice :=
  if bool_decide (nd_PCI d = p_PciAddress port) then
    mkNetworkDevice (nd_PCI d) (nd_Name d) (nd_Manufacturer d) (p_MAC port) (p_Description port)
      (p_EgressPortID port) NetworkInterface_USERSPACE
      (InterfaceTypeFromTrafficDirection (p_TrafficDirection port)).1
  else d.

Definition ToNetworkInterface (dev : NetworkDevice) : PBNetworkInterface :=
  mkPBNetworkInterface (nd_PCI dev) (nd_Description dev) (nd_Driver dev) (nd_Direction dev)
    (nd_MAC dev) 0 [] (nd_FallbackInterface dev).

Definition ToNetworkInterfaces (devs : list NetworkDevice) : list PBNetworkInterface :=
  ToNetworkInterface <$> devs.

(** ** The surroundings *)

(** The members of [Config] that the services read (ela.go). *)
Record ElaConfig := mkElaConfig {
  EDAEndpoint : string;
  NtsConfigPath : string;
  DNSIP : string;
  PCIBlacklist : list string;
  InterfaceMTU : Z;
}.

(** A listed container; what inspecting one tells ([Config] may be nil); an
    interface of a domain: its source, vhost-user source and UNIX socket may
    each be nil, and so may its hardware address. *)
Record ListedContainer := mkContainer { c_ID : string; c_Names : list string }.
Record ContainerJSON := mkContainerJSON {
  cj_Running : bool;
  cj_Status : string;
  cj_SandboxKey : string;
  cj_Labels : option (gmap string string);
}.
Record DomIface := mkDomIface {
  di_Source : option (option (option string));
  di_MAC : option string;
}.

(** [container.Resources]. *)
Record Resources := mkResources {
  CPUShares : Z;
  Memory : Z;
  MemorySwap : Z;
  PidsLimit : Z;
}.

Record DNSARecordSet := mkDNSARecordSet { dns_Name : string; dns_Values : list string }.

Inductive ext : Type → Type :=
(* Docker; [ClientClose nil] tells whether the client is nil *)
| NewClient : ext unit
| ClientClose (is_nil : bool) : ext unit
| ContainerUpdate (name : string) (r : Resources) : ext unit
| ContainerStart (name : string) : ext unit
| ContainerStop (name : string) (seconds : Z) : ext unit
| ContainerInspect (name : string) : ext ContainerJSON
| ContainerList : ext (list ListedContainer)
(* libvirt *)
| LibvirtConnect : ext unit
| LibvirtClose : ext unit
| LookupDomainByName (name : string) : ext Z
| DomainFree (dom : Z) : ext unit
| DomainXML (dom : Z) : ext (list DomIface)
(* programs and files of the host *)
| NsenterEther (nsPath : string) : ext string
| DpdkDevbind (params : list string) : ext unit
| StatVhost : ext bool
| LspciAvailable : ext unit
| LspciOutput : ext string
| HostInterfaces : ext (list (string * list Z))
| ReadUevent (iface : string) : ext (option string)
| ShadowLoad (path : string) : ext IniFile
| WriteFile (path text : string) : ext unit
(* how often the context of a request is found alive, and its error after that *)
| CtxAlive : ext (nat * string)
(* the dataplane agent and EdgeDNS *)
| EdaSet (endpoint : string) (policy : PBTrafficPolicy) : ext unit
| DnsSocket : ext bool
| DnsDial : ext unit
| DnsClose : ext unit
| DnsSetHost (recordType : Z) (fqdn : string) (addresses : list (list Z)) : ext unit
| DnsDelete (recordType : Z) (fqdn : string) : ext unit.

(** An event with its type forgotten. *)
Inductive event : Type := Ev (A : Type) (e : ext A).
Arguments Ev {A} e.

(** The world; [ini_render] is what the ini library makes of the sections and
    the rest of a configuration. *)
Class ElaWorld := {
  EXT : Type;
  answer : ∀ {A}, ext A → EXT → (A + gerror) * EXT;
  ini_render : list (string * NtsPort) → NtsConfig → string + string;
}.

(** [InterfacesData]. *)
Record InterfacesData := mkInterfacesData {
  TrafficPolicies : gmap string PBTrafficPolicy;
  NetworkInterfaces : option (list PBNetworkInterface);
}.

Record interfaceData := mkinterfaceData {
  TrafficPolicy : PBTrafficPolicy;
  NetworkInterface : PBNetworkInterface;
}.

Definition ntsContainerName : string := "nts".
Definition ntsVhostFile : string := "/var/lib/appliance/nts/qemu/usvhost-1".
Definition dnsContainerName : string := "mec-app-edgednssvr".

Definition ntsConfigTemplate : NtsConfig :=
  mkNtsConfig (mkVMCommon 32 2 ntsVhostFile) (mkNtsServer "/var/lib/appliance/nts/control-socket")
    (mkKNI 32) [].

(** ** Data of the interfaces (nts_interface_management.go) *)

Definition validate (data : InterfacesData) : error :=
  match NetworkInterfaces data with
  | None => errors_New "network interfaces are nil"
  | Some _ => nil_err
  end.

Definition ifaces_of (data : InterfacesData) : list PBNetworkInterface :=
  default [] (NetworkInterfaces data).

(** One round of [toMap]; interfaces of the kernel are skipped. *)
Definition map_iface (data : InterfacesData) (d : gmap string interfaceData)
    (netIf : PBNetworkInterface) : gmap string interfaceData :=
  if bool_decide (pbi_Driver netIf = NetworkInterface_KERNEL) then d
  else match TrafficPolicies data !! pbi_Id netIf with
       | Some policy => <[pbi_Id netIf := mkinterfaceData policy netIf]> d
       | None =>
           <[pbi_Id netIf := mkinterfaceData (mkPBTrafficPolicy (pbi_Id netIf) []) netIf]> d
       end.

Definition toMap (data : InterfacesData) : gmap string interfaceData :=
  foldl (map_iface data) ∅ (ifaces_of data).

(** The addresses of [getDevicesToUnbind], for the current interfaces [nis]. *)
Definition devices_to_unbind (updates nis : list PBNetworkInterface) : list string :=
  concat ((λ ifaceUpdate,
    concat ((λ ifaceCurrent,
      if bool_decide (pbi_Id ifaceUpdate = pbi_Id ifaceCurrent)
         && (bool_decide (pbi_Driver ifaceUpdate = NetworkInterface_KERNEL)
             && bool_decide (pbi_Driver ifaceCurrent = NetworkInterface_USERSPACE))
      then [pbi_Id ifaceUpdate] else []) <$> nis)) <$> updates).

Definition getDevicesToBind (data : InterfacesData) : list string :=
  concat ((λ ifaceUpdate,
    if bool_decide (pbi_Driver ifaceUpdate = NetworkInterface_USERSPACE)
    then [pbi_Id ifaceUpdate] else []) <$> ifaces_of data).

(** The port of one entry of the map. *)
Definition make_port (mtu : Z) (pci : string) (d : interfaceData) : NtsPort + string :=
  let port := mkNtsPort "" "" "" "" "" 0 "" "" "" mtu [] in
  match UpdateFromTrafficPolicy port (TrafficPolicy d) with
  | inr err =>
      inr (errors_Wrap err ("failed to create port from traffic policy (pci: " +:+ pci +:+ ")"))
  | inl port =>
      match UpdateFromNetworkInterface port (NetworkInterface d) with
      | inr err =>
          inr (errors_Wrap err
                 ("failed to create port from network interface (pci: " +:+ pci +:+ ")"))
      | inl port => inl port
      end
  end.

(** The configuration that [makeAndSaveNtsConfig] saves, for the entries in
    the order of the loop. *)
Definition make_config (mtu : Z) (entries : list (string * interfaceData)) : NtsConfig + string :=
  match loop_acc entries (λ kd cfg,
          match make_port mtu kd.1 kd.2 with
          | inl port => inl (AddNewPort port cfg)
          | inr err => inr err
          end) ntsConfigTemplate with
  | inl cfg => inl (Update cfg)
  | inr err => inr err
  end.

Section agent.
Context `{ElaWorld, GoEnv} (cfg : ElaConfig).

(** The state of the agent, the world, and what was asked of it and granted. *)
Record Ela := mkEla {
  InterfaceConfigurationData : InterfacesData;
  ela_ext : EXT;
  ela_trace : list (event * bool);
}.

Definition call {A} (e : ext A) : GoM Ela (A + gerror) := λ s,
  let '(r, x) := answer e (ela_ext s) in
  (Ret r, mkEla (InterfaceConfigurationData s) x
            (ela_trace s ++ [(Ev e, match r with inl _ => true | inr _ => false end)])).

(** Goes on with the value, or returns the error. *)
Definition try {A R} (m : GoM Ela (A + gerror)) (fail : gerror → R) (k : A → GoM Ela R)
    : GoM Ela R :=
  r ← m; match r with inr e => mret (fail e) | inl a => k a end.

(** The same for a call that returns only an error. *)
Definition check {R} (m : GoM Ela (option gerror)) (fail : gerror → R) (k : GoM Ela R)
    : GoM Ela R :=
  r ← m; match r with Some e => mret (fail e) | None => k end.

(** [errors.Wrap]: a plain error. *)
Definition wrap (msg : string) (e : gerror) : option gerror :=
  Some (PlainErr (errors_Wrap (err_text e) msg)).
Definition wrap_r {A} (msg : string) (e : gerror) : A + gerror :=
  inr (PlainErr (errors_Wrap (err_text e) msg)).

Definition result_error {A} (r : A + gerror) : option gerror :=
  match r with inl _ => None | inr e => Some e end.

(** ** Hardware addresses of applications (mac_provider.go) *)

(** The loop over the interfaces of a domain. *)
Fixpoint find_vhostuser (ifaces : list DomIface) : outcome (string + gerror) :=
  match ifaces with
  | [] => Ret (inr (PlainErr "Interface not found"))
  | i :: ifaces' =>
      match di_Source i with
      | None => Panic "invalid memory address or nil pointer dereference"
      | Some (Some (Some path)) =>
          if bool_decide (path = ntsVhostFile) then
            match di_MAC i with
            | Some mac => Ret (inl mac)
            | None => Panic "invalid memory address or nil pointer dereference"
            end
          else find_vhostuser ifaces'
      | Some _ => find_vhostuser ifaces'
      end
  end.

Definition lift {A} (o : outcome A) : GoM Ela A :=
  match o with Ret a => mret a | Panic e => go_panic e end.

Definition getMACForVMvhostuser (appID : string) : GoM Ela (string + gerror) :=
  try (call LibvirtConnect) inr (λ _,
    r ← try (call (LookupDomainByName appID)) inr (λ dom,
          r ← try (call (DomainXML dom)) inr (λ ifaces, lift (find_vhostuser ifaces));
          _ ← call (DomainFree dom);
          mret r);
    _ ← call LibvirtClose;
    mret r).

(** The loop over the containers. *)
Fixpoint find_container (appName : string) (containers : list ListedContainer)
    : GoM Ela (string + gerror) :=
  match containers with
  | [] => mret (inr (PlainErr "Container not found"))
  | c :: rest =>
      match c_Names c with
      | [] => find_container appName rest
      | name :: _ =>
          r ← call (ContainerInspect (c_ID c));
          match r with
          | inr _ => find_container appName rest
          | inl cj =>
              match name with
              | EmptyString => go_panic "slice bounds out of range"
              | String _ name' =>
                  if bool_decide (name' = appName) then mret (inl (cj_SandboxKey cj))
                  else match cj_Labels cj with
                       | None => find_container appName rest
                       | Some labels =>
                           if bool_decide (labels !! "app-id" = Some appName)
                           then mret (inl (cj_SandboxKey cj))
                           else find_container appName rest
                       end
              end
          end
      end
  end.

Definition getNetNamespaceForContainer (appName : string) : GoM Ela (string + gerror) :=
  try (call NewClient) inr (λ _,
  try (call ContainerList) inr (λ containers, find_container appName containers)).

Definition getMACForContainerKNI (appID : string) : GoM Ela (string + gerror) :=
  try (getNetNamespaceForContainer appID) inr (λ nsPath,
  try (call (NsenterEther nsPath)) (wrap_r "failed to obtain mac") (λ out,
    let mac := trim_newlines out in
    if str_empty mac then mret (inr (PlainErr "vEth interface not found"))
    else mret (inl mac))).

Definition GetMacAddress (appID : string) : GoM Ela (string + gerror) :=
  r ← getMACForVMvhostuser appID;
  match r with
  | inl mac => mret (inl mac)
  | inr _ =>
      r ← getMACForContainerKNI appID;
      match r with
      | inl mac => mret (inl mac)
      | inr _ => mret (inr (PlainErr ("MAC address not found for: " +:+ appID)))
      end
  end.

(** ** Interfaces of the host *)

Definition GetNetworkPCIs : GoM Ela (list NetworkDevice + gerror) :=
  try (call LspciAvailable) (λ _, inr (PlainErr "command `lspci` is not available")) (λ _,
  try (call LspciOutput)
      (λ e, inr (PlainErr ("Failed to exec lspci command: " +:+ err_text e))) (λ out,
    match csv_ReadAll out with
    | inr err =>
        mret (inr (PlainErr ("Failed to parse CSV because: " +:+ err +:+ ". Input: " +:+ out)))
    | inl [] => mret (inr (PlainErr "No entries in CSV output from lspci"))
    | inl records => mret (inl (devices_of_records records))
    end)).

(** The loop of [FillMACAddrForKernelDevs]. *)
Fixpoint fill_kernel_devs (ifs : list (string * list Z)) (devs : list NetworkDevice)
    : GoM Ela (list NetworkDevice + gerror) :=
  match ifs with
  | [] => mret (inl devs)
  | (name, hw) :: ifs' =>
      r ← call (ReadUevent name);
      match r with
      | inr err =>
          mret (wrap_r ("Failed to load uevent file: /var/host_net_devices/" +:+ name
                        +:+ "/device/uevent") err)
      | inl None => fill_kernel_devs ifs' devs
      | inl (Some content) =>
          fill_kernel_devs ifs'
            (fill_kernel (find_pci content) name (HardwareAddr_String hw) <$> devs)
      end
  end.

Definition FillMACAddrForKernelDevs (devs : list NetworkDevice)
    : GoM Ela (list NetworkDevice + gerror) :=
  try (call HostInterfaces) (wrap_r "failed to enter namespace") (λ ifs,
    fill_kernel_devs ifs devs).

Definition NtsConfigFromFile (filePath : string) : GoM Ela (NtsConfig + gerror) :=
  try (call (ShadowLoad filePath)) (wrap_r ("Failed to ShadowLoad file " +:+ filePath)) (λ f,
    r ← lift (NtsConfig_of_ini filePath f);
    mret (match r with inl c => inl c | inr err => inr (PlainErr err) end)).

Definition fillMACAddrForDPDKDevs (devs : list NetworkDevice)
    : GoM Ela (list NetworkDevice + gerror) :=
  try (NtsConfigFromFile (NtsConfigPath cfg)) (wrap_r "failed to read NTS config") (λ ntsCfg,
    mret (inl (foldl (λ devs port, fill_dpdk port <$> devs) devs (nc_Ports ntsCfg)))).

Definition getNetworkDevices : GoM Ela (list NetworkDevice + gerror) :=
  try GetNetworkPCIs inr (λ devs,
  try (fillMACAddrForDPDKDevs devs) inr (λ devs,
  try (FillMACAddrForKernelDevs devs) inr (λ devs, mret (inl devs)))).

Definition IsPCIportBlacklisted (pci : string) : bool :=
  existsb (λ port, bool_decide (port = pci)) (PCIBlacklist cfg).

Definition getNetworkInterfaces : GoM Ela (list PBNetworkInterface + gerror) :=
  try getNetworkDevices (wrap_r "failed to obtain network devices") (λ devs,
    mret (inl (ToNetworkInterfaces (filter (λ d, negb (IsPCIportBlacklisted (nd_PCI d))) devs)))).

(** ** Containers (nts_interface_management.go) *)

Definition updateContainer (containerName : string) (r : Resources) : GoM Ela (option gerror) :=
  try (call NewClient) Some (λ _,
  r ← call (ContainerUpdate containerName r); mret (result_error r)).

Definition startContainer (containerName : string) : GoM Ela (option gerror) :=
  try (call NewClient) Some (λ _,
  r ← call (ContainerStart containerName); mret (result_error r)).

Definition stopContainer (containerName : string) : GoM Ela (option gerror) :=
  try (call NewClient) Some (λ _,
  r ← call (ContainerStop containerName 10); mret (result_error r)).

(** [errors.Wrap] of nil is nil. *)
Definition isNTSrunning : GoM Ela (option gerror) :=
  r ← call NewClient;
  match r with
  | inr err =>
      r ← call (ClientClose true);
      mret (match r with inr closeErr => wrap (err_text closeErr) err | inl _ => Some err end)
  | inl _ =>
      r ← call (ContainerInspect ntsContainerName);
      match r with
      | inr err =>
          r ← call (ClientClose false);
          mret (match r with inr closeErr => wrap (err_text closeErr) err | inl _ => Some err end)
      | inl containerData =>
          r ← call (ClientClose false);
          if cj_Running containerData then mret None
          else mret (match r with
                     | inr err => Some err
                     | inl _ => Some (PlainErr ("NTS container is not running, status: "
                                                +:+ cj_Status containerData))
                     end)
      end
  end.

Definition isAnyAppRunning : bool := false.

Definition SaveToFile (nts : NtsConfig) (filePath : string) : GoM Ela (option gerror) :=
  match ini_render (port_sections (nc_Ports nts)) nts with
  | inr err => mret (Some (PlainErr err))
  | inl text => r ← call (WriteFile filePath (fix_routes text)); mret (result_error r)
  end.

Definition makeAndSaveNtsConfig (data : gmap string interfaceData) : GoM Ela (option gerror) :=
  match make_config (InterfaceMTU cfg) (map_range ["makeAndSaveNtsConfig"] data) with
  | inr err => mret (Some (PlainErr err))
  | inl c => SaveToFile c (NtsConfigPath cfg)
  end.

Definition bind_params (pcis : list string) (driver : Z) : list string :=
  (if bool_decide (driver = NetworkInterface_KERNEL) then ["-b"; "none"] else ["-b"; "igb_uio"])
  ++ pcis.

Definition rebindDevices (pcis : list string) (driver : Z) : GoM Ela (option gerror) :=
  let bindParams := bind_params pcis driver in
  if bool_decide (length bindParams = 2%nat) then mret None
  else try (call (DpdkDevbind bindParams)) (wrap "devices bind failure") (λ _, mret None).

Definition stopDNSAndRemoveRules : GoM Ela (option gerror) :=
  check (stopContainer dnsContainerName) (wrap "failed to stop Edge DNS") (
  r ← isNTSrunning;
  match r with
  | None =>
      try (call (EdaSet (EDAEndpoint cfg) (mkPBTrafficPolicy dnsContainerName [])))
          (wrap "failed to remove TrafficRules for Edge DNS") (λ _, mret None)
  | Some _ => mret None
  end).

(** The polls of [restartDNSAndSetRules] until the address is known, as long
    as the context is alive. *)
Fixpoint wait_dns_mac (alive : nat) (ctxErr : string) : GoM Ela (string + gerror) :=
  match alive with
  | O => mret (wrap_r "context error while waiting for Edge DNS KNI" (PlainErr ctxErr))
  | S alive' =>
      check isNTSrunning (wrap_r "NTS failed to start") (
      r ← getMACForContainerKNI dnsContainerName;
      match r with
      | inl mac => mret (inl mac)
      | inr _ => wait_dns_mac alive' ctxErr
      end)
  end.

Definition default_resources : Resources := mkResources 1024 134217728 134217728 100.

(** How long the context of the request lives. *)
Definition ctx_alive : GoM Ela (nat * string) :=
  r ← call CtxAlive;
  mret (match r with inl a => a | inr e => (0%nat, err_text e) end).

(** The rules of EdgeDNS. *)
Definition dns_rule (descr ip mac : string) (source : option PBTrafficSelector) : PBTrafficRule :=
  mkPBTrafficRule descr 5 source
    (Some (mkPBTrafficSelector "" None (Some (mkPBIPFilter ip 32 0 0 "")) None))
    (Some (mkPBTrafficTarget "" ACCEPT (Some mac) None)).

Definition dns_policy (ip mac : string) : PBTrafficPolicy :=
  mkPBTrafficPolicy dnsContainerName
    [dns_rule "Edge DNS svr - IP traffic" ip mac None;
     dns_rule "Edge DNS svr - LTE traffic" ip mac
       (Some (mkPBTrafficSelector "" None None (Some (mkPBGTPFilter "0.0.0.0" 0 []))))].

Definition restartDNSAndSetRules : GoM Ela (option gerror) :=
  check (updateContainer dnsContainerName default_resources)
        (wrap "failed to update Edge DNS container") (
  check (startContainer dnsContainerName) (wrap "failed to start Edge DNS") (
  alive ← ctx_alive;
  try (wait_dns_mac alive.1 alive.2) Some (λ dnsKNImac,
  try (call (EdaSet (EDAEndpoint cfg) (dns_policy (DNSIP cfg) dnsKNImac)))
      (wrap "failed to set TrafficRules for Edge DNS") (λ _, mret None)))).

(** The polls of [waitForNTS]. *)
Fixpoint wait_nts (alive : nat) (ctxErr : string) : GoM Ela (option gerror) :=
  match alive with
  | O => mret (Some (PlainErr ctxErr))
  | S alive' =>
      check isNTSrunning (wrap "NTS failed to start") (
      try (call StatVhost) (wrap "failed to stat NTS' usvhost file") (λ there,
      if there : bool then mret None else wait_nts alive' ctxErr))
  end.

Definition waitForNTS : GoM Ela (option gerror) :=
  alive ← ctx_alive; wait_nts alive.1 alive.2.

Definition set_interfaces (l : option (list PBNetworkInterface)) : GoM Ela unit :=
  go_modify (λ s, mkEla (mkInterfacesData (TrafficPolicies (InterfaceConfigurationData s)) l)
                    (ela_ext s) (ela_trace s)).

Definition startNTSandDNS : GoM Ela (option gerror) :=
  check (updateContainer ntsContainerName default_resources)
        (wrap "failed to update NTS container") (
  check (startContainer ntsContainerName) (wrap "failed to start NTS") (
  _ ← set_interfaces None;
  check waitForNTS (wrap "NTS did not start fully")
  restartDNSAndSetRules)).

Definition configureNTS : GoM Ela (option gerror) :=
  s ← go_get;
  let data := InterfaceConfigurationData s in
  match validate data with
  | Some err => mret (wrap "invalid configuration data" (PlainErr err))
  | None =>
      try getNetworkInterfaces (wrap "failed to get list of devices to unbind") (λ nis,
      let devsToUnbind := devices_to_unbind (ifaces_of data) nis in
      let devsToBind := getDevicesToBind data in
      let mappedConfig := toMap data in
      if isAnyAppRunning
      then mret (Some (PlainErr "there's at least 1 app currently running")) else
      check (makeAndSaveNtsConfig mappedConfig) (wrap "failed to make new NTS config") (
      check stopDNSAndRemoveRules (wrap "failed to stop Edge DNS") (
      check (stopContainer ntsContainerName) (wrap "failed to stop NTS") (
      check (rebindDevices devsToUnbind NetworkInterface_KERNEL)
            (wrap "failed to unbind devices") (
      check (rebindDevices devsToBind NetworkInterface_USERSPACE)
            (wrap "failed to bind devices to DPDK driver")
      startNTSandDNS)))))
  end.

(** ** Services *)

(** interface_service.go: errors that are returned and not nil. *)
Definition InterfaceService_Update : GoM Ela (option gerror) :=
  mret (Some (StatusErr Unimplemented "not implemented")).

Definition InterfaceService_BulkUpdate (networkInterfaces : option (list PBNetworkInterface))
    : GoM Ela (option gerror) :=
  match ValidateNetworkInterfaces networkInterfaces with
  | Some err => mret (Some (PlainErr err))
  | None =>
      _ ← set_interfaces networkInterfaces;
      check configureNTS (wrap "failed to configure NTS") (mret None)
  end.

Definition GetAll : GoM Ela (list PBNetworkInterface + gerror) :=
  try getNetworkInterfaces (wrap_r "failed to obtain network interfaces") (λ nis, mret (inl nis)).

Definition InterfaceService_Get (id : string) : GoM Ela (PBNetworkInterface + gerror) :=
  if str_empty id then mret (inr (StatusErr InvalidArgument "empty id")) else
  try getNetworkInterfaces (wrap_r "failed to obtain network interfaces") (λ nis,
    mret (match List.find (λ n, bool_decide (pbi_Id n = id)) nis with
          | Some n => inl n
          | None => inr (StatusErr NotFound "interface not found")
          end)).

(** interface_policy_service.go *)
Definition InterfacePolicy_Set (tp : PBTrafficPolicy) : GoM Ela (option gerror) :=
  match VerifyTrafficPolicy (Some tp) with
  | Some err => mret (Some (PlainErr err))
  | None =>
      _ ← go_modify (λ s, let d := InterfaceConfigurationData s in
            mkEla (mkInterfacesData (<[pbtp_Id tp := tp]> (TrafficPolicies d)) (NetworkInterfaces d))
              (ela_ext s) (ela_trace s));
      mret None
  end.

(** application_policy_service.go: the policy with the address in every rule. *)
Definition set_target_mac (mac : string) (tr : PBTrafficRule) : PBTrafficRule :=
  mkPBTrafficRule (pbr_Description tr) (pbr_Priority tr) (pbr_Source tr) (pbr_Destination tr)
    ((λ t, mkPBTrafficTarget (pbt_Description t) (pbt_Action t) (Some mac) (pbt_Ip t))
     <$> pbr_Target tr).

Definition policy_with_mac (mac : string) (tp : PBTrafficPolicy) : PBTrafficPolicy :=
  mkPBTrafficPolicy (pbtp_Id tp) (set_target_mac mac <$> pbtp_TrafficRules tp).

Definition ApplicationPolicy_Set (tp : PBTrafficPolicy) : GoM Ela (option gerror) :=
  match VerifyTrafficPolicy (Some tp) with
  | Some err => mret (Some (StatusErr InvalidArgument err))
  | None =>
      try (GetMacAddress (pbtp_Id tp))
          (λ e, Some (StatusErr NotFound ("ApplicationPolicyService Set: MAC not found for '"
                        +:+ pbtp_Id tp +:+ "' because: " +:+ err_text e))) (λ destMacAddress,
      match VerifyMACAddress destMacAddress with
      | Some err =>
          mret (Some (StatusErr NotFound ("ApplicationPolicyService Set: MAC '"
                  +:+ destMacAddress +:+ "' format is incorrect because: " +:+ err)))
      | None =>
          r ← call (EdaSet (EDAEndpoint cfg) (policy_with_mac destMacAddress tp));
          mret (result_error r)
      end)
  end.

(** dns_service.go *)
Definition startClient : GoM Ela (option gerror) :=
  r ← call DnsSocket;
  match r with
  | inl true =>
      try (call DnsDial)
          (λ e, Some (StatusErr FailedPrecondition
                        ("Failed to connect to server: " +:+ err_text e))) (λ _, mret None)
  | _ => mret (Some (StatusErr FailedPrecondition "Invalid API socket: /run/edgedns.sock"))
  end.

(** A call of EdgeDNS on a connection of its own. *)
Definition with_dns_client (e : ext unit) (msg : string) : GoM Ela (option gerror) :=
  check startClient Some (
  r ← call e;
  _ ← call DnsClose;
  mret (match r with
        | inl _ => None
        | inr err => Some (StatusErr FailedPrecondition (msg +:+ err_text err))
        end)).

Definition transform2HostRecord (inputRecord : DNSARecordSet)
    : (Z * string * list (list Z)) + gerror :=
  match loop_acc (dns_Values inputRecord) (λ ipString acc,
          match ParseIP ipString with
          | None => inr (PlainErr "wrong IP address provided")
          | Some ip => inl (acc ++ [ip])
          end) [] with
  | inl addrs => inl (1, dns_Name inputRecord, addrs)
  | inr err => inr err
  end.

Definition transform2Record (inputRecord : DNSARecordSet) : Z * string :=
  (1, dns_Name inputRecord).

Definition SetA (input : DNSARecordSet) : GoM Ela (option gerror) :=
  match transform2HostRecord input with
  | inr err => mret (Some err)
  | inl (t, fqdn, addrs) => with_dns_client (DnsSetHost t fqdn addrs) "Failed to register host record: "
  end.

Definition DeleteA (input : DNSARecordSet) : GoM Ela (option gerror) :=
  let '(t, fqdn) := transform2Record input in
  with_dns_client (DnsDelete t fqdn) "Failed to delete host record: ".

Definition SetForwarders : GoM Ela (option gerror) :=
  mret (Some (StatusErr Unimplemented "not implemented")).
Definition DeleteForwarders : GoM Ela (option gerror) :=
  mret (Some (StatusErr Unimplemented "not implemented")).
End agent.

(** ** Facts about the configuration *)

(** The text of a rule in the configuration. *)
Definition route_of (tr : PBTrafficRule) : option string :=
  match TrafficRuleProtoToString (Some tr) with
  | inl route => if str_empty route then None else Some route
  | inr _ => None
  end.

(** A verified rule has a text. *)
Lemma verified_selector_prints ts source :
  VerifyTrafficSelector ts = None → ∃ s, trafficSelectorToString (Some ts) source = inl s.
Proof.
  intros (_ & _ & Hip & _)%VerifyTrafficSelector_ok. unfold trafficSelectorToString.
  destruct (pbs_Gtp ts) as [gtp|], (pbs_Ip ts) as [ip|]; rewrite ?gtp_printed.
  all: try (destruct (VerifyIPFilter_ok ip (Hip ip eq_refl)) as (_ & Hle & _);
            rewrite (ip_printed source ip Hle)).
  all: destruct (_ && _); eauto.
Qed.

Lemma verified_rule_prints tr :
  VerifyTrafficRule tr = None → ∃ s, TrafficRuleProtoToString (Some tr) = inl s ∧ str_empty s = false.
Proof.
  intros (Hsel & _)%VerifyTrafficRule_ok. unfold TrafficRuleProtoToString.
  assert (∀ s ts source msg, str_empty s = false →
    pbr_Source tr = ts ∨ pbr_Destination tr = ts →
    ∃ s', add_selector s ts source msg = inl s' ∧ str_empty s' = false) as Hadd.
  { intros s ts source msg Hs Hts. unfold add_selector. destruct ts as [ts|]; [|eauto].
    destruct (verified_selector_prints ts source (Hsel ts Hts)) as [sel ->]. eexists. split; [done|].
    apply bool_decide_eq_false. apply bool_decide_eq_false in Hs. by destruct s. }
  destruct (Hadd ("prio:" +:+ Itoa (pbr_Priority tr)) (pbr_Source tr) true
              "failed to convert Source traffic selector to string") as (s1 & -> & H1); [done|auto|].
  destruct (Hadd s1 (pbr_Destination tr) false
              "failed to convert Destination traffic selector to string") as (s2 & -> & H2); [done|auto|].
  destruct (_ && _); [|eauto]. eexists. split; [done|].
  apply bool_decide_eq_false. apply bool_decide_eq_false in H2. by destruct s2.
Qed.

(** What a port takes from a policy. *)
Lemma policy_rules_port rules p g i p' g' i' :
  foldl add_policy_rule (p, g, i) rules = (p', g', i') →
  p_PciAddress p' = p_PciAddress p ∧ p_EgressPort p' = p_EgressPort p ∧ p_MTU p' = p_MTU p ∧
  p_Routes p' = p_Routes p ++ omap route_of rules ∧
  g' = g || existsb (λ tr, has_gtp (pbr_Source tr) || has_gtp (pbr_Destination tr)) rules ∧
  i' = i || existsb (λ tr, negb (has_gtp (pbr_Source tr) || has_gtp (pbr_Destination tr))) rules.
Proof.
  revert p g i. induction rules as [|tr rules IH]; intros p g i; cbn [foldl].
  { intros [= <- <- <-]. cbn. by rewrite app_nil_r, !orb_false_r. }
  intros E. assert (∃ q, add_policy_rule (p, g, i) tr =
    (q, g || (has_gtp (pbr_Source tr) || has_gtp (pbr_Destination tr)),
        i || negb (has_gtp (pbr_Source tr) || has_gtp (pbr_Destination tr))) ∧
    p_PciAddress q = p_PciAddress p ∧ p_EgressPort q = p_EgressPort p ∧ p_MTU q = p_MTU p ∧
    p_Routes q = p_Routes p ++ omap route_of [tr]) as (q & Hq & H1 & H2 & H3 & H4).
  { unfold add_policy_rule, route_of. cbn [omap list_omap].
    set (p1 := match TrafficRuleProtoToString (Some tr) with inl _ => _ | inr _ => _ end).
    exists (setLBPMAC tr p1). split.
    { destruct (has_gtp _ || has_gtp _); cbn [negb]; by rewrite ?orb_true_r, ?orb_false_r. }
    unfold setLBPMAC. destruct (_ ≫= pbt_Mac); [destruct (_ && _)|]; subst p1;
      (destruct (TrafficRuleProtoToString (Some tr)) as [route|]; [destruct (str_empty route)|]);
      cbn; by rewrite ?app_nil_r. }
  rewrite Hq in E. destruct (IH _ _ _ E) as (-> & -> & -> & -> & -> & ->). cbn [existsb].
  rewrite H4, <- app_assoc, <- omap_app, !orb_assoc. done.
Qed.

(** The traffic type of a policy: with GTP filters, without, or both. *)
Definition type_of (rules : list PBTrafficRule) : TrafficType :=
  let gtp := λ tr, has_gtp (pbr_Source tr) || has_gtp (pbr_Destination tr) in
  if existsb gtp rules then if existsb (λ tr, negb (gtp tr)) rules then Mixed else LTE else IP.

(** The port of an interface with its policy. *)
Record port_for (mtu : Z) (d : interfaceData) (p : NtsPort) : Prop := {
  pf_name : p_Name p = pbi_Id (NetworkInterface d);
  pf_pci : p_PciAddress p = pbi_Id (NetworkInterface d);
  pf_descr : p_Description p = pbi_Description (NetworkInterface d);
  pf_dir : TrafficDirectionFromInterfaceType (pbi_Type (NetworkInterface d))
           = inl (p_TrafficDirection p);
  pf_mac : p_MAC p = pbi_MacAddress (NetworkInterface d);
  pf_fallback : p_EgressPortID p = pbi_FallbackInterface (NetworkInterface d);
  pf_mtu : p_MTU p = mtu;
  pf_routes : p_Routes p = omap route_of (pbtp_TrafficRules (TrafficPolicy d));
  pf_type : p_TrafficType p = type_of (pbtp_TrafficRules (TrafficPolicy d));
}.

Lemma make_port_ok mtu pci d dir :
  pbtp_Id (TrafficPolicy d) = pbi_Id (NetworkInterface d) →
  TrafficDirectionFromInterfaceType (pbi_Type (NetworkInterface d)) = inl dir →
  ∃ p, make_port mtu pci d = inl p ∧ port_for mtu d p ∧ p_EgressPort p = 0.
Proof.
  intros Hid Hdir. unfold make_port, UpdateFromTrafficPolicy. cbn [p_PciAddress str_empty].
  change (negb (str_empty "")) with false. cbn [andb].
  destruct (foldl _ _ _) as [[p g] i] eqn:E.
  destruct (policy_rules_port _ _ _ _ _ _ _ E) as (Hpci & Heg & Hmtu & Hr & -> & ->).
  cbn in Hpci, Heg, Hmtu, Hr. unfold UpdateFromNetworkInterface. cbn [setTrafficType set_TrafficType p_PciAddress].
  rewrite Hpci, Hid. rewrite (bool_decide_eq_false_2 (_ ≠ _)) by (intros Hn; by apply Hn).
  rewrite andb_false_r, Hdir. eexists. split; [done|]. split; [|done]. split; cbn; try done.
  unfold type_of. by destruct (existsb _ _), (existsb _ _).
Qed.

(** The addresses of the ports, and what [Update] does to the ports. *)
Lemma egress_of_none id idx l e :
  (∀ q, q ∈ l → p_PciAddress q ≠ id) → egress_of id idx l e = e.
Proof.
  revert idx e. induction l as [|q l IH]; intros idx e Hn; [done|]. cbn [egress_of].
  rewrite bool_decide_eq_false_2 by (intros ->; eapply Hn; [by left|done]). apply IH. set_solver.
Qed.

Lemma egress_of_some id idx l e j q :
  NoDup (p_PciAddress <$> l) → l !! j = Some q → p_PciAddress q = id →
  egress_of id idx l e = idx + Z.of_nat j.
Proof.
  revert idx e j. induction l as [|p l IH]; intros idx e j Hnd Hj Hq; [done|].
  cbn [fmap list_fmap] in Hnd. apply NoDup_cons in Hnd as [Hnp Hnd]. cbn [egress_of].
  destruct j as [|j]; simpl in Hj.
  - injection Hj as ->. rewrite bool_decide_eq_true_2 by done. rewrite egress_of_none; [lia|].
    intros q' Hq' E. apply Hnp. rewrite Hq, <- E. apply list_elem_of_fmap. eauto.
  - rewrite (IH _ _ j) by done. lia.
Qed.

(** The port index of every fallback interface that has a port. *)
Definition egress_right (ports : list NtsPort) (p : NtsPort) : Prop :=
  (∀ j q, ports !! j = Some q → p_PciAddress q = p_EgressPortID p → p_EgressPort p = Z.of_nat j) ∧
  ((∀ q, q ∈ ports → p_PciAddress q ≠ p_EgressPortID p) → p_EgressPort p = 0).

Lemma update_port_for mtu d l p :
  port_for mtu d p → p_EgressPort p = 0 → NoDup (p_PciAddress <$> l) →
  port_for mtu d (update_port l p) ∧ egress_right (update_port l <$> l) (update_port l p) ∧
  (p_TrafficDirection p ≠ LBP → p_LBPMAC (update_port l p) = "").
Proof.
  intros Hp He Hnd.
  assert (∀ q, p_PciAddress (update_port l q) = p_PciAddress q) as Hpci
    by (intros q; unfold update_port; by case_bool_decide).
  split_and!.
  - destruct Hp. unfold update_port. case_bool_decide; by split.
  - split.
    + intros j q Hj Hq. apply list_lookup_fmap_Some in Hj as (q0 & -> & Hj).
      rewrite Hpci in Hq. unfold update_port in Hq |- *.
      case_bool_decide; cbn in Hq |- *; by rewrite (egress_of_some _ _ _ _ j q0).
    + intros Hno. unfold update_port in *. case_bool_decide; cbn in *;
        (rewrite egress_of_none; [done|]); intros q Hq E; apply (Hno (update_port l q));
        [by apply list_elem_of_fmap_2|by rewrite <- E, <- (Hpci q)|by apply list_elem_of_fmap_2|
         by rewrite <- E, <- (Hpci q)].
  - intros Hd. unfold update_port. by rewrite bool_decide_eq_true_2.
Qed.

(** An entry of the map: its policy and its interface have its key. *)
Definition entry_ok (kd : string * interfaceData) : Prop :=
  pbtp_Id (TrafficPolicy kd.2) = kd.1 ∧ pbi_Id (NetworkInterface kd.2) = kd.1 ∧
  ∃ dir, TrafficDirectionFromInterfaceType (pbi_Type (NetworkInterface kd.2)) = inl dir.

Lemma make_ports_ok mtu entries c0 :
  Forall entry_ok entries →
  ∃ ports, loop_acc entries (λ kd cfg,
      match make_port mtu kd.1 kd.2 with
      | inl port => inl (AddNewPort port cfg)
      | inr err => inr err
      end) c0 = inl (set_Ports (nc_Ports c0 ++ ports) c0) ∧
    Forall2 (λ kd p, port_for mtu kd.2 p ∧ p_EgressPort p = 0) entries ports.
Proof.
  intros Hok. revert c0. induction Hok as [|[k d] entries (Hp & Hi & dir & Hd) Hok IH]; intros c0.
  { exists []. cbn [loop_acc]. rewrite app_nil_r. by destruct c0. }
  cbn [loop_acc fst snd] in *. destruct (make_port_ok mtu k d dir) as (p & -> & Hpf & He);
    [congruence|done|].
  destruct (IH (AddNewPort p c0)) as (ports & -> & Hall). exists (p :: ports). split.
  - cbn. by rewrite <- app_assoc.
  - by constructor.
Qed.

(** The configuration of a map: one port for every entry, and each port's
    index of its fallback is right. *)
Lemma make_config_ok mtu entries :
  NoDup entries.*1 → Forall entry_ok entries →
  ∃ ports, make_config mtu entries = inl (set_Ports ports ntsConfigTemplate) ∧
    Forall2 (λ kd p, port_for mtu kd.2 p ∧ egress_right ports p ∧
                     (p_TrafficDirection p ≠ LBP → p_LBPMAC p = "")) entries ports.
Proof.
  intros Hnd Hok. destruct (make_ports_ok mtu entries ntsConfigTemplate Hok) as (l & E & Hall).
  exists (update_port l <$> l). unfold make_config. rewrite E. split; [done|].
  assert (p_PciAddress <$> l = entries.*1) as Hpci.
  { clear E Hnd. induction Hall as [|[k d] p entries l [Hp _] Hall IH]; [done|].
    inversion Hok as [|?? (_ & Hi & _) Hok']; subst. cbn in *.
    f_equal; [by rewrite (pf_pci _ _ _ Hp)|by apply IH]. }
  rewrite <- Hpci in Hnd. apply Forall2_fmap_r. eapply Forall2_impl; [exact Hall|].
  intros [k d] p [Hp He]. cbn in *.
  destruct (update_port_for mtu d l p Hp He Hnd) as (H1 & H2 & H3). split_and!; [done..|].
  intros Hd. apply H3. intros Hl. apply Hd. unfold update_port. by case_bool_decide.
Qed.

(** *** The map *)

(** Policies are stored under their identifiers. *)
Definition policies_keyed (data : InterfacesData) : Prop :=
  ∀ k tp, TrafficPolicies data !! k = Some tp → pbtp_Id tp = k.

(** What the map has for an identifier: the last interface with it that is not
    the kernel's, and its policy, or an empty one. *)
Definition map_entry (data : InterfacesData) (n : PBNetworkInterface) : interfaceData :=
  mkinterfaceData (default (mkPBTrafficPolicy (pbi_Id n) []) (TrafficPolicies data !! pbi_Id n)) n.

Definition userspace (n : PBNetworkInterface) : Prop := pbi_Driver n ≠ NetworkInterface_KERNEL.
#[global] Instance userspace_dec n : Decision (userspace n).
Proof. unfold userspace. apply _. Defined.

Lemma map_iface_eq data d n :
  map_iface data d n = if decide (userspace n) then <[pbi_Id n := map_entry data n]> d else d.
Proof.
  unfold map_iface, userspace. case_bool_decide; destruct (decide _); try done.
  - unfold map_entry. by destruct (TrafficPolicies data !! pbi_Id n).
Qed.

Lemma toMap_lookup data k d :
  toMap data !! k = Some d →
  ∃ n, n ∈ ifaces_of data ∧ userspace n ∧ pbi_Id n = k ∧ d = map_entry data n.
Proof.
  unfold toMap. induction (ifaces_of data) as [|n l IH] using rev_ind; [done|].
  rewrite foldl_app. cbn [foldl]. rewrite map_iface_eq. destruct (decide (userspace n)) as [Hu|Hu].
  - destruct (decide (pbi_Id n = k)) as [<-|Hk].
    + rewrite lookup_insert_eq. intros [= <-]. exists n. set_solver.
    + rewrite lookup_insert_ne by done. intros (n' & ? & ?)%IH. exists n'. set_solver.
  - intros (n' & ? & ?)%IH. exists n'. set_solver.
Qed.

Lemma toMap_unique data n :
  n ∈ ifaces_of data → userspace n → NoDup (pbi_Id <$> ifaces_of data) →
  toMap data !! pbi_Id n = Some (map_entry data n).
Proof.
  unfold toMap. intros Hn Hu. revert Hn.
  induction (ifaces_of data) as [|m l IH] using rev_ind; [set_solver|]. intros Hn Hnd.
  rewrite fmap_app in Hnd. apply NoDup_app in Hnd as (Hnd & Hdis & _).
  rewrite foldl_app. cbn [foldl]. rewrite map_iface_eq.
  apply elem_of_app in Hn as [Hn|Hn].
  - assert (pbi_Id m ≠ pbi_Id n) as Hne.
    { intros E. eapply Hdis; [by apply list_elem_of_fmap_2|]. rewrite <- E. set_solver. }
    destruct (decide (userspace m)); [rewrite lookup_insert_ne by done|]; by apply IH.
  - apply list_elem_of_singleton in Hn as <-. destruct (decide (userspace n)); [|done].
    by rewrite lookup_insert_eq.
Qed.

(** Interfaces of supported types. *)
Definition types_supported (l : list PBNetworkInterface) : Prop :=
  ∀ n, n ∈ l → userspace n → ∃ dir, TrafficDirectionFromInterfaceType (pbi_Type n) = inl dir.

Lemma toMap_entries data (entries : list (string * interfaceData)) :
  policies_keyed data → types_supported (ifaces_of data) → entries ≡ₚ map_to_list (toMap data) →
  NoDup entries.*1 ∧ Forall entry_ok entries.
Proof.
  intros Hk Ht Hperm. split.
  { rewrite Hperm. apply NoDup_fst_map_to_list. }
  apply Forall_forall. intros [k d] Hin. rewrite Hperm in Hin.
  apply elem_of_map_to_list, toMap_lookup in Hin as (n & Hn & Hu & <- & ->).
  unfold entry_ok, map_entry. cbn. split_and!; [|done|by apply Ht].
  destruct (TrafficPolicies data !! pbi_Id n) as [tp|] eqn:E; [|done]. cbn. by apply Hk.
Qed.

(** ** Reading the configuration back *)

(** The file of a configuration: the library keeps every member of a port but
    [EgressPortID], which has no key. *)
Definition saved_ini (c : NtsConfig) : IniFile :=
  mkIniFile (inl (set_Ports [] c))
    ((λ sp, (sp.1, inl (set_EgressPortID "" sp.2))) <$> port_sections (nc_Ports c)).

Lemma section_ports_saved (l : list (string * NtsPort)) acc :
  (∀ sp, sp ∈ l → str_contains sp.1 "PORT" = true) →
  loop_acc ((λ sp, (sp.1, inl (set_EgressPortID "" sp.2) : NtsPort + string)) <$> l) (λ sec acc,
    if str_contains sec.1 "PORT" then
      match sec.2 with
      | inl p => inl (acc ++ [p])
      | inr err => inr (errors_Wrap err ("Failed to Map port from section " +:+ sec.1))
      end
    else inl acc) acc = inl (acc ++ (set_EgressPortID "" <$> l.*2)).
Proof.
  revert acc. induction l as [|sp l IH]; intros acc Hs; cbn [fmap list_fmap loop_acc fst snd].
  { by rewrite app_nil_r. }
  rewrite Hs by (by left). rewrite IH by set_solver. by rewrite <- app_assoc.
Qed.

Lemma port_section_name idx : str_contains ("PORT" +:+ Itoa (Z.of_nat idx)) "PORT" = true.
Proof.
  unfold str_contains. apply bool_decide_eq_true. change ("PORT" +:+ Itoa (Z.of_nat idx)) with
    (String "P" (String "O" (String "R" (String "T" (Itoa (Z.of_nat idx)))))).
  cbn. done.
Qed.

Lemma port_sections_snd l : (port_sections l).*2 = l.
Proof.
  unfold port_sections. apply list_eq. intros i. rewrite list_lookup_fmap, list_lookup_imap.
  by destruct (l !! i).
Qed.

(** Every port has its fallback among the ports. *)
Definition fallbacks_among (ports : list NtsPort) : Prop :=
  ∀ p, p ∈ ports → ∃ q, q ∈ ports ∧ p_PciAddress q = p_EgressPortID p.

Lemma fill_egress_ids_back all todo :
  (∀ p, p ∈ todo → ∃ j q, all !! j = Some q ∧ p_PciAddress q = p_EgressPortID p ∧
                          p_EgressPort p = Z.of_nat j) →
  fill_egress_ids (set_EgressPortID "" <$> all) (set_EgressPortID "" <$> todo) = Ret (inl todo).
Proof.
  induction todo as [|p todo IH]; intros Hall; [done|]. cbn [fmap list_fmap fill_egress_ids].
  destruct (Hall p) as (j & q & Hj & Hq & He); [by left|]. cbn [p_EgressPort set_EgressPortID].
  rewrite He, bool_decide_eq_false_2.
  2: { rewrite length_fmap. apply lookup_lt_Some in Hj. lia. }
  unfold index_Z. rewrite bool_decide_eq_false_2 by lia. rewrite Nat2Z.id, list_lookup_fmap, Hj.
  cbn [fmap option_fmap option_map]. rewrite IH by set_solver. cbn [p_PciAddress set_EgressPortID].
  rewrite Hq. by destruct p.
Qed.

Lemma saved_config_back path (c : NtsConfig) :
  (∀ p, p ∈ nc_Ports c → egress_right (nc_Ports c) p) → fallbacks_among (nc_Ports c) →
  NtsConfig_of_ini path (saved_ini c) = Ret (inl c).
Proof.
  intros Hr Hf. unfold NtsConfig_of_ini, saved_ini, section_ports. cbn [ini_MapTo ini_Sections].
  rewrite section_ports_saved.
  2: { intros sp Hsp. unfold port_sections in Hsp. apply list_elem_of_lookup in Hsp as [i Hi].
       rewrite list_lookup_imap in Hi. destruct (nc_Ports c !! i); [|done]. injection Hi as <-.
       apply port_section_name. }
  cbn [nc_Ports set_Ports app]. rewrite port_sections_snd, fill_egress_ids_back; [by destruct c|].
  intros p Hp. destruct (Hf p Hp) as (q & Hq & Hpci). apply list_elem_of_lookup in Hq as [j Hj].
  exists j, q. split_and!; [done..|]. by apply (proj1 (Hr p Hp) j q).
Qed.

(** *** Directions *)

Lemma direction_back t d :
  TrafficDirectionFromInterfaceType t = inl d → InterfaceTypeFromTrafficDirection d = (t, None).
Proof.
  unfold TrafficDirectionFromInterfaceType. repeat case_bool_decide; try done; by intros [= <-]; subst.
Qed.

(** The interface that is reported for a device with a port. *)
Lemma fill_dpdk_other ports dev :
  (∀ p, p ∈ ports → p_PciAddress p ≠ nd_PCI dev) →
  foldl (λ dev port, fill_dpdk port dev) dev ports = dev.
Proof.
  induction ports as [|p ports IH]; intros Hn; [done|]. cbn [foldl].
  assert (fill_dpdk p dev = dev) as ->; [|apply IH; set_solver].
  unfold fill_dpdk. rewrite bool_decide_eq_false_2; [done|]. intros E. by apply (Hn p); [left|].
Qed.

Lemma fill_dpdk_pci p dev : nd_PCI (fill_dpdk p dev) = nd_PCI dev.
Proof. unfold fill_dpdk. by case_bool_decide. Qed.

Lemma fill_dpdk_port ports p dev :
  NoDup (p_PciAddress <$> ports) → p ∈ ports → p_PciAddress p = nd_PCI dev →
  foldl (λ dev port, fill_dpdk port dev) dev ports = fill_dpdk p dev.
Proof.
  revert dev. induction ports as [|q ports IH]; intros dev Hnd Hp Hpci; [set_solver|].
  cbn [fmap list_fmap] in Hnd. apply NoDup_cons in Hnd as [Hq Hnd]. cbn [foldl].
  apply elem_of_cons in Hp as [<-|Hp].
  - apply fill_dpdk_other. intros p' Hp'. rewrite fill_dpdk_pci, <- Hpci. intros E. apply Hq.
    rewrite <- E. by apply list_elem_of_fmap_2.
  - assert (fill_dpdk q dev = dev) as ->; [|by apply IH].
    unfold fill_dpdk. rewrite bool_decide_eq_false_2; [done|]. intros E. apply Hq.
    rewrite <- E, <- Hpci. by apply list_elem_of_fmap_2.
Qed.

Lemma fill_dpdk_all (ports : list NtsPort) (devs : list NetworkDevice) :
  foldl (λ devs port, fill_dpdk port <$> devs) devs ports
  = (λ dev, foldl (λ dev port, fill_dpdk port dev) dev ports) <$> devs.
Proof.
  revert devs. induction ports as [|p ports IH]; intros devs; cbn [foldl].
  - by rewrite list_fmap_id.
  - by rewrite IH, <- list_fmap_compose.
Qed.

Example csv_lspci :
  csv_ReadAll ("0000:00:1f.6 " +:+ String quote "Ethernet controller" +:+ String quote " "
               +:+ String quote "Intel" +:+ String quote " X710 -r02" +:+ nl)
  = inl [["0000:00:1f.6"; "Ethernet controller"; "Intel"; "X710"; "-r02"]].
Proof. vm_compute. reflexivity. Qed.

Example find_pci_uevent :
  find_pci ("PCI_SLOT_NAME=0000:3d:00.1" +:+ nl +:+ "X=1") = "0000:3d:00.1".
Proof. vm_compute. reflexivity. Qed.
