(* ===== verification/ElaProps.v ===== *)
(** * Properties of the lifecycle and dataplane agents

    The texts of traffic rules, the routes that the dataplane agent keeps at
    the network traffic service, the configuration the lifecycle agent writes
    for it, and the two agents together. *)

From S2P Require Import Prelude Strconv GoNet CceNode ElaRules Eda ElaNts.
From stdpp Require Import prelude strings list gmap.
From Stdlib Require Import ZArith Ascii.

Local Open Scope Z_scope.

(** ** Texts of rules *)

(** A rule with filters at both ends. *)
Definition demo_rule : PBTrafficRule :=
  mkPBTrafficRule "lte" 7
    (Some (mkPBTrafficSelector "from" None (Some (mkPBIPFilter "10.0.0.0" 8 80 90 ""))
             (Some (mkPBGTPFilter "0.0.0.0" 0 []))))
    (Some (mkPBTrafficSelector "" None (Some (mkPBIPFilter "192.168.1.5" 32 0 0 "")) None))
    (Some (mkPBTrafficTarget "" ACCEPT None None)).

(** A rule that passes verification and whose addresses
    are written without colons has a text, and parsing the text gives back
    its priority and its filters; descriptions and the target are not part of
    the text. *)
Theorem ela_rule_roundtrip (tr : PBTrafficRule) :
  VerifyTrafficRule tr = None → rule_typed tr → rule_no_colon tr →
  ∃ s, TrafficRuleProtoToString (Some tr) = inl s ∧
       TrafficRuleStringToProto s = inl (rule_core tr).
Proof. intros Hv Ht Hc. by apply rule_roundtrip, verified_rule_ok. Qed.

Lemma ela_rule_roundtrip_witness :
  ∃ s, TrafficRuleProtoToString (Some demo_rule) = inl s ∧
       TrafficRuleStringToProto s = inl (rule_core demo_rule).
Proof.
  apply ela_rule_roundtrip.
  - vm_compute. reflexivity.
  - split; [vm_compute; split; congruence|].
    intros ts [[= <-]|[= <-]]; split; intros ? [= <-]; vm_compute; repeat split; congruence.
  - intros ts [[= <-]|[= <-]]; split; intros ? [= <-]; vm_compute; reflexivity.
Defined.

(** The same address written as an IPv6 address passes verification, and its
    filter is lost when the text is parsed. *)
Definition demo_mapped : PBTrafficRule :=
  mkPBTrafficRule "" 7 None
    (Some (mkPBTrafficSelector "" None (Some (mkPBIPFilter "::ffff:10.0.0.1" 32 0 0 "")) None))
    (Some (mkPBTrafficTarget "" ACCEPT None None)).

Example ela_mapped_address_lost :
  VerifyTrafficRule demo_mapped = None ∧
  TrafficRuleProtoToString (Some demo_mapped)
  = inl "prio:7,srv_ip:::ffff:10.0.0.1/32,encap_proto:noencap" ∧
  TrafficRuleStringToProto "prio:7,srv_ip:::ffff:10.0.0.1/32,encap_proto:noencap"
  = inl (mkPBTrafficRule "" 7 None None None).
Proof. split_and!; vm_compute; reflexivity. Qed.

(** ** Routes at the network traffic service *)

Section eda.
Context `{NL : NesLaws}.
Implicit Types (s : Eda).

Abbreviation tbl s := (routes (eda_nts s)).

(** The agent has a rule for the route in its memory. *)
Definition recorded (s : Eda) (k : KEY) : Prop :=
  ∃ app r, r ∈ rules_of app s ∧ rule_key r = k.

Lemma recorded_insert s s' app pol k :
  AppTrafficPolicies s' = <[app := pol]> (AppTrafficPolicies s) →
  recorded s k → recorded s' k ∨ ∃ r, r ∈ rules_of app s ∧ rule_key r = k.
Proof.
  intros Hp (a & r & Hr & Hk). destruct (decide (a = app)) as [->|Ha]; [right; eauto|].
  left. exists a, r. split; [|done]. unfold rules_of in *. by rewrite Hp, lookup_insert_ne.
Qed.

Lemma recorded_delete s s' app k :
  AppTrafficPolicies s' = delete app (AppTrafficPolicies s) →
  recorded s k → recorded s' k ∨ ∃ r, r ∈ rules_of app s ∧ rule_key r = k.
Proof.
  intros Hp (a & r & Hr & Hk). destruct (decide (a = app)) as [->|Ha]; [right; eauto|].
  left. exists a, r. split; [|done]. unfold rules_of in *. by rewrite Hp, lookup_delete_ne.
Qed.

Lemma removed_logged l s s' r :
  removed l s s' → r ∈ l → tbl s' !! rule_key r ≠ None → logged s' (rule_key r).
Proof. intros (_ & H2 & _) Hr Hk. by destruct (H2 r Hr). Qed.

Lemma add_failed_logged pre r s s' : add_failed pre r s s' → logged s' (rule_key r) ∧ eda_log s ⊆ eda_log s'.
Proof.
  intros [_ Hl]. rewrite Hl. split; [|set_solver].
  exists (AddFailed (LookupKeys r) (Mac r)). rewrite Hl. set_solver.
Qed.

(** Every route is one of [F], recorded, or logged. *)
Definition accounted (F : KEY → Prop) (s : Eda) : Prop :=
  ∀ k, tbl s !! k ≠ None → F k ∨ recorded s k ∨ logged s k.

(** After the old rules of an application were removed. *)
Lemma accounted_removed F app s s1 k :
  accounted F s → removed (rules_of app s) s s1 → tbl s1 !! k ≠ None →
  F k ∨ (recorded s k ∧ ¬ ∃ r, r ∈ rules_of app s ∧ rule_key r = k) ∨ logged s1 k.
Proof.
  intros HF Hrem Hk. destruct (key_in_dec (rules_of app s) k) as [(r & Hr & <-)|Hno].
  { right. right. by eapply removed_logged. }
  destruct Hrem as (H1 & _ & H3). rewrite H1 in Hk by done.
  destruct (HF k Hk) as [?|[?|Hl]]; [by left| |by right; right; eapply logged_mono].
  right. left. split; [done|]. intros (r & Hr & Hrk). by apply (Hno r).
Qed.

Lemma Set_accounted F tp s s' o :
  accounted F s → set_result tp s s' o → accounted F s'.
Proof.
  intros HF Hset. destruct Hset as [e (Hp & Ht & Hl)|o Hp Hrem _ _|l s1 _ _ Hrem Hp Ht Hl
    |e l pre r post s1 s2 _ _ _ Hrem Hfail Hrem2 Hp]; intros k Hk.
  - rewrite Ht in Hk. unfold recorded, logged, rules_of. rewrite Hp, Hl. by apply HF.
  - destruct (accounted_removed F (pbtp_Id tp) s s' k HF Hrem Hk) as [?|[[Hrec Hno]|?]]; [by left| |by auto].
    destruct (recorded_delete s s' (pbtp_Id tp) k Hp Hrec); [by auto|done].
  - rewrite Ht in Hk. destruct (key_in_dec l k) as [(r & Hr & <-)|Hno].
    { right. left. exists (pbtp_Id tp), r. split; [|done]. unfold rules_of.
      by rewrite Hp, lookup_insert_eq. }
    rewrite lookup_add_routes_out in Hk by done.
    destruct (accounted_removed F (pbtp_Id tp) s s1 k HF Hrem Hk) as [?|[[Hrec Hnr]|Hlog]]; [by left| |].
    + destruct (recorded_insert s s' (pbtp_Id tp) _ k Hp Hrec); [by auto|done].
    + right. right. eapply logged_mono; [|done]. by rewrite Hl.
  - destruct (key_in_dec pre k) as [(r' & Hr' & <-)|Hno].
    { right. right. by eapply removed_logged. }
    destruct (add_failed_logged _ _ _ _ Hfail) as [Hlr Hsub]. pose proof Hrem2 as (H1 & _ & Hsub2).
    destruct (decide (k = rule_key r)) as [->|Hkr]; [right; right; by eapply logged_mono|].
    rewrite H1, (proj1 Hfail k Hkr), lookup_add_routes_out in Hk by done. rename Hk into Hk1.
    destruct (accounted_removed F (pbtp_Id tp) s s1 k HF Hrem Hk1) as [?|[[Hrec Hnr]|Hlog]]; [by left| |].
    + destruct (recorded_delete s s' (pbtp_Id tp) k Hp Hrec); [by auto|done].
    + right. right. eapply logged_mono; [|done]. set_solver.
Qed.

(** The state after a list of requests, which are all answered. *)
Lemma serve_policies_ind (I : Eda → Prop) reqs s :
  I s → (∀ tp s1 s2 o, tp ∈ reqs → I s1 → set_result tp s1 s2 o → I s2) →
  ∃ s', serve_policies reqs s = (Ret tt, s') ∧ I s'.
Proof.
  revert s. induction reqs as [|tp reqs IH]; intros s Hs Hstep; cbn [serve_policies]; [by eauto|].
  destruct (Set_spec tp s) as (o & s1 & E & Hres & _). rewrite (bind_ret _ _ _ _ _ E).
  apply IH; [by eapply Hstep; [left|..]|]. intros. eapply Hstep; [by right|done..].
Qed.

(** C36: Whatever policies are set and however the network
    traffic service answers, a call that fails having changed the route it names
    or not, every request is answered, and afterwards each of the routes of the
    service was there when the agent started, is recorded in the memory of the
    agent, or is one for which an addition or a removal was answered with an
    error, which was logged. *)
Theorem eda_no_silent_leak (reqs : list PBTrafficPolicy) (n : NTS) :
  ∃ s, serve_policies reqs (mkEda ∅ n []) = (Ret tt, s) ∧
    ∀ k, routes (eda_nts s) !! k ≠ None →
      routes n !! k ≠ None ∨ recorded s k ∨ logged s k.
Proof.
  apply (serve_policies_ind (accounted (λ k, routes n !! k ≠ None))).
  - intros k Hk. by left.
  - intros tp s1 s2 o _ Hs1 Hres. by eapply Set_accounted.
Qed.

(** *** Routes for which no call has failed *)

(** The loop that removes the rules of an application
    by overwriting the first with the last removes each of them: it ends with
    the application forgotten and with the table from which the routes of its
    rules were deleted, up to routes for which a call has failed. *)
Theorem eda_remove_rules_exact (app : string) s :
  ∃ s', RemoveRules app true s = (Ret None, s') ∧
    AppTrafficPolicies s' = delete app (AppTrafficPolicies s) ∧
    ∀ k, ¬ logged s' k → routes (eda_nts s') !! k = delete_routes (rules_of app s) (routes (eda_nts s)) !! k.
Proof.
  destruct (RemoveRules_spec app s) as (s' & E & Hp & Hrem). exists s'. split; [done|].
  split; [done|]. intros k. by apply removed_exact.
Qed.

(** The table is what the memory says: the entry of a key is that of the last
    rule for it of the application that owns the key. *)
Definition mirrors (owner : KEY → string) (s : Eda) : Prop :=
  (∀ app r, r ∈ rules_of app s → owner (rule_key r) = app) ∧
  (∀ k, ¬ logged s k → tbl s !! k = add_routes (rules_of (owner k) s) ∅ !! k).

(** Every rule of the policy is for a key that its application owns. *)
Definition owned (owner : KEY → string) (tp : PBTrafficPolicy) : Prop :=
  ∀ l r, ValidateTrafficRules tp = inl l → r ∈ l → owner (rule_key r) = pbtp_Id tp.

Lemma add_routes_ext l m m' k : m !! k = m' !! k → add_routes l m !! k = add_routes l m' !! k.
Proof.
  revert m m'. induction l as [|r l IH]; intros m m' E; [done|]. cbn. apply IH.
  destruct (decide (rule_key r = k)) as [<-|Hk]; [by rewrite !lookup_insert_eq|].
  by rewrite !lookup_insert_ne.
Qed.

Lemma rules_of_insert s s' app pol :
  AppTrafficPolicies s' = <[app := pol]> (AppTrafficPolicies s) →
  rules_of app s' = NtsTrafficRules pol ∧ ∀ a, a ≠ app → rules_of a s' = rules_of a s.
Proof.
  intros Hp. unfold rules_of. rewrite Hp. split; [by rewrite lookup_insert_eq|].
  intros a Ha. by rewrite lookup_insert_ne.
Qed.

Lemma rules_of_delete s s' app :
  AppTrafficPolicies s' = delete app (AppTrafficPolicies s) →
  rules_of app s' = [] ∧ ∀ a, a ≠ app → rules_of a s' = rules_of a s.
Proof.
  intros Hp. unfold rules_of. rewrite Hp. split; [by rewrite lookup_delete_eq|].
  intros a Ha. by rewrite lookup_delete_ne.
Qed.

(** Deleting the routes of an application clears every key it owns. *)
Lemma mirrors_deleted owner s app k :
  mirrors owner s → ¬ logged s k →
  delete_routes (rules_of app s) (tbl s) !! k
  = if decide (owner k = app) then None else tbl s !! k.
Proof.
  intros [Ho Ht] Hlog. destruct (key_in_dec (rules_of app s) k) as [(r & Hr & <-)|Hno].
  { rewrite lookup_delete_routes_in by done. rewrite decide_True by by apply Ho. done. }
  rewrite lookup_delete_routes_out by done. destruct (decide (owner k = app)) as [<-|]; [|done].
  by rewrite Ht, lookup_add_routes_out.
Qed.

Lemma mirrors_change owner s s' app l :
  mirrors owner s → rules_of app s' = l → (∀ a, a ≠ app → rules_of a s' = rules_of a s) →
  (∀ r, r ∈ l → owner (rule_key r) = app) →
  eda_log s ⊆ eda_log s' →
  (∀ k, ¬ logged s' k → tbl s' !! k = if decide (owner k = app) then add_routes l ∅ !! k else tbl s !! k) →
  mirrors owner s'.
Proof.
  intros [Ho Ht] Hl Hoth Hown Hsub Hk. split.
  - intros a r Hr. destruct (decide (a = app)) as [->|Ha]; [by apply Hown; rewrite <- Hl|].
    rewrite Hoth in Hr by done. by apply Ho.
  - intros k Hlog. rewrite Hk by done. destruct (decide (owner k = app)) as [->|Ha]; [by rewrite Hl|].
    rewrite Hoth by done. apply Ht. intros Hl'. by eapply Hlog, logged_mono.
Qed.

(** The old rules are gone, but for routes for which a call has failed. *)
Lemma mirrors_removed owner s s1 app k :
  mirrors owner s → removed (rules_of app s) s s1 → ¬ logged s1 k →
  tbl s1 !! k = if decide (owner k = app) then None else tbl s !! k.
Proof.
  intros Hm Hrem Hlog. rewrite (removed_exact _ _ _ _ Hrem Hlog). apply mirrors_deleted; [done|].
  intros Hl. by eapply Hlog, logged_mono; [apply Hrem|].
Qed.

Lemma Set_mirrors owner tp s s' o :
  owned owner tp → mirrors owner s → set_result tp s s' o → mirrors owner s'.
Proof.
  intros Hown Hm Hset. destruct Hset as [e (Hp & Ht & Hl)|o Hp Hrem _ _|l s1 _ Hv Hrem Hp Ht Hlog
    |e l pre r post s1 s2 _ Hv -> Hrem Hfail Hrem2 Hp].
  - unfold mirrors, rules_of, logged. by rewrite Hp, Ht, Hl.
  - destruct (rules_of_delete s s' (pbtp_Id tp) Hp) as [Hr Hoth].
    apply (mirrors_change owner s s' (pbtp_Id tp) [] Hm Hr Hoth); [set_solver|apply Hrem|]. intros k Hk.
    rewrite (mirrors_removed owner s s' (pbtp_Id tp)) by done. by destruct (decide _).
  - destruct (rules_of_insert s s' (pbtp_Id tp) _ Hp) as [Hr Hoth].
    apply (mirrors_change owner s s' (pbtp_Id tp) l Hm Hr Hoth); [by eauto|rewrite Hlog; apply Hrem|]. intros k Hk.
    assert (¬ logged s1 k) as Hk1 by (unfold logged in *; by rewrite <- Hlog).
    pose proof (mirrors_removed owner s s1 (pbtp_Id tp) k Hm Hrem Hk1) as E1.
    rewrite Ht. destruct (decide (owner k = pbtp_Id tp)) as [E|E].
    + by apply add_routes_ext.
    + rewrite lookup_add_routes_out by (intros r' Hr' <-; by apply E, Hown with l). done.
  - destruct (rules_of_delete s s' (pbtp_Id tp) Hp) as [Hr Hoth].
    destruct (add_failed_logged _ _ _ _ Hfail) as [Hlr Hsub]. pose proof Hrem2 as (H1 & H2 & Hsub2).
    apply (mirrors_change owner s s' (pbtp_Id tp) [] Hm Hr Hoth);
      [set_solver|destruct Hrem as (_ & _ & ?); set_solver|]. intros k Hk.
    rewrite (removed_exact _ _ _ _ Hrem2 Hk). destruct (key_in_dec pre k) as [(r' & Hr' & <-)|Hno].
    + rewrite lookup_delete_routes_in by done. rewrite decide_True; [done|].
      apply (Hown (pre ++ r :: post)); [done|set_solver].
    + rewrite lookup_delete_routes_out by done.
      assert (k ≠ rule_key r) as Hkr by (intros ->; by eapply Hk, logged_mono).
      rewrite (proj1 Hfail k Hkr), lookup_add_routes_out by done.
      assert (¬ logged s1 k) as Hk1 by (intros Hl; eapply Hk, logged_mono; [|exact Hl]; set_solver).
      rewrite (mirrors_removed owner s s1 (pbtp_Id tp)) by done.
      by destruct (decide _).
Qed.

(** C35: If the route table is empty when the agent starts and
    applications do not share lookup keys, then after any requests, and whatever
    the service answers, the table has for every key what the memory of the agent
    says, the entry of the last rule recorded for it or none; except for keys for
    which an addition or a removal was answered with an error, which is logged.
    So a service that has answered no call with an error has exactly the routes
    that are recorded. *)
Theorem eda_mirrors_memory (owner : KEY → string) (reqs : list PBTrafficPolicy) (n : NTS) :
  routes n = ∅ → Forall (owned owner) reqs →
  ∃ s, serve_policies reqs (mkEda ∅ n []) = (Ret tt, s) ∧
    ∀ k, ¬ logged s k → routes (eda_nts s) !! k = add_routes (rules_of (owner k) s) ∅ !! k.
Proof.
  intros Hn Hown.
  destruct (serve_policies_ind (mirrors owner) reqs (mkEda ∅ n [])) as (s & E & _ & Ht).
  - split; [set_solver|]. intros k _. cbn. by rewrite Hn.
  - intros tp s1 s2 o Htp Hs1 Hres. rewrite Forall_forall in Hown. eapply Set_mirrors; eauto.
  - eauto.
Qed.
End eda.

(** ** A small service *)

(** A table that reports an error when it has three routes already, although
    it adds the route, and which refuses to remove what it has not. *)
#[local] Instance mem_nes : NesApi := {|
  NTS := gmap string (list Z);
  nes_conn_init n := (0, n);
  nes_conn_close n := (0, n);
  nes_route_add mac keys n :=
    (if bool_decide (size n < 3)%nat then 0 else 1, <[keys := mac]> n);
  nes_route_remove keys n :=
    match n !! keys with Some _ => (0, delete keys n) | None => (1, n) end;
  nes_stats_all_dev n := (Some [], n);
|}.

#[local] Program Instance mem_nes_laws : NesLaws := {|
  KEY := string;
  lookup_key := id;
  routes := id;
|}.
Next Obligation. intros n r n' E. cbn in *. by simplify_eq. Qed.
Next Obligation. intros n r n' E. cbn in *. by simplify_eq. Qed.
Next Obligation.
  intros mac keys n r n' E. cbn in *. unfold id. simplify_eq. split; [done|].
  intros k Hk. by rewrite lookup_insert_ne.
Qed.
Next Obligation.
  intros keys n r n' E. cbn in *. unfold id. destruct (n !! keys); simplify_eq; (split; [done|]); [|done].
  intros k Hk. by rewrite lookup_delete_ne.
Qed.

Definition demo_ip_rule (addr mac : string) : PBTrafficRule :=
  mkPBTrafficRule "" 5 None
    (Some (mkPBTrafficSelector "" None (Some (mkPBIPFilter addr 32 0 0 "")) None))
    (Some (mkPBTrafficTarget "" ACCEPT (Some mac) None)).

(** Two applications; the last rule of the second is refused, and refused
    again. *)
Definition demo_reqs : list PBTrafficPolicy :=
  [mkPBTrafficPolicy "app-a" [demo_ip_rule "10.0.0.1" "00:00:00:00:00:0a";
                              demo_ip_rule "10.0.0.2" "00:00:00:00:00:0a"];
   mkPBTrafficPolicy "app-b" [demo_ip_rule "10.0.1.1" "00:00:00:00:00:0b";
                              demo_ip_rule "10.0.1.2" "00:00:00:00:00:0b"];
   mkPBTrafficPolicy "app-b" [demo_ip_rule "10.0.1.2" "00:00:00:00:00:0b"]].

Definition demo_owner (keys : string) : string :=
  if str_contains keys "10.0.1." then "app-b" else "app-a".

(** The route that was added although the service reported an error is there,
    not recorded but logged. *)
Lemma eda_no_silent_leak_witness :
  let s := exec (serve_policies demo_reqs) (mkEda ∅ (∅ : @NTS mem_nes) []) in
  let k := "prio:5,srv_ip:10.0.1.2/32,encap_proto:noencap" in
  rules_of "app-b" s = [] ∧ (@None (list Z) ≠ None ∨ recorded s k ∨ logged s k).
Proof.
  intros s k. split; [vm_compute; reflexivity|].
  destruct (eda_no_silent_leak demo_reqs (∅ : @NTS mem_nes)) as (s' & E & Hk).
  assert (s = s') as -> by (subst s; unfold exec; by rewrite E).
  apply (Hk k). replace s' with (exec (serve_policies demo_reqs) (mkEda ∅ (∅ : @NTS mem_nes) []))
    by (unfold exec; by rewrite E).
  vm_compute. discriminate.
Defined.

Lemma eda_remove_rules_exact_witness :
  let s := exec (serve_policies demo_reqs) (mkEda ∅ (∅ : @NTS mem_nes) []) in
  ∃ s', RemoveRules "app-a" true s = (Ret None, s') ∧ AppTrafficPolicies s' !! "app-a" = None ∧
    (¬ logged s' "prio:5,srv_ip:10.0.0.1/32,encap_proto:noencap" →
     routes (eda_nts s') !! "prio:5,srv_ip:10.0.0.1/32,encap_proto:noencap" = None).
Proof.
  intros s. destruct (eda_remove_rules_exact "app-a" s) as (s' & E & Hp & Hr).
  exists s'. split; [exact E|]. split; [rewrite Hp; apply lookup_delete_eq|].
  intros Hk. etransitivity; [exact (Hr _ Hk)|]. vm_compute. reflexivity.
Defined.

Lemma demo_owned : Forall (owned demo_owner) demo_reqs.
Proof.
  repeat constructor; intros l r Hl; vm_compute in Hl; injection Hl as <-;
    rewrite ?elem_of_cons, ?elem_of_nil; intros Hr; destruct_or! Hr; subst; vm_compute; done.
Qed.

Lemma eda_mirrors_memory_witness :
  ∃ s, serve_policies demo_reqs (mkEda ∅ (∅ : @NTS mem_nes) []) = (Ret tt, s) ∧
    ∀ k, ¬ logged s k → routes (eda_nts s) !! k = add_routes (rules_of (demo_owner k) s) ∅ !! k.
Proof.
  apply (eda_mirrors_memory (NL := mem_nes_laws) demo_owner demo_reqs ∅); [reflexivity|exact demo_owned].
Defined.

Example eda_demo_table :
  map_to_list (eda_nts (exec (serve_policies demo_reqs) (mkEda ∅ (∅ : @NTS mem_nes) [])))
  ≡ₚ [("prio:5,srv_ip:10.0.0.1/32,encap_proto:noencap", [0; 0; 0; 0; 0; 10]);
      ("prio:5,srv_ip:10.0.0.2/32,encap_proto:noencap", [0; 0; 0; 0; 0; 10]);
      ("prio:5,srv_ip:10.0.1.2/32,encap_proto:noencap", [0; 0; 0; 0; 0; 11])].
Proof. apply (bool_decide_unpack _). vm_compute. exact I. Qed.

(** ** The configuration of the network traffic service *)

Lemma validate_interfaces_ok idx l n :
  validate_interfaces idx l = None → n ∈ l → ValidateNetworkInterface (Some n) = None.
Proof.
  revert idx. induction l as [|m l IH]; intros idx; [set_solver|].
  change (validate_interfaces idx (m :: l)) with
    (match ValidateNetworkInterface (Some m) with
     | Some err => errors_New (errors_Wrap err ("NetworkInterface[" +:+ Itoa idx +:+ "] is invalid"))
     | None => validate_interfaces (idx + 1) l
     end).
  destruct (ValidateNetworkInterface (Some m)) eqn:E; [done|].
  intros Hl [->|Hn]%elem_of_cons; [done|by eapply IH].
Qed.

Lemma validated_interface n :
  ValidateNetworkInterface (Some n) = None → userspace n →
  pbi_Type n ≠ NetworkInterface_NONE ∧ pbi_Vlan n = 0 ∧ pbi_Zones n = [] ∧
  pbi_FallbackInterface n ≠ "".
Proof.
  unfold ValidateNetworkInterface, userspace, str_empty. intros Hv Hu.
  destruct (bool_decide (pbi_Id n = "")); [done|]. rewrite (bool_decide_eq_false_2 _ Hu) in Hv.
  destruct (bool_decide (pbi_Type n = _)) eqn:Ht; [done|]. apply bool_decide_eq_false in Ht.
  destruct (if negb _ then _ else _); [done|].
  destruct (bool_decide (pbi_Vlan n = 0)) eqn:Hl; [|done]. apply bool_decide_eq_true in Hl.
  destruct (bool_decide (length (pbi_Zones n) = _)) eqn:Hz; [|done]. apply bool_decide_eq_true in Hz.
  destruct (bool_decide (pbi_FallbackInterface n = "")) eqn:Hf; [done|].
  apply bool_decide_eq_false in Hf. by apply nil_length_inv in Hz.
Qed.

(** The values of the enumerations of an interface. *)
Definition known_enums (n : PBNetworkInterface) : Prop :=
  0 ≤ pbi_Type n ≤ 4 ∧ 0 ≤ pbi_Driver n ≤ 1.

(** Interfaces that were validated, with different identifiers. *)
Definition good_interfaces (l : list PBNetworkInterface) : Prop :=
  ValidateNetworkInterfaces (Some l) = None ∧ (∀ n, n ∈ l → known_enums n) ∧
  NoDup (pbi_Id <$> l).

Lemma good_supported l : good_interfaces l → types_supported l.
Proof.
  intros (Hv & He & _) n Hn Hu. destruct (He n Hn) as [Ht _].
  destruct (validated_interface n (validate_interfaces_ok 0 l n Hv Hn) Hu) as (Hnone & _).
  unfold NetworkInterface_NONE in Hnone.
  assert (pbi_Type n = 1 ∨ pbi_Type n = 2 ∨ pbi_Type n = 3 ∨ pbi_Type n = 4) as Hc by lia.
  destruct_or! Hc; rewrite Hc; eexists; reflexivity.
Qed.

Lemma verified_routes rules :
  Forall (λ tr, VerifyTrafficRule tr = None) rules → length (omap route_of rules) = length rules.
Proof.
  induction 1 as [|tr rules Htr _ IH]; [done|]. cbn [omap list_omap]. unfold route_of at 1.
  destruct (verified_rule_prints tr Htr) as (s & -> & ->). cbn. by rewrite IH.
Qed.

Section config.
Context `{GoEnv}.

(** The port of an interface in a configuration. *)
Definition has_port (mtu : Z) (data : InterfacesData) (ports : list NtsPort)
    (n : PBNetworkInterface) (p : NtsPort) : Prop :=
  p ∈ ports ∧ port_for mtu (map_entry data n) p ∧ egress_right ports p.

Lemma config_ports mtu data site :
  policies_keyed data → good_interfaces (ifaces_of data) →
  ∃ ports,
    make_config mtu (map_range site (toMap data)) = inl (set_Ports ports ntsConfigTemplate) ∧
    length ports = size (toMap data) ∧ NoDup (p_PciAddress <$> ports) ∧
    (∀ n, n ∈ ifaces_of data → userspace n → ∃ p, has_port mtu data ports n p) ∧
    (∀ p, p ∈ ports → ∃ n, n ∈ ifaces_of data ∧ userspace n ∧ has_port mtu data ports n p).
Proof.
  intros Hk Hg. pose proof (map_range_perm site (toMap data)) as Hperm.
  destruct (toMap_entries data _ Hk (good_supported _ Hg) Hperm) as [Hnd Hok].
  destruct (make_config_ok mtu _ Hnd Hok) as (ports & E & Hall). exists ports.
  assert (p_PciAddress <$> ports = (map_range site (toMap data)).*1) as Hpci.
  { clear E Hperm Hnd. revert Hok Hall. generalize (map_range site (toMap data)). intros entries.
    intros Hok Hall. generalize dependent ports. intros ports. generalize ports at 1.
    intros all Hall. induction Hall as [|[k d] p entries ports (Hp & _) Hall IH]; [done|].
    inversion Hok as [|?? (_ & Hi & _) Hok']; subst. cbn in *.
    f_equal; [by rewrite (pf_pci _ _ _ Hp)|by apply IH]. }
  split; [done|]. split; [|split; [|split]].
  - rewrite <- (Forall2_length _ _ _ Hall), Hperm. apply length_map_to_list.
  - by rewrite Hpci.
  - intros n Hn Hu.
    assert ((pbi_Id n, map_entry data n) ∈ map_range site (toMap data)) as Hin.
    { rewrite Hperm. apply elem_of_map_to_list, toMap_unique; [done..|apply Hg]. }
    apply list_elem_of_lookup in Hin as [i Hi].
    destruct (Forall2_lookup_l _ _ _ _ _ Hall Hi) as (p & Hp & H1 & H2 & _). exists p.
    split_and!; [by eapply list_elem_of_lookup_2|done..].
  - intros p Hp. pose proof Hp as Hin. apply list_elem_of_lookup in Hp as [i Hi].
    destruct (Forall2_lookup_r _ _ _ _ _ Hall Hi) as ([k d] & Hkd & H1 & H2 & _).
    apply list_elem_of_lookup_2 in Hkd. rewrite Hperm in Hkd.
    apply elem_of_map_to_list, toMap_lookup in Hkd as (n & Hn & Hu & _ & ->). exists n. done.
Qed.

(** For validated interfaces the configuration of the network
    traffic service can always be made, and in whatever order the map of
    interfaces is visited it has exactly one port for each interface that is
    not the kernel's, with the members of the interface, one route for every
    rule of its verified policy, and as egress port the index of the port of
    its fallback interface. *)
Theorem ela_ports_exact (mtu : Z) (data : InterfacesData) (site : list string) :
  policies_keyed data → good_interfaces (ifaces_of data) →
  (∀ k tp, TrafficPolicies data !! k = Some tp → VerifyTrafficPolicy (Some tp) = None) →
  ∃ ports,
    make_config mtu (map_range site (toMap data)) = inl (set_Ports ports ntsConfigTemplate) ∧
    length ports = size (toMap data) ∧
    ∀ n, n ∈ ifaces_of data → userspace n →
      ∃ p, p ∈ ports ∧ port_for mtu (map_entry data n) p ∧
        length (p_Routes p) = length (pbtp_TrafficRules (TrafficPolicy (map_entry data n))) ∧
        ∀ m, m ∈ ifaces_of data → userspace m → pbi_Id m = pbi_FallbackInterface n →
          ∃ q, index_Z ports (p_EgressPort p) = Some q ∧ p_PciAddress q = pbi_Id m.
Proof.
  intros Hk Hg Hver. destruct (config_ports mtu data site Hk Hg) as (ports & E & Hlen & Hnd & Hports & _).
  exists ports. split; [done|]. split; [done|]. intros n Hn Hu.
  destruct (Hports n Hn Hu) as (p & Hp & Hpf & Her & _). exists p. split_and!; [done..| |].
  - rewrite (pf_routes _ _ _ Hpf). apply verified_routes. cbn.
    destruct (TrafficPolicies data !! pbi_Id n) as [tp|] eqn:Etp; [|constructor]. cbn.
    specialize (Hver _ _ Etp). cbn in Hver. destruct (str_empty (pbtp_Id tp)); [done|].
    by apply verify_rules_ok in Hver.
  - intros m Hm Hum Hid. destruct (Hports m Hm Hum) as (q & Hq & Hqf & _). exists q.
    pose proof (pf_pci _ _ _ Hqf) as Hqpci. cbn in Hqpci. split; [|done].
    apply list_elem_of_lookup in Hq as [j Hj].
    rewrite (Her j q Hj) by (by rewrite (pf_fallback _ _ _ Hpf), Hqpci). unfold index_Z.
    rewrite bool_decide_eq_false_2 by lia. by rewrite Nat2Z.id.
Qed.

(** If moreover every fallback interface is among the
    interfaces, reading the saved configuration gives it back, and the
    interface that is then reported for a device is the one that was
    configured for it. *)
Theorem ela_config_roundtrip (mtu : Z) (data : InterfacesData) (site : list string) (path : string) :
  policies_keyed data → good_interfaces (ifaces_of data) →
  (∀ n, n ∈ ifaces_of data → userspace n →
     ∃ m, m ∈ ifaces_of data ∧ userspace m ∧ pbi_Id m = pbi_FallbackInterface n) →
  ∃ c, make_config mtu (map_range site (toMap data)) = inl c ∧
    NtsConfig_of_ini path (saved_ini c) = Ret (inl c) ∧
    ∀ n dev, n ∈ ifaces_of data → userspace n → nd_PCI dev = pbi_Id n →
      ToNetworkInterface (foldl (λ dev port, fill_dpdk port dev) dev (nc_Ports c)) = n.
Proof.
  intros Hk Hg Hfb. destruct (config_ports mtu data site Hk Hg) as (ports & E & _ & Hnd & Hports & Hback).
  exists (set_Ports ports ntsConfigTemplate). split; [done|]. split.
  { apply saved_config_back; cbn [nc_Ports set_Ports].
    - intros p Hp. destruct (Hback p Hp) as (n & _ & _ & _ & _ & Her). done.
    - intros p Hp. destruct (Hback p Hp) as (n & Hn & Hu & _ & Hpf & _).
      destruct (Hfb n Hn Hu) as (m & Hm & Hum & Hid). destruct (Hports m Hm Hum) as (q & Hq & Hqf & _).
      exists q. split; [done|]. rewrite (pf_pci _ _ _ Hqf), (pf_fallback _ _ _ Hpf). done. }
  intros n dev Hn Hu Hdev. cbn [nc_Ports set_Ports].
  destruct (Hports n Hn Hu) as (p & Hp & Hpf & _). pose proof (pf_pci _ _ _ Hpf) as Hpci. cbn in Hpci.
  rewrite (fill_dpdk_port ports p) by (done || congruence). unfold fill_dpdk.
  rewrite bool_decide_eq_true_2 by congruence. unfold ToNetworkInterface. cbn.
  destruct Hg as (Hv & He & _). destruct (He n Hn) as [_ Hdr].
  destruct (validated_interface n (validate_interfaces_ok 0 _ n Hv Hn) Hu) as (_ & Hvl & Hz & _).
  rewrite (direction_back _ _ (pf_dir _ _ _ Hpf)), (pf_descr _ _ _ Hpf), (pf_mac _ _ _ Hpf),
    (pf_fallback _ _ _ Hpf), Hdev. unfold userspace, NetworkInterface_KERNEL in Hu.
  assert (pbi_Driver n = NetworkInterface_USERSPACE) as Hd by (unfold NetworkInterface_USERSPACE; lia).
  destruct n; cbn in *. by subst.
Qed.
End config.

(** Two interfaces that fall back to each other, and one of the kernel. *)
Definition demo_ifaces : list PBNetworkInterface :=
  [mkPBNetworkInterface "0000:01:00.0" "up" 1 1 "" 0 [] "0000:01:00.1";
   mkPBNetworkInterface "0000:01:00.1" "down" 1 2 "00:11:22:33:44:55" 0 [] "0000:01:00.0";
   mkPBNetworkInterface "0000:02:00.0" "host" 0 0 "" 0 [] ""].
Definition demo_data : InterfacesData :=
  mkInterfacesData {[ "0000:01:00.0" := mkPBTrafficPolicy "0000:01:00.0" [demo_rule] ]}
    (Some demo_ifaces).

Lemma demo_keyed : policies_keyed demo_data.
Proof. intros k tp. cbn. by intros [<- <-]%lookup_singleton_Some. Qed.

Lemma ela_demo_good : good_interfaces (ifaces_of demo_data).
Proof.
  split_and!.
  - vm_compute. reflexivity.
  - intros n. change (ifaces_of demo_data) with demo_ifaces. unfold demo_ifaces.
    rewrite !elem_of_cons, elem_of_nil. intros Hn.
    destruct_or! Hn; subst; vm_compute; repeat split; congruence.
  - apply (bool_decide_unpack _). vm_compute. exact I.
Qed.

Lemma demo_fallbacks n :
  n ∈ ifaces_of demo_data → userspace n →
  ∃ m, m ∈ ifaces_of demo_data ∧ userspace m ∧ pbi_Id m = pbi_FallbackInterface n.
Proof.
  change (ifaces_of demo_data) with demo_ifaces. unfold demo_ifaces.
  rewrite !elem_of_cons, elem_of_nil. intros Hn Hu. destruct_or! Hn; subst.
  - exists (mkPBNetworkInterface "0000:01:00.1" "down" 1 2 "00:11:22:33:44:55" 0 [] "0000:01:00.0").
    by split_and!; [right; left|..].
  - exists (mkPBNetworkInterface "0000:01:00.0" "up" 1 1 "" 0 [] "0000:01:00.1").
    by split_and!; [left|..].
  - by destruct Hu.
Qed.

Lemma ela_ports_exact_witness :
  ∃ ports,
    make_config 1500 (map_range ["site"] (toMap demo_data)) = inl (set_Ports ports ntsConfigTemplate) ∧
    length ports = 2%nat.
Proof.
  destruct (ela_ports_exact 1500 demo_data ["site"] demo_keyed ela_demo_good) as (ports & E & Hl & _).
  - intros k tp. cbn. intros [<- <-]%lookup_singleton_Some. vm_compute. reflexivity.
  - exists ports. split; [exact E|]. rewrite Hl. vm_compute. reflexivity.
Defined.

Lemma ela_config_roundtrip_witness :
  ∃ c, make_config 1500 (map_range ["site"] (toMap demo_data)) = inl c ∧
    NtsConfig_of_ini "nts.cfg" (saved_ini c) = Ret (inl c).
Proof.
  destruct (ela_config_roundtrip 1500 demo_data ["site"] "nts.cfg" demo_keyed ela_demo_good demo_fallbacks)
    as (c & E & Hc & _).
  exists c. split; [exact E|exact Hc].
Defined.

(** ** The order of an update *)

Section order.
Context `{ElaWorld, GoEnv} (cfg : ElaConfig).
Abbreviation hist := (list (event * bool)).

(** The configuration was written; the service was stopped. *)
Definition written (h : hist) : Prop :=
  ∃ text, (Ev (WriteFile (NtsConfigPath cfg) text), true) ∈ h.
Definition stopped (h : hist) : Prop := (Ev (ContainerStop ntsContainerName 10), true) ∈ h.
Definition started (h : hist) : Prop := (Ev (ContainerStart ntsContainerName), true) ∈ h.

Definition is_devbind (e : event) : bool :=
  match e with Ev e => match e with DpdkDevbind _ => true | _ => false end end.

(** No device failed to be rebound. *)
Definition rebinds_ok (h : hist) : Prop := ∀ x, x ∈ h → is_devbind x.1 = true → x.2 = true.

(** The devices of the update were bound to the userspace driver. *)
Definition bound (pcis : list string) (h : hist) : Prop :=
  pcis = [] ∨ (Ev (DpdkDevbind (bind_params pcis NetworkInterface_USERSPACE)), true) ∈ h.

(** What must have happened before an event. *)
Definition guard (pcis : list string) (h : hist) (e : event) : Prop :=
  match e with
  | Ev e =>
      match e with
      | ContainerStop _ _ => written h
      | DpdkDevbind _ => written h ∧ stopped h ∧ rebinds_ok h
      | ContainerStart c =>
          (c = ntsContainerName → written h ∧ stopped h ∧ rebinds_ok h ∧ bound pcis h) ∧
          (c ≠ ntsContainerName → started h)
      | _ => True
      end
  end.

Definition guarded (pcis : list string) (h : hist) : Prop :=
  ∀ h1 e ok h2, h = h1 ++ (e, ok) :: h2 → guard pcis h1 e.

(** [m] obeys the order from histories with [P], and ends in ones with [Q]. *)
Definition obeys {A} (pcis : list string) (P : hist → Prop) (m : GoM Ela A)
    (Q : A → hist → Prop) : Prop :=
  ∀ s, guarded pcis (ela_trace s) → P (ela_trace s) →
    guarded pcis (ela_trace (m s).2) ∧ ∀ a s', m s = (Ret a, s') → Q a (ela_trace s').

Lemma obeys_ret {A} pcis P (a : A) (Q : A → hist → Prop) :
  (∀ h, P h → Q a h) → obeys pcis P (mret a) Q.
Proof. intros HQ s Hg HP. split; [done|]. intros a' s' [= <- <-]. by apply HQ. Qed.

Lemma obeys_bind {A B} pcis P (m : GoM Ela A) R (k : A → GoM Ela B) Q :
  obeys pcis P m R → (∀ a, obeys pcis (R a) (k a) Q) → obeys pcis P (m ≫= k) Q.
Proof.
  intros Hm Hk s Hg HP. destruct (Hm s Hg HP) as [Hg1 HR]. unfold mbind, GoM_bind.
  destruct (m s) as [[a|e] s1]; [|done]. by apply Hk; [|apply HR].
Qed.

Lemma obeys_conseq {A} pcis (P P' : hist → Prop) (m : GoM Ela A) (Q Q' : A → hist → Prop) :
  obeys pcis P' m Q' → (∀ h, P h → P' h) → (∀ a h, Q' a h → Q a h) → obeys pcis P m Q.
Proof. intros Hm HP HQ s Hg HPs. destruct (Hm s Hg (HP _ HPs)) as [? ?]. eauto. Qed.

Lemma guarded_snoc pcis h e ok : guarded pcis h → guard pcis h e → guarded pcis (h ++ [(e, ok)]).
Proof.
  intros Hg Hge h1 e' ok' h2 E. destruct h2 as [|x h2] using rev_ind.
  - apply app_inj_tail in E as [-> [= -> ->]]. done.
  - clear IHh2. rewrite app_comm_cons, app_assoc in E. apply app_inj_tail in E as [E _]. by eapply Hg.
Qed.

Lemma obeys_call {A} pcis (P : hist → Prop) (e : ext A) :
  (∀ h, P h → guard pcis h (Ev e)) →
  obeys pcis P (call e)
    (λ r h', ∃ h, P h ∧ h' = h ++ [(Ev e, match r with inl _ => true | inr _ => false end)]).
Proof.
  intros Hge s Hg HP. unfold call. destruct (answer e (ela_ext s)) as [r x]. cbn. split.
  - apply guarded_snoc; auto.
  - intros r' s' [= <- <-]. cbn. eauto.
Qed.

(** *** Computations without events that matter *)

Definition quiet_ev (e : event) : bool :=
  match e with
  | Ev e => match e with
            | ContainerStop _ _ | ContainerStart _ | DpdkDevbind _ => false
            | _ => true
            end
  end.

(** Histories that stay as they are when such an event is added. *)
Definition stable (P : hist → Prop) : Prop :=
  ∀ h e ok, P h → is_devbind e = false → P (h ++ [(e, ok)]).

Definition quiet {A} (m : GoM Ela A) : Prop :=
  ∀ pcis P, stable P → obeys pcis P m (λ _, P).

Lemma quiet_ret {A} (a : A) : quiet (mret a).
Proof. intros pcis P _. by apply obeys_ret. Qed.

Lemma quiet_panic {A} e : quiet (A := A) (go_panic e).
Proof. intros pcis P _ s Hg HP. split; [done|]. by intros ???. Qed.

Lemma quiet_bind {A B} (m : GoM Ela A) (k : A → GoM Ela B) :
  quiet m → (∀ a, quiet (k a)) → quiet (m ≫= k).
Proof. intros Hm Hk pcis P HP. eapply obeys_bind; [by apply Hm|]. intros a. by apply Hk. Qed.

Lemma quiet_call {A} (e : ext A) : quiet_ev (Ev e) = true → quiet (call e).
Proof.
  intros He pcis P HP. eapply obeys_conseq; [apply (obeys_call pcis P e)|done|].
  - intros h _. by destruct e.
  - intros r h (h0 & Hh0 & ->). apply HP; [done|]. by destruct e.
Qed.

Lemma quiet_try {A R} (m : GoM Ela (A + gerror)) (f : gerror → R) k :
  quiet m → (∀ a, quiet (k a)) → quiet (try m f k).
Proof. intros Hm Hk. apply quiet_bind; [done|]. intros [a|e]; [done|apply quiet_ret]. Qed.

Lemma quiet_check {R} (m : GoM Ela (option gerror)) (f : gerror → R) k :
  quiet m → quiet k → quiet (check m f k).
Proof. intros Hm Hk. apply quiet_bind; [done|]. intros [e|]; [apply quiet_ret|done]. Qed.

Lemma quiet_lift {A} (o : outcome A) : quiet (lift o).
Proof. destruct o; [apply quiet_ret|apply quiet_panic]. Qed.

Create HintDb quiet.
Hint Resolve quiet_ret quiet_panic quiet_lift : quiet.

(** Decomposes a computation down to its calls. *)
Ltac quiet_step :=
  match goal with
  | |- quiet (try _ _ _) => apply quiet_try; [|intros ?]
  | |- quiet (check _ _ _) => apply quiet_check
  | |- quiet (call _) => apply quiet_call; reflexivity
  | |- quiet (_ ≫= _) => apply quiet_bind; [|intros ?]
  | |- quiet (match ?x with _ => _ end) => destruct x
  | |- quiet (if ?x then _ else _) => destruct x
  | |- quiet _ => solve [eauto with quiet]
  end.
Ltac solve_quiet := repeat quiet_step.

Lemma quiet_find_container app l : quiet (find_container app l).
Proof. induction l as [|c l IH]; cbn [find_container]; solve_quiet. Qed.
Hint Resolve quiet_find_container : quiet.

Lemma quiet_kni app : quiet (getMACForContainerKNI app).
Proof. unfold getMACForContainerKNI, getNetNamespaceForContainer. solve_quiet. Qed.
Hint Resolve quiet_kni : quiet.

Lemma quiet_fill_kernel ifs devs : quiet (fill_kernel_devs ifs devs).
Proof.
  revert devs. induction ifs as [|[name hw] ifs IH]; intros devs; cbn [fill_kernel_devs]; solve_quiet.
Qed.
Hint Resolve quiet_fill_kernel : quiet.

Lemma quiet_interfaces : quiet (getNetworkInterfaces cfg).
Proof.
  unfold getNetworkInterfaces, getNetworkDevices, GetNetworkPCIs, fillMACAddrForDPDKDevs,
    NtsConfigFromFile, FillMACAddrForKernelDevs. solve_quiet.
Qed.

Lemma quiet_running : quiet isNTSrunning.
Proof. unfold isNTSrunning. solve_quiet. Qed.
Hint Resolve quiet_running : quiet.

Lemma quiet_ctx : quiet ctx_alive.
Proof. unfold ctx_alive. solve_quiet. Qed.
Hint Resolve quiet_ctx : quiet.

Lemma quiet_wait_nts n e : quiet (wait_nts n e).
Proof. induction n as [|n IH]; cbn [wait_nts]; solve_quiet. Qed.
Hint Resolve quiet_wait_nts : quiet.

Lemma quiet_wait_dns n e : quiet (wait_dns_mac n e).
Proof. induction n as [|n IH]; cbn [wait_dns_mac]; solve_quiet. Qed.
Hint Resolve quiet_wait_dns : quiet.

Lemma quiet_update c r : quiet (updateContainer c r).
Proof. unfold updateContainer. solve_quiet. Qed.
Hint Resolve quiet_update : quiet.

Lemma quiet_waitForNTS : quiet waitForNTS.
Proof. unfold waitForNTS. solve_quiet. Qed.
Hint Resolve quiet_waitForNTS : quiet.

(** *** The phases of an update *)

Definition saved (h : hist) : Prop := written h ∧ rebinds_ok h.
Definition halted (h : hist) : Prop := written h ∧ stopped h ∧ rebinds_ok h.
Definition ready (pcis : list string) (h : hist) : Prop :=
  written h ∧ stopped h ∧ rebinds_ok h ∧ bound pcis h.

Lemma rebinds_ok_snoc h e (ok : bool) :
  rebinds_ok h → (is_devbind e = true → ok = true) → rebinds_ok (h ++ [(e, ok)]).
Proof.
  intros Hh He x [Hx|Hx]%elem_of_app; [by apply Hh|].
  apply list_elem_of_singleton in Hx as ->. apply He.
Qed.

Lemma written_snoc h x : written h → written (h ++ [x]).
Proof. intros [text Ht]. exists text. set_solver. Qed.
Lemma stopped_snoc h x : stopped h → stopped (h ++ [x]).
Proof. unfold stopped. set_solver. Qed.
Lemma bound_snoc pcis h x : bound pcis h → bound pcis (h ++ [x]).
Proof. unfold bound. set_solver. Qed.

Lemma stable_rebinds : stable rebinds_ok.
Proof. intros h e ok Hh He. apply rebinds_ok_snoc; [done|congruence]. Qed.
Lemma stable_saved : stable saved.
Proof. intros h e ok [? ?] He. split; [by apply written_snoc|by apply stable_rebinds]. Qed.
Lemma stable_halted : stable halted.
Proof.
  intros h e ok (? & ? & ?) He. split_and!; [by apply written_snoc|by apply stopped_snoc|].
  by apply stable_rebinds.
Qed.
Lemma stable_ready pcis : stable (ready pcis).
Proof.
  intros h e ok (? & ? & ? & ?) He.
  split_and!; [by apply written_snoc|by apply stopped_snoc|by apply stable_rebinds|by apply bound_snoc].
Qed.
Lemma stable_started : stable started.
Proof. intros h e ok Hs _. unfold started in *. set_solver. Qed.

(** A check goes on with what holds when there is no error. *)
Lemma obeys_check {R} pcis P (m : GoM Ela (option gerror)) (f : gerror → R) k P' (Q : R → hist → Prop) :
  obeys pcis P m (λ r h, r = None → P' h) → obeys pcis P' k Q → (∀ e h, Q (f e) h) →
  obeys pcis P (check m f k) Q.
Proof.
  intros Hm Hk Hf. eapply obeys_bind; [exact Hm|]. intros [e|].
  - apply obeys_ret. intros h _. apply Hf.
  - eapply obeys_conseq; [exact Hk|by auto|done].
Qed.

Lemma obeys_quiet {R} pcis P (m : GoM Ela (option gerror)) (f : gerror → R) k (Q : R → hist → Prop) :
  quiet m → stable P → obeys pcis P k Q → (∀ e h, Q (f e) h) → obeys pcis P (check m f k) Q.
Proof.
  intros Hm HP Hk Hf. eapply obeys_check; [|exact Hk|exact Hf].
  eapply obeys_conseq; [by apply Hm|done|done].
Qed.

(** A container is stopped or started through a client of its own. *)
Lemma obeys_client pcis P (e : ext unit) (Q : hist → Prop) :
  stable P → (∀ h, P h → guard pcis h (Ev e)) → (∀ h, P h → Q (h ++ [(Ev e, true)])) →
  obeys pcis P (try (call NewClient) Some (λ _, r ← call e; mret (result_error r)))
    (λ r h, r = None → Q h).
Proof.
  intros HP Hg HQ. eapply obeys_bind; [by apply quiet_call|]. intros [u|err]; [|by apply obeys_ret].
  eapply obeys_bind; [by apply obeys_call|]. intros [u'|err]; apply obeys_ret; [|done].
  intros h (h0 & Hh0 & ->) _. by apply HQ.
Qed.

Lemma obeys_save pcis data :
  obeys pcis rebinds_ok (makeAndSaveNtsConfig cfg data) (λ r h, r = None → saved h).
Proof.
  unfold makeAndSaveNtsConfig, SaveToFile. destruct (make_config _ _); [|by apply obeys_ret].
  destruct (ini_render _ _) as [text|]; [|by apply obeys_ret].
  eapply obeys_bind; [by apply obeys_call|]. intros [u|err]; apply obeys_ret; [|done].
  intros h (h0 & Hh0 & ->) _. split; [|by apply stable_rebinds].
  exists (fix_routes text). set_solver.
Qed.

Lemma obeys_stop_dns pcis :
  obeys pcis saved (stopDNSAndRemoveRules cfg) (λ r h, r = None → saved h).
Proof.
  unfold stopDNSAndRemoveRules. eapply obeys_check; [apply obeys_client| |done].
  - apply stable_saved.
  - by intros h [? ?].
  - intros h Hh. by apply stable_saved.
  - eapply obeys_conseq; [|intros h Hh; exact Hh|].
    + apply quiet_bind; [apply quiet_running|intros [e|]; solve_quiet|apply stable_saved].
    + done.
Qed.

Lemma obeys_stop_nts pcis :
  obeys pcis saved (stopContainer ntsContainerName) (λ r h, r = None → halted h).
Proof.
  apply obeys_client; [apply stable_saved|by intros h [? ?]|].
  intros h [? ?]. split_and!; [by apply written_snoc|unfold stopped; set_solver|by apply stable_rebinds].
Qed.

Lemma obeys_rebind pcis pcis' driver :
  obeys pcis halted (rebindDevices pcis' driver)
    (λ r h, r = None → halted h ∧
       (driver = NetworkInterface_USERSPACE → bound pcis' h)).
Proof.
  unfold rebindDevices. case_bool_decide as Hl.
  { apply obeys_ret. intros h Hh _. split; [done|]. intros _. left. unfold bind_params in Hl.
    rewrite length_app in Hl. apply nil_length_inv. by destruct (bool_decide _); simpl in Hl; lia. }
  eapply obeys_bind.
  { apply (obeys_call pcis halted). intros h (? & ? & ?). by split_and!. }
  intros [u|err]; apply obeys_ret; [|done]. intros h (h0 & (? & ? & ?) & ->) _. split.
  - split_and!; [by apply written_snoc|by apply stopped_snoc|by apply rebinds_ok_snoc].
  - intros ->. right. set_solver.
Qed.

Lemma obeys_start_nts pcis :
  obeys pcis (ready pcis) (startContainer ntsContainerName) (λ r h, r = None → started h).
Proof.
  apply obeys_client; [apply stable_ready|by intros h Hh; split|].
  intros h Hh. unfold started. set_solver.
Qed.

Lemma obeys_start_dns pcis :
  obeys pcis started (startContainer dnsContainerName) (λ r h, r = None → started h).
Proof.
  apply obeys_client; [apply stable_started|by intros h Hh; split|].
  intros h Hh. by apply stable_started.
Qed.

Lemma quiet_modify f : (∀ s, ela_trace (f s) = ela_trace s) → quiet (go_modify f).
Proof.
  intros Hf pcis P _ s Hg HP. cbn. rewrite Hf. split; [done|]. intros a s' [= <- <-].
  by rewrite Hf.
Qed.

Lemma obeys_start pcis :
  obeys pcis (ready pcis) (startNTSandDNS cfg) (λ r h, r = None → started h).
Proof.
  unfold startNTSandDNS, restartDNSAndSetRules.
  apply obeys_quiet; [solve_quiet|apply stable_ready| |done].
  eapply obeys_check; [apply obeys_start_nts| |done].
  eapply (obeys_bind _ _ _ (λ _, started));
    [apply quiet_modify; [done|apply stable_started]|]. intros [].
  apply obeys_quiet; [solve_quiet|apply stable_started| |done].
  apply obeys_quiet; [solve_quiet|apply stable_started| |done].
  eapply obeys_check; [apply obeys_start_dns| |done].
  eapply obeys_conseq; [|intros h Hh; exact Hh|].
  - apply quiet_bind; [apply quiet_ctx|intros a; solve_quiet|apply stable_started].
  - done.
Qed.

Lemma obeys_configure data s :
  InterfaceConfigurationData s = data → guarded (getDevicesToBind data) (ela_trace s) →
  rebinds_ok (ela_trace s) →
  guarded (getDevicesToBind data) (ela_trace (configureNTS cfg s).2) ∧
  ∀ s', configureNTS cfg s = (Ret None, s') → started (ela_trace s').
Proof.
  intros Hd Hg Hr. unfold configureNTS. rewrite bind_get, Hd.
  set (pcis := getDevicesToBind data) in *.
  destruct (validate data); [by split|].
  match goal with |- guarded _ (ela_trace (?m s).2) ∧ _ =>
    enough (obeys pcis rebinds_ok m (λ r h, r = None → started h)) as Hm end.
  { destruct (Hm s Hg Hr) as [? HQ]. split; [done|]. intros s' E. by apply (HQ _ _ E). }
  eapply obeys_bind; [apply quiet_interfaces; apply stable_rebinds|].
  intros [nis|e]; [|by apply obeys_ret]. cbn [isAnyAppRunning].
  eapply obeys_check; [apply obeys_save| |done].
  eapply obeys_check; [apply obeys_stop_dns| |done].
  eapply obeys_check; [apply obeys_stop_nts| |done].
  eapply obeys_check; [eapply obeys_conseq; [apply obeys_rebind|done|]| |done].
  { intros [e|] h Hh; [done|]. intros _. exact (proj1 (Hh eq_refl)). }
  eapply (obeys_check _ _ _ _ _ (ready pcis));
    [eapply obeys_conseq; [apply obeys_rebind|done|]|apply obeys_start|done].
  intros [e|] h Hh; [done|]. intros _. destruct (Hh eq_refl) as [(? & ? & ?) Hb].
  split_and!; [done..|by apply Hb].
Qed.

(** C37: Whatever the programs of the host answer, an update of
    the interfaces touches nothing before the new configuration is written,
    rebinds devices only after the network traffic service was stopped, starts
    the service only after every device of the update was bound and no
    rebinding failed, and starts EdgeDNS only after the service; if the update
    succeeds the service was started. *)
Theorem ela_update_order (ifaces : list PBNetworkInterface) (s : Ela) (pcis : list string) :
  ela_trace s = [] →
  pcis = getDevicesToBind
           (mkInterfacesData (TrafficPolicies (InterfaceConfigurationData s)) (Some ifaces)) →
  (∀ h1 e ok h2, ela_trace (InterfaceService_BulkUpdate cfg (Some ifaces) s).2 = h1 ++ (e, ok) :: h2 →
     guard pcis h1 e) ∧
  (∀ s', InterfaceService_BulkUpdate cfg (Some ifaces) s = (Ret None, s') → started (ela_trace s')).
Proof.
  intros Ht ->. unfold InterfaceService_BulkUpdate. destruct (ValidateNetworkInterfaces _).
  { split; [|by intros ?]. cbn. rewrite Ht. intros [|] ? ? ?; done. }
  unfold set_interfaces, check. rewrite bind_modify. set (s1 := mkEla _ _ _).
  destruct (obeys_configure (InterfaceConfigurationData s1) s1 eq_refl) as [Hg Hs].
  - subst s1. cbn. rewrite Ht. intros [|] ? ? ? E; done.
  - subst s1. cbn. rewrite Ht. intros x Hx. set_solver.
  - destruct (configureNTS cfg s1) as [[[e|]|e] s2] eqn:E; cbn in Hg.
    + rewrite (bind_ret _ _ _ _ _ E). by split.
    + rewrite (bind_ret _ _ _ _ _ E). split; [done|]. intros s' [= <-]. by apply Hs.
    + rewrite (bind_panic _ _ _ _ _ E). by split.
Qed.
End order.

(** A host on which everything succeeds. *)
Definition demo_answer {A} (e : ext A) : A + gerror :=
  match e in ext A return A + gerror with
  | NewClient | ClientClose _ | ContainerUpdate _ _ | ContainerStart _ | ContainerStop _ _ => inl tt
  | ContainerInspect _ => inl (mkContainerJSON true "running" "/ns/1" None)
  | ContainerList => inl [mkContainer "1" ["/mec-app-edgednssvr"]; mkContainer "2" ["/app-a"]]
  | LibvirtConnect => inr (PlainErr "no libvirt")
  | LibvirtClose | DomainFree _ => inl tt
  | LookupDomainByName _ => inr (PlainErr "no domain")
  | DomainXML _ => inl []
  | NsenterEther _ => inl ("00:11:22:33:44:66" +:+ nl)
  | DpdkDevbind _ => inl tt
  | StatVhost => inl true
  | LspciAvailable => inl tt
  | LspciOutput => inl ("0000:01:00.0 Ethernet Intel X710" +:+ nl)
  | HostInterfaces => inl [("eth0", [0; 17; 34; 51; 68; 85])]
  | ReadUevent _ => inl None
  | ShadowLoad _ => inl (mkIniFile (inl ntsConfigTemplate) [])
  | WriteFile _ _ => inl tt
  | CtxAlive => inl (3%nat, "deadline exceeded")
  | EdaSet _ _ => inl tt
  | DnsSocket => inl true
  | DnsDial | DnsClose | DnsSetHost _ _ _ | DnsDelete _ _ => inl tt
  end.

#[local] Instance demo_world : ElaWorld := {|
  EXT := unit;
  answer A e x := (demo_answer e, x);
  ini_render _ _ := inl "";
|}.

Definition demo_cfg : ElaConfig := mkElaConfig "eda:42101" "nts.cfg" "53.53.53.53" [] 1500.
Definition demo_ela : Ela := mkEla demo_data tt [].

Lemma ela_update_order_witness :
  (∀ h1 e ok h2, ela_trace (InterfaceService_BulkUpdate demo_cfg (Some demo_ifaces) demo_ela).2 = h1 ++ (e, ok) :: h2 →
     guard demo_cfg ["0000:01:00.0"; "0000:01:00.1"] h1 e) ∧
  started (ela_trace (exec (InterfaceService_BulkUpdate demo_cfg (Some demo_ifaces)) demo_ela)).
Proof.
  destruct (ela_update_order demo_cfg demo_ifaces demo_ela ["0000:01:00.0"; "0000:01:00.1"])
    as [Hg Hs]; [reflexivity|reflexivity|].
  split; [exact Hg|].
  apply (Hs (exec (InterfaceService_BulkUpdate demo_cfg (Some demo_ifaces)) demo_ela)).
  vm_compute. reflexivity.
Defined.

(** ** Both agents *)

(** The policy that is sent on for a verified policy and a verified address is
    accepted by the dataplane agent. *)
Lemma verified_mac mac :
  VerifyMACAddress mac = None → ∃ hw, ParseMAC mac = inl hw ∧ length hw = 6%nat.
Proof.
  unfold VerifyMACAddress. destruct (ParseMAC mac) as [hw|]; [|done]. case_bool_decide as Hl; [done|].
  intros _. exists hw. split; [done|]. by destruct (decide (length hw = 6%nat)).
Qed.

Lemma set_target_mac_text mac tr :
  TrafficRuleProtoToString (Some (set_target_mac mac tr)) = TrafficRuleProtoToString (Some tr).
Proof. done. Qed.

Lemma validate_rules_mac mac hw rules acc :
  ParseMAC mac = inl hw → Forall (λ tr, VerifyTrafficRule tr = None) rules →
  ∃ l, loop_acc (set_target_mac mac <$> rules) validate_rule acc = inl (acc ++ l) ∧
    (∀ r, r ∈ l → Mac r = hw) ∧
    (∀ tr, tr ∈ rules → ∃ r, r ∈ l ∧ TrafficRuleProtoToString (Some tr) = inl (LookupKeys r)).
Proof.
  intros Hmac Hv. revert acc. induction Hv as [|tr rules Htr Hv IH]; intros acc.
  { exists []. cbn [fmap list_fmap loop_acc]. rewrite app_nil_r. split_and!; [done|set_solver..]. }
  destruct (verified_rule_prints tr Htr) as (text & Ht & _).
  destruct (VerifyTrafficRule_ok tr Htr) as (_ & _ & tgt & Htgt & _).
  destruct (IH (acc ++ [mkTrafficRuleParsed text hw])) as (l & E & Hl & Hr).
  exists (mkTrafficRuleParsed text hw :: l). cbn [fmap list_fmap loop_acc].
  unfold validate_rule at 1. rewrite set_target_mac_text, Ht. cbn [pbr_Target set_target_mac].
  rewrite Htgt. cbn [fmap option_fmap option_map mbind option_bind pbt_Mac]. rewrite Hmac, E.
  split_and!.
  - by rewrite <- app_assoc.
  - intros r [->|Hin]%elem_of_cons; [done|by apply Hl].
  - intros tr' [->|Hin]%elem_of_cons.
    + exists (mkTrafficRuleParsed text hw). split; [by left|done].
    + destruct (Hr tr' Hin) as (r & Hin' & Hk). exists r. split; [by right|done].
Qed.

(** What becomes of the call that [DialEDASet] makes: it is not delivered (no
    connection, or the deadline passes while it waits for one), it is answered,
    or the dataplane agent handles it but the lifecycle agent gets an error (the
    deadline passes first, or the reply is lost). *)
Inductive dialOutcome := NotDelivered (e : gerror) | Answered | NoReply (e : gerror).

Section both.
Context (base : ElaWorld) `{NL : NesLaws, GoEnv} (cfg : ElaConfig).
Context (dial : string → PBTrafficPolicy → @EXT base → dialOutcome * @EXT base).

(** The host of the lifecycle agent, with the dataplane agent behind the calls
    that set policies.  A dataplane agent that panicked would not answer.  Its
    state is the one when it is done with the request. *)
Definition eda_answer (tp : PBTrafficPolicy) (d : Eda) : (unit + gerror) * Eda :=
  match eda_Set tp d with
  | (Ret None, d') => (inl tt, d')
  | (Ret (Some e), d') => (inr e, d')
  | (Panic e, d') => (inr (PlainErr e), d')
  end.

Definition DialEDASet (endpoint : string) (tp : PBTrafficPolicy) (x : @EXT base * Eda)
    : (unit + gerror) * (@EXT base * Eda) :=
  let '(o, y) := dial endpoint tp x.1 in
  match o with
  | NotDelivered e => (inr e, (y, x.2))
  | Answered => let '(r, d) := eda_answer tp x.2 in (r, (y, d))
  | NoReply e => (inr e, (y, (eda_answer tp x.2).2))
  end.

Definition both_answer {A} (e : ext A) (x : @EXT base * Eda) : (A + gerror) * (@EXT base * Eda) :=
  match e in ext A return (A + gerror) * (@EXT base * Eda) with
  | EdaSet endpoint tp => DialEDASet endpoint tp x
  | e' => let '(r, y) := @answer base _ e' x.1 in (r, (y, x.2))
  end.

Definition both_world : ElaWorld := {|
  EXT := @EXT base * Eda;
  answer A := both_answer;
  ini_render := @ini_render base;
|}.

#[local] Existing Instance both_world.

(** The dataplane agent. *)
Definition eda_of (s : @Ela both_world) : Eda := (ela_ext s).2.

Definition keeps {A} (m : GoM (@Ela both_world) A) : Prop :=
  ∀ d, preserves (λ s, eda_of s = d) m.

Lemma eda_keeps_call {A} (e : ext A) :
  (∀ ep tp, Ev e ≠ Ev (EdaSet ep tp)) → keeps (call e).
Proof.
  intros He d s Hs. unfold call, eda_of in *. cbn.
  destruct e; try (unfold both_answer; destruct (@answer base _ _ _); cbn; exact Hs).
  by destruct (He endpoint policy).
Qed.

Lemma eda_keeps_ret {A} (a : A) : keeps (mret a).
Proof. intros d. apply preserves_ret. Qed.
Lemma eda_keeps_panic {A} e : keeps (A := A) (go_panic e).
Proof. intros d. apply preserves_panic. Qed.
Lemma eda_keeps_bind {A B} (m : GoM _ A) (k : A → GoM _ B) :
  keeps m → (∀ a, keeps (k a)) → keeps (m ≫= k).
Proof. intros Hm Hk d. apply preserves_bind; [apply Hm|]. intros a. apply Hk. Qed.

Ltac eda_keeps_step :=
  match goal with
  | |- keeps (mret _) => apply eda_keeps_ret
  | |- keeps (go_panic _) => apply eda_keeps_panic
  | |- keeps (call _) => apply eda_keeps_call; discriminate
  | |- keeps (_ ≫= _) => apply eda_keeps_bind; [|intros ?]
  | |- keeps (try _ _ _) => apply eda_keeps_bind; [|intros [?|?]]
  | |- keeps (lift ?o) => destruct o; cbn [lift]
  | |- keeps (match ?x with _ => _ end) => destruct x
  | |- keeps (if ?x then _ else _) => destruct x
  end.

Lemma keeps_find_container app l : keeps (find_container app l).
Proof. induction l as [|c l IH]; cbn [find_container]; repeat (eda_keeps_step || apply IH). Qed.

Lemma keeps_GetMacAddress app : keeps (GetMacAddress app).
Proof.
  unfold GetMacAddress, getMACForVMvhostuser, getMACForContainerKNI, getNetNamespaceForContainer.
  repeat (eda_keeps_step || apply keeps_find_container).
Qed.

(** Every rule of the policy is a route to one six-byte address, and the policy
    is in memory unless it has no rules. *)
Definition policy_set (tp : PBTrafficPolicy) (d : Eda) : Prop :=
  (∃ hw, length hw = 6%nat ∧
     ∀ tr, tr ∈ pbtp_TrafficRules tp →
       ∃ keys, TrafficRuleProtoToString (Some tr) = inl keys ∧
         routes (eda_nts d) !! lookup_key keys = Some hw) ∧
  (pbtp_TrafficRules tp ≠ [] → AppTrafficPolicies d !! pbtp_Id tp ≠ None).

(** What the dataplane agent makes of a policy that the lifecycle agent has
    verified. *)
Lemma eda_answer_verified tp mac hw d :
  Forall (λ tr, VerifyTrafficRule tr = None) (pbtp_TrafficRules tp) →
  ParseMAC mac = inl hw → length hw = 6%nat →
  let '(r, d') := eda_answer (policy_with_mac mac tp) d in
  match r with
  | inl _ => policy_set tp d'
  | inr _ => same d d' ∨ AppTrafficPolicies d' !! pbtp_Id tp = None
  end.
Proof.
  intros Hv Hhw Hlen. destruct (validate_rules_mac mac hw _ [] Hhw Hv) as (l & Hval & Hl & Hr).
  cbn [app] in Hval. unfold eda_answer.
  destruct (Set_spec (policy_with_mac mac tp) d) as (r & d' & -> & Hres & _).
  destruct Hres as [e Hsame|o' Hp Hrem Hnil Hval'|l' s2 Hne Hval' Hrem Hp Ht Hlog
    |e l' pre rr post s2 s3 _ _ _ _ _ _ Hp].
  - by left.
  - destruct o' as [e|]; [right; rewrite Hp; apply lookup_delete_eq|].
    assert (pbtp_TrafficRules tp = []) as Hn.
    { pose proof (proj1 Hnil eq_refl) as E. cbn in E. by apply fmap_nil_inv in E. }
    unfold policy_set. rewrite Hn. split; [|done]. exists hw. split; [done|set_solver].
  - unfold ValidateTrafficRules in Hval'. cbn in Hval'. rewrite Hval in Hval'. injection Hval' as <-.
    split; [exists hw; split; [done|]|].
    + intros tr Htr. destruct (Hr tr Htr) as (r & Hin & Hk). exists (LookupKeys r). split; [done|].
      rewrite Ht. apply (lookup_add_routes_in l _ r hw); [|done]. intros r' Hr'. rewrite (Hl r' Hr').
      apply take_ge. by rewrite Hlen.
    + intros _. rewrite Hp. cbn. by rewrite lookup_insert_eq.
  - right. rewrite Hp. apply lookup_delete_eq.
Qed.

End both.

Definition demo_dial (_ : string) (_ : PBTrafficPolicy) (x : @EXT demo_world) : dialOutcome * @EXT demo_world :=
  (Answered, x).
Definition demo_both : @Ela (both_world demo_world demo_dial) :=
  @mkEla (both_world demo_world demo_dial) demo_data (tt, mkEda ∅ (∅ : @NTS mem_nes) []) [].
Definition demo_policy : PBTrafficPolicy := mkPBTrafficPolicy "app-a" [demo_rule].

Lemma exec_ret {S A} (m : GoM S A) s a : (m s).1 = Ret a → m s = (Ret a, exec m s).
Proof. unfold exec. destruct (m s). cbn. by intros ->. Qed.


(** ** Requests of the controller *)

(** The services that the agent registers (ela.go). *)
Inductive ela_req :=
| ReqAppPolicy (tp : PBTrafficPolicy)
| ReqInterfacePolicy (tp : PBTrafficPolicy)
| ReqBulkUpdate (ifaces : list PBNetworkInterface)
| ReqGetAll
| ReqGet (id : string)
| ReqSetA (r : DNSARecordSet)
| ReqDeleteA (r : DNSARecordSet).

Section services.
Context `{ElaWorld, GoEnv} (cfg : ElaConfig).

Definition ela_serve (r : ela_req) : GoM Ela unit :=
  match r with
  | ReqAppPolicy tp => _ ← ApplicationPolicy_Set cfg tp; mret tt
  | ReqInterfacePolicy tp => _ ← InterfacePolicy_Set tp; mret tt
  | ReqBulkUpdate l => _ ← InterfaceService_BulkUpdate cfg (Some l); mret tt
  | ReqGetAll => _ ← GetAll cfg; mret tt
  | ReqGet id => _ ← InterfaceService_Get cfg id; mret tt
  | ReqSetA r => _ ← SetA r; mret tt
  | ReqDeleteA r => _ ← DeleteA r; mret tt
  end.

Fixpoint ela_serve_all (reqs : list ela_req) (s : Ela) : Ela :=
  match reqs with
  | [] => s
  | r :: reqs' => ela_serve_all reqs' (ela_serve r s).2
  end.

(** The stored policies are verified ones, each under its identifier. *)
Definition policies_good (d : InterfacesData) : Prop :=
  ∀ k tp, TrafficPolicies d !! k = Some tp →
    pbtp_Id tp = k ∧ VerifyTrafficPolicy (Some tp) = None.

Abbreviation good := (λ s, policies_good (InterfaceConfigurationData s)).

Lemma good_call {A} (e : ext A) : preserves good (call e).
Proof. intros s Hs. unfold call. by destruct (answer e (ela_ext s)). Qed.

Ltac good_step :=
  match goal with
  | |- preserves _ (mret _) => apply preserves_ret
  | |- preserves _ (go_panic _) => apply preserves_panic
  | |- preserves _ (call _) => apply good_call
  | |- preserves _ (try _ _ _) => apply preserves_bind; [|intros [?|?]]
  | |- preserves _ (check _ _ _) => apply preserves_bind; [|intros [?|]]
  | |- preserves _ (_ ≫= _) => apply preserves_bind; [|intros ?]
  | |- preserves _ (lift ?o) => destruct o; cbn [lift]
  | |- preserves _ (match ?x with _ => _ end) => destruct x
  | |- preserves _ (if ?x then _ else _) => destruct x
  | |- preserves _ (go_modify _) => apply preserves_modify; by intros ??
  end.
Ltac solve_good := repeat good_step.

Lemma good_find_container app l : preserves good (find_container app l).
Proof. induction l as [|c l IH]; cbn [find_container]; repeat (good_step || apply IH). Qed.

Lemma good_kni app : preserves good (getMACForContainerKNI app).
Proof.
  unfold getMACForContainerKNI, getNetNamespaceForContainer.
  repeat (good_step || apply good_find_container).
Qed.

Lemma good_interfaces_read : preserves good (getNetworkInterfaces cfg).
Proof.
  unfold getNetworkInterfaces, getNetworkDevices, GetNetworkPCIs, fillMACAddrForDPDKDevs,
    NtsConfigFromFile, FillMACAddrForKernelDevs.
  assert (∀ ifs devs, preserves good (fill_kernel_devs ifs devs)) as Hk.
  { intros ifs. induction ifs as [|[name hw] ifs IH]; intros devs; cbn [fill_kernel_devs];
      repeat (good_step || apply IH). }
  repeat (good_step || apply Hk).
Qed.

Lemma good_running : preserves good isNTSrunning.
Proof. unfold isNTSrunning. solve_good. Qed.

Lemma good_configure : preserves good (configureNTS cfg).
Proof.
  assert (∀ n e, preserves good (wait_nts n e)) as Hn.
  { intros n e. induction n as [|n IH]; cbn [wait_nts]; repeat (good_step || apply good_running || apply IH). }
  assert (∀ n e, preserves good (wait_dns_mac n e)) as Hd.
  { intros n e. induction n as [|n IH]; cbn [wait_dns_mac];
      repeat (good_step || apply good_running || apply good_kni || apply IH). }
  unfold configureNTS, makeAndSaveNtsConfig, SaveToFile, stopDNSAndRemoveRules, rebindDevices,
    startNTSandDNS, restartDNSAndSetRules, waitForNTS, ctx_alive, set_interfaces, updateContainer,
    startContainer, stopContainer.
  apply preserves_bind; [apply preserves_get|]. intros s0.
  repeat (good_step || apply good_interfaces_read || apply good_running || apply Hn || apply Hd).
Qed.

Lemma good_mac app : preserves good (GetMacAddress app).
Proof. unfold GetMacAddress, getMACForVMvhostuser. repeat (good_step || apply good_kni). Qed.

Lemma good_serve r : preserves good (ela_serve r).
Proof.
  destruct r; cbn [ela_serve]; apply preserves_bind; try (intros ?; apply preserves_ret).
  - unfold ApplicationPolicy_Set. repeat (good_step || apply good_mac).
  - unfold InterfacePolicy_Set. destruct (VerifyTrafficPolicy (Some tp)) eqn:Hv; [solve_good|].
    apply preserves_bind; [|intros ?; apply preserves_ret]. apply preserves_modify.
    intros s Hs k tp'. cbn. intros [[<- <-]|[_ Hk]]%lookup_insert_Some; [done|by apply Hs].
  - unfold InterfaceService_BulkUpdate. destruct (ValidateNetworkInterfaces _); [solve_good|].
    apply preserves_bind; [unfold set_interfaces; solve_good|]. intros ?.
    repeat (good_step || apply good_configure).
  - unfold GetAll. repeat (good_step || apply good_interfaces_read).
  - unfold InterfaceService_Get. repeat (good_step || apply good_interfaces_read).
  - unfold SetA, with_dns_client, startClient. solve_good.
  - unfold DeleteA, with_dns_client, startClient. solve_good.
Qed.

(** Whatever requests the agent has served since its start,
    and whatever the host answered, each policy stored for an interface is a
    verified one under its own identifier; so an update of validated
    interfaces always yields a configuration, in any order of the map. *)
Theorem ela_policies_inv (reqs : list ela_req) (x : EXT) (ifaces : list PBNetworkInterface)
    (site : list string) (s : Ela) :
  s = ela_serve_all reqs (mkEla (mkInterfacesData ∅ None) x []) → good_interfaces ifaces →
  policies_good (InterfaceConfigurationData s) ∧
  ∃ c, make_config (InterfaceMTU cfg)
         (map_range site (toMap (mkInterfacesData
            (TrafficPolicies (InterfaceConfigurationData s)) (Some ifaces)))) = inl c.
Proof.
  intros -> Hg. set (s0 := mkEla _ _ _).
  assert (policies_good (InterfaceConfigurationData (ela_serve_all reqs s0))) as Hp.
  { assert (policies_good (InterfaceConfigurationData s0)) as Hp0 by (by intros ???).
    revert Hp0. generalize s0. induction reqs as [|r reqs IH]; intros s1 H1; [done|].
    cbn [ela_serve_all]. apply IH. by apply (good_serve r). }
  split; [done|].
  destruct (config_ports (InterfaceMTU cfg) (mkInterfacesData
    (TrafficPolicies (InterfaceConfigurationData (ela_serve_all reqs s0))) (Some ifaces)) site)
    as (ports & E & _); [by intros k tp Hk; apply Hp|done|]. by eexists.
Qed.
End services.

Definition demo_ela_reqs : list ela_req :=
  [ReqInterfacePolicy (mkPBTrafficPolicy "0000:01:00.0" [demo_rule]);
   ReqAppPolicy demo_policy; ReqInterfacePolicy (mkPBTrafficPolicy "" []);
   ReqBulkUpdate demo_ifaces; ReqGetAll].

Definition demo_start : @Ela demo_world := mkEla (mkInterfacesData ∅ None) (tt : @EXT demo_world) [].

Lemma ela_policies_inv_witness :
  policies_good (InterfaceConfigurationData
    (ela_serve_all demo_cfg demo_ela_reqs demo_start)).
Proof.
  destruct (ela_policies_inv demo_cfg demo_ela_reqs (tt : @EXT demo_world) demo_ifaces ["site"]
    (ela_serve_all demo_cfg demo_ela_reqs demo_start)) as [Hp _].
  - reflexivity.
  - exact ela_demo_good.
  - exact Hp.
Defined.

(** ** Devices of the network traffic service *)

Definition is_byte (b : Z) : Prop := 0 ≤ b < 256.

Lemma xtoi_hex_byte b : is_byte b → xtoi (hex_byte b) = Some (b, 2%nat, "").
Proof.
  intros Hb.
  assert (Forall (λ b, xtoi (hex_byte b) = Some (b, 2%nat, "")) (seqZ 0 256)) as Hall.
  { apply (bool_decide_unpack _). vm_compute. exact I. }
  rewrite Forall_forall in Hall. apply Hall. apply elem_of_seqZ. unfold is_byte in Hb. lia.
Qed.

Lemma xtoi2_hex_byte b rest :
  is_byte b → xtoi2 (hex_byte b +:+ String ":" rest) (Some ":"%char) = Some b ∧
              xtoi2 (hex_byte b) (Some ":"%char) = Some b.
Proof.
  intros Hb. pose proof (xtoi_hex_byte b Hb) as E. unfold xtoi2. split.
  - rewrite (bool_decide_eq_false_2 (char_at 2 (hex_byte b +:+ String ":" rest) ≠ _)) by (intros H; by apply H).
    rewrite andb_false_r.
    assert (String.substring 0 2 (hex_byte b +:+ String ":" rest) = hex_byte b) as ->.
    { unfold hex_byte. cbn. by destruct rest. }
    by rewrite E.
  - cbn [hex_byte String.length]. rewrite bool_decide_eq_false_2 by (cbn; lia). cbn [andb].
    change (String.substring 0 2 (hex_byte b)) with (hex_byte b). by rewrite E.
Qed.

(** The text of a six-byte address is parsed to the address. *)
Lemma ParseMAC_String mac :
  length mac = 6%nat → Forall is_byte mac → ParseMAC (HardwareAddr_String mac) = inl mac.
Proof.
  intros Hl Hb.
  destruct mac as [|b0 [|b1 [|b2 [|b3 [|b4 [|b5 [|]]]]]]]; try done. clear Hl.
  repeat match goal with H : Forall _ (_ :: _) |- _ => inversion H; clear H; subst end.
  set (s := HardwareAddr_String _).
  assert (∀ x part b off, String.substring x (17 - x) s = part →
            xtoi2 part (Some ":"%char) = Some b → ∀ bs offs, off = (x, None, Some ":"%char) →
            parse_mac_at s offs = Some bs → parse_mac_at s (off :: offs) = Some (b :: bs)) as Hstep.
  { intros x part b off Hp Hx bs offs -> Hbs. cbn [parse_mac_at default].
    change (String.length s) with 17%nat. rewrite Hp, Hx, Hbs. done. }
  unfold ParseMAC. change (String.length s) with 17%nat. cbn [char_at].
  change (char_at 2 s) with (Some ":"%char).
  rewrite (bool_decide_eq_true_2 (Some ":"%char = Some ":"%char ∨ _)) by (by left).
  change (bool_decide (17 < 14)%nat) with false.
  change ((17 + 1) / 3)%nat with 6%nat. change (bool_decide ((17 + 1) mod 3 ≠ 0)%nat) with false.
  change (bool_decide (6 ≠ 6 ∧ 6 ≠ 8 ∧ 6 ≠ 20)%nat) with false.
  cbn [seq fmap list_fmap Nat.mul Nat.add].
  assert (∀ b rest, is_byte b → xtoi2 (hex_byte b +:+ String ":" rest) (Some ":"%char) = Some b) as Hx
    by (intros; by apply xtoi2_hex_byte).
  erewrite (Hstep 0%nat); [reflexivity|reflexivity|by apply (Hx b0)|reflexivity|].
  erewrite (Hstep 3%nat); [reflexivity|reflexivity|by apply (Hx b1)|reflexivity|].
  erewrite (Hstep 6%nat); [reflexivity|reflexivity|by apply (Hx b2)|reflexivity|].
  erewrite (Hstep 9%nat); [reflexivity|reflexivity|by apply (Hx b3)|reflexivity|].
  erewrite (Hstep 12%nat); [reflexivity|reflexivity|by apply (Hx b4)|reflexivity|].
  erewrite (Hstep 15%nat); [reflexivity|reflexivity|by apply (xtoi2_hex_byte b5 "")|reflexivity|done].
Qed.

Lemma nts_device_ok d :
  length (nd_macaddr d) = 6%nat → Forall is_byte (nd_macaddr d) →
  ∃ dev, nts_device d = inl dev ∧ dev_MacAddr dev = nd_macaddr d ∧ dev_Name dev = nd_name d.
Proof.
  intros Hlen Hb. unfold nts_device. rewrite take_ge by (unfold ETHER_ADDR_LEN; lia).
  rewrite ParseMAC_String by done. by eexists.
Qed.

(** The devices are reported with their own addresses: writing an address out
    and parsing it never fails. *)
Theorem edants_devices_exact `{NesApi} (s : Eda) (l : list nes_api_dev_t) (n : NTS) :
  nes_stats_all_dev (eda_nts s) = (Some l, n) →
  Forall (λ d, length (nd_macaddr d) = 6%nat ∧ Forall is_byte (nd_macaddr d)) l →
  ∃ devs s', GetDevices s = (Ret (inl devs), s') ∧ dev_MacAddr <$> devs = nd_macaddr <$> l ∧
    dev_Name <$> devs = nd_name <$> l.
Proof.
  intros E Hl. unfold GetDevices, nts, mbind at 1, GoM_bind. rewrite E.
  enough (∀ acc, ∃ devs, loop_acc l (λ d acc,
      match nts_device d with inl dev => inl (acc ++ [dev]) | inr err => inr err end) acc
      = inl (acc ++ devs) ∧ dev_MacAddr <$> devs = nd_macaddr <$> l ∧ dev_Name <$> devs = nd_name <$> l)
    as Hloop.
  { destruct (Hloop []) as (devs & -> & H1 & H2). cbn [app]. by exists devs, (mkEda (AppTrafficPolicies s) n (eda_log s)). }
  clear E. induction Hl as [|d l [Hlen Hb] Hl IH]; intros acc.
  { exists []. cbn. by rewrite app_nil_r. }
  destruct (nts_device_ok d Hlen Hb) as (dev & E & H1 & H2). cbn [loop_acc]. rewrite E.
  destruct (IH (acc ++ [dev])) as (devs & -> & H3 & H4). exists (dev :: devs).
  rewrite <- app_assoc. split; [done|]. cbn. by rewrite H1, H2, H3, H4.
Qed.

(** ** Observations *)

(** A new policy that is refused as invalid has already removed the old one. *)
Example eda_invalid_policy_forgets_old :
  let s := exec (serve_policies
             [mkPBTrafficPolicy "app-a" [demo_ip_rule "10.0.0.1" "00:00:00:00:00:0a"];
              mkPBTrafficPolicy "app-a" [demo_ip_rule "10.0.0.1" "bad"]])
             (mkEda ∅ (∅ : @NTS mem_nes) []) in
  size (AppTrafficPolicies s) = 0%nat ∧ size (eda_nts s) = 0%nat.
Proof. vm_compute. auto. Qed.

(** Two applications with one rule in common share its route: clearing the
    policy of the second removes it, although the first still records it. *)
Example eda_shared_rule_lost :
  let s := exec (serve_policies
             [mkPBTrafficPolicy "app-a" [demo_ip_rule "10.0.0.1" "00:00:00:00:00:0a"];
              mkPBTrafficPolicy "app-b" [demo_ip_rule "10.0.0.1" "00:00:00:00:00:0b"];
              mkPBTrafficPolicy "app-b" []])
             (mkEda ∅ (∅ : @NTS mem_nes) []) in
  length (rules_of "app-a" s) = 1%nat ∧ size (eda_nts s) = 0%nat.
Proof. vm_compute. auto. Qed.

Definition port_with (pci : string) (egress : Z) : NtsPort :=
  mkNtsPort pci "" pci IP Upstream egress "" "" "" 1500 [].

(** An egress port equal to the number of ports, or a negative one, passes the
    check and is then out of range. *)
Example ela_egress_out_of_range :
  fill_egress_ids [port_with "0000:01:00.0" 1] [port_with "0000:01:00.0" 1]
  = Panic "index out of range" ∧
  fill_egress_ids [port_with "0000:01:00.0" (-1)] [port_with "0000:01:00.0" (-1)]
  = Panic "index out of range" ∧
  fill_egress_ids [port_with "0000:01:00.0" 2] [port_with "0000:01:00.0" 2]
  = Ret (inr "EgressPort 2 greater than amount of Ports").
Proof. split_and!; vm_compute; reflexivity. Qed.

(** A fallback that is not an interface of the update becomes port 0, here the
    interface itself. *)
Example ela_unknown_fallback_is_port_0 :
  match make_config 1500 [("a", mkinterfaceData (mkPBTrafficPolicy "a" [])
                                  (mkPBNetworkInterface "a" "" 1 1 "" 0 [] "gone"))] with
  | inl c =>
      p_EgressPort <$> nc_Ports c = [0] ∧
      match NtsConfig_of_ini "nts.cfg" (saved_ini c) with
      | Ret (inl c') => p_EgressPortID <$> nc_Ports c' = ["a"]
      | _ => False
      end
  | inr _ => False
  end.
Proof. vm_compute. auto. Qed.

(** The bar of a description is taken for the separator of routes. *)
Example ela_description_adds_route :
  fix_routes ("description = a|prio:1,ue_ip:10.0.0.0/8" +:+ nl)
  = "description = a" +:+ nl +:+ "route = prio:1,ue_ip:10.0.0.0/8" +:+ nl.
Proof. vm_compute. reflexivity. Qed.
