(* ===== verification/CceCtl.v ===== *)
(** * The controller's building blocks (edgecontroller/gorilla)

    The state of the controller as the handlers see it, and the functions
    shared by the handlers: the connection to a node (handler_helpers.go), the
    checks before a row is created or deleted (db_create_checks.go,
    db_delete_checks.go) and the calls to nodes and Kubernetes behind each
    operation (get_handlers.go, create_handlers.go, update_handlers.go,
    delete_handlers.go). *)

From S2P Require Import Prelude Strconv Http Json CceModel CcePolicy CcePersist CceNode.
From stdpp Require Import prelude strings list gmap.
From Stdlib Require Import ZArith.

Local Open Scope Z_scope.

Definition StatusUnprocessableEntity : Z := 422.
Definition StatusNotImplemented : Z := 501.

(** ** Kubernetes *)

Record K8sApp := mkK8sApp {
  k8s_ID : string;
  k8s_Image : string;
  k8s_Cores : Z;
  k8s_Memory : Z;
  k8s_Ports : list (Z * string);
}.

Inductive k8s_cmd := K8sStart | K8sStop | K8sRestart | K8sUndeploy | K8sDeleteNetworkPolicy.

(** The client of the Kubernetes master: its calls may fail. *)
Class K8sClient := {
  K8S : Type;
  K8s_Deploy : string → K8sApp → K8S → error * K8S;
  K8s_do : k8s_cmd → string → string → K8S → error * K8S;
  K8s_Status : string → string → K8S → (string * error) * K8S;
  K8s_GetAppIDByIP : string → string → K8S → (string * error) * K8S;
  K8s_ApplyNetworkPolicy : string → string → NetworkPolicy → K8S → error * K8S;
}.

Definition toK8SApp (app : App) : K8sApp :=
  mkK8sApp (App_ID app) (App_ID app +:+ ":latest") (App_Cores app) (App_Memory app)
    ((λ p, (wrap_int32 (PortProto_Port p), PortProto_Protocol p)) <$> App_Ports app).

(** ** The controller *)

Inductive OrchestrationMode :=
| OrchestrationModeNative
| OrchestrationModeKubernetes
| OrchestrationModeKubernetesOVN.

#[export] Instance OrchestrationMode_eq_dec : EqDecision OrchestrationMode.
Proof. solve_decision. Defined.

Record AuthCreds := mkAuthCreds { Username : string; Password : string }.

#[export] Instance AuthCreds_eq_dec : EqDecision AuthCreds.
Proof. solve_decision. Defined.

Record Controller := mkController {
  ctrl_OrchestrationMode : OrchestrationMode;
  ctrl_ELAPort : string;
  ctrl_EVAPort : string;
  ctrl_AdminCreds : AuthCreds;
}.

Definition defaultELAPort : string := "42101".
Definition defaultEVAPort : string := "42102".

Definition port_or (port dflt : string) : string := if str_empty port then dflt else port.

Definition ela_port (ctrl : Controller) : string := port_or (ctrl_ELAPort ctrl) defaultELAPort.
Definition eva_port (ctrl : Controller) : string := port_or (ctrl_EVAPort ctrl) defaultEVAPort.

(** Applications run under Kubernetes. *)
Definition on_kubernetes (ctrl : Controller) : bool :=
  bool_decide (ctrl_OrchestrationMode ctrl = OrchestrationModeKubernetes)
  || bool_decide (ctrl_OrchestrationMode ctrl = OrchestrationModeKubernetesOVN).

(** ** The structures of the API (edgecontroller/swagger) *)

Record NodeSummary := mkNodeSummary {
  ns_ID : string; ns_Name : string; ns_Location : string; ns_Serial : string;
}.

Record AppSummary := mkAppSummary {
  as_ID : string; as_Type : string; as_Name : string; as_Version : string;
  as_Vendor : string; as_Description : string;
}.

Record AppDetail := mkAppDetail {
  ad_Summary : AppSummary;
  ad_Cores : Z;
  ad_Memory : Z;
  ad_Ports : list PortProto;
  ad_Source : string;
  ad_EPAFeatures : list EPAFeature;
}.

Record PolicySummary := mkPolicySummary { ps_ID : string; ps_Name : string }.

Record PolicyDetail := mkPolicyDetail {
  pd_Summary : PolicySummary;
  pd_Rules : list (option TrafficRule);
}.

Record PolicyKubeOVNDetail := mkPolicyKubeOVNDetail {
  pk_Summary : PolicySummary;
  pk_IngressRules : list (option IngressRule);
  pk_EgressRules : list (option EgressRule);
}.

Record SwagARecord := mkSwagARecord {
  sa_Name : string; sa_Description : string; sa_Alias : bool; sa_Values : list string;
}.

Record SwagForwarder := mkSwagForwarder {
  sf_Name : string; sf_Description : string; sf_Value : string;
}.

Record DNSDetail := mkDNSDetail {
  dd_ID : string;
  dd_Name : string;
  dd_A : list SwagARecord;
  dd_Forwarders : list SwagForwarder;
}.

Record NodeAppDetail := mkNodeAppDetail {
  nad_ID : string; nad_Status : string; nad_Command : string;
}.

(** What a handler writes; [InterfaceSummary] has the members of
    [NetworkInterface]. *)
Inductive CtlBody :=
| BText (s : string)
| BId (id : string)
| BToken (token : string)
| BNodes (l : list NodeSummary)
| BNode (n : NodeSummary)
| BApps (l : list AppSummary)
| BApp (a : AppDetail)
| BPolicies (l : list PolicySummary)
| BPolicy (p : PolicyDetail)
| BPolicyKubeOVN (p : PolicyKubeOVNDetail)
| BDns (d : DNSDetail)
| BIfaces (l : list NetworkInterface)
| BIface (i : NetworkInterface)
| BBase (id : string)
| BNodeApps (l : list string)
| BNodeApp (a : NodeAppDetail)
| BNfd (l : list (string * string)).

(** The state: the database, the nodes, Kubernetes, the source of identifiers
    and the response being written. *)
Record Ctl `{CceDB, NodeNet, K8sClient, Uuid} := mkCtl {
  ctl_db : DB;
  ctl_net : NET;
  ctl_k8s : K8S;
  ctl_ids : IDS;
  ctl_w : ResponseWriter CtlBody;
}.

Section state.
Context `{CceDB, NodeNet, K8sClient, Uuid}.

(** Operations on the parts of the state. *)
Definition db {A} (m : GoM DB A) : GoM Ctl A := λ s,
  let '(r, d) := m (ctl_db s) in
  (r, mkCtl _ _ _ _ d (ctl_net s) (ctl_k8s s) (ctl_ids s) (ctl_w s)).

Definition net {A} (m : GoM NET A) : GoM Ctl A := λ s,
  let '(r, n) := m (ctl_net s) in
  (r, mkCtl _ _ _ _ (ctl_db s) n (ctl_k8s s) (ctl_ids s) (ctl_w s)).

Definition k8s {A} (m : K8S → A * K8S) : GoM Ctl A := λ s,
  let '(a, k) := m (ctl_k8s s) in
  (Ret a, mkCtl _ _ _ _ (ctl_db s) (ctl_net s) k (ctl_ids s) (ctl_w s)).

(** [uuid.New()]. *)
Definition uuid_New : GoM Ctl string := λ s,
  let '(id, i) := NewV4 (ctl_ids s) in
  (Ret id, mkCtl _ _ _ _ (ctl_db s) (ctl_net s) (ctl_k8s s) i (ctl_w s)).

Definition on_w (f : ResponseWriter CtlBody → ResponseWriter CtlBody) : GoM Ctl unit := λ s,
  (Ret tt, mkCtl _ _ _ _ (ctl_db s) (ctl_net s) (ctl_k8s s) (ctl_ids s) (f (ctl_w s))).

(** [w.WriteHeader(code)], [w.Write(b)] and both. *)
Definition w_header (code : Z) : GoM Ctl unit := on_w (WriteHeader code).
Definition w_write (b : CtlBody) : GoM Ctl unit := on_w (Write b).
Definition w_fail (code : Z) (b : CtlBody) : GoM Ctl unit := w_header code ;; w_write b.

(** [w.Header().Set("Content-Type", "application/json")] and the body. *)
Definition w_json (b : CtlBody) : GoM Ctl unit :=
  on_w (Header_Set content_type "application/json") ;; w_write b.

(** A type assertion or method call on a nil interface value. *)
Definition non_nil {A} (o : option A) : GoM Ctl A :=
  match o with
  | Some a => mret a
  | None => go_panic "interface conversion: interface is nil"
  end.

(** The text of a client's error. *)
Definition client_text (e : option client_error) : error := ce_Text <$> e.

(** ** Connecting to a node (handler_helpers.go) *)

Definition connectNode `{NodeEntity A} (e : A) (port : string)
    : GoM Ctl (ClientConn + string) :=
  '(targets, err) ← db (PS.Filter (A:=NodeGRPCTarget) [("node_id", GetNodeID e)]);
  match err, targets with
  | Some err, _ => mret (inr ("could not fetch gRPC target from DB: " +:+ err))
  | None, [target] =>
      let nodeCC := mkClientConn (NodeGRPCTarget_GRPCTarget target) port in
      err ← net (Connect nodeCC);
      match err with
      | Some err => mret (inr ("could not connect to node: " +:+ err))
      | None => mret (inl nodeCC)
      end
  | None, _ => mret (inr "filter returned several targets or none")
  end.

(** ** Checks before rows are created or deleted *)

(** [Filter] on [ws] finds rows: the given status and text; the text of a
    failed query comes with status 500; 0 is no objection. *)
Definition refuse_rows A `{Filterable A} (ws : list (string * string)) (text : string)
    : GoM Ctl (Z * error) :=
  '(es, err) ← db (PS.Filter (A:=A) ws);
  match err with
  | Some err => mret (StatusInternalServerError, Some err)
  | None => if bool_decide (es = []) then mret (0, nil_err)
            else mret (StatusUnprocessableEntity, Some text)
  end.

(** One check after the other. *)
Definition both_checks (a b : GoM Ctl (Z * error)) : GoM Ctl (Z * error) :=
  '(code, err) ← a;
  match err with
  | Some err => mret (code, Some err)
  | None => b
  end.

Definition checkDBCreateNodesApps (e : NodeApp) : GoM Ctl (Z * error) :=
  refuse_rows NodeApp [("node_id", NodeApp_NodeID e); ("app_id", NodeApp_AppID e)]
    ("duplicate record in nodes_apps detected for node_id " +:+ NodeApp_NodeID e
     +:+ " and app_id " +:+ NodeApp_AppID e).

Definition checkDBCreateDNSConfigsAppAliases (e : DNSConfigAppAlias) : GoM Ctl (Z * error) :=
  refuse_rows DNSConfigAppAlias
    [("dns_config_id", DNSConfigAppAlias_DNSConfigID e); ("app_id", DNSConfigAppAlias_AppID e)]
    ("duplicate record in dns_configs_app_aliases detected for dns_config_id "
     +:+ DNSConfigAppAlias_DNSConfigID e +:+ " and app_id " +:+ DNSConfigAppAlias_AppID e).

Definition checkDBCreateNodesDNSConfigs (e : NodeDNSConfig) : GoM Ctl (Z * error) :=
  refuse_rows NodeDNSConfig [("node_id", NodeDNSConfig_NodeID e)]
    ("duplicate record in nodes_dns_configs detected for node_id " +:+ NodeDNSConfig_NodeID e).

Definition in_use_text (what id table : string) : string :=
  "cannot delete " +:+ what +:+ " " +:+ id +:+ ": record in use in " +:+ table.

Definition checkDBDeleteNodes (id : string) : GoM Ctl (Z * error) :=
  both_checks
    (refuse_rows NodeApp [("node_id", id)] (in_use_text "node_id" id "nodes_apps"))
    (refuse_rows NodeDNSConfig [("node_id", id)] (in_use_text "node_id" id "nodes_dns_configs")).

Definition checkDBDeleteApps (id : string) : GoM Ctl (Z * error) :=
  both_checks
    (refuse_rows DNSConfigAppAlias [("app_id", id)]
       (in_use_text "app_id" id "dns_configs_app_aliases"))
    (refuse_rows NodeApp [("app_id", id)] (in_use_text "app_id" id "nodes_apps")).

Definition checkDBDeleteNodesApps (id : string) : GoM Ctl (Z * error) :=
  refuse_rows NodeAppTrafficPolicy [("nodes_apps_id", id)]
    (in_use_text "node_app_id" id "nodes_apps_traffic_policies").

Definition checkDBDeleteTrafficPolicies (id : string) : GoM Ctl (Z * error) :=
  refuse_rows NodeAppTrafficPolicy [("traffic_policy_id", id)]
    (in_use_text "traffic_policy_id" id "nodes_apps_traffic_policies").

Definition checkDBDeleteDNSConfigs (id : string) : GoM Ctl (Z * error) :=
  both_checks
    (refuse_rows DNSConfigAppAlias [("dns_config_id", id)]
       (in_use_text "dns_config_id" id "dns_configs_app_aliases"))
    (refuse_rows NodeDNSConfig [("dns_config_id", id)]
       (in_use_text "dns_config_id" id "nodes_dns_configs")).

(** ** Calls behind the operations *)

(** [for _, x := range l { if err := f(x); err != nil { return err } }]. *)
Definition call_each {X} (l : list X) (f : X → GoM Ctl error) : GoM Ctl error :=
  r ← for_acc l (λ x (_ : unit), err ← f x;
        mret (match err with Some err => inr err | None => inl tt end)) tt;
  mret (match r with inl _ => nil_err | inr err => Some err end).

(** A record of a configuration may be nil. *)
Definition each_record (l : list (option DNSARecord)) (f : DNSARecord → GoM Ctl error)
    : GoM Ctl error :=
  call_each l (λ r, match r with
                    | Some r => f r
                    | None => go_panic "nil pointer dereference"
                    end).

Definition net_err (m : GoM NET (option client_error)) : GoM Ctl error :=
  e ← net m; mret (client_text e).

(** The record that stands for an alias on the node. *)
Definition alias_record (a : DNSConfigAppAlias) : DNSARecord :=
  mkDNSARecord (DNSConfigAppAlias_AppID a) (DNSConfigAppAlias_Description a)
    [DNSConfigAppAlias_AppID a].

Context (ctrl : Controller).

Definition handleGetNodes (e : Node) : GoM Ctl (NodeResp + string) :=
  c ← connectNode e (ela_port ctrl);
  match c with
  | inr err => mret (inr err)
  | inl nodeCC =>
      '(nis, err) ← net (IfaceSvcCli_GetAll nodeCC);
      match err with
      | Some err => mret (inr (ce_Text err))
      | None => mret (inl (mkNodeResp e (Some <$> nis)))
      end
  end.

Definition handleGetNodesApps (e : NodeApp) : GoM Ctl (NodeAppResp + string) :=
  c ← connectNode e (eva_port ctrl);
  match c with
  | inr err => mret (inr err)
  | inl nodeCC =>
      '(s, err) ← net (AppLifeSvcCli_GetStatus nodeCC (NodeApp_AppID e));
      match err with
      | Some err => mret (inr (ce_Text err))
      | None =>
          if bool_decide (ctrl_OrchestrationMode ctrl = OrchestrationModeNative)
             || bool_decide (s ∈ [Unknown; Deploying; ErrorStatus])
          then mret (inl (mkNodeAppResp e (LifecycleStatus_String s)))
          else
            '(k8sStatus, err) ← k8s (K8s_Status (NodeApp_NodeID e) (NodeApp_AppID e));
            match err with
            | Some err => mret (inr err)
            | None => mret (inl (mkNodeAppResp e k8sStatus))
            end
      end
  end.

Definition handleCreateNodesApps (e : NodeApp) : GoM Ctl error :=
  '(app, err) ← db (PS.Read (A:=App) (NodeApp_AppID e));
  match err with
  | Some err => mret (Some ("Error fetching app from DB: " +:+ err))
  | None =>
      app ← non_nil app;
      c ← connectNode e (eva_port ctrl);
      match c with
      | inr err => mret (Some ("Error connecting to node: " +:+ err))
      | inl nodeCC =>
          err ← net_err (AppDeploySvcCli_Deploy nodeCC app);
          match err with
          | Some err => mret (Some err)
          | None =>
              if on_kubernetes ctrl
              then k8s (K8s_Deploy (GetNodeID e) (toK8SApp app))
              else mret nil_err
          end
      end
  end.

Definition handleCreateNodesDNSConfigs (e : NodeDNSConfig) : GoM Ctl error :=
  '(cfg, err) ← db (PS.Read (A:=DNSConfig) (NodeDNSConfig_DNSConfigID e));
  match err with
  | Some err => mret (Some err)
  | None =>
      cfg ← non_nil cfg;
      c ← connectNode e (ela_port ctrl);
      match c with
      | inr err => mret (Some err)
      | inl nodeCC =>
          err ← each_record (DNSConfig_ARecords cfg) (λ r, net_err (DNSSvcCli_SetA nodeCC r));
          match err with
          | Some err => mret (Some err)
          | None => net_err (DNSSvcCli_SetForwarders nodeCC (DNSConfig_Forwarders cfg))
          end
      end
  end.

(** Sets or deletes, on the node of [nodeDNS], the aliases, the records and
    the forwarders of a configuration. *)
Definition dns_on_node (setA : ClientConn → DNSARecord → GoM NET (option client_error))
    (setF : ClientConn → list (option DNSForwarder) → GoM NET (option client_error))
    (nodeDNS : NodeDNSConfig) (cfg : DNSConfig) (aliases : list DNSConfigAppAlias)
    : GoM Ctl error :=
  c ← connectNode nodeDNS (ela_port ctrl);
  match c with
  | inr err => mret (Some err)
  | inl nodeCC =>
      err ← call_each aliases (λ a, net_err (setA nodeCC (alias_record a)));
      match err with
      | Some err => mret (Some err)
      | None =>
          err ← each_record (DNSConfig_ARecords cfg) (λ r, net_err (setA nodeCC r));
          match err with
          | Some err => mret (Some err)
          | None =>
              if bool_decide (length (DNSConfig_Forwarders cfg) ≠ 0%nat)
              then net_err (setF nodeCC (DNSConfig_Forwarders cfg))
              else mret nil_err
          end
      end
  end.

Definition handleCreateNodesDNSConfigsWithAliases
    : NodeDNSConfig → DNSConfig → list DNSConfigAppAlias → GoM Ctl error :=
  dns_on_node DNSSvcCli_SetA DNSSvcCli_SetForwarders.

(** The configuration read from the database may be missing. *)
Definition handleDeleteNodesDNSConfigsWithAliases (nodeDNS : NodeDNSConfig)
    (cfg : option DNSConfig) (aliases : list DNSConfigAppAlias) : GoM Ctl error :=
  match cfg with
  | Some cfg => dns_on_node DNSSvcCli_DeleteA DNSSvcCli_DeleteForwarders nodeDNS cfg aliases
  | None =>
      (* the assertion on the configuration comes after the aliases *)
      c ← connectNode nodeDNS (ela_port ctrl);
      match c with
      | inr err => mret (Some err)
      | inl nodeCC =>
          err ← call_each aliases (λ a, net_err (DNSSvcCli_DeleteA nodeCC (alias_record a)));
          match err with
          | Some err => mret (Some err)
          | None => go_panic "interface conversion: interface is nil"
          end
      end
  end.

Definition handleUpdateNodes (e : NodeReq) : GoM Ctl (Z * error) :=
  c ← connectNode (NodeReq_Node e) (ela_port ctrl);
  match c with
  | inr err => mret (StatusInternalServerError, Some err)
  | inl nodeCC =>
      err ← match NodeReq_NetworkInterfaces e with
            | None => mret None
            | Some nis => net (IfaceSvcCli_BulkUpdate nodeCC nis)
            end;
      match err with
      | Some err =>
          if st_NotFound (ce_Cause err)
          then mret (StatusNotFound, Some (st_Message (ce_Cause err)))
          else mret (StatusInternalServerError, Some (ce_Text err))
      | None =>
          err ← call_each (NodeReq_TrafficPolicies e) (λ nitp,
            '(tp, err) ← db (PS.Read (A:=TrafficPolicy)
                               (NetworkInterfaceTrafficPolicy_TrafficPolicyID nitp));
            match err with
            | Some err => mret (Some err)
            | None =>
                net_err (IfacePolicySvcCli_Set nodeCC
                  (NetworkInterfaceTrafficPolicy_NetworkInterfaceID nitp)
                  (Some (default (mkTrafficPolicy "" "" []) tp)))
            end);
          match err with
          | Some err => mret (StatusInternalServerError, Some err)
          | None => mret (0, nil_err)
          end
      end
  end.

Definition handleUpdateNodesApps (e : NodeAppReq) : GoM Ctl (Z * error) :=
  let n_a := NodeAppReq_NodeApp e in
  c ← connectNode n_a (eva_port ctrl);
  match c with
  | inr err => mret (StatusInternalServerError, Some err)
  | inl nodeCC =>
      let cmd := NodeAppReq_Cmd e in
      let id := NodeApp_AppID n_a in
      let node := NodeApp_NodeID n_a in
      err ← (if bool_decide (ctrl_OrchestrationMode ctrl = OrchestrationModeNative) then
               if bool_decide (cmd = "start") then net_err (AppLifeSvcCli_Start nodeCC id)
               else if bool_decide (cmd = "stop") then net_err (AppLifeSvcCli_Stop nodeCC id)
               else if bool_decide (cmd = "restart")
               then net_err (AppLifeSvcCli_Restart nodeCC id)
               else mret nil_err
             else
               if bool_decide (cmd = "start") then k8s (K8s_do K8sStart node id)
               else if bool_decide (cmd = "stop") then k8s (K8s_do K8sStop node id)
               else if bool_decide (cmd = "restart") then k8s (K8s_do K8sRestart node id)
               else mret nil_err);
      match err with
      | Some err => mret (StatusInternalServerError, Some err)
      | None => mret (0, nil_err)
      end
  end.

Definition handleDeleteNodesApps (e : NodeApp) : GoM Ctl error :=
  '(app, err) ← db (PS.Read (A:=App) (NodeApp_AppID e));
  match err with
  | Some err => mret (Some err)
  | None =>
      c ← connectNode e (eva_port ctrl);
      match c with
      | inr err => mret (Some err)
      | inl nodeCC =>
          err ← (if on_kubernetes ctrl
                 then k8s (K8s_do K8sUndeploy (NodeApp_NodeID e) (NodeApp_AppID e))
                 else mret nil_err);
          match err with
          | Some err => mret (Some err)
          | None =>
              app ← non_nil app;
              net_err (AppDeploySvcCli_Undeploy nodeCC (App_ID app))
          end
      end
  end.

Definition handleDeleteNodesDNSConfigs (e : NodeDNSConfig) : GoM Ctl error :=
  '(cfg, err) ← db (PS.Read (A:=DNSConfig) (NodeDNSConfig_DNSConfigID e));
  match err with
  | Some err => mret (Some err)
  | None =>
      cfg ← non_nil cfg;
      c ← connectNode e (ela_port ctrl);
      match c with
      | inr err => mret (Some err)
      | inl nodeCC =>
          err ← each_record (DNSConfig_ARecords cfg) (λ r, net_err (DNSSvcCli_DeleteA nodeCC r));
          match err with
          | Some err => mret (Some err)
          | None => net_err (DNSSvcCli_DeleteForwarders nodeCC (DNSConfig_Forwarders cfg))
          end
      end
  end.

(** ** Forced deletion of what belongs to a node (delete_handlers.go) *)

(** The error of a deletion whose count is not looked at. *)
Definition delete_row A `{Persistable A} (id : string) : GoM Ctl error :=
  '(_, err) ← db (PS.Delete A id); mret err.

(** Runs [k] unless [a] reports an error. *)
Definition unless_err (a k : GoM Ctl error) : GoM Ctl error :=
  err ← a; match err with Some err => mret (Some err) | None => k end.

Definition handleForcedDeleteNodesDNSConfigs (nodeID : string) : GoM Ctl error :=
  '(persistedNode, err) ← db (PS.Filter (A:=NodeDNSConfig) [("node_id", nodeID)]);
  match err, persistedNode with
  | Some err, _ => mret (Some err)
  | None, [] => mret nil_err
  | None, nodeDNS :: _ =>
      let cfgID := NodeDNSConfig_DNSConfigID nodeDNS in
      '(cfg, err) ← db (PS.Read (A:=DNSConfig) cfgID);
      match err with
      | Some err => mret (Some err)
      | None =>
          '(aliases, err) ← db (PS.Filter (A:=DNSConfigAppAlias) [("dns_config_id", cfgID)]);
          match err with
          | Some err => mret (Some err)
          | None =>
              unless_err (delete_row NodeDNSConfig cfgID) (
              unless_err (delete_row NodeDNSConfig (GetID nodeDNS)) (
              unless_err (call_each aliases (λ a, delete_row DNSConfigAppAlias (GetID a))) (
              cfg ← non_nil cfg; delete_row DNSConfig (GetID cfg))))
          end
      end
  end.

(** [ok, err := Delete(...)] in a loop that gives up, with no error, when the
    row was not there. *)
Definition delete_all {X} (l : list X) (del : X → GoM Ctl (bool * error))
    : GoM Ctl (option error) :=
  r ← for_acc l (λ x (_ : unit),
        '(ok, err) ← del x;
        match err with
        | Some err => mret (inr (Some err))
        | None => if ok : bool then mret (inl tt) else mret (inr nil_err)
        end) tt;
  mret (match r with inl _ => None | inr res => Some res end).

Definition handleForceDeleteNodesApps (nodeID : string) : GoM Ctl error :=
  '(apps, err) ← db (PS.Filter (A:=NodeApp) [("node_id", nodeID)]);
  match err with
  | Some err => mret (Some err)
  | None =>
      r ← for_acc apps (λ app (_ : unit),
        '(policies, err) ← db (PS.Filter (A:=NodeAppTrafficPolicy) [("nodes_apps_id", GetID app)]);
        match err with
        | Some err => mret (inr (Some err))
        | None =>
            stop ← delete_all policies (λ p, db (PS.Delete NodeAppTrafficPolicy (GetID p)));
            match stop with
            | Some res => mret (inr res)
            | None =>
                err ← delete_row NodeApp (GetID app);
                mret (match err with Some err => inr (Some err) | None => inl tt end)
            end
        end) tt;
      mret (match r with inl _ => nil_err | inr res => res end)
  end.

Definition handleForceDeleteNodesInterfacePolicy (nodeID : string) : GoM Ctl error :=
  '(policies, err) ← db (PS.Filter (A:=NodeInterfaceTrafficPolicy) [("node_id", nodeID)]);
  match err with
  | Some err => mret (Some err)
  | None =>
      stop ← delete_all policies (λ p, db (PS.Delete NodeInterfaceTrafficPolicy (GetID p)));
      mret (default nil_err stop)
  end.

Definition handleDeleteNode (nodeID : string) : GoM Ctl error :=
  '(_, err) ← checkDBDeleteNodes nodeID;
  match err with
  | Some err => mret (Some err)
  | None =>
      '(persisted, err) ← db (PS.Read (A:=Node) nodeID);
      match err, persisted with
      | Some err, _ => mret (Some err)
      | None, None => mret (errors_New ("No node found for node ID: " +:+ nodeID))
      | None, Some _ =>
          '(ok, err) ← db (PS.Delete Node nodeID);
          match err with
          | Some err => mret (Some err)
          | None => if ok : bool then mret nil_err
                    else mret (errors_New "Fetched entity could not be used")
          end
      end
  end.
End state.
