(* ===== verification/CceRest.v ===== *)
(** * The REST API of the controller, entities (edgecontroller/gorilla)

    The handlers of nodes, applications, traffic policies and DNS
    configurations (swagger.go, handler.go).  A handler runs on the state of
    [CceCtl], which holds the response being written; the body of a request is
    [None] when it is not the JSON of the expected structure.  The second part
    has the handlers of what runs on a node. *)

From S2P Require Import Prelude Strconv Http Json CceModel CcePolicy CcePersist CceNode CceCtl.
From stdpp Require Import prelude strings list gmap.
From Stdlib Require Import ZArith.

Local Open Scope Z_scope.

(** [strconv.ParseBool]. *)
Definition ParseBool (s : string) : option bool :=
  if bool_decide (s ∈ ["1"; "t"; "T"; "TRUE"; "true"; "True"]) then Some true
  else if bool_decide (s ∈ ["0"; "f"; "F"; "FALSE"; "false"; "False"]) then Some false
  else None.

Section handlers.
Context `{CceDB, NodeNet, K8sClient, Uuid, Url}.

(** ** Parts of handlers *)

(** Refuses an entity that does not validate. *)
Definition validated `{Validatable A} (a : A) (k : GoM Ctl unit) : GoM Ctl unit :=
  err ← lift_outcome (Validate a);
  match err with
  | Some err => w_fail StatusBadRequest (BText ("Validation failed: " +:+ err))
  | None => k
  end.

(** Unmarshals the payload. *)
Definition with_body {A} (body : option A) (k : A → GoM Ctl unit) : GoM Ctl unit :=
  match body with
  | None => w_header StatusBadRequest
  | Some a => k a
  end.

(** Persists an update. *)
Definition update_entity `{Persistable A} (a : A) : GoM Ctl unit :=
  err ← db (PS.BulkUpdate [a]);
  match err with
  | Some _ => w_header StatusInternalServerError
  | None => mret tt
  end.

(** Reads an entity: 500 on an error, 404 if it is not there. *)
Definition with_entity A `{Persistable A} (id : string) (k : A → GoM Ctl unit) : GoM Ctl unit :=
  '(persisted, err) ← db (PS.Read (A:=A) id);
  match err, persisted with
  | Some _, _ => w_header StatusInternalServerError
  | None, None => w_header StatusNotFound
  | None, Some a => k a
  end.

(** Reads all entities: 500 on an error. *)
Definition with_all A `{Persistable A} (k : list A → GoM Ctl unit) : GoM Ctl unit :=
  '(persisted, err) ← db (PS.ReadAll (A:=A));
  match err with
  | Some _ => w_header StatusInternalServerError
  | None => k persisted
  end.

(** Filters: 500 on an error. *)
Definition with_filter A `{Filterable A} (ws : list (string * string))
    (k : list A → GoM Ctl unit) : GoM Ctl unit :=
  '(persisted, err) ← db (PS.Filter (A:=A) ws);
  match err with
  | Some _ => w_header StatusInternalServerError
  | None => k persisted
  end.

(** ** Creating entities (handler.go) *)

(** The functions of a [handler] that [create] uses. *)
Record handler A := mkHandler {
  h_checkDBCreate : option (A → GoM Ctl (Z * error));
  h_handleCreate : option (A → GoM Ctl error);
}.
Arguments mkHandler {A} _ _.
Arguments h_checkDBCreate {A} _.
Arguments h_handleCreate {A} _.

Definition handler_create `{Persistable A, Validatable A} (h : handler A) (body : option A)
    : GoM Ctl unit :=
  with_body body (λ p,
  if bool_decide (GetID p ≠ "") then
    w_fail StatusBadRequest (BText "Validation failed: id cannot be specified in POST request")
  else
    id ← uuid_New;
    let p := SetID id p in
    validated p (
    '(code, err) ← match h_checkDBCreate h with
                   | None => mret (0, nil_err)
                   | Some check => check p
                   end;
    match err with
    | Some err => w_fail code (BText err)
    | None =>
        err ← match h_handleCreate h with
              | None => mret nil_err
              | Some handle => handle p
              end;
        match err with
        | Some err => w_fail StatusInternalServerError (BText err)
        | None =>
            err ← db (PS.Create p);
            match err with
            | Some _ => w_header StatusInternalServerError
            | None =>
                on_w (Header_Set content_type "application/json") ;;
                w_header StatusCreated ;;
                w_write (BId (GetID p))
            end
        end
    end)).

(** The handlers of [NewGorilla] that create entities. *)
Definition nodesHandler : handler Node := mkHandler None None.
Definition appsHandler : handler App := mkHandler None None.
Definition trafficPoliciesHandler : handler TrafficPolicy := mkHandler None None.
Definition trafficPoliciesKubeOVNHandler : handler TrafficPolicyKubeOVN := mkHandler None None.

(** Deletes an entity that nothing refers to. *)
Definition delete_entity A `{Persistable A} (check : string → GoM Ctl (Z * error)) (id : string)
    : GoM Ctl unit :=
  '(code, err) ← check id;
  match err with
  | Some err => w_fail code (BText err)
  | None =>
      '(persisted, err) ← db (PS.Read (A:=A) id);
      match err, persisted with
      | Some err, _ => w_fail StatusInternalServerError (BText err)
      | None, None => w_header StatusNotFound
      | None, Some _ =>
          '(ok, err) ← db (PS.Delete A id);
          match err with
          | Some _ => w_header StatusInternalServerError
          | None => if ok : bool then mret tt else w_header StatusInternalServerError
          end
      end
  end.

(** ** Nodes *)

Definition node_summary (n : Node) : NodeSummary :=
  mkNodeSummary (Node_ID n) (Node_Name n) (Node_Location n) (Node_Serial n).

Definition swagGETNodes : GoM Ctl unit :=
  with_all Node (λ persisted, w_json (BNodes (node_summary <$> persisted))).

Definition swagPOSTNodes : option Node → GoM Ctl unit := handler_create nodesHandler.

Definition swagGETNodeByID (node_id : string) : GoM Ctl unit :=
  with_entity Node node_id (λ n, w_json (BNode (node_summary n))).

Definition swagPATCHNodeByID (node_id : string) (body : option NodeSummary) : GoM Ctl unit :=
  with_body body (λ node,
  let persisted := mkNode node_id (ns_Name node) (ns_Location node) (ns_Serial node) in
  validated persisted (update_entity persisted)).

Definition swagDELETENodeByID (node_id : string) (forceQuery : list string) : GoM Ctl unit :=
  let forced := match forceQuery with [] => Some false | q :: _ => ParseBool q end in
  match forced with
  | None => w_header StatusBadRequest
  | Some forced =>
      err ← (if forced : bool then
               unless_err (handleForcedDeleteNodesDNSConfigs node_id) (
               unless_err (handleForceDeleteNodesApps node_id)
               (handleForceDeleteNodesInterfacePolicy node_id))
             else mret nil_err);
      match err with
      | Some _ => w_header StatusInternalServerError
      | None =>
          err ← handleDeleteNode node_id;
          match err with
          | Some err => w_fail StatusInternalServerError (BText err)
          | None => mret tt
          end
      end
  end.

(** ** Applications *)

Definition app_summary (a : App) : AppSummary :=
  mkAppSummary (App_ID a) (App_Type a) (App_Name a) (App_Version a) (App_Vendor a)
    (App_Description a).

Definition app_detail (a : App) : AppDetail :=
  mkAppDetail (app_summary a) (App_Cores a) (App_Memory a) (App_Ports a) (App_Source a)
    (App_EPAFeatures a).

Definition app_of_detail (d : AppDetail) : App :=
  let s := ad_Summary d in
  mkApp (as_ID s) (as_Type s) (as_Name s) (as_Version s) (as_Vendor s) (as_Description s)
    (ad_Cores d) (ad_Memory d) (ad_Ports d) (ad_Source d) (ad_EPAFeatures d).

Definition swagGETApps : GoM Ctl unit :=
  with_all App (λ persisted, w_json (BApps (app_summary <$> persisted))).

Definition swagPOSTApps : option App → GoM Ctl unit := handler_create appsHandler.

Definition swagGETAppByID (app_id : string) : GoM Ctl unit :=
  with_entity App app_id (λ a, w_json (BApp (app_detail a))).

(** The identifier is that of the body, not of the path. *)
Definition swagPATCHAppByID (app_id : string) (body : option AppDetail) : GoM Ctl unit :=
  with_body body (λ app,
  let persisted := app_of_detail app in
  validated persisted (update_entity persisted)).

Definition swagDELETEAppByID (app_id : string) : GoM Ctl unit :=
  delete_entity App checkDBDeleteApps app_id.

(** ** Traffic policies *)

Definition policy_summary (p : TrafficPolicy) : PolicySummary :=
  mkPolicySummary (TrafficPolicy_ID p) (TrafficPolicy_Name p).

Definition swagGETPolicies : GoM Ctl unit :=
  with_all TrafficPolicy (λ persisted, w_json (BPolicies (policy_summary <$> persisted))).

Definition swagPOSTPolicies : option TrafficPolicy → GoM Ctl unit :=
  handler_create trafficPoliciesHandler.

Definition swagGETPolicyByID (policy_id : string) : GoM Ctl unit :=
  with_entity TrafficPolicy policy_id (λ p,
    w_json (BPolicy (mkPolicyDetail (policy_summary p) (TrafficPolicy_Rules p)))).

Definition swagPATCHPolicyByID (policy_id : string) (body : option PolicyDetail)
    : GoM Ctl unit :=
  with_body body (λ policy,
  let persisted := mkTrafficPolicy (ps_ID (pd_Summary policy)) (ps_Name (pd_Summary policy))
                     (pd_Rules policy) in
  validated persisted (update_entity persisted)).

Definition swagDELETEPolicyByID (policy_id : string) : GoM Ctl unit :=
  delete_entity TrafficPolicy checkDBDeleteTrafficPolicies policy_id.

Definition policy_kube_ovn_summary (p : TrafficPolicyKubeOVN) : PolicySummary :=
  mkPolicySummary (TrafficPolicyKubeOVN_ID p) (TrafficPolicyKubeOVN_Name p).

Definition swagGETKubeOVNPolicies : GoM Ctl unit :=
  with_all TrafficPolicyKubeOVN (λ persisted,
    w_json (BPolicies (policy_kube_ovn_summary <$> persisted))).

Definition swagPOSTKubeOVNPolicies : option TrafficPolicyKubeOVN → GoM Ctl unit :=
  handler_create trafficPoliciesKubeOVNHandler.

Definition swagGETKubeOVNPolicyByID (policy_id : string) : GoM Ctl unit :=
  with_entity TrafficPolicyKubeOVN policy_id (λ p,
    w_json (BPolicyKubeOVN (mkPolicyKubeOVNDetail (policy_kube_ovn_summary p)
      (TrafficPolicyKubeOVN_Ingress p) (TrafficPolicyKubeOVN_Egress p)))).

Definition swagPATCHKubeOVNPolicyByID (policy_id : string) (body : option PolicyKubeOVNDetail)
    : GoM Ctl unit :=
  with_body body (λ policy,
  let persisted := mkTrafficPolicyKubeOVN (ps_ID (pk_Summary policy))
                     (ps_Name (pk_Summary policy)) (pk_IngressRules policy)
                     (pk_EgressRules policy) in
  validated persisted (update_entity persisted)).

Definition swagDELETEKubeOVNPolicyByID (policy_id : string) : GoM Ctl unit :=
  delete_entity TrafficPolicyKubeOVN checkDBDeleteTrafficPolicies policy_id.

(** ** DNS configurations of nodes *)

Definition swag_a_record (r : DNSARecord) : SwagARecord :=
  mkSwagARecord (DNSARecord_Name r) (DNSARecord_Description r) false (DNSARecord_IPs r).

Definition swag_alias (a : DNSConfigAppAlias) : SwagARecord :=
  mkSwagARecord (DNSConfigAppAlias_Name a) (DNSConfigAppAlias_Description a) true
    [DNSConfigAppAlias_AppID a].

Definition swag_forwarder (f : DNSForwarder) : SwagForwarder :=
  mkSwagForwarder (DNSForwarder_Name f) (DNSForwarder_Description f) (DNSForwarder_IP f).

Definition swagGETNodeDNS (node_id : string) : GoM Ctl unit :=
  with_filter NodeDNSConfig [("node_id", node_id)] (λ persistedNode,
  match persistedNode with
  | [] => w_json (BDns (mkDNSDetail "" "" [] []))
  | nodeDNS :: _ =>
      let cfgID := NodeDNSConfig_DNSConfigID nodeDNS in
      '(cfg, err) ← db (PS.Read (A:=DNSConfig) cfgID);
      match err with
      | Some _ => w_header StatusInternalServerError
      | None =>
          with_filter DNSConfigAppAlias [("dns_config_id", cfgID)] (λ aliases,
          cfg ← non_nil cfg;
          records ← lift_outcome (translate_all (λ r, Ret (swag_a_record r))
                                    (DNSConfig_ARecords cfg));
          forwarders ← lift_outcome (translate_all (λ f, Ret (swag_forwarder f))
                                       (DNSConfig_Forwarders cfg));
          w_json (BDns (mkDNSDetail (DNSConfig_ID cfg) (DNSConfig_Name cfg)
                          (records ++ (swag_alias <$> aliases)) forwarders)))
      end
  end).

(** Fails with a status that the caller adds a text to. *)
Definition fail_with (code : Z) (err : string) : GoM Ctl error :=
  w_header code ;; mret (Some err).

Definition swagDNSDeleteHelper (ctrl : Controller) (node_id : string) : GoM Ctl error :=
  '(persistedNode, err) ← db (PS.Filter (A:=NodeDNSConfig) [("node_id", node_id)]);
  match err, persistedNode with
  | Some err, _ => fail_with StatusInternalServerError err
  | None, [] => mret nil_err
  | None, nodeDNS :: _ =>
      let cfgID := NodeDNSConfig_DNSConfigID nodeDNS in
      '(cfg, err) ← db (PS.Read (A:=DNSConfig) cfgID);
      match err with
      | Some err => fail_with StatusInternalServerError err
      | None =>
          '(aliases, err) ← db (PS.Filter (A:=DNSConfigAppAlias) [("dns_config_id", cfgID)]);
          match err with
          | Some err => fail_with StatusInternalServerError err
          | None =>
              err ← unless_err (handleDeleteNodesDNSConfigsWithAliases ctrl nodeDNS cfg aliases) (
                    unless_err (delete_row NodeDNSConfig (GetID nodeDNS)) (
                    unless_err (call_each aliases (λ a, delete_row DNSConfigAppAlias (GetID a))) (
                    cfg ← non_nil cfg; delete_row DNSConfig (GetID cfg))));
              match err with
              | Some err => fail_with StatusInternalServerError err
              | None => mret nil_err
              end
          end
      end
  end.

(** The entities for the requested records: aliases of applications and
    records of addresses.  An alias without a value is passed over. *)
Definition collect_records (cfgID : string) (reqs : list SwagARecord)
    : GoM Ctl ((list DNSConfigAppAlias * list DNSARecord) + string) :=
  for_acc reqs (λ req acc,
    let '(aliases, records) := acc in
    match sa_Alias req, sa_Values req with
    | true, app :: _ =>
        id ← uuid_New;
        let record := mkDNSConfigAppAlias id cfgID (sa_Name req) (sa_Description req) app in
        err ← lift_outcome (DNSConfigAppAlias_Validate record);
        mret (match err with
              | Some err => inr err
              | None => inl (aliases ++ [record], records)
              end)
    | true, [] => mret (inl acc)
    | false, values =>
        let record := mkDNSARecord (sa_Name req) (sa_Description req) values in
        err ← lift_outcome (DNSARecord_Validate record);
        mret (match err with
              | Some err => inr err
              | None => inl (aliases, records ++ [record])
              end)
    end) ([], []).

(** Requests with forwarders are refused before the loop over them. *)
Definition swagDNSCreateHelper (ctrl : Controller) (node_id : string) (body : option DNSDetail)
    : GoM Ctl error :=
  match body with
  | None => fail_with StatusBadRequest "unexpected end of JSON input"
  | Some requested =>
      if bool_decide (length (dd_Forwarders requested) ≠ 0%nat) then
        fail_with StatusNotImplemented "received unimplemented field forwarders in request"
      else
        cfgID ← uuid_New;
        nodeDNSID ← uuid_New;
        let nodeDNS := mkNodeDNSConfig nodeDNSID node_id cfgID in
        collected ← collect_records cfgID (dd_A requested);
        match collected with
        | inr err => fail_with StatusBadRequest err
        | inl (aliases, records) =>
            let cfg := mkDNSConfig cfgID (dd_Name requested) (Some <$> records) [] in
            err ← unless_err (handleCreateNodesDNSConfigsWithAliases ctrl nodeDNS cfg aliases) (
                  unless_err (db (PS.Create cfg)) (
                  unless_err (call_each aliases (λ a, db (PS.Create a)))
                  (db (PS.Create nodeDNS))));
            match err with
            | Some err => fail_with StatusInternalServerError err
            | None => mret nil_err
            end
        end
  end.

Definition mid_operation (err : string) : CtlBody :=
  BText ("DNS call failed mid operation: " +:+ err).

Definition swagPATCHNodeDNS (ctrl : Controller) (node_id : string) (body : option DNSDetail)
    : GoM Ctl unit :=
  with_entity Node node_id (λ _,
  err ← swagDNSDeleteHelper ctrl node_id;
  match err with
  | Some err => w_write (mid_operation err)
  | None =>
      err ← swagDNSCreateHelper ctrl node_id body;
      match err with
      | Some err => w_write (mid_operation err)
      | None => mret tt
      end
  end).

Definition swagDELETENodeDNS (ctrl : Controller) (node_id : string) : GoM Ctl unit :=
  with_entity Node node_id (λ _,
  err ← swagDNSDeleteHelper ctrl node_id;
  match err with
  | Some err => w_write (mid_operation err)
  | None => w_header StatusNoContent
  end).
End handlers.

Arguments mkHandler {_ _ _ _} {A} _ _.
Arguments h_checkDBCreate {_ _ _ _} {A} _.
Arguments h_handleCreate {_ _ _ _} {A} _.

(** * The REST API of the controller, nodes in operation (gorilla/swagger.go)

    The handlers of what runs on a node: its network interfaces and their
    policies, its applications and their policies, and its features. *)

Section handlers.
Context `{CceDB, NodeNet, K8sClient, Uuid, Url}.
Context (ctrl : Controller).

(** ** Network interfaces *)

(** Asks the node of an entity: 404 if it is not there, 500 on an error. *)
Definition with_node_resp (node_id : string) (k : NodeResp → GoM Ctl unit) : GoM Ctl unit :=
  with_entity Node node_id (λ persisted,
  response ← handleGetNodes ctrl persisted;
  match response with
  | inr _ => w_header StatusInternalServerError
  | inl resp => k resp
  end).

Definition swagGETInterfaces (node_id : string) : GoM Ctl unit :=
  with_node_resp node_id (λ resp,
  ifaces ← lift_outcome (translate_all Ret (NodeResp_NetworkInterfaces resp));
  w_json (BIfaces ifaces)).

(** The loop keeps the last interface with the identifier; an interface
    without identifier counts as not found. *)
Definition find_iface (interface_id : string) (l : list NetworkInterface)
    : option NetworkInterface :=
  fold_left (λ acc res, if bool_decide (NetworkInterface_ID res = interface_id)
                        then Some res else acc) l None.

Definition swagGETInterfaceByID (node_id interface_id : string) : GoM Ctl unit :=
  with_node_resp node_id (λ resp,
  ifaces ← lift_outcome (translate_all Ret (NodeResp_NetworkInterfaces resp));
  match find_iface interface_id ifaces with
  | Some iface => if str_empty (NetworkInterface_ID iface) then w_header StatusNotFound
                  else w_json (BIface iface)
  | None => w_header StatusNotFound
  end).

(** The remote update of a node failed. *)
Definition unless_code (r : Z * error) (k : GoM Ctl unit) : GoM Ctl unit :=
  let '(code, err) := r in
  if bool_decide (code ≠ 0) then
    match err with
    | Some err => w_fail code (BText err)
    | None => w_header code ;; go_panic "nil pointer dereference"
    end
  else k.

#[local] Instance NodeReq_Validatable : Validatable NodeReq := NodeReq_Validate.

Definition swagPATCHInterfaces (node_id : string) (body : option (list NetworkInterface))
    : GoM Ctl unit :=
  with_body body (λ ifaces,
  with_entity Node node_id (λ persisted,
  let requested := mkNodeReq persisted (Some (Some <$> ifaces)) [] in
  validated requested (
  r ← handleUpdateNodes ctrl requested;
  unless_code r (update_entity requested)))).

(** ** Policies of interfaces *)

Definition swagGETNodeInterfacePolicy (node_id interface_id : string) : GoM Ctl unit :=
  with_filter NodeInterfaceTrafficPolicy
    [("node_id", node_id); ("network_interface_id", interface_id)] (λ policies,
  w_json (BBase (match policies with
                 | [] => ""
                 | p :: _ => NodeInterfaceTrafficPolicy_TrafficPolicyID p
                 end))).

(** The request to a node to set the policy of one interface. *)
Definition iface_policy_req (node_id interface_id policy_id : string) : NodeReq :=
  mkNodeReq (mkNode node_id "" "" "") None
    [mkNetworkInterfaceTrafficPolicy interface_id policy_id].

(** [if len(l) == 1 { ok, err := Delete(l[0]) ... }]: 500 unless the row was
    deleted. *)
Definition delete_single `{Persistable A} (l : list A) (k : GoM Ctl unit) : GoM Ctl unit :=
  match l with
  | [a] =>
      '(ok, err) ← db (PS.Delete A (GetID a));
      match err with
      | Some _ => w_header StatusInternalServerError
      | None => if ok : bool then k else w_header StatusInternalServerError
      end
  | _ => k
  end.

(** Creates the row; 500 on an error. *)
Definition persist `{Persistable A} (a : A) : GoM Ctl unit :=
  err ← db (PS.Create a);
  match err with
  | Some _ => w_header StatusInternalServerError
  | None => mret tt
  end.

(** The recorded policy of an interface, whatever the node. *)
Definition drop_iface_policy (interface_id : string) (k : GoM Ctl unit) : GoM Ctl unit :=
  with_filter NodeInterfaceTrafficPolicy [("network_interface_id", interface_id)] (λ old,
  delete_single old k).

Definition swagPATCHNodeInterfacePolicy (node_id interface_id : string) (body : option string)
    : GoM Ctl unit :=
  with_body body (λ policy_id,
  with_entity Node node_id (λ _,
  '(policy, err) ← db (PS.Read (A:=TrafficPolicy) policy_id);
  match err, policy with
  | Some _, _ => w_header StatusInternalServerError
  | None, None =>
      w_fail StatusNotFound (BText ("traffic policy " +:+ policy_id +:+ " not found"))
  | None, Some _ =>
      r ← handleUpdateNodes ctrl (iface_policy_req node_id interface_id policy_id);
      unless_code r (
      drop_iface_policy interface_id (
      id ← uuid_New;
      persist (mkNodeInterfaceTrafficPolicy id node_id interface_id policy_id)))
  end)).

Definition swagDELETENodeInterfacePolicy (node_id interface_id : string) : GoM Ctl unit :=
  with_entity Node node_id (λ _,
  r ← handleUpdateNodes ctrl (iface_policy_req node_id interface_id "");
  unless_code r (
  drop_iface_policy interface_id (w_header StatusNoContent))).

(** ** Features of nodes *)

Definition getNfdFeatures (nodeID : string) : GoM Ctl (gmap string string + string) :=
  '(persisted, err) ← db (PS.Filter (A:=NodeFeatureNFD) [("node_id", nodeID)]);
  match err with
  | Some err => mret (inr err)
  | None => mret (inl (fold_left (λ m f, <[NodeFeatureNFD_NfdID f := NodeFeatureNFD_NfdValue f]> m)
                         persisted ∅))
  end.

Definition newline : string := String (Ascii.ascii_of_nat 10) "".

(** The tags come in the order of a loop over a map. *)
Definition swagGETNodeNFDTags `{GoEnv} (node_id : string) : GoM Ctl unit :=
  features ← getNfdFeatures node_id;
  match features with
  | inr err => w_fail StatusInternalServerError (BText ("error: " +:+ err +:+ newline))
  | inl m => w_json (BNfd (map_range ["swagGETNodeNFDTags"] m)) ;; w_write (BText newline)
  end.

(** ** Applications on nodes *)

Definition node_app_key (node_id app_id : string) : list (string * string) :=
  [("node_id", node_id); ("app_id", app_id)].

(** The application on the node: 404 if it is not there. *)
Definition with_node_app (node_id app_id : string) (k : NodeApp → GoM Ctl unit)
    : GoM Ctl unit :=
  with_filter NodeApp (node_app_key node_id app_id) (λ nodeApps,
  match nodeApps with
  | [] => w_header StatusNotFound
  | [n_a] => k n_a
  | _ => w_header StatusInternalServerError
  end).

Definition swagGETNodeApps (node_id : string) : GoM Ctl unit :=
  with_entity Node node_id (λ _,
  with_filter NodeApp [("node_id", node_id)] (λ persisted,
  w_json (BNodeApps (NodeApp_AppID <$> persisted)))).

#[local] Instance NodeApp_Validatable : Validatable NodeApp := NodeApp_Validate.
#[local] Instance NodeAppReq_Validatable : Validatable NodeAppReq := NodeAppReq_Validate.

Definition swagPOSTNodeApp (node_id : string) (body : option string) : GoM Ctl unit :=
  match body with
  | None => w_fail StatusBadRequest (BText "Error unmarshaling json")
  | Some app_id =>
      with_filter NodeApp (node_app_key node_id app_id) (λ nodeApps,
      if bool_decide (nodeApps ≠ []) then
        w_fail StatusUnprocessableEntity
          (BText ("duplicate record in nodes_apps detected for node_id " +:+ node_id
                  +:+ " and app_id " +:+ app_id))
      else
        with_entity Node node_id (λ _,
        id ← uuid_New;
        let nodeApp := mkNodeApp id node_id app_id in
        validated nodeApp (
        with_entity App app_id (λ app,
        features ← getNfdFeatures node_id;
        match features with
        | inr err => w_fail StatusInternalServerError (BText ("error: " +:+ err +:+ newline))
        | inl features =>
            match EPAValidate app features with
            | Some _ => w_header StatusInternalServerError
            | None =>
                err ← handleCreateNodesApps ctrl nodeApp;
                match err with
                | Some err => w_fail StatusInternalServerError (BText ("Error: " +:+ err))
                | None => persist nodeApp
                end
            end
        end))))
  end.

Definition swagGETNodeAppsByID (node_id app_id : string) : GoM Ctl unit :=
  with_node_app node_id app_id (λ n_a,
  response ← handleGetNodesApps ctrl n_a;
  match response with
  | inr _ => w_header StatusInternalServerError
  | inl resp =>
      w_json (BNodeApp (mkNodeAppDetail (NodeApp_AppID n_a) (NodeAppResp_Status resp) ""))
  end).

Definition swagPATCHNodeAppsByID (node_id app_id : string) (body : option NodeAppDetail)
    : GoM Ctl unit :=
  match body with
  | None => w_fail StatusBadRequest (BText "Error unmarshaling json")
  | Some detail =>
      with_node_app node_id app_id (λ n_a,
      let requested := mkNodeAppReq n_a (nad_Command detail) in
      validated requested (
      '(code, err) ← handleUpdateNodesApps ctrl requested;
      if bool_decide (code ≠ 0) then w_fail code (BText "error updating remote entity")
      else mret tt))
  end.

Definition swagDELETENodeAppByID (node_id app_id : string) : GoM Ctl unit :=
  with_node_app node_id app_id (λ n_a,
  '(code, err) ← checkDBDeleteNodesApps (NodeApp_ID n_a);
  match err with
  | Some _ => w_fail code (BText (in_use_text "app" app_id "nodes_apps_traffic_policies"))
  | None =>
      err ← handleDeleteNodesApps ctrl n_a;
      match err with
      | Some _ => w_header StatusInternalServerError
      | None =>
          '(ok, err) ← db (PS.Delete NodeApp (NodeApp_ID n_a));
          match err with
          | Some _ => w_header StatusInternalServerError
          | None => if ok : bool then w_header StatusNoContent
                    else w_header StatusInternalServerError
          end
      end
  end).

(** ** Policies of applications *)

(** The recorded policies of an application on a node. *)
Definition with_app_policies (n_a : NodeApp) (k : list NodeAppTrafficPolicy → GoM Ctl unit)
    : GoM Ctl unit :=
  with_filter NodeAppTrafficPolicy [("nodes_apps_id", NodeApp_ID n_a)] k.

Definition swagGETNodeAppPolicy (node_id app_id : string) : GoM Ctl unit :=
  with_node_app node_id app_id (λ n_a,
  with_app_policies n_a (λ policies,
  match policies with
  | [] => w_header StatusNotFound
  | [p] => w_json (BBase (NodeAppTrafficPolicy_TrafficPolicyID p))
  | _ => w_header StatusInternalServerError
  end)).

(** The record of the new policy takes the place of the old one. *)
Definition record_app_policy (n_a : NodeApp) (policy_id : string) : GoM Ctl unit :=
  with_app_policies n_a (λ old,
  delete_single old (
  id ← uuid_New;
  persist (mkNodeAppTrafficPolicy id (NodeApp_ID n_a) policy_id))).

Definition swagPATCHNodeAppPolicy (node_id app_id : string) (body : option string)
    : GoM Ctl unit :=
  with_body body (λ policy_id,
  with_node_app node_id app_id (λ n_a,
  with_entity TrafficPolicy policy_id (λ policy,
  c ← connectNode n_a (ela_port ctrl);
  match c with
  | inr _ => w_header StatusInternalServerError
  | inl nodeCC =>
      err ← net_err (AppPolicySvcCli_Set nodeCC (NodeApp_AppID n_a) (Some policy));
      match err with
      | Some _ => w_header StatusInternalServerError
      | None => record_app_policy n_a policy_id
      end
  end))).

(** Deletes [nodeAppPolicies[0]] without looking at the length. *)
Definition delete_app_policy (policies : list NodeAppTrafficPolicy) : GoM Ctl unit :=
  match policies with
  | [] => go_panic "index out of range"
  | p :: _ =>
      '(ok, err) ← db (PS.Delete NodeAppTrafficPolicy (GetID p));
      match err with
      | Some _ => w_header StatusInternalServerError
      | None => if ok : bool then w_header StatusNoContent
                else w_header StatusInternalServerError
      end
  end.

Definition swagDELETENodeAppPolicy (node_id app_id : string) : GoM Ctl unit :=
  with_node_app node_id app_id (λ n_a,
  with_app_policies n_a (λ policies,
  c ← connectNode n_a (ela_port ctrl);
  match c with
  | inr _ => w_header StatusInternalServerError
  | inl nodeCC =>
      err ← net_err (AppPolicySvcCli_Delete nodeCC (NodeApp_AppID n_a));
      match err with
      | Some _ => w_header StatusInternalServerError
      | None => delete_app_policy policies
      end
  end)).

(** ** Policies of applications under Kubernetes *)

Definition swagGETNodeAppKubeOVNPolicy (node_id app_id : string) : GoM Ctl unit :=
  with_node_app node_id app_id (λ n_a,
  with_app_policies n_a (λ policies,
  match policies with
  | [] => w_header StatusNotFound
  | [p] => w_json (BBase (NodeAppTrafficPolicy_TrafficPolicyID p))
  | _ => w_header StatusInternalServerError
  end)).

Definition swagPATCHNodeAppKubeOVNPolicy (node_id app_id : string) (body : option string)
    : GoM Ctl unit :=
  with_body body (λ policy_id,
  with_node_app node_id app_id (λ n_a,
  with_entity TrafficPolicyKubeOVN policy_id (λ policy,
  let node := NodeApp_NodeID n_a in
  let app := NodeApp_AppID n_a in
  _ ← k8s (K8s_do K8sDeleteNetworkPolicy node app);
  np ← lift_outcome (ToK8s policy);
  err ← k8s (K8s_ApplyNetworkPolicy node app np);
  match err with
  | Some _ => w_header StatusInternalServerError
  | None => record_app_policy n_a policy_id
  end))).

Definition swagDELETENodeAppKubeOVNPolicy (node_id app_id : string) : GoM Ctl unit :=
  with_node_app node_id app_id (λ n_a,
  with_app_policies n_a (λ policies,
  err ← k8s (K8s_do K8sDeleteNetworkPolicy (NodeApp_NodeID n_a) (NodeApp_AppID n_a));
  match err with
  | Some _ => w_header StatusInternalServerError
  | None => delete_app_policy policies
  end)).
End handlers.
