(* ===== verification/CceRouter.v ===== *)
(** * Access to the controller (gorilla.go, authentication.go, jose.go)

    The routes of [NewGorilla], the token service and the middleware around
    every handler: panics are recovered, all requests but the login need a
    valid token, and the body of a POST or PATCH is read before the handler
    runs.  The path of a request is matched by the router library; [op] is a
    matched route with its variables, query and body. *)

From S2P Require Import Prelude Strconv Http Json CceModel CcePolicy CcePersist CceNode CceCtl CceRest.
From stdpp Require Import prelude strings list gmap.
From Stdlib Require Import ZArith.

Local Open Scope Z_scope.

(** ** Tokens (jose.go) *)

(** The JOSE library with the key of the service: making a signer and
    serializing a token that expires at a time, parsing, the claims signed by
    the key, and their validation at a time.  [key_signer] tells whether the
    key is a [crypto.Signer]. *)
Class Jose := {
  Token : Type;
  Claims : Type;
  NewSigner : error;
  CompactSerialize : Z → string + string;
  ParseSigned : string → Token + string;
  key_signer : bool;
  token_Claims : Token → Claims + string;
  Claims_Validate : Claims → Z → error;
}.

Section tokens.
Context `{Jose}.

Definition one_day : Z := 24 * 60 * 60.

Definition Issue (now : Z) : string + string :=
  match NewSigner with
  | Some err => inr ("unable to create token signer: " +:+ err)
  | None => CompactSerialize (now + one_day)
  end.

(** [errors.Wrap(nil, msg)] is nil. *)
Definition Validate_token (now : Z) (t : string) : error :=
  match ParseSigned t with
  | inr err => errors_Wrap err "unable to parse token"
  | inl token =>
      if negb key_signer then nil_err
      else match token_Claims token with
           | inr err => errors_Wrap err "unable to deserialize token claims"
           | inl claims => Claims_Validate claims now
           end
  end.
End tokens.

(** What was issued is accepted for a day. *)
Class JoseLaws `{Jose} := {
  serialize_parse : ∀ exp t, CompactSerialize exp = inl t →
    ∃ token claims, ParseSigned t = inl token ∧ token_Claims token = inl claims
    ∧ ∀ now, now ≤ exp → Claims_Validate claims now = None;
  serialize_space : ∀ exp t, CompactSerialize exp = inl t → ¬ contains t " ";
}.

(** ** Requests *)

Inductive op :=
| POSTAuth (body : Body AuthCreds)
| GETNodes | POSTNodes (body : Body Node)
| GETNodeByID (node : string) | PATCHNodeByID (node : string) (body : Body NodeSummary)
| DELETENodeByID (node : string) (force : list string)
| GETApps | POSTApps (body : Body App)
| GETAppByID (app : string) | PATCHAppByID (app : string) (body : Body AppDetail)
| DELETEAppByID (app : string)
| GETNodeDNS (node : string) | PATCHNodeDNS (node : string) (body : Body DNSDetail)
| DELETENodeDNS (node : string)
| GETInterfaces (node : string)
| PATCHInterfaces (node : string) (body : Body (list NetworkInterface))
| GETInterfaceByID (node iface : string)
| GETNodeApps (node : string) | POSTNodeApp (node : string) (body : Body string)
| GETNodeAppsByID (node app : string)
| PATCHNodeAppsByID (node app : string) (body : Body NodeAppDetail)
| DELETENodeAppByID (node app : string)
| GETNodeNFDTags (node : string)
| GETPolicies | POSTPolicies (body : Body TrafficPolicy)
| GETPolicyByID (policy : string) | PATCHPolicyByID (policy : string) (body : Body PolicyDetail)
| DELETEPolicyByID (policy : string)
| GETNodeInterfacePolicy (node iface : string)
| PATCHNodeInterfacePolicy (node iface : string) (body : Body string)
| DELETENodeInterfacePolicy (node iface : string)
| GETNodeAppPolicy (node app : string)
| PATCHNodeAppPolicy (node app : string) (body : Body string)
| DELETENodeAppPolicy (node app : string)
| GETKubeOVNPolicies | POSTKubeOVNPolicies (body : Body TrafficPolicyKubeOVN)
| GETKubeOVNPolicyByID (policy : string)
| PATCHKubeOVNPolicyByID (policy : string) (body : Body PolicyKubeOVNDetail)
| DELETEKubeOVNPolicyByID (policy : string)
| GETNodeAppKubeOVNPolicy (node app : string)
| PATCHNodeAppKubeOVNPolicy (node app : string) (body : Body string)
| DELETENodeAppKubeOVNPolicy (node app : string).

(** The routes of [nativePoliciesHandlers] and [kubeOVNPoliciesHandlers]. *)
Definition is_native_policy (o : op) : bool :=
  match o with
  | GETPolicies | POSTPolicies _ | GETPolicyByID _ | PATCHPolicyByID _ _
  | DELETEPolicyByID _ | GETNodeInterfacePolicy _ _ | PATCHNodeInterfacePolicy _ _ _
  | DELETENodeInterfacePolicy _ _ | GETNodeAppPolicy _ _ | PATCHNodeAppPolicy _ _ _
  | DELETENodeAppPolicy _ _ => true
  | _ => false
  end.

Definition is_kube_ovn_policy (o : op) : bool :=
  match o with
  | GETKubeOVNPolicies | POSTKubeOVNPolicies _ | GETKubeOVNPolicyByID _
  | PATCHKubeOVNPolicyByID _ _ | DELETEKubeOVNPolicyByID _ | GETNodeAppKubeOVNPolicy _ _
  | PATCHNodeAppKubeOVNPolicy _ _ _ | DELETENodeAppKubeOVNPolicy _ _ => true
  | _ => false
  end.

(** The route exists in the mode of the controller. *)
Definition has_route (ctrl : Controller) (o : op) : bool :=
  if bool_decide (ctrl_OrchestrationMode ctrl = OrchestrationModeKubernetesOVN)
  then negb (is_native_policy o) else negb (is_kube_ovn_policy o).

(** A request: its URI, its [Authorization] header (empty when there is none)
    and the route. *)
Record CtlRequest := mkCtlRequest {
  rq_RequestURI : string;
  rq_Authorization : string;
  rq_op : op;
}.

Section router.
Context `{CceDB, NodeNet, K8sClient, Uuid, Url, Jose, GoEnv}.
Context (ctrl : Controller).

(** The login handler; the header is set after the status was sent. *)
Definition authenticate (now : Z) (body : option AuthCreds) : GoM Ctl unit :=
  with_body body (λ u,
  let refused := w_fail StatusUnauthorized (BText "Invalid username or password") in
  if bool_decide (Username u ≠ Username (ctrl_AdminCreds ctrl)) then refused
  else if bool_decide (Password u ≠ Password (ctrl_AdminCreds ctrl)) then refused
  else match Issue now with
       | inr _ => w_header StatusInternalServerError
       | inl token =>
           w_header StatusCreated ;;
           on_w (Header_Set content_type "application/json") ;;
           w_write (BToken token)
       end).

(** Reads the body of a POST or PATCH. *)
Definition read_body {A} (b : Body A) (k : option A → GoM Ctl unit) : GoM Ctl unit :=
  match b with
  | BodyReadErr => w_header StatusInternalServerError
  | BodyBadJSON => k None
  | BodyOf a => k (Some a)
  end.

(** The handler of a route. *)
Definition dispatch (now : Z) (o : op) : GoM Ctl unit :=
  match o with
  | POSTAuth b => read_body b (authenticate now)
  | GETNodes => swagGETNodes
  | POSTNodes b => read_body b swagPOSTNodes
  | GETNodeByID n => swagGETNodeByID n
  | PATCHNodeByID n b => read_body b (swagPATCHNodeByID n)
  | DELETENodeByID n f => swagDELETENodeByID n f
  | GETApps => swagGETApps
  | POSTApps b => read_body b swagPOSTApps
  | GETAppByID a => swagGETAppByID a
  | PATCHAppByID a b => read_body b (swagPATCHAppByID a)
  | DELETEAppByID a => swagDELETEAppByID a
  | GETNodeDNS n => swagGETNodeDNS n
  | PATCHNodeDNS n b => read_body b (swagPATCHNodeDNS ctrl n)
  | DELETENodeDNS n => swagDELETENodeDNS ctrl n
  | GETInterfaces n => swagGETInterfaces ctrl n
  | PATCHInterfaces n b => read_body b (swagPATCHInterfaces ctrl n)
  | GETInterfaceByID n i => swagGETInterfaceByID ctrl n i
  | GETNodeApps n => swagGETNodeApps n
  | POSTNodeApp n b => read_body b (swagPOSTNodeApp ctrl n)
  | GETNodeAppsByID n a => swagGETNodeAppsByID ctrl n a
  | PATCHNodeAppsByID n a b => read_body b (swagPATCHNodeAppsByID ctrl n a)
  | DELETENodeAppByID n a => swagDELETENodeAppByID ctrl n a
  | GETNodeNFDTags n => swagGETNodeNFDTags n
  | GETPolicies => swagGETPolicies
  | POSTPolicies b => read_body b swagPOSTPolicies
  | GETPolicyByID p => swagGETPolicyByID p
  | PATCHPolicyByID p b => read_body b (swagPATCHPolicyByID p)
  | DELETEPolicyByID p => swagDELETEPolicyByID p
  | GETNodeInterfacePolicy n i => swagGETNodeInterfacePolicy n i
  | PATCHNodeInterfacePolicy n i b => read_body b (swagPATCHNodeInterfacePolicy ctrl n i)
  | DELETENodeInterfacePolicy n i => swagDELETENodeInterfacePolicy ctrl n i
  | GETNodeAppPolicy n a => swagGETNodeAppPolicy n a
  | PATCHNodeAppPolicy n a b => read_body b (swagPATCHNodeAppPolicy ctrl n a)
  | DELETENodeAppPolicy n a => swagDELETENodeAppPolicy ctrl n a
  | GETKubeOVNPolicies => swagGETKubeOVNPolicies
  | POSTKubeOVNPolicies b => read_body b swagPOSTKubeOVNPolicies
  | GETKubeOVNPolicyByID p => swagGETKubeOVNPolicyByID p
  | PATCHKubeOVNPolicyByID p b => read_body b (swagPATCHKubeOVNPolicyByID p)
  | DELETEKubeOVNPolicyByID p => swagDELETEKubeOVNPolicyByID p
  | GETNodeAppKubeOVNPolicy n a => swagGETNodeAppKubeOVNPolicy n a
  | PATCHNodeAppKubeOVNPolicy n a b => read_body b (swagPATCHNodeAppKubeOVNPolicy n a)
  | DELETENodeAppKubeOVNPolicy n a => swagDELETENodeAppKubeOVNPolicy n a
  end.

(** The header names a valid token. *)
Definition authorized (now : Z) (auth : string) : bool :=
  match strings_Split auth " " with
  | [_; token] => negb (str_empty auth) && bool_decide (Validate_token now token = None)
  | _ => false
  end.

Definition requireAuthHandler (now : Z) (auth : string) (next : GoM Ctl unit) : GoM Ctl unit :=
  if authorized now auth then next else w_header StatusUnauthorized.

(** A panicking handler is answered with status 500. *)
Definition recovered (m : GoM Ctl unit) : GoM Ctl unit := λ s,
  match m s with
  | (Ret _, s') => (Ret tt, s')
  | (Panic _, s') => w_header StatusInternalServerError s'
  end.

(** Starts a response. *)
Definition fresh_response (s : Ctl) : Ctl :=
  mkCtl _ _ _ _ (ctl_db s) (ctl_net s) (ctl_k8s s) (ctl_ids s) new_writer.

(** [g.ServeHTTP]: the middleware around the handler of a matched route. *)
Definition ServeHTTP (now : Z) (r : CtlRequest) : GoM Ctl unit := λ s,
  (if has_route ctrl (rq_op r) then
     recovered (if bool_decide (rq_RequestURI r = "/auth")
                then dispatch now (rq_op r)
                else requireAuthHandler now (rq_Authorization r) (dispatch now (rq_op r)))
   else w_fail StatusNotFound (BText "404 page not found")) (fresh_response s).

(** What the client receives, and the state after the request. *)
Definition status_after (now : Z) (r : CtlRequest) (s : Ctl) : Z :=
  status_of (ctl_w (exec (ServeHTTP now r) s)).
Definition bodies_after (now : Z) (r : CtlRequest) (s : Ctl) : list CtlBody :=
  rw_body (ctl_w (exec (ServeHTTP now r) s)).
End router.
