(* ===== verification/CceServer.v ===== *)
(** * The gRPC services of the controller (grpc/server.go, nfd-master)

    Nodes talk to the controller through gRPC: a node asks for credentials with
    a signing request for its key ([RequestCredentials]), asks for the
    application behind a container address ([GetContainerByIP]) and reports its
    features ([SetLabels]).  Certificates and signing are a parameter ([Pki]),
    the AuthorityService of the sources; the peer of a call is an argument.  [cce_step] is one operation of the controller, whichever
    service it came through. *)

From S2P Require Import Prelude Strconv GoNet Http Json CceModel CcePolicy CcePersist CceNode CceCtl CceRest CceRouter.
From stdpp Require Import prelude strings list gmap.
From Stdlib Require Import ZArith Ascii.

Local Open Scope Z_scope.

(** ** Credentials *)

(** The certificate of a node. *)
Record Credentials := mkCredentials {
  Credentials_ID : string;
  Credentials_Certificate : string;
}.

#[export] Instance Json_Credentials : Json Credentials := {|
  to_json := λ x, JObj [("id", to_json (Credentials_ID x));
          ("certificate", to_json (Credentials_Certificate x))];
  of_json := of_object (mkCredentials "" "") (λ ms,
    v0 ← field ms "id"; v1 ← field ms "certificate";
    Some (mkCredentials v0 v1));
  zero_value := mkCredentials "" "";
|}.
#[export] Instance JsonOk_Credentials : JsonOk Credentials.
Proof. json_ok Json_Credentials. Qed.
#[export] Instance JsonNN_Credentials : JsonNN Credentials.
Proof. json_nn. Qed.

#[export] Instance Credentials_Persistable : Persistable Credentials := {|
  GetTableName := "credentials";
  GetID := Credentials_ID;
  SetID := λ id c, mkCredentials id (Credentials_Certificate c);
|}.

(** PEM, X.509 and the signing authority.  [key_digest] is the base64 text of
    the SHA-384 hash of a public key. *)
Class Pki := {
  Cert : Type;
  CertReq : Type;
  pem_Decode : string → option string;
  pem_Encode : Cert → string;
  ParseCertificate : string → Cert + string;
  MarshalPKIXPublicKey : Cert → string + string;
  ParseCertificateRequest : string → CertReq + string;
  CheckSignature : CertReq → error;
  RawSubjectPublicKeyInfo : CertReq → string;
  key_digest : string → string;
  SignCSR : CertReq → string → Cert + string;
  CAChain : list Cert + string;
}.

Local Open Scope go_scope.

Definition Credentials_Validate `{Pki} (c : Credentials) : outcome error :=
  need_text (Credentials_ID c) "id" ;;?
  need_text (Credentials_Certificate c) "certificate" ;;?
  match pem_Decode (Credentials_Certificate c) with
  | None => Ret (errors_New "certificate not PEM-encoded")
  | Some block =>
      match ParseCertificate block with
      | inr _ => Ret (errors_New "certificate not a valid certificate")
      | inl cert =>
          match MarshalPKIXPublicKey cert with
          | inr _ => Ret (errors_New "certificate public key not a valid public key")
          | inl pubKey =>
              refuse (bool_decide (Credentials_ID c ≠ key_digest pubKey))
                "id not derived from certificate public key"
          end
      end
  end.

(** ** Peers *)

(** The TLS state of a peer: the server name it asked for, and the common
    names of the leaves of its verified chains. *)
Record TLSInfo := mkTLSInfo {
  tls_ServerName : string;
  tls_VerifiedChains : list string;
}.

(** [peer.FromContext]: the peer's address and, over TLS, its state. *)
Record Peer := mkPeer {
  peer_Addr : string;
  peer_AuthInfo : option TLSInfo;
}.

Inductive code := FailedPrecondition | Unauthenticated | PermissionDenied | InvalidArgument
  | Internal | UnknownCode.

Definition SNI : string := "controller.openness".
Definition EnrollmentSNI : string := "enroll.controller.openness".
Definition enrollmentMethod : string := "/openness.auth.AuthService/RequestCredentials".

(** [checkAuth], before every call: what is refused, and why. *)
Definition checkAuth (p : option Peer) (method : string) : option code :=
  match p with
  | None => Some UnknownCode
  | Some p =>
      match peer_AuthInfo p with
      | None => Some Unauthenticated
      | Some tls =>
          if bool_decide (tls_ServerName tls = EnrollmentSNI) then
            if bool_decide (method ≠ enrollmentMethod) then Some PermissionDenied else None
          else if bool_decide (tls_ServerName tls = SNI) then None
          else Some UnknownCode
      end
  end.

(** The name in the peer's certificate. *)
Definition getNodeID (p : option Peer) : string + code :=
  match p with
  | None => inr FailedPrecondition
  | Some p =>
      match peer_AuthInfo p with
      | None => inr FailedPrecondition
      | Some tls =>
          match tls_VerifiedChains tls with
          | [] => inr Unauthenticated
          | nodeID :: _ => if str_empty nodeID then inr FailedPrecondition else inl nodeID
          end
      end
  end.

(** [net.SplitHostPort]: the host, if the address has the form [host:port]. *)
Fixpoint has_char (c : ascii) (s : string) : bool :=
  match s with
  | EmptyString => false
  | String d s' => bool_decide (c = d) || has_char c s'
  end.

(** Cuts at the last [c]. *)
Fixpoint cut_last (c : ascii) (s : string) : option (string * string) :=
  match s with
  | EmptyString => None
  | String d s' =>
      match cut_last c s' with
      | Some (a, b) => Some (String d a, b)
      | None => if bool_decide (d = c) then Some ("", s') else None
      end
  end.

Definition SplitHostPort (hostport : string) : option (string * string) :=
  match cut_last ":" hostport with
  | None => None
  | Some (host, port) =>
      match hostport with
      | String "[" rest =>
          match cut_first "]" rest with
          | Some (inner, String ":" port') =>
              if bool_decide (port' = port) && negb (has_char "[" inner)
                 && negb (has_char "[" port) && negb (has_char "]" port)
              then Some (inner, port) else None
          | _ => None
          end
      | _ =>
          if has_char ":" host || has_char "[" hostport || has_char "]" hostport
          then None else Some (host, port)
      end
  end.

Section server.
Context `{CceDB, NodeNet, K8sClient, Uuid, Pki, GoEnv}.

(** ** Enrolment *)

(** [getIP] and [RegisterToProxy] (cce.go). *)
Definition getIP (nodeID : string) : GoM Ctl (string + string) :=
  '(targets, err) ← db (PS.Filter (A:=NodeGRPCTarget) [("node_id", nodeID)]);
  mret (match err, targets with
        | Some err, _ => inr err
        | None, target :: _ => inl (NodeGRPCTarget_GRPCTarget target)
        | None, [] => inr ("IP for " +:+ nodeID +:+ " not found")
        end).

Definition RegisterToProxy (nodeID : string) : GoM Ctl unit :=
  ip ← getIP nodeID;
  match ip with
  | inr _ => mret tt
  | inl ip => net (λ n, (Ret tt, RegisterHost ip n))
  end.

(** What a node receives: its certificate, the chain and the root. *)
Record NodeCredentials := mkNodeCredentials {
  nc_Certificate : string;
  nc_CaChain : list string;
  nc_CaPool : list string;
}.

(** The serial of a node: the digest of the key that the request proves the
    possession of. *)
Definition csr_serial (csr : string) : (CertReq * string) + string :=
  if str_empty csr then inr "CSR cannot be empty" else
  match pem_Decode csr with
  | None => inr "unable to decode CSR"
  | Some der =>
      match ParseCertificateRequest der with
      | inr err => inr ("error parsing CSR: " +:+ err)
      | inl req =>
          match CheckSignature req with
          | Some err => inr ("error validating CSR: " +:+ err)
          | None => inl (req, key_digest (RawSubjectPublicKeyInfo req))
          end
      end
  end.

Definition RequestCredentials (p : option Peer) (csr : string)
    : GoM Ctl (NodeCredentials + code) :=
  match csr_serial csr with
  | inr _ => mret (inr InvalidArgument)
  | inl (req, serial) =>
      '(entities, err) ← db (PS.Filter (A:=Node) [("serial", serial)]);
      match err, entities with
      | Some _, _ | None, [] => mret (inr Unauthenticated)
      | None, node :: _ =>
          match SignCSR req (Node_ID node) with
          | inr _ => mret (inr Internal)
          | inl cert =>
              match CAChain with
              | inr _ | inl [] => mret (inr Internal)
              | inl chain =>
                  let chainPEM := pem_Encode <$> chain in
                  err ← db (PS.Create (mkCredentials (Node_ID node) (pem_Encode cert)));
                  match err with
                  | Some _ => mret (inr Internal)
                  | None =>
                      match (p ← p; SplitHostPort (peer_Addr p)) with
                      | None | Some (EmptyString, _) => mret (inr Internal)
                      | Some (nodeIP, _) =>
                          id ← uuid_New;
                          err ← db (PS.Create (mkNodeGRPCTarget id (Node_ID node) nodeIP));
                          match err with
                          | Some _ => mret (inr Internal)
                          | None =>
                              RegisterToProxy (Node_ID node) ;;
                              mret (inl (mkNodeCredentials (pem_Encode cert) chainPEM
                                           (drop (length chainPEM - 1) chainPEM)))
                          end
                      end
                  end
              end
          end
      end
  end.

Definition GetContainerByIP (p : option Peer) (ip : string) : GoM Ctl (string + code) :=
  match getNodeID p with
  | inr c => mret (inr c)
  | inl nodeID =>
      if bool_decide (ParseIP ip = None) then mret (inr InvalidArgument)
      else
        '(id, err) ← k8s (K8s_GetAppIDByIP nodeID ip);
        mret (match err with Some _ => inr Internal | None => inl id end)
  end.

(** ** Features (nfd-master.go) *)

(** [getPeerName]. *)
Definition getPeerName (p : option Peer) : string + string :=
  match p with
  | None => inr "Missing peer data in gRPC context"
  | Some p =>
      match peer_AuthInfo p with
      | None => inr "gRPC peer missing TLS auth info"
      | Some tls =>
          match tls_VerifiedChains tls with
          | [] => inr "gRPC peer was not authenticated with a client TLS certificate"
          | nodeID :: _ =>
              if str_empty nodeID
              then inr "gRPC peer connected with a client TLS cert with no Common Name"
              else inl nodeID
          end
      end
  end.

(** One label: the error of the last statement is what is kept. *)
Definition set_label (node lf lv : string) : GoM Ctl (error + string) :=
  '(f, err) ← db (PS.Filter (A:=NodeFeatureNFD) [("node_id", node); ("nfd_id", lf)]);
  match err, f with
  | Some err, _ => mret (inr err)
  | None, [] =>
      id ← uuid_New;
      err ← db (PS.Create (mkNodeFeatureNFD id node lf lv));
      mret (inl err)
  | None, old :: _ =>
      err ← db (PS.BulkUpdate [mkNodeFeatureNFD (GetID old) node lf lv]);
      mret (inl err)
  end.

Definition SetLabels (p : option Peer) (nodeName : string) (labels : gmap string string)
    : GoM Ctl error :=
  match getPeerName p with
  | inr err => mret (Some err)
  | inl nodeID =>
      if bool_decide (nodeID ≠ nodeName) then
        mret (errors_New ("Node name from request [" +:+ nodeName
              +:+ "] does not match TLS peer name [" +:+ nodeID +:+ "]"))
      else
        r ← for_acc (map_range ["SetLabels"] labels) (λ kv _, set_label nodeName kv.1 kv.2) nil_err;
        mret (match r with inl err => err | inr err => Some err end)
  end.

(** ** Operations of the controller *)

Context `{Url, Jose}.

Inductive cce_op :=
| HttpRequest (now : Z) (r : CtlRequest)
| Enrol (p : option Peer) (csr : string)
| ContainerByIP (p : option Peer) (ip : string)
| ReportFeatures (p : option Peer) (node : string) (labels : gmap string string).

(** The state after an operation; calls that [checkAuth] refuses do nothing.
    The services for features have their own server, without that check. *)
Definition cce_step (ctrl : Controller) (s : Ctl) (o : cce_op) : Ctl :=
  match o with
  | HttpRequest now r => exec (ServeHTTP ctrl now r) s
  | Enrol p csr =>
      match checkAuth p enrollmentMethod with
      | Some _ => s
      | None => exec (RequestCredentials p csr) s
      end
  | ContainerByIP p ip =>
      match checkAuth p "/openness.eva.ControllerVirtualizationAgent/GetContainerByIP" with
      | Some _ => s
      | None => exec (GetContainerByIP p ip) s
      end
  | ReportFeatures p node labels => exec (SetLabels p node labels) s
  end.

(** The states that sequences of operations lead to. *)
Inductive cce_reach (ctrl : Controller) (s0 : Ctl) : Ctl → Prop :=
| cce_start : cce_reach ctrl s0 s0
| cce_next s o : cce_reach ctrl s0 s → cce_reach ctrl s0 (cce_step ctrl s o).
End server.

Example SplitHostPort_ok :
  SplitHostPort "10.0.0.7:42101" = Some ("10.0.0.7", "42101")
  ∧ SplitHostPort "[fe80::1]:80" = Some ("fe80::1", "80")
  ∧ SplitHostPort "fe80::1:80" = None ∧ SplitHostPort "localhost" = None.
Proof. vm_compute. auto. Qed.

(** ** A controller to run

    Concrete parameters for the examples and witnesses: identifiers that count,
    nodes and a Kubernetes master that do what they are told and keep a log,
    tokens that are their expiry in decimal, and a certificate authority whose
    texts are readable. *)
Module CceScenario.

#[export] Instance demo_uuid : Uuid | 100 := {|
  FromStringOrNil := λ s, str_len s;
  IDS := Z;
  NewV4 := λ n, ("id-" +:+ Itoa n, n + 1);
|}.

#[export] Program Instance demo_uuid_laws : UuidLaws | 100.
Next Obligation. intros s. simpl. unfold str_len. rewrite str_length_app. simpl. lia. Qed.
Next Obligation. done. Qed.

#[export] Instance demo_url : Url | 100 := λ s, negb (str_empty s).

(** Every call succeeds and is logged with the address it went to. *)
#[export] Instance demo_net : NodeNet | 100 := {|
  NET := list (string * rpc);
  grpc_Dial := λ addr _ n, (if str_empty addr then Some "no address" else None, n);
  grpc_call := λ addr r n,
    (inl (match r with
          | GetStatusRpc _ => RStatus 4
          | GetAllIfaces => RIfaces []
          | _ => REmpty
          end), n ++ [(addr, r)]);
  host_ReadFile := λ p, inr ("open " +:+ p +:+ ": no such file or directory");
  json_CniArgs := λ _, inr "unexpected end of JSON input";
  RegisterHost := λ _ n, n;
|}.

#[export] Instance demo_k8s : K8sClient | 100 := {|
  K8S := unit;
  K8s_Deploy := λ _ _ k, (None, k);
  K8s_do := λ _ _ _ k, (None, k);
  K8s_Status := λ _ _ k, (("running", None), k);
  K8s_GetAppIDByIP := λ _ ip k, ((ip, None), k);
  K8s_ApplyNetworkPolicy := λ _ _ _ k, (None, k);
|}.

(** A token is the decimal text of its expiry. *)
#[export] Instance demo_jose : Jose | 100 := {|
  Token := Z;
  Claims := Z;
  NewSigner := None;
  CompactSerialize := λ exp, if bool_decide (0 ≤ exp ≤ max_int) then inl (Itoa exp)
                             else inr "range";
  ParseSigned := λ s, match Atoi s with
                      | (z, None) => inl z
                      | (_, Some e) => inr e
                      end;
  key_signer := true;
  token_Claims := λ t, inl t;
  Claims_Validate := λ exp now, if bool_decide (exp < now) then Some "expired" else None;
|}.

Lemma parse_uint_nospace s u z : parse_uint s u = inl z → ¬ contains s " ".
Proof.
  revert u. induction s as [|c s IH]; intros u Hp (a & b & Hab); [by destruct a|].
  simpl in Hp. destruct (digit_of c) as [d|] eqn:Hd; [|done].
  case_bool_decide; [done|]. destruct a as [|c' a].
  - injection Hab as -> ->. vm_compute in Hd. done.
  - injection Hab as -> ->. apply (IH _ Hp). by exists a, b.
Qed.

Lemma Itoa_nospace z : 0 ≤ z ≤ max_int → ¬ contains (Itoa z) " ".
Proof.
  intros Hz. unfold Itoa. rewrite pretty_Z_nonneg by lia.
  eapply (parse_uint_nospace _ 0), parse_uint_pretty. unfold max_uint, max_int in *. lia.
Qed.

#[export] Program Instance demo_jose_laws : JoseLaws | 100.
Next Obligation.
  simpl. intros exp t Ht. case_bool_decide; [|done]. injection Ht as <-.
  exists exp, exp. rewrite Atoi_Itoa by (unfold max_int in *; lia). split; [done|].
  split; [done|]. intros now Hn. by rewrite bool_decide_eq_false_2 by lia.
Qed.
Next Obligation.
  simpl. intros exp t Ht. case_bool_decide; [|done]. injection Ht as <-. by apply Itoa_nospace.
Qed.

#[export] Instance demo_pki : Pki | 100 := {|
  Cert := string;
  CertReq := string;
  pem_Decode := λ s, Some s;
  pem_Encode := λ c, c;
  ParseCertificate := λ s, inl s;
  MarshalPKIXPublicKey := λ s, inl s;
  ParseCertificateRequest := λ s, inl s;
  CheckSignature := λ _, None;
  RawSubjectPublicKeyInfo := λ s, s;
  key_digest := λ s, "digest-" +:+ s;
  SignCSR := λ req cn, inl ("cert:" +:+ cn +:+ ":" +:+ req);
  CAChain := inl ["intermediate"; "root"];
|}.

(** A controller for the native data plane, and its first state. *)
Definition demo_ctrl : Controller :=
  mkController OrchestrationModeNative "" "" (mkAuthCreds "admin" "secret").

Definition demo_state (T : Tables) : Ctl := mkCtl _ _ _ _ T [] tt 1 new_writer.
End CceScenario.
