(* ===== verification/CcePersistFacts.v ===== *)
(** * Facts on the persistence service

    What the statements do to the rows of a table, that they keep the
    constraints of the schema ([db_ok]), and what the methods of the service
    yield in terms of the tables. *)

From S2P Require Import Prelude Strconv Json CceModel CcePersist.
From stdpp Require Import prelude strings list gmap sorting.
From Stdlib Require Import ZArith.

Local Open Scope Z_scope.

(** ** Rows *)

Lemma rows_of_insert T t rows t' :
  rows_of (<[t := rows]> T) t' = if bool_decide (t = t') then rows else rows_of T t'.
Proof.
  unfold rows_of. case_bool_decide; subst; [by rewrite lookup_insert_eq|].
  by rewrite lookup_insert_ne.
Qed.

Lemma rows_of_cascade T t id t' :
  rows_of (cascade T t id) t' = List.filter (λ r, negb (cascades t id t' r)) (rows_of T t').
Proof. unfold rows_of, cascade. rewrite map_lookup_imap. by destruct (T !! t'). Qed.

Lemma has_row_spec T t id :
  has_row T t id = true ↔ ∃ r, r ∈ rows_of T t ∧ row_id r = Some id.
Proof.
  unfold has_row. rewrite existsb_exists. setoid_rewrite bool_decide_eq_true.
  by setoid_rewrite <- list_elem_of_In.
Qed.

Lemma elem_of_Filter {A} (f : A → bool) l x : x ∈ List.filter f l ↔ x ∈ l ∧ f x = true.
Proof. rewrite !list_elem_of_In. apply List.filter_In. Qed.

Lemma is_id_spec id r : is_id (Some id) r = true ↔ row_id r = Some id.
Proof. unfold is_id. rewrite andb_true_iff, !bool_decide_eq_true. naive_solver. Qed.

Lemma is_id_same r r' : is_id (row_id r') r = true → row_id r = row_id r'.
Proof. unfold is_id. rewrite andb_true_iff, !bool_decide_eq_true. tauto. Qed.

(** The row a statement writes, and where. *)
Definition stmt_row (st : stmt) : option (string * json) :=
  match st with
  | InsertRow t row | UpdateRow t row => Some (t, row)
  | DeleteRow _ _ => None
  end.

(** Every row after a statement was there before or is the one written. *)
Lemma rel_exec_rows T st n T' t r :
  rel_exec T st = Some (n, T') → r ∈ rows_of T' t →
  r ∈ rows_of T t ∨ stmt_row st = Some (t, r).
Proof.
  intros He Hr. destruct st as [t' row|t' row|t' id]; simpl in He; repeat case_match;
    simplify_eq; auto.
  - rewrite rows_of_insert in Hr. case_bool_decide; subst; [|by left].
    apply elem_of_app in Hr as [|Hr]; [by left|]. apply list_elem_of_singleton in Hr as ->. by right.
  - rewrite rows_of_insert in Hr. case_bool_decide; subst; [|by left].
    apply list_elem_of_fmap in Hr as (r' & -> & Hr'). case_match; [by right|by left].
  - rewrite rows_of_cascade in Hr. apply elem_of_Filter in Hr as [Hr _].
    rewrite rows_of_insert in Hr. case_bool_decide; subst; [|by left].
    apply elem_of_Filter in Hr as [Hr _]. by left.
Qed.

(** ** The constraints *)

(** Every value of a foreign key is the identifier of a row of the table it
    refers to. *)
Definition refs_ok (T : Tables) : Prop :=
  ∀ t d r fk v, table_def t = Some d → r ∈ rows_of T t → fk ∈ td_foreign d →
    column (fk_column fk) r = Some v → has_row T (fk_table fk) v = true.

(** No two rows collide in a unique key. *)
Definition keys_ok (T : Tables) : Prop :=
  ∀ t d key i j a b, table_def t = Some d → key ∈ td_unique d →
    rows_of T t !! i = Some a → rows_of T t !! j = Some b → i ≠ j → collide key a b = false.

Record db_ok (T : Tables) : Prop := {
  db_refs : refs_ok T;
  db_keys : keys_ok T;
}.

Lemma collide_comm key a b : collide key a b = collide key b a.
Proof.
  apply eq_bool_prop_intro. split; unfold collide;
    intros Hc%Is_true_true; apply Is_true_true; rewrite forallb_forall in *; intros c Hin;
    specialize (Hc c Hin); rewrite andb_true_iff, !bool_decide_eq_true in *;
    destruct Hc as [Hn He]; by rewrite <- He.
Qed.

Lemma unique_ok_spec d row others :
  unique_ok d row others = true ↔
  ∀ key r, key ∈ td_unique d → r ∈ others → collide key row r = false.
Proof.
  unfold unique_ok. rewrite forallb_forall. split.
  - intros Hall key r Hkey Hr. apply list_elem_of_In in Hkey. specialize (Hall key Hkey).
    apply negb_true_iff in Hall. destruct (collide key row r) eqn:Hc; [|done].
    rewrite <- not_true_iff_false in Hall. exfalso. apply Hall.
    apply existsb_exists. exists r. by rewrite <- list_elem_of_In.
  - intros Hall key Hkey. apply list_elem_of_In in Hkey. apply negb_true_iff, not_true_iff_false.
    intros (r & Hr & Hc)%existsb_exists. apply list_elem_of_In in Hr.
    rewrite Hall in Hc; done.
Qed.

Lemma foreign_ok_spec T d row :
  foreign_ok T d row = true ↔
  ∀ fk v, fk ∈ td_foreign d → column (fk_column fk) row = Some v →
    has_row T (fk_table fk) v = true.
Proof.
  unfold foreign_ok. rewrite forallb_forall. split.
  - intros Hall fk v Hfk Hc. apply list_elem_of_In in Hfk. specialize (Hall fk Hfk).
    by rewrite Hc in Hall.
  - intros Hall fk Hfk. apply list_elem_of_In in Hfk. case_match; [by apply Hall|done].
Qed.

Lemma refers_spec c t id d r :
  refers c t id d r = true ↔
  ∃ fk, fk ∈ td_foreign d ∧ fk_table fk = t ∧ fk_cascade fk = c
        ∧ column (fk_column fk) r = Some id.
Proof.
  unfold refers. rewrite existsb_exists. setoid_rewrite <- list_elem_of_In.
  setoid_rewrite andb_true_iff. setoid_rewrite andb_true_iff.
  setoid_rewrite bool_decide_eq_true. setoid_rewrite eqb_true_iff. naive_solver.
Qed.

Lemma table_def_schema t d : table_def t = Some d → (t, d) ∈ schema.
Proof.
  unfold table_def. induction schema as [|[t' d'] l IH]; simpl; [done|].
  case_bool_decide; [intros [= ->]; subst; left|]. intros Hl. right. by apply IH.
Qed.

(** Every table has the unique key [id]. *)
Lemma id_unique t d : table_def t = Some d → id_key ∈ td_unique d.
Proof.
  intros Hd. apply table_def_schema in Hd.
  assert (forallb (λ td, bool_decide (id_key ∈ td_unique td.2)) schema = true) as Hall by done.
  rewrite forallb_forall in Hall. apply list_elem_of_In in Hd.
  specialize (Hall _ Hd). by apply bool_decide_eq_true in Hall.
Qed.

Lemma in_use_refers T t id t' d r :
  in_use T t id = false → table_def t' = Some d → r ∈ rows_of T t' →
  refers false t id d r = false.
Proof.
  intros Hu Hd Hr. apply not_true_iff_false. intros Href.
  apply not_true_iff_false in Hu. apply Hu. unfold in_use.
  apply existsb_exists. exists (t', d). rewrite <- list_elem_of_In.
  split; [by apply table_def_schema|]. apply existsb_exists. exists r.
  by rewrite <- list_elem_of_In.
Qed.

(** No foreign key refers to a table whose rows cascade. *)
Lemma cascade_leaf t d fk t' d' fk' :
  table_def t = Some d → fk ∈ td_foreign d → table_def t' = Some d' → fk' ∈ td_foreign d' →
  fk_cascade fk' = true → fk_table fk ≠ t'.
Proof.
  intros Hd Hfk Hd' Hfk' Hc.
  apply table_def_schema in Hd. apply table_def_schema in Hd'.
  assert (forallb (λ td, forallb (λ td', forallb (λ fk, forallb (λ fk',
    negb (fk_cascade fk') || bool_decide (fk_table fk ≠ td'.1))
    (td_foreign td'.2)) (td_foreign td.2)) schema) schema = true) as Hall by done.
  rewrite forallb_forall in Hall. apply list_elem_of_In in Hd. specialize (Hall _ Hd).
  rewrite forallb_forall in Hall. apply list_elem_of_In in Hd'. specialize (Hall _ Hd').
  rewrite forallb_forall in Hall. apply list_elem_of_In in Hfk. specialize (Hall _ Hfk).
  rewrite forallb_forall in Hall. apply list_elem_of_In in Hfk'. specialize (Hall _ Hfk').
  simpl in Hall. rewrite Hc in Hall. by apply bool_decide_eq_true in Hall.
Qed.

(** Rows that keep their place or go do not collide. *)
Lemma keys_filter rows (f : json → bool) key i j a b :
  (∀ i j a b, rows !! i = Some a → rows !! j = Some b → i ≠ j → collide key a b = false) →
  List.filter f rows !! i = Some a → List.filter f rows !! j = Some b → i ≠ j →
  collide key a b = false.
Proof.
  revert i j. induction rows as [|r rows IH]; intros i j Hk Ha Hb Hij; simpl in *; [done|].
  assert (∀ i j a b, rows !! i = Some a → rows !! j = Some b → i ≠ j → collide key a b = false)
    as Hk' by (intros i' j' ?? ???; eapply (Hk (S i') (S j')); [done..|lia]).
  assert (∀ k x, List.filter f rows !! k = Some x → ∃ k', rows !! k' = Some x) as Hin.
  { intros k x Hx. apply list_elem_of_lookup_2, elem_of_Filter in Hx as [Hx _].
    by apply list_elem_of_lookup in Hx. }
  destruct (f r); [|by eapply IH].
  destruct i as [|i], j as [|j]; simpl in *; simplify_eq; [| |by eapply IH; eauto].
  - destruct (Hin _ _ Hb) as (k & Hk2). by eapply (Hk 0%nat (S k)).
  - destruct (Hin _ _ Ha) as (k & Hk2). by eapply (Hk (S k) 0%nat).
Qed.

Section preservation.
Context (T : Tables) (Hok : db_ok T).

Lemma insert_keeps t row T' n : rel_exec T (InsertRow t row) = Some (n, T') → db_ok T'.
Proof.
  simpl. destruct (table_def t) as [d|] eqn:Hd; [|done].
  destruct (unique_ok _ _ _ && foreign_ok _ _ _) eqn:Hc; [|done]. intros [= <- <-].
  apply andb_true_iff in Hc as [Hu Hf]. rewrite unique_ok_spec in Hu. rewrite foreign_ok_spec in Hf.
  assert (∀ t' v, has_row T t' v = true → has_row (<[t:=rows_of T t ++ [row]]> T) t' v = true) as Hmono.
  { intros t' v (r & Hr & Hid)%has_row_spec. apply has_row_spec. exists r. split; [|done].
    rewrite rows_of_insert. case_bool_decide; subst; [|done]. apply elem_of_app. by left. }
  split.
  - intros t' d' r fk v Hd' Hr Hfk Hv. apply Hmono. rewrite rows_of_insert in Hr.
    case_bool_decide; subst; [|by eapply (db_refs _ Hok)].
    apply elem_of_app in Hr as [Hr|Hr]; [by eapply (db_refs _ Hok)|].
    apply list_elem_of_singleton in Hr as ->. simplify_eq. by apply (Hf fk).
  - intros t' d' key i j a b Hd' Hkey Ha Hb Hij. rewrite rows_of_insert in Ha, Hb.
    case_bool_decide; subst; [|by eapply (db_keys _ Hok)]. assert (d' = d) as -> by congruence.
    apply lookup_app_Some in Ha as [Ha|[? Ha]], Hb as [Hb|[? Hb]].
    + by eapply (db_keys _ Hok _ _ key i j).
    + apply list_lookup_singleton_Some in Hb as [? ->]. rewrite collide_comm.
      apply Hu; [done|]. by eapply list_elem_of_lookup_2.
    + apply list_lookup_singleton_Some in Ha as [? ->].
      apply Hu; [done|]. by eapply list_elem_of_lookup_2.
    + apply list_lookup_singleton_Some in Ha as [? ->].
      apply list_lookup_singleton_Some in Hb as [? ->]. lia.
Qed.

Lemma update_keeps t row T' n : rel_exec T (UpdateRow t row) = Some (n, T') → db_ok T'.
Proof.
  simpl. destruct (table_def t) as [d|] eqn:Hd; [|done].
  case_bool_decide; [by intros [= <- <-]|].
  destruct (unique_ok _ _ _ && foreign_ok _ _ _) eqn:Hc; [|done]. intros [= <- <-].
  apply andb_true_iff in Hc as [Hu Hf]. rewrite unique_ok_spec in Hu. rewrite foreign_ok_spec in Hf.
  set (upd := λ r, if is_id (row_id row) r then row else r).
  assert (∀ r, row_id (upd r) = row_id r) as Hupd.
  { intros r. unfold upd. destruct (is_id (row_id row) r) eqn:Hi; [|done].
    symmetry. by apply is_id_same. }
  assert (∀ t' v, has_row T t' v = true → has_row (<[t:=upd <$> rows_of T t]> T) t' v = true) as Hmono.
  { intros t' v (r & Hr & Hid)%has_row_spec. apply has_row_spec. rewrite rows_of_insert.
    case_bool_decide; subst; [|by exists r]. exists (upd r). rewrite Hupd. split; [|done].
    apply list_elem_of_fmap. by exists r. }
  split.
  - intros t' d' r fk v Hd' Hr Hfk Hv. apply Hmono. rewrite rows_of_insert in Hr.
    case_bool_decide; subst; [|by eapply (db_refs _ Hok)]. simplify_eq.
    apply list_elem_of_fmap in Hr as (r' & -> & Hr'). unfold upd in Hv.
    destruct (is_id (row_id row) r'); [by apply (Hf fk)|by eapply (db_refs _ Hok)].
  - intros t' d' key i j a b Hd' Hkey Ha Hb Hij. rewrite rows_of_insert in Ha, Hb.
    case_bool_decide; subst; [|by eapply (db_keys _ Hok)]. assert (d' = d) as -> by congruence.
    rewrite !list_lookup_fmap in Ha, Hb.
    destruct (rows_of T t' !! i) as [a'|] eqn:Ha'; simplify_eq/=.
    destruct (rows_of T t' !! j) as [b'|] eqn:Hb'; simplify_eq/=.
    assert (∀ k r, rows_of T t' !! k = Some r → is_id (row_id row) r = false →
      collide key row r = false) as Hrow.
    { intros k r Hr Hi. apply Hu; [done|]. apply elem_of_Filter.
      split; [by eapply list_elem_of_lookup_2|by rewrite Hi]. }
    unfold upd. destruct (is_id (row_id row) a') eqn:Hia, (is_id (row_id row) b') eqn:Hib.
    + assert (collide key a' b' = false) by (by eapply (db_keys _ Hok _ _ key i j)).
      assert (collide id_key a' b' = false) as Hid.
      { by eapply (db_keys _ Hok _ _ id_key i j); [|eapply id_unique|..]. }
      exfalso. unfold collide, id_key in Hid; simpl in Hid.
      apply is_id_same in Hia as Hra. apply is_id_same in Hib as Hrb.
      unfold is_id in Hia. apply andb_true_iff in Hia as [_ Hn]. apply bool_decide_eq_true in Hn.
      unfold row_id in *. rewrite Hra, Hrb in Hid.
      rewrite !bool_decide_eq_true_2 in Hid by done. done.
    + by eapply Hrow.
    + rewrite collide_comm. by eapply Hrow.
    + by eapply (db_keys _ Hok _ _ key i j).
Qed.

Lemma delete_keeps t id T' n : rel_exec T (DeleteRow t id) = Some (n, T') → db_ok T'.
Proof.
  simpl. destruct (table_def t) as [d|] eqn:Hd; [|done].
  case_bool_decide; [by intros [= <- <-]|].
  destruct (in_use T t id) eqn:Hu; [done|]. intros [= <- <-].
  set (T1 := <[t:=List.filter (λ r, negb (is_id (Some id) r)) (rows_of T t)]> T).
  assert (∀ t' r, r ∈ rows_of (cascade T1 t id) t' →
    r ∈ rows_of T t' ∧ cascades t id t' r = false) as Hin.
  { intros t' r Hr. rewrite rows_of_cascade in Hr. apply elem_of_Filter in Hr as [Hr Hc].
    apply negb_true_iff in Hc. split; [|done]. unfold T1 in Hr. rewrite rows_of_insert in Hr.
    case_bool_decide; subst; [|done]. by apply elem_of_Filter in Hr as [? _]. }
  split.
  - intros t' d' r fk v Hd' Hr Hfk Hv. apply Hin in Hr as [Hr Hc].
    assert (has_row T (fk_table fk) v = true) as Hrow by (by eapply (db_refs _ Hok)).
    apply has_row_spec in Hrow as (p & Hp & Hpid). apply has_row_spec. exists p. split; [|done].
    rewrite rows_of_cascade. apply elem_of_Filter. split.
    + unfold T1. rewrite rows_of_insert. case_bool_decide as Ht; [|done]. subst t.
      apply elem_of_Filter. split; [done|]. apply negb_true_iff, not_true_iff_false.
      rewrite is_id_spec. intros Hpid'. rewrite Hpid in Hpid'. simplify_eq.
      destruct (fk_cascade fk) eqn:Hfc.
      * unfold cascades in Hc. rewrite Hd' in Hc. apply not_true_iff_false in Hc. apply Hc.
        apply refers_spec. by exists fk.
      * assert (refers false (fk_table fk) id d' r = false) as Href by (by eapply in_use_refers).
        apply not_true_iff_false in Href. apply Href, refers_spec. by exists fk.
    + apply negb_true_iff, not_true_iff_false. unfold cascades.
      destruct (table_def (fk_table fk)) as [d2|] eqn:Hd2; [|done].
      intros (fk2 & Hfk2 & _ & Hfc & _)%refers_spec.
      by eapply (cascade_leaf t' d' fk (fk_table fk) d2 fk2).
  - intros t' d' key i j a b Hd' Hkey Ha Hb Hij. rewrite rows_of_cascade in Ha, Hb.
    eapply keys_filter; [|exact Ha|exact Hb|done].
    clear -Hok Hd' Hkey. intros i j a b Ha Hb Hij. unfold T1 in Ha, Hb.
    rewrite rows_of_insert in Ha, Hb. case_bool_decide; subst.
    + eapply keys_filter; [|exact Ha|exact Hb|done].
      intros. by eapply (db_keys _ Hok).
    + by eapply (db_keys _ Hok).
Qed.

(** A statement keeps the constraints. *)
Lemma rel_exec_ok st n T' : rel_exec T st = Some (n, T') → db_ok T'.
Proof. destruct st; [apply insert_keeps|apply update_keeps|apply delete_keeps]. Qed.
End preservation.

Lemma db_ok_empty : db_ok ∅.
Proof.
  split; [intros t d r fk v _ Hr|intros t d key i j a b _ _ Ha]; unfold rows_of in *;
    rewrite lookup_empty in *; simpl in *; [by apply not_elem_of_nil in Hr|done].
Qed.

(** ** The search for a filter field *)

Lemma ascii_compare_lt_trans a b c :
  Ascii.compare a b = Lt → Ascii.compare b c = Lt → Ascii.compare a c = Lt.
Proof. unfold Ascii.compare. rewrite !N.compare_lt_iff. lia. Qed.

Lemma string_compare_lt_trans a : ∀ b c,
  String.compare a b = Lt → String.compare b c = Lt → String.compare a c = Lt.
Proof.
  induction a as [|x a IH]; intros [|y b] [|z c]; simpl; try done.
  destruct (Ascii.compare x y) eqn:Hxy, (Ascii.compare y z) eqn:Hyz; try done; intros Hab Hbc.
  - apply Ascii.compare_eq_iff in Hxy as ->, Hyz as ->.
    unfold Ascii.compare. rewrite N.compare_refl. by eapply IH.
  - apply Ascii.compare_eq_iff in Hxy as ->. by rewrite Hyz.
  - apply Ascii.compare_eq_iff in Hyz as ->. by rewrite Hxy.
  - by rewrite (ascii_compare_lt_trans x y z).
Qed.

#[export] Instance string_le_trans : Transitive string_le.
Proof.
  intros a b c. unfold string_le, String.leb.
  destruct (String.compare a b) eqn:Hab, (String.compare b c) eqn:Hbc; try done; intros _ _.
  - apply String.compare_eq_iff in Hab as ->, Hbc as ->. pose proof (String.compare_antisym c c).
    by destruct (String.compare c c).
  - apply String.compare_eq_iff in Hab as ->. by rewrite Hbc.
  - apply String.compare_eq_iff in Hbc as ->. by rewrite Hab.
  - by rewrite (string_compare_lt_trans a b c).
Qed.

#[export] Instance string_le_total : Total string_le.
Proof. intros a b. apply String.leb_total. Qed.

Lemma string_le_antisym a b : string_le a b → string_le b a → a = b.
Proof. apply String.leb_antisym. Qed.

Lemma sort_Strings_sorted l : StronglySorted string_le (sort_Strings l).
Proof. apply StronglySorted_merge_sort; apply _. Qed.

(** In a sorted list the search that stops early finds what is there. *)
Lemma allowed_loop_spec ffs f allowed :
  StronglySorted string_le ffs →
  allowed_loop ffs f allowed = allowed || bool_decide (f ∈ ffs).
Proof.
  intros Hs. revert allowed. induction Hs as [|a ffs Hs IH Hall]; intros allowed.
  { cbn [allowed_loop]. case_bool_decide as Hn; [by apply not_elem_of_nil in Hn|].
    by rewrite orb_false_r. }
  cbn [allowed_loop]. destruct (decide (f = a)) as [->|Hne].
  - rewrite (bool_decide_eq_true_2 (a = a)) by done.
    rewrite (bool_decide_eq_true_2 (a ∈ a :: ffs)) by left. rewrite orb_true_r.
    destruct (bool_decide (string_le a a)); [done|]. by rewrite IH.
  - rewrite (bool_decide_eq_false_2 (f = a)) by done.
    destruct (bool_decide_reflect (string_le f a)) as [Hle|Hle].
    + rewrite (bool_decide_eq_false_2 (f ∈ a :: ffs)); [by rewrite orb_false_r|]. intros Hin.
      apply elem_of_cons in Hin as [->|Hin]; [done|]. rewrite Forall_forall in Hall.
      apply Hne, string_le_antisym; [done|by apply Hall].
    + rewrite IH. f_equal. apply bool_decide_ext. rewrite elem_of_cons. naive_solver.
Qed.

Lemma disallowed_None ffs fs :
  PS.disallowed ffs fs = None ↔ ∀ f, f ∈ fs → f.1 ∈ ffs.
Proof.
  unfold PS.disallowed.
  assert (∀ f, allowed_loop (sort_Strings ffs) f false = bool_decide (f ∈ ffs)) as Hal.
  { intros f. rewrite allowed_loop_spec by apply sort_Strings_sorted. simpl.
    apply bool_decide_ext. unfold sort_Strings. by rewrite merge_sort_Permutation. }
  destruct (List.find _ fs) as [f|] eqn:Hf.
  - split; [done|]. intros Hall. apply List.find_some in Hf as [Hin Hf].
    rewrite Hal, negb_true_iff, bool_decide_eq_false in Hf. by destruct (Hf (Hall f (proj2 (list_elem_of_In _ _) Hin))).
  - split; [|done]. intros _ f Hin. apply list_elem_of_In in Hin.
    pose proof (List.find_none _ _ Hf f Hin) as Hn. simpl in Hn.
    by rewrite Hal, negb_false_iff, bool_decide_eq_true in Hn.
Qed.

(** ** The methods of the service *)

(** The rows of a query, read into a type. *)
Definition decoded `{Json A} (rows : list json) : list A := omap of_json rows.

Section service.
Context `{CceDBLaws}.

(** A method of the service does not panic. *)

Lemma returns_select `{Persistable A} ws : returns (PS.select_all (A:=A) ws).
Proof. intros d. unfold PS.select_all. repeat case_match; eauto. Qed.

Lemma returns_Filter `{Filterable A} fs : returns (PS.Filter (A:=A) fs).
Proof. unfold PS.Filter. case_match; [intros d; by do 2 eexists|apply returns_select]. Qed.

Lemma returns_Read `{Persistable A} id : returns (PS.Read (A:=A) id).
Proof. intros d. unfold PS.Read. repeat case_match; eauto. Qed.

Lemma returns_Create `{Persistable A} (a : A) : returns (PS.Create a).
Proof. intros d. unfold PS.Create. repeat case_match; eauto. Qed.

Lemma returns_Delete `{Persistable A} id : returns (PS.Delete A id).
Proof. intros d. unfold PS.Delete. repeat case_match; eauto. Qed.

Lemma returns_BulkUpdate `{Persistable A} (es : list A) : returns (PS.BulkUpdate es).
Proof.
  induction es as [|e es IH]; intros d; simpl; [by do 2 eexists|]. repeat case_match; eauto.
Qed.

(** Queries leave the tables as they are. *)
Lemma select_same `{Persistable A} ws d :
  tables (PS.select_all (A:=A) ws d).2 = tables d.
Proof.
  unfold PS.select_all. pose proof (query_same (GetTableName A) ws d) as Hq.
  repeat case_match; simplify_eq/=; done.
Qed.

Lemma Filter_same `{Filterable A} fs d : tables (PS.Filter (A:=A) fs d).2 = tables d.
Proof. unfold PS.Filter. case_match; [done|apply select_same]. Qed.

Lemma Read_same `{Persistable A} id d : tables (PS.Read (A:=A) id d).2 = tables d.
Proof.
  unfold PS.Read. pose proof (query_same (GetTableName A) [("id", id)] d) as Hq.
  repeat case_match; simplify_eq/=; done.
Qed.

(** A statement applies or does nothing. *)
Lemma exec_cases st d :
  tables (ExecContext st d).2 = tables d
  ∨ ∃ n, rel_exec (tables d) st = Some (n, tables (ExecContext st d).2).
Proof.
  destruct (ExecContext st d) as [[n|e] d'] eqn:He; simpl.
  - right. exists n. by apply exec_ok.
  - by apply (exec_err st d e).
Qed.

(** An invariant of the tables that statements keep is kept by the service. *)
Section invariant.
Context (I : Tables → Prop).

Lemma exec_keeps st d :
  (∀ T n T', I T → rel_exec T st = Some (n, T') → I T') →
  I (tables d) → I (tables (ExecContext st d).2).
Proof. intros Hst Hd. destruct (exec_cases st d) as [->|[n Hn]]; eauto. Qed.

Definition keeps_tables {A} (m : GoM DB A) : Prop := preserves (λ d, I (tables d)) m.

Lemma keeps_Create `{Persistable A} (a : A) :
  (∀ T n T', I T → rel_exec T (InsertRow (GetTableName A) (to_json a)) = Some (n, T') → I T') →
  keeps_tables (PS.Create a).
Proof.
  intros Hst d Hd. unfold PS.Create.
  pose proof (exec_keeps (InsertRow (GetTableName A) (to_json a)) d Hst Hd).
  repeat case_match; simplify_eq/=; done.
Qed.

Lemma keeps_BulkUpdate `{Persistable A} (a : A) :
  (∀ T n T', I T → rel_exec T (UpdateRow (GetTableName A) (to_json a)) = Some (n, T') → I T') →
  keeps_tables (PS.BulkUpdate [a]).
Proof.
  intros Hst d Hd. simpl.
  pose proof (exec_keeps (UpdateRow (GetTableName A) (to_json a)) d Hst Hd).
  repeat case_match; simplify_eq/=; done.
Qed.

Lemma keeps_Delete `{Persistable A} id :
  (∀ T n T', I T → rel_exec T (DeleteRow (GetTableName A) id) = Some (n, T') → I T') →
  keeps_tables (PS.Delete A id).
Proof.
  intros Hst d Hd. unfold PS.Delete.
  pose proof (exec_keeps (DeleteRow (GetTableName A) id) d Hst Hd).
  repeat case_match; simplify_eq/=; done.
Qed.

Lemma keeps_Filter `{Filterable A} fs : keeps_tables (PS.Filter (A:=A) fs).
Proof. intros d Hd. by rewrite Filter_same. Qed.

Lemma keeps_Read `{Persistable A} id : keeps_tables (PS.Read (A:=A) id).
Proof. intros d Hd. by rewrite Read_same. Qed.

Lemma keeps_ReadAll `{Persistable A} : keeps_tables (PS.ReadAll (A:=A)).
Proof. intros d Hd. unfold PS.ReadAll. by rewrite select_same. Qed.
End invariant.

(** What a query that succeeds reads are decoded rows of the selection. *)
Lemma scan_all_elem `{Persistable A} rows (es : list A) a :
  PS.scan_all rows = inl es → a ∈ es → ∃ j, j ∈ documents rows ∧ of_json j = Some a.
Proof.
  revert es. induction rows as [|r rows IH]; intros es Hs Ha; simpl in *; simplify_eq.
  { by apply not_elem_of_nil in Ha. }
  destruct (PS.scan r) as [b|] eqn:Hr; [|done].
  destruct (PS.scan_all rows) as [es'|] eqn:Hrs; [|done]. simplify_eq.
  unfold documents. destruct r as [j|e]; simpl in *; [|done].
  destruct (of_json j) as [b'|] eqn:Hj; simplify_eq.
  apply elem_of_cons in Ha as [->|Ha]; [exists j; split; [left|done]|].
  destruct (IH es' eq_refl Ha) as (j' & ? & ?). exists j'. split; [by right|done].
Qed.

Lemma rel_select_elem T t ws r :
  r ∈ rel_select T t ws ↔ r ∈ rows_of T t ∧ matches ws r = true.
Proof. unfold rel_select. apply elem_of_Filter. Qed.

Lemma query_elem t ws d rows d' r :
  QueryContext t ws d = (inl rows, d') → r ∈ documents rows →
  r ∈ rel_select (tables d) t ws.
Proof.
  intros Hq Hr. destruct (query_rows t ws d rows d' Hq) as (lost & Hp).
  rewrite <- Hp. apply elem_of_app. by left.
Qed.

Lemma select_elem `{Persistable A} ws d es d' a :
  PS.select_all (A:=A) ws d = (Ret (es, None), d') → a ∈ es →
  ∃ r, r ∈ rel_select (tables d) (GetTableName A) ws ∧ of_json r = Some a.
Proof.
  unfold PS.select_all. intros Hs Ha. repeat case_match; simplify_eq.
  eapply scan_all_elem in Ha as (j & Hj & Ho); [|done]. exists j. split; [|done].
  by eapply query_elem.
Qed.

Lemma Filter_elem `{Filterable A} fs d es d' a :
  PS.Filter (A:=A) fs d = (Ret (es, None), d') → a ∈ es →
  ∃ r, r ∈ rel_select (tables d) (GetTableName A) fs ∧ of_json r = Some a.
Proof. unfold PS.Filter. case_match; [by intros [=]|]. apply select_elem. Qed.

Lemma Read_elem `{Persistable A} id d a d' :
  PS.Read (A:=A) id d = (Ret (Some a, None), d') →
  ∃ r, r ∈ rows_of (tables d) (GetTableName A) ∧ row_id r = Some id ∧ of_json r = Some a.
Proof.
  unfold PS.Read. intros Hr. repeat case_match; simplify_eq.
  match goal with H : PS.scan ?x = _ |- _ => unfold PS.scan in H; destruct x as [j|]; [|done] end.
  destruct (of_json j) eqn:Hj; simplify_eq. exists j.
  match goal with H : QueryContext _ _ _ = (inl (inl j :: ?l), _) |- _ =>
    pose proof (query_elem _ _ _ _ _ j H ltac:(by left)) as Hin end.
  apply rel_select_elem in Hin as [Hin Hm]. split; [done|]. split; [|done].
  simpl in Hm. rewrite andb_true_r in Hm. by apply bool_decide_eq_true in Hm.
Qed.
End service.
