(* ===== verification/CceInv.v ===== *)
(** * Invariants of the controller's database

    [row_ok] says what a row of each table is: the document of an entity of the
    Go type of that table, and, where the code validates before it stores, one
    that passes its [Validate] method.  Every operation of the controller keeps
    this and the constraints of the schema ([ctl_inv]), whatever the database,
    the nodes and Kubernetes answer.  The proof follows the structure of the
    handlers: one lemma per building block, one line per handler. *)

From S2P Require Import Prelude Strconv Http Json CceModel CcePolicy CcePersist CceNode CceCtl CceRest CceRouter CceServer CcePersistFacts.
From stdpp Require Import prelude strings list gmap.
From Stdlib Require Import ZArith.

Local Open Scope Z_scope.

(** The row is the document of some [a] with [P a]. *)
Definition is_doc A `{Json A} (P : A → Prop) (r : json) : Prop :=
  ∃ a : A, r = to_json a ∧ P a.

Section rows.
Context `{Uuid, Url}.

(** A record that passes validation. *)
Definition good_record (r : option DNSARecord) : Prop :=
  ∃ a, r = Some a ∧ DNSARecord_Validate a = Ret None.

(** The policies are those of the data plane the controller manages. *)
Definition policy_ok (mode : OrchestrationMode) (r : json) : Prop :=
  if bool_decide (mode = OrchestrationModeKubernetesOVN)
  then is_doc TrafficPolicyKubeOVN (λ p, TrafficPolicyKubeOVN_Validate p = Ret None) r
  else is_doc TrafficPolicy (λ p, TrafficPolicy_Validate p = Ret None) r.

Record row_ok (mode : OrchestrationMode) (t : string) (r : json) : Prop := {
  ok_nodes : t = "nodes" → is_doc Node (λ n, Node_Validate n = Ret None) r
    ∨ is_doc NodeReq (λ nr, Node_Validate (NodeReq_Node nr) = Ret None) r;
  ok_apps : t = "apps" → is_doc App (λ a, App_Validate a = Ret None) r;
  ok_policies : t = "traffic_policies" → policy_ok mode r;
  ok_dns : t = "dns_configs" →
    is_doc DNSConfig (λ c, IsValid (DNSConfig_ID c) = true
      ∧ Forall good_record (DNSConfig_ARecords c) ∧ DNSConfig_Forwarders c = []) r;
  ok_aliases : t = "dns_configs_app_aliases" →
    is_doc DNSConfigAppAlias (λ a, DNSConfigAppAlias_Validate a = Ret None) r;
  ok_nodes_apps : t = "nodes_apps" → is_doc NodeApp (λ a, NodeApp_Validate a = Ret None) r;
  ok_nodes_dns : t = "nodes_dns_configs" →
    is_doc NodeDNSConfig (λ c, IsValid (NodeDNSConfig_ID c) = true) r;
  ok_iface_policies : t = "nodes_network_interfaces_traffic_policies" →
    is_doc NodeInterfaceTrafficPolicy
      (λ p, IsValid (NodeInterfaceTrafficPolicy_ID p) = true) r;
  ok_app_policies : t = "nodes_apps_traffic_policies" →
    is_doc NodeAppTrafficPolicy (λ p, IsValid (NodeAppTrafficPolicy_ID p) = true) r;
  ok_targets : t = "node_grpc_targets" →
    is_doc NodeGRPCTarget (λ g, IsValid (NodeGRPCTarget_ID g) = true) r;
  ok_features : t = "nodes_nfd_features" → is_doc NodeFeatureNFD (λ _, True) r;
  ok_credentials : t = "credentials" → is_doc Credentials (λ _, True) r;
}.

Definition typed (mode : OrchestrationMode) (T : Tables) : Prop :=
  ∀ t r, r ∈ rows_of T t → row_ok mode t r.

Record ctl_inv (mode : OrchestrationMode) (T : Tables) : Prop := {
  inv_db : db_ok T;
  inv_typed : typed mode T;
}.

Lemma ctl_inv_empty mode : ctl_inv mode ∅.
Proof.
  split; [apply db_ok_empty|]. intros t r Hr. unfold rows_of in Hr.
  rewrite lookup_empty in Hr. by apply not_elem_of_nil in Hr.
Qed.

(** A statement that writes a good row keeps the invariant. *)
Lemma ctl_inv_exec mode st T n T' :
  (∀ t r, stmt_row st = Some (t, r) → row_ok mode t r) →
  ctl_inv mode T → rel_exec T st = Some (n, T') → ctl_inv mode T'.
Proof.
  intros Hrow [Hdb Hty] He. split; [by eapply rel_exec_ok|].
  intros t r Hr. eapply rel_exec_rows in Hr as [Hr|Hr]; eauto.
Qed.

Lemma ctl_inv_insert mode t r T n T' :
  row_ok mode t r → ctl_inv mode T → rel_exec T (InsertRow t r) = Some (n, T') →
  ctl_inv mode T'.
Proof. intros Hr. apply ctl_inv_exec. by intros ?? [= <- <-]. Qed.

Lemma ctl_inv_update mode t r T n T' :
  row_ok mode t r → ctl_inv mode T → rel_exec T (UpdateRow t r) = Some (n, T') →
  ctl_inv mode T'.
Proof. intros Hr. apply ctl_inv_exec. by intros ?? [= <- <-]. Qed.

(** Documents of validated entities. *)
Lemma is_doc_to_json `{Json A} (P : A → Prop) a : P a → is_doc A P (to_json a).
Proof. intros HP. by exists a. Qed.

(** The document of a [NodeReq] is read as its [Node]. *)
Lemma decode_NodeReq nr : of_json (to_json nr) = Some (NodeReq_Node nr).
Proof. destruct nr as [[] ??]. json_read Json_Node. Qed.

(** What is stored in the table of nodes is read as a node that validates. *)
Lemma node_row mode r :
  row_ok mode "nodes" r → ∃ n, of_json r = Some n ∧ Node_Validate n = Ret None
    ∧ row_id r = Some (Node_ID n).
Proof.
  intros Hr. destruct (ok_nodes _ _ _ Hr eq_refl) as [(n & -> & Hn)|(nr & -> & Hn)].
  - exists n. by rewrite of_to_json.
  - exists (NodeReq_Node nr). by rewrite decode_NodeReq.
Qed.
End rows.

(** Proves [row_ok] of a concrete table from the fact on its type. *)
Ltac row_ok_intro :=
  constructor; intros Ht; try discriminate Ht; clear Ht.

(** ** Building blocks *)
Section keeps.
Context `{CceDBLaws, NodeNet, K8sClient, UuidLaws, Url}.
Context (mode : OrchestrationMode).

(** The computation keeps the invariant. *)
Definition keeps {A} (m : GoM Ctl A) : Prop :=
  preserves (λ s, ctl_inv mode (tables (ctl_db s))) m.

Lemma keeps_db {A} (m : GoM DB A) : keeps_tables (ctl_inv mode) m → keeps (db m).
Proof.
  intros Hm s Hs. unfold db. specialize (Hm (ctl_db s) Hs).
  by destruct (m (ctl_db s)) as [r d].
Qed.

Lemma keeps_net {A} (m : GoM NET A) : keeps (net m).
Proof. intros s Hs. unfold net. by destruct (m (ctl_net s)). Qed.

Lemma keeps_k8s {A} (m : K8S → A * K8S) : keeps (k8s m).
Proof. intros s Hs. unfold k8s. by destruct (m (ctl_k8s s)). Qed.

Lemma keeps_on_w f : keeps (on_w f).
Proof. by intros s Hs. Qed.

Lemma keeps_uuid_New : keeps uuid_New.
Proof. intros s Hs. unfold uuid_New. by destruct (NewV4 (ctl_ids s)). Qed.

Lemma yields_uuid_New : yields uuid_New (λ id, IsValid id = true).
Proof.
  intros s id s'. unfold uuid_New. pose proof (NewV4_valid (ctl_ids s)) as Hv.
  destruct (NewV4 (ctl_ids s)) as [id' i]. intros [= <- <-].
  unfold IsValid. by apply bool_decide_eq_true.
Qed.

Lemma keeps_lift {A} (o : outcome A) : keeps (lift_outcome o).
Proof. by intros s Hs. Qed.

Lemma keeps_panic {A} msg : keeps (go_panic (A:=A) msg).
Proof. by intros s Hs. Qed.

Lemma keeps_ret {A} (a : A) : keeps (mret a).
Proof. by intros s Hs. Qed.

Lemma keeps_bind {A B} (m : GoM Ctl A) (k : A → GoM Ctl B) :
  keeps m → (∀ a, keeps (k a)) → keeps (m ≫= k).
Proof. apply preserves_bind. Qed.

Lemma keeps_uuid {B} (k : string → GoM Ctl B) :
  (∀ id, IsValid id = true → keeps (k id)) → keeps (uuid_New ≫= k).
Proof.
  intros Hk. eapply preserves_bind_yields; [apply yields_uuid_New|apply keeps_uuid_New|done].
Qed.

Lemma keeps_for_acc {A B R} (l : list A) (body : A → B → GoM Ctl (B + R)) b :
  (∀ x b', x ∈ l → keeps (body x b')) → keeps (for_acc l body b).
Proof.
  intros Hbody. revert b. induction l as [|x l IH]; intros b; simpl; [apply keeps_ret|].
  apply keeps_bind; [apply Hbody; left|]. intros [b'|out]; [|apply keeps_ret].
  apply IH. intros. apply Hbody. by right.
Qed.

Lemma keeps_non_nil {A} (o : option A) : keeps (non_nil o).
Proof. destruct o; [apply keeps_ret|apply keeps_panic]. Qed.

Lemma keeps_w_header code : keeps (w_header code).
Proof. apply keeps_on_w. Qed.
Lemma keeps_w_write b : keeps (w_write b).
Proof. apply keeps_on_w. Qed.

Lemma keeps_PS_Filter `{Filterable A} ws : keeps (db (PS.Filter (A:=A) ws)).
Proof. apply keeps_db, keeps_Filter. Qed.

Lemma keeps_PS_Read `{Persistable A} id : keeps (db (PS.Read (A:=A) id)).
Proof. apply keeps_db, keeps_Read. Qed.

Lemma keeps_PS_ReadAll `{Persistable A} : keeps (db (PS.ReadAll (A:=A))).
Proof. apply keeps_db, keeps_ReadAll. Qed.

Lemma keeps_PS_Delete `{Persistable A} id : keeps (db (PS.Delete A id)).
Proof. apply keeps_db, keeps_Delete. intros. eapply ctl_inv_exec; [|done..]. by intros. Qed.

Lemma keeps_PS_Create `{Persistable A} (a : A) :
  row_ok mode (GetTableName A) (to_json a) → keeps (db (PS.Create a)).
Proof.
  intros Hr. apply keeps_db, keeps_Create. intros. by eapply ctl_inv_insert.
Qed.

Lemma keeps_PS_BulkUpdate `{Persistable A} (a : A) :
  row_ok mode (GetTableName A) (to_json a) → keeps (db (PS.BulkUpdate [a])).
Proof.
  intros Hr. apply keeps_db, keeps_BulkUpdate. intros. by eapply ctl_inv_update.
Qed.

(** Only validated entities reach what follows. *)
Lemma keeps_validated `{Validatable A} (a : A) k :
  (Validate a = Ret None → keeps k) → keeps (validated a k).
Proof.
  intros Hk s Hs. unfold validated, lift_outcome. unfold mbind, GoM_bind.
  destruct (Validate a) as [[e|]|e] eqn:E; simpl; [done|by apply Hk|done].
Qed.
End keeps.

Create HintDb keeps discriminated.
#[export] Hint Resolve keeps_net keeps_k8s keeps_on_w keeps_lift keeps_panic keeps_ret
  keeps_non_nil keeps_w_header keeps_w_write keeps_PS_Filter keeps_PS_Read
  keeps_PS_ReadAll keeps_PS_Delete : keeps.

(** Follows the structure of a computation. *)
Ltac keeps_struct :=
  lazymatch goal with
  | |- keeps _ (mbind _ uuid_New) => apply keeps_uuid; intros ? ?
  | |- keeps _ (mbind _ _) => apply keeps_bind; [|intros ?]
  | |- keeps _ (validated _ _) => apply keeps_validated; intros ?
  | |- keeps _ (for_acc _ _ _) => apply keeps_for_acc; intros ? ? ?
  | |- keeps _ (match _ with _ => _ end) => case_match
  | |- ∀ _, _ => intros ?
  end.

Ltac solve_keeps := repeat first [keeps_struct | solve [eauto with keeps nocore]].

(** ** The parts of handlers *)
Section parts.
Context `{CceDBLaws, NodeNet, K8sClient, UuidLaws, Url}.
Context (mode : OrchestrationMode).
Abbreviation keeps := (keeps mode).

Lemma keeps_w_fail code b : keeps (w_fail code b).
Proof. unfold w_fail. solve_keeps. Qed.
Lemma keeps_w_json b : keeps (w_json b).
Proof. unfold w_json. solve_keeps. Qed.
Lemma keeps_fail_with code e : keeps (fail_with code e).
Proof. unfold fail_with. solve_keeps. Qed.

Lemma keeps_with_body {A} (body : option A) k : (∀ a, keeps (k a)) → keeps (with_body body k).
Proof. unfold with_body. solve_keeps. Qed.
Lemma keeps_with_entity `{Persistable A} id (k : A → GoM Ctl unit) :
  (∀ a, keeps (k a)) → keeps (with_entity A id k).
Proof. intros. unfold with_entity. solve_keeps. Qed.
Lemma keeps_with_all `{Persistable A} (k : list A → GoM Ctl unit) :
  (∀ l, keeps (k l)) → keeps (with_all A k).
Proof. intros. unfold with_all. solve_keeps. Qed.
Lemma keeps_with_filter `{Filterable A} ws (k : list A → GoM Ctl unit) :
  (∀ l, keeps (k l)) → keeps (with_filter A ws k).
Proof. intros. unfold with_filter. solve_keeps. Qed.

Lemma keeps_update `{Persistable A} (a : A) :
  row_ok mode (GetTableName A) (to_json a) → keeps (update_entity a).
Proof. intros. unfold update_entity. pose proof (keeps_PS_BulkUpdate mode a). solve_keeps. Qed.
Lemma keeps_persist `{Persistable A} (a : A) :
  row_ok mode (GetTableName A) (to_json a) → keeps (persist a).
Proof. intros. unfold persist. pose proof (keeps_PS_Create mode a). solve_keeps. Qed.

Lemma keeps_refuse_rows `{Filterable A} ws text : keeps (refuse_rows A ws text).
Proof. unfold refuse_rows. solve_keeps. Qed.
Lemma keeps_both a b : keeps a → keeps b → keeps (both_checks a b).
Proof. unfold both_checks. solve_keeps. Qed.
Lemma keeps_call_each {X} (l : list X) f : (∀ x, x ∈ l → keeps (f x)) → keeps (call_each l f).
Proof. intros. unfold call_each. solve_keeps. Qed.
Lemma keeps_net_err m : keeps (net_err m).
Proof. unfold net_err. solve_keeps. Qed.
Lemma keeps_unless a k : keeps a → keeps k → keeps (unless_err a k).
Proof. intros. unfold unless_err. solve_keeps. Qed.
Lemma keeps_delete_row `{Persistable A} id : keeps (delete_row A id).
Proof. unfold delete_row. solve_keeps. Qed.
Lemma keeps_delete_all {X} (l : list X) del : (∀ x, keeps (del x)) → keeps (delete_all l del).
Proof. intros. unfold delete_all. solve_keeps. Qed.
Lemma keeps_delete_single `{Persistable A} (l : list A) k : keeps k → keeps (delete_single l k).
Proof. intros. unfold delete_single. solve_keeps. Qed.
Lemma keeps_unless_code r k : keeps k → keeps (unless_code r k).
Proof. pose proof keeps_w_fail. intros. unfold unless_code. solve_keeps. Qed.
Lemma keeps_connect `{NodeEntity A} (e : A) port : keeps (connectNode e port).
Proof. unfold connectNode. solve_keeps. Qed.
Lemma keeps_delete_entity `{Persistable A} check id :
  (∀ i, keeps (check i)) → keeps (delete_entity A check id).
Proof. pose proof keeps_w_fail. intros. unfold delete_entity. solve_keeps. Qed.

Lemma keeps_create `{Persistable A, Validatable A} (body : option A) :
  (∀ a, Validate a = Ret None → row_ok mode (GetTableName A) (to_json a)) →
  keeps (handler_create (mkHandler None None) body).
Proof.
  intros Hrow. pose proof keeps_w_fail. unfold handler_create. apply keeps_with_body. intros p.
  case_bool_decide; [done|]. apply keeps_uuid. intros id Hid. simpl.
  apply keeps_validated. intros Hv. pose proof (keeps_PS_Create mode _ (Hrow _ Hv)). solve_keeps.
Qed.
End parts.

#[export] Hint Resolve keeps_w_fail keeps_w_json keeps_fail_with keeps_refuse_rows
  keeps_net_err keeps_delete_row keeps_connect : keeps.

(** As [solve_keeps], with the parts of handlers. *)
Ltac keeps_part :=
  lazymatch goal with
  | |- keeps _ (with_body _ _) => apply keeps_with_body; intros ?
  | |- keeps _ (with_entity _ _ _) => apply keeps_with_entity; intros ?
  | |- keeps _ (with_all _ _) => apply keeps_with_all; intros ?
  | |- keeps _ (with_filter _ _ _) => apply keeps_with_filter; intros ?
  | |- keeps _ (update_entity _) => apply keeps_update
  | |- keeps _ (persist _) => apply keeps_persist
  | |- keeps _ (both_checks _ _) => apply keeps_both
  | |- keeps _ (call_each _ _) => apply keeps_call_each; intros ? ?
  | |- keeps _ (unless_err _ _) => apply keeps_unless
  | |- keeps _ (delete_all _ _) => apply keeps_delete_all; intros ?
  | |- keeps _ (delete_single _ _) => apply keeps_delete_single
  | |- keeps _ (unless_code _ _) => apply keeps_unless_code
  | |- keeps _ (delete_entity _ _ _) => apply keeps_delete_entity; intros ?
  end.

Ltac solve_handler :=
  repeat first [keeps_struct | keeps_part | solve [eauto with keeps nocore]].

(** Proves that the document of an entity is a good row. *)
Ltac good_row :=
  row_ok_intro; first [ apply is_doc_to_json; done
                      | left; apply is_doc_to_json; done
                      | unfold policy_ok; rewrite bool_decide_eq_false_2 by done;
                        apply is_doc_to_json; done
                      | unfold policy_ok; rewrite bool_decide_eq_true_2 by done;
                        apply is_doc_to_json; done ].

(** ** The handlers *)
Section handlers.
Context `{CceDBLaws, NodeNet, K8sClient, UuidLaws, Url, Pki, Jose, GoEnv}.
Context (ctrl : Controller) (mode : OrchestrationMode).
Abbreviation keeps := (keeps mode).

(** Checks and calls. *)
Lemma keeps_checkNodes id : keeps (checkDBDeleteNodes id).
Proof. unfold checkDBDeleteNodes. solve_handler. Qed.
Lemma keeps_checkApps id : keeps (checkDBDeleteApps id).
Proof. unfold checkDBDeleteApps. solve_handler. Qed.
Lemma keeps_checkNodesApps id : keeps (checkDBDeleteNodesApps id).
Proof. unfold checkDBDeleteNodesApps. solve_handler. Qed.
Lemma keeps_checkPolicies id : keeps (checkDBDeleteTrafficPolicies id).
Proof. unfold checkDBDeleteTrafficPolicies. solve_handler. Qed.
Lemma keeps_getNodes e : keeps (handleGetNodes ctrl e).
Proof. unfold handleGetNodes. solve_handler. Qed.
Lemma keeps_getNodesApps e : keeps (handleGetNodesApps ctrl e).
Proof. unfold handleGetNodesApps. solve_handler. Qed.
Lemma keeps_createNodesApps e : keeps (handleCreateNodesApps ctrl e).
Proof. unfold handleCreateNodesApps. solve_handler. Qed.
Lemma keeps_dns_on_node f g e c l : keeps (dns_on_node ctrl f g e c l).
Proof. unfold dns_on_node, each_record. solve_handler. Qed.
Lemma keeps_deleteDNS e c l : keeps (handleDeleteNodesDNSConfigsWithAliases ctrl e c l).
Proof.
  unfold handleDeleteNodesDNSConfigsWithAliases. pose proof keeps_dns_on_node. solve_handler.
Qed.
Lemma keeps_updateNodes e : keeps (handleUpdateNodes ctrl e).
Proof. unfold handleUpdateNodes. solve_handler. Qed.
Lemma keeps_updateNodesApps e : keeps (handleUpdateNodesApps ctrl e).
Proof. unfold handleUpdateNodesApps. solve_handler. Qed.
Lemma keeps_deleteNodesApps e : keeps (handleDeleteNodesApps ctrl e).
Proof. unfold handleDeleteNodesApps. solve_handler. Qed.
Lemma keeps_forceDNS id : keeps (handleForcedDeleteNodesDNSConfigs id).
Proof. unfold handleForcedDeleteNodesDNSConfigs. solve_handler. Qed.
Lemma keeps_forceApps id : keeps (handleForceDeleteNodesApps id).
Proof. unfold handleForceDeleteNodesApps. solve_handler. Qed.
Lemma keeps_forcePolicies id : keeps (handleForceDeleteNodesInterfacePolicy id).
Proof. unfold handleForceDeleteNodesInterfacePolicy. solve_handler. Qed.
Lemma keeps_deleteNode id : keeps (handleDeleteNode id).
Proof. unfold handleDeleteNode. pose proof keeps_checkNodes. solve_handler. Qed.
Lemma keeps_features id : keeps (getNfdFeatures id).
Proof. unfold getNfdFeatures. solve_handler. Qed.

#[local] Hint Resolve keeps_checkNodes keeps_checkApps keeps_checkNodesApps
  keeps_checkPolicies keeps_getNodes keeps_getNodesApps keeps_createNodesApps
  keeps_dns_on_node keeps_deleteDNS keeps_updateNodes keeps_updateNodesApps
  keeps_deleteNodesApps keeps_forceDNS keeps_forceApps keeps_forcePolicies
  keeps_deleteNode keeps_features : keeps.

(** Handlers that write rows. *)
Lemma keeps_POSTNodes b : keeps (swagPOSTNodes b).
Proof. apply keeps_create. intros a Ha. good_row. Qed.
Lemma keeps_POSTApps b : keeps (swagPOSTApps b).
Proof. apply keeps_create. intros a Ha. good_row. Qed.
Lemma keeps_POSTPolicies b :
  mode ≠ OrchestrationModeKubernetesOVN → keeps (swagPOSTPolicies b).
Proof. intros. apply keeps_create. intros a Ha. good_row. Qed.
Lemma keeps_POSTKubeOVN b :
  mode = OrchestrationModeKubernetesOVN → keeps (swagPOSTKubeOVNPolicies b).
Proof. intros. apply keeps_create. intros a Ha. good_row. Qed.
Lemma keeps_PATCHNode n b : keeps (swagPATCHNodeByID n b).
Proof. unfold swagPATCHNodeByID. solve_handler. good_row. Qed.
Lemma keeps_PATCHApp n b : keeps (swagPATCHAppByID n b).
Proof. unfold swagPATCHAppByID. solve_handler. good_row. Qed.
Lemma keeps_PATCHPolicy n b :
  mode ≠ OrchestrationModeKubernetesOVN → keeps (swagPATCHPolicyByID n b).
Proof. intros. unfold swagPATCHPolicyByID. solve_handler. good_row. Qed.
Lemma keeps_PATCHKubeOVN n b :
  mode = OrchestrationModeKubernetesOVN → keeps (swagPATCHKubeOVNPolicyByID n b).
Proof. intros. unfold swagPATCHKubeOVNPolicyByID. solve_handler. good_row. Qed.

Lemma keeps_DELETENode n f : keeps (swagDELETENodeByID n f).
Proof. unfold swagDELETENodeByID. solve_handler. Qed.

Lemma keeps_PATCHInterfaces n b : keeps (swagPATCHInterfaces ctrl n b).
Proof.
  unfold swagPATCHInterfaces. solve_handler. row_ok_intro. right. apply is_doc_to_json.
  match goal with H : Validate ?nr = Ret None |- _ =>
    change (NodeReq_Validate nr = Ret None) in H; by apply and_then_None in H as [H _] end.
Qed.

Lemma keeps_PATCHIfacePolicy n i b : keeps (swagPATCHNodeInterfacePolicy ctrl n i b).
Proof. unfold swagPATCHNodeInterfacePolicy, drop_iface_policy. solve_handler. good_row. Qed.
Lemma keeps_DELETEIfacePolicy n i : keeps (swagDELETENodeInterfacePolicy ctrl n i).
Proof. unfold swagDELETENodeInterfacePolicy, drop_iface_policy. solve_handler. Qed.

Lemma keeps_POSTNodeApp n b : keeps (swagPOSTNodeApp ctrl n b).
Proof. unfold swagPOSTNodeApp. solve_handler. good_row. Qed.

Lemma keeps_with_node_app n a k : (∀ x, keeps (k x)) → keeps (with_node_app n a k).
Proof. intros. unfold with_node_app. solve_handler. Qed.

Lemma keeps_record_policy n_a p : keeps (record_app_policy n_a p).
Proof. unfold record_app_policy, with_app_policies. solve_handler. good_row. Qed.
Lemma keeps_delete_policy l : keeps (delete_app_policy l).
Proof. unfold delete_app_policy. solve_handler. Qed.
#[local] Hint Resolve keeps_record_policy keeps_delete_policy : keeps.

Lemma keeps_PATCHNodeAppPolicy n a b : keeps (swagPATCHNodeAppPolicy ctrl n a b).
Proof.
  unfold swagPATCHNodeAppPolicy. apply keeps_with_body. intros p.
  apply keeps_with_node_app. solve_handler.
Qed.
Lemma keeps_PATCHNodeAppKubeOVN n a b : keeps (swagPATCHNodeAppKubeOVNPolicy n a b).
Proof.
  unfold swagPATCHNodeAppKubeOVNPolicy. apply keeps_with_body. intros p.
  apply keeps_with_node_app. solve_handler.
Qed.

(** DNS configurations: what [collect_records] yields was validated. *)
Definition collected_ok (r : (list DNSConfigAppAlias * list DNSARecord) + string) : Prop :=
  ∀ aliases records, r = inl (aliases, records) →
    Forall (λ a, DNSConfigAppAlias_Validate a = Ret None) aliases
    ∧ Forall (λ a, DNSARecord_Validate a = Ret None) records.

Lemma yields_lift_outcome {S A} (o : outcome A) : yields (S:=S) (lift_outcome o) (λ a, o = Ret a).
Proof. by intros s a s' [= -> _]. Qed.

Lemma yields_bind_post {S A B} (m : GoM S A) (k : A → GoM S B) (P : A → Prop) (Q : B → Prop) :
  yields m P → (∀ a, P a → yields (k a) Q) → yields (m ≫= k) Q.
Proof.
  intros Hm Hk s b s'. unfold mbind, GoM_bind. destruct (m s) as [[a|e] s1] eqn:E; [|done].
  apply Hk. by eapply Hm.
Qed.

Lemma yields_collect cfgID reqs : yields (collect_records cfgID reqs) collected_ok.
Proof.
  intros s r s' Hr.
  assert (∀ b, r = inl b → Forall (λ a, DNSConfigAppAlias_Validate a = Ret None) b.1
                         ∧ Forall (λ a, DNSARecord_Validate a = Ret None) b.2) as Hb.
  { revert s r s' Hr. apply yields_for_acc; [done|].
    intros req [aliases records] [Ha Hr]. cbn [fst snd] in *.
    destruct (sa_Alias req); [destruct (sa_Values req) as [|app vs]|].
    - apply yields_ret. by intros ? [= <-].
    - apply yields_bind. intros id.
      eapply yields_bind_post; [apply yields_lift_outcome|]. intros [e|] He; apply yields_ret.
      + done.
      + intros ? [= <-]. cbn [fst snd]. split; [|done]. apply Forall_app. by split; [|constructor].
    - eapply yields_bind_post; [apply yields_lift_outcome|]. intros [e|] He; apply yields_ret.
      + done.
      + intros ? [= <-]. cbn [fst snd]. split; [done|]. apply Forall_app. by split; [|constructor]. }
  intros aliases records ->. by apply (Hb (aliases, records)).
Qed.

Lemma keeps_collect cfgID reqs : keeps (collect_records cfgID reqs).
Proof. unfold collect_records. solve_handler. Qed.

Lemma keeps_dns_delete n : keeps (swagDNSDeleteHelper ctrl n).
Proof. unfold swagDNSDeleteHelper. solve_handler. Qed.

Lemma keeps_create_row `{Persistable A} (a : A) :
  row_ok mode (GetTableName A) (to_json a) → keeps (db (PS.Create a)).
Proof. apply keeps_PS_Create. Qed.

Lemma keeps_dns_create n b : keeps (swagDNSCreateHelper ctrl n b).
Proof.
  unfold swagDNSCreateHelper, handleCreateNodesDNSConfigsWithAliases.
  destruct b as [req|]; [|auto with keeps]. case_bool_decide; [auto with keeps|].
  apply keeps_uuid. intros cfgID Hcfg. apply keeps_uuid. intros nodeDNSID Hid.
  eapply preserves_bind_yields; [apply yields_collect|apply keeps_collect|].
  intros [[aliases records]|e] Hok; [|apply keeps_fail_with].
  destruct (Hok _ _ eq_refl) as [Ha Hr]. rewrite Forall_forall in Ha. rewrite Forall_forall in Hr.
  apply keeps_bind; [|solve_handler].
  repeat apply keeps_unless; [auto with keeps|apply keeps_create_row| |apply keeps_create_row].
  - row_ok_intro. apply is_doc_to_json. split; [done|]. split; [|done].
    apply Forall_fmap, Forall_forall. intros r Hin. exists r. auto.
  - apply keeps_call_each. intros a Hin. apply keeps_create_row. row_ok_intro.
    apply is_doc_to_json; auto.
  - good_row.
Qed.
#[local] Hint Resolve keeps_dns_delete keeps_dns_create : keeps.

Lemma keeps_PATCHNodeDNS n b : keeps (swagPATCHNodeDNS ctrl n b).
Proof. unfold swagPATCHNodeDNS. solve_handler. Qed.

(** Every route keeps the invariant, if it exists in the mode. *)
Lemma keeps_read_body {A} (b : Body A) k : (∀ o, keeps (k o)) → keeps (read_body b k).
Proof. intros. unfold read_body. solve_handler. Qed.

#[local] Hint Resolve keeps_POSTNodes keeps_POSTApps keeps_POSTPolicies keeps_POSTKubeOVN
  keeps_PATCHNode keeps_PATCHApp keeps_PATCHPolicy keeps_PATCHKubeOVN keeps_DELETENode
  keeps_PATCHInterfaces keeps_PATCHIfacePolicy keeps_DELETEIfacePolicy keeps_POSTNodeApp
  keeps_PATCHNodeAppPolicy keeps_PATCHNodeAppKubeOVN keeps_PATCHNodeDNS : keeps.

Lemma keeps_DELETENodeDNS n : keeps (swagDELETENodeDNS ctrl n).
Proof. unfold swagDELETENodeDNS. solve_handler. Qed.
Lemma keeps_GETNodeDNS n : keeps (swagGETNodeDNS n).
Proof. unfold swagGETNodeDNS. solve_handler. Qed.
Lemma keeps_node_resp n k : (∀ r, keeps (k r)) → keeps (with_node_resp ctrl n k).
Proof. intros. unfold with_node_resp. solve_handler. Qed.
Lemma keeps_GETInterfaces n : keeps (swagGETInterfaces ctrl n).
Proof. apply keeps_node_resp. solve_handler. Qed.
Lemma keeps_GETInterface n i : keeps (swagGETInterfaceByID ctrl n i).
Proof. apply keeps_node_resp. solve_handler. Qed.
Lemma keeps_GETNodeApp n a : keeps (swagGETNodeAppsByID ctrl n a).
Proof. apply keeps_with_node_app. solve_handler. Qed.
Lemma keeps_PATCHNodeApp n a b : keeps (swagPATCHNodeAppsByID ctrl n a b).
Proof.
  unfold swagPATCHNodeAppsByID. case_match; [|auto with keeps].
  apply keeps_with_node_app. solve_handler.
Qed.
Lemma keeps_DELETENodeApp n a : keeps (swagDELETENodeAppByID ctrl n a).
Proof. apply keeps_with_node_app. solve_handler. Qed.
Lemma keeps_GETNodeAppPolicy n a : keeps (swagGETNodeAppPolicy n a).
Proof. apply keeps_with_node_app. intros. unfold with_app_policies. solve_handler. Qed.
Lemma keeps_DELETENodeAppPolicy n a : keeps (swagDELETENodeAppPolicy ctrl n a).
Proof. apply keeps_with_node_app. intros. unfold with_app_policies. solve_handler. Qed.
Lemma keeps_DELETENodeAppKubeOVN n a : keeps (swagDELETENodeAppKubeOVNPolicy n a).
Proof. apply keeps_with_node_app. intros. unfold with_app_policies. solve_handler. Qed.
Lemma keeps_NFDTags n : keeps (swagGETNodeNFDTags n).
Proof. unfold swagGETNodeNFDTags. solve_handler. Qed.
Lemma keeps_authenticate now b : keeps (authenticate ctrl now b).
Proof. unfold authenticate. solve_handler. Qed.
Lemma keeps_list A `{Persistable A} f : keeps (with_all A (λ l, w_json (f l))).
Proof. solve_handler. Qed.
Lemma keeps_get A `{Persistable A} id f : keeps (with_entity A id (λ l, w_json (f l))).
Proof. solve_handler. Qed.
Lemma keeps_GETNodeApps n : keeps (swagGETNodeApps n).
Proof. unfold swagGETNodeApps. solve_handler. Qed.
Lemma keeps_GETIfacePolicy n i : keeps (swagGETNodeInterfacePolicy n i).
Proof. unfold swagGETNodeInterfacePolicy. solve_handler. Qed.

#[local] Hint Resolve keeps_DELETENodeDNS keeps_GETNodeDNS keeps_GETInterfaces
  keeps_GETInterface keeps_GETNodeApp keeps_PATCHNodeApp keeps_DELETENodeApp
  keeps_GETNodeAppPolicy keeps_DELETENodeAppPolicy keeps_DELETENodeAppKubeOVN
  keeps_NFDTags keeps_authenticate keeps_GETNodeApps keeps_GETIfacePolicy : keeps.

Lemma keeps_dispatch now o :
  mode = ctrl_OrchestrationMode ctrl → has_route ctrl o = true → keeps (dispatch ctrl now o).
Proof.
  intros Hm Hr. unfold has_route in Hr. rewrite <- Hm in Hr.
  destruct (bool_decide_reflect (mode = OrchestrationModeKubernetesOVN)) as [Hk|Hk];
    destruct o; cbn [dispatch]; try discriminate Hr;
    try (apply keeps_read_body; intros ?); try solve [auto with keeps nocore];
    first [apply keeps_list | apply keeps_get | apply keeps_delete_entity; auto with keeps nocore].
Qed.

Lemma keeps_ServeHTTP now r :
  mode = ctrl_OrchestrationMode ctrl → keeps (ServeHTTP ctrl now r).
Proof.
  intros Hm s Hs. unfold ServeHTTP.
  assert (ctl_inv mode (tables (ctl_db (fresh_response s)))) as Hf by done.
  destruct (has_route ctrl (rq_op r)) eqn:Hr; [|by apply keeps_w_fail].
  pose proof (keeps_dispatch now _ Hm Hr) as Hd.
  assert (∀ m : GoM Ctl unit, keeps m → keeps (recovered m)) as Hrec.
  { intros m Hk s' Hs'. specialize (Hk s' Hs'). unfold recovered.
    destruct (m s') as [[]?]; done. }
  apply Hrec; [|done]. case_match; [done|]. unfold requireAuthHandler.
  case_match; auto with keeps.
Qed.

(** The gRPC services. *)
Lemma keeps_RequestCredentials p csr : keeps (RequestCredentials p csr).
Proof.
  unfold RequestCredentials, RegisterToProxy, getIP. solve_handler.
  all: apply keeps_create_row; good_row.
Qed.

Lemma keeps_GetContainerByIP p ip : keeps (GetContainerByIP p ip).
Proof. unfold GetContainerByIP. solve_handler. Qed.

Lemma keeps_SetLabels p n l : keeps (SetLabels p n l).
Proof.
  unfold SetLabels, set_label. solve_handler.
  - apply keeps_create_row. good_row.
  - apply keeps_PS_BulkUpdate. good_row.
Qed.

Lemma cce_step_inv s o :
  mode = ctrl_OrchestrationMode ctrl → ctl_inv mode (tables (ctl_db s)) →
  ctl_inv mode (tables (ctl_db (cce_step ctrl s o))).
Proof.
  intros Hm Hs. destruct o; cbn [cce_step]; repeat case_match; try done.
  - by apply keeps_ServeHTTP.
  - by apply keeps_RequestCredentials.
  - by apply keeps_GetContainerByIP.
  - by apply keeps_SetLabels.
Qed.
End handlers.
