(* ===== verification/CceFacts.v ===== *)
(** * The controller on a database that is up

    What the methods of the persistence service yield, and what becomes of the
    tables, when the database is up ([DbUp]) and its rows are those of their
    types.  [moves s T s'] says that only the database changed between [s] and
    [s'], and that its tables are now [T]. *)

From S2P Require Import Prelude Strconv Http Json CceModel CcePolicy CcePersist CceNode CceCtl CcePersistFacts.
From stdpp Require Import prelude strings list gmap.
From Stdlib Require Import ZArith.

Local Open Scope Z_scope.

(** The identifier of an entity is the column [id] of its document, and
    [SetID] sets it. *)
Class PersistableOk (A : Type) `{Persistable A} := {
  row_id_to_json : ∀ a : A, row_id (to_json a) = Some (GetID a);
  GetID_SetID : ∀ id (a : A), GetID (SetID id a) = id;
  has_table : is_Some (table_def (GetTableName A));
}.

Ltac persistable_ok := split; [by intros []|done|by eexists].
#[export] Instance Node_ok : PersistableOk Node.
Proof. persistable_ok. Qed.
#[export] Instance App_ok : PersistableOk App.
Proof. persistable_ok. Qed.
#[export] Instance TrafficPolicy_ok : PersistableOk TrafficPolicy.
Proof. persistable_ok. Qed.
#[export] Instance TrafficPolicyKubeOVN_ok : PersistableOk TrafficPolicyKubeOVN.
Proof. persistable_ok. Qed.
#[export] Instance DNSConfig_ok : PersistableOk DNSConfig.
Proof. persistable_ok. Qed.
#[export] Instance DNSConfigAppAlias_ok : PersistableOk DNSConfigAppAlias.
Proof. persistable_ok. Qed.
#[export] Instance NodeApp_ok : PersistableOk NodeApp.
Proof. persistable_ok. Qed.
#[export] Instance NodeDNSConfig_ok : PersistableOk NodeDNSConfig.
Proof. persistable_ok. Qed.
#[export] Instance NodeInterfaceTrafficPolicy_ok : PersistableOk NodeInterfaceTrafficPolicy.
Proof. persistable_ok. Qed.
#[export] Instance NodeAppTrafficPolicy_ok : PersistableOk NodeAppTrafficPolicy.
Proof. persistable_ok. Qed.

(** ** Unique identifiers *)

Lemma keys_same_row T t d i j a b :
  keys_ok T → table_def t = Some d → rows_of T t !! i = Some a → rows_of T t !! j = Some b →
  row_id a = row_id b → row_id a ≠ None → i = j.
Proof.
  intros Hk Hd Ha Hb Hid Hn. destruct (decide (i = j)) as [|Hij]; [done|].
  pose proof (Hk t d id_key i j a b Hd (id_unique t d Hd) Ha Hb Hij) as Hc.
  unfold collide, id_key in Hc; simpl in Hc. unfold row_id in *.
  rewrite !bool_decide_eq_true_2 in Hc by done. done.
Qed.

Lemma keys_elem_same T t d a b :
  keys_ok T → table_def t = Some d → a ∈ rows_of T t → b ∈ rows_of T t →
  row_id a = row_id b → row_id a ≠ None → a = b.
Proof.
  intros Hk Hd (i & Ha)%list_elem_of_lookup (j & Hb)%list_elem_of_lookup Hid Hn.
  assert (i = j) as -> by (by eapply keys_same_row). congruence.
Qed.

Lemma filter_none {A} (f : A → bool) l :
  (∀ x, x ∈ l → f x = false) → List.filter f l = [].
Proof.
  induction l as [|x l IH]; intros Hf; simpl; [done|]. rewrite Hf by left.
  apply IH. intros y Hy. apply Hf. by right.
Qed.

Lemma filter_all {A} (f : A → bool) l :
  (∀ x, x ∈ l → f x = true) → List.filter f l = l.
Proof.
  induction l as [|x l IH]; intros Hf; simpl; [done|]. rewrite Hf by left. f_equal.
  apply IH. intros y Hy. apply Hf. by right.
Qed.

(** The rows with an identifier: one or none. *)
Lemma select_id T t d id r :
  keys_ok T → table_def t = Some d → r ∈ rows_of T t → row_id r = Some id →
  rel_select T t [("id", id)] = [r].
Proof.
  intros Hk Hd Hr Hid. unfold rel_select.
  assert (∀ x, matches [("id", id)] x = true ↔ row_id x = Some id) as Hm.
  { intros x. simpl. by rewrite andb_true_r, bool_decide_eq_true. }
  assert (∀ i j a b, rows_of T t !! i = Some a → rows_of T t !! j = Some b →
    row_id a = Some id → row_id b = Some id → i = j) as Hu.
  { intros i j a b Ha Hb Hia Hib. eapply keys_same_row; [done..| |]; congruence. }
  clear Hk Hd. revert Hr Hu. generalize (rows_of T t) as rows.
  induction rows as [|x rows IH]; intros Hr Hu; [by apply not_elem_of_nil in Hr|].
  cbn [List.filter]. destruct (matches [("id", id)] x) eqn:Hx.
  - assert (x = r) as ->.
    { apply elem_of_cons in Hr as [->|(j & Hj)%list_elem_of_lookup]; [done|].
      pose proof (Hu 0%nat (S j) x r eq_refl Hj (proj1 (Hm x) Hx) Hid). done. }
    f_equal. apply Hm in Hx.
    assert (∀ y, y ∈ rows → matches [("id", id)] y = false) as Hno.
    { intros y (j & Hj)%list_elem_of_lookup. apply not_true_iff_false. rewrite Hm. intros Hy.
      pose proof (Hu 0%nat (S j) r y eq_refl Hj Hx Hy). done. }
    by apply filter_none.
  - apply IH.
    + apply elem_of_cons in Hr as [->|Hr]; [|done].
      apply Hm in Hid. congruence.
    + intros i j a b Ha Hb Hia Hib. pose proof (Hu (S i) (S j) a b Ha Hb Hia Hib). lia.
Qed.

Lemma select_id_none T t id :
  has_row T t id = false → rel_select T t [("id", id)] = [].
Proof.
  intros Hn. destruct (rel_select T t [("id", id)]) as [|r l] eqn:E; [done|].
  assert (r ∈ rel_select T t [("id", id)]) as Hr by (rewrite E; left).
  apply rel_select_elem in Hr as [Hr Hm]. simpl in Hm.
  rewrite andb_true_r in Hm. apply bool_decide_eq_true in Hm.
  rewrite (proj2 (has_row_spec T t id)) in Hn; [done|]. by exists r.
Qed.

Section up.
Context `{DbUp, NodeNet, K8sClient, Uuid}.

(** Only the database changed. *)
Record moves (s : Ctl) (T : Tables) (s' : Ctl) : Prop := {
  mv_tables : tables (ctl_db s') = T;
  mv_net : ctl_net s' = ctl_net s;
  mv_k8s : ctl_k8s s' = ctl_k8s s;
  mv_ids : ctl_ids s' = ctl_ids s;
  mv_w : ctl_w s' = ctl_w s;
}.

Lemma moves_trans s1 T1 s2 T2 s3 : moves s1 T1 s2 → moves s2 T2 s3 → moves s1 T2 s3.
Proof. intros [] []; split; congruence. Qed.

Lemma moves_refl s : moves s (tables (ctl_db s)) s.
Proof. by split. Qed.

(** A run of a method on the database as a run of the controller. *)
Lemma db_moves {A} (m : GoM DB A) (s : Ctl) a T :
  (∃ d', m (ctl_db s) = (Ret a, d') ∧ tables d' = T) →
  ∃ s', db m s = (Ret a, s') ∧ moves s T s'.
Proof.
  intros (d' & Hm & HT). unfold db. rewrite Hm. eexists. split; [done|]. by split.
Qed.

(** Statements. *)
Lemma exec_up_run st d n T' :
  rel_exec (tables d) st = Some (n, T') → stmt_fits st = true →
  ∃ d', ExecContext st d = (inl n, d') ∧ tables d' = T'.
Proof.
  intros He Hf. pose proof (exec_up st d n T' He Hf) as Hu.
  destruct (ExecContext st d) as [r d'] eqn:E; simpl in Hu; subst r.
  exists d'. split; [done|]. apply exec_ok in E. congruence.
Qed.

Lemma exec_refused st d :
  rel_exec (tables d) st = None →
  ∃ e d', ExecContext st d = (inr e, d') ∧ tables d' = tables d.
Proof.
  intros He. destruct (ExecContext st d) as [[n|e] d'] eqn:E.
  - apply exec_ok in E. congruence.
  - exists e, d'. split; [done|]. apply exec_err in E as [|(n & Hn)]; [done|congruence].
Qed.

Lemma Create_up `{Persistable A} (a : A) s n T' :
  rel_exec (tables (ctl_db s)) (InsertRow (GetTableName A) (to_json a)) = Some (n, T') →
  stmt_fits (InsertRow (GetTableName A) (to_json a)) = true →
  ∃ s', db (PS.Create a) s = (Ret None, s') ∧ moves s T' s'.
Proof.
  intros He Hf. apply db_moves. unfold PS.Create.
  destruct (exec_up_run _ _ _ _ He Hf) as (d' & -> & HT). eauto.
Qed.

Lemma Create_refused `{Persistable A} (a : A) s :
  rel_exec (tables (ctl_db s)) (InsertRow (GetTableName A) (to_json a)) = None →
  ∃ e s', db (PS.Create a) s = (Ret (Some e), s') ∧ moves s (tables (ctl_db s)) s'.
Proof.
  intros He. destruct (exec_refused _ _ He) as (e & d' & Hx & HT).
  eexists. apply db_moves. unfold PS.Create. rewrite Hx. by eexists.
Qed.

Lemma Delete_up `{Persistable A} id s n T' :
  rel_exec (tables (ctl_db s)) (DeleteRow (GetTableName A) id) = Some (n, T') →
  ∃ s', db (PS.Delete A id) s = (Ret (bool_decide (n = 1), None), s') ∧ moves s T' s'.
Proof.
  intros He. apply db_moves. unfold PS.Delete.
  destruct (exec_up_run _ _ _ _ He eq_refl) as (d' & -> & HT). eauto.
Qed.

Lemma Delete_refused `{Persistable A} id s :
  rel_exec (tables (ctl_db s)) (DeleteRow (GetTableName A) id) = None →
  ∃ e s', db (PS.Delete A id) s = (Ret (false, Some e), s') ∧ moves s (tables (ctl_db s)) s'.
Proof.
  intros He. destruct (exec_refused _ _ He) as (e & d' & Hx & HT).
  eexists. apply db_moves. unfold PS.Delete. rewrite Hx. by eexists.
Qed.

(** Queries. *)
Lemma scan_all_decoded `{Persistable A} rows :
  Forall (λ r, is_Some (of_json (A:=A) r)) rows →
  PS.scan_all (inl <$> rows) = inl (decoded (A:=A) rows).
Proof.
  induction 1 as [|r rows [a Ha] _ IH]; [done|]. rewrite fmap_cons. cbn [PS.scan_all].
  unfold PS.scan. rewrite Ha. rewrite IH. unfold decoded. simpl. by rewrite Ha.
Qed.

(** The rows of the table of [A] are documents of [A]. *)
Definition well_typed A `{Persistable A} (T : Tables) : Prop :=
  ∀ r, r ∈ rows_of T (GetTableName A) → is_Some (of_json (A:=A) r).

Lemma decoded_perm `{Json A} (l1 l2 : list json) :
  l1 ≡ₚ l2 → decoded (A:=A) l1 ≡ₚ decoded l2.
Proof.
  unfold decoded. induction 1; simpl; repeat case_match; auto;
    try by constructor. by etrans.
Qed.

Lemma select_up `{Persistable A} ws s :
  well_typed A (tables (ctl_db s)) →
  ∃ es s', db (PS.select_all (A:=A) ws) s = (Ret (es, None), s')
    ∧ es ≡ₚ decoded (rel_select (tables (ctl_db s)) (GetTableName A) ws)
    ∧ moves s (tables (ctl_db s)) s'.
Proof.
  intros Hty. pose proof (query_same (GetTableName A) ws (ctl_db s)) as Hq.
  destruct (query_up (GetTableName A) ws (ctl_db s)) as (rows & Hr & Hp).
  destruct (QueryContext (GetTableName A) ws (ctl_db s)) as [r d'] eqn:E.
  simpl in Hr, Hq. subst r. exists (decoded rows).
  assert (Forall (λ r, is_Some (of_json (A:=A) r)) rows) as Hall.
  { apply Forall_forall. intros r Hin. rewrite Hp in Hin.
    apply rel_select_elem in Hin as [Hin _]. by apply Hty. }
  destruct (db_moves (PS.select_all (A:=A) ws) s (decoded rows, None) (tables (ctl_db s)))
    as (s' & Hs' & Hm).
  { exists d'. unfold PS.select_all. rewrite E. by rewrite scan_all_decoded. }
  exists s'. split; [done|]. split; [|done]. by apply decoded_perm.
Qed.

Lemma Filter_up `{Filterable A} ws s :
  well_typed A (tables (ctl_db s)) → (∀ w, w ∈ ws → w.1 ∈ FilterFields A) →
  ∃ es s', db (PS.Filter (A:=A) ws) s = (Ret (es, None), s')
    ∧ es ≡ₚ decoded (rel_select (tables (ctl_db s)) (GetTableName A) ws)
    ∧ moves s (tables (ctl_db s)) s'.
Proof.
  intros Hty Hf. unfold PS.Filter. rewrite (proj2 (disallowed_None _ _) Hf).
  by apply select_up.
Qed.

Lemma Read_up `{Persistable A} id s r (a : A) :
  keys_ok (tables (ctl_db s)) → is_Some (table_def (GetTableName A)) →
  r ∈ rows_of (tables (ctl_db s)) (GetTableName A) → row_id r = Some id → of_json r = Some a →
  ∃ s', db (PS.Read (A:=A) id) s = (Ret (Some a, None), s') ∧ moves s (tables (ctl_db s)) s'.
Proof.
  intros Hk [td Htd] Hr Hid Ha. apply db_moves. unfold PS.Read.
  pose proof (query_same (GetTableName A) [("id", id)] (ctl_db s)) as Hq.
  destruct (query_up (GetTableName A) [("id", id)] (ctl_db s)) as (rows & Hrows & Hp).
  destruct (QueryContext (GetTableName A) [("id", id)] (ctl_db s)) as [res d'] eqn:E.
  simpl in Hrows, Hq. subst res. rewrite (select_id _ _ td id r) in Hp by done.
  apply Permutation_singleton_r in Hp as ->. simpl. rewrite Ha. eauto.
Qed.

Lemma Read_none `{Persistable A} id s :
  has_row (tables (ctl_db s)) (GetTableName A) id = false →
  ∃ s', db (PS.Read (A:=A) id) s = (Ret (None, None), s') ∧ moves s (tables (ctl_db s)) s'.
Proof.
  intros Hn. apply db_moves. unfold PS.Read.
  pose proof (query_same (GetTableName A) [("id", id)] (ctl_db s)) as Hq.
  destruct (query_up (GetTableName A) [("id", id)] (ctl_db s)) as (rows & Hrows & Hp).
  destruct (QueryContext (GetTableName A) [("id", id)] (ctl_db s)) as [res d'] eqn:E.
  simpl in Hrows, Hq. subst res. rewrite select_id_none in Hp by done.
  apply Permutation_nil_r in Hp as ->. simpl. eauto.
Qed.
End up.
