(* ===== verification/CceK8s.v ===== *)
(** * The client of Kubernetes (edgecontroller/k8s)

    The implementation behind the interface [K8sClient] of the controller:
    applications are deployments in the default namespace, found again by
    their labels.  The API server is the class [KubeApi]; [KubeLaws] is what is
    documented of deployments and label selectors: a deployment that is deleted
    in the foreground stays until its dependents are gone, and a call that fails
    may have been carried out or not.  The instance at the end of the definitions
    discharges the interface. *)

From S2P Require Import Prelude Strconv CceModel CcePolicy CceCtl.
From stdpp Require Import prelude strings list gmap.
From Stdlib Require Import ZArith Ascii.

Local Open Scope Z_scope.

(** ** Constants (constants.go) *)

Definition LifecycleStatus := string.
Definition Unknown : LifecycleStatus := "unknown".
Definition Deployed : LifecycleStatus := "deployed".
Definition Pending : LifecycleStatus := "pending".
Definition Starting : LifecycleStatus := "starting".
Definition Running : LifecycleStatus := "running".
Definition Terminating : LifecycleStatus := "terminating".
Definition Error : LifecycleStatus := "error".

Definition nodeIDLabelKey : string := "node-id".
Definition appIDLabelKey : string := "app-id".

(** ** Objects *)

(** [apiV1.ContainerPort], the container of a deployment and the deployment,
    as far as they are filled in. *)
Record ContainerPort := mkContainerPort { cp_Port : Z; cp_Protocol : string }.

Record KubeContainer := mkKubeContainer {
  kc_CPU : Z;
  kc_Memory : Z;
  kc_Name : string;
  kc_Image : string;
  kc_Ports : list ContainerPort;
  kc_PullPolicy : string;
  kc_Capabilities : list string;
}.

Record Deployment := mkDeployment {
  dp_GenerateName : string;
  dp_Labels : gmap string string;
  dp_Replicas : Z;
  dp_MatchLabels : gmap string string;
  dp_Strategy : string;
  dp_TemplateLabels : gmap string string;
  dp_Container : KubeContainer;
  dp_NodeSelector : gmap string string;
}.

(** A pod: whether it is being deleted, why its containers wait, its phase,
    address and labels. *)
Record Pod := mkPod {
  pod_Deleting : bool;
  pod_Waiting : list (option string);
  pod_Phase : string;
  pod_IP : string;
  pod_Labels : gmap string string;
}.

(** A network policy with its name and the pods it selects. *)
Record KubePolicy := mkKubePolicy {
  kp_Name : string;
  kp_PodSelector : gmap string string;
  kp_Policy : NetworkPolicy;
}.

(** What becomes of the dependents of an object that is deleted. *)
Inductive DeletionPropagation :=
| DeletePropagationOrphan | DeletePropagationBackground | DeletePropagationForeground.

#[export] Instance DeletionPropagation_eq_dec : EqDecision DeletionPropagation.
Proof. solve_decision. Defined.

(** The API server, behind a client set; [kube_uuid] is [uuid.New]. *)
Class KubeApi := {
  KUBE : Type;
  kube_NewForConfig : KUBE → error * KUBE;
  kube_Get : string → KUBE → error * KUBE;
  kube_ListNodes : string → KUBE → (list string + string) * KUBE;
  kube_uuid : KUBE → string * KUBE;
  kube_CreateDeployment : Deployment → KUBE → error * KUBE;
  kube_ListDeployments : string → KUBE → (list string + string) * KUBE;
  kube_DeleteDeployment : string → DeletionPropagation → KUBE → error * KUBE;
  kube_UpdateScale : string → Z → KUBE → error * KUBE;
  kube_ListPods : string → KUBE → (list Pod + string) * KUBE;
  kube_PostPolicy : KubePolicy → KUBE → error * KUBE;
  kube_DeletePolicy : string → KUBE → error * KUBE;
  kube_GetPolicy : string → KUBE → (KubePolicy + string) * KUBE;
}.

(** [errors.Wrap]: nil stays nil. *)
Definition wrap_err (err : error) (msg : string) : error :=
  match err with Some e => errors_New (msg +:+ ": " +:+ e) | None => nil_err end.

(** A label selector. *)
Definition selector (kvs : list (string * string)) : string :=
  String.concat "," ((λ kv, kv.1 +:+ "=" +:+ kv.2) <$> kvs).

Section client.
Context `{KubeApi}.

(** [Client]: whether [connectOnce] was done, the client set is there, and the
    error of making it. *)
Record Client := mkClient {
  ImagePullPolicy : string;
  connectOnce : bool;
  clientSet : bool;
  k_err : error;
  k_api : KUBE;
}.

(** A call of the API server through the client set. *)
Definition api {A} (f : KUBE → A * KUBE) : GoM Client A := λ ks,
  if clientSet ks then
    let '(r, k) := f (k_api ks) in
    (Ret r, mkClient (ImagePullPolicy ks) (connectOnce ks) (clientSet ks) (k_err ks) k)
  else (Panic "invalid memory address or nil pointer dereference", ks).

Definition init : GoM Client unit := λ ks,
  let policy := if str_empty (ImagePullPolicy ks) then "Never" else ImagePullPolicy ks in
  let '(err, k) := kube_NewForConfig (k_api ks) in
  (Ret tt, mkClient policy (connectOnce ks) (bool_decide (err = None)) err k).

(** [ks.connectOnce.Do(ks.init)], and the error of it. *)
Definition connect : GoM Client error :=
  ks ← go_get;
  _ ← (if connectOnce ks then mret tt
       else _ ← init;
            go_modify (λ ks, mkClient (ImagePullPolicy ks) true (clientSet ks) (k_err ks) (k_api ks)));
  ks ← go_get;
  mret (k_err ks).

Definition Ping : GoM Client error :=
  err ← connect;
  match err with
  | Some _ => mret err
  | None => api (kube_Get "/")
  end.

(** [errors.Wrap] of the nil error is nil: the number of nodes is not checked. *)
Definition checkNode (nodeID : string) : GoM Client error :=
  r ← api (kube_ListNodes (selector [(nodeIDLabelKey, nodeID)]));
  match r with
  | inr e => mret (wrap_err (Some e) "get kubernetes node list error")
  | inl items =>
      if bool_decide (length items ≠ 1%nat)
      then mret (wrap_err nil_err "no nodes or duplicate nodes detected")
      else mret nil_err
  end.

Definition protoConverter : gmap string string :=
  {[ "tcp" := "TCP"; "udp" := "UDP"; "sctp" := "SCTP" ]}.

Definition convert_ports (ports : list (Z * string)) : list ContainerPort + string :=
  loop_acc ports (λ p acc,
    match protoConverter !! p.2 with
    | Some proto => inl (acc ++ [mkContainerPort p.1 proto])
    | None => inr "unsupported protocol for kubernetes error"
    end) [].

Definition app_labels (nodeID appID : string) : gmap string string :=
  {[ appIDLabelKey := appID; nodeIDLabelKey := nodeID ]}.

Definition deployment_of (nodeID : string) (app : K8sApp) (ports : list ContainerPort)
    (name policy : string) : Deployment :=
  mkDeployment "app" (app_labels nodeID (k8s_ID app)) 0 (app_labels nodeID (k8s_ID app)) "Recreate"
    (app_labels nodeID (k8s_ID app))
    (mkKubeContainer (k8s_Cores app) (wrap_int (1024 * 1024 * k8s_Memory app)) name (k8s_ID app)
       ports policy ["NET_ADMIN"])
    {[ nodeIDLabelKey := nodeID ]}.

Definition deploy (nodeID : string) (app : K8sApp) : GoM Client error :=
  match convert_ports (k8s_Ports app) with
  | inr e => mret (errors_New e)
  | inl ports =>
      name ← api kube_uuid;
      ks ← go_get;
      err ← api (kube_CreateDeployment (deployment_of nodeID app ports name (ImagePullPolicy ks)));
      mret (wrap_err err "create kubernetes deployment error")
  end.

Definition Deploy (nodeID : string) (app : K8sApp) : GoM Client error :=
  err ← connect;
  match err with
  | Some _ => mret err
  | None =>
      err ← checkNode nodeID;
      match err with
      | Some _ => mret (wrap_err err "deploy: node available error")
      | None =>
          err ← deploy nodeID app;
          mret (wrap_err err "deploy: deployment error")
      end
  end.

Definition getDeployment (nodeID appID : string) : GoM Client (string + string) :=
  r ← api (kube_ListDeployments
             (selector [(appIDLabelKey, appID); (nodeIDLabelKey, nodeID)]));
  mret (match r with
        | inr e => inr ("error getting list of deployments: " +:+ e)
        | inl [] => inr "deployment not found"
        | inl [d] => inl d
        | inl _ => inr "more than one deployment found"
        end).

Definition getDeploymentName (nodeID appID : string) : GoM Client (string + string) :=
  getDeployment nodeID appID.

(** Goes on with the name of the deployment. *)
Definition with_deployment (nodeID appID msg : string) (k : string → GoM Client error)
    : GoM Client error :=
  r ← getDeploymentName nodeID appID;
  match r with
  | inr e => mret (wrap_err (Some e) msg)
  | inl name => k name
  end.

Definition undeploy (nodeID appID : string) : GoM Client error :=
  with_deployment nodeID appID "start: error getting deployment name by ID" (λ name,
    err ← api (kube_DeleteDeployment name DeletePropagationForeground);
    mret (wrap_err err "create kubernetes deployment error")).

Definition Undeploy (nodeID appID : string) : GoM Client error :=
  err ← connect;
  match err with
  | Some _ => mret err
  | None =>
      err ← undeploy nodeID appID;
      mret (wrap_err err "undeploy: un-deployment error")
  end.

Definition Start (nodeID appID : string) : GoM Client error :=
  with_deployment nodeID appID "start: error getting deployment name by ID" (λ name,
    err ← api (kube_UpdateScale name 1);
    mret (wrap_err err "start: error scaling deployment to 1 replica")).

Definition Stop (nodeID appID : string) : GoM Client error :=
  with_deployment nodeID appID "stop: error getting deployment name by ID" (λ name,
    err ← api (kube_UpdateScale name 0);
    mret (wrap_err err "stop: error scaling deployment to 0 replicas")).

Definition Restart (nodeID appID : string) : GoM Client error :=
  with_deployment nodeID appID "restart: error getting deployment name by ID" (λ name,
    err ← api (kube_UpdateScale name 0);
    match err with
    | Some _ => mret (wrap_err err "restart: error scaling deployment to 0 replicas")
    | None =>
        err ← api (kube_UpdateScale name 1);
        mret (wrap_err err "restart: error scaling deployment to 1 replica")
    end).

(** The first container that waits for one of the two reasons decides. *)
Fixpoint waiting_status (l : list (option string)) : option LifecycleStatus :=
  match l with
  | [] => None
  | Some reason :: l' =>
      if bool_decide (Strconv.strip_prefix "Err" reason ≠ None) then Some Error
      else if str_contains reason "ContainerCreating" then Some Starting
      else waiting_status l'
  | None :: l' => waiting_status l'
  end.

Definition getPodStatus (pod : Pod) : LifecycleStatus :=
  if pod_Deleting pod then Terminating
  else match waiting_status (pod_Waiting pod) with
       | Some st => st
       | None =>
           if bool_decide (pod_Phase pod = "Pending") then Pending
           else if bool_decide (pod_Phase pod = "Running") then Running
           else Unknown
       end.

(** The loop of [Status] over many pods. *)
Definition pods_status (pods : list Pod) : LifecycleStatus :=
  let '(state, isAnyTerminating) :=
    foldl (λ acc pod,
      if bool_decide (getPodStatus pod = Terminating) then (acc.1, true)
      else (getPodStatus pod, acc.2)) (Unknown, false) pods in
  if bool_decide (state = Unknown) && isAnyTerminating then Terminating else state.

Definition k8s_Status (nodeID appID : string) : GoM Client (LifecycleStatus * error) :=
  r ← getDeployment nodeID appID;
  match r with
  | inr e => mret (Error, Some e)
  | inl _ =>
      r ← api (kube_ListPods (selector [(nodeIDLabelKey, nodeID); (appIDLabelKey, appID)]));
      mret (match r with
            | inr e => (Unknown, Some e)
            | inl [] => (Deployed, nil_err)
            | inl [pod] => (getPodStatus pod, nil_err)
            | inl pods => (pods_status pods, nil_err)
            end)
  end.

(** The loop of [GetAppIDByIP]. *)
Fixpoint find_pod_app (ipAddr : string) (pods : list Pod) : string * error :=
  match pods with
  | [] => ("", errors_New ("no pod found with IP '" +:+ ipAddr +:+ "'"))
  | pod :: pods' =>
      if bool_decide (pod_IP pod = ipAddr) then
        match pod_Labels pod !! appIDLabelKey with
        | Some val => (val, nil_err)
        | None => ("", errors_New ("pod with IP '" +:+ ipAddr
                                   +:+ "' missing required deployment label(s)"))
        end
      else find_pod_app ipAddr pods'
  end.

Definition GetAppIDByIP (nodeID ipAddr : string) : GoM Client (string * error) :=
  r ← api (kube_ListPods (selector [(nodeIDLabelKey, nodeID)]));
  mret (match r with
        | inr e => ("", wrap_err (Some e) ("error getting pods on node " +:+ nodeID))
        | inl pods => find_pod_app ipAddr pods
        end).

Definition policy_name (nodeID appID : string) : string := "np-" +:+ nodeID +:+ "." +:+ appID.

Definition ApplyNetworkPolicy (nodeID appID : string) (policy : NetworkPolicy) : GoM Client error :=
  err ← api (kube_PostPolicy
               (mkKubePolicy (policy_name nodeID appID) (app_labels nodeID appID) policy));
  mret (wrap_err err "failed to create network policy").

Definition DeleteNetworkPolicy (nodeID appID : string) : GoM Client error :=
  err ← api (kube_DeletePolicy (policy_name nodeID appID));
  mret (wrap_err err "failed to delete network policy").

Definition GetNetworkPolicy (nodeID appID : string) : GoM Client (KubePolicy + string) :=
  api (kube_GetPolicy (policy_name nodeID appID)).

(** ** The interface of the controller *)

(** The controller connects the client before it serves ([Ping] in main.go),
    so the client set is there; without it a call would panic. *)
Definition call_of {A} (dflt : string → A) (m : GoM Client A) (ks : Client) : A * Client :=
  match m ks with
  | (Ret a, ks') => (a, ks')
  | (Panic e, ks') => (dflt e, ks')
  end.

Definition k8s_command (cmd : k8s_cmd) : string → string → GoM Client error :=
  match cmd with
  | K8sStart => Start
  | K8sStop => Stop
  | K8sRestart => Restart
  | K8sUndeploy => Undeploy
  | K8sDeleteNetworkPolicy => DeleteNetworkPolicy
  end.

Definition kube_client : K8sClient := {|
  K8S := Client;
  K8s_Deploy nodeID app := call_of Some (Deploy nodeID app);
  K8s_do cmd nodeID appID := call_of Some (k8s_command cmd nodeID appID);
  K8s_Status nodeID appID := call_of (λ e, (Error, Some e)) (k8s_Status nodeID appID);
  K8s_GetAppIDByIP nodeID ip := call_of (λ e, ("", Some e)) (GetAppIDByIP nodeID ip);
  K8s_ApplyNetworkPolicy nodeID appID p := call_of Some (ApplyNetworkPolicy nodeID appID p);
|}.
End client.

(** ** What is relied on *)

(** Values that may stand in a selector, such as identifiers. *)
Definition is_label_char (c : ascii) : bool :=
  let n := nat_of_ascii c in
  bool_decide ((48 ≤ n ≤ 57) ∨ (65 ≤ n ≤ 90) ∨ (97 ≤ n ≤ 122) ∨ n = 45)%nat.
Definition plain_label (v : string) : Prop := v ≠ "" ∧ all_chars is_label_char v = true.

(** A deployment at the server: its labels, the replicas asked for, and whether
    it is being deleted. *)
Record kdep := mkKdep { kd_labels : gmap string string; kd_replicas : Z; kd_deleting : bool }.

Definition set_replicas (n : Z) (d : kdep) : kdep := mkKdep (kd_labels d) n (kd_deleting d).
Definition set_deleting (d : kdep) : kdep := mkKdep (kd_labels d) (kd_replicas d) true.

Definition matches (kvs : list (string * string)) (d : kdep) : Prop :=
  Forall (λ kv, kd_labels d !! kv.1 = Some kv.2) kvs.

(** The server removes some of the deployments that are being deleted; it may
    do so at any time. *)
Definition collects (m m' : gmap string kdep) : Prop :=
  m' ⊆ m ∧ ∀ name d, m !! name = Some d → m' !! name = None → kd_deleting d = true.

(** A call that succeeds does [f]; one that fails has done it or nothing. *)
Definition done_or_not (err : error) (f : gmap string kdep → gmap string kdep) (m m' : gmap string kdep) : Prop :=
  collects (f m) m' ∨ (err ≠ None ∧ collects m m').

Class KubeLaws `{KubeApi} := {
  deps : KUBE → gmap string kdep;
  deps_new k r k' : kube_NewForConfig k = (r, k') → collects (deps k) (deps k');
  deps_get p k r k' : kube_Get p k = (r, k') → collects (deps k) (deps k');
  deps_nodes s k r k' : kube_ListNodes s k = (r, k') → collects (deps k) (deps k');
  deps_uuid k r k' : kube_uuid k = (r, k') → collects (deps k) (deps k');
  deps_create d k err k' : kube_CreateDeployment d k = (err, k') →
    ∃ name, deps k !! name = None ∧
      done_or_not err (λ m, <[name := mkKdep (dp_Labels d) (dp_Replicas d) false]> m) (deps k) (deps k');
  deps_list kvs k r k' :
    Forall (λ kv, plain_label kv.1 ∧ plain_label kv.2) kvs → kube_ListDeployments (selector kvs) k = (r, k') →
    collects (deps k) (deps k') ∧
    ∀ names, r = inl names → NoDup names ∧
      ∀ name, name ∈ names ↔ ∃ d, deps k' !! name = Some d ∧ matches kvs d;
  deps_delete name p k err k' : kube_DeleteDeployment name p k = (err, k') →
    (err = None → deps k !! name ≠ None) ∧
    done_or_not err (if bool_decide (p = DeletePropagationForeground)
                     then alter set_deleting name else delete name) (deps k) (deps k');
  deps_scale name n k err k' : kube_UpdateScale name n k = (err, k') →
    (err = None → deps k !! name ≠ None) ∧
    done_or_not err (alter (set_replicas n) name) (deps k) (deps k');
  deps_pods s k r k' : kube_ListPods s k = (r, k') → collects (deps k) (deps k');
  deps_post p k r k' : kube_PostPolicy p k = (r, k') → collects (deps k) (deps k');
  deps_unpost n k r k' : kube_DeletePolicy n k = (r, k') → collects (deps k) (deps k');
}.

(** The server answers these calls without an error, as far as deployments are
    concerned that are not being deleted; nothing is asked of calls on policies,
    which it may refuse. *)
Record kube_up `{KubeLaws} : Prop := {
  up_nodes kvs k : kvs ≠ [] → ∃ l, (kube_ListNodes (selector kvs) k).1 = inl l;
  up_create d k : (kube_CreateDeployment d k).1 = None;
  up_list kvs k : kvs ≠ [] → ∃ l, (kube_ListDeployments (selector kvs) k).1 = inl l;
  up_delete name p k d : deps k !! name = Some d → kd_deleting d = false → (kube_DeleteDeployment name p k).1 = None;
  up_scale name n k d : deps k !! name = Some d → kd_deleting d = false → (kube_UpdateScale name n k).1 = None;
  up_pods kvs k : kvs ≠ [] → ∃ l, (kube_ListPods (selector kvs) k).1 = inl l;
}.

(** ** The abstract client: each application on each node *)

(** The replicas of an application, and whether it is on its way out. *)
Record entry := mkEntry { en_replicas : Z; en_ending : bool }.
Abbreviation apps := (gmap (string * string) entry).

(** Applications on their way out disappear. *)
Definition vanish (A A' : apps) : Prop :=
  A' ⊆ A ∧ ∀ k e, A !! k = Some e → A' !! k = None → en_ending e = true.

Inductive kube_req :=
| KDeploy (nodeID : string) (app : K8sApp)
| KDo (cmd : k8s_cmd) (nodeID appID : string)
| KStatus (nodeID appID : string)
| KGetAppIDByIP (nodeID ip : string)
| KApply (nodeID appID : string) (policy : NetworkPolicy).

(** Kubernetes knows the protocols of the application. *)
Definition supported (app : K8sApp) : bool :=
  forallb (λ p, bool_decide (protoConverter !! p.2 ≠ None)) (k8s_Ports app).

(** Why a request may fail at a server that answers. *)
Definition refused (A : apps) (r : kube_req) : Prop :=
  match r with
  | KDeploy _ app => supported app = false
  | KDo K8sDeleteNetworkPolicy _ _ | KGetAppIDByIP _ _ | KApply _ _ _ => True
  | KDo _ n a | KStatus n a => ∀ e, A !! (n, a) = Some e → en_ending e = true
  end.

(** What a request that succeeds does. *)
Inductive kube_done (A : apps) : kube_req → apps → Prop :=
| eff_deploy n app :
    A !! (n, k8s_ID app) = None → supported app = true →
    kube_done A (KDeploy n app) (<[(n, k8s_ID app) := mkEntry 0 false]> A)
| eff_start n a e : A !! (n, a) = Some e →
    kube_done A (KDo K8sStart n a) (<[(n, a) := mkEntry 1 (en_ending e)]> A)
| eff_stop n a e : A !! (n, a) = Some e →
    kube_done A (KDo K8sStop n a) (<[(n, a) := mkEntry 0 (en_ending e)]> A)
| eff_restart n a e : A !! (n, a) = Some e →
    kube_done A (KDo K8sRestart n a) (<[(n, a) := mkEntry 1 (en_ending e)]> A)
| eff_undeploy n a e : A !! (n, a) = Some e →
    kube_done A (KDo K8sUndeploy n a) (<[(n, a) := mkEntry (en_replicas e) true]> A)
| eff_policy n a : kube_done A (KDo K8sDeleteNetworkPolicy n a) A
| eff_apply n a p : kube_done A (KApply n a p) A
| eff_status n a e : A !! (n, a) = Some e → kube_done A (KStatus n a) A
| eff_ip n ip : kube_done A (KGetAppIDByIP n ip) A.

(** What a request does: it succeeds, or it fails and has changed nothing, or
    the same as if it had succeeded (its answer was lost), or a restart has only
    stopped the application.  [up] says whether the server answers. *)
Inductive kube_change (up : Prop) (A : apps) : kube_req → bool → apps → Prop :=
| ch_done r A' : kube_done A r A' → kube_change up A r true A'
| ch_failed r : (up → refused A r) → kube_change up A r false A
| ch_lost r A' : (up → refused A r) → kube_done A r A' → kube_change up A r false A'
| ch_restart_half n a e :
    A !! (n, a) = Some e → (up → en_ending e = true) →
    kube_change up A (KDo K8sRestart n a) false (<[(n, a) := mkEntry 0 (en_ending e)]> A).

(** Before and after, applications on their way out may disappear. *)
Definition kube_effect (up : Prop) (A : apps) (r : kube_req) (ok : bool) (A' : apps) : Prop :=
  ∃ A0 A1, vanish A A0 ∧ kube_change up A0 r ok A1 ∧ vanish A1 A'.

(** The identifiers of a request. *)
Definition plain_req (r : kube_req) : Prop :=
  match r with
  | KDeploy n app => plain_label n ∧ plain_label (k8s_ID app)
  | KDo _ n a | KStatus n a | KApply n a _ => plain_label n ∧ plain_label a
  | KGetAppIDByIP n _ => plain_label n
  end.

Section facts.
Context `{KL : KubeLaws}.
Implicit Types (ks : Client) (A : apps) (m : gmap string kdep).

Definition is_None (e : error) : bool := match e with None => true | Some _ => false end.

Definition run_req (r : kube_req) : GoM Client bool :=
  match r with
  | KDeploy n app => err ← Deploy n app; mret (is_None err)
  | KDo cmd n a => err ← k8s_command cmd n a; mret (is_None err)
  | KStatus n a => r ← k8s_Status n a; mret (is_None r.2)
  | KGetAppIDByIP n ip => r ← GetAppIDByIP n ip; mret (is_None r.2)
  | KApply n a p => err ← ApplyNetworkPolicy n a p; mret (is_None err)
  end.

Definition entry_of (d : kdep) : entry := mkEntry (kd_replicas d) (kd_deleting d).

(** The deployments are those of the abstract state, one for each. *)
Record represents A m : Prop := {
  rep_dep name d : m !! name = Some d →
    ∃ n a, plain_label n ∧ plain_label a ∧ kd_labels d = app_labels n a ∧
           A !! (n, a) = Some (entry_of d);
  rep_abs n a e : A !! (n, a) = Some e →
    ∃ name d, m !! name = Some d ∧ kd_labels d = app_labels n a;
  rep_one name1 name2 d1 d2 : m !! name1 = Some d1 → m !! name2 = Some d2 →
    kd_labels d1 = kd_labels d2 → name1 = name2;
}.

Lemma app_labels_inj n a n' a' : app_labels n a = app_labels n' a' → n = n' ∧ a = a'.
Proof.
  intros E. split.
  - assert (app_labels n a !! nodeIDLabelKey = app_labels n' a' !! nodeIDLabelKey) as E' by by rewrite E.
    by injection E'.
  - assert (app_labels n a !! appIDLabelKey = app_labels n' a' !! appIDLabelKey) as E' by by rewrite E.
    by injection E'.
Qed.

Lemma matches_labels n a n' a' d :
  kd_labels d = app_labels n' a' →
  matches [(appIDLabelKey, a); (nodeIDLabelKey, n)] d ↔ n' = n ∧ a' = a.
Proof.
  intros E. unfold matches. rewrite !Forall_cons, Forall_nil. rewrite E. cbn [fst snd].
  change (app_labels n' a' !! appIDLabelKey) with (Some a').
  change (app_labels n' a' !! nodeIDLabelKey) with (Some n'). naive_solver.
Qed.

Lemma represents_insert A m n a name :
  represents A m → plain_label n → plain_label a → A !! (n, a) = None → m !! name = None →
  represents (<[(n, a) := mkEntry 0 false]> A) (<[name := mkKdep (app_labels n a) 0 false]> m).
Proof.
  intros [Hd Ha Ho] Hn Hpa Hnone Hfresh.
  assert (∀ nm d, m !! nm = Some d → kd_labels d ≠ app_labels n a) as Hnew.
  { intros nm d Hm E. destruct (Hd nm d Hm) as (n' & a' & _ & _ & El & HA).
    rewrite E in El. apply app_labels_inj in El as [<- <-]. congruence. }
  split.
  - intros nm d [[<- <-]|[Hne Hm]]%lookup_insert_Some.
    { exists n, a. cbn. by rewrite lookup_insert_eq. }
    destruct (Hd nm d Hm) as (n' & a' & ? & ? & El & HA). exists n', a'. split_and!; [done..|].
    rewrite lookup_insert_ne; [done|]. intros [= <- <-]. by apply (Hnew nm d).
  - intros n' a' r [[[= <- <-] <-]|[Hne HA]]%lookup_insert_Some.
    { exists name, (mkKdep (app_labels n a) 0 false). by rewrite lookup_insert_eq. }
    destruct (Ha n' a' r HA) as (nm & d & Hm & El). exists nm, d. split; [|done].
    rewrite lookup_insert_ne by congruence. done.
  - intros n1 n2 d1 d2 [[<- <-]|[Hn1 H1]]%lookup_insert_Some [[<- <-]|[Hn2 H2]]%lookup_insert_Some E;
      [done| | |by eapply Ho].
    + by destruct (Hnew _ _ H2).
    + by destruct (Hnew _ _ H1).
Qed.

(** A deployment changes but for its labels. *)
Lemma represents_alter A m name d n a (f : kdep → kdep) :
  (∀ d, kd_labels (f d) = kd_labels d) →
  represents A m → m !! name = Some d → kd_labels d = app_labels n a →
  represents (<[(n, a) := entry_of (f d)]> A) (alter f name m).
Proof.
  intros Hf [Hd Ha Ho] Hm El.
  assert (∀ nm d', alter f name m !! nm = Some d' →
            ∃ d0, m !! nm = Some d0 ∧ kd_labels d' = kd_labels d0 ∧
                  d' = if decide (nm = name) then f d0 else d0) as Halt.
  { intros nm d' E. destruct (decide (nm = name)) as [->|Hne].
    - rewrite lookup_alter_eq, Hm in E. injection E as <-. by exists d.
    - rewrite lookup_alter_ne in E by done. by exists d'. }
  split.
  - intros nm d' E. destruct (Halt nm d' E) as (d0 & Hd0 & Elab & Erep).
    destruct (Hd nm d0 Hd0) as (n' & a' & ? & ? & El0 & HA). exists n', a'.
    split_and!; [done..|by rewrite Elab|]. destruct (decide (nm = name)) as [->|Hne].
    + rewrite Hm in Hd0. injection Hd0 as <-. rewrite El in El0.
      apply app_labels_inj in El0 as [<- <-]. by rewrite lookup_insert_eq, Erep.
    + rewrite lookup_insert_ne; [by rewrite Erep|]. intros [= <- <-]. apply Hne.
      by eapply Ho; [exact Hd0|exact Hm|rewrite El].
  - intros n' a' r' [[[= <- <-] <-]|[Hne HA]]%lookup_insert_Some.
    + exists name, (f d). rewrite lookup_alter_eq, Hm. split; [done|]. by rewrite Hf.
    + destruct (Ha n' a' r' HA) as (nm & d' & Hm' & El'). exists nm, d'. split; [|done].
      rewrite lookup_alter_ne; [done|]. intros ->. rewrite Hm in Hm'. injection Hm' as <-.
      rewrite El in El'. apply app_labels_inj in El' as [<- <-]. done.
  - intros n1 n2 d1 d2 E1 E2 E. destruct (Halt _ _ E1) as (d1' & H1 & L1 & _), (Halt _ _ E2) as (d2' & H2 & L2 & _).
    eapply Ho; [exact H1|exact H2|congruence].
Qed.

Lemma vanish_refl A : vanish A A.
Proof. split; [done|]. congruence. Qed.
Lemma vanish_trans A1 A2 A3 : vanish A1 A2 → vanish A2 A3 → vanish A1 A3.
Proof.
  intros [S1 V1] [S2 V2]. split; [by trans A2|]. intros k e H1 H3.
  destruct (A2 !! k) as [e2|] eqn:H2; [|by eapply V1].
  pose proof (lookup_weaken _ _ _ _ H2 S1) as H2'. rewrite H1 in H2'. injection H2' as <-. by eapply V2.
Qed.
Lemma collects_refl m : collects m m.
Proof. split; [done|]. congruence. Qed.

(** What the server removes, disappears. *)
Lemma represents_collects A m m' :
  represents A m → collects m m' → ∃ A', vanish A A' ∧ represents A' m'.
Proof.
  intros [Hd Ha Ho] [Hsub Hcol].
  set (there (k : string * string) := map_Exists (λ _ d, kd_labels d = app_labels k.1 k.2) m').
  exists (filter (λ kv, there kv.1) A). split; [split; [apply map_filter_subseteq|]|split].
  - intros [n a] e HA Hno. destruct (Ha n a e HA) as (nm & d & Hm & El).
    destruct (Hd nm d Hm) as (n' & a' & _ & _ & El' & HA'). rewrite El in El'.
    apply app_labels_inj in El' as [<- <-]. rewrite HA in HA'. injection HA' as ->.
    apply (Hcol nm d Hm). destruct (m' !! nm) as [d'|] eqn:Hm'; [|done]. exfalso.
    apply map_lookup_filter_None in Hno as [Hno|Hno]; [congruence|]. apply (Hno _ HA).
    exists nm, d'. split; [done|]. pose proof (lookup_weaken _ _ _ _ Hm' Hsub) as E. rewrite Hm in E. by injection E as <-.
  - intros nm d Hm'. destruct (Hd nm d (lookup_weaken _ _ _ _ Hm' Hsub)) as (n & a & ? & ? & El & HA).
    exists n, a. split_and!; [done..|]. apply map_lookup_filter_Some. split; [done|]. by exists nm, d.
  - intros n a e [HA (nm & d & Hm' & El)]%map_lookup_filter_Some. by exists nm, d.
  - intros n1 n2 d1 d2 H1 H2. eapply Ho; by eapply lookup_weaken.
Qed.

(** *** Calls *)

(** The client is connected, as [Ping] leaves it. *)
Definition connected ks : Prop := connectOnce ks = true ∧ clientSet ks = true ∧ k_err ks = None.

Definition set_api ks (k : KUBE) : Client :=
  mkClient (ImagePullPolicy ks) (connectOnce ks) (clientSet ks) (k_err ks) k.

Lemma api_run {B} (f : KUBE → B * KUBE) ks r k :
  connected ks → f (k_api ks) = (r, k) → api f ks = (Ret r, set_api ks k).
Proof. intros (_ & Hc & _) E. unfold api, set_api. by rewrite Hc, E. Qed.

Lemma connected_api ks k : connected ks → connected (set_api ks k).
Proof. done. Qed.

Lemma connect_run ks : connected ks → connect ks = (Ret None, ks).
Proof.
  intros (H1 & _ & H3). unfold connect, mbind, GoM_bind, go_get. rewrite H1. cbn. by rewrite H3.
Qed.

Lemma collects_trans m1 m2 m3 : collects m1 m2 → collects m2 m3 → collects m1 m3.
Proof.
  intros [S1 C1] [S2 C2]. split; [by trans m2|]. intros name d H1 H3.
  destruct (m2 !! name) as [d2|] eqn:H2; [|by eapply C1].
  pose proof (lookup_weaken _ _ _ _ H2 S1) as H2'. rewrite H1 in H2'. injection H2' as <-. by eapply C2.
Qed.

(** [Ping] connects a new client, or returns why it could not. *)
Lemma Ping_connects ks :
  connectOnce ks = false → ∃ err ks', Ping ks = (Ret err, ks') ∧
    (err = None → connected ks') ∧ collects (deps (k_api ks)) (deps (k_api ks')).
Proof.
  intros Hc. unfold Ping, connect, init, mbind, GoM_bind, go_get. rewrite Hc.
  destruct (kube_NewForConfig (k_api ks)) as [[e|] k] eqn:E; cbn.
  - do 2 eexists. split; [reflexivity|]. split; [done|]. by eapply deps_new.
  - unfold api. cbn. destruct (kube_Get "/" k) as [r k'] eqn:E'. do 2 eexists. split; [reflexivity|].
    split; [done|]. eapply collects_trans; [by eapply deps_new|by eapply deps_get].
Qed.

Abbreviation kdeps ks := (deps (k_api ks)).

(** What a selector for the application lists is its one deployment. *)
Lemma listed_one A m n a names :
  represents A m → NoDup names →
  (∀ name, name ∈ names ↔
     ∃ d, m !! name = Some d ∧ matches [(appIDLabelKey, a); (nodeIDLabelKey, n)] d) →
  match names with
  | [] => A !! (n, a) = None
  | [name] => ∃ d, m !! name = Some d ∧ kd_labels d = app_labels n a ∧ A !! (n, a) = Some (entry_of d)
  | _ => False
  end.
Proof.
  intros Hr Hnd Hin.
  assert (∀ name, name ∈ names → ∃ d, m !! name = Some d ∧ kd_labels d = app_labels n a ∧
            A !! (n, a) = Some (entry_of d)) as Hsome.
  { intros name (d & Hdep & Hmat)%Hin. exists d.
    destruct (rep_dep _ _ Hr name d Hdep) as (n' & a' & _ & _ & El & HA).
    destruct (proj1 (matches_labels n a n' a' d El) Hmat) as [E1 E2]. by rewrite E1, E2 in *. }
  destruct names as [|nm1 [|nm2 l]].
  - destruct (A !! (n, a)) as [r|] eqn:HA; [|done]. exfalso.
    destruct (rep_abs _ _ Hr n a r HA) as (name & d & Hd & El).
    assert (name ∈ []) as H0; [|by apply not_elem_of_nil in H0].
    apply Hin. exists d. split; [done|]. by apply (matches_labels n a n a d El).
  - apply Hsome. by apply list_elem_of_singleton.
  - destruct (Hsome nm1) as (d1 & H1 & L1 & _); [set_solver|].
    destruct (Hsome nm2) as (d2 & H2 & L2 & _); [set_solver|].
    assert (nm1 = nm2) as -> by (eapply (rep_one _ _ Hr); [exact H1|exact H2|congruence]).
    inversion Hnd. set_solver.
Qed.

(** What the request found is the one deployment of the application. *)
Lemma getDeployment_spec n a ks A :
  connected ks → represents A (kdeps ks) → plain_label n → plain_label a →
  ∃ r ks' A0, getDeployment n a ks = (Ret r, ks') ∧ connected ks' ∧ vanish A A0 ∧ represents A0 (kdeps ks') ∧
    (∀ name, r = inl name → ∃ d, kdeps ks' !! name = Some d ∧ kd_labels d = app_labels n a ∧
                                A0 !! (n, a) = Some (entry_of d)) ∧
    (∀ e, r = inr e → kube_up → A0 !! (n, a) = None).
Proof.
  intros Hc Hr Hn Ha. unfold getDeployment.
  destruct (kube_ListDeployments (selector [(appIDLabelKey, a); (nodeIDLabelKey, n)]) (k_api ks))
    as [r k] eqn:E.
  rewrite (bind_ret _ _ _ _ _ (api_run _ _ _ _ Hc E)).
  assert (Forall (λ kv : string * string, plain_label kv.1 ∧ plain_label kv.2)
            [(appIDLabelKey, a); (nodeIDLabelKey, n)]) as Hpl.
  { rewrite !Forall_cons, Forall_nil. split_and!; [by split|done|by split|done..]. }
  destruct (deps_list _ _ _ _ Hpl E) as [Hd Hnames].
  destruct (represents_collects _ _ _ Hr Hd) as (A0 & Hv & Hr0).
  do 2 eexists. exists A0. split; [reflexivity|]. split; [by apply connected_api|]. split; [done|]. split; [done|].
  destruct r as [names|e].
  - destruct (Hnames names eq_refl) as [Hnd Hin]. pose proof (listed_one _ _ _ _ _ Hr0 Hnd Hin) as Hone.
    destruct names as [|nm [|]]; [|by split; [intros ? [= <-]|]|done]. by split.
  - split; [done|]. intros _ _ Hup.
    destruct (up_list Hup [(appIDLabelKey, a); (nodeIDLabelKey, n)] (k_api ks)) as [l El]; [done|].
    by rewrite E in El.
Qed.

(** The end of a request. *)
Definition ends (r : kube_req) A (m : GoM Client bool) ks : Prop :=
  ∃ ok ks' A', m ks = (Ret ok, ks') ∧ connected ks' ∧ represents A' (kdeps ks') ∧
               kube_effect kube_up A r ok A'.

Lemma ends_vanish r A A0 (c : GoM Client bool) ks : vanish A A0 → ends r A0 c ks → ends r A c ks.
Proof.
  intros Hv (ok & ks' & A' & E & Hc & Hr & B0 & B1 & H0 & H1 & H2). exists ok, ks', A'. split_and!; [done..|].
  exists B0, B1. split_and!; [by eapply vanish_trans|done..].
Qed.

(** A request that ends with a change at the server, and what was removed
    meanwhile. *)
Lemma change_ends r A A1 (m : GoM Client bool) ks ok ks' m1 :
  m ks = (Ret ok, ks') → connected ks' → represents A1 m1 → collects m1 (kdeps ks') →
  kube_change kube_up A r ok A1 → ends r A m ks.
Proof.
  intros E Hc Hr1 Hcol Hch. destruct (represents_collects _ _ _ Hr1 Hcol) as (A' & Hv & Hr').
  exists ok, ks', A'. split_and!; [done..|]. exists A, A1. split_and!; [apply vanish_refl|done..].
Qed.

Lemma is_None_wrap err msg : is_None (wrap_err err msg) = is_None err.
Proof. by destruct err. Qed.

(** A command on the deployment of the application. *)
Lemma with_deployment_ends r n a msg k ks A :
  connected ks → represents A (kdeps ks) → plain_label n → plain_label a →
  (∀ A, A !! (n, a) = None → refused A r) →
  (∀ name d ks1 A0, connected ks1 → represents A0 (kdeps ks1) → kdeps ks1 !! name = Some d →
     kd_labels d = app_labels n a → A0 !! (n, a) = Some (entry_of d) →
     ends r A0 (err ← k name; mret (is_None err)) ks1) →
  ends r A (err ← with_deployment n a msg k; mret (is_None err)) ks.
Proof.
  intros Hc Hr Hn Ha Href Hk.
  destruct (getDeployment_spec n a ks A Hc Hr Hn Ha) as (res & ks1 & A0 & E & Hc1 & Hv & Hr0 & Hres & Hno).
  apply (ends_vanish _ _ _ _ _ Hv). destruct res as [name|e].
  - destruct (Hres name eq_refl) as (d & Hdep & El & HA).
    destruct (Hk name d ks1 A0 Hc1 Hr0 Hdep El HA) as (ok & ks' & A' & Em & Hrest). exists ok, ks', A'.
    split; [|done]. unfold with_deployment, getDeploymentName. by rewrite bind_assoc, (bind_ret _ _ _ _ _ E).
  - eapply (change_ends _ _ A0 _ _ false ks1 (kdeps ks1)); [|done|done|apply collects_refl|].
    + unfold with_deployment, getDeploymentName. by rewrite bind_assoc, (bind_ret _ _ _ _ _ E).
    + apply ch_failed. intros Hup. by eapply Href, Hno.
Qed.

(** One call that changes a deployment but for its labels. *)
Lemma mutate_ends r n a name d (g : kdep → kdep) (call : KUBE → error * KUBE) msg ks A :
  (∀ d, kd_labels (g d) = kd_labels d) →
  (∀ k err k', call k = (err, k') → done_or_not err (alter g name) (deps k) (deps k')) →
  (∀ k d, kube_up → deps k !! name = Some d → kd_deleting d = false → (call k).1 = None) →
  connected ks → represents A (kdeps ks) → kdeps ks !! name = Some d →
  kd_labels d = app_labels n a → A !! (n, a) = Some (entry_of d) →
  ((∀ e, A !! (n, a) = Some e → en_ending e = true) → refused A r) →
  kube_done A r (<[(n, a) := entry_of (g d)]> A) →
  ends r A (err ← (err ← api call; mret (wrap_err err msg)); mret (is_None err)) ks.
Proof.
  intros Hg Hlaw Hup Hc Hr Hdep El HA Href Hdone. destruct (call (k_api ks)) as [err k] eqn:E.
  assert ((err ← (err ← api call; mret (wrap_err err msg)); mret (is_None err)) ks
          = (Ret (is_None err), set_api ks k)) as Em.
  { by rewrite bind_assoc, (bind_ret _ _ _ _ _ (api_run _ _ _ _ Hc E)), bind_mret, is_None_wrap. }
  pose proof (represents_alter A _ name d n a g Hg Hr Hdep El) as Hr1.
  assert (err ≠ None → kube_up → refused A r) as Hfail.
  { intros Hne Hu. apply Href. intros e He. rewrite HA in He. injection He as <-. cbn.
    destruct (kd_deleting d) eqn:Hdel; [done|]. destruct Hne. rewrite <- (Hup (k_api ks) d Hu Hdep Hdel). by rewrite E. }
  destruct (Hlaw _ _ _ E) as [Hcol|[Hne Hcol]].
  - eapply change_ends; [exact Em|done|exact Hr1|exact Hcol|].
    destruct err as [e|]; cbn; [by apply ch_lost; [apply Hfail|]|by apply ch_done].
  - eapply change_ends; [exact Em|done|exact Hr|exact Hcol|].
    destruct err as [e|]; [|done]. apply ch_failed. by apply Hfail.
Qed.

Lemma scale_ends r n a name d (c : Z) msg ks A :
  connected ks → represents A (kdeps ks) → kdeps ks !! name = Some d →
  kd_labels d = app_labels n a → A !! (n, a) = Some (entry_of d) →
  ((∀ e, A !! (n, a) = Some e → en_ending e = true) → refused A r) →
  kube_done A r (<[(n, a) := mkEntry c (kd_deleting d)]> A) →
  ends r A (err ← (err ← api (kube_UpdateScale name c); mret (wrap_err err msg));
            mret (is_None err)) ks.
Proof.
  intros Hc Hr Hdep El HA Href Hdone. apply (mutate_ends r n a name d (set_replicas c)); try done.
  - intros k err k' E. by apply (deps_scale _ _ _ _ _ E).
  - intros k d' Hu. by apply up_scale.
Qed.

(** What has disappeared after an entry was changed, could have disappeared
    before. *)
Lemma vanish_insert_back A B k e0 e1 :
  A !! k = Some e0 → vanish (<[k := e1]> A) B → vanish A (<[k := e0]> B).
Proof.
  intros Hk [Hs Hv]. split.
  - apply map_subseteq_spec. intros j x [[<- <-]|[Hne Hj]]%lookup_insert_Some; [done|].
    pose proof (lookup_weaken _ _ _ _ Hj Hs) as E. by rewrite lookup_insert_ne in E.
  - intros j x Hj Hno. apply lookup_insert_None in Hno as [Hno Hne]. apply (Hv j); [|done].
    by rewrite lookup_insert_ne.
Qed.

(** The second half of a restart. *)
Lemma restart_up n a name d msg ks A B :
  connected ks → A !! (n, a) = Some (entry_of d) → kd_labels d = app_labels n a →
  vanish (<[(n, a) := mkEntry 0 (kd_deleting d)]> A) B → represents B (kdeps ks) →
  collects (<[name := set_replicas 0 d]> (kdeps ks)) (kdeps ks) →
  ends (KDo K8sRestart n a) A
    (err ← (err ← api (kube_UpdateScale name 1); mret (wrap_err err msg)); mret (is_None err)) ks.
Proof.
  intros Hc HA El Hv HrB Hcol. destruct (kdeps ks !! name) as [d2|] eqn:Hdep.
  - assert (d2 = set_replicas 0 d) as ->.
    { destruct Hcol as [Hs _]. pose proof (lookup_weaken _ _ _ _ Hdep Hs) as E.
      rewrite lookup_insert_eq in E. by injection E as ->. }
    assert (B !! (n, a) = Some (mkEntry 0 (kd_deleting d))) as HB.
    { destruct (rep_dep _ _ HrB _ _ Hdep) as (n' & a' & _ & _ & El' & HB). cbn in El'. rewrite El in El'.
      by apply app_labels_inj in El' as [<- <-]. }
    destruct (kube_UpdateScale name 1 (k_api ks)) as [err k] eqn:E.
    pose proof (represents_alter B _ name _ n a (set_replicas 1) ltac:(done) HrB Hdep El) as Hr1.
    set (A0 := <[(n, a) := entry_of d]> B). pose proof (vanish_insert_back _ _ _ _ _ HA Hv) as HvA. fold A0 in HvA.
    assert (A0 !! (n, a) = Some (entry_of d)) as HA0 by apply lookup_insert_eq.
    assert (<[(n, a) := mkEntry 1 (kd_deleting d)]> B = <[(n, a) := mkEntry 1 (kd_deleting d)]> A0) as EB.
    { unfold A0. by rewrite insert_insert_eq. }
    cbn [entry_of set_replicas kd_replicas kd_deleting] in Hr1. unfold entry_of in Hr1. cbn in Hr1. rewrite EB in Hr1.
    assert ((err ← (err ← api (kube_UpdateScale name 1); mret (wrap_err err msg)); mret (is_None err)) ks
            = (Ret (is_None err), set_api ks k)) as Em.
    { by rewrite bind_assoc, (bind_ret _ _ _ _ _ (api_run _ _ _ _ Hc E)), bind_mret, is_None_wrap. }
    assert (err ≠ None → kube_up → kd_deleting d = true) as Hfail.
    { intros Hne Hu. destruct (kd_deleting d) eqn:Hdel; [done|]. destruct Hne.
      rewrite <- (up_scale Hu name 1 (k_api ks) _ Hdep); [by rewrite E|done]. }
    destruct (deps_scale _ _ _ _ _ E) as [_ [Hcol1|[Hne Hcol1]]].
    + apply (ends_vanish _ _ _ _ _ HvA). eapply change_ends; [exact Em|done|exact Hr1|exact Hcol1|].
      assert (kube_done A0 (KDo K8sRestart n a) (<[(n, a) := mkEntry 1 (kd_deleting d)]> A0)) as Hd
        by (by apply (eff_restart A0 n a (entry_of d))).
      destruct err as [e|]; cbn; [|by apply ch_done]. apply ch_lost; [|done]. intros Hu e' He'.
      rewrite HA0 in He'. injection He' as <-. by apply Hfail.
    + destruct err as [e|]; [|done].
      destruct (represents_collects _ _ _ HrB Hcol1) as (A' & Hv' & Hr').
      exists false, (set_api ks k), A'. split_and!; [done..|].
      exists A, (<[(n, a) := mkEntry 0 (kd_deleting d)]> A). split_and!; [apply vanish_refl| |by eapply vanish_trans].
      apply (ch_restart_half _ _ _ _ (entry_of d)); [done|]. intros Hu. by apply Hfail.
  - assert (kd_deleting d = true) as Hdel.
    { destruct Hcol as [_ Hc']. apply (Hc' name (set_replicas 0 d)); [apply lookup_insert_eq|done]. }
    destruct (kube_UpdateScale name 1 (k_api ks)) as [err k] eqn:E.
    destruct (deps_scale _ _ _ _ _ E) as [Hok Hdn]. destruct err as [e|]; [|by destruct (Hok eq_refl)].
    assert (collects (kdeps ks) (deps k)) as Hcol1.
    { destruct Hdn as [Hc1|[_ Hc1]]; [|done]. by rewrite alter_id in Hc1 by (intros x Hx; congruence). }
    destruct (represents_collects _ _ _ HrB Hcol1) as (A' & Hv' & Hr').
    exists false, (set_api ks k), A'. split_and!; [|done..|].
    + by rewrite bind_assoc, (bind_ret _ _ _ _ _ (api_run _ _ _ _ Hc E)), bind_mret, is_None_wrap.
    + exists A, (<[(n, a) := mkEntry 0 (kd_deleting d)]> A). split_and!; [apply vanish_refl| |by eapply vanish_trans].
      by apply (ch_restart_half _ _ _ _ (entry_of d)).
Qed.

Lemma Restart_ends n a ks A :
  connected ks → represents A (kdeps ks) → plain_label n → plain_label a →
  ends (KDo K8sRestart n a) A (run_req (KDo K8sRestart n a)) ks.
Proof.
  intros Hc Hr Hn Ha. apply with_deployment_ends; [done..|by intros A0 E; cbn; rewrite E|].
  intros name d ks1 A0 Hc1 Hr0 Hdep El HA.
  destruct (kube_UpdateScale name 0 (k_api ks1)) as [err k] eqn:E.
  pose proof (represents_alter A0 _ name d n a (set_replicas 0) ltac:(done) Hr0 Hdep El) as Hr1.
  assert (err ≠ None → kube_up → kd_deleting d = true) as Hfail.
  { intros Hne Hu. destruct (kd_deleting d) eqn:Hdel; [done|]. destruct Hne.
    rewrite <- (up_scale Hu name 0 (k_api ks1) _ Hdep); [by rewrite E|done]. }
  pose proof (deps_scale _ _ _ _ _ E) as [_ Hdn]. destruct err as [e|].
  - assert (∀ A1 m1, represents A1 m1 → collects m1 (deps k) →
      kube_change kube_up A0 (KDo K8sRestart n a) false A1 → ends (KDo K8sRestart n a) A0
        (err ← (err ← api (kube_UpdateScale name 0);
          match err with
          | Some _ => mret (wrap_err err "restart: error scaling deployment to 0 replicas")
          | None => err ← api (kube_UpdateScale name 1); mret (wrap_err err "restart: error scaling deployment to 1 replica")
          end); mret (is_None err)) ks1) as Hgo.
    { intros A1 m1 HrA Hcol. eapply (change_ends _ _ _ _ _ false (set_api ks1 k)); [|done|exact HrA|exact Hcol].
      by rewrite bind_assoc, (bind_ret _ _ _ _ _ (api_run _ _ _ _ Hc1 E)). }
    destruct Hdn as [Hcol|[_ Hcol]]; (eapply Hgo; [|exact Hcol|]); [exact Hr1| |exact Hr0|].
    + apply (ch_restart_half _ _ _ _ (entry_of d)); [done|]. intros Hu. by apply Hfail.
    + apply ch_failed. intros Hu e' He'. rewrite HA in He'. injection He' as <-. by apply Hfail.
  - destruct Hdn as [Hcol|[]]; [|done].
    destruct (represents_collects _ _ _ Hr1 Hcol) as (B & Hv & HrB).
    assert (ends (KDo K8sRestart n a) A0
      (err ← (err ← api (kube_UpdateScale name 1); mret (wrap_err err "restart: error scaling deployment to 1 replica"));
       mret (is_None err)) (set_api ks1 k)) as (ok & ks' & A' & Em & Hrest).
    { apply (restart_up n a name d _ _ _ B); try done. split.
      - apply map_subseteq_spec. intros nm x Hx. destruct (decide (nm = name)) as [->|Hne].
        + rewrite lookup_insert_eq. destruct Hcol as [Hs _]. pose proof (lookup_weaken _ _ _ _ Hx Hs) as Ex.
          by rewrite lookup_alter_eq, Hdep in Ex.
        + by rewrite lookup_insert_ne.
      - intros nm x Hx Hno. destruct (decide (nm = name)) as [->|Hne].
        + destruct Hcol as [_ Hv']. apply (Hv' name x); [|done]. rewrite lookup_insert_eq in Hx.
          by rewrite lookup_alter_eq, Hdep.
        + rewrite lookup_insert_ne in Hx by done. congruence. }
    exists ok, ks', A'. split; [|done].
    by rewrite bind_assoc, (bind_ret _ _ _ _ _ (api_run _ _ _ _ Hc1 E)).
Qed.

Lemma Undeploy_ends n a ks A :
  connected ks → represents A (kdeps ks) → plain_label n → plain_label a →
  ends (KDo K8sUndeploy n a) A (run_req (KDo K8sUndeploy n a)) ks.
Proof.
  intros Hc Hr Hn Ha.
  assert (ends (KDo K8sUndeploy n a) A (err ← undeploy n a; mret (is_None err)) ks) as Hu.
  { apply with_deployment_ends; [done..|by intros A0 E; cbn; rewrite E|]. intros name d ks1 A0 Hc1 Hr0 Hdep El HA.
    apply (mutate_ends _ n a name d set_deleting); try done.
    - intros k err k' E. by apply (deps_delete _ _ _ _ _ E).
    - intros k d' Hup. by apply up_delete.
    - by apply (eff_undeploy A0 n a (entry_of d)). }
  destruct Hu as (ok & ks' & A' & E & Hrest). exists ok, ks', A'. split; [|done].
  cbn [run_req k8s_command]. unfold Undeploy.
  rewrite bind_assoc, (bind_ret _ _ _ _ _ (connect_run _ Hc)), bind_assoc.
  unfold mbind, GoM_bind in E |- *. destruct (undeploy n a ks) as [[err|] ks1]; [|done].
  injection E as <- <-. unfold mret, GoM_ret. by rewrite is_None_wrap.
Qed.

(** A call that does not touch deployments. *)
Lemma api_ends {B C} r (f : KUBE → B * KUBE) (g : B → C) (ok : C → bool) ks A :
  connected ks → represents A (kdeps ks) → (∀ k b k', f k = (b, k') → collects (deps k) (deps k')) →
  (∀ b k, (f k).1 = b → kube_change kube_up A r (ok (g b)) A) →
  ends r A (c ← (b ← api f; mret (g b)); mret (ok c)) ks.
Proof.
  intros Hc Hr Hf Heff. destruct (f (k_api ks)) as [b k] eqn:E.
  eapply (change_ends r A A _ ks (ok (g b)) (set_api ks k)); [|done|exact Hr|by eapply Hf|].
  - by rewrite bind_assoc, (bind_ret _ _ _ _ _ (api_run _ _ _ _ Hc E)).
  - apply (Heff b (k_api ks)). by rewrite E.
Qed.

(** A request that may fail at a server that answers. *)
Lemma free_effect A r (ok : bool) :
  kube_done A r A → refused A r → kube_change kube_up A r ok A.
Proof. intros Ht Hr. destruct ok; by constructor. Qed.

Lemma Status_ends n a ks A :
  connected ks → represents A (kdeps ks) → plain_label n → plain_label a →
  ends (KStatus n a) A (run_req (KStatus n a)) ks.
Proof.
  intros Hc Hr Hn Ha.
  destruct (getDeployment_spec n a ks A Hc Hr Hn Ha) as (res & ks1 & A0 & E & Hc1 & Hv & Hr0 & Hres & Hno).
  apply (ends_vanish _ _ _ _ _ Hv). cbn [run_req].
  assert (∀ m : GoM Client bool, (k8s_Status n a ≫= λ r, mret (is_None r.2)) ks = m ks1 → ends (KStatus n a) A0 m ks1 →
    ends (KStatus n a) A0 (k8s_Status n a ≫= λ r, mret (is_None r.2)) ks) as Hgo.
  { intros m Em (ok & ks' & A' & E' & Hrest). exists ok, ks', A'. by rewrite Em. }
  unfold k8s_Status in *. destruct res as [name|e].
  - destruct (Hres name eq_refl) as (d & _ & _ & HA).
    eapply Hgo; [by rewrite bind_assoc, (bind_ret _ _ _ _ _ E)|].
    apply (api_ends _ _ _ (λ r, is_None r.2)); [done|done|by apply deps_pods|]. intros b k Eb.
    destruct b as [pods|e].
    + destruct pods as [|p [|]]; apply ch_done; by eapply eff_status.
    + apply ch_failed. intros Hup. edestruct (up_pods Hup) as [l El]; [|by rewrite El in Eb]. done.
  - eapply (change_ends _ _ A0 _ _ false ks1 (kdeps ks1)); [|done|done|apply collects_refl|].
    + by rewrite bind_assoc, (bind_ret _ _ _ _ _ E).
    + apply ch_failed. intros Hup. cbn. by rewrite (Hno _ eq_refl Hup).
Qed.

(** A deployment is created whether or not there is such a node. *)
Lemma checkNode_run n ks :
  connected ks → ∃ err ks', checkNode n ks = (Ret err, ks') ∧ connected ks' ∧
    collects (kdeps ks) (kdeps ks') ∧ (kube_up → err = None).
Proof.
  intros Hc. unfold checkNode.
  destruct (kube_ListNodes (selector [(nodeIDLabelKey, n)]) (k_api ks)) as [r k] eqn:E.
  rewrite (bind_ret _ _ _ _ _ (api_run _ _ _ _ Hc E)). pose proof (deps_nodes _ _ _ _ E) as Hd.
  destruct r as [items|e]; [case_bool_decide|]; do 2 eexists; (split; [reflexivity|]); [done..|].
  split_and!; [done..|]. intros Hup. edestruct (up_nodes Hup) as [l El]; [|by rewrite E in El]. done.
Qed.

Lemma convert_ports_supported ports :
  match convert_ports ports with
  | inl _ => forallb (λ p : Z * string, bool_decide (protoConverter !! p.2 ≠ None)) ports = true
  | inr _ => forallb (λ p : Z * string, bool_decide (protoConverter !! p.2 ≠ None)) ports = false
  end.
Proof.
  unfold convert_ports. generalize (@nil ContainerPort) at 2. induction ports as [|p ports IH]; intros acc; [done|].
  cbn [loop_acc forallb]. destruct (protoConverter !! p.2) as [proto|]; [apply IH|done].
Qed.

Lemma vanish_None A A' k : vanish A A' → A !! k = None → A' !! k = None.
Proof. intros [Hs _]. intros Hk. by eapply lookup_weaken_None. Qed.

Lemma deploy_ends n app ks A :
  connected ks → represents A (kdeps ks) → plain_label n → plain_label (k8s_ID app) →
  A !! (n, k8s_ID app) = None →
  ends (KDeploy n app) A (err ← deploy n app; mret (is_None err)) ks.
Proof.
  intros Hc Hr Hn Ha Hnone. unfold deploy.
  pose proof (convert_ports_supported (k8s_Ports app)) as Hsup.
  destruct (convert_ports _) as [ports|e].
  2: { eapply (change_ends _ _ A _ _ false ks (kdeps ks)); [done|done|done|apply collects_refl|by constructor]. }
  destruct (kube_uuid (k_api ks)) as [name k] eqn:E. set (ks1 := set_api ks k).
  destruct (represents_collects _ _ (kdeps ks1) Hr ltac:(by eapply deps_uuid)) as (A0 & Hv & Hr0).
  apply (ends_vanish _ _ _ _ _ Hv). pose proof (vanish_None _ _ _ Hv Hnone) as Hnone0.
  set (d := deployment_of n app ports name (ImagePullPolicy ks1)).
  destruct (kube_CreateDeployment d (k_api ks1)) as [err k2] eqn:E2.
  assert (∀ A1 m1, represents A1 m1 → collects m1 (deps k2) →
    kube_change kube_up A0 (KDeploy n app) (is_None err) A1 →
    ends (KDeploy n app) A0 (err ← (name ← api kube_uuid; ks ← go_get;
      err ← api (kube_CreateDeployment (deployment_of n app ports name (ImagePullPolicy ks)));
      mret (wrap_err err "create kubernetes deployment error")); mret (is_None err)) ks) as Hgo.
  { intros A1 m1 Hr1 Hcol. eapply (change_ends _ _ _ _ _ _ (set_api ks1 k2)); [|done|exact Hr1|exact Hcol].
    rewrite bind_assoc, (bind_ret _ _ _ _ _ (api_run _ _ _ _ Hc E)), bind_assoc, bind_get.
    by rewrite bind_assoc, (bind_ret _ _ _ _ _ (api_run _ _ _ _ (connected_api _ k Hc) E2)), bind_mret, is_None_wrap. }
  assert (err ≠ None → kube_up → refused A0 (KDeploy n app)) as Hfail.
  { intros Hne Hup. destruct Hne. pose proof (up_create Hup d (k_api ks1)) as Hu. by rewrite E2 in Hu. }
  destruct (deps_create _ _ _ _ E2) as (nm & Hfresh & [Hcol|[Hne Hcol]]).
  - eapply Hgo; [apply (represents_insert A0 _ n (k8s_ID app) nm Hr0 Hn Ha Hnone0 Hfresh)|exact Hcol|].
    assert (kube_done A0 (KDeploy n app) (<[(n, k8s_ID app) := mkEntry 0 false]> A0)) as Hd by by constructor.
    destruct err as [e|]; cbn; [by apply ch_lost; [apply Hfail|]|by apply ch_done].
  - eapply Hgo; [exact Hr0|exact Hcol|]. destruct err as [e|]; [|done]. apply ch_failed. by apply Hfail.
Qed.

Lemma Deploy_ends n app ks A :
  connected ks → represents A (kdeps ks) → plain_label n → plain_label (k8s_ID app) →
  A !! (n, k8s_ID app) = None →
  ends (KDeploy n app) A (run_req (KDeploy n app)) ks.
Proof.
  intros Hc Hr Hn Ha Hnone. cbn [run_req]. unfold Deploy.
  destruct (checkNode_run n ks Hc) as (err & ks1 & E & Hc1 & Hcol & Herr).
  destruct (represents_collects _ _ _ Hr Hcol) as (A0 & Hv & Hr0).
  apply (ends_vanish _ _ _ _ _ Hv). pose proof (vanish_None _ _ _ Hv Hnone) as Hnone0.
  assert (ends (KDeploy n app) A0 (match err with
      | Some _ => mret false
      | None => err ← deploy n app; mret (is_None err)
      end) ks1) as Hend.
  { destruct err as [e|]; [|by apply deploy_ends].
    eapply (change_ends _ _ A0 _ _ false ks1 (kdeps ks1)); [done|done|done|apply collects_refl|].
    apply ch_failed. intros Hup. discriminate (Herr Hup). }
  destruct Hend as (ok & ks' & A' & Hm & Hrest). exists ok, ks', A'. split; [|done].
  rewrite bind_assoc, (bind_ret _ _ _ _ _ (connect_run _ Hc)), bind_assoc, (bind_ret _ _ _ _ _ E).
  destruct err as [e|]; [done|]. rewrite bind_assoc. unfold mbind, GoM_bind in Hm |- *.
  destruct (deploy n app ks1) as [[e|] ks2]; [|done]. injection Hm as <- <-.
  unfold mret, GoM_ret. by rewrite is_None_wrap.
Qed.

(** Every request is a step of the abstract client. *)
Lemma run_req_ends r ks A :
  connected ks → represents A (kdeps ks) → plain_req r →
  (∀ n app, r = KDeploy n app → A !! (n, k8s_ID app) = None) →
  ends r A (run_req r) ks.
Proof.
  intros Hc Hr Hp Hnew. destruct r as [n app|cmd n a|n a|n ip|n a p]; cbn [plain_req] in Hp.
  - apply Deploy_ends; [done|done|apply Hp..|by apply Hnew].
  - destruct Hp as [Hn Ha]. destruct cmd; cbn [run_req k8s_command].
    + apply with_deployment_ends; [done..|by intros A0 E; cbn; rewrite E|]. intros name d ks1 A0 Hc1 Hr0 Hdep El HA.
      eapply scale_ends; [done..|]. by apply (eff_start A0 n a (entry_of d)).
    + apply with_deployment_ends; [done..|by intros A0 E; cbn; rewrite E|]. intros name d ks1 A0 Hc1 Hr0 Hdep El HA.
      eapply scale_ends; [done..|]. by apply (eff_stop A0 n a (entry_of d)).
    + by apply Restart_ends.
    + by apply Undeploy_ends.
    + apply api_ends; [done|done|by apply deps_unpost|]. intros b k _. apply free_effect; [constructor|done].
  - destruct Hp. by apply Status_ends.
  - apply (api_ends _ _ _ (λ r, is_None r.2)); [done|done|by apply deps_pods|]. intros b k _. apply free_effect; [constructor|done].
  - apply api_ends; [done|done|by apply deps_post|]. intros b k _. apply free_effect; [constructor|done].
Qed.

(** *** Runs *)

Fixpoint run_reqs (reqs : list kube_req) : GoM Client (list bool) :=
  match reqs with
  | [] => mret []
  | r :: reqs' => ok ← run_req r; oks ← run_reqs reqs'; mret (ok :: oks)
  end.

Inductive kube_steps : apps → list kube_req → list bool → apps → Prop :=
| steps_nil A : kube_steps A [] [] A
| steps_cons A r ok A1 reqs oks A2 :
    kube_effect kube_up A r ok A1 → kube_steps A1 reqs oks A2 → kube_steps A (r :: reqs) (ok :: oks) A2.

(** What a list of requests deploys. *)
Definition deploy_key (r : kube_req) : option (string * string) :=
  match r with KDeploy n app => Some (n, k8s_ID app) | _ => None end.

(** Only a deployment adds a key. *)
Lemma done_key A r A' k :
  kube_done A r A' → A' !! k ≠ None → A !! k ≠ None ∨ deploy_key r = Some k.
Proof.
  intros Heff Hk. destruct Heff; try (by left); try (
    destruct (decide (k = (n, a))) as [->|Hne]; [left; congruence|];
    left; by rewrite lookup_insert_ne in Hk).
  destruct (decide (k = (n, k8s_ID app))) as [->|Hne]; [by right|].
  left. by rewrite lookup_insert_ne in Hk.
Qed.

Lemma effect_key A r ok A' k :
  kube_effect kube_up A r ok A' → A' !! k ≠ None → A !! k ≠ None ∨ deploy_key r = Some k.
Proof.
  intros (A0 & A1 & H0 & H1 & H2) Hk.
  assert (A1 !! k ≠ None) as Hk1 by (intros E; apply Hk; by eapply vanish_None).
  assert (A0 !! k ≠ None ∨ deploy_key r = Some k) as [Hk0|?]; [|left|by right].
  - destruct H1 as [r A1 Hd|r _|r A1 _ Hd|n a e HA _]; [by eapply done_key|by left|by eapply done_key|].
    destruct (decide (k = (n, a))) as [->|Hne]; left; [congruence|]. by rewrite lookup_insert_ne in Hk1.
  - intros E. apply Hk0. by eapply vanish_None.
Qed.

Lemma run_reqs_steps reqs ks A :
  connected ks → represents A (kdeps ks) → Forall plain_req reqs → NoDup (omap deploy_key reqs) →
  (∀ k, k ∈ omap deploy_key reqs → A !! k = None) →
  ∃ oks ks' A', run_reqs reqs ks = (Ret oks, ks') ∧ connected ks' ∧ kube_steps A reqs oks A' ∧
    represents A' (kdeps ks').
Proof.
  intros Hc Hr Hp. revert ks A Hc Hr. induction Hp as [|r reqs Hr0 Hp IH]; intros ks A Hc Hr Hnd Hfresh.
  { exists [], ks, A. split_and!; [done..|constructor|done]. }
  assert (omap deploy_key (r :: reqs) = option_list (deploy_key r) ++ omap deploy_key reqs) as Eom.
  { cbn [omap list_omap]. by destruct (deploy_key r). }
  rewrite Eom in Hnd, Hfresh. apply NoDup_app in Hnd as (_ & Hdis & Hnd).
  destruct (run_req_ends r ks A Hc Hr Hr0) as (ok & ks1 & A1 & E & Hc1 & Hr1 & Heff).
  { intros n app ->. apply Hfresh. cbn. set_solver. }
  destruct (IH ks1 A1 Hc1 Hr1 Hnd) as (oks & ks' & A' & E' & Hc' & Hs & Hr').
  { intros k Hk. destruct (A1 !! k) eqn:Hk1; [|done]. exfalso.
    destruct (effect_key A r ok A1 k Heff) as [HA|Hdk]; [by rewrite Hk1| |].
    - apply HA. apply Hfresh. apply elem_of_app. by right.
    - apply (Hdis k); [|done]. rewrite Hdk. cbn. set_solver. }
  exists (ok :: oks), ks', A'. cbn [run_reqs].
  rewrite (bind_ret _ _ _ _ _ E), (bind_ret _ _ _ _ _ E'). split_and!; [done..| |done].
  by econstructor.
Qed.

End facts.

(** ** A small API server *)

(** Reads a selector. *)
Definition read_selector (s : string) : list (string * string) :=
  omap (λ kv, match strings_Split kv "=" with [k; v] => Some (k, v) | _ => None end)
    (strings_Split s ",").

Lemma plain_no_char c v : is_label_char c = false → plain_label v → has_char c v = false.
Proof. intros Hc [_ Hv]. by apply (has_char_all is_label_char). Qed.

Lemma read_selector_back kvs :
  kvs ≠ [] → Forall (λ kv, plain_label kv.1 ∧ plain_label kv.2) kvs → read_selector (selector kvs) = kvs.
Proof.
  intros Hne Hp. unfold read_selector, selector. rewrite split_concat.
  - clear Hne. induction Hp as [|[k v] kvs [Hk Hv] Hp IH]; [done|]. cbn [fmap list_fmap omap list_omap fst snd].
    rewrite (split_pair "=" k v) by (by apply plain_no_char). f_equal. exact IH.
  - by destruct kvs.
  - apply Forall_fmap. eapply Forall_impl; [exact Hp|]. intros [k v] [Hk Hv]. cbn [compose fst snd] in *.
    unfold compose. cbn [fst snd]. by rewrite !has_char_app, (plain_no_char _ k), (plain_no_char _ v).
Qed.

#[local] Instance matches_dec kvs d : Decision (matches kvs d).
Proof. unfold matches. apply _. Defined.

#[local] Instance mem_kube : KubeApi := {|
  KUBE := gmap string kdep;
  kube_NewForConfig k := (None, k);
  kube_Get _ k := (None, k);
  kube_ListNodes _ k := (inl [], k);
  kube_uuid k := ("uuid", k);
  kube_CreateDeployment d k :=
    (None, <[fresh (dom k : gset string) := mkKdep (dp_Labels d) (dp_Replicas d) false]> k);
  kube_ListDeployments s k :=
    (if str_empty s then inr "no selector"
     else inl (filter (λ nd : string * kdep, matches (read_selector s) nd.2) (map_to_list k)).*1, k);
  kube_DeleteDeployment name p k :=
    match k !! name with
    | Some _ => (None, if bool_decide (p = DeletePropagationForeground) then alter set_deleting name k else delete name k)
    | None => (Some "not found", k)
    end;
  kube_UpdateScale name n k :=
    match k !! name with Some _ => (None, alter (set_replicas n) name k) | None => (Some "not found", k) end;
  kube_ListPods _ k := (inl [], filter (λ nd : string * kdep, kd_deleting nd.2 = false) k);
  kube_PostPolicy _ k := (None, k);
  kube_DeletePolicy _ k := (None, k);
  kube_GetPolicy _ k := (inr "not found", k);
|}.

Lemma mem_list_law kvs (k : gmap string kdep) r (k' : gmap string kdep) :
  Forall (λ kv, plain_label kv.1 ∧ plain_label kv.2) kvs →
  kube_ListDeployments (selector kvs) k = (r, k') →
  k' = k ∧
  ∀ names, r = inl names → NoDup names ∧
    ∀ name, name ∈ names ↔ ∃ d, k' !! name = Some d ∧ matches kvs d.
Proof.
  intros Hp E. unfold kube_ListDeployments, mem_kube in E. injection E as <- <-. split; [done|].
  intros names. destruct (str_empty (selector kvs)) eqn:Es; [done|]. intros [= <-].
  assert (read_selector (selector kvs) = kvs) as ->.
  { apply read_selector_back; [|done]. by intros ->. }
  split.
  - eapply sublist_NoDup; [apply (NoDup_fst_map_to_list k)|]. apply fmap_sublist, sublist_filter.
  - intros name. rewrite list_elem_of_fmap. split.
    + intros ([nm d] & -> & Hin). apply list_elem_of_filter in Hin as [Hm Hin].
      exists d. split; [by apply elem_of_map_to_list|done].
    + intros (d & Hd & Hm). exists (name, d). split; [done|]. apply list_elem_of_filter.
      split; [done|by apply elem_of_map_to_list].
Qed.

#[local] Program Instance mem_kube_laws : KubeLaws := {| deps := id |}.
Solve Obligations with (intros; cbn in *; simplify_eq; apply collects_refl).
Next Obligation.
  intros d k err k' [= <- <-]. eexists. split; [|left; apply collects_refl].
  apply (not_elem_of_dom (D := gset string)), is_fresh.
Qed.
Next Obligation.
  intros kvs k r k' Hp E. destruct (mem_list_law kvs k r k' Hp E) as [-> Hn]. split; [apply collects_refl|done].
Qed.
Next Obligation.
  intros name p k err k'. cbn. unfold id. destruct ((k : gmap string kdep) !! name) eqn:Hk; intros [= <- <-]; (split; [congruence|]).
  - left. case_bool_decide; apply collects_refl.
  - right. split; [done|apply collects_refl].
Qed.
Next Obligation.
  intros name n k err k'. cbn. unfold id. destruct ((k : gmap string kdep) !! name) eqn:Hk; intros [= <- <-]; (split; [congruence|]).
  - left. apply collects_refl.
  - right. split; [done|apply collects_refl].
Qed.
Next Obligation.
  intros s k r k' [= <- <-]. unfold id. split; [apply map_filter_subseteq|]. intros name d Hd Hno.
  apply map_lookup_filter_None in Hno as [Hno|Hno]; [congruence|]. specialize (Hno d Hd). cbn in Hno.
  by destruct (kd_deleting d).
Qed.

(** It answers every call. *)
Lemma mem_kube_up : kube_up.
Proof.
  split; try (intros; by eexists); try done.
  2: { intros name p k d Hk _. cbn in *. unfold id in Hk. by rewrite Hk. }
  2: { intros name n k d Hk _. cbn in *. unfold id in Hk. by rewrite Hk. }
  intros kvs k Hne. unfold kube_ListDeployments, mem_kube. cbn [fst].
  destruct (str_empty (selector kvs)) eqn:Es; [|by eexists].
  exfalso. destruct kvs as [|[key v] [|]]; [done|destruct key; done..].
Qed.

Definition demo_kube : @Client mem_kube := mkClient "Never" true true None ∅.
Definition demo_kapp (id : string) : K8sApp := mkK8sApp id "" 1 512 [(80, "tcp")].
Definition demo_kreqs : list kube_req :=
  [KDeploy "n1" (demo_kapp "a1"); KDeploy "n1" (demo_kapp "a2"); KDo K8sStart "n1" "a1";
   KDo K8sRestart "n1" "a2"; KDo K8sStart "n2" "a1"; KDo K8sUndeploy "n1" "a2"; KStatus "n1" "a1"].

