(* ===== verification/CceProps.v ===== *)
(** * What the controller promises

    The database holds well-formed entities in every reachable state; creating
    an entity is answered exactly as its reference says and can be read back;
    no request without a valid token has an effect, and a login yields such a
    token; a node gets credentials only for the key it was registered with;
    filters are restricted to the declared fields; a node reports features of
    itself only, and what is sent to it is what was validated. *)

From S2P Require Import Prelude Strconv GoNet Http Json CceModel CcePolicy CcePersist CceNode CceCtl CceRest CceRouter CceServer CcePersistFacts CceInv CceFacts.
From stdpp Require Import prelude strings list gmap.
From Stdlib Require Import ZArith Ascii.

Import CceScenario.
Local Open Scope Z_scope.

(** ** The database *)

(** C13: whatever sequence of HTTP requests, enrolments, container
    queries and feature reports the controller serves, and whatever the
    database, the nodes and Kubernetes answer (errors and lost answers
    included), every row of every table is the document of an entity of the Go
    type of its table; nodes, applications, traffic policies, aliases and
    deployed applications pass their [Validate] method; all foreign keys name
    existing rows and no two rows share a unique key. *)
Theorem cce_reach_typed
    `{CceDBLaws, NodeNet, K8sClient, UuidLaws, Pki, GoEnv, Url, Jose}
    (ctrl : Controller) (s0 s : Ctl) :
  ctl_inv (ctrl_OrchestrationMode ctrl) (tables (ctl_db s0)) → cce_reach ctrl s0 s →
  ctl_inv (ctrl_OrchestrationMode ctrl) (tables (ctl_db s)).
Proof. intros Hinit. induction 1; [done|]. by apply cce_step_inv. Qed.

Definition demo_post (o : op) : cce_op :=
  HttpRequest 0 (mkCtlRequest "/nodes" "Bearer 99" o).

Lemma cce_reach_typed_witness :
  ctl_inv OrchestrationModeNative (∅ : Tables) ∧
  ctl_inv OrchestrationModeNative (tables (ctl_db
    (cce_step demo_ctrl (demo_state ∅)
       (demo_post (POSTNodes (BodyOf (mkNode "" "n" "here" "digest-key"))))))).
Proof.
  split; [apply ctl_inv_empty|].
  apply (cce_reach_typed demo_ctrl (demo_state ∅)); [apply ctl_inv_empty|].
  apply cce_next, cce_start.
Defined.

(** ** Creating entities *)

Section create.
Context `{DbUp, NodeNet, K8sClient, UuidLaws}.

(** The answer to a creation and the tables after it: 400 with a reason for an
    entity that brings its own identifier or does not validate, 500 when a
    constraint of the table forbids it (and when validation panics), and 201
    with the identifier otherwise. *)
Definition create_reference `{Persistable A, Validatable A} (T : Tables) (p : A) (id : string)
    : Z * list CtlBody * Tables :=
  if bool_decide (GetID p ≠ "") then
    (StatusBadRequest,
     [BText "Validation failed: id cannot be specified in POST request"], T)
  else
    match Validate (SetID id p) with
    | Panic _ => (StatusInternalServerError, [], T)
    | Ret (Some e) => (StatusBadRequest, [BText ("Validation failed: " +:+ e)], T)
    | Ret None =>
        match rel_exec T (InsertRow (GetTableName A) (to_json (SetID id p))) with
        | None => (StatusInternalServerError, [], T)
        | Some (_, T') => (StatusCreated, [BId id], T')
        end
    end.

(** A new row is found under its identifier. *)
Lemma read_created `{PersistableOk A, !JsonOk A} (a : A) s n T' :
  db_ok (tables (ctl_db s)) →
  rel_exec (tables (ctl_db s)) (InsertRow (GetTableName A) (to_json a)) = Some (n, T') →
  ∀ s', tables (ctl_db s') = T' →
  ∃ s'', db (PS.Read (A:=A) (GetID a)) s' = (Ret (Some a, None), s'').
Proof.
  intros Hok He s' HT'. assert (db_ok T') as Hok' by (by eapply rel_exec_ok).
  destruct (Read_up (A:=A) (GetID a) s' (to_json a) a) as (s'' & Hr & _).
  - rewrite HT'. apply Hok'.
  - apply has_table.
  - rewrite HT'. simpl in He. destruct (table_def (GetTableName A)); [|done].
    case_match; [|done]. injection He as <- <-. rewrite rows_of_insert, bool_decide_eq_true_2 by done.
    apply elem_of_app. right. by apply list_elem_of_singleton.
  - apply row_id_to_json.
  - apply of_to_json.
  - by exists s''.
Qed.

(** C14: on a database that is up, POST of a node, an application
    or a traffic policy (of either kind) is answered exactly as
    [create_reference] says, the tables are exactly the ones it gives, and
    after status 201 reading the new identifier yields the entity as posted. *)
Theorem cce_create_exact `{PersistableOk A, Validatable A, !JsonOk A} (p : A) (s : Ctl) :
  db_ok (tables (ctl_db s)) → ctl_w s = new_writer →
  let id := (NewV4 (ctl_ids s)).1 in
  stmt_fits (InsertRow (GetTableName A) (to_json (SetID id p))) = true →
  let s' := exec (recovered (handler_create (mkHandler None None) (Some p))) s in
  (status_of (ctl_w s'), rw_body (ctl_w s'), tables (ctl_db s'))
  = create_reference (tables (ctl_db s)) p id
  ∧ (status_of (ctl_w s') = StatusCreated →
     ∃ s'', db (PS.Read id) s' = (Ret (Some (SetID id p), None), s'')).
Proof.
  intros Hok Hw id Hfits s'. subst s'. unfold create_reference, exec, recovered, handler_create.
  cbn [with_body]. case_bool_decide.
  { unfold w_fail, w_header, w_write, on_w. go_unfold. cbn. by rewrite Hw. }
  unfold uuid_New. go_unfold. destruct (NewV4 (ctl_ids s)) as [id' ids'] eqn:Eid.
  cbn in id. subst id. unfold validated, lift_outcome. go_unfold.
  destruct (Validate (SetID id' p)) as [[e|]|e] eqn:Ev; cbn [h_checkDBCreate h_handleCreate].
  { unfold w_fail, w_header, w_write, on_w. go_unfold. cbn. by rewrite Hw. }
  2: { unfold w_header, on_w. cbn. by rewrite Hw. }
  set (s1 := mkCtl _ _ _ _ _ _ _ ids' _).
  destruct (rel_exec (tables (ctl_db s)) (InsertRow (GetTableName A) (to_json (SetID id' p))))
    as [[n T']|] eqn:Ex.
  - destruct (Create_up (SetID id' p) s1 n T' Ex Hfits) as (s2 & -> & Hm).
    unfold w_header, w_write, on_w. go_unfold. cbn. rewrite (mv_w _ _ _ Hm). cbn. rewrite Hw. cbn.
    rewrite GetID_SetID. rewrite (mv_tables _ _ _ Hm). split; [done|]. intros _.
    pose proof (read_created (SetID id' p) s n T' Hok Ex) as Hrd.
    rewrite GetID_SetID in Hrd. apply Hrd. cbn. by apply Hm.
  - destruct (Create_refused (SetID id' p) s1 Ex) as (e & s2 & -> & Hm).
    unfold w_header, on_w. cbn. rewrite (mv_w _ _ _ Hm), (mv_tables _ _ _ Hm). cbn. by rewrite Hw.
Qed.
End create.

Lemma cce_create_exact_witness :
  let p := mkNode "" "n" "here" "digest-key" in
  let s' := exec (recovered (handler_create (mkHandler None None) (Some p))) (demo_state ∅) in
  status_of (ctl_w s') = StatusCreated ∧
  ∃ s'', db (PS.Read "id-1") s' = (Ret (Some (SetID "id-1" p), None), s'').
Proof.
  intros p s'.
  pose proof (cce_create_exact p (demo_state ∅) db_ok_empty eq_refl eq_refl) as [_ Hr].
  split; [vm_compute; reflexivity|]. apply Hr. vm_compute. reflexivity.
Defined.

(** ** Access *)

Lemma split_bearer token :
  ¬ contains token " " → strings_Split ("Bearer " +:+ token) " " = ["Bearer"; token].
Proof.
  intros Hc. unfold strings_Split.
  change ("Bearer " +:+ token) with (String "B"%char (String "e"%char
    (String "a"%char (String "r"%char (String "e"%char (String "r"%char
    (String " "%char token))))))).
  cbn -[contains]. f_equal.
  destruct (split_at_single (S (String.length token)) " " token "") as [[He _]|[_ ?]];
    [lia|done|exact He|done].
Qed.

Section access.
Context `{CceDB, NodeNet, K8sClient, Uuid, Url, Jose, GoEnv}.
Context (ctrl : Controller).

(** C15: a request to any route but [/auth] whose header is not
    a scheme and a valid token is answered 401 with nothing else, and neither
    the database nor nodes, Kubernetes or the source of identifiers are
    touched.  When the key of the token service is a signer, a header is
    accepted only if its token parses and carries claims signed by the key
    that are valid at that time; when it is not, any text that parses as a
    token is accepted. *)
Theorem cce_auth_required (now : Z) (r : CtlRequest) (s : Ctl) :
  (has_route ctrl (rq_op r) = true → rq_RequestURI r ≠ "/auth" →
   authorized now (rq_Authorization r) = false →
   let s' := exec (ServeHTTP ctrl now r) s in
   status_of (ctl_w s') = StatusUnauthorized ∧ rw_body (ctl_w s') = []
   ∧ ctl_db s' = ctl_db s ∧ ctl_net s' = ctl_net s ∧ ctl_k8s s' = ctl_k8s s
   ∧ ctl_ids s' = ctl_ids s)
  ∧ (key_signer = true → authorized now (rq_Authorization r) = true →
     ∃ scheme token t claims, strings_Split (rq_Authorization r) " " = [scheme; token]
       ∧ ParseSigned token = inl t ∧ token_Claims t = inl claims
       ∧ Claims_Validate claims now = None)
  ∧ (key_signer = false → ∀ scheme token t, strings_Split (rq_Authorization r) " " = [scheme; token]
     → rq_Authorization r ≠ "" → ParseSigned token = inl t →
     authorized now (rq_Authorization r) = true).
Proof.
  split; [|split].
  - intros Hr Hu Ha. unfold exec, ServeHTTP. rewrite Hr. rewrite bool_decide_eq_false_2 by done.
    unfold recovered, requireAuthHandler. rewrite Ha. done.
  - intros Hk Ha. unfold authorized in Ha.
    destruct (strings_Split _ _) as [|scheme [|token [|]]]; try done.
    apply andb_true_iff in Ha as [_ Hv]. apply bool_decide_eq_true in Hv.
    unfold Validate_token in Hv. rewrite Hk in Hv. simpl in Hv.
    destruct (ParseSigned token) as [t|] eqn:Hp; [|done].
    destruct (token_Claims t) as [claims|] eqn:Hc; [|done]. by exists scheme, token, t, claims.
  - intros Hk scheme token t Hs Hne Hp. unfold authorized. rewrite Hs.
    unfold Validate_token. rewrite Hp, Hk. simpl. rewrite andb_true_r.
    unfold str_empty. by rewrite bool_decide_eq_false_2.
Qed.

(** A login with the administrator's name and password is
    answered 201 with a token, and any request that carries the token in its
    header is let through for a day after the login; a login with another name
    or password is answered 401 without a token. *)
Theorem cce_login_grants `{!JoseLaws} (t0 : Z) (u : AuthCreds) (token : string) (s : Ctl) :
  NewSigner = None → key_signer = true → CompactSerialize (t0 + one_day) = inl token →
  let s' := exec (ServeHTTP ctrl t0 (mkCtlRequest "/auth" "" (POSTAuth (BodyOf u)))) s in
  if bool_decide (u = ctrl_AdminCreds ctrl) then
    status_of (ctl_w s') = StatusCreated ∧ rw_body (ctl_w s') = [BToken token]
    ∧ ∀ now, now ≤ t0 + one_day → authorized now ("Bearer " +:+ token) = true
  else status_of (ctl_w s') = StatusUnauthorized
       ∧ rw_body (ctl_w s') = [BText "Invalid username or password"].
Proof.
  intros Hn Hk Hc.
  assert (has_route ctrl (POSTAuth (BodyOf u)) = true) as Hr
    by (unfold has_route; by case_bool_decide).
  unfold exec, ServeHTTP. cbn [rq_op]. rewrite Hr. cbn [rq_RequestURI].
  rewrite (bool_decide_eq_true_2 ("/auth" = "/auth")) by done.
  unfold recovered. cbn [dispatch read_body]. unfold authenticate. cbn [with_body].
  destruct u as [n p], (ctrl_AdminCreds ctrl) as [n' p'] eqn:Ec; cbn.
  destruct (decide (n = n')) as [->|Hnn].
  2: { rewrite (bool_decide_eq_true_2 (n ≠ n')) by done.
       rewrite bool_decide_eq_false_2 by congruence. done. }
  rewrite (bool_decide_eq_false_2 (n' ≠ n')) by congruence.
  destruct (decide (p = p')) as [->|Hpp].
  2: { rewrite (bool_decide_eq_true_2 (p ≠ p')) by done.
       rewrite bool_decide_eq_false_2 by congruence. done. }
  rewrite (bool_decide_eq_false_2 (p' ≠ p')) by congruence.
  rewrite bool_decide_eq_true_2 by done. unfold Issue. rewrite Hn, Hc.
  split; [done|]. split; [done|]. intros now Hnow.
  destruct (serialize_parse _ _ Hc) as (t & claims & Hp & Hcl & Hv).
  unfold authorized.
  rewrite split_bearer by (by apply (serialize_space _ _ Hc)).
  unfold Validate_token. rewrite Hp, Hk. simpl. rewrite Hcl.
  by rewrite bool_decide_eq_true_2 by (by apply Hv).
Qed.
End access.

Lemma cce_auth_required_witness :
  status_of (ctl_w (exec (ServeHTTP demo_ctrl 5 (mkCtlRequest "/nodes" "Bearer 4" GETNodes))
    (demo_state ∅))) = StatusUnauthorized
  ∧ key_signer = true.
Proof.
  split; [|done].
  pose proof (cce_auth_required demo_ctrl 5 (mkCtlRequest "/nodes" "Bearer 4" GETNodes)
    (demo_state ∅)) as [Hu _].
  apply Hu; vm_compute; [reflexivity|discriminate|reflexivity].
Defined.

Lemma cce_login_grants_witness :
  let s' := exec (ServeHTTP demo_ctrl 7 (mkCtlRequest "/auth" ""
    (POSTAuth (BodyOf (mkAuthCreds "admin" "secret"))))) (demo_state ∅) in
  status_of (ctl_w s') = StatusCreated ∧ rw_body (ctl_w s') = [BToken "86407"]
  ∧ ∀ now, now ≤ 7 + one_day → authorized now ("Bearer " +:+ "86407") = true.
Proof.
  exact (cce_login_grants demo_ctrl 7 (mkAuthCreds "admin" "secret") "86407" (demo_state ∅)
    eq_refl eq_refl eq_refl).
Defined.

(** ** Enrolment *)

Section enrol.
Context `{CceDBLaws, NodeNet, K8sClient, Uuid, Pki}.

(** A row that was created is in the table. *)
Lemma Create_adds `{Persistable A} (a : A) (s s' : Ctl) :
  db (PS.Create a) s = (Ret None, s') →
  to_json a ∈ rows_of (tables (ctl_db s')) (GetTableName A)
  ∧ ∀ t r, r ∈ rows_of (tables (ctl_db s)) t → r ∈ rows_of (tables (ctl_db s')) t.
Proof.
  unfold db, PS.Create. destruct (ExecContext _ _) as [[n|e] d'] eqn:E; intros [= <-].
  cbn. apply exec_ok in E. simpl in E. destruct (table_def (GetTableName A)); [|done].
  case_match; [|done]. injection E as <- <-. split.
  - rewrite rows_of_insert, bool_decide_eq_true_2 by done. apply elem_of_app. right.
    by apply list_elem_of_singleton.
  - intros t' r Hr. rewrite rows_of_insert. case_bool_decide; subst; [|done].
    apply elem_of_app. by left.
Qed.

Lemma returns_db {A} (m : GoM DB A) : returns m → ∀ s : Ctl, ∃ a s', db m s = (Ret a, s').
Proof.
  intros Hm s. unfold db. destruct (Hm (ctl_db s)) as (a & d' & ->). by do 2 eexists.
Qed.

Lemma register_same nodeID (s : Ctl) :
  ∃ s', RegisterToProxy nodeID s = (Ret tt, s') ∧ tables (ctl_db s') = tables (ctl_db s).
Proof.
  unfold RegisterToProxy, getIP, db. unfold mbind, GoM_bind.
  pose proof (Filter_same (A:=NodeGRPCTarget) [("node_id", nodeID)] (ctl_db s)) as Hf.
  destruct (returns_Filter (A:=NodeGRPCTarget) [("node_id", nodeID)] (ctl_db s))
    as ([ts err] & d' & E). rewrite E in *. simpl in Hf.
  destruct err, ts; cbn; by eexists.
Qed.

(** A node is answered with a certificate only if the
    signing request carries a valid signature and some registered node has the
    digest of its key as serial; the certificate is issued to the identifier
    of such a node, and its credentials and its address are then recorded.
    When no registered node has that serial, the call is refused and the
    tables stay as they are. *)
Theorem cce_enrol_approved (p : option Peer) (csr : string) (s : Ctl) :
  let r := RequestCredentials p csr s in
  (∀ creds, r.1 = Ret (inl creds) →
    ∃ req serial row node cert id ip, csr_serial csr = inl (req, serial)
      ∧ row ∈ rows_of (tables (ctl_db s)) "nodes" ∧ column "serial" row = Some serial
      ∧ of_json row = Some node ∧ SignCSR req (Node_ID node) = inl cert
      ∧ nc_Certificate creds = pem_Encode cert
      ∧ to_json (mkCredentials (Node_ID node) (pem_Encode cert))
          ∈ rows_of (tables (ctl_db r.2)) "credentials"
      ∧ to_json (mkNodeGRPCTarget id (Node_ID node) ip)
          ∈ rows_of (tables (ctl_db r.2)) "node_grpc_targets")
  ∧ ((∀ row req serial, csr_serial csr = inl (req, serial) →
        row ∈ rows_of (tables (ctl_db s)) "nodes" → column "serial" row ≠ Some serial) →
     (r.1 = Ret (inr InvalidArgument) ∨ r.1 = Ret (inr Unauthenticated))
     ∧ tables (ctl_db r.2) = tables (ctl_db s)).
Proof.
  cbv zeta. unfold RequestCredentials.
  destruct (csr_serial csr) as [[req serial]|e] eqn:Hcsr; [|by split; [|cbn; auto]].
  pose proof (Filter_same (A:=Node) [("serial", serial)] (ctl_db s)) as Hsame.
  destruct (returns_Filter (A:=Node) [("serial", serial)] (ctl_db s)) as ([es err] & d' & E).
  assert (∀ n, err = None → n ∈ es → ∃ row, row ∈ rows_of (tables (ctl_db s)) "nodes"
    ∧ column "serial" row = Some serial ∧ of_json row = Some n) as Hfound.
  { intros n -> Hn. destruct (Filter_elem _ _ _ _ n E Hn) as (row & Hrow & Hj).
    apply rel_select_elem in Hrow as [Hrow Hm]. exists row. split; [done|]. split; [|done].
    simpl in Hm. rewrite andb_true_r in Hm. by apply bool_decide_eq_true in Hm. }
  rewrite E in Hsame. simpl in Hsame.
  set (s1 := mkCtl _ _ _ _ d' (ctl_net s) (ctl_k8s s) (ctl_ids s) (ctl_w s)).
  assert (db (PS.Filter (A:=Node) [("serial", serial)]) s = (Ret (es, err), s1)) as Hdb
    by (unfold db; by rewrite E).
  rewrite (bind_ret _ _ _ _ _ Hdb).
  destruct err as [e|]; [by split; [intros ? [=]|intros _; split; [right|]]|].
  destruct es as [|node es]; [by split; [intros ? [=]|intros _; split; [right|]]|].
  destruct (Hfound node eq_refl ltac:(left)) as (row & Hrow & Hser & Hdec). split.
  2: { intros Hno. by destruct (Hno row req serial eq_refl Hrow). }
  intros creds. destruct (SignCSR req (Node_ID node)) as [cert|] eqn:Hsign; [|done].
  destruct CAChain as [[|c chain]|]; try done.
  destruct (returns_db (PS.Create (mkCredentials (Node_ID node) (pem_Encode cert)))
    (returns_Create _) s1) as (e1 & s2 & Hc1).
  rewrite (bind_ret _ _ _ _ _ Hc1). destruct e1 as [e|]; [done|].
  destruct (Create_adds _ _ _ Hc1) as [Hcred _].
  destruct (p ≫= _) as [[[|ch nodeIP] port]|]; try done.
  assert (∃ id s3, uuid_New s2 = (Ret id, s3) ∧ ctl_db s3 = ctl_db s2) as (id & s3 & Hid & Hs3).
  { unfold uuid_New. destruct (NewV4 (ctl_ids s2)) as [id ids']. by do 2 eexists. }
  rewrite (bind_ret _ _ _ _ _ Hid).
  destruct (returns_db (PS.Create (mkNodeGRPCTarget id (Node_ID node) (String ch nodeIP)))
    (returns_Create _) s3) as (e2 & s4 & Hc2).
  rewrite (bind_ret _ _ _ _ _ Hc2). destruct e2 as [e|]; [done|].
  destruct (Create_adds _ _ _ Hc2) as [Htarget Hmono]. rewrite Hs3 in Hmono.
  destruct (register_same (Node_ID node) s4) as (s5 & Hreg & Hsame5).
  rewrite (bind_ret _ _ _ _ _ Hreg). intros [= <-]. cbn.
  exists req, serial, row, node, cert, id, (String ch nodeIP). rewrite Hsame5.
  repeat split; try done. by apply Hmono.
Qed.
End enrol.

Definition enrol_tables : Tables :=
  {[ "nodes" := [to_json (mkNode "node-1" "n" "here" "digest-key")] ]}.
Definition enrol_peer : option Peer :=
  Some (mkPeer "10.0.0.7:1234" (Some (mkTLSInfo EnrollmentSNI []))).

Lemma cce_enrol_approved_witness :
  (RequestCredentials enrol_peer "key" (demo_state enrol_tables)).1
  = Ret (inl (mkNodeCredentials "cert:node-1:key" ["intermediate"; "root"] ["root"]))
  ∧ ∃ id ip, to_json (mkNodeGRPCTarget id "node-1" ip) ∈ rows_of (tables (ctl_db
      (RequestCredentials enrol_peer "key" (demo_state enrol_tables)).2)) "node_grpc_targets".
Proof.
  assert ((RequestCredentials enrol_peer "key" (demo_state enrol_tables)).1
    = Ret (inl (mkNodeCredentials "cert:node-1:key" ["intermediate"; "root"] ["root"]))) as Hr
    by (vm_compute; reflexivity).
  split; [exact Hr|].
  destruct (cce_enrol_approved enrol_peer "key" (demo_state enrol_tables)) as [Hok _].
  destruct (Hok _ Hr) as (req & serial & row & node & cert & id & ip & _ & Hrow & _ & Hn & _ & _ & _ & Ht).
  exists id, ip.
  assert (row = to_json (mkNode "node-1" "n" "here" "digest-key")) as ->
    by (by apply list_elem_of_singleton in Hrow).
  rewrite of_to_json in Hn. injection Hn as <-. exact Ht.
Defined.

(** ** Features *)

Definition of_node (node : string) (r : json) : bool :=
  bool_decide (column "node_id" r = Some node).

(** Nothing but the features of [node] differs. *)
Record only_features (node : string) (T0 T : Tables) : Prop := {
  of_tables : ∀ t, t ≠ "nodes_nfd_features" → rows_of T t = rows_of T0 t;
  of_others : ∀ other, other ≠ node →
    List.filter (of_node other) (rows_of T "nodes_nfd_features")
    = List.filter (of_node other) (rows_of T0 "nodes_nfd_features");
}.

Lemma filter_update {A} (f g : A → bool) (x : A) l :
  f x = false → (∀ y, y ∈ l → g y = true → f y = false) →
  List.filter f ((λ y, if g y then x else y) <$> l) = List.filter f l.
Proof.
  intros Hx Hg. induction l as [|y l IH]; [done|]. rewrite fmap_cons. simpl.
  rewrite IH by (intros z Hz; apply Hg; by right).
  destruct (g y) eqn:Ey; [|done]. rewrite Hx. by rewrite Hg by (done || left).
Qed.

Section features.
Context `{CceDBLaws, NodeNet, K8sClient, UuidLaws, Url, GoEnv}.
Context (mode : OrchestrationMode) (node : string) (T0 : Tables).

Definition features_inv (s : Ctl) : Prop :=
  ctl_inv mode (tables (ctl_db s)) ∧ only_features node T0 (tables (ctl_db s)).

(** A statement that writes a feature of the node, in place of one of its own. *)
Lemma features_exec st f T n T' :
  ctl_inv mode T → only_features node T0 T → NodeFeatureNFD_NodeID f = node →
  rel_exec T st = Some (n, T') →
  (st = InsertRow "nodes_nfd_features" (to_json f)
   ∨ st = UpdateRow "nodes_nfd_features" (to_json f)
     ∧ ∀ r, r ∈ rows_of T "nodes_nfd_features" → row_id r = Some (NodeFeatureNFD_ID f) →
         column "node_id" r = Some node) →
  only_features node T0 T'.
Proof.
  intros Hinv [Ht Ho] Hf He Hst.
  assert (∀ other, other ≠ node → of_node other (to_json f) = false) as Hnew.
  { intros other Hne. unfold of_node. apply bool_decide_eq_false. simpl. rewrite Hf. congruence. }
  destruct Hst as [->|[-> Hown]]; simpl in He.
  - case_match; [|done]. injection He as <- <-. split.
    + intros t Hne. rewrite rows_of_insert, bool_decide_eq_false_2 by congruence. by apply Ht.
    + intros other Hne. rewrite rows_of_insert, bool_decide_eq_true_2 by done.
      rewrite List.filter_app. simpl. rewrite Hnew by done. rewrite app_nil_r. by apply Ho.
  - case_bool_decide; [by injection He as <- <-|]. case_match; [|done].
    injection He as <- <-. split.
    + intros t Hne. rewrite rows_of_insert, bool_decide_eq_false_2 by congruence. by apply Ht.
    + intros other Hne. rewrite rows_of_insert, bool_decide_eq_true_2 by done.
      rewrite filter_update; [by apply Ho|by apply Hnew|].
      intros r Hr Hid%is_id_spec. unfold of_node. apply bool_decide_eq_false.
      rewrite (Hown r Hr); [congruence|done].
Qed.

Lemma features_db {A} (m : GoM DB A) :
  keeps_tables (λ T, ctl_inv mode T ∧ only_features node T0 T) m →
  preserves features_inv (db m).
Proof.
  intros Hm s Hs. unfold features_inv, db. specialize (Hm (ctl_db s) Hs).
  by destruct (m (ctl_db s)) as [r d].
Qed.

Lemma features_set_label lf lv : preserves features_inv (set_label node lf lv).
Proof.
  intros s [Hinv Hof]. unfold set_label.
  destruct (returns_db (PS.Filter (A:=NodeFeatureNFD) [("node_id", node); ("nfd_id", lf)])
    (returns_Filter _) s) as ([es err] & s1 & E).
  rewrite (bind_ret _ _ _ _ _ E).
  assert (tables (ctl_db s1) = tables (ctl_db s)) as Hs1.
  { pose proof (Filter_same (A:=NodeFeatureNFD) [("node_id", node); ("nfd_id", lf)] (ctl_db s)) as Hf.
    unfold db in E. destruct (PS.Filter _ _) as [r d]. injection E as _ <-. done. }
  assert (features_inv s1) as Hfi1 by (unfold features_inv; by rewrite Hs1).
  destruct err as [e|]; [done|]. destruct es as [|old es].
  - revert s1 Hfi1 E Hs1. intros s1 Hfi1 _ _.
    assert (∀ id, preserves features_inv (db (PS.Create (mkNodeFeatureNFD id node lf lv)))) as Hc.
    { intros id. apply features_db, keeps_Create. intros T n T' [HT Hf] He. split.
      - eapply ctl_inv_insert; [|done..]. good_row.
      - eapply (features_exec _ (mkNodeFeatureNFD id node lf lv)); [done..|by left]. }
    unfold uuid_New. unfold mbind, GoM_bind. destruct (NewV4 (ctl_ids s1)) as [id ids'].
    set (s2 := mkCtl _ _ _ _ _ _ _ ids' _).
    specialize (Hc id s2 Hfi1). by destruct (db _ s2) as [[]?].
  - assert (∀ r, r ∈ rows_of (tables (ctl_db s1)) "nodes_nfd_features" →
      row_id r = Some (GetID old) → column "node_id" r = Some node) as Hown.
    { rewrite Hs1. intros r' Hr' Hid.
      assert (∃ d', PS.Filter (A:=NodeFeatureNFD) [("node_id", node); ("nfd_id", lf)] (ctl_db s)
        = (Ret (old :: es, None), d')) as [d' E'].
      { unfold db in E. destruct (PS.Filter _ _) as [r d]. injection E as -> _. by eexists. }
      destruct (Filter_elem _ _ _ _ old E' ltac:(left)) as (r & Hr & Hj).
      apply rel_select_elem in Hr as [Hr Hm].
      destruct (ok_features _ _ _ (inv_typed _ _ Hinv _ _ Hr) eq_refl) as (f & -> & _).
      rewrite of_to_json in Hj. injection Hj as ->.
      assert (r' = to_json old) as ->.
      { eapply (keys_elem_same (tables (ctl_db s)) "nodes_nfd_features");
          [apply Hinv|done|done|done|by rewrite Hid|by rewrite Hid]. }
      simpl in Hm. apply andb_true_iff in Hm as [Hm _]. by apply bool_decide_eq_true in Hm. }
    set (f := mkNodeFeatureNFD (GetID old) node lf lv) in *.
    destruct (returns_db (PS.BulkUpdate [f]) (returns_BulkUpdate _) s1) as (e & s2 & E2).
    rewrite (bind_ret _ _ _ _ _ E2). cbn.
    assert (tables (ctl_db s2) = tables (ctl_db s1) ∨ ∃ n,
      rel_exec (tables (ctl_db s1)) (UpdateRow "nodes_nfd_features" (to_json f))
      = Some (n, tables (ctl_db s2))) as [Hx|(n & Hx)].
    { pose proof (exec_cases (UpdateRow "nodes_nfd_features" (to_json f)) (ctl_db s1)) as Hx.
      unfold db in E2. cbn [PS.BulkUpdate] in E2.
      change (GetTableName NodeFeatureNFD) with "nodes_nfd_features" in E2.
      destruct (ExecContext _ _) as [[n|e'] d']; cbn in E2; injection E2 as _ <-; exact Hx. }
    + unfold features_inv. by rewrite Hx.
    + destruct Hfi1 as [Hi1 Ho1]. split.
      * eapply (ctl_inv_update _ _ (to_json f)); [|exact Hi1|exact Hx]. good_row.
      * eapply (features_exec _ f); [exact Hi1|exact Ho1|done|exact Hx|]. by right.
Qed.

(** A report of features changes nothing in the database
    but features of the node whose certificate the report came with, whatever
    node and labels it names. *)
Theorem cce_labels_own_node (p : option Peer) (name : string) (labels : gmap string string)
    (s : Ctl) :
  ctl_inv mode (tables (ctl_db s)) → tables (ctl_db s) = T0 →
  (∀ peer, getPeerName p = inl peer → peer = node) →
  only_features node T0 (tables (ctl_db (exec (SetLabels p name labels) s))).
Proof.
  intros Hinv HT Hpeer. assert (only_features node T0 (tables (ctl_db s))) as Hrefl by (by subst).
  unfold exec, SetLabels. destruct (getPeerName p) as [peer|e]; [|done].
  pose proof (Hpeer peer eq_refl) as ->. case_bool_decide as Hname; [done|].
  assert (name = node) as -> by (destruct (decide (node = name)); congruence).
  assert (preserves features_inv (for_acc (map_range ["SetLabels"] labels)
    (λ kv _, set_label node kv.1 kv.2) nil_err)) as Hloop
    by (apply preserves_for_acc; intros; apply features_set_label).
  specialize (Hloop s (conj Hinv Hrefl)). unfold mbind, GoM_bind.
  destruct (for_acc _ _ _ s) as [[r|e] s']; simpl in *; apply Hloop.
Qed.
End features.

Definition labels_tables : Tables :=
  {[ "nodes" := [to_json (mkNode "node-1" "n" "here" "key")] ]}.

Lemma labels_tables_inv : ctl_inv OrchestrationModeNative labels_tables.
Proof.
  eapply (ctl_inv_insert _ "nodes" (to_json (mkNode "node-1" "n" "here" "key")) ∅);
    [|apply ctl_inv_empty|vm_compute; reflexivity]. good_row.
Qed.

Lemma cce_labels_own_node_witness :
  let p := Some (mkPeer "10.0.0.7:1" (Some (mkTLSInfo SNI ["node-1"]))) in
  length (rows_of (tables (ctl_db (exec (SetLabels p "node-1" {[ "cpu" := "avx" ]})
    (demo_state labels_tables)))) "nodes_nfd_features") = 1%nat
  ∧ only_features "node-1" labels_tables (tables (ctl_db (exec
      (SetLabels p "node-1" {[ "cpu" := "avx" ]}) (demo_state labels_tables)))).
Proof.
  intros p. split; [vm_compute; reflexivity|].
  apply (cce_labels_own_node OrchestrationModeNative "node-1" labels_tables p);
    [exact labels_tables_inv|reflexivity|]. by intros peer [= <-].
Defined.
