(* ===== verification/CcePolicyProps.v ===== *)
(** * Traffic policies: what validation guarantees

    The exceptions of a validated address block are parts of it, and a policy
    that is stored can be sent to a node or to Kubernetes as it is: the
    translation neither panics nor truncates a number. *)

From S2P Require Import Prelude Strconv GoNet Http Json CceModel CcePolicy CcePersist CceNode CceCtl CceRest CceRouter CceServer CcePersistFacts CceInv.
From stdpp Require Import prelude strings list gmap.
From Stdlib Require Import ZArith.

Import CceScenario.
Local Open Scope Z_scope.

(** ** Networks *)

Lemma parse_octets_length k first s acc p :
  parse_octets k first s acc = Some p → length p = (length acc + k)%nat.
Proof.
  revert first s acc. induction k as [|k IH]; intros first s acc; cbn [parse_octets].
  { destruct (str_empty s); [|done]. intros [= <-]. lia. }
  destruct s as [|c s]; [done|]. destruct (_ && _); [done|].
  destruct (dtoi _) as [[[n i] rest]|]; [|done]. case_bool_decide; [done|].
  intros Hp%IH. rewrite length_app in Hp. simpl in Hp. lia.
Qed.

(** An IPv4 address is written as a mapped one. *)
Lemma parseIPv4_shape s ip :
  parseIPv4 s = Some ip → take 12 ip = v4InV6Prefix ∧ length ip = 16%nat.
Proof.
  unfold parseIPv4. destruct (parse_octets _ _ _ _) as [p|] eqn:Hp; [|done]. intros [= <-].
  apply parse_octets_length in Hp. split; [done|]. cbn [length]. by rewrite Hp.
Qed.

(** The groups of an IPv6 address fill at most sixteen bytes. *)
Lemma parse_groups_length rounds s ip e ip' e' rest :
  parse_groups rounds s ip e = Some (ip', e', rest) → (length ip + 2 * rounds ≤ 16)%nat →
  (length ip' ≤ 16)%nat.
Proof.
  revert s ip e. induction rounds as [|rounds IH]; intros s ip e; cbn [parse_groups].
  { intros [= <- <- <-] ?. lia. }
  destruct (xtoi s) as [[[n i] r]|]; [|done]. case_bool_decide; [done|]. intros Hp Hlen.
  assert (∀ x y s2 e2, parse_groups rounds s2 (ip ++ [x; y]) e2 = Some (ip', e', rest) →
    (length ip' ≤ 16)%nat) as Hrec.
  { intros x y s2 e2 Hg. apply (IH _ _ _ Hg). rewrite length_app. simpl. lia. }
  assert (∀ x y, length (ip ++ [x; y] : list Z) = (length ip + 2)%nat) as Hl2.
  { intros x y. by rewrite length_app. }
  destruct r as [|c r]; [injection Hp as <- <- <-; rewrite Hl2; lia|].
  destruct c as [[] [] [] [] [] [] [] []]; try discriminate Hp.
  - destruct (_ && _); [done|]. case_bool_decide; [done|].
    destruct (parseIPv4 s) as [ip4|] eqn:H4; [|done]. injection Hp as <- <- <-.
    apply parseIPv4_shape in H4 as [_ H4]. rewrite length_app, length_drop, H4. lia.
  - destruct r as [|c r]; [done|]. case_bool_decide; [|by eapply Hrec].
    case_bool_decide; [done|]. destruct (str_empty r); [|by eapply Hrec].
    injection Hp as <- <- <-. rewrite Hl2. lia.
Qed.

Lemma parseIPv6_length s ip : parseIPv6 s = Some ip → length ip = 16%nat.
Proof.
  unfold parseIPv6. case_match. destruct (_ && _); [by intros [= <-]|].
  destruct (parse_groups _ _ _ _) as [[[ip1 e] rest]|] eqn:Hg; [|done].
  apply parse_groups_length in Hg; [|done]. destruct (str_empty rest); [|done].
  unfold expand_ellipsis, IPv6len. case_bool_decide.
  - destruct e as [k|]; [|done]. intros [= <-]. rewrite !length_app, length_replicate.
    rewrite length_take, length_drop. lia.
  - case_bool_decide; [done|]. intros [= <-]. lia.
Qed.

(** Masking twice is masking with both masks. *)
Lemma zip_land_assoc (a b c : list Z) :
  zip_with Z.land a (zip_with Z.land b c) = zip_with Z.land (zip_with Z.land a b) c.
Proof.
  revert b c. induction a as [|x a IH]; intros [|y b] [|z c]; simpl; try done.
  by rewrite IH, Z.land_assoc.
Qed.

(** The bytes of a sixteen-byte address that a mask of [len] bytes looks at. *)
Definition addr_of (len : nat) (ip : list Z) : list Z :=
  if bool_decide (len = 4%nat) then drop 12 ip else ip.

(** A mask of [len] bytes applies to the address. *)
Definition of_family (len : nat) (ip : list Z) : Prop :=
  len = 16%nat ∨ len = 4%nat ∧ take 12 ip = v4InV6Prefix.

Lemma IP_Mask_family len ip mask :
  length ip = 16%nat → length mask = len → of_family len ip →
  IP_Mask ip mask = zip_with Z.land (addr_of len ip) mask.
Proof.
  intros Hip Hm Hf. unfold IP_Mask, addr_of, IPv4len, IPv6len. rewrite Hip.
  rewrite (bool_decide_eq_false_2 (length mask = 16%nat ∧ _)) by (intros (_ & ? & _); lia).
  destruct Hf as [->|[-> Hp]].
  - rewrite (bool_decide_eq_false_2 (length mask = 4%nat ∧ _)) by (intros (? & _); lia).
    by rewrite (bool_decide_eq_true_2 (length ip = length mask)) by lia.
  - rewrite (bool_decide_eq_true_2 (length mask = 4%nat ∧ _)) by done.
    by rewrite (bool_decide_eq_true_2 (length (drop 12 ip) = length mask))
      by (rewrite length_drop; lia).
Qed.

(** An address outside the family of the mask has no masked form. *)
Lemma IP_Mask_foreign ip mask :
  length ip = 16%nat → length mask = 4%nat → take 12 ip ≠ v4InV6Prefix → IP_Mask ip mask = [].
Proof.
  intros Hip Hm Hp. unfold IP_Mask, IPv4len, IPv6len.
  rewrite (bool_decide_eq_false_2 (length mask = 16%nat ∧ _)) by (intros (? & _); lia).
  rewrite (bool_decide_eq_false_2 (length mask = 4%nat ∧ _)) by (by intros (_ & _ & ?)).
  by rewrite (bool_decide_eq_false_2 (length ip = length mask)) by lia.
Qed.

(** What [net.ParseCIDR] returns. *)
Record cidr_parts (ip : list Z) (n : IPNet) (len ones : nat) : Prop := {
  cp_mask : IPNet_Mask n = CIDRMask len ones;
  cp_ones : (ones ≤ 8 * len)%nat;
  cp_len : length ip = 16%nat;
  cp_fam : of_family len ip;
  cp_ip : IPNet_IP n = zip_with Z.land (addr_of len ip) (CIDRMask len ones);
}.

Lemma ParseCIDR_parts s ip n :
  ParseCIDR s = inl (ip, n) → ∃ len ones, cidr_parts ip n len ones.
Proof.
  unfold ParseCIDR. destruct (cut_first _ s) as [[addr mask]|]; [|done].
  destruct (dtoi mask) as [[[k i] r]|]; [|by repeat case_match].
  assert (∀ len ip1, length ip1 = 16%nat → of_family len ip1 →
    (if bool_decide (i ≠ String.length mask) || bool_decide (k < 0 ∨ Z.of_nat (8 * len) < k)
     then inr ("invalid CIDR address: " +:+ s)
     else inl (ip1, mkIPNet (IP_Mask ip1 (CIDRMask len (Z.to_nat k))) (CIDRMask len (Z.to_nat k))))
    = inl (ip, n) → ∃ len ones, cidr_parts ip n len ones) as Hparts.
  { intros len ip1 Hl Hf. destruct (bool_decide (i ≠ _)); [done|]. simpl.
    case_bool_decide; [done|]. intros [= <- <-]. exists len, (Z.to_nat k).
    split; simpl; try done; [lia|]. by apply IP_Mask_family; [|apply length_CIDRMask|]. }
  destruct (parseIPv4 addr) as [ip4|] eqn:H4.
  - apply parseIPv4_shape in H4 as [Hp Hl]. by apply Hparts; [|right].
  - destruct (parseIPv6 addr) as [ip6|] eqn:H6; [|done].
    apply parseIPv6_length in H6. by apply Hparts; [|left].
Qed.

(** A sixteen-byte address lies in the network. *)
Definition in_net (n : IPNet) (ip : list Z) : Prop :=
  length ip = 16%nat ∧ IP_Mask ip (IPNet_Mask n) = IPNet_IP n.

Lemma in_net_parts ip0 n len ones ip :
  cidr_parts ip0 n len ones →
  in_net n ip ↔ length ip = 16%nat ∧ of_family len ip
    ∧ zip_with Z.land (addr_of len ip) (CIDRMask len ones)
      = zip_with Z.land (addr_of len ip0) (CIDRMask len ones).
Proof.
  intros [Hm Ho Hl Hf Hip]. unfold in_net. rewrite Hm, Hip. split.
  - intros [Hl1 HM]. assert (of_family len ip) as Hf1.
    { destruct Hf as [->|[-> Hp]]; [by left|]. right. split; [done|].
      destruct (decide (take 12 ip = v4InV6Prefix)) as [|Hne]; [done|]. exfalso.
      rewrite (IP_Mask_foreign _ _ Hl1 (length_CIDRMask _ _) Hne) in HM.
      apply (f_equal length) in HM. unfold addr_of in HM.
      rewrite length_zip_with, length_CIDRMask in HM. simpl in HM.
      rewrite length_drop in HM. simpl in *. lia. }
    split_and!; [done|done|]. by rewrite <-HM, (IP_Mask_family len) by auto using length_CIDRMask.
  - intros (Hl1 & Hf1 & Hz). split; [done|].
    by rewrite (IP_Mask_family len) by auto using length_CIDRMask.
Qed.

(** A longer prefix whose number agrees is a smaller network. *)
Lemma longer_prefix_inside ip n ipe ne len a b :
  cidr_parts ip n len a → cidr_parts ipe ne len b → (a ≤ b)%nat →
  zip_with Z.land (addr_of len ipe) (CIDRMask len a) = IPNet_IP n →
  ∀ x, in_net ne x → in_net n x.
Proof.
  intros Hn He Hab Hnum x Hx. apply (in_net_parts _ _ _ _ _ He) in Hx as (Hl & Hf & Hz).
  apply (in_net_parts _ _ _ _ _ Hn). split_and!; [done|done|].
  rewrite <-(cp_ip _ _ _ _ Hn), <-Hnum, <-(CIDRMask_land len a b Hab).
  by rewrite !zip_land_assoc, Hz.
Qed.

(** The exception lies in the network: what [check_except] asks for. *)
Definition exception_of (n : IPNet) (e : string) : Prop :=
  ∃ ipe ne, ParseCIDR e = inl (ipe, ne)
    ∧ (Mask_Size (IPNet_Mask n) < Mask_Size (IPNet_Mask ne))%nat
    ∧ (length (IPNet_Mask ne) = length (IPNet_Mask n) → ∀ x, in_net ne x → in_net n x).

Lemma check_except_sound cidr ip n len ones i e :
  cidr_parts ip n len ones → check_except cidr n i e = Ret None → exception_of n e.
Proof.
  intros Hn. unfold check_except. destruct (ParseCIDR e) as [[ipe ne]|] eqn:He; [|done].
  autorewrite with checks. intros (_ & HIP & Hsz). exists ipe, ne. split_and!; [done|lia|].
  destruct (ParseCIDR_parts _ _ _ He) as (len' & ones' & Hne).
  intros Hlen. rewrite (cp_mask _ _ _ _ Hne), (cp_mask _ _ _ _ Hn), !length_CIDRMask in *.
  subst len'. apply negb_false_iff in HIP.
  rewrite !Mask_Size_CIDRMask in Hsz by apply Hne || apply Hn.
  eapply longer_prefix_inside; [exact Hn|exact Hne|lia|].
  unfold IP_Equal in HIP. rewrite (IP_Mask_family len) in HIP; [|apply Hne|apply length_CIDRMask|apply Hne].
  rewrite (cp_ip _ _ _ _ Hn) in HIP |- *. rewrite bool_decide_eq_true_2 in HIP.
  - by apply bool_decide_eq_true in HIP.
  - rewrite !length_zip_with. f_equal. unfold addr_of.
    assert (length ip = length ipe) as Hl by (rewrite (cp_len _ _ _ _ Hn); symmetry; apply Hne).
    clear -Hl. case_bool_decide; rewrite ?length_drop; lia.
Qed.

(** A validated address block parses, and each of its exceptions parses
    and is a strictly longer prefix; an exception of the family of the block
    (IPv4 or IPv6) is a part of it: every address of the exception is an
    address of the block. *)
Theorem cce_ipblock_sound (b : IPBlock) :
  IPBlock_Validate b = Ret None →
  ∃ ip n, ParseCIDR (IPBlock_CIDR b) = inl (ip, n) ∧ Forall (exception_of n) (IPBlock_Except b).
Proof.
  unfold IPBlock_Validate. destruct (ParseCIDR _) as [[ip n]|] eqn:Hn; [|done].
  rewrite check_each_None. intros He. exists ip, n. split; [done|].
  destruct (ParseCIDR_parts _ _ _ Hn) as (len & ones & Hp).
  apply Forall_lookup. intros k e Hk. by eapply check_except_sound, He.
Qed.

Definition demo_block : IPBlock := mkIPBlock "10.16.0.0/12" ["10.17.0.0/16"; "10.20.30.0/24"].

Lemma cce_ipblock_sound_witness :
  IPBlock_Validate demo_block = Ret None ∧
  ∃ ip n, ParseCIDR "10.16.0.0/12" = inl (ip, n)
    ∧ Forall (exception_of n) ["10.17.0.0/16"; "10.20.30.0/24"].
Proof.
  split; [vm_compute; reflexivity|]. apply (cce_ipblock_sound demo_block). vm_compute. reflexivity.
Defined.

(** An exception of the other family is compared by the bytes of its mask: an
    IPv6 prefix far larger than the block passes. *)
Example ipblock_cross_family :
  IPBlock_Validate (mkIPBlock "10.0.0.0/8" ["::ffff:10.1.2.3/9"]) = Ret None.
Proof. vm_compute. reflexivity. Qed.

(** ** Policies on the wire *)

Lemma wrap_uint32_id z : 0 ≤ z < 2 ^ 32 → wrap_uint32 z = z.
Proof. apply Z.mod_small. Qed.

Lemma out_of_false lo hi x : out_of lo hi x = false ↔ lo ≤ x ≤ hi.
Proof. unfold out_of. rewrite bool_decide_eq_false. lia. Qed.

Lemma if_set_None {A} prefix (f : A → outcome error) p :
  if_set prefix f p = Ret None ↔ ∀ a, p = Some a → f a = Ret None.
Proof. destruct p as [a|]; simpl; [rewrite wrap_err_None; naive_solver|naive_solver]. Qed.

(** A node reads a message: what each part of it says as a policy. *)
Definition read_protocol (p : string) : string := if bool_decide (p = "") then "all" else p.

Definition read_IPFilter (f : PBIPFilter) : IPFilter :=
  mkIPFilter (pbf_Address f) (pbf_Mask f) (pbf_BeginPort f) (pbf_EndPort f)
    (read_protocol (pbf_Protocol f)).

Definition read_GTPFilter (f : PBGTPFilter) : GTPFilter :=
  mkGTPFilter (pbg_Address f) (pbg_Mask f) (pbg_Imsis f).

Definition read_selector (s : PBTrafficSelector) : TrafficSelector :=
  mkTrafficSelector (pbs_Description s) (mkMACFilter <$> pbs_Macs s)
    (read_IPFilter <$> pbs_Ip s) (read_GTPFilter <$> pbs_Gtp s).

Definition read_action (a : TargetAction) : string :=
  match a with ACCEPT => "accept" | REJECT => "reject" | DROP => "drop" end.

Definition read_target (t : PBTrafficTarget) : TrafficTarget :=
  mkTrafficTarget (pbt_Description t) (read_action (pbt_Action t)) (mkMACModifier <$> pbt_Mac t)
    ((λ '(a, p), mkIPModifier a p) <$> pbt_Ip t).

Definition read_rule (r : PBTrafficRule) : TrafficRule :=
  mkTrafficRule (pbr_Description r) (pbr_Priority r) (read_selector <$> pbr_Source r)
    (read_selector <$> pbr_Destination r) (read_target <$> pbr_Target r).

Lemma option_round {A B} (f : A → B) (g : B → A) (o : option A) :
  (∀ a, o = Some a → g (f a) = a) → g <$> (f <$> o) = o.
Proof. destruct o as [a|]; simpl; [|done]. intros Hg. by rewrite Hg. Qed.

Lemma read_toPBIPFilter f : IPFilter_Validate f = Ret None → read_IPFilter (toPBIPFilter f) = f.
Proof.
  unfold IPFilter_Validate. autorewrite with checks. rewrite !out_of_false.
  intros (_ & Hm & Hb & He & _ & Hp). apply dec_stable in Hp.
  destruct f as [a m b e p]. unfold read_IPFilter, toPBIPFilter. simpl in *.
  rewrite !wrap_uint32_id by lia. f_equal. unfold read_protocol, pb_protocol.
  assert (p ≠ "").
  { intros ->. unfold ip_protocols in Hp. rewrite !elem_of_cons, elem_of_nil in Hp. naive_solver. }
  repeat case_bool_decide; naive_solver.
Qed.

Lemma read_toPBGTPFilter f :
  GTPFilter_Validate f = Ret None → read_GTPFilter (toPBGTPFilter f) = f.
Proof.
  unfold GTPFilter_Validate. autorewrite with checks. rewrite out_of_false.
  intros (_ & _ & Hm & _). destruct f as [a m i]. unfold read_GTPFilter, toPBGTPFilter.
  simpl in *. by rewrite wrap_uint32_id by lia.
Qed.

Lemma read_toPBTrafficSelector s :
  TrafficSelector_Validate s = Ret None → read_selector (toPBTrafficSelector s) = s.
Proof.
  unfold TrafficSelector_Validate. autorewrite with checks. rewrite !if_set_None.
  intros (_ & _ & Hip & Hgtp). destruct s as [d m i g]. unfold read_selector, toPBTrafficSelector.
  simpl in *. f_equal; apply option_round; auto using read_toPBIPFilter, read_toPBGTPFilter.
  by intros [].
Qed.

Lemma read_toPBTrafficTarget t :
  TrafficTarget_Validate t = Ret None →
  ∃ pb, toPBTrafficTarget t = Ret pb ∧ read_target pb = t.
Proof.
  unfold TrafficTarget_Validate. autorewrite with checks. rewrite !if_set_None.
  intros (Ha & _ & Hip). apply dec_stable in Ha. destruct t as [d a m i]. simpl in *.
  assert (∃ x, toPBTargetAction a = Ret x ∧ read_action x = a) as (x & Hx & Hr).
  { rewrite !elem_of_cons in Ha. destruct Ha as [->|[->|[->|[]%not_elem_of_nil]]]; eauto. }
  unfold toPBTrafficTarget. simpl. rewrite Hx. eexists. split; [done|].
  unfold read_target. simpl. rewrite Hr. f_equal; [by apply option_round; intros []|].
  apply option_round. intros [ad po] ->. specialize (Hip _ eq_refl).
  unfold IPModifier_Validate in Hip. autorewrite with checks in Hip.
  rewrite out_of_false in Hip. simpl in *. by rewrite wrap_uint32_id by lia.
Qed.

Lemma read_toPBTrafficRule r :
  TrafficRule_Validate r = Ret None → ∃ pb, toPBTrafficRule r = Ret pb ∧ read_rule pb = r.
Proof.
  unfold TrafficRule_Validate. autorewrite with checks. rewrite !if_set_None, out_of_false.
  intros (Hp & _ & Hs & Hd & Ht). destruct r as [d p s de [t|]]; [|done].
  simpl in Ht. rewrite wrap_err_None in Ht. apply read_toPBTrafficTarget in Ht as (pb & Hpb & Hr).
  unfold toPBTrafficRule. simpl in *. rewrite Hpb. eexists. split; [done|].
  unfold read_rule. simpl. rewrite wrap_uint32_id, Hr by lia.
  f_equal; apply option_round; auto using read_toPBTrafficSelector.
Qed.

(** A list of set pointers whose elements translate is translated, element by
    element. *)
Lemma translate_all_ret {A B} (f : A → outcome B) (R : option A → B → Prop) (l : list (option A)) :
  (∀ k x, l !! k = Some x → ∃ a b, x = Some a ∧ f a = Ret b ∧ R x b) →
  ∃ bs, translate_all f l = Ret bs ∧ Forall2 R l bs.
Proof.
  induction l as [|x l IH]; intros Hl; [by exists []|].
  destruct (Hl 0%nat x eq_refl) as (a & b & -> & Hf & Hg).
  destruct IH as (bs & Hbs & Hl2); [intros k y; apply (Hl (S k))|].
  exists (b :: bs). simpl. rewrite Hf, Hbs. auto.
Qed.

Lemma read_toPBTrafficPolicy `{Uuid} id p :
  TrafficPolicy_Validate p = Ret None →
  ∃ pb, toPBTrafficPolicy id (Some p) = Ret pb ∧ pbtp_Id pb = id
    ∧ Forall2 (λ x b, x = Some (read_rule b)) (TrafficPolicy_Rules p) (pbtp_TrafficRules pb).
Proof.
  unfold TrafficPolicy_Validate. autorewrite with checks. intros (_ & _ & _ & Hr).
  destruct (translate_all_ret toPBTrafficRule (λ x b, x = Some (read_rule b))
    (TrafficPolicy_Rules p)) as (bs & Hbs & Hl).
  { intros k x Hk. specialize (Hr k x Hk). autorewrite with checks in Hr.
    destruct Hr as (a & -> & Ha). apply read_toPBTrafficRule in Ha as (b & ? & <-). eauto. }
  simpl. rewrite Hbs. eauto.
Qed.

(** The ports and blocks of a rule of a Kubernetes network policy. *)
Definition read_k8s_protocol (p : Protocol) : string :=
  match p with ProtocolTCP => "tcp" | ProtocolUDP => "udp" | ProtocolSCTP => "sctp" end.

Definition k8s_port (x : option Port) (p : NetworkPolicyPort) : Prop :=
  x = Some (mkPort (npp_Port p) (read_k8s_protocol (npp_Protocol p))).

Definition k8s_peer (x : option IPBlock) (p : NetworkPolicyPeer) : Prop :=
  x = Some (mkIPBlock (npe_CIDR p) (npe_Except p)).

Definition k8s_rule (ports : list (option Port)) (peers : list (option IPBlock))
    (r : NetworkPolicyRule) : Prop :=
  Forall2 k8s_port ports (npr_Ports r) ∧ Forall2 k8s_peer peers (npr_Peers r).

Lemma rule_ToK8s_exact name ports peers :
  check_blocks name peers = Ret None → check_ports ports = Ret None →
  ∃ r, rule_ToK8s ports peers = Ret r ∧ k8s_rule ports peers r.
Proof.
  unfold check_blocks, check_ports. autorewrite with checks. intros Hb Hp.
  destruct (translate_all_ret (λ p, Ret (Port_ToK8s p)) k8s_port ports) as (ps & Hps & HPs).
  { intros k x Hk. specialize (Hp k x Hk). autorewrite with checks in Hp.
    destruct Hp as ([n pr] & -> & Hv). do 2 eexists. split_and!; [done|done|].
    unfold Port_Validate in Hv. rewrite refuse_None in Hv. simpl in Hv.
    unfold k8s_port, Port_ToK8s. simpl. do 2 f_equal.
    destruct (decide (pr = "tcp")) as [->|]; [done|].
    destruct (decide (pr = "udp")) as [->|]; [done|].
    destruct (decide (pr = "sctp")) as [->|]; [done|].
    rewrite !bool_decide_eq_true_2 in Hv by done. done. }
  destruct (translate_all_ret (λ b, Ret (IPBlock_ToK8s b)) k8s_peer peers) as (bs & Hbs & HBs).
  { intros k x Hk. specialize (Hb k x Hk). autorewrite with checks in Hb.
    destruct Hb as ([c ex] & -> & Hv). by do 2 eexists. }
  unfold rule_ToK8s. rewrite Hps, Hbs. eexists. split; [done|]. by split.
Qed.

Definition k8s_ingress (x : option IngressRule) (r : NetworkPolicyRule) : Prop :=
  ∃ ir, x = Some ir ∧ k8s_rule (IngressRule_Ports ir) (IngressRule_From ir) r.

Definition k8s_egress (x : option EgressRule) (r : NetworkPolicyRule) : Prop :=
  ∃ er, x = Some er ∧ k8s_rule (EgressRule_Ports er) (EgressRule_To er) r.

(** The network policy says what the policy says: the same rules, and it covers
    the directions that have any. *)
Record k8s_policy (p : TrafficPolicyKubeOVN) (np : NetworkPolicy) : Prop := {
  kp_ingress : Forall2 k8s_ingress (TrafficPolicyKubeOVN_Ingress p) (np_Ingress np);
  kp_egress : Forall2 k8s_egress (TrafficPolicyKubeOVN_Egress p) (np_Egress np);
  kp_in : "Ingress" ∈ np_PolicyTypes np ↔ TrafficPolicyKubeOVN_Ingress p ≠ [];
  kp_out : "Egress" ∈ np_PolicyTypes np ↔ TrafficPolicyKubeOVN_Egress p ≠ [];
}.

(** A direction is named when it has rules. *)
Lemma policy_type {A B} (R : A → B → Prop) l k (name : string) :
  Forall2 R l k →
  name ∈ (if bool_decide (0 < length k)%nat then [name] else []) ↔ l ≠ [].
Proof. intros []; simpl; set_solver. Qed.

Lemma ToK8s_exact `{Uuid} p :
  TrafficPolicyKubeOVN_Validate p = Ret None → ∃ np, ToK8s p = Ret np ∧ k8s_policy p np.
Proof.
  unfold TrafficPolicyKubeOVN_Validate. autorewrite with checks. intros (_ & _ & _ & Hi & He).
  destruct (translate_all_ret IngressRule_ToK8s k8s_ingress (TrafficPolicyKubeOVN_Ingress p))
    as (ins & His & HIs).
  { intros k x Hk. specialize (Hi k x Hk). autorewrite with checks in Hi.
    destruct Hi as (ir & -> & Hv). unfold IngressRule_Validate in Hv.
    rewrite and_then_None in Hv. destruct Hv as [Hb Hp].
    destruct (rule_ToK8s_exact _ _ _ Hb Hp) as (r & ? & ?). exists ir, r. unfold k8s_ingress. eauto. }
  destruct (translate_all_ret EgressRule_ToK8s k8s_egress (TrafficPolicyKubeOVN_Egress p))
    as (es & Hes & HEs).
  { intros k x Hk. specialize (He k x Hk). autorewrite with checks in He.
    destruct He as (er & -> & Hv). unfold EgressRule_Validate in Hv.
    rewrite and_then_None in Hv. destruct Hv as [Hb Hp].
    destruct (rule_ToK8s_exact _ _ _ Hb Hp) as (r & ? & ?). exists er, r. unfold k8s_egress. eauto. }
  unfold ToK8s. rewrite His, Hes. eexists. split; [done|]. split; simpl; [done|done| |].
  - rewrite elem_of_app, (policy_type _ _ _ "Ingress" HIs). case_bool_decide; set_solver.
  - rewrite elem_of_app, (policy_type _ _ _ "Egress" HEs).
    destruct (bool_decide (0 < length ins)%nat); set_solver.
Qed.

(** C16: Every traffic policy the controller ever stores can be sent as it
    is.  For the native data plane the gRPC message is built without a panic,
    and reading its rules back gives exactly the stored rules: no number is
    truncated and no rule is lost.  For Kubernetes [ToK8s] returns a network
    policy with the stored rules, ports and blocks, which covers exactly the
    directions that have rules. *)
Theorem cce_policy_sent_exactly
    `{CceDBLaws, NodeNet, K8sClient, UuidLaws, Pki, GoEnv, Url, Jose}
    (ctrl : Controller) (s0 s : Ctl) (r : json) (id : string) :
  tables (ctl_db s0) = ∅ → cce_reach ctrl s0 s →
  r ∈ rows_of (tables (ctl_db s)) "traffic_policies" →
  if bool_decide (ctrl_OrchestrationMode ctrl = OrchestrationModeKubernetesOVN) then
    ∃ p np, of_json r = Some p ∧ ToK8s p = Ret np ∧ k8s_policy p np
  else
    ∃ p pb, of_json r = Some p ∧ toPBTrafficPolicy id (Some p) = Ret pb ∧ pbtp_Id pb = id
      ∧ Forall2 (λ x b, x = Some (read_rule b)) (TrafficPolicy_Rules p) (pbtp_TrafficRules pb).
Proof.
  intros Hnew Hr Hin.
  assert (ctl_inv (ctrl_OrchestrationMode ctrl) (tables (ctl_db s))) as Hinv.
  { clear Hin. induction Hr; [rewrite Hnew; apply ctl_inv_empty|]. apply cce_step_inv; auto. }
  pose proof (ok_policies _ _ _ (inv_typed _ _ Hinv _ _ Hin) eq_refl) as Hp.
  unfold policy_ok in Hp. case_bool_decide; destruct Hp as (p & -> & Hv).
  - destruct (ToK8s_exact p Hv) as (np & ? & ?). exists p, np. by rewrite of_to_json.
  - destruct (read_toPBTrafficPolicy id p Hv) as (pb & ? & ? & ?).
    exists p, pb. by rewrite of_to_json.
Qed.

(** A policy that is stored and read back. *)
Definition demo_policy : TrafficPolicy :=
  mkTrafficPolicy "" "web"
    [Some (mkTrafficRule "rule" 7
       (Some (mkTrafficSelector "from" None
          (Some (mkIPFilter "10.0.0.1" 24 80 443 "tcp")) None)) None
       (Some (mkTrafficTarget "to" "accept" None (Some (mkIPModifier "10.0.0.2" 8080)))))].

Definition demo_policy_state : Ctl :=
  cce_step demo_ctrl (demo_state ∅)
    (HttpRequest 0 (mkCtlRequest "/policies" "Bearer 99" (POSTPolicies (BodyOf demo_policy)))).

Lemma cce_policy_sent_exactly_witness :
  ∃ p pb, of_json (to_json (SetID "id-1" demo_policy)) = Some p
    ∧ toPBTrafficPolicy "iface" (Some p) = Ret pb ∧ pbtp_Id pb = "iface"
    ∧ Forall2 (λ x b, x = Some (read_rule b)) (TrafficPolicy_Rules p) (pbtp_TrafficRules pb).
Proof.
  apply (cce_policy_sent_exactly demo_ctrl (demo_state ∅) demo_policy_state).
  - reflexivity.
  - apply cce_next, cce_start.
  - vm_compute. left.
Defined.
