(* ===== verification/GoPath.v ===== *)
(** * [path] and [os]

    The file system as the agents of the edge node use it.  A path is the list
    of the elements that [path.Clean] leaves: a rooted path begins with the
    empty element.  A tree maps paths to directories and files.  Every call of
    [os] may fail: [fs_faults] says for each call in turn whether it does, so
    what holds for every list of faults holds for every behaviour of the disk,
    the loss of power included (all calls after it fail). *)

From S2P Require Import Prelude Strconv.
From stdpp Require Import prelude strings list gmap.
From Stdlib Require Import ZArith Ascii.

Local Open Scope Z_scope.

(** ** Paths *)

Abbreviation path := (list string).

(** The elements that [path.Clean] keeps, [stack] being those before in
    reverse. *)
Fixpoint clean_elems (rooted : bool) (stack : list string) (l : list string) : list string :=
  match l with
  | [] => rev stack
  | e :: l' =>
      if bool_decide (e = "" ∨ e = ".") then clean_elems rooted stack l'
      else if bool_decide (e = "..") then
        match stack with
        | [] => clean_elems rooted (if rooted then [] else [".."]) l'
        | t :: stack' => if bool_decide (t = "..") then clean_elems rooted (".." :: stack) l'
                         else clean_elems rooted stack' l'
        end
      else clean_elems rooted (e :: stack) l'
  end.

(** [path.Clean]; [[]] stands for the path ["."]. *)
Definition Clean (s : string) : path :=
  match strings_Split s "/" with
  | "" :: (_ :: _) as l => "" :: clean_elems true [] l
  | l => clean_elems false [] l
  end.

(** [path.Join(p, s)] where [p] is clean. *)
Definition path_Join (p : path) (s : string) : path :=
  match p with
  | "" :: p' => "" :: clean_elems true (rev p') (strings_Split s "/")
  | _ => clean_elems false (rev p) (strings_Split s "/")
  end.

(** The path with [suffix] added to its last element. *)
Definition add_suffix (p : path) (suffix : string) : path :=
  match rev p with
  | [] => [suffix]
  | e :: r => rev ((e +:+ suffix) :: r)
  end.

(** A name that is one element of a path. *)
Definition plain (s : string) : Prop := ¬ contains s "/" ∧ s ≠ "" ∧ s ≠ "." ∧ s ≠ "..".

Example path_Join_up : path_Join ["var"; "images"] "../other" = ["var"; "other"].
Proof. reflexivity. Qed.

Example Clean_ex : Clean "/var//lib/./x/../images/" = ["";"var"; "lib"; "images"].
Proof. vm_compute. reflexivity. Qed.

(** One element is what splitting at slashes leaves alone. *)
Lemma plain_intro s :
  List.length (strings_Split s "/") = 1%nat → s ∉ [""; "."; ".."] → plain s.
Proof.
  intros Hl Hs. split; [|set_solver]. intros Hc. apply strings_Split_many in Hc; [|done].
  destruct Hc as (a & b & l & E). rewrite E in Hl. simpl in Hl. lia.
Qed.

Lemma path_Join_plain (p : path) s : plain s → path_Join p s = p ++ [s].
Proof.
  intros (Hs & He & Hd & Hdd). unfold path_Join.
  assert (strings_Split s "/" = [s]) as -> by (by apply strings_Split_single).
  assert (∀ b st, clean_elems b st [s] = rev st ++ [s]) as Hc.
  { intros b st. simpl. rewrite bool_decide_eq_false_2 by naive_solver.
    by rewrite bool_decide_eq_false_2. }
  destruct p as [|[|c e] p]; rewrite Hc; try done.
  - by rewrite rev_involutive.
  - by rewrite rev_involutive.
Qed.

(** ** Files *)

(** The content of a file: the JSON text of a document, or other bytes. *)
Inductive content (D : Type) :=
| Doc (d : D)
| Text (s : string).
Arguments Doc {D} d.
Arguments Text {D} s.

Inductive fnode (D : Type) :=
| Dir
| File (c : content D).
Arguments Dir {D}.
Arguments File {D} c.

(** A failing call: its message, what a failing write leaves in the file (all
    or some bytes), and which entries a failing removal of a tree leaves. *)
Record fault := mkFault {
  f_msg : string;
  f_full : bool;
  f_text : string;
  f_kept : path → bool;
}.

Record Fs (D : Type) := mkFs {
  fs_tree : gmap path (fnode D);
  fs_faults : list (option fault);
}.
Arguments mkFs {D} _ _.
Arguments fs_tree {D} _.
Arguments fs_faults {D} _.

(** An error of [os]. *)
Inductive os_error :=
| ErrNotExist
| ErrExist
| ErrOther (msg : string).

Definition os_text (e : os_error) : string :=
  match e with
  | ErrNotExist => "no such file or directory"
  | ErrExist => "file exists"
  | ErrOther msg => msg
  end.

Section os.
Context {D : Type}.
Implicit Types (p : path) (T : gmap path (fnode D)).

(** One call: it fails as the next fault says, or does [op] to the tree. *)
Definition fs_call {A} (op : gmap path (fnode D) → (A + os_error) * gmap path (fnode D))
    (broken : fault → gmap path (fnode D) → gmap path (fnode D)) : GoM (Fs D) (A + os_error) :=
  λ s, match fs_faults s with
       | Some f :: fs => (Ret (inr (ErrOther (f_msg f))), mkFs (broken f (fs_tree s)) fs)
       | fs => let '(r, T) := op (fs_tree s) in (Ret r, mkFs T (tail fs))
       end.

(** The directory of a path. *)
Definition parent p : path := removelast p.

Definition is_dir T p : bool :=
  match p with
  | [] | [""] => true
  | _ => match T !! p with Some Dir => true | _ => false end
  end.

Definition fs_ReadFile p : GoM (Fs D) (content D + os_error) :=
  fs_call (λ T, (match T !! p with
                 | Some (File c) => inl c
                 | Some Dir => inr (ErrOther "is a directory")
                 | None => inr ErrNotExist
                 end, T)) (λ _ T, T).

(** [os.Open], which opens directories too. *)
Definition fs_Open p : GoM (Fs D) (unit + os_error) :=
  fs_call (λ T, (match T !! p with Some _ => inl tt | None => inr ErrNotExist end, T)) (λ _ T, T).

Definition fs_Mkdir p : GoM (Fs D) (unit + os_error) :=
  fs_call (λ T, if bool_decide (T !! p ≠ None) then (inr ErrExist, T)
                else if is_dir T (parent p) then (inl tt, <[p := Dir]> T)
                else (inr ErrNotExist, T)) (λ _ T, T).

(** [os.Create]: the file is there and empty. *)
Definition fs_Create p : GoM (Fs D) (unit + os_error) :=
  fs_call (λ T, match T !! p with
                | Some Dir => (inr (ErrOther "is a directory"), T)
                | Some (File _) => (inl tt, <[p := File (Text "")]> T)
                | None => if is_dir T (parent p) then (inl tt, <[p := File (Text "")]> T)
                          else (inr ErrNotExist, T)
                end) (λ _ T, T).

(** [file.Write] of the whole content and [file.Close]. *)
Definition fs_Write p (c : content D) : GoM (Fs D) (unit + os_error) :=
  fs_call (λ T, (inl tt, <[p := File c]> T)) 
    (λ f T, <[p := File (if f_full f then c else Text (f_text f))]> T).

Definition fs_Rename p q : GoM (Fs D) (unit + os_error) :=
  fs_call (λ T, match T !! p with
                | Some (File c) => match T !! q with
                                   | Some Dir => (inr ErrExist, T)
                                   | _ => if is_dir T (parent q)
                                          then (inl tt, <[q := File c]> (delete p T))
                                          else (inr ErrNotExist, T)
                                   end
                | Some Dir => (inr (ErrOther "is a directory"), T)
                | None => (inr ErrNotExist, T)
                end) (λ _ T, T).

(** [os.Remove] of a file. *)
Definition fs_Remove p : GoM (Fs D) (unit + os_error) :=
  fs_call (λ T, match T !! p with
                | Some (File _) => (inl tt, delete p T)
                | Some Dir => (inr (ErrOther "directory not empty"), T)
                | None => (inr ErrNotExist, T)
                end) (λ _ T, T).

(** The path lies in the tree under [p]. *)
Definition under p q : bool := bool_decide (take (length p) q = p).

Definition fs_RemoveAll p : GoM (Fs D) (unit + os_error) :=
  fs_call (λ T, (inl tt, filter (λ e, under p e.1 = false) T))
    (λ f T, filter (λ e, under p e.1 = false ∨ f_kept f e.1 = true) T).
End os.
