(* ===== verification/EvaMeta.v ===== *)
(** * Metadata of applications (edgenode/pkg/app-metadata)

    What the virtualization agent keeps on disk about each application: the
    file [metadata.json] (its description and status) and the file [deployed]
    (the identifier of the container or domain).  [Save] replaces the first
    one through a temporary file.  The state of the agent is the file system
    and the rest of the world ([EvaWorld] in EvaEnv.v). *)

From S2P Require Import Prelude Strconv GoPath.
From stdpp Require Import prelude strings list gmap.
From Stdlib Require Import ZArith.

Local Open Scope Z_scope.

(** ** Data *)

(** [pb.LifecycleStatus_Status]. *)
Inductive Status :=
| UNKNOWN | DEPLOYING | READY | STARTING | RUNNING | STOPPING | STOPPED | ERROR.

#[export] Instance Status_eq_dec : EqDecision Status.
Proof. solve_decision. Defined.

Definition Status_String (s : Status) : string :=
  match s with
  | UNKNOWN => "UNKNOWN" | DEPLOYING => "DEPLOYING" | READY => "READY"
  | STARTING => "STARTING" | RUNNING => "RUNNING" | STOPPING => "STOPPING"
  | STOPPED => "STOPPED" | ERROR => "ERROR"
  end.

Record EvaPort := mkEvaPort { ep_Port : Z; ep_Protocol : string }.

Record CNIConf := mkCNIConf {
  CniConfig : string;
  InterfaceName : string;
  CniPath : string;
  CniArgs : string;
}.

(** [pb.Application]; the source is the location of the image, when it is set. *)
Record Application := mkApplication {
  app_Id : string;
  app_Name : string;
  app_Version : string;
  app_Vendor : string;
  app_Description : string;
  app_Cores : Z;
  app_Memory : Z;
  app_Ports : list EvaPort;
  app_Status : Status;
  app_Source : option string;
  app_EACJsonBlob : string;
  app_CniConf : option CNIConf;
}.

Definition set_status (s : Status) (a : Application) : Application :=
  mkApplication (app_Id a) (app_Name a) (app_Version a) (app_Vendor a) (app_Description a)
    (app_Cores a) (app_Memory a) (app_Ports a) s (app_Source a) (app_EACJsonBlob a)
    (app_CniConf a).

Definition set_source (u : option string) (a : Application) : Application :=
  mkApplication (app_Id a) (app_Name a) (app_Version a) (app_Vendor a) (app_Description a)
    (app_Cores a) (app_Memory a) (app_Ports a) (app_Status a) u (app_EACJsonBlob a)
    (app_CniConf a).

Definition set_id (id : string) (a : Application) : Application :=
  mkApplication id (app_Name a) (app_Version a) (app_Vendor a) (app_Description a)
    (app_Cores a) (app_Memory a) (app_Ports a) (app_Status a) (app_Source a)
    (app_EACJsonBlob a) (app_CniConf a).

(** The types of application. *)
Definition VM : string := "LibvirtDomain".
Definition Container : string := "DockerContainer".

Record AppData := mkAppData {
  ad_Type : string;
  ad_URL : string;
  ad_App : Application;
}.

Record DeployedApp := mkDeployedApp {
  da_Data : AppData;
  da_IsDeployed : bool;
  da_DeployedID : string;
  da_Path : path;
}.

Definition da_App (a : DeployedApp) : Application := ad_App (da_Data a).
Definition da_Type (a : DeployedApp) : string := ad_Type (da_Data a).
Definition da_Id (a : DeployedApp) : string := app_Id (da_App a).
Definition da_Status (a : DeployedApp) : Status := app_Status (da_App a).

(** [a.App.Status = s], [a.DeployedID = id]. *)
Definition with_status (s : Status) (a : DeployedApp) : DeployedApp :=
  mkDeployedApp (mkAppData (da_Type a) (ad_URL (da_Data a)) (set_status s (da_App a)))
    (da_IsDeployed a) (da_DeployedID a) (da_Path a).

Definition with_id (id : string) (a : DeployedApp) : DeployedApp :=
  mkDeployedApp (da_Data a) (da_IsDeployed a) id (da_Path a).

(** ** Transitions *)

(** The statuses that [IsChangeAllowed] lets follow each status. *)
Definition allowed_targets (s : Status) : list Status :=
  match s with
  | READY => [STARTING; UNKNOWN]
  | RUNNING => [STARTING; STOPPING; UNKNOWN]
  | ERROR => [STARTING; UNKNOWN]
  | STOPPED => [STOPPING; STARTING; UNKNOWN]
  | UNKNOWN => [DEPLOYING]
  | _ => []
  end.

Definition IsChangeAllowed (a : DeployedApp) (target : Status) : error :=
  if bool_decide (target ∈ allowed_targets (da_Status a)) then nil_err
  else errors_New ("transition from " +:+ Status_String (da_Status a) +:+ " to "
                   +:+ Status_String target +:+ " is not allowed").

(** ** Files *)

Definition metadataFileName : string := "metadata.json".
Definition deployedFileName : string := "deployed".
Definition imageFileName : string := "image".

Definition appPath (RootPath : path) (appID : string) : path := path_Join RootPath appID.
Definition metadataFilePath (a : DeployedApp) : path := path_Join (da_Path a) metadataFileName.
Definition deployedFilePath (a : DeployedApp) : path := path_Join (da_Path a) deployedFileName.
Definition ImageFilePath (a : DeployedApp) : path := path_Join (da_Path a) imageFileName.

Definition NewDeployedApp (RootPath : path) (appType : string) (app : Application)
    : DeployedApp :=
  mkDeployedApp (mkAppData appType "" (set_status UNKNOWN app)) false ""
    (appPath RootPath (app_Id app)).

(** [json.Unmarshal] into the bootstrap value with the identifier [appID]: an
    empty identifier is left out of the text, and a source that is set cannot
    be read back, its type being an interface. *)
Definition unmarshal_AppData (appID : string) (c : content AppData) : AppData + string :=
  match c with
  | Text _ => inr "invalid character"
  | Doc d =>
      if bool_decide (app_Source (ad_App d) = None) then
        inl (if str_empty (app_Id (ad_App d))
             then mkAppData (ad_Type d) (ad_URL d) (set_id appID (ad_App d)) else d)
      else inr "cannot unmarshal object into Go struct field Application.App.Source"
  end.

(** The text of the file without its last byte, [string(b[0 : num-1])]; an empty
    file makes the bound negative. *)
Definition cut_last_byte (s : string) : outcome string :=
  match s with
  | EmptyString => Panic "slice bounds out of range"
  | _ => Ret (String.substring 0 (String.length s - 1) s)
  end.

Definition newline : string := String (Ascii.ascii_of_nat 10) "".

Definition Load (RootPath : path) (appID : string) : GoM (Fs AppData) (DeployedApp + string) :=
  if str_empty appID then mret (inr "ApplicationID is empty") else
  let p := appPath RootPath appID in
  bytes ← fs_ReadFile (path_Join p metadataFileName);
  match bytes with
  | inr e => mret (inr ("Failed to load metadata file: " +:+ os_text e))
  | inl c =>
      match unmarshal_AppData appID c with
      | inr e => mret (inr ("Failed to unmarshal metadata: " +:+ e))
      | inl d =>
          file ← fs_ReadFile (path_Join p deployedFileName);
          match file with
          | inr ErrNotExist => mret (inl (mkDeployedApp d false "" p))
          | inr _ => mret (inr ("Failed to open " +:+ deployedFileName))
          | inl (Doc _) => mret (inr "Failed to read") (* never written there *)
          | inl (Text t) =>
              match cut_last_byte t with
              | Panic e => go_panic e
              | Ret id => mret (inl (mkDeployedApp d true id p))
              end
          end
      end
  end.

Definition tmpfile (a : DeployedApp) : path := add_suffix (metadataFilePath a) ".tmp".

(** The directory is made unless it is there. *)
Definition make_dir (updateOnly : bool) (a : DeployedApp) : GoM (Fs AppData) error :=
  if updateOnly then mret nil_err else
  r ← fs_Mkdir (da_Path a);
  match r with
  | inl _ | inr ErrExist => mret nil_err
  | inr e => mret (Some ("Could not create App image directory.: " +:+ os_text e))
  end.

Definition Save (updateOnly : bool) (a : DeployedApp) : GoM (Fs AppData) error :=
  err ← make_dir updateOnly a;
  match err with
  | Some err => mret (Some err)
  | None =>
      r ← fs_Create (tmpfile a);
      match r with
      | inr e => mret (Some ("failed to create metadata file: " +:+ os_text e))
      | inl _ =>
          r ← fs_Write (tmpfile a) (Doc (da_Data a));
          match r with
          | inr e => mret (Some (os_text e))
          | inl _ =>
              r ← fs_Rename (tmpfile a) (metadataFilePath a);
              match r with
              | inr e => mret (Some (os_text e))
              | inl _ => mret nil_err
              end
          end
      end
  end.

(** [Save] in the steps between which other goroutines run.  The temporary file
    is written under its name, which is what writing to the open file does as
    long as nobody else renames it. *)
Inductive savePhase := SaveDir | SaveCreate | SaveWrite | SaveRename | SaveEnd.
Record saver := mkSaver { sv_update : bool; sv_app : DeployedApp; sv_phase : savePhase }.

Definition next_phase (v : saver) (ok : bool) (p : savePhase) : saver :=
  mkSaver (sv_update v) (sv_app v) (if ok then p else SaveEnd).
Definition succeeded {A} (r : A + os_error) : bool := match r with inl _ => true | inr _ => false end.

Definition save_step (v : saver) : GoM (Fs AppData) saver :=
  let a := sv_app v in
  match sv_phase v with
  | SaveDir => err ← make_dir (sv_update v) a; mret (next_phase v (bool_decide (err = nil_err)) SaveCreate)
  | SaveCreate => r ← fs_Create (tmpfile a); mret (next_phase v (succeeded r) SaveWrite)
  | SaveWrite => r ← fs_Write (tmpfile a) (Doc (da_Data a)); mret (next_phase v (succeeded r) SaveRename)
  | SaveRename => r ← fs_Rename (tmpfile a) (metadataFilePath a); mret (next_phase v (succeeded r) SaveEnd)
  | SaveEnd => mret v
  end.

(** Several goroutines, in the order in which they take their steps. *)
Fixpoint saves_run (sched : list nat) (vs : list saver) : GoM (Fs AppData) (list saver) :=
  match sched with
  | [] => mret vs
  | i :: sched' =>
      match vs !! i with
      | None => saves_run sched' vs
      | Some v => v' ← save_step v; saves_run sched' (<[i := v']> vs)
      end
  end.

(** The new value of the receiver and the error. *)
Definition SetDeployed (deployedID : string) (a : DeployedApp)
    : GoM (Fs AppData) (DeployedApp * error) :=
  let a := with_id deployedID a in
  r ← fs_Create (deployedFilePath a);
  match r with
  | inr e => mret (a, Some ("failed to create the deployed file: " +:+ os_text e))
  | inl _ =>
      r ← fs_Write (deployedFilePath a) (Text (deployedID +:+ newline));
      mret (a, match r with inr e => Some (os_text e) | inl _ => nil_err end)
  end.

Definition SetUndeployed (a : DeployedApp) : GoM (Fs AppData) error :=
  r ← fs_Remove (deployedFilePath a);
  mret (match r with inr e => Some (os_text e) | inl _ => nil_err end).
