(* ===== verification/EvaEnv.v ===== *)
(** * The surroundings of the virtualization agent

    The configuration of the agent (eva.go) and the programs it drives:
    Docker, libvirt, Open vSwitch, OVN, the CNI plugins and the image servers.
    Each call of one of them is an event of [ext]; [EvaWorld] answers an event
    with a value or an error and may change its own state in doing so.  The
    theorems hold for every such world.  The second part is edgenode/pkg/cni. *)

From S2P Require Import Prelude Strconv GoPath EvaMeta.
From stdpp Require Import prelude strings list gmap.
From Stdlib Require Import ZArith Ascii.

Local Open Scope Z_scope.

(** ** Texts *)

(** [strings.Replace(s, old, new, 1)]. *)
Definition replace_first (s old new : string) : string :=
  match str_index s old with
  | None => s
  | Some i => String.substring 0 i s +:+ new
              +:+ String.substring (i + String.length old)
                    (String.length s - (i + String.length old)) s
  end.

(** [strings.Count(s, sub)] of a text of one byte. *)
Fixpoint count_char (c : ascii) (s : string) : nat :=
  match s with
  | EmptyString => 0
  | String d s' => (if bool_decide (d = c) then 1 else 0) + count_char c s'
  end.

(** [unicode.IsLetter] on the runes of ASCII. *)
Definition is_letter (c : ascii) : bool :=
  let n := nat_of_ascii c in bool_decide (65 ≤ n ≤ 90 ∨ 97 ≤ n ≤ 122)%nat.

Fixpoint has_letter (s : string) : bool :=
  match s with
  | EmptyString => false
  | String c s' => is_letter c || has_letter s'
  end.

(** ** Configuration (eva.go) *)

(** The members of [Config] that the services read. *)
Record EvaConfig := mkEvaConfig {
  cfg_MaxCores : Z;
  cfg_MaxAppMem : Z;
  cfg_AppImageDir : path;
  cfg_AppStartTimeout : Z;
  cfg_AppStopTimeout : Z;
  cfg_AppRestartTimeout : Z;
  cfg_VhostSocket : string;
  cfg_ControllerEndpoint : string;
  cfg_OpenvSwitchBridge : string;
  cfg_OpenvSwitch : bool;
  cfg_KubernetesMode : bool;
  cfg_UseCNI : bool;
}.

(** The checks of [sanitizeConfig]. *)
Definition sanitizeConfig (c : EvaConfig) : error :=
  if str_empty (cfg_ControllerEndpoint c) then errors_New "ControllerEndpoint is not set"
  else if bool_decide (cfg_MaxCores c ≤ 0)
  then errors_New ("MaxCores value invalid: " +:+ Itoa (cfg_MaxCores c))
  else if bool_decide (cfg_MaxAppMem c ≤ 0)
  then errors_New ("MaxCores value invalid: " +:+ Itoa (cfg_MaxAppMem c))
  else nil_err.

(** ** Containers and domains *)

(** [mount.Mount]. *)
Inductive MountType := TypeBind | TypeVolume.

Record Mount := mkMount {
  mount_Type : MountType;
  mount_Source : string;
  mount_Target : string;
  mount_ReadOnly : bool;
}.

(** The members of [container.Config] and [container.HostConfig] that are set. *)
Record ContainerConfig := mkContainerConfig {
  cc_Image : string;
  cc_Cmd : list string;
  cc_Env : list string;
  cc_ExposedPorts : gset string;
}.

Record HostConfig := mkHostConfig {
  hc_Memory : Z;
  hc_NanoCPUs : Z;
  hc_CpusetCpus : string;
  hc_CapAdd : list string;
  hc_Binds : list string;
  hc_NetworkMode : string;
  hc_PortBindings : gmap string (list string);
  hc_Mounts : list Mount;
}.

(** An interface of a domain. *)
Inductive DomainInterface :=
| NetworkIf (network : string)
| VHostUserIf (socket : string)      (* the agent's socket, as a client *)
| OvsIf (socket : path)              (* a socket of Open vSwitch, as a server *)
| BridgeIf (mac bridge interfaceID : string)
| HostdevIf (domain bus slot function : Z).

(** The members of [libvirtxml.Domain] that depend on the application. *)
Record Domain := mkDomain {
  dom_Name : string;
  dom_NumaCPUs : string;
  dom_Memory : Z;
  dom_VCPU : Z;
  dom_VCPUPin : list (Z * string);
  dom_DiskFile : path;
  dom_Interfaces : list DomainInterface;
}.

(** [libvirt.DomainState]. *)
Inductive DomainState :=
| DOMAIN_RUNNING | DOMAIN_SHUTDOWN | DOMAIN_SHUTOFF | DOMAIN_OTHER.

#[export] Instance DomainState_eq_dec : EqDecision DomainState.
Proof. solve_decision. Defined.

(** The answer to [docker.ImageLoad]. *)
Inductive LoadBody :=
| BodyUnreadable (e : string)
| BodyNotJSON (e : string)
| BodyStream (stream : string).

Record ImageLoadResponse := mkImageLoadResponse {
  il_JSON : bool;
  il_Body : LoadBody;
}.

(** ** Events *)

(** A container with the networks it is in, and a lease of an address. *)
Record ContainerSummary := mkContainerSummary {
  cs_ID : string;
  cs_Names : list string;
}.

(** An interface in the description of a running domain: whether it has a
    source and that is a network, and its hardware address. *)
Record IfaceDesc := mkIfaceDesc { if_SourceNetwork : option bool; if_MAC : option string }.

Record Lease := mkLease { ls_Mac : string; ls_IPaddr : string }.

Inductive ext : Type → Type :=
(* HTTP: the status, the bytes of the body and the error that ended them *)
| HttpGet (url : string) : ext (Z * string * error)
(* Docker *)
| DockerNew : ext unit
| ImageLoad (image : content AppData) : ext ImageLoadResponse
| ImageTag (source target : string) : ext unit
| ImageRemove (image : string) : ext unit
| ImageList (reference : string) : ext nat
| ImagePull (reference : string) : ext error
| ContainerCreate (c : ContainerConfig) (h : HostConfig) (name : string) : ext string
| ContainerRemove (id : string) : ext unit
| ContainerStart (id : string) : ext unit
| ContainerStop (id : string) (timeout : Z) : ext unit
| ContainerRestart (id : string) (timeout : Z) : ext unit
| ContainerList (name : string) : ext (list ContainerSummary)
| ContainerInspect (id : string) : ext (option Z)
| ContainerAddresses (id : string) : ext (list string)
(* libvirt: domains are known by the handle that the lookup returns *)
| LibvirtNew : ext unit
| LookupDomain (name : string) : ext Z
| DomainMarshal (d : Domain) : ext unit
| DomainDefine (d : Domain) : ext Z
| DomGetState (dom : Z) : ext DomainState
| DomGetName (dom : Z) : ext string
| DomCreate (dom : Z) : ext unit
| DomDestroy (dom : Z) : ext unit
| DomReboot (dom : Z) : ext unit
| DomShutdown (dom : Z) : ext unit
| DomUndefine (dom : Z) : ext unit
| ListActiveDomains : ext (list Z)
| DHCPLeases : ext (list Lease)
| DomXML (dom : Z) : ext (list IfaceDesc)
(* Open vSwitch and OVN *)
| OvsListBridges : ext (list string)
| OvsAddPort (bridge port : string) : ext unit
| OvsSetInterface (port : string) : ext unit
| OvsdbDial : ext unit
| OvsdbTransact (port : string) (vhostPath : path) : ext unit
| OvsDeletePort (bridge port : string) : ext unit
| OvnCreatePort (lSwitch id : string) : ext string
| OvnDeletePort (id : string) : ext unit
(* a CNI plugin with its environment and standard input *)
| CniExec (plugin : path) (env : list string) (stdin : string) : ext string
(* how often a poll runs before the timer of this duration fires *)
| TimeAfter (d : Z) : ext nat
(* the controller *)
| GetContainerByIP (ip : string) : ext (string + string).

(** An entry of the enhanced configuration of an application. *)
Record EvaFeature := mkEvaFeature { ef_Key : string; ef_Value : string }.

(** The world of the agent.  [parse_features] and [parse_cni_type] are
    [json.Unmarshal] of texts into a list of features and into a structure
    with the member [type]; [NewPort] is the function of go-connections;
    [wide_letter] tells whether a text has a letter outside of ASCII. *)
Class EvaWorld := {
  EXT : Type;
  answer : ∀ {A}, ext A → EXT → (A + string) * EXT;
  parse_features : string → list EvaFeature + string;
  parse_cni_type : string → string + string;
  NewPort : string → string → string + string;
  wide_letter : string → bool;
}.

Section agent.
Context `{EvaWorld}.

(** The state of the agent: its files and the world. *)
Record Eva := mkEva {
  ev_fs : Fs AppData;
  ev_ext : EXT;
}.

Definition call {A} (e : ext A) : GoM Eva (A + string) := λ s,
  let '(r, x) := answer e (ev_ext s) in (Ret r, mkEva (ev_fs s) x).

Definition fs {A} (m : GoM (Fs AppData) A) : GoM Eva A := λ s,
  let '(r, f) := m (ev_fs s) in (r, mkEva f (ev_ext s)).

Definition checkForLetters (input : string) : bool := has_letter input || wide_letter input.

(** Goes on with the value, or returns the error. *)
Definition try {A R} (m : GoM Eva (A + string)) (fail : string → R) (k : A → GoM Eva R)
    : GoM Eva R :=
  r ← m; match r with inr e => mret (fail e) | inl a => k a end.
End agent.

(** * Networks of applications through CNI (edgenode/pkg/cni)

    With CNI an application container shares the network of an infrastructure
    container, which this package creates, starts, stops and removes, and for
    which it runs the configured plugin.  A log line that prints the first
    eight bytes of an identifier panics on a shorter one. *)

(** [s[:8]] in the arguments of a log call. *)
Definition log8 {S A} (s : string) (k : GoM S A) : GoM S A :=
  if bool_decide (String.length s < 8)%nat then go_panic "slice bounds out of range" else k.

(** ** Arguments (ovncni.go) *)

(** The loop of [GetCNIArg]: the value of the first entry [key=value]. *)
Fixpoint find_arg (prefix : string) (args : list string) : option string :=
  match args with
  | [] => None
  | arg :: args' => match Strconv.strip_prefix prefix arg with
                    | Some v => Some v
                    | None => find_arg prefix args'
                    end
  end.

Definition GetCNIArg (key cniArgs : string) : string + string :=
  match find_arg (key +:+ "=") (strings_Split cniArgs ";") with
  | Some v => inl v
  | None => inr (key +:+ " not found in CNI args: " +:+ cniArgs)
  end.

Definition DefaultOvsBrName : string := "br-int".

(** ** The infrastructure container (infrastructure_container.go) *)

Definition infraContainerImageRef : string := "gcr.io/google-containers/pause:3.1".

Record InfrastructureContainerInfo := mkInfra {
  ic_ID : string;
  ic_PID : Z;
  ic_AppID : string;
  ic_Name : string;
  ic_docker : bool;
}.

Definition NewInfrastructureContainerInfo (appID : string) : InfrastructureContainerInfo :=
  mkInfra "" 0 appID ("OPENNESS-CNI-INFRASTRUCTURE_" +:+ appID) false.

Definition ic_set_ID (id : string) (i : InfrastructureContainerInfo) :=
  mkInfra id (ic_PID i) (ic_AppID i) (ic_Name i) (ic_docker i).
Definition ic_set_PID (pid : Z) (i : InfrastructureContainerInfo) :=
  mkInfra (ic_ID i) pid (ic_AppID i) (ic_Name i) (ic_docker i).
Definition ic_set_docker (i : InfrastructureContainerInfo) :=
  mkInfra (ic_ID i) (ic_PID i) (ic_AppID i) (ic_Name i) true.

Section cni.
Context `{EvaWorld}.

(** Methods return the new value of the receiver, or an error. *)
Abbreviation IC := (GoM Eva (InfrastructureContainerInfo + string)).

Definition createDockerClient (i : InfrastructureContainerInfo) : IC :=
  if ic_docker i then mret (inl i)
  else try (call DockerNew) inr (λ _, mret (inl (ic_set_docker i))).

Definition obtainContainerID (i : InfrastructureContainerInfo) : IC :=
  try (call (ContainerList (ic_Name i))) inr (λ l,
    mret (inl (match l with [] => i | c :: _ => ic_set_ID (cs_ID c) i end))).

Definition obtainContainerPID (i : InfrastructureContainerInfo) : IC :=
  if str_empty (ic_ID i) then mret (inl i)
  else try (call (ContainerInspect (ic_ID i))) inr (λ running,
    mret (inl (match running with Some pid => ic_set_PID pid i | None => i end))).

Definition QueryDocker (i : InfrastructureContainerInfo) : IC :=
  try (createDockerClient i) inr (λ i,
  try (obtainContainerID i) inr obtainContainerPID).

Definition makeSureInfraContainerImageExists : GoM Eva error :=
  try (call (ImageList infraContainerImageRef)) Some (λ n,
  if bool_decide (n = 0%nat)
  then try (call (ImagePull infraContainerImageRef)) Some mret
  else mret nil_err).

Definition infra_config : ContainerConfig :=
  mkContainerConfig infraContainerImageRef [] [] ∅.
Definition infra_host : HostConfig := mkHostConfig 0 0 "" [] [] "none" ∅ [].

Definition infra_Create (i : InfrastructureContainerInfo) : IC :=
  try (QueryDocker i) inr (λ i,
  err ← makeSureInfraContainerImageExists;
  match err with
  | Some err => mret (inr err)
  | None =>
      try (obtainContainerID i) inr (λ i,
      if str_empty (ic_ID i) then
        try (call (ContainerCreate infra_config infra_host (ic_Name i))) inr (λ id,
        log8 id (mret (inl (ic_set_ID id i))))
      else mret (inl i))
  end).

Definition infra_Start (i : InfrastructureContainerInfo) : IC :=
  try (QueryDocker i) inr (λ i,
  if bool_decide (ic_PID i = 0) then
    r ← call (ContainerStart (ic_ID i));
    match r with
    | inr e => log8 (ic_ID i) (mret (inr e))
    | inl _ =>
        r ← obtainContainerPID i;
        match r with
        | inr e => log8 (ic_ID i) (mret (inr e))
        | inl i => log8 (ic_ID i) (mret (inl i))
        end
    end
  else log8 (ic_ID i) (mret (inl i))).

Definition infra_Stop (i : InfrastructureContainerInfo) : IC :=
  try (QueryDocker i) inr (λ i,
  if str_empty (ic_ID i) then mret (inl i)
  else log8 (ic_ID i) (
       try (call (ContainerStop (ic_ID i) 10)) inr (λ _, log8 (ic_ID i) (mret (inl i))))).

Definition infra_Remove (i : InfrastructureContainerInfo) : IC :=
  try (QueryDocker i) inr (λ i,
  if str_empty (ic_ID i) then mret (inl i)
  else log8 (ic_ID i) (
       try (call (ContainerRemove (ic_ID i))) inr (λ _, log8 (ic_ID i) (mret (inl i))))).

(** ** Running the plugin (cni_invoke.go) *)

(** The actions that the agent asks for. *)
Inductive Action := Add | Del.

Definition Action_String (a : Action) : string := match a with Add => "ADD" | Del => "DEL" end.

Definition GetTypeFromCNIConfig (cniConfig : string) : string + string :=
  match parse_cni_type cniConfig with
  | inr e => inr e
  | inl t => if str_empty t then inr "CNI type not found or empty" else inl t
  end.

Definition constructEnvs (i : InfrastructureContainerInfo) (c : CNIConf) (a : Action)
    : list string :=
  ["CNI_CONTAINERID=" +:+ ic_ID i;
   "CNI_NETNS=/proc/" +:+ Itoa (ic_PID i) +:+ "/ns/net";
   "CNI_COMMAND=" +:+ Action_String a;
   "CNI_ARGS=" +:+ CniArgs c;
   "CNI_PATH=" +:+ CniPath c;
   "CNI_IFNAME=" +:+ InterfaceName c].

Definition Invoke (i : InfrastructureContainerInfo) (c : CNIConf) (a : Action)
    : GoM Eva (string + string) :=
  match GetTypeFromCNIConfig (CniConfig c) with
  | inr e => mret (inr e)
  | inl t => call (CniExec (path_Join ["";"opt";"cni";"bin"] t) (constructEnvs i c a) (CniConfig c))
  end.

(** ** Ports and containers of applications (cni_helpers.go) *)

Definition OVN : string := "ovn".

Definition OVNCNICreatePort (app : Application) (c : CNIConf) : GoM Eva (string + string) :=
  match GetCNIArg "subnetID" (CniArgs c) with
  | inr e => mret (inr ("failed to get subnetID from CNI args: " +:+ e))
  | inl lSwitch =>
      try (call (OvnCreatePort lSwitch (app_Id app)))
        (λ e, inr ("failed to create OVN port: " +:+ e)) (λ port, mret (inl port))
  end.

Definition OVNCNIDeletePort (app : Application) : GoM Eva error :=
  try (call (OvnDeletePort (app_Id app)))
    (λ e, Some ("failed to delete OVN port: " +:+ e)) (λ _, mret nil_err).

Definition CreateInfrastructureContainer (app : Application) : GoM Eva (string + string) :=
  match app_CniConf app with
  | None => mret (inr "received nil args")
  | Some c =>
      match GetTypeFromCNIConfig (CniConfig c) with
      | inr e => mret (inr e)
      | inl t =>
          r ← (if bool_decide (t = OVN) then OVNCNICreatePort app c else mret (inl ""));
          match r with
          | inr e => mret (inr e)
          | inl _ =>
              try (infra_Create (NewInfrastructureContainerInfo (app_Id app))) inr (λ i,
              mret (inl (ic_ID i)))
          end
      end
  end.

Definition RemoveInfrastructureContainer (app : Application) : GoM Eva error :=
  match app_CniConf app with
  | None => mret (Some "received nil args")
  | Some c =>
      match GetTypeFromCNIConfig (CniConfig c) with
      | inr e => mret (Some e)
      | inl t =>
          err ← (if bool_decide (t = OVN) then OVNCNIDeletePort app else mret nil_err);
          match err with
          | Some err => mret (Some err)
          | None => try (infra_Remove (NewInfrastructureContainerInfo (app_Id app))) Some
                      (λ _, mret nil_err)
          end
      end
  end.

Definition StartInfrastructureContainer (app : Application) : GoM Eva error :=
  match app_CniConf app with
  | None => mret (Some "received nil arg")
  | Some c =>
      try (infra_Start (NewInfrastructureContainerInfo (app_Id app))) Some (λ i,
      try (Invoke i c Add) Some (λ _, mret nil_err))
  end.

Definition StopInfrastructureContainer (app : Application) : GoM Eva error :=
  match app_CniConf app with
  | None => mret (Some "received nil arg")
  | Some c =>
      try (QueryDocker (NewInfrastructureContainerInfo (app_Id app))) Some (λ i,
      try (Invoke i c Del) Some (λ _,
      try (infra_Stop i) Some (λ _, mret nil_err)))
  end.
End cni.
