(* ===== verification/EvaDeploy.v ===== *)
(** * Deploying applications (edgenode/pkg/eva/eva_deploy.go)

    The deployment service: it checks a request, answers it and does the work
    in a goroutine: fetching the image, loading it into Docker or defining a
    libvirt domain, and recording the outcome in the metadata.  The goroutine
    that a call starts is a [task] (EvaLife.v); here are the functions it runs. *)

From S2P Require Import Prelude Strconv GoNet GoPath EvaMeta EvaEnv.
From stdpp Require Import prelude strings list gmap.
From Stdlib Require Import ZArith Ascii.

Local Open Scope Z_scope.

(** ** Errors of calls *)

Inductive rpc_code := Unknown | AlreadyExists | Unimplemented | FailedPrecondition | NotFound.

Record rpc_error := mkRpcError { re_code : rpc_code; re_msg : string }.

Definition plain_error (msg : string) : rpc_error := mkRpcError Unknown msg.

(** ** Enhanced configuration of containers *)

Section features.
Context `{EvaWorld}.

Definition hc_set_Binds b h := mkHostConfig (hc_Memory h) (hc_NanoCPUs h) (hc_CpusetCpus h)
  (hc_CapAdd h) b (hc_NetworkMode h) (hc_PortBindings h) (hc_Mounts h).
Definition hc_set_CpusetCpus c h := mkHostConfig (hc_Memory h) (hc_NanoCPUs h) c
  (hc_CapAdd h) (hc_Binds h) (hc_NetworkMode h) (hc_PortBindings h) (hc_Mounts h).
Definition hc_set_NetworkMode n h := mkHostConfig (hc_Memory h) (hc_NanoCPUs h)
  (hc_CpusetCpus h) (hc_CapAdd h) (hc_Binds h) n (hc_PortBindings h) (hc_Mounts h).
Definition hc_set_PortBindings p h := mkHostConfig (hc_Memory h) (hc_NanoCPUs h)
  (hc_CpusetCpus h) (hc_CapAdd h) (hc_Binds h) (hc_NetworkMode h) p (hc_Mounts h).
Definition hc_set_Mounts m h := mkHostConfig (hc_Memory h) (hc_NanoCPUs h) (hc_CpusetCpus h)
  (hc_CapAdd h) (hc_Binds h) (hc_NetworkMode h) (hc_PortBindings h) m.
Definition cc_set_Cmd x c := mkContainerConfig (cc_Image c) x (cc_Env c) (cc_ExposedPorts c).
Definition cc_set_Env e c := mkContainerConfig (cc_Image c) (cc_Cmd c) e (cc_ExposedPorts c).
Definition cc_set_ExposedPorts p c := mkContainerConfig (cc_Image c) (cc_Cmd c) (cc_Env c) p.

Definition handleHddl (value : string) (h : HostConfig) : HostConfig :=
  if bool_decide (ToLower value ∈ ["on"; "yes"; "enabled"; "y"; "true"])
  then hc_set_Binds (hc_Binds h ++ ["/var/tmp:/var/tmp"; "/dev/shm:/dev/shm"]) h
  else h.

(** A list and a range together are refused, and so are letters. *)
Definition cpu_list_ok (value : string) : bool :=
  negb (str_contains value "," && str_contains value "-") && negb (checkForLetters value).

Definition handleCPUPinContainer (value : string) (h : HostConfig) : HostConfig :=
  if cpu_list_ok value then hc_set_CpusetCpus value h else h.

Definition env_setting_ok (setting : string) : bool :=
  bool_decide (count_char "=" setting = 1%nat)
  && bool_decide (str_index setting "=" ≠ Some 0%nat)
  && bool_decide (str_index setting "=" ≠ Some (String.length setting - 1)%nat).

Definition handleEnvVars (value : string) (c : ContainerConfig) : ContainerConfig :=
  cc_set_Env (cc_Env c ++ List.filter env_setting_ok (strings_Split value ";")) c.

Definition handleCmd (cmd : string) (c : ContainerConfig) : ContainerConfig :=
  if str_empty cmd then c else cc_set_Cmd (strings_Split cmd " ") c.

Definition parse_mount (m : string) : option Mount :=
  match strings_Split m "," with
  | [t; source; target; ro] =>
      if bool_decide (ToLower t = "bind")
      then Some (mkMount TypeBind source target (bool_decide (ro = "true")))
      else if bool_decide (ToLower t = "volume")
      then Some (mkMount TypeVolume source target (bool_decide (ro = "true")))
      else None
  | _ => None
  end.

Definition handleMountContainer (value : string) (h : HostConfig) : HostConfig :=
  if str_empty value then h
  else hc_set_Mounts (hc_Mounts h ++ omap parse_mount (strings_Split value ";")) h.

Definition handleContainerNicSriov (value : string) (h : HostConfig) : HostConfig :=
  if str_empty value then h else hc_set_NetworkMode value h.

(** The loop of [processPorts]; a port that go-connections refuses ends it. *)
Fixpoint processPorts (ports : list EvaPort) (h : HostConfig) (c : ContainerConfig)
    : HostConfig * ContainerConfig :=
  match ports with
  | [] => (h, c)
  | p :: ports' =>
      if bool_decide (ep_Port p < 1) || str_empty (ep_Protocol p) then processPorts ports' h c
      else
        match NewPort (ep_Protocol p) (Itoa (ep_Port p)) with
        | inr _ => (h, c)
        | inl port =>
            processPorts ports'
              (hc_set_PortBindings
                 (<[port := default [] (hc_PortBindings h !! port) ++ [Itoa (ep_Port p)]]>
                    (hc_PortBindings h)) h)
              (cc_set_ExposedPorts ({[port]} ∪ cc_ExposedPorts c) c)
        end
  end.

(** The handler of [EACHandlersDocker] for one entry. *)
Definition eac_docker (f : EvaFeature) (hc : HostConfig * ContainerConfig)
    : HostConfig * ContainerConfig :=
  let '(h, c) := hc in
  let v := ef_Value f in
  if bool_decide (ef_Key f = "hddl") then (handleHddl v h, c)
  else if bool_decide (ef_Key f = "env_vars") then (h, handleEnvVars v c)
  else if bool_decide (ef_Key f = "cmd") then (h, handleCmd v c)
  else if bool_decide (ef_Key f = "mount") then (handleMountContainer v h, c)
  else if bool_decide (ef_Key f = "cpu_pin") then (handleCPUPinContainer v h, c)
  else if bool_decide (ef_Key f = "sriov_nic") then (handleContainerNicSriov v h, c)
  else (h, c).

(** ** Enhanced configuration of domains *)

Definition dom_set_VCPUPin p d := mkDomain (dom_Name d) (dom_NumaCPUs d) (dom_Memory d)
  (dom_VCPU d) p (dom_DiskFile d) (dom_Interfaces d).
Definition dom_set_Interfaces i d := mkDomain (dom_Name d) (dom_NumaCPUs d) (dom_Memory d)
  (dom_VCPU d) (dom_VCPUPin d) (dom_DiskFile d) i.

Definition handleCPUPinVM (value : string) (d : Domain) : Domain :=
  if cpu_list_ok value
  then dom_set_VCPUPin (dom_VCPUPin d
         ++ ((λ i, (Z.of_nat i, value)) <$> seq 0 (Z.to_nat (dom_VCPU d)))) d
  else d.

(** [strconv.ParseUint(s, 16, 0)] of a text of at most sixteen digits. *)
Fixpoint parse_hex (s : string) (acc : Z) : option Z :=
  match s with
  | EmptyString => Some acc
  | String c s' => match hex_of c with
                   | Some d => parse_hex s' (acc * 16 + d)
                   | None => None
                   end
  end.

(** A part of an address: [len] hexadecimal digits. *)
Definition hex_part (len : nat) (s : string) : option Z :=
  if bool_decide (String.length s = len) then parse_hex s 0 else None.

(** The address [domain:bus:slot.function]. *)
Definition parse_pci (value : string) : option (Z * Z * Z * Z) :=
  match strings_Split value ":" with
  | [domain; bus; sf] =>
      domain ← hex_part 4 domain;
      bus ← hex_part 2 bus;
      match strings_Split sf "." with
      | [slot; function] =>
          slot ← hex_part 2 slot;
          function ← hex_part 1 function;
          Some (domain, bus, slot, function)
      | _ => None
      end
  | _ => None
  end.

Definition handleVMNicSriov (value : string) (d : Domain) : Domain :=
  if str_empty value then d
  else match parse_pci value with
       | Some (domain, bus, slot, function) =>
           dom_set_Interfaces (dom_Interfaces d ++ [HostdevIf domain bus slot function]) d
       | None => d
       end.

(** The handler of [EACHandlersVM] for one entry. *)
Definition eac_vm (f : EvaFeature) (d : Domain) : Domain :=
  if bool_decide (ef_Key f = "cpu_pin") then handleCPUPinVM (ef_Value f) d
  else if bool_decide (ef_Key f = "sriov_nic") then handleVMNicSriov (ef_Value f) d
  else d.

(** A text that is no list of features changes nothing. *)
Definition processEAC {C} (handler : EvaFeature → C → C) (EACJson : string) (cfg : C) : C :=
  match parse_features EACJson with
  | inr _ => cfg
  | inl fs => fold_left (λ c f, handler f c) fs cfg
  end.

(** ** Checks *)

(** [regexp.MustCompile("^" + scheme + "//.")]. *)
Definition url_match (scheme url : string) : bool :=
  match Strconv.strip_prefix (scheme +:+ "://") url with
  | Some (String c _) => bool_decide (String c "" ≠ newline)
  | _ => false
  end.

Definition insecure : string :=
  "HTTP image path unsupported as insecure, please use HTTPS".

Context (cfg : EvaConfig).

Definition RootPath : path := cfg_AppImageDir cfg.

Definition checkIfAppNotDeployed (id : string) : GoM Eva (option rpc_error) :=
  r ← fs (Load RootPath id);
  match r with
  | inl app2 => if da_IsDeployed app2
                then mret (Some (mkRpcError AlreadyExists ("app " +:+ id +:+ " already deployed")))
                else mret None
  | inr _ => mret None
  end.

(** The new value of the application, or an error. *)
Definition checkDeployPreconditions (dapp : DeployedApp) : DeployedApp + string :=
  let app := da_App dapp in
  if bool_decide (app_Cores app ≤ 0)
  then inr ("Cores value incorrect: " +:+ Itoa (app_Cores app))
  else if bool_decide (cfg_MaxCores cfg < app_Cores app)
  then inr ("Cores value over limit: " +:+ Itoa (app_Cores app) +:+ " > "
            +:+ Itoa (cfg_MaxCores cfg))
  else if bool_decide (app_Memory app ≤ 0)
  then inr ("Memory value incorrect: " +:+ Itoa (app_Memory app))
  else if bool_decide (cfg_MaxAppMem cfg < app_Memory app)
  then inr ("Memory value over limit: " +:+ Itoa (app_Memory app) +:+ " > "
            +:+ Itoa (cfg_MaxAppMem cfg))
  else match app_Source app with
       | None => inr "unknown app source"
       | Some uri =>
           if url_match "http" uri then inr insecure
           else inl (mkDeployedApp (mkAppData (da_Type dapp) uri (set_source None app))
                       (da_IsDeployed dapp) (da_DeployedID dapp) (da_Path dapp))
       end.

(** ** Images *)

(** Creates the file and copies into it; [err] is the error of the reader. *)
Definition copy_file (target : path) (c : content AppData) (err : error)
    : GoM (Fs AppData) error :=
  r ← fs_Create target;
  match r with
  | inr e => mret (Some ("Failed to create image file: " +:+ os_text e))
  | inl _ =>
      r ← fs_Write target c;
      mret (match err, r with
            | Some e, _ => Some e
            | None, inr e => Some (os_text e)
            | None, inl _ => nil_err
            end)
  end.

Definition downloadImage (url : string) (target : path) : GoM Eva error :=
  if url_match "http" url then mret (Some insecure)
  else if url_match "https" url then
    try (call (HttpGet url)) Some (λ '(code, body, err),
    if bool_decide (code ≠ 200)
    then mret (Some ("unexpected HTTP code " +:+ Itoa code +:+ " returned"))
    else fs (copy_file target (Text body) err))
  else
    r ← fs (fs_Open (Clean url));
    match r with
    | inr e => mret (Some (os_text e))
    | inl _ =>
        r ← fs (fs_ReadFile (Clean url));
        match r with
        | inr e => fs (copy_file target (Text "") (Some (os_text e)))
        | inl c => (* creating the target empties it *)
            fs (copy_file target (if bool_decide (Clean url = target) then Text "" else c) nil_err)
        end
    end.

(** The name that Docker reports for a loaded image and whether it is a tag. *)
Definition parseImageName (body : LoadBody) : outcome (string * bool + string) :=
  match body with
  | BodyUnreadable e => Ret (inr ("failed to read JSON from docker.ImageLoad(): " +:+ e))
  | BodyNotJSON e => Ret (inr ("failed to parse docker image name: " +:+ e))
  | BodyStream stream =>
      if str_empty stream then Ret (inr "failed to parse docker image name: stream empty")
      else if negb (str_contains stream "Loaded image")
      then Ret (inr "failed to parse docker image name: stream malformed")
      else
        let out := replace_first stream "Loaded image ID: " "" in
        let hadTag := str_contains out "Loaded image: " in
        let out := if hadTag then replace_first out "Loaded image: " "" else out in
        match cut_last_byte out with
        | Panic e => Panic e
        | Ret out => Ret (inl (out, hadTag))
        end
  end.

Definition loadImage (dapp : DeployedApp) : GoM Eva error :=
  file ← fs (fs_ReadFile (ImageFilePath dapp));
  match file with
  | inr e => mret (Some ("Failed to open image file: " +:+ os_text e))
  | inl image =>
      try (call (ImageLoad image))
        (λ e, Some ("Failed to ImageLoad() the docker image: " +:+ e)) (λ resp,
      if negb (il_JSON resp) then mret (Some ("No JSON output loading app " +:+ da_Id dapp))
      else
        match parseImageName (il_Body resp) with
        | Panic e => go_panic e
        | Ret (inr e) => mret (Some e)
        | Ret (inl (imageName, hadTag)) =>
            try (call (ImageTag imageName (da_Id dapp))) Some (λ _,
            if hadTag : bool
            then try (call (ImageRemove imageName)) Some (λ _, mret nil_err)
            else mret nil_err)
        end)
  end.

(** ** Deploying *)

(** The goroutine works on the application it captured: its state is the agent
    and that application. *)
Abbreviation Job := (GoM (Eva * DeployedApp)).

Definition on_eva {A} (m : GoM Eva A) : Job A := λ '(s, d),
  let '(r, s') := m s in (r, (s', d)).

Definition get_dapp : Job DeployedApp := λ '(s, d), (Ret d, (s, d)).
Definition put_status (st : Status) : Job unit := λ '(s, d), (Ret tt, (s, with_status st d)).

Definition job_SetDeployed (id : string) : Job error := λ '(s, d),
  match fs (SetDeployed id d) s with
  | (Ret (d', err), s') => (Ret err, (s', d'))
  | (Panic e, s') => (Panic e, (s', d))
  end.

(** [defer func() { dapp.Save(true) }()]: also when the goroutine panics. *)
Definition with_final_save (job : Job unit) (dapp : DeployedApp) : GoM Eva unit := λ s,
  let '(r, (s', d)) := job (s, dapp) in
  match fs (Save true d) s' with
  | (Ret _, s'') => (r, s'')
  | (Panic e, s'') => (Panic e, s'')
  end.

(** [if err := m; err != nil { status = ERROR; return }]. *)
Definition or_error (m : Job error) (k : Job unit) : Job unit :=
  err ← m;
  match err with
  | Some _ => put_status ERROR
  | None => k
  end.

(** [if err := m; err != nil { return }]. *)
Definition or_return (m : Job error) (k : Job unit) : Job unit :=
  err ← m;
  match err with
  | Some _ => mret tt
  | None => k
  end.

Definition of_call {A} (m : GoM Eva (A + string)) : Job error :=
  on_eva (try m Some (λ _, mret nil_err)).

Definition deployCommon : Job error :=
  put_status DEPLOYING ;;
  d ← get_dapp;
  on_eva (
    err ← fs (Save false d);
    match err with
    | Some err => mret (Some ("metadata save failed: " +:+ err))
    | None => downloadImage (ad_URL (da_Data d)) (ImageFilePath d)
    end).

(** The resources of a container: 64-bit numbers of bytes and nano CPUs. *)
Definition container_host (app : Application) : HostConfig :=
  mkHostConfig (wrap_int (wrap_int (app_Memory app * 1024) * 1024))
    (wrap_int (app_Cores app * 1000000000)) "" ["NET_ADMIN"] [] "" ∅ [].

Definition create_container (app : Application) (h : HostConfig) : Job unit :=
  let '(h, c) := processEAC eac_docker (app_EACJsonBlob app)
                   (processPorts (app_Ports app) h (mkContainerConfig (app_Id app) [] [] ∅)) in
  r ← on_eva (call (ContainerCreate c h (app_Id app)));
  match r with
  | inr _ => mret tt
  | inl id => or_return (job_SetDeployed id) (put_status READY)
  end.

Definition deploy_container_job : Job unit :=
  or_error deployCommon (
  or_error (of_call (call DockerNew)) (
  d ← get_dapp;
  or_error (on_eva (loadImage d)) (
  put_status ERROR ;;
  if cfg_KubernetesMode cfg then or_return (job_SetDeployed "") (put_status READY)
  else
    let app := da_App d in
    if cfg_UseCNI cfg then
      r ← on_eva (CreateInfrastructureContainer app);
      match r with
      | inr _ => mret tt
      | inl id => create_container app
                    (hc_set_NetworkMode ("container:" +:+ id) (container_host app))
      end
    else create_container app (container_host app)))).

Definition syncDeployContainer : DeployedApp → GoM Eva unit :=
  with_final_save deploy_container_job.

(** ** Domains *)

(** [math.Ceil(float64(m)/2) * 2]; 32-bit integers are exact as floats. *)
Definition mem_rounded (m : Z) : Z := (m + 1) / 2 * 2.

Definition createDomainCfg (dapp : DeployedApp) : Domain :=
  let app := da_App dapp in
  mkDomain (app_Id app) ("0-" +:+ Itoa (app_Cores app - 1)) (mem_rounded (app_Memory app))
    (app_Cores app) [] (ImageFilePath dapp) [].

Definition isOVSBridgeCreated (name : string) : GoM Eva (bool + string) :=
  try (call OvsListBridges) inr (λ l, mret (inl (bool_decide (name ∈ l)))).

Definition port_name (bridgeName id : string) : string := bridgeName +:+ "-" +:+ id.
Definition ovs_socket (port : string) : path :=
  path_Join ["";"tmp";"openvswitch"] (port +:+ ".sock").

(** [errors.Wrap(nil, ...)] is nil: a missing bridge is no error. *)
Definition addOVSPort (bridgeName id : string) : GoM Eva error :=
  let port := port_name bridgeName id in
  try (isOVSBridgeCreated bridgeName)
    (λ e, Some ("Couldn't check status of bridge: " +:+ bridgeName +:+ ": " +:+ e)) (λ created,
  if created : bool then
    try (call (OvsAddPort bridgeName port))
      (λ e, Some ("Couldn't attach OVS port " +:+ port +:+ " : " +:+ e)) (λ _,
    try (call (OvsSetInterface port))
      (λ e, Some ("Couldn't set interface dpdk type: " +:+ e)) (λ _,
    try (call OvsdbDial) (λ e, Some ("Failed to connect to ovsdb: " +:+ e)) (λ _,
    try (call (OvsdbTransact port (ovs_socket port)))
      (λ e, Some ("db.Transact() failure: " +:+ e)) (λ _, mret nil_err))))
  else mret nil_err).

Definition removeOVSPort (bridgeName id : string) : GoM Eva error :=
  let port := port_name bridgeName id in
  try (call (OvsDeletePort bridgeName port))
    (λ e, Some ("Couldn't remove OVS port " +:+ port +:+ " : " +:+ e)) (λ _, mret nil_err).

Definition add_if (i : DomainInterface) (d : Domain) : Domain :=
  dom_set_Interfaces (dom_Interfaces d ++ [i]) d.

(** The part of [configureIfs] on Open vSwitch. *)
Definition configure_ovs (app : Application) (d : Domain) : Job Domain :=
  if cfg_OpenvSwitch cfg then
    on_eva (addOVSPort (cfg_OpenvSwitchBridge cfg) (app_Id app)) ;;
    mret (add_if (OvsIf (ovs_socket (port_name (cfg_OpenvSwitchBridge cfg) (app_Id app)))) d)
  else mret d.

(** An error of CNI sets the status and ends the function, not the job. *)
Definition configureIfs (domcfg : Domain) : Job Domain :=
  dapp ← get_dapp;
  let app := da_App dapp in
  if cfg_UseCNI cfg then
    match app_CniConf app with
    | None => go_panic "nil pointer dereference"
    | Some c =>
        match GetTypeFromCNIConfig (CniConfig c) with
        | inr _ => put_status ERROR ;; mret domcfg
        | inl t =>
            if bool_decide (t = OVN) then
              port ← on_eva (OVNCNICreatePort app c);
              match port with
              | inr _ => put_status ERROR ;; mret domcfg
              | inl mac =>
                  let bridge := match GetCNIArg "ovsBrName" (CniArgs c) with
                                | inl b => b
                                | inr _ => DefaultOvsBrName
                                end in
                  configure_ovs app (add_if (BridgeIf mac bridge (app_Id app)) domcfg)
              end
            else configure_ovs app domcfg
        end
    end
  else configure_ovs app (add_if (VHostUserIf (cfg_VhostSocket cfg))
                            (add_if (NetworkIf "default") domcfg)).

Definition deploy_vm_job : Job unit :=
  or_error deployCommon (
  or_error (of_call (call LibvirtNew)) (
  d ← get_dapp;
  domcfg ← configureIfs (createDomainCfg d);
  let domcfg := processEAC eac_vm (app_EACJsonBlob (da_App d)) domcfg in
  or_error (of_call (call (DomainMarshal domcfg))) (
  r ← on_eva (call (DomainDefine domcfg));
  match r with
  | inr _ => put_status ERROR
  | inl dom =>
      on_eva (call (DomGetName dom)) ;;
      or_return (job_SetDeployed (da_Id d)) (put_status READY)
  end))).

Definition syncDeployVM : DeployedApp → GoM Eva unit := with_final_save deploy_vm_job.

(** ** Undeploying *)

Definition unless (m k : GoM Eva error) : GoM Eva error :=
  err ← m; match err with Some err => mret (Some err) | None => k end.

Definition dockerUndeploy (dapp : DeployedApp) : GoM Eva error :=
  try (call DockerNew) (λ e, Some ("Failed to create a docker client: " +:+ e)) (λ _,
  unless (if str_empty (da_DeployedID dapp) then mret nil_err
          else try (call (ContainerRemove (da_DeployedID dapp)))
                 (λ e, Some ("Undeploy(" +:+ da_DeployedID dapp +:+ "): " +:+ e))
                 (λ _, mret nil_err)) (
  try (call (ImageRemove (da_Id dapp)))
    (λ e, Some ("ImageRemove(" +:+ da_Id dapp +:+ ") failed: " +:+ e)) (λ _,
  (if cfg_UseCNI cfg then RemoveInfrastructureContainer (da_App dapp) else mret nil_err) ;;
  fs (SetUndeployed dapp)))).

(** Deletes the OVN port of an application whose plugin is OVN; the error of the
    deletion is only logged. *)
Definition drop_ovn_port (app : Application) (bad : string → GoM Eva error) : GoM Eva error :=
  match app_CniConf app with
  | None => go_panic "nil pointer dereference"
  | Some c =>
      match GetTypeFromCNIConfig (CniConfig c) with
      | inr e => bad e
      | inl t => if bool_decide (t = OVN) then OVNCNIDeletePort app ;; mret nil_err
                 else mret nil_err
      end
  end.

Definition removePorts (dapp : DeployedApp) : GoM Eva error :=
  (if cfg_OpenvSwitch cfg then removeOVSPort (cfg_OpenvSwitchBridge cfg) (da_Id dapp)
   else mret nil_err) ;;
  if cfg_UseCNI cfg
  then drop_ovn_port (da_App dapp)
         (λ e, mret (Some ("failed to get CNI type from CniConfig: " +:+ e)))
  else mret nil_err.

Definition libvirtUndeploy (dapp : DeployedApp) : GoM Eva error :=
  try (call LibvirtNew) Some (λ _,
  try (call (LookupDomain (da_Id dapp))) Some (λ dom,
  state ← call (DomGetState dom);
  unless (match state with
          | inl DOMAIN_RUNNING =>
              try (call (DomDestroy dom))
                (λ e, Some ("Failed to destroy '" +:+ da_Id dapp +:+ "': " +:+ e))
                (λ _, mret nil_err)
          | _ => mret nil_err
          end) (
  try (call (DomUndefine dom))
    (λ e, Some ("Failed to undefine '" +:+ da_Id dapp +:+ "': " +:+ e)) (λ _,
  unless (removePorts dapp) (fs (SetUndeployed dapp)))))).

(** The error reports a failed removal; an unknown type is none. *)
Definition syncUndeploy (dapp : DeployedApp) : GoM Eva error :=
  if bool_decide (da_Type dapp ≠ Container ∧ da_Type dapp ≠ VM) then mret nil_err
  else
    err ← (if bool_decide (da_Type dapp = Container) then dockerUndeploy dapp
           else libvirtUndeploy dapp);
    match err with
    | Some err => fs (Save true (with_status ERROR dapp)) ;; mret (Some err)
    | None => fs (fs_RemoveAll (da_Path dapp)) ;; mret nil_err
    end.

Definition syncRedeploy (dapp : DeployedApp) : GoM Eva unit :=
  err ← syncUndeploy dapp;
  match err with
  | Some _ => mret tt
  | None => if bool_decide (da_Type dapp = Container) then syncDeployContainer dapp
            else if bool_decide (da_Type dapp = VM) then syncDeployVM dapp
            else mret tt
  end.
End features.
