(* ===== verification/EvaLife.v ===== *)
(** * Life cycle of applications (edgenode/pkg/eva)

    The lifecycle service (application_lifecycle_service.go), the calls of the
    deployment service (eva_deploy.go), the lookup of applications by address
    (appid_provider.go) and the agent as a whole.  A call checks the stored
    metadata, answers and leaves the work to a goroutine, here a [task]; the
    agent runs its tasks in any order and at any time between calls, each call
    and each task being one step.  A panic that no one recovers ends the
    process: the agent starts again without its tasks. *)

From S2P Require Import Prelude Strconv GoNet GoPath EvaMeta EvaEnv EvaDeploy.
From stdpp Require Import prelude strings list gmap.
From Stdlib Require Import ZArith.

Local Open Scope Z_scope.

Section service.
Context `{EvaWorld}.
Context (cfg : EvaConfig).

(** ** Handlers *)

Definition updateStatus (m : DeployedApp) (st : Status) : GoM Eva error :=
  fs (Save true (with_status st m)).

Definition container_StartHandler (m : DeployedApp) : GoM Eva error :=
  unless (if cfg_UseCNI cfg then StartInfrastructureContainer (da_App m) else mret nil_err) (
  try (call DockerNew) (λ e, Some ("failed to create docker client: " +:+ e)) (λ _,
  try (call (ContainerStart (da_DeployedID m)))
    (λ e, Some ("failed to start container with ID: " +:+ da_DeployedID m +:+ ": " +:+ e))
    (λ _, mret nil_err))).

Definition container_StopHandler (m : DeployedApp) (timeout : Z) : GoM Eva error :=
  try (call DockerNew) (λ e, Some ("failed to create docker client: " +:+ e)) (λ _,
  try (call (ContainerStop (da_DeployedID m) timeout))
    (λ e, Some ("failed to stop container with ID: " +:+ da_DeployedID m +:+ ": " +:+ e)) (λ _,
  if cfg_UseCNI cfg then StopInfrastructureContainer (da_App m) else mret nil_err)).

Definition container_RestartHandler (m : DeployedApp) (timeout : Z) : GoM Eva error :=
  try (call DockerNew) (λ e, Some ("failed to create docker client: " +:+ e)) (λ _,
  try (call (ContainerRestart (da_DeployedID m) timeout))
    (λ e, Some ("failed to restart container with ID: " +:+ da_DeployedID m +:+ ": " +:+ e))
    (λ _, mret nil_err)).

(** The polls before the timer fires: true when it fires first. *)
Fixpoint poll_state (dom : Z) (expected : DomainState) (polls : nat) : GoM Eva (bool + string) :=
  match polls with
  | O => mret (inl true)
  | S polls' =>
      try (call (DomGetState dom)) inr (λ state,
      if bool_decide (state = expected) then mret (inl false)
      else poll_state dom expected polls')
  end.

Definition waitForDomStateChange (dom : Z) (expected : DomainState) (timeout : Z)
    : GoM Eva (bool + string) :=
  try (call (TimeAfter timeout)) inr (poll_state dom expected).

Definition startVM (dom : Z) (timeout : Z) (m : DeployedApp) : GoM Eva error :=
  try (call (DomCreate dom)) Some (λ _,
  try (waitForDomStateChange dom DOMAIN_RUNNING timeout) Some (λ tout,
  if tout : bool then mret (Some ("Timeout when starting domain: " +:+ da_DeployedID m))
  else mret nil_err)).

(** Connects to libvirt and looks the domain up. *)
Definition with_domain (m : DeployedApp) (k : Z → GoM Eva error) : GoM Eva error :=
  try (call LibvirtNew) Some (λ _, try (call (LookupDomain (da_DeployedID m))) Some k).

Definition vm_StartHandler (m : DeployedApp) (timeout : Z) : GoM Eva error :=
  with_domain m (λ d, startVM d timeout m).

Definition vm_StopHandler (m : DeployedApp) (timeout : Z) : GoM Eva error :=
  with_domain m (λ d,
  try (call (DomGetState d)) Some (λ state,
  if bool_decide (state = DOMAIN_SHUTOFF) then mret nil_err
  else
    try (call (DomShutdown d)) Some (λ _,
    try (waitForDomStateChange d DOMAIN_SHUTDOWN timeout) Some (λ tout,
    if tout : bool then try (call (DomDestroy d)) Some (λ _, mret nil_err)
    else mret nil_err)))).

Definition vm_RestartHandler (m : DeployedApp) (timeout : Z) : GoM Eva error :=
  with_domain m (λ d,
  try (call (DomGetState d)) Some (λ state,
  if bool_decide (state = DOMAIN_SHUTOFF) then startVM d timeout m
  else
    try (call (DomReboot d)) Some (λ _,
    try (waitForDomStateChange d DOMAIN_SHUTDOWN timeout) Some (λ tout,
    if tout : bool then
      try (call (DomDestroy d)) Some (λ _, try (call (DomCreate d)) Some (λ _, mret nil_err))
    else mret nil_err)))).

(** A container has its own handler, anything else is a domain. *)
Definition StartHandler (m : DeployedApp) : GoM Eva error :=
  if bool_decide (da_Type m = Container) then container_StartHandler m
  else vm_StartHandler m (cfg_AppStartTimeout cfg).

Definition StopHandler (m : DeployedApp) : GoM Eva error :=
  if bool_decide (da_Type m = Container) then container_StopHandler m (cfg_AppStopTimeout cfg)
  else vm_StopHandler m (cfg_AppStopTimeout cfg).

Definition RestartHandler (m : DeployedApp) : GoM Eva error :=
  if bool_decide (da_Type m = Container)
  then container_RestartHandler m (cfg_AppRestartTimeout cfg)
  else vm_RestartHandler m (cfg_AppRestartTimeout cfg).

Definition getAppLifecycleHandler (appID : string) : GoM Eva (DeployedApp + string) :=
  try (fs (Load (RootPath cfg) appID)) inr (λ a,
  if str_empty (da_DeployedID a) then mret (inr "deployed ID is empty") else mret (inl a)).

(** ** Tasks *)

(** The goroutines that calls start, with what they capture. *)
Inductive task :=
| TDeployContainer (d : DeployedApp)
| TDeployVM (d : DeployedApp)
| TRedeploy (d : DeployedApp)
| TUndeploy (d : DeployedApp)
| TStart (m : DeployedApp)
| TStop (m : DeployedApp)
| TRestart (m : DeployedApp).

(** Runs a handler and records how it ended. *)
Definition run_handler (m : DeployedApp) (handler : GoM Eva error) (good : Status)
    : GoM Eva unit :=
  err ← handler;
  updateStatus m (match err with Some _ => ERROR | None => good end) ;; mret tt.

Definition run_task (t : task) : GoM Eva unit :=
  match t with
  | TDeployContainer d => syncDeployContainer cfg d
  | TDeployVM d => syncDeployVM cfg d
  | TRedeploy d => syncRedeploy cfg d
  | TUndeploy d => syncUndeploy cfg d ;; mret tt
  | TStart m => run_handler m (StartHandler m) RUNNING
  | TStop m => run_handler m (StopHandler m) STOPPED
  | TRestart m => run_handler m (RestartHandler m) RUNNING
  end.

(** ** Calls *)

(** The answer of a call: an error, or done, with the task it started. *)
Abbreviation answered := (option task + rpc_error)%type.

Definition Deploy (appType : string) (start : DeployedApp → task) (pbapp : Application)
    : GoM Eva answered :=
  let dapp := NewDeployedApp (RootPath cfg) appType pbapp in
  err ← checkIfAppNotDeployed cfg (da_Id dapp);
  match err with
  | Some err => mret (inr err)
  | None =>
      match checkDeployPreconditions cfg dapp with
      | inr e => mret (inr (plain_error ("preconditions unfulfilled: " +:+ e)))
      | inl dapp =>
          match IsChangeAllowed dapp DEPLOYING with
          | Some e => mret (inr (plain_error e))
          | None => mret (inl (Some (start dapp)))
          end
      end
  end.

Definition DeployContainer : Application → GoM Eva answered := Deploy Container TDeployContainer.
Definition DeployVM : Application → GoM Eva answered := Deploy VM TDeployVM.

Definition Redeploy (app : Application) : GoM Eva answered :=
  r ← fs (Load (RootPath cfg) (app_Id app));
  match r with
  | inr e => mret (inr (plain_error ("Application " +:+ app_Id app +:+ " not found: " +:+ e)))
  | inl dapp =>
      match IsChangeAllowed dapp UNKNOWN with
      | Some e => mret (inr (plain_error e))
      | None =>
          match checkDeployPreconditions cfg
                  (NewDeployedApp (RootPath cfg) (da_Type dapp) app) with
          | inr e => mret (inr (plain_error ("preconditions unfulfilled: " +:+ e)))
          | inl dapp => mret (inl (Some (TRedeploy dapp)))
          end
      end
  end.

(** An application that is not deployed is removed at once. *)
Definition Undeploy (appID : string) : GoM Eva answered :=
  r ← fs (Load (RootPath cfg) appID);
  match r with
  | inr e => mret (inr (mkRpcError FailedPrecondition
                          ("Application " +:+ appID +:+ " not found: " +:+ e)))
  | inl dapp =>
      match IsChangeAllowed dapp UNKNOWN with
      | Some e => mret (inr (plain_error e))
      | None =>
          if da_IsDeployed dapp then mret (inl (Some (TUndeploy dapp)))
          else
            err ← (if cfg_UseCNI cfg
                   then drop_ovn_port (da_App dapp) (λ e, mret (Some e))
                   else mret nil_err);
            match err with
            | Some e => mret (inr (mkRpcError FailedPrecondition
                                     ("failed to get CNI type from CniConfig: " +:+ e)))
            | None => fs (fs_RemoveAll (da_Path dapp)) ;; mret (inl None)
            end
      end
  end.

(** The common part of [Start], [Stop] and [Restart]. *)
Definition command (target : Status) (start : DeployedApp → task) (appID : string)
    : GoM Eva answered :=
  r ← getAppLifecycleHandler appID;
  match r with
  | inr e => mret (inr (plain_error
               ("failed to identify type of application with ID: " +:+ appID +:+ ": " +:+ e)))
  | inl m =>
      match IsChangeAllowed m target with
      | Some e => mret (inr (plain_error e))
      | None =>
          err ← updateStatus m target;
          match err with
          | Some e => mret (inr (plain_error
                        ("Failed to update status for appID: " +:+ appID +:+ ": " +:+ e)))
          | None => mret (inl (Some (start (with_status target m))))
          end
      end
  end.

Definition Start : string → GoM Eva answered := command STARTING TStart.
Definition Stop : string → GoM Eva answered := command STOPPING TStop.
Definition Restart : string → GoM Eva answered := command STARTING TRestart.

Definition GetStatus (appID : string) : GoM Eva (Status + rpc_error) :=
  r ← fs (Load (RootPath cfg) appID);
  match r with
  | inr e => mret (inr (mkRpcError NotFound ("App " +:+ appID +:+ " not found: " +:+ e)))
  | inl dapp => mret (inl (da_Status dapp))
  end.

(** ** Applications by address (appid_provider.go) *)

(** The hardware address of the first interface on a network. *)
Fixpoint network_mac (l : list IfaceDesc) : outcome string :=
  match l with
  | [] => Ret ""
  | i :: l' =>
      match if_SourceNetwork i, if_MAC i with
      | None, _ => Panic "nil pointer dereference"
      | Some true, None => Panic "nil pointer dereference"
      | Some true, Some mac => Ret mac
      | Some false, _ => network_mac l'
      end
  end.

Definition getDomMAC (dom : Z) : GoM Eva (string + string) :=
  try (call (DomXML dom)) inr (λ l,
  match network_mac l with
  | Panic e => go_panic e
  | Ret mac => mret (inl mac)
  end).

(** The loop of [searchDonamainByIP] over the domains. *)
Fixpoint searchDomainByIP (doms : list Z) (leases : list Lease) (addrIP : string)
    : GoM Eva string :=
  match doms with
  | [] => mret ""
  | dom :: doms' =>
      name ← call (DomGetName dom);
      match name with
      | inr _ => searchDomainByIP doms' leases addrIP
      | inl name =>
          mac ← getDomMAC dom;
          match mac with
          | inr _ => searchDomainByIP doms' leases addrIP
          | inl mac =>
              if negb (str_empty mac)
                 && existsb (λ l, bool_decide (ls_Mac l = mac ∧ ls_IPaddr l = addrIP)) leases
              then mret name else searchDomainByIP doms' leases addrIP
          end
      end
  end.

Definition lookupDomainsByIP (addrIP : string) : GoM Eva (string + string) :=
  try (call LibvirtNew) inr (λ _,
  try (call ListActiveDomains) inr (λ doms,
  try (call DHCPLeases) inr (λ leases,
  name ← searchDomainByIP doms leases addrIP; mret (inl name)))).

(** The name of a container without its leading slash, [c.Names[0][1:]]. *)
Definition cut_first_byte (s : string) : outcome string :=
  match s with
  | EmptyString => Panic "slice bounds out of range"
  | String _ s' => Ret s'
  end.

Fixpoint searchContainerByIP (l : list ContainerSummary) (addrIP : string) : GoM Eva string :=
  match l with
  | [] => mret ""
  | c :: l' =>
      match cs_Names c with
      | [] => searchContainerByIP l' addrIP
      | n :: _ =>
          match cut_first_byte n with
          | Panic e => go_panic e
          | Ret name =>
              addrs ← call (ContainerAddresses (cs_ID c));
              match addrs with
              | inr _ => searchContainerByIP l' addrIP
              | inl addrs => if bool_decide (addrIP ∈ addrs) then mret name
                             else searchContainerByIP l' addrIP
              end
          end
      end
  end.

Definition lookupContainersByIP (addrIP : string) : GoM Eva (string + string) :=
  try (call DockerNew) inr (λ _,
  try (call (ContainerList "")) inr (λ l,
  name ← searchContainerByIP l addrIP; mret (inl name))).

(** [errors.Wrap(dialErr, ...)] of the nil error of the dialling: a failed query
    is answered with a nil result and no error. *)
Definition getK8sContainerByIP (credentials : bool) (ip : string)
    : GoM Eva (option string * error) :=
  if negb credentials
  then mret (None, Some "getK8sContainerByIP: transport credentials not set")
  else
    r ← call (GetContainerByIP ip);
    match r with
    | inr e => mret (None, Some ("Failed to create a connection to "
                                 +:+ cfg_ControllerEndpoint cfg +:+ ": " +:+ e))
    | inl (inr _) => mret (None, nil_err)
    | inl (inl id) => mret (Some id, nil_err)
    end.

Definition GetApplicationByIP (credentials : bool) (ip : string)
    : GoM Eva (option string * error) :=
  if cfg_KubernetesMode cfg then getK8sContainerByIP credentials ip
  else if cfg_UseCNI cfg then mret (Some "cni", nil_err)
  else
    r ← lookupContainersByIP ip;
    match r with
    | inl name =>
        if str_empty name then
          r ← lookupDomainsByIP ip;
          mret (match r with inl name => (Some name, nil_err) | inr e => (Some "", Some e) end)
        else mret (Some name, nil_err)
    | inr _ =>
        r ← lookupDomainsByIP ip;
        mret (match r with inl name => (Some name, nil_err) | inr e => (Some "", Some e) end)
    end.

(** ** The agent *)

Record Agent := mkAgent {
  ag_state : Eva;
  ag_tasks : list task;
}.

Inductive eva_op :=
| RpcDeployContainer (app : Application)
| RpcDeployVM (app : Application)
| RpcRedeploy (app : Application)
| RpcUndeploy (id : string)
| RpcStart (id : string)
| RpcStop (id : string)
| RpcRestart (id : string)
| RpcGetStatus (id : string)
| RpcLookup (credentials : bool) (ip : string)
| RunTask (i : nat)
| Crash.

(** A call adds the task it started; a panic ends the process. *)
Definition serve_call (m : GoM Eva answered) (a : Agent) : Agent :=
  match m (ag_state a) with
  | (Ret (inl (Some t)), s) => mkAgent s (ag_tasks a ++ [t])
  | (Ret _, s) => mkAgent s (ag_tasks a)
  | (Panic _, s) => mkAgent s []
  end.

Definition serve_query {A} (m : GoM Eva A) (a : Agent) : Agent :=
  match m (ag_state a) with
  | (Ret _, s) => mkAgent s (ag_tasks a)
  | (Panic _, s) => mkAgent s []
  end.

Definition eva_step (a : Agent) (o : eva_op) : Agent :=
  match o with
  | RpcDeployContainer app => serve_call (DeployContainer app) a
  | RpcDeployVM app => serve_call (DeployVM app) a
  | RpcRedeploy app => serve_call (Redeploy app) a
  | RpcUndeploy id => serve_call (Undeploy id) a
  | RpcStart id => serve_call (Start id) a
  | RpcStop id => serve_call (Stop id) a
  | RpcRestart id => serve_call (Restart id) a
  | RpcGetStatus id => serve_query (GetStatus id) a
  | RpcLookup c ip => serve_query (GetApplicationByIP c ip) a
  | RunTask i =>
      match ag_tasks a !! i with
      | None => a
      | Some t => match run_task t (ag_state a) with
                  | (Ret _, s) => mkAgent s (delete i (ag_tasks a))
                  | (Panic _, s) => mkAgent s []
                  end
      end
  | Crash => mkAgent (ag_state a) []
  end.

(** A run of the agent. *)
Definition eva_run (ops : list eva_op) (a : Agent) : Agent := fold_left eva_step ops a.
End service.
