(* ===== verification/EvaInv.v ===== *)
(** * What the agent does to its files

    Every task and call works on the files of applications through five
    operations: saving metadata, storing an image, recording and dropping the
    deployed identifier, and removing the directory.  A property of the files
    that these operations keep is kept by the whole agent, whatever the world
    answers. *)

From S2P Require Import Prelude Strconv GoNet GoPath EvaMeta EvaEnv EvaDeploy EvaLife.
From stdpp Require Import prelude strings list gmap.
From Stdlib Require Import ZArith.

Local Open Scope Z_scope.

(** ** Lifting *)

Section lifting.
Context `{EvaWorld}.

(** The property of the files, on the agent and on a job. *)
Definition on_files (P : Fs AppData → Prop) (s : Eva) : Prop := P (ev_fs s).

Lemma preserves_fs {A} P (m : GoM (Fs AppData) A) :
  preserves P m → preserves (on_files P) (fs m).
Proof.
  intros Hm [f x] Hf. unfold fs. specialize (Hm f Hf). simpl.
  destruct (m f) as [r f'] eqn:E. simpl in *. unfold on_files in *. by rewrite E in Hm || simpl.
Qed.

Lemma preserves_call {A} P (e : ext A) : preserves (on_files P) (call e).
Proof. intros [f x] Hf. unfold call. simpl. by destruct (answer e x). Qed.

Lemma preserves_try {A R} (I : Eva → Prop) m (fail : string → R) (k : A → GoM Eva R) :
  preserves I m → (∀ a, preserves I (k a)) → preserves I (try m fail k).
Proof.
  intros Hm Hk. apply preserves_bind; [done|]. intros [a|e]; [done|apply preserves_ret].
Qed.

Lemma preserves_unless (I : Eva → Prop) m k :
  preserves I m → preserves I k → preserves I (unless m k).
Proof. intros Hm Hk. apply preserves_bind; [done|]. intros [e|]; [apply preserves_ret|done]. Qed.

Lemma preserves_log8 {A} (I : Eva → Prop) s (k : GoM Eva A) :
  preserves I k → preserves I (log8 s k).
Proof. intros Hk. unfold log8. case_bool_decide; [apply preserves_panic|done]. Qed.

Lemma SetDeployed_id id d s d' err s' :
  fs (SetDeployed id d) s = (Ret (d', err), s') → d' = with_id id d.
Proof.
  unfold fs. destruct (SetDeployed id d (ev_fs s)) as [r f] eqn:E. intros [= -> <-].
  revert E. unfold SetDeployed, mbind, GoM_bind.
  destruct (fs_Create _ (ev_fs s)) as [[[]|] f1]; [| |done].
  - destruct (fs_Write _ _ f1) as [[]]; [|done]. by intros [= <- <- <-].
  - by intros [= <- <- <-].
Qed.
End lifting.

Create HintDb files discriminated.

(** Follows a computation down to its operations. *)
Ltac keep_files :=
  repeat first
    [ done
    | progress cbv beta zeta
    | solve [auto with files]
    | apply preserves_ret | apply preserves_panic | apply preserves_call
    | apply preserves_log8
    | apply preserves_try; [|intros ?]
    | apply preserves_unless
    | apply preserves_bind; [|intros ?]
    | case_match ].

(** ** Networks *)

Section cni.
Context `{EvaWorld}.
Context (P : Fs AppData → Prop).

Lemma files_QueryDocker i : preserves (on_files P) (QueryDocker i).
Proof. unfold QueryDocker, createDockerClient, obtainContainerID, obtainContainerPID. keep_files. Qed.
#[local] Hint Resolve files_QueryDocker : files.

Lemma files_Invoke i c a : preserves (on_files P) (Invoke i c a).
Proof. unfold Invoke. keep_files. Qed.
#[local] Hint Resolve files_Invoke : files.

Lemma files_OVNCNICreatePort app c : preserves (on_files P) (OVNCNICreatePort app c).
Proof. unfold OVNCNICreatePort. keep_files. Qed.

Lemma files_OVNCNIDeletePort app : preserves (on_files P) (OVNCNIDeletePort app).
Proof. unfold OVNCNIDeletePort. keep_files. Qed.
#[local] Hint Resolve files_OVNCNICreatePort files_OVNCNIDeletePort : files.

Lemma files_CreateInfra app : preserves (on_files P) (CreateInfrastructureContainer app).
Proof.
  unfold CreateInfrastructureContainer, infra_Create, makeSureInfraContainerImageExists,
    obtainContainerID. keep_files.
Qed.

Lemma files_RemoveInfra app : preserves (on_files P) (RemoveInfrastructureContainer app).
Proof. unfold RemoveInfrastructureContainer, infra_Remove. keep_files. Qed.

Lemma files_StartInfra app : preserves (on_files P) (StartInfrastructureContainer app).
Proof. unfold StartInfrastructureContainer, infra_Start, obtainContainerPID. keep_files. Qed.

Lemma files_StopInfra app : preserves (on_files P) (StopInfrastructureContainer app).
Proof. unfold StopInfrastructureContainer, infra_Stop. keep_files. Qed.
End cni.

#[export] Hint Resolve files_CreateInfra files_RemoveInfra files_StartInfra files_StopInfra
  files_OVNCNICreatePort files_OVNCNIDeletePort : files.

(** ** Properties that the agent keeps *)

(** What a property [P] of the files needs to be kept, when the agent works on
    applications that satisfy [Ok] and requests name identifiers in [ids]. *)
Record kept (cfg : EvaConfig) (ids : string → Prop) (Ok : DeployedApp → Prop)
    (P : Fs AppData → Prop) : Prop := {
  ok_status : ∀ st d, Ok d → Ok (with_status st d);
  ok_id : ∀ id d, Ok d → Ok (with_id id d);
  ok_new : ∀ t app d, t = Container ∨ t = VM → ids (app_Id app) →
    checkDeployPreconditions cfg (NewDeployedApp (RootPath cfg) t app) = inl d → Ok d;
  ok_load : ∀ id f d f', ids id → P f → Load (RootPath cfg) id f = (Ret (inl d), f') →
    Ok d ∧ (da_Type d = Container ∨ da_Type d = VM) ∧ da_Id d = id;
  keep_open : ∀ q, preserves P (fs_Open q);
  keep_read : ∀ q, preserves P (fs_ReadFile q);
  keep_save : ∀ u d, Ok d → preserves P (Save u d);
  keep_image : ∀ d c err, Ok d → preserves P (copy_file (ImageFilePath d) c err);
  keep_deployed : ∀ id d, Ok d → preserves P (SetDeployed id d);
  keep_undeployed : ∀ d, Ok d → preserves P (SetUndeployed d);
  keep_remove : ∀ d, Ok d → preserves P (fs_RemoveAll (da_Path d));
}.

(** The application a task works on. *)
Definition task_app (t : task) : DeployedApp :=
  match t with
  | TDeployContainer d | TDeployVM d | TRedeploy d | TUndeploy d
  | TStart d | TStop d | TRestart d => d
  end.

Section kept.
Context `{EvaWorld} (cfg : EvaConfig) (ids : string → Prop).
Context (Ok : DeployedApp → Prop) (P : Fs AppData → Prop) (K : kept cfg ids Ok P).

(** A job keeps the files and stays with an application in [Ok]. *)
Definition job_ok (sd : Eva * DeployedApp) : Prop := on_files P sd.1 ∧ Ok sd.2.

Lemma job_eva {A} (m : GoM Eva A) : preserves (on_files P) m → preserves job_ok (on_eva m).
Proof.
  intros Hm [s d] [Hs Hd]. unfold on_eva. specialize (Hm s Hs).
  destruct (m s) as [r s']. by split.
Qed.

Lemma job_status st : preserves job_ok (put_status st).
Proof. intros [s d] [Hs Hd]. split; [done|]. by apply K. Qed.

Lemma job_get : preserves job_ok get_dapp.
Proof. by intros [s d] Hsd. Qed.

(** Binds the application of the job. *)
Lemma job_bind_get {A} (k : DeployedApp → GoM (Eva * DeployedApp) A) :
  (∀ d, Ok d → preserves job_ok (k d)) → preserves job_ok (d ← get_dapp; k d).
Proof. intros Hk [s d] [Hs Hd]. apply (Hk d Hd). by split. Qed.

Lemma job_SetDeployed_ok id : preserves job_ok (job_SetDeployed id).
Proof.
  intros [s d] [Hs Hd]. unfold job_SetDeployed.
  pose proof (preserves_fs P _ (keep_deployed _ _ _ _ K id d Hd) s Hs) as Hp.
  pose proof (SetDeployed_id id d s) as Hd'.
  destruct (fs (SetDeployed id d) s) as [[[d' err]|e] s'] eqn:E; (split; [exact Hp|]); simpl.
  - rewrite (Hd' _ _ _ eq_refl). by apply K.
  - done.
Qed.

Lemma job_or_error m k :
  preserves job_ok m → preserves job_ok k → preserves job_ok (or_error m k).
Proof. intros Hm Hk. apply preserves_bind; [done|]. intros [e|]; [apply job_status|done]. Qed.

Lemma job_or_return m k :
  preserves job_ok m → preserves job_ok k → preserves job_ok (or_return m k).
Proof. intros Hm Hk. apply preserves_bind; [done|]. intros [e|]; [apply preserves_ret|done]. Qed.

Lemma job_of_call {A} (m : GoM Eva (A + string)) :
  preserves (on_files P) m → preserves job_ok (of_call m).
Proof. intros Hm. apply job_eva. by apply preserves_try; [|intros; apply preserves_ret]. Qed.

(** Follows a job. *)
Ltac keep_job :=
  repeat first
    [ done
    | progress cbv beta zeta
    | apply preserves_ret | apply preserves_panic
    | apply job_status | apply job_SetDeployed_ok
    | apply job_or_error | apply job_or_return
    | apply job_of_call; keep_files; done
    | apply job_eva; solve [auto with files | keep_files]
    | apply job_bind_get; intros ? ?
    | apply preserves_bind; [|intros ?]
    | case_match ].

Lemma files_Save u d : Ok d → preserves (on_files P) (fs (Save u d)).
Proof. intros Hd. by apply preserves_fs, K. Qed.

Lemma files_copy d c err : Ok d → preserves (on_files P) (fs (copy_file (ImageFilePath d) c err)).
Proof. intros Hd. by apply preserves_fs, K. Qed.

Lemma files_download url d : Ok d → preserves (on_files P) (downloadImage url (ImageFilePath d)).
Proof.
  intros Hd. unfold downloadImage. case_match; [apply preserves_ret|]. case_match.
  - apply preserves_try; [apply preserves_call|]. intros [[code body] err].
    case_bool_decide; [apply preserves_ret|by apply files_copy].
  - apply preserves_bind; [by apply preserves_fs, K|]. intros []; [|apply preserves_ret].
    apply preserves_bind; [by apply preserves_fs, K|]. intros []; by apply files_copy.
Qed.

Lemma files_loadImage d : preserves (on_files P) (loadImage d).
Proof.
  unfold loadImage. apply preserves_bind; [by apply preserves_fs, K|]. intros []; keep_files.
Qed.

Lemma job_deployCommon : preserves job_ok deployCommon.
Proof.
  unfold deployCommon. apply preserves_bind; [apply job_status|]. intros _.
  apply job_bind_get. intros d Hd. apply job_eva.
  apply preserves_bind; [by apply files_Save|]. intros []; [apply preserves_ret|].
  by apply files_download.
Qed.

Lemma job_deploy_container : preserves job_ok (deploy_container_job cfg).
Proof.
  unfold deploy_container_job. apply job_or_error; [apply job_deployCommon|].
  apply job_or_error; [apply job_of_call, preserves_call|].
  apply job_bind_get. intros d Hd. apply job_or_error; [apply job_eva, files_loadImage|].
  unfold create_container. keep_job.
Qed.

Lemma files_addOVSPort b id : preserves (on_files P) (addOVSPort b id).
Proof. unfold addOVSPort, isOVSBridgeCreated. keep_files. Qed.
#[local] Hint Resolve files_addOVSPort : files.

Lemma job_deploy_vm : preserves job_ok (deploy_vm_job cfg).
Proof.
  unfold deploy_vm_job. apply job_or_error; [apply job_deployCommon|].
  unfold configureIfs, configure_ovs. keep_job.
Qed.

Lemma files_final_save job d :
  preserves job_ok job → Ok d → preserves (on_files P) (with_final_save job d).
Proof.
  intros Hj Hd s Hs. unfold with_final_save. destruct (Hj (s, d) (conj Hs Hd)) as [Hs' Hd'].
  destruct (job (s, d)) as [r [s' d']]. simpl in *.
  pose proof (files_Save true d' Hd' s' Hs') as Hf. by destruct (fs (Save true d') s') as [[] s''].
Qed.

Lemma files_drop_ovn_port app bad :
  (∀ e, preserves (on_files P) (bad e)) → preserves (on_files P) (drop_ovn_port app bad).
Proof. intros Hb. unfold drop_ovn_port. keep_files. Qed.

Lemma files_undeploy d :
  Ok d → preserves (on_files P) (if bool_decide (da_Type d = Container)
                                 then dockerUndeploy cfg d else libvirtUndeploy cfg d).
Proof.
  intros Hd. assert (preserves (on_files P) (fs (SetUndeployed d))) by (by apply preserves_fs, K).
  case_bool_decide.
  - unfold dockerUndeploy. keep_files.
  - unfold libvirtUndeploy, removePorts, removeOVSPort.
    assert (∀ bad, (∀ e, preserves (on_files P) (bad e)) →
      preserves (on_files P) (drop_ovn_port (da_App d) bad)) by apply files_drop_ovn_port.
    keep_files. all: auto using preserves_ret.
Qed.

Lemma files_syncUndeploy d : Ok d → preserves (on_files P) (syncUndeploy cfg d).
Proof.
  intros Hd. unfold syncUndeploy. case_bool_decide; [apply preserves_ret|].
  apply preserves_bind; [by apply files_undeploy|].
  intros [e|]; (apply preserves_bind; [|intros; apply preserves_ret]).
  - apply files_Save. by apply K.
  - by apply preserves_fs, K.
Qed.

Lemma files_handlers m :
  preserves (on_files P) (StartHandler cfg m) ∧ preserves (on_files P) (StopHandler cfg m)
  ∧ preserves (on_files P) (RestartHandler cfg m).
Proof.
  assert (∀ dom st n, preserves (on_files P) (poll_state dom st n)) as Hpoll.
  { intros dom st n. induction n as [|n IH]; cbn [poll_state]; keep_files. }
  unfold StartHandler, StopHandler, RestartHandler, container_StartHandler,
    container_StopHandler, container_RestartHandler, vm_StartHandler, vm_StopHandler,
    vm_RestartHandler, with_domain, startVM, waitForDomStateChange.
  split_and!; keep_files.
Qed.

(** Every task keeps the property. *)
Lemma files_run_task t : Ok (task_app t) → preserves (on_files P) (run_task cfg t).
Proof.
  assert (∀ m h st, Ok m → preserves (on_files P) h →
    preserves (on_files P) (run_handler m h st)) as Hrun.
  { intros m h st Hm Hh. unfold run_handler. apply preserves_bind; [done|]. intros.
    apply preserves_bind; [|intros; apply preserves_ret]. apply files_Save. by apply K. }
  destruct t as [d|d|d|d|m|m|m]; simpl; intros Hd.
  - by apply files_final_save; [apply job_deploy_container|].
  - by apply files_final_save; [apply job_deploy_vm|].
  - unfold syncRedeploy. apply preserves_bind; [by apply files_syncUndeploy|].
    intros [e|]; [apply preserves_ret|]. repeat case_bool_decide; [| |apply preserves_ret].
    + by apply files_final_save; [apply job_deploy_container|].
    + by apply files_final_save; [apply job_deploy_vm|].
  - apply preserves_bind; [by apply files_syncUndeploy|]. intros. apply preserves_ret.
  - by apply Hrun, files_handlers.
  - by apply Hrun, files_handlers.
  - by apply Hrun, files_handlers.
Qed.

(** ** Calls *)

Lemma files_Load id : preserves (on_files P) (fs (Load (RootPath cfg) id)).
Proof.
  apply preserves_fs. unfold Load. case_match; [apply preserves_ret|].
  apply preserves_bind; [apply K|]. intros []; [|apply preserves_ret].
  case_match; [|apply preserves_ret]. apply preserves_bind; [apply K|]. intros ?.
  repeat case_match; apply preserves_ret || apply preserves_panic.
Qed.

(** A call keeps the property and starts tasks on applications in [Ok]. *)
Definition call_ok (m : GoM Eva (option task + rpc_error)) : Prop :=
  ∀ s, on_files P s → on_files P (m s).2
    ∧ ∀ t, (m s).1 = Ret (inl (Some t)) → Ok (task_app t).

Lemma call_ok_ret r : (∀ t, r = inl (Some t) → Ok (task_app t)) → call_ok (mret r).
Proof. intros Hr s Hs. split; [done|]. intros t [= Ht]. by apply Hr. Qed.

Lemma call_ok_bind {A} (m : GoM Eva A) (k : A → GoM Eva (option task + rpc_error)) :
  preserves (on_files P) m →
  (∀ a s s', on_files P s → m s = (Ret a, s') → call_ok (k a)) → call_ok (m ≫= k).
Proof.
  intros Hm Hk s Hs. specialize (Hm s Hs). unfold mbind, GoM_bind.
  destruct (m s) as [[a|e] s'] eqn:E; [|by split]. by eapply Hk.
Qed.

(** The application that a request names is read from the files. *)
Lemma call_ok_load id (k : DeployedApp + string → GoM Eva (option task + rpc_error)) :
  ids id → (∀ e, call_ok (k (inr e))) →
  (∀ d, Ok d → da_Type d = Container ∨ da_Type d = VM → da_Id d = id → call_ok (k (inl d))) →
  call_ok (fs (Load (RootPath cfg) id) ≫= k).
Proof.
  intros Hid He Hd. apply call_ok_bind; [apply files_Load|].
  intros [d|e] s s' Hs E; [|apply He]. unfold fs in E.
  destruct (Load _ _ _) as [r f] eqn:EL. injection E as -> _.
  destruct (ok_load _ _ _ _ K _ _ _ _ Hid Hs EL) as (? & ? & ?). by apply Hd.
Qed.

Lemma call_ok_Deploy t start app :
  t = Container ∨ t = VM → (∀ d, task_app (start d) = d) → ids (app_Id app) →
  call_ok (Deploy cfg t start app).
Proof.
  intros Ht Hs Hid. unfold Deploy. apply call_ok_bind.
  { unfold checkIfAppNotDeployed. apply preserves_bind; [apply files_Load|].
    intros []; repeat case_match; apply preserves_ret. }
  intros [e|] ? ? _ _; [by apply call_ok_ret|].
  destruct (checkDeployPreconditions _ _) as [d|e] eqn:E; [|by apply call_ok_ret].
  destruct (IsChangeAllowed d DEPLOYING); apply call_ok_ret; [done|].
  intros ? [= <-]. rewrite Hs. by apply (ok_new _ _ _ _ K t app).
Qed.

Lemma call_ok_Redeploy app : ids (app_Id app) → call_ok (Redeploy cfg app).
Proof.
  intros Hid. apply call_ok_load; [done|by intros; apply call_ok_ret|].
  intros d Hd Ht _. destruct (IsChangeAllowed d UNKNOWN); [by apply call_ok_ret|].
  destruct (checkDeployPreconditions _ _) as [d'|e] eqn:E; apply call_ok_ret; [|done].
  intros ? [= <-]. by apply (ok_new _ _ _ _ K (da_Type d) app).
Qed.

Lemma call_ok_Undeploy id : ids id → call_ok (Undeploy cfg id).
Proof.
  intros Hid. apply call_ok_load; [done|by intros; apply call_ok_ret|].
  intros d Hd Ht _. destruct (IsChangeAllowed d UNKNOWN); [by apply call_ok_ret|].
  case_match; [apply call_ok_ret; by intros ? [= <-]|].
  apply call_ok_bind; [case_match; [apply files_drop_ovn_port; intros|]; apply preserves_ret|].
  intros [e|] ? ? _ _; [by apply call_ok_ret|].
  apply call_ok_bind; [by apply preserves_fs, K|]. intros. by apply call_ok_ret.
Qed.

Lemma files_handler id : preserves (on_files P) (getAppLifecycleHandler cfg id).
Proof.
  apply preserves_try; [apply files_Load|]. intros d. case_match; apply preserves_ret.
Qed.

Lemma handler_ok id s d s' :
  ids id → on_files P s → getAppLifecycleHandler cfg id s = (Ret (inl d), s') → Ok d.
Proof.
  intros Hid Hs. unfold getAppLifecycleHandler, try, mbind, GoM_bind, fs.
  destruct (Load _ _ _) as [[[d'|e]|e] f] eqn:EL; [|done|done].
  destruct (str_empty _); [done|]. intros [= <- <-].
  by apply (ok_load _ _ _ _ K _ _ _ _ Hid Hs EL).
Qed.

Lemma call_ok_command target start id :
  (∀ d, task_app (start d) = d) → ids id → call_ok (command cfg target start id).
Proof.
  intros Hst Hid. apply call_ok_bind; [apply files_handler|].
  intros [d|e] s s' Hs E; [|by apply call_ok_ret].
  apply handler_ok in E; [|done|done].
  destruct (IsChangeAllowed d target); [by apply call_ok_ret|].
  apply call_ok_bind; [apply files_Save; by apply K|].
  intros [e|] ? ? _ _; apply call_ok_ret; [done|]. intros ? [= <-]. rewrite Hst. by apply K.
Qed.

Lemma files_lookup c ip : preserves (on_files P) (GetApplicationByIP cfg c ip).
Proof.
  assert (∀ l, preserves (on_files P) (searchContainerByIP l ip)) as Hc.
  { induction l as [|x l IH]; cbn [searchContainerByIP]; keep_files. }
  assert (∀ l ls, preserves (on_files P) (searchDomainByIP l ls ip)) as Hd.
  { intros l ls. induction l as [|x l IH]; cbn [searchDomainByIP]; unfold getDomMAC; keep_files. }
  unfold GetApplicationByIP, getK8sContainerByIP, lookupContainersByIP, lookupDomainsByIP.
  keep_files.
Qed.

(** ** Steps *)

(** The identifiers that an operation names. *)
Definition op_ids (o : eva_op) : Prop :=
  match o with
  | RpcDeployContainer app | RpcDeployVM app | RpcRedeploy app => ids (app_Id app)
  | RpcUndeploy id | RpcStart id | RpcStop id | RpcRestart id | RpcGetStatus id => ids id
  | _ => True
  end.

Definition agent_ok (a : Agent) : Prop :=
  on_files P (ag_state a) ∧ Forall (λ t, Ok (task_app t)) (ag_tasks a).

Lemma agent_ok_call m a : call_ok m → agent_ok a → agent_ok (serve_call m a).
Proof.
  intros Hm [Hs Ht]. destruct (Hm _ Hs) as [Hs' Ht']. unfold serve_call.
  destruct (m (ag_state a)) as [[[[t|]|e]|e] s']; split; simpl in *; auto.
  apply Forall_app. split; [done|]. apply Forall_singleton. by apply Ht'.
Qed.

Lemma agent_ok_query {A} (m : GoM Eva A) a :
  preserves (on_files P) m → agent_ok a → agent_ok (serve_query m a).
Proof.
  intros Hm [Hs Ht]. specialize (Hm _ Hs). unfold serve_query.
  destruct (m (ag_state a)) as [[x|e] s']; by split.
Qed.

Lemma agent_ok_step a o : op_ids o → agent_ok a → agent_ok (eva_step cfg a o).
Proof.
  intros Ho Ha. destruct o; cbn [eva_step op_ids] in *.
  1: by apply agent_ok_call; [apply call_ok_Deploy; [left|..]|].
  1: by apply agent_ok_call; [apply call_ok_Deploy; [right|..]|].
  1: by apply agent_ok_call; [apply call_ok_Redeploy|].
  1: by apply agent_ok_call; [apply call_ok_Undeploy|].
  1,2,3: by apply agent_ok_call; [apply call_ok_command|].
  - apply agent_ok_query; [|done]. unfold GetStatus. apply preserves_bind; [apply files_Load|].
    intros []; apply preserves_ret.
  - by apply agent_ok_query; [apply files_lookup|].
  - destruct (ag_tasks a !! i) as [t|] eqn:Et; [|done]. destruct Ha as [Hs Ht].
    assert (Ok (task_app t)) as Hok by (by eapply Forall_lookup_1 in Ht).
    pose proof (files_run_task t Hok _ Hs) as Hr.
    destruct (run_task cfg t (ag_state a)) as [[]]; split; simpl; auto.
    by apply Forall_delete.
  - by destruct Ha.
Qed.

Lemma agent_ok_run ops a : Forall op_ids ops → agent_ok a → agent_ok (eva_run cfg ops a).
Proof.
  intros Ho. revert a. induction Ho as [|o ops Ho Hos IH]; intros a Ha; [done|].
  by apply IH, agent_ok_step.
Qed.
End kept.
