(* ===== verification/EvaFiles.v ===== *)
(** * The files of the applications

    The effect of each operation on the tree of files, the layout of the image
    directory, and its first invariant: whatever fails, metadata files hold
    complete documents of their applications, and nothing outside of the
    directories of the named applications changes. *)

From S2P Require Import Prelude Strconv GoNet GoPath EvaMeta EvaEnv EvaDeploy EvaLife EvaInv.
From stdpp Require Import prelude strings list gmap.
From Stdlib Require Import ZArith.

Local Open Scope Z_scope.

(** ** Calls of [os] *)

Section os.
Context {D : Type}.
Implicit Types (T : gmap path (fnode D)) (P : Fs D → Prop).

Lemma preserves_fs_call {A} P (op : gmap path (fnode D) → (A + os_error) * gmap path (fnode D))
    broken :
  (∀ T fs fs', P (mkFs T fs) → fs' = tail fs → P (mkFs (op T).2 fs')) →
  (∀ T f fs, P (mkFs T (Some f :: fs)) → P (mkFs (broken f T) fs)) →
  preserves P (fs_call op broken).
Proof.
  intros Hop Hb [T fs] HP. unfold fs_call. simpl.
  destruct fs as [|[f|] fs]; [| exact (Hb T f fs HP)|];
    destruct (op T) as [r T'] eqn:E; simpl.
  - specialize (Hop T [] [] HP eq_refl). by rewrite E in Hop.
  - specialize (Hop T (None :: fs) fs HP eq_refl). by rewrite E in Hop.
Qed.

Lemma under_app p q : under p (p ++ q) = true.
Proof. unfold under. apply bool_decide_eq_true_2. by rewrite take_app_length. Qed.

Lemma under_refl p : under p p = true.
Proof. rewrite <-(app_nil_r p) at 2. apply under_app. Qed.

Lemma is_dir_app T p e : e ≠ "" → is_dir T (p ++ [e]) = true ↔ T !! (p ++ [e]) = Some Dir.
Proof.
  intros He. unfold is_dir. destruct (p ++ [e]) as [|[] []] eqn:E; try (repeat case_match; naive_solver).
  - by destruct p.
  - destruct p as [|x p]; [injection E as ->; done|]. destruct p; discriminate E.
Qed.

Lemma parent_app p e : parent (p ++ [e]) = p.
Proof. unfold parent. apply removelast_last. Qed.
End os.

(** ** Layout *)

Lemma plain_names :
  plain metadataFileName ∧ plain deployedFileName ∧ plain imageFileName.
Proof. split_and!; (apply plain_intro; [reflexivity|set_solver]). Qed.

Section layout.
Context (root : path).

Definition app_dir (id : string) : path := root ++ [id].
Definition file_of (id name : string) : path := app_dir id ++ [name].

Lemma file_of_inj id name id' name' :
  file_of id name = file_of id' name' → id = id' ∧ name = name'.
Proof.
  unfold file_of, app_dir. intros E. apply app_inj_tail in E as [E ->].
  by apply app_inj_tail in E as [_ ->].
Qed.

Lemma file_of_dir id name id' : file_of id name ≠ app_dir id'.
Proof.
  unfold file_of, app_dir. intros E%(f_equal length). rewrite !length_app in E. simpl in E. lia.
Qed.

Lemma under_file id name : under (app_dir id) (file_of id name) = true.
Proof. apply under_app. Qed.

Lemma not_under_file id id' name : id ≠ id' → under (app_dir id) (file_of id' name) = false.
Proof.
  intros Hne. unfold under, file_of, app_dir. apply bool_decide_eq_false_2. intros E.
  rewrite length_app in E. simpl in E.
  rewrite <-app_assoc in E. rewrite take_app_add in E. simpl in E.
  by apply app_inj_tail in E as [_ ->].
Qed.
End layout.

(** The application lives in the image directory under its own name, and its
    source has been taken over into the URL. *)
Record app_ok (cfg : EvaConfig) (ids : string → Prop) (d : DeployedApp) : Prop := {
  ao_ids : ids (da_Id d);
  ao_path : da_Path d = app_dir (RootPath cfg) (da_Id d);
  ao_source : app_Source (da_App d) = None;
  ao_type : da_Type d = Container ∨ da_Type d = VM;
}.

Section paths.
Context (cfg : EvaConfig) (ids : string → Prop) (d : DeployedApp).
Context (Hd : app_ok cfg ids d).
Abbreviation root := (RootPath cfg).

Lemma meta_path : metadataFilePath d = file_of root (da_Id d) metadataFileName.
Proof.
  unfold metadataFilePath. rewrite path_Join_plain by apply plain_names.
  by rewrite (ao_path _ _ _ Hd).
Qed.

Lemma tmp_path : tmpfile d = file_of root (da_Id d) "metadata.json.tmp".
Proof.
  unfold tmpfile, add_suffix. rewrite meta_path. unfold file_of. rewrite rev_unit.
  cbn [rev]. by rewrite rev_involutive.
Qed.

Lemma deployed_path : deployedFilePath d = file_of root (da_Id d) deployedFileName.
Proof.
  unfold deployedFilePath. rewrite path_Join_plain by apply plain_names.
  by rewrite (ao_path _ _ _ Hd).
Qed.

Lemma image_path : ImageFilePath d = file_of root (da_Id d) imageFileName.
Proof.
  unfold ImageFilePath. rewrite path_Join_plain by apply plain_names.
  by rewrite (ao_path _ _ _ Hd).
Qed.
End paths.

(** ** Outcomes of calls *)

Section cases.
Context {D : Type}.
Implicit Types (s : Fs D) (p q : path).

Lemma fs_call_cases {A} op broken s :
  (∃ f, fs_call (A:=A) op broken s
        = (Ret (inr (ErrOther (f_msg f))), mkFs (broken f (fs_tree s)) (tail (fs_faults s))))
  ∨ fs_call op broken s
    = (Ret (op (fs_tree s)).1, mkFs (op (fs_tree s)).2 (tail (fs_faults s))).
Proof.
  destruct s as [T [|[f|] fs]]; unfold fs_call; simpl.
  - right. by destruct (op T).
  - left. by exists f.
  - right. by destruct (op T).
Qed.

(** Without faults a call does what it says. *)
Lemma fs_call_ok {A} op broken s :
  fs_faults s = [] →
  fs_call (A:=A) op broken s = (Ret (op (fs_tree s)).1, mkFs (op (fs_tree s)).2 []).
Proof. destruct s as [T fs]. simpl. intros ->. unfold fs_call. simpl. by destruct (op T). Qed.

Ltac fs_cases :=
  match goal with
  | |- context [fs_call ?op ?br ?s] =>
      destruct (fs_call_cases op br s) as [[? E]|E]; rewrite E; clear E;
      do 2 eexists; (split; [reflexivity|]); simpl
  end.

Lemma fs_Create_cases p s :
  ∃ r s', fs_Create p s = (Ret r, s') ∧
    ((∃ e, r = inr e) ∧ fs_tree s' = fs_tree s
     ∨ r = inl tt ∧ fs_tree s' = <[p := File (Text "")]> (fs_tree s)).
Proof. unfold fs_Create. fs_cases; repeat case_match; naive_solver. Qed.

Lemma fs_Write_cases p c s :
  ∃ r s', fs_Write p c s = (Ret r, s') ∧
    ((∃ e c', r = inr e ∧ fs_tree s' = <[p := File c']> (fs_tree s))
     ∨ r = inl tt ∧ fs_tree s' = <[p := File c]> (fs_tree s)).
Proof. unfold fs_Write. fs_cases; naive_solver. Qed.

Lemma fs_Rename_cases p q s :
  ∃ r s', fs_Rename p q s = (Ret r, s') ∧
    ((∃ e, r = inr e) ∧ fs_tree s' = fs_tree s
     ∨ r = inl tt ∧ ∃ c, fs_tree s !! p = Some (File c)
       ∧ fs_tree s' = <[q := File c]> (delete p (fs_tree s))).
Proof. unfold fs_Rename. fs_cases; repeat case_match; naive_solver. Qed.

Lemma fs_Mkdir_cases p s :
  ∃ r s', fs_Mkdir p s = (Ret r, s') ∧
    (fs_tree s' = fs_tree s ∨ r = inl tt ∧ fs_tree s' = <[p := Dir]> (fs_tree s)).
Proof. unfold fs_Mkdir. fs_cases; repeat case_match; naive_solver. Qed.

Lemma fs_ReadFile_cases p s :
  ∃ r s', fs_ReadFile p s = (Ret r, s') ∧ fs_tree s' = fs_tree s
    ∧ (∀ c, r = inl c → fs_tree s !! p = Some (File c)).
Proof. unfold fs_ReadFile. fs_cases; repeat case_match; naive_solver. Qed.

Lemma fs_Open_same p s : fs_tree (fs_Open p s).2 = fs_tree s.
Proof. unfold fs_Open. by destruct (fs_call_cases (λ T, (match T !! p with Some _ => inl tt
    | None => inr ErrNotExist end, T)) (λ _ T, T) s) as [[? ->]| ->]. Qed.

Lemma fs_Remove_cases p s :
  ∃ r s', fs_Remove p s = (Ret r, s') ∧
    (fs_tree s' = fs_tree s ∨ fs_tree s' = delete p (fs_tree s)).
Proof. unfold fs_Remove. fs_cases; repeat case_match; naive_solver. Qed.

(** What a removal of a tree leaves lies in the old tree, and everything
    outside of it is left. *)
Lemma fs_RemoveAll_cases p s :
  ∃ r s', fs_RemoveAll p s = (Ret r, s') ∧
    ∀ q, fs_tree s' !! q = fs_tree s !! q ∨ under p q = true ∧ fs_tree s' !! q = None.
Proof.
  unfold fs_RemoveAll. fs_cases; intros q; rewrite map_lookup_filter;
    destruct (fs_tree s !! q) eqn:E; simpl; auto; case_guard; simpl; auto;
    right; (split; [|done]); apply not_false_is_true; naive_solver.
Qed.
End cases.

(** ** Effects *)

(** What [Save] leaves: the tree as it was (with the directory made), with a
    temporary file, or with the new document in the place of the old one; only
    the last is reported as success. *)
Definition save_effect (u : bool) (d : DeployedApp) (T T' : gmap path (fnode AppData))
    (err : error) : Prop :=
  ∃ T1, (T1 = T ∨ u = false ∧ T1 = <[da_Path d := Dir]> T) ∧
    (T' = T1 ∧ err ≠ None
     ∨ (∃ c, T' = <[tmpfile d := File c]> T1) ∧ err ≠ None
     ∨ T' = <[metadataFilePath d := File (Doc (da_Data d))]> (delete (tmpfile d) T1)
       ∧ err = None).

Lemma make_dir_effect u d s :
  ∃ err s', make_dir u d s = (Ret err, s') ∧ (fs_tree s' = fs_tree s
    ∨ u = false ∧ fs_tree s' = <[da_Path d := Dir]> (fs_tree s)).
Proof.
  unfold make_dir. destruct u; [by exists None, s; auto|].
  destruct (fs_Mkdir_cases (da_Path d) s) as (r & s1 & E & Hr). unfold mbind, GoM_bind.
  rewrite E. destruct r as [|[]]; do 2 eexists; (split; [done|]); naive_solver.
Qed.

Lemma Save_effect u d s :
  ∃ err s', Save u d s = (Ret err, s') ∧ save_effect u d (fs_tree s) (fs_tree s') err.
Proof.
  destruct (make_dir_effect u d s) as (err & s1 & E & H1).
  unfold Save. rewrite (bind_ret _ _ _ _ _ E). clear E. destruct err as [err|].
  { do 2 eexists. split; [done|]. exists (fs_tree s1). split; [done|]. by left. }
  destruct (fs_Create_cases (tmpfile d) s1) as (r & s2 & E & [[[e ->] H2]|[-> H2]]);
    rewrite (bind_ret _ _ _ _ _ E); clear E.
  { do 2 eexists. split; [done|]. exists (fs_tree s1). split; [done|]. by left. }
  destruct (fs_Write_cases (tmpfile d) (Doc (da_Data d)) s2)
    as (r & s3 & E & [(e & c & -> & H3)|[-> H3]]); rewrite (bind_ret _ _ _ _ _ E); clear E.
  { do 2 eexists. split; [done|]. exists (fs_tree s1). split; [done|]. right; left.
    split; [|done]. exists c. rewrite H3, H2. apply insert_insert_eq. }
  destruct (fs_Rename_cases (tmpfile d) (metadataFilePath d) s3)
    as (r & s4 & E & [[[e ->] H4]|[-> (c & Hc & H4)]]); rewrite (bind_ret _ _ _ _ _ E); clear E.
  - do 2 eexists. split; [done|]. exists (fs_tree s1). split; [done|]. right; left.
    split; [|done]. eexists. rewrite H4, H3, H2. apply insert_insert_eq.
  - do 2 eexists. split; [done|]. exists (fs_tree s1). split; [done|]. right; right.
    rewrite H3, lookup_insert_eq in Hc. injection Hc as <-.
    rewrite H4, H3, H2, insert_insert_eq, delete_insert_eq. done.
Qed.

(** ** Metadata stays intact *)

Section intact.
Context (cfg : EvaConfig) (ids : string → Prop).
Context (ids_plain : ∀ id, ids id → plain id).
Context (T0 : gmap path (fnode AppData)).
Abbreviation root := (RootPath cfg).
Implicit Types (T : gmap path (fnode AppData)) (id : string).

(** A metadata file is the document of an application of this name. *)
Definition doc_ok id (n : fnode AppData) : Prop :=
  ∃ a, n = File (Doc a) ∧ app_Id (ad_App a) = id ∧ app_Source (ad_App a) = None
    ∧ (ad_Type a = Container ∨ ad_Type a = VM).

(** All metadata files are intact, and only directories of [ids] have changed
    since [T0]. *)
Record tree_ok T : Prop := {
  to_docs : ∀ id n, plain id → T !! file_of root id metadataFileName = Some n → doc_ok id n;
  to_frame : ∀ q, (∀ id, ids id → under (app_dir root id) q = false) → T !! q = T0 !! q;
}.

(** Changes that keep this. *)
Lemma tree_ok_other T id q n :
  tree_ok T → ids id → under (app_dir root id) q = true →
  (∀ id', q ≠ file_of root id' metadataFileName) → tree_ok (<[q := n]> T).
Proof.
  intros [Hd Hf] Hid Hu Hq. split.
  - intros id' n' Hid'. rewrite lookup_insert_ne by apply Hq. by apply Hd.
  - intros q' Hq'. rewrite lookup_insert_ne; [by apply Hf|].
    intros <-. by rewrite Hq' in Hu.
Qed.

Lemma tree_ok_delete T id q :
  tree_ok T → ids id → under (app_dir root id) q = true → tree_ok (delete q T).
Proof.
  intros [Hd Hf] Hid Hu. split.
  - intros id' n' Hid' [_ Hn]%lookup_delete_Some. by eapply Hd.
  - intros q' Hq'. rewrite lookup_delete_ne; [by apply Hf|]. intros <-. by rewrite Hq' in Hu.
Qed.

Lemma tree_ok_doc T d :
  tree_ok T → app_ok cfg ids d →
  tree_ok (<[metadataFilePath d := File (Doc (da_Data d))]> T).
Proof.
  intros [Hd Hf] Ho. rewrite (meta_path _ _ _ Ho). split.
  - intros id' n' Hid' [[E <-]|[_ Hn]]%lookup_insert_Some; [|by eapply Hd].
    apply file_of_inj in E as [<- _]. destruct Ho as [_ _ Hs Ht]. by exists (da_Data d).
  - intros q' Hq'. rewrite lookup_insert_ne; [by apply Hf|]. intros <-.
    pose proof (under_file root (da_Id d) metadataFileName) as Hu.
    by rewrite (Hq' _ (ao_ids _ _ _ Ho)) in Hu.
Qed.

Lemma tree_ok_sub T T' id :
  tree_ok T → ids id →
  (∀ q, T' !! q = T !! q ∨ under (app_dir root id) q = true ∧ T' !! q = None) → tree_ok T'.
Proof.
  intros [Hd Hf] Hid Hsub. split.
  - intros id' n' Hid' Hn. destruct (Hsub (file_of root id' metadataFileName)) as [E|[_ E]];
      rewrite E in Hn; [by eapply Hd|done].
  - intros q Hq. destruct (Hsub q) as [->|[Hu _]]; [by apply Hf|]. by rewrite (Hq _ Hid) in Hu.
Qed.

Lemma file_not_meta id name id' :
  name ≠ metadataFileName → file_of root id name ≠ file_of root id' metadataFileName.
Proof. intros Hn [_ E]%file_of_inj. done. Qed.

Lemma tree_ok_save u d T T' err :
  app_ok cfg ids d → tree_ok T → save_effect u d T T' err → tree_ok T'.
Proof.
  intros Ho HT (T1 & H1 & H2). pose proof (ao_ids _ _ _ Ho) as Hid.
  assert (tree_ok T1) as HT1.
  { destruct H1 as [->|[_ ->]]; [done|]. rewrite (ao_path _ _ _ Ho).
    eapply tree_ok_other; [done|exact Hid|apply under_refl|].
    intros id' E. symmetry in E. by apply file_of_dir in E. }
  destruct H2 as [[-> _]|[[[c ->] _]|[-> _]]]; [done| |].
  - rewrite (tmp_path _ _ _ Ho).
    eapply tree_ok_other; [done|exact Hid|apply under_file|]. intros. by apply file_not_meta.
  - apply tree_ok_doc; [|done]. eapply tree_ok_delete; [done|exact Hid|].
    rewrite (tmp_path _ _ _ Ho). apply under_file.
Qed.

(** What is read back from intact files. *)
Lemma load_ok id f d f' :
  plain id → tree_ok (fs_tree f) → Load root id f = (Ret (inl d), f') →
  da_Path d = app_dir root id ∧ fs_tree f' = fs_tree f
  ∧ fs_tree f !! file_of root id metadataFileName = Some (File (Doc (da_Data d)))
  ∧ da_Id d = id ∧ app_Source (da_App d) = None
  ∧ (da_Type d = Container ∨ da_Type d = VM).
Proof.
  intros Hid [Hdocs _]. unfold Load. destruct (str_empty id); [done|].
  unfold appPath. rewrite (path_Join_plain root) by done.
  rewrite path_Join_plain by apply plain_names. rewrite path_Join_plain by apply plain_names.
  fold (app_dir root id). fold (file_of root id metadataFileName).
  fold (file_of root id deployedFileName).
  destruct (fs_ReadFile_cases (file_of root id metadataFileName) f) as (r & f1 & E & HT & Hr).
  rewrite (bind_ret _ _ _ _ _ E). clear E. destruct r as [c|e]; [|done].
  pose proof (Hr c eq_refl) as Hc. destruct (Hdocs id _ Hid Hc) as (a & [= ->] & Ha & Hs & Ht).
  unfold unmarshal_AppData. rewrite bool_decide_eq_true_2 by done.
  assert (str_empty (app_Id (ad_App a)) = false) as ->.
  { unfold str_empty. rewrite Ha. apply bool_decide_eq_false_2. apply Hid. }
  destruct (fs_ReadFile_cases (file_of root id deployedFileName) f1) as (r & f2 & E & HT2 & _).
  rewrite (bind_ret _ _ _ _ _ E). clear E.
  assert (fs_tree f2 = fs_tree f) as HTT by congruence.
  destruct r as [[x|t]|[| |]]; try done.
  - destruct (cut_last_byte t); [|done]. intros [= <- <-]. by split_and!.
  - intros [= <- <-]. by split_and!.
Qed.

(** [P] of the tree. *)
Definition files_ok (f : Fs AppData) : Prop := tree_ok (fs_tree f).

Lemma preserves_cases {A} (m : GoM (Fs AppData) A) :
  (∀ f, tree_ok (fs_tree f) → tree_ok (fs_tree (m f).2)) → preserves files_ok m.
Proof. intros Hm f. apply Hm. Qed.

Lemma app_ok_new t app d :
  t = Container ∨ t = VM → ids (app_Id app) →
  checkDeployPreconditions cfg (NewDeployedApp root t app) = inl d → app_ok cfg ids d.
Proof.
  intros Ht Hid. unfold checkDeployPreconditions. do 4 (case_bool_decide; [done|]).
  destruct (app_Source _) as [u|]; [|done]. destruct (url_match _ u); [done|]. intros [= <-].
  split; try done. simpl. unfold appPath. rewrite path_Join_plain by auto. done.
Qed.

Lemma kept_files_ok : kept cfg ids (app_ok cfg ids) files_ok.
Proof.
  assert (∀ d, app_ok cfg ids d → ∀ name c T, name ≠ metadataFileName → tree_ok T →
    tree_ok (<[file_of root (da_Id d) name := File c]> T)) as Hfile.
  { intros d Hd name c T Hn HT.
    eapply tree_ok_other; [done|exact (ao_ids _ _ _ Hd)|apply under_file|].
    intros. by apply file_not_meta. }
  split.
  - intros st d []. by split.
  - intros id d []. by split.
  - intros t app d. apply app_ok_new.
  - intros id f d f' Hid Hf HL.
    destruct (load_ok id f d f' (ids_plain _ Hid) Hf HL) as (Hp & _ & _ & Hi & Hs & Ht).
    split_and!; try done. by split; [rewrite Hi|rewrite Hi|..].
  - intros q. apply preserves_cases. intros f Hf. by rewrite fs_Open_same.
  - intros q. apply preserves_cases. intros f Hf.
    destruct (fs_ReadFile_cases q f) as (r & f' & -> & HT & _). simpl. by rewrite HT.
  - intros u d Hd. apply preserves_cases. intros f Hf.
    destruct (Save_effect u d f) as (err & f' & -> & He). by eapply tree_ok_save.
  - intros d c err Hd. apply preserves_cases. intros f Hf. unfold copy_file.
    rewrite (image_path _ _ _ Hd). set (p := file_of _ _ _).
    destruct (fs_Create_cases p f) as (r & f1 & E & Hr); rewrite (bind_ret _ _ _ _ _ E); clear E.
    destruct Hr as [[[e ->] HT]|[-> HT]]; [by simpl; rewrite HT|].
    destruct (fs_Write_cases p c f1) as (r & f2 & E & Hr).
    rewrite (bind_ret _ _ _ _ _ E). simpl.
    assert (tree_ok (fs_tree f1)) by (rewrite HT; unfold p; by apply Hfile).
    destruct Hr as [(e & c' & _ & ->)|[_ ->]]; unfold p; by apply Hfile.
  - intros id d Hd. apply preserves_cases. intros f Hf. unfold SetDeployed.
    change (deployedFilePath (with_id id d)) with (deployedFilePath d).
    rewrite (deployed_path _ _ _ Hd). set (p := file_of _ _ _).
    destruct (fs_Create_cases p f) as (r & f1 & E & Hr); rewrite (bind_ret _ _ _ _ _ E); clear E.
    destruct Hr as [[[e ->] HT]|[-> HT]]; [by simpl; rewrite HT|].
    destruct (fs_Write_cases p (Text (id +:+ newline)) f1) as (r & f2 & E & Hr).
    rewrite (bind_ret _ _ _ _ _ E). simpl.
    assert (tree_ok (fs_tree f1)) by (rewrite HT; unfold p; by apply Hfile).
    destruct Hr as [(e & c' & _ & ->)|[_ ->]]; unfold p; by apply Hfile.
  - intros d Hd. apply preserves_cases. intros f Hf. unfold SetUndeployed.
    rewrite (deployed_path _ _ _ Hd).
    destruct (fs_Remove_cases (file_of root (da_Id d) deployedFileName) f) as (r & f1 & E & Hr).
    rewrite (bind_ret _ _ _ _ _ E). simpl. destruct Hr as [->| ->]; [done|].
    eapply tree_ok_delete; [done|exact (ao_ids _ _ _ Hd)|apply under_file].
  - intros d Hd. apply preserves_cases. intros f Hf.
    destruct (fs_RemoveAll_cases (da_Path d) f) as (r & f1 & -> & Hr). simpl.
    eapply tree_ok_sub; [exact Hf|exact (ao_ids _ _ _ Hd)|].
    by rewrite <-(ao_path _ _ _ Hd).
Qed.
End intact.
