(* ===== verification/EvaGood.v ===== *)
(** * The agent on a disk that works

    When no call of [os] fails, the image directory keeps its layout: every
    application has a directory with files in it, the deployed identifier is
    never empty on disk, and saving metadata succeeds whenever the directory
    is there. *)

From S2P Require Import Prelude Strconv GoNet GoPath EvaMeta EvaEnv EvaDeploy EvaLife EvaInv EvaFiles.
From stdpp Require Import prelude strings list gmap.
From Stdlib Require Import ZArith.

Local Open Scope Z_scope.

Section good.
Context (cfg : EvaConfig).
Abbreviation root := (RootPath cfg).
Implicit Types (T : gmap path (fnode AppData)) (id name : string).

Record good_tree T : Prop := {
  g_root : is_dir T root = true;
  g_dir : ∀ id n, plain id → T !! app_dir root id = Some n → n = Dir;
  g_file : ∀ id name n, plain id → T !! file_of root id name = Some n →
    (∃ c, n = File c) ∧ T !! app_dir root id = Some Dir;
  g_deployed : ∀ id n, plain id → T !! file_of root id deployedFileName = Some n →
    ∃ t, n = File (Text t) ∧ t ≠ "";
  g_docs : ∀ id n, plain id → T !! file_of root id metadataFileName = Some n → doc_ok id n;
}.

Record good (f : Fs AppData) : Prop := {
  g_nofault : fs_faults f = [];
  g_tree : good_tree (fs_tree f);
}.

Lemma root_not_dir id : root ≠ app_dir root id.
Proof. intros E%(f_equal length). unfold app_dir in E. rewrite length_app in E. simpl in E. lia. Qed.

Lemma root_not_file id name : root ≠ file_of root id name.
Proof.
  intros E%(f_equal length). unfold file_of, app_dir in E. rewrite !length_app in E.
  simpl in E. lia.
Qed.

Lemma app_dir_inj id id' : app_dir root id = app_dir root id' → id = id'.
Proof. unfold app_dir. by intros [_ ?]%app_inj_tail. Qed.

Lemma is_dir_ext T T' p : T !! p = T' !! p → is_dir T p = is_dir T' p.
Proof. intros E. unfold is_dir. repeat case_match; congruence. Qed.

Lemma is_app_dir T id : plain id → is_dir T (app_dir root id) = true ↔ T !! app_dir root id = Some Dir.
Proof. intros Hid. apply is_dir_app, Hid. Qed.

(** ** Changes that keep the layout *)

Lemma good_mkdir T id : good_tree T → plain id → good_tree (<[app_dir root id := Dir]> T).
Proof.
  intros [Hr Hd Hf Hdep Hdoc] Hid.
  assert (∀ id' name, file_of root id' name ≠ app_dir root id) as Hne.
  { intros id' name E. by apply file_of_dir in E. }
  split.
  - rewrite <-Hr. apply is_dir_ext, lookup_insert_ne. intros E. symmetry in E.
    by apply root_not_dir in E.
  - intros id' n Hid' [[_ <-]|[_ Hn]]%lookup_insert_Some; [done|by eapply Hd].
  - intros id' name n Hid'. rewrite lookup_insert_ne by (intros E; by apply (Hne id' name)).
    intros Hn. destruct (Hf _ _ _ Hid' Hn) as [Hc Hdir]. split; [done|].
    destruct (decide (id' = id)) as [->|Hi]; [by rewrite lookup_insert_eq|].
    rewrite lookup_insert_ne; [done|]. intros E. by apply app_dir_inj in E.
  - intros id' n Hid'. rewrite lookup_insert_ne by (intros E; by apply (Hne id' deployedFileName)).
    by apply Hdep.
  - intros id' n Hid'. rewrite lookup_insert_ne by (intros E; by apply (Hne id' metadataFileName)).
    by apply Hdoc.
Qed.

Lemma good_file T id name c :
  good_tree T → plain id → T !! app_dir root id = Some Dir →
  (name = deployedFileName → ∃ t, c = Text t ∧ t ≠ "") →
  (name = metadataFileName → doc_ok id (File c)) →
  good_tree (<[file_of root id name := File c]> T).
Proof.
  intros [Hr Hd Hf Hdep Hdoc] Hid Hdir Hcd Hcm. split.
  - rewrite <-Hr. apply is_dir_ext, lookup_insert_ne. intros E. symmetry in E.
    by apply root_not_file in E.
  - intros id' n Hid'. rewrite lookup_insert_ne by (intros E; by apply file_of_dir in E). by apply Hd.
  - intros id' name' n Hid' Hn. rewrite lookup_insert_ne by (intros E; by apply file_of_dir in E).
    apply lookup_insert_Some in Hn as [[E <-]|[_ Hn]]; [|by eapply Hf].
    apply file_of_inj in E as [<- _]. split; [by eexists|done].
  - intros id' n Hid' [[E <-]|[_ Hn]]%lookup_insert_Some; [|by eapply Hdep].
    apply file_of_inj in E as [_ ->]. destruct (Hcd eq_refl) as (t & -> & Ht). by exists t.
  - intros id' n Hid' [[E <-]|[_ Hn]]%lookup_insert_Some; [|by eapply Hdoc].
    apply file_of_inj in E as [<- ->]. by apply Hcm.
Qed.

Lemma good_delete T id name : good_tree T → good_tree (delete (file_of root id name) T).
Proof.
  intros [Hr Hd Hf Hdep Hdoc]. split.
  - rewrite <-Hr. apply is_dir_ext, lookup_delete_ne. intros E. symmetry in E.
    by apply root_not_file in E.
  - intros id' n Hid' [_ Hn]%lookup_delete_Some. by eapply Hd.
  - intros id' name' n Hid' [_ Hn]%lookup_delete_Some.
    destruct (Hf _ _ _ Hid' Hn) as [Hc Hdir]. split; [done|].
    rewrite lookup_delete_ne; [done|]. by apply file_of_dir.
  - intros id' n Hid' [_ Hn]%lookup_delete_Some. by eapply Hdep.
  - intros id' n Hid' [_ Hn]%lookup_delete_Some. by eapply Hdoc.
Qed.

Lemma not_under_root id : under (app_dir root id) root = false.
Proof.
  unfold under. apply bool_decide_eq_false_2. unfold app_dir. rewrite length_app. simpl.
  rewrite take_ge by lia. intros E. by apply (root_not_dir id).
Qed.

Lemma not_under_dir id id' : id ≠ id' → under (app_dir root id) (app_dir root id') = false.
Proof.
  intros Hne. unfold under, app_dir. apply bool_decide_eq_false_2.
  rewrite !length_app. simpl. rewrite take_ge by (rewrite length_app; simpl; lia).
  intros [_ ?]%app_inj_tail. by subst.
Qed.

Lemma good_drop T id :
  good_tree T → good_tree (filter (λ e, under (app_dir root id) e.1 = false) T).
Proof.
  intros [Hr Hd Hf Hdep Hdoc].
  assert (∀ q n, filter (λ e : path * fnode AppData, under (app_dir root id) e.1 = false) T !! q
    = Some n ↔ T !! q = Some n ∧ under (app_dir root id) q = false) as Hl.
  { intros q n. by rewrite map_lookup_filter_Some. }
  split.
  - rewrite <-Hr. apply is_dir_ext. destruct (T !! root) as [n|] eqn:E.
    + apply Hl. split; [done|apply not_under_root].
    + destruct (filter _ T !! root) eqn:E'; [|done]. apply Hl in E' as [E' _]. congruence.
  - intros id' n Hid' [Hn _]%Hl. by eapply Hd.
  - intros id' name n Hid' [Hn Hu]%Hl. destruct (Hf _ _ _ Hid' Hn) as [Hc Hdir].
    split; [done|]. apply Hl. split; [done|]. apply not_under_dir. intros <-.
    by rewrite under_file in Hu.
  - intros id' n Hid' [Hn _]%Hl. by eapply Hdep.
  - intros id' n Hid' [Hn _]%Hl. by eapply Hdoc.
Qed.

(** ** Operations *)

Lemma parent_dir id : parent (app_dir root id) = root.
Proof. apply parent_app. Qed.

Lemma parent_file id name : parent (file_of root id name) = app_dir root id.
Proof. apply parent_app. Qed.

Lemma fs_Create_good T id name :
  good_tree T → plain id →
  fs_Create (file_of root id name) (mkFs T [])
  = match T !! app_dir root id with
    | Some _ => (Ret (inl tt), mkFs (<[file_of root id name := File (Text "")]> T) [])
    | None => (Ret (inr ErrNotExist), mkFs T [])
    end.
Proof.
  intros HT Hid. unfold fs_Create. rewrite fs_call_ok by done. simpl.
  rewrite parent_file.
  destruct (T !! app_dir root id) as [n|] eqn:Ed.
  - rewrite (g_dir _ HT _ _ Hid Ed) in Ed. apply (is_app_dir T id Hid) in Ed as Edir.
    destruct (T !! file_of root id name) as [n'|] eqn:Ef; [|by rewrite Edir].
    by destruct (g_file _ HT _ _ _ Hid Ef) as [[c ->] _].
  - destruct (T !! file_of root id name) as [n'|] eqn:Ef.
    { destruct (g_file _ HT _ _ _ Hid Ef) as [_ Hd]. congruence. }
    destruct (is_dir T (app_dir root id)) eqn:Ei; [|done].
    apply (is_app_dir T id Hid) in Ei. congruence.
Qed.

Lemma fs_Write_good T p c : fs_Write p c (mkFs T []) = (Ret (inl tt), mkFs (<[p := File c]> T) []).
Proof. unfold fs_Write. by rewrite fs_call_ok. Qed.

(** Creating a file and writing it. *)
Lemma good_create_write T id name c :
  good_tree T → plain id → T !! app_dir root id = Some Dir →
  (name = deployedFileName → ∃ t, c = Text t ∧ t ≠ "") →
  (name = metadataFileName → doc_ok id (File c)) →
  good_tree (<[file_of root id name := File c]> (<[file_of root id name := File (Text "")]> T)).
Proof. intros. rewrite insert_insert_eq. by apply good_file. Qed.

(** Saving succeeds if the directory is there or is to be made. *)
Definition saved (d : DeployedApp) T : gmap path (fnode AppData) :=
  <[metadataFilePath d := File (Doc (da_Data d))]> (delete (tmpfile d) T).

Lemma Save_good u d T :
  app_ok cfg plain d → good_tree T → u = false ∨ T !! da_Path d = Some Dir →
  Save u d (mkFs T []) = (Ret None, mkFs (saved d (<[da_Path d := Dir]> T)) [])
  ∧ good_tree (saved d (<[da_Path d := Dir]> T)).
Proof.
  intros Hd HT Hu. pose proof (ao_ids _ _ _ Hd) as Hid. unfold saved.
  rewrite (meta_path _ _ _ Hd), (tmp_path _ _ _ Hd), (ao_path _ _ _ Hd) in *.
  set (id := da_Id d) in *. set (T1 := <[app_dir root id := Dir]> T).
  assert (good_tree T1) as HT1 by (by apply good_mkdir).
  assert (T1 !! app_dir root id = Some Dir) as Hdir by apply lookup_insert_eq.
  assert (make_dir u d (mkFs T []) = (Ret None, mkFs T1 [])) as Em.
  { unfold make_dir. destruct u.
    { destruct Hu as [?|Hu]; [done|]. unfold T1. by rewrite insert_id. }
    unfold mbind, GoM_bind, fs_Mkdir. rewrite (ao_path _ _ _ Hd), fs_call_ok by done. simpl.
    case_bool_decide as Hb.
    - destruct (T !! app_dir root id) as [n|] eqn:E; [|done]. unfold T1. rewrite insert_id; [done|].
      rewrite E. f_equal. by apply (g_dir _ HT id).
    - rewrite parent_dir, (g_root _ HT). done. }
  unfold Save. rewrite (bind_ret _ _ _ _ _ Em), (tmp_path _ _ _ Hd).
  pose proof (fs_Create_good T1 id "metadata.json.tmp" HT1 Hid) as Ec. rewrite Hdir in Ec.
  rewrite (bind_ret _ _ _ _ _ Ec), (bind_ret _ _ _ _ _ (fs_Write_good _ _ _)), insert_insert_eq.
  set (tmp := file_of root id "metadata.json.tmp"). set (T2 := <[tmp := File (Doc (da_Data d))]> T1).
  assert (good_tree T2) as HT2 by (by apply good_file).
  assert (fs_Rename tmp (metadataFilePath d) (mkFs T2 [])
    = (Ret (inl tt), mkFs (<[file_of root id metadataFileName := File (Doc (da_Data d))]>
                             (delete tmp T1)) [])) as Er.
  { assert (T2 !! tmp = Some (File (Doc (da_Data d)))) as E1 by apply lookup_insert_eq.
    assert (delete tmp T2 = delete tmp T1) as E2 by apply delete_insert_eq.
    assert (is_dir T2 (parent (file_of root id metadataFileName)) = true) as E3.
    { rewrite parent_file. apply (is_app_dir T2 id Hid). unfold T2.
      rewrite lookup_insert_ne; [done|]. by apply file_of_dir. }
    unfold fs_Rename. rewrite (meta_path _ _ _ Hd), fs_call_ok by done. simpl. fold id.
    rewrite E1, E2, E3. destruct (T2 !! file_of root id metadataFileName) as [n|] eqn:E; [|done].
    by destruct (g_file _ HT2 _ _ _ Hid E) as [[c ->] _]. }
  rewrite (bind_ret _ _ _ _ _ Er). split; [done|].
  apply good_file; [by apply good_delete|done| |done|].
  - rewrite lookup_delete_ne; [done|]. by apply file_of_dir.
  - intros _. exists (da_Data d). destruct Hd as [_ _ Hs Ht]. by split_and!.
Qed.

(** Without a directory a save fails and changes nothing. *)
Lemma Save_nodir d T :
  app_ok cfg plain d → good_tree T → T !! da_Path d = None →
  ∃ e, Save true d (mkFs T []) = (Ret (Some e), mkFs T []).
Proof.
  intros Hd HT Hn. rewrite (ao_path _ _ _ Hd) in Hn. unfold Save.
  assert (make_dir true d (mkFs T []) = (Ret None, mkFs T [])) as Em by done.
  rewrite (bind_ret _ _ _ _ _ Em), (tmp_path _ _ _ Hd).
  pose proof (fs_Create_good T (da_Id d) "metadata.json.tmp" HT (ao_ids _ _ _ Hd)) as Ec.
  rewrite Hn in Ec. rewrite (bind_ret _ _ _ _ _ Ec). by eexists.
Qed.

Lemma text_newline_nonempty id : id +:+ newline ≠ "".
Proof. by destruct id. Qed.

Lemma SetDeployed_good x d T :
  app_ok cfg plain d → good_tree T → T !! da_Path d = Some Dir →
  SetDeployed x d (mkFs T [])
  = (Ret (with_id x d, None), mkFs (<[deployedFilePath d := File (Text (x +:+ newline))]> T) [])
  ∧ good_tree (<[deployedFilePath d := File (Text (x +:+ newline))]> T).
Proof.
  intros Hd HT Hdir. pose proof (ao_ids _ _ _ Hd) as Hid. unfold SetDeployed.
  change (deployedFilePath (with_id x d)) with (deployedFilePath d).
  rewrite (deployed_path _ _ _ Hd), (ao_path _ _ _ Hd) in *.
  pose proof (fs_Create_good T (da_Id d) deployedFileName HT Hid) as Ec. rewrite Hdir in Ec.
  rewrite (bind_ret _ _ _ _ _ Ec), (bind_ret _ _ _ _ _ (fs_Write_good _ _ _)), insert_insert_eq.
  split; [done|]. apply good_file; [done..| |done].
  intros _. eexists. split; [done|apply text_newline_nonempty].
Qed.

(** ** The layout is kept *)

Lemma good_intro f : fs_faults f = [] → good_tree (fs_tree f) → good f.
Proof. by split. Qed.

Lemma good_eta f : good f → f = mkFs (fs_tree f) [].
Proof. intros [Hn _]. destruct f. simpl in *. by subst. Qed.

(** The directory of an application is there or not. *)
Lemma dir_cases T d :
  app_ok cfg plain d → good_tree T → T !! da_Path d = Some Dir ∨ T !! da_Path d = None.
Proof.
  intros Hd HT. rewrite (ao_path _ _ _ Hd).
  destruct (T !! app_dir root (da_Id d)) as [n|] eqn:E; [|by right]. left. f_equal.
  by apply (g_dir _ HT _ _ (ao_ids _ _ _ Hd)).
Qed.

Lemma good_load id f d f' :
  plain id → good f → Load root id f = (Ret (inl d), f') →
  da_Path d = app_dir root id ∧ fs_tree f' = fs_tree f
  ∧ fs_tree f !! file_of root id metadataFileName = Some (File (Doc (da_Data d)))
  ∧ da_Id d = id ∧ app_Source (da_App d) = None
  ∧ (da_Type d = Container ∨ da_Type d = VM).
Proof.
  intros Hid [_ HT]. apply (load_ok cfg plain (fs_tree f)); [done|].
  split; [apply HT|done].
Qed.

Lemma preserves_good {A} (m : GoM (Fs AppData) A) :
  (∀ T, good_tree T → ∃ r T', m (mkFs T []) = (r, mkFs T' []) ∧ good_tree T') →
  preserves good m.
Proof.
  intros Hm f Hf. rewrite (good_eta f Hf). destruct (Hm (fs_tree f) (g_tree _ Hf)) as (r & T' & -> & HT').
  by split.
Qed.

Lemma Save_keeps u d T :
  app_ok cfg plain d → good_tree T →
  ∃ r T', Save u d (mkFs T []) = (r, mkFs T' []) ∧ good_tree T'.
Proof.
  intros Hd HT. destruct (dir_cases T d Hd HT) as [Hdir|Hn].
  - destruct (Save_good u d T Hd HT (or_intror Hdir)) as [E HT']. rewrite E. by do 2 eexists.
  - destruct u.
    + destruct (Save_nodir d T Hd HT Hn) as [e E]. rewrite E. by do 2 eexists.
    + destruct (Save_good false d T Hd HT (or_introl eq_refl)) as [E HT']. rewrite E.
      by do 2 eexists.
Qed.

Lemma kept_good : kept cfg plain (app_ok cfg plain) good.
Proof.
  split.
  - intros st d []. by split.
  - intros id d []. by split.
  - intros t app d. by apply app_ok_new.
  - intros id f d f' Hid Hf HL.
    destruct (good_load id f d f' Hid Hf HL) as (Hp & _ & _ & Hi & Hs & Ht).
    split_and!; try done. by split; [rewrite Hi|rewrite Hi|..].
  - intros q. apply preserves_good. intros T HT. unfold fs_Open. rewrite fs_call_ok by done.
    by do 2 eexists.
  - intros q. apply preserves_good. intros T HT. unfold fs_ReadFile. rewrite fs_call_ok by done.
    by do 2 eexists.
  - intros u d Hd. apply preserves_good. intros T HT. by apply Save_keeps.
  - intros d c err Hd. apply preserves_good. intros T HT. unfold copy_file.
    rewrite (image_path _ _ _ Hd).
    pose proof (fs_Create_good T (da_Id d) imageFileName HT (ao_ids _ _ _ Hd)) as Ec.
    rewrite <-(ao_path _ _ _ Hd) in Ec.
    destruct (dir_cases T d Hd HT) as [Hdir|Hn].
    + rewrite Hdir in Ec. rewrite (bind_ret _ _ _ _ _ Ec), (bind_ret _ _ _ _ _ (fs_Write_good _ _ _)).
      do 2 eexists. split; [done|]. rewrite (ao_path _ _ _ Hd) in Hdir.
      apply good_create_write; [done|apply Hd|done| |]; intros E; discriminate E.
    + rewrite Hn in Ec. rewrite (bind_ret _ _ _ _ _ Ec). by do 2 eexists.
  - intros id d Hd. apply preserves_good. intros T HT.
    destruct (dir_cases T d Hd HT) as [Hdir|Hn].
    + destruct (SetDeployed_good id d T Hd HT Hdir) as [E HT']. rewrite E. by do 2 eexists.
    + unfold SetDeployed. change (deployedFilePath (with_id id d)) with (deployedFilePath d).
      rewrite (deployed_path _ _ _ Hd). rewrite (ao_path _ _ _ Hd) in Hn.
      pose proof (fs_Create_good T (da_Id d) deployedFileName HT (ao_ids _ _ _ Hd)) as Ec.
      rewrite Hn in Ec. rewrite (bind_ret _ _ _ _ _ Ec). by do 2 eexists.
  - intros d Hd. apply preserves_good. intros T HT. unfold SetUndeployed, mbind, GoM_bind, fs_Remove.
    rewrite (deployed_path _ _ _ Hd), fs_call_ok by done. cbn [fst snd fs_tree].
    destruct (T !! _) as [[|c]|]; do 2 eexists; (split; [done|]); [done|by apply good_delete|done].
  - intros d Hd. apply preserves_good. intros T HT. unfold fs_RemoveAll.
    rewrite fs_call_ok by done. cbn [fst snd fs_tree]. do 2 eexists. split; [done|].
    rewrite (ao_path _ _ _ Hd). by apply good_drop.
Qed.
End good.
