(* ===== verification/EvaSettle.v ===== *)
(** * Tasks come to an end

    What a task of the agent leaves behind when the disk works: it returns
    without a panic, and the metadata of its application, if it is still
    there, has a status that calls can act upon. *)

From S2P Require Import Prelude Strconv GoNet GoPath EvaMeta EvaEnv EvaDeploy EvaLife EvaInv EvaFiles EvaGood.
From stdpp Require Import prelude strings list gmap.
From Stdlib Require Import ZArith.

Local Open Scope Z_scope.

(** ** The name of a loaded image *)

Lemma str_index_split s sub i :
  str_index s sub = Some i →
  ∃ pre post, s = pre +:+ sub +:+ post ∧ String.length pre = i.
Proof.
  revert i. induction s as [|c s IH]; intros i; cbn [str_index];
    destruct (Strconv.strip_prefix sub _) as [rest|] eqn:E.
  - intros [= <-]. apply strip_prefix_Some in E. by exists "", rest.
  - done.
  - intros [= <-]. apply strip_prefix_Some in E. by exists "", rest.
  - destruct (str_index s sub) as [j|]; [|done]. intros [= <-].
    destruct (IH j eq_refl) as (pre & post & -> & <-). by exists (String c pre), post.
Qed.

Lemma substring_all s : String.substring 0 (String.length s) s = s.
Proof. induction s as [|c s IH]; simpl; [done|by rewrite IH]. Qed.

Lemma substring_skip a b : String.substring (String.length a) (String.length b) (a +:+ b) = b.
Proof. induction a as [|c a IH]; [apply substring_all|exact IH]. Qed.

Fixpoint last_byte (s : string) : option Ascii.ascii :=
  match s with
  | EmptyString => None
  | String c EmptyString => Some c
  | String _ s' => last_byte s'
  end.

Definition ends_line (s : string) : Prop := last_byte s = Some (Ascii.ascii_of_nat 10).

Lemma last_byte_app a b : b ≠ "" → last_byte (a +:+ b) = last_byte b.
Proof.
  intros Hb. induction a as [|c a IH]; [done|]. rewrite <-IH. cbn.
  by destruct a; [destruct b|].
Qed.

(** Cutting out a text that ends no line leaves the end of the line. *)
Lemma replace_first_ends s old :
  ends_line s → old ≠ "" → ¬ ends_line old → ends_line (replace_first s old "").
Proof.
  unfold ends_line. intros Hs Hne Hold. unfold replace_first.
  destruct (str_index s old) as [i|] eqn:E; [|done].
  apply str_index_split in E as (pre & post & -> & <-).
  rewrite !(str_length_app pre), !(str_length_app old).
  replace (_ - _)%nat with (String.length post) by lia.
  rewrite <-(str_app_assoc pre old post), <-(str_length_app pre), substring_skip in *.
  destruct (decide (post = "")) as [->|Hp].
  - rewrite str_app_nil_r, last_byte_app in Hs by done. done.
  - rewrite last_byte_app in Hs by done. cbn. by rewrite last_byte_app.
Qed.

(** The name is found in every answer whose text is a line. *)
Lemma parseImageName_returns body :
  (∀ t, body = BodyStream t → t ≠ "" → ends_line t) → ∀ e, parseImageName body ≠ Panic e.
Proof.
  intros Hline e. destruct body as [m|m|t]; [done|done|]. cbn [parseImageName].
  unfold str_empty. case_bool_decide as Ht; [done|]. destruct (negb _); [done|].
  specialize (Hline t eq_refl Ht).
  apply (replace_first_ends _ "Loaded image ID: ") in Hline; [|done|by intros ?].
  set (out := replace_first t _ _) in *. cbv zeta.
  assert (ends_line (if str_contains out "Loaded image: " then replace_first out "Loaded image: " ""
                     else out)) as Hout.
  { destruct (str_contains _ _); [|done]. by apply replace_first_ends; [| |intros ?]. }
  by destruct (if str_contains _ _ then _ else _).
Qed.

(** ** No panic *)

(** What the agent takes for granted of Docker and libvirt: the text that
    reports a loaded image is a line, a listed container has a name that is not
    empty, and an interface that a domain describes has a source and a hardware
    address. *)
Record sane `{EvaWorld} : Prop := {
  sane_line : ∀ image x resp x' t, answer (ImageLoad image) x = (inl resp, x') →
    il_Body resp = BodyStream t → t ≠ "" → ends_line t;
  sane_names : ∀ name x l x' c, answer (ContainerList name) x = (inl l, x') → c ∈ l →
    "" ∉ cs_Names c;
  sane_ifaces : ∀ dom x l x' i, answer (DomXML dom) x = (inl l, x') → i ∈ l →
    if_SourceNetwork i ≠ None ∧ if_MAC i ≠ None;
}.

Section returns.
Context `{EvaWorld}.

Lemma returns_call {A} (e : ext A) : returns (call e).
Proof. intros s. unfold call. destruct (answer e (ev_ext s)). by do 2 eexists. Qed.

Lemma returns_fs {A} (m : GoM (Fs AppData) A) : returns m → returns (fs m).
Proof. intros Hm s. unfold fs. destruct (Hm (ev_fs s)) as (a & f & ->). by do 2 eexists. Qed.

Lemma returns_try {A R} m (fail : string → R) (k : A → GoM Eva R) :
  returns m → (∀ a, returns (k a)) → returns (try m fail k).
Proof. intros Hm Hk. apply returns_bind; [done|]. intros []; [done|apply returns_ret]. Qed.

Lemma returns_unless m k : returns m → returns k → returns (unless m k).
Proof. intros Hm Hk. apply returns_bind; [done|]. intros []; [apply returns_ret|done]. Qed.

Lemma returns_fs_call {D A} op broken : returns (fs_call (D:=D) (A:=A) op broken).
Proof. intros f. destruct (fs_call_cases op broken f) as [[? E]|E]; rewrite E; by do 2 eexists. Qed.

Lemma returns_Save u d : returns (Save u d).
Proof. intros f. destruct (Save_effect u d f) as (? & ? & E & _). rewrite E. by do 2 eexists. Qed.

End returns.

Create HintDb returns discriminated.
#[export] Hint Resolve returns_ret returns_call returns_Save returns_fs_call : returns.

Ltac solve_returns :=
  repeat first
    [ done
    | progress cbv beta zeta
    | solve [auto with returns]
    | apply returns_try; [|intros ?]
    | apply returns_unless
    | apply returns_fs
    | apply returns_bind; [|intros ?]
    | case_match ].

Section tasks.
Context `{EvaWorld} (cfg : EvaConfig) (NoCNI : cfg_UseCNI cfg = false) (Sane : sane).

Lemma returns_copy_file target c err : returns (copy_file target c err).
Proof. unfold copy_file, fs_Create, fs_Write. solve_returns. Qed.

Lemma returns_SetUndeployed d : returns (SetUndeployed d).
Proof. unfold SetUndeployed, fs_Remove. solve_returns. Qed.
#[local] Hint Resolve returns_copy_file returns_SetUndeployed : returns.

Lemma returns_downloadImage url target : returns (downloadImage url target).
Proof. unfold downloadImage, fs_Open, fs_ReadFile. solve_returns. Qed.

Lemma returns_loadImage d : returns (loadImage d).
Proof.
  unfold loadImage. apply returns_bind; [apply returns_fs, returns_fs_call|].
  intros [image|e]; [|apply returns_ret]. intros s. unfold try, mbind, GoM_bind, call.
  destruct (answer (ImageLoad image) (ev_ext s)) as [[resp|e] x] eqn:E; [|by do 2 eexists].
  destruct (negb _); [by do 2 eexists|].
  pose proof (parseImageName_returns (il_Body resp)
    (λ t, sane_line Sane _ _ _ _ t E)) as Hp.
  destruct (parseImageName _) as [[[name []]|e]|e]; [..|by destruct (Hp e)];
    unfold mret, GoM_ret; simpl; repeat case_match; simplify_eq; by do 2 eexists.
Qed.

Lemma returns_handlers m :
  returns (StartHandler cfg m) ∧ returns (StopHandler cfg m) ∧ returns (RestartHandler cfg m).
Proof.
  assert (∀ dom st n, returns (poll_state dom st n)) as Hpoll.
  { intros dom st n. induction n as [|n IH]; cbn [poll_state]; solve_returns. }
  unfold StartHandler, StopHandler, RestartHandler, container_StartHandler,
    container_StopHandler, container_RestartHandler, vm_StartHandler, vm_StopHandler,
    vm_RestartHandler, with_domain, startVM, waitForDomStateChange.
  rewrite NoCNI. split_and!; solve_returns.
Qed.

Lemma returns_syncUndeploy d : returns (syncUndeploy cfg d).
Proof.
  unfold syncUndeploy, dockerUndeploy, libvirtUndeploy, removePorts, removeOVSPort, fs_RemoveAll.
  rewrite NoCNI. solve_returns.
Qed.

(** ** What jobs leave *)

Abbreviation root := (RootPath cfg).
Abbreviation Ok := (app_ok cfg plain).

(** A status between two calls: the work is under way. *)
Definition transitional (st : Status) : Prop := st = DEPLOYING ∨ st = STARTING ∨ st = STOPPING.

(** The files are in order and the directory of the application is there. *)
Definition good_at (d : DeployedApp) (f : Fs AppData) : Prop :=
  good cfg f ∧ fs_tree f !! da_Path d = Some Dir.

Definition job_at (sd : Eva * DeployedApp) : Prop :=
  on_files (good_at sd.2) sd.1 ∧ Ok sd.2.

Definition job_done (sd : Eva * DeployedApp) : Prop := ¬ transitional (da_Status sd.2).

Lemma triple_job_eva {A} (m : GoM Eva A) :
  returns m → (∀ d, preserves (on_files (good_at d)) m) →
  triple job_at (on_eva m) (λ _, job_at).
Proof.
  intros Hm Hp [s d] [Hs Hd]. destruct (Hm s) as (a & s' & E). exists a, (s', d).
  unfold on_eva. rewrite E. split; [done|]. split; [|done].
  specialize (Hp d s Hs). by rewrite E in Hp.
Qed.

Lemma triple_job_call {A} (e : ext A) : triple job_at (on_eva (call e)) (λ _, job_at).
Proof. apply triple_job_eva; [apply returns_call|]. intros. apply preserves_call. Qed.

Lemma triple_job_of_call {A} (e : ext A) : triple job_at (of_call (call e)) (λ _, job_at).
Proof.
  apply triple_job_eva; [apply returns_try; auto with returns|]. intros. keep_files.
Qed.

Lemma triple_job_get {A} (k : DeployedApp → GoM (Eva * DeployedApp) A) Q :
  (∀ d, Ok d → triple job_at (k d) Q) → triple job_at (d ← get_dapp; k d) Q.
Proof. intros Hk [s d] Hsd. apply (Hk d); [apply Hsd|exact Hsd]. Qed.

Lemma triple_job_status (P : Eva * DeployedApp → Prop) st :
  ¬ transitional st → triple P (put_status st) (λ _, job_done).
Proof. intros Hst [s d] _. by exists tt, (s, with_status st d). Qed.

Lemma ready_done : ¬ transitional READY. Proof. by intros [|[]]. Qed.
Lemma error_done : ¬ transitional ERROR. Proof. by intros [|[]]. Qed.

Lemma triple_or_error P m k :
  triple P m (λ _, job_at) → triple job_at k (λ _, job_done) →
  triple P (or_error m k) (λ _, job_done).
Proof.
  intros Hm Hk. eapply triple_bind; [exact Hm|]. intros [e|]; [|exact Hk].
  apply triple_job_status, error_done.
Qed.

(** The identifier is recorded, as the directory is there. *)
Lemma job_SetDeployed_done id :
  triple job_at (or_return (job_SetDeployed id) (put_status READY)) (λ _, job_done).
Proof.
  apply (triple_bind _ _ (λ err _, err = None)).
  - intros [s d] [[Hg Hdir] Hd]. unfold job_SetDeployed, fs. simpl in *.
    rewrite (good_eta _ _ Hg) in Hdir |- *. simpl in Hdir.
    destruct (SetDeployed_good cfg id d _ Hd (g_tree _ _ Hg) Hdir) as [E _].
    rewrite E. by do 2 eexists.
  - intros [e|]; [by intros ? ?|]. apply triple_job_status, ready_done.
Qed.

Lemma saved_dir d T : Ok d → saved d T !! da_Path d = T !! da_Path d.
Proof.
  intros Hd. unfold saved. rewrite (meta_path _ _ _ Hd), (tmp_path _ _ _ Hd), (ao_path _ _ _ Hd).
  rewrite lookup_insert_ne, lookup_delete_ne; [done|by apply file_of_dir..].
Qed.

Lemma preserves_good_at {A} d (m : GoM (Fs AppData) A) :
  preserves (good cfg) m →
  (∀ f, good_at d f → fs_tree (m f).2 !! da_Path d = Some Dir) → preserves (good_at d) m.
Proof. intros Hg Hd f Hf. split; [apply Hg, Hf|by apply Hd]. Qed.

Lemma good_at_read d q : preserves (good_at d) (fs_ReadFile q).
Proof.
  apply preserves_good_at; [apply (keep_read _ _ _ _ (kept_good cfg))|]. intros f [_ Hf].
  destruct (fs_ReadFile_cases q f) as (r & f' & E & HT & _). rewrite E. simpl. by rewrite HT.
Qed.

Lemma good_at_open d q : preserves (good_at d) (fs_Open q).
Proof.
  apply preserves_good_at; [apply (keep_open _ _ _ _ (kept_good cfg))|]. intros f [_ Hf].
  by rewrite fs_Open_same.
Qed.

Lemma good_at_image d c err : Ok d → preserves (good_at d) (copy_file (ImageFilePath d) c err).
Proof.
  intros Hd. apply preserves_good_at; [by apply (kept_good cfg)|]. intros f [_ Hf].
  unfold copy_file. rewrite (image_path _ _ _ Hd). rewrite (ao_path _ _ _ Hd) in *.
  set (p := file_of _ _ _).
  assert (∀ (T : gmap path (fnode AppData)) c, T !! app_dir root (da_Id d) = Some Dir →
    <[p := File c]> T !! app_dir root (da_Id d) = Some Dir) as Hi.
  { intros T c' HT. rewrite lookup_insert_ne; [done|]. by apply file_of_dir. }
  destruct (fs_Create_cases p f) as (r & f1 & E & [[[e ->] HT]|[-> HT]]);
    rewrite (bind_ret _ _ _ _ _ E); [by simpl; rewrite HT|].
  destruct (fs_Write_cases p c f1) as (r & f2 & E2 & Hr). rewrite (bind_ret _ _ _ _ _ E2). simpl.
  destruct Hr as [(e & c' & _ & ->)|[_ ->]]; rewrite HT; auto.
Qed.

Lemma good_at_download url d :
  Ok d → preserves (on_files (good_at d)) (downloadImage url (ImageFilePath d)).
Proof.
  intros Hd. assert (∀ c err, preserves (on_files (good_at d)) (fs (copy_file (ImageFilePath d) c err))).
  { intros. by apply preserves_fs, good_at_image. }
  assert (∀ q, preserves (on_files (good_at d)) (fs (fs_ReadFile q))).
  { intros. apply preserves_fs, good_at_read. }
  assert (∀ q, preserves (on_files (good_at d)) (fs (fs_Open q))).
  { intros. apply preserves_fs, good_at_open. }
  unfold downloadImage. keep_files.
Qed.

Lemma good_at_load d d' : preserves (on_files (good_at d)) (loadImage d').
Proof.
  assert (∀ q, preserves (on_files (good_at d)) (fs (fs_ReadFile q))).
  { intros. apply preserves_fs, good_at_read. }
  unfold loadImage. keep_files.
Qed.

Lemma Save_new d :
  Ok d → triple (on_files (good cfg)) (fs (Save false d))
           (λ err s, err = None ∧ on_files (good_at d) s).
Proof.
  intros Hd s Hs. unfold on_files in Hs. unfold fs. rewrite (good_eta _ _ Hs).
  destruct (Save_good cfg false d _ Hd (g_tree _ _ Hs) (or_introl eq_refl)) as [E Hg].
  rewrite E. do 2 eexists. split; [done|]. split; [done|]. split; [by split|].
  simpl. by rewrite saved_dir, lookup_insert_eq.
Qed.

Lemma triple_deployCommon : triple (job_ok Ok (good cfg)) deployCommon (λ _, job_at).
Proof.
  intros [s d] [Hg Hd]. unfold deployCommon, mbind, GoM_bind, put_status, get_dapp, on_eva.
  set (d1 := with_status DEPLOYING d). assert (Ok d1) as Hd1 by (by apply (kept_good cfg)).
  destruct (Save_new d1 Hd1 s Hg) as (err & s1 & E & -> & Hs1). rewrite E.
  destruct (returns_downloadImage (ad_URL (da_Data d1)) (ImageFilePath d1) s1) as (r & s2 & E2).
  pose proof (good_at_download (ad_URL (da_Data d1)) d1 Hd1 s1 Hs1) as Hs2.
  rewrite E2 in *. by exists r, (s2, d1).
Qed.

Lemma triple_load d : triple job_at (on_eva (loadImage d)) (λ _, job_at).
Proof. apply triple_job_eva; [by apply returns_loadImage|]. intros. apply good_at_load. Qed.

Lemma job_error_at {A} (k : GoM (Eva * DeployedApp) A) Q :
  triple (λ sd, job_at sd ∧ job_done sd) k Q → triple job_at (put_status ERROR ;; k) Q.
Proof.
  intros Hk [s d] [Hs Hd]. apply (Hk (s, with_status ERROR d)).
  split; [|apply error_done]. split; [done|]. by apply (kept_good cfg).
Qed.

(** The container job sets the status before anything can end it. *)
Lemma deploy_container_done :
  triple (job_ok Ok (good cfg)) (deploy_container_job cfg) (λ _, job_done).
Proof.
  unfold deploy_container_job. rewrite NoCNI.
  apply triple_or_error; [apply triple_deployCommon|].
  apply triple_or_error; [apply triple_job_of_call|].
  apply triple_job_get. intros d Hd. apply triple_or_error; [apply triple_load|].
  apply job_error_at. case_match.
  - eapply triple_conseq; [apply job_SetDeployed_done|by intros ? []|done].
  - unfold create_container. destruct (processEAC _ _ _) as [h c].
    eapply (triple_bind _ _ (λ _ sd, job_at sd ∧ job_done sd)).
    + intros [s d'] [Hs Hst]. destruct (triple_job_call (ContainerCreate c h (app_Id (da_App d)))
        (s, d') Hs) as (r & [s' d''] & E & Hs'). exists r, (s', d''). split; [done|]. split; [done|].
      unfold on_eva in E. destruct (call _ s). by injection E as _ _ <-.
    + intros [id|e]; [|by apply triple_ret; intros ? []].
      eapply triple_conseq; [apply job_SetDeployed_done|by intros ? []|done].
Qed.

Lemma configureIfs_at domcfg : triple job_at (configureIfs cfg domcfg) (λ _, job_at).
Proof.
  unfold configureIfs. apply triple_job_get. intros d Hd. rewrite NoCNI. unfold configure_ovs.
  case_match; [|by apply triple_ret]. apply (triple_bind _ _ (λ _, job_at)); [|intros; by apply triple_ret].
  apply triple_job_eva.
  - unfold addOVSPort, isOVSBridgeCreated. solve_returns.
  - intros. unfold addOVSPort, isOVSBridgeCreated. keep_files.
Qed.

Lemma deploy_vm_done :
  triple (job_ok Ok (good cfg)) (deploy_vm_job cfg) (λ _, job_done).
Proof.
  unfold deploy_vm_job. apply triple_or_error; [apply triple_deployCommon|].
  apply triple_or_error; [apply triple_job_of_call|]. apply triple_job_get. intros d Hd.
  eapply triple_bind; [apply configureIfs_at|]. intros dom. cbv zeta.
  apply triple_or_error; [apply triple_job_of_call|].
  eapply triple_bind; [apply triple_job_call|]. intros [h|e].
  - eapply triple_bind; [apply triple_job_call|]. intros ?. apply job_SetDeployed_done.
  - apply triple_job_status, error_done.
Qed.

(** ** What tasks leave *)

(** No work is under way on the application that the tree stores under [id]. *)
Definition settled (id : string) (T : gmap path (fnode AppData)) : Prop :=
  ∀ a, T !! file_of root id metadataFileName = Some (File (Doc a)) →
    ¬ transitional (app_Status (ad_App a)).

Lemma saved_settled d T : Ok d → ¬ transitional (da_Status d) → settled (da_Id d) (saved d T).
Proof.
  intros Hd Hst a. unfold saved. rewrite (meta_path _ _ _ Hd), lookup_insert_eq.
  by intros [= <-].
Qed.

(** Saving a final status settles the application, or it has no directory. *)
Lemma Save_settles d s :
  Ok d → ¬ transitional (da_Status d) → on_files (good cfg) s →
  settled (da_Id d) (fs_tree (ev_fs (fs (Save true d) s).2)).
Proof.
  intros Hd Hst Hs. unfold on_files in Hs. unfold fs. rewrite (good_eta _ _ Hs).
  pose proof (g_tree _ _ Hs) as HT. destruct (dir_cases cfg _ d Hd HT) as [Hdir|Hn].
  - destruct (Save_good cfg true d _ Hd HT (or_intror Hdir)) as [E _]. rewrite E.
    by apply saved_settled.
  - destruct (Save_nodir cfg d _ Hd HT Hn) as [e E]. rewrite E. intros a Ha. simpl in Ha.
    destruct (g_file _ _ HT _ _ _ (ao_ids _ _ _ Hd) Ha) as [_ Hdir].
    rewrite (ao_path _ _ _ Hd) in Hn. congruence.
Qed.

Definition only (id id' : string) : Prop := id' = id.

Lemma only_plain id : plain id → ∀ id', only id id' → plain id'.
Proof. by intros ? ? ->. Qed.

Lemma ok_only d : Ok d → app_ok cfg (only (da_Id d)) d.
Proof. by intros []. Qed.

Lemma good_files_ok ids f : good cfg f → files_ok cfg ids (fs_tree f) f.
Proof. intros [_ HT]. split; [apply HT|done]. Qed.

Lemma final_save_settles job d :
  preserves (job_ok Ok (good cfg)) job →
  (∀ T0, preserves (job_ok (app_ok cfg (only (da_Id d))) (files_ok cfg (only (da_Id d)) T0)) job) →
  triple (job_ok Ok (good cfg)) job (λ _, job_done) → Ok d →
  triple (on_files (good cfg)) (with_final_save job d)
    (λ _ s, settled (da_Id d) (fs_tree (ev_fs s))).
Proof.
  intros Hk Ho Hj Hd s Hs. unfold with_final_save.
  destruct (Hj (s, d) (conj Hs Hd)) as (r & [s' d'] & E & Hst).
  specialize (Hk (s, d) (conj Hs Hd)).
  specialize (Ho _ (s, d) (conj (good_files_ok _ _ Hs) (ok_only d Hd))). rewrite E in *.
  destruct Hk as [Hs' Hd'], Ho as [_ [Hid _ _ _]]. simpl in *.
  pose proof (Save_settles d' s' Hd' Hst Hs') as HS.
  destruct (returns_fs _ (returns_Save true d') s') as (e & s'' & E'). rewrite E' in *.
  exists r, s''. split; [done|]. by rewrite <-Hid.
Qed.

Lemma container_settles d :
  Ok d → triple (on_files (good cfg)) (syncDeployContainer cfg d)
           (λ _ s, settled (da_Id d) (fs_tree (ev_fs s))).
Proof.
  intros Hd. apply final_save_settles; [|intros T0| |done].
  - apply (job_deploy_container _ plain), kept_good.
  - apply (job_deploy_container _ (only (da_Id d))), kept_files_ok, only_plain, Hd.
  - apply deploy_container_done.
Qed.

Lemma vm_settles d :
  Ok d → triple (on_files (good cfg)) (syncDeployVM cfg d)
           (λ _ s, settled (da_Id d) (fs_tree (ev_fs s))).
Proof.
  intros Hd. apply final_save_settles; [|intros T0| |done].
  - apply (job_deploy_vm _ plain), kept_good.
  - apply (job_deploy_vm _ (only (da_Id d))), kept_files_ok, only_plain, Hd.
  - apply deploy_vm_done.
Qed.

(** Removing the directory removes the metadata. *)
Lemma RemoveAll_settles d s :
  Ok d → on_files (good cfg) s →
  settled (da_Id d) (fs_tree (ev_fs (fs (fs_RemoveAll (da_Path d)) s).2)).
Proof.
  intros Hd Hs. unfold on_files in Hs. unfold fs. rewrite (good_eta _ _ Hs). unfold fs_RemoveAll.
  rewrite fs_call_ok by done. intros a. simpl. intros [_ Hu]%map_lookup_filter_Some. simpl in Hu.
  by rewrite (ao_path _ _ _ Hd), under_file in Hu.
Qed.

Lemma undeploy_settles d :
  Ok d → triple (on_files (good cfg)) (syncUndeploy cfg d)
           (λ _ s, on_files (good cfg) s ∧ settled (da_Id d) (fs_tree (ev_fs s))).
Proof.
  intros Hd s Hs. destruct (returns_syncUndeploy d s) as (err & s' & E).
  pose proof (files_syncUndeploy cfg plain Ok (good cfg) (kept_good cfg) d Hd s Hs) as Hg.
  exists err, s'. rewrite E in Hg. do 2 (split; [done|]). revert E. unfold syncUndeploy.
  rewrite bool_decide_eq_false_2 by (destruct (ao_type _ _ _ Hd); naive_solver).
  pose proof (files_undeploy cfg plain Ok (good cfg) (kept_good cfg) d Hd s Hs) as Hu.
  set (m := if bool_decide _ then _ else _) in *. unfold mbind, GoM_bind.
  destruct (m s) as [[[e|]|e] s1]; [| |done]; simpl in Hu.
  - pose proof (Save_settles (with_status ERROR d) s1) as HS.
    destruct (fs (Save true _) s1) as [[|] s2]; [|done]. intros [= _ <-]. apply HS; [|apply error_done|done].
    by apply (kept_good cfg).
  - pose proof (RemoveAll_settles d s1 Hd Hu) as HS.
    destruct (fs (fs_RemoveAll _) s1) as [[|] s2]; [|done]. by intros [= _ <-].
Qed.

Lemma handler_settles m h st :
  returns h → preserves (on_files (good cfg)) h → Ok m → ¬ transitional st →
  triple (on_files (good cfg)) (run_handler m h st)
    (λ _ s, settled (da_Id m) (fs_tree (ev_fs s))).
Proof.
  intros Hh Hp Hm Hst s Hs. specialize (Hp s Hs). destruct (Hh s) as (err & s1 & E).
  rewrite E in Hp. unfold run_handler. rewrite (bind_ret _ _ _ _ _ E). unfold updateStatus.
  set (m' := with_status _ m).
  destruct (returns_fs _ (returns_Save true m') s1) as (e & s2 & E2).
  rewrite (bind_ret _ _ _ _ _ E2). exists tt, s2. split; [done|].
  pose proof (Save_settles m' s1) as HS. rewrite E2 in HS. apply HS; [|by destruct err; [apply error_done|]|done].
  by apply (kept_good cfg).
Qed.

(** Every task returns and leaves its application settled. *)
Lemma run_task_settles t :
  Ok (task_app t) → triple (on_files (good cfg)) (run_task cfg t)
    (λ _ s, settled (da_Id (task_app t)) (fs_tree (ev_fs s))).
Proof.
  destruct t as [d|d|d|d|m|m|m]; cbn [run_task task_app]; intros Hd.
  - by apply container_settles.
  - by apply vm_settles.
  - eapply triple_bind; [by apply undeploy_settles|]. intros [e|].
    { apply triple_ret. by intros ? []. }
    apply (triple_conseq _ (on_files (good cfg)) _ _ (λ _ s, settled (da_Id d) (fs_tree (ev_fs s))));
      [|by intros ? []|done].
    repeat case_bool_decide; [by apply container_settles|by apply vm_settles|].
    by destruct (ao_type _ _ _ Hd).
  - eapply triple_bind; [by apply undeploy_settles|]. intros err. apply triple_ret. by intros ? [].
  - by apply handler_settles; [apply returns_handlers|apply files_handlers| |intros [|[]]].
  - by apply handler_settles; [apply returns_handlers|apply files_handlers| |intros [|[]]].
  - by apply handler_settles; [apply returns_handlers|apply files_handlers| |intros [|[]]].
Qed.
End tasks.
