(* ===== verification/EvaStored.v ===== *)
(** * Calls on a disk that works

    The applications that the image directory stores, as a function of the
    tree, and what each call does to it. *)

From S2P Require Import Prelude Strconv GoNet GoPath EvaMeta EvaEnv EvaDeploy EvaLife EvaInv EvaFiles EvaGood EvaSettle.
From stdpp Require Import prelude strings list gmap.
From Stdlib Require Import ZArith.

Local Open Scope Z_scope.

Section stored.
Context (cfg : EvaConfig).
Abbreviation root := (RootPath cfg).
Abbreviation Ok := (app_ok cfg plain).
Abbreviation Tree := (gmap path (fnode AppData)).
Implicit Types (T : Tree) (id : string).

Definition stored T id : option DeployedApp :=
  match T !! file_of root id metadataFileName with
  | Some (File (Doc a)) =>
      Some (match T !! file_of root id deployedFileName with
            | Some (File (Text t)) =>
                mkDeployedApp a true (String.substring 0 (String.length t - 1) t) (app_dir root id)
            | _ => mkDeployedApp a false "" (app_dir root id)
            end)
  | _ => None
  end.

Lemma stored_ext T T' id :
  (∀ name, T !! file_of root id name = T' !! file_of root id name) → stored T id = stored T' id.
Proof. intros E. unfold stored. by rewrite !E. Qed.

Lemma stored_ok T id d : good_tree cfg T → plain id → stored T id = Some d → Ok d ∧ da_Id d = id.
Proof.
  intros HT Hid. unfold stored. destruct (T !! file_of root id metadataFileName) as [n|] eqn:E; [|done].
  destruct (g_docs _ _ HT _ _ Hid E) as (a & -> & Ha & Hs & Ht). intros [= <-].
  repeat case_match; (split; [split|]; simpl); unfold da_Id, da_App; simpl; by rewrite ?Ha.
Qed.

(** The directory of a stored application is there. *)
Lemma stored_dir T id d : good_tree cfg T → plain id → stored T id = Some d → T !! da_Path d = Some Dir.
Proof.
  intros HT Hid. unfold stored. destruct (T !! file_of root id metadataFileName) as [n|] eqn:E; [|done].
  destruct (g_file _ _ HT _ _ _ Hid E) as [_ Hd]. intros. by repeat case_match; simplify_eq.
Qed.

Lemma ReadFile_good p T :
  fs_ReadFile p (mkFs T [])
  = (Ret (match T !! p with
          | Some (File c) => inl c
          | Some Dir => inr (ErrOther "is a directory")
          | None => inr ErrNotExist
          end), mkFs T []).
Proof. unfold fs_ReadFile. by rewrite fs_call_ok. Qed.

(** Reading gives the stored application. *)
Lemma Load_doc id T a :
  plain id → T !! file_of root id metadataFileName = Some (File (Doc a)) →
  app_Id (ad_App a) = id → app_Source (ad_App a) = None →
  (∀ n, T !! file_of root id deployedFileName = Some n → ∃ t, n = File (Text t) ∧ t ≠ "") →
  ∃ d, stored T id = Some d ∧ da_Data d = a ∧ Load root id (mkFs T []) = (Ret (inl d), mkFs T []).
Proof.
  intros Hid E Ha Hs Hdep. unfold Load, stored.
  assert (str_empty id = false) as -> by (apply bool_decide_eq_false_2, Hid).
  unfold appPath. rewrite (path_Join_plain root) by done.
  rewrite !path_Join_plain by apply plain_names.
  fold (app_dir root id). fold (file_of root id metadataFileName).
  fold (file_of root id deployedFileName).
  rewrite (bind_ret _ _ _ _ _ (ReadFile_good _ _)), E.
  unfold unmarshal_AppData. rewrite bool_decide_eq_true_2 by done.
  assert (str_empty (app_Id (ad_App a)) = false) as ->.
  { unfold str_empty. rewrite Ha. apply bool_decide_eq_false_2, Hid. }
  rewrite (bind_ret _ _ _ _ _ (ReadFile_good _ _)).
  destruct (T !! file_of root id deployedFileName) as [n|] eqn:E2; [|by eexists].
  destruct (Hdep n eq_refl) as (t & -> & Ht'). destruct t; [done|by eexists].
Qed.

Lemma Load_good id f :
  plain id → good cfg f →
  ∃ e, Load root id f = (Ret (match stored (fs_tree f) id with Some d => inl d | None => inr e end), f).
Proof.
  intros Hid Hf. pose proof (g_tree _ _ Hf) as HT. rewrite (good_eta _ _ Hf). simpl.
  set (T := fs_tree f) in *.
  destruct (T !! file_of root id metadataFileName) as [n|] eqn:E.
  - destruct (g_docs _ _ HT _ _ Hid E) as (a & -> & Ha & Hs & Ht). exists "".
    destruct (Load_doc id T a Hid E Ha Hs (λ n, g_deployed _ _ HT id n Hid)) as (d & -> & _ & EL).
    exact EL.
  - unfold stored. rewrite E. unfold Load.
    assert (str_empty id = false) as -> by (apply bool_decide_eq_false_2, Hid).
    unfold appPath. rewrite (path_Join_plain root), !path_Join_plain by (done || apply plain_names).
    fold (app_dir root id). fold (file_of root id metadataFileName).
    rewrite (bind_ret _ _ _ _ _ (ReadFile_good _ _)), E. by eexists.
Qed.

(** Saving an application that is stored replaces its description. *)
Lemma stored_saved T d :
  Ok d → stored (saved d T) (da_Id d)
         = Some (match T !! file_of root (da_Id d) deployedFileName with
                 | Some (File (Text t)) =>
                     mkDeployedApp (da_Data d) true (String.substring 0 (String.length t - 1) t)
                       (app_dir root (da_Id d))
                 | _ => mkDeployedApp (da_Data d) false "" (app_dir root (da_Id d))
                 end).
Proof.
  intros Hd. unfold stored, saved. rewrite (meta_path _ _ _ Hd), (tmp_path _ _ _ Hd).
  rewrite lookup_insert_eq, lookup_insert_ne, lookup_delete_ne; [done|..];
    intros [_ E]%file_of_inj; discriminate E.
Qed.

Lemma stored_other T id' d : Ok d → id' ≠ da_Id d → stored (saved d T) id' = stored T id'.
Proof.
  intros Hd Hne. apply stored_ext. intros name. unfold saved.
  rewrite (meta_path _ _ _ Hd), (tmp_path _ _ _ Hd).
  rewrite lookup_insert_ne, lookup_delete_ne; [done|..]; by intros [E _]%file_of_inj.
Qed.

(** The status of a stored application is changed in place. *)
Lemma stored_status T id d st :
  good_tree cfg T → plain id → stored T id = Some d →
  stored (saved (with_status st d) T) id = Some (with_status st d).
Proof.
  intros HT Hid Hs. destruct (stored_ok _ _ _ HT Hid Hs) as [Hd Hi].
  assert (Ok (with_status st d)) as Hd' by (by apply (kept_good cfg)).
  pose proof (stored_saved T _ Hd') as E. change (da_Id (with_status st d)) with (da_Id d) in E.
  rewrite Hi in E. rewrite E. f_equal. revert Hs. unfold stored.
  destruct (T !! file_of root id metadataFileName) as [[|[a|]]|]; try done.
  destruct (T !! file_of root id deployedFileName) as [[|[|t]]|]; by intros [= <-].
Qed.
End stored.

(** ** Calls *)

Section calls.
Context `{EvaWorld} (cfg : EvaConfig).
Abbreviation root := (RootPath cfg).
Abbreviation Ok := (app_ok cfg plain).
Implicit Types (s : Eva) (id : string).

Definition tree_of s : gmap path (fnode AppData) := fs_tree (ev_fs s).

Lemma fs_Load_good id s :
  plain id → on_files (good cfg) s →
  ∃ e, fs (Load root id) s
       = (Ret (match stored cfg (tree_of s) id with Some d => inl d | None => inr e end), s).
Proof.
  intros Hid Hs. destruct (Load_good cfg id _ Hid Hs) as [e E]. exists e. unfold fs. rewrite E.
  by destruct s.
Qed.

(** Containers and domains that can be commanded have an identifier. *)
Lemma handler_good id s :
  plain id → on_files (good cfg) s →
  ∃ e, getAppLifecycleHandler cfg id s
       = (Ret (match stored cfg (tree_of s) id with
               | Some d => if str_empty (da_DeployedID d) then inr e else inl d
               | None => inr e
               end), s).
Proof.
  intros Hid Hs. destruct (fs_Load_good id s Hid Hs) as [e0 EL].
  unfold getAppLifecycleHandler, try. rewrite (bind_ret _ _ _ _ _ EL).
  destruct (stored _ _ _) as [d|]; [|by eexists]. destruct (str_empty _); by eexists.
Qed.

Lemma Save_status_good id s d st :
  plain id → on_files (good cfg) s → stored cfg (tree_of s) id = Some d →
  ∃ s', fs (Save true (with_status st d)) s = (Ret None, s')
    ∧ tree_of s' = saved (with_status st d) (tree_of s)
    ∧ ev_ext s' = ev_ext s ∧ on_files (good cfg) s'.
Proof.
  intros Hid Hs Hd. pose proof (g_tree _ _ Hs) as HT.
  destruct (stored_ok cfg _ _ _ HT Hid Hd) as [Ho _]. pose proof (stored_dir cfg _ _ _ HT Hid Hd) as Hdir.
  assert (Ok (with_status st d)) as Ho' by (by apply (kept_good cfg)).
  destruct (Save_good cfg true (with_status st d) _ Ho' HT (or_intror Hdir)) as [E Hg].
  change (da_Path (with_status st d)) with (da_Path d) in *. rewrite insert_id in E, Hg by done.
  unfold fs. rewrite (good_eta _ _ Hs), E. eexists. split; [done|]. do 2 (split; [done|]). by split.
Qed.

Definition commandable (target : Status) (d : DeployedApp) : Prop :=
  da_DeployedID d ≠ "" ∧ target ∈ allowed_targets (da_Status d).

#[global] Instance commandable_dec target d : Decision (commandable target d).
Proof. unfold commandable. apply _. Defined.

(** What the common part of [Start], [Stop] and [Restart] answers. *)
Lemma command_good target start id s :
  plain id → on_files (good cfg) s →
  ∃ r s', command cfg target start id s = (Ret r, s') ∧
    ((∃ d, stored cfg (tree_of s) id = Some d ∧ commandable target d
        ∧ r = inl (Some (start (with_status target d)))
        ∧ tree_of s' = saved (with_status target d) (tree_of s)
        ∧ ev_ext s' = ev_ext s ∧ on_files (good cfg) s')
     ∨ (∀ d, stored cfg (tree_of s) id = Some d → ¬ commandable target d)
        ∧ (∃ e, r = inr e) ∧ s' = s).
Proof.
  intros Hid Hs. destruct (handler_good id s Hid Hs) as [e0 EL].
  unfold command. rewrite (bind_ret _ _ _ _ _ EL). clear EL.
  destruct (stored cfg (tree_of s) id) as [d|] eqn:Hd.
  2: { do 2 eexists. split; [done|]. right. by split; [|split; [eexists|]]. }
  unfold str_empty. case_bool_decide as He.
  { do 2 eexists. split; [done|]. right. split; [by intros ? [= <-] []|]. by split; [eexists|]. }
  unfold IsChangeAllowed. case_bool_decide as Ha.
  - destruct (Save_status_good id s d target Hid Hs Hd) as (s' & E & HT & Hx & Hg).
    unfold updateStatus. rewrite (bind_ret _ _ _ _ _ E). do 2 eexists. split; [done|]. left.
    by exists d.
  - do 2 eexists. split; [done|]. right. split; [by intros ? [= <-] []|]. by split; [eexists|].
Qed.

(** Deploying answers without touching the files. *)
Lemma Deploy_good ty start app s :
  plain (app_Id app) → on_files (good cfg) s →
  ∃ r, Deploy cfg ty start app s = (Ret r, s) ∧
    ∀ d, stored cfg (tree_of s) (app_Id app) = Some d → da_IsDeployed d = true → ∃ e, r = inr e.
Proof.
  intros Hid Hs. destruct (fs_Load_good _ s Hid Hs) as [e0 EL].
  assert (∃ b, checkIfAppNotDeployed cfg (app_Id app) s = (Ret b, s) ∧
    ∀ d, stored cfg (tree_of s) (app_Id app) = Some d → da_IsDeployed d = true → b ≠ None)
    as (b & E & Hb).
  { unfold checkIfAppNotDeployed. rewrite (bind_ret _ _ _ _ _ EL).
    destruct (stored _ _ _) as [d|]; [|by eexists].
    destruct (da_IsDeployed d) eqn:Ed; eexists; (split; [done|]); intros ? [= <-] ?; congruence. }
  unfold Deploy. cbv zeta. change (da_Id (NewDeployedApp _ _ app)) with (app_Id app).
  rewrite (bind_ret _ _ _ _ _ E). destruct b as [e|]; [by eexists; split; [|eexists]|].
  destruct (checkDeployPreconditions _ _) as [d|e]; [destruct (IsChangeAllowed d DEPLOYING)|];
    (eexists; split; [done|]); intros d' Hd' Hdep; by destruct (Hb d' Hd' Hdep).
Qed.

Lemma Redeploy_good app s :
  plain (app_Id app) → on_files (good cfg) s →
  ∃ r, Redeploy cfg app s = (Ret r, s) ∧
    ∀ d, stored cfg (tree_of s) (app_Id app) = Some d → UNKNOWN ∉ allowed_targets (da_Status d) →
      ∃ e, r = inr e.
Proof.
  intros Hid Hs. destruct (fs_Load_good _ s Hid Hs) as [e0 EL].
  unfold Redeploy. rewrite (bind_ret _ _ _ _ _ EL).
  destruct (stored _ _ _) as [d|]; [|by eexists; split; [|eexists]].
  unfold IsChangeAllowed. case_bool_decide.
  - destruct (checkDeployPreconditions _ _); eexists; (split; [done|]); intros ? [= <-] ?; done.
  - eexists. split; [done|]. intros. by eexists.
Qed.

Lemma Undeploy_refused id s d :
  plain id → on_files (good cfg) s → stored cfg (tree_of s) id = Some d →
  UNKNOWN ∉ allowed_targets (da_Status d) → ∃ e, Undeploy cfg id s = (Ret (inr e), s).
Proof.
  intros Hid Hs Hd Hn. destruct (fs_Load_good _ s Hid Hs) as [e0 EL].
  unfold Undeploy. rewrite (bind_ret _ _ _ _ _ EL), Hd. unfold IsChangeAllowed.
  rewrite bool_decide_eq_false_2 by done. by eexists.
Qed.

Lemma GetStatus_good id s :
  plain id → on_files (good cfg) s →
  ∃ e, GetStatus cfg id s
       = (Ret (match stored cfg (tree_of s) id with
               | Some d => inl (da_Status d)
               | None => inr e
               end), s).
Proof.
  intros Hid Hs. destruct (fs_Load_good _ s Hid Hs) as [e0 EL].
  unfold GetStatus. rewrite (bind_ret _ _ _ _ _ EL). destruct (stored _ _ _); [by exists (plain_error "")|].
  by eexists.
Qed.

(** ** Settled applications *)

(** [id] is settled, or a task for it is there. *)
Definition attended (tasks : list task) (T : gmap path (fnode AppData)) id : Prop :=
  settled cfg id T ∨ ∃ t, t ∈ tasks ∧ da_Id (task_app t) = id.

(** A call leaves applications settled, but for one that it starts a task for. *)
Definition leaves_attended (m : GoM Eva (option task + rpc_error)) : Prop :=
  ∀ s, on_files (good cfg) s → ∃ r s', m s = (Ret r, s') ∧
    ∀ id, plain id → settled cfg id (tree_of s) →
      attended (match r with inl (Some t) => [t] | _ => [] end) (tree_of s') id.

Lemma leaves_same (m : GoM Eva (option task + rpc_error)) :
  (∀ s, on_files (good cfg) s → ∃ r, m s = (Ret r, s)) → leaves_attended m.
Proof.
  intros Hm s Hs. destruct (Hm s Hs) as [r E]. exists r, s. split; [done|]. by left.
Qed.

Lemma leaves_Deploy ty start app : plain (app_Id app) → leaves_attended (Deploy cfg ty start app).
Proof.
  intros Hid. apply leaves_same. intros s Hs. destruct (Deploy_good ty start app s Hid Hs) as (r & E & _).
  by exists r.
Qed.

Lemma leaves_Redeploy app : plain (app_Id app) → leaves_attended (Redeploy cfg app).
Proof.
  intros Hid. apply leaves_same. intros s Hs. destruct (Redeploy_good app s Hid Hs) as (r & E & _).
  by exists r.
Qed.

(** Files other than those of the application of [d] are as they were. *)
Lemma settled_ext id T T' :
  T !! file_of root id metadataFileName = T' !! file_of root id metadataFileName →
  settled cfg id T → settled cfg id T'.
Proof. intros E Hs a. rewrite <-E. apply Hs. Qed.

Lemma leaves_command target start id :
  (∀ d, task_app (start d) = d) → plain id → leaves_attended (command cfg target start id).
Proof.
  intros Hst Hid s Hs. destruct (command_good target start id s Hid Hs) as (r & s' & E & Hr).
  exists r, s'. split; [done|]. intros id' Hid' Hset.
  destruct Hr as [(d & Hd & _ & -> & HT & _ & _)|(_ & [e ->] & ->)]; [|by left].
  destruct (stored_ok cfg _ _ _ (g_tree _ _ Hs) Hid Hd) as [Hok Hi].
  destruct (decide (id' = id)) as [->|Hne].
  - right. eexists. split; [by apply list_elem_of_singleton|]. by rewrite Hst.
  - left. eapply settled_ext; [|exact Hset]. rewrite HT. unfold saved.
    assert (Ok (with_status target d)) as Hd' by (by apply (kept_good cfg)).
    rewrite (meta_path _ _ _ Hd'), (tmp_path _ _ _ Hd').
    change (da_Id (with_status target d)) with (da_Id d).
    rewrite lookup_insert_ne, lookup_delete_ne; [done|..]; intros [E' _]%file_of_inj; congruence.
Qed.

Lemma leaves_Undeploy id :
  cfg_UseCNI cfg = false → plain id → leaves_attended (Undeploy cfg id).
Proof.
  intros NoCNI Hid s Hs. destruct (fs_Load_good _ s Hid Hs) as [e0 EL].
  unfold Undeploy. rewrite (bind_ret _ _ _ _ _ EL), NoCNI.
  destruct (stored _ _ _) as [d|] eqn:Hd; [|by do 2 eexists; split; [|left]].
  destruct (IsChangeAllowed d UNKNOWN); [by do 2 eexists; split; [|left]|].
  destruct (da_IsDeployed d); [by do 2 eexists; split; [|left]|].
  destruct (stored_ok cfg _ _ _ (g_tree _ _ Hs) Hid Hd) as [Hok Hi].
  assert (fs (fs_RemoveAll (da_Path d)) s
    = (Ret (inl tt), mkEva (mkFs (filter (λ e, under (da_Path d) e.1 = false) (tree_of s)) [])
                       (ev_ext s))) as ER.
  { unfold on_files in Hs. unfold fs, fs_RemoveAll. by rewrite fs_call_ok by apply Hs. }
  rewrite (bind_ret (mret nil_err) _ s nil_err s eq_refl). cbv beta iota.
  rewrite (bind_ret _ _ _ _ _ ER). do 2 eexists. split; [done|].
  intros id' Hid' Hset. left. intros a Ha. apply (Hset a).
  by apply map_lookup_filter_Some in Ha as [Ha _].
Qed.

(** ** Lookups *)

Lemma network_mac_sane l :
  (∀ i, i ∈ l → if_SourceNetwork i ≠ None ∧ if_MAC i ≠ None) → ∃ mac, network_mac l = Ret mac.
Proof.
  induction l as [|i l IH]; intros Hl; [by eexists|]. simpl.
  destruct (Hl i (list_elem_of_here _ _)) as [Hn Hm].
  destruct (if_SourceNetwork i) as [[]|]; [|apply IH; intros; apply Hl; by right|done].
  destruct (if_MAC i); [by eexists|done].
Qed.

Lemma returns_lookup (Sane : sane) c ip : returns (GetApplicationByIP cfg c ip).
Proof.
  assert (∀ doms ls, returns (searchDomainByIP doms ls ip)) as Hd.
  { intros doms ls. induction doms as [|dom doms IH]; cbn [searchDomainByIP]; [solve_returns|].
    apply returns_bind; [auto with returns|]. intros [n|]; [|done].
    apply returns_bind; [|intros; repeat case_match; auto with returns].
    intros s. unfold getDomMAC, try, mbind, GoM_bind, call.
    destruct (answer (DomXML dom) (ev_ext s)) as [[l|e] x] eqn:E; [|by do 2 eexists].
    destruct (network_mac_sane l) as [mac ->]; [|by do 2 eexists].
    intros i. apply (sane_ifaces Sane _ _ _ _ _ E). }
  assert (∀ l, (∀ k, k ∈ l → "" ∉ cs_Names k) → returns (searchContainerByIP l ip)) as Hc.
  { induction l as [|k l IH]; intros Hl; cbn [searchContainerByIP]; [solve_returns|].
    assert (returns (searchContainerByIP l ip)) by (apply IH; intros; apply Hl; by right).
    pose proof (Hl k (list_elem_of_here _ _)) as Hk. destruct (cs_Names k) as [|[|ch n] ns]; [done| |].
    - by destruct Hk; left.
    - cbn [cut_first_byte]. solve_returns. }
  assert (returns (lookupContainersByIP ip)) as Hlc.
  { unfold lookupContainersByIP. apply returns_try; [auto with returns|]. intros _ s.
    unfold try, mbind, GoM_bind, call.
    destruct (answer (ContainerList "") (ev_ext s)) as [[l|e] x] eqn:E; [|by do 2 eexists].
    destruct (Hc l (λ k, sane_names Sane _ _ _ _ k E) (mkEva (ev_fs s) x)) as (n & s' & ->).
    by do 2 eexists. }
  unfold GetApplicationByIP, getK8sContainerByIP, lookupDomainsByIP. solve_returns.
Qed.
End calls.

(** ** A world for the virtualization agent

    A world in which every program does what it is asked, and a configuration:
    the hypotheses of the theorems hold together, and the model runs. *)
Module EvaScenario.

(** The state of the world: the containers that were created, with their memory. *)
Definition demo_answer {A} (e : ext A) (x : list (string * Z)) : (A + string) * list (string * Z) :=
  match e in ext A return (A + string) * list (string * Z) with
  | HttpGet _ => (inl (200, "layers", None), x)
  | DockerNew => (inl tt, x)
  | ImageLoad _ => (inl (mkImageLoadResponse true (BodyStream ("Loaded image: app:1" +:+ newline))), x)
  | ImageTag _ _ | ImageRemove _ => (inl tt, x)
  | ImageList _ => (inl 1%nat, x)
  | ImagePull _ => (inl None, x)
  | ContainerCreate c h n => (inl ("container-" +:+ n), (n, hc_Memory h) :: x)
  | ContainerRemove _ | ContainerStart _ => (inl tt, x)
  | ContainerStop _ _ | ContainerRestart _ _ => (inl tt, x)
  | ContainerList _ => (inl [], x)
  | ContainerInspect _ => (inl (Some 7), x)
  | ContainerAddresses _ => (inl [], x)
  | LibvirtNew => (inl tt, x)
  | LookupDomain _ => (inl 1, x)
  | DomainMarshal _ => (inl tt, x)
  | DomainDefine _ => (inl 1, x)
  | DomGetState _ => (inl DOMAIN_RUNNING, x)
  | DomGetName _ => (inl "domain", x)
  | DomCreate _ | DomDestroy _ | DomReboot _ | DomShutdown _ | DomUndefine _ => (inl tt, x)
  | ListActiveDomains => (inl [], x)
  | DHCPLeases => (inl [], x)
  | DomXML _ => (inl [], x)
  | OvsListBridges => (inl [], x)
  | OvsAddPort _ _ | OvsSetInterface _ | OvsdbDial | OvsdbTransact _ _ | OvsDeletePort _ _ => (inl tt, x)
  | OvnCreatePort _ _ => (inl "0a:00:00:00:00:01", x)
  | OvnDeletePort _ => (inl tt, x)
  | CniExec _ _ _ => (inl "", x)
  | TimeAfter _ => (inl 3%nat, x)
  | GetContainerByIP _ => (inl (inl "pod"), x)
  end.

#[export] Instance demo_world : EvaWorld := {|
  EXT := list (string * Z);
  answer := @demo_answer;
  parse_features := λ _, inl [mkEvaFeature "cpu_pin" "0-1"];
  parse_cni_type := λ _, inl "bridge";
  NewPort := λ proto port, inl (port +:+ "/" +:+ proto);
  wide_letter := λ _, false;
|}.

Lemma demo_sane : sane.
Proof.
  split.
  - intros image x resp x' t [= <- <-]. by intros [= <-].
  - intros name x l x' c [= <- <-]. by intros ?%elem_of_nil.
  - intros dom x l x' i [= <- <-]. by intros ?%elem_of_nil.
Qed.

Definition demo_cfg : EvaConfig :=
  mkEvaConfig 8 4096 ["";"var";"images"] 10 10 10 "" "controller:8081" "br0" false false false.

Definition demo_app : Application :=
  mkApplication "app1" "demo" "1.0" "vendor" "" 2 1024 [mkEvaPort 8080 "tcp"] UNKNOWN
    (Some "https://images.example/app1") "" None.

(** The empty image directory. *)
Definition demo_tree : gmap path (fnode AppData) := {[ ["";"var";"images"] := Dir ]}.
Definition demo_start : Agent := mkAgent (mkEva (mkFs demo_tree []) []) [].

Lemma demo_plain : plain "app1".
Proof. apply plain_intro; [reflexivity|set_solver]. Qed.

Lemma demo_tree_empty q : length q ≠ 3%nat → demo_tree !! q = None.
Proof. intros Hq. apply lookup_singleton_ne. by intros <-. Qed.

Lemma demo_good : good demo_cfg (ev_fs (ag_state demo_start)).
Proof.
  split; [done|]. simpl.
  assert (∀ id, demo_tree !! app_dir (RootPath demo_cfg) id = None) as Hd.
  { intros id. by apply demo_tree_empty. }
  assert (∀ id name, demo_tree !! file_of (RootPath demo_cfg) id name = None) as Hf.
  { intros id name. by apply demo_tree_empty. }
  split; [by vm_compute|..].
  - intros id n _ E. by rewrite Hd in E.
  - intros id name n _ E. by rewrite Hf in E.
  - intros id n _ E. by rewrite Hf in E.
  - intros id n _ E. by rewrite Hf in E.
Qed.

(** Deploy, run the task, start. *)
Definition demo_ops : list eva_op := [RpcDeployContainer demo_app; RunTask 0; RpcStart "app1"].

Example demo_status :
  (GetStatus demo_cfg "app1" (ag_state (eva_run demo_cfg demo_ops demo_start))).1
  = Ret (inl STARTING).
Proof. vm_compute. reflexivity. Qed.

Example demo_status_after :
  (GetStatus demo_cfg "app1"
     (ag_state (eva_run demo_cfg (demo_ops ++ [RunTask 0]) demo_start))).1 = Ret (inl RUNNING).
Proof. vm_compute. reflexivity. Qed.
End EvaScenario.
