(* ===== verification/EvaProps.v ===== *)
(** * Properties of the virtualization agent

    Metadata survives every failure, commands follow the table of transitions,
    tasks leave no application between two states, and what a crash leaves
    there stays there. *)

From S2P Require Import Prelude Strconv GoNet GoPath EvaMeta EvaEnv EvaDeploy EvaLife EvaInv EvaFiles EvaGood EvaSettle EvaStored.
From stdpp Require Import prelude strings list gmap.
From Stdlib Require Import ZArith.

Import EvaScenario.
Local Open Scope Z_scope.

Section run.
Context `{EvaWorld} (cfg : EvaConfig).
Abbreviation root := (RootPath cfg).
Abbreviation Ok := (app_ok cfg plain).
Implicit Types (a : Agent) (s : Eva) (id : string).

Abbreviation tree a := (tree_of (ag_state a)).

(** The files are in order, and so are the tasks. *)
Definition in_order a : Prop := agent_ok Ok (good cfg) a.

Lemma in_order_step a o : op_ids plain o → in_order a → in_order (eva_step cfg a o).
Proof. apply agent_ok_step, kept_good. Qed.

(** ** Nobody is left waiting *)

Definition attending a : Prop :=
  in_order a ∧ ∀ id, plain id → attended cfg (ag_tasks a) (tree a) id.

Lemma attended_app ts ts' T id :
  attended cfg ts T id ∨ attended cfg ts' T id → attended cfg (ts ++ ts') T id.
Proof. unfold attended. set_solver. Qed.

Lemma attending_call m a :
  (∀ a, in_order a → in_order (serve_call m a)) → leaves_attended cfg m →
  attending a → attending (serve_call m a).
Proof.
  intros Hm Hl [Ha Hat]. split; [by apply Hm|]. intros id Hid.
  destruct (Hl _ (proj1 Ha)) as (r & s' & E & Hr). unfold serve_call. rewrite E.
  specialize (Hr id Hid).
  assert (attended cfg (ag_tasks a ++ match r with inl (Some t) => [t] | _ => [] end)
            (tree_of s') id) as Hnew.
  { apply attended_app. destruct (Hat id Hid) as [Hs|Ht]; [right; auto|left; by right]. }
  destruct r as [[t|]|e]; [done|..]; by rewrite app_nil_r in Hnew.
Qed.

Lemma attending_query {A} (m : GoM Eva A) a :
  (∀ a, in_order a → in_order (serve_query m a)) →
  (∀ s, on_files (good cfg) s → ∃ r s', m s = (Ret r, s') ∧ tree_of s' = tree_of s) →
  attending a → attending (serve_query m a).
Proof.
  intros Hm Hs [Ha Hat]. split; [by apply Hm|]. destruct (Hs _ (proj1 Ha)) as (r & s' & E & HT).
  unfold serve_query. rewrite E. intros id Hid. simpl. rewrite HT. by apply Hat.
Qed.

(** A task changes the files of its own application only. *)
Lemma run_task_frame t s id :
  Ok (task_app t) → on_files (good cfg) s → id ≠ da_Id (task_app t) →
  ∀ name, tree_of (run_task cfg t s).2 !! file_of root id name = tree_of s !! file_of root id name.
Proof.
  intros Ht Hs Hne name. set (ids := only (da_Id (task_app t))).
  assert (∀ id, ids id → plain id) as Hpl by apply only_plain, Ht.
  pose proof (files_run_task cfg ids (app_ok cfg ids) _ (kept_files_ok cfg ids Hpl (tree_of s)) t
    (ok_only cfg _ Ht) s (good_files_ok cfg _ _ Hs)) as [_ Hf].
  apply Hf. intros id' ->. by apply not_under_file.
Qed.

Context (NoCNI : cfg_UseCNI cfg = false) (Sane : sane).

Lemma attending_task a i t :
  attending a → ag_tasks a !! i = Some t →
  attending (eva_step cfg a (RunTask i)) ∧ ag_tasks (eva_step cfg a (RunTask i)) = delete i (ag_tasks a).
Proof.
  intros [Ha Hat] Ht.
  assert (Ok (task_app t)) as Hok by (destruct Ha as [_ Hts]; by eapply Forall_lookup_1 in Hts).
  pose proof (in_order_step a (RunTask i) I Ha) as Ha'.
  destruct (run_task_settles cfg NoCNI Sane t Hok _ (proj1 Ha)) as (r & s' & E & Hset).
  pose proof (λ id, run_task_frame t _ id Hok (proj1 Ha)) as Hfr. rewrite E in Hfr.
  unfold attending. cbn [eva_step] in *. rewrite Ht, E in *. split; [|done]. split; [done|].
  intros id Hid. simpl. destruct (decide (id = da_Id (task_app t))) as [->|Hne]; [by left|].
  destruct (Hat id Hid) as [Hs|(t' & Ht' & Hi)].
  - left. eapply settled_ext; [|exact Hs]. symmetry. by apply Hfr.
  - right. exists t'. split; [|done]. rewrite (delete_Permutation _ _ _ Ht) in Ht'.
    by apply elem_of_cons in Ht' as [->|?].
Qed.

Lemma attending_step a o :
  op_ids plain o → o ≠ Crash → attending a → attending (eva_step cfg a o).
Proof.
  intros Ho Hc Ha.
  assert (∀ a, in_order a → in_order (eva_step cfg a o)) as Hk by (intros; by apply in_order_step).
  destruct o; cbn [op_ids] in Ho; cbn [eva_step] in Hk |- *; try done.
  1,2: by apply attending_call; [|apply leaves_Deploy|].
  1: by apply attending_call; [|apply leaves_Redeploy|].
  1: by apply attending_call; [|apply leaves_Undeploy|].
  1,2,3: by apply attending_call; [|apply leaves_command|].
  - apply attending_query; [done| |done]. intros s Hs.
    destruct (GetStatus_good cfg id s Ho Hs) as [e E]. by do 2 eexists.
  - apply attending_query; [done| |done]. intros s Hs.
    destruct (returns_lookup cfg Sane credentials ip s) as (r & s' & E). exists r, s'.
    split; [done|]. pose proof (files_lookup cfg (λ f, fs_tree f = tree_of s) credentials ip s eq_refl) as Hf.
    by rewrite E in Hf.
  - destruct (ag_tasks a !! i) as [t|] eqn:Ht; [|done].
    pose proof (proj1 (attending_task a i t Ha Ht)) as Hat. cbn [eva_step] in Hat. by rewrite Ht in Hat.
Qed.

Lemma attending_run ops a :
  Forall (op_ids plain) ops → Crash ∉ ops → attending a → attending (eva_run cfg ops a).
Proof.
  intros Ho. revert a. induction Ho as [|o ops Ho Hos IH]; intros a Hc Ha; [done|].
  apply IH; [set_solver|]. apply attending_step; [done|set_solver|done].
Qed.

(** Any schedule that runs every task ends with every application settled. *)
Lemma schedule_settles sched a :
  attending a → length sched = length (ag_tasks a) →
  (∀ k i, sched !! k = Some i → (k + i < length (ag_tasks a))%nat) →
  ag_tasks (eva_run cfg (RunTask <$> sched) a) = [] ∧ attending (eva_run cfg (RunTask <$> sched) a).
Proof.
  revert a. induction sched as [|i sched IH]; intros a Ha Hl Hi.
  { split; [by apply nil_length_inv|done]. }
  destruct (lookup_lt_is_Some_2 (ag_tasks a) i) as [t Ht]; [by specialize (Hi 0%nat i eq_refl)|].
  destruct (attending_task a i t Ha Ht) as [Ha' Hts]. apply (IH _ Ha'); rewrite Hts.
  - rewrite length_delete by eauto. simpl in Hl. lia.
  - intros k j Hk. specialize (Hi (S k) j Hk). rewrite length_delete by eauto. lia.
Qed.
End run.

(** ** Stranded applications *)

Section stranded.
Context `{EvaWorld} (cfg : EvaConfig) (id : string) (d : DeployedApp).
Context (Hid : plain id) (Hdep : da_IsDeployed d = true) (Htr : transitional (da_Status d)).
Abbreviation Ok := (app_ok cfg plain).

Definition stranded (a : Agent) : Prop :=
  in_order cfg a ∧ stored cfg (tree_of (ag_state a)) id = Some d
  ∧ Forall (λ t, da_Id (task_app t) ≠ id) (ag_tasks a).

Lemma no_way_out st : st ∈ [UNKNOWN; STARTING; STOPPING] → st ∉ allowed_targets (da_Status d).
Proof. destruct Htr as [->|[->| ->]]; set_solver. Qed.

(** Every call for the application is refused. *)
Lemma stranded_command target start s :
  target ∈ [STARTING; STOPPING] → on_files (good cfg) s → stored cfg (tree_of s) id = Some d →
  ∃ e, command cfg target start id s = (Ret (inr e), s).
Proof.
  intros Ht Hs Hd. destruct (command_good cfg target start id s Hid Hs) as (r & s' & E & Hr).
  destruct Hr as [(d' & Hd' & [_ Hin] & _)|(_ & [e ->] & ->)]; [|by eexists].
  rewrite Hd in Hd'. injection Hd' as <-. by apply no_way_out in Hin; [|set_solver].
Qed.

Lemma stranded_Deploy ty start app s :
  app_Id app = id → on_files (good cfg) s → stored cfg (tree_of s) id = Some d →
  ∃ e, Deploy cfg ty start app s = (Ret (inr e), s).
Proof.
  intros Ha Hs Hd. pose proof (Deploy_good cfg ty start app s) as HG. rewrite Ha in HG.
  destruct (HG Hid Hs) as (r & -> & Hr).
  destruct (Hr d Hd Hdep) as [e ->]. by eexists.
Qed.

Lemma stranded_Redeploy app s :
  app_Id app = id → on_files (good cfg) s → stored cfg (tree_of s) id = Some d →
  ∃ e, Redeploy cfg app s = (Ret (inr e), s).
Proof.
  intros Ha Hs Hd. pose proof (Redeploy_good cfg app s) as HG. rewrite Ha in HG.
  destruct (HG Hid Hs) as (r & -> & Hr).
  destruct (Hr d Hd) as [e ->]; [apply no_way_out; set_solver|]. by eexists.
Qed.

Lemma stranded_Undeploy s :
  on_files (good cfg) s → stored cfg (tree_of s) id = Some d →
  ∃ e, Undeploy cfg id s = (Ret (inr e), s).
Proof. intros Hs Hd. apply (Undeploy_refused cfg id s d); [done..|]. apply no_way_out. set_solver. Qed.

(** Work on other applications does not reach it. *)
Lemma stranded_other a o :
  stranded a → op_ids (λ i, plain i ∧ i ≠ id) o → op_ids plain o → stranded (eva_step cfg a o).
Proof.
  intros (Ha & Hd & Hts) Ho Hp. set (ids := λ i, plain i ∧ i ≠ id) in *.
  assert (agent_ok (app_ok cfg ids) (files_ok cfg ids (tree_of (ag_state a))) (eva_step cfg a o)) as [Hf Hk].
  { apply (agent_ok_step _ ids); [apply kept_files_ok; by intros ? []|done|].
    destruct Ha as [Hg Hok]. split; [by apply good_files_ok|].
    apply Forall_forall. intros t Ht. rewrite Forall_forall in Hok, Hts.
    specialize (Hok t Ht). specialize (Hts t Ht). by destruct Hok. }
  split; [by apply in_order_step|]. split.
  - rewrite <-Hd. apply stored_ext. intros name. apply Hf. intros id' [_ Hne]. by apply not_under_file.
  - eapply Forall_impl; [exact Hk|]. by intros t [[_ ?] _ _ _].
Qed.

Lemma stranded_refused m a :
  (∃ e, m (ag_state a) = (Ret (inr e), ag_state a)) → serve_call m a = a.
Proof. intros [e E]. unfold serve_call. rewrite E. by destruct a. Qed.

Lemma stranded_step a o : op_ids plain o → stranded a → stranded (eva_step cfg a o).
Proof.
  intros Ho Hs. pose proof Hs as ([Hg _] & Hd & _).
  assert (op_ids (λ i, plain i ∧ i ≠ id) o ∨ ¬ op_ids (λ i, i ≠ id) o) as [Ho'|Hn].
  { destruct o; simpl in *; try (by left);
      match goal with |- context [?x ≠ id] => destruct (decide (x = id)); [by right; intros []|by left] end. }
  { by apply stranded_other. }
  assert (eva_step cfg a o = a) as ->; [|done].
  destruct o; simpl in Hn; try (by destruct Hn); apply dec_stable in Hn; cbn [eva_step].
  1,2: by apply stranded_refused, stranded_Deploy.
  1: by apply stranded_refused, stranded_Redeploy.
  1: by subst; apply stranded_refused, stranded_Undeploy.
  1,2,3: by subst; apply stranded_refused, stranded_command; [set_solver|..].
  subst. destruct (GetStatus_good cfg id (ag_state a) Hid Hg) as [e E]. unfold serve_query. rewrite E.
  by destruct a.
Qed.

Lemma stranded_run ops a : Forall (op_ids plain) ops → stranded a → stranded (eva_run cfg ops a).
Proof.
  intros Ho. revert a. induction Ho as [|o ops Ho Hos IH]; intros a Ha; [done|].
  by apply IH, stranded_step.
Qed.
End stranded.

(** ** Theorems *)

(** Every metadata file is a complete document of the application it is for. *)
Definition docs_ok (cfg : EvaConfig) (T : gmap path (fnode AppData)) : Prop :=
  ∀ id n, plain id → T !! file_of (RootPath cfg) id metadataFileName = Some n → doc_ok id n.

(** *** Several goroutines that save *)

(** Goroutines about to save, each for an application of its own. *)
Definition savers_ok (cfg : EvaConfig) (ids : string → Prop) (vs : list saver) : Prop :=
  Forall (λ v, app_ok cfg ids (sv_app v) ∧ sv_phase v = SaveDir) vs
  ∧ NoDup (map (λ v, da_Id (sv_app v)) vs).

Section savers.
Context (cfg : EvaConfig) (ids : string → Prop) (T0 : gmap path (fnode AppData)).
Implicit Types (v : saver) (vs : list saver) (T : gmap path (fnode AppData)).
Abbreviation tree_ok := (tree_ok cfg ids T0).

(** A goroutine about to rename has its document in the temporary file. *)
Definition written T v : Prop :=
  sv_phase v = SaveRename → T !! tmpfile (sv_app v) = Some (File (Doc (da_Data (sv_app v)))).

Definition same_tmp id T T' : Prop :=
  ∀ id', id' ≠ id → T' !! file_of (RootPath cfg) id' "metadata.json.tmp"
                    = T !! file_of (RootPath cfg) id' "metadata.json.tmp".

Lemma save_step_effect v f :
  app_ok cfg ids (sv_app v) → written (fs_tree f) v → tree_ok (fs_tree f) →
  ∃ v' f', save_step v f = (Ret v', f') ∧ sv_app v' = sv_app v ∧ written (fs_tree f') v'
    ∧ tree_ok (fs_tree f') ∧ same_tmp (da_Id (sv_app v)) (fs_tree f) (fs_tree f').
Proof.
  intros Ho Hw HT. pose proof (ao_ids _ _ _ Ho) as Hid.
  assert (∀ n, tree_ok (<[tmpfile (sv_app v) := n]> (fs_tree f))
    ∧ same_tmp (da_Id (sv_app v)) (fs_tree f) (<[tmpfile (sv_app v) := n]> (fs_tree f))) as Htmp.
  { intros n. rewrite (tmp_path _ _ _ Ho). split.
    - eapply tree_ok_other; [done|exact Hid|apply under_file|]. intros. by apply file_not_meta.
    - intros id' Hne. rewrite lookup_insert_ne; [done|]. intros [? _]%file_of_inj. congruence. }
  destruct v as [u d p]; unfold written in *; destruct p; cbn [save_step sv_phase sv_app sv_update] in *.
  - destruct (make_dir_effect u d f) as (err & f' & E & Hf). rewrite (bind_ret _ _ _ _ _ E).
    do 2 eexists. split; [done|]. split; [done|]. split; [by destruct (bool_decide _)|].
    destruct Hf as [->|[_ ->]]; [by split|]. rewrite (ao_path _ _ _ Ho). split.
    + eapply tree_ok_other; [done|exact Hid|apply under_refl|].
      intros id' E'. symmetry in E'. by apply file_of_dir in E'.
    + intros id' _. rewrite lookup_insert_ne; [done|]. intros E'. symmetry in E'. by apply file_of_dir in E'.
  - destruct (fs_Create_cases (tmpfile d) f) as (r & f' & E & [[[e ->] Hf]|[-> Hf]]);
      rewrite (bind_ret _ _ _ _ _ E); do 2 eexists; (split; [done|]); (split; [done|]); (split; [done|]);
      rewrite Hf; [by split|apply Htmp].
  - destruct (fs_Write_cases (tmpfile d) (Doc (da_Data d)) f) as (r & f' & E & [(e & c & -> & Hf)|[-> Hf]]);
      rewrite (bind_ret _ _ _ _ _ E); do 2 eexists; (split; [done|]); (split; [done|]);
      rewrite Hf; (split; [|apply Htmp]); [done|]. intros _. apply lookup_insert_eq.
  - destruct (fs_Rename_cases (tmpfile d) (metadataFilePath d) f)
      as (r & f' & E & [[[e ->] Hf]|[-> (c & Hc & Hf)]]); rewrite (bind_ret _ _ _ _ _ E);
      do 2 eexists; (split; [done|]); (split; [done|]); (split; [done|]); rewrite Hf; [by split|].
    rewrite Hw in Hc by done. injection Hc as <-. split.
    + apply tree_ok_doc; [|done]. eapply tree_ok_delete; [done|exact Hid|].
      rewrite (tmp_path _ _ _ Ho). apply under_file.
    + intros id' Hne. rewrite (meta_path _ _ _ Ho), (tmp_path _ _ _ Ho).
      rewrite lookup_insert_ne, lookup_delete_ne; [done| |]; intros [? ?]%file_of_inj; congruence.
  - do 2 eexists. split; [done|]. by split_and!.
Qed.

Lemma saves_run_ok sched vs f :
  Forall (λ v, app_ok cfg ids (sv_app v) ∧ written (fs_tree f) v) vs →
  NoDup (map (λ v, da_Id (sv_app v)) vs) → tree_ok (fs_tree f) →
  ∃ vs' f', saves_run sched vs f = (Ret vs', f') ∧ tree_ok (fs_tree f').
Proof.
  revert vs f. induction sched as [|i sched IH]; intros vs f Hvs Hnd HT; [by exists vs, f|].
  cbn [saves_run]. destruct (vs !! i) as [v|] eqn:Hi; [|by apply IH].
  destruct (Forall_lookup_1 _ _ _ _ Hvs Hi) as [Ho Hw].
  destruct (save_step_effect v f Ho Hw HT) as (v' & f' & E & Ha & Hw' & HT' & Hs).
  rewrite (bind_ret _ _ _ _ _ E). apply IH; [| |done].
  - apply Forall_lookup. intros j w [(-> & <- & _)|[Hne Hj]]%list_lookup_insert_Some.
    + by rewrite Ha.
    + destruct (Forall_lookup_1 _ _ _ _ Hvs Hj) as [Ho' Hww]. split; [done|].
      intros Hp. rewrite (tmp_path _ _ _ Ho'), Hs, <-(tmp_path _ _ _ Ho'); [by apply Hww|].
      intros Heq. apply Hne. eapply (NoDup_lookup _ _ _ _ Hnd); rewrite list_lookup_fmap.
      * rewrite Hi. simpl. by rewrite <-Heq.
      * by rewrite Hj.
  - replace (map _ (<[i:=v']> vs)) with (map (λ v, da_Id (sv_app v)) vs); [done|].
    symmetry. rewrite list_fmap_insert. apply list_insert_id. rewrite list_lookup_fmap, Hi. simpl.
    by rewrite Ha.
Qed.

Lemma saves_run_one sched v v' f f' :
  save_step v f = (Ret v', f') → saves_run (0%nat :: sched) [v] f = saves_run sched [v'] f'.
Proof. intros E. cbn [saves_run lookup list_lookup]. by rewrite (bind_ret _ _ _ _ _ E). Qed.

#[local] Ltac alone E :=
  rewrite (bind_ret _ _ _ _ _ E);
  erewrite saves_run_one by (unfold save_step; cbn [next_phase succeeded sv_phase sv_app sv_update];
                             rewrite (bind_ret _ _ _ _ _ E); reflexivity).

(** A goroutine that is alone does what [Save] does. *)
Lemma saves_run_alone u d f : (saves_run [0;0;0;0]%nat [mkSaver u d SaveDir] f).2 = (Save u d f).2.
Proof.
  destruct (make_dir_effect u d f) as (err & f1 & E & _).
  unfold Save. alone E.
  destruct err as [err|]; [done|]. clear E. change (bool_decide _) with true.
  destruct (fs_Create_cases (tmpfile d) f1) as (r & f2 & E & _).
  alone E.
  destruct r; [|done]. clear E.
  destruct (fs_Write_cases (tmpfile d) (Doc (da_Data d)) f2) as (r & f3 & E & _).
  alone E.
  destruct r; [|done]. clear E.
  destruct (fs_Rename_cases (tmpfile d) (metadataFilePath d) f3) as (r & f4 & E & _).
  alone E.
  by destruct r.
Qed.
End savers.

(** C28: for applications with plain names as identifiers, metadata
    stays intact.  Whatever the disk does (any call of os may fail, a
    write may leave part of its bytes, a removal part of its tree), whatever
    Docker, libvirt and the other programs answer, and in whatever order calls
    and tasks run, one after the other and with crashes and panics, every metadata
    file that is there is a complete description of its own application, and
    nothing changes but what lies in the directories of applications that calls
    have named.  Goroutines that save at the same time keep this too, in every
    order of their calls of os and wherever they stop, when no two of
    them save the same application. *)
Theorem eva_metadata_intact `{EvaWorld} (cfg : EvaConfig) (ids : string → Prop) (a : Agent)
    (ops : list eva_op) :
  (∀ id, ids id → plain id) → docs_ok cfg (tree_of (ag_state a)) → ag_tasks a = [] →
  Forall (op_ids ids) ops →
  (docs_ok cfg (tree_of (ag_state (eva_run cfg ops a)))
   ∧ ∀ q, (∀ id, ids id → under (app_dir (RootPath cfg) id) q = false) →
       tree_of (ag_state (eva_run cfg ops a)) !! q = tree_of (ag_state a) !! q)
  ∧ ∀ sched vs f, savers_ok cfg ids vs → docs_ok cfg (fs_tree f) →
      ∃ vs' f', saves_run sched vs f = (Ret vs', f') ∧ docs_ok cfg (fs_tree f')
        ∧ ∀ q, (∀ id, ids id → under (app_dir (RootPath cfg) id) q = false) →
            fs_tree f' !! q = fs_tree f !! q.
Proof.
  intros Hpl Hdocs Ht Ho. split.
  - assert (agent_ok (app_ok cfg ids) (files_ok cfg ids (tree_of (ag_state a))) a) as Ha.
    { split; [by split|]. rewrite Ht. constructor. }
    apply (agent_ok_run cfg ids _ _ (kept_files_ok cfg ids Hpl _) ops) in Ha as [[Hd Hf] _]; [|done].
    by split.
  - intros sched vs f [Hvs Hnd] Hf.
    destruct (saves_run_ok cfg ids (fs_tree f) sched vs f) as (vs' & f' & E & [HT1 HT2]);
      [|done|by split|by exists vs', f'].
    eapply Forall_impl; [exact Hvs|]. intros v [Hv Hp]. split; [done|].
    unfold written. by rewrite Hp.
Qed.

(** A disk on which the fourth call fails and leaves part of a document. *)
Definition demo_faulty : Agent :=
  mkAgent (mkEva (mkFs demo_tree [None; None; None; Some (mkFault "disk full" false "{" (λ _, true))])
            []) [].

Lemma demo_docs T : (∀ id name, T !! file_of (RootPath demo_cfg) id name = None) → docs_ok demo_cfg T.
Proof. intros HT id n _. by rewrite HT. Qed.

(** The application of the example, once deployed. *)
Definition demo_dapp : DeployedApp :=
  mkDeployedApp (mkAppData Container "https://images.example/app1" (set_source None demo_app))
    true "container-app1" ["";"var";"images";"app1"].

Lemma demo_dapp_ok : app_ok demo_cfg plain demo_dapp.
Proof. split; [exact demo_plain|done|done|by left]. Qed.

Lemma demo_plain2 : plain "app2".
Proof. apply plain_intro; [reflexivity|set_solver]. Qed.

(** A second application beside it. *)
Definition demo_dapp2 : DeployedApp :=
  mkDeployedApp (mkAppData VM "https://images.example/app2" (set_id "app2" (set_source None demo_app)))
    true "domain-app2" ["";"var";"images";"app2"].

Definition two_savers : list saver := [mkSaver false demo_dapp SaveDir; mkSaver false demo_dapp2 SaveDir].

Lemma eva_metadata_intact_witness :
  docs_ok demo_cfg (tree_of (ag_state (eva_run demo_cfg (demo_ops ++ [Crash]) demo_faulty)))
  ∧ tree_of (ag_state (eva_run demo_cfg (demo_ops ++ [Crash]) demo_faulty)) !! [""; "etc"]
    = demo_tree !! [""; "etc"]
  ∧ ∃ vs' f', saves_run [0;1;1;0;0;1;0;1]%nat two_savers (mkFs demo_tree []) = (Ret vs', f')
      ∧ docs_ok demo_cfg (fs_tree f').
Proof.
  destruct (eva_metadata_intact demo_cfg (λ i, i = "app1" ∨ i = "app2") demo_faulty (demo_ops ++ [Crash]))
    as [[Hd Hq] Hs].
  - intros id [-> | ->]; [exact demo_plain|exact demo_plain2].
  - apply demo_docs. intros id name. by apply demo_tree_empty.
  - reflexivity.
  - repeat constructor.
  - split; [exact Hd|]. split; [apply Hq; intros id [-> | ->]; reflexivity|].
    destruct (Hs [0;1;1;0;0;1;0;1]%nat two_savers (mkFs demo_tree [])) as (vs' & f' & E & Hf & _).
    + split.
      * constructor; [|constructor; [|constructor]]; (split; [split|reflexivity]); try reflexivity; cbv; auto.
      * apply (bool_decide_unpack _). vm_compute. exact I.
    + apply demo_docs. intros id name. by apply demo_tree_empty.
    + exists vs', f'. exact (conj E Hf).
Defined.

(** Two goroutines that save the same application share the temporary file: the
    second one empties it before the first one renames it.  Until the second
    one has written and renamed it too, or forever when it stops there, the metadata
    file is empty. *)
Example same_application_loses_metadata :
  let vs := [mkSaver false demo_dapp SaveDir; mkSaver false demo_dapp SaveDir] in
  fs_tree (saves_run [0;0;0;1;1;0]%nat vs (mkFs demo_tree [])).2 !! metadataFilePath demo_dapp
    = Some (File (Text ""))
  ∧ ∃ err, (Load (RootPath demo_cfg) (da_Id demo_dapp)
              (saves_run [0;0;0;1;1;0]%nat vs (mkFs demo_tree [])).2).1 = Ret (inr err).
Proof. split; [|eexists]; vm_compute; reflexivity. Qed.

Lemma fs_names cfg d :
  app_ok cfg plain d →
  tmpfile d ≠ metadataFilePath d ∧ da_Path d ≠ metadataFilePath d ∧ da_Path d ≠ tmpfile d
  ∧ deployedFilePath d ≠ metadataFilePath d ∧ deployedFilePath d ≠ tmpfile d
  ∧ deployedFilePath d ≠ da_Path d.
Proof.
  intros Hd. rewrite (meta_path _ _ _ Hd), (tmp_path _ _ _ Hd), (deployed_path _ _ _ Hd), (ao_path _ _ _ Hd).
  split_and!; try (intros E; symmetry in E; by apply file_of_dir in E); try (by apply file_of_dir);
    intros [_ E]%file_of_inj; discriminate E.
Qed.

(** C29: saving metadata is atomic: whatever calls of os fail on the way,
    the metadata file holds its old content or the whole new document, and nothing
    else changes but the temporary file and the directory of the application.
    When no error is reported and the file with the deployed identifier is absent
    or not empty, the new document is what is read back. *)
Theorem eva_save_atomic (cfg : EvaConfig) (u : bool) (d : DeployedApp) (f : Fs AppData) :
  app_ok cfg plain d →
  ∃ err f', Save u d f = (Ret err, f')
    ∧ (fs_tree f' !! metadataFilePath d = fs_tree f !! metadataFilePath d
       ∨ fs_tree f' !! metadataFilePath d = Some (File (Doc (da_Data d))))
    ∧ (∀ q, q ∉ [metadataFilePath d; tmpfile d; da_Path d] → fs_tree f' !! q = fs_tree f !! q)
    ∧ (err = None → (∀ n, fs_tree f !! deployedFilePath d = Some n → ∃ t, n = File (Text t) ∧ t ≠ "") →
       ∃ d', Load (RootPath cfg) (da_Id d) (mkFs (fs_tree f') [])
             = (Ret (inl d'), mkFs (fs_tree f') []) ∧ da_Data d' = da_Data d).
Proof.
  intros Hd. destruct (Save_effect u d f) as (err & f' & E & T1 & H1 & H2). exists err, f'.
  split; [done|]. revert H1 H2. destruct (fs_names cfg d Hd) as (Hmt & Hmd & Htd & Hdm & Hdt & Hdd).
  intros H1 H2.
  assert (∀ q, q ≠ da_Path d → T1 !! q = fs_tree f !! q) as HT1.
  { intros q Hq. destruct H1 as [->|[_ ->]]; [done|by rewrite lookup_insert_ne]. }
  destruct H2 as [[-> He]|[[[c ->] He]|[-> ->]]].
  - split_and!; [left; by apply HT1|intros q Hq; apply HT1; set_solver|done].
  - split_and!; [|intros q Hq|done].
    + left. rewrite lookup_insert_ne by done. by apply HT1.
    + rewrite lookup_insert_ne by set_solver. apply HT1. set_solver.
  - split_and!; [right; apply lookup_insert_eq|intros q Hq|intros _ Hdep].
    + rewrite lookup_insert_ne, lookup_delete_ne by set_solver. apply HT1. set_solver.
    + rewrite (meta_path _ _ _ Hd), (deployed_path _ _ _ Hd) in *.
      destruct (Load_doc cfg (da_Id d) (<[file_of (RootPath cfg) (da_Id d) metadataFileName :=
        File (Doc (da_Data d))]> (delete (tmpfile d) T1)) (da_Data d)) as (d' & _ & Hdd' & EL);
        [apply Hd|apply lookup_insert_eq|done|apply Hd| |by exists d'].
      intros n. rewrite lookup_insert_ne, lookup_delete_ne by done. rewrite HT1 by done. apply Hdep.
Qed.

Lemma eva_save_atomic_witness :
  ∃ err f', Save false demo_dapp (mkFs demo_tree [None; None; Some (mkFault "disk full" false "{" (λ _, true))])
            = (Ret err, f')
    ∧ fs_tree f' !! [""; "etc"] = demo_tree !! [""; "etc"].
Proof.
  destruct (eva_save_atomic demo_cfg false demo_dapp
    (mkFs demo_tree [None; None; Some (mkFault "disk full" false "{" (λ _, true))]))
    as (err & f' & E & _ & Hq & _).
  - exact demo_dapp_ok.
  - exists err, f'. split; [exact E|]. apply Hq. vm_compute.
    intros Hin. repeat (apply elem_of_cons in Hin as [Hin|Hin]; [discriminate Hin|]).
    by apply elem_of_nil in Hin.
Defined.

(** C30: on a disk that works, [Start], [Stop] and [Restart]
    succeed exactly when the application is stored with a deployed identifier
    and the table of transitions allows the change; then the new status is
    stored, a task for the application is started and nothing else is changed;
    otherwise an error is answered and nothing is changed. *)
Theorem eva_command_exact `{EvaWorld} (cfg : EvaConfig) (id : string) (s : Eva) :
  plain id → on_files (good cfg) s →
  Forall (λ '(m, (target, start)), ∃ r s', m id s = (Ret r, s') ∧
    ((∃ d, stored cfg (tree_of s) id = Some d
        ∧ da_DeployedID d ≠ "" ∧ target ∈ allowed_targets (da_Status d)
        ∧ r = inl (Some (start (with_status target d)))
        ∧ stored cfg (tree_of s') id = Some (with_status target d)
        ∧ (∀ id', id' ≠ id → stored cfg (tree_of s') id' = stored cfg (tree_of s) id')
        ∧ ev_ext s' = ev_ext s ∧ on_files (good cfg) s')
     ∨ (∀ d, stored cfg (tree_of s) id = Some d →
          ¬ (da_DeployedID d ≠ "" ∧ target ∈ allowed_targets (da_Status d)))
       ∧ (∃ e, r = inr e) ∧ s' = s))
    [(Start cfg, (STARTING, TStart)); (Stop cfg, (STOPPING, TStop));
     (Restart cfg, (STARTING, TRestart))].
Proof.
  intros Hid Hs. repeat apply Forall_cons_2; [..|apply Forall_nil_2].
  all: cbv beta iota; unfold Start, Stop, Restart.
  all: match goal with |- ∃ _ _, command _ ?t ?st _ _ = _ ∧ _ =>
         destruct (command_good cfg t st id s Hid Hs) as (r & s' & E & Hr) end.
  all: exists r, s'; split; [done|].
  all: destruct Hr as [(d & Hd & [Hne Hin] & Hr & HT & Hx & Hg)|Hr]; [left; exists d|by right].
  all: pose proof (g_tree _ _ Hs) as Hgt.
  all: destruct (stored_ok cfg _ _ _ Hgt Hid Hd) as [Hok Hi].
  all: rewrite HT; split_and!; try done; [by apply stored_status|].
  all: intros id' Hne'; apply stored_other; [by apply (kept_good cfg)|by rewrite <-Hi in Hne'].
Qed.

(** The agent of the example after the container was deployed. *)
Definition demo_ready : Agent := eva_run demo_cfg [RpcDeployContainer demo_app; RunTask 0] demo_start.

Lemma demo_in_order ops : Forall (op_ids plain) ops → in_order demo_cfg (eva_run demo_cfg ops demo_start).
Proof.
  intros Ho. apply (agent_ok_run _ plain); [apply kept_good|done|]. split; [exact demo_good|constructor].
Qed.

Lemma demo_ready_good : on_files (good demo_cfg) (ag_state demo_ready).
Proof.
  apply (demo_in_order [RpcDeployContainer demo_app; RunTask 0]).
  apply Forall_cons_2; [exact demo_plain|]. by apply Forall_singleton.
Qed.

Lemma eva_command_exact_witness :
  stored demo_cfg (tree_of (ag_state demo_ready)) "app1" = Some (with_status READY demo_dapp)
  ∧ ∃ s', Start demo_cfg "app1" (ag_state demo_ready)
          = (Ret (inl (Some (TStart (with_status STARTING demo_dapp)))), s')
    ∧ stored demo_cfg (tree_of s') "app1" = Some (with_status STARTING demo_dapp).
Proof.
  assert (stored demo_cfg (tree_of (ag_state demo_ready)) "app1" = Some (with_status READY demo_dapp)) as Hst
    by (vm_compute; reflexivity).
  split; [exact Hst|].
  pose proof (eva_command_exact demo_cfg "app1" (ag_state demo_ready) demo_plain demo_ready_good) as HF.
  apply Forall_cons_1 in HF as [(r & s' & E & Hr) _].
  destruct Hr as [(d & Hd & _ & _ & -> & Hd' & _)|[Hn _]].
  - rewrite Hst in Hd. injection Hd as <-. exists s'. split; [exact E|exact Hd'].
  - destruct (Hn _ Hst). split; [done|]. vm_compute. left.
Defined.

(** C31: with CNI off, and Docker and libvirt reporting in the format of
    [sane], starting with a working disk and no application between two states,
    after any calls and tasks (but no crash) every pending task can be run, as a
    whole and in any order, none of them panics, and when they are done no
    application is left deploying, starting or stopping.  What the
    programs around do and report is arbitrary otherwise. *)
Theorem eva_tasks_settle `{EvaWorld} (cfg : EvaConfig) (a0 : Agent) (ops : list eva_op)
    (sched : list nat) :
  cfg_UseCNI cfg = false → sane →
  on_files (good cfg) (ag_state a0) → ag_tasks a0 = [] →
  (∀ id, plain id → settled cfg id (tree_of (ag_state a0))) →
  Forall (op_ids plain) ops → Crash ∉ ops →
  length sched = length (ag_tasks (eva_run cfg ops a0)) →
  (∀ k i, sched !! k = Some i → (k + i < length sched)%nat) →
  ag_tasks (eva_run cfg (ops ++ (RunTask <$> sched)) a0) = []
  ∧ ∀ id, plain id →
      settled cfg id (tree_of (ag_state (eva_run cfg (ops ++ (RunTask <$> sched)) a0))).
Proof.
  intros NoCNI Sane Hg Ht Hset Ho Hc Hl Hi.
  assert (attending cfg (eva_run cfg ops a0)) as Ha.
  { apply attending_run; [done..|]. split; [split; [done|by rewrite Ht]|]. intros id Hid. left.
    by apply Hset. }
  unfold eva_run. rewrite fold_left_app. fold (eva_run cfg ops a0).
  rewrite Hl in Hi. destruct (schedule_settles cfg NoCNI Sane sched _ Ha Hl Hi) as [He [_ Hat]].
  split; [done|]. intros id Hid. destruct (Hat id Hid) as [|(t & Hin & _)]; [done|].
  unfold eva_run in *. rewrite He in Hin. by apply elem_of_nil in Hin.
Qed.

Definition demo_two : list eva_op :=
  [RpcDeployContainer demo_app; RpcDeployVM (set_id "app2" demo_app); RunTask 0; RpcStart "app1"].

Lemma eva_tasks_settle_witness :
  length (ag_tasks (eva_run demo_cfg demo_two demo_start)) = 2%nat
  ∧ ag_tasks (eva_run demo_cfg (demo_two ++ [RunTask 1; RunTask 0]) demo_start) = []
  ∧ settled demo_cfg "app1"
      (tree_of (ag_state (eva_run demo_cfg (demo_two ++ [RunTask 1; RunTask 0]) demo_start))).
Proof.
  split; [vm_compute; reflexivity|].
  destruct (eva_tasks_settle demo_cfg demo_start demo_two [1%nat; 0%nat]) as [Ht Hs].
  - reflexivity.
  - exact demo_sane.
  - exact demo_good.
  - reflexivity.
  - intros id Hid b Hb. by rewrite demo_tree_empty in Hb.
  - repeat apply Forall_cons_2; try exact demo_plain; try exact demo_plain2; [exact I|constructor].
  - intros Hin. repeat (apply elem_of_cons in Hin as [Hin|Hin]; [discriminate Hin|]).
    by apply elem_of_nil in Hin.
  - vm_compute. reflexivity.
  - intros [|[|k]] i; simpl; intros [= <-]; lia.
  - split; [exact Ht|]. apply Hs. exact demo_plain.
Defined.

(** C32: an application that is deployed and whose status says
    that it is deploying, starting or stopping when the process crashes keeps
    this status for ever: whatever is called and whatever runs after that, the
    status is reported and every call to start, stop, restart, undeploy, deploy
    or redeploy it is refused (on a disk that works). *)
Theorem eva_crash_strands `{EvaWorld} (cfg : EvaConfig) (a : Agent) (ops : list eva_op)
    (id : string) (d : DeployedApp) :
  in_order cfg a → plain id → stored cfg (tree_of (ag_state a)) id = Some d →
  da_IsDeployed d = true → transitional (da_Status d) → Forall (op_ids plain) ops →
  let s := ag_state (eva_run cfg (Crash :: ops) a) in
  GetStatus cfg id s = (Ret (inl (da_Status d)), s)
  ∧ Forall (λ m, ∃ e, m s = (Ret (inr e), s))
      [Start cfg id; Stop cfg id; Restart cfg id; Undeploy cfg id]
  ∧ ∀ app, app_Id app = id →
      Forall (λ m, ∃ e, m s = (Ret (inr e), s))
        [DeployContainer cfg app; DeployVM cfg app; Redeploy cfg app].
Proof.
  intros Ha Hid Hd Hdep Htr Ho. cbv zeta.
  destruct (stranded_run cfg id d Hid Hdep Htr ops (eva_step cfg a Crash)) as ([Hg _] & Hst & _);
    [done|by split; [apply in_order_step|split; [|constructor]]|].
  change (eva_run cfg (Crash :: ops) a) with (eva_run cfg ops (eva_step cfg a Crash)).
  set (s := ag_state (eva_run _ _ _)) in *. split_and!.
  - destruct (GetStatus_good cfg id s Hid Hg) as [e E]. by rewrite E, Hst.
  - repeat apply Forall_cons_2; [..|apply Forall_nil_2].
    1-3: by apply (stranded_command cfg id d); [..|set_solver| |].
    by apply (stranded_Undeploy cfg id d).
  - intros app Happ. repeat apply Forall_cons_2; [..|apply Forall_nil_2].
    1-2: by apply (stranded_Deploy cfg id d).
    by apply (stranded_Redeploy cfg id d).
Qed.

(** The agent of the example crashes while it starts the container. *)
Lemma eva_crash_strands_witness :
  ∃ e, Start demo_cfg "app1" (ag_state (eva_run demo_cfg [Crash; RpcGetStatus "app1"]
         (eva_run demo_cfg demo_ops demo_start)))
       = (Ret (inr e), ag_state (eva_run demo_cfg [Crash; RpcGetStatus "app1"]
                                   (eva_run demo_cfg demo_ops demo_start))).
Proof.
  destruct (eva_crash_strands demo_cfg (eva_run demo_cfg demo_ops demo_start) [RpcGetStatus "app1"]
    "app1" (with_status STARTING demo_dapp)) as (_ & Hc & _).
  - apply demo_in_order. repeat apply Forall_cons_2; try exact demo_plain; [exact I|constructor].
  - exact demo_plain.
  - vm_compute. reflexivity.
  - reflexivity.
  - right. left. reflexivity.
  - apply Forall_singleton. exact demo_plain.
  - apply Forall_cons_1 in Hc as [HS _]. exact HS.
Defined.
