(* ===== verification/EvaLimits.v ===== *)
(** * Limits on resources

    What the agent asks of Docker and libvirt for an application that it
    deploys: the memory and the processors of the request, which the
    configuration bounds, whatever ports and enhanced configuration say. *)

From S2P Require Import Prelude Strconv GoNet GoPath EvaMeta EvaEnv EvaDeploy EvaLife EvaInv EvaFiles EvaStored.
From stdpp Require Import prelude strings list gmap.
From Stdlib Require Import ZArith.

Import EvaScenario.
Local Open Scope Z_scope.

(** ** Enhanced configuration and ports *)

Lemma processPorts_limits `{EvaWorld} ports h c :
  hc_Memory (processPorts ports h c).1 = hc_Memory h
  ∧ hc_NanoCPUs (processPorts ports h c).1 = hc_NanoCPUs h.
Proof.
  revert h c. induction ports as [|p ports IH]; intros h c; [done|]. cbn [processPorts].
  destruct (_ || _); [apply IH|]. destruct (NewPort _ _); [|done].
  by rewrite (proj1 (IH _ _)), (proj2 (IH _ _)).
Qed.

Lemma processEAC_keeps `{EvaWorld} {C B} (h : EvaFeature → C → C) (f : C → B) blob c :
  (∀ x c, f (h x c) = f c) → f (processEAC h blob c) = f c.
Proof.
  intros Hh. unfold processEAC. destruct (parse_features blob) as [l|]; [|done].
  revert c. induction l as [|x l IH]; intros c; [done|]. simpl. by rewrite IH, Hh.
Qed.

Lemma eac_docker_limits `{EvaWorld} x hc :
  (hc_Memory (eac_docker x hc).1, hc_NanoCPUs (eac_docker x hc).1)
  = (hc_Memory hc.1, hc_NanoCPUs hc.1).
Proof.
  destruct hc as [h c]. unfold eac_docker, handleHddl, handleMountContainer, handleCPUPinContainer,
    handleContainerNicSriov. repeat case_bool_decide; repeat case_match; done.
Qed.

Lemma eac_vm_limits `{EvaWorld} x d :
  (dom_Memory (eac_vm x d), dom_VCPU (eac_vm x d)) = (dom_Memory d, dom_VCPU d).
Proof.
  unfold eac_vm, handleCPUPinVM, handleVMNicSriov. repeat case_bool_decide; repeat case_match; done.
Qed.

(** ** What the agent asks for *)

Section asks.
Context `{EvaWorld} (cfg : EvaConfig) (cores mem : Z).

(** A request to create a container or define a domain is for these resources;
    the infrastructure container has its own configuration. *)
Definition asks {A} (e : ext A) : Prop :=
  match e with
  | ContainerCreate c h _ =>
      (c, h) = (infra_config, infra_host)
      ∨ hc_Memory h = mem * 2 ^ 20 ∧ hc_NanoCPUs h = cores * 10 ^ 9
  | DomainDefine d => dom_VCPU d = cores ∧ dom_Memory d = mem_rounded mem
  | _ => True
  end.

(** A property of the world that such requests keep. *)
Context (W : EXT → Prop) (HW : ∀ A (e : ext A) x, asks e → W x → W (answer e x).2).

Definition on_world (s : Eva) : Prop := W (ev_ext s).

Lemma world_call {A} (e : ext A) : asks e → preserves on_world (call e).
Proof.
  intros He s Hs. unfold call. specialize (HW _ e (ev_ext s) He Hs).
  by destruct (answer e (ev_ext s)).
Qed.

Lemma world_fs {A} (m : GoM (Fs AppData) A) : preserves on_world (fs m).
Proof. intros s Hs. unfold fs. by destruct (m (ev_fs s)). Qed.

#[local] Hint Resolve world_fs : files.
#[local] Hint Extern 1 (preserves on_world (call _)) =>
  apply world_call; first [exact I | left; reflexivity] : files.

(** ** Jobs *)

Definition for_resources (d : DeployedApp) : Prop :=
  app_Cores (da_App d) = cores ∧ app_Memory (da_App d) = mem.

Definition job_world (sd : Eva * DeployedApp) : Prop := on_world sd.1 ∧ for_resources sd.2.

Lemma jw_eva {A} (m : GoM Eva A) : preserves on_world m → preserves job_world (on_eva m).
Proof.
  intros Hm [s d] [Hs Hd]. unfold on_eva. specialize (Hm s Hs).
  destruct (m s) as [r s']. by split.
Qed.

Lemma jw_status st : preserves job_world (put_status st).
Proof. by intros [s d] [Hs Hd]. Qed.

Lemma jw_get {A} (k : DeployedApp → GoM (Eva * DeployedApp) A) :
  (∀ d, for_resources d → preserves job_world (k d)) → preserves job_world (d ← get_dapp; k d).
Proof. intros Hk [s d] [Hs Hd]. apply (Hk d Hd). by split. Qed.

Lemma jw_SetDeployed id : preserves job_world (job_SetDeployed id).
Proof.
  intros [s d] [Hs Hd]. unfold job_SetDeployed. pose proof (world_fs (SetDeployed id d) s Hs) as Hp.
  pose proof (SetDeployed_id id d s) as Hd'.
  destruct (fs (SetDeployed id d) s) as [[[d' err]|e] s'] eqn:E; (split; [exact Hp|]); simpl;
    [by rewrite (Hd' _ _ _ eq_refl)|done].
Qed.

Lemma jw_or_error m k :
  preserves job_world m → preserves job_world k → preserves job_world (or_error m k).
Proof. intros Hm Hk. apply preserves_bind; [done|]. intros [e|]; [apply jw_status|done]. Qed.

Lemma jw_or_return m k :
  preserves job_world m → preserves job_world k → preserves job_world (or_return m k).
Proof. intros Hm Hk. apply preserves_bind; [done|]. intros [e|]; [apply preserves_ret|done]. Qed.

Ltac keep_job :=
  repeat first
    [ done
    | progress cbv beta zeta
    | apply preserves_ret | apply preserves_panic
    | apply jw_status | apply jw_SetDeployed
    | apply jw_or_error | apply jw_or_return
    | apply jw_eva; solve [auto with files | unfold try; keep_files]
    | apply jw_get; intros ? ?
    | apply preserves_bind; [|intros ?]
    | case_match ].

Lemma jw_deployCommon : preserves job_world deployCommon.
Proof. unfold deployCommon, downloadImage. keep_job. Qed.

Lemma world_loadImage d : preserves on_world (loadImage d).
Proof. unfold loadImage. keep_files. Qed.

Lemma world_ports app c :
  preserves on_world (OVNCNICreatePort app c) ∧ preserves on_world (OVNCNIDeletePort app).
Proof. unfold OVNCNICreatePort, OVNCNIDeletePort. split; keep_files. Qed.

Lemma world_create_port app c : preserves on_world (OVNCNICreatePort app c).
Proof. apply world_ports. Qed.
#[local] Hint Resolve world_create_port : files.

Lemma world_Infra app : preserves on_world (CreateInfrastructureContainer app).
Proof.
  unfold CreateInfrastructureContainer, infra_Create, makeSureInfraContainerImageExists, QueryDocker,
    createDockerClient, obtainContainerID, obtainContainerPID. keep_files.
Qed.
#[local] Hint Resolve world_loadImage world_Infra : files.

Context (Hmem : 0 < mem < 2 ^ 31) (Hcores : 0 < cores < 2 ^ 31).

Lemma container_host_exact app :
  app_Cores app = cores → app_Memory app = mem →
  hc_Memory (container_host app) = mem * 2 ^ 20 ∧ hc_NanoCPUs (container_host app) = cores * 10 ^ 9.
Proof.
  intros Hc Hm. unfold container_host. cbn [hc_Memory hc_NanoCPUs]. rewrite Hc, Hm.
  rewrite (wrap_int_small (mem * 1024)) by (unfold max_int; lia).
  rewrite !wrap_int_small; unfold max_int; lia.
Qed.

Lemma jw_create_container app h :
  hc_Memory h = mem * 2 ^ 20 → hc_NanoCPUs h = cores * 10 ^ 9 →
  preserves job_world (create_container app h).
Proof.
  intros Hm Hc. unfold create_container.
  pose proof (processEAC_keeps eac_docker (λ hc, (hc_Memory hc.1, hc_NanoCPUs hc.1))
    (app_EACJsonBlob app) (processPorts (app_Ports app) h (mkContainerConfig (app_Id app) [] [] ∅))
    eac_docker_limits) as E.
  destruct (processPorts_limits (app_Ports app) h (mkContainerConfig (app_Id app) [] [] ∅)) as [E1 E2].
  destruct (processEAC _ _ _) as [h' c]. simpl in E. rewrite E1, E2, Hm, Hc in E.
  apply preserves_bind; [apply jw_eva, world_call; right; by simplify_eq|]. intros ?. keep_job.
Qed.

Lemma jw_deploy_container : preserves job_world (deploy_container_job cfg).
Proof.
  unfold deploy_container_job, of_call.
  apply jw_or_error; [apply jw_deployCommon|]. apply jw_or_error; [keep_job|].
  apply jw_get. intros d [Hc Hm]. destruct (container_host_exact (da_App d) Hc Hm) as [E1 E2].
  apply jw_or_error; [keep_job|]. apply preserves_bind; [apply jw_status|]. intros _.
  case_match; [keep_job|]. case_match; [|by apply jw_create_container].
  apply preserves_bind; [keep_job|]. intros [id|e]; [|keep_job]. by apply jw_create_container.
Qed.

Definition dom_for (dom : Domain) : Prop := dom_VCPU dom = cores ∧ dom_Memory dom = mem_rounded mem.

Lemma jw_configureIfs dom : preserves job_world (configureIfs cfg dom).
Proof. unfold configureIfs, configure_ovs, addOVSPort, isOVSBridgeCreated. keep_job. Qed.

Lemma configureIfs_for dom : dom_for dom → yields (configureIfs cfg dom) dom_for.
Proof.
  intros Hd. assert (∀ i dom, dom_for dom → dom_for (add_if i dom)) as Hi by done.
  unfold configureIfs, configure_ovs.
  repeat first [ progress cbv beta zeta | apply yields_ret; auto | apply yields_panic
               | apply yields_bind; intros ? | case_match ].
Qed.

Lemma jw_deploy_vm : preserves job_world (deploy_vm_job cfg).
Proof.
  unfold deploy_vm_job, of_call.
  apply jw_or_error; [apply jw_deployCommon|]. apply jw_or_error; [keep_job|].
  apply jw_get. intros d [Hc Hm].
  apply (preserves_bind_yields _ _ dom_for);
    [apply configureIfs_for; split; [done|by rewrite <-Hm]|apply jw_configureIfs|].
  intros dom [Hc' Hm']. cbv zeta.
  pose proof (processEAC_keeps eac_vm (λ d, (dom_Memory d, dom_VCPU d))
    (app_EACJsonBlob (da_App d)) dom eac_vm_limits) as Ee. simpl in Ee. rewrite Hc', Hm' in Ee.
  set (dom' := processEAC _ _ _) in *. clearbody dom'. injection Ee as Em Ec.
  apply jw_or_error; [keep_job|]. apply preserves_bind; [by apply jw_eva, world_call|]. intros ?. keep_job.
Qed.

Lemma world_final_save job d :
  preserves job_world job → for_resources d → preserves on_world (with_final_save job d).
Proof.
  intros Hj Hd s Hs. unfold with_final_save. destruct (Hj (s, d) (conj Hs Hd)) as [Hs' _].
  destruct (job (s, d)) as [r [s' d']]. simpl in *.
  pose proof (world_fs (Save true d') s' Hs') as Hf. by destruct (fs (Save true d') s') as [[] s''].
Qed.

Lemma world_syncUndeploy d : preserves on_world (syncUndeploy cfg d).
Proof.
  assert (∀ app bad, (∀ e, preserves on_world (bad e)) → preserves on_world (drop_ovn_port app bad)) as Hdrop.
  { intros app bad Hb. unfold drop_ovn_port, OVNCNIDeletePort. keep_files. }
  unfold syncUndeploy, dockerUndeploy, libvirtUndeploy, removePorts, removeOVSPort,
    RemoveInfrastructureContainer, infra_Remove, QueryDocker, createDockerClient, obtainContainerID,
    obtainContainerPID, OVNCNIDeletePort. keep_files. all: auto using preserves_ret.
Qed.

(** A task that deploys asks for nothing else. *)
Lemma world_deploy_task d :
  for_resources d →
  Forall (λ t, preserves on_world (run_task cfg t)) [TDeployContainer d; TDeployVM d; TRedeploy d].
Proof.
  intros Hd. assert (preserves on_world (syncDeployContainer cfg d)) as H1.
  { by apply world_final_save; [apply jw_deploy_container|]. }
  assert (preserves on_world (syncDeployVM cfg d)) as H2.
  { by apply world_final_save; [apply jw_deploy_vm|]. }
  repeat apply Forall_cons_2; [done|done| |apply Forall_nil_2].
  apply preserves_bind; [apply world_syncUndeploy|]. intros []; [apply preserves_ret|].
  repeat case_bool_decide; done || apply preserves_ret.
Qed.
End asks.

(** ** Calls *)

Section deploy.
Context `{EvaWorld} (cfg : EvaConfig) (app : Application).

(** The request is within the limits. *)
Definition within_limits : Prop :=
  0 < app_Cores app ≤ cfg_MaxCores cfg ∧ 0 < app_Memory app ≤ cfg_MaxAppMem cfg.

Lemma preconditions_limits t d :
  checkDeployPreconditions cfg (NewDeployedApp (RootPath cfg) t app) = inl d →
  within_limits ∧ for_resources (app_Cores app) (app_Memory app) d.
Proof.
  unfold checkDeployPreconditions. simpl.
  case_bool_decide; [done|]. case_bool_decide; [done|]. case_bool_decide; [done|].
  case_bool_decide; [done|]. repeat case_match; intros [= <-]. split; [unfold within_limits; lia|done].
Qed.

(** An accepted call starts a task that deploys the application of the request. *)
Lemma accepted_task m s t s' :
  m ∈ [DeployContainer cfg app; DeployVM cfg app; Redeploy cfg app] →
  m s = (Ret (inl (Some t)), s') →
  within_limits ∧ ∃ d, for_resources (app_Cores app) (app_Memory app) d
    ∧ t ∈ [TDeployContainer d; TDeployVM d; TRedeploy d].
Proof.
  intros Hm. assert (yields m (λ r, r = inl (Some t) → ∃ ty d,
    checkDeployPreconditions cfg (NewDeployedApp (RootPath cfg) ty app) = inl d
    ∧ t ∈ [TDeployContainer d; TDeployVM d; TRedeploy d])) as Hy.
  { repeat (apply elem_of_cons in Hm as [->|Hm]); [..|by apply elem_of_nil in Hm].
    all: unfold DeployContainer, DeployVM, Deploy, Redeploy; cbv zeta; apply yields_bind; intros ?.
    all: repeat case_match; apply yields_ret; try done; intros [= <-]; do 2 eexists; (split; [done|]).
    all: set_solver. }
  intros E. destruct (Hy _ _ _ E eq_refl) as (ty & d & Hc & Ht).
  destruct (preconditions_limits _ _ Hc) as [Hl Hr]. split; [done|]. by exists d.
Qed.
End deploy.

Lemma mem_rounded_bounds m : m ≤ mem_rounded m ≤ m + 1.
Proof. unfold mem_rounded. pose proof (Z.div_mod (m + 1) 2). pose proof (Z.mod_pos_bound (m + 1) 2). lia. Qed.

(** C33: a request to deploy or redeploy is accepted only within
    the configured numbers of processors and megabytes, and the task it starts
    asks Docker for exactly its processors and memory (no product overflows)
    and libvirt for them with the memory rounded up to an even number, at most
    one above the limit, whatever the ports and the enhanced configuration of
    the application say: a property of the world that such requests keep is
    kept by the task, from whatever state it runs. *)
Theorem eva_limits_kept `{EvaWorld} (cfg : EvaConfig) (app : Application)
    (m : GoM Eva (option task + rpc_error)) (s s' : Eva) (t : task) :
  m ∈ [DeployContainer cfg app; DeployVM cfg app; Redeploy cfg app] →
  app_Cores app < 2 ^ 31 → app_Memory app < 2 ^ 31 →
  m s = (Ret (inl (Some t)), s') →
  0 < app_Cores app ≤ cfg_MaxCores cfg ∧ 0 < app_Memory app ≤ cfg_MaxAppMem cfg
  ∧ app_Memory app ≤ mem_rounded (app_Memory app) ≤ cfg_MaxAppMem cfg + 1
  ∧ ∀ W : EXT → Prop,
      (∀ A (e : ext A) x, asks (app_Cores app) (app_Memory app) e → W x → W (answer e x).2) →
      ∀ s2, W (ev_ext s2) → W (ev_ext (run_task cfg t s2).2).
Proof.
  intros Hm Hc Hmem E. destruct (accepted_task cfg app m s t s' Hm E) as [[H1 H2] (d & Hd & Ht)].
  pose proof (mem_rounded_bounds (app_Memory app)). split_and!; try lia.
  intros W HW s2. assert (0 < app_Memory app < 2 ^ 31) as Hm' by lia.
  assert (0 < app_Cores app < 2 ^ 31) as Hc' by lia.
  pose proof (world_deploy_task cfg _ _ W HW Hm' Hc' d Hd) as HF.
  rewrite Forall_forall in HF. exact (HF t Ht s2).
Qed.

(** The application of the example as its request is accepted. *)
Definition demo_accepted : DeployedApp :=
  mkDeployedApp (mkAppData Container "https://images.example/app1" (set_source None demo_app))
    false "" ["";"var";"images";"app1"].

(** In the example every container has 1 GiB. *)
Lemma eva_limits_kept_witness :
  Forall (λ c : string * Z, c.2 = 2 ^ 30 ∨ c.2 = 0)
    (ev_ext (run_task demo_cfg (TDeployContainer demo_accepted) (ag_state demo_start)).2).
Proof.
  edestruct (eva_limits_kept demo_cfg demo_app (DeployContainer demo_cfg demo_app)
    (ag_state demo_start)) as (_ & _ & _ & HW).
  - left.
  - reflexivity.
  - reflexivity.
  - vm_compute. reflexivity.
  - apply (HW (Forall (λ c : string * Z, c.2 = 2 ^ 30 ∨ c.2 = 0))); [|constructor].
    intros A e x Ha Hx. destruct e; try exact Hx.
    apply Forall_cons_2; [|exact Hx]. destruct Ha as [[= _ ->]|[-> _]]; [by right|by left].
Defined.
