(* ===== verification/Ovn.v ===== *)
(** * The OVN plugin (edgenode/pkg/ovncni, edgenode/cmd/ovncni)

    Ports of the logical switches (ovn.go), made and removed with ovn-nbctl, and
    the container network plugin that connects a container to its port
    (ovncni.go).  The programs, the links of the host and of the network
    namespaces are the class [OvnWorld]; what is documented of them, on a view of
    the ports, routes, bridge and links, is [OvnLaws]. *)

From S2P Require Import Prelude Strconv GoNet EvaEnv Eda.
From stdpp Require Import prelude strings list gmap pretty.
From Stdlib Require Import ZArith Ascii.

Local Open Scope Z_scope.

(** ** Texts *)

(** [strings.TrimSpace] and [strings.Trim(s, quotes)]. *)
Fixpoint drop_while (p : ascii → bool) (l : list ascii) : list ascii :=
  match l with
  | [] => []
  | c :: l' => if p c then drop_while p l' else l
  end.
Definition trim_by (p : ascii → bool) (s : string) : string :=
  String.string_of_list_ascii
    (reverse (drop_while p (reverse (drop_while p (String.list_ascii_of_string s))))).
Definition is_space (c : ascii) : bool := bool_decide (c ∈ [" "; "009"; "010"; "011"; "012"; "013"]%char).
Definition trim_output (raw : string) : string :=
  trim_by (λ c, bool_decide (c = "034"%char)) (trim_by is_space raw).

(** A number in hexadecimal without leading zeros. *)
Definition hex_digit (n : Z) : ascii :=
  ascii_of_nat (Z.to_nat (if bool_decide (n < 10) then 48 + n else 87 + n)).
Fixpoint hex_digits (fuel : nat) (n : Z) (acc : string) : string :=
  match fuel with
  | O => acc
  | S fuel' =>
      let acc := String (hex_digit (n mod 16)) acc in
      if bool_decide (n / 16 = 0) then acc else hex_digits fuel' (n / 16) acc
  end.
Definition hex_group (g : Z) : string := hex_digits 4 g "".

(** [IP.String()]: the longest run of at least two zero groups is written [::]. *)
Fixpoint groups_of (ip : list Z) : list Z :=
  match ip with
  | a :: b :: ip' => (256 * a + b) :: groups_of ip'
  | _ => []
  end.
Fixpoint zero_run (g : list Z) : nat :=
  match g with
  | x :: g' => if bool_decide (x = 0) then S (zero_run g') else O
  | [] => O
  end.
Fixpoint longest_run (i : nat) (g : list Z) (best : nat * nat) : nat * nat :=
  match g with
  | [] => best
  | _ :: g' => longest_run (S i) g' (if bool_decide (best.2 < zero_run g)%nat then (i, zero_run g) else best)
  end.
Definition IPv6_String (g : list Z) : string :=
  let '(e0, n) := longest_run 0 g (O, O) in
  if bool_decide (n < 2)%nat then String.concat ":" (hex_group <$> g)
  else String.concat ":" (hex_group <$> take e0 g) +:+ "::" +:+ String.concat ":" (hex_group <$> drop (e0 + n) g).
Definition IP_String (ip : list Z) : string :=
  match ip with
  | [] => "<nil>"
  | _ =>
      match To4 ip with
      | Some p4 => String.concat "." (Itoa <$> p4)
      | None => if bool_decide (length ip = IPv6len) then IPv6_String (groups_of ip)
                else "?" +:+ String.concat "" (hex_byte <$> ip)
      end
  end.

(** [IPNet.String()]; a mask that is not simple is written in hexadecimal. *)
Definition IPNet_String (n : IPNet) : string :=
  match networkNumberAndMask n with
  | None => "<nil>"
  | Some (nn, m) =>
      match simpleMaskLength m 0 with
      | Some l => IP_String nn +:+ "/" +:+ Itoa (Z.of_nat l)
      | None => IP_String nn +:+ "/" +:+ String.concat "" (hex_byte <$> m)
      end
  end.

(** ** The programs and the links *)

(** [LinkByName] fails with its own error for a link that is not there. *)
Inductive linkErr := LinkNotFound | LinkOther (e : string).

(** The result that [ConfigureIface] applies and that is printed. *)
Record CniRoute := mkCniRoute { rt_Dst : string; rt_GW : string }.
Record CniResult := mkCniResult {
  res_CNIVersion : string;
  res_Name : string;
  res_Mac : string;
  res_Sandbox : string;
  res_Version : string;
  res_Address : IPNet;
  res_Gateway : string;
  res_Routes : list CniRoute;
  res_DNS : string;
}.

Record IPAMConfig := mkIPAMConfig { ipam_Type : string; ipam_Gateway : string; ipam_Routes : list CniRoute }.
Record CNIConfig := mkCNIConfig {
  cfg_CNIVersion : string;
  cfg_PrevResult : bool;
  cfg_DNS : string;
  cfg_IPAM : IPAMConfig;
}.

(** [ovn_exec path args] and [ovs_exec path args] run a program; operations with
    a namespace are on the links there, the others on those of the host. *)
Class OvnWorld := {
  OW : Type;
  ovn_exec : string → list string → OW → (string * error) * OW;
  ovs_exec : string → list string → OW → (string * error) * OW;
  GetNS : string → OW → error * OW;
  SetupVethWithName : string → string → string → Z → OW → error * OW;
  ns_LinkByName : string → string → OW → error * OW;
  LinkSetHardwareAddr : string → string → list Z → OW → error * OW;
  ConfigureIface : string → string → CniResult → OW → error * OW;
  LinkByName : string → OW → option linkErr * OW;
  LinkDel : string → OW → error * OW;
  PrintResult : CniResult → string → OW → error * OW;
  HOST_HOSTNAME : string;
  Unmarshal : string → CNIConfig + string;
}.

Section ovn.
Context `{OvnWorld}.
Abbreviation M := (GoM OW).

Definition ext {A} (f : OW → A * OW) : M A := λ w, let '(a, w') := f w in (Ret a, w').

(** ** Ports (ovn.go) *)

Definition defaultNbCtlPath : string := "ovn-nbctl".
Definition defaultNbCtlTimeout : Z := 10.
Definition clusterRouter : string := "cluster-router".
Definition nodeSwitch : string := "node-switch".

Definition NbCtlCommand (path : string) (timeout : Z) (args : list string) : M (string * error) :=
  '(raw, err) ← ext (ovn_exec path (("--timeout=" +:+ Itoa timeout) :: args));
  mret (trim_output raw, err).

Record LPort := mkLPort { lp_ID : string; lp_MAC : list Z; lp_IP : list Z; lp_Net : IPNet }.
Record OVNClient := mkOVNClient { nbCtlPath : string; cli_timeout : Z }.

Definition GetOVNClient (path : string) (timeout : Z) : OVNClient :=
  mkOVNClient (if str_empty path then defaultNbCtlPath else path)
    (if bool_decide (timeout = 0) then defaultNbCtlTimeout else timeout).

Definition get_dynamic (id : string) : list string :=
  ["wait-until"; "logical_switch_port"; id; "dynamic_addresses!=[]"; "--";
   "get"; "logical_switch_port"; id; "dynamic-addresses"].
Definition get_subnet (lSwitch : string) : list string := ["get"; "logical_switch"; lSwitch; "other_config:subnet"].
Definition find_dhcp (net : string) : list string := ["-f"; "csv"; "--no-headings"; "find"; "dhcp_options"; "cidr=" +:+ net].
Definition set_dhcp (id optID : string) : list string := ["lsp-set-dhcpv4-options"; id; optID].
Definition set_security (id addrs : string) : list string := ["lsp-set-port-security"; id; addrs].
Definition add_dynamic (lSwitch id : string) : list string :=
  ["lsp-add"; lSwitch; id; "--"; "set"; "logical_switch_port"; id; "addresses=dynamic"].
Definition add_address (lSwitch id ip : string) : list string :=
  ["lsp-add"; lSwitch; id; "--"; "lsp-set-addresses"; id; "dynamic"; ip].
Definition add_route (src next : string) : list string := ["--policy=src-ip"; "lr-route-add"; clusterRouter; src; next].
Definition del_route (src : string) : list string := ["--if-exists"; "lr-route-del"; clusterRouter; src].
Definition del_port (id : string) : list string := ["--if-exists"; "lsp-del"; id].

(** A command, and an error that begins with [msg] if it fails. *)
Definition nb_command {B} (c : OVNClient) (args : list string) (msg : string) (k : string → M (B + string))
    : M (B + string) :=
  '(out, err) ← NbCtlCommand (nbCtlPath c) (cli_timeout c) args;
  match err with
  | Some e => mret (inr (msg +:+ out +:+ ": " +:+ e))
  | None => k out
  end.

Definition GetPort (c : OVNClient) (lSwitch id : string) : M (LPort + string) :=
  nb_command c (get_dynamic id) ("Failed to get a dynamic port(" +:+ id +:+ "): ") (λ out,
  match strings_Split out " " with
  | [d0; d1] =>
      match ParseMAC d0 with
      | inr _ => mret (inr ("Failed to parse MAC address of OVN port(" +:+ id +:+ ") from: (" +:+ d0 +:+ ")"))
      | inl mac =>
          match ParseIP d1 with
          | None => mret (inr ("Failed to parse IP address of OVN port(" +:+ id +:+ ") from: (" +:+ d1 +:+ ")"))
          | Some ip =>
              nb_command c (get_subnet lSwitch) ("Failed to get a the subnet OVN switch(" +:+ lSwitch +:+ "): ") (λ out,
              match ParseCIDR out with
              | inr e => mret (inr ("Failed to parse subnet of OVN switch(" +:+ lSwitch +:+ "): " +:+ e))
              | inl (_, cidr) => mret (inl (mkLPort id mac ip cidr))
              end)
          end
      end
  | _ => mret (inr ("Failed to get OVN port addresses(" +:+ id +:+ ") from: (" +:+ out +:+ ")"))
  end).

Definition linkDHCPOptions (c : OVNClient) (p : LPort) (id : string) : M (LPort + string) :=
  let net := IPNet_String (lp_Net p) in
  nb_command c (find_dhcp net) ("Failed to get DHCP option(" +:+ net +:+ "): ") (λ out,
  if str_empty out then mret (inr ("Failed to get DHCP option(" +:+ net +:+ "): no output"))
  else
    let optID := default "" (head (strings_Split out ",")) in
    nb_command c (set_dhcp id optID) ("Failed to set DHCP option(" +:+ id +:+ "): ") (λ _, mret (inl p))).

(** Goes on with the value, or returns the error with a message in front. *)
Definition wrap {A B} (msg : string) (m : M (A + string)) (k : A → M (B + string)) : M (B + string) :=
  r ← m; match r with inl a => k a | inr e => mret (inr (msg +:+ e)) end.

Definition CreatePort (c : OVNClient) (lSwitch id ip : string) : M (LPort + string) :=
  if str_empty lSwitch || str_empty id
  then mret (inr ("At least one required parameter is empty lSwitch:" +:+ lSwitch +:+ "|id:" +:+ id))
  else
    nb_command c (if str_empty ip then add_dynamic lSwitch id else add_address lSwitch id ip)
      ("Failed to create a dynamic port(" +:+ id +:+ "): ") (λ _,
    wrap ("Failed to get port(" +:+ id +:+ "): ") (GetPort c lSwitch id) (λ p,
    nb_command c (set_security id (HardwareAddr_String (lp_MAC p) +:+ " " +:+ IPNet_String (lp_Net p)))
      ("Failed to set port security(" +:+ id +:+ "): ") (λ _,
    wrap "" (linkDHCPOptions c p id) (λ p,
    if str_empty HOST_HOSTNAME then mret (inr "Failed to read ENV var: HOST_HOSTNAME")
    else
      wrap ("Failed to get port(" +:+ HOST_HOSTNAME +:+ "): ") (GetPort c nodeSwitch HOST_HOSTNAME) (λ np,
      nb_command c (add_route (IP_String (lp_IP p)) (IP_String (lp_IP np)))
        ("Failed to set port routing(" +:+ id +:+ "): ") (λ _, mret (inl p))))))).

Definition DeletePort (c : OVNClient) (id : string) : M (unit + string) :=
  nb_command c (get_dynamic id) ("Failed to get a dynamic port(" +:+ id +:+ ")") (λ out,
  match strings_Split out " " with
  | [_; d1] =>
      match ParseIP d1 with
      | None => mret (inr ("Failed to parse IP address of OVN port(" +:+ id +:+ ") from: (" +:+ d1 +:+ ")"))
      | Some ip =>
          nb_command c (del_route (IP_String ip)) ("Failed to remove port routing(" +:+ id +:+ ") : ") (λ _,
          nb_command c (del_port id) ("Failed to delete port(" +:+ id +:+ "): ") (λ _, mret (inl tt)))
      end
  | _ => mret (inr ("Failed to get OVN port addresses(" +:+ id +:+ ") from: (" +:+ out +:+ ")"))
  end).

(** ** The plugin (ovncni.go) *)

Definition defaultOvsCtlPath : string := "ovs-vsctl".

Record CmdArgs := mkCmdArgs { args_Netns : string; args_IfName : string; args_Args : string; args_StdinData : string }.
Record CNIContext := mkCNIContext {
  cx_Cfg : CNIConfig;
  cx_Args : CmdArgs;
  cx_OVNCli : OVNClient;
  cx_OvsBrName : string;
  cx_HostIfName : string;
  cx_IfMTU : Z;
  cx_Subnet : string;
  cx_OvsCtlPath : string;
  cx_AppID : string;
}.

Definition OvsVsctlExec (path : string) (args : list string) : M (string * error) :=
  '(raw, err) ← ext (ovs_exec (if str_empty path then defaultOvsCtlPath else path) args);
  mret (trim_output raw, err).

(** [strconv.ParseUint(m, 10, 16)]. *)
Definition ParseUint16 (s : string) : option Z :=
  if str_empty s then None
  else match parse_uint s 0 with
       | inl z => if bool_decide (z < 2 ^ 16) then Some z else None
       | inr _ => None
       end.

Definition arg_or (key dflt args : string) : string :=
  match GetCNIArg key args with inl v => v | inr _ => dflt end.

Definition GetContext (args : CmdArgs) : CNIContext + string :=
  let a := args_Args args in
  let OVNCli := match GetCNIArg "nbCtlPath" a with
                | inl v => GetOVNClient v 0
                | inr _ => GetOVNClient "" 0
                end in
  match Unmarshal (args_StdinData args) with
  | inr e => inr ("Failed to parse network configuration: " +:+ e)
  | inl cfg =>
      if cfg_PrevResult cfg then inr "OVN-CNI must be called as the first plugin"
      else if bool_decide (ipam_Type (cfg_IPAM cfg) ≠ "ovn")
      then inr ("Only ovn IPAM is supported, provided: " +:+ ipam_Type (cfg_IPAM cfg))
      else
        match GetCNIArg "appID" a with
        | inr e => inr ("Failed to get appID from CNI args: " +:+ e)
        | inl AppID =>
            let HostIfName := String.substring 0 15 AppID in
            match GetCNIArg "subnetID" a with
            | inr e => inr ("Failed to get subnetID from CNI args: " +:+ e)
            | inl Subnet =>
                let cx mtu := mkCNIContext cfg args OVNCli (arg_or "ovsBrName" DefaultOvsBrName a) HostIfName mtu
                                Subnet (arg_or "ovsCtlPath" defaultOvsCtlPath a) AppID in
                match GetCNIArg "mtu" a with
                | inr _ => inl (cx 0)
                | inl m => match ParseUint16 m with
                           | Some mtu => inl (cx mtu)
                           | None => inr "Failed to parse provided MTU"
                           end
                end
            end
        end
  end.

(** [delLinkByName]: the error of [LinkByName] is wrapped. *)
Definition delLinkByName (name : string) : M error :=
  r ← ext (LinkByName name);
  match r with
  | Some LinkNotFound => mret (errors_New ("Failed to link " +:+ name +:+ ": Link not found"))
  | Some (LinkOther e) => mret (errors_New ("Failed to link " +:+ name +:+ ": " +:+ e))
  | None => ext (LinkDel name)
  end.

Definition getCNIResult (c : CNIContext) (p : LPort) : CniResult :=
  mkCniResult (cfg_CNIVersion (cx_Cfg c)) (args_IfName (cx_Args c)) (HardwareAddr_String (lp_MAC p))
    (args_Netns (cx_Args c)) (match To4 (lp_IP p) with Some _ => "4" | None => "6" end)
    (mkIPNet (lp_IP p) (IPNet_Mask (lp_Net p))) (ipam_Gateway (cfg_IPAM (cx_Cfg c)))
    (ipam_Routes (cfg_IPAM (cx_Cfg c))) (cfg_DNS (cx_Cfg c)).

(** What is done inside the namespace. *)
Definition in_netns (c : CNIContext) (res : CniResult) (p : LPort) : M error :=
  let ns := args_Netns (cx_Args c) in let ifName := args_IfName (cx_Args c) in
  err ← ext (SetupVethWithName ns ifName (cx_HostIfName c) (cx_IfMTU c));
  match err with
  | Some e => mret (errors_New ("Failed to setup VEth pair for: " +:+ ifName +:+ ": " +:+ e))
  | None =>
      err ← ext (ns_LinkByName ns ifName);
      match err with
      | Some e => mret (errors_New ("Failed to find " +:+ ifName +:+ ": " +:+ e))
      | None =>
          err ← ext (LinkSetHardwareAddr ns ifName (lp_MAC p));
          match err with
          | Some e => mret (errors_New ("Failed to set MAC address for " +:+ ifName +:+ ": " +:+ e))
          | None => ext (ConfigureIface ns ifName res)
          end
      end
  end.

Definition ovs_add_port (c : CNIContext) (p : LPort) : list string :=
  ["--may-exist"; "add-port"; cx_OvsBrName c; cx_HostIfName c; "--"; "set"; "interface"; cx_HostIfName c;
   "external_ids:attached_mac=" +:+ HardwareAddr_String (lp_MAC p); "external_ids:iface-id=" +:+ lp_ID p].
Definition ovs_del_port (c : CNIContext) : list string :=
  ["--if-exists"; "--with-iface"; "del-port"; cx_OvsBrName c; cx_HostIfName c].
Definition ovs_iface_id (c : CNIContext) : list string :=
  ["get"; "interface"; cx_HostIfName c; "external-ids:iface-id"].

Definition configIf (c : CNIContext) (res : CniResult) (p : LPort) : M error :=
  err ← ext (GetNS (args_Netns (cx_Args c)));
  match err with
  | Some e => mret (errors_New ("Failed to open netns " +:+ args_Netns (cx_Args c) +:+ ": " +:+ e))
  | None =>
      err ← in_netns c res p;
      match err with
      | Some e =>
          delLinkByName (cx_HostIfName c) ;;
          mret (errors_New ("Failed to configure interface: " +:+ args_IfName (cx_Args c) +:+ ": " +:+ e))
      | None =>
          '(out, err) ← OvsVsctlExec (cx_OvsCtlPath c) (ovs_add_port c p);
          match err with
          | Some e =>
              delLinkByName (cx_HostIfName c) ;;
              mret (errors_New ("Failed to add " +:+ cx_HostIfName c +:+ " to OVS bridge: " +:+ cx_OvsBrName c
                                  +:+ " because: " +:+ out +:+ ": " +:+ e))
          | None => mret nil_err
          end
      end
  end.

Definition Add (c : CNIContext) : M error :=
  r ← GetPort (cx_OVNCli c) (cx_Subnet c) (cx_AppID c);
  match r with
  | inr e => mret (errors_New ("Failed to find OVN port(" +:+ cx_AppID c +:+ "): " +:+ e))
  | inl p =>
      let cniRes := getCNIResult c p in
      err ← configIf c cniRes p;
      match err with
      | Some e => mret (errors_New ("Failed to configure interface " +:+ args_IfName (cx_Args c) +:+ ": " +:+ e))
      | None => ext (PrintResult cniRes (cfg_CNIVersion (cx_Cfg c)))
      end
  end.

(** The wrapped error is never a [LinkNotFoundError]. *)
Definition Del (c : CNIContext) : M error :=
  '(out, err) ← OvsVsctlExec (cx_OvsCtlPath c) (ovs_del_port c);
  match err with
  | Some e => mret (errors_New ("Failed to remove " +:+ cx_HostIfName c +:+ " from OVS bridge: " +:+ cx_OvsBrName c
                                  +:+ " because: " +:+ out +:+ ": " +:+ e))
  | None =>
      err ← delLinkByName (cx_HostIfName c);
      match err with
      | Some e => mret (errors_New ("Failed to remove link " +:+ cx_HostIfName c +:+ ": " +:+ e))
      | None => mret nil_err
      end
  end.

Definition Check (c : CNIContext) : M error :=
  r ← GetPort (cx_OVNCli c) (cx_Subnet c) (cx_AppID c);
  match r with
  | inr e => mret (errors_New ("Failed to find OVN port(" +:+ cx_AppID c +:+ "): " +:+ e))
  | inl _ =>
      '(id, err) ← OvsVsctlExec (cx_OvsCtlPath c) (ovs_iface_id c);
      match err with
      | Some e => mret (errors_New ("Failed to find OVS port for " +:+ cx_AppID c +:+ ": " +:+ e))
      | None => if bool_decide (id ≠ cx_AppID c)
                then mret (errors_New ("Interface ID(" +:+ id +:+ ") does not match AppID(" +:+ cx_AppID c +:+ ")"))
                else mret nil_err
      end
  end.

(** The commands of the plugin (cmd/ovncni/main.go). *)
Definition with_context (args : CmdArgs) (k : CNIContext → M error) : M error :=
  match GetContext args with
  | inr e => mret (errors_New ("Failed to parse CNI context: " +:+ e))
  | inl c => k c
  end.
Definition cmdAdd (args : CmdArgs) : M error := with_context args Add.
Definition cmdDel (args : CmdArgs) : M error := with_context args Del.
Definition cmdCheck (args : CmdArgs) : M error := with_context args Check.
End ovn.

(** ** What is relied on *)

(** The logical ports with their switch and dynamic addresses, the routes by
    source, the interfaces of the bridge with their identifiers, and the links of
    the host. *)
Record OvnView := mkOvnView {
  v_ports : gmap string (string * string);
  v_routes : gmap string string;
  v_bridge : gmap string string;
  v_links : gset string;
}.
Definition with_ports (f : gmap string (string * string) → gmap string (string * string)) (v : OvnView) : OvnView :=
  mkOvnView (f (v_ports v)) (v_routes v) (v_bridge v) (v_links v).
Definition with_routes (f : gmap string string → gmap string string) (v : OvnView) : OvnView :=
  mkOvnView (v_ports v) (f (v_routes v)) (v_bridge v) (v_links v).
Definition with_bridge (f : gmap string string → gmap string string) (v : OvnView) : OvnView :=
  mkOvnView (v_ports v) (v_routes v) (f (v_bridge v)) (v_links v).
Definition with_links (f : gset string → gset string) (v : OvnView) : OvnView :=
  mkOvnView (v_ports v) (v_routes v) (v_bridge v) (f (v_links v)).

(** An identifier that is printed as it is, or in quotes. *)
Definition plain (s : string) : bool :=
  all_chars (λ c, negb (is_space c) && negb (bool_decide (c = "034"%char)) && negb (bool_decide (c = "092"%char))) s.

(** A run of ovn-nbctl is one transaction: it fails and changes nothing, or does
    what its commands say.  [lsp-add] and [lr-route-add] refuse what is there. *)
Class OvnLaws `{OvnWorld} := {
  view : OW → OvnView;
  nb_failed path args w out e w' : ovn_exec path args w = ((out, Some e), w') → view w' = view w;
  nb_dynamic path t id w out w' :
    ovn_exec path (t :: get_dynamic id) w = ((out, None), w') →
    view w' = view w ∧ ∃ sw, v_ports (view w) !! id = Some (sw, trim_output out);
  nb_subnet path t sw w out w' : ovn_exec path (t :: get_subnet sw) w = ((out, None), w') → view w' = view w;
  nb_find path t net w out w' : ovn_exec path (t :: find_dhcp net) w = ((out, None), w') → view w' = view w;
  nb_set_dhcp path t id opt w out w' : ovn_exec path (t :: set_dhcp id opt) w = ((out, None), w') → view w' = view w;
  nb_security path t id a w out w' : ovn_exec path (t :: set_security id a) w = ((out, None), w') → view w' = view w;
  nb_add path t sw id ip w out w' :
    ovn_exec path (t :: (if str_empty ip then add_dynamic sw id else add_address sw id ip)) w = ((out, None), w') →
    v_ports (view w) !! id = None ∧ ∃ addrs, view w' = with_ports <[id := (sw, addrs)]> (view w);
  nb_route_add path t src next w out w' :
    ovn_exec path (t :: add_route src next) w = ((out, None), w') →
    v_routes (view w) !! src = None ∧ view w' = with_routes <[src := next]> (view w);
  nb_route_del path t src w out w' :
    ovn_exec path (t :: del_route src) w = ((out, None), w') → view w' = with_routes (delete src) (view w);
  nb_port_del path t id w out w' :
    ovn_exec path (t :: del_port id) w = ((out, None), w') → view w' = with_ports (delete id) (view w);
  vs_failed path args w out e w' : ovs_exec path args w = ((out, Some e), w') → view w' = view w;
  vs_add path c p w out w' :
    ovs_exec path (ovs_add_port c p) w = ((out, None), w') →
    view w' = with_bridge <[cx_HostIfName c := lp_ID p]> (view w);
  vs_del path c w out w' :
    ovs_exec path (ovs_del_port c) w = ((out, None), w') → view w' = with_bridge (delete (cx_HostIfName c)) (view w);
  vs_get path c w out w' :
    ovs_exec path (ovs_iface_id c) w = ((out, None), w') →
    view w' = view w ∧ ∃ id, v_bridge (view w) !! cx_HostIfName c = Some id ∧ (plain id = true → trim_output out = id);
  link_setup ns ifn host mtu w err w' :
    SetupVethWithName ns ifn host mtu w = (err, w') →
    match err with
    | None => host ∉ v_links (view w) ∧ view w' = with_links (λ L, {[ host ]} ∪ L) (view w)
    | Some _ => view w' = view w
    end;
  link_ns ns w err w' : GetNS ns w = (err, w') → view w' = view w;
  link_ns_name ns ifn w err w' : ns_LinkByName ns ifn w = (err, w') → view w' = view w;
  link_ns_mac ns ifn mac w err w' : LinkSetHardwareAddr ns ifn mac w = (err, w') → view w' = view w;
  link_ns_conf ns ifn res w err w' : ConfigureIface ns ifn res w = (err, w') → view w' = view w;
  link_print res ver w err w' : PrintResult res ver w = (err, w') → view w' = view w;
  link_found name w r w' : LinkByName name w = (r, w') → view w' = view w ∧ (r = None → name ∈ v_links (view w));
  link_del name w err w' :
    LinkDel name w = (err, w') →
    view w' = match err with None => with_links (λ L, L ∖ {[ name ]}) (view w) | Some _ => view w end;
}.

(** ** Life of a port *)

Section ports.
Context `{OvnLaws}.
Implicit Types (c : OVNClient) (w : OW).

(** A command fails and changes nothing, or its continuation goes on. *)
Lemma nb_command_cases {B} c args msg (k : string → GoM OW (B + string)) w :
  (∃ e w1, nb_command c args msg k w = (Ret (inr e), w1) ∧ view w1 = view w) ∨
  (∃ t out w1, ovn_exec (nbCtlPath c) (t :: args) w = ((out, None), w1) ∧ nb_command c args msg k w = k (trim_output out) w1).
Proof.
  unfold nb_command, NbCtlCommand, ext, mbind, GoM_bind.
  destruct (ovn_exec (nbCtlPath c) _ w) as [[out [e|]] w1] eqn:E; [left|right].
  - do 2 eexists. split; [reflexivity|]. by eapply nb_failed.
  - by do 3 eexists.
Qed.

(** The next command of the goal: its failure, then the rest. *)
Tactic Notation "run_command" ident(w1) ident(Hv) ident(out) ident(E) :=
  match goal with |- context [nb_command ?c ?args ?msg ?k ?w] =>
    destruct (nb_command_cases c args msg k w) as [(? & w1 & -> & Hv)|(? & out & w1 & E & ->)]
  end.

(** Reading a port. *)
Lemma GetPort_spec c sw id w :
  ∃ r w', GetPort c sw id w = (Ret r, w') ∧ view w' = view w ∧
    ∀ p, r = inl p → lp_ID p = id ∧ ∃ sw' addrs d0 d1, v_ports (view w) !! id = Some (sw', addrs) ∧
      strings_Split addrs " " = [d0; d1] ∧ ParseMAC d0 = inl (lp_MAC p) ∧ ParseIP d1 = Some (lp_IP p).
Proof.
  unfold GetPort.
  run_command w1 Hv out E.
  { do 2 eexists. split; [reflexivity|]. by split. }
  destruct (nb_dynamic _ _ _ _ _ _ E) as [Hv (sw' & Hp)]. set (addrs := trim_output out) in *.
  destruct (strings_Split addrs " ") as [|d0 [|d1 [|]]] eqn:Es; try by (do 2 eexists; split; [reflexivity|]; by split).
  destruct (ParseMAC d0) as [mac|] eqn:Em; [|by do 2 eexists; split; [reflexivity|]; by split].
  destruct (ParseIP d1) as [ip|] eqn:Ei; [|by do 2 eexists; split; [reflexivity|]; by split].
  run_command w2 Hv2 out2 E2.
  { do 2 eexists. split; [reflexivity|]. split; [congruence|done]. }
  pose proof (nb_subnet _ _ _ _ _ _ E2) as Hv2.
  destruct (ParseCIDR (trim_output out2)) as [[ip' cidr]|]; do 2 eexists; (split; [reflexivity|]); (split; [congruence|]); [|done].
  intros p [= <-]. split; [done|]. by exists sw', addrs, d0, d1.
Qed.

Lemma linkDHCP_spec c p id w :
  ∃ r w', linkDHCPOptions c p id w = (Ret r, w') ∧ view w' = view w ∧ ∀ p', r = inl p' → p' = p.
Proof.
  unfold linkDHCPOptions.
  run_command w1 Hv out E.
  { do 2 eexists. split; [reflexivity|]. by split. }
  pose proof (nb_find _ _ _ _ _ _ E) as Hv. destruct (str_empty _).
  { do 2 eexists. split; [reflexivity|]. by split. }
  run_command w2 Hv2 out2 E2.
  { do 2 eexists. split; [reflexivity|]. split; [congruence|done]. }
  do 2 eexists. split; [reflexivity|]. split; [|by intros p' [= <-]].
  rewrite (nb_set_dhcp _ _ _ _ _ _ _ E2). done.
Qed.

(** Deleting a port removes it and the route of its address, or fails. *)
Lemma DeletePort_spec c id w :
  ∃ r w', DeletePort c id w = (Ret r, w') ∧
    match r with
    | inl _ => ∃ sw addrs d0 d1 ip, v_ports (view w) !! id = Some (sw, addrs) ∧ strings_Split addrs " " = [d0; d1] ∧
        ParseIP d1 = Some ip ∧ view w' = with_ports (delete id) (with_routes (delete (IP_String ip)) (view w))
    | inr _ => view w' = view w ∨ ∃ src, view w' = with_routes (delete src) (view w)
    end.
Proof.
  unfold DeletePort.
  run_command w1 Hv out E.
  { do 2 eexists. split; [reflexivity|]. by left. }
  destruct (nb_dynamic _ _ _ _ _ _ E) as [Hv (sw' & Hp)]. set (addrs := trim_output out) in *.
  destruct (strings_Split addrs " ") as [|d0 [|d1 [|]]] eqn:Es; try by (do 2 eexists; split; [reflexivity|]; by left).
  destruct (ParseIP d1) as [ip|] eqn:Ei; [|by do 2 eexists; split; [reflexivity|]; by left].
  run_command w2 Hv2 out2 E2.
  { do 2 eexists. split; [reflexivity|]. left. congruence. }
  pose proof (nb_route_del _ _ _ _ _ _ E2) as Hv2. rewrite Hv in Hv2.
  run_command w3 Hv3 out3 E3.
  { do 2 eexists. split; [reflexivity|]. right. exists (IP_String ip). congruence. }
  do 2 eexists. split; [reflexivity|]. exists sw', addrs, d0, d1, ip. split_and!; [done..|].
  rewrite (nb_port_del _ _ _ _ _ _ E3). by rewrite Hv2.
Qed.

Lemma with_ports_undo id x v : v_ports v !! id = None → with_ports (delete id) (with_ports <[id := x]> v) = v.
Proof. intros Hn. destruct v as [P R B L]. unfold with_ports. cbn in *. by rewrite delete_insert_id. Qed.
Lemma with_routes_undo src x v : v_routes v !! src = None → with_routes (delete src) (with_routes <[src := x]> v) = v.
Proof. intros Hn. destruct v as [P R B L]. unfold with_routes. cbn in *. by rewrite delete_insert_id. Qed.

(** What making a port leaves. *)
Definition only_port (sw id : string) (v v' : OvnView) : Prop :=
  v' = v ∨ (v_ports v !! id = None ∧ ∃ addrs, v' = with_ports <[id := (sw, addrs)]> v).

Lemma CreatePort_spec c sw id ip w :
  ∃ r w', CreatePort c sw id ip w = (Ret r, w') ∧
    match r with
    | inr _ => only_port sw id (view w) (view w')
    | inl p => ∃ addrs d0 d1 next, lp_ID p = id ∧ strings_Split addrs " " = [d0; d1] ∧
        ParseMAC d0 = inl (lp_MAC p) ∧ ParseIP d1 = Some (lp_IP p) ∧
        v_ports (view w) !! id = None ∧ v_routes (view w) !! IP_String (lp_IP p) = None ∧
        view w' = with_routes <[IP_String (lp_IP p) := next]> (with_ports <[id := (sw, addrs)]> (view w))
    end.
Proof.
  unfold CreatePort. destruct (str_empty sw || str_empty id).
  { do 2 eexists. split; [reflexivity|]. by left. }
  run_command w1 Hv out E. { do 2 eexists. split; [reflexivity|]. by left. }
  destruct (nb_add _ _ _ _ _ _ _ _ E) as [Hnew (addrs & Hv1)].
  assert (∀ w', view w' = view w1 → only_port sw id (view w) (view w')) as Hleft.
  { intros w' ->. right. split; [done|]. by exists addrs. }
  destruct (GetPort_spec c sw id w1) as (r & w2 & E2 & Hv2 & Hp). unfold wrap at 1. rewrite (bind_ret _ _ _ _ _ E2).
  destruct r as [p|e]; [|do 2 eexists; split; [reflexivity|]; by apply Hleft].
  destruct (Hp p eq_refl) as (Hid & sw' & addrs' & d0 & d1 & Hlk & Hsp & Hmac & Hip).
  rewrite Hv1 in Hlk. cbn in Hlk. rewrite lookup_insert_eq in Hlk. injection Hlk as <- <-.
  run_command w3 Hv3 out3 E3. { do 2 eexists. split; [reflexivity|]. apply Hleft. congruence. }
  pose proof (nb_security _ _ _ _ _ _ _ E3) as Hv3.
  destruct (linkDHCP_spec c p id w3) as (r4 & w4 & E4 & Hv4 & Hp4). unfold wrap at 1. rewrite (bind_ret _ _ _ _ _ E4).
  destruct r4 as [p4|e]; [|do 2 eexists; split; [reflexivity|]; apply Hleft; congruence].
  rewrite (Hp4 _ eq_refl). clear Hp4.
  destruct (str_empty HOST_HOSTNAME); [do 2 eexists; split; [reflexivity|]; apply Hleft; congruence|].
  destruct (GetPort_spec c nodeSwitch HOST_HOSTNAME w4) as (r5 & w5 & E5 & Hv5 & _). unfold wrap. rewrite (bind_ret _ _ _ _ _ E5).
  destruct r5 as [np|e]; [|do 2 eexists; split; [reflexivity|]; apply Hleft; congruence].
  run_command w6 Hv6 out6 E6. { do 2 eexists. split; [reflexivity|]. apply Hleft. congruence. }
  destruct (nb_route_add _ _ _ _ _ _ _ E6) as [Hrt Hv6]. rewrite Hv5, Hv4, Hv3, Hv2, Hv1 in Hrt, Hv6.
  do 2 eexists. split; [reflexivity|]. by exists addrs, d0, d1, (IP_String (lp_IP np)).
Qed.

(** C38: Making a port returns whatever the commands answer.  If
    it succeeds then the port and its route are new, the address and the hardware
    address it returns are those of the port, nothing else has changed, and
    deleting the port, if that succeeds, restores the ports and routes there were.
    If it fails then at most the port was added, without its route. *)
Theorem ovn_port_lifecycle c sw id ip w :
  ∃ r w', CreatePort c sw id ip w = (Ret r, w') ∧
    match r with
    | inr _ => only_port sw id (view w) (view w')
    | inl p => v_ports (view w) !! id = None ∧ v_routes (view w) !! IP_String (lp_IP p) = None ∧
        (∃ addrs d0 d1 next, view w' = with_routes <[IP_String (lp_IP p) := next]> (with_ports <[id := (sw, addrs)]> (view w)) ∧
           lp_ID p = id ∧ strings_Split addrs " " = [d0; d1] ∧ ParseMAC d0 = inl (lp_MAC p) ∧ ParseIP d1 = Some (lp_IP p)) ∧
        ∀ w2, view w2 = view w' → ∃ r2 w3, DeletePort c id w2 = (Ret r2, w3) ∧ (r2 = inl tt → view w3 = view w)
    end.
Proof.
  destruct (CreatePort_spec c sw id ip w) as (r & w' & E & Hr). exists r, w'. split; [done|]. destruct r as [p|e]; [|done].
  destruct Hr as (addrs & d0 & d1 & next & Hid & Hsp & Hmac & Hip & Hport & Hroute & Hv).
  split; [done|]. split; [done|]. split; [by exists addrs, d0, d1, next|]. intros w2 Hw2.
  destruct (DeletePort_spec c id w2) as (r2 & w3 & E2 & Hr2). exists r2, w3. split; [done|]. intros ->.
  destruct Hr2 as (sw' & addrs' & d0' & d1' & ip' & Hlk & Hsp' & Hip' & ->). rewrite Hw2, Hv in *.
  cbn in Hlk. rewrite lookup_insert_eq in Hlk. injection Hlk as <- <-. rewrite Hsp in Hsp'. injection Hsp' as <- <-.
  rewrite Hip in Hip'. injection Hip' as <-. rewrite with_routes_undo by done. by apply with_ports_undo.
Qed.

(** ** Life of an interface *)

Lemma ext_run {A} (f : OW → A * OW) (w : OW) a w' : f w = (a, w') → ext f w = (Ret a, w').
Proof. unfold ext. by intros ->. Qed.

Lemma OvsVsctlExec_cases path args w :
  ∃ out err w', OvsVsctlExec path args w = (Ret (trim_output out, err), w') ∧
    ovs_exec (if str_empty path then defaultOvsCtlPath else path) args w = ((out, err), w').
Proof.
  unfold OvsVsctlExec, ext, mbind, GoM_bind. destruct (ovs_exec _ args w) as [[out err] w'] eqn:E. by do 3 eexists.
Qed.

(** What is done in the namespace makes the link of the host, if it succeeds. *)
Lemma in_netns_spec cx res p w :
  ∃ err w', in_netns cx res p w = (Ret err, w') ∧
    (err = None → cx_HostIfName cx ∉ v_links (view w) ∧
       view w' = with_links (λ L, {[ cx_HostIfName cx ]} ∪ L) (view w)).
Proof.
  unfold in_netns. set (ns := args_Netns _). set (ifn := args_IfName _).
  destruct (SetupVethWithName ns ifn (cx_HostIfName cx) (cx_IfMTU cx) w) as [err w1] eqn:E1.
  rewrite (bind_ret _ _ _ _ _ (ext_run _ _ _ _ E1)). pose proof (link_setup _ _ _ _ _ _ _ E1) as H1.
  destruct err as [e|]; [by do 2 eexists|]. destruct H1 as [Hn Hv1].
  destruct (ns_LinkByName ns ifn w1) as [err w2] eqn:E2. rewrite (bind_ret _ _ _ _ _ (ext_run _ _ _ _ E2)).
  pose proof (link_ns_name _ _ _ _ _ E2) as Hv2. destruct err as [e|]; [by do 2 eexists|].
  destruct (LinkSetHardwareAddr ns ifn (lp_MAC p) w2) as [err w3] eqn:E3. rewrite (bind_ret _ _ _ _ _ (ext_run _ _ _ _ E3)).
  pose proof (link_ns_mac _ _ _ _ _ _ E3) as Hv3. destruct err as [e|]; [by do 2 eexists|].
  destruct (ConfigureIface ns ifn res w3) as [err w4] eqn:E4. rewrite (ext_run _ _ _ _ E4).
  pose proof (link_ns_conf _ _ _ _ _ _ E4) as Hv4. do 2 eexists. split; [reflexivity|]. intros _.
  split; [done|]. congruence.
Qed.

Lemma delLink_spec name w :
  ∃ err w', delLinkByName name w = (Ret err, w') ∧
    view w' = match err with None => with_links (λ L, L ∖ {[ name ]}) (view w) | Some _ => view w end.
Proof.
  unfold delLinkByName. destruct (LinkByName name w) as [r w1] eqn:E1. rewrite (bind_ret _ _ _ _ _ (ext_run _ _ _ _ E1)).
  destruct (link_found _ _ _ _ E1) as [Hv _]. destruct r as [[|e]|]; [by do 2 eexists..|].
  destruct (LinkDel name w1) as [err w2] eqn:E2. rewrite (ext_run _ _ _ _ E2). do 2 eexists. split; [reflexivity|].
  rewrite (link_del _ _ _ _ E2). by rewrite Hv.
Qed.

Lemma Add_nil cx w w' :
  Add cx w = (Ret None, w') →
  cx_HostIfName cx ∉ v_links (view w) ∧
  view w' = with_bridge <[cx_HostIfName cx := cx_AppID cx]> (with_links (λ L, {[ cx_HostIfName cx ]} ∪ L) (view w)).
Proof.
  unfold Add. destruct (GetPort_spec (cx_OVNCli cx) (cx_Subnet cx) (cx_AppID cx) w) as (r & w1 & E1 & Hv1 & Hp).
  rewrite (bind_ret _ _ _ _ _ E1). destruct r as [p|e]; [|done]. destruct (Hp p eq_refl) as [Hid _]. unfold configIf.
  rewrite bind_assoc. destruct (GetNS (args_Netns (cx_Args cx)) w1) as [err w2] eqn:E2.
  rewrite (bind_ret _ _ _ _ _ (ext_run _ _ _ _ E2)). pose proof (link_ns _ _ _ _ E2) as Hv2.
  destruct err as [e|]; [done|].
  destruct (in_netns_spec cx (getCNIResult cx p) p w2) as (err & w3 & E3 & H3).
  rewrite bind_assoc, (bind_ret _ _ _ _ _ E3). destruct err as [e|].
  { destruct (delLink_spec (cx_HostIfName cx) w3) as (err & w4 & E4 & _). by rewrite bind_assoc, (bind_ret _ _ _ _ _ E4). }
  destruct (H3 eq_refl) as [Hn Hv3].
  destruct (OvsVsctlExec_cases (cx_OvsCtlPath cx) (ovs_add_port cx p) w3) as (out & err & w4 & E4 & Ex4).
  rewrite bind_assoc, (bind_ret _ _ _ _ _ E4). destruct err as [e|].
  { destruct (delLink_spec (cx_HostIfName cx) w4) as (err & w5 & E5 & _). by rewrite bind_assoc, (bind_ret _ _ _ _ _ E5). }
  rewrite bind_mret. destruct (PrintResult (getCNIResult cx p) (cfg_CNIVersion (cx_Cfg cx)) w4) as [err w5] eqn:E5. rewrite (ext_run _ _ _ _ E5). intros [= -> <-].
  rewrite Hv2, Hv1 in Hn. split; [done|].
  by rewrite (link_print _ _ _ _ _ E5), (vs_add _ _ _ _ _ _ Ex4), Hv3, Hv2, Hv1, Hid.
Qed.

Lemma Del_nil cx w w' :
  Del cx w = (Ret None, w') →
  view w' = with_links (λ L, L ∖ {[ cx_HostIfName cx ]}) (with_bridge (delete (cx_HostIfName cx)) (view w)).
Proof.
  unfold Del. destruct (OvsVsctlExec_cases (cx_OvsCtlPath cx) (ovs_del_port cx) w) as (out & err & w1 & E1 & Ex1).
  rewrite (bind_ret _ _ _ _ _ E1). destruct err as [e|]; [done|].
  destruct (delLink_spec (cx_HostIfName cx) w1) as (err & w2 & E2 & Hv2). rewrite (bind_ret _ _ _ _ _ E2).
  destruct err as [e|]; [done|]. intros [= <-]. by rewrite Hv2, (vs_del _ _ _ _ _ Ex1).
Qed.

(** A successful ADD makes the link and puts it on the bridge with the
    identifier of the application; a CHECK whose commands succeed then agrees,
    and a successful DEL restores what there was. *)
Theorem ovn_cni_lifecycle cx w w' :
  Add cx w = (Ret None, w') →
  cx_HostIfName cx ∉ v_links (view w) ∧
  view w' = with_bridge <[cx_HostIfName cx := cx_AppID cx]> (with_links (λ L, {[ cx_HostIfName cx ]} ∪ L) (view w)) ∧
  (plain (cx_AppID cx) = true → ∀ w2 p w3 out w4, view w2 = view w' →
     GetPort (cx_OVNCli cx) (cx_Subnet cx) (cx_AppID cx) w2 = (Ret (inl p), w3) →
     OvsVsctlExec (cx_OvsCtlPath cx) (ovs_iface_id cx) w3 = (Ret (out, None), w4) →
     Check cx w2 = (Ret None, w4)) ∧
  (v_bridge (view w) !! cx_HostIfName cx = None → ∀ w2 w3, view w2 = view w' →
     Del cx w2 = (Ret None, w3) → view w3 = view w).
Proof.
  intros HA. destruct (Add_nil _ _ _ HA) as [Hn Hv]. split; [done|]. split; [done|]. split.
  - intros Hpl w2 p w3 out w4 Hw2 Eg Eo. unfold Check. rewrite (bind_ret _ _ _ _ _ Eg), (bind_ret _ _ _ _ _ Eo).
    destruct (GetPort_spec (cx_OVNCli cx) (cx_Subnet cx) (cx_AppID cx) w2) as (r & w3' & Eg' & Hv3 & _).
    rewrite Eg in Eg'. injection Eg' as <- <-.
    destruct (OvsVsctlExec_cases (cx_OvsCtlPath cx) (ovs_iface_id cx) w3) as (raw & err & w4' & Eo' & Ex).
    rewrite Eo in Eo'. injection Eo' as -> <- <-. destruct (vs_get _ _ _ _ _ Ex) as [_ (id & Hb & Hout)].
    rewrite Hv3, Hw2, Hv in Hb. cbn in Hb. rewrite lookup_insert_eq in Hb. injection Hb as <-.
    rewrite (Hout Hpl), bool_decide_eq_false_2; [done|]. by intros [].
  - intros Hb w2 w3 Hw2 HD. rewrite (Del_nil _ _ _ HD), Hw2, Hv.
    destruct (view w) as [P R B L]. unfold with_links, with_bridge. cbn in *. f_equal.
    + by apply delete_insert_id.
    + set_solver.
Qed.
End ports.

(** ** A host *)

Module OvnScenario.

(** Commands on a view, whose dynamic addresses are those that the switch would
    give. *)
Definition demo_address (ports : gmap string (string * string)) : string :=
  "0a:00:00:00:00:01 10.16.0." +:+ Itoa (Z.of_nat (size ports) + 2).
Definition demo_ovn (args : list string) (v : OvnView) : (string * error) * OvnView :=
  let a k := default "" (args !! k) in
  if String.eqb (a 1%nat) "wait-until" then
    match v_ports v !! a 3%nat with Some (_, addrs) => ((addrs, None), v) | None => (("", Some "no row"), v) end
  else if String.eqb (a 1%nat) "get" then (("10.16.0.0/16", None), v)
  else if String.eqb (a 1%nat) "-f" then (("7d,10.16.0.0/16", None), v)
  else if String.eqb (a 1%nat) "lsp-set-dhcpv4-options" || String.eqb (a 1%nat) "lsp-set-port-security" then (("", None), v)
  else if String.eqb (a 1%nat) "lsp-add" then
    match v_ports v !! a 3%nat with
    | Some _ => (("", Some "already exists"), v)
    | None => (("", None), with_ports <[a 3%nat := (a 2%nat, demo_address (v_ports v))]> v)
    end
  else if String.eqb (a 1%nat) "--policy=src-ip" then
    match v_routes v !! a 4%nat with
    | Some _ => (("", Some "duplicate prefix"), v)
    | None => (("", None), with_routes <[a 4%nat := a 5%nat]> v)
    end
  else if String.eqb (a 2%nat) "lr-route-del" then (("", None), with_routes (delete (a 4%nat)) v)
  else if String.eqb (a 2%nat) "lsp-del" then (("", None), with_ports (delete (a 3%nat)) v)
  else (("", Some "unknown command"), v).

Definition demo_ovs (args : list string) (v : OvnView) : (string * error) * OvnView :=
  let a k := default "" (args !! k) in
  if String.eqb (a 0%nat) "--may-exist" then
    match Strconv.strip_prefix "external_ids:iface-id=" (a 9%nat) with
    | Some id => (("", None), with_bridge <[a 3%nat := id]> v)
    | None => (("", Some "no identifier"), v)
    end
  else if String.eqb (a 0%nat) "--if-exists" then (("", None), with_bridge (delete (a 4%nat)) v)
  else if String.eqb (a 0%nat) "get" then
    match v_bridge v !! a 2%nat with Some id => ((id, None), v) | None => (("", Some "no row"), v) end
  else (("", Some "unknown command"), v).

#[export] Instance demo_ovn_world : OvnWorld | 100 := {|
  OW := OvnView;
  ovn_exec _ := demo_ovn;
  ovs_exec _ := demo_ovs;
  GetNS _ v := (None, v);
  SetupVethWithName _ _ host _ v :=
    if bool_decide (host ∈ v_links v) then (Some "file exists", v) else (None, with_links (λ L, {[ host ]} ∪ L) v);
  ns_LinkByName _ _ v := (None, v);
  LinkSetHardwareAddr _ _ _ v := (None, v);
  ConfigureIface _ _ _ v := (None, v);
  LinkByName name v := (if bool_decide (name ∈ v_links v) then None else Some LinkNotFound, v);
  LinkDel name v := (None, with_links (λ L, L ∖ {[ name ]}) v);
  PrintResult _ _ v := (None, v);
  HOST_HOSTNAME := "edge";
  Unmarshal _ := inl (mkCNIConfig "0.4.0" false "" (mkIPAMConfig "ovn" "10.16.0.1" []));
|}.

(** The view trims the addresses that the commands store. *)
Definition demo_view (v : OvnView) : OvnView := with_ports (fmap (prod_map id trim_output)) v.

Lemma drop_while_none p l : forallb (λ c, negb (p c)) l = true → drop_while p l = l.
Proof. destruct l as [|c l]; [done|]. cbn. by destruct (p c). Qed.
Lemma trim_by_none p s : all_chars (λ c, negb (p c)) s = true → trim_by p s = s.
Proof.
  intros Hp. unfold trim_by. rewrite (drop_while_none p (String.list_ascii_of_string s) Hp).
  rewrite drop_while_none, reverse_involutive; [apply String.string_of_list_ascii_of_string|].
  unfold all_chars in Hp. rewrite forallb_forall in *. intros c Hc. apply Hp.
  apply list_elem_of_In, elem_of_reverse. by apply list_elem_of_In.
Qed.
Lemma trim_plain s : plain s = true → trim_output s = s.
Proof.
  unfold plain, trim_output. intros Hp. unfold all_chars in Hp. rewrite forallb_forall in Hp.
  assert (∀ q, (∀ c, q c = true → is_space c = true ∨ c = "034"%char) → trim_by q s = s) as Ht.
  { intros q Hq. apply trim_by_none. unfold all_chars. apply forallb_forall. intros c Hc. specialize (Hp c Hc).
    apply andb_true_iff in Hp as [Hp _]. apply andb_true_iff in Hp as [H1 H2]. destruct (q c) eqn:E; [|done].
    destruct (Hq c E) as [Hs| ->]; [by rewrite Hs in H1|done]. }
  rewrite (Ht is_space) by (by left). apply Ht. intros c Hc. right. by apply bool_decide_eq_true in Hc.
Qed.

#[export] Program Instance demo_ovn_laws : OvnLaws | 100 := {| view := demo_view |}.
Next Obligation. intros path args w out e w' E. cbn in E. unfold demo_ovn in E. repeat case_match; by simplify_eq. Qed.
Next Obligation.
  intros path t id w out w' E. cbn in E. destruct (v_ports w !! id) as [[sw addrs]|] eqn:El; [|done]. simplify_eq.
  split; [done|]. exists sw. cbn. by rewrite lookup_fmap, El.
Qed.
Next Obligation. intros path t sw w out w' E. cbn in E. by simplify_eq. Qed.
Next Obligation. intros path t net w out w' E. cbn in E. by simplify_eq. Qed.
Next Obligation. intros path t id opt w out w' E. cbn in E. by simplify_eq. Qed.
Next Obligation. intros path t id a w out w' E. cbn in E. by simplify_eq. Qed.
Next Obligation.
  intros path t sw id ip w out w' E. assert (∃ r, (if str_empty ip then add_dynamic sw id else add_address sw id ip) = "lsp-add" :: sw :: id :: r) as [r Er].
  { destruct (str_empty ip); by eexists. }
  rewrite Er in E. cbn in E. destruct (v_ports w !! id) as [?|] eqn:El; [done|]. simplify_eq. cbn.
  rewrite lookup_fmap, El. split; [done|]. exists (trim_output (demo_address (v_ports w))).
  unfold demo_view, with_ports. cbn. by rewrite fmap_insert.
Qed.
Next Obligation.
  intros path t src next w out w' E. cbn in E. destruct (v_routes w !! src) as [?|] eqn:El; [done|]. by simplify_eq.
Qed.
Next Obligation. intros path t src w out w' E. cbn in E. by simplify_eq. Qed.
Next Obligation.
  intros path t id w out w' E. cbn in E. simplify_eq. unfold demo_view, with_ports. cbn. by rewrite fmap_delete.
Qed.
Next Obligation. intros path args w out e w' E. cbn in E. unfold demo_ovs in E. repeat case_match; by simplify_eq. Qed.
Next Obligation.
  intros path c p w out w' E. set (pre := "external_ids:iface-id=").
  assert (demo_ovs (ovs_add_port c p) w =
    match Strconv.strip_prefix pre (pre +:+ lp_ID p) with
    | Some id => (("", None), with_bridge <[cx_HostIfName c := id]> w)
    | None => (("", Some "no identifier"), w)
    end) as Ed by reflexivity.
  rewrite (proj2 (strip_prefix_Some pre (pre +:+ lp_ID p) (lp_ID p)) eq_refl) in Ed.
  change (demo_ovs (ovs_add_port c p) w = (out, None, w')) in E. rewrite Ed in E. by simplify_eq.
Qed.
Next Obligation. intros path c w out w' E. cbn in E. by simplify_eq. Qed.
Next Obligation.
  intros path c w out w' E. cbn in E. destruct (v_bridge w !! cx_HostIfName c) as [id|] eqn:El; [|done]. simplify_eq.
  split; [done|]. exists out. split; [done|]. apply trim_plain.
Qed.
Next Obligation. intros ns ifn host mtu w err w' E. cbn in E. case_bool_decide; by simplify_eq. Qed.
Next Obligation. intros ns w err w' E. cbn in E. by simplify_eq. Qed.
Next Obligation. intros ns ifn w err w' E. cbn in E. by simplify_eq. Qed.
Next Obligation. intros ns ifn mac w err w' E. cbn in E. by simplify_eq. Qed.
Next Obligation. intros ns ifn res w err w' E. cbn in E. by simplify_eq. Qed.
Next Obligation. intros res ver w err w' E. cbn in E. by simplify_eq. Qed.
Next Obligation. intros name w r w' E. cbn in E. simplify_eq. split; [done|]. by case_bool_decide. Qed.
Next Obligation. intros name w err w' E. cbn in E. by simplify_eq. Qed.

(** A host with the port of its node. *)
Definition demo_host : @OW demo_ovn_world := mkOvnView {[ "edge" := ("node-switch", "0a:00:00:00:00:00 100.64.0.2") ]} ∅ ∅ ∅.
Definition demo_args (app : string) : CmdArgs := mkCmdArgs "/proc/7/ns/net" "eth0" ("appID=" +:+ app +:+ ";subnetID=cluster-net") "{}".
Definition demo_client : OVNClient := GetOVNClient "" 0.
Definition demo_port : LPort :=
  mkLPort "app-1" [10; 0; 0; 0; 0; 1] (v4InV6Prefix ++ [10; 16; 0; 3]) (mkIPNet [10; 16; 0; 0] [255; 255; 0; 0]).
Definition with_port : @OW demo_ovn_world := (CreatePort demo_client "cluster-net" "app-1" "" demo_host).2.
End OvnScenario.
Import OvnScenario.

Lemma ovn_port_lifecycle_witness :
  ∃ w', CreatePort demo_client "cluster-net" "app-1" "" demo_host = (Ret (inl demo_port), w') ∧
    v_ports (view demo_host) !! "app-1" = None ∧
    ∃ w3, DeletePort demo_client "app-1" w' = (Ret (inl tt), w3) ∧ view w3 = view demo_host.
Proof.
  destruct (ovn_port_lifecycle demo_client "cluster-net" "app-1" "" demo_host) as (r & w' & E & Hr).
  assert (r = inl demo_port) as ->.
  { apply (f_equal fst) in E. vm_compute in E. injection E as <-. vm_compute. reflexivity. }
  destruct Hr as (Hp & _ & _ & Hdel). exists w'. split; [exact E|]. split; [exact Hp|].
  assert (w' = with_port) as -> by (unfold with_port; rewrite E; reflexivity).
  destruct (Hdel with_port eq_refl) as (r2 & w3 & E2 & Hv). exists w3.
  assert (r2 = inl tt) as ->.
  { apply (f_equal fst) in E2. vm_compute in E2. injection E2 as <-. reflexivity. }
  split; [exact E2|exact (Hv eq_refl)].
Defined.

(** Two applications whose identifiers share their first fifteen characters:
    adding the second fails, and removes the link of the first. *)
Definition two_ports : @OW demo_ovn_world :=
  (CreatePort demo_client "cluster-net" "application-0001-b" ""
     (CreatePort demo_client "cluster-net" "application-0001-a" "" demo_host).2).2.
Example ovn_link_collision :
  let w1 := (cmdAdd (demo_args "application-0001-a") two_ports).2 in
  (cmdAdd (demo_args "application-0001-a") two_ports).1 = Ret None ∧ v_links w1 = {[ "application-000" ]} ∧
  (∃ e, (cmdAdd (demo_args "application-0001-b") w1).1 = Ret (Some e)) ∧
  v_links (cmdAdd (demo_args "application-0001-b") w1).2 = ∅.
Proof. vm_compute. split_and!; try reflexivity. by eexists. Qed.

(** A second DEL fails because the link is gone, although the plugin means to
    accept that. *)
Example ovn_del_twice_fails :
  let w1 := (cmdAdd (demo_args "app-1") with_port).2 in
  let w2 := (cmdDel (demo_args "app-1") w1).2 in
  (cmdDel (demo_args "app-1") w1).1 = Ret None ∧ ∃ e, (cmdDel (demo_args "app-1") w2).1 = Ret (Some e).
Proof. vm_compute. split; [reflexivity|]. by eexists. Qed.
