(* ===== verification/Proxy.v ===== *)
(** * The proxy of gRPC connections (common/proxy/progutil/progutil.go)

    Behind a firewall the agents of a node dial the controller and serve on the
    connection they dialled.  [PrefaceListener] is the side of the controller: it
    tells agents from clients by the first bytes and keeps the newest connection
    of each agent in a channel of one place for whoever dials that agent.
    [DialListener] is the side of the node: it dials whenever all of its
    connections are in use, which two counters tell.  Goroutines interleave
    between the atomic steps of the sources. *)

From S2P Require Import Prelude Strconv CceServer.
From stdpp Require Import prelude strings list gmap.
From Stdlib Require Import ZArith.

Local Open Scope Z_scope.

(** ** Connections of the agents (PrefaceListener) *)

Record Conn := mkConn { c_id : Z; c_remote : string }.

(** The channels of a host: places in the store of channels. *)
Record applianceChans := mkChans { ac_eva : nat; ac_ela : nat }.

(** The map of the listener, the channels that were made, with what they hold,
    and the connections it has closed. *)
Record Proxy := mkProxy {
  ch : gmap string applianceChans;
  chans : list (option Conn);
  px_closed : list Conn;
}.

Definition NewPrefaceListener : Proxy := mkProxy ∅ [] [].

Definition RegisterHost (addr : string) : GoM Proxy unit :=
  go_modify (λ p, mkProxy (<[addr := mkChans (length (chans p)) (S (length (chans p)))]> (ch p))
                    (chans p ++ [None; None]) (px_closed p)).

(** A channel of one place: [select] with a default. *)
Definition chan_recv (k : nat) : GoM Proxy (option Conn) := λ p,
  match chans p !! k with
  | Some (Some c) => (Ret (Some c), mkProxy (ch p) (<[k := None]> (chans p)) (px_closed p))
  | _ => (Ret None, p)
  end.
Definition chan_send (k : nat) (c : Conn) : GoM Proxy bool := λ p,
  match chans p !! k with
  | Some None => (Ret true, mkProxy (ch p) (<[k := Some c]> (chans p)) (px_closed p))
  | _ => (Ret false, p)
  end.
Definition conn_Close (c : Conn) : GoM Proxy unit :=
  go_modify (λ p, mkProxy (ch p) (chans p) (px_closed p ++ [c])).

Definition host_of (addr : string) : string :=
  match SplitHostPort addr with Some (host, _) => host | None => "" end.

(** The channel of an agent, if its host is registered. *)
Definition agent_chan (agent : string) (apc : applianceChans) : option nat :=
  if bool_decide (agent = "EVA") then Some (ac_eva apc)
  else if bool_decide (agent = "ELA") then Some (ac_ela apc)
  else None.
Definition store_chan (conn : Conn) (agent : string) : GoM Proxy (option nat) :=
  p ← go_get;
  mret (match ch p !! host_of (c_remote conn) with
        | None => None
        | Some apc => agent_chan agent apc
        end).

(** The two selects. *)
Definition store_drain (k : nat) : GoM Proxy unit :=
  r ← chan_recv k;
  match r with Some discard => conn_Close discard | None => mret tt end.
Definition store_send (k : nat) (conn : Conn) : GoM Proxy unit :=
  ok ← chan_send k conn;
  if (ok : bool) then mret tt else conn_Close conn.

Definition storeConn (conn : Conn) (agent : string) : GoM Proxy unit :=
  k ← store_chan conn agent;
  match k with
  | None => mret tt
  | Some k => store_drain k ;; store_send k conn
  end.

(** The connection of a client with what was read of it in front. *)
Record readerConn := mkReaderConn { rc_Conn : Conn; rc_front : string }.

Inductive acceptErr := ListenerErr (e : string) | TempErr.

(** [r] is what the listener accepted, with the bytes that the first read
    returned, three at most and none if it failed. *)
Definition Accept (r : Conn * string + string) : GoM Proxy (readerConn + acceptErr) :=
  match r with
  | inr e => mret (inr (ListenerErr e))
  | inl (conn, packet) =>
      if bool_decide (packet = "EVA") then storeConn conn packet ;; mret (inr TempErr)
      else if bool_decide (packet = "ELA") then storeConn conn packet ;; mret (inr TempErr)
      else mret (inl (mkReaderConn conn packet))
  end.

(** What the connection yields, [rest] being what is still to be read. *)
Definition stream (c : readerConn) (rest : string) : string := rc_front c +:+ rest.

(** [timeout] tells whether the timer fires first; a receive from the empty
    channel waits for it. *)
Definition dialCommon (k : nat) (timeout : bool) : GoM Proxy (Conn + string) :=
  if timeout then mret (inr "context deadline exceeded")
  else
    r ← chan_recv k;
    match r with
    | Some conn => mret (inl conn)
    | None => mret (inr "context deadline exceeded")
    end.
(** The map is read first; then the dialer waits on the channel it found, also
    if the map has changed since. *)
Definition dial_lookup (sel : applianceChans → nat) (addr : string) : GoM Proxy (nat + string) :=
  p ← go_get;
  mret (match ch p !! addr with
        | None => inr ("'" +:+ addr +:+ "' not registered in proxy")
        | Some apc => inl (sel apc)
        end).
Definition dial_agent (sel : applianceChans → nat) (addr : string) (timeout : bool) : GoM Proxy (Conn + string) :=
  r ← dial_lookup sel addr;
  match r with
  | inr e => mret (inr e)
  | inl k => dialCommon k timeout
  end.
Definition DialEva : string → bool → GoM Proxy (Conn + string) := dial_agent ac_eva.
Definition DialEla : string → bool → GoM Proxy (Conn + string) := dial_agent ac_ela.

(** ** Interleaved steps *)

(** The one goroutine that accepts is in the middle of [storeConn] with a
    connection, the agent it named and its channel, before or after the first
    select.  Each dialer between its reading of the map and its receive holds the
    channel it found, for the host and the agent that it dials.  The rest records
    what became of the connections that were accepted: those done with, in order,
    with the agent they named and the channel they were for; where they are; and
    for whom each channel was made. *)
Record Cfg := mkCfg {
  px : Proxy;
  storing : option (Conn * string * nat * bool);
  dialing : list (string * string * nat);
  accepted : list (Conn * option (string * nat));
  clients : list Conn;
  dialed : list Conn;
  forgotten : list Conn;
  owners : list (string * string);
}.
Definition cfg_initial : Cfg := mkCfg NewPrefaceListener None [] [] [] [] [] [].

(** The agents, with the channel that their dial function waits on. *)
Definition dials (agent : string) (sel : applianceChans → nat) : Prop :=
  (agent = "EVA" ∧ sel = ac_eva) ∨ (agent = "ELA" ∧ sel = ac_ela).

Inductive pstep : Cfg → Cfg → Prop :=
| st_register addr s :
    pstep s (mkCfg (exec (RegisterHost addr) (px s)) (storing s) (dialing s) (accepted s) (clients s) (dialed s)
               (forgotten s) (owners s ++ [(addr, "EVA"); (addr, "ELA")]))
| st_client c packet rc p' s :
    storing s = None → Accept (inl (c, packet)) (px s) = (Ret (inl rc), p') →
    pstep s (mkCfg p' None (dialing s) (accepted s ++ [(c, None)]) (clients s ++ [rc_Conn rc]) (dialed s)
               (forgotten s) (owners s))
| st_forget c agent p' s :
    storing s = None → agent ∈ ["EVA"; "ELA"] → store_chan c agent (px s) = (Ret None, p') →
    pstep s (mkCfg p' None (dialing s) (accepted s ++ [(c, None)]) (clients s) (dialed s)
               (forgotten s ++ [c]) (owners s))
| st_begin c agent k p' s :
    storing s = None → agent ∈ ["EVA"; "ELA"] → store_chan c agent (px s) = (Ret (Some k), p') →
    pstep s (mkCfg p' (Some (c, agent, k, false)) (dialing s) (accepted s) (clients s) (dialed s)
               (forgotten s) (owners s))
| st_drain c agent k s :
    storing s = Some (c, agent, k, false) →
    pstep s (mkCfg (exec (store_drain k) (px s)) (Some (c, agent, k, true)) (dialing s) (accepted s) (clients s)
               (dialed s) (forgotten s) (owners s))
| st_send c agent k s :
    storing s = Some (c, agent, k, true) →
    pstep s (mkCfg (exec (store_send k c) (px s)) None (dialing s) (accepted s ++ [(c, Some (agent, k))]) (clients s)
               (dialed s) (forgotten s) (owners s))
| st_dial agent sel addr k p' s :
    dials agent sel → dial_lookup sel addr (px s) = (Ret (inl k), p') →
    pstep s (mkCfg p' (storing s) (dialing s ++ [(addr, agent, k)]) (accepted s) (clients s) (dialed s)
               (forgotten s) (owners s))
| st_recv i addr agent k c p' s :
    dialing s !! i = Some (addr, agent, k) → dialCommon k false (px s) = (Ret (inl c), p') →
    pstep s (mkCfg p' (storing s) (delete i (dialing s)) (accepted s) (clients s) (dialed s ++ [c])
               (forgotten s) (owners s))
| st_timeout i addr agent k e p' s :
    dialing s !! i = Some (addr, agent, k) → dialCommon k true (px s) = (Ret (inr e), p') →
    pstep s (mkCfg p' (storing s) (delete i (dialing s)) (accepted s) (clients s) (dialed s)
               (forgotten s) (owners s)).

(** ** Connections of the node (DialListener) *)

Definition wrap32 (z : Z) : Z := (z + 2 ^ 31) mod 2 ^ 32 - 2 ^ 31.

(** How far the functions of the two [sync.Once] of a connection are: that of
    the first read sets the flag and then counts; that of the end uncounts the
    connection, looks at the flag, and then uncounts its use. *)
Inductive readPhase := RNone | RFlagged | RCounted.
Inductive errPhase := ENone | EUncounted | ELooked (seen : bool) | EDone (seen : bool).

Record notifyOnNetErr := mkNotify {
  nt_active : bool;
  nt_onceRead : readPhase;
  nt_onceErr : errPhase;
}.
Definition new_conn : notifyOnNetErr := mkNotify false RNone ENone.

(** The counters, and all connections that were ever returned. *)
Record DialListener := mkDialListener {
  established : Z;
  active : Z;
  conns : list notifyOnNetErr;
}.
Definition zero_listener : DialListener := mkDialListener 0 0 [].

Definition add_established (d : Z) (l : DialListener) : DialListener :=
  mkDialListener (wrap32 (established l + d)) (active l) (conns l).
Definition add_active (d : Z) (l : DialListener) : DialListener :=
  mkDialListener (established l) (wrap32 (active l + d)) (conns l).
Definition set_notify (i : nat) (f : notifyOnNetErr → notifyOnNetErr) (l : DialListener) : DialListener :=
  mkDialListener (established l) (active l) (alter f i (conns l)).

(** The steps of the function of the first read. *)
Definition read_flag (i : nat) : DialListener → DialListener :=
  set_notify i (λ c, mkNotify true RFlagged (nt_onceErr c)).
Definition read_count (i : nat) (l : DialListener) : DialListener :=
  set_notify i (λ c, mkNotify (nt_active c) RCounted (nt_onceErr c)) (add_active 1 l).

(** The steps of the function of the end. *)
Definition err_begin (i : nat) (l : DialListener) : DialListener :=
  set_notify i (λ c, mkNotify (nt_active c) (nt_onceRead c) EUncounted) (add_established (-1) l).
Definition err_look (i : nat) : DialListener → DialListener :=
  set_notify i (λ c, mkNotify (nt_active c) (nt_onceRead c) (ELooked (nt_active c))).
Definition err_end (i : nat) (seen : bool) (l : DialListener) : DialListener :=
  set_notify i (λ c, mkNotify (nt_active c) (nt_onceRead c) (EDone seen)) (if seen then add_active (-1) l else l).

(** What a call on the connection returned. *)
Inductive netErr := NoErr | OtherErr | NetErr (temporary : bool).
Definition fatal (e : netErr) : bool :=
  match e with NoErr => false | OtherErr => true | NetErr temporary => negb temporary end.

(** The functions of [onceErr] and [onceRead], without interruption. *)
Definition once_err (i : nat) : GoM DialListener unit :=
  l ← go_get;
  match conns l !! i with
  | Some (mkNotify _ _ ENone) =>
      go_modify (err_begin i) ;;
      go_modify (err_look i) ;;
      l ← go_get;
      match conns l !! i with
      | Some (mkNotify a _ _) => go_modify (err_end i a)
      | None => mret tt
      end
  | _ => mret tt
  end.
Definition once_read (i : nat) : GoM DialListener unit :=
  l ← go_get;
  match conns l !! i with
  | Some (mkNotify _ RNone _) => go_modify (read_flag i) ;; go_modify (read_count i)
  | _ => mret tt
  end.

(** The methods of connection [i]; [n] and [err] are what the connection
    below returned. *)
Definition conn_Read (i : nat) (n : Z) (err : netErr) : GoM DialListener (Z * netErr) :=
  if fatal err then once_err i ;; mret (n, err)
  else if bool_decide (n = 0) then mret (n, err)
  else once_read i ;; mret (n, err).
Definition conn_Write (i : nat) (n : Z) (err : netErr) : GoM DialListener (Z * netErr) :=
  if fatal err then once_err i ;; mret (n, err) else mret (n, err).
Definition notify_Close (i : nat) : GoM DialListener unit := once_err i.

(** [Accept]: [dial] is whether dialling and writing the name succeed, [None]
    when dialling fails.  The new connection is the last. *)
Definition add_conn (l : DialListener) : DialListener :=
  mkDialListener (wrap32 (established l + 1)) (active l) (conns l ++ [new_conn]).
Definition has_free (l : DialListener) : bool := bool_decide (active l < established l).
Definition lis_Accept (dial : option bool) : GoM DialListener (nat + acceptErr) :=
  l ← go_get;
  if has_free l then mret (inr TempErr)
  else
    match dial with
    | None => mret (inr TempErr)
    | Some false => mret (inr (ListenerErr "Failed to write the identification string"))
    | Some true => l ← go_get; go_modify add_conn ;; mret (inl (length (conns l)))
    end.

(** Every goroutine at any of its steps. *)
Inductive dstep : DialListener → DialListener → Prop :=
| ds_accept l : dstep l (add_conn l)
| ds_read_flag i c l : conns l !! i = Some c → nt_onceRead c = RNone → dstep l (read_flag i l)
| ds_read_count i c l : conns l !! i = Some c → nt_onceRead c = RFlagged → dstep l (read_count i l)
| ds_err_begin i c l : conns l !! i = Some c → nt_onceErr c = ENone → dstep l (err_begin i l)
| ds_err_look i c l : conns l !! i = Some c → nt_onceErr c = EUncounted → dstep l (err_look i l)
| ds_err_end i c b l : conns l !! i = Some c → nt_onceErr c = ELooked b → dstep l (err_end i b l).

(** ** The counters count *)

Definition sumz : list Z → Z := foldr Z.add 0.

Lemma sumz_app a b : sumz (a ++ b) = sumz a + sumz b.
Proof. induction a as [|x a IH]; cbn; [done|]. rewrite IH. lia. Qed.
Lemma sumz_alter {A} (f : A → Z) g i l c :
  l !! i = Some c → sumz (f <$> alter g i l) = sumz (f <$> l) - f c + f (g c).
Proof.
  revert i. induction l as [|x l IH]; intros [|i] Hi; cbn in *; try done.
  - injection Hi as ->. lia.
  - rewrite (IH _ Hi). lia.
Qed.

(** What a connection contributes to the counters. *)
Definition counts_established (c : notifyOnNetErr) : Z :=
  match nt_onceErr c with ENone => 1 | _ => 0 end.
Definition counts_active (c : notifyOnNetErr) : Z :=
  (match nt_onceRead c with RCounted => 1 | _ => 0 end) - (match nt_onceErr c with EDone true => 1 | _ => 0 end).

(** The flag is set with the first read, and only a set flag is seen. *)
Record conn_ok (c : notifyOnNetErr) : Prop := {
  co_flag : nt_active c = false ↔ nt_onceRead c = RNone;
  co_seen b : nt_onceErr c = ELooked b ∨ nt_onceErr c = EDone b → b = true → nt_active c = true;
}.

Record pool_ok (l : DialListener) : Prop := {
  po_established : established l = wrap32 (sumz (counts_established <$> conns l));
  po_active : active l = wrap32 (sumz (counts_active <$> conns l));
  po_conns : Forall conn_ok (conns l);
}.

Lemma wrap32_add a d : wrap32 (wrap32 a + d) = wrap32 (a + d).
Proof.
  unfold wrap32. f_equal. replace ((a + 2 ^ 31) mod 2 ^ 32 - 2 ^ 31 + d + 2 ^ 31) with ((a + 2 ^ 31) mod 2 ^ 32 + d) by lia.
  rewrite Z.add_mod_idemp_l by done. f_equal. lia.
Qed.
Lemma wrap32_small z : - 2 ^ 31 ≤ z < 2 ^ 31 → wrap32 z = z.
Proof. intros Hz. unfold wrap32. rewrite Z.mod_small; lia. Qed.

(** A step on connection [i] that adds to the counters what it changes there. *)
Lemma pool_alter i f (de da : Z) l c :
  conns l !! i = Some c → conn_ok (f c) →
  counts_established (f c) = counts_established c + de → counts_active (f c) = counts_active c + da →
  pool_ok l → pool_ok (mkDialListener (wrap32 (established l + de)) (wrap32 (active l + da)) (alter f i (conns l))).
Proof.
  intros Hi Hok He Ha [Pe Pa Pc]. split; cbn [established active conns].
  - rewrite Pe, wrap32_add. f_equal. rewrite (sumz_alter _ _ _ _ _ Hi), He. lia.
  - rewrite Pa, wrap32_add. f_equal. rewrite (sumz_alter _ _ _ _ _ Hi), Ha. lia.
  - apply Forall_lookup. intros j x. destruct (decide (j = i)) as [->|Hne].
    + rewrite list_lookup_alter_eq, Hi. by intros [= <-].
    + rewrite list_lookup_alter_ne by done. by apply Forall_lookup_1.
Qed.

Lemma pool_wrapped l : pool_ok l → wrap32 (established l + 0) = established l ∧ wrap32 (active l + 0) = active l.
Proof. intros [-> -> _]. by rewrite !wrap32_add, !Z.add_0_r. Qed.

Ltac contribution := unfold counts_established, counts_active; cbn; lia.

Lemma dstep_ok l l' : dstep l l' → pool_ok l → pool_ok l'.
Proof.
  intros Hs Hl. pose proof (pool_wrapped l Hl) as [We Wa]. pose proof (po_conns _ Hl) as Hc.
  assert (∀ i c, conns l !! i = Some c → conn_ok c) as Hi by (intros i c; by apply Forall_lookup_1).
  destruct Hs as [l|i c l Hlk Hr|i c l Hlk Hr|i c l Hlk He|i c l Hlk He|i c b l Hlk He];
    try (specialize (Hi _ _ Hlk) as [Hflag Hseen]; destruct c as [a r e]; cbn in *; subst).
  - destruct Hl as [Pe Pa Pc]. split; cbn [established active conns add_conn].
    + rewrite fmap_app, sumz_app, Pe, wrap32_add. done.
    + rewrite fmap_app, sumz_app, Pa. cbn. by rewrite Z.add_0_r.
    + apply Forall_app. split; [done|]. constructor; [|done]. split; [done|]. intros b [|]; done.
  - pose proof (pool_alter i (λ c, mkNotify true RFlagged (nt_onceErr c)) 0 0 l _ Hlk) as Hp.
    unfold read_flag, set_notify. rewrite We, Wa in Hp. apply Hp; [|contribution..|done]. split; [done|]. by intros.
  - pose proof (pool_alter i (λ c, mkNotify (nt_active c) RCounted (nt_onceErr c)) 0 1 l _ Hlk) as Hp.
    unfold read_count, set_notify, add_active. rewrite We in Hp. apply Hp; [|contribution..|done].
    split; [|done]. cbn. destruct a; [done|]. by destruct Hflag as [Hf _]; specialize (Hf eq_refl).
  - pose proof (pool_alter i (λ c, mkNotify (nt_active c) (nt_onceRead c) EUncounted) (-1) 0 l _ Hlk) as Hp.
    unfold err_begin, set_notify, add_established. rewrite Wa in Hp. apply Hp; [|contribution..|done].
    split; [done|]. by intros b [|].
  - pose proof (pool_alter i (λ c, mkNotify (nt_active c) (nt_onceRead c) (ELooked (nt_active c))) 0 0 l _ Hlk) as Hp.
    unfold err_look, set_notify. rewrite We, Wa in Hp. apply Hp; [|contribution..|done].
    split; [done|]. cbn. by intros b [[= <-]|[=]].
  - pose proof (pool_alter i (λ c, mkNotify (nt_active c) (nt_onceRead c) (EDone b)) 0 (if b then -1 else 0) l _ Hlk) as Hp.
    rewrite We in Hp. unfold err_end, set_notify, add_active.
    assert (pool_ok (mkDialListener (established l) (wrap32 (active l + (if b then -1 else 0)))
              (alter (λ c, mkNotify (nt_active c) (nt_onceRead c) (EDone b)) i (conns l)))) as Hp'.
    { apply Hp; [|contribution|destruct b; contribution|done].
      split; [done|]. cbn. intros b' [[=]|[= <-]] Hb. apply (Hseen b); [by left|done]. }
    destruct b; [done|]. by rewrite Wa in Hp'.
Qed.

(** ** Quiet moments *)

(** No function of a [sync.Once] is running. *)
Definition settled (c : notifyOnNetErr) : bool :=
  match nt_onceRead c, nt_onceErr c with
  | RNone, (ENone | EDone _) | RCounted, (ENone | EDone _) => true
  | _, _ => false
  end.
Definition is_open (c : notifyOnNetErr) : bool := match nt_onceErr c with ENone => true | _ => false end.
Definition is_used (c : notifyOnNetErr) : bool := match nt_onceRead c with RCounted => true | _ => false end.

(** Ended before its first byte was read. *)
Definition is_late (c : notifyOnNetErr) : bool :=
  match nt_onceErr c, nt_onceRead c with EDone false, RCounted => true | _, _ => false end.
Definition count (p : notifyOnNetErr → bool) (l : DialListener) : Z := sumz ((λ c, Z.b2z (p c)) <$> conns l).

Lemma settled_contributions c : conn_ok c → settled c = true →
  counts_established c = Z.b2z (is_open c) ∧
  counts_active c = Z.b2z (is_open c && is_used c) + Z.b2z (is_late c).
Proof.
  intros [Hf Hs] Hc. destruct c as [a r e]. cbn in *.
  destruct r, e as [| | |[]]; try done; unfold counts_established, counts_active; cbn; try (split; lia).
  specialize (Hs true ltac:(by right) eq_refl). subst. by destruct Hf as [_ Hf]; specialize (Hf eq_refl).
Qed.

Lemma sumz_add {A} (f g : A → Z) l : sumz ((λ x, f x + g x) <$> l) = sumz (f <$> l) + sumz (g <$> l).
Proof. induction l as [|x l IH]; cbn; [done|]. cbn in IH. rewrite IH. lia. Qed.
Lemma sumz_ext {A} (f g : A → Z) l : Forall (λ x, f x = g x) l → sumz (f <$> l) = sumz (g <$> l).
Proof. induction 1 as [|x l Hx _ IH]; cbn; [done|]. cbn in IH. by rewrite Hx, IH. Qed.
Lemma sumz_bool (p : notifyOnNetErr → bool) l :
  0 ≤ sumz ((λ c, Z.b2z (p c)) <$> l) ≤ Z.of_nat (length l).
Proof. induction l as [|x l IH]; cbn; [lia|]. cbn in IH. destruct (p x); cbn; lia. Qed.
Lemma sumz_less (p q : notifyOnNetErr → bool) l :
  sumz ((λ c, Z.b2z (p c)) <$> l) < sumz ((λ c, Z.b2z (q c)) <$> l) → ∃ c, c ∈ l ∧ q c = true ∧ p c = false.
Proof.
  induction l as [|x l IH]; cbn; [lia|]. intros Hlt. destruct (q x) eqn:Hq, (p x) eqn:Hp; cbn in Hlt;
    try (destruct IH as (c & Hc & Hqc); [cbn; lia|]; exists c; split; [by right|done]).
  exists x. split; [by left|done].
Qed.

Lemma pool_reachable l : rtc dstep zero_listener l → pool_ok l.
Proof.
  assert (pool_ok zero_listener) as H0 by (split; [done..|constructor]).
  intros Hr. revert H0. induction Hr as [|a b c Hab _ IH]; [done|]. intros Ha. by eapply IH, dstep_ok.
Qed.

Lemma pool_settled l :
  pool_ok l → Z.of_nat (length (conns l)) < 2 ^ 30 → forallb settled (conns l) = true →
  established l = count is_open l ∧ active l = count (λ c, is_open c && is_used c) l + count is_late l.
Proof.
  intros [Pe Pa Pc] Hlen Hset. rewrite forallb_forall in Hset. unfold count.
  assert (Forall (λ c, counts_established c = Z.b2z (is_open c) ∧
            counts_active c = Z.b2z (is_open c && is_used c) + Z.b2z (is_late c)) (conns l)) as Hall.
  { apply Forall_forall. intros c Hc. apply settled_contributions; [by eapply Forall_forall in Pc|].
    apply Hset. by apply list_elem_of_In. }
  rewrite (sumz_ext _ (λ c, Z.b2z (is_open c))) in Pe by (eapply Forall_impl; [exact Hall|]; by intros c []).
  rewrite (sumz_ext _ (λ c, Z.b2z (is_open c && is_used c) + Z.b2z (is_late c))) in Pa
    by (eapply Forall_impl; [exact Hall|]; by intros c []).
  rewrite sumz_add in Pa.
  pose proof (sumz_bool is_open (conns l)). pose proof (sumz_bool is_late (conns l)).
  pose proof (sumz_bool (λ c, is_open c && is_used c) (conns l)).
  rewrite wrap32_small in Pe by lia. rewrite wrap32_small in Pa by lia. done.
Qed.

(** The methods of the sources are sequences of the steps. *)
Lemma once_err_steps i l : rtc dstep l (exec (once_err i) l).
Proof.
  unfold once_err, exec. rewrite bind_get. destruct (conns l !! i) as [[a r [| | |]]|] eqn:Hi; try apply rtc_refl.
  rewrite !bind_modify, bind_get. set (l1 := err_begin i l). set (l2 := err_look i l1).
  assert (conns l1 !! i = Some (mkNotify a r EUncounted)) as H1 by (cbn; by rewrite list_lookup_alter_eq, Hi).
  assert (conns l2 !! i = Some (mkNotify a r (ELooked a))) as H2 by (cbn [l2 err_look set_notify conns]; by rewrite list_lookup_alter_eq, H1).
  rewrite H2. eapply rtc_l; [by eapply ds_err_begin|]. eapply rtc_l; [by eapply ds_err_look|].
  eapply rtc_l; [by eapply ds_err_end|]. apply rtc_refl.
Qed.
Lemma once_read_steps i l : rtc dstep l (exec (once_read i) l).
Proof.
  unfold once_read, exec. rewrite bind_get. destruct (conns l !! i) as [[a [| |] e]|] eqn:Hi; try apply rtc_refl.
  rewrite bind_modify. set (l1 := read_flag i l).
  assert (conns l1 !! i = Some (mkNotify true RFlagged e)) as H1 by (cbn; by rewrite list_lookup_alter_eq, Hi).
  eapply rtc_l; [by eapply ds_read_flag|]. eapply rtc_l; [by eapply ds_read_count|]. apply rtc_refl.
Qed.

(** One call on the listener or one of its connections. *)
Inductive poolCall :=
| CallAccept (dial : option bool)
| CallRead (i : nat) (n : Z) (err : netErr)
| CallWrite (i : nat) (n : Z) (err : netErr)
| CallClose (i : nat).
Definition pool_call (c : poolCall) : DialListener → DialListener :=
  match c with
  | CallAccept dial => exec (lis_Accept dial)
  | CallRead i n err => exec (conn_Read i n err)
  | CallWrite i n err => exec (conn_Write i n err)
  | CallClose i => exec (notify_Close i)
  end.

Lemma pool_call_steps c l : rtc dstep l (pool_call c l).
Proof.
  assert (∀ {B} (m : GoM DialListener unit) (b : B) l, rtc dstep l (exec m l) → rtc dstep l (exec (m ;; mret b) l)) as Hret.
  { intros B m b l0 Hm. unfold exec, mbind, GoM_bind in *. by destruct (m l0) as [[]]. }
  destruct c as [dial|i n err|i n err|i]; cbn [pool_call].
  - unfold lis_Accept, exec. rewrite bind_get. destruct (has_free l); [apply rtc_refl|].
    destruct dial as [[]|]; try apply rtc_refl. rewrite bind_get, bind_modify. apply rtc_once. constructor.
  - unfold conn_Read. destruct (fatal err); [apply Hret, once_err_steps|].
    case_bool_decide; [apply rtc_refl|apply Hret, once_read_steps].
  - unfold conn_Write. destruct (fatal err); [apply Hret, once_err_steps|apply rtc_refl].
  - apply once_err_steps.
Qed.


(** ** No connection is lost or used twice *)

(** What the channels hold. *)
Definition stored (p : Proxy) : list Conn := omap id (chans p).
Definition pending (s : Cfg) : list Conn := match storing s with Some (c, _, _, _) => [c] | None => [] end.

(** Where the connections are. *)
Definition places (s : Cfg) : list Conn :=
  clients s ++ stored (px s) ++ dialed s ++ px_closed (px s) ++ pending s ++ forgotten s.

(** The newest connection for a channel. *)
Definition is_for (k : nat) (x : Conn * option (string * nat)) : bool := bool_decide (snd <$> x.2 = Some k).
Definition latest (k : nat) (l : list (Conn * option (string * nat))) : option Conn :=
  last (omap (λ x, if is_for k x then Some x.1 else None) l).

(** The channel [k] was made for the agent [agent] of the host [addr]. *)
Definition owned (s : Cfg) (k : nat) (addr agent : string) : Prop := owners s !! k = Some (addr, agent).

Record cfg_ok (s : Cfg) : Prop := {
  ck_places : (accepted s).*1 ++ pending s ≡ₚ places s;
  ck_latest k c : chans (px s) !! k = Some (Some c) → latest k (accepted s) = Some c;
  ck_drained c a k : storing s = Some (c, a, k, true) → chans (px s) !! k = Some None;
  ck_owners : length (owners s) = length (chans (px s));
  ck_storing c a k b : storing s = Some (c, a, k, b) → owned s k (host_of (c_remote c)) a;
  ck_accepted c a k : (c, Some (a, k)) ∈ accepted s → owned s k (host_of (c_remote c)) a;
  ck_dialing addr a k : (addr, a, k) ∈ dialing s → owned s k addr a;
  ck_map addr apc : ch (px s) !! addr = Some apc → owned s (ac_eva apc) addr "EVA" ∧ owned s (ac_ela apc) addr "ELA";
}.

Lemma owned_chan s k addr a : cfg_ok s → owned s k addr a → (k < length (chans (px s)))%nat.
Proof. intros Hok Ho. rewrite <- (ck_owners _ Hok). by eapply lookup_lt_Some. Qed.

(** The channels of a state in which one was written stay owned as they were. *)
Lemma cfg_chans s p' d :
  cfg_ok s → ch p' = ch (px s) → length (chans p') = length (chans (px s)) →
  (∀ x, x ∈ d → x ∈ dialing s) →
  ∀ st acc cl di fo,
  let s' := mkCfg p' st d acc cl di fo (owners s) in
  (acc.*1 ++ pending s' ≡ₚ places s') →
  (∀ k c, chans p' !! k = Some (Some c) → latest k acc = Some c) →
  (∀ c a k, st = Some (c, a, k, true) → chans p' !! k = Some None) →
  (∀ c a k b, st = Some (c, a, k, b) → owned s k (host_of (c_remote c)) a) →
  (∀ c a k, (c, Some (a, k)) ∈ acc → owned s k (host_of (c_remote c)) a) →
  cfg_ok s'.
Proof.
  intros [Hp Hl Hd Ho Hs Ha Hi Hm] Hch Hlen Hdi st acc cl di fo s' H1 H2 H3 H4 H5.
  split; cbn; try done.
  - congruence.
  - intros addr a k Hin. by apply Hi, Hdi.
  - intros addr apc. rewrite Hch. apply Hm.
Qed.

Lemma stored_take (l : list (option Conn)) k c :
  l !! k = Some (Some c) → omap id l ≡ₚ c :: omap id (<[k := None]> l).
Proof.
  intros Hk. rewrite (insert_take_drop l k None) by (by apply lookup_lt_is_Some; eexists).
  rewrite <- (take_drop_middle l k (Some c) Hk) at 1.
  rewrite !omap_app. cbn. by rewrite Permutation_middle.
Qed.
Lemma stored_put (l : list (option Conn)) k c :
  l !! k = Some None → omap id (<[k := Some c]> l) ≡ₚ c :: omap id l.
Proof.
  intros Hk. rewrite (insert_take_drop l k (Some c)) by (by apply lookup_lt_is_Some; eexists).
  rewrite <- (take_drop_middle l k None Hk) at 3.
  rewrite !omap_app. cbn. by rewrite Permutation_middle.
Qed.

Lemma latest_app k l x : latest k (l ++ [x]) = if is_for k x then Some x.1 else latest k l.
Proof.
  unfold latest. rewrite omap_app. cbn. destruct (is_for k x); cbn; [by rewrite last_snoc|]. by rewrite app_nil_r.
Qed.
Lemma latest_elem k l c : latest k l = Some c → ∃ a, (c, Some (a, k)) ∈ l.
Proof.
  intros Hl. apply last_Some in Hl as [l' Hl].
  assert (c ∈ omap (λ x, if is_for k x then Some x.1 else None) l) as Hin by (rewrite Hl; set_solver).
  apply list_elem_of_omap in Hin as ([c' o] & Hin & Hx). unfold is_for in Hx. case_bool_decide as Ho; [|done].
  cbn in *. injection Hx as ->. apply fmap_Some in Ho as ([a k'] & -> & ->). by exists a.
Qed.

Lemma cfg_initial_ok : cfg_ok cfg_initial.
Proof. split; cbn; by intros; try set_solver. Qed.

Lemma register_ok addr s :
  cfg_ok s → cfg_ok (mkCfg (exec (RegisterHost addr) (px s)) (storing s) (dialing s) (accepted s) (clients s) (dialed s)
                       (forgotten s) (owners s ++ [(addr, "EVA"); (addr, "ELA")])).
Proof.
  intros Hok. pose proof Hok as [Hp Hl Hd Ho Hs Ha Hi Hm].
  assert (∀ k x a, owned s k x a → (owners s ++ [(addr, "EVA"); (addr, "ELA")]) !! k = Some (x, a)) as Hmore.
  { intros k x a Hk. apply lookup_app_l_Some, Hk. }
  split; unfold owned in *; cbn; try (by intros; eapply Hmore; eauto).
  - unfold places, stored, pending in *. cbn in *. rewrite omap_app. cbn. rewrite app_nil_r. exact Hp.
  - intros k c [Hin|[_ Hin]]%lookup_app_Some; [by apply Hl|].
    apply list_elem_of_lookup_2 in Hin. set_solver.
  - intros c a k E. rewrite lookup_app_l by (by eapply owned_chan, Hs). by eapply Hd.
  - rewrite !length_app. cbn. lia.
  - intros addr' apc. destruct (decide (addr = addr')) as [->|Hne].
    + rewrite lookup_insert_eq. intros [= <-]. cbn. rewrite <- Ho.
      rewrite !lookup_app_r by lia. by rewrite Nat.sub_diag, Nat.sub_succ_l, Nat.sub_diag.
    + rewrite lookup_insert_ne by done. intros E. destruct (Hm _ _ E). split; by apply Hmore.
Qed.

Lemma drain_ok c a k s :
  cfg_ok s → storing s = Some (c, a, k, false) →
  cfg_ok (mkCfg (exec (store_drain k) (px s)) (Some (c, a, k, true)) (dialing s) (accepted s) (clients s)
            (dialed s) (forgotten s) (owners s)).
Proof.
  intros Hok Es. pose proof Hok as [Hp Hl Hd Ho Hs Ha Hi Hm].
  pose proof (owned_chan _ _ _ _ Hok (Hs _ _ _ _ Es)) as Hlt. unfold exec, store_drain, chan_recv, mbind, GoM_bind.
  unfold places, pending, stored in Hp. rewrite Es in Hp. cbn in Hp.
  destruct (chans (px s) !! k) as [[c0|]|] eqn:E.
  - apply cfg_chans; cbn; try done.
    + by rewrite length_insert.
    + unfold places, stored. cbn. rewrite Hp, (stored_take _ _ _ E). solve_Permutation.
    + intros k' c'. rewrite list_lookup_insert_Some. intros [[_ [[=] _]]|[_ Hc]]. by apply Hl.
    + intros c' a' k' [= _ _ <-]. by apply list_lookup_insert_eq.
    + intros c' a' k' b [= <- <- <- _]. by eapply Hs.
  - apply cfg_chans; cbn; try done.
    + by intros c' a' k' [= _ _ <-].
    + intros c' a' k' b [= <- <- <- _]. by eapply Hs.
  - apply lookup_ge_None in E. lia.
Qed.

Lemma send_ok c a k s :
  cfg_ok s → storing s = Some (c, a, k, true) →
  cfg_ok (mkCfg (exec (store_send k c) (px s)) None (dialing s) (accepted s ++ [(c, Some (a, k))]) (clients s)
            (dialed s) (forgotten s) (owners s)).
Proof.
  intros Hok Es. pose proof Hok as [Hp Hl Hd Ho Hs Ha Hi Hm].
  pose proof (owned_chan _ _ _ _ Hok (Hs _ _ _ _ Es)) as Hlt. pose proof (Hd _ _ _ Es) as E.
  unfold exec, store_send, chan_send, mbind, GoM_bind. rewrite E.
  unfold places, pending, stored in Hp. rewrite Es in Hp. apply cfg_chans; cbn; try done.
  - by rewrite length_insert.
  - rewrite fmap_app. unfold places, pending, stored. cbn in *. rewrite app_nil_r, Hp, (stored_put _ _ _ E). solve_Permutation.
  - intros k' c'. rewrite list_lookup_insert_Some, latest_app. unfold is_for. cbn.
    intros [(<- & [= <-] & _)|[Hne Hc]]; [by rewrite bool_decide_eq_true_2|].
    rewrite bool_decide_eq_false_2 by congruence. by apply Hl.
  - intros c' a' k' [Hin|[= -> -> ->]%list_elem_of_singleton]%elem_of_app; [by eapply Ha|by eapply Hs].
Qed.

Lemma recv_ok i addr a k c p' s :
  cfg_ok s → dialing s !! i = Some (addr, a, k) → dialCommon k false (px s) = (Ret (inl c), p') →
  cfg_ok (mkCfg p' (storing s) (delete i (dialing s)) (accepted s) (clients s) (dialed s ++ [c])
            (forgotten s) (owners s)).
Proof.
  intros Hok Hdi. pose proof Hok as [Hp Hl Hd Ho Hs Ha Hi Hm]. unfold dialCommon, chan_recv, mbind, GoM_bind.
  destruct (chans (px s) !! k) as [[c0|]|] eqn:E; [|done..]. intros [= <- <-]. apply cfg_chans; cbn; try done.
  - by rewrite length_insert.
  - intros x Hx. rewrite list_elem_of_lookup in *. destruct Hx as [j Hx].
    destruct (decide (j < i)%nat); [rewrite list_lookup_delete_lt in Hx by done|rewrite list_lookup_delete_ge in Hx by lia]; eauto.
  - unfold places, stored, pending in *. cbn in *. rewrite Hp, (stored_take _ _ _ E). solve_Permutation.
  - intros k' c'. rewrite list_lookup_insert_Some. intros [[_ [[=] _]]|[_ Hc]]. by apply Hl.
  - intros c' a' k' Es. destruct (decide (k = k')) as [<-|Hne]; [by rewrite (Hd _ _ _ Es) in E|].
    rewrite list_lookup_insert_ne by done. by eapply Hd.
Qed.

Lemma store_chan_same c agent r p p' : store_chan c agent p = (Ret r, p') → p' = p ∧
  (∀ k, r = Some k → ∃ apc, ch p !! host_of (c_remote c) = Some apc ∧ agent_chan agent apc = Some k).
Proof.
  intros [= <- <-]. split; [done|]. intros k. destruct (ch p !! _) as [apc|]; [|done]. intros E. by exists apc.
Qed.

Lemma agent_chan_owned s agent addr apc k :
  cfg_ok s → ch (px s) !! addr = Some apc → agent_chan agent apc = Some k → owned s k addr agent.
Proof.
  intros Hok Happ Hk. destruct (ck_map _ Hok _ _ Happ). unfold agent_chan in Hk.
  repeat case_bool_decide; by simplify_eq.
Qed.
Lemma dials_chan agent sel apc : dials agent sel → agent_chan agent apc = Some (sel apc).
Proof. by intros [[-> ->]|[-> ->]]. Qed.
Lemma dial_lookup_inv sel addr k p p' :
  dial_lookup sel addr p = (Ret (inl k), p') → p' = p ∧ ∃ apc, ch p !! addr = Some apc ∧ k = sel apc.
Proof.
  unfold dial_lookup. rewrite bind_get. intros [= E <-]. destruct (ch p !! addr) as [apc|]; [|done].
  injection E as <-. split; [done|]. by exists apc.
Qed.

Lemma pstep_ok s s' : pstep s s' → cfg_ok s → cfg_ok s'.
Proof.
  intros Hs Hok. destruct Hs as [addr s|c packet rc p' s Es E|c agent p' s Es Ha E|c agent k p' s Es Ha E|c a k s Es
    |c a k s Es|agent sel addr k p' s Hsel E|i addr agent k c p' s Hi E|i addr agent k e p' s Hi E].
  - by apply register_ok.
  - unfold Accept in E. do 2 (case_bool_decide; [by destruct (storeConn c packet (px s)) as [[]] eqn:E0;
      unfold mbind, GoM_bind in E; rewrite E0 in E|]).
    injection E as <- <-. pose proof Hok as [Hp Hl _ _ _ Hacc _ _].
    apply cfg_chans; cbn; try done; [|by intros; rewrite latest_app; apply Hl|set_solver].
    rewrite fmap_app. unfold places, pending in *. rewrite Es in Hp. cbn in *. rewrite !app_nil_r in *.
    rewrite Hp. solve_Permutation.
  - apply store_chan_same in E as [-> _]. pose proof Hok as [Hp Hl _ _ _ Hacc _ _].
    apply cfg_chans; cbn; try done; [|by intros; rewrite latest_app; apply Hl|set_solver].
    rewrite fmap_app. unfold places, pending in *. rewrite Es in Hp. cbn in *. rewrite !app_nil_r in *.
    rewrite Hp. solve_Permutation.
  - apply store_chan_same in E as [-> Hch]. destruct (Hch k eq_refl) as (apc & Happ & Hag).
    pose proof Hok as [Hp Hl _ _ _ Hacc _ _]. apply cfg_chans; cbn; try done.
    + unfold places, pending in *. rewrite Es in Hp. cbn in *. rewrite !app_nil_r in *. rewrite Hp. solve_Permutation.
    + intros c' a' k' b [= <- <- <- _]. by eapply agent_chan_owned.
  - by apply drain_ok.
  - by apply send_ok.
  - apply dial_lookup_inv in E as (-> & apc & Happ & ->). pose proof Hok as [Hp Hl Hd Ho Hs Hacc Hi Hm].
    split; cbn; try done. intros addr' a' k' [Hin|[= -> -> ->]%list_elem_of_singleton]%elem_of_app; [by apply Hi|].
    apply (agent_chan_owned s agent addr apc); [done..|by apply dials_chan].
  - by eapply recv_ok.
  - injection E as _ <-. pose proof Hok as [Hp Hl Hd Ho Hs Hacc Hdi Hm]. apply cfg_chans; try done.
    intros x Hx. rewrite list_elem_of_lookup in *. destruct Hx as [j Hx].
    destruct (decide (j < i)%nat); [rewrite list_lookup_delete_lt in Hx by done|rewrite list_lookup_delete_ge in Hx by lia]; eauto.
Qed.

(** [storeConn] and a dial without interruption are sequences of the steps. *)
Lemma storeConn_steps c agent s :
  storing s = None → agent ∈ ["EVA"; "ELA"] →
  ∃ s', rtc pstep s s' ∧ storing s' = None ∧ px s' = exec (storeConn c agent) (px s).
Proof.
  intros Es Ha. unfold exec, storeConn. destruct (store_chan c agent (px s)) as [r p'] eqn:E.
  assert (∃ o, r = Ret o) as [o ->] by (unfold store_chan in E; injection E as <- _; by eexists).
  rewrite (bind_ret _ _ _ _ _ E). destruct (store_chan_same _ _ _ _ _ E) as [-> _]. destruct o as [k|].
  - eexists. split; [|split].
    + eapply rtc_l; [by eapply st_begin|]. eapply rtc_l; [by eapply (st_drain c agent k)|].
      eapply rtc_l; [by eapply (st_send c agent k)|]. apply rtc_refl.
    + done.
    + cbn [px]. unfold exec. unfold store_drain at 2, mbind, GoM_bind, store_drain, chan_recv, mbind, GoM_bind.
      by destruct (chans (px s) !! k) as [[]|].
  - eexists. split; [|split]; [eapply rtc_l; [by eapply st_forget|apply rtc_refl]|done..].
Qed.

Lemma reach_ok s : rtc pstep cfg_initial s → cfg_ok s.
Proof.
  generalize cfg_initial_ok. generalize cfg_initial. intros s0 H0 Hr. revert H0.
  induction Hr as [|a b c Hab _ IH]; [done|]. intros Ha. by eapply IH, pstep_ok.
Qed.

(** What is received from a channel. *)
Lemma received s k addr agent c p' :
  cfg_ok s → NoDup (places s) → owned s k addr agent → dialCommon k false (px s) = (Ret (inl c), p') →
  host_of (c_remote c) = addr ∧ (c, Some (agent, k)) ∈ accepted s ∧ latest k (accepted s) = Some c ∧
  c ∉ dialed s ∧ c ∉ px_closed (px s).
Proof.
  intros Hok Hnd Ho E.
  assert (chans (px s) !! k = Some (Some c)) as Hc.
  { unfold dialCommon, chan_recv, mbind, GoM_bind in E.
    destruct (chans (px s) !! k) as [[c0|]|]; [|done..]. by injection E as <- _. }
  pose proof (ck_latest _ Hok _ _ Hc) as Hl. destruct (latest_elem _ _ _ Hl) as [a Ha].
  pose proof (ck_accepted _ Hok _ _ _ Ha) as Ho'. unfold owned in *. rewrite Ho in Ho'. injection Ho' as -> ->.
  split; [done|]. split; [done|]. split; [done|].
  assert (c ∈ stored (px s)) as Hst.
  { apply list_elem_of_omap. exists (Some c). split; [by eapply list_elem_of_lookup_2|done]. }
  unfold places in Hnd. apply NoDup_app in Hnd as (_ & _ & Hnd). apply NoDup_app in Hnd as (_ & Hdis & _).
  specialize (Hdis c Hst). set_solver.
Qed.

(** C21: However accepting, registering and dialling interleave, the reading of
    the map and the wait on the channel being two steps of a dialer, every
    connection that the controller accepted is in exactly one place: with the
    server, in the channel of its agent, given to one dialer, closed, being
    stored, or dropped because its host was not registered.  A dialer that
    receives gets a connection of the host and of the agent that it dials, the
    newest one that was stored in the channel it holds, given to nobody else and
    not closed.  The channel it holds is the one of the map unless the host was
    registered again since it looked, so that a dial without interruption gets
    the newest connection since the host was registered.  A connection that is
    being stored always finds its place; and what the server reads from the
    connection of a client is all that the client sent. *)
Theorem proxy_conns_accounted s :
  rtc pstep cfg_initial s → NoDup ((accepted s).*1 ++ pending s) →
  (accepted s).*1 ++ pending s ≡ₚ places s ∧ NoDup (places s) ∧
  (∀ i addr agent k c p', dialing s !! i = Some (addr, agent, k) → dialCommon k false (px s) = (Ret (inl c), p') →
     host_of (c_remote c) = addr ∧ (c, Some (agent, k)) ∈ accepted s ∧ latest k (accepted s) = Some c ∧
     c ∉ dialed s ∧ c ∉ px_closed (px s)) ∧
  (∀ agent sel addr c p', dials agent sel → dial_agent sel addr false (px s) = (Ret (inl c), p') →
     ∃ apc, ch (px s) !! addr = Some apc ∧ host_of (c_remote c) = addr ∧ (c, Some (agent, sel apc)) ∈ accepted s ∧
       latest (sel apc) (accepted s) = Some c ∧ c ∉ dialed s ∧ c ∉ px_closed (px s)) ∧
  (∀ c a k, storing s = Some (c, a, k, true) → chans (exec (store_send k c) (px s)) !! k = Some (Some c)) ∧
  (∀ c packet rc p', Accept (inl (c, packet)) (px s) = (Ret (inl rc), p') →
     rc_Conn rc = c ∧ ∀ rest, stream rc rest = packet +:+ rest).
Proof.
  intros Hok%reach_ok Hnd. pose proof Hok as [Hp Hl Hd Ho Hs Ha Hi Hm]. rewrite Hp in Hnd.
  split_and!; [done..| | | |].
  - intros i addr agent k c p' Hdi. apply received; [done..|]. by eapply Hi, list_elem_of_lookup_2.
  - intros agent sel addr c p' Hsel E. unfold dial_agent, dial_lookup in E. rewrite bind_assoc, bind_get in E.
    destruct (ch (px s) !! addr) as [apc|] eqn:Ea; [|done]. exists apc. split; [done|].
    eapply received; [done..| |exact E]. eapply agent_chan_owned; [done..|by apply dials_chan].
  - intros c a k Es. unfold exec, store_send, chan_send, mbind, GoM_bind. rewrite (Hd _ _ _ Es). cbn.
    apply list_lookup_insert_eq. by eapply owned_chan, Hs.
  - intros c packet rc p'. unfold Accept.
    do 2 (case_bool_decide; [unfold mbind, GoM_bind; by destruct (storeConn c packet (px s)) as [[]]|]).
    by intros [= <- _].
Qed.

(** ** Runs *)

Definition agent_conn (n : Z) : Conn := mkConn n "10.0.0.7:4000".

(** The state after a connection was stored in a channel. *)
Definition after_store (c : Conn) (agent : string) (k : nat) (s : Cfg) : Cfg :=
  mkCfg (exec (store_send k c) (exec (store_drain k) (px s))) None (dialing s) (accepted s ++ [(c, Some (agent, k))])
    (clients s) (dialed s) (forgotten s) (owners s).
Lemma after_store_steps c agent k s :
  storing s = None → agent ∈ ["EVA"; "ELA"] → (store_chan c agent (px s)).1 = Ret (Some k) →
  rtc pstep s (after_store c agent k s).
Proof.
  intros Es Ha E. destruct (store_chan c agent (px s)) as [r p'] eqn:E'. cbn in E. subst r.
  destruct (store_chan_same _ _ _ _ _ E') as [-> _].
  eapply rtc_l; [by eapply (st_begin c agent k)|]. eapply rtc_l; [by eapply (st_drain c agent k)|].
  eapply rtc_l; [by eapply (st_send c agent k)|]. apply rtc_refl.
Qed.

(** An agent connects twice; somebody has looked its channel up; the host is
    registered again, and the agent connects a third time. *)
Definition registered (s : Cfg) : Cfg :=
  mkCfg (exec (RegisterHost "10.0.0.7") (px s)) (storing s) (dialing s) (accepted s) (clients s) (dialed s)
    (forgotten s) (owners s ++ [("10.0.0.7", "EVA"); ("10.0.0.7", "ELA")]).
Definition twice : Cfg :=
  after_store (agent_conn 2) "EVA" 0 (after_store (agent_conn 1) "EVA" 0 (registered cfg_initial)).
Definition looked_up : Cfg :=
  mkCfg (px twice) (storing twice) (dialing twice ++ [("10.0.0.7", "EVA", 0%nat)]) (accepted twice) (clients twice)
    (dialed twice) (forgotten twice) (owners twice).
Definition renewed : Cfg := after_store (agent_conn 3) "EVA" 2 (registered looked_up).

Lemma renewed_reached : rtc pstep cfg_initial renewed.
Proof.
  eapply rtc_l; [apply (st_register "10.0.0.7")|].
  etrans; [apply (after_store_steps (agent_conn 1) "EVA" 0); [done|set_solver|vm_compute; reflexivity]|].
  etrans; [apply (after_store_steps (agent_conn 2) "EVA" 0); [done|set_solver|vm_compute; reflexivity]|].
  eapply rtc_l; [apply (st_dial "EVA" ac_eva "10.0.0.7" 0); [by left|vm_compute; reflexivity]|].
  eapply rtc_l; [apply (st_register "10.0.0.7")|].
  apply (after_store_steps (agent_conn 3) "EVA" 2); [done|set_solver|vm_compute; reflexivity].
Qed.

(** Who dials now gets the third connection, who had looked before the second. *)
Lemma proxy_conns_accounted_witness :
  px_closed (px renewed) = [agent_conn 1] ∧
  latest 0 (accepted renewed) = Some (agent_conn 2) ∧
  ∃ apc, ch (px renewed) !! "10.0.0.7" = Some apc ∧ latest (ac_eva apc) (accepted renewed) = Some (agent_conn 3).
Proof.
  split; [vm_compute; reflexivity|].
  destruct (proxy_conns_accounted renewed renewed_reached) as (_ & _ & Hold & Hdial & _).
  - vm_compute. repeat constructor; set_solver.
  - split; [exact (proj1 (proj2 (proj2 (Hold 0%nat _ _ _ (agent_conn 2) _ eq_refl ltac:(vm_compute; reflexivity)))))|].
    destruct (Hdial "EVA" ac_eva "10.0.0.7" (agent_conn 3) _ (or_introl (conj eq_refl eq_refl)) ltac:(vm_compute; reflexivity))
      as (apc & Ha & _ & _ & Hl & _).
    exists apc. split; [exact Ha|exact Hl].
Defined.

(** Two connections, of which one is in use. *)
Definition demo_calls : list poolCall :=
  [CallAccept (Some true); CallRead 0 5 NoErr; CallAccept (Some true); CallAccept (Some true)].

(** A connection that is read after a write to it has failed stays counted as
    used for ever. *)
Example late_read_counted :
  let l := foldl (λ l c, pool_call c l) zero_listener
             [CallAccept (Some true); CallWrite 0 0 OtherErr; CallRead 0 5 NoErr; CallRead 0 0 OtherErr] in
  established l = 0 ∧ active l = 1.
Proof. vm_compute. done. Qed.
