(* ===== verification/Certs.v ===== *)
(** * Keys, certificates and enrolment (edgenode/pkg/auth, edgecontroller/pki, edgenode/pkg/eaa)

    Files with their permissions on a disk whose every call may fail, the keys
    and certificates kept in them, the enrolment of a node with the controller,
    the certificate authority of the controller and that of the EAA.  Keys,
    X.509 and PEM are the class [X509], what is documented of them [X509Laws];
    random numbers and the clock are its state. *)

From S2P Require Import Prelude Strconv Http Json GoPath CceModel CcePersist CceNode CceCtl CceServer.
From stdpp Require Import prelude strings list gmap.
From Stdlib Require Import ZArith.

Local Open Scope Z_scope.

(** ** Libraries *)

(** [pem.Block]; headers are not used. *)
Record block := mkBlock { b_Type : string; b_Bytes : string }.

Inductive KeyUsage := UsageNone | UsageDigitalSignature | UsageCertSign.
Inductive ExtKeyUsage := UsageAny | UsageServerAuth | UsageClientAuth.

(** The fields of [x509.Certificate] that a template sets. *)
Record Template := mkTemplate {
  t_SerialNumber : Z;
  t_Organization : list string;
  t_CommonName : string;
  t_NotBefore : Z;
  t_NotAfter : Z;
  t_IsCA : bool;
  t_KeyUsage : KeyUsage;
  t_ExtKeyUsage : list ExtKeyUsage;
}.

(** [Signer] is the public key of a key that is a [crypto.Signer];
    [x_Serial] is the number drawn from a source seeded with the time. *)
Class X509 := {
  RND : Type;
  PrivateKey : Type;
  PublicKey : Type;
  Certificate : Type;
  CSR : Type;
  pem_EncodeToMemory : block → string;
  pem_Next : string → option (block * string);
  x_Now : RND → Z;
  x_Serial : RND → Z;
  GenerateKey : RND → (PrivateKey + string) * RND;
  MarshalPKCS8 : PrivateKey → string + string;
  ParsePKCS8 : string → PrivateKey + string;
  Signer : PrivateKey → option PublicKey;
  MarshalPKIX : PublicKey → string + string;
  x_ParseCertificate : string → Certificate + string;
  x_ParseCertificates : string → list Certificate + string;
  Raw : Certificate → string;
  SPKI : Certificate → string;
  Subject_CN : Certificate → string;
  Cert_NotBefore : Certificate → Z;
  Cert_NotAfter : Certificate → Z;
  Cert_IsCA : Certificate → bool;
  CheckSignatureFrom : Certificate → Certificate → error;
  CreateCertificateRequest : PrivateKey → RND → (string + string) * RND;
  x_ParseCertificateRequest : string → CSR + string;
  CSR_CheckSignature : CSR → error;
  CSR_SPKI : CSR → string;
  CSR_PublicKey : CSR → PublicKey;
  CSR_CN : CSR → string;
  CreateCertificate : Template → Certificate + Template → PublicKey → PrivateKey → RND →
    (string + string) * RND;
}.

(** ** Files *)

(** A directory or a file, with its permissions. *)
Inductive pnode :=
| PDir (perm : Z)
| PFile (perm : Z) (data : string).

(** A failing call, and the bytes a failing write leaves. *)
Record pfault := mkPfault { pf_msg : string; pf_data : string }.

(** The disk, the faults of its next calls, the random numbers and the other
    end of the network. *)
Record Host `{X509} (R : Type) := mkHost {
  h_tree : gmap path pnode;
  h_faults : list (option pfault);
  h_rnd : RND;
  h_remote : R;
}.
Arguments mkHost {_ R} _ _ _ _.
Arguments h_tree {_ R} _.
Arguments h_faults {_ R} _.
Arguments h_rnd {_ R} _.
Arguments h_remote {_ R} _.

Definition node_perm (n : pnode) : Z := match n with PDir p | PFile p _ => p end.
Definition dirPerm : Z := 448. (* 0700 *)
Definition filePerm : Z := 384. (* 0600 *)
Definition create_perm : Z := 420. (* 0644 *)

Section disk.
Context `{X509} {R : Type}.
Abbreviation M := (GoM (Host R)).
Abbreviation tree := (gmap path pnode).

Definition disk {A} (op : tree → (A + string) * tree) (broken : pfault → tree → tree)
    : M (A + string) := λ h,
  match h_faults h with
  | Some f :: fs => (Ret (inr (pf_msg f)), mkHost (broken f (h_tree h)) fs (h_rnd h) (h_remote h))
  | fs => let '(r, T) := op (h_tree h) in (Ret r, mkHost T (tail fs) (h_rnd h) (h_remote h))
  end.

(** [os.Open], and [Stat] and [ReadAll] of a file. *)
Definition p_Stat (p : path) : M (pnode + string) :=
  disk (λ T, (match T !! p with Some n => inl n | None => inr "no such file or directory" end, T)) (λ _ T, T).
Definition p_ReadAll (p : path) : M (string + string) :=
  disk (λ T, (match T !! p with
              | Some (PFile _ data) => inl data
              | Some (PDir _) => inr "is a directory"
              | None => inr "no such file or directory"
              end, T)) (λ _ T, T).

(** [os.MkdirAll]: the missing directories on the way. *)
Fixpoint make_dirs (perm : Z) (done todo : path) (T : tree) : option tree :=
  match todo with
  | [] => Some T
  | e :: todo' =>
      let p := done ++ [e] in
      if bool_decide (p = [""]) then make_dirs perm p todo' T
      else match T !! p with
           | Some (PDir _) => make_dirs perm p todo' T
           | Some (PFile _ _) => None
           | None => make_dirs perm p todo' (<[p := PDir perm]> T)
           end
  end.
Definition p_MkdirAll (p : path) (perm : Z) : M (unit + string) :=
  disk (λ T, match make_dirs perm [] p T with
             | Some T' => (inl tt, T')
             | None => (inr "not a directory", T)
             end) (λ _ T, T).

Definition set_perm (perm : Z) (n : pnode) : pnode :=
  match n with PDir _ => PDir perm | PFile _ data => PFile perm data end.
Definition p_Chmod (p : path) (perm : Z) : M (unit + string) :=
  disk (λ T, match T !! p with
             | Some n => (inl tt, <[p := set_perm perm n]> T)
             | None => (inr "no such file or directory", T)
             end) (λ _ T, T).

Definition dir_there (T : tree) (p : path) : bool :=
  match p with
  | [] | [""] => true
  | _ => match T !! p with Some (PDir _) => true | _ => false end
  end.

(** [os.Create] keeps the permissions of a file that is there. *)
Definition p_Create (p : path) : M (unit + string) :=
  disk (λ T, match T !! p with
             | Some (PDir _) => (inr "is a directory", T)
             | Some (PFile perm _) => (inl tt, <[p := PFile perm ""]> T)
             | None => if dir_there T (parent p) then (inl tt, <[p := PFile create_perm ""]> T)
                       else (inr "no such file or directory", T)
             end) (λ _ T, T).

(** A write at the end of the file. *)
Definition append_data (p : path) (data : string) (T : tree) : tree :=
  alter (λ n, match n with PFile perm d => PFile perm (d +:+ data) | PDir perm => PDir perm end) p T.
Definition p_Write (p : path) (data : string) : M (unit + string) :=
  disk (λ T, (inl tt, append_data p data T)) (λ f T, append_data p (pf_data f) T).
Definition p_Close : M (unit + string) := disk (λ T, (inl tt, T)) (λ _ T, T).
Definition p_Remove (p : path) : M (unit + string) :=
  disk (λ T, match T !! p with
             | Some (PFile _ _) => (inl tt, delete p T)
             | Some (PDir _) => (inr "is a directory", T)
             | None => (inr "no such file or directory", T)
             end) (λ _ T, T).

(** A step with random numbers. *)
Definition random {A} (f : RND → A * RND) : M A := λ h,
  let '(a, w) := f (h_rnd h) in (Ret a, mkHost (h_tree h) (h_faults h) w (h_remote h)).
Definition now : M Z := λ h, (Ret (x_Now (h_rnd h)), h).

(** Goes on with the value, or returns the error with a message in front. *)
Definition try_msg {A B} (msg : string) (m : M (A + string)) (k : A → M (B + string)) : M (B + string) :=
  r ← m; match r with inl a => k a | inr e => mret (inr (msg +:+ e)) end.
End disk.

(** ** Keys and certificates in files (auth/pki.go) *)

Section files.
Context `{X509} {R : Type}.
Abbreviation M := (GoM (Host R)).

Definition maxFileSizeToRead : Z := 1024 * 1024.

Definition readFileWithPerm (p : path) (perm : Z) : M (string + string) :=
  try_msg "Failed to open: " (p_Stat p) (λ _,
  try_msg "Failed to get file info: " (p_Stat p) (λ stat,
  if bool_decide (node_perm stat ≠ perm) then mret (inr "Invalid file permissions")
  else
    try_msg "Failed to stat a file: " (p_Stat p) (λ fInfo,
    if bool_decide (maxFileSizeToRead <
         match fInfo with PFile _ data => str_len data | PDir _ => 4096 end)
    then mret (inr "File seems to be to long")
    else p_ReadAll p))).

Definition LoadKey (p : path) : M (PrivateKey + string) :=
  try_msg "" (readFileWithPerm p filePerm) (λ data,
  match pem_Next data with
  | None => mret (inr "Failed to decode key")
  | Some (b, _) =>
      if bool_decide (b_Type b ≠ "PRIVATE KEY") then mret (inr "is not a key")
      else mret (ParsePKCS8 (b_Bytes b))
  end).

Definition SaveKey (key : PrivateKey) (p : path) : M (unit + string) :=
  match MarshalPKCS8 key with
  | inr e => mret (inr ("Failed to marshal key: " +:+ e))
  | inl der =>
      let data := pem_EncodeToMemory (mkBlock "PRIVATE KEY" der) in
      try_msg "Failed to open: " (p_Create p) (λ _,
      r ← p_Chmod p filePerm;
      match r with
      | inr e => p_Close ;; mret (inr ("Failed to set file permissions: " +:+ e))
      | inl _ =>
          r ← p_Write p data;
          match r with
          | inr e => p_Close ;; mret (inr ("Failed to write key to file: " +:+ e))
          | inl _ => p_Close
          end
      end)
  end.

(** The loop over the blocks of a file, one round for each byte at most. *)
Fixpoint decode_blocks (fuel : nat) (data : string) (certs : list Certificate)
    : list Certificate + string :=
  if str_empty data then inl certs
  else match fuel with
       | O => inl certs
       | S fuel' =>
           match pem_Next data with
           | None => inr "Failed to decode PEM block"
           | Some (b, data') =>
               if bool_decide (b_Type b ≠ "CERTIFICATE") then decode_blocks fuel' data' certs
               else match x_ParseCertificate (b_Bytes b) with
                    | inr e => inr ("Failed to parse certificate: " +:+ e)
                    | inl cert => decode_blocks fuel' data' (certs ++ [cert])
                    end
           end
       end.

Definition LoadCerts (p : path) : M (list Certificate + string) :=
  try_msg "" (readFileWithPerm p filePerm) (λ data,
  mret (match decode_blocks (String.length data) data [] with
        | inl [] => inr "Failed to load any certificates"
        | r => r
        end)).

Definition LoadCert (p : path) : M (Certificate + string) :=
  try_msg "" (LoadCerts p) (λ certs,
  match certs with
  | [] => go_panic "index out of range"
  | c :: _ => mret (inl c)
  end).

Definition cert_block (c : Certificate) : block := mkBlock "CERTIFICATE" (Raw c).

Definition SaveCert (p : path) (certs : list Certificate) : M (unit + string) :=
  try_msg "Failed to open: " (p_Create p) (λ _,
  r ← p_Chmod p filePerm;
  match r with
  | inr e => p_Close ;; mret (inr ("Failed to set file permissions: " +:+ e))
  | inl _ =>
      r ← for_acc certs (λ c (_ : unit),
            r ← p_Write p (pem_EncodeToMemory (cert_block c));
            match r with
            | inr e => p_Close ;; mret (inr ("Failed to encode certificate to file: " +:+ e))
            | inl _ => mret (inl tt)
            end) tt;
      match r with
      | inr e => mret (inr e)
      | inl _ => p_Close
      end
  end).
End files.

(** ** Enrolment (auth/enroll.go) *)

Definition KeyName : string := "key.pem".
Definition CertName : string := "cert.pem".
Definition CAChainName : string := "cacerts.pem".
Definition CAPoolName : string := "root.pem".
Definition EnrollServerName : string := "enroll.controller.openness".

(** [CredentialsClient]: asks the endpoint for credentials. *)
Class CredentialsClient (R : Type) := cc_Get : string → R → (NodeCredentials + string) * R.

Section enroll.
Context `{X509}.

Record credentials := mkCreds {
  cr_key : PrivateKey;
  cr_cert : Certificate;
  cr_caChain : list Certificate;
  cr_caPoolCerts : list Certificate;
}.

(** [Certificate.Equal]. *)
Definition cert_Equal (a b : Certificate) : bool := bool_decide (Raw a = Raw b).

Definition verify (c : credentials) : error :=
  match cr_caChain c, last (cr_caChain c), cr_caPoolCerts c with
  | ca :: _, Some root, _ :: _ =>
      match Signer (cr_key c) with
      | None => errors_New "Key is not of (crypto.Signer) type"
      | Some pub =>
          match MarshalPKIX pub with
          | inr e => errors_New ("Failed to marshall key: " +:+ e)
          | inl keyDER =>
              if bool_decide (SPKI (cr_cert c) ≠ keyDER)
              then errors_New "Certificate is not signed with key"
              else match CheckSignatureFrom (cr_cert c) ca with
                   | Some e => errors_New ("Certificate is not signed by CA: " +:+ e)
                   | None => if existsb (λ cert, cert_Equal cert root) (cr_caPoolCerts c)
                             then nil_err else errors_New "CA Pool does not contain CA"
                   end
          end
      end
  | _, _, _ => errors_New "Empty fields found, credentials not loaded?"
  end.

Fixpoint decode_cert_blocks (certs : list string) (acc : string) : string + string :=
  match certs with
  | [] => inl acc
  | cert :: certs' =>
      match pem_Next cert with
      | None => inr "Failed to decode certificates"
      | Some (b, _) =>
          if bool_decide (b_Type b ≠ "CERTIFICATE") then inr "Invalid block type"
          else decode_cert_blocks certs' (acc +:+ b_Bytes b)
      end
  end.
Definition decodeCerts (certs : list string) : list Certificate + string :=
  match decode_cert_blocks certs "" with
  | inr e => inr e
  | inl decodedCerts => x_ParseCertificates decodedCerts
  end.

(** The credentials without their key. *)
Definition decodeCredentials (c : NodeCredentials) (key : PrivateKey) : credentials + string :=
  match pem_Next (nc_Certificate c) with
  | None => inr "Failed to decode certificate"
  | Some (b, _) =>
      match x_ParseCertificate (b_Bytes b) with
      | inr e => inr ("Failed to parse certificate: " +:+ e)
      | inl cert =>
          match decodeCerts (nc_CaChain c) with
          | inr e => inr ("Failed to parse CA certificates: " +:+ e)
          | inl chain =>
              match decodeCerts (nc_CaPool c) with
              | inr e => inr ("Failed to parse CA pool certificates: " +:+ e)
              | inl pool => inl (mkCreds key cert chain pool)
              end
          end
      end
  end.

Context {R : Type} `{CredentialsClient R}.
Abbreviation M := (GoM (Host R)).

Definition loadCredentials (certsDir : path) : M (credentials + string) :=
  try_msg "Failed to get file info: " (p_Stat certsDir) (λ stat,
  if bool_decide (node_perm stat ≠ dirPerm) then mret (inr "Invalid file permissions")
  else
    try_msg "Failed to load key: " (LoadKey (path_Join certsDir KeyName)) (λ key,
    try_msg "Failed to load certificate: " (LoadCert (path_Join certsDir CertName)) (λ cert,
    try_msg "Failed to load CA chain: " (LoadCerts (path_Join certsDir CAChainName)) (λ chain,
    try_msg "Failed to load CA pool: " (LoadCerts (path_Join certsDir CAPoolName)) (λ pool,
    let c := mkCreds key cert chain pool in
    match verify c with
    | Some e => mret (inr ("credentials verification failed: " +:+ e))
    | None => mret (inl c)
    end))))).

(** The directory, with its permissions also if it was there. *)
Definition make_certs_dir {A} (certsDir : path) (k : M (A + string)) : M (A + string) :=
  try_msg "Failed create directory: " (p_MkdirAll certsDir dirPerm) (λ _,
  try_msg "Failed to set permissions on directory: " (p_Chmod certsDir dirPerm) (λ _, k)).

Definition save (certsDir : path) (c : credentials) : M (unit + string) :=
  match verify c with
  | Some e => mret (inr e)
  | None =>
      make_certs_dir certsDir
        (try_msg "Failed to save key: " (SaveKey (cr_key c) (path_Join certsDir KeyName)) (λ _,
         try_msg "Failed to save certificate: " (SaveCert (path_Join certsDir CertName) [cr_cert c]) (λ _,
         try_msg "Failed to save CA chain: " (SaveCert (path_Join certsDir CAChainName) (cr_caChain c)) (λ _,
         try_msg "Failed to save CA Pool chain: "
           (SaveCert (path_Join certsDir CAPoolName) (cr_caPoolCerts c)) (λ _,
         mret (inl tt))))))
  end.

Definition remote {A} (f : R → A * R) : M A := λ h,
  let '(a, r) := f (h_remote h) in (Ret a, mkHost (h_tree h) (h_faults h) (h_rnd h) r).

Definition requestCredentials (key : PrivateKey) : M (credentials + string) :=
  try_msg "Failed to create CSR: " (random (CreateCertificateRequest key)) (λ csrDER,
  let csrPEM := pem_EncodeToMemory (mkBlock "CERTIFICATE REQUEST" csrDER) in
  try_msg "" (remote (cc_Get csrPEM)) (λ creds,
  match decodeCredentials creds key with
  | inr e => mret (inr e)
  | inl c => match verify c with
             | Some e => mret (inr e)
             | None => mret (inl c)
             end
  end)).

(** The key of the directory, or a new one that is stored there. *)
Definition enroll_key (certsDir : path) : M (PrivateKey + string) :=
  r ← LoadKey (path_Join certsDir KeyName);
  match r with
  | inl key => mret (inl key)
  | inr _ =>
      try_msg "Failed to generate key: " (random GenerateKey) (λ key,
      make_certs_dir certsDir
        (try_msg "Failed to save key: " (SaveKey key (path_Join certsDir KeyName)) (λ _, mret (inl key))))
  end.

Definition Enroll (certsDir : path) : M (unit + string) :=
  r ← loadCredentials certsDir;
  match r with
  | inl _ => mret (inl tt)
  | inr _ =>
      try_msg "" (enroll_key certsDir) (λ key,
      try_msg "" (requestCredentials key) (λ c, save certsDir c))
  end.
End enroll.

(** ** The authority of the controller (pki/ca.go, key.go, certificate.go) *)

Section ca.
Context `{X509} {R : Type}.
Abbreviation M := (GoM (Host R)).

Record RootCA := mkRootCA { ca_Cert : Certificate; ca_Key : PrivateKey }.

Definition StoreKey (key : PrivateKey) (p : path) : M (unit + string) :=
  match MarshalPKCS8 key with
  | inr e => mret (inr ("unable to marshal EC private key to DER: " +:+ e))
  | inl der =>
      try_msg "unable to create private key file: " (p_Create p) (λ _,
      try_msg "unable to set private key file permissions: " (p_Chmod p filePerm) (λ _,
      try_msg "unable to store private key: "
        (p_Write p (pem_EncodeToMemory (mkBlock "PRIVATE KEY" der))) (λ _, mret (inl tt))))
  end.

Definition pki_LoadKey (p : path) : M (PrivateKey + string) :=
  try_msg "unable to read key file: " (p_ReadAll p) (λ data,
  mret (match pem_Next data with
        | None => inr "unable to decode key"
        | Some (b, _) => ParsePKCS8 (b_Bytes b)
        end)).

Definition StoreCertificate (p : path) (certs : list Certificate) : M (unit + string) :=
  match certs with
  | [] => mret (inl tt)
  | _ =>
      try_msg "unable to create file: " (p_Create p) (λ _,
      r ← for_acc certs (λ c (_ : unit),
            r ← p_Write p (pem_EncodeToMemory (cert_block c));
            mret (match r with
                  | inr e => inr ("unable to store certificate: " +:+ e)
                  | inl _ => inl tt
                  end)) tt;
      match r with
      | inr e => mret (inr e)
      | inl _ => try_msg "unable to set certificate file permissions: " (p_Chmod p filePerm) (λ _, mret (inl tt))
      end)
  end.

Definition LoadCertificate (p : path) : M (Certificate + string) :=
  try_msg "unable to read certificate file: " (p_ReadAll p) (λ data,
  mret (match pem_Next data with
        | None => inr "unable to decode certificate"
        | Some (b, _) => x_ParseCertificate (b_Bytes b)
        end)).

Definition second : Z := 1.
Definition three_years : Z := 3 * 365 * 24 * 3600.

Definition root_template (org : string) (serial t : Z) : Template :=
  mkTemplate serial [org] "" (t - 15 * second) (t + three_years) true UsageCertSign [UsageAny].

(** A key that is no signer yields neither a certificate nor an error. *)
Definition self_signed (org : string) (key : PrivateKey) : M (option Certificate + string) :=
  match Signer key with
  | None => mret (inl None)
  | Some pub =>
      serial ← random (λ w, (x_Serial w, w));
      t ← now;
      let template := root_template org serial t in
      try_msg "unable to create CA certificate: "
        (random (CreateCertificate template (inr template) pub key)) (λ der,
      mret (match x_ParseCertificate der with inl c => inl (Some c) | inr e => inr e end))
  end.

Definition generateRootCA : PrivateKey → M (option Certificate + string) := self_signed "Controller Authority".

(** The certificate of the file, or a new one for the key. *)
Definition ca_certificate (certFile : path) (key : PrivateKey) : M (Certificate + string) :=
  r ← LoadCertificate certFile;
  match r with
  | inl cert => mret (inl cert)
  | inr _ =>
      try_msg "unable to generate root CA: " (generateRootCA key) (λ c,
      match c with
      | None => p_Create certFile ;; go_panic "invalid memory address or nil pointer dereference"
      | Some cert =>
          try_msg "unable to store CA certificate: " (StoreCertificate certFile [cert]) (λ _, mret (inl cert))
      end)
  end.

Definition ca_key (keyFile : path) : M (PrivateKey + string) :=
  r ← pki_LoadKey keyFile;
  match r with
  | inl key => mret (inl key)
  | inr _ =>
      try_msg "unable to generate CA key: " (random GenerateKey) (λ key,
      try_msg "unable to store CA key: " (StoreKey key keyFile) (λ _, mret (inl key)))
  end.

(** One call of [InitRootCA], [again] being the next. *)
Definition InitRootCA_round (again : M (option (RootCA + string))) (certsDir : path)
    : M (option (RootCA + string)) :=
  r ← p_MkdirAll certsDir dirPerm;
  match r with
  | inr e => mret (Some (inr ("unable to create CA directory: " +:+ e)))
  | inl _ =>
      r ← ca_key (path_Join certsDir "key.pem");
      match r with
      | inr e => mret (Some (inr e))
      | inl key =>
          r ← ca_certificate (path_Join certsDir "cert.pem") key;
          match r with
          | inr e => mret (Some (inr e))
          | inl cert =>
              match Signer key with
              | None => go_panic "interface conversion: not a crypto.Signer"
              | Some pub =>
                  match MarshalPKIX pub with
                  | inr e => mret (Some (inr ("unable to marshal public key: " +:+ e)))
                  | inl certDER =>
                      if bool_decide (SPKI cert ≠ certDER) then
                        r ← p_Remove (path_Join certsDir "cert.pem");
                        match r with
                        | inr e => mret (Some (inr ("unable to remove invalid cert: " +:+ e)))
                        | inl _ => again
                        end
                      else mret (Some (inl (mkRootCA cert key)))
                  end
              end
          end
      end
  end.

(** [fuel] calls at most; [None] is running out of it. *)
Fixpoint InitRootCA (fuel : nat) (certsDir : path) : M (option (RootCA + string)) :=
  match fuel with
  | O => mret None
  | S fuel' => InitRootCA_round (InitRootCA fuel' certsDir) certsDir
  end.

Definition ca_CAChain (ca : RootCA) : list Certificate + string := inl [ca_Cert ca].

(** A certificate for the key of a request, until the authority expires. *)
Definition ca_SignCSR (ca : RootCA) (der commonName : string) : RND → (Certificate + string) * RND := λ w,
  match x_ParseCertificateRequest der with
  | inr e => (inr ("unable to parse CSR: " +:+ e), w)
  | inl csr =>
      let tmpl := mkTemplate (x_Serial w) [] commonName (x_Now w) (Cert_NotAfter (ca_Cert ca)) false UsageNone [] in
      let '(r, w') := CreateCertificate tmpl (inl (ca_Cert ca)) (CSR_PublicKey csr) (ca_Key ca) w in
      (match r with
       | inr e => inr ("unable to sign certificate: " +:+ e)
       | inl certDER => x_ParseCertificate certDER
       end, w')
  end.

Definition newTLSCert (ca : RootCA) (key : PrivateKey) (sni : string) (usage : list ExtKeyUsage)
    : RND → (Certificate + string) * RND := λ w,
  match Signer key with
  | None => (inr "invalid private key type", w)
  | Some pub =>
      let tmpl := mkTemplate (x_Serial w) [] sni (x_Now w) (Cert_NotAfter (ca_Cert ca)) false
                    UsageDigitalSignature usage in
      let '(r, w') := CreateCertificate tmpl (inl (ca_Cert ca)) pub (ca_Key ca) w in
      (match r with
       | inr e => inr ("unable to sign certificate: " +:+ e)
       | inl certDER => x_ParseCertificate certDER
       end, w')
  end.
Definition NewTLSClientCert (ca : RootCA) (key : PrivateKey) (sni : string) :=
  newTLSCert ca key sni [UsageClientAuth].
Definition NewTLSServerCert (ca : RootCA) (key : PrivateKey) (sni : string) :=
  newTLSCert ca key sni [UsageServerAuth].

(** The server of feature discovery (nfd-master.go) makes its certificate with
    the authority in the files of the controller. *)
Record ServerNFD := mkServerNFD {
  nfd_Endpoint : Z;
  nfd_CaCertPath : string;
  nfd_CaKeyPath : string;
  nfd_Sni : string;
  nfd_Dsn : string;
}.

(** Its certificate and key, and the certificates that clients must present
    one of. *)
Record ServerTLS := mkServerTLS { tls_Certificate : Certificate; tls_PrivateKey : PrivateKey; tls_ClientCAs : list Certificate }.

Definition createCredentialsTLS (s : ServerNFD) : M (ServerTLS + string) :=
  try_msg "Failed to load CA certificate: " (LoadCertificate (Clean (nfd_CaCertPath s))) (λ caCert,
  try_msg "Failed to load CA key: " (pki_LoadKey (Clean (nfd_CaKeyPath s))) (λ caKey,
  try_msg "Failed to generate server key: " (random GenerateKey) (λ nfdKey,
  try_msg "Failed to generate server certificate: "
    (random (NewTLSServerCert (mkRootCA caCert caKey) nfdKey (nfd_Sni s))) (λ nfdCert,
  mret (inl (mkServerTLS nfdCert nfdKey [caCert])))))).

(** The authority as the controller uses it; [w] is what its random numbers
    and clock are at the call, [digest] the SHA-384 hash in base64. *)
Definition ca_pki (ca : RootCA) (digest : string → string) (w : RND) : Pki := {|
  Cert := Certificate;
  CertReq := CSR * string;
  pem_Decode s := b_Bytes ∘ fst <$> pem_Next s;
  pem_Encode c := pem_EncodeToMemory (cert_block c);
  ParseCertificate := x_ParseCertificate;
  MarshalPKIXPublicKey c := inl (SPKI c);
  ParseCertificateRequest der :=
    match x_ParseCertificateRequest der with inl r => inl (r, der) | inr e => inr e end;
  CheckSignature r := CSR_CheckSignature r.1;
  RawSubjectPublicKeyInfo r := CSR_SPKI r.1;
  key_digest := digest;
  SignCSR r cn := (ca_SignCSR ca r.2 cn w).1;
  CAChain := ca_CAChain ca;
|}.
End ca.

(** ** The authority of the EAA (eaa/pki_initialiser.go, api_auth.go) *)

Record CertsInfo := mkCertsInfo {
  CaRootKeyPath : string;
  CaRootPath : string;
  ServerCertPath : string;
  ServerKeyPath : string;
  ci_CommonName : string;
}.

(** The lookup of EVA: connecting, and the application of an address. *)
Class EvaLookup (R : Type) := {
  lookup_Dial : string → R → error * R;
  GetApplicationByIP : string → R → (string + string) * R;
}.

Section eaa.
Context `{X509} {R : Type}.
Abbreviation M := (GoM (Host R)).

Record CertKeyPair := mkCertKeyPair { x509Cert : Certificate; prvKey : PrivateKey }.

(** [filepath.Dir] is never empty. *)
Definition createDir {A} (filePath : path) (k : M (A + string)) : M (A + string) :=
  try_msg "Unable to create directory: " (p_MkdirAll (parent filePath) dirPerm) (λ _,
  try_msg "Failed to set permissions on directory: " (p_Chmod (parent filePath) dirPerm) (λ _, k)).

Definition validateCert (cert : Certificate) : M error :=
  t ← now;
  if bool_decide (t < Cert_NotBefore cert) then mret (errors_New "Cartificate expired, valid from")
  else
    t ← now;
    if bool_decide (Cert_NotAfter cert < t) then mret (errors_New "Cartificate expired, valid to")
    else mret nil_err.

Definition validateRCACert (cert : Certificate) : M error :=
  if Cert_IsCA cert then validateCert cert else mret (errors_New "loaded cert is not CA").

(** The key of a file, or a new one. *)
Definition load_or_make_key (keyPath : path) : M (PrivateKey + string) :=
  r ← LoadKey keyPath;
  match r with
  | inl key => mret (inl key)
  | inr _ =>
      try_msg "Unable to generate key: " (random GenerateKey) (λ key,
      createDir keyPath
        (try_msg "Unable to store key: " (SaveKey key keyPath) (λ _, mret (inl key))))
  end.

(** The certificate of a file once it is validated, or a new one. *)
Definition load_or_make_cert (certPath : path) (validate : Certificate → M error)
    (make : M (option Certificate + string)) : M (Certificate + string) :=
  r ← LoadCert certPath;
  match r with
  | inl cert =>
      err ← validate cert;
      match err with
      | Some e => mret (inr ("cert validation failed: " +:+ e))
      | None => mret (inl cert)
      end
  | inr _ =>
      try_msg "unable to generate: " make (λ c,
      createDir certPath
        (match c with
         | None => p_Create certPath ;; p_Chmod certPath filePerm ;;
                   go_panic "invalid memory address or nil pointer dereference"
         | Some cert => try_msg "unable to store certificate: " (SaveCert certPath [cert]) (λ _, mret (inl cert))
         end))
  end.

Definition eaa_generateRootCA : PrivateKey → M (option Certificate + string) :=
  self_signed "Appliance Root CA Authority".

(** A certificate of another key yields neither a pair nor an error, because
    the wrapped error is nil. *)
Definition eaa_InitRootCA (certInfo : CertsInfo) : M (option CertKeyPair + string) :=
  try_msg "" (load_or_make_key (Clean (CaRootKeyPath certInfo))) (λ key,
  try_msg "" (load_or_make_cert (Clean (CaRootPath certInfo)) validateRCACert
                (eaa_generateRootCA key)) (λ cert,
  match Signer key with
  | None => go_panic "interface conversion: not a crypto.Signer"
  | Some pub =>
      match MarshalPKIX pub with
      | inr e => mret (inr ("unable to marshal public key: " +:+ e))
      | inl certDER =>
          if bool_decide (SPKI cert ≠ certDER) then mret (inl None)
          else mret (inl (Some (mkCertKeyPair cert key)))
      end
  end)).

Definition generateEAACert (rcaCert : Certificate) (eaaPrivateKey rootCaKey : PrivateKey)
    (commonName : string) : M (option Certificate + string) :=
  t1 ← now; t2 ← now;
  let cert := mkTemplate 1658 ["Appliance Authority"] commonName (t1 - 15 * second) (t2 + three_years)
                false UsageDigitalSignature [UsageServerAuth] in
  match Signer eaaPrivateKey with
  | None => go_panic "interface conversion: not a crypto.Signer"
  | Some pub =>
      try_msg "Unable to create EAA cert data: "
        (random (CreateCertificate cert (inl rcaCert) pub rootCaKey)) (λ der,
      mret (match x_ParseCertificate der with inl c => inl (Some c) | inr e => inr e end))
  end.

Definition InitEaaCert (certInfo : CertsInfo) : M (CertKeyPair + string) :=
  try_msg "Unable to load Root CA Cert: " (LoadCert (Clean (CaRootPath certInfo))) (λ rootCaCert,
  try_msg "Unable to load Root CA Private Key: " (LoadKey (Clean (CaRootKeyPath certInfo))) (λ rootCaKey,
  try_msg "" (load_or_make_key (Clean (ServerKeyPath certInfo))) (λ eaaKey,
  try_msg "" (load_or_make_cert (Clean (ServerCertPath certInfo)) validateCert
                (generateEAACert rootCaCert eaaKey rootCaKey (ci_CommonName certInfo))) (λ cert,
  mret (inl (mkCertKeyPair cert eaaKey)))))).

(** Signs a request with the authority, which is nil when [InitRootCA] was
    without an error and without a pair. *)
Definition eaa_SignCSR (csrPEM : string) (rca : option CertKeyPair) : M (Certificate + string) :=
  match pem_Next csrPEM with
  | None => mret (inr "csr block cannot be decoded")
  | Some (b, _) =>
      if bool_decide (b_Type b ≠ "CERTIFICATE REQUEST")
      then mret (inr ("csr block is not type of CERTIFICATE REQUEST but: " +:+ b_Type b))
      else
        match x_ParseCertificateRequest (b_Bytes b) with
        | inr e => mret (inr ("unable to parse CSR: " +:+ e))
        | inl csr =>
            match rca with
            | None => go_panic "invalid memory address or nil pointer dereference"
            | Some ca =>
                serial ← random (λ w, (x_Serial w, w));
                t ← now;
                let template := mkTemplate serial [] (CSR_CN csr) t (Cert_NotAfter (x509Cert ca))
                                  false UsageNone [] in
                try_msg "Unable to sign certificate from csr: "
                  (random (CreateCertificate template (inl (x509Cert ca)) (CSR_PublicKey csr) (prvKey ca)))
                  (λ certDER, mret (x_ParseCertificate certDER))
            end
        end
  end.

Record AuthCredentials := mkAuthCredentials {
  ac_ID : string;
  ac_Certificate : string;
  ac_CaChain : list string;
  ac_CaPool : list string;
}.

Context `{EvaLookup R}.

Definition validateAppIP (ipAddress validationEndpoint : string) : M (bool + string) :=
  err ← remote (lookup_Dial validationEndpoint);
  match err with
  | Some e => mret (inr ("Failed to create a connection: " +:+ e))
  | None =>
      try_msg "Cannot get App ID from EVA: " (remote (GetApplicationByIP ipAddress)) (λ appID,
      mret (inl (negb (str_empty appID))))
  end.

Abbreviation writer := (ResponseWriter AuthCredentials).

(** [SignCSR] and the answer. *)
Definition send_credentials (rca : option CertKeyPair) (csr : string) (w : writer) : M writer :=
  r ← eaa_SignCSR csr rca;
  match r, rca with
  | inl cert, Some ca =>
      let rcaBlock := pem_EncodeToMemory (cert_block (x509Cert ca)) in
      mret (Write (mkAuthCredentials (Subject_CN cert) (pem_EncodeToMemory (cert_block cert))
                     [rcaBlock] [rcaBlock]) w)
  | inl _, None => go_panic "invalid memory address or nil pointer dereference"
  | inr _, _ => mret (WriteHeader StatusInternalServerError w)
  end.

(** [identity] is the request in the body, if it decodes; [RemoteAddr] is the
    address the request came from. *)
Definition eaa_RequestCredentials (rca : option CertKeyPair) (ValidationEndpoint : string)
    (identity : option string) (RemoteAddr : string) (w : writer) : M writer :=
  let w := Header_Set content_type json_utf8 w in
  match identity with
  | None => mret (WriteHeader StatusInternalServerError w)
  | Some csr =>
      match SplitHostPort RemoteAddr with
      | None => mret (WriteHeader StatusInternalServerError w)
      | Some (host, _) =>
          if str_empty ValidationEndpoint then send_credentials rca csr w
          else
            r ← validateAppIP host ValidationEndpoint;
            match r with
            | inr _ => mret (WriteHeader StatusInternalServerError w)
            | inl false => mret (WriteHeader StatusUnauthorized w)
            | inl true => send_credentials rca csr w
            end
      end
  end.
End eaa.

(** ** What is relied on *)

(** Whether a certificate may sign others. *)
Class X509Laws `{X509} := {
  may_sign : Certificate → bool;
  pem_next_encoded b rest : pem_Next (pem_EncodeToMemory b +:+ rest) = Some (b, rest);
  pem_next_shorter s b rest : pem_Next s = Some (b, rest) → (String.length rest < String.length s)%nat;
  generated_signer w key w' : GenerateKey w = (inl key, w') → ∃ pub, Signer key = Some pub;
  pkcs8_back key der : MarshalPKCS8 key = inl der → ParsePKCS8 der = inl key;
  cert_raw_back c : x_ParseCertificate (Raw c) = inl c;
  certs_raw_back l : l ≠ [] → x_ParseCertificates (String.concat "" (Raw <$> l)) = inl l;
  csr_created key w der w' : CreateCertificateRequest key w = (inl der, w') →
    ∃ r pub spki, x_ParseCertificateRequest der = inl r ∧ CSR_CheckSignature r = None ∧
      Signer key = Some pub ∧ MarshalPKIX pub = inl spki ∧ CSR_SPKI r = spki ∧ CSR_PublicKey r = pub;
  cert_created t parent pub key w der w' : CreateCertificate t parent pub key w = (inl der, w') →
    ∃ c, x_ParseCertificate der = inl c ∧ Raw c = der ∧ MarshalPKIX pub = inl (SPKI c) ∧
      Subject_CN c = t_CommonName t ∧ Cert_NotBefore c = t_NotBefore t ∧ Cert_NotAfter c = t_NotAfter t ∧
      Cert_IsCA c = t_IsCA t ∧
      (t_IsCA t = true → t_KeyUsage t = UsageCertSign → may_sign c = true) ∧
      ∀ p kpub, parent = inl p → may_sign p = true → Signer key = Some kpub →
        MarshalPKIX kpub = inl (SPKI p) → CheckSignatureFrom c p = None;
}.
