(* ===== verification/CertsProps.v ===== *)
(** * Properties of keys, certificates and enrolment

    What is stored is loaded again, enrolment succeeds only with verified
    credentials on the disk, whatever fails on the way, the authority of the
    controller is made in at most two rounds and stays the same, and a node that
    the controller answers is enrolled. *)

From S2P Require Import Prelude Strconv Http Json GoNet GoPath CceModel CcePersist CcePersistFacts CceNode CceCtl CceServer Certs.
From stdpp Require Import prelude strings list gmap.
From Stdlib Require Import ZArith Ascii.

Local Open Scope Z_scope.

(** ** Calls of the disk *)

Section disk.
Context `{XL : X509Laws} {R : Type}.
Abbreviation M := (GoM (Host R)).
Implicit Types (h : Host R) (p : path) (T : gmap path pnode).

(** A host like [h] with another tree and no faults. *)
Definition calm h T : Host R := mkHost T [] (h_rnd h) (h_remote h).

(** A computation that only reads: it changes nothing but the faults, and what
    it yields without an error it yields on every calm host with that tree. *)
Definition reader {A} (m : M (A + string)) : Prop := ∀ h,
  (∃ r fs, m h = (r, mkHost (h_tree h) fs (h_rnd h) (h_remote h)) ∧ (h_faults h = [] → fs = [])) ∧
  ∀ a h0, (m h).1 = Ret (inl a) → h_tree h0 = h_tree h → h_faults h0 = [] → m h0 = (Ret (inl a), h0).

Lemma calm_eta h0 : h_faults h0 = [] → mkHost (h_tree h0) [] (h_rnd h0) (h_remote h0) = h0.
Proof. destruct h0 as [T f w r]. cbn. by intros ->. Qed.

Lemma reader_ret {A} (r : A + string) : reader (mret r).
Proof.
  intros h. split.
  - exists (Ret r), (h_faults h). by destruct h.
  - intros a h0 [= ->] _ _. done.
Qed.

Lemma reader_disk {A} (op : gmap path pnode → A + string) : reader (disk (λ T, (op T, T)) (λ _ T, T)).
Proof.
  intros h. unfold disk. split.
  - destruct (h_faults h) as [|[f|] fs]; do 2 eexists; (split; [reflexivity|done]).
  - intros a h0 E Et Ef. rewrite Ef. cbn. rewrite Et.
    destruct (h_faults h) as [|[f|] fs]; [|done|]; cbn in E; injection E as ->; by rewrite <- Et, calm_eta.
Qed.

Lemma reader_try {A B} msg (m : M (A + string)) (k : A → M (B + string)) :
  reader m → (∀ a, reader (k a)) → reader (try_msg msg m k).
Proof.
  intros Hm Hk h. destruct (Hm h) as [(r & fs & E & Hfs) Hok]. unfold try_msg.
  destruct r as [[a|e]|e].
  - rewrite (bind_ret _ _ _ _ _ E). set (h1 := mkHost _ _ _ _). destruct (Hk a h1) as [(r' & fs' & E' & Hfs') Hok1].
    split; [exists r', fs'; split; [done|by intros Hf; apply Hfs', Hfs]|].
    intros b h0 Eb Et Ef. rewrite E in Hok. rewrite (bind_ret _ _ _ _ _ (Hok a h0 eq_refl Et Ef)).
    by apply Hok1.
  - rewrite (bind_ret _ _ _ _ _ E). split; [do 2 eexists; by split|]. by intros b h0 [=].
  - rewrite (bind_panic _ _ _ _ _ E). split; [do 2 eexists; by split|]. by intros b h0 [=].
Qed.

Lemma reader_panic {A} e : reader (A := A) (go_panic e).
Proof. intros h. split; [exists (Panic e), (h_faults h); by destruct h|]. by intros a h0 [=]. Qed.
End disk.

Create HintDb reader.
#[export] Hint Resolve reader_ret reader_disk reader_try reader_panic : reader.

Section load.
Context `{XL : X509Laws} {R : Type}.
Implicit Types (h : Host R) (p : path) (T : gmap path pnode).

Lemma readFileWithPerm_reader p perm : reader (R := R) (readFileWithPerm p perm).
Proof.
  unfold readFileWithPerm, p_Stat, p_ReadAll. apply reader_try; [auto with reader|]. intros _.
  apply reader_try; [auto with reader|]. intros n. case_bool_decide; [auto with reader|].
  apply reader_try; [auto with reader|]. intros n'. case_bool_decide; auto with reader.
Qed.

Lemma LoadKey_reader p : reader (R := R) (LoadKey p).
Proof.
  apply reader_try; [apply readFileWithPerm_reader|]. intros data.
  destruct (pem_Next data) as [[b rest]|]; [case_bool_decide|]; auto with reader.
Qed.

Lemma LoadCerts_reader p : reader (R := R) (LoadCerts p).
Proof. apply reader_try; [apply readFileWithPerm_reader|]. auto with reader. Qed.

Lemma LoadCert_reader p : reader (R := R) (LoadCert p).
Proof. apply reader_try; [apply LoadCerts_reader|]. intros [|c l]; auto with reader. Qed.

Lemma loadCredentials_reader dir : reader (R := R) (loadCredentials dir).
Proof.
  apply reader_try; [unfold p_Stat; auto with reader|]. intros n. case_bool_decide; [auto with reader|].
  apply reader_try; [apply LoadKey_reader|]. intros key.
  apply reader_try; [apply LoadCert_reader|]. intros cert.
  apply reader_try; [apply LoadCerts_reader|]. intros chain.
  apply reader_try; [apply LoadCerts_reader|]. intros pool.
  cbv zeta. destruct (verify _); auto with reader.
Qed.
End load.

(** ** What successful calls have done *)

Section store.
Context `{XL : X509Laws} {R : Type}.
Implicit Types (h : Host R) (p : path) (T : gmap path pnode).

(** Only the tree and the faults differ. *)
Definition frame h h' : Prop :=
  h_rnd h' = h_rnd h ∧ h_remote h' = h_remote h ∧ (h_faults h = [] → h_faults h' = []).

#[local] Instance frame_refl : Reflexive frame.
Proof. done. Qed.
#[local] Instance frame_trans : Transitive frame.
Proof. unfold frame. intros h1 h2 h3 (? & ? & ?) (? & ? & ?). split_and!; [congruence..|auto]. Qed.

Lemma disk_inl {A} (op : _ → (A + string) * _) broken h a h' :
  disk op broken h = (Ret (inl a), h') → op (h_tree h) = (inl a, h_tree h') ∧ frame h h'.
Proof.
  unfold disk, frame. destruct (h_faults h) as [|[f|] fs] eqn:Ef; [|done|];
    destruct (op (h_tree h)) as [r T]; by intros [= -> <-].
Qed.

Lemma try_inl {S A B} msg (m : GoM S (A + string)) (k : A → GoM S (B + string)) s b s' :
  (r ← m; match r with inl a => k a | inr e => mret (inr (msg +:+ e)) end) s = (Ret (inl b), s') →
  ∃ a s1, m s = (Ret (inl a), s1) ∧ k a s1 = (Ret (inl b), s').
Proof.
  unfold mbind, GoM_bind. destruct (m s) as [[[a|e]|e] s1]; [|done..]. intros E. by exists a, s1.
Qed.

Lemma p_Create_inl p h u h' :
  p_Create p h = (Ret (inl u), h') →
  (∃ perm, h_tree h' = <[p := PFile perm ""]> (h_tree h)) ∧ frame h h'.
Proof.
  intros [E Hf]%disk_inl. split; [|done].
  destruct (h_tree h !! p) as [[perm|perm data]|]; [done| |destruct (dir_there _ _); [|done]];
    injection E as _ <-; by eexists.
Qed.

Lemma p_Chmod_inl p perm h u h' :
  p_Chmod p perm h = (Ret (inl u), h') →
  (∃ n, h_tree h !! p = Some n ∧ h_tree h' = <[p := set_perm perm n]> (h_tree h)) ∧ frame h h'.
Proof.
  intros [E Hf]%disk_inl. split; [|done].
  destruct (h_tree h !! p) as [n|]; [|done]. injection E as _ <-. by exists n.
Qed.

Lemma p_Write_inl p data h u h' :
  p_Write p data h = (Ret (inl u), h') → h_tree h' = append_data p data (h_tree h) ∧ frame h h'.
Proof. intros [E Hf]%disk_inl. by injection E as _ <-. Qed.

Lemma p_Close_inl h u h' :
  p_Close h = (Ret (inl u), h') → h_tree h' = h_tree h ∧ frame h h'.
Proof. intros [E Hf]%disk_inl. by injection E as _ <-. Qed.

Lemma close_err {A} (e : string) h (u : A) h' : (p_Close ;; mret (inr e)) h ≠ (Ret (inl u), h').
Proof. unfold mbind, GoM_bind. by destruct (p_Close h) as [[]]. Qed.

Lemma append_inserted p perm data data' T :
  append_data p data' (<[p := PFile perm data]> T) = <[p := PFile perm (data +:+ data')]> T.
Proof. unfold append_data. rewrite alter_insert_eq. done. Qed.

(** A file that was created, given its permissions and written. *)
Lemma SaveKey_inl key p h u h' :
  SaveKey key p h = (Ret (inl u), h') →
  ∃ der, MarshalPKCS8 key = inl der ∧
    h_tree h' = <[p := PFile filePerm (pem_EncodeToMemory (mkBlock "PRIVATE KEY" der))]> (h_tree h) ∧
    frame h h'.
Proof.
  unfold SaveKey. destruct (MarshalPKCS8 key) as [der|e]; [|done].
  intros (u1 & h1 & [[perm E1] F1]%p_Create_inl & E)%try_inl. exists der. split; [done|].
  unfold mbind at 1, GoM_bind at 1 in E.
  destruct (p_Chmod p filePerm h1) as [[[u2|e]|] h2] eqn:E2; [|by apply close_err in E|done].
  apply p_Chmod_inl in E2 as [(n & Hn & E2) F2].
  unfold mbind, GoM_bind in E.
  destruct (p_Write _ _ h2) as [[[u3|e]|] h3] eqn:E3; [|by apply close_err in E|done].
  apply p_Write_inl in E3 as [E3 F3]. apply p_Close_inl in E as [E4 F4].
  split; [|by do 3 (etrans; [eassumption|])].
  rewrite E1, lookup_insert_eq in Hn. injection Hn as <-. cbn [set_perm] in E2.
  by rewrite E4, E3, E2, E1, insert_insert_eq, append_inserted.
Qed.

Definition certs_data (certs : list Certificate) : string :=
  String.concat "" ((λ c, pem_EncodeToMemory (cert_block c)) <$> certs).

Lemma concat_cons (x : string) (l : list string) : String.concat "" (x :: l) = x +:+ String.concat "" l.
Proof. destruct l; cbn; [by rewrite str_app_nil_r|done]. Qed.

(** The loop that writes certificates. *)
Lemma write_certs_inl p perm (broken : string → GoM (Host R) (unit + string)) certs data h u h' T :
  (∀ e hh, match broken e hh with (Ret (inl _), _) => False | _ => True end) →
  h_tree h = <[p := PFile perm data]> T →
  for_acc certs (λ c (_ : unit),
    r ← p_Write p (pem_EncodeToMemory (cert_block c));
    match r with inr e => broken e | inl _ => mret (inl tt) end) tt h = (Ret (inl u), h') →
  h_tree h' = <[p := PFile perm (data +:+ certs_data certs)]> T ∧ frame h h'.
Proof.
  intros Hb. revert data h. induction certs as [|c certs IH]; intros data h Ht; cbn [for_acc].
  { intros [= <- <-]. by rewrite Ht, str_app_nil_r. }
  unfold mbind, GoM_bind. destruct (p_Write _ _ h) as [[[u1|e]|] h1] eqn:E1; [| |done].
  - apply p_Write_inl in E1 as [E1 F1]. intros E.
    destruct (IH (data +:+ pem_EncodeToMemory (cert_block c)) h1) as [Ht' F']; [|done|].
    { by rewrite E1, Ht, append_inserted. }
    split; [|by etrans]. rewrite Ht'. unfold certs_data. rewrite fmap_cons, concat_cons, str_app_assoc. done.
  - specialize (Hb e h1). by destruct (broken e h1) as [[[]|] h2].
Qed.

Lemma SaveCert_inl p certs h u h' :
  SaveCert p certs h = (Ret (inl u), h') →
  h_tree h' = <[p := PFile filePerm (certs_data certs)]> (h_tree h) ∧ frame h h'.
Proof.
  unfold SaveCert. intros (u1 & h1 & [[perm E1] F1]%p_Create_inl & E)%try_inl.
  unfold mbind at 1, GoM_bind at 1 in E.
  destruct (p_Chmod p filePerm h1) as [[[u2|e]|] h2] eqn:E2; [|by apply close_err in E|done].
  apply p_Chmod_inl in E2 as [(n & Hn & E2) F2].
  rewrite E1, lookup_insert_eq in Hn. injection Hn as <-.
  rewrite E1, insert_insert_eq in E2. cbn [set_perm] in E2.
  unfold mbind at 1, GoM_bind at 1 in E.
  destruct (for_acc _ _ _ h2) as [[[u3|e]|] h3] eqn:E3; [|done..].
  eapply write_certs_inl in E3 as [E3 F3]; [|by intros e hh; unfold mbind, GoM_bind; destruct (p_Close hh) as [[]]|exact E2].
  apply p_Close_inl in E as [E4 F4]. rewrite E4. split; [done|]. by do 3 (etrans; [eassumption|]).
Qed.
End store.

(** ** What is stored is loaded *)

Section stored.
Context `{XL : X509Laws} {R : Type}.
Implicit Types (h : Host R) (p dir : path) (T : gmap path pnode).

Lemma calm_disk {A} (op : _ → (A + string) * _) broken h :
  h_faults h = [] → disk op broken h = (Ret (op (h_tree h)).1, calm h (op (h_tree h)).2).
Proof. unfold disk, calm. intros ->. by destruct (op (h_tree h)). Qed.

Lemma calm_same h : h_faults h = [] → calm h (h_tree h) = h.
Proof. apply calm_eta. Qed.

Lemma p_Stat_calm p h n : h_faults h = [] → h_tree h !! p = Some n → p_Stat p h = (Ret (inl n), h).
Proof. intros Hc Hn. unfold p_Stat. rewrite calm_disk by done. cbn. by rewrite Hn, calm_same. Qed.

Lemma read_calm p perm data h :
  h_faults h = [] → h_tree h !! p = Some (PFile perm data) → str_len data ≤ maxFileSizeToRead →
  readFileWithPerm p perm h = (Ret (inl data), h).
Proof.
  intros Hc Hn Hs. unfold readFileWithPerm, try_msg.
  do 2 rewrite (bind_ret _ _ _ _ _ (p_Stat_calm _ _ _ Hc Hn)). cbn [node_perm].
  rewrite bool_decide_eq_false_2 by auto.
  rewrite (bind_ret _ _ _ _ _ (p_Stat_calm _ _ _ Hc Hn)).
  rewrite bool_decide_eq_false_2 by lia.
  unfold p_ReadAll. rewrite calm_disk by done. cbn. by rewrite Hn, calm_same.
Qed.

Lemma pem_next_one b : pem_Next (pem_EncodeToMemory b) = Some (b, "").
Proof. rewrite <- (str_app_nil_r (pem_EncodeToMemory b)). apply pem_next_encoded. Qed.

Lemma LoadKey_calm p key der h :
  h_faults h = [] → MarshalPKCS8 key = inl der →
  h_tree h !! p = Some (PFile filePerm (pem_EncodeToMemory (mkBlock "PRIVATE KEY" der))) →
  str_len (pem_EncodeToMemory (mkBlock "PRIVATE KEY" der)) ≤ maxFileSizeToRead →
  LoadKey p h = (Ret (inl key), h).
Proof.
  intros Hc Hm Hn Hs. unfold LoadKey, try_msg. rewrite (bind_ret _ _ _ _ _ (read_calm _ _ _ _ Hc Hn Hs)).
  rewrite pem_next_one. cbn [b_Type b_Bytes]. rewrite bool_decide_eq_false_2 by auto.
  by rewrite (pkcs8_back key der Hm).
Qed.

Lemma encoded_nonempty b rest : pem_EncodeToMemory b +:+ rest ≠ "".
Proof. intros E. pose proof (pem_next_shorter _ _ _ (pem_next_encoded b rest)) as Hl. rewrite E in Hl. cbn in Hl. lia. Qed.

(** One round for each byte is enough: more do not change what is read. *)
Lemma decode_blocks_enough n n' data acc :
  (String.length data ≤ n)%nat → (String.length data ≤ n')%nat → decode_blocks n data acc = decode_blocks n' data acc.
Proof.
  revert n' data acc. induction n as [|n IH]; intros n' data acc H1 H2.
  { destruct data; [by destruct n'|]. cbn in H1. lia. }
  destruct n' as [|n']; [destruct data; [done|cbn in H2; lia]|]. cbn [decode_blocks]. case_match; [done|].
  destruct (pem_Next data) as [[b rest]|] eqn:E; [|done]. pose proof (pem_next_shorter _ _ _ E).
  case_match; [apply IH; lia|]. case_match; [apply IH; lia|done].
Qed.

(** The loop ends with every certificate of the file. *)
Lemma decode_blocks_certs certs fuel acc :
  (String.length (certs_data certs) ≤ fuel)%nat →
  decode_blocks fuel (certs_data certs) acc = inl (acc ++ certs).
Proof.
  revert fuel acc. induction certs as [|c certs IH]; intros fuel acc Hf.
  { destruct fuel; cbn; by rewrite app_nil_r. }
  unfold certs_data in *. rewrite fmap_cons, concat_cons in *.
  pose proof (encoded_nonempty (cert_block c)
                (String.concat "" ((λ c, pem_EncodeToMemory (cert_block c)) <$> certs))) as Hne.
  pose proof (pem_next_shorter _ _ _ (pem_next_encoded (cert_block c)
                (String.concat "" ((λ c, pem_EncodeToMemory (cert_block c)) <$> certs)))) as Hsh.
  destruct fuel as [|fuel]; [lia|]. cbn [decode_blocks]. unfold str_empty. rewrite bool_decide_eq_false_2 by done.
  rewrite pem_next_encoded. cbn [cert_block b_Type b_Bytes]. rewrite bool_decide_eq_false_2 by auto.
  rewrite cert_raw_back, IH by lia. by rewrite <- app_assoc.
Qed.

Lemma LoadCerts_calm p certs h :
  h_faults h = [] → certs ≠ [] → h_tree h !! p = Some (PFile filePerm (certs_data certs)) →
  str_len (certs_data certs) ≤ maxFileSizeToRead → LoadCerts p h = (Ret (inl certs), h).
Proof.
  intros Hc Hne Hn Hs. unfold LoadCerts, try_msg. rewrite (bind_ret _ _ _ _ _ (read_calm _ _ _ _ Hc Hn Hs)).
  rewrite decode_blocks_certs by done. by destruct certs.
Qed.

Lemma LoadCert_calm p cert certs h :
  h_faults h = [] → h_tree h !! p = Some (PFile filePerm (certs_data (cert :: certs))) →
  str_len (certs_data (cert :: certs)) ≤ maxFileSizeToRead → LoadCert p h = (Ret (inl cert), h).
Proof.
  intros Hc Hn Hs. unfold LoadCert, try_msg.
  by rewrite (bind_ret _ _ _ _ _ (LoadCerts_calm p (cert :: certs) h Hc ltac:(done) Hn Hs)).
Qed.

(** The files of credentials. *)
Definition creds_file dir (name : string) : path := dir ++ [name].
Record stored dir (c : credentials) T : Prop := {
  st_dir : T !! dir = Some (PDir dirPerm);
  st_key : ∃ der, MarshalPKCS8 (cr_key c) = inl der ∧
    T !! creds_file dir KeyName = Some (PFile filePerm (pem_EncodeToMemory (mkBlock "PRIVATE KEY" der)));
  st_cert : T !! creds_file dir CertName = Some (PFile filePerm (certs_data [cr_cert c]));
  st_chain : T !! creds_file dir CAChainName = Some (PFile filePerm (certs_data (cr_caChain c)));
  st_pool : T !! creds_file dir CAPoolName = Some (PFile filePerm (certs_data (cr_caPoolCerts c)));
}.

(** No file is longer than what is read. *)
Definition small T : Prop :=
  ∀ p perm data, T !! p = Some (PFile perm data) → str_len data ≤ maxFileSizeToRead.

Lemma join_name dir name :
  name ∈ [KeyName; CertName; CAChainName; CAPoolName] → path_Join dir name = creds_file dir name.
Proof.
  intros Hn. apply path_Join_plain, plain_intro; rewrite !elem_of_cons, elem_of_nil in Hn;
    destruct_or! Hn; subst; try done; set_solver.
Qed.

Lemma verify_nonempty c : verify c = None → cr_caChain c ≠ [] ∧ cr_caPoolCerts c ≠ [].
Proof.
  unfold verify. destruct (cr_caChain c) as [|ca l]; [done|].
  destruct (last (ca :: l)); [|done]. by destruct (cr_caPoolCerts c).
Qed.

(** Stored credentials are loaded by everyone who reads the disk. *)
Definition loadable dir (c : credentials) T : Prop :=
  ∀ h, h_tree h = T → h_faults h = [] → loadCredentials dir h = (Ret (inl c), h).

Lemma stored_loadable dir c T : stored dir c T → verify c = None → small T → loadable dir c T.
Proof.
  intros [Hdir (der & Hder & Hkey) Hcert Hchain Hpool] Hv Hs h <- Hc.
  destruct (verify_nonempty c Hv) as [Hne1 Hne2].
  unfold loadCredentials, try_msg. rewrite (bind_ret _ _ _ _ _ (p_Stat_calm _ _ _ Hc Hdir)).
  cbn [node_perm]. rewrite bool_decide_eq_false_2 by auto.
  rewrite !join_name by set_solver.
  rewrite (bind_ret _ _ _ _ _ (LoadKey_calm _ _ _ _ Hc Hder Hkey (Hs _ _ _ Hkey))).
  rewrite (bind_ret _ _ _ _ _ (LoadCert_calm _ _ _ _ Hc Hcert (Hs _ _ _ Hcert))).
  rewrite (bind_ret _ _ _ _ _ (LoadCerts_calm _ _ _ Hc Hne1 Hchain (Hs _ _ _ Hchain))).
  rewrite (bind_ret _ _ _ _ _ (LoadCerts_calm _ _ _ Hc Hne2 Hpool (Hs _ _ _ Hpool))).
  cbv zeta. destruct c as [k ct ch po]. cbn [cr_key cr_cert cr_caChain cr_caPoolCerts] in *. by rewrite Hv.
Qed.
End stored.

(** ** Saving *)

Section saving.
Context `{XL : X509Laws} {R : Type}.
Implicit Types (h : Host R) (p dir : path) (T : gmap path pnode).
#[local] Existing Instances frame_refl frame_trans.

(** A directory that can be made: neither the root nor the working directory. *)
Definition dir_ok dir : Prop := dir ≠ [] ∧ dir ≠ [""].

Lemma make_dirs_inv perm don todo T T' :
  make_dirs perm don todo T = Some T' →
  (∀ p, T' !! p = T !! p ∨ p `prefix_of` (don ++ todo)) ∧
  (todo ≠ [] → don ++ todo ≠ [""] → ∃ q, T' !! (don ++ todo) = Some (PDir q)).
Proof.
  revert don T. induction todo as [|e todo IH]; intros don T; cbn [make_dirs].
  { intros [= <-]. by split; [left|]. }
  assert (don ++ e :: todo = (don ++ [e]) ++ todo) as Eapp by by rewrite <- app_assoc.
  set (p0 := don ++ [e]) in *. intros E.
  assert (∃ T1, make_dirs perm p0 todo T1 = Some T' ∧ (∀ p, T1 !! p = T !! p ∨ p = p0) ∧
            (p0 ≠ [""] → ∃ q, T1 !! p0 = Some (PDir q))) as (T1 & E1 & Hsame & Hdir).
  { case_bool_decide as Hp0; [exists T; split_and!; [done|by left|done]|].
    destruct (T !! p0) as [[q|q d]|] eqn:Hq; [|done|].
    - exists T. split_and!; [done|by left|by exists q].
    - exists (<[p0 := PDir perm]> T). split_and!; [done| |].
      + intros p. destruct (decide (p = p0)) as [->|Hne]; [by right|]. left. by rewrite lookup_insert_ne.
      + exists perm. by rewrite lookup_insert_eq. }
  destruct (IH p0 T1 E1) as [Hpre Hlast]. rewrite Eapp. split.
  - intros p. destruct (Hpre p) as [->|Hp]; [|by right]. destruct (Hsame p) as [->| ->]; [by left|].
    right. by exists todo.
  - intros _ Hne. destruct todo as [|e' todo]; [|by apply Hlast].
    rewrite app_nil_r in *. cbn in E1. injection E1 as ->. by apply Hdir.
Qed.

Lemma not_prefix_child dir (name : string) : ¬ (dir ++ [name]) `prefix_of` dir.
Proof. intros [l E]. apply (f_equal length) in E. rewrite !length_app in E. cbn in E. lia. Qed.

Lemma child_ne dir (name : string) : dir ++ [name] ≠ dir.
Proof. intros E. apply (f_equal length) in E. rewrite length_app in E. cbn in E. lia. Qed.

Lemma p_MkdirAll_inl dir perm h u h' :
  dir_ok dir → p_MkdirAll dir perm h = (Ret (inl u), h') →
  (∃ q, h_tree h' !! dir = Some (PDir q)) ∧ frame h h' ∧
  (∀ name, h_tree h' !! creds_file dir name = h_tree h !! creds_file dir name).
Proof.
  intros [Hd1 Hd2] [E Hf]%disk_inl. destruct (make_dirs perm [] dir (h_tree h)) as [T'|] eqn:Em; [|done].
  injection E as _ <-. destruct (make_dirs_inv _ _ _ _ _ Em) as [Hsame Hdir].
  split; [by apply Hdir|]. split; [done|]. intros name. destruct (Hsame (creds_file dir name)) as [|Hp]; [done|].
  by apply not_prefix_child in Hp.
Qed.

Lemma make_certs_dir_inl {A} dir (k : GoM (Host R) (A + string)) h b h' :
  dir_ok dir → make_certs_dir dir k h = (Ret (inl b), h') →
  ∃ h1, k h1 = (Ret (inl b), h') ∧ h_tree h1 !! dir = Some (PDir dirPerm) ∧ frame h h1 ∧
    (∀ name, h_tree h1 !! creds_file dir name = h_tree h !! creds_file dir name).
Proof.
  intros Hd (u1 & h1 & E1 & (u2 & h2 & E2 & E)%try_inl)%try_inl.
  destruct (p_MkdirAll_inl _ _ _ _ _ Hd E1) as ([q Hq] & F1 & Hn1).
  apply p_Chmod_inl in E2 as [(n & Hn & E2) F2]. exists h2. split; [done|].
  rewrite Hq in Hn. injection Hn as <-. split; [by rewrite E2, lookup_insert_eq|]. split; [by etrans|].
  intros name. rewrite E2, lookup_insert_ne by (apply not_eq_sym, child_ne). apply Hn1.
Qed.

(** The names of the files are distinct. *)
Lemma creds_file_ne dir (a b : string) : a ≠ b → creds_file dir a ≠ creds_file dir b.
Proof. intros Hab E. apply app_inv_head in E. congruence. Qed.

Lemma save_inl dir c h u h' :
  dir_ok dir → save dir c h = (Ret (inl u), h') →
  verify c = None ∧ stored dir c (h_tree h') ∧ frame h h'.
Proof.
  intros Hd. unfold save. destruct (verify c) eqn:Hv; [done|].
  intros (h1 & E & Hdir & F1 & _)%(make_certs_dir_inl _ _ _ _ _ Hd). split; [done|].
  rewrite !join_name in E by set_solver.
  apply try_inl in E as (u2 & h2 & (der & Hder & E2 & F2)%SaveKey_inl & E).
  apply try_inl in E as (u3 & h3 & [E3 F3]%SaveCert_inl & E).
  apply try_inl in E as (u4 & h4 & [E4 F4]%SaveCert_inl & E).
  apply try_inl in E as (u5 & h5 & [E5 F5]%SaveCert_inl & E). injection E as _ <-.
  split; [|by do 4 (etrans; [eassumption|])].
  assert (∀ name, dir ≠ creds_file dir name) as Hne by (intros name; apply not_eq_sym, child_ne).
  rewrite E5, E4, E3, E2. split.
  - by rewrite !lookup_insert_ne.
  - exists der. split; [done|]. rewrite !lookup_insert_ne by (by apply creds_file_ne). by rewrite lookup_insert_eq.
  - rewrite !lookup_insert_ne by (by apply creds_file_ne). by rewrite lookup_insert_eq.
  - rewrite lookup_insert_ne by (by apply creds_file_ne). by rewrite lookup_insert_eq.
  - by rewrite lookup_insert_eq.
Qed.
End saving.

(** ** Enrolment *)

Section enrolment.
Context `{XL : X509Laws} {R : Type} `{CC : !CredentialsClient R}.
Implicit Types (h : Host R) (dir : path) (T : gmap path pnode).
#[local] Existing Instances frame_refl frame_trans.

Lemma load_inv dir h c h' :
  loadCredentials dir h = (Ret (inl c), h') →
  verify c = None ∧ ∃ h1 h2, LoadKey (path_Join dir KeyName) h1 = (Ret (inl (cr_key c)), h2) ∧
                             h_tree h1 = h_tree h.
Proof.
  intros (n & h1 & E1 & E)%try_inl. apply disk_inl in E1 as [E1 _].
  assert (h_tree h1 = h_tree h) as Ht by (by destruct (h_tree h !! dir); injection E1).
  case_bool_decide; [done|]. apply try_inl in E as (key & h2 & E2 & E).
  apply try_inl in E as (cert & h3 & E3 & E). apply try_inl in E as (chain & h4 & E4 & E).
  apply try_inl in E as (pool & h5 & E5 & E). cbv zeta in E. destruct (verify _) eqn:Hv; [done|].
  injection E as <- _. split; [done|]. exists h1, h2. done.
Qed.

Lemma request_inv key h c h' :
  requestCredentials key h = (Ret (inl c), h') →
  verify c = None ∧ cr_key c = key ∧ h_tree h' = h_tree h ∧ (h_faults h = [] → h_faults h' = []).
Proof.
  intros (der & h1 & E1 & (creds & h2 & E2 & E)%try_inl)%try_inl.
  unfold random in E1. destruct (CreateCertificateRequest key (h_rnd h)) as [a w]. injection E1 as -> <-.
  unfold remote in E2. destruct (cc_Get _ _) as [a r]. injection E2 as -> <-.
  destruct (decodeCredentials creds key) as [c'|] eqn:Ed; [|done].
  destruct (verify c') eqn:Hv; [done|]. injection E as <- <-. split; [done|]. split; [|done].
  unfold decodeCredentials in Ed. destruct (pem_Next _) as [[b rest]|]; [|done].
  destruct (x_ParseCertificate _); [|done]. destruct (decodeCerts _); [|done].
  destruct (decodeCerts _); [|done]. by injection Ed as <-.
Qed.

(** A calm disk keeps the key that is there. *)
Lemma enroll_key_kept dir h key key0 h' :
  h_faults h = [] → (LoadKey (path_Join dir KeyName) h).1 = Ret (inl key0) →
  enroll_key dir h = (Ret (inl key), h') → key = key0.
Proof.
  intros Hc Hl. unfold enroll_key, mbind, GoM_bind.
  destruct (LoadKey (path_Join dir KeyName) h) as [[[k|e]|e] h1]; cbn in Hl; [|done..].
  injection Hl as ->. by intros [= -> _].
Qed.

(** Once enrolled, a node does not ask again. *)
Lemma enrolled_again dir c T h :
  loadable (R := R) dir c T → h_tree h = T → h_faults h = [] → Enroll dir h = (Ret (inl tt), h).
Proof. intros Hl Ht Hc. unfold Enroll. by rewrite (bind_ret _ _ _ _ _ (Hl h Ht Hc)). Qed.

(** C19: Whatever the disk, the random numbers and the controller
    do, as long as no file of the result is longer than the megabyte that is
    read of a file, [Enroll] succeeds only if the directory then holds credentials that
    verify (the certificate is that of the key and signed by the authority,
    whose root is in the pool) and that every later start loads, so that the
    node does not ask for credentials again; and unless a call of the disk
    failed, a key that could be loaded before is still the key of the node. *)
Theorem enroll_sound dir h h' :
  dir_ok dir → Enroll dir h = (Ret (inl tt), h') → small (h_tree h') →
  ∃ c, verify c = None ∧ loadable (R := R) dir c (h_tree h') ∧
    (∀ h2, h_tree h2 = h_tree h' → h_faults h2 = [] → Enroll dir h2 = (Ret (inl tt), h2)) ∧
    (∀ key, h_faults h = [] → (LoadKey (path_Join dir KeyName) h).1 = Ret (inl key) → cr_key c = key).
Proof.
  intros Hd E Hs.
  assert (∃ c, verify c = None ∧ loadable (R := R) dir c (h_tree h') ∧
    (∀ key, h_faults h = [] → (LoadKey (path_Join dir KeyName) h).1 = Ret (inl key) → cr_key c = key))
    as (c & Hv & Hl & Hk).
  2: { exists c. split_and!; [done..| |done]. intros h2 Ht Hc. by eapply enrolled_again. }
  unfold Enroll in E. pose proof (loadCredentials_reader dir h) as [(r & fs & El & Hfs) Hload].
  destruct r as [[c|e]|e]; [rewrite (bind_ret _ _ _ _ _ El) in E|rewrite (bind_ret _ _ _ _ _ El) in E
                           |by rewrite (bind_panic _ _ _ _ _ El) in E].
  - injection E as <-. exists c. destruct (load_inv _ _ _ _ El) as [Hv (h1 & h2 & Ek & Ht)].
    split; [done|]. rewrite El in Hload. split; [intros h0 Ht0 Hc0; by apply Hload|].
    intros key Hc Hkey. destruct (LoadKey_reader (path_Join dir KeyName) h1) as [_ Hrd].
    rewrite Ek in Hrd. rewrite (Hrd _ h eq_refl (eq_sym Ht) Hc) in Hkey. by injection Hkey.
  - apply try_inl in E as (key & h1 & Ek & E). apply try_inl in E as (c & h2 & Er & E).
    destruct (request_inv _ _ _ _ Er) as (Hv & Hck & _). destruct (save_inl _ _ _ _ _ Hd E) as (_ & Hst & _).
    exists c. split; [done|]. split; [by apply stored_loadable|]. intros key0 Hc Hk0. rewrite Hck.
    rewrite (Hfs Hc) in Ek. eapply (enroll_key_kept dir _ _ _ h1); [| |exact Ek]; [done|].
    rewrite calm_eta by done. done.
Qed.
End enrolment.

(** ** The authority of the controller *)

Section authority.
Context `{XL : X509Laws} {R : Type}.
Implicit Types (h : Host R) (p q dir : path) (T : gmap path pnode).
#[local] Existing Instances frame_refl frame_trans.

(** Calls on the file [p] leave every other entry alone. *)
Definition only {A} p (m : GoM (Host R) A) : Prop :=
  ∀ q n, q ≠ p → preserves (λ h, h_tree h !! q = n) m.

Lemma only_ret {A} p (a : A) : only p (mret a).
Proof. intros q n _. apply preserves_ret. Qed.
Lemma only_panic {A} p e : only p (go_panic (A := A) e).
Proof. intros q n _. apply preserves_panic. Qed.
Lemma only_bind {A B} p (m : GoM (Host R) A) (k : A → GoM (Host R) B) :
  only p m → (∀ a, only p (k a)) → only p (m ≫= k).
Proof. intros Hm Hk q n Hq. apply preserves_bind; [by apply Hm|]. intros a. by apply Hk. Qed.
Lemma only_try {A B} p msg (m : GoM (Host R) (A + string)) (k : A → GoM (Host R) (B + string)) :
  only p m → (∀ a, only p (k a)) → only p (try_msg msg m k).
Proof. intros Hm Hk. apply only_bind; [done|]. intros [a|e]; [done|apply only_ret]. Qed.
Lemma only_random {A} p (f : RND → A * RND) : only p (random f).
Proof. intros q n _ h Hh. unfold random. by destruct (f (h_rnd h)). Qed.
Lemma only_now p : only p now.
Proof. by intros q n _ h. Qed.

Lemma only_disk {A} p (op : _ → (A + string) * _) broken :
  (∀ T q, q ≠ p → (op T).2 !! q = T !! q) → (∀ f T q, q ≠ p → broken f T !! q = T !! q) →
  only p (disk op broken).
Proof.
  intros Hop Hb q n Hq h Hh. unfold disk. destruct (h_faults h) as [|[f|] fs]; cbn.
  - specialize (Hop (h_tree h) q Hq). destruct (op (h_tree h)); cbn in *. congruence.
  - by rewrite Hb.
  - specialize (Hop (h_tree h) q Hq). destruct (op (h_tree h)); cbn in *. congruence.
Qed.

Lemma only_ReadAll p p' : only p (p_ReadAll p').
Proof. by apply only_disk. Qed.
Lemma only_Create p : only p (p_Create p).
Proof.
  apply only_disk; [|done]. intros T q Hq.
  destruct (T !! p) as [[]|]; [done| |destruct (dir_there _ _); [|done]]; cbn; by rewrite lookup_insert_ne.
Qed.
Lemma only_Chmod p perm : only p (p_Chmod p perm).
Proof. apply only_disk; [|done]. intros T q Hq. destruct (T !! p); [|done]. cbn. by rewrite lookup_insert_ne. Qed.
Lemma only_Write p data : only p (p_Write p data).
Proof. apply only_disk; intros; cbn; unfold append_data; by rewrite lookup_alter_ne. Qed.
Lemma only_for {A} p (l : list A) (body : A → unit → GoM (Host R) (unit + string)) u :
  (∀ a b, only p (body a b)) → only p (for_acc l body u).
Proof.
  intros Hb. revert u. induction l as [|a l IH]; intros u; cbn [for_acc]; [apply only_ret|].
  apply only_bind; [done|]. intros [b|e]; [apply IH|apply only_ret].
Qed.

Create HintDb only.
#[local] Hint Resolve only_ret only_panic only_bind only_try only_random only_now only_ReadAll only_Create
  only_Chmod only_Write only_for : only.

Lemma only_ca_key p : only p (ca_key p).
Proof.
  unfold ca_key, pki_LoadKey. apply only_bind; [auto with only|]. intros [key|e]; [auto with only|].
  apply only_try; [auto with only|]. intros key. apply only_try; [|auto with only].
  unfold StoreKey. destruct (MarshalPKCS8 key); auto 10 with only.
Qed.

Lemma only_StoreCertificate p certs : only p (StoreCertificate p certs).
Proof.
  unfold StoreCertificate. destruct certs as [|c certs]; [auto with only|].
  apply only_try; [auto with only|]. intros _. apply only_bind; [auto with only|].
  intros [|]; auto with only.
Qed.

Lemma only_generate p org key : only p (self_signed org key).
Proof. unfold self_signed. destruct (Signer key); auto 10 with only. Qed.

Lemma only_ca_certificate p key : only p (ca_certificate p key).
Proof.
  unfold ca_certificate, LoadCertificate. apply only_bind; [auto with only|]. intros [c|e]; [auto with only|].
  apply only_try; [apply only_generate|]. intros [c|]; [|auto with only].
  apply only_try; [apply only_StoreCertificate|auto with only].
Qed.

(** What a file holds. *)
Definition key_in T p (key : PrivateKey) : Prop := ∃ perm data b rest,
  T !! p = Some (PFile perm data) ∧ pem_Next data = Some (b, rest) ∧ ParsePKCS8 (b_Bytes b) = inl key.
Definition cert_in T p (cert : Certificate) : Prop := ∃ perm data b rest,
  T !! p = Some (PFile perm data) ∧ pem_Next data = Some (b, rest) ∧ x_ParseCertificate (b_Bytes b) = inl cert.

Lemma p_ReadAll_inl p h data h' :
  p_ReadAll p h = (Ret (inl data), h') → (∃ perm, h_tree h !! p = Some (PFile perm data)) ∧ h_tree h' = h_tree h.
Proof.
  intros [E _]%disk_inl. destruct (h_tree h !! p) as [[]|]; [done| |done]. injection E as <- <-.
  split; [by eexists|done].
Qed.

Lemma p_ReadAll_calm p perm data h :
  h_faults h = [] → h_tree h !! p = Some (PFile perm data) → p_ReadAll p h = (Ret (inl data), h).
Proof. intros Hc Hn. unfold p_ReadAll. rewrite calm_disk by done. cbn. by rewrite Hn, calm_same. Qed.

Lemma pki_LoadKey_inl p h key h' :
  pki_LoadKey p h = (Ret (inl key), h') → key_in (h_tree h) p key ∧ h_tree h' = h_tree h.
Proof.
  intros (data & h1 & [[perm Hn] Ht]%p_ReadAll_inl & E)%try_inl. injection E as E <-.
  destruct (pem_Next data) as [[b rest]|] eqn:Eb; [|done]. split; [by exists perm, data, b, rest|done].
Qed.
Lemma LoadCertificate_inl p h cert h' :
  LoadCertificate p h = (Ret (inl cert), h') → cert_in (h_tree h) p cert ∧ h_tree h' = h_tree h.
Proof.
  intros (data & h1 & [[perm Hn] Ht]%p_ReadAll_inl & E)%try_inl. injection E as E <-.
  destruct (pem_Next data) as [[b rest]|] eqn:Eb; [|done]. split; [by exists perm, data, b, rest|done].
Qed.

Lemma pki_LoadKey_calm p key h :
  h_faults h = [] → key_in (h_tree h) p key → pki_LoadKey p h = (Ret (inl key), h).
Proof.
  intros Hc (perm & data & b & rest & Hn & Hb & Hk). unfold pki_LoadKey, try_msg.
  rewrite (bind_ret _ _ _ _ _ (p_ReadAll_calm _ _ _ _ Hc Hn)). by rewrite Hb, Hk.
Qed.
Lemma LoadCertificate_calm p cert h :
  h_faults h = [] → cert_in (h_tree h) p cert → LoadCertificate p h = (Ret (inl cert), h).
Proof.
  intros Hc (perm & data & b & rest & Hn & Hb & Hk). unfold LoadCertificate, try_msg.
  rewrite (bind_ret _ _ _ _ _ (p_ReadAll_calm _ _ _ _ Hc Hn)). by rewrite Hb, Hk.
Qed.

Lemma random_run {A} (f : RND → A * RND) h a h' :
  random f h = (Ret a, h') → f (h_rnd h) = (a, h_rnd h') ∧ h_tree h' = h_tree h.
Proof. unfold random. destruct (f (h_rnd h)) as [b w] eqn:E. by intros [= <- <-]. Qed.

(** The key that is used is the key of the file. *)
Lemma ca_key_inl p h key h' : ca_key p h = (Ret (inl key), h') → key_in (h_tree h') p key.
Proof.
  unfold ca_key, mbind, GoM_bind. destruct (pki_LoadKey p h) as [[[k|e]|e] h1] eqn:E1; [| |done].
  - intros [= -> <-]. apply pki_LoadKey_inl in E1 as [Hk Ht]. by rewrite Ht.
  - intros (k & h2 & _ & (u & h3 & E3 & E)%try_inl)%try_inl. injection E as -> <-.
    unfold StoreKey in E3. destruct (MarshalPKCS8 key) as [der|] eqn:Hm; [|done].
    apply try_inl in E3 as (u4 & h4 & [[perm E4] _]%p_Create_inl & E3).
    apply try_inl in E3 as (u5 & h5 & [(n & Hn & E5) _]%p_Chmod_inl & E3).
    apply try_inl in E3 as (u6 & h6 & [E6 _]%p_Write_inl & [= _ <-]).
    rewrite E4, lookup_insert_eq in Hn. injection Hn as <-. cbn [set_perm] in E5.
    rewrite E6, E5, E4, insert_insert_eq, append_inserted.
    eexists filePerm, _, (mkBlock "PRIVATE KEY" der), "". rewrite lookup_insert_eq. split; [done|].
    split; [apply pem_next_one|]. by apply pkcs8_back.
Qed.

(** The certificate that is used is that of the file; a new one is of the key. *)
Lemma ca_certificate_inl p key h cert h' :
  ca_certificate p key h = (Ret (inl cert), h') →
  cert_in (h_tree h') p cert ∧
  (cert_in (h_tree h) p cert ∨ ∃ pub, Signer key = Some pub ∧ MarshalPKIX pub = inl (SPKI cert)).
Proof.
  unfold ca_certificate, mbind, GoM_bind. destruct (LoadCertificate p h) as [[[c|e]|e] h1] eqn:E1; [| |done].
  { intros [= -> <-]. apply LoadCertificate_inl in E1 as [Hc Ht]. rewrite Ht. split; [done|by left]. }
  intros (c & h2 & E2 & E)%try_inl. destruct c as [c|].
  2: { unfold mbind, GoM_bind in E. by destruct (p_Create p h2) as [[]]. }
  apply try_inl in E as (u & h3 & E3 & E). injection E as -> <-. split.
  - apply try_inl in E3 as (u4 & h4 & [[perm E4] _]%p_Create_inl & E3).
    unfold mbind, GoM_bind in E3. cbn [for_acc] in E3. unfold mbind, GoM_bind in E3.
    destruct (p_Write _ _ h4) as [[[u5|e5]|] h5] eqn:E5; [|done..]. apply p_Write_inl in E5 as [E5 _].
    apply try_inl in E3 as (u6 & h6 & [(n & Hn & E6) _]%p_Chmod_inl & [= _ <-]).
    rewrite E5, E4, append_inserted, lookup_insert_eq in Hn. injection Hn as <-.
    eexists filePerm, _, (cert_block cert), "". rewrite E6, lookup_insert_eq. split; [done|].
    split; [apply pem_next_one|]. apply cert_raw_back.
  - right. unfold generateRootCA, self_signed in E2. destruct (Signer key) as [pub|]; [|done]. exists pub. split; [done|].
    unfold mbind at 1, GoM_bind at 1 in E2. destruct (random _ h1) as [[serial|] h4]; [|done].
    unfold mbind at 1, GoM_bind at 1, now in E2.
    apply try_inl in E2 as (der & h5 & [E5 _]%random_run & E2). injection E2 as E2 _.
    destruct (cert_created _ _ _ _ _ _ _ E5) as (c & Hp & _ & Hs & _). rewrite Hp in E2. by injection E2 as ->.
Qed.
End authority.

Section init.
Context `{XL : X509Laws} {R : Type}.
Implicit Types (h : Host R) (p dir : path) (T : gmap path pnode).
#[local] Existing Instances frame_refl frame_trans.

Abbreviation ca_key_file dir := (creds_file dir "key.pem").
Abbreviation ca_cert_file dir := (creds_file dir "cert.pem").

Lemma ca_names dir :
  path_Join dir "key.pem" = ca_key_file dir ∧ path_Join dir "cert.pem" = ca_cert_file dir.
Proof. split; apply (join_name dir); unfold KeyName, CertName; set_solver. Qed.

(** Making the directory leaves its files alone. *)
Lemma mkdir_keeps dir perm name n :
  preserves (λ h, h_tree h !! creds_file dir name = n) (p_MkdirAll (R := R) dir perm).
Proof.
  intros h Hh. unfold p_MkdirAll, disk. destruct (h_faults h) as [|[f|] fs]; [|done|];
    (destruct (make_dirs perm [] dir (h_tree h)) as [T'|] eqn:Em; [|done]; cbn;
     destruct (make_dirs_inv _ _ _ _ _ Em) as [Hsame _];
     destruct (Hsame (creds_file dir name)) as [->|Hp]; [done|by apply not_prefix_child in Hp]).
Qed.

(** A round that does not go on. *)
Ltac round_ends := do 2 eexists; split; [|intros ?; reflexivity]; done.

(** Without a certificate in the directory one round is enough. *)
Lemma no_cert_round dir h :
  h_tree h !! ca_cert_file dir = None →
  ∃ r h', r ≠ Ret None ∧ ∀ n, InitRootCA (S n) dir h = (r, h').
Proof.
  intros Hno. destruct (ca_names dir) as [Ek Ec]. cbn [InitRootCA]. unfold InitRootCA_round. rewrite Ek, Ec.
  unfold mbind, GoM_bind. pose proof (mkdir_keeps dir dirPerm "cert.pem" None h Hno) as H1.
  destruct (p_MkdirAll dir dirPerm h) as [[[u|e]|e] h1]; cbn in H1; [|round_ends..].
  pose proof (only_ca_key (ca_key_file dir) (ca_cert_file dir) None
                ltac:(by apply creds_file_ne) h1 H1) as H2.
  destruct (ca_key (ca_key_file dir) h1) as [[[key|e]|e] h2]; cbn in H2; [|round_ends..].
  destruct (ca_certificate (ca_cert_file dir) key h2) as [[[cert|e]|e] h3] eqn:E3; [|round_ends..].
  apply ca_certificate_inl in E3 as [_ [(perm & data & b & rest & Hc & _)|(pub & Hs & Hm)]]; [congruence|].
  rewrite Hs, Hm, bool_decide_eq_false_2 by auto. round_ends.
Qed.

(** The directories of a path. *)
Definition dirs_there don todo T : Prop :=
  ∀ l1 l2, todo = l1 ++ l2 → l1 ≠ [] → don ++ l1 ≠ [""] → ∃ perm, T !! (don ++ l1) = Some (PDir perm).

Lemma make_dirs_keeps perm don todo p T T' (q : Z) :
  make_dirs perm don todo T = Some T' → T !! p = Some (PDir q) → T' !! p = Some (PDir q).
Proof.
  revert don T. induction todo as [|e todo IH]; intros don T; cbn [make_dirs]; [by intros [= <-]|].
  case_bool_decide; [by apply IH|]. destruct (T !! (don ++ [e])) as [[]|] eqn:He; [by apply IH|done|].
  intros E Hp. eapply IH; [exact E|]. rewrite lookup_insert_ne; [done|]. intros <-. congruence.
Qed.

Lemma make_dirs_there perm don todo T T' : make_dirs perm don todo T = Some T' → dirs_there don todo T'.
Proof.
  revert don T. induction todo as [|e todo IH]; intros don T; cbn [make_dirs]; intros E l1 l2 El Hne.
  { by destruct l1. }
  destruct l1 as [|e' l1]; [done|]. cbn in El. injection El as <- El.
  replace (don ++ e :: l1) with ((don ++ [e]) ++ l1) by (by rewrite <- app_assoc).
  assert (∃ T1, make_dirs perm (don ++ [e]) todo T1 = Some T' ∧
            (don ++ [e] ≠ [""] → ∃ q, T1 !! (don ++ [e]) = Some (PDir q))) as (T1 & E1 & Hd).
  { case_bool_decide; [by eexists|]. destruct (T !! (don ++ [e])) as [[q|]|] eqn:Hq; [|done|].
    - exists T. split; [done|]. by exists q.
    - eexists. split; [exact E|]. exists perm. by rewrite lookup_insert_eq. }
  destruct l1 as [|e2 l1]; [|by apply (IH _ _ E1 (e2 :: l1) l2)]. rewrite app_nil_r. intros Hroot.
  destruct (Hd Hroot) as [q Hq]. exists q. by eapply make_dirs_keeps.
Qed.

Lemma make_dirs_done perm don todo T : dirs_there don todo T → make_dirs perm don todo T = Some T.
Proof.
  revert don. induction todo as [|e todo IH]; intros don Hd; cbn [make_dirs]; [done|].
  assert (dirs_there (don ++ [e]) todo T) as Hd'.
  { intros l1 l2 -> Hne Hroot. rewrite <- app_assoc in *. by apply (Hd (e :: l1) l2). }
  case_bool_decide as Hroot; [by apply IH|].
  destruct (Hd [e] todo) as [q ->]; [done..|]. by apply IH.
Qed.

Lemma p_MkdirAll_calm dir perm h :
  h_faults h = [] → dirs_there [] dir (h_tree h) → p_MkdirAll dir perm h = (Ret (inl tt), h).
Proof.
  intros Hc Hd. unfold p_MkdirAll. rewrite calm_disk by done. rewrite make_dirs_done by done.
  cbn. by rewrite calm_same.
Qed.

(** An authority on the disk. *)
Record ca_stored dir (ca : RootCA) T : Prop := {
  cs_dirs : dirs_there [] dir T;
  cs_key : key_in T (ca_key_file dir) (ca_Key ca);
  cs_cert : cert_in T (ca_cert_file dir) (ca_Cert ca);
  cs_pub : ∃ pub, Signer (ca_Key ca) = Some pub ∧ MarshalPKIX pub = inl (SPKI (ca_Cert ca));
}.

(** Files of the directory are not directories on the way to it. *)
Lemma dirs_there_only {A} dir name (m : GoM (Host R) A) h :
  only (creds_file dir name) m → dirs_there [] dir (h_tree h) → dirs_there [] dir (h_tree (m h).2).
Proof.
  intros Hm Hd l1 l2 El Hne Hroot. destruct (Hd l1 l2 El Hne Hroot) as [q Hq]. exists q.
  apply (Hm ([] ++ l1) (Some (PDir q))); [|done]. cbn. intros ->. unfold creds_file in El.
  apply (f_equal length) in El. rewrite !length_app in El. cbn in El. lia.
Qed.

Lemma key_in_only {A} p (q : path) key (m : GoM (Host R) A) h :
  only p m → q ≠ p → key_in (h_tree h) q key → key_in (h_tree (m h).2) q key.
Proof.
  intros Hm Hq (perm & data & b & rest & Hn & Hb). exists perm, data, b, rest. split; [|done].
  by apply (Hm q (Some (PFile perm data)) Hq h).
Qed.

Lemma ca_init_stored n dir h ca h' :
  InitRootCA n dir h = (Ret (Some (inl ca)), h') → ca_stored dir ca (h_tree h').
Proof.
  revert h. induction n as [|n IH]; intros h; [done|]. destruct (ca_names dir) as [Ek Ec].
  cbn [InitRootCA]. unfold InitRootCA_round. rewrite Ek, Ec. unfold mbind, GoM_bind.
  destruct (p_MkdirAll dir dirPerm h) as [[[u|e]|e] h1] eqn:E1; [|done..].
  assert (dirs_there [] dir (h_tree h1)) as Hd1.
  { apply disk_inl in E1 as [E1 _]. destruct (make_dirs dirPerm [] dir (h_tree h)) eqn:Em; [|done].
    injection E1 as _ <-. by eapply make_dirs_there. }
  pose proof (dirs_there_only dir "key.pem" _ h1 (only_ca_key _) Hd1) as Hd2.
  destruct (ca_key (ca_key_file dir) h1) as [[[key|e]|e] h2] eqn:E2; [|done..]. cbn in Hd2.
  apply ca_key_inl in E2.
  pose proof (dirs_there_only dir "cert.pem" _ h2 (only_ca_certificate _ key) Hd2) as Hd3.
  pose proof (key_in_only (ca_cert_file dir) (ca_key_file dir) key _ h2 (only_ca_certificate (ca_cert_file dir) key)
                ltac:(by apply creds_file_ne) E2) as Hk3.
  destruct (ca_certificate (ca_cert_file dir) key h2) as [[[cert|e]|e] h3] eqn:E3; [|done..].
  cbn in Hd3, Hk3. apply ca_certificate_inl in E3 as [Hc3 _].
  destruct (Signer key) as [pub|] eqn:Hs; [|done]. destruct (MarshalPKIX pub) as [der|] eqn:Hm; [|done].
  case_bool_decide as Hneq.
  - destruct (p_Remove _ h3) as [[[]|] h4]; [|done..]. apply IH.
  - intros [= <- <-]. split; [done..|]. exists pub. cbn. by rewrite Hneq.
Qed.

Lemma ca_stored_again n dir ca h :
  ca_stored dir ca (h_tree h) → h_faults h = [] → InitRootCA (S n) dir h = (Ret (Some (inl ca)), h).
Proof.
  intros [Hd Hk Hc (pub & Hs & Hm)] Hcalm. destruct (ca_names dir) as [Ek Ec]. cbn [InitRootCA]. unfold InitRootCA_round. rewrite Ek, Ec.
  rewrite (bind_ret _ _ _ _ _ (p_MkdirAll_calm _ _ _ Hcalm Hd)).
  assert (ca_key (ca_key_file dir) h = (Ret (inl (ca_Key ca)), h)) as E1.
  { unfold ca_key. by rewrite (bind_ret _ _ _ _ _ (pki_LoadKey_calm _ _ _ Hcalm Hk)). }
  assert (ca_certificate (ca_cert_file dir) (ca_Key ca) h = (Ret (inl (ca_Cert ca)), h)) as E2.
  { unfold ca_certificate. by rewrite (bind_ret _ _ _ _ _ (LoadCertificate_calm _ _ _ Hcalm Hc)). }
  rewrite (bind_ret _ _ _ _ _ E1), (bind_ret _ _ _ _ _ E2), Hs, Hm, bool_decide_eq_false_2 by auto.
  by destruct ca.
Qed.

Lemma remove_inl p h u h' : p_Remove p h = (Ret (inl u), h') → h_tree h' !! p = None.
Proof.
  intros [E _]%disk_inl. destruct (h_tree h !! p) as [[]|]; [done| |done]. injection E as _ <-.
  apply lookup_delete_eq.
Qed.

(** C20: Whatever the disk and the random numbers do, the
    recursion of [InitRootCA] ends after at most two rounds, so that two are as
    good as any larger number; the authority it returns has a certificate of
    its own key, both are what the directory then holds, and every later start
    with a disk that works returns the same authority and changes nothing. *)
Theorem ca_init_terminates dir h :
  ∃ r h', r ≠ Ret None ∧ (∀ n, InitRootCA (2 + n) dir h = (r, h')) ∧
    ∀ ca, r = Ret (Some (inl ca)) →
      (∃ pub, Signer (ca_Key ca) = Some pub ∧ MarshalPKIX pub = inl (SPKI (ca_Cert ca))) ∧
      ∀ n h2, h_tree h2 = h_tree h' → h_faults h2 = [] →
        InitRootCA (S n) dir h2 = (Ret (Some (inl ca)), h2).
Proof.
  assert (∃ r h', r ≠ Ret None ∧ ∀ n, InitRootCA (2 + n) dir h = (r, h')) as (r & h' & Hr & E).
  { destruct (ca_names dir) as [Ek Ec].
    enough (∃ r h', r ≠ Ret None ∧ ∀ n, InitRootCA_round (InitRootCA (S n) dir) dir h = (r, h')) as (r & h' & Hr & E)
      by (by exists r, h').
    unfold InitRootCA_round. rewrite Ek, Ec. unfold mbind, GoM_bind.
    destruct (p_MkdirAll dir dirPerm h) as [[[u|e]|e] h1]; [|round_ends..].
    destruct (ca_key (ca_key_file dir) h1) as [[[key|e]|e] h2]; [|round_ends..].
    destruct (ca_certificate (ca_cert_file dir) key h2) as [[[cert|e]|e] h3]; [|round_ends..].
    destruct (Signer key) as [pub|]; [|round_ends].
    destruct (MarshalPKIX pub) as [der|]; [|round_ends].
    case_bool_decide; [|round_ends].
    destruct (p_Remove (ca_cert_file dir) h3) as [[[u4|e]|e] h4] eqn:E4; [|round_ends..].
    apply (no_cert_round dir h4). by eapply remove_inl. }
  exists r, h'. split; [done|]. split; [done|]. intros ca ->. specialize (E 0%nat).
  pose proof (ca_init_stored _ _ _ _ _ E) as Hst. split; [apply Hst|].
  intros n h2 Ht Hc. rewrite <- Ht in Hst. by apply ca_stored_again.
Qed.
End init.

(** ** The server of feature discovery *)

Section discovery.
Context `{XL : X509Laws} {R : Type}.

Lemma random_inl {A} (f : RND → (A + string) * RND) (h : Host R) a h' :
  random f h = (Ret (inl a), h') → ∃ w w', f w = (inl a, w').
Proof. unfold random. destruct (f (h_rnd h)) as [r w'] eqn:E. intros [= -> _]. by eexists _, _. Qed.

(** Credentials that were made have a certificate of their own key, for the
    configured name, that expires with the authority; the authority is the one
    that clients must be certified by, and if its files belong together it has
    signed the certificate. *)
Lemma nfd_credentials s (h h' : Host R) t :
  createCredentialsTLS s h = (Ret (inl t), h') →
  ∃ caCert caKey pub, tls_ClientCAs t = [caCert] ∧
    Signer (tls_PrivateKey t) = Some pub ∧ MarshalPKIX pub = inl (SPKI (tls_Certificate t)) ∧
    Subject_CN (tls_Certificate t) = nfd_Sni s ∧ Cert_NotAfter (tls_Certificate t) = Cert_NotAfter caCert ∧
    (∀ kpub, may_sign caCert = true → Signer caKey = Some kpub → MarshalPKIX kpub = inl (SPKI caCert) →
      CheckSignatureFrom (tls_Certificate t) caCert = None).
Proof.
  intros E. apply try_inl in E as (caCert & h1 & _ & E). apply try_inl in E as (caKey & h2 & _ & E).
  apply try_inl in E as (nfdKey & h3 & Eg & E). apply try_inl in E as (nfdCert & h4 & Ec & E). injection E as <- _.
  apply random_inl in Eg as (w & w' & Eg). apply random_inl in Ec as (w1 & w1' & Ec).
  destruct (generated_signer _ _ _ Eg) as [pub Hpub]. unfold NewTLSServerCert, newTLSCert in Ec. rewrite Hpub in Ec.
  destruct (CreateCertificate _ _ _ _ _) as [[der|e] w2] eqn:Ecr; [|done].
  destruct (cert_created _ _ _ _ _ _ _ Ecr) as (c & Hp & _ & Hspki & Hcn & _ & Hna & _ & _ & Hsig).
  cbn in Ec. rewrite Hp in Ec. injection Ec as <- _.
  exists caCert, caKey, pub. cbn. split_and!; try done. intros kpub Hm Hk Hs. by eapply Hsig.
Qed.
End discovery.

(** ** Saving on a disk that works *)

Section calm.
Context `{XL : X509Laws} {R : Type}.
Implicit Types (h : Host R) (p dir : path) (T : gmap path pnode).

(** Nothing is in the way of the directory and its files. *)
Record usable dir T : Prop := {
  us_dir : dir_ok dir;
  us_prefix p perm data : p `prefix_of` dir → T !! p ≠ Some (PFile perm data);
  us_files name perm : name ∈ [KeyName; CertName; CAChainName; CAPoolName] →
    T !! creds_file dir name ≠ Some (PDir perm);
}.

Lemma make_dirs_some perm don todo T :
  (∀ p q data, p `prefix_of` (don ++ todo) → T !! p ≠ Some (PFile q data)) →
  is_Some (make_dirs perm don todo T).
Proof.
  revert don T. induction todo as [|e todo IH]; intros don T Hp; cbn [make_dirs]; [by eexists|].
  assert (don ++ e :: todo = (don ++ [e]) ++ todo) as Eapp by by rewrite <- app_assoc.
  rewrite Eapp in Hp. case_bool_decide; [by apply IH|].
  destruct (T !! (don ++ [e])) as [[q|q d]|] eqn:Hq; [by apply IH| |apply IH].
  - exfalso. apply (Hp (don ++ [e]) q d); [by exists todo|done].
  - intros p q data Hpre. destruct (decide (p = don ++ [e])) as [->|Hne].
    + by rewrite lookup_insert_eq.
    + rewrite lookup_insert_ne by done. by apply Hp.
Qed.

Lemma make_dirs_changes perm don todo T T' :
  make_dirs perm don todo T = Some T' → ∀ p, T' !! p = T !! p ∨ T' !! p = Some (PDir perm).
Proof.
  revert don T. induction todo as [|e todo IH]; intros don T; cbn [make_dirs]; [intros [= <-]; by left|].
  case_bool_decide; [by apply IH|]. destruct (T !! (don ++ [e])) as [[q|q d]|] eqn:Hq; [by apply IH|done|].
  intros E p. destruct (IH _ _ E p) as [->|]; [|by right].
  destruct (decide (p = don ++ [e])) as [->|Hne]; [right; by rewrite lookup_insert_eq|].
  left. by rewrite lookup_insert_ne.
Qed.

Lemma make_certs_dir_calm {A} dir (k : GoM (Host R) (A + string)) h :
  h_faults h = [] → usable dir (h_tree h) →
  ∃ T', make_certs_dir dir k h = k (calm h T') ∧ usable dir T' ∧ T' !! dir = Some (PDir dirPerm).
Proof.
  intros Hc [Hd Hp Hf]. destruct (make_dirs_some dirPerm [] dir (h_tree h)) as [T1 E1]; [by apply Hp|].
  destruct (make_dirs_inv _ _ _ _ _ E1) as [Hsame Hdir]. destruct Hd as [Hd1 Hd2].
  destruct (Hdir Hd1 Hd2) as [q Hq]. cbn [app] in Hq. exists (<[dir := PDir dirPerm]> T1).
  split; [|split].
  - unfold make_certs_dir, try_msg. unfold p_MkdirAll, p_Chmod.
    rewrite (bind_ret _ _ _ _ _ (calm_disk _ _ _ Hc)), E1. cbn [fst snd].
    rewrite (bind_ret _ _ _ _ _ (calm_disk _ _ (calm h T1) eq_refl)). cbn [calm h_tree]. by rewrite Hq.
  - split; [done| |].
    + intros p perm data Hpre. destruct (decide (p = dir)) as [->|Hne]; [by rewrite lookup_insert_eq|].
      rewrite lookup_insert_ne by done. intros Hn.
      destruct (make_dirs_changes _ _ _ _ _ E1 p) as [Hs|Hs]; rewrite Hs in Hn; [|done].
      by apply (Hp p perm data).
    + intros name perm Hname. rewrite lookup_insert_ne by (apply not_eq_sym, child_ne).
      destruct (Hsame (creds_file dir name)) as [->|Hpre]; [by apply Hf|by apply not_prefix_child in Hpre].
  - by rewrite lookup_insert_eq.
Qed.

Lemma parent_creds dir name : parent (creds_file dir name) = dir.
Proof. apply removelast_last. Qed.

Lemma create_calm dir name h q :
  h_faults h = [] → h_tree h !! dir = Some (PDir q) → dir ≠ [] → dir ≠ [""] →
  (∀ perm, h_tree h !! creds_file dir name ≠ Some (PDir perm)) →
  ∃ perm, p_Create (creds_file dir name) h
          = (Ret (inl tt), calm h (<[creds_file dir name := PFile perm ""]> (h_tree h))).
Proof.
  intros Hc Hd H1 H2 Hn. unfold p_Create. rewrite calm_disk by done. rewrite parent_creds.
  destruct (h_tree h !! creds_file dir name) as [[perm|perm data]|].
  - by destruct (Hn perm).
  - by exists perm.
  - exists create_perm. unfold dir_there. rewrite Hd. destruct dir as [|[|c e] [|]]; done.
Qed.

Lemma chmod_calm p perm data h T :
  h_faults h = [] → h_tree h = <[p := PFile perm data]> T →
  p_Chmod p filePerm h = (Ret (inl tt), calm h (<[p := PFile filePerm data]> T)).
Proof.
  intros Hc Ht. unfold p_Chmod. rewrite calm_disk by done. rewrite Ht, lookup_insert_eq. cbn.
  by rewrite insert_insert_eq.
Qed.

Lemma write_calm p perm data data' h T :
  h_faults h = [] → h_tree h = <[p := PFile perm data]> T →
  p_Write p data' h = (Ret (inl tt), calm h (<[p := PFile perm (data +:+ data')]> T)).
Proof. intros Hc Ht. unfold p_Write. rewrite calm_disk by done. cbn. by rewrite Ht, append_inserted. Qed.

Lemma close_calm h : h_faults h = [] → p_Close h = (Ret (inl tt), h).
Proof. intros Hc. unfold p_Close. rewrite calm_disk by done. cbn. by rewrite calm_same. Qed.

Lemma SaveKey_calm key der dir name h q :
  h_faults h = [] → h_tree h !! dir = Some (PDir q) → dir ≠ [] → dir ≠ [""] →
  (∀ perm, h_tree h !! creds_file dir name ≠ Some (PDir perm)) → MarshalPKCS8 key = inl der →
  SaveKey key (creds_file dir name) h
  = (Ret (inl tt), calm h (<[creds_file dir name
       := PFile filePerm (pem_EncodeToMemory (mkBlock "PRIVATE KEY" der))]> (h_tree h))).
Proof.
  intros Hc Hd H1 H2 Hn Hm. destruct (create_calm dir name h q Hc Hd H1 H2 Hn) as [perm E].
  unfold SaveKey, try_msg. rewrite Hm, (bind_ret _ _ _ _ _ E). set (p := creds_file dir name) in *.
  rewrite (bind_ret _ _ _ _ _ (chmod_calm p perm "" (calm h (<[p := PFile perm ""]> (h_tree h))) (h_tree h)
             eq_refl eq_refl)).
  rewrite (bind_ret _ _ _ _ _ (write_calm p filePerm "" _ (calm h (<[p := PFile filePerm ""]> (h_tree h)))
             (h_tree h) eq_refl eq_refl)).
  by rewrite close_calm.
Qed.

Lemma write_certs_calm p perm (broken : string → GoM (Host R) (unit + string)) certs data h T :
  h_faults h = [] → h_tree h = <[p := PFile perm data]> T →
  for_acc certs (λ c (_ : unit),
    r ← p_Write p (pem_EncodeToMemory (cert_block c));
    match r with inr e => broken e | inl _ => mret (inl tt) end) tt h
  = (Ret (inl tt), calm h (<[p := PFile perm (data +:+ certs_data certs)]> T)).
Proof.
  revert data h. induction certs as [|c certs IH]; intros data h Hc Ht; cbn [for_acc].
  { unfold certs_data. cbn. rewrite str_app_nil_r, <- Ht, calm_same by done. done. }
  rewrite bind_assoc, (bind_ret _ _ _ _ _ (write_calm _ _ _ _ _ _ Hc Ht)), bind_mret.
  etrans; [exact (IH (data +:+ pem_EncodeToMemory (cert_block c)) (calm h _) eq_refl eq_refl)|].
  unfold certs_data. by rewrite fmap_cons, concat_cons, str_app_assoc.
Qed.

Lemma SaveCert_calm certs dir name h q :
  h_faults h = [] → h_tree h !! dir = Some (PDir q) → dir ≠ [] → dir ≠ [""] →
  (∀ perm, h_tree h !! creds_file dir name ≠ Some (PDir perm)) →
  SaveCert (creds_file dir name) certs h
  = (Ret (inl tt), calm h (<[creds_file dir name := PFile filePerm (certs_data certs)]> (h_tree h))).
Proof.
  intros Hc Hd H1 H2 Hn. destruct (create_calm dir name h q Hc Hd H1 H2 Hn) as [perm E].
  unfold SaveCert, try_msg. rewrite (bind_ret _ _ _ _ _ E). set (p := creds_file dir name) in *.
  rewrite (bind_ret _ _ _ _ _ (chmod_calm p perm "" (calm h (<[p := PFile perm ""]> (h_tree h))) (h_tree h)
             eq_refl eq_refl)).
  rewrite (bind_ret _ _ _ _ _ (write_certs_calm p filePerm _ certs "" (calm h (<[p := PFile filePerm ""]> (h_tree h)))
             (h_tree h) eq_refl eq_refl)).
  by rewrite close_calm.
Qed.

(** Verified credentials can be saved. *)
Lemma save_calm dir c der h :
  h_faults h = [] → usable dir (h_tree h) → verify c = None → MarshalPKCS8 (cr_key c) = inl der →
  ∃ T', save dir c h = (Ret (inl tt), calm h T').
Proof.
  intros Hc Hu Hv Hm. unfold save. rewrite Hv. rewrite !join_name by set_solver.
  match goal with |- context [make_certs_dir dir ?k h] =>
    destruct (make_certs_dir_calm dir k h Hc Hu) as (T1 & -> & Hu1 & Hd1)
  end.
  destruct Hu1 as [[H1 H2] _ Hf].
  assert (∀ T name n, T !! dir = Some (PDir dirPerm) → <[creds_file dir name := n]> T !! dir = Some (PDir dirPerm)) as Hdir.
  { intros T name n Ht. rewrite lookup_insert_ne by apply child_ne. done. }
  assert (∀ T name name' perm data, (∀ q, T !! creds_file dir name ≠ Some (PDir q)) →
            ∀ q, <[creds_file dir name' := PFile perm data]> T !! creds_file dir name ≠ Some (PDir q)) as Hfile.
  { intros T name name' perm data Ht q. destruct (decide (creds_file dir name' = creds_file dir name)) as [->|Hne].
    - by rewrite lookup_insert_eq.
    - rewrite lookup_insert_ne by done. apply Ht. }
  unfold try_msg.
  rewrite (bind_ret _ _ _ _ _ (SaveKey_calm _ der dir KeyName (calm h T1) _ eq_refl Hd1 H1 H2
             ltac:(intros; apply Hf; set_solver) Hm)).
  set (T2 := <[_ := _]> _). assert (T2 !! dir = Some (PDir dirPerm)) as Hd2 by by apply Hdir.
  rewrite (bind_ret _ _ _ _ _ (SaveCert_calm [cr_cert c] dir CertName (calm h T2) _ eq_refl Hd2 H1 H2
             ltac:(apply Hfile; intros; apply Hf; set_solver))).
  set (T3 := <[_ := _]> _). assert (T3 !! dir = Some (PDir dirPerm)) as Hd3 by by apply Hdir.
  rewrite (bind_ret _ _ _ _ _ (SaveCert_calm (cr_caChain c) dir CAChainName (calm h T3) _ eq_refl Hd3 H1 H2
             ltac:(do 2 apply Hfile; intros; apply Hf; set_solver))).
  set (T4 := <[_ := _]> _). assert (T4 !! dir = Some (PDir dirPerm)) as Hd4 by by apply Hdir.
  rewrite (bind_ret _ _ _ _ _ (SaveCert_calm (cr_caPoolCerts c) dir CAPoolName (calm h T4) _ eq_refl Hd4 H1 H2
             ltac:(do 3 apply Hfile; intros; apply Hf; set_solver))).
  by eexists.
Qed.
Lemma usable_file dir name perm data T : usable dir T → usable dir (<[creds_file dir name := PFile perm data]> T).
Proof.
  intros [Hd Hp Hf]. split; [done| |].
  - intros p q d Hpre. rewrite lookup_insert_ne; [by apply Hp|].
    intros <-. by apply not_prefix_child in Hpre.
  - intros name' q Hn. destruct (decide (creds_file dir name = creds_file dir name')) as [->|Hne].
    + by rewrite lookup_insert_eq.
    + rewrite lookup_insert_ne by done. by apply Hf.
Qed.

Lemma enroll_key_usable dir h key h1 :
  h_faults h = [] → usable dir (h_tree h) → enroll_key dir h = (Ret (inl key), h1) →
  usable dir (h_tree h1) ∧ h_faults h1 = [] ∧ h_remote h1 = h_remote h.
Proof.
  intros Hc Hu. unfold enroll_key. rewrite join_name by set_solver.
  destruct (LoadKey_reader (creds_file dir KeyName) h) as [(r & fs & E & Hfs) _].
  rewrite (Hfs Hc), calm_eta in E by done. clear Hfs.
  destruct r as [[k|e]|e]; [rewrite (bind_ret _ _ _ _ _ E)..|by rewrite (bind_panic _ _ _ _ _ E)].
  { by intros [= _ <-]. }
  intros (k & h2 & Hr & Hm)%try_inl. unfold random in Hr. destruct (GenerateKey (h_rnd h)) as [g w'].
  injection Hr as -> <-.
  match type of Hm with make_certs_dir dir ?m ?h' = _ =>
    destruct (make_certs_dir_calm dir m h' Hc Hu) as (T1 & Hrun & Hu1 & Hd1)
  end.
  rewrite Hrun in Hm. clear Hrun. apply try_inl in Hm as (u & h3 & Hs & [= -> <-]).
  destruct (MarshalPKCS8 key) as [der|] eqn:Hk; [|by unfold SaveKey in Hs; rewrite Hk in Hs].
  destruct (us_dir _ _ Hu) as [H1 H2].
  erewrite (SaveKey_calm key der dir KeyName) in Hs; [|done|exact Hd1|done|done| |done].
  - injection Hs as _ <-. split_and!; [|done..]. by apply usable_file.
  - intros perm. apply (us_files _ _ Hu1). set_solver.
Qed.
End calm.

(** ** A node and the controller *)

Section end_to_end.
Context `{XL : X509Laws} `{CceDBLaws} `{NodeNet, K8sClient, Uuid, GoEnv}.
Context (ca : RootCA) (digest : string → string) (w : RND) (addr : string).
#[local] Instance the_pki : Pki := ca_pki ca digest w.

(** The node as the controller sees it: it has no certificate yet. *)
Definition enrol_peer : option Peer := Some (mkPeer addr (Some (mkTLSInfo EnrollServerName []))).

(** [EnrollClient.Get]: the call of the controller, which [checkAuth] guards. *)
#[local] Instance ctl_client : CredentialsClient Ctl := λ csr s,
  match checkAuth enrol_peer enrollmentMethod with
  | Some _ => (inr "rpc error", s)
  | None =>
      match RequestCredentials enrol_peer csr s with
      | (Ret (inl creds), s') => (inl creds, s')
      | (Ret (inr _), s') => (inr "rpc error", s')
      | (Panic _, s') => (inr "transport is closing", s')
      end
  end.

(** An authority that may sign and has the key of its certificate. *)
Definition ca_ok : Prop := may_sign (ca_Cert ca) = true ∧
  ∃ pub, Signer (ca_Key ca) = Some pub ∧ MarshalPKIX pub = inl (SPKI (ca_Cert ca)).

(** What the controller grants, it has signed for a node it knows. *)
Lemma RequestCredentials_grants csr s creds s' :
  RequestCredentials enrol_peer csr s = (Ret (inl creds), s') →
  ∃ req serial row node cert, csr_serial csr = inl (req, serial) ∧
    row ∈ rows_of (tables (ctl_db s)) "nodes" ∧ column "serial" row = Some serial ∧
    of_json row = Some node ∧ SignCSR req (Node_ID node) = inl cert ∧
    creds = mkNodeCredentials (pem_EncodeToMemory (cert_block cert))
              [pem_EncodeToMemory (cert_block (ca_Cert ca))]
              [pem_EncodeToMemory (cert_block (ca_Cert ca))].
Proof.
  unfold RequestCredentials. destruct (csr_serial csr) as [[req serial]|e]; [|done].
  destruct (returns_Filter (A:=Node) [("serial", serial)] (ctl_db s)) as ([es err] & d' & E).
  unfold mbind, GoM_bind. unfold db at 1. rewrite E.
  destruct err as [e|]; [done|]. destruct es as [|node es]; [done|].
  destruct (Filter_elem _ _ _ _ node E ltac:(left)) as (row & Hrow & Hj).
  apply rel_select_elem in Hrow as [Hrow Hm]. simpl in Hm. rewrite andb_true_r in Hm.
  apply bool_decide_eq_true in Hm.
  destruct (SignCSR req (Node_ID node)) as [cert|] eqn:Hsign; [|done].
  change CAChain with (inl [ca_Cert ca] : list Certificate + string). cbv beta iota.
  destruct (db (PS.Create (mkCredentials (Node_ID node) (pem_Encode cert))) _) as [[[e|]|] s2]; [done| |done].
  destruct (option_bind _ _ (λ p, SplitHostPort (peer_Addr p)) enrol_peer) as [[[|ch ip] port]|]; [done| |done].
  destruct (uuid_New s2) as [[id|] s3]; [|done].
  destruct (db (PS.Create (mkNodeGRPCTarget id (Node_ID node) (String ch ip))) s3) as [[[e|]|] s4]; [done| |done].
  destruct (RegisterToProxy (Node_ID node) s4) as [[u|] s5]; [|done]. intros [= <- <-].
  exists req, serial, row, node, cert. done.
Qed.

(** ... and the node that asked accepts it. *)
Lemma grant_accepted key w0 der w1 s creds s' :
  ca_ok → CreateCertificateRequest key w0 = (inl der, w1) →
  RequestCredentials enrol_peer (pem_EncodeToMemory (mkBlock "CERTIFICATE REQUEST" der)) s
  = (Ret (inl creds), s') →
  ∃ c row node pub spki, decodeCredentials creds key = inl c ∧ verify c = None ∧ cr_key c = key ∧
    nc_Certificate creds = pem_EncodeToMemory (cert_block (cr_cert c)) ∧
    Subject_CN (cr_cert c) = Node_ID node ∧
    row ∈ rows_of (tables (ctl_db s)) "nodes" ∧ of_json row = Some node ∧
    Signer key = Some pub ∧ MarshalPKIX pub = inl spki ∧ column "serial" row = Some (digest spki).
Proof.
  intros [Hsign (cpub & Hcs & Hcm)] Hreq (req & serial & row & node & cert & Hcsr & Hrow & Hcol & Hj & Hs & ->)%RequestCredentials_grants.
  destruct (csr_created _ _ _ _ Hreq) as (r & pub & spki & Hp & Hck & Hks & Hm & Hsp & Hpk).
  unfold csr_serial in Hcsr. unfold str_empty in Hcsr.
  rewrite bool_decide_eq_false_2 in Hcsr
    by (pose proof (encoded_nonempty (mkBlock "CERTIFICATE REQUEST" der) "") as Hne; by rewrite str_app_nil_r in Hne).
  cbn in Hcsr. rewrite pem_next_one in Hcsr. cbn in Hcsr. rewrite Hp in Hcsr. cbn in Hcsr. rewrite Hck in Hcsr.
  injection Hcsr as <- <-. cbn in Hs. unfold ca_SignCSR in Hs. rewrite Hp in Hs.
  destruct (CreateCertificate _ _ _ _ _) as [[cder|] w2] eqn:Hc; [|done]. cbn in Hs.
  destruct (cert_created _ _ _ _ _ _ _ Hc) as (c0 & Hp0 & _ & Hspki & Hcn & _ & _ & _ & _ & Hver).
  rewrite Hp0 in Hs. injection Hs as ->. rewrite Hpk, Hm in Hspki. injection Hspki as Hspki.
  assert (decodeCerts [pem_EncodeToMemory (cert_block (ca_Cert ca))] = inl [ca_Cert ca]) as Hdec.
  { unfold decodeCerts. cbn. rewrite pem_next_one. cbn. exact (certs_raw_back [ca_Cert ca] ltac:(done)). }
  exists (mkCreds key cert [ca_Cert ca] [ca_Cert ca]), row, node, pub, spki. split_and!; cbn.
  all: try done.
  - unfold decodeCredentials. cbn. rewrite pem_next_one. cbn. by rewrite cert_raw_back, Hdec.
  - rewrite Hks, Hm, bool_decide_eq_false_2 by (by intros []).
    rewrite (Hver _ _ eq_refl Hsign Hcs Hcm). unfold cert_Equal. by rewrite bool_decide_eq_true_2.
  - by rewrite Hcol, Hsp.
Qed.

(** C18: A node without credentials and the controller together:
    if the disk works and nothing is in the way of the directory, then
    [Enroll] succeeds exactly if the controller grants the request; the
    credentials the node then has on its disk verify, are for its key, and name
    the node whose record in the database has the digest of that key as its
    serial.  When the controller refuses, [Enroll] returns an error and leaves
    on the disk what making the key has left there. *)
Theorem enrol_end_to_end dir (h h1 : Host Ctl) e key pk der w1 :
  ca_ok → usable dir (h_tree h) → h_faults h = [] → (loadCredentials dir h).1 = Ret (inr e) →
  enroll_key dir h = (Ret (inl key), h1) → MarshalPKCS8 key = inl pk →
  CreateCertificateRequest key (h_rnd h1) = (inl der, w1) →
  match RequestCredentials enrol_peer (pem_EncodeToMemory (mkBlock "CERTIFICATE REQUEST" der)) (h_remote h) with
  | (Ret (inl _), s') =>
      ∃ T' c row node pub spki, Enroll dir h = (Ret (inl tt), mkHost T' [] w1 s') ∧
        stored dir c T' ∧ verify c = None ∧ cr_key c = key ∧ Subject_CN (cr_cert c) = Node_ID node ∧
        row ∈ rows_of (tables (ctl_db (h_remote h))) "nodes" ∧ of_json row = Some node ∧
        Signer key = Some pub ∧ MarshalPKIX pub = inl spki ∧ column "serial" row = Some (digest spki)
  | (_, s') => ∃ e', Enroll dir h = (Ret (inr e'), mkHost (h_tree h1) [] w1 s')
  end.
Proof.
  intros Hca Hu Hc Hl Hk Hpk Hreq. destruct (enroll_key_usable _ _ _ _ Hc Hu Hk) as (Hu1 & Hc1 & Hr1).
  assert (loadCredentials dir h = (Ret (inr e), h)) as El.
  { destruct (loadCredentials_reader dir h) as [(r & fs & E & Hfs) _]. rewrite E in Hl |- *. cbn in Hl. subst r.
    by rewrite (Hfs Hc), calm_eta. }
  set (csr := pem_EncodeToMemory _). set (h2 s := mkHost (h_tree h1) [] w1 s : Host Ctl).
  assert (∀ r s', cc_Get csr (h_remote h) = (r, s') → Enroll dir h =
    match r with
    | inr e' => (Ret (inr ("" +:+ ("" +:+ e'))), h2 s')
    | inl creds => try_msg "" (mret (match decodeCredentials creds key with
                     | inr e' => inr e'
                     | inl c => match verify c with Some e' => inr e' | None => inl c end
                     end)) (save dir) (h2 s')
    end) as Hstep.
  { intros r s' Hget. unfold Enroll. rewrite (bind_ret _ _ _ _ _ El). unfold try_msg at 1.
    rewrite (bind_ret _ _ _ _ _ Hk). unfold requestCredentials, try_msg. rewrite !bind_assoc.
    unfold mbind, GoM_bind, random, remote. rewrite Hreq. cbn [h_remote h_rnd h_tree h_faults]. fold csr.
    rewrite Hr1, Hget, Hc1. destruct r as [creds|e']; [|done].
    destruct (decodeCredentials creds key) as [c|]; [|done]. by destruct (verify c). }
  assert (cc_Get csr (h_remote h) =
    match RequestCredentials enrol_peer csr (h_remote h) with
    | (Ret (inl creds), s') => (inl creds, s')
    | (Ret (inr _), s') => (inr "rpc error", s')
    | (Panic _, s') => (inr "transport is closing", s')
    end) as Hget by done.
  destruct (RequestCredentials enrol_peer csr (h_remote h)) as [[[creds|cd]|e'] s'] eqn:Hreqc.
  - rewrite (Hstep _ _ Hget). destruct (grant_accepted _ _ _ _ _ _ _ Hca Hreq Hreqc)
      as (c & row & node & pub & spki & Hdec & Hv & Hck & _ & Hcn & Hrow & Hj & Hs & Hm & Hcol).
    rewrite Hdec, Hv. unfold try_msg. rewrite bind_mret.
    destruct (save_calm dir c pk (h2 s') eq_refl Hu1 Hv ltac:(by rewrite Hck)) as [T' E'].
    destruct (save_inl _ _ _ _ _ (us_dir _ _ Hu) E') as (_ & Hst & _).
    exists T', c, row, node, pub, spki. by rewrite E'.
  - rewrite (Hstep _ _ Hget). by eexists.
  - rewrite (Hstep _ _ Hget). by eexists.
Qed.
End end_to_end.

(** ** A small library of certificates *)

Module CertsScenario.
Import CceScenario.

(** Blocks and certificates are written in letters, up to a space. *)
Definition write `{Countable A} (a : A) : string := letters (encode a) +:+ " ".
Fixpoint upto_space (s : string) : option (string * string) :=
  match s with
  | EmptyString => None
  | String c s' => if bool_decide (c = " "%char) then Some ("", s')
                   else (λ r, (String c r.1, r.2)) <$> upto_space s'
  end.
Definition read A `{Countable A} (s : string) : option (A * string) :=
  '(l, rest) ← upto_space s; a ← decode (unletters l); Some (a, rest).

#[local] Arguments write : simpl never.
#[local] Arguments read : simpl never.

Lemma upto_space_letters p rest : upto_space ((letters p +:+ " ") +:+ rest) = Some (letters p, rest).
Proof.
  induction p as [p IH|p IH|]; [..|done].
  - change ((λ r, (String "b" r.1, r.2)) <$> upto_space ((letters p +:+ " ") +:+ rest)
            = Some (letters p~1, rest)). by rewrite IH.
  - change ((λ r, (String "a" r.1, r.2)) <$> upto_space ((letters p +:+ " ") +:+ rest)
            = Some (letters p~0, rest)). by rewrite IH.
Qed.

Lemma read_written `{Countable A} (a : A) rest : read A (write a +:+ rest) = Some (a, rest).
Proof.
  unfold read, write. rewrite upto_space_letters. cbn.
  by rewrite unletters_letters, decode_encode.
Qed.

Lemma read_one `{Countable A} (a : A) : read A (write a) = Some (a, "").
Proof. pose proof (read_written a "") as E. by rewrite str_app_nil_r in E. Qed.

Lemma upto_space_shorter s l rest : upto_space s = Some (l, rest) → (String.length rest < String.length s)%nat.
Proof.
  revert l. induction s as [|c s IH]; intros l; cbn; [done|]. case_bool_decide; [intros [= _ <-]; lia|].
  destruct (upto_space s) as [[l' r]|]; [|done]. cbn. intros [= _ <-]. specialize (IH _ eq_refl). lia.
Qed.

(** The key, the key that signed it, the name, the validity and whether it is
    an authority. *)
Definition toy_cert : Type := (string * string) * (string * (Z * Z)) * bool.

Fixpoint read_all (fuel : nat) (s : string) : list toy_cert + string :=
  match fuel with
  | O => inl []
  | S fuel' =>
      match read toy_cert s with
      | None => if str_empty s then inl [] else inr "malformed certificate"
      | Some (c, rest) => match read_all fuel' rest with inl l => inl (c :: l) | inr e => inr e end
      end
  end.

Lemma read_all_written (l : list toy_cert) fuel :
  (length l < fuel)%nat → read_all fuel (String.concat "" (write <$> l)) = inl l.
Proof.
  revert fuel. induction l as [|c l IH]; intros [|fuel] Hf; [cbn in Hf; lia|done|cbn in Hf; lia|].
  rewrite fmap_cons, concat_cons. cbn [read_all]. rewrite read_written, IH; [done|]. cbn in Hf. lia.
Qed.

#[export] Instance toy_x509 : X509 | 100 := {|
  RND := Z;
  PrivateKey := string;
  PublicKey := string;
  Certificate := toy_cert;
  CSR := string;
  pem_EncodeToMemory b := write (b_Type b, b_Bytes b);
  pem_Next s := (λ r, (mkBlock r.1.1 r.1.2, r.2)) <$> read (string * string) s;
  x_Now w := w;
  x_Serial w := w;
  GenerateKey w := (inl (Itoa w), w + 1);
  MarshalPKCS8 key := inl key;
  ParsePKCS8 der := inl der;
  Signer key := Some key;
  MarshalPKIX pub := inl pub;
  x_ParseCertificate s := match read toy_cert s with Some (c, _) => inl c | None => inr "malformed certificate" end;
  x_ParseCertificates s := read_all (S (String.length s)) s;
  Raw c := write c;
  SPKI c := c.1.1.1;
  Subject_CN c := c.1.2.1;
  Cert_NotBefore c := c.1.2.2.1;
  Cert_NotAfter c := c.1.2.2.2;
  Cert_IsCA c := c.2;
  CheckSignatureFrom c p := if p.2 && bool_decide (c.1.1.2 = p.1.1.1) then None else Some "wrong signature";
  CreateCertificateRequest key w := (inl key, w);
  x_ParseCertificateRequest der := inl der;
  CSR_CheckSignature _ := None;
  CSR_SPKI r := r;
  CSR_PublicKey r := r;
  CSR_CN _ := "app";
  CreateCertificate t parent pub key w :=
    (inl (write (((pub, key), (t_CommonName t, (t_NotBefore t, t_NotAfter t)), t_IsCA t) : toy_cert)), w + 1);
|}.

Lemma written_length (l : list toy_cert) : (length l <= String.length (String.concat "" (write <$> l)))%nat.
Proof.
  induction l as [|c l IH]; [cbn; lia|]. rewrite fmap_cons, concat_cons, str_length_app.
  assert (0 < String.length (write c))%nat; [|cbn [length]; lia].
  unfold write. rewrite str_length_app. cbn. lia.
Qed.

#[export] Program Instance toy_x509_laws : X509Laws | 100 := {| may_sign := Cert_IsCA |}.
Next Obligation. intros [t b] rest. cbn. by rewrite read_written. Qed.
Next Obligation.
  intros s b rest. cbn. unfold read. destruct (upto_space s) as [[l r]|] eqn:E; [|done]. cbn.
  destruct (decode (unletters l)); [|done]. cbn. intros [= _ <-]. by eapply upto_space_shorter.
Qed.
Next Obligation. intros w key w' _. by exists key. Qed.
Next Obligation. by intros key der [= ->]. Qed.
Next Obligation.
  intros c. cbn. by rewrite read_one.
Qed.
Next Obligation.
  intros l _. apply (read_all_written l), Nat.lt_succ_r, (written_length l).
Qed.
Next Obligation. intros key w der w' [= -> _]. by exists der, der, der. Qed.
Next Obligation.
  intros t parent pub key w der w' [= <- _]. cbn.
  rewrite read_one. eexists. split_and!; try done.
  intros p kpub -> Hs [= <-] [= Hp]. by rewrite Hs, Hp, bool_decide_eq_true_2.
Qed.

(** An authority, its node and the directory of the certificates. *)
Definition toy_ca : RootCA := mkRootCA ((("9", "9"), ("", (0, 100)), true) : toy_cert) "9".
Definition certs_dir : path := [""; "etc"; "certs"].
Definition enrol_tables : Tables :=
  {[ "nodes" := [to_json (mkNode "node-1" "edge" "here" "digest-5")] ]}.
Definition new_node : Host Ctl := mkHost ∅ [] 5 (demo_state enrol_tables).

(** The key that [Enroll] makes for it, and its request. *)
Definition made_key : Host Ctl := (enroll_key certs_dir new_node).2.
Definition request : string := pem_EncodeToMemory (mkBlock "CERTIFICATE REQUEST" "5").
#[export] Instance toy_client : CredentialsClient Ctl | 100 :=
  ctl_client toy_ca (λ s, "digest-" +:+ s) 7 "10.0.0.7:1234".

Lemma small_decide T :
  forallb (λ n, match n with PFile _ data => bool_decide (str_len data ≤ maxFileSizeToRead) | PDir _ => true end)
    (map_to_list T).*2 = true → small T.
Proof.
  intros Hf p perm data Hp. rewrite forallb_forall in Hf.
  specialize (Hf (PFile perm data)). eapply bool_decide_eq_true_1, Hf, list_elem_of_In, list_elem_of_fmap.
  exists (p, PFile perm data). split; [done|]. by apply elem_of_map_to_list.
Qed.

Lemma certs_dir_usable : usable certs_dir ∅.
Proof. split; [done| |]; intros; by rewrite lookup_empty. Qed.

End CertsScenario.
Import CceScenario CertsScenario.

Lemma enroll_sound_witness :
  (Enroll certs_dir new_node).1 = Ret (inl tt) ∧
  ∃ c, verify c = None ∧ loadable (R := Ctl) certs_dir c (h_tree (Enroll certs_dir new_node).2).
Proof.
  assert ((Enroll certs_dir new_node).1 = Ret (inl tt)) as E by (vm_compute; reflexivity).
  split; [exact E|].
  destruct (enroll_sound certs_dir new_node (Enroll certs_dir new_node).2) as (c & Hv & Hl & _).
  - split; discriminate.
  - rewrite <- E. apply surjective_pairing.
  - apply small_decide. vm_compute. reflexivity.
  - exact (ex_intro _ c (conj Hv Hl)).
Defined.

(** The authority that a first start with the same directory makes. *)
Definition made_ca : RootCA := mkRootCA ((("5", "5"), ("", (-9, 94608006)), true) : toy_cert) "5".

Lemma ca_init_terminates_witness :
  ∃ h', (∀ n, InitRootCA (2 + n) certs_dir new_node = (Ret (Some (inl made_ca)), h')) ∧
    ∀ n (h2 : Host Ctl), h_tree h2 = h_tree h' → h_faults h2 = [] →
      InitRootCA (S n) certs_dir h2 = (Ret (Some (inl made_ca)), h2).
Proof.
  destruct (ca_init_terminates certs_dir new_node) as (r & h' & _ & Hrun & Hst).
  assert (r = Ret (Some (inl made_ca))) as Hr.
  { transitivity (InitRootCA (2 + 0) certs_dir new_node).1; [by rewrite (Hrun 0%nat)|].
    vm_compute. reflexivity. }
  rewrite Hr in Hrun. exists h'. split; [exact Hrun|]. exact (proj2 (Hst made_ca Hr)).
Defined.

Lemma enrol_end_to_end_witness :
  ∃ T' c s', Enroll certs_dir new_node = (Ret (inl tt), mkHost T' [] (h_rnd made_key) s') ∧
    stored certs_dir c T' ∧ verify c = None ∧ cr_key c = "5" ∧ Subject_CN (cr_cert c) = "node-1".
Proof.
  pose proof (enrol_end_to_end toy_ca (λ s, "digest-" +:+ s) 7 "10.0.0.7:1234" certs_dir new_node made_key
    "Failed to get file info: no such file or directory" "5" "5" "5" (h_rnd made_key)) as Hth.
  destruct (RequestCredentials _ _ _) as [[[creds|cd]|e] s'] eqn:E.
  2: { exfalso. apply (f_equal fst) in E. vm_compute in E. discriminate E. }
  2: { exfalso. apply (f_equal fst) in E. vm_compute in E. discriminate E. }
  destruct Hth as (T' & c & row & node & pub & spki & Hrun & Hst & Hv & Hk & Hcn & Hrow & Hj & _).
  - split; [reflexivity|]. exists "9". split; reflexivity.
  - exact certs_dir_usable.
  - reflexivity.
  - vm_compute. reflexivity.
  - rewrite (surjective_pairing (enroll_key _ _)). apply (f_equal2 pair); [vm_compute|]; reflexivity.
  - reflexivity.
  - reflexivity.
  - exists T', c, s'. split_and!; [exact Hrun|exact Hst|exact Hv|exact Hk|].
    rewrite Hcn. apply list_elem_of_singleton in Hrow. rewrite Hrow, of_to_json in Hj. by injection Hj as <-.
Defined.

(** A certificate of the EAA's authority that belongs to another key: its start
    goes on with neither an authority nor an error, and then the first request
    for credentials dereferences nil. *)
Definition eaa_paths : CertsInfo := mkCertsInfo "/c/key.pem" "/c/root.pem" "/c/eaa.pem" "/c/eaakey.pem" "eaa".
Definition mismatched : Host unit :=
  mkHost {[ [""; "c"; "key.pem"] := PFile filePerm (pem_EncodeToMemory (mkBlock "PRIVATE KEY" "5"));
            [""; "c"; "root.pem"] := PFile filePerm (pem_EncodeToMemory (cert_block (ca_Cert toy_ca))) ]} [] 5 tt.
Example eaa_root_mismatch_silent :
  (eaa_InitRootCA eaa_paths mismatched).1 = Ret (inl None) ∧
  (eaa_SignCSR request None mismatched).1 = Panic "invalid memory address or nil pointer dereference".
Proof. split; vm_compute; reflexivity. Qed.

(** A key that cannot be read once is replaced: the node that was approved has
    to be approved again. *)
Definition approved : Host Ctl := (Enroll certs_dir new_node).2.
Example enroll_replaces_unreadable_key :
  (LoadKey (creds_file certs_dir KeyName) approved).1 = Ret (inl "5") ∧
  (LoadKey (creds_file certs_dir KeyName)
     (Enroll certs_dir (mkHost (h_tree approved) (replicate 2 (Some (mkPfault "input/output error" "")))
                          (h_rnd approved) (h_remote approved))).2).1 = Ret (inl "6").
Proof. split; vm_compute; reflexivity. Qed.
