(* ===== verification/Telemetry.v ===== *)
(** * The telemetry of the controller (edgecontroller/telemetry/telemetry.go)

    Lines that nodes send over connections are copied to a file.  A goroutine
    for each connection scans it for lines and passes them to the goroutine that
    writes, through a channel of 100 places.  What is passed is a part of the
    buffer of the scanner, not a copy, so the buffers are a memory that both
    sides share: arrays, and slices of them.  The scanner is that of package
    [bufio].  Goroutines interleave between the steps of [tel_step]; how many
    bytes a call of Read yields, and whether it fails, is part of a step. *)

From S2P Require Import Prelude.
From stdpp Require Import prelude strings list.
From Stdlib Require Import Ascii Sorted.

Local Open Scope string_scope.
Local Open Scope list_scope.
Local Open Scope nat_scope.

(** ** Bytes and slices *)

Definition NL : ascii := "010"%char.
Definition CR : ascii := "013"%char.

Abbreviation bytes := (list ascii).

(** The arrays that slices refer to; a slice reaches to the end of its array. *)
Abbreviation Mem := (list bytes).

Record Slice := mkSlice { sl_arr : nat; sl_off : nat; sl_len : nat }.

Definition sub_bytes (off len : nat) (a : bytes) : bytes := take len (drop off a).

Definition slice_bytes (m : Mem) (s : Slice) : bytes :=
  sub_bytes (sl_off s) (sl_len s) (m !!! sl_arr s).

(** [copy] to the position [pos] of an array that has the room. *)
Definition write_at (pos : nat) (b a : bytes) : bytes := take pos a ++ b ++ drop (pos + length b) a.

Definition on_array (i : nat) (f : bytes → bytes) (m : Mem) : Mem := alter f i m.

(** [append(s, b)]: in place if the array has room behind the slice. *)
Definition append_byte (s : Slice) (b : ascii) (m : Mem) : Slice * Mem :=
  let a := m !!! sl_arr s in
  if bool_decide (sl_off s + sl_len s < length a)
  then (mkSlice (sl_arr s) (sl_off s) (S (sl_len s)), on_array (sl_arr s) (write_at (sl_off s + sl_len s) [b]) m)
  else (mkSlice (length m) 0 (S (sl_len s)), m ++ [slice_bytes m s ++ [b]]).

(** ** Lines *)

(** [bytes.IndexByte]. *)
Fixpoint IndexByte (b : ascii) (l : bytes) : option nat :=
  match l with
  | [] => None
  | c :: l' => if bool_decide (c = b) then Some 0 else S <$> IndexByte b l'
  end.

(** The length of a line without the carriage return at its end. *)
Definition dropCR (l : bytes) : bytes :=
  match last l with
  | Some c => if bool_decide (c = CR) then take (length l - 1) l else l
  | None => l
  end.

(** [bufio.ScanLines]: how far to advance, and the length of the line. *)
Definition ScanLines (data : bytes) (atEOF : bool) : nat * option nat :=
  match IndexByte NL data with
  | Some i => (S i, Some (length (dropCR (take i data))))
  | None =>
      if atEOF && bool_decide (data ≠ []) then (length data, Some (length (dropCR data)))
      else (0, None)
  end.

(** ** Readers *)

Inductive Transport := TCP | UDP.

(** What the other end of a connection sends, and how much of it has been
    read: bytes of a stream, or datagrams. *)
Inductive Reader :=
| RStream (data : bytes) (taken : nat)
| RPackets (packets : list bytes) (taken : nat).

(** What a call of Read comes to, in a world that answers [res]: an error, nothing
    yet, or so many bytes at most. *)
Inductive ReadResult :=
| RdBytes (b : bytes) (r : Reader)
| RdErr
| RdBlocks.

(** The method [Read] of a TCP connection, for a buffer of [room] bytes: at least one byte unless the
    stream has ended. *)
Definition read_stream (room : nat) (res : option nat) (data : bytes) (taken : nat) : ReadResult :=
  match res with
  | None => RdErr
  | Some O => RdBlocks
  | Some n =>
      let rest := drop taken data in
      if bool_decide (rest = []) then RdErr
      else let k := Nat.min n (Nat.min room (length rest)) in
           RdBytes (take k rest) (RStream data (taken + k))
  end.

(** [newlineReader.Read], for a buffer of [room] bytes: a datagram that is longer is cut, and
    the index of its last byte is out of range if nothing was read. *)
Definition newlineReader_Read (room : nat) (res : option nat) (packets : list bytes) (taken : nat)
    : outcome ReadResult :=
  if bool_decide (room < 2) then Panic "slice bounds out of range"
  else match res with
       | None => Ret RdErr
       | Some O => Ret RdBlocks
       | Some _ =>
           match packets !! taken with
           | None => Ret RdBlocks
           | Some d =>
               let b := take (room - 2) d in
               match last b with
               | None => Panic "index out of range [-1]"
               | Some c =>
                   Ret (RdBytes (if bool_decide (c = NL) then b else b ++ [NL]) (RPackets packets (S taken)))
               end
           end
       end.

Definition Read (room : nat) (res : option nat) (r : Reader) : outcome ReadResult :=
  match r with
  | RStream data taken => Ret (read_stream room res data taken)
  | RPackets packets taken => newlineReader_Read room res packets taken
  end.

(** ** Connections and their scanners *)

Inductive ScanError := ErrRead | ErrTooLong.

(** A connection: its reader, the buffer of its scanner with the bytes from
    [c_start] to [c_end] waiting, the error of the scanner (the end of the
    stream is one), a line that waits for a place in the channel, whether the
    goroutine that scans has ended, and whether the connection is closed. *)
Record Conn := mkConn {
  c_reader : Reader;
  c_buf : nat;
  c_start : nat;
  c_end : nat;
  c_max : nat;
  c_err : option ScanError;
  c_line : option Slice;
  c_done : bool;
  c_closed : bool;
}.

(** Where the goroutine that writes is: at its select, with a line it has
    received, with the line and its newline, or at its end. *)
Inductive Writer := WSelect | WLine (l : Slice) | WAppended (l : Slice) | WEnded.

(** The program: its arrays, connections and channel, what has been passed to
    [Write], whether the context is cancelled, the goroutine that writes, the
    result of [WriteToByLine], and the messages of [next]. *)
Record Tel := mkTel {
  t_mem : Mem;
  t_conns : list Conn;
  t_lines : list Slice;
  t_out : list bytes;
  t_cancelled : bool;
  t_writer : Writer;
  t_returned : option string;
  t_next : nat;
}.

Definition set_conn (i : nat) (c : Conn) (m : Mem) (s : Tel) : Tel :=
  mkTel m (<[i := c]> (t_conns s)) (t_lines s) (t_out s) (t_cancelled s) (t_writer s) (t_returned s) (t_next s).

Definition window (m : Mem) (c : Conn) : bytes :=
  sub_bytes (c_start c) (c_end c - c_start c) (m !!! c_buf c).

(** The constants of [bufio]. *)
Definition startBufSize : nat := 4096.
Definition MaxScanTokenSize : nat := 64 * 1024.

(** [Scan] moves what waits to the beginning of the buffer if it is at the end
    of it, or past the middle. *)
Definition shifts (m : Mem) (c : Conn) : bool :=
  let size := length (m !!! c_buf c) in
  bool_decide (0 < c_start c) && (bool_decide (c_end c = size) || bool_decide (size / 2 < c_start c)).

Definition shift (m : Mem) (c : Conn) : Mem * Conn :=
  if shifts m c
  then (on_array (c_buf c) (write_at 0 (window m c)) m,
        mkConn (c_reader c) (c_buf c) 0 (c_end c - c_start c) (c_max c) (c_err c) (c_line c) (c_done c) (c_closed c))
  else (m, c).

(** A full buffer is replaced by one of twice its size, up to the maximum. *)
Definition grow (m : Mem) (c : Conn) : option (Mem * Conn) :=
  let size := length (m !!! c_buf c) in
  if negb (bool_decide (c_end c = size)) then Some (m, c)
  else if bool_decide (c_max c ≤ size) then None
  else let size' := Nat.min (if bool_decide (size * 2 = 0) then startBufSize else size * 2) (c_max c) in
       Some (m ++ [write_at 0 (window m c) (replicate size' zero)],
             mkConn (c_reader c) (length m) 0 (c_end c - c_start c) (c_max c) (c_err c) (c_line c) (c_done c) (c_closed c)).

Definition set_err (e : ScanError) (c : Conn) : Conn :=
  mkConn (c_reader c) (c_buf c) (c_start c) (c_end c) (c_max c) (Some e) (c_line c) (c_done c) (c_closed c).

Definition set_done (c : Conn) : Conn :=
  mkConn (c_reader c) (c_buf c) (c_start c) (c_end c) (c_max c) (c_err c) None true (c_closed c).

(** The end of a round of [Scan]: it reads more. *)
Definition fill (res : option nat) (m : Mem) (c : Conn) : outcome (Mem * Conn) :=
  let (m1, c1) := shift m c in
  match grow m1 c1 with
  | None => Ret (m1, set_done (set_err ErrTooLong c1))
  | Some (m2, c2) =>
      let room := length (m2 !!! c_buf c2) - c_end c2 in
      match (if c_closed c2 then Ret RdErr else Read room res (c_reader c2)) with
      | Panic e => Panic e
      | Ret RdErr => Ret (m2, set_err ErrRead c2)
      | Ret RdBlocks => Ret (m2, c2)
      | Ret (RdBytes b r) =>
          Ret (on_array (c_buf c2) (write_at (c_end c2) b) m2,
               mkConn r (c_buf c2) (c_start c2) (c_end c2 + length b) (c_max c2) (c_err c2) (c_line c2) (c_done c2) (c_closed c2))
      end
  end.

(** One round of [Scan], in the goroutine of [scanLines]: a line, the end, or
    more to read. *)
Definition scan (res : option nat) (m : Mem) (c : Conn) : outcome (Mem * Conn) :=
  let atEOF := bool_decide (c_err c ≠ None) in
  match ScanLines (window m c) atEOF with
  | (advance, Some len) =>
      Ret (m, mkConn (c_reader c) (c_buf c) (c_start c + advance) (c_end c) (c_max c) (c_err c)
                (Some (mkSlice (c_buf c) (c_start c) len)) (c_done c) (c_closed c))
  | (_, None) =>
      if atEOF
      then Ret (m, set_done (mkConn (c_reader c) (c_buf c) 0 0 (c_max c) (c_err c) (c_line c) (c_done c) (c_closed c)))
      else fill res m c
  end.

(** ** The goroutines *)

Definition line_places : nat := 100.

(** The goroutine that scans: a round of [Scan] if no line waits for the channel. *)
Definition scan_step (i : nat) (res : option nat) : GoM Tel unit :=
  s ← go_get;
  match t_conns s !! i with
  | Some c =>
      match c_done c, c_line c with
      | false, None =>
          match scan res (t_mem s) c with
          | Ret (m, c') => go_put (set_conn i c' m s)
          | Panic e => go_panic e
          end
      | _, _ => mret tt
      end
  | None => mret tt
  end.

(** [lines <- sc.Bytes()], or the context is cancelled. *)
Definition send_step (i : nat) (ctxDone : bool) : GoM Tel unit :=
  s ← go_get;
  match t_conns s !! i with
  | Some c =>
      match c_line c with
      | Some l =>
          if ctxDone && t_cancelled s then go_put (set_conn i (set_done c) (t_mem s) s)
          else if bool_decide (length (t_lines s) < line_places)
          then go_put (mkTel (t_mem s)
                 (<[i := mkConn (c_reader c) (c_buf c) (c_start c) (c_end c) (c_max c) (c_err c) None (c_done c) (c_closed c)]> (t_conns s))
                 (t_lines s ++ [l]) (t_out s) (t_cancelled s) (t_writer s) (t_returned s) (t_next s))
          else mret tt
      | None => mret tt
      end
  | None => mret tt
  end.

(** Closing a connection; that of a [notifyCloser] also sends a message to
    [next].  Each connection is closed once. *)
Definition notifyCloser_Close (tr : Transport) (next : nat) : nat :=
  match tr with TCP => next | UDP => S next end.

(** The rest of [scanLines]: the connection is closed when its goroutine has
    ended or the context is cancelled. *)
Definition close_step (tr : Transport) (i : nat) : GoM Tel unit :=
  s ← go_get;
  match t_conns s !! i with
  | Some c =>
      if negb (c_closed c) && (c_done c || t_cancelled s)
      then go_put (mkTel (t_mem s)
             (<[i := mkConn (c_reader c) (c_buf c) (c_start c) (c_end c) (c_max c) (c_err c) (c_line c) (c_done c) true]> (t_conns s))
             (t_lines s) (t_out s) (t_cancelled s) (t_writer s) (t_returned s)
             (notifyCloser_Close tr (t_next s)))
      else mret tt
  | None => mret tt
  end.

(** [writeLines]: it receives a line or learns that the context is done; it
    appends the newline, which writes behind the line if its array has room; and
    it passes what the slice then holds to [Write].  Between these steps the
    scanners go on. *)
Definition set_writer (w : Writer) (m : Mem) (ls : list Slice) (out : list bytes) (s : Tel) : Tel :=
  mkTel m (t_conns s) ls out (t_cancelled s) w (t_returned s) (t_next s).

Definition receive_step (ctxDone : bool) : GoM Tel unit :=
  s ← go_get;
  match t_writer s with
  | WSelect =>
      if ctxDone && t_cancelled s then go_put (set_writer WEnded (t_mem s) (t_lines s) (t_out s) s)
      else match t_lines s with
           | [] => mret tt
           | l :: ls => go_put (set_writer (WLine l) (t_mem s) ls (t_out s) s)
           end
  | _ => mret tt
  end.

Definition append_step : GoM Tel unit :=
  s ← go_get;
  match t_writer s with
  | WLine l =>
      let (l', m) := append_byte l NL (t_mem s) in
      go_put (set_writer (WAppended l') m (t_lines s) (t_out s) s)
  | _ => mret tt
  end.

Definition write_step : GoM Tel unit :=
  s ← go_get;
  match t_writer s with
  | WAppended l => go_put (set_writer WSelect (t_mem s) (t_lines s) (t_out s ++ [slice_bytes (t_mem s) l]) s)
  | _ => mret tt
  end.

(** ** Accepting connections *)

(** What [ListenPacket] yields: a socket, an error of the network with what is
    known of it, or another error. *)
Inductive ListenResult :=
| LConn (packets : list bytes)
| LOpError (temporary : bool) (syscall : option string) (msg : string)
| LError (msg : string).

(** The loop of [AcceptUDP], as far as the results go.  An error that is not one
    of the network leaves [netErr] nil, and its field is read. *)
Fixpoint listen_loop (rs : list ListenResult) : outcome (option (list bytes + string)) :=
  match rs with
  | [] => Ret None
  | LConn packets :: _ => Ret (Some (inl packets))
  | LError _ :: _ => Panic "invalid memory address or nil pointer dereference"
  | LOpError temporary syscall msg :: rs' =>
      if negb temporary && match syscall with Some s => bool_decide (s = "bind") | None => true end
      then Ret (Some (inr msg))
      else listen_loop rs'
  end.

(** A call of [accept] ends: on a listener of TCP, with a connection or an
    error; for UDP after the results of [ListenPacket], or because its context
    is done. *)
Inductive Accepted :=
| AConn (data : bytes)
| AErr (msg : string)
| AListen (rs : list ListenResult)
| ACtxDone (msg : string).

(** [AcceptTCP] and [AcceptUDP]: [None] while the call blocks, and what is left
    in [next]. *)
Definition AcceptTCP (a : Accepted) : outcome (option (Reader + string)) :=
  Ret match a with
      | AConn data => Some (inl (RStream data 0))
      | AErr msg => Some (inr msg)
      | _ => None
      end.

Definition AcceptUDP (a : Accepted) (next : nat) : outcome (option (Reader + string) * nat) :=
  match a with
  | ACtxDone msg => Ret (Some (inr msg), next)
  | AListen rs =>
      if bool_decide (next = 0) then Ret (None, next)
      else match listen_loop rs with
           | Panic e => Panic e
           | Ret None => Ret (None, next)
           | Ret (Some (inl packets)) => Ret (Some (inl (RPackets packets 0)), next - 1)
           | Ret (Some (inr msg)) => Ret (Some (inr msg), next - 1)
           end
  | _ => Ret (None, next)
  end.

Definition accept (tr : Transport) (a : Accepted) (next : nat) : outcome (option (Reader + string) * nat) :=
  match tr with
  | UDP => AcceptUDP a next
  | TCP => match AcceptTCP a with Ret r => Ret (r, next) | Panic e => Panic e end
  end.

(** A round of [WriteToByLine]: a connection gets its goroutines, an error is
    returned and cancels the context. *)
Definition new_conn (bufSize : nat) (r : Reader) (s : Tel) (next : nat) : Tel :=
  mkTel (t_mem s ++ [replicate bufSize zero])
    (t_conns s ++ [mkConn r (length (t_mem s)) 0 0
       (if bool_decide (0 < bufSize) then bufSize else MaxScanTokenSize) None None false false])
    (t_lines s) (t_out s) (t_cancelled s) (t_writer s) (t_returned s) next.

Definition accept_step (tr : Transport) (bufSize : nat) (a : Accepted) : GoM Tel unit :=
  s ← go_get;
  match t_returned s with
  | Some _ => mret tt
  | None =>
      match accept tr a (t_next s) with
      | Panic e => go_panic e
      | Ret (None, _) => mret tt
      | Ret (Some (inl r), next) => go_put (new_conn bufSize r s next)
      | Ret (Some (inr e), next) =>
          go_put (mkTel (t_mem s) (t_conns s) (t_lines s) (t_out s) true (t_writer s) (Some e) next)
      end
  end.

(** [WriteToByLine] with the goroutines it starts: who takes the next step, and
    what the world answers. *)
Inductive Choice :=
| ChAccept (a : Accepted)
| ChScan (i : nat) (res : option nat)
| ChSend (i : nat) (ctxDone : bool)
| ChClose (i : nat)
| ChReceive (ctxDone : bool)
| ChAppend
| ChWrite.

Definition tel_step (tr : Transport) (bufSize : nat) (ch : Choice) : GoM Tel unit :=
  match ch with
  | ChAccept a => accept_step tr bufSize a
  | ChScan i res => scan_step i res
  | ChSend i ctxDone => send_step i ctxDone
  | ChClose i => close_step tr i
  | ChReceive ctxDone => receive_step ctxDone
  | ChAppend => append_step
  | ChWrite => write_step
  end.

Definition WriteToByLine (tr : Transport) : Tel :=
  mkTel [] [] [] [] false WSelect None (match tr with TCP => 0 | UDP => 1 end).

Fixpoint tel_run (tr : Transport) (bufSize : nat) (chs : list Choice) : GoM Tel unit :=
  match chs with
  | [] => mret tt
  | ch :: chs' => tel_step tr bufSize ch ;; tel_run tr bufSize chs'
  end.

(** ** The lines of a text *)

(** The reference: a text cut at its newlines, without carriage returns before
    them; what follows the last newline is a line if there is something. *)
Fixpoint lines_from (cur l : bytes) : list bytes :=
  match l with
  | [] => if bool_decide (cur = []) then [] else [dropCR cur]
  | c :: l' => if bool_decide (c = NL) then dropCR cur :: lines_from [] l' else lines_from (cur ++ [c]) l'
  end.

Definition lines_of (l : bytes) : list bytes := lines_from [] l.

(** Nothing follows the last newline. *)
Definition complete (l : bytes) : Prop := l = [] ∨ ∃ l', l = l' ++ [NL].

(** No run of [n] bytes is without a newline. *)
Definition short (n : nat) (l : bytes) : Prop := ∀ a b d, l = a ++ b ++ d → NL ∉ b → length b < n.

Lemma IndexByte_Some l i :
  IndexByte NL l = Some i → (l = take i l ++ (NL :: drop (S i) l)) ∧ (NL ∉ take i l) ∧ i < length l.
Proof.
  revert i. induction l as [|c l IH]; intros i; cbn; [done|]. case_bool_decide as E.
  { intros [= <-]. subst. cbn. split; [done|]. split; [apply not_elem_of_nil|lia]. }
  intros (j & Hj & ->)%fmap_Some. destruct (IH j Hj) as (Hl & Hn & Hlt). cbn. split; [by rewrite <- Hl|].
  split; [|lia]. rewrite not_elem_of_cons. done.
Qed.

Lemma IndexByte_None l : IndexByte NL l = None → NL ∉ l.
Proof.
  induction l as [|c l IH]; cbn; intros H; [apply not_elem_of_nil|]. case_bool_decide; [done|].
  apply fmap_None in H. rewrite not_elem_of_cons. auto.
Qed.

Lemma IndexByte_nl l : NL ∈ l → ∃ i, IndexByte NL l = Some i.
Proof.
  intros Hl. destruct (IndexByte NL l) as [i|] eqn:E; [eauto|]. by apply IndexByte_None in E.
Qed.

Lemma lines_from_line cur a b :
  NL ∉ a → lines_from cur (a ++ NL :: b) = dropCR (cur ++ a) :: lines_of b.
Proof.
  revert cur. induction a as [|c a IH]; intros cur Ha; cbn.
  { by rewrite app_nil_r. }
  apply not_elem_of_cons in Ha as [Hc Ha]. rewrite bool_decide_eq_false_2 by done.
  rewrite IH by done. by rewrite <- app_assoc.
Qed.

Lemma lines_from_rest cur a : NL ∉ a → cur ++ a ≠ [] → lines_from cur a = [dropCR (cur ++ a)].
Proof.
  revert cur. induction a as [|c a IH]; intros cur Ha Hne; cbn.
  { rewrite app_nil_r in *. by rewrite bool_decide_eq_false_2. }
  apply not_elem_of_cons in Ha as [Hc Ha]. rewrite bool_decide_eq_false_2 by done.
  rewrite IH; [by rewrite <- app_assoc|done|]. by destruct cur.
Qed.

Lemma lines_from_nl cur x y : lines_from cur ((x ++ [NL]) ++ y) = (lines_from cur (x ++ [NL]) ++ lines_of y).
Proof.
  revert cur. induction x as [|c x IH]; intros cur; cbn; [done|]. case_bool_decide; [|apply IH].
  cbn. by rewrite IH.
Qed.

Lemma lines_of_app x y : complete x → lines_of (x ++ y) = lines_of x ++ lines_of y.
Proof. intros [->|(x' & ->)]; [done|]. apply lines_from_nl. Qed.

Lemma nl_last (l : bytes) : NL ∈ l ++ [NL].
Proof. apply elem_of_app. right. by apply list_elem_of_singleton. Qed.

Lemma complete_line x a : complete (x ++ a ++ [NL]).
Proof. right. exists (x ++ a). by rewrite <- app_assoc. Qed.

Lemma complete_app x y : complete x → complete y → complete (x ++ y).
Proof.
  intros Hx [->|(y' & ->)]; [by rewrite app_nil_r|]. right. exists (x ++ y'). by rewrite <- app_assoc.
Qed.

Lemma complete_drop n x : complete x → complete (drop n x).
Proof.
  intros [->|(y & ->)]; [left; apply drop_nil|]. destruct (decide (n ≤ length y)).
  - right. exists (drop n y). rewrite drop_app. f_equal. by replace (n - length y) with 0 by lia.
  - left. apply drop_ge. rewrite length_app. cbn. lia.
Qed.

(** A round of [ScanLines] on what follows a complete text takes the next line
    of the reference. *)
Lemma dropCR_prefix l : dropCR l = take (length (dropCR l)) l.
Proof.
  unfold dropCR. destruct (last l) as [c|] eqn:E; [case_bool_decide|]; try (by rewrite firstn_all).
  rewrite length_take. f_equal. lia.
Qed.

Lemma ScanLines_line x data eof adv len :
  complete x → ScanLines data eof = (adv, Some len) →
  0 < adv ≤ length data ∧ len ≤ adv ∧
  lines_of (x ++ take adv data) = lines_of x ++ [take len data] ∧
  (complete (x ++ take adv data) ∧ len < adv ∨ eof = true ∧ adv = length data).
Proof.
  intros Hx. unfold ScanLines. destruct (IndexByte NL data) as [i|] eqn:E.
  - intros [= <- <-]. destruct (IndexByte_Some _ _ E) as (Hd & Hn & Hi).
    assert (Hlen : length (dropCR (take i data)) ≤ i).
    { rewrite dropCR_prefix, length_take, length_take. lia. }
    assert (Ht : take (S i) data = take i data ++ [NL]).
    { apply take_S_r. rewrite Hd. apply list_lookup_middle. rewrite length_take. lia. }
    split; [lia|]. split; [lia|]. split; [|left; split; [rewrite Ht; apply complete_line|lia]].
    rewrite Ht, lines_of_app by done. f_equal. unfold lines_of. rewrite lines_from_line by done. cbn.
    unfold lines_of. cbn. f_equal. etransitivity; [apply dropCR_prefix|]. rewrite take_take. f_equal. lia.
  - destruct eof; cbn; [|done]. case_bool_decide as Hne; [|done]. intros [= <- <-].
    destruct data as [|c data]; [done|]. split; [cbn; lia|]. split.
    { rewrite dropCR_prefix, length_take. lia. }
    split; [|by right]. rewrite firstn_all, lines_of_app by done. f_equal. unfold lines_of.
    rewrite lines_from_rest; [|by apply IndexByte_None|done]. f_equal. apply dropCR_prefix.
Qed.

(** ** Copying *)

Lemma length_write_at pos b a : pos + length b ≤ length a → length (write_at pos b a) = length a.
Proof. intros. unfold write_at. rewrite !length_app, length_take, length_drop. lia. Qed.

Lemma sub_write_before off len pos b a :
  off + len ≤ pos → pos + length b ≤ length a → sub_bytes off len (write_at pos b a) = sub_bytes off len a.
Proof.
  intros H1 H2. unfold sub_bytes, write_at. rewrite drop_app, take_app, length_drop, length_take.
  replace (len - (pos `min` length a - off)) with 0 by lia. rewrite take_0, app_nil_r.
  rewrite skipn_firstn_comm, take_take. f_equal. lia.
Qed.

Lemma sub_write_after off len pos b a :
  pos + length b ≤ off → pos + length b ≤ length a → sub_bytes off len (write_at pos b a) = sub_bytes off len a.
Proof.
  intros H1 H2. unfold sub_bytes, write_at. rewrite app_assoc, drop_app, length_app, length_take.
  rewrite (drop_ge (_ ++ _)) by (rewrite length_app, length_take; lia). cbn. rewrite drop_drop. do 2 f_equal. lia.
Qed.

Lemma sub_write_same pos b a : pos + length b ≤ length a → sub_bytes pos (length b) (write_at pos b a) = b.
Proof.
  intros H. unfold sub_bytes, write_at. rewrite drop_app_length' by (rewrite length_take; lia).
  by rewrite take_app_length.
Qed.

Lemma sub_split off n k a : sub_bytes off (n + k) a = sub_bytes off n a ++ sub_bytes (off + n) k a.
Proof. unfold sub_bytes. rewrite <- drop_drop. symmetry. apply take_take_drop. Qed.

Lemma length_sub off len a : off + len ≤ length a → length (sub_bytes off len a) = len.
Proof. intros. unfold sub_bytes. rewrite length_take, length_drop. lia. Qed.

(** ** A connection and what it has received *)

Definition with_nl (d : bytes) : bytes := if bool_decide (last d = Some NL) then d else d ++ [NL].

(** What a reader has yielded, if no datagram was cut. *)
Definition received (r : Reader) : bytes :=
  match r with
  | RStream data taken => take taken data
  | RPackets packets taken => concat (with_nl <$> take taken packets)
  end.

(** Every datagram fits into the room that is always left for it: half of the
    buffer, less two bytes. *)
Definition packet_fits (bufSize : nat) (d : bytes) : Prop := 0 < length d ∧ length d + 2 ≤ bufSize - bufSize / 2.

Definition fits (bufSize : nat) (r : Reader) : Prop :=
  match r with
  | RStream _ _ => True
  | RPackets packets _ => 3 ≤ bufSize ∧ Forall (packet_fits bufSize) packets
  end.

Definition is_packets (r : Reader) : bool := match r with RPackets _ _ => true | RStream _ _ => false end.

Record conn_wf (bufSize : nat) (m : Mem) (c : Conn) : Prop := {
  cw_buf : c_buf c < length m;
  cw_range : c_done c = false → c_start c ≤ c_end c ∧ c_end c ≤ length (m !!! c_buf c);
  cw_max : 0 < c_max c;
  cw_fits : fits bufSize (c_reader c);
  cw_packets : c_done c = false → is_packets (c_reader c) = true →
    length (m !!! c_buf c) = bufSize ∧ complete (window m c);
  cw_long : c_err c = Some ErrTooLong → ¬ short (c_max c) (received (c_reader c)) ∧ c_done c = true;
}.

Lemma length_window bufSize m c :
  conn_wf bufSize m c → c_done c = false → length (window m c) = c_end c - c_start c.
Proof. intros W Hd. destruct (cw_range _ _ _ W Hd). unfold window. rewrite length_sub; lia. Qed.

Lemma lookup_on_array i f (m : Mem) : i < length m → on_array i f m !!! i = f (m !!! i).
Proof.
  intros Hi. destruct (lookup_lt_is_Some_2 m i Hi) as [a Ha].
  rewrite (list_lookup_total_correct m i a) by done. apply list_lookup_total_correct.
  unfold on_array. by rewrite list_lookup_alter_eq, Ha.
Qed.

Lemma lookup_on_array_ne i j f (m : Mem) : i ≠ j → on_array i f m !!! j = m !!! j.
Proof. intros Hne. rewrite !list_lookup_total_alt. unfold on_array. by rewrite list_lookup_alter_ne. Qed.

Lemma lookup_app_old (m m' : Mem) i : i < length m → (m ++ m') !!! i = m !!! i.
Proof. intros. by rewrite lookup_total_app_l. Qed.

Lemma lookup_app_new (m : Mem) a : (m ++ [a]) !!! length m = a.
Proof. by rewrite lookup_total_app_r, Nat.sub_diag by lia. Qed.

(** [m'] differs from [m] in new arrays, and in the array [i] from [n] on. *)
Definition same_until (i n : nat) (m m' : Mem) : Prop :=
  length m ≤ length m' ∧ ∀ j, j < length m →
    length (m' !!! j) = length (m !!! j) ∧
    ∀ off len, (j = i → off + len ≤ n) → sub_bytes off len (m' !!! j) = sub_bytes off len (m !!! j).

Lemma same_until_refl i n m : same_until i n m m.
Proof. by split. Qed.

Lemma same_until_trans i n m1 m2 m3 : same_until i n m1 m2 → same_until i n m2 m3 → same_until i n m1 m3.
Proof.
  intros [L1 H1] [L2 H2]. split; [lia|]. intros j Hj. destruct (H1 j Hj) as [E1 S1], (H2 j ltac:(lia)) as [E2 S2].
  split; [congruence|]. intros off len Ho. by rewrite S2, S1.
Qed.

Lemma same_until_write i n pos b m :
  n ≤ pos → pos + length b ≤ length (m !!! i) → same_until i n m (on_array i (write_at pos b) m).
Proof.
  intros Hn Hl. split; [unfold on_array; by rewrite length_alter|]. intros j Hj. destruct (decide (i = j)) as [<-|Hne].
  - rewrite lookup_on_array by done. split; [by apply length_write_at|].
    intros off len Ho. apply sub_write_before; [|done]. specialize (Ho eq_refl). lia.
  - by rewrite lookup_on_array_ne.
Qed.

Lemma same_until_app i n m a : same_until i n m (m ++ [a]).
Proof. split; [rewrite length_app; lia|]. intros j Hj. by rewrite lookup_app_old. Qed.

Lemma same_until_write_to i n j pos b m m' :
  same_until i n m m' → j = i ∧ n ≤ pos ∨ j = length m → pos + length b ≤ length (m' !!! j) →
  same_until i n m (on_array j (write_at pos b) m').
Proof.
  intros Hs [[-> Hn]|Hj] Hl; [eapply same_until_trans; [done|by apply same_until_write]|].
  destruct Hs as [L H]. split; [unfold on_array; by rewrite length_alter|].
  intros k Hk. rewrite lookup_on_array_ne by lia. auto.
Qed.

Lemma same_until_le i n n' m m' : n' ≤ n → same_until i n m m' → same_until i n' m m'.
Proof.
  intros Hn [L H]. split; [done|]. intros j Hj. destruct (H j Hj) as [E S]. split; [done|].
  intros off len Ho. apply S. intros Hi. specialize (Ho Hi). lia.
Qed.

Ltac cfields := cbn [set_done set_err c_reader c_buf c_start c_end c_max c_err c_line c_done c_closed] in *.

(** What [Read] yields is the next part of what the other end sends. *)
Lemma Read_spec bufSize room res r :
  fits bufSize r → 0 < room → (is_packets r = true → bufSize - bufSize / 2 ≤ room) →
  ∃ x, Read room res r = Ret x ∧
    match x with
    | RdBytes b r' =>
        length b ≤ room ∧ received r' = received r ++ b ∧ fits bufSize r' ∧ is_packets r' = is_packets r ∧
        (is_packets r = true → complete b)
    | _ => True
    end.
Proof.
  destruct r as [data taken|packets taken]; cbn [is_packets Read fits received]; intros Hf Hr Hp.
  - eexists. split; [done|]. unfold read_stream. destruct res as [[|n]|]; [done| |done]. case_bool_decide; [done|].
    split; [rewrite length_take; lia|]. cbn. split; [|done]. by rewrite take_take_drop.
  - destruct Hf as [Hb Hf]. specialize (Hp eq_refl). 
    pose proof (Nat.div_mod_eq bufSize 2). pose proof (Nat.mod_upper_bound bufSize 2 ltac:(lia)).
    unfold newlineReader_Read. rewrite bool_decide_eq_false_2 by lia.
    destruct res as [[|n]|]; [by eexists| |by eexists]. destruct (packets !! taken) as [d|] eqn:E; [|by eexists].
    destruct (Forall_lookup_1 _ _ _ _ Hf E) as [Hd1 Hd2]. rewrite take_ge by lia.
    destruct (last d) as [c|] eqn:El; [|apply last_None in El; subst; cbn in *; lia].
    eexists. split; [done|]. cbn [received fits is_packets].
    assert (Hw : (if bool_decide (c = NL) then d else d ++ [NL]) = with_nl d).
    { unfold with_nl. rewrite El. by repeat case_bool_decide; simplify_eq. }
    rewrite Hw. clear Hw. split; [|split; [|split; [done|split; [done|]]]].
    + unfold with_nl. case_bool_decide; [|rewrite length_app; cbn [length]]; lia.
    + rewrite (take_S_r _ _ _ E), fmap_app, concat_app. cbn. by rewrite app_nil_r.
    + intros _. right. unfold with_nl. case_bool_decide as Hl; [|by eexists]. apply last_Some in Hl. done.
Qed.

Lemma shift_spec bufSize m c m1 c1 :
  conn_wf bufSize m c → c_done c = false → shift m c = (m1, c1) →
  conn_wf bufSize m1 c1 ∧ window m1 c1 = window m c ∧
  same_until (c_buf c) (if shifts m c then 0 else c_start c) m m1 ∧
  c1 = mkConn (c_reader c) (c_buf c) (if shifts m c then 0 else c_start c)
         (if shifts m c then c_end c - c_start c else c_end c) (c_max c) (c_err c) (c_line c) (c_done c) (c_closed c) ∧
  (c_start c1 = 0 ∨ c_end c1 ≠ length (m1 !!! c_buf c) ∧ c_start c1 ≤ length (m1 !!! c_buf c) / 2).
Proof.
  intros W Hd. pose proof (length_window _ _ _ W Hd) as Hlw. destruct (cw_range _ _ _ W Hd) as [Hr1 Hr2].
  pose proof (cw_buf _ _ _ W) as Hb. unfold shift. destruct (shifts m c) eqn:Es; intros [= <- <-].
  - assert (Hla : length (on_array (c_buf c) (write_at 0 (window m c)) m !!! c_buf c) = length (m !!! c_buf c)).
    { rewrite lookup_on_array by done. apply length_write_at. lia. }
    assert (Hw : window (on_array (c_buf c) (write_at 0 (window m c)) m)
      (mkConn (c_reader c) (c_buf c) 0 (c_end c - c_start c) (c_max c) (c_err c) (c_line c) (c_done c) (c_closed c)) = window m c).
    { unfold window at 1. cbn. rewrite lookup_on_array, Nat.sub_0_r, <- Hlw by done. apply sub_write_same. lia. }
    split; [|split; [done|split; [apply same_until_write; lia|split; [done|by left]]]].
    constructor; cfields; [unfold on_array; by rewrite length_alter| |apply W|apply W| |].
    + intros _. lia.
    + intros _ Hp. rewrite Hla, Hw. by apply (cw_packets _ _ _ W).
    + intros He. by apply (cw_long _ _ _ W).
  - split; [by destruct c|]. split; [by destruct c|]. split; [apply same_until_refl|]. split; [by destruct c|].
    cfields. unfold shifts in Es. apply andb_false_iff in Es as [Es%bool_decide_eq_false|Es]; [left; lia|].
    apply orb_false_iff in Es as [Es1%bool_decide_eq_false Es2%bool_decide_eq_false]. right. split; [done|lia].
Qed.

Lemma grow_spec bufSize m c :
  conn_wf bufSize m c → c_done c = false → NL ∉ window m c → c_err c = None →
  (c_start c = 0 ∨ c_end c ≠ length (m !!! c_buf c) ∧ c_start c ≤ length (m !!! c_buf c) / 2) →
  match grow m c with
  | None => c_max c ≤ length (window m c)
  | Some (m2, c2) =>
      conn_wf bufSize m2 c2 ∧ window m2 c2 = window m c ∧ c_end c2 < length (m2 !!! c_buf c2) ∧
      (m2 = m ∧ c2 = c ∨
       is_packets (c_reader c) = false ∧ length m < length m2 ∧ same_until (c_buf c) (length (m !!! c_buf c)) m m2 ∧
       c2 = mkConn (c_reader c) (length m) 0 (c_end c - c_start c) (c_max c) (c_err c) (c_line c) (c_done c) (c_closed c))
  end.
Proof.
  intros W Hd Hn He Hs. pose proof (length_window _ _ _ W Hd) as Hlw. destruct (cw_range _ _ _ W Hd) as [Hr1 Hr2].
  unfold grow. case_bool_decide as Hfull; cbn [negb]; [|split; [done|split; [done|split; [lia|by left]]]].
  destruct Hs as [Hs|[]]; [|done]. case_bool_decide as Hmax; [lia|].
  set (size' := _ `min` _). assert (Hsize : length (m !!! c_buf c) < size').
  { unfold size'. case_bool_decide; unfold startBufSize; lia. }
  assert (Hp : is_packets (c_reader c) = false).
  { destruct (is_packets (c_reader c)) eqn:E; [|done]. destruct (cw_packets _ _ _ W Hd E) as [Hl [Hw|(w & Hw)]].
    - rewrite Hw in Hlw. cbn in Hlw. pose proof (cw_fits _ _ _ W) as Hf. destruct (c_reader c); [done|]. cbn in Hf. lia.
    - destruct Hn. rewrite Hw. apply nl_last. }
  assert (Hla : length (write_at 0 (window m c) (replicate size' zero)) = size').
  { rewrite length_write_at; rewrite length_replicate; lia. }
  set (c2 := mkConn _ _ _ _ _ _ _ _ _). set (m2 := m ++ _).
  assert (Hw : window m2 c2 = window m c).
  { unfold window at 1, m2, c2. cfields. rewrite lookup_app_new, Nat.sub_0_r, <- Hlw. apply sub_write_same.
    rewrite length_replicate. lia. }
  assert (Hl2 : length (m2 !!! c_buf c2) = size') by (unfold m2, c2; cfields; by rewrite lookup_app_new).
  split; [|split; [done|split; [unfold c2 in *; cfields; lia|]]].
  - constructor; unfold c2 in *; cfields; [unfold m2; rewrite length_app; cbn; lia|lia|apply W|apply W|congruence|by rewrite He].
  - right. split; [done|]. split; [unfold m2; rewrite length_app; cbn; lia|]. split; [apply same_until_app|done].
Qed.

(** What a round that reads does to a connection whose scanner has no line. *)
Record filled (bufSize : nat) (m : Mem) (c : Conn) (m' : Mem) (c' : Conn) : Prop := {
  fi_wf : conn_wf bufSize m' c';
  fi_line : c_line c' = None;
  fi_mem : same_until (c_buf c) (if shifts m c then 0 else c_start c) m m';
  fi_buf : c_buf c' = c_buf c ∧ (shifts m c = false → c_start c' = c_start c)
           ∨ c_buf c' = length m ∧ length m < length m';
  fi_text : (c_done c' = false ∧
             ∃ b, window m' c' = window m c ++ b ∧ received (c_reader c') = received (c_reader c) ++ b)
            ∨ c_done c' = true ∧ c_err c' = Some ErrTooLong ∧ c_reader c' = c_reader c;
}.

Lemma window_write bufSize m c b r :
  conn_wf bufSize m c → c_done c = false → length b ≤ length (m !!! c_buf c) - c_end c →
  window (on_array (c_buf c) (write_at (c_end c) b) m)
    (mkConn r (c_buf c) (c_start c) (c_end c + length b) (c_max c) (c_err c) (c_line c) (c_done c) (c_closed c))
  = window m c ++ b.
Proof.
  intros W Hd Hb. destruct (cw_range _ _ _ W Hd) as [Hr1 Hr2]. unfold window. cfields.
  rewrite lookup_on_array by apply W. replace (c_end c + length b - c_start c) with (c_end c - c_start c + length b) by lia.
  rewrite sub_split, sub_write_before by lia. f_equal.
  replace (c_start c + (c_end c - c_start c)) with (c_end c) by lia. apply sub_write_same. lia.
Qed.

(** Datagrams find half of the buffer, because nothing waits in it. *)
Lemma packets_room bufSize m c :
  conn_wf bufSize m c → c_done c = false → NL ∉ window m c → is_packets (c_reader c) = true →
  (c_start c = 0 ∨ c_end c ≠ length (m !!! c_buf c) ∧ c_start c ≤ length (m !!! c_buf c) / 2) →
  bufSize - bufSize / 2 ≤ length (m !!! c_buf c) - c_end c.
Proof.
  intros W Hd Hn Hp Hs. pose proof (length_window _ _ _ W Hd) as Hlw. destruct (cw_range _ _ _ W Hd).
  destruct (cw_packets _ _ _ W Hd Hp) as [Hsz Hc]. rewrite Hsz in *.
  assert (window m c = []) as Hw. { destruct Hc as [Hc|(w & Hw)]; [done|]. destruct Hn. rewrite Hw. apply nl_last. }
  rewrite Hw in Hlw. cbn in Hlw. lia.
Qed.

(** The same connection with another buffer. *)
Definition same_conn (c c' : Conn) : Prop :=
  c_reader c' = c_reader c ∧ c_max c' = c_max c ∧ c_err c' = c_err c ∧ c_line c' = c_line c ∧
  c_done c' = c_done c ∧ c_closed c' = c_closed c.

(** The buffer before a call of [Read]: what waits is kept, there is room, and
    no slice of it is touched unless what waits is moved. *)
Record prepared (bufSize : nat) (m : Mem) (c : Conn) (m2 : Mem) (c2 : Conn) : Prop := {
  pr_wf : conn_wf bufSize m2 c2;
  pr_window : window m2 c2 = window m c;
  pr_room : c_end c2 < length (m2 !!! c_buf c2);
  pr_packets : is_packets (c_reader c) = true → bufSize - bufSize / 2 ≤ length (m2 !!! c_buf c2) - c_end c2;
  pr_conn : same_conn c c2;
  pr_buf : c_buf c2 = c_buf c ∧ (shifts m c = false → c_start c2 = c_start c)
           ∨ c_buf c2 = length m ∧ length m < length m2;
  pr_mem : same_until (c_buf c) (if shifts m c then 0 else c_start c) m m2;
  pr_ready : shifts m2 c2 = false;
}.

Lemma not_shifts m c :
  (c_start c = 0 ∨ c_end c ≠ length (m !!! c_buf c) ∧ c_start c ≤ length (m !!! c_buf c) / 2) → shifts m c = false.
Proof.
  unfold shifts. intros [->|[H1 H2]]; [done|]. apply andb_false_iff. right. apply orb_false_iff.
  split; apply bool_decide_eq_false; [done|lia].
Qed.

Lemma length_shift m c : length (shift m c).1 = length m.
Proof. unfold shift. case_match; [|done]. cbn. unfold on_array. by rewrite length_alter. Qed.

Lemma prepare_spec bufSize m c m1 c1 :
  conn_wf bufSize m c → c_done c = false → c_err c = None → NL ∉ window m c → shift m c = (m1, c1) →
  same_until (c_buf c) (if shifts m c then 0 else c_start c) m m1 ∧ conn_wf bufSize m1 c1 ∧
  same_conn c c1 ∧ c_buf c1 = c_buf c ∧ (shifts m c = false → c_start c1 = c_start c) ∧
  match grow m1 c1 with
  | None => c_max c ≤ length (window m c)
  | Some (m2, c2) => prepared bufSize m c m2 c2
  end.
Proof.
  intros W Hd He Hn Es. pose proof (length_shift m c) as Hlen. rewrite Es in Hlen. cbn in Hlen.
  destruct (shift_spec _ _ _ _ _ W Hd Es) as (W1 & Hw1 & Hm1 & Hc1 & Hpost).
  set (n := if shifts m c then 0 else c_start c) in *.
  assert (Hs1 : shifts m c = false → c_start c1 = c_start c) by (intros Hs; by rewrite Hc1; unfold n; rewrite Hs).
  assert (Hsc : same_conn c c1 ∧ c_buf c1 = c_buf c) by (by rewrite Hc1). clear Hc1. destruct Hsc as [Hsc Hb1].
  split; [done|]. split; [done|]. split; [done|]. split; [done|]. split; [done|].
  destruct Hsc as (Hr1 & Hx1 & He1 & Hl1 & Hd1 & Hcl1). rewrite He in He1. rewrite Hd in Hd1. rewrite <- Hb1 in Hpost.
  pose proof (grow_spec _ _ _ W1 Hd1 ltac:(by rewrite Hw1) He1 Hpost) as Hg. rewrite Hw1 in Hg.
  destruct (grow m1 c1) as [[m2 c2]|]; [|by rewrite Hx1 in Hg].
  destruct Hg as (W2 & Hw2 & Hroom & [[-> ->]|(Hnp & Hlt & Hsame & Hc2)]).
  - constructor; try done; [|repeat split; congruence|by left|by apply not_shifts].
    intros Hp. apply (packets_room _ _ _ W1 Hd1); [by rewrite Hw1|by rewrite Hr1|done].
  - rewrite Hr1 in Hnp. constructor; try done; [congruence|rewrite Hc2; repeat split; cfields; congruence| | |by rewrite Hc2].
    + right. rewrite Hc2. cfields. by rewrite <- Hlen.
    + eapply same_until_trans; [done|]. rewrite Hb1 in Hsame. eapply same_until_le, Hsame.
      destruct (cw_range _ _ _ W Hd). destruct Hm1 as [_ Hm1]. destruct (Hm1 (c_buf c) ltac:(apply W)) as [Hl _].
      unfold n. case_match; lia.
Qed.

(** Bytes that are read follow what waits. *)
Lemma filled_bytes bufSize m c m2 c2 b r' :
  prepared bufSize m c m2 c2 → c_done c = false → c_line c = None → c_err c = None →
  length b ≤ length (m2 !!! c_buf c2) - c_end c2 → received r' = received (c_reader c) ++ b → fits bufSize r' →
  is_packets r' = is_packets (c_reader c) → (is_packets (c_reader c) = true → complete b) →
  filled bufSize m c (on_array (c_buf c2) (write_at (c_end c2) b) m2)
    (mkConn r' (c_buf c2) (c_start c2) (c_end c2 + length b) (c_max c2) (c_err c2) (c_line c2) (c_done c2) (c_closed c2)).
Proof.
  intros P Hd Hl He Hlen Hrec Hfit Hpk Hcmp. destruct (pr_conn _ _ _ _ _ P) as (Hr2 & Hx2 & He2 & Hl2 & Hd2 & _).
  rewrite Hd in Hd2. rewrite He in He2. rewrite Hl in Hl2.
  pose proof (pr_wf _ _ _ _ _ P) as W2. pose proof (pr_window _ _ _ _ _ P) as Hw2.
  assert (Hww := window_write _ _ _ b r' W2 Hd2 Hlen). rewrite Hw2 in Hww.
  destruct (cw_range _ _ _ W2 Hd2) as [R1 R2].
  assert (Hla : length (on_array (c_buf c2) (write_at (c_end c2) b) m2 !!! c_buf c2) = length (m2 !!! c_buf c2)).
  { rewrite lookup_on_array by apply W2. apply length_write_at. lia. }
  constructor; cfields; [|done| | |].
  - constructor; cfields; [unfold on_array; rewrite length_alter; apply W2| |apply W2|done| |by rewrite He2].
    + intros _. rewrite Hla. lia.
    + intros _ Hp. rewrite Hpk in Hp. rewrite Hla. rewrite <- Hr2 in Hp. destruct (cw_packets _ _ _ W2 Hd2 Hp) as [Hsz Hcw].
      split; [done|]. rewrite Hww. rewrite Hw2 in Hcw. rewrite Hr2 in Hp. auto using complete_app.
  - apply same_until_write_to; [apply P| |lia]. destruct (pr_buf _ _ _ _ _ P) as [[Hb Hst]|[-> _]]; [left|by right].
    split; [done|]. destruct (shifts m c); [lia|]. rewrite <- Hst by done. lia.
  - unfold on_array. rewrite length_alter. apply P.
  - left. split; [done|]. exists b. by rewrite Hww.
Qed.

Lemma fill_spec bufSize m c res consumed :
  conn_wf bufSize m c → c_done c = false → c_line c = None → c_err c = None → NL ∉ window m c →
  received (c_reader c) = consumed ++ window m c →
  ∃ m' c', fill res m c = Ret (m', c') ∧ filled bufSize m c m' c'.
Proof.
  intros W Hd Hl He Hn Hrec. unfold fill. destruct (shift m c) as [m1 c1] eqn:Es.
  destruct (prepare_spec _ _ _ _ _ W Hd He Hn Es) as (Hm1 & W1 & (Hr1 & Hx1 & _) & Hb1 & Hs1 & Hg).
  destruct (grow m1 c1) as [[m2 c2]|]; last first.
  { do 2 eexists. split; [done|]. constructor; cfields; [|done|done|by left|by right].
    constructor; cfields; [apply W1|done|apply W1|apply W1|done|].
    intros _. split; [|done]. intros Hsh. rewrite Hr1, Hx1, Hrec in Hsh.
    specialize (Hsh consumed (window m c) []). rewrite app_nil_r in Hsh. specialize (Hsh eq_refl Hn). lia. }
  destruct (pr_conn _ _ _ _ _ Hg) as (Hr2 & Hx2 & He2 & Hl2 & Hd2 & _). rewrite Hd in Hd2. rewrite Hl in Hl2.
  set (room := length (m2 !!! c_buf c2) - c_end c2).
  destruct (Read_spec bufSize room res (c_reader c)) as (x & Hx & Hread);
    [apply W|pose proof (pr_room _ _ _ _ _ Hg); unfold room; lia|apply Hg|].
  assert (Hblk : filled bufSize m c m2 c2).
  { constructor; [apply Hg|done|apply Hg|apply Hg|]. left. split; [done|]. exists []. rewrite !app_nil_r, Hr2.
    split; [apply Hg|done]. }
  assert (Hrd : filled bufSize m c m2 (set_err ErrRead c2)).
  { constructor; cfields; [|done|apply Hg|apply Hg|].
    - destruct (pr_wf _ _ _ _ _ Hg). by constructor; cfields.
    - left. split; [done|]. exists []. rewrite !app_nil_r. split; [|by rewrite Hr2].
      etransitivity; [|apply (pr_window _ _ _ _ _ Hg)]. done. }
  destruct (c_closed c2) eqn:Hcl; [by do 2 eexists|]. rewrite Hr2, Hx. destruct x as [b r'| |]; [|by do 2 eexists|by do 2 eexists].
  destruct Hread as (Hlen & Hrec' & Hfit & Hpk & Hcmp). do 2 eexists. split; [done|].
  rewrite <- Hcl. by apply filled_bytes.
Qed.

(** ** The invariant *)

(** Lines with the connection they came from. *)
Abbreviation tagged := (list (nat * bytes)).

Definition of_conn (i : nat) (l : tagged) : list bytes := (filter (λ p, p.1 = i) l).*2.

Lemma of_conn_app i l l' : of_conn i (l ++ l') = of_conn i l ++ of_conn i l'.
Proof. unfold of_conn. by rewrite filter_app, fmap_app. Qed.

Lemma of_conn_one i j b : of_conn i [(j, b)] = if decide (j = i) then [b] else [].
Proof. unfold of_conn. rewrite filter_cons. cbn. by repeat case_decide. Qed.

(** What a connection has sent, against what it received. *)
Definition conn_text (cancelled : bool) (m : Mem) (c : Conn) (sent : list bytes) : Prop :=
  if c_done c
  then sent `prefix_of` lines_of (received (c_reader c)) ∧
       (cancelled = false → c_err c ≠ Some ErrTooLong → sent = lines_of (received (c_reader c)))
  else ∃ consumed, received (c_reader c) = consumed ++ window m c ∧
       lines_of consumed = sent ++ option_list (slice_bytes m <$> c_line c) ∧
       (complete consumed ∨ c_err c ≠ None ∧ window m c = []).

(** A slice lies before what waits in the buffer. *)
Definition behind (c : Conn) (l : Slice) : Prop :=
  c_done c = true ∨ sl_off l + sl_len l < c_start c ∨
  c_err c ≠ None ∧ c_start c = c_end c ∧ sl_off l + sl_len l ≤ c_start c.

Definition in_mem (m : Mem) (l : Slice) : Prop :=
  sl_arr l < length m ∧ sl_off l + sl_len l ≤ length (m !!! sl_arr l).

Definition before (a b : Slice) : Prop := sl_arr a = sl_arr b → sl_off a + sl_len a < sl_off b.

(** The lines that are to be written: the one that was received, and those in
    the channel; and the line that has its newline. *)
Definition queue (s : Tel) : list Slice :=
  match t_writer s with WLine l => l :: t_lines s | _ => t_lines s end.
Definition appended (s : Tel) : list bytes :=
  match t_writer s with WAppended l => [slice_bytes (t_mem s) l] | _ => [] end.

(** A line with its newline lies before what waits in the buffer, or nothing
    more is read into it. *)
Definition past (c : Conn) (l : Slice) : Prop :=
  c_done c = true ∨ sl_off l + sl_len l ≤ c_start c ∨ c_err c ≠ None ∧ c_start c = c_end c.

Record tel_inv (bufSize : nat) (s : Tel) (written pending : tagged) : Prop := {
  ti_out : t_out s ++ appended s = (λ p, p.2 ++ [NL]) <$> written;
  ti_pending : slice_bytes (t_mem s) <$> queue s = pending.*2;
  ti_tags : ∀ p, p ∈ written ++ pending → p.1 < length (t_conns s);
  ti_bufs : ∀ i j ci cj, t_conns s !! i = Some ci → t_conns s !! j = Some cj → c_buf ci = c_buf cj → i = j;
  ti_wf : ∀ i c, t_conns s !! i = Some c → conn_wf bufSize (t_mem s) c;
  ti_text : ∀ i c, t_conns s !! i = Some c → conn_text (t_cancelled s) (t_mem s) c (of_conn i (written ++ pending));
  ti_lines : ∀ l, l ∈ queue s → in_mem (t_mem s) l;
  ti_behind : ∀ l i c, l ∈ queue s → t_conns s !! i = Some c → c_buf c = sl_arr l → behind c l;
  ti_order : StronglySorted before (queue s);
  ti_wait : ∀ i c l, t_conns s !! i = Some c → c_line c = Some l →
    sl_arr l = c_buf c ∧ in_mem (t_mem s) l ∧ behind c l ∧ c_done c = false ∧ ∀ a, a ∈ queue s → before a l;
  ti_writer : t_cancelled s = false → t_writer s ≠ WEnded;
  ti_app : ∀ l, t_writer s = WAppended l → in_mem (t_mem s) l ∧
    ∀ i c, t_conns s !! i = Some c → c_buf c = sl_arr l → past c l;
}.

(** A connection in a memory that has not changed where it looks. *)
Lemma conn_wf_mem bufSize m m' c :
  conn_wf bufSize m c → length m ≤ length m' → length (m' !!! c_buf c) = length (m !!! c_buf c) →
  (c_done c = false → window m' c = window m c) → conn_wf bufSize m' c.
Proof.
  intros [] Hl Ha Hw. constructor; [lia|by rewrite Ha|done|done| |done].
  intros Hd Hp. rewrite Ha, Hw by done. auto.
Qed.

Lemma conn_text_mem cancelled m m' c sent :
  conn_text cancelled m c sent → (c_done c = false → window m' c = window m c) →
  (∀ l, c_line c = Some l → slice_bytes m' l = slice_bytes m l) → conn_text cancelled m' c sent.
Proof.
  unfold conn_text. destruct (c_done c); [done|]. intros (x & H1 & H2 & H3) Hw Hl. exists x.
  rewrite Hw by done. split; [done|]. split; [|done]. rewrite H2. destruct (c_line c); cbn; [by rewrite Hl|done].
Qed.

(** [append] changes one byte at most, right behind the slice. *)
Lemma append_byte_spec l b m l' m' :
  in_mem m l → append_byte l b m = (l', m') →
  slice_bytes m' l' = slice_bytes m l ++ [b] ∧ length m ≤ length m' ∧
  (in_mem m' l' ∧ (sl_arr l' = sl_arr l ∧ sl_off l' = sl_off l ∧ sl_len l' = S (sl_len l) ∨ sl_arr l' = length m)) ∧
  ∀ j, j < length m → length (m' !!! j) = length (m !!! j) ∧
    ∀ off len, (j = sl_arr l → off + len ≤ sl_off l + sl_len l ∨ sl_off l + sl_len l < off ∨ len = 0) →
      sub_bytes off len (m' !!! j) = sub_bytes off len (m !!! j).
Proof.
  intros [Hi Hl]. unfold append_byte. case_bool_decide as Hroom; intros [= <- <-].
  - unfold on_array at 2. rewrite length_alter. split; [|split; [done|split; [split; [|by left]|]]].
    2: { split; cbn [sl_arr sl_off sl_len]; [unfold on_array; by rewrite length_alter|].
         rewrite lookup_on_array, length_write_at by (cbn; lia). lia. }
    + unfold slice_bytes. cbn [sl_arr sl_off sl_len]. rewrite lookup_on_array by done.
      replace (S (sl_len l)) with (sl_len l + 1) by lia. rewrite sub_split, sub_write_before by (cbn; lia).
      f_equal. apply (sub_write_same _ [b]). cbn. lia.
    + intros j Hj. destruct (decide (j = sl_arr l)) as [->|Hne]; [|by rewrite lookup_on_array_ne].
      rewrite lookup_on_array by done. split; [apply length_write_at; cbn; lia|]. intros off len Ho.
      destruct (Ho eq_refl) as [?|[?| ->]]; [apply sub_write_before|apply sub_write_after|done]; cbn; lia.
  - split; [|split; [rewrite length_app; lia|split; [split; [|by right]|]]].
    2: { split; cbn [sl_arr sl_off sl_len]; [rewrite length_app; cbn; lia|]. rewrite lookup_app_new, length_app.
         unfold slice_bytes. rewrite length_sub by done. cbn. lia. }
    + unfold slice_bytes at 1. cbn [sl_arr sl_off sl_len]. rewrite lookup_app_new. unfold sub_bytes. cbn.
      apply firstn_all2. unfold slice_bytes. rewrite length_app, length_sub by done. cbn. lia.
    + intros j Hj. by rewrite lookup_app_old.
Qed.

Lemma in_mem_same m m' l :
  in_mem m l → length m ≤ length m' → length (m' !!! sl_arr l) = length (m !!! sl_arr l) → in_mem m' l.
Proof. intros [H1 H2] Hl Ha. split; [lia|by rewrite Ha]. Qed.

(** A step keeps the invariant, with some lines written and some waiting. *)
Definition keeps_inv (bufSize : nat) (s : Tel) (m : GoM Tel unit) : Prop :=
  ∃ s' written pending, m s = (Ret tt, s') ∧ tel_inv bufSize s' written pending.

(** The goroutine that writes takes a step which leaves the lines as they are. *)
Lemma writer_inv bufSize s written pending w ls out :
  tel_inv bufSize s written pending →
  let s' := set_writer w (t_mem s) ls out s in
  queue s' = queue s → out ++ appended s' = t_out s ++ appended s →
  (t_cancelled s = false → w ≠ WEnded) → (∀ l, w ≠ WAppended l) → tel_inv bufSize s' written pending.
Proof.
  intros [] s' Hq Ho Hw Ha. constructor; rewrite ?Hq; cbn [s' set_writer t_mem t_conns t_out t_cancelled t_writer]; try done.
  - by rewrite Ho.
  - intros l E. by destruct (Ha l).
Qed.

Lemma receive_inv bufSize s written pending ctxDone :
  tel_inv bufSize s written pending → keeps_inv bufSize s (receive_step ctxDone).
Proof.
  intros I. unfold keeps_inv, receive_step. rewrite bind_get.
  destruct (t_writer s) eqn:Hw; try by exists s, written, pending.
  destruct (ctxDone && t_cancelled s) eqn:Hc.
  { apply andb_true_iff in Hc as [_ Hc]. eexists _, written, pending. split; [done|].
    apply writer_inv; unfold queue, appended; cbn; rewrite ?Hw; try done; congruence. }
  destruct (t_lines s) as [|l ls] eqn:El; [by exists s, written, pending|].
  eexists _, written, pending. split; [done|]. apply writer_inv; unfold queue, appended; cbn; by rewrite ?Hw, ?El.
Qed.

Lemma write_inv bufSize s written pending :
  tel_inv bufSize s written pending → keeps_inv bufSize s write_step.
Proof.
  intros I. unfold keeps_inv, write_step. rewrite bind_get.
  destruct (t_writer s) as [| |l|] eqn:Hw; try by exists s, written, pending.
  eexists _, written, pending. split; [done|].
  apply writer_inv; unfold queue, appended; cbn; rewrite ?Hw; try done. by rewrite app_nil_r.
Qed.

Lemma append_inv bufSize s written pending :
  tel_inv bufSize s written pending → keeps_inv bufSize s append_step.
Proof.
  intros I. unfold keeps_inv, append_step. rewrite bind_get.
  destruct (t_writer s) as [|l| |] eqn:Hwr; try by exists s, written, pending.
  assert (El : queue s = l :: t_lines s) by (unfold queue; by rewrite Hwr). set (ls := t_lines s) in *.
  pose proof (ti_pending _ _ _ _ I) as Hp. rewrite El in Hp. destruct pending as [|[i b] pending]; [done|].
  injection Hp as Hb Hp. destruct (append_byte l NL (t_mem s)) as [l' m'] eqn:Ea.
  pose proof (ti_lines _ _ _ _ I) as Hin. pose proof (ti_order _ _ _ _ I) as Ho. rewrite El in Hin, Ho.
  apply StronglySorted_inv in Ho as [Ho Hbef].
  destruct (append_byte_spec _ _ _ _ _ (Hin l ltac:(left)) Ea) as (Hl' & Hlen & (Hm' & Hplace) & Hsame).
  assert (Hll : l ∈ queue s) by (rewrite El; left).
  assert (Hwin : ∀ i c, t_conns s !! i = Some c → c_done c = false → window m' c = window (t_mem s) c).
  { intros j c Hj Hd. apply Hsame; [apply (ti_wf _ _ _ _ I j c Hj)|]. intros Hb'.
    pose proof (ti_behind _ _ _ _ I l j c Hll Hj Hb') as [?|[?|(_ & ? & ?)]]; [congruence|lia|lia]. }
  assert (Hsl : ∀ a, in_mem (t_mem s) a → before l a → slice_bytes m' a = slice_bytes (t_mem s) a).
  { intros a [Ha1 Ha2] Hb'. apply Hsame; [done|]. intros E. specialize (Hb' (eq_sym E)). lia. }
  assert (Hout : t_out s = (λ p, p.2 ++ [NL]) <$> written).
  { pose proof (ti_out _ _ _ _ I) as E. unfold appended in E. by rewrite Hwr, app_nil_r in E. }
  eexists _, (written ++ [(i, b)]), pending. split; [done|].
  constructor; unfold queue, appended; cbn [set_writer t_mem t_conns t_lines t_out t_cancelled t_writer].
  - rewrite Hout, fmap_app. cbn. by rewrite Hl', Hb.
  - etransitivity; [|exact Hp]. apply list_fmap_ext. intros k a Ha. apply Hsl.
    + apply Hin. right. by eapply list_elem_of_lookup_2.
    + by eapply (Forall_lookup_1 _ _ _ _ Hbef).
  - rewrite <- app_assoc. apply I.
  - apply I.
  - intros j c Hj. eapply conn_wf_mem; [by eapply I|done|apply Hsame; by eapply I|eauto].
  - intros j c Hj. rewrite <- app_assoc. eapply conn_text_mem; [by eapply I|eauto|].
    intros a Ha. destruct (ti_wait _ _ _ _ I j c a Hj Ha) as (_ & Hm & _ & _ & Hb'). by apply Hsl; [|apply Hb'].
  - intros a Ha. eapply in_mem_same; [apply Hin; by right|done|]. apply Hsame. apply Hin. by right.
  - intros a j c Ha. apply I. rewrite El. by right.
  - done.
  - intros j c a Hj Ha. destruct (ti_wait _ _ _ _ I j c a Hj Ha) as (H1 & H2 & H3 & H4 & H5).
    split; [done|]. split; [eapply in_mem_same; [done|done|]; apply Hsame, H2|]. split; [done|]. split; [done|].
    intros x Hx. apply H5. rewrite El. by right.
  - done.
  - intros a [= <-]. split; [done|]. intros j c Hj Hbuf. pose proof (cw_buf _ _ _ (ti_wf _ _ _ _ I j c Hj)).
    destruct Hplace as [(E1 & E2 & E3)|E]; [|lia].
    pose proof (ti_behind _ _ _ _ I l j c Hll Hj ltac:(congruence)) as [?|[?|(? & ? & ?)]].
    + by left.
    + right. left. lia.
    + by right; right.
Qed.

(** One connection changes, and the memory from [n] on of its array. *)
Lemma conn_update bufSize s written pending i c m' c' n :
  tel_inv bufSize s written pending → t_conns s !! i = Some c →
  same_until (c_buf c) n (t_mem s) m' → (∀ a, a ∈ queue s → sl_arr a = c_buf c → sl_off a + sl_len a ≤ n) →
  c_buf c' = c_buf c ∨ c_buf c' = length (t_mem s) →
  conn_wf bufSize m' c' →
  conn_text (t_cancelled s) m' c' (of_conn i (written ++ pending)) →
  (∀ a, a ∈ queue s → c_buf c' = sl_arr a → behind c' a) →
  (∀ l, c_line c' = Some l →
    sl_arr l = c_buf c' ∧ in_mem m' l ∧ behind c' l ∧ c_done c' = false ∧ ∀ a, a ∈ queue s → before a l) →
  (∀ l, t_writer s = WAppended l →
    slice_bytes m' l = slice_bytes (t_mem s) l ∧ (c_buf c' = sl_arr l → past c' l)) →
  tel_inv bufSize (set_conn i c' m' s) written pending.
Proof.
  intros I Hi [Hlen Hsame] Hn Hbuf Hwf Htext Hbeh Hwait Happ.
  assert (Hil : i < length (t_conns s)) by (by eapply lookup_lt_Some).
  assert (Hoth : ∀ j d, t_conns s !! j = Some d → i ≠ j → c_buf d ≠ c_buf c ∧ c_buf d ≠ c_buf c').
  { intros j d Hj Hne. assert (c_buf d ≠ c_buf c) as Hd.
    { intros E. destruct Hne. symmetry. by eapply (ti_bufs _ _ _ _ I). }
    split; [done|]. destruct Hbuf as [-> | ->]; [done|]. pose proof (cw_buf _ _ _ (ti_wf _ _ _ _ I j d Hj)). lia. }
  constructor; change (queue (set_conn i c' m' s)) with (queue s);
    cbn [set_conn t_mem t_conns t_lines t_out t_cancelled t_writer].
  - pose proof (ti_out _ _ _ _ I) as E. unfold appended in *. cbn [set_conn t_mem t_writer].
    destruct (t_writer s) as [| |l|] eqn:Hw; try exact E. by rewrite (proj1 (Happ l eq_refl)).
  - etransitivity; [|apply (ti_pending _ _ _ _ I)]. apply list_fmap_ext. intros k a Ha%list_elem_of_lookup_2.
    apply Hsame; [by apply (ti_lines _ _ _ _ I a Ha)|]. by apply Hn.
  - rewrite length_insert. apply I.
  - intros j k cj ck. rewrite !list_lookup_insert_Some.
    intros [(<- & <- & _)|(Hne & Hj)] [(<- & <- & _)|(Hne' & Hk)] E; [done| | |by eapply (ti_bufs _ _ _ _ I)].
    + destruct (Hoth _ _ Hk Hne') as [_ []]. congruence.
    + destruct (Hoth _ _ Hj Hne) as [_ []]. congruence.
  - intros j d [(<- & <- & _)|(Hne & Hj)]%list_lookup_insert_Some; [done|].
    destruct (Hsame (c_buf d)) as [Ha Hs]; [by apply (ti_wf _ _ _ _ I j d Hj)|].
    eapply conn_wf_mem; [by eapply I|done|done|]. intros _. apply Hs. by destruct (Hoth _ _ Hj Hne).
  - intros j d [(<- & <- & _)|(Hne & Hj)]%list_lookup_insert_Some; [done|].
    destruct (Hsame (c_buf d)) as [Ha Hs]; [by apply (ti_wf _ _ _ _ I j d Hj)|]. destruct (Hoth _ _ Hj Hne).
    eapply conn_text_mem; [by eapply I|intros _; by apply Hs|].
    intros l Hl. destruct (ti_wait _ _ _ _ I j d l Hj Hl) as (E & _). unfold slice_bytes. rewrite E. by apply Hs.
  - intros a Ha. pose proof (ti_lines _ _ _ _ I a Ha) as Hm. eapply in_mem_same; [done|done|]. by apply Hsame, Hm.
  - intros a j d Ha [(<- & <- & _)|(Hne & Hj)]%list_lookup_insert_Some; [by apply Hbeh|]. by apply (ti_behind _ _ _ _ I a j d).
  - apply I.
  - intros j d l [(<- & <- & _)|(Hne & Hj)]%list_lookup_insert_Some; [apply Hwait|]. intros Hl.
    destruct (ti_wait _ _ _ _ I j d l Hj Hl) as (H1 & H2 & H3). split; [done|]. split; [|done].
    eapply in_mem_same; [done|done|]. by apply Hsame, H2.
  - apply I.
  - intros l Hw. destruct (ti_app _ _ _ _ I l Hw) as [Hm Hp]. split.
    + eapply in_mem_same; [done|done|]. by apply Hsame, Hm.
    + intros j d [(<- & <- & _)|(Hne & Hj)]%list_lookup_insert_Some; [by apply Happ|by apply (Hp j d)].
Qed.

(** What the channel holds of the array of a connection lies before what waits
    in it. *)
Lemma lines_before bufSize s written pending i c :
  tel_inv bufSize s written pending → t_conns s !! i = Some c → c_done c = false →
  ∀ a, a ∈ queue s → sl_arr a = c_buf c → sl_off a + sl_len a ≤ c_start c.
Proof.
  intros I Hi Hd a Ha E. destruct (ti_behind _ _ _ _ I a i c Ha Hi (eq_sym E)) as [?|[?|(_ & ? & ?)]]; [congruence|lia|lia].
Qed.

(** A round moves what waits in the buffer. *)
Definition moves (m : Mem) (c : Conn) : bool :=
  negb (c_done c) && bool_decide (c_line c = None) && bool_decide (c_err c = None)
  && bool_decide ((ScanLines (window m c) false).2 = None) && shifts m c.

(** A scanner that finds a line. *)
Lemma found_inv bufSize s written pending i c adv len :
  tel_inv bufSize s written pending → t_conns s !! i = Some c → c_done c = false → c_line c = None →
  ScanLines (window (t_mem s) c) (bool_decide (c_err c ≠ None)) = (adv, Some len) →
  tel_inv bufSize
    (set_conn i (mkConn (c_reader c) (c_buf c) (c_start c + adv) (c_end c) (c_max c) (c_err c)
       (Some (mkSlice (c_buf c) (c_start c) len)) (c_done c) (c_closed c)) (t_mem s) s) written pending.
Proof.
  intros I Hi Hd Hl Hs. pose proof (ti_wf _ _ _ _ I i c Hi) as W. pose proof (ti_text _ _ _ _ I i c Hi) as T.
  unfold conn_text in T. rewrite Hd, Hl in T. cbn in T. destruct T as (x & Hrec & Hlines & Hx).
  rewrite app_nil_r in Hlines. pose proof (length_window _ _ _ W Hd) as Hlw.
  destruct Hx as [Hx|[He Hw]].
  2: { rewrite Hw in Hs. cbn in Hs. rewrite andb_false_r in Hs. done. }
  destruct (ScanLines_line _ _ _ _ _ Hx Hs) as (Hadv & Hlen & Hnew & Hend).
  destruct (cw_range _ _ _ W Hd) as [R1 R2]. rewrite Hlw in *.
  assert (Hsplit : window (t_mem s) c = take adv (window (t_mem s) c) ++ drop adv (window (t_mem s) c)) by (by rewrite take_drop).
  set (c' := mkConn _ _ _ _ _ _ _ _ _).
  assert (Hwin : window (t_mem s) c' = drop adv (window (t_mem s) c)).
  { unfold window, c', sub_bytes. cfields. rewrite skipn_firstn_comm, drop_drop. f_equal. lia. }
  assert (Hbeh : behind c' (mkSlice (c_buf c) (c_start c) len)).
  { right. unfold c'. cfields. cbn [sl_off sl_len]. destruct Hend as [[_ ?]|[He ->]]; [left; lia|right].
    apply bool_decide_eq_true in He. split; [done|lia]. }
  eapply (conn_update bufSize s written pending i c (t_mem s) c' (c_start c)); [done|done|apply same_until_refl|by eapply lines_before|by left| | | | |].
  - destruct W. constructor; unfold c' in *; cfields; try done; [lia|].
    intros _ Hp. destruct (cw_packets0 Hd Hp) as [Hsz Hcw]. split; [done|]. rewrite Hwin. by apply complete_drop.
  - unfold conn_text. replace (c_done c') with false. exists (x ++ take adv (window (t_mem s) c)).
    rewrite Hwin, <- app_assoc, take_drop. split; [done|]. split.
    + rewrite Hnew, Hlines. unfold c'. cfields. cbn. do 2 f_equal. unfold slice_bytes, window, sub_bytes. cbn.
      rewrite take_take. f_equal. lia.
    + destruct Hend as [[Hc _]|[He ->]]; [by left|right]. apply bool_decide_eq_true in He. split; [done|].
      apply drop_ge. lia.
  - intros a Ha E. destruct (ti_behind _ _ _ _ I a i c Ha Hi E) as [?|[?|(? & ? & ?)]]; [congruence| |].
    + right. left. unfold c'. cfields. lia.
    + lia.
  - unfold c'. cfields. intros l [= <-]. cbn [sl_arr]. split; [done|]. split; [split; cbn; [apply W|lia]|].
    split; [done|]. split; [done|]. intros a Ha E. cbn in *.
    destruct (ti_behind _ _ _ _ I a i c Ha Hi (eq_sym E)) as [?|[?|(? & ? & ?)]]; [congruence|lia|lia].
  - intros l Hw. split; [done|]. intros E. destruct (ti_app _ _ _ _ I l Hw) as [_ Hp].
    destruct (Hp i c Hi E) as [?|[?|[_ ?]]]; [congruence| |lia]. right. left. unfold c'. cfields. lia.
Qed.

Lemma ScanLines_none data eof adv :
  ScanLines data eof = (adv, None) → (NL ∉ data) ∧ (eof = true → data = []).
Proof.
  unfold ScanLines. destruct (IndexByte NL data) eqn:E; [done|]. intros H. split; [by apply IndexByte_None|].
  intros ->. cbn in H. by case_bool_decide.
Qed.

(** A scanner that has come to the end. *)
Lemma ended_inv bufSize s written pending i c :
  tel_inv bufSize s written pending → t_conns s !! i = Some c → c_done c = false → c_line c = None →
  window (t_mem s) c = [] → c_err c ≠ None →
  tel_inv bufSize
    (set_conn i (set_done (mkConn (c_reader c) (c_buf c) 0 0 (c_max c) (c_err c) (c_line c) (c_done c) (c_closed c)))
       (t_mem s) s) written pending.
Proof.
  intros I Hi Hd Hl Hw He. pose proof (ti_wf _ _ _ _ I i c Hi) as W. pose proof (ti_text _ _ _ _ I i c Hi) as T.
  unfold conn_text in T. rewrite Hd, Hl in T. cbn in T. destruct T as (x & Hrec & Hlines & _).
  rewrite Hw, app_nil_r in Hrec. rewrite app_nil_r in Hlines.
  eapply (conn_update bufSize s written pending i c (t_mem s) _ (c_start c)); [done|done|apply same_until_refl|by eapply lines_before|by left| | | |done|].
  - destruct W. constructor; cfields; try done. intros E. by destruct (cw_long0 E).
  - unfold conn_text. cfields. rewrite Hrec, Hlines. done.
  - intros a _ _. by left.
  - intros l _. split; [done|]. by left.
Qed.

(** What the channel and the goroutine that writes hold. *)
Definition in_use (s : Tel) : list Slice :=
  match t_writer s with WLine l | WAppended l => l :: t_lines s | _ => t_lines s end.

Lemma queue_in_use s a : a ∈ queue s → a ∈ in_use s.
Proof. unfold queue, in_use. destruct (t_writer s); try done. by right. Qed.
Lemma appended_in_use s l : t_writer s = WAppended l → l ∈ in_use s.
Proof. unfold in_use. intros ->. by left. Qed.

(** A scanner that reads. *)
Lemma filled_inv bufSize s written pending i c m' c' :
  tel_inv bufSize s written pending → t_conns s !! i = Some c → c_done c = false → c_line c = None → c_err c = None →
  filled bufSize (t_mem s) c m' c' → (shifts (t_mem s) c = true → ∀ a, a ∈ in_use s → sl_arr a ≠ c_buf c) →
  tel_inv bufSize (set_conn i c' m' s) written pending.
Proof.
  intros I Hi Hd Hl He F Hpr. pose proof (ti_text _ _ _ _ I i c Hi) as T.
  unfold conn_text in T. rewrite Hd, Hl in T. cbn in T. destruct T as (x & Hrec & Hlines & Hx).
  rewrite app_nil_r in Hlines. destruct Hx as [Hx|[]]; [|done].
  eapply conn_update; [done|done|apply F| |destruct (fi_buf _ _ _ _ _ F) as [[]|[]]; auto|apply F| | | |].
  - intros a Ha E. destruct (shifts (t_mem s) c); [by destruct (Hpr eq_refl a (queue_in_use _ _ Ha))|]. by eapply lines_before.
  - destruct (fi_text _ _ _ _ _ F) as [(Hd' & b & Hw & Hr)|(Hd' & He' & Hr)]; unfold conn_text; rewrite Hd'.
    + exists x. rewrite Hr, Hw, Hrec, (fi_line _ _ _ _ _ F). cbn. rewrite app_nil_r, <- app_assoc. auto.
    + rewrite He', Hr, Hrec, lines_of_app, Hlines by done. split; [by eexists|done].
  - intros a Ha E. destruct (fi_buf _ _ _ _ _ F) as [[Hb Hst]|[Hb _]].
    + destruct (shifts (t_mem s) c) eqn:Es; [destruct (Hpr eq_refl a (queue_in_use _ _ Ha)); congruence|].
      rewrite Hb in E. destruct (ti_behind _ _ _ _ I a i c Ha Hi E) as [?|[?|[? _]]]; [congruence| |done].
      right. left. by rewrite Hst.
    + destruct (ti_lines _ _ _ _ I a Ha). lia.
  - by rewrite (fi_line _ _ _ _ _ F).
  - intros l Hw. destruct (ti_app _ _ _ _ I l Hw) as [[Hm1 Hm2] Hp].
    pose proof (appended_in_use _ _ Hw) as Hu. destruct (fi_mem _ _ _ _ _ F) as [_ Hsame].
    assert (Hpast : c_buf c = sl_arr l → shifts (t_mem s) c = false ∧ sl_off l + sl_len l ≤ c_start c).
    { intros E. destruct (shifts (t_mem s) c) eqn:Es; [by destruct (Hpr eq_refl l Hu)|]. split; [done|].
      destruct (Hp i c Hi E) as [?|[?|[]]]; [congruence|done|done]. }
    split.
    + apply Hsame; [done|]. intros E. destruct (Hpast (eq_sym E)) as [-> ?]. done.
    + intros E. destruct (fi_buf _ _ _ _ _ F) as [[Hb Hst]|[Hb _]]; [|lia].
      destruct (Hpast ltac:(congruence)) as [Es ?]. right. left. by rewrite Hst.
Qed.

Lemma scan_inv bufSize s written pending i res :
  tel_inv bufSize s written pending →
  (∀ c, t_conns s !! i = Some c → moves (t_mem s) c = true → ∀ a, a ∈ in_use s → sl_arr a ≠ c_buf c) →
  keeps_inv bufSize s (scan_step i res).
Proof.
  intros I Hpr. unfold keeps_inv, scan_step. rewrite bind_get.
  destruct (t_conns s !! i) as [c|] eqn:Hi; [|by exists s, written, pending].
  destruct (c_done c) eqn:Hd; [by exists s, written, pending|].
  destruct (c_line c) eqn:Hl; [by exists s, written, pending|]. unfold scan.
  destruct (ScanLines (window (t_mem s) c) (bool_decide (c_err c ≠ None))) as [adv [len|]] eqn:Es.
  { eexists _, written, pending. split; [done|]. by eapply found_inv. }
  destruct (ScanLines_none _ _ _ Es) as [Hn Heof]. case_bool_decide as He.
  { eexists _, written, pending. split; [done|]. eapply ended_inv; eauto. }
  pose proof (ti_text _ _ _ _ I i c Hi) as T. unfold conn_text in T. rewrite Hd in T.
  destruct T as (x & Hrec & _). 
  destruct (fill_spec bufSize (t_mem s) c res x) as (m' & c' & -> & F); [by eapply I|done..|].
  eexists _, written, pending. split; [done|]. eapply filled_inv; eauto. intros Hsh. apply (Hpr c); [done|].
  unfold moves. rewrite Hd, Hl, He, Es, Hsh. done.
Qed.

Lemma conn_text_cancel m c sent : conn_text false m c sent → conn_text true m c sent.
Proof. unfold conn_text. destruct (c_done c); [|done]. by intros [H _]. Qed.

(** The invariant does not look at the result and the channel [next], and a
    cancelled context only weakens it. *)
Lemma tel_inv_ext bufSize s written pending cancelled ret next :
  tel_inv bufSize s written pending → (cancelled = t_cancelled s ∨ cancelled = true) →
  tel_inv bufSize (mkTel (t_mem s) (t_conns s) (t_lines s) (t_out s) cancelled (t_writer s) ret next) written pending.
Proof.
  intros [] Hc. constructor; try done; cbn [t_mem t_conns t_out t_cancelled t_writer].
  - intros i c Hi. specialize (ti_text0 i c Hi). destruct Hc as [-> | ->]; [done|].
    destruct (t_cancelled s); [done|by apply conn_text_cancel].
  - by destruct Hc as [-> | ->].
Qed.

Lemma sorted_snoc (ls : list Slice) l :
  StronglySorted before ls → (∀ a, a ∈ ls → before a l) → StronglySorted before (ls ++ [l]).
Proof.
  induction 1 as [|a ls Hs IH Hf]; cbn; intros Hb; [by repeat constructor|].
  constructor; [apply IH; intros x Hx; apply Hb; by right|].
  apply Forall_app. split; [done|]. constructor; [apply Hb; by left|done].
Qed.

(** The scanner gives up the line that it waits to send. *)
Lemma dropped_inv bufSize s written pending i c l :
  tel_inv bufSize s written pending → t_conns s !! i = Some c → c_line c = Some l → t_cancelled s = true →
  tel_inv bufSize (set_conn i (set_done c) (t_mem s) s) written pending.
Proof.
  intros I Hi Hl Hc. pose proof (ti_wf _ _ _ _ I i c Hi) as W. pose proof (ti_text _ _ _ _ I i c Hi) as T.
  destruct (ti_wait _ _ _ _ I i c l Hi Hl) as (_ & _ & _ & Hd & _).
  unfold conn_text in T. rewrite Hd, Hl in T. destruct T as (x & Hrec & Hlines & Hx).
  eapply (conn_update bufSize s written pending i c (t_mem s) _ (c_start c)); [done|done|apply same_until_refl|by eapply lines_before|by left| | | |done|].
  - destruct W. constructor; cfields; try done. intros E. by destruct (cw_long0 E).
  - unfold conn_text. cfields. split; [|congruence]. rewrite Hrec. trans (lines_of x); [rewrite Hlines; by eexists|].
    destruct Hx as [Hx|[_ ->]]; [rewrite lines_of_app by done; by eexists|by rewrite app_nil_r].
  - intros a _ _. by left.
  - intros a _. split; [done|]. by left.
Qed.

(** The line of a scanner goes into the channel. *)
Lemma sent_inv bufSize s written pending i c l :
  tel_inv bufSize s written pending → t_conns s !! i = Some c → c_line c = Some l →
  tel_inv bufSize
    (mkTel (t_mem s)
       (<[i := mkConn (c_reader c) (c_buf c) (c_start c) (c_end c) (c_max c) (c_err c) None (c_done c) (c_closed c)]> (t_conns s))
       (t_lines s ++ [l]) (t_out s) (t_cancelled s) (t_writer s) (t_returned s) (t_next s))
    written (pending ++ [(i, slice_bytes (t_mem s) l)]).
Proof.
  intros I Hi Hl. destruct (ti_wait _ _ _ _ I i c l Hi Hl) as (Harr & Hm & Hb & Hd & Hbef).
  assert (Hil : i < length (t_conns s)) by (by eapply lookup_lt_Some).
  set (c' := mkConn _ _ _ _ _ _ _ _ _).
  assert (Hlook : ∀ j d, <[i := c']> (t_conns s) !! j = Some d →
    ∃ d0, t_conns s !! j = Some d0 ∧ c_buf d = c_buf d0 ∧ (j = i ∧ d = c' ∧ d0 = c ∨ j ≠ i ∧ d = d0)).
  { intros j d [(<- & <- & _)|(Hne & Hj)]%list_lookup_insert_Some; [exists c|exists d]; (split; [done|]); (split; [done|]).
    - by left.
    - right. by split; [intros ->|]. }
  set (s' := mkTel _ _ _ _ _ _ _ _). assert (Hq : queue s' = queue s ++ [l]) by (unfold queue; cbn; by destruct (t_writer s)).
  constructor; rewrite ?Hq; cbn [s' t_mem t_conns t_lines t_out t_cancelled t_writer].
  - apply I.
  - rewrite !fmap_app, (ti_pending _ _ _ _ I). done.
  - intros p. rewrite app_assoc, elem_of_app, list_elem_of_singleton, length_insert.
    intros [Hp | ->]; [by apply I|done].
  - intros j k cj ck Hj Hk E. destruct (Hlook _ _ Hj) as (dj & ? & ? & _), (Hlook _ _ Hk) as (dk & ? & ? & _).
    eapply (ti_bufs _ _ _ _ I); eauto; congruence.
  - intros j d Hj. destruct (Hlook _ _ Hj) as (d0 & Hd0 & _ & [(-> & -> & ->)|[_ ->]]); [|by eapply I].
    by destruct (ti_wf _ _ _ _ I i c Hi).
  - intros j d Hj. rewrite app_assoc, of_conn_app, of_conn_one.
    destruct (Hlook _ _ Hj) as (d0 & Hd0 & _ & [(-> & -> & ->)|[Hne ->]]).
    + pose proof (ti_text _ _ _ _ I i c Hi) as T. unfold conn_text in *. unfold c' at 1. cfields. rewrite Hd, Hl in *.
      rewrite decide_True by done. destruct T as (x & ? & Hlines & ?). exists x. cbn in *.
      rewrite app_nil_r. done.
    + rewrite decide_False, app_nil_r by done. by eapply I.
  - intros a [Ha| ->%list_elem_of_singleton]%elem_of_app; [by eapply I|done].
  - intros a j d [Ha| ->%list_elem_of_singleton]%elem_of_app Hj E;
      destruct (Hlook _ _ Hj) as (d0 & Hd0 & Eb & [(-> & -> & ->)|[Hne ->]]).
    + by apply (ti_behind _ _ _ _ I a i c).
    + by apply (ti_behind _ _ _ _ I a j d0).
    + done.
    + destruct Hne. eapply (ti_bufs _ _ _ _ I); [done|done|congruence].
  - apply sorted_snoc; [apply I|done].
  - intros j d a Hj Ha. destruct (Hlook _ _ Hj) as (d0 & Hd0 & _ & [(-> & -> & ->)|[Hne ->]]); [done|].
    destruct (ti_wait _ _ _ _ I j d0 a Hd0 Ha) as (H1 & H2 & H3 & H4 & H5). repeat split; try done; [by apply H2..|].
    intros x [Hx| ->%list_elem_of_singleton]%elem_of_app; [by apply H5|].
    intros E. destruct Hne. eapply (ti_bufs _ _ _ _ I); [done|done|congruence].
  - apply I.
  - intros a Hw. destruct (ti_app _ _ _ _ I a Hw) as [Hma Hpa]. split; [done|].
    intros j d Hj E. destruct (Hlook _ _ Hj) as (d0 & Hd0 & Eb & [(-> & -> & ->)|[Hne ->]]); [by apply (Hpa i c)|by apply (Hpa j d0)].
Qed.

Lemma send_inv bufSize s written pending i ctxDone :
  tel_inv bufSize s written pending → keeps_inv bufSize s (send_step i ctxDone).
Proof.
  intros I. unfold keeps_inv, send_step. rewrite bind_get.
  destruct (t_conns s !! i) as [c|] eqn:Hi; [|by exists s, written, pending].
  destruct (c_line c) as [l|] eqn:Hl; [|by exists s, written, pending].
  destruct (ctxDone && t_cancelled s) eqn:Hc.
  { apply andb_true_iff in Hc as [_ Hc]. eexists _, written, pending. split; [done|]. by eapply dropped_inv. }
  case_bool_decide; [|by exists s, written, pending].
  eexists _, written, _. split; [done|]. by apply sent_inv.
Qed.

Lemma close_inv bufSize s written pending tr i :
  tel_inv bufSize s written pending → keeps_inv bufSize s (close_step tr i).
Proof.
  intros I. unfold keeps_inv, close_step. rewrite bind_get.
  destruct (t_conns s !! i) as [c|] eqn:Hi; [|by exists s, written, pending].
  destruct (negb (c_closed c) && _); [|by exists s, written, pending].
  eexists _, written, pending. split; [done|]. set (c' := mkConn _ _ _ _ _ _ _ _ _).
  apply (tel_inv_ext bufSize (set_conn i c' (t_mem s) s)); [|by left].
  eapply (conn_update bufSize s written pending i c (t_mem s) _ (length (t_mem s !!! c_buf c)));
    [done|done|apply same_until_refl| |by left| | | | |].
  - intros a Ha E. rewrite <- E. by apply (ti_lines _ _ _ _ I a Ha).
  - by destruct (ti_wf _ _ _ _ I i c Hi).
  - by apply (ti_text _ _ _ _ I i c Hi).
  - intros a Ha E. by apply (ti_behind _ _ _ _ I a i c Ha Hi).
  - intros l Hl. by apply (ti_wait _ _ _ _ I i c l Hi).
  - intros l Hw. split; [done|]. intros E. by apply (proj2 (ti_app _ _ _ _ I l Hw) i c).
Qed.

(** What the world may answer: datagrams that fit, and errors of the network
    only from [ListenPacket]. *)
Definition plain_result (bufSize : nat) (r : ListenResult) : bool :=
  match r with
  | LConn packets => bool_decide (3 ≤ bufSize) && forallb (λ d, bool_decide (packet_fits bufSize d)) packets
  | LOpError _ _ _ => true
  | LError _ => false
  end.

Definition plain (bufSize : nat) (ch : Choice) : bool :=
  match ch with ChAccept (AListen rs) => forallb (plain_result bufSize) rs | _ => true end.

Lemma listen_loop_plain bufSize rs :
  forallb (plain_result bufSize) rs = true →
  ∃ r, listen_loop rs = Ret r ∧ match r with Some (inl packets) => fits bufSize (RPackets packets 0) | _ => True end.
Proof.
  induction rs as [|r rs IH]; cbn; [by eexists|]. intros [Hr Hrs]%andb_true_iff. destruct r as [packets|t sys msg|]; [| |done].
  - eexists. split; [done|]. apply andb_true_iff in Hr as [Hb%bool_decide_eq_true Hp]. split; [done|].
    apply Forall_forall. intros d Hd. rewrite forallb_forall in Hp. eapply bool_decide_eq_true_1, Hp. by apply list_elem_of_In.
  - case_match; [by eexists|by apply IH].
Qed.

Lemma accept_plain bufSize tr a next :
  plain bufSize (ChAccept a) = true →
  ∃ r n, accept tr a next = Ret (r, n) ∧
    match r with Some (inl rd) => fits bufSize rd ∧ received rd = [] | _ => True end.
Proof.
  intros Hp. destruct tr; cbn.
  - destruct a; by do 2 eexists.
  - destruct a as [| |rs|]; try by do 2 eexists. cbn. case_bool_decide; [by do 2 eexists|].
    destruct (listen_loop_plain _ _ Hp) as ([[packets|e]|] & -> & Hl); by do 2 eexists.
Qed.

Lemma of_conn_fresh i (l : tagged) : (∀ p, p ∈ l → p.1 < i) → of_conn i l = [].
Proof.
  unfold of_conn. induction l as [|p l IH]; intros H; [done|]. rewrite filter_cons, decide_False; [|].
  - apply IH. intros q Hq. apply H. by right.
  - pose proof (H p ltac:(left)). lia.
Qed.

Lemma new_conn_inv bufSize s written pending r next :
  tel_inv bufSize s written pending → fits bufSize r → received r = [] →
  tel_inv bufSize (new_conn bufSize r s next) written pending.
Proof.
  intros I Hf Hrec. set (c := mkConn r (length (t_mem s)) 0 0 (if bool_decide (0 < bufSize) then bufSize else MaxScanTokenSize) None None false false).
  assert (Hlook : ∀ j d, (t_conns s ++ [c]) !! j = Some d →
    t_conns s !! j = Some d ∧ c_buf d < length (t_mem s) ∨ j = length (t_conns s) ∧ d = c).
  { intros j d [Hj|(Hlt & Hj)]%lookup_app_Some; [left; split; [done|apply (ti_wf _ _ _ _ I j d Hj)]|right].
    apply list_lookup_singleton_Some in Hj as [Hj <-]. split; [lia|done]. }
  assert (Hsame : ∀ j, j < length (t_mem s) → (t_mem s ++ [replicate bufSize zero]) !!! j = t_mem s !!! j).
  { intros. by apply lookup_app_old. }
  assert (Hsl : ∀ a, in_mem (t_mem s) a → slice_bytes (t_mem s ++ [replicate bufSize zero]) a = slice_bytes (t_mem s) a).
  { intros a [Ha _]. unfold slice_bytes. by rewrite Hsame. }
  constructor; change (queue (new_conn bufSize r s next)) with (queue s);
    cbn [new_conn t_mem t_conns t_lines t_out t_cancelled t_writer]; fold c.
  - pose proof (ti_out _ _ _ _ I) as E. unfold appended in *. cbn [new_conn t_mem t_writer].
    destruct (t_writer s) as [| |l|] eqn:Hw; try exact E. rewrite Hsl; [done|]. by apply (ti_app _ _ _ _ I l).
  - etransitivity; [|apply (ti_pending _ _ _ _ I)]. apply list_fmap_ext. intros k a Ha%list_elem_of_lookup_2.
    apply Hsl, (ti_lines _ _ _ _ I a Ha).
  - intros p Hp%(ti_tags _ _ _ _ I). rewrite length_app. lia.
  - intros j k cj ck [[Hj Hlj]|[-> ->]]%Hlook [[Hk Hlk]|[-> ->]]%Hlook E; [by eapply (ti_bufs _ _ _ _ I)| | |done].
    + rewrite E in Hlj. unfold c in Hlj. cfields. lia.
    + rewrite <- E in Hlk. unfold c in Hlk. cfields. lia.
  - intros j d [[Hj Hlj]|[-> ->]]%Hlook.
    + eapply conn_wf_mem; [by eapply I|rewrite length_app; lia|by rewrite Hsame|]. intros _. unfold window. by rewrite Hsame.
    + constructor; unfold c; cfields; [rewrite length_app; cbn; lia|lia|case_bool_decide; unfold MaxScanTokenSize; lia|done| |done].
      intros _ _. rewrite lookup_app_new, length_replicate. split; [done|]. left. done.
  - intros j d [[Hj Hlj]|[-> ->]]%Hlook.
    + eapply conn_text_mem; [by eapply I|intros _; unfold window; by rewrite Hsame|].
      intros l Hl. destruct (ti_wait _ _ _ _ I j d l Hj Hl) as (E & _). unfold slice_bytes. rewrite E, Hsame; done.
    + rewrite of_conn_fresh by apply I. unfold conn_text, c. cfields. exists []. rewrite Hrec. split; [done|]. split; [done|]. by left; left.
  - intros a Ha. pose proof (ti_lines _ _ _ _ I a Ha) as Hm. eapply in_mem_same; [done|rewrite length_app; lia|].
    rewrite Hsame; [done|apply Hm].
  - intros a j d Ha [[Hj Hlj]|[-> ->]]%Hlook E; [by apply (ti_behind _ _ _ _ I a j d)|].
    destruct (ti_lines _ _ _ _ I a Ha). unfold c in E. cfields. lia.
  - apply I.
  - intros j d l [[Hj Hlj]|[-> ->]]%Hlook Hl; [|done].
    destruct (ti_wait _ _ _ _ I j d l Hj Hl) as (H1 & H2 & H3). split; [done|]. split; [|done].
    eapply in_mem_same; [done|rewrite length_app; lia|]. rewrite Hsame; [done|apply H2].
  - apply I.
  - intros l Hw. destruct (ti_app _ _ _ _ I l Hw) as [Hm Hp]. split.
    + eapply in_mem_same; [done|rewrite length_app; lia|]. rewrite Hsame; [done|apply Hm].
    + intros j d [[Hj Hlj]|[-> ->]]%Hlook E; [by apply (Hp j d)|]. destruct Hm. unfold c in E. cfields. lia.
Qed.

Lemma accept_inv bufSize s written pending tr a :
  tel_inv bufSize s written pending → plain bufSize (ChAccept a) = true → keeps_inv bufSize s (accept_step tr bufSize a).
Proof.
  intros I Hp. unfold keeps_inv, accept_step. rewrite bind_get.
  destruct (t_returned s); [by exists s, written, pending|].
  destruct (accept_plain _ tr _ (t_next s) Hp) as (r & n & -> & Hr).
  destruct r as [[r|e]|]; [| |by exists s, written, pending]; eexists _, written, pending; (split; [done|]).
  - destruct Hr. by apply new_conn_inv.
  - apply tel_inv_ext; auto.
Qed.

(** ** What is written *)

(** A step that moves what waits in a buffer comes when neither the channel nor
    the goroutine that writes holds a line of that buffer. *)
Definition prompt (ch : Choice) (s : Tel) : bool :=
  match ch with
  | ChScan i _ =>
      match t_conns s !! i with
      | Some c => negb (moves (t_mem s) c) || forallb (λ a, bool_decide (sl_arr a ≠ c_buf c)) (in_use s)
      | None => true
      end
  | _ => true
  end.

Fixpoint prompt_run (tr : Transport) (bufSize : nat) (chs : list Choice) (s : Tel) : bool :=
  match chs with
  | [] => true
  | ch :: chs' => prompt ch s && plain bufSize ch && prompt_run tr bufSize chs' (exec (tel_step tr bufSize ch) s)
  end.

Lemma step_inv tr bufSize ch s written pending :
  tel_inv bufSize s written pending → prompt ch s = true → plain bufSize ch = true →
  keeps_inv bufSize s (tel_step tr bufSize ch).
Proof.
  intros I Hpr Hpl. destruct ch as [a|i res|i d|i|d| |]; cbn [tel_step].
  - by eapply accept_inv.
  - eapply scan_inv; [done|]. intros c Hi Hm a Ha. cbn in Hpr. rewrite Hi, Hm in Hpr. cbn in Hpr.
    rewrite forallb_forall in Hpr. eapply bool_decide_eq_true_1, Hpr. by apply list_elem_of_In.
  - by eapply send_inv.
  - by eapply close_inv.
  - by eapply receive_inv.
  - by eapply append_inv.
  - by eapply write_inv.
Qed.

Lemma init_inv tr bufSize : tel_inv bufSize (WriteToByLine tr) [] [].
Proof.
  constructor; cbn; try done; try (intros; set_solver). constructor.
Qed.

Lemma run_inv tr bufSize chs s written pending :
  tel_inv bufSize s written pending → prompt_run tr bufSize chs s = true →
  keeps_inv bufSize s (tel_run tr bufSize chs).
Proof.
  revert s written pending. induction chs as [|ch chs IH]; intros s written pending I Hp; cbn in *.
  { by exists s, written, pending. }
  apply andb_true_iff in Hp as [[Hpr Hpl]%andb_true_iff Hp].
  destruct (step_inv tr _ _ _ _ _ I Hpr Hpl) as (s1 & w1 & p1 & E & I1).
  unfold exec in Hp. rewrite E in Hp. destruct (IH _ _ _ I1 Hp) as (s2 & w2 & p2 & E2 & I2).
  exists s2, w2, p2. split; [|done]. by rewrite (bind_ret _ _ _ _ _ E).
Qed.

Lemma sent_prefix bufSize s written pending i c :
  tel_inv bufSize s written pending → t_conns s !! i = Some c →
  of_conn i (written ++ pending) `prefix_of` lines_of (received (c_reader c)).
Proof.
  intros I Hi. pose proof (ti_text _ _ _ _ I i c Hi) as T. unfold conn_text in T.
  destruct (c_done c); [apply T|]. destruct T as (x & Hrec & Hl & Hx). trans (lines_of x).
  { rewrite Hl. by eexists. }
  rewrite Hrec. destruct Hx as [Hx|[_ ->]]; [rewrite lines_of_app by done; by eexists|by rewrite app_nil_r].
Qed.

Lemma sent_all bufSize s written pending i c :
  tel_inv bufSize s written pending → t_conns s !! i = Some c → c_done c = true → t_cancelled s = false →
  short (c_max c) (received (c_reader c)) → of_conn i (written ++ pending) = lines_of (received (c_reader c)).
Proof.
  intros I Hi Hd Hc Hs. pose proof (ti_text _ _ _ _ I i c Hi) as T. unfold conn_text in T. rewrite Hd in T.
  apply T; [done|]. intros E. by destruct (cw_long _ _ _ (ti_wf _ _ _ _ I i c Hi) E).
Qed.

(** The lines that the channel and the goroutine that writes hold, without the
    newline if it has been appended. *)
Definition in_flight (s : Tel) : list bytes :=
  match t_writer s with WLine l => [slice_bytes (t_mem s) l] | WAppended l => [removelast (slice_bytes (t_mem s) l)] | _ => [] end
  ++ (slice_bytes (t_mem s) <$> t_lines s).

Lemma inv_in_flight bufSize s written pending :
  tel_inv bufSize s written pending →
  ∃ w p, written ++ pending = w ++ p ∧ t_out s = (λ p, p.2 ++ [NL]) <$> w ∧ in_flight s = p.*2.
Proof.
  intros I. pose proof (ti_out _ _ _ _ I) as Ho. pose proof (ti_pending _ _ _ _ I) as Hp.
  unfold appended, queue, in_flight in *. destruct (t_writer s) as [|l|l|].
  - exists written, pending. rewrite app_nil_r in Ho. done.
  - exists written, pending. rewrite app_nil_r in Ho. done.
  - destruct written as [|[i b] w _] using rev_ind; [by destruct (t_out s)|].
    rewrite fmap_app in Ho. cbn in Ho. apply app_inj_tail in Ho as [Ho Hl].
    exists w, ((i, b) :: pending). rewrite <- app_assoc. split; [done|]. split; [done|]. cbn. by rewrite Hl, removelast_last, Hp.
  - exists written, pending. rewrite app_nil_r in Ho. done.
Qed.

(** C23: Whatever the goroutines do and in whatever pieces
    the connections yield their bytes, provided that no scanner moves its buffer
    while the channel or the goroutine that writes holds a line of it, that
    datagrams are not empty and fit into half of the buffer, and that
    [ListenPacket] fails with errors of the network only: nothing panics, and what
    is passed to [Write] are whole lines with a newline each; of every connection
    they are, in order and together with the lines on the way, the first lines of
    what was received, and all of them once its scanner has ended, if the context
    is not cancelled and no line is as long as the maximum. *)
Theorem telemetry_lines tr bufSize chs :
  prompt_run tr bufSize chs (WriteToByLine tr) = true →
  ∃ s written pending,
    tel_run tr bufSize chs (WriteToByLine tr) = (Ret tt, s) ∧
    t_out s = (λ p, p.2 ++ [NL]) <$> written ∧ in_flight s = pending.*2 ∧
    ∀ i c, t_conns s !! i = Some c →
      of_conn i (written ++ pending) `prefix_of` lines_of (received (c_reader c)) ∧
      (c_done c = true → t_cancelled s = false → short (c_max c) (received (c_reader c)) →
       of_conn i (written ++ pending) = lines_of (received (c_reader c))).
Proof.
  intros Hp. destruct (run_inv _ _ _ _ _ _ (init_inv tr bufSize) Hp) as (s & written & pending & E & I).
  destruct (inv_in_flight _ _ _ _ I) as (w & p & Hwp & Hout & Hfl).
  exists s, w, p. split; [done|]. split; [done|]. split; [done|]. rewrite <- Hwp.
  intros i c Hi. split; [by eapply sent_prefix|]. by eapply sent_all.
Qed.

(** ** Everything is written *)

Definition left_over (r : Reader) : nat :=
  match r with
  | RStream data taken => length data - taken
  | RPackets packets taken => sum_list_with (λ d, length d + 2) (drop taken packets)
  end.

(** The next round that reads moves or replaces the buffer first. *)
Definition stale (m : Mem) (c : Conn) : nat :=
  if shifts m c || bool_decide (c_end c = length (m !!! c_buf c)) then 1 else 0.

(** What is left to do for a connection, and for the program: a byte is read,
    found to be part of a line, sent and written. *)
Definition work (m : Mem) (c : Conn) : nat :=
  (if c_closed c then 0 else 1) +
  (if c_done c then 0
   else 1 + (if bool_decide (c_err c = None) then 1 else 0) + 8 * left_over (c_reader c)
        + 6 * (c_end c - c_start c) + (if bool_decide (c_line c = None) then 0 else 4) + stale m c).

Definition writer_work (w : Writer) : nat :=
  match w with WLine _ => 2 | WAppended _ => 1 | _ => 0 end.

Definition total (s : Tel) : nat :=
  sum_list_with (work (t_mem s)) (t_conns s) + 3 * length (t_lines s) + writer_work (t_writer s).

Lemma stale_le m c : stale m c ≤ 1.
Proof. unfold stale. case_match; lia. Qed.

Lemma stale_prepared bufSize m c m2 c2 : prepared bufSize m c m2 c2 → stale m2 c2 = 0.
Proof.
  intros P. unfold stale. rewrite (pr_ready _ _ _ _ _ P), bool_decide_eq_false_2; [done|].
  pose proof (pr_room _ _ _ _ _ P). lia.
Qed.

(** A buffer that is neither moved nor replaced. *)
Lemma stale_none m c : stale m c = 0 → shift m c = (m, c) ∧ grow m c = Some (m, c).
Proof.
  unfold stale. destruct (shifts m c) eqn:Es; [done|]. cbn [orb]. case_bool_decide as He; [done|]. intros _.
  unfold shift, grow. by rewrite Es, bool_decide_eq_false_2.
Qed.

(** The work depends on the sizes of the arrays only. *)
Lemma work_mem m m' c : length (m' !!! c_buf c) = length (m !!! c_buf c) → work m' c = work m c.
Proof. intros E. unfold work, stale, shifts. by rewrite E. Qed.

Lemma sum_work_mem m m' (l : list Conn) :
  (∀ c, c ∈ l → length (m' !!! c_buf c) = length (m !!! c_buf c)) → sum_list_with (work m') l = sum_list_with (work m) l.
Proof.
  induction l as [|c l IH]; intros H; [done|]. cbn. rewrite (work_mem m m' c), IH; [done| |].
  - intros d Hd. apply H. by right.
  - apply H. by left.
Qed.

Lemma sum_insert {A} (f : A → nat) (l : list A) i x y :
  l !! i = Some x → sum_list_with f (<[i := y]> l) + f x = sum_list_with f l + f y.
Proof.
  revert i. induction l as [|z l IH]; intros [|i] H; cbn in *; [done|done|simplify_eq; lia|].
  specialize (IH i H). etransitivity; [symmetry; apply Nat.add_assoc|]. rewrite <- Nat.add_assoc. f_equal. exact IH.
Qed.

Lemma Read_left room res r b r' :
  0 < room → Read room res r = Ret (RdBytes b r') → 8 * left_over r' + 6 * length b + 2 ≤ 8 * left_over r.
Proof.
  intros Hr. destruct r as [data taken|packets taken]; cbn [Read].
  - unfold read_stream. destruct res as [[|n]|]; [done| |done]. case_bool_decide as Hne; [done|].
    assert (length (drop taken data) ≠ 0) as Hl by (by rewrite length_zero_iff_nil).
    set (k := Nat.min (S n) _). rewrite length_drop in Hl.
    assert (0 < k ≤ length data - taken) as Hk by (unfold k; rewrite length_drop; lia).
    clearbody k. intros [= <- <-]. cbn [left_over]. rewrite length_take, length_drop. lia.
  - unfold newlineReader_Read. case_bool_decide; [done|]. destruct res as [[|n]|]; [done| |done].
    destruct (packets !! taken) as [d|] eqn:Ed; [|done]. destruct (last _); [|done]. intros [= <- <-]. cbn [left_over].
    rewrite (drop_S _ _ _ Ed). cbn [sum_list_with].
    assert (length (if bool_decide (a = NL) then take (room - 2) d else take (room - 2) d ++ [NL]) ≤ length d + 1);
      [|lia]. case_bool_decide; rewrite ?length_app, length_take; cbn [length]; lia.
Qed.

(** All datagrams have been read. *)
Definition blocked (c : Conn) : Prop :=
  c_closed c = false ∧ ∃ packets taken, c_reader c = RPackets packets taken ∧ length packets ≤ taken.

Lemma Read_blocks room res r :
  Read room res r = Ret RdBlocks → res ≠ Some 0 → ∃ packets taken, r = RPackets packets taken ∧ length packets ≤ taken.
Proof.
  destruct r as [data taken|packets taken]; cbn.
  - unfold read_stream. destruct res as [[|n]|]; [done| |done]. by case_bool_decide.
  - unfold newlineReader_Read. case_bool_decide; [done|]. destruct res as [[|n]|]; [done| |done].
    destruct (packets !! taken) eqn:E; [destruct (last _); [|done]; done|]. intros _ _. do 2 eexists. split; [done|].
    by apply lookup_ge_None.
Qed.

(** A round that reads leaves less to do, or blocks. *)
Lemma fill_work bufSize m c res m' c' :
  conn_wf bufSize m c → c_done c = false → c_err c = None → NL ∉ window m c →
  fill res m c = Ret (m', c') → (m' = m ∧ c' = c ∧ (res ≠ Some 0 → blocked c)) ∨ work m' c' < work m c.
Proof.
  intros W Hd He Hn. unfold fill. destruct (shift m c) as [m1 c1] eqn:Es.
  destruct (prepare_spec _ _ _ _ _ W Hd He Hn Es) as (_ & _ & (_ & _ & _ & _ & _ & Hcl1) & _ & _ & Hg).
  destruct (grow m1 c1) as [[m2 c2]|] eqn:Egr.
  2: { intros [= <- <-]. right. unfold work. cfields. rewrite Hcl1, Hd, He. cbn. lia. }
  destruct (pr_conn _ _ _ _ _ Hg) as (Hr2 & _ & He2 & Hl2 & Hd2 & Hcl2). pose proof (pr_room _ _ _ _ _ Hg) as Hroom.
  pose proof (stale_prepared _ _ _ _ _ Hg) as Hst.
  assert (Hw : c_end c2 - c_start c2 = c_end c - c_start c).
  { rewrite <- (length_window _ _ _ W Hd), <- (pr_window _ _ _ _ _ Hg). symmetry.
    eapply length_window; [apply Hg|congruence]. }
  destruct (cw_range _ _ _ (pr_wf _ _ _ _ _ Hg)) as [R1 R2]; [congruence|].
  assert (Hwork : work m2 c2 + stale m c = work m c).
  { unfold work. rewrite Hr2, He2, Hl2, Hd2, Hcl2, Hd, Hw, Hst. lia. }
  assert (Herr : work m2 (set_err ErrRead c2) < work m2 c2).
  { unfold work. cfields. change (stale m2 (set_err ErrRead c2)) with (stale m2 c2).
    rewrite Hd2, Hd, He2, He. rewrite (bool_decide_eq_false_2 (Some ErrRead = None)) by done. cbn. lia. }
  rewrite Hr2. destruct (c_closed c2) eqn:Hcl; [intros [= <- <-]; right; lia|].
  destruct (Read _ _ _) as [[b r'| |]|] eqn:Er; [|intros [= <- <-]; right; lia| |done]; intros [= <- <-].
  - right. apply Read_left in Er; [|lia]. set (m' := on_array _ _ _). set (c' := mkConn _ _ _ _ _ _ _ _ _).
    pose proof (stale_le m' c') as Hk. clear Hwork Herr. unfold work. set (k := stale m' c') in *. clearbody k.
    unfold c'. cfields. rewrite <- Hcl2, He2, Hl2, Hd2, Hd, He. lia.
  - destruct (stale m c) eqn:Esc; [left|right; lia]. destruct (stale_none _ _ Esc) as [Es' Eg'].
    rewrite Es in Es'. injection Es' as -> ->. rewrite Egr in Eg'. injection Eg' as -> ->.
    split; [done|]. split; [done|]. intros Hres. split; [done|]. by eapply Read_blocks.
Qed.

Definition is_accept (ch : Choice) : bool := match ch with ChAccept _ => true | _ => false end.

Lemma total_set_conn i c c' m s :
  t_conns s !! i = Some c → (∀ d, d ∈ t_conns s → length (m !!! c_buf d) = length (t_mem s !!! c_buf d)) →
  work m c' < work (t_mem s) c → total (set_conn i c' m s) < total s.
Proof.
  intros Hi Hm Hw. unfold total. cbn [set_conn t_conns t_lines t_mem t_writer].
  pose proof (sum_insert (work m) (t_conns s) i c c' Hi) as Hs. rewrite (sum_work_mem (t_mem s) m (t_conns s) Hm) in Hs.
  rewrite (work_mem (t_mem s) m c) in Hs by (apply Hm; by eapply list_elem_of_lookup_2). lia.
Qed.

Lemma set_conn_same i c s : t_conns s !! i = Some c → set_conn i c (t_mem s) s = s.
Proof. intros Hi. unfold set_conn. rewrite list_insert_id by done. by destruct s. Qed.

(** A round keeps the sizes of the arrays that connections have. *)
Lemma scan_sizes bufSize s written pending i c res m' c' :
  tel_inv bufSize s written pending → t_conns s !! i = Some c → c_done c = false → c_line c = None →
  scan res (t_mem s) c = Ret (m', c') → ∀ d, d ∈ t_conns s → length (m' !!! c_buf d) = length (t_mem s !!! c_buf d).
Proof.
  intros I Hi Hd Hl. unfold scan. destruct (ScanLines _ _) as [adv [len|]] eqn:Es; [by intros [= <- _]|].
  destruct (ScanLines_none _ _ _ Es) as [Hn _]. case_bool_decide as He; [by intros [= <- _]|].
  pose proof (ti_text _ _ _ _ I i c Hi) as T. unfold conn_text in T. rewrite Hd in T. destruct T as (x & Hrec & _).
  destruct (fill_spec bufSize (t_mem s) c res x) as (m2 & c2 & -> & F); [by eapply I|done..|].
  intros [= <- _] d [j Hj]%list_elem_of_lookup_1. apply (fi_mem _ _ _ _ _ F), (ti_wf _ _ _ _ I j d Hj).
Qed.

Lemma scan_work bufSize s written pending i c res m' c' :
  tel_inv bufSize s written pending → t_conns s !! i = Some c → c_done c = false → c_line c = None →
  scan res (t_mem s) c = Ret (m', c') →
  (m' = t_mem s ∧ c' = c ∧ (res ≠ Some 0 → blocked c) ∧ NL ∉ window (t_mem s) c)
  ∨ work m' c' < work (t_mem s) c.
Proof.
  intros I Hi Hd Hl. pose proof (ti_wf _ _ _ _ I i c Hi) as W. unfold scan.
  destruct (ScanLines _ _) as [adv [len|]] eqn:Es.
  - intros [= <- <-]. right. destruct (ScanLines_line [] _ _ _ _ (or_introl eq_refl) Es) as [Hadv _].
    rewrite (length_window _ _ _ W Hd) in Hadv. set (c' := mkConn _ _ _ _ _ _ _ _ _).
    pose proof (stale_le (t_mem s) c') as Hk. unfold work. set (k := stale (t_mem s) c') in *. clearbody k.
    unfold c'. cfields. rewrite Hd, Hl.
    rewrite (bool_decide_eq_true_2 (None = None)), (bool_decide_eq_false_2 (Some _ = None)) by done. lia.
  - destruct (ScanLines_none _ _ _ Es) as [Hn Heof]. case_bool_decide as He.
    + intros [= <- <-]. right. unfold work. cfields. rewrite Hd. lia.
    + intros Hf. destruct (fill_work _ _ _ _ _ _ W Hd He Hn Hf) as [(-> & -> & Hb)|Hw]; [left; by auto|by right].
Qed.

(** A step of the goroutines changes nothing or leaves less to do. *)
Lemma step_work tr bufSize ch s s' written pending :
  tel_inv bufSize s written pending → t_cancelled s = false → is_accept ch = false →
  tel_step tr bufSize ch s = (Ret tt, s') → s' = s ∨ total s' < total s.
Proof.
  intros I Hc Ha. destruct ch as [a|i res|i d|i|d| |]; [done|..]; cbn [tel_step].
  - unfold scan_step. rewrite bind_get. destruct (t_conns s !! i) as [c|] eqn:Hi; [|intros [= <-]; by left].
    destruct (c_done c) eqn:Hd; [intros [= <-]; by left|]. destruct (c_line c) eqn:Hl; [intros [= <-]; by left|].
    destruct (scan res (t_mem s) c) as [[m' c']|] eqn:Es; [|done]. intros [= <-].
    destruct (scan_work _ _ _ _ _ _ _ _ _ I Hi Hd Hl Es) as [(-> & -> & _)|Hw].
    + left. by apply set_conn_same.
    + right. eapply total_set_conn; [done|by eapply scan_sizes|done].
  - unfold send_step. rewrite bind_get. destruct (t_conns s !! i) as [c|] eqn:Hi; [|intros [= <-]; by left].
    destruct (c_line c) as [l|] eqn:Hl; [|intros [= <-]; by left]. rewrite Hc, andb_false_r.
    case_bool_decide; intros [= <-]; [right|by left]. destruct (ti_wait _ _ _ _ I i c l Hi Hl) as (_ & _ & _ & Hd & _).
    unfold total. cbn [t_conns t_lines t_mem]. rewrite length_app. cbn [length]. set (c' := mkConn _ _ _ _ _ _ _ _ _).
    pose proof (sum_insert (work (t_mem s)) (t_conns s) i c c' Hi).
    assert (work (t_mem s) c' + 4 = work (t_mem s) c); [|cbn [t_writer]; lia].
    unfold work. change (stale (t_mem s) c') with (stale (t_mem s) c). unfold c'. cfields. rewrite Hd, Hl. rewrite (bool_decide_eq_true_2 (None = None)), (bool_decide_eq_false_2 (Some l = None)) by done. lia.
  - unfold close_step. rewrite bind_get. destruct (t_conns s !! i) as [c|] eqn:Hi; [|intros [= <-]; by left].
    destruct (c_closed c) eqn:Hcl; [intros [= <-]; by left|]. rewrite Hc, orb_false_r. cbn [negb andb].
    destruct (c_done c) eqn:Hd; intros [= <-]; [right|by left]. unfold total. cbn [t_conns t_lines t_mem].
    set (c' := mkConn _ _ _ _ _ _ _ _ _). pose proof (sum_insert (work (t_mem s)) (t_conns s) i c c' Hi).
    assert (work (t_mem s) c' + 1 = work (t_mem s) c); [|cbn [t_writer]; lia]. unfold work, c'. cfields. by rewrite Hd, Hcl.
  - unfold receive_step. rewrite bind_get. rewrite Hc, andb_false_r.
    destruct (t_writer s) eqn:Hw; try (intros [= <-]; by left).
    destruct (t_lines s) as [|l ls] eqn:El; [intros [= <-]; by left|]. intros [= <-]. right.
    unfold total. cbn [set_writer t_conns t_lines t_mem t_writer writer_work]. rewrite El, Hw. cbn. lia.
  - unfold append_step. rewrite bind_get. destruct (t_writer s) as [|l| |] eqn:Hw; try (intros [= <-]; by left).
    destruct (append_byte _ _ _) as [l' m'] eqn:Ea. intros [= <-]. right.
    unfold total. cbn [set_writer t_conns t_lines t_mem t_writer writer_work]. rewrite Hw. cbn [writer_work].
    assert (Hl : l ∈ queue s) by (unfold queue; rewrite Hw; by left).
    destruct (append_byte_spec _ _ _ _ _ (ti_lines _ _ _ _ I l Hl) Ea) as (_ & _ & _ & Hsame).
    rewrite (sum_work_mem (t_mem s) m'); [lia|]. intros c [i Hi]%list_elem_of_lookup_1.
    apply Hsame, (ti_wf _ _ _ _ I i c Hi).
  - unfold write_step. rewrite bind_get. destruct (t_writer s) as [| |l|] eqn:Hw; try (intros [= <-]; by left).
    intros [= <-]. right. unfold total. cbn [set_writer t_conns t_lines t_mem t_writer writer_work]. rewrite Hw. cbn. lia.
Qed.

(** No goroutine can change anything. *)
Definition idle (tr : Transport) (bufSize : nat) (s : Tel) : Prop :=
  ∀ ch, is_accept ch = false → prompt ch s = true → tel_step tr bufSize ch s = (Ret tt, s).

Lemma idle_channel tr bufSize s written pending :
  tel_inv bufSize s written pending → t_cancelled s = false → idle tr bufSize s →
  t_writer s = WSelect ∧ t_lines s = [] ∧ ∀ i c, t_conns s !! i = Some c → c_line c = None.
Proof.
  intros I Hc Hs.
  assert (Hw : t_writer s = WSelect).
  { pose proof (ti_writer _ _ _ _ I Hc) as Hne. destruct (t_writer s) as [|l|l|] eqn:Hw; [done| | |done].
    - destruct (append_byte l NL (t_mem s)) as [l' m'] eqn:Ea.
      specialize (Hs ChAppend eq_refl eq_refl). cbn [tel_step] in Hs. unfold append_step in Hs.
      rewrite bind_get, Hw, Ea in Hs. injection Hs as E. apply (f_equal t_writer) in E. cbn in E. congruence.
    - specialize (Hs ChWrite eq_refl eq_refl). cbn [tel_step] in Hs. unfold write_step in Hs.
      rewrite bind_get, Hw in Hs. injection Hs as E. apply (f_equal t_writer) in E. cbn in E. congruence. }
  assert (Hlines : t_lines s = []).
  { specialize (Hs (ChReceive false) eq_refl eq_refl). cbn [tel_step] in Hs. unfold receive_step in Hs.
    rewrite bind_get, Hw in Hs. cbn [andb] in Hs.
    destruct (t_lines s) as [|l ls] eqn:El; [done|]. injection Hs as E.
    apply (f_equal t_writer) in E. cbn in E. congruence. }
  split; [done|]. split; [done|]. intros i c Hi. destruct (c_line c) as [l|] eqn:Hl; [|done].
  specialize (Hs (ChSend i false) eq_refl eq_refl). cbn [tel_step] in Hs. unfold send_step in Hs.
  rewrite bind_get, Hi, Hl, Hlines in Hs. cbn [andb] in Hs. rewrite bool_decide_eq_true_2 in Hs by (unfold line_places; cbn; lia).
  injection Hs as E. apply (f_equal t_lines) in E. cbn in E. congruence.
Qed.

Lemma idle_conn tr bufSize s written pending i c :
  tel_inv bufSize s written pending → t_cancelled s = false → idle tr bufSize s → t_conns s !! i = Some c →
  c_done c = true ∧ c_closed c = true ∨ c_done c = false ∧ blocked c ∧ window (t_mem s) c = [].
Proof.
  intros I Hc Hs Hi. destruct (idle_channel _ _ _ _ _ I Hc Hs) as (Hw & Hlines & Hnone). specialize (Hnone i c Hi).
  assert (Huse : in_use s = []) by (unfold in_use; by rewrite Hw).
  destruct (c_done c) eqn:Hd.
  - left. split; [done|]. specialize (Hs (ChClose i) eq_refl eq_refl). cbn [tel_step] in Hs. unfold close_step in Hs.
    rewrite bind_get, Hi, Hd in Hs. destruct (c_closed c) eqn:Hcl; [done|]. injection Hs as E.
    apply (f_equal (λ s, t_conns s !! i)) in E. cbn in E.
    rewrite list_lookup_insert_eq, Hi in E by (by eapply lookup_lt_Some).
    injection E as E. by rewrite <- E in Hcl.
  - right. split; [done|]. specialize (Hs (ChScan i (Some 1)) eq_refl). cbn [prompt tel_step] in Hs.
    rewrite Hi, Huse, orb_true_r in Hs. specialize (Hs eq_refl). unfold scan_step in Hs.
    rewrite bind_get, Hi, Hd, Hnone in Hs. destruct (scan _ _ _) as [[m' c']|] eqn:Es; [|done].
    destruct (scan_work _ _ _ _ _ _ _ _ _ I Hi Hd Hnone Es) as [(_ & _ & Hb & Hn)|Hwk].
    + specialize (Hb ltac:(done)). split; [done|]. pose proof Hb as (_ & packets & taken & Hr & _).
      destruct (cw_packets _ _ _ (ti_wf _ _ _ _ I i c Hi) Hd) as [_ [?|(w & Hwin)]]; [by rewrite Hr|done|].
      destruct Hn. rewrite Hwin. apply nl_last.
    + injection Hs as E. assert (total (set_conn i c' m' s) < total s) as Ht; [|rewrite E in Ht; lia].
      eapply total_set_conn; [done|by eapply scan_sizes|done].
Qed.

Lemma idle_sent tr bufSize s written pending i c :
  tel_inv bufSize s written pending → t_cancelled s = false → idle tr bufSize s → t_conns s !! i = Some c →
  short (c_max c) (received (c_reader c)) → of_conn i (written ++ pending) = lines_of (received (c_reader c)).
Proof.
  intros I Hc Hs Hi Hsh. destruct (idle_conn _ _ _ _ _ _ _ I Hc Hs Hi) as [[Hd _]|(Hd & _ & Hw)]; [by eapply sent_all|].
  destruct (idle_channel _ _ _ _ _ I Hc Hs) as (_ & _ & Hnone). pose proof (ti_text _ _ _ _ I i c Hi) as T.
  unfold conn_text in T. rewrite Hd, Hw, (Hnone i c Hi) in T. destruct T as (x & Hr & Hl & _).
  rewrite app_nil_r in Hr. cbn in Hl. rewrite app_nil_r in Hl. by rewrite Hr, Hl.
Qed.

(** C24: In every state that a run as in [telemetry_lines] leads to (no buffer
    was moved while a line of it was on the way, datagrams are not empty and fit
    into half of the buffer, [ListenPacket] fails with errors of the network
    only), while the context is not cancelled, each step of a goroutine changes
    nothing or leaves less to do, so that they come to rest; and when none of them
    can change anything, the channel is empty, nothing is being written, every
    connection is closed or waits for another datagram, and of every connection
    none of whose lines is as long as the maximum exactly the lines that were
    received have been written. *)
Theorem telemetry_settles tr bufSize chs s :
  prompt_run tr bufSize chs (WriteToByLine tr) = true →
  tel_run tr bufSize chs (WriteToByLine tr) = (Ret tt, s) → t_cancelled s = false →
  (∀ ch s', is_accept ch = false → tel_step tr bufSize ch s = (Ret tt, s') → s' = s ∨ total s' < total s) ∧
  (idle tr bufSize s →
   t_lines s = [] ∧ t_writer s = WSelect ∧ ∃ written, t_out s = (λ p, p.2 ++ [NL]) <$> written ∧
     ∀ i c, t_conns s !! i = Some c →
       (c_done c = true ∧ c_closed c = true ∨ blocked c) ∧
       (short (c_max c) (received (c_reader c)) → of_conn i written = lines_of (received (c_reader c)))).
Proof.
  intros Hp Hrun Hc. destruct (run_inv _ _ _ _ _ _ (init_inv tr bufSize) Hp) as (s1 & written & pending & E & I).
  rewrite Hrun in E. injection E as <-. split; [intros ch s'; by eapply step_work|].
  intros Hidle. destruct (idle_channel _ _ _ _ _ I Hc Hidle) as (Hw & Hl & _). split; [done|]. split; [done|].
  exists written. split.
  { pose proof (ti_out _ _ _ _ I) as Ho. unfold appended in Ho. by rewrite Hw, app_nil_r in Ho. }
  assert (pending = []) as ->.
  { pose proof (ti_pending _ _ _ _ I) as E. unfold queue in E. rewrite Hw, Hl in E. by destruct pending. }
  intros i c Hi. split.
  - destruct (idle_conn _ _ _ _ _ _ _ I Hc Hidle Hi) as [?|(_ & ? & _)]; auto.
  - intros Hsh. rewrite <- (app_nil_r written). by eapply idle_sent.
Qed.

(** ** Examples *)

Module TelScenario.

Definition text (s : string) : bytes := String.list_ascii_of_string s.

Definition stream : bytes := text "hello" ++ [NL] ++ text "you" ++ [NL] ++ text "x" ++ [NL] ++ text "abcdef" ++ [NL].

(** Rounds of one connection, with its line sent, and written in time. *)
Definition round (i : nat) : list Choice := [ChScan i (Some 5000); ChSend i false].
Definition writes : list Choice := [ChReceive false; ChAppend; ChWrite].
Definition prompt_rounds (n : nat) : list Choice := concat (replicate n (round 0 ++ writes)).
Definition late_rounds (n : nat) : list Choice := concat (replicate n (round 0)) ++ concat (replicate n writes).

Definition in_time : list Choice := ChAccept (AConn stream) :: prompt_rounds 12.

Definition final (tr : Transport) (bufSize : nat) (chs : list Choice) : Tel :=
  exec (tel_run tr bufSize chs) (WriteToByLine tr).

Definition outcome_of (tr : Transport) (bufSize : nat) (chs : list Choice) : outcome unit * list string :=
  let (o, s) := tel_run tr bufSize chs (WriteToByLine tr) in
  (o, (λ l, String.string_of_list_ascii (removelast l)) <$> t_out s).

End TelScenario.
Import TelScenario.

(** Lines that are written when the scanner has moved its buffer on are other
    text than was received, because the channel holds parts of the buffer. *)
Example late_write_garbles :
  outcome_of TCP 8 in_time = (Ret tt, ["hello"; "you"; "x"; "abcdef"]) ∧
  outcome_of TCP 8 (ChAccept (AConn stream) :: late_rounds 12) ≠ outcome_of TCP 8 in_time ∧
  (length <$> t_out (final TCP 8 in_time)) = [6; 4; 2; 7].
Proof. vm_compute. split; [done|]. split; [discriminate|done]. Qed.

(** The same between receiving a line and writing it. *)
Example held_line_garbles :
  let received := ChAccept (AConn stream) :: concat (replicate 2 (round 0)) ++ [ChReceive false] in
  outcome_of TCP 8 (received ++ [ChAppend; ChWrite]) = (Ret tt, ["hello"]) ∧
  outcome_of TCP 8 (received ++ concat (replicate 6 (round 0)) ++ [ChAppend; ChWrite]) = (Ret tt, ["abcde"]).
Proof. by vm_compute. Qed.

(** An empty datagram makes the index of the last byte read -1; the goroutine
    panics, and with it the program. *)
Example empty_datagram_panics :
  (outcome_of UDP 16 (ChAccept (AListen [LConn [text "hello"; []]]) :: prompt_rounds 4)).1 = Panic "index out of range [-1]".
Proof. by vm_compute. Qed.

(** A datagram that fits the buffer is cut when an earlier one still takes up
    its beginning. *)
Example datagram_cut :
  outcome_of UDP 16 (ChAccept (AListen [LConn [text "abcdefghi"]]) :: prompt_rounds 4) = (Ret tt, ["abcdefghi"]) ∧
  outcome_of UDP 16 (ChAccept (AListen [LConn [text "hello"; text "abcdefghi"]]) :: prompt_rounds 6)
    = (Ret tt, ["hello"; "abcdefgh"]).
Proof. by vm_compute. Qed.

(** An error of [bind] is returned, although the comment says that it is tried
    again; another permanent error of a system call is tried again. *)
Example listen_errors :
  listen_loop [LOpError false (Some "bind") "address in use"; LConn []] = Ret (Some (inr "address in use")) ∧
  listen_loop [LOpError false (Some "socket") "too many files"; LConn []] = Ret (Some (inl [])).
Proof. done. Qed.

Lemma telemetry_lines_witness :
  prompt_run TCP 8 in_time (WriteToByLine TCP) = true ∧
  ∃ s written pending,
    tel_run TCP 8 in_time (WriteToByLine TCP) = (Ret tt, s) ∧
    t_out s = (λ p, p.2 ++ [NL]) <$> written ∧ in_flight s = pending.*2 ∧
    ∀ i c, t_conns s !! i = Some c →
      of_conn i (written ++ pending) `prefix_of` lines_of (received (c_reader c)) ∧
      (c_done c = true → t_cancelled s = false → short (c_max c) (received (c_reader c)) →
       of_conn i (written ++ pending) = lines_of (received (c_reader c))).
Proof.
  assert (H : prompt_run TCP 8 in_time (WriteToByLine TCP) = true) by (vm_compute; reflexivity).
  split; [exact H|]. exact (telemetry_lines TCP 8 in_time H).
Defined.

Lemma telemetry_settles_witness :
  prompt_run TCP 8 in_time (WriteToByLine TCP) = true ∧ t_cancelled (final TCP 8 in_time) = false ∧
  ∀ s', tel_step TCP 8 (ChClose 0) (final TCP 8 in_time) = (Ret tt, s') →
    s' = final TCP 8 in_time ∨ total s' < total (final TCP 8 in_time).
Proof.
  assert (H1 : prompt_run TCP 8 in_time (WriteToByLine TCP) = true) by (vm_compute; reflexivity).
  assert (H2 : tel_run TCP 8 in_time (WriteToByLine TCP) = (Ret tt, final TCP 8 in_time)) by (vm_compute; reflexivity).
  assert (H3 : t_cancelled (final TCP 8 in_time) = false) by (vm_compute; reflexivity).
  split; [exact H1|]. split; [exact H3|]. intros s' Hs.
  exact (proj1 (telemetry_settles TCP 8 in_time (final TCP 8 in_time) H1 H2 H3) (ChClose 0) s' eq_refl Hs).
Defined.
