(* ===== verification/Services.v ===== *)
(** * Running the services of a node (edgenode/pkg/service, config, util, edgenode/cmd/appliance)

    The configuration of the process, the goroutines of [RunServices] with the
    loop of [WaitForServices] that waits for them, the enrolment that comes
    first, durations in documents and heartbeats.  Services are what the world
    makes of them: each returns at some time, with an error or without.
    Reading and decoding of files and of durations are the classes
    [ConfigFiles] and [Durations]. *)

From S2P Require Import Prelude Strconv Logging.
From stdpp Require Import prelude gmap strings list.
From Stdlib Require Import ZArith Ascii.

Local Open Scope string_scope.
Local Open Scope list_scope.

(** ** Configuration *)

Record EnrollConfig := mkEnrollConfig {
  ec_Endpoint : string;
  ec_ConnTimeout : Z;
  ec_CertsDir : string;
}.

Record MainConfig := mkMainConfig {
  mc_UseSyslog : bool;
  mc_SyslogAddr : string;
  mc_LogLevel : string;
  mc_Services : gmap string string;
  mc_Enroll : EnrollConfig;
}.

(** [ioutil.ReadFile] on a cleaned path, and [json.Unmarshal] into the structure
    of the process. *)
Class ConfigFiles := {
  ReadFile : string → string + string;
  filepath_Clean : string → string;
  Unmarshal : string → MainConfig → MainConfig * error;
}.

Section configuration.
Context `{ConfigFiles, LogLib, GoEnv}.

Definition LoadJSONConfig (configPath : string) (config : MainConfig) : MainConfig * error :=
  match ReadFile (filepath_Clean configPath) with
  | inr e => (config, Some e)
  | inl cfgData => Unmarshal cfgData config
  end.

(** [InitConfig] changes the variable [Cfg] and the logger. *)
Definition InitConfig (cfgPath : string) (cfg : MainConfig) : GoM Sys (MainConfig * error) :=
  let (cfg, err) := LoadJSONConfig cfgPath cfg in
  match err with
  | Some e => mret (cfg, Some ("Failed to load config: " +:+ cfgPath +:+ ": " +:+ e))
  | None =>
      err ← (if mc_UseSyslog cfg then ConnectSyslog (mc_SyslogAddr cfg) else mret nil_err);
      let failed := match err with Some e => bool_decide (e ≠ "syslog already dialed") | None => false end in
      if failed
      then mret (cfg, Some ("Failed to connect to syslog: " +:+ mc_SyslogAddr cfg +:+ ": " +:+ default "" err))
      else
        let (lvl, err) := ParseLevel (mc_LogLevel cfg) in
        match err with
        | Some e => mret (cfg, Some ("Failed to parse log level: " +:+ mc_LogLevel cfg +:+ ": " +:+ e))
        | None => SetLevel lvl ;; mret (cfg, nil_err)
        end
  end.
End configuration.

(** ** The goroutines of the services *)

(** A service runs; has returned and waits until its result is received; has
    given its result, and has told the wait group. *)
Inductive svc :=
| SvcRunning
| SvcReturned (err : error)
| SvcSent (err : error)
| SvcDone (err : error).

#[export] Instance svc_eq : EqDecision svc.
Proof. solve_decision. Defined.

(** The services with the configuration each was started with, whether the
    context is cancelled, whether a signal came, the variable [ret], whether
    [waitFinished] is closed, and the result. *)
Record Run := mkRun {
  r_svcs : list svc;
  r_cfgs : list string;
  r_cancelled : bool;
  r_signalled : bool;
  r_ret : bool;
  r_waitFinished : bool;
  r_result : option bool;
}.

(** [funcName[:strings.LastIndex(funcName, ".")]]. *)
Fixpoint last_dot (s : string) : option nat :=
  match s with
  | EmptyString => None
  | String c s' =>
      match last_dot s' with
      | Some i => Some (S i)
      | None => if bool_decide (c = "."%char) then Some O else None
      end
  end.

Definition srvName (funcName : string) : outcome string :=
  match last_dot funcName with
  | Some i => Ret (String.substring 0 i funcName)
  | None => Panic "slice bounds out of range [:-1]"
  end.

(** The loop that starts the services: a key that is not there yields an empty
    configuration. *)
Fixpoint start_services (cfg : MainConfig) (funcNames : list string) : outcome (list string) :=
  match funcNames with
  | [] => Ret []
  | f :: fs =>
      match srvName f with
      | Panic e => Panic e
      | Ret n =>
          match start_services cfg fs with
          | Panic e => Panic e
          | Ret l => Ret (default "" (mc_Services cfg !! n) :: l)
          end
      end
  end.

Definition RunServices (cfg : MainConfig) (funcNames : list string) : outcome Run :=
  match start_services cfg funcNames with
  | Panic e => Panic e
  | Ret cfgs => Ret (mkRun (replicate (length cfgs) SvcRunning) cfgs false false true false None)
  end.

Definition set_svc (i : nat) (v : svc) (r : Run) : Run :=
  mkRun (<[i := v]> (r_svcs r)) (r_cfgs r) (r_cancelled r) (r_signalled r) (r_ret r) (r_waitFinished r) (r_result r).

(** The steps of the goroutines: a service returns, its result is received by
    the loop of [WaitForServices], its goroutine ends, [wg.Wait] returns and
    closes [waitFinished], the loop finds it closed, and a signal comes. *)
Inductive runChoice :=
| RcReturn (i : nat) (err : error)
| RcReceive (i : nat)
| RcDone (i : nat)
| RcWait
| RcFinish
| RcSignal.

Definition is_done (v : svc) : bool := match v with SvcDone _ => true | _ => false end.

(** [case err := <-errors]. *)
Definition receive (i : nat) (err : error) (r : Run) : Run :=
  let r' := set_svc i (SvcSent err) r in
  match err with
  | Some _ => mkRun (r_svcs r') (r_cfgs r') true (r_signalled r') false (r_waitFinished r') (r_result r')
  | None => r'
  end.

Definition WaitForServices (ch : runChoice) (r : Run) : Run :=
  match ch with
  | RcReceive i =>
      match r_result r, r_svcs r !! i with
      | None, Some (SvcReturned err) => receive i err r
      | _, _ => r
      end
  | RcWait =>
      if forallb is_done (r_svcs r)
      then mkRun (r_svcs r) (r_cfgs r) (r_cancelled r) (r_signalled r) (r_ret r) true (r_result r)
      else r
  | RcFinish =>
      match r_waitFinished r, r_result r with
      | true, None => mkRun (r_svcs r) (r_cfgs r) (r_cancelled r) (r_signalled r) (r_ret r) true (Some (r_ret r))
      | _, _ => r
      end
  | _ => r
  end.

Definition run_step (ch : runChoice) (r : Run) : Run :=
  match ch with
  | RcReturn i err =>
      match r_svcs r !! i with Some SvcRunning => set_svc i (SvcReturned err) r | _ => r end
  | RcDone i =>
      match r_svcs r !! i with Some (SvcSent err) => set_svc i (SvcDone err) r | _ => r end
  | RcSignal => mkRun (r_svcs r) (r_cfgs r) true true (r_ret r) (r_waitFinished r) (r_result r)
  | _ => WaitForServices ch r
  end.

Definition run_steps (chs : list runChoice) (r : Run) : Run := foldl (λ r ch, run_step ch r) r chs.

(** ** The appliance *)

(** Its main program tries to enrol until it succeeds; [attempts] are what the
    calls of [Enroll] yield. *)
Fixpoint enroll_loop (attempts : list error) : option nat :=
  match attempts with
  | [] => None
  | None :: _ => Some O
  | Some _ :: attempts' => S <$> enroll_loop attempts'
  end.

(** ** Durations and heartbeats *)

Class Durations := {
  ParseDuration : string → Z + string;
  Duration_String : Z → string;
}.

Definition quote : ascii := "034"%char.

Fixpoint trim_left (s : string) : string :=
  match s with
  | EmptyString => ""
  | String c s' => if bool_decide (c = quote) then trim_left s' else s
  end.

Definition trim_quotes (s : string) : string := String.rev (trim_left (String.rev (trim_left s))).

Definition UnmarshalDuration `{Durations} (data : string) : Z + string := ParseDuration (trim_quotes data).
Definition MarshalDuration `{Durations} (d : Z) : string := String quote (Duration_String d +:+ String quote "").

(** The goroutine of [Heartbeat]: a tick that waits in the channel of the
    ticker, whether the ticker is stopped, the calls of the handler, and the
    rounds of the loop that found the context done. *)
Record Beat := mkBeat { hb_tick : bool; hb_stopped : bool; hb_calls : nat; hb_spins : nat }.

Inductive beatChoice := BcTick | BcHandle | BcDone.

Definition Heartbeat (interval : Z) : option Beat :=
  if bool_decide (0 < interval)%Z then Some (mkBeat false false 0 0) else None.

Definition beat_step (ctxDone : bool) (ch : beatChoice) (b : Beat) : Beat :=
  match ch with
  | BcTick => if hb_stopped b then b else mkBeat true false (hb_calls b) (hb_spins b)
  | BcHandle => if hb_tick b then mkBeat false (hb_stopped b) (S (hb_calls b)) (hb_spins b) else b
  | BcDone => if ctxDone then mkBeat (hb_tick b) true (hb_calls b) (S (hb_spins b)) else b
  end.

(** ** What [RunServices] promises *)

(** The result of a service that has been received, if it is an error. *)
Definition failed (v : svc) : bool :=
  match v with SvcSent (Some _) | SvcDone (Some _) => true | _ => false end.

Record run_ok (r : Run) : Prop := {
  ro_wait : r_waitFinished r = true → forallb is_done (r_svcs r) = true;
  ro_ret : r_ret r = negb (existsb failed (r_svcs r));
  ro_cancelled : r_cancelled r = r_signalled r || negb (r_ret r);
  ro_result : ∀ b, r_result r = Some b → r_waitFinished r = true ∧ b = r_ret r;
}.

(** What the goroutines still have to do. *)
Definition svc_left (v : svc) : nat :=
  match v with SvcRunning => 3 | SvcReturned _ => 2 | SvcSent _ => 1 | SvcDone _ => 0 end.

Definition run_left (r : Run) : nat :=
  sum_list_with svc_left (r_svcs r) + (if r_waitFinished r then 0 else 1) +
  (match r_result r with Some _ => 0 | None => 1 end) + (if r_signalled r then 0 else 1).

Lemma existsb_insert (f : svc → bool) l i v w :
  l !! i = Some v → f v = false → existsb f (<[i := w]> l) = f w || existsb f l.
Proof.
  revert i. induction l as [|x l IH]; intros [|i] Hi Hf; simpl in *; [done..| |].
  - simplify_eq. by rewrite Hf.
  - rewrite (IH i Hi Hf). destruct (f x), (f w); done.
Qed.

Lemma forallb_not (f : svc → bool) l i v :
  l !! i = Some v → f v = false → forallb f l = false.
Proof.
  intros Hi Hf. destruct (forallb f l) eqn:E; [|done]. rewrite forallb_forall in E.
  rewrite (E v) in Hf; [done|]. apply list_elem_of_In. by eapply list_elem_of_lookup_2.
Qed.

Lemma sum_left_insert l i v w :
  l !! i = Some v → (svc_left w < svc_left v)%nat →
  (sum_list_with svc_left (<[i := w]> l) < sum_list_with svc_left l)%nat.
Proof.
  revert i. induction l as [|x l IH]; intros [|i] Hi Hlt; simpl in *; [done..| |].
  - simplify_eq. lia.
  - apply Nat.add_lt_mono_l. by apply IH.
Qed.

(** Each service that is not done keeps the wait group from finishing. *)
Lemma not_finished r i v : run_ok r → r_svcs r !! i = Some v → is_done v = false → r_waitFinished r = false ∧ r_result r = None.
Proof.
  intros I Hi Hv. assert (r_waitFinished r = false) as Hw.
  { destruct (r_waitFinished r) eqn:E; [|done]. pose proof (ro_wait _ I E) as Hd.
    by rewrite (forallb_not is_done _ i v Hi Hv) in Hd. }
  split; [done|]. destruct (r_result r) as [b|] eqn:E; [|done]. destruct (ro_result _ I b E). congruence.
Qed.

(** A service moves on without its error becoming known. *)
Lemma set_svc_ok r i v w :
  run_ok r → r_svcs r !! i = Some v → is_done v = false → failed w = failed v → run_ok (set_svc i w r).
Proof.
  intros I Hi Hv Hf. destruct (not_finished _ _ _ I Hi Hv) as [Hw Hr]. destruct I. constructor; cbn; [congruence| |done|congruence].
  rewrite ro_ret0. f_equal. destruct (failed v) eqn:Ef.
  - transitivity true; [|symmetry]; apply existsb_exists; [exists v|exists w].
    + split; [|done]. apply list_elem_of_In. by eapply list_elem_of_lookup_2.
    + split; [|done]. apply list_elem_of_In. eapply list_elem_of_lookup_2. apply list_lookup_insert_eq. by eapply lookup_lt_Some.
  - by rewrite (existsb_insert _ _ _ _ w Hi Ef), Hf.
Qed.

Lemma receive_ok r i err : run_ok r → r_svcs r !! i = Some (SvcReturned err) → run_ok (receive i err r).
Proof.
  intros I Hi. destruct err as [e|]; [|by eapply set_svc_ok]. destruct (not_finished _ _ _ I Hi eq_refl) as [Hw Hr].
  destruct I. constructor; cbn; [congruence| |by rewrite orb_true_r|congruence].
  by rewrite (existsb_insert _ _ _ _ _ Hi eq_refl).
Qed.

Lemma run_step_ok ch r : run_ok r → run_ok (run_step ch r).
Proof.
  intros I. destruct ch as [i err|i|i| | |]; cbn.
  - destruct (r_svcs r !! i) as [[]|] eqn:Hi; [|done..]. by eapply set_svc_ok.
  - destruct (r_result r); [done|]. destruct (r_svcs r !! i) as [[]|] eqn:Hi; [done| |done..]. by apply receive_ok.
  - destruct (r_svcs r !! i) as [[]|] eqn:Hi; [done..| |done|done]. by eapply set_svc_ok.
  - destruct (forallb is_done (r_svcs r)) eqn:E; [|done]. destruct I. constructor; try done. cbn. intros b Hb.
    by destruct (ro_result0 b Hb).
  - destruct (r_waitFinished r) eqn:E; [|done]. destruct (r_result r); [done|]. destruct I. constructor; cbn; auto.
    intros b [= <-]. done.
  - destruct I. by constructor.
Qed.

Lemma run_steps_ok chs r : run_ok r → run_ok (run_steps chs r).
Proof.
  revert r. induction chs as [|ch chs IH]; intros r I; [done|]. apply (IH (run_step ch r)), run_step_ok, I.
Qed.

Lemma run_step_left ch r : run_ok r → run_step ch r = r ∨ (run_left (run_step ch r) < run_left r)%nat.
Proof.
  intros I. unfold run_left. destruct ch as [i err|i|i| | |]; cbn.
  - destruct (r_svcs r !! i) as [[]|] eqn:Hi; [|by left..]. right. cbn.
    pose proof (sum_left_insert _ _ _ (SvcReturned err) Hi ltac:(cbn; lia)). lia.
  - destruct (r_result r) eqn:Er; [by left|]. destruct (r_svcs r !! i) as [[|err| |]|] eqn:Hi; [by left| |by left..]. right.
    pose proof (sum_left_insert _ _ _ (SvcSent err) Hi ltac:(cbn; lia)). unfold receive. destruct err; cbn; rewrite Er; lia.
  - destruct (r_svcs r !! i) as [[| |err|]|] eqn:Hi; [by left..| |by left|by left]. right. cbn.
    pose proof (sum_left_insert _ _ _ (SvcDone err) Hi ltac:(cbn; lia)). lia.
  - destruct (forallb is_done (r_svcs r)); [|by left]. destruct (r_waitFinished r) eqn:Ew; [left; destruct r; cbn in *; by subst|].
    right. cbn. lia.
  - destruct (r_waitFinished r) eqn:Ew; [|by left]. destruct (r_result r); [by left|]. right. cbn. lia.
  - destruct (r_signalled r) eqn:Es; [left|right; cbn; lia]. pose proof (ro_cancelled _ I) as Hc. rewrite Es in Hc.
    destruct r; cbn in *; by subst.
Qed.

(** Nothing but a service that returns, or a signal, can change anything. *)
Definition run_idle (r : Run) : Prop :=
  run_step RcWait r = r ∧ run_step RcFinish r = r ∧
  ∀ i, run_step (RcReceive i) r = r ∧ run_step (RcDone i) r = r.

Lemma idle_running r : run_ok r → run_idle r → r_result r = None → SvcRunning ∈ r_svcs r.
Proof.
  intros I (Hw & Hf & Hi) Hr. destruct (forallb is_done (r_svcs r)) eqn:Ed.
  - exfalso. cbn in Hw, Hf. rewrite Ed in Hw. rewrite Hr in Hf.
    assert (r_waitFinished r = true) as Ew by (rewrite <- Hw; done). rewrite Ew in Hf.
    apply (f_equal r_result) in Hf. cbn in Hf. congruence.
  - apply not_true_iff_false in Ed. rewrite forallb_forall in Ed.
    destruct (decide (SvcRunning ∈ r_svcs r)) as [|Hn]; [done|]. destruct Ed. intros v Hv%list_elem_of_In.
    apply list_elem_of_lookup_1 in Hv as [i Hv]. destruct (Hi i) as [H1 H2]. cbn in H1, H2. rewrite Hr, Hv in *.
    assert (i < length (r_svcs r))%nat by (by eapply lookup_lt_Some).
    assert (Hset : ∀ w, r_svcs r = <[i := w]> (r_svcs r) → Some v = Some w).
    { intros w E. rewrite <- Hv. rewrite E. by apply list_lookup_insert_eq. }
    destruct v as [|err|err|]; [|specialize (Hset (SvcSent err))|specialize (Hset (SvcDone err))|done].
    + destruct Hn. by eapply list_elem_of_lookup_2.
    + apply (f_equal r_svcs) in H1. unfold receive in H1. destruct err; cbn in H1; symmetry in H1; by specialize (Hset H1).
    + apply (f_equal r_svcs) in H2. cbn in H2. symmetry in H2. by specialize (Hset H2).
Qed.

Lemma start_ok cfg names r : RunServices cfg names = Ret r → run_ok r.
Proof.
  unfold RunServices. destruct (start_services cfg names) as [cfgs|]; [|done]. intros [= <-]. constructor; cbn; try done.
  by induction cfgs.
Qed.

Lemma failed_elem r : existsb failed (r_svcs r) = true ↔ ∃ e, SvcSent (Some e) ∈ r_svcs r ∨ SvcDone (Some e) ∈ r_svcs r.
Proof.
  rewrite existsb_exists. setoid_rewrite <- list_elem_of_In. split.
  - intros ([| |[e|]|[e|]] & Hv & Hf); try done; exists e; auto.
  - intros (e & [Hv|Hv]); eexists; split; [exact Hv|done|exact Hv|done].
Qed.

(** C25: However the goroutines of [RunServices] interleave and
    whenever services return and signals come: each step changes nothing or
    leaves less to do; if none of the program's own can change anything, a
    service still runs or the result is there; it is there only after every
    service has returned and its goroutine has ended, and is true exactly if
    none returned an error; and the context is cancelled exactly when a signal
    came or the error of a service was received. *)
Theorem services_end cfg names r0 chs :
  RunServices cfg names = Ret r0 →
  let r := run_steps chs r0 in
  (∀ ch, run_step ch r = r ∨ (run_left (run_step ch r) < run_left r)%nat) ∧
  (run_idle r → SvcRunning ∈ r_svcs r ∨ is_Some (r_result r)) ∧
  (∀ b, r_result r = Some b →
    (∀ v, v ∈ r_svcs r → ∃ err, v = SvcDone err) ∧ (b = true ↔ ∀ v, v ∈ r_svcs r → v = SvcDone None)) ∧
  (r_cancelled r = true ↔
    r_signalled r = true ∨ ∃ e, SvcSent (Some e) ∈ r_svcs r ∨ SvcDone (Some e) ∈ r_svcs r).
Proof.
  intros Hr0 r. assert (I : run_ok r) by (by eapply run_steps_ok, start_ok).
  split; [intros ch; by apply run_step_left|]. split.
  { intros Hidle. destruct (r_result r) eqn:E; [right; by eexists|left; by apply idle_running]. }
  split.
  - intros b Hb. destruct (ro_result _ I b Hb) as [Hw ->]. pose proof (ro_wait _ I Hw) as Hd. rewrite forallb_forall in Hd.
    assert (Hall : ∀ v, v ∈ r_svcs r → ∃ err, v = SvcDone err).
    { intros v Hv%list_elem_of_In. specialize (Hd v Hv). destruct v; try done. by eexists. }
    split; [done|]. rewrite (ro_ret _ I), negb_true_iff, <- not_true_iff_false, failed_elem. split.
    + intros Hn v Hv. destruct (Hall v Hv) as [[e|] ->]; [|done]. destruct Hn. exists e. by right.
    + intros Hv (e & [He|He]); by apply Hv in He.
  - rewrite (ro_cancelled _ I), (ro_ret _ I), negb_involutive, orb_true_iff, failed_elem. done.
Qed.

(** ** Configuration, durations and heartbeats *)

Section more.
Context `{ConfigFiles, LogLib, GoEnv}.

Lemma ConnectSyslog_again addr s w :
  l_syslogW (sys_logger s) = Some w →
  ∃ s', ConnectSyslog addr s = (Ret (Some "syslog already dialed"), s') ∧
    l_syslogW (sys_logger s') = Some w ∧ sys_world s' = sys_world s.
Proof.
  intros Hw. assert (Hi : l_syslogW (initPrinter (sys_logger s)) = Some w) by (unfold initPrinter; by case_match).
  exists (mkSys (initPrinter (sys_logger s)) (sys_world s)). split; [|done].
  unfold ConnectSyslog, log_connect, on_logger. rewrite bind_modify, bind_get. cbn [sys_logger]. by rewrite Hi.
Qed.

Lemma SetLevel_keeps lvl s :
  ∃ s', SetLevel lvl s = (Ret tt, s') ∧ l_syslogW (sys_logger s') = l_syslogW (sys_logger s) ∧ sys_world s' = sys_world s.
Proof. eexists. split; [reflexivity|]. cbn. split; [|done]. unfold initPrinter. by case_match. Qed.

(** The appliance reads its configuration in its main program and again in
    [RunServices]: a configuration that was loaded is loaded again, and leaves
    the connection to syslog as it is. *)
Lemma InitConfig_again path cfg cfg1 s s1 :
  InitConfig path cfg s = (Ret (cfg1, None), s1) → LoadJSONConfig path cfg1 = (cfg1, None) →
  (mc_UseSyslog cfg1 = true → is_Some (l_syslogW (sys_logger s1))) →
  ∃ s2, InitConfig path cfg1 s1 = (Ret (cfg1, None), s2) ∧
    l_syslogW (sys_logger s2) = l_syslogW (sys_logger s1) ∧ sys_world s2 = sys_world s1.
Proof.
  intros E Hl Hsys. assert (Hlvl : ∃ lvl, ParseLevel (mc_LogLevel cfg1) = (lvl, None)).
  { revert E. unfold InitConfig. destruct (LoadJSONConfig path cfg) as [c [e|]]; [done|].
    unfold mbind at 1, GoM_bind at 1. destruct ((if mc_UseSyslog c then ConnectSyslog (mc_SyslogAddr c) else mret nil_err) s) as [[err|] s']; [|done].
    case_match; [done|]. destruct (ParseLevel (mc_LogLevel c)) as [lvl [e|]] eqn:Ep; [done|].
    destruct (SetLevel_keeps lvl s') as (s'' & E' & _). rewrite (bind_ret _ _ _ _ _ E'). intros [= -> _]. by exists lvl. }
  destruct Hlvl as [lvl Hlvl]. unfold InitConfig. rewrite Hl.
  assert (∃ err s', (if mc_UseSyslog cfg1 then ConnectSyslog (mc_SyslogAddr cfg1) else mret None) s1 = (Ret err, s') ∧
    match err with Some e => bool_decide (e ≠ "syslog already dialed") | None => false end = false ∧
    l_syslogW (sys_logger s') = l_syslogW (sys_logger s1) ∧ sys_world s' = sys_world s1) as (err & s' & E1 & He & Hw & Hwd).
  { destruct (mc_UseSyslog cfg1); [|by exists None, s1]. destruct (Hsys eq_refl) as [w Hw].
    destruct (ConnectSyslog_again (mc_SyslogAddr cfg1) s1 w Hw) as (s' & E1 & Hw' & Hwd).
    do 2 eexists. split; [exact E1|]. rewrite Hw, Hw'. by rewrite bool_decide_eq_false_2 by auto. }
  rewrite (bind_ret _ _ _ _ _ E1), He, Hlvl. destruct (SetLevel_keeps lvl s') as (s2 & E2 & Hw2 & Hwd2).
  exists s2. rewrite (bind_ret _ _ _ _ _ E2). split; [done|]. by rewrite Hw2, Hwd2.
Qed.
End more.

(** After the context is done and the ticker is stopped, the handler is called
    at most once more, for a tick that was waiting. *)
Lemma heartbeat_stops chs b :
  hb_stopped b = true →
  let b' := foldl (λ b ch, beat_step true ch b) b chs in
  hb_stopped b' = true ∧ (hb_calls b' + (if hb_tick b' then 1 else 0) = hb_calls b + (if hb_tick b then 1 else 0))%nat.
Proof.
  revert b. induction chs as [|ch chs IH]; intros b Hb; [done|]. cbn [foldl].
  assert (Hs : hb_stopped (beat_step true ch b) = true ∧
    (hb_calls (beat_step true ch b) + (if hb_tick (beat_step true ch b) then 1 else 0)
     = hb_calls b + (if hb_tick b then 1 else 0))%nat).
  { destruct ch; cbn; [by rewrite Hb| |done]. destruct (hb_tick b) eqn:Et; cbn; [|by rewrite Hb, Et]. split; [done|lia]. }
  destruct Hs as [H1 H2]. destruct (IH _ H1) as [H3 H4]. split; [done|]. cbn in *. by rewrite H4, H2.
Qed.

(** The goroutine does not return when the context is done: it goes round its
    loop as often as it is scheduled. *)
Example heartbeat_spins :
  hb_spins (foldl (λ b ch, beat_step true ch b) (mkBeat false false 0 0) (replicate 1000 BcDone)) = 1000%nat.
Proof. by vm_compute. Qed.

(** A text without quotes is what is left of it between quotes. *)
Fixpoint unquoted (s : string) : bool :=
  match s with EmptyString => true | String c s' => bool_decide (c ≠ quote) && unquoted s' end.

Lemma rev_app_app s t u : String.rev_app (s +:+ t) u = String.rev_app t (String.rev_app s u).
Proof. revert u. induction s as [|c s IH]; intros u; [done|]. apply IH. Qed.

Lemma rev_app_twice s t u : String.rev_app (String.rev_app s t) u = String.rev_app t (s +:+ u).
Proof. revert t u. induction s as [|c s IH]; intros t u; [done|]. cbn. by rewrite IH. Qed.

Lemma unquoted_rev_app s t : unquoted s = true → unquoted t = true → unquoted (String.rev_app s t) = true.
Proof.
  revert t. induction s as [|c s IH]; intros t; cbn [unquoted String.rev_app]; [done|]. intros [Hc Hs]%andb_true_iff Ht.
  apply IH; [done|]. cbn [unquoted]. by rewrite Hc.
Qed.

Lemma trim_left_unquoted s : unquoted s = true → trim_left s = s.
Proof.
  destruct s as [|c s]; [done|]. cbn [trim_left unquoted]. intros [Hc%bool_decide_eq_true _]%andb_true_iff. by rewrite bool_decide_eq_false_2.
Qed.

Lemma trim_quotes_quoted s : unquoted s = true → trim_quotes (String quote (s +:+ String quote "")) = s.
Proof.
  intros Hs. unfold trim_quotes. cbn [trim_left]. rewrite bool_decide_eq_true_2 by done. destruct s as [|c s]; [done|].
  assert (Ht : trim_left (String c s +:+ String quote "") = String c s +:+ String quote "").
  { cbn [unquoted] in Hs. change (trim_left (String c (s +:+ String quote "")) = String c s +:+ String quote "").
    cbn [trim_left]. apply andb_true_iff in Hs as [Hc%bool_decide_eq_true _]. by rewrite bool_decide_eq_false_2. }
  rewrite Ht. unfold String.rev at 2. rewrite rev_app_app. cbn [String.rev_app trim_left].
  rewrite bool_decide_eq_true_2 by done. rewrite trim_left_unquoted by (by apply (unquoted_rev_app (String c s) "")).
  unfold String.rev. change (String.rev_app s (String c "")) with (String.rev_app (String c s) "").
  rewrite rev_app_twice. cbn. by rewrite str_app_nil_r.
Qed.

(** A duration is read back as it was written, if it can be parsed at all. *)
Lemma duration_roundtrip `{Durations} d :
  ParseDuration (Duration_String d) = inl d → unquoted (Duration_String d) = true →
  UnmarshalDuration (MarshalDuration d) = inl d.
Proof. intros Hp Hq. unfold UnmarshalDuration, MarshalDuration. by rewrite trim_quotes_quoted. Qed.

(** The main program goes on with the first attempt that succeeds. *)
Lemma enroll_loop_first attempts n :
  enroll_loop attempts = Some n ↔ attempts !! n = Some None ∧ ∀ k, (k < n)%nat → ∃ e, attempts !! k = Some (Some e).
Proof.
  revert n. induction attempts as [|[e|] attempts IH]; intros n; cbn.
  - by split; [|intros [? _]].
  - rewrite fmap_Some. split.
    + intros (m & Hm & ->). apply IH in Hm as [H1 H2]. split; [done|]. intros [|k] Hk; [by eexists|]. apply H2. lia.
    + intros [H1 H2]. destruct n as [|n]; [done|]. exists n. split; [|done]. apply IH. split; [done|].
      intros k Hk. apply (H2 (S k)). lia.
  - split.
    + intros [= <-]. split; [done|]. intros k Hk. lia.
    + intros [H1 H2]. destruct n as [|n]; [done|]. destruct (H2 O ltac:(lia)) as [e He]. done.
Qed.

(** ** Examples *)

Definition two_services : list string := ["github.com/Sma-RTy/native-on-prem/edgenode/pkg/ela.Run"; "github.com/Sma-RTy/native-on-prem/edgenode/pkg/eva.Run"].
Definition demo_cfg : MainConfig :=
  mkMainConfig false "" "info" {[ "github.com/Sma-RTy/native-on-prem/edgenode/pkg/ela" := "configs/ela.json" ]} (mkEnrollConfig "" 0 "").
Definition demo_run : Run :=
  mkRun [SvcRunning; SvcRunning] ["configs/ela.json"; ""] false false true false None.

(** One service fails, the other is cancelled and returns. *)
Definition demo_choices : list runChoice :=
  [RcReturn 1 (Some "no such file"); RcReceive 1; RcReturn 0 None; RcDone 1; RcReceive 0; RcDone 0; RcWait; RcFinish].

Lemma services_end_witness :
  RunServices demo_cfg two_services = Ret demo_run ∧ r_result (run_steps demo_choices demo_run) = Some false ∧
  (r_cancelled (run_steps demo_choices demo_run) = true ↔
    r_signalled (run_steps demo_choices demo_run) = true ∨
    ∃ e, SvcSent (Some e) ∈ r_svcs (run_steps demo_choices demo_run) ∨ SvcDone (Some e) ∈ r_svcs (run_steps demo_choices demo_run)).
Proof.
  assert (H : RunServices demo_cfg two_services = Ret demo_run) by (vm_compute; reflexivity).
  split; [exact H|]. split; [vm_compute; reflexivity|].
  exact (proj2 (proj2 (proj2 (services_end demo_cfg two_services demo_run demo_choices H)))).
Defined.
